(* ===== verification/_CoqProject ===== *)
-Q . S2P
Prelude.v
Effects.v
Libc.v
ReList.v
ReListProps.v
Hash.v
G711.v
Crc32.v
Base64.v
CoreJson.v
CoreJsonSafety.v
CoreJsonSearch.v
CoreJsonGrammar.v
CoreJsonTokens.v
CoreJsonComplete.v
CoreJsonLookup.v
PeerConn.v
ClientSession.v
PeerConnInv.v
PeerConnProps.v
Mbuf.v
MbufProps.v
RtcConnection.v
RtcConnectionInv.v
RtcConnectionProps.v
RtcMessages.v
RtcClient.v
RtcClientProps.v
Rtp.v
Srtp.v
SrtpProps.v
SrtpRoundtrip.v
Srtcp.v
Jbuf.v
JbufProps.v
Codec.v
RtcpPkt.v
RtcpPktProps.v
RtcpRoundtrip.v
RtcpSess.v
RtcpSourceProps.v
RtcpSessProps.v
RtpSock.v
RtpSockProps.v
RtpDelivery.v
RtcpReport.v
StunMsg.v
StunProps.v
StunRoundtrip.v
StunCheck.v
Aubuf.v
Tmr.v
Ice.v
IceProps.v
IceSteps.v
IceEvents.v
IceForm.v
IceTheorems.v
StunTrans.v
StunTransProps.v
StunExchange.v
HashFunc.v
HashFuncProps.v
Odict.v
OdictProps.v
ReJson.v
ReJsonTokens.v
ReJsonText.v
ReJsonDict.v
ReJsonPrint.v
ReJsonTheorems.v
Websock.v
WebsockFrames.v
WebsockRecv.v
WebsockLife.v
WebsockSafe.v
WebsockTheorems.v
