(* ===== verification/Prelude.v ===== *)
(** * A verification development for the BareRTC client

    ** The program

    The repository is a WebRTC client for the Baidu RTC service and the
    libraries it is built on.  Its own code is barertc/: a client that talks
    to a Janus video-room server over a web socket (brtc/), opens peer
    connections for what it publishes and subscribes to (peerconn.c,
    mediatrack.c, descr.c) and is driven by a small program (barertc.c).  re/,
    rem/ and baresip/ are the libraries below it: buffers, RTP, SRTP, ICE,
    SDP, audio and video streams.

    How the parts interact: a web-socket message reaches [onRTCMessage]
    (RTCConnection.c), which reads it with the JSON scanner (core_json.c) and
    calls the observer of the connection, the signalling client
    (baidu_rtc_signal_client.c).  That client creates a session
    (baidu_rtc_client_session.c) for a plugin handle; the session owns a peer
    connection, whose gathering, establishment and close callbacks come back
    to the session, which sends its offer or answer through the connection.
    The media that the peer connection starts is sent as RTP packets, written
    into memory buffers (re/src/mbuf), with headers of re/src/rtp, protected
    by re/src/srtp.  An RTP socket (re/src/rtp/rtp.c) numbers what it sends
    and hands what it receives to its RTCP session (sess.c), which keeps its
    members in a hash table (re/src/hash), counts losses (source.c), reads the
    reports of its peers and sends its own (pkt.c); received packets wait in a
    jitter buffer (re/src/jbuf) on linked lists (re/src/list), decoded audio
    in an audio buffer (rem/src/aubuf).  The transport of a peer connection is
    found by ICE (re/src/ice): an agent pairs its candidate addresses with
    those of its peer, checks the pairs with STUN requests (re/src/stun) paced
    by timers (re/src/tmr) and answers the checks of its peer.  libre also has
    a dictionary type (re/src/odict) in which session descriptions travel as
    JSON (re/src/json), and web sockets (re/src/websock).

    ** The files

    - Prelude.v (this file): machine integers with their wrap-around, reads
      with bounds, string literals, the tactics [zdec] and [by_enum].
    - Effects.v: the state monad of the stateful components with undefined
      behaviour as [None], [errno] values, and the rules for invariants.
    - Libc.v: the C string functions that the signalling code uses.
    - CoreJson.v (Module Json): barertc/src/brtc/core_json.c, one definition
      per C function; a loop is a fixpoint [<function>_loop] on fuel.
      CoreJsonSafety.v: no scanner reads outside its buffer; CoreJsonSearch.v:
      validation, search and iteration are total and safe; CoreJsonGrammar.v:
      the grammar of RFC 8259 and UTF-8; CoreJsonTokens.v, CoreJsonComplete.v:
      the scanners and the validator accept the grammar; CoreJsonLookup.v:
      the search returns the first member with the key.
    - PeerConn.v (Module Pc): peerconn.c and mediatrack.c; a heap of peer
      connections, the timer list, the session list and a trace of the media
      actions.  ClientSession.v (Modules Descr and Session): descr.c,
      baidu_rtc_client_session.c and the handlers of the signalling client
      that drive a session.  PeerConnInv.v: the events of a session, the
      states they reach, the invariant.  PeerConnProps.v: the theorems.
    - RtcConnection.v (Module Conn): RTCConnection.c, the connection with its
      transaction, handle and listener arrays, the requests it formats and
      the dispatch of what it receives.  RtcConnectionInv.v: the invariant of
      the transaction slots.  RtcConnectionProps.v: the theorems on replies
      and events.  RtcMessages.v: the texts of the requests against the JSON
      grammar.
    - RtcClient.v (Module Client): baidu_rtc_signal_client.c, the client
      object behind [g_client] with its life, settings, room log-in, keepalive
      watchdog and observer functions, on top of the connection.
      RtcClientProps.v: the operations an application calls, the states they
      reach, the theorems.
    - ReList.v (Module Ll), ReListProps.v: re/src/list/list.c on cells with
      pointers.  Hash.v (Module Ht): re/src/hash/hash.c; HashFunc.v (Module
      Hf), HashFuncProps.v: the hash functions of func.c.  G711.v (Module
      G711): the tables of rem/src/g711.  Crc32.v (Module Crc), Base64.v
      (Module B64): re/src/crc32, re/src/base64.
    - Mbuf.v (Module Mb), MbufProps.v: re/src/mbuf/mbuf.c and the inline
      functions of re_mbuf.h.
    - Rtp.v (Module Rtp): the RTP header of re/src/rtp/rtp.c.
    - Srtp.v (Module Srtp), SrtpProps.v, SrtpRoundtrip.v: re/src/srtp: replay
      window, streams, key derivation, packet protection.  Srtcp.v (Module
      Srtcp): srtcp.c, and that a packet is accepted once.
    - Jbuf.v (Module Jb), JbufProps.v: re/src/jbuf/jbuf.c.
    - Codec.v: the rules for decoders and encoders over buffers.  RtcpPkt.v
      (Module Rtcp): pkt.c, rr.c, sdes.c and fb.c of re/src/rtp;
      RtcpPktProps.v: decoding is safe; RtcpRoundtrip.v: packets survive the
      wire.
    - RtcpSess.v (Module Sess): source.c, member.c, sess.c and the compact
      time of ntp.c; RtcpSourceProps.v: losses and jitter of a source;
      RtcpSessProps.v: the invariant of the member table.
    - RtpSock.v (Module Sock): the sockets of rtp.c and the feedback packets
      of rtcp.c; RtpSockProps.v: the states of a socket; RtpDelivery.v,
      RtcpReport.v: a packet and a report on their way from one socket to
      another.
    - StunMsg.v (Module Stun): hdr.c, addr.c, attr.c and msg.c of re/src/stun;
      StunProps.v: decoding is total and typed; StunRoundtrip.v, StunCheck.v:
      messages survive the wire, with their integrity and fingerprint.
      StunTrans.v (Module Tr): ctrans.c, req.c, rep.c, ind.c and stun.c;
      StunTransProps.v: the events of the transactions, their invariant, the
      retransmission; StunExchange.v: a request and its reply between two
      agents.
    - Odict.v (Module Od): re/src/odict, dictionaries and entries as objects
      with references; OdictProps.v: dictionaries as trees, their release and
      lookup.  ReJson.v (Module Rj): re/src/json and the UTF-8 escapes of
      re/src/fmt/unicode.c; ReJsonTokens.v, ReJsonText.v: numbers, strings and
      the layout of a text; ReJsonDict.v: what the decoder builds;
      ReJsonPrint.v: what the encoder prints; ReJsonTheorems.v: the theorems.
    - Websock.v (Module Ws): re/src/websock/websock.c; a finite map of
      connections, the socket, and a log of what is sent and reported.
      WebsockFrames.v: frames on the wire; WebsockRecv.v: frames from pieces;
      WebsockLife.v: the invariant of connections and references;
      WebsockSafe.v: each handler keeps it; WebsockTheorems.v: the events of a
      socket, the states they reach, the theorems.
    - Aubuf.v (Module Ab): rem/src/aubuf/aubuf.c.  Tmr.v (Module Tm):
      re/src/tmr/tmr.c.
    - Ice.v (Module Ice): util.c, cand.c, candpair.c, chklist.c, connchk.c,
      stunsrv.c of re/src/ice and the parts of comp.c and icem.c they use.
      IceProps.v: well-formed streams, how they evolve, the rules for
      programs; IceSteps.v: the connectivity checks and their recursion;
      IceEvents.v: candidates, responses and requests; IceForm.v: the
      checklist; IceTheorems.v: the histories of a stream and the theorems.

    ** How C is modelled

    An unsigned integer is a [Z] with the wrap of its width applied where the
    code can leave it; a buffer is a list of byte values; a pointer into a
    buffer is an index; a heap object is a number in a finite map.  [None] is
    undefined behaviour: a NULL or dangling pointer, an access outside an
    object, a failed assertion, an overflowing [int].  A function that fails
    returns its [errno] value.  Arguments that the C functions only test
    against NULL at their entry are not optional here.  Printing and logging
    are left out.

    Loops of core_json.c run on [fuel max = max + 2] steps, [max] being the
    size of the buffer: every iteration advances the index, and the theorems
    [JSON_Validate_safe], [JSON_SearchConst_slice] and
    [JSON_Iterate_progress] prove that a result is always reached.  The loops
    over packets have the number of bytes left plus one as fuel, those over
    padding four, the sorting of a list its length squared;
    [rtcp_decode_safe], [socket_receives] and [list_sort_sorts] prove that
    this is enough.  [pace_next] of connchk.c, which calls itself through
    failing checks, has one turn for each pair of the checklist and two more,
    a poll of the timers one for each timer in the list; [ice_handlers_defined]
    and [timers_poll_ends] prove that this is enough.  The loop of the JSON
    decoder of libre has two turns for each character and two more, the
    release and the encoding of a dictionary one for each level, the receive
    loop of a web socket one for each byte and one more, of which every frame
    takes two at least; [json_decode_no_leak], [json_roundtrip] and
    [websock_lifecycle] prove that this is enough.  The decimal conversion
    has fuel 20, more than the digits of a 64-bit number ([atoll_lld]).

    Code outside the sources is a parameter: AES and HMAC (class [Crypto],
    with what the code relies on in [CryptoLaws]), the results of the media,
    ICE, DTLS and SDP layers (the oracle of PeerConn.v), HMAC-SHA1 of STUN
    messages, the results of the sockets, the clock and the handlers of the timers, the results of the
    STUN requests and TURN channels of ICE, in ClientSession.v the JSON
    decoder of the dictionary type (which ReJson.v models), the long double
    arithmetic and the printing of real numbers, SHA-1, the HTTP messages of
    a web-socket handshake and what TCP reports, success of allocation
    ([alloc_ok], [alloc], [mem_ok]) and the content of fresh memory ([junk]),
    random numbers ([rand]), the observer's function pointers ([observer]).
    Theorems hold for every value of these parameters, or under laws of which
    the witnesses show that they can hold.

    ** The theorems

    - JSON: validation and search never read outside the buffer and always
      end; every text of the grammar is accepted; a search returns exactly the
      value of the first member with the key, as a slice of the buffer;
      iteration makes progress; UTF-8 sequences are recognised exactly.  The
      converse of completeness fails ([JSON_Validate_unsound]).
    - Calls: a connection answers only a pending remote offer, makes an offer
      only while none is pending on either side, and takes no remote
      description over a pending remote offer (its guards are weaker than
      JSEP, which PeerConnProps.v says in detail); media starts only on
      streams whose media encryption was started and that were marked secure;
      ICE is retried at most ten times; a complete call set-up runs to
      started media; a session description survives encoding and decoding.
    - Signalling: in every state a connection reaches, a pending transaction
      id leads to a live transaction with the callback of its slot; a reply
      runs that callback once; the session reply stores the session id and
      asks for a handle; the requests are valid JSON.  The client reports a
      server that falls silent, keeps one that answers, and can be shut down
      safely in every state an application can reach, which releases a
      connection that is open (one that is still being opened is left).
    - Buffers and packets: writes put exactly the given bytes and move the
      position, reads return what was written, shifting keeps the content; an
      RTP header survives encoding and decoding and is decoded without
      reading outside the packet.
    - SRTP: the replay bitmap implements a window of the last 64 indices; the
      estimated index is the nearest one; a protected packet without a header
      extension is recovered by the receiver, both for roll-over counters
      below 2^15; an accepted packet is never accepted again.
    - Containers: the pointer operations of linked lists implement operations
      on sequences, sorting ends and sorts, a hash table answers like the
      sequence of its elements; [hash_fast] gives a key the same hash
      wherever it lies in memory.
    - Dictionaries: a dictionary (without doubles and without the least
      integer) that is printed as JSON is decoded to the same dictionary; a
      text laid out as an object gives exactly its members, which lookup
      finds; on every text without a number or exponent outside [int64_t], and
      whatever allocation fails, decoding stays inside the text, ends and leaks
      nothing.
    - Web sockets: what is sent at one end of a connection is received at the
      other, however TCP cuts it; under every sequence of events, handlers that
      release their connection included, connections are used only while they
      exist, closed once and freed; the socket ends after its connections.
      The exception is a masked length that wraps ([websock_wild_length]).
    - Media: a jitter buffer plays frames in the order of their sequence
      numbers (late packets after number 0 was played apart) and keeps count
      of its frames; the G.711 tables compute the
      laws of the standard, the CRC table the shift register; base64 text is
      decoded to what was encoded, inside the buffer.
    - RTP and RTCP: every kind of RTCP packet survives encoding and decoding,
      and decoding is safe on all input; the losses of a source are those of
      RFC 3550; in every reachable state of a socket the session counts its
      members and senders, and every datagram is handled whose time stamp does
      not overflow the jitter; what one socket sends, packets and reports,
      another delivers.
    - STUN: a decoder that is total on all packets and types its attributes, a
      round trip of messages (DATA and PADDING attributes apart) with their
      integrity and fingerprint, and the safety of both checks on messages of an attacker.  A transaction is
      ended once, by its own response, by its last timeout at the time the
      configuration gives, or by closing; a request and its reply meet.
    - Timers and audio: the timer list holds the running timers by expiry and
      a poll fires exactly those that are due; the audio buffer implements a
      first-in first-out queue of bytes, as long as its limit is not passed
      and reads are not larger than the wished size, and loses nothing.
    - ICE: whatever candidates, checks, responses, requests and timers a media
      stream sees, its handlers are defined and end, its lists stay ordered
      and disjoint and its completed checks final; the checklist is formed as
      specified; both agents agree on priorities.
    - Defects, each a theorem about the same definitions, whose comment says
      what the code does and why.

    ** Not modelled

    The web-socket client of mongoose.c (third-party code with its own HTTP
    server, pure I/O),
    the command line and HTTP demo of barertc.c, of the signalling client the
    keepalive thread (never started) and the frame observers (never called),
    and of the libraries STUN keepalives and server discovery, TURN, SDP,
    DTLS, SIP, HTTP, the printf family and regular expressions, other codecs,
    devices and the modules of baresip; of ICE the elimination of redundant
    candidates (it releases references that it may not own), the choice of
    default candidates, the SDP attributes and re-offers.  The calls of the application's handlers are recorded, not
    followed, where a handler could call back.  restund and baresip-webrtc (an
    earlier copy of the peer-connection demo) are separate programs.  What
    would follow next: HTTP messages under the web sockets, the round trip of
    SRTCP, SDP. *)

From stdpp Require Export base tactics option list numbers strings.

From Stdlib Require Export ZArith Lia Bool.

Global Open Scope Z_scope.

(** ** Machine integers

    A w-bit unsigned C integer is a [Z] in [0, 2^w); every place where the
    source can leave that range applies the wrap below. *)

Definition u8 (z : Z) : Z := z mod 2 ^ 8.
Definition u16 (z : Z) : Z := z mod 2 ^ 16.
Definition u32 (z : Z) : Z := z mod 2 ^ 32.
Definition u64 (z : Z) : Z := z mod 2 ^ 64.

(** [size_t] of the 64-bit targets. *)
Definition usz (z : Z) : Z := z mod 2 ^ 64.
Definition SIZE_MAX : Z := 2 ^ 64 - 1.

(** Two's-complement reading of a 32-bit pattern ([int] of the targets). *)
Definition i32 (z : Z) : Z := (z + 2 ^ 31) mod 2 ^ 32 - 2 ^ 31.

Create HintDb cint.
Create Rewrite HintDb cint.

Lemma u8_small z : 0 <= z < 256 -> u8 z = z.
Proof. intros. apply Z.mod_small. lia. Qed.
Lemma u16_small z : 0 <= z < 65536 -> u16 z = z.
Proof. intros. apply Z.mod_small. lia. Qed.
Lemma u32_small z : 0 <= z < 2 ^ 32 -> u32 z = z.
Proof. intros. apply Z.mod_small. lia. Qed.
Lemma u64_small z : 0 <= z < 2 ^ 64 -> u64 z = z.
Proof. intros. apply Z.mod_small. lia. Qed.
Lemma usz_small z : 0 <= z <= SIZE_MAX -> usz z = z.
Proof. unfold SIZE_MAX. intros. apply Z.mod_small. lia. Qed.
Lemma i32_small z : - 2 ^ 31 <= z < 2 ^ 31 -> i32 z = z.
Proof. unfold i32. intros. rewrite Z.mod_small; lia. Qed.

Lemma u8_range z : 0 <= u8 z < 256.
Proof. apply (Z.mod_pos_bound z 256). lia. Qed.
Lemma u16_range z : 0 <= u16 z < 65536.
Proof. apply (Z.mod_pos_bound z 65536). lia. Qed.
Lemma u32_range z : 0 <= u32 z < 2 ^ 32.
Proof. apply Z.mod_pos_bound. lia. Qed.
Lemma u64_range z : 0 <= u64 z < 2 ^ 64.
Proof. apply Z.mod_pos_bound. lia. Qed.

#[export] Hint Resolve u8_range u16_range u32_range u64_range : cint.

(** ** Reads with bounds

    [rd buf i] is [buf[i]]: [None] is an access outside the object. *)
Definition rd (buf : list Z) (i : Z) : option Z :=
  if 0 <=? i then buf !! Z.to_nat i else None.

Definition zlen {A} (l : list A) : Z := Z.of_nat (length l).

(** Linear arithmetic with powers of two and divisions by constants. *)
Ltac pow2_literals :=
  repeat match goal with
  | |- context [2 ^ Zpos ?k] => let v := eval vm_compute in (2 ^ Zpos k) in change (2 ^ Zpos k) with v
  | H : context [2 ^ Zpos ?k] |- _ =>
    let v := eval vm_compute in (2 ^ Zpos k) in change (2 ^ Zpos k) with v in H
  end.
Ltac dlia := pow2_literals; Z.to_euclidean_division_equations; lia.

(** ** Bit fields *)

Lemma land_mask x m n : 0 <= n -> m = 2 ^ n - 1 -> Z.land x m = x mod 2 ^ n.
Proof. intros Hn ->. rewrite <- Z.land_ones by done. f_equal. rewrite Z.ones_equiv. lia. Qed.

Lemma lor_add a b n : 0 <= n -> 0 <= b < 2 ^ n -> Z.lor (Z.shiftl a n) b = a * 2 ^ n + b.
Proof.
  intros Hn Hb. rewrite Z.shiftl_mul_pow2 by done. symmetry. rewrite <- Z.add_lor_land.
  enough (Z.land (a * 2 ^ n) b = 0) by lia. apply Z.bits_inj'. intros k Hk.
  rewrite Z.land_spec, Z.bits_0. destruct (Z.ltb_spec k n).
  - by rewrite Z.mul_pow2_bits_low by done.
  - rewrite (proj1 (Z.bounded_iff_bits_nonneg n b Hn ltac:(lia)) ltac:(lia) k ltac:(lia)).
    apply andb_false_r.
Qed.

(** ** Tables *)

(** [f k e] for every entry [e] with its index [k]. *)
Fixpoint table_ok (f : Z -> Z -> bool) (k : Z) (l : list Z) : bool :=
  match l with [] => true | e :: l => f k e && table_ok f (k + 1) l end.

Lemma table_lookup f k l i :
  table_ok f k l = true -> 0 <= i < zlen l -> exists e, rd l i = Some e /\ f (k + i) e = true.
Proof.
  unfold rd, zlen. intros Ht Hi. replace (0 <=? i) with true by lia.
  revert k i Ht Hi. induction l as [|e l IH]; intros k i Ht Hi; cbn [length] in Hi; [lia|].
  cbn in Ht. apply andb_true_iff in Ht as [He Ht].
  destruct (decide (i = 0)) as [->|Hne].
  - exists e. by rewrite Z.add_0_r.
  - destruct (IH (k + 1) (i - 1) Ht ltac:(lia)) as (e' & E1 & E2). exists e'.
    replace (Z.to_nat i) with (S (Z.to_nat (i - 1))) by lia. split; [done|].
    by replace (k + i) with (k + 1 + (i - 1)) by lia.
Qed.

(** C [assert]: the build does not define NDEBUG, so a false condition aborts;
    [None] is the abort. *)
Definition assert_ (b : bool) : option unit := if b then Some tt else None.

(** Characters of string literals, as byte values. *)
Definition bytes_of (s : String.string) : list Z :=
  map (fun c => Z.of_N (Ascii.N_of_ascii c)) (String.list_ascii_of_string s).

(** JSON text written with apostrophes for its quotation marks. *)
Definition json_text (s : String.string) : list Z :=
  map (fun c => if c =? 39 then 34 else c) (bytes_of s).

(** Decides closed (in)equalities over [Z] by evaluation. *)
Ltac zdec := repeat split; vm_compute; first [reflexivity | discriminate | congruence].

(** Case analysis over a small range of integers. *)
Lemma z_enum (P : Z -> Prop) lo n :
  Forall P (seqZ lo n) -> forall c, lo <= c < lo + n -> P c.
Proof. rewrite Forall_forall. intros H c Hc. apply H, elem_of_seqZ. lia. Qed.

Ltac by_enum := repeat (constructor; [vm_compute; repeat split; congruence|]); constructor.

(** A call that returned 0: goes on behind its error test. *)
Ltac no_error := cbn [mbind option_bind]; try change (negb (0 =? 0)) with false; cbv iota.
Tactic Notation "no_error" "in" hyp(H) :=
  cbn [mbind option_bind] in H; try change (negb (0 =? 0)) with false in H; cbv iota in H.
