(* ===== verification/Effects.v ===== *)
(** * Effects

    The state monad in which the stateful components are written: a
    computation takes the state and returns a result with the new state, or
    [None] where the C program has undefined behaviour (a NULL or dangling
    pointer is dereferenced, an object is freed twice). *)

From S2P Require Import Prelude.

Definition M (S A : Type) : Type := S -> option (A * S).

#[global] Instance M_ret S : MRet (M S) := fun A a s => Some (a, s).
#[global] Instance M_bind S : MBind (M S) :=
  fun A B f m s => match m s with Some (a, s) => f a s | None => None end.

Definition ub {S A} : M S A := fun _ => None.
Definition gets {S A} (f : S -> A) : M S A := fun s => Some (f s, s).
Definition modify {S} (f : S -> S) : M S unit := fun s => Some (tt, f s).
Definition of_option {S A} (o : option A) : M S A :=
  fun s => match o with Some a => Some (a, s) | None => None end.
Definition when {S} (b : bool) (m : M S unit) : M S unit :=
  if b then m else mret tt.

Fixpoint for_each {S A} (f : A -> M S unit) (l : list A) : M S unit :=
  match l with
  | [] => mret tt
  | x :: l => f x ;; for_each f l
  end.

(** errno values the sources return. *)
Definition EINVAL : Z := 22.
Definition ENOMEM : Z := 12.
Definition EPROTO : Z := 71.
Definition ERANGE : Z := 34.
Definition EBADMSG : Z := 74.
Definition EALREADY : Z := 114.
Definition ENOENT : Z := 2.
Definition EAUTH : Z := 217.
Definition ENOSYS : Z := 38.
Definition EOVERFLOW : Z := 75.
Definition ETIMEDOUT : Z := 110.
Definition ENOSR : Z := 63.
Definition ENOTSUP : Z := 95.
Definition EPROTONOSUPPORT : Z := 93.
Definition EAFNOSUPPORT : Z := 97.

(** ** Hoare triples

    [ok P m Q]: from every state of [P], [m] has defined behaviour and ends
    with a result and state of [Q]. *)
Definition ok {S A} (P : S -> Prop) (m : M S A) (Q : A -> S -> Prop) : Prop :=
  forall s, P s -> exists a s', m s = Some (a, s') /\ Q a s'.

(** [inv P m Q]: partial correctness, for behaviour that may be undefined. *)
Definition inv {S A} (P : S -> Prop) (m : M S A) (Q : A -> S -> Prop) : Prop :=
  forall s a s', P s -> m s = Some (a, s') -> Q a s'.

Create HintDb effects.

Section Rules.
Context {S : Type}.
Implicit Type P : S -> Prop.

Lemma bind_run {A B} (m : M S A) (f : A -> M S B) s b s'' :
  (m ≫= f) s = Some (b, s'') <->
  exists a s', m s = Some (a, s') /\ f a s' = Some (b, s'').
Proof.
  unfold mbind, M_bind. destruct (m s) as [[a s']|]; split; [by eauto|..].
  - by intros (? & ? & [= <- <-] & ?).
  - done.
  - by intros (? & ? & ? & ?).
Qed.

Lemma ok_ret {A} P (x : A) : ok P (mret x) (fun _ => P).
Proof. intros s Hs. by exists x, s. Qed.

Lemma ok_bind {A B} P Q R (m : M S A) (f : A -> M S B) :
  ok P m Q -> (forall x, ok (Q x) (f x) R) -> ok P (m ≫= f) R.
Proof.
  intros Hm Hf s Hs. destruct (Hm s Hs) as (x & s' & E & Hq). destruct (Hf x s' Hq) as (y & s'' & E' & Hr).
  exists y, s''. split; [|done]. apply bind_run. eauto.
Qed.

Lemma ok_post {A} P (m : M S A) (Q R : A -> S -> Prop) :
  ok P m Q -> (forall x s, Q x s -> R x s) -> ok P m R.
Proof. intros Hm Hi s Hs. destruct (Hm s Hs) as (x & s' & E & Hq). exists x, s'. auto. Qed.

Lemma ok_modify P f : (forall s, P s -> P (f s)) -> ok P (modify f) (fun _ => P).
Proof. intros Hf s Hs. exists tt, (f s). split; [done|]. by apply Hf. Qed.

Lemma ok_gets {A B} P (g : S -> A) (f : A -> M S B) Q :
  (forall x, ok P (f x) Q) -> ok P (gets g ≫= f) Q.
Proof. intros Hf s Hs. by apply (Hf (g s)). Qed.

Lemma inv_ret {A} (a : A) P : inv P (mret a) (fun _ => P).
Proof. by intros s b s' Hs [= <- <-]. Qed.

Lemma inv_bind {A B} P Q R (m : M S A) (f : A -> M S B) :
  inv P m Q -> (forall a, inv (Q a) (f a) R) -> inv P (m ≫= f) R.
Proof.
  intros Hm Hf s b s'' Hs Hr. apply bind_run in Hr as (a & s' & H1 & H2).
  eapply Hf; [|exact H2]. by eapply Hm.
Qed.

(** Invariants: a predicate that every sub-computation keeps. *)
Definition keeps {A} P (m : M S A) : Prop := inv P m (fun _ => P).

Lemma keeps_ret {A} (a : A) P : keeps P (mret a).
Proof. apply inv_ret. Qed.

Lemma keeps_bind {A B} P (m : M S A) (f : A -> M S B) :
  keeps P m -> (forall a, keeps P (f a)) -> keeps P (m ≫= f).
Proof. intros. by eapply inv_bind. Qed.

Lemma keeps_ub {A} P : keeps P (@ub S A).
Proof. by intros s a s' _. Qed.

Lemma keeps_gets {A} P (f : S -> A) : keeps P (gets f).
Proof. by intros s a s' Hs [= <- <-]. Qed.

Lemma keeps_of_option {A} P (o : option A) : keeps P (of_option o).
Proof. intros s a s' Hs H. destruct o; [|done]. by injection H as <- <-. Qed.

Lemma keeps_modify P f : (forall s, P s -> P (f s)) -> keeps P (modify f).
Proof. intros H s a s' Hs [= <- <-]. auto. Qed.

Lemma keeps_if {A} P (b : bool) (m n : M S A) :
  keeps P m -> keeps P n -> keeps P (if b then m else n).
Proof. by destruct b. Qed.

Lemma keeps_when P b m : keeps P m -> keeps P (when b m).
Proof. destruct b; [done|]. intros _. apply keeps_ret. Qed.

Lemma keeps_for_each {A} P (f : A -> M S unit) l :
  (forall x, keeps P (f x)) -> keeps P (for_each f l).
Proof.
  intros H. induction l as [|x l IH]; cbn; [apply keeps_ret|].
  apply keeps_bind; [apply H|]. by intros _.
Qed.

End Rules.

#[export] Hint Resolve keeps_ret keeps_bind keeps_ub keeps_gets keeps_of_option
  keeps_if keeps_when keeps_for_each : effects.
