(* ===== verification/Libc.v ===== *)
(** * The C string functions the signalling code uses

    [strncmp], [strncpy], [strlen], [strcmp], [atoll] and the [%lld]
    conversion of [sprintf], on byte lists.  [None] is an access outside an
    object.  A value found in a JSON text is given by its bytes: [strncmp] and
    [strncpy] are always called with its length. *)

From S2P Require Import Prelude.

(** [strncmp(lit, v, n) == 0] for a literal and the [n] bytes of [v]; behind
    its bytes the literal has its terminating NUL. *)
Fixpoint strn_eq (lit v : list Z) {struct v} : bool :=
  match v with
  | [] => true
  | x :: v =>
    match lit with
    | [] => x =? 0
    | c :: lit => if c =? x then (if c =? 0 then true else strn_eq lit v) else false
    end
  end.

(** The bytes in front of the first NUL; [None] when there is none. *)
Fixpoint c_string (b : list Z) : option (list Z) :=
  match b with
  | [] => None
  | c :: b => if c =? 0 then Some [] else s ← c_string b; Some (c :: s)
  end.

Definition strlen (b : list Z) : option Z := s ← c_string b; Some (zlen s).

(** [strncpy(dst, v, n)] for the [n] bytes of [v]: copied up to a NUL, the
    rest of the [n] bytes cleared; what lies behind is kept. *)
Definition strncpy (dst v : list Z) : option (list Z) :=
  if zlen v <=? zlen dst then
    let s := match c_string v with Some s => s | None => v end in
    Some (s ++ replicate (length v - length s) 0 ++ drop (length v) dst)
  else None.

Definition is_space (c : Z) : bool := (c =? 32) || ((9 <=? c) && (c <=? 13)).
Definition is_digit (c : Z) : bool := (48 <=? c) && (c <=? 57).

Definition LLONG_MAX : Z := 2 ^ 63 - 1.
Definition LLONG_MIN : Z := - 2 ^ 63.

(** The digits, read from a buffer; running over its end is out of bounds. *)
Fixpoint read_digits (acc : Z) (b : list Z) : option Z :=
  match b with
  | [] => None
  | c :: b => if is_digit c then read_digits (acc * 10 + (c - 48)) b else Some acc
  end.

Definition read_signed (b : list Z) : option Z :=
  match b with
  | [] => None
  | c :: b' =>
    if c =? 45 then v ← read_digits 0 b'; Some (- v)
    else if c =? 43 then read_digits 0 b'
    else read_digits 0 b
  end.

Fixpoint skip_spaces (b : list Z) : list Z :=
  match b with
  | c :: b' => if is_space c then skip_spaces b' else b
  | [] => []
  end.

(** [atoll] is [strtoll] in base ten: it saturates. *)
Definition atoll (b : list Z) : option Z :=
  v ← read_signed (skip_spaces b);
  Some (Z.max LLONG_MIN (Z.min LLONG_MAX v)).

(** Two's-complement reading of a 64-bit pattern. *)
Definition i64 (z : Z) : Z := (z + 2 ^ 63) mod 2 ^ 64 - 2 ^ 63.

Fixpoint dec_digits (fuel : nat) (z : Z) (acc : list Z) : list Z :=
  match fuel with
  | O => acc
  | S fuel =>
    let acc := (48 + z mod 10) :: acc in
    if z <? 10 then acc else dec_digits fuel (z / 10) acc
  end.

(** [%lld] of a 64-bit value: at most 19 digits. *)
Definition lld (z : Z) : list Z :=
  let z := i64 z in
  if z <? 0 then 45 :: dec_digits 20 (- z) [] else dec_digits 20 z [].

(** ** Lemmas *)

(** A value without NUL compares equal exactly when it is a prefix. *)
Lemma strn_eq_prefix lit v :
  Forall (fun c => c <> 0) v -> strn_eq lit v = true <-> v `prefix_of` lit.
Proof.
  intros Hv. revert lit. induction Hv as [|x v Hx Hv IH]; intros lit.
  - split; [intros _; apply prefix_nil|by intros _].
  - destruct lit as [|c lit]; cbn.
    + rewrite (proj2 (Z.eqb_neq x 0) Hx). split; [done|]. intros H.
      by apply prefix_nil_not in H.
    + destruct (Z.eqb_spec c x) as [->|Hne].
      * rewrite (proj2 (Z.eqb_neq x 0) Hx), IH. split; [apply prefix_cons|apply prefix_cons_inv_2].
      * split; [done|]. intros H. by apply prefix_cons_inv_1 in H.
Qed.

(** Equal lengths: the comparison is equality. *)
Lemma strn_eq_same lit v :
  Forall (fun c => c <> 0) v -> length lit = length v -> strn_eq lit v = bool_decide (lit = v).
Proof.
  intros Hv Hl. apply eq_true_iff_eq. rewrite strn_eq_prefix, bool_decide_eq_true by done.
  split.
  - intros H. symmetry. apply prefix_length_eq; [done|lia].
  - by intros ->.
Qed.

(** A copy into a large enough buffer gives the value as a C string. *)
Lemma c_string_nonzero s t : Forall (fun c => c <> 0) s -> c_string (s ++ 0 :: t) = Some s.
Proof.
  induction 1 as [|x s Hx Hs IH]; cbn; [done|].
  rewrite (proj2 (Z.eqb_neq _ _) Hx). by rewrite IH.
Qed.

Lemma c_string_none s : Forall (fun c => c <> 0) s -> c_string s = None.
Proof.
  induction 1 as [|x s Hx Hs IH]; cbn; [done|].
  rewrite (proj2 (Z.eqb_neq _ _) Hx). by rewrite IH.
Qed.

Lemma strncpy_exact n v :
  Forall (fun c => c <> 0) v -> zlen v <= Z.of_nat n ->
  strncpy (replicate n 0) v = Some (v ++ replicate (n - length v) 0).
Proof.
  intros Hv Hl. unfold strncpy. unfold zlen in *. rewrite length_replicate.
  rewrite (proj2 (Z.leb_le _ _)) by lia. rewrite c_string_none by done.
  rewrite Nat.sub_diag, drop_replicate. done.
Qed.

(** ** [atoll] reads back what [%lld] prints *)

Definition digit_value (acc : Z) (l : list Z) : Z :=
  fold_left (fun a c => a * 10 + (c - 48)) l acc.

Lemma read_digits_all l acc t :
  Forall (fun c => is_digit c = true) l ->
  read_digits acc (l ++ t) = read_digits (digit_value acc l) t.
Proof.
  intros H. revert acc. induction H as [|c l Hc Hl IH]; intros acc; cbn; [done|].
  by rewrite Hc, IH.
Qed.

Lemma dec_digits_spec fuel z acc :
  0 <= z -> z < 10 ^ Z.of_nat fuel -> fuel <> O ->
  exists l, dec_digits fuel z acc = l ++ acc /\ l <> [] /\
    Forall (fun c => is_digit c = true) l /\
    forall a, digit_value a l = a * 10 ^ Z.of_nat (length l) + z.
Proof.
  revert z acc. induction fuel as [|fuel IH]; [done|]. intros z acc Hz Hlt _.
  cbn [dec_digits]. pose proof (Z.mod_pos_bound z 10 ltac:(lia)).
  assert (Hd : is_digit (48 + z mod 10) = true)
    by (unfold is_digit; apply andb_true_intro; split; apply Z.leb_le; lia).
  destruct (Z.ltb_spec z 10).
  - exists [48 + z mod 10]. split_and!; [done|done|by constructor|]. intros a.
    rewrite Z.mod_small by lia. cbn. lia.
  - destruct (IH (z / 10) ((48 + z mod 10) :: acc)) as (l & -> & Hne & Hl & Hv).
    + apply Z.div_pos; lia.
    + apply Z.div_lt_upper_bound; [lia|].
      rewrite Nat2Z.inj_succ, Z.pow_succ_r in Hlt by lia. lia.
    + intros ->. cbn in Hlt. lia.
    + exists (l ++ [48 + z mod 10]). split_and!.
      * by rewrite <- app_assoc.
      * by destruct l.
      * apply Forall_app. split; [done|by constructor].
      * intros a. unfold digit_value in *. rewrite fold_left_app, Hv. cbn [fold_left].
        rewrite length_app. cbn [length]. rewrite Nat2Z.inj_add, Z.pow_add_r by lia.
        pose proof (Z.div_mod z 10 ltac:(lia)). change (10 ^ Z.of_nat 1) with 10. lia.
Qed.

Lemma is_digit_not_space c : is_digit c = true -> is_space c = false /\ c <> 45 /\ c <> 43.
Proof.
  unfold is_digit, is_space. intros [H1 H2]%andb_true_iff.
  apply Z.leb_le in H1, H2. split; [|lia].
  apply orb_false_intro; [apply Z.eqb_neq; lia|].
  apply andb_false_intro2. apply Z.leb_gt. lia.
Qed.

(** Reading a printed 64-bit value gives its signed value back. *)
Lemma atoll_lld z t c : is_digit c = false -> atoll (lld z ++ c :: t) = Some (i64 z).
Proof.
  intros Hc. pose proof (Z.mod_pos_bound (z + 2 ^ 63) (2 ^ 64) ltac:(lia)) as Hr.
  unfold atoll, lld. fold (i64 z) in *. assert (Hi : - 2 ^ 63 <= i64 z < 2 ^ 63)
    by (unfold i64; lia). clear Hr. set (v := i64 z) in *. clearbody v.
  assert (Hread : forall x acc, 0 <= x < 10 ^ 20 -> exists d l,
    dec_digits 20 x acc = (d :: l) ++ acc /\ is_digit d = true /\
    read_digits 0 ((d :: l) ++ c :: t) = Some x).
  { intros x acc Hx. destruct (dec_digits_spec 20 x acc) as (l & -> & Hne & Hl & Hv);
      [lia|change (Z.of_nat 20) with 20; lia|done|].
    destruct l as [|d l]; [done|]. exists d, l. split; [done|].
    split; [by inversion Hl|]. rewrite read_digits_all by done. rewrite Hv.
    cbn [read_digits]. by rewrite Hc. }
  destruct (Z.ltb_spec v 0) as [Hneg|Hpos].
  - destruct (Hread (- v) []) as (d & l & -> & Hd & Hr); [lia|].
    rewrite app_nil_r. cbn [app skip_spaces is_space]. change (is_space 45) with false. cbv iota.
    cbn [read_signed]. change (45 =? 45) with true. cbv iota.
    change (d :: l ++ c :: t) with ((d :: l) ++ c :: t). rewrite Hr. cbn [mbind option_bind].
    f_equal. unfold LLONG_MIN, LLONG_MAX. lia.
  - destruct (Hread v []) as (d & l & -> & Hd & Hr); [lia|].
    rewrite app_nil_r. destruct (is_digit_not_space d Hd) as (Hs & H1 & H2).
    cbn [app skip_spaces]. rewrite Hs. cbn [read_signed].
    rewrite (proj2 (Z.eqb_neq d 45)), (proj2 (Z.eqb_neq d 43)) by done.
    change (d :: l ++ c :: t) with ((d :: l) ++ c :: t). rewrite Hr. cbn [mbind option_bind].
    f_equal. unfold LLONG_MIN, LLONG_MAX. lia.
Qed.

(** A printed value is short. *)
Lemma dec_digits_length fuel z acc :
  (length (dec_digits fuel z acc) <= fuel + length acc)%nat.
Proof.
  revert z acc. induction fuel as [|fuel IH]; intros z acc; cbn; [done|].
  destruct (_ <? _); cbn; [lia|]. specialize (IH (z / 10) (48 + z mod 10 :: acc)).
  cbn in IH. lia.
Qed.

Lemma lld_length z : zlen (lld z) <= 21.
Proof.
  unfold lld, zlen. pose proof (dec_digits_length 20 (i64 z) []).
  pose proof (dec_digits_length 20 (- i64 z) []). cbn [length] in *.
  destruct (_ <? _); cbn [length]; lia.
Qed.

Lemma dec_digits_nonzero fuel z acc :
  0 <= z -> Forall (fun c => c <> 0) acc -> Forall (fun c => c <> 0) (dec_digits fuel z acc).
Proof.
  revert z acc. induction fuel as [|fuel IH]; intros z acc Hz H; cbn; [done|].
  pose proof (Z.mod_pos_bound z 10 ltac:(lia)).
  assert (Hc : Forall (fun c => c <> 0) ((48 + z mod 10) :: acc)) by (constructor; [lia|done]).
  destruct (_ <? _); [done|]. apply IH; [|done]. apply Z.div_pos; lia.
Qed.

Lemma lld_nonzero z : Forall (fun c => c <> 0) (lld z).
Proof.
  unfold lld. destruct (Z.ltb_spec (i64 z) 0).
  - constructor; [lia|]. apply dec_digits_nonzero; [lia|done].
  - apply dec_digits_nonzero; [lia|done].
Qed.

Lemma i64_small z : - 2 ^ 63 <= z < 2 ^ 63 -> i64 z = z.
Proof. unfold i64. intros. rewrite Z.mod_small; lia. Qed.
