(* ===== verification/ReList.v ===== *)
(** * Linked lists

    Models src/re/src/list/list.c on the pointer level: list elements with
    their links in a heap, lists with a head and a tail.  [None] is a
    dereference of something that is no element or list.  The lists of the
    other components are finite sequences; ReListProps.v proves that the
    functions below implement them. *)

From stdpp Require Import gmap.
From S2P Require Import Prelude Effects.

Module Ll.

(** Pointers to elements and to lists; [None] is NULL. *)
Abbreviation ptr := (option nat).

Record le := mk_le {
  prev : ptr;
  next : ptr;
  list_ : ptr;
  data : Z }.

Record lst := mk_lst { head : ptr; tail : ptr }.

(** The elements, the lists, and the data released by [mem_deref], in order. *)
Record heap := mk_heap {
  les : gmap nat le;
  lists : gmap nat lst;
  released : list Z }.

Abbreviation LM := (M heap).

Definition get_le (x : nat) : LM le := fun h => e ← les h !! x; Some (e, h).
Definition get_list (l : nat) : LM lst := fun h => e ← lists h !! l; Some (e, h).
Definition put_le (x : nat) (e : le) : LM unit :=
  modify (fun h => mk_heap (<[x := e]> (les h)) (lists h) (released h)).
Definition put_list (l : nat) (e : lst) : LM unit :=
  modify (fun h => mk_heap (les h) (<[l := e]> (lists h)) (released h)).

(** Assignments to one member. *)
Definition set_prev (x : nat) (p : ptr) : LM unit :=
  e ← get_le x; put_le x (mk_le p (next e) (list_ e) (data e)).
Definition set_next (x : nat) (p : ptr) : LM unit :=
  e ← get_le x; put_le x (mk_le (prev e) p (list_ e) (data e)).
Definition set_head (l : nat) (p : ptr) : LM unit :=
  e ← get_list l; put_list l (mk_lst p (tail e)).
Definition set_tail (l : nat) (p : ptr) : LM unit :=
  e ← get_list l; put_list l (mk_lst (head e) p).

Definition mem_deref (d : Z) : LM unit :=
  modify (fun h => mk_heap (les h) (lists h) (released h ++ [d])).

Definition list_init (l : nat) : LM unit := put_list l (mk_lst None None).

(** The loop of [list_flush] ([deref]) and of [list_clear], on fuel. *)
Fixpoint clear_loop (fuel : nat) (deref : bool) (p : ptr) : LM unit :=
  match p, fuel with
  | None, _ => mret tt
  | Some _, O => ub
  | Some x, S fuel =>
    e ← get_le x;
    put_le x (mk_le None None None 0) ;;
    when deref (mem_deref (data e)) ;;
    clear_loop fuel deref (next e)
  end.

(** An element is visited once: as many steps as there are elements. *)
Definition fuel (h : heap) : nat := S (size (les h)).
#[global] Arguments fuel : simpl never.

Definition list_flush (l : nat) : LM unit :=
  e ← get_list l;
  n ← gets fuel;
  clear_loop n true (head e) ;;
  list_init l.

Definition list_clear (l : nat) : LM unit :=
  e ← get_list l;
  n ← gets fuel;
  clear_loop n false (head e) ;;
  list_init l.

(** A linked element is left alone, with a warning. *)
Definition list_append (l x : nat) (d : Z) : LM unit :=
  e ← get_le x;
  match list_ e with
  | Some _ => mret tt
  | None =>
    ls ← get_list l;
    put_le x (mk_le (tail ls) None (Some l) d) ;;
    when (bool_decide (head ls = None)) (set_head l (Some x)) ;;
    match tail ls with
    | Some t => set_next t (Some x)
    | None => mret tt
    end ;;
    set_tail l (Some x)
  end.

Definition list_prepend (l x : nat) (d : Z) : LM unit :=
  e ← get_le x;
  match list_ e with
  | Some _ => mret tt
  | None =>
    ls ← get_list l;
    put_le x (mk_le None (head ls) (Some l) d) ;;
    match head ls with
    | Some f => set_prev f (Some x)
    | None => mret tt
    end ;;
    when (bool_decide (tail ls = None)) (set_tail l (Some x)) ;;
    set_head l (Some x)
  end.

Definition list_insert_before (l y x : nat) (d : Z) : LM unit :=
  e ← get_le x;
  match list_ e with
  | Some _ => mret tt
  | None =>
    ey ← get_le y;
    match prev ey with
    | Some p => set_next p (Some x)
    | None =>
      ls ← get_list l;
      when (bool_decide (head ls = Some y)) (set_head l (Some x))
    end ;;
    put_le x (mk_le (prev ey) (Some y) (Some l) d) ;;
    set_prev y (Some x)
  end.

Definition list_insert_after (l y x : nat) (d : Z) : LM unit :=
  e ← get_le x;
  match list_ e with
  | Some _ => mret tt
  | None =>
    ey ← get_le y;
    match next ey with
    | Some n => set_prev n (Some x)
    | None =>
      ls ← get_list l;
      when (bool_decide (tail ls = Some y)) (set_tail l (Some x))
    end ;;
    put_le x (mk_le (Some y) (next ey) (Some l) d) ;;
    set_next y (Some x)
  end.

Definition list_unlink (x : nat) : LM unit :=
  e ← get_le x;
  match list_ e with
  | None => mret tt
  | Some l =>
    match prev e with
    | Some p => set_next p (next e)
    | None => set_head l (next e)
    end ;;
    match next e with
    | Some n => set_prev n (prev e)
    | None => set_tail l (prev e)
    end ;;
    put_le x (mk_le None None None (data e))
  end.

(** [sh]: the sort handler, on the data of two elements.  One pass returns
    whether it has moved an element; [fuel] bounds the steps of a pass and the
    number of passes. *)
Fixpoint sort_pass (sh : Z -> Z -> bool) (fuel : nat) (l : nat) (p : ptr) (sort : bool)
  : LM bool :=
  match p with
  | None => mret sort
  | Some x =>
    e ← get_le x;
    match next e, fuel with
    | None, _ => mret sort
    | Some _, O => ub
    | Some y, S fuel =>
      ey ← get_le y;
      if sh (data e) (data ey) then sort_pass sh fuel l (Some y) sort
      else
        list_unlink x ;;
        list_insert_after l y x (data e) ;;
        sort_pass sh fuel l (Some x) true
    end
  end.

Fixpoint list_sort_loop (sh : Z -> Z -> bool) (fuel pfuel : nat) (l : nat) : LM unit :=
  match fuel with
  | O => ub
  | S fuel =>
    ls ← get_list l;
    sort ← sort_pass sh pfuel l (head ls) false;
    if sort : bool then list_sort_loop sh fuel pfuel l else mret tt
  end.

Definition list_sort (sh : Z -> Z -> bool) (l : nat) : LM unit :=
  n ← gets fuel;
  list_sort_loop sh (S (n * n)) n l.

(** [ah]: the apply handler as a function of the data; the handlers that the
    model applies do not change the list. *)
Fixpoint apply_loop (fuel : nat) (fwd : bool) (ah : Z -> bool) (p : ptr) : LM ptr :=
  match p, fuel with
  | None, _ => mret None
  | Some _, O => ub
  | Some x, S fuel =>
    e ← get_le x;
    if ah (data e) then mret (Some x)
    else apply_loop fuel fwd ah (if fwd then next e else prev e)
  end.

Definition list_apply (l : nat) (fwd : bool) (ah : Z -> bool) : LM ptr :=
  ls ← get_list l;
  n ← gets fuel;
  apply_loop n fwd ah (if fwd then head ls else tail ls).

Definition list_head (l : nat) : LM ptr := ls ← get_list l; mret (head ls).
Definition list_tail (l : nat) : LM ptr := ls ← get_list l; mret (tail ls).

(** The counter is 32 bits wide. *)
Fixpoint count_loop (fuel : nat) (p : ptr) (n : Z) : LM Z :=
  match p, fuel with
  | None, _ => mret n
  | Some _, O => ub
  | Some x, S fuel => e ← get_le x; count_loop fuel (next e) (u32 (n + 1))
  end.

Definition list_count (l : nat) : LM Z :=
  ls ← get_list l;
  n ← gets fuel;
  count_loop n (head ls) 0.

Definition list_ledata (x : nat) : LM Z := e ← get_le x; mret (data e).
Definition list_contains (l x : nat) : LM bool :=
  e ← get_le x; mret (bool_decide (list_ e = Some l)).
Definition list_isempty (l : nat) : LM bool :=
  ls ← get_list l; mret (bool_decide (head ls = None)).

End Ll.
