(* ===== verification/ReListProps.v ===== *)
(** * Linked lists implement sequences

    A heap represents a list by a chain of elements that point to each other
    in both directions.  Every function of list.c is a function on the
    sequence that the chain represents, and leaves the other lists alone. *)

From stdpp Require Import gmap sorting.
From S2P Require Import Prelude Effects ReList.
Import Ll.

(** An entry: the element and its data. *)
Abbreviation entry := (nat * Z)%type.

(** The first pointer of a sequence in front of [n], the last one behind [p]. *)
Definition hd_ptr (xs : list entry) (n : ptr) : ptr :=
  match xs with [] => n | x :: _ => Some x.1 end.
Fixpoint last_ptr (xs : list entry) (p : ptr) : ptr :=
  match xs with [] => p | x :: xs => last_ptr xs (Some x.1) end.

(** The elements [xs] of list [l], between [p] and [n]. *)
Fixpoint linked (m : gmap nat le) (l : nat) (p : ptr) (xs : list entry) (n : ptr) : Prop :=
  match xs with
  | [] => True
  | x :: xs =>
    m !! x.1 = Some (mk_le p (hd_ptr xs n) (Some l) x.2) /\ linked m l (Some x.1) xs n
  end.

Lemma hd_ptr_app xs ys n : hd_ptr (xs ++ ys) n = hd_ptr xs (hd_ptr ys n).
Proof. by destruct xs. Qed.
Lemma last_ptr_app xs ys p : last_ptr (xs ++ ys) p = last_ptr ys (last_ptr xs p).
Proof. revert p. induction xs as [|x xs IH]; intros p; cbn; [done|apply IH]. Qed.

Lemma linked_app m l p xs ys n :
  linked m l p (xs ++ ys) n <->
  linked m l p xs (hd_ptr ys n) /\ linked m l (last_ptr xs p) ys n.
Proof.
  revert p. induction xs as [|x xs IH]; intros p; cbn; [tauto|].
  rewrite IH, hd_ptr_app. tauto.
Qed.

Lemma linked_ne m l p xs n x e :
  x ∉ xs.*1 -> linked m l p xs n -> linked (<[x := e]> m) l p xs n.
Proof.
  revert p. induction xs as [|y xs IH]; intros p Hx; cbn in *; [done|].
  apply not_elem_of_cons in Hx as [Hne Hx]. intros [Hy Hl].
  split; [by rewrite lookup_insert_ne|by apply IH].
Qed.

(** Every element of a chain points to its list. *)
Lemma linked_in m l p xs n x : linked m l p xs n -> x ∈ xs.*1 ->
  exists e, m !! x = Some e /\ list_ e = Some l.
Proof.
  revert p. induction xs as [|y xs IH]; intros p; cbn; [by intros _ ?%elem_of_nil|].
  intros [Hy Hl] [->|Hx]%elem_of_cons; [by eexists|by eapply IH].
Qed.

(** ** Abstract states *)

(** The sequences of the lists, and the elements that are in no list. *)
Record state := mk_state { seqs : gmap nat (list entry); free : gset nat }.

Definition rep (h : heap) (l : nat) (xs : list entry) : Prop :=
  lists h !! l = Some (mk_lst (hd_ptr xs None) (last_ptr xs None)) /\
  linked (les h) l None xs None /\ NoDup xs.*1.

Record R (h : heap) (s : state) : Prop := {
  R_seqs : forall l xs, seqs s !! l = Some xs -> rep h l xs;
  R_free : forall x, x ∈ free s -> exists e, les h !! x = Some e /\ list_ e = None }.

(** An element is in one list at most, and not free. *)
Lemma R_apart h s l xs x : R h s -> seqs s !! l = Some xs -> x ∈ xs.*1 ->
  (x ∉ free s) /\ forall l' ys, seqs s !! l' = Some ys -> l' <> l -> x ∉ ys.*1.
Proof.
  intros Hr Hl Hx. destruct (R_seqs _ _ Hr _ _ Hl) as (_ & Hlk & _).
  destruct (linked_in _ _ _ _ _ _ Hlk Hx) as (e & He & Hle). split.
  - intros Hf. destruct (R_free _ _ Hr x Hf) as (e' & He' & Hn). congruence.
  - intros l' ys Hl' Hne Hy. destruct (R_seqs _ _ Hr _ _ Hl') as (_ & Hlk' & _).
    destruct (linked_in _ _ _ _ _ _ Hlk' Hy) as (e' & He' & Hn). congruence.
Qed.

Lemma R_free_apart h s l xs x : R h s -> seqs s !! l = Some xs -> x ∈ free s -> x ∉ xs.*1.
Proof. intros Hr Hl Hf Hx. by destruct (R_apart _ _ _ _ _ Hr Hl Hx). Qed.

(** Changing list [l] from [xs] to [ys], where only elements of [l] and the
    elements [fs], free before, were written. *)
Lemma R_change h h' s l xs ys fr (touched : gset nat) :
  R h s -> seqs s !! l = Some xs -> rep h' l ys ->
  (forall l', l' <> l -> lists h' !! l' = lists h !! l') ->
  (forall x, x ∉ touched -> les h' !! x = les h !! x) ->
  (forall x, x ∈ touched -> x ∈ xs.*1 \/ x ∈ free s) ->
  (forall x, x ∈ fr -> (x ∈ free s /\ x ∉ touched) \/
     exists e, les h' !! x = Some e /\ list_ e = None) ->
  R h' (mk_state (<[l := ys]> (seqs s)) fr).
Proof.
  intros Hr Hl Hrep Hlists Hles Ht Hf. split; cbn.
  - intros l' zs Hz. destruct (decide (l' = l)) as [->|Hne].
    { rewrite lookup_insert_eq in Hz. by injection Hz as <-. }
    rewrite lookup_insert_ne in Hz by done.
    destruct (R_seqs _ _ Hr _ _ Hz) as (H1 & H2 & H3).
    split; [by rewrite Hlists|]. split; [|done].
    assert (Hz' : forall x, x ∈ zs.*1 -> les h' !! x = les h !! x).
    { intros x Hx. apply Hles. intros [Hx'|Hx']%Ht.
      - by apply (R_apart _ _ _ _ _ Hr Hl Hx') in Hz.
      - by eapply R_free_apart. }
    clear -H2 Hz'. revert H2 Hz'. generalize (@None nat) at 1 3 as p.
    induction zs as [|z zs IH]; intros p; cbn; [done|]. intros [Hz Hk] He.
    split; [rewrite He by set_solver; done|]. apply IH; [done|]. set_solver.
  - intros x Hx. destruct (Hf x Hx) as [[Hx1 Hx2]|He]; [|done].
    rewrite Hles by done. by apply (R_free _ _ Hr).
Qed.

(** ** The operations *)

(** Evaluates reads and writes of the heap. *)
Ltac heap_go :=
  repeat (progress (unfold mbind, M_bind, get_le, get_list, put_le, put_list, set_prev, set_next,
    set_head, set_tail, modify, when, gets, mret, M_ret; cbn) ||
  match goal with
  | |- context [<[?x := _]> _ !! ?x] => rewrite lookup_insert_eq
  | H : ?m !! ?x = Some _ |- context [?m !! ?x] => rewrite H
  | H : ?x <> ?y |- context [<[?x := _]> _ !! ?y] => rewrite (lookup_insert_ne _ x y) by exact H
  | H : ?y <> ?x |- context [<[?x := _]> _ !! ?y] => rewrite (lookup_insert_ne _ x y) by congruence
  end).

Lemma linked_frame m m' l p xs n :
  (forall t, t ∈ xs.*1 -> m' !! t = m !! t) -> linked m l p xs n -> linked m' l p xs n.
Proof.
  revert p. induction xs as [|x xs IH]; intros p Hm; cbn; [done|]. intros [Hx Hl].
  split; [rewrite Hm by set_solver; done|]. apply IH; [set_solver|done].
Qed.

(** [m'] differs from [m] in the links at the gap between [a] and [b], which
    now hold [q] and [p], and in [x]. *)
Definition gap (m m' : gmap nat le) (x : nat) (a b : list entry) (q p : ptr) : Prop :=
  (forall t, t <> x -> last_ptr a None <> Some t -> hd_ptr b None <> Some t ->
     m' !! t = m !! t) /\
  (forall t e, last_ptr a None = Some t -> m !! t = Some e ->
     m' !! t = Some (mk_le (prev e) q (list_ e) (data e))) /\
  (forall t e, hd_ptr b None = Some t -> m !! t = Some e ->
     m' !! t = Some (mk_le p (next e) (list_ e) (data e))).

Lemma gap_linked m m' l x a b n0 p0 q p :
  linked m l None a n0 -> linked m l p0 b None -> NoDup (a.*1 ++ b.*1) ->
  x ∉ a.*1 ++ b.*1 -> gap m m' x a b q p ->
  linked m' l None a q /\ linked m' l p b None.
Proof.
  intros Ha Hb Hnd Hx (Hsame & Hlast & Hfirst). apply NoDup_app in Hnd as (Hna & Hd & Hnb). split.
  - destruct a as [|[t dt] a _] using rev_ind; [done|]. rewrite last_ptr_app in *. cbn in *.
    rewrite fmap_app in *. apply linked_app in Ha as [Ha [Ht _]]. cbn in *.
    apply linked_app. cbn. split_and!; [|by rewrite (Hlast t _ eq_refl Ht)|done].
    apply NoDup_app in Hna as (_ & Hta & _).
    eapply linked_frame; [|exact Ha]. intros u Hu. apply Hsame; [set_solver| |].
    + intros [= ->]. apply (Hta u Hu). set_solver.
    + destruct b as [|y b]; [done|]. intros [= E]. apply (Hd u); set_solver.
  - destruct b as [|y b]; [done|]. cbn in *. destruct Hb as [Hy Hb].
    apply NoDup_cons in Hnb as [Hny _]. split; [by rewrite (Hfirst y.1 _ eq_refl Hy)|].
    eapply linked_frame; [|exact Hb]. intros u Hu. apply Hsame; [set_solver| |].
    + destruct a as [|[t dt] a _] using rev_ind; [done|]. rewrite last_ptr_app. cbn.
      intros [= ->]. apply (Hd u); [rewrite fmap_app|]; set_solver.
    + intros [= E]. apply Hny. by rewrite E.
Qed.

Lemma last_ptr_in a t : last_ptr a None = Some t -> t ∈ a.*1.
Proof.
  destruct a as [|y a _] using rev_ind; [done|]. rewrite last_ptr_app, fmap_app. set_solver.
Qed.
Lemma hd_ptr_in b t : hd_ptr b None = Some t -> t ∈ b.*1.
Proof. destruct b; [done|]. set_solver. Qed.

Lemma rep_split h l a b : rep h l (a ++ b) ->
  linked (les h) l None a (hd_ptr b None) /\ linked (les h) l (last_ptr a None) b None /\
  NoDup (a.*1 ++ b.*1).
Proof. intros (_ & Hl & Hn). apply linked_app in Hl as []. by rewrite fmap_app in Hn. Qed.

(** Other lists and elements do not see the change at the gap. *)
Lemma R_gap h h' s l x a b ys q p fr :
  R h s -> seqs s !! l = Some (a ++ b) \/ (exists d, seqs s !! l = Some (a ++ (x, d) :: b)) ->
  x ∈ free s \/ (exists d, seqs s !! l = Some (a ++ (x, d) :: b)) ->
  gap (les h) (les h') x a b q p -> rep h' l ys ->
  (forall l', l' <> l -> lists h' !! l' = lists h !! l') ->
  (forall y, y ∈ fr -> (y ∈ free s /\ y <> x) \/
     exists e, les h' !! y = Some e /\ list_ e = None) ->
  R h' (mk_state (<[l := ys]> (seqs s)) fr).
Proof.
  intros Hr Hl Hx (Hsame & _) Hrep Hls Hf.
  set (T := {[x]} ∪ list_to_set (a.*1 ++ b.*1) : gset nat).
  assert (Hin : exists xs, seqs s !! l = Some xs /\ forall t, t ∈ a.*1 ++ b.*1 -> t ∈ xs.*1).
  { destruct Hl as [Hl|[d Hl]]; eexists; (split; [exact Hl|]); rewrite fmap_app; set_solver. }
  destruct Hin as (xs & Hxs & Hin).
  assert (Hfr : forall t, t ∈ a.*1 ++ b.*1 -> t ∉ free s).
  { intros t Ht. by apply (R_apart _ _ _ _ _ Hr Hxs (Hin t Ht)). }
  apply (R_change h h' s l xs ys fr T Hr Hxs Hrep Hls).
  - intros t Ht. apply Hsame; [set_solver| |].
    + intros E%last_ptr_in. set_solver.
    + intros E%hd_ptr_in. set_solver.
  - intros t [->%elem_of_singleton|Ht]%elem_of_union; [|left; apply Hin; set_solver].
    destruct Hx as [Hx|[d Hx]]; [by right|left]. rewrite Hxs in Hx. injection Hx as ->.
    rewrite fmap_app. set_solver.
  - intros y Hy. destruct (Hf y Hy) as [[Hy1 Hy2]|He]; [left|by right]. split; [done|].
    set_solver.
Qed.

Lemma R_insert h h' s l x d a b :
  R h s -> seqs s !! l = Some (a ++ b) -> x ∈ free s ->
  gap (les h) (les h') x a b (Some x) (Some x) ->
  les h' !! x = Some (mk_le (last_ptr a None) (hd_ptr b None) (Some l) d) ->
  lists h' !! l = Some (mk_lst (hd_ptr a (Some x)) (last_ptr b (Some x))) ->
  (forall l', l' <> l -> lists h' !! l' = lists h !! l') ->
  R h' (mk_state (<[l := a ++ (x, d) :: b]> (seqs s)) (free s ∖ {[x]})).
Proof.
  intros Hr Hl Hx Hg Hx' Hls Ho. pose proof (R_free_apart _ _ _ _ _ Hr Hl Hx) as Hnx.
  rewrite fmap_app in Hnx. eapply R_gap; [done|by left|by left|done| |done|set_solver].
  destruct (rep_split _ _ _ _ (R_seqs _ _ Hr _ _ Hl)) as (Ha & Hb & Hnd).
  destruct (gap_linked _ _ _ _ _ _ _ _ _ _ Ha Hb Hnd Hnx Hg) as [Ha' Hb'].
  split_and!.
  - rewrite Hls, hd_ptr_app, last_ptr_app. done.
  - apply linked_app. cbn. done.
  - rewrite fmap_app. cbn. apply NoDup_Permutation_proper with (x :: a.*1 ++ b.*1).
    { by rewrite Permutation_middle. }
    by constructor.
Qed.

Lemma R_remove h h' s l x d a b e :
  R h s -> seqs s !! l = Some (a ++ (x, d) :: b) ->
  gap (les h) (les h') x a b (hd_ptr b None) (last_ptr a None) ->
  les h' !! x = Some e -> list_ e = None ->
  lists h' !! l = Some (mk_lst (hd_ptr (a ++ b) None) (last_ptr (a ++ b) None)) ->
  (forall l', l' <> l -> lists h' !! l' = lists h !! l') ->
  R h' (mk_state (<[l := a ++ b]> (seqs s)) ({[x]} ∪ free s)).
Proof.
  intros Hr Hl Hg Hx' He Hls Ho.
  eapply R_gap; [done|by right; exists d|by right; exists d|done| |done|].
  2:{ intros y [->%elem_of_singleton|Hy]%elem_of_union; [right; by eauto|].
      destruct (decide (y = x)) as [->|]; [right; by eauto|by left]. }
  destruct (rep_split _ _ _ _ (R_seqs _ _ Hr _ _ Hl)) as (Ha & Hb & Hnd).
  cbn in Hb. destruct Hb as [_ Hb]. apply NoDup_app in Hnd as (Hna & Hd & [Hnb Hnd]%NoDup_cons).
  assert (Hnx : x ∉ a.*1 ++ b.*1) by set_solver.
  assert (Hnab : NoDup (a.*1 ++ b.*1)) by (apply NoDup_app; set_solver).
  destruct (gap_linked _ _ _ _ _ _ _ _ _ _ Ha Hb Hnab Hnx Hg) as [Ha' Hb'].
  split_and!; [done|by apply linked_app|by rewrite fmap_app].
Qed.

(** What a represented list says about its parts. *)
Lemma rep_get h l a b : rep h l (a ++ b) ->
  lists h !! l = Some (mk_lst (hd_ptr a (hd_ptr b None)) (last_ptr b (last_ptr a None))) /\
  (forall t, last_ptr a None = Some t ->
     exists e, les h !! t = Some e /\ next e = hd_ptr b None /\ list_ e = Some l) /\
  (forall t, hd_ptr b None = Some t ->
     exists e, les h !! t = Some e /\ prev e = last_ptr a None /\ list_ e = Some l).
Proof.
  intros Hr. destruct (rep_split _ _ _ _ Hr) as (Ha & Hb & _). destruct Hr as (Hl & _).
  rewrite hd_ptr_app, last_ptr_app in Hl. split_and!; [done|..].
  - intros t Ht. destruct a as [|[u du] a _] using rev_ind; [done|].
    rewrite last_ptr_app in Ht. cbn in Ht. injection Ht as <-.
    apply linked_app in Ha as [_ [Hu _]]. by eexists.
  - intros t Ht. destruct b as [|[u du] b]; [done|]. cbn in *. injection Ht as <-.
    destruct Hb as [Hu _]. by eexists.
Qed.

Lemma append_spec h s l xs x d :
  R h s -> seqs s !! l = Some xs -> x ∈ free s ->
  exists h', list_append l x d h = Some (tt, h') /\
    R h' (mk_state (<[l := xs ++ [(x, d)]]> (seqs s)) (free s ∖ {[x]})).
Proof.
  intros Hr Hl Hx. rewrite <- (app_nil_r xs) in Hl.
  destruct (rep_get _ _ _ _ (R_seqs _ _ Hr _ _ Hl)) as (Hls & Hlast & _). cbn in Hls.
  destruct (R_free _ _ Hr x Hx) as (e & He & Hn).
  pose proof (R_free_apart _ _ _ _ _ Hr Hl Hx) as Hnx. rewrite app_nil_r in Hnx.
  unfold list_append. heap_go. rewrite Hn. heap_go.
  destruct (last_ptr xs None) as [t|] eqn:Et.
  - destruct (Hlast t eq_refl) as (et & Ht & Hnt & _). apply last_ptr_in in Et as Hin.
    assert (Hxt : x <> t) by (intros ->; done).
    destruct xs as [|y xs]; [done|]. heap_go. eexists. split; [done|].
    apply (R_insert h _ s l x d (y :: xs) []); [done|done|done|..]; cbn [les lists].
    + split_and!; [|intros u eu Hu Hu'|done]; rewrite Et in *.
      * intros u Hu Hu2 _. rewrite !lookup_insert_ne; congruence.
      * simplify_map_eq. done.
    + rewrite lookup_insert_ne, lookup_insert_eq by done. by rewrite Et.
    + by rewrite lookup_insert_eq.
    + intros l' Hl'. by rewrite lookup_insert_ne.
  - destruct xs as [|y xs]; [|by destruct xs using rev_ind; [|cbn in Et; rewrite last_ptr_app in Et]].
    heap_go. eexists. split; [done|].
    apply (R_insert h _ s l x d [] []); [done|done|done|..]; cbn [les lists].
    + split_and!; [|done|done]. intros u Hu _ _. by rewrite lookup_insert_ne.
    + by rewrite lookup_insert_eq.
    + by rewrite !lookup_insert_eq.
    + intros l' Hl'. by rewrite !lookup_insert_ne.
Qed.

Lemma prepend_spec h s l xs x d :
  R h s -> seqs s !! l = Some xs -> x ∈ free s ->
  exists h', list_prepend l x d h = Some (tt, h') /\
    R h' (mk_state (<[l := (x, d) :: xs]> (seqs s)) (free s ∖ {[x]})).
Proof.
  intros Hr Hl Hx. change xs with ([] ++ xs) in Hl.
  destruct (rep_get _ _ _ _ (R_seqs _ _ Hr _ _ Hl)) as (Hls & _ & Hfirst). cbn in Hls.
  destruct (R_free _ _ Hr x Hx) as (e & He & Hn).
  pose proof (R_free_apart _ _ _ _ _ Hr Hl Hx) as Hnx.
  unfold list_prepend. heap_go. rewrite Hn. heap_go. destruct xs as [|y xs]; heap_go.
  - eexists. split; [done|].
    apply (R_insert h _ s l x d [] []); [done|done|done|..]; cbn [les lists].
    + split_and!; [|done|done]. intros u Hu _ _. by rewrite lookup_insert_ne.
    + by rewrite lookup_insert_eq.
    + by rewrite !lookup_insert_eq.
    + intros l' Hl'. by rewrite !lookup_insert_ne.
  - destruct (Hfirst y.1 eq_refl) as (ey & Hy & Hpy & _).
    assert (Hxy : x <> y.1) by (intros ->; apply Hnx; set_solver). heap_go.
    destruct (last_ptr xs (Some y.1)) as [t|] eqn:Et; heap_go.
    + eexists. split; [done|].
      apply (R_insert h _ s l x d [] (y :: xs)); [done|done|done|..]; cbn [les lists].
      * split_and!; [|done|].
        -- intros u Hu _ Hu2. cbn in Hu2. rewrite !lookup_insert_ne; congruence.
        -- intros u eu [= <-] Hu'. simplify_map_eq. done.
      * rewrite lookup_insert_ne, lookup_insert_eq by done. done.
      * rewrite lookup_insert_eq. cbn. by rewrite Et.
      * intros l' Hl'. by rewrite !lookup_insert_ne.
    + by destruct xs using rev_ind; [|rewrite last_ptr_app in Et].
Qed.

Lemma insert_after_spec h s l a y dy b x d :
  R h s -> seqs s !! l = Some (a ++ (y, dy) :: b) -> x ∈ free s ->
  exists h', list_insert_after l y x d h = Some (tt, h') /\
    R h' (mk_state (<[l := a ++ (y, dy) :: (x, d) :: b]> (seqs s)) (free s ∖ {[x]})).
Proof.
  intros Hr Hl Hx. rewrite cons_middle, app_assoc in Hl.
  destruct (rep_get _ _ _ _ (R_seqs _ _ Hr _ _ Hl)) as (Hls & Hlast & Hfirst).
  rewrite last_ptr_app in Hls, Hlast. cbn in Hls, Hlast.
  destruct (R_free _ _ Hr x Hx) as (e & He & Hn).
  pose proof (R_free_apart _ _ _ _ _ Hr Hl Hx) as Hnx. rewrite !fmap_app in Hnx.
  destruct (Hlast y eq_refl) as (ey & Hy & Hny & Hly).
  assert (Hxy : x <> y) by set_solver.
  replace (a ++ (y, dy) :: (x, d) :: b) with ((a ++ [(y, dy)]) ++ (x, d) :: b)
    by by rewrite <- app_assoc.
  unfold list_insert_after. heap_go. rewrite Hn. heap_go. rewrite Hny.
  destruct b as [|z b]; cbn [hd_ptr]; heap_go.
  - rewrite bool_decide_true by done. heap_go. eexists. split; [done|].
    apply (R_insert h _ s l x d (a ++ [(y, dy)]) []); [done|done|done|..]; cbn [les lists].
    + split_and!; rewrite ?last_ptr_app; cbn; [|intros u eu [= <-] Hu|done].
      * intros u Hu Hu2 _. rewrite !lookup_insert_ne; congruence.
      * simplify_map_eq. done.
    + rewrite last_ptr_app, lookup_insert_ne, lookup_insert_eq by done. done.
    + rewrite lookup_insert_eq. by rewrite !hd_ptr_app.
    + intros l' Hl'. by rewrite !lookup_insert_ne.
  - destruct (Hfirst z.1 eq_refl) as (ez & Hz & Hpz & Hlz). heap_go.
    assert (Hxz : x <> z.1) by set_solver.
    assert (Hyz : y <> z.1).
    { destruct (R_seqs _ _ Hr _ _ Hl) as (_ & _ & Hnd). rewrite !fmap_app in Hnd.
      apply NoDup_app in Hnd as (_ & Hnd & _). intros ->. apply (Hnd z.1); set_solver. }
    heap_go. eexists. split; [done|].
    apply (R_insert h _ s l x d (a ++ [(y, dy)]) (z :: b)); [done|done|done|..]; cbn [les lists].
    + split_and!; rewrite ?last_ptr_app; cbn; [|intros u eu [= <-] Hu|intros u eu [= <-] Hu].
      * intros u Hu Hu2 Hu3. rewrite !lookup_insert_ne; congruence.
      * simplify_map_eq. done.
      * simplify_map_eq. done.
    + rewrite last_ptr_app, lookup_insert_ne, lookup_insert_eq by done. done.
    + cbn in Hls. by rewrite hd_ptr_app in Hls |- *.
    + done.
Qed.

Lemma insert_before_spec h s l a y dy b x d :
  R h s -> seqs s !! l = Some (a ++ (y, dy) :: b) -> x ∈ free s ->
  exists h', list_insert_before l y x d h = Some (tt, h') /\
    R h' (mk_state (<[l := a ++ (x, d) :: (y, dy) :: b]> (seqs s)) (free s ∖ {[x]})).
Proof.
  intros Hr Hl Hx. destruct (rep_get _ _ _ _ (R_seqs _ _ Hr _ _ Hl)) as (Hls & Hlast & Hfirst).
  destruct (R_free _ _ Hr x Hx) as (e & He & Hn).
  pose proof (R_free_apart _ _ _ _ _ Hr Hl Hx) as Hnx. rewrite !fmap_app in Hnx.
  destruct (Hfirst y eq_refl) as (ey & Hy & Hpy & Hly).
  assert (Hxy : x <> y) by set_solver. cbn in Hls.
  unfold list_insert_before. heap_go. rewrite Hn. heap_go. rewrite Hpy.
  destruct (last_ptr a None) as [t|] eqn:Et.
  - destruct (Hlast t eq_refl) as (et & Ht & Hnt & Hlt). apply last_ptr_in in Et as Hin.
    assert (Hxt : x <> t) by set_solver.
    assert (Hyt : y <> t).
    { destruct (R_seqs _ _ Hr _ _ Hl) as (_ & _ & Hnd). rewrite !fmap_app in Hnd.
      apply NoDup_app in Hnd as (_ & Hnd & _). intros ->. apply (Hnd t); set_solver. }
    heap_go. eexists. split; [done|].
    apply (R_insert h _ s l x d a ((y, dy) :: b)); [done|done|done|..]; cbn [les lists].
    + split_and!; rewrite ?Et; cbn; [|intros u eu [= <-] Hu|intros u eu [= <-] Hu].
      * intros u Hu Hu2 Hu3. rewrite !lookup_insert_ne; congruence.
      * simplify_map_eq. done.
      * simplify_map_eq. done.
    + rewrite Et, lookup_insert_ne, lookup_insert_eq by done. done.
    + rewrite Hls. cbn. by destruct a.
    + done.
  - destruct a as [|a0 a]; [|by destruct a using rev_ind; [|cbn in Et; rewrite last_ptr_app in Et]].
    heap_go. rewrite bool_decide_true by done. heap_go. eexists. split; [done|].
    apply (R_insert h _ s l x d [] ((y, dy) :: b)); [done|done|done|..]; cbn [les lists].
    + split_and!; cbn; [|done|intros u eu [= <-] Hu].
      * intros u Hu Hu2 Hu3. rewrite !lookup_insert_ne; congruence.
      * simplify_map_eq. done.
    + rewrite lookup_insert_ne, lookup_insert_eq by done. done.
    + by rewrite lookup_insert_eq.
    + intros l' Hl'. by rewrite !lookup_insert_ne.
Qed.

Lemma last_none a : last_ptr a None = None -> a = [].
Proof. destruct a as [|y a _] using rev_ind; [done|]. by rewrite last_ptr_app. Qed.
Lemma hd_none b : hd_ptr b None = None -> b = [].
Proof. by destruct b. Qed.
Lemma hd_ptr_any a t n n' : last_ptr a None = Some t -> hd_ptr a n = hd_ptr a n'.
Proof. by destruct a. Qed.
Lemma last_ptr_any b t p p' : hd_ptr b None = Some t -> last_ptr b p = last_ptr b p'.
Proof. by destruct b. Qed.

Lemma unlink_spec h s l a x d b :
  R h s -> seqs s !! l = Some (a ++ (x, d) :: b) ->
  exists h', list_unlink x h = Some (tt, h') /\
    R h' (mk_state (<[l := a ++ b]> (seqs s)) ({[x]} ∪ free s)).
Proof.
  intros Hr Hl. pose proof (R_seqs _ _ Hr _ _ Hl) as Hrep.
  destruct (rep_get _ _ _ _ Hrep) as (Hls & Hlast & Hfx).
  destruct (Hfx x eq_refl) as (ex & Hx & Hpx & Hlx).
  assert (Hl' : seqs s !! l = Some ((a ++ [(x, d)]) ++ b)) by by rewrite <- app_assoc.
  destruct (rep_get _ _ _ _ (R_seqs _ _ Hr _ _ Hl')) as (_ & Hlastx & Hfirst).
  rewrite last_ptr_app in Hlastx, Hfirst. cbn in Hlastx, Hfirst.
  destruct (Hlastx x eq_refl) as (ex' & Hx' & Hnx & _). rewrite Hx in Hx'. injection Hx' as <-.
  destruct Hrep as (_ & _ & Hnd). rewrite fmap_app in Hnd. cbn in Hnd.
  apply NoDup_app in Hnd as (_ & Hdis & [Hxb _]%NoDup_cons).
  assert (Hat : forall t, last_ptr a None = Some t -> t <> x /\ hd_ptr b None <> Some t).
  { intros t Ht%last_ptr_in. specialize (Hdis t Ht). split; [set_solver|].
    intros E%hd_ptr_in. set_solver. }
  assert (Hbt : forall t, hd_ptr b None = Some t -> t <> x).
  { intros t Ht%hd_ptr_in. set_solver. }
  unfold list_unlink. heap_go. rewrite Hlx, Hpx, Hnx.
  destruct (last_ptr a None) as [t|] eqn:Et; destruct (hd_ptr b None) as [u|] eqn:Eu;
    try (destruct (Hlast t eq_refl) as (et & Ht & Hnt & Hlt); destruct (Hat t eq_refl) as [Htx Htu]);
    try (destruct (Hfirst u eq_refl) as (eu & Hu & Hpu & Hlu); pose proof (Hbt u eq_refl) as Hux);
    try assert (Htu' : t <> u) by congruence; heap_go; (eexists; split; [done|]);
    (eapply (R_remove h _ s l x d a b); cbn [les lists];
      [done|done| |by rewrite lookup_insert_eq|done|..]).
  all: try (intros l' Hne; by rewrite ?lookup_insert_ne).
  all: try (split_and!; rewrite ?Et, ?Eu;
    [intros v H1 H2 H3; rewrite !lookup_insert_ne by congruence; done
    |intros v ev [= <-] Hev; simplify_map_eq; done..]).
  all: rewrite ?lookup_insert_eq, hd_ptr_app, last_ptr_app, Et, ?Eu.
  - rewrite Hls. cbn. f_equal. f_equal; [by eapply hd_ptr_any|by eapply last_ptr_any].
  - apply hd_none in Eu as ->. cbn. f_equal. f_equal. by eapply hd_ptr_any.
  - apply last_none in Et as ->. cbn. f_equal. f_equal. by eapply last_ptr_any.
  - apply last_none in Et as ->. by apply hd_none in Eu as ->.
Qed.

(** ** Traversals *)

(** The fuel suffices: the elements of a list are different elements of the heap. *)
Lemma rep_fuel h l xs : rep h l xs -> (length xs < fuel h)%nat.
Proof.
  intros (_ & Hl & Hnd). unfold fuel. rewrite <- (length_fmap fst).
  assert (Hs : (list_to_set xs.*1 : gset nat) ⊆ dom (les h)).
  { intros x Hx%elem_of_list_to_set. destruct (linked_in _ _ _ _ _ _ Hl Hx) as (e & He & _).
    apply elem_of_dom. by eexists. }
  apply subseteq_size in Hs. rewrite size_list_to_set, size_dom in Hs by done. lia.
Qed.

Definition cleared (m : gmap nat le) (xs : list entry) : gmap nat le :=
  foldl (fun m x => <[x.1 := mk_le None None None 0]> m) m xs.

Lemma cleared_other m xs x : x ∉ xs.*1 -> cleared m xs !! x = m !! x.
Proof.
  revert m. induction xs as [|y xs IH]; intros m Hx; cbn; [done|].
  rewrite IH by set_solver. rewrite lookup_insert_ne by set_solver. done.
Qed.
Lemma cleared_in m xs x : x ∈ xs.*1 -> NoDup xs.*1 ->
  cleared m xs !! x = Some (mk_le None None None 0).
Proof.
  revert m. induction xs as [|y xs IH]; intros m Hx Hn; cbn; [by apply elem_of_nil in Hx|].
  cbn in *. apply NoDup_cons in Hn as [Hny Hn]. apply elem_of_cons in Hx as [->|Hx].
  - rewrite cleared_other by done. by rewrite lookup_insert_eq.
  - by apply IH.
Qed.

Lemma clear_run n deref l p xs h :
  linked (les h) l p xs None -> NoDup xs.*1 -> (length xs <= n)%nat ->
  clear_loop n deref (hd_ptr xs None) h
    = Some (tt, mk_heap (cleared (les h) xs) (lists h)
                  (released h ++ if deref then xs.*2 else [])).
Proof.
  revert p n h. induction xs as [|[x d] xs IH]; intros p n h Hl Hnd Hlen; cbn in *.
  - destruct deref; rewrite app_nil_r; destruct n; by destruct h.
  - destruct n as [|n]; [lia|]. destruct Hl as [Hx Hl]. apply NoDup_cons in Hnd as [Hnx Hnd].
    cbn [clear_loop]. heap_go. unfold mem_deref, modify. destruct deref; heap_go;
      (rewrite (IH (Some x) n); cbn; [|by apply linked_ne|done|lia]); [|done].
    by rewrite <- app_assoc.
Qed.

Lemma clear_R h s l xs rel :
  R h s -> seqs s !! l = Some xs ->
  R (mk_heap (cleared (les h) xs) (<[l := mk_lst None None]> (lists h)) rel)
    (mk_state (<[l := []]> (seqs s)) (list_to_set xs.*1 ∪ free s)).
Proof.
  intros Hr Hl. destruct (R_seqs _ _ Hr _ _ Hl) as (_ & _ & Hnd).
  apply (R_change h _ s l xs [] _ (list_to_set xs.*1)); cbn; [done|done|..].
  - split_and!; cbn; [by rewrite lookup_insert_eq|done|constructor].
  - intros l' Hne. by rewrite lookup_insert_ne.
  - intros x Hx. apply cleared_other. set_solver.
  - set_solver.
  - intros x Hx. destruct (decide (x ∈ xs.*1)) as [Hin|Hin]; [right|left; set_solver].
    rewrite cleared_in by done. by eexists.
Qed.

Lemma flush_spec h s l xs :
  R h s -> seqs s !! l = Some xs ->
  exists h', list_flush l h = Some (tt, h') /\ released h' = released h ++ xs.*2 /\
    R h' (mk_state (<[l := []]> (seqs s)) (list_to_set xs.*1 ∪ free s)).
Proof.
  intros Hr Hl. pose proof (R_seqs _ _ Hr _ _ Hl) as Hrep. pose proof (rep_fuel _ _ _ Hrep).
  destruct Hrep as (Hls & Hlk & Hnd). unfold list_flush, list_init. heap_go.
  rewrite (clear_run (fuel h) true l None xs h) by (done || lia). cbn.
  eexists. split; [done|]. split; [done|]. by apply clear_R.
Qed.

Lemma clear_spec h s l xs :
  R h s -> seqs s !! l = Some xs ->
  exists h', list_clear l h = Some (tt, h') /\ released h' = released h /\
    R h' (mk_state (<[l := []]> (seqs s)) (list_to_set xs.*1 ∪ free s)).
Proof.
  intros Hr Hl. pose proof (R_seqs _ _ Hr _ _ Hl) as Hrep. pose proof (rep_fuel _ _ _ Hrep).
  destruct Hrep as (Hls & Hlk & Hnd). unfold list_clear, list_init. heap_go.
  rewrite (clear_run (fuel h) false l None xs h) by (done || lia). cbn.
  eexists. split; [done|]. split; [by rewrite app_nil_r|]. by apply clear_R.
Qed.

Lemma apply_fwd n l p xs h ah :
  linked (les h) l p xs None -> (length xs <= n)%nat ->
  apply_loop n true ah (hd_ptr xs None) h
    = Some (hd_ptr (filter (fun x => ah x.2) xs) None, h).
Proof.
  revert p n. induction xs as [|[x d] xs IH]; intros p n Hl Hlen; [by destruct n|].
  destruct n as [|n]; [cbn in Hlen; lia|]. destruct Hl as [Hx Hl]. rewrite filter_cons.
  cbn [fst snd] in *. destruct (ah d) eqn:E; [rewrite decide_True by done|rewrite decide_False by auto];
    cbn [apply_loop hd_ptr fst]; heap_go; rewrite E; [done|].
  eapply IH; [exact Hl|cbn in Hlen; lia].
Qed.

Lemma apply_bwd n l xs m h ah :
  linked (les h) l None xs m -> (length xs <= n)%nat ->
  apply_loop n false ah (last_ptr xs None) h
    = Some (last_ptr (filter (fun x => ah x.2) xs) None, h).
Proof.
  revert m n. induction xs as [|[x d] xs IH] using rev_ind; intros m n Hl Hlen;
    [by destruct n|].
  rewrite length_app in Hlen. cbn in Hlen. destruct n as [|n]; [lia|].
  apply linked_app in Hl as [Hl [Hx _]]. cbn in *. rewrite last_ptr_app. cbn [last_ptr fst].
  rewrite filter_app, last_ptr_app, filter_cons. cbn [fst snd].
  destruct (ah d) eqn:E; [rewrite decide_True by done|rewrite decide_False by auto];
    cbn [apply_loop]; heap_go; rewrite E; [done|].
  eapply IH; [exact Hl|lia].
Qed.

Lemma apply_spec h s l xs fwd ah :
  R h s -> seqs s !! l = Some xs ->
  list_apply l fwd ah h = Some ((if fwd then fun ys => hd_ptr ys None else fun ys => last_ptr ys None)
    (filter (fun x => ah x.2) xs), h).
Proof.
  intros Hr Hl. pose proof (R_seqs _ _ Hr _ _ Hl) as Hrep. pose proof (rep_fuel _ _ _ Hrep).
  destruct Hrep as (Hls & Hlk & Hnd). unfold list_apply. heap_go.
  destruct fwd; [eapply apply_fwd|eapply apply_bwd]; (exact Hlk || lia).
Qed.

Lemma count_run n l p xs h k :
  linked (les h) l p xs None -> (length xs <= n)%nat -> 0 <= k < 2 ^ 32 ->
  count_loop n (hd_ptr xs None) k h = Some (u32 (k + zlen xs), h).
Proof.
  revert p n k. induction xs as [|[x d] xs IH]; intros p n k Hl Hlen Hk; cbn in *.
  - change (zlen (@nil entry)) with 0. rewrite Z.add_0_r, u32_small by done. by destruct n.
  - destruct n as [|n]; [lia|]. destruct Hl as [Hx Hl]. cbn [count_loop]. heap_go.
    rewrite (IH (Some x)) by (done || lia || apply u32_range). do 2 f_equal.
    unfold u32, zlen. cbn. rewrite Zplus_mod_idemp_l. f_equal. lia.
Qed.

Lemma count_spec h s l xs :
  R h s -> seqs s !! l = Some xs -> list_count l h = Some (u32 (zlen xs), h).
Proof.
  intros Hr Hl. pose proof (R_seqs _ _ Hr _ _ Hl) as Hrep. pose proof (rep_fuel _ _ _ Hrep).
  destruct Hrep as (Hls & Hlk & Hnd). unfold list_count. heap_go.
  eapply count_run; (exact Hlk || lia).
Qed.

(** ** Sorting *)

Section Sort.
Context (sh : Z -> Z -> bool).

(** One pass on the sequence: the current entry moves on as long as it is not
    sorted with its successor. *)
Fixpoint pass (x : entry) (rest : list entry) : list entry * bool :=
  match rest with
  | [] => ([x], false)
  | y :: rest =>
    if sh x.2 y.2 then let '(r, b) := pass y rest in (x :: r, b)
    else let '(r, b) := pass x rest in (y :: r, true)
  end.

Lemma pass_run n h s l a x rest sort :
  R h s -> seqs s !! l = Some (a ++ x :: rest) -> (length rest <= n)%nat ->
  let '(r, b) := pass x rest in
  exists h', sort_pass sh n l (Some x.1) sort h = Some (sort || b, h') /\
    R h' (mk_state (<[l := a ++ r]> (seqs s)) (free s)).
Proof.
  revert n h s a x sort. induction rest as [|[y dy] rest IH]; intros n h s a [x dx] sort Hr Hl Hn;
    cbn [pass].
  - destruct (rep_split _ _ _ _ (R_seqs _ _ Hr _ _ Hl)) as (_ & [Hx _] & _). cbn in Hx.
    destruct n; cbn [sort_pass]; heap_go; rewrite orb_false_r; eexists; (split; [done|]);
      rewrite insert_id by done; by destruct s.
  - destruct (rep_split _ _ _ _ (R_seqs _ _ Hr _ _ Hl)) as (_ & (Hx & Hy & _) & _). cbn in Hx, Hy.
    cbn in Hn. destruct n as [|n]; [lia|]. cbn [sort_pass fst snd]. heap_go.
    destruct (sh dx dy) eqn:Es.
    + specialize (IH n h s (a ++ [(x, dx)]) (y, dy) sort Hr). rewrite <- app_assoc in IH.
      specialize (IH Hl ltac:(lia)). destruct (pass (y, dy) rest) as [r b].
      destruct IH as (h' & E & H'). exists h'. split; [exact E|].
      by rewrite <- app_assoc in H'.
    + destruct (unlink_spec _ _ _ _ _ _ _ Hr Hl) as (h1 & E1 & R1). rewrite E1.
      edestruct (insert_after_spec h1 _ l a y dy rest x dx R1) as (h2 & E2 & R2);
        [cbn; by rewrite lookup_insert_eq|set_solver|]. rewrite E2. cbn in R2.
      rewrite insert_insert_eq in R2.
      assert (Hf : ({[x]} ∪ free s) ∖ {[x]} = free s).
      { destruct (R_apart _ _ _ _ x Hr Hl) as [Hx' _]; [rewrite fmap_app; set_solver|set_solver]. }
      rewrite Hf in R2.
      specialize (IH n h2 _ (a ++ [(y, dy)]) (x, dx) true R2). cbn [seqs] in IH.
      rewrite lookup_insert_eq, <- app_assoc in IH. specialize (IH eq_refl ltac:(lia)).
      destruct (pass (x, dx) rest) as [r b]. destruct IH as (h' & E & H'). exists h'.
      cbn in *. rewrite E, insert_insert_eq, <- app_assoc in *. by rewrite orb_true_r.
Qed.

(** What the handler promises: two elements are sorted in some order. *)
Context (sh_total : forall x y, sh x y = false -> sh y x = true).

Definition ordered (x y : entry) : Prop := sh x.2 y.2 = true.

Definition behind (x : entry) (ys : list entry) : nat :=
  length (filter (fun y => sh x.2 y.2 = false) ys).
Fixpoint inversions (xs : list entry) : nat :=
  match xs with [] => 0 | x :: xs => behind x xs + inversions xs end.

Lemma behind_perm x ys zs : ys ≡ₚ zs -> behind x ys = behind x zs.
Proof. unfold behind. by intros ->. Qed.
Lemma behind_cons x y ys :
  behind x (y :: ys) = ((if sh x.2 y.2 then 0 else 1) + behind x ys)%nat.
Proof.
  unfold behind. rewrite filter_cons. destruct (sh x.2 y.2);
    [by rewrite decide_False|by rewrite decide_True].
Qed.
Lemma behind_le x ys : (behind x ys <= length ys)%nat.
Proof. apply length_filter. Qed.
Lemma inversions_le xs : (inversions xs <= length xs * length xs)%nat.
Proof.
  induction xs as [|x xs IH]; cbn; [lia|]. pose proof (behind_le x xs). nia.
Qed.

Lemma pass_perm x rest : (pass x rest).1 ≡ₚ x :: rest.
Proof.
  revert x. induction rest as [|y rest IH]; intros x; cbn; [done|].
  destruct (sh x.2 y.2).
  - specialize (IH y). destruct (pass y rest). cbn in *. by rewrite IH.
  - specialize (IH x). destruct (pass x rest). cbn in *. rewrite IH. by constructor.
Qed.

(** A pass that moves something removes an inversion. *)
Lemma pass_inversions x rest :
  let '(r, b) := pass x rest in
  if b then (inversions r < inversions (x :: rest))%nat else r = x :: rest.
Proof.
  revert x. induction rest as [|y rest IH]; intros x; cbn [pass]; [done|].
  destruct (sh x.2 y.2) eqn:Es.
  - pose proof (pass_perm y rest) as Hp. specialize (IH y).
    destruct (pass y rest) as [r b]. cbn in Hp. destruct b; [|by subst].
    cbn [inversions]. rewrite (behind_perm x _ _ Hp). cbn [inversions] in IH. lia.
  - pose proof (pass_perm x rest) as Hp. specialize (IH x).
    destruct (pass x rest) as [r b]. cbn in Hp.
    assert (Hi : (inversions r <= inversions (x :: rest))%nat) by (destruct b; [lia|by subst]).
    cbn [inversions] in *. rewrite (behind_perm y _ _ Hp), !behind_cons, Es.
    rewrite (sh_total _ _ Es). lia.
Qed.

Lemma pass_sorted x rest : (pass x rest).2 = false -> Sorted ordered (x :: rest).
Proof.
  revert x. induction rest as [|y rest IH]; intros x; cbn; [by repeat constructor|].
  destruct (sh x.2 y.2) eqn:Es.
  - specialize (IH y). destruct (pass y rest). cbn in *. intros Hb.
    constructor; [by apply IH|by constructor].
  - by destruct (pass x rest).
Qed.

Lemma sort_run n m h s l xs :
  R h s -> seqs s !! l = Some xs -> (inversions xs < n)%nat -> (length xs <= m)%nat ->
  exists h' ys, list_sort_loop sh n m l h = Some (tt, h') /\
    R h' (mk_state (<[l := ys]> (seqs s)) (free s)) /\ ys ≡ₚ xs /\ Sorted ordered ys.
Proof.
  revert h s xs. induction n as [|n IH]; intros h s xs Hr Hl Hn Hm; [lia|].
  destruct (R_seqs _ _ Hr _ _ Hl) as (Hls & _). cbn [list_sort_loop]. heap_go.
  destruct xs as [|x rest].
  { exists h, []. split_and!; [by destruct m|rewrite insert_id by done; by destruct s|done|constructor]. }
  pose proof (pass_run m h s l [] x rest false Hr Hl ltac:(cbn in Hm; lia)) as Hp.
  pose proof (pass_perm x rest) as Hperm. pose proof (pass_inversions x rest) as Hinv.
  pose proof (pass_sorted x rest) as Hsort.
  destruct (pass x rest) as [r b]. destruct Hp as (h1 & E & R1). cbn in E, Hperm, Hsort, R1.
  cbn [hd_ptr]. rewrite E. destruct b.
  - destruct (IH h1 _ r R1) as (h' & ys & E' & R' & Hp & Hs).
    + cbn. by rewrite lookup_insert_eq.
    + lia.
    + by rewrite Hperm.
    + cbn in R'. rewrite insert_insert_eq in R'. exists h', ys. split_and!; [done|done| |done].
      by rewrite Hp.
  - exists h1, r. subst r. split_and!; [done|done|done|by apply Hsort].
Qed.

(** C34: sorting a linked list ends, for every handler that puts two elements in
    some order; the list then holds the same elements, each sorted with its
    successor, and nothing else has changed. *)
Theorem list_sort_sorts h s l xs (Hr : R h s) (Hl : seqs s !! l = Some xs) :
  exists h' ys, list_sort sh l h = Some (tt, h') /\
    R h' (mk_state (<[l := ys]> (seqs s)) (free s)) /\ ys ≡ₚ xs /\ Sorted ordered ys.
Proof.
  pose proof (rep_fuel _ _ _ (R_seqs _ _ Hr _ _ Hl)). pose proof (inversions_le xs).
  change (list_sort sh l h) with (list_sort_loop sh (S (fuel h * fuel h)) (fuel h) l h).
  apply sort_run; [done|done|nia|lia].
Qed.

End Sort.

(** ** Sequences of operations *)

Inductive lop :=
| Append (l x : nat) (d : Z)
| Prepend (l x : nat) (d : Z)
| Insert_before (l y x : nat) (d : Z)
| Insert_after (l y x : nat) (d : Z)
| Unlink (x : nat)
| Flush (l : nat)
| Clear (l : nat).

Definition lrun (o : lop) : LM unit :=
  match o with
  | Append l x d => list_append l x d
  | Prepend l x d => list_prepend l x d
  | Insert_before l y x d => list_insert_before l y x d
  | Insert_after l y x d => list_insert_after l y x d
  | Unlink x => list_unlink x
  | Flush l => list_flush l
  | Clear l => list_clear l
  end.

Definition set_seq (l : nat) (xs : list entry) (s : state) : state :=
  mk_state (<[l := xs]> (seqs s)) (free s).
Definition take_free (x : nat) (s : state) : state :=
  mk_state (seqs s) (free s ∖ {[x]}).
Definition give_free (xs : list nat) (s : state) : state :=
  mk_state (seqs s) (list_to_set xs ∪ free s).

(** The contract: what an operation does on sequences, and the data it
    releases.  Outside the contract are elements that are not known, or not in
    the list they are said to be in. *)
Inductive lstep : lop -> state -> list Z -> state -> Prop :=
| step_append l x d xs s : seqs s !! l = Some xs -> x ∈ free s ->
    lstep (Append l x d) s [] (take_free x (set_seq l (xs ++ [(x, d)]) s))
| step_prepend l x d xs s : seqs s !! l = Some xs -> x ∈ free s ->
    lstep (Prepend l x d) s [] (take_free x (set_seq l ((x, d) :: xs) s))
| step_before l y dy x d a b s : seqs s !! l = Some (a ++ (y, dy) :: b) -> x ∈ free s ->
    lstep (Insert_before l y x d) s [] (take_free x (set_seq l (a ++ (x, d) :: (y, dy) :: b) s))
| step_after l y dy x d a b s : seqs s !! l = Some (a ++ (y, dy) :: b) -> x ∈ free s ->
    lstep (Insert_after l y x d) s [] (take_free x (set_seq l (a ++ (y, dy) :: (x, d) :: b) s))
| step_linked o x l a d b s : seqs s !! l = Some (a ++ (x, d) :: b) ->
    (exists l' d', o = Append l' x d' \/ o = Prepend l' x d' \/
       exists y, o = Insert_before l' y x d' \/ o = Insert_after l' y x d') ->
    lstep o s [] s
| step_unlink x l a d b s : seqs s !! l = Some (a ++ (x, d) :: b) ->
    lstep (Unlink x) s [] (give_free [x] (set_seq l (a ++ b) s))
| step_unlinked x s : x ∈ free s -> lstep (Unlink x) s [] s
| step_flush l xs s : seqs s !! l = Some xs ->
    lstep (Flush l) s xs.*2 (give_free xs.*1 (set_seq l [] s))
| step_clear l xs s : seqs s !! l = Some xs ->
    lstep (Clear l) s [] (give_free xs.*1 (set_seq l [] s)).

Lemma linked_elem h s l a x d b :
  R h s -> seqs s !! l = Some (a ++ (x, d) :: b) ->
  exists e, les h !! x = Some e /\ list_ e = Some l.
Proof.
  intros Hr Hl. destruct (R_seqs _ _ Hr _ _ Hl) as (_ & Hlk & _).
  eapply linked_in; [exact Hlk|]. rewrite fmap_app. set_solver.
Qed.

(** Only flushing releases data. *)
Definition silent (m : LM unit) : Prop := forall r, keeps (fun h => released h = r) m.

Ltac silent_go :=
  repeat match goal with
  | |- forall _, _ => intros ?
  | |- silent _ => intros ?
  | |- keeps _ (_ ≫= _) => apply keeps_bind
  | |- keeps _ (mret _) => apply keeps_ret
  | |- keeps _ (when _ _) => apply keeps_when
  | |- keeps _ (modify _) => by apply keeps_modify
  | |- keeps _ (match ?x with _ => _ end) => destruct x
  | |- keeps _ (get_le ?x) => intros ? ? ? ? Hg; unfold get_le in Hg; destruct (_ !! x); by simplify_eq/=
  | |- keeps _ (get_list ?x) => intros ? ? ? ? Hg; unfold get_list in Hg; destruct (_ !! x); by simplify_eq/=
  | |- keeps _ _ => progress unfold put_le, put_list, set_next, set_prev, set_head, set_tail
  end.

Lemma append_silent l x d : silent (list_append l x d).
Proof. unfold list_append. silent_go. Qed.
Lemma prepend_silent l x d : silent (list_prepend l x d).
Proof. unfold list_prepend. silent_go. Qed.
Lemma before_silent l y x d : silent (list_insert_before l y x d).
Proof. unfold list_insert_before. silent_go. Qed.
Lemma after_silent l y x d : silent (list_insert_after l y x d).
Proof. unfold list_insert_after. silent_go. Qed.
Lemma unlink_silent x : silent (list_unlink x).
Proof. unfold list_unlink. silent_go. Qed.

Lemma silent_sim m h s' : silent m ->
  (exists h', m h = Some (tt, h') /\ R h' s') ->
  exists h', m h = Some (tt, h') /\ R h' s' /\ released h' = released h ++ [].
Proof.
  intros Hm (h' & E & Hr). exists h'. split_and!; [done|done|]. rewrite app_nil_r.
  by eapply Hm.
Qed.

(** An element that is in a list is not inserted again. *)
Lemma linked_sim o h s l a x d b :
  R h s -> seqs s !! l = Some (a ++ (x, d) :: b) ->
  (exists l' d', o = Append l' x d' \/ o = Prepend l' x d' \/
     exists y, o = Insert_before l' y x d' \/ o = Insert_after l' y x d') ->
  lrun o h = Some (tt, h).
Proof.
  intros Hr Hl Ho. destruct (linked_elem _ _ _ _ _ _ _ Hr Hl) as (e & He & Hn).
  destruct Ho as (l' & d' & [->|[->|(y & [->| ->])]]); cbn;
    unfold list_append, list_prepend, list_insert_before, list_insert_after; heap_go;
    by rewrite Hn.
Qed.

Lemma lstep_sim o s rel s' h : lstep o s rel s' -> R h s ->
  exists h', lrun o h = Some (tt, h') /\ R h' s' /\ released h' = released h ++ rel.
Proof.
  intros Hs Hr. destruct Hs as [| | | |o x l a d b s Hl Ho| |x s Hx| |];
    unfold take_free, give_free, set_seq; cbn [lrun seqs free].
  - apply silent_sim; [apply append_silent|by apply append_spec].
  - apply silent_sim; [apply prepend_silent|by apply prepend_spec].
  - apply silent_sim; [apply before_silent|by apply insert_before_spec].
  - apply silent_sim; [apply after_silent|by apply insert_after_spec].
  - exists h. rewrite app_nil_r. split_and!; [by eapply linked_sim|done|done].
  - apply silent_sim; [apply unlink_silent|]. cbn [list_to_set]. rewrite union_empty_r_L.
    by eapply unlink_spec.
  - apply silent_sim; [apply unlink_silent|]. destruct (R_free _ _ Hr x Hx) as (e & He & Hn).
    exists h. split; [|done]. cbn. unfold list_unlink. heap_go. by rewrite Hn.
  - destruct (flush_spec h s l xs Hr H) as (h' & E & Hrel & Hr'). by exists h'.
  - destruct (clear_spec h s l xs Hr H) as (h' & E & Hrel & Hr'). exists h'.
    by rewrite app_nil_r.
Qed.

Inductive lsteps : list lop -> state -> list Z -> state -> Prop :=
| lsteps_nil s : lsteps [] s [] s
| lsteps_cons o os s r1 s1 r2 s2 :
    lstep o s r1 s1 -> lsteps os s1 r2 s2 -> lsteps (o :: os) s (r1 ++ r2) s2.

(** C17: the pointer code implements sequences: from a heap that represents the
    lists, any sequence of operations within the contract is carried out
    without touching anything else, the heap then represents the sequences
    that the contract gives, and exactly the data of flushed lists has been
    released, in order. *)
Theorem list_refines os h s rel s' (Hr : R h s) (Hs : lsteps os s rel s') :
  exists h', for_each lrun os h = Some (tt, h') /\ R h' s' /\ released h' = released h ++ rel.
Proof.
  revert h Hr. induction Hs as [s|o os s r1 s1 r2 s2 Hs _ IH]; intros h Hr.
  - exists h. by rewrite app_nil_r.
  - destruct (lstep_sim _ _ _ _ _ Hs Hr) as (h1 & E1 & R1 & L1).
    destruct (IH h1 R1) as (h2 & E2 & R2 & L2). exists h2. split_and!; [|done|].
    + cbn. unfold mbind, M_bind. by rewrite E1.
    + by rewrite L2, L1, app_assoc.
Qed.

(** ** Runs *)

Definition loose (d : Z) : le := mk_le None None None d.
Definition demo_heap : heap :=
  mk_heap {[1%nat := loose 0; 2%nat := loose 0; 3%nat := loose 0]} {[0%nat := mk_lst None None]} [].
Definition demo_state : state := mk_state {[0%nat := []]} {[1%nat; 2%nat; 3%nat]}.

Lemma demo_R : R demo_heap demo_state.
Proof.
  split; cbn.
  - intros l xs [<- <-]%lookup_singleton_Some. split_and!; [done|done|constructor].
  - intros x Hx. assert (x = 1 \/ x = 2 \/ x = 3)%nat as [->|[->| ->]] by set_solver;
      by eexists.
Qed.

Definition demo_ops : list lop :=
  [Append 0 1 10; Prepend 0 2 20; Insert_after 0 2 3 30; Unlink 1; Flush 0].

(** The states of the run. *)
Definition demo_3 : state := Eval cbv [take_free set_seq seqs free] in
  take_free 3 (set_seq 0 [(2%nat, 20); (3%nat, 30); (1%nat, 10)]
    (take_free 2 (set_seq 0 [(2%nat, 20); (1%nat, 10)]
      (take_free 1 (set_seq 0 [(1%nat, 10)] demo_state))))).
Definition demo_end : state :=
  give_free [2%nat; 3%nat] (set_seq 0 []
    (give_free [1%nat] (set_seq 0 [(2%nat, 20); (3%nat, 30)] demo_3))).

Lemma list_refines_witness :
  exists h', for_each lrun demo_ops demo_heap = Some (tt, h') /\
    R h' demo_end /\ released h' = [] ++ [20; 30].
Proof.
  apply (list_refines demo_ops demo_heap demo_state); [apply demo_R|].
  eapply (lsteps_cons _ _ _ [] _ [20; 30]); [apply (step_append 0 1 10 []); [done|set_solver]|].
  eapply (lsteps_cons _ _ _ [] _ [20; 30]); [apply (step_prepend 0 2 20); [done|set_solver]|].
  eapply (lsteps_cons _ _ _ [] _ [20; 30]);
    [apply (step_after 0 2 20 3 30 [] [(1%nat, 10)]); [done|set_solver]|].
  eapply (lsteps_cons _ _ _ [] _ [20; 30]);
    [apply (step_unlink 1 0 [(2%nat, 20); (3%nat, 30)] 10 []); done|].
  eapply (lsteps_cons _ _ _ [20; 30] _ []); [|constructor].
  apply (step_flush 0 [(2%nat, 20); (3%nat, 30)]). done.
Defined.

Definition sort_heap : heap :=
  mk_heap {[1%nat := mk_le None (Some 2%nat) (Some 0%nat) 30;
            2%nat := mk_le (Some 1%nat) (Some 3%nat) (Some 0%nat) 10;
            3%nat := mk_le (Some 2%nat) None (Some 0%nat) 20]}
    {[0%nat := mk_lst (Some 1%nat) (Some 3%nat)]} [].
Definition sort_seq : list entry := [(1%nat, 30); (2%nat, 10); (3%nat, 20)].

Definition sort_state : state := mk_state {[0%nat := sort_seq]} ∅.

Lemma sort_heap_R : R sort_heap sort_state.
Proof.
  split; cbn; [|set_solver]. intros l xs [<- <-]%lookup_singleton_Some.
  split_and!; [done|done|]. repeat constructor; set_solver.
Qed.

Lemma list_sort_sorts_witness :
  exists h' ys, list_sort Z.leb 0 sort_heap = Some (tt, h') /\
    R h' (mk_state (<[0%nat := ys]> (seqs sort_state)) (free sort_state)) /\ ys ≡ₚ sort_seq /\
    Sorted (ordered Z.leb) ys.
Proof.
  apply (list_sort_sorts Z.leb);
    [intros x y; lia|apply sort_heap_R|reflexivity].
Defined.

Example list_sort_runs :
  match list_sort Z.leb 0 sort_heap with
  | Some (_, h) => lists h !! 0%nat = Some (mk_lst (Some 2%nat) (Some 1%nat))
  | None => False
  end.
Proof. by vm_compute. Qed.
