(* ===== verification/Hash.v ===== *)
(** * Hash tables

    Models re/src/hash/hash.c.  The buckets are sequences of elements (the
    linked lists of ReListProps.v); an element is its list member, of the type
    [A], which is linked into one table at most; an apply handler is a program
    on the state of its argument that tells whether to stop.  The table
    implements a sequence of keyed elements: [holds]. *)

From S2P Require Import Prelude Effects.

Module Ht.

Record hash (A : Type) := mk_hash { bucket : list (list A); bsize : Z }.
#[global] Arguments mk_hash {A} _ _.
#[global] Arguments bucket {A} _.
#[global] Arguments bsize {A} _.

Section Table.
Context {A : Type}.
Implicit Types (h : hash A).

(** [alloc_ok]: of the table (16 bytes) and of its buckets (16 bytes each). *)
Definition hash_alloc (alloc_ok : Z -> bool) (bsize : Z) : Z * option (hash A) :=
  if bsize =? 0 then (EINVAL, None) else
  if negb (Z.land bsize (u32 (bsize - 1)) =? 0) then (EINVAL, None) else
  if negb (alloc_ok 16) then (ENOMEM, None) else
  if negb (alloc_ok (bsize * 16)) then (ENOMEM, None) else
  (0, Some (mk_hash (replicate (Z.to_nat bsize) []) bsize)).

Definition index h (key : Z) : nat := Z.to_nat (Z.land key (bsize h - 1)).

(** Whether an element is linked into the table. *)
Definition linked `{EqDecision A} h (x : A) : bool := existsb (fun b => bool_decide (x ∈ b)) (bucket h).

(** [list_append] ignores an element that is linked.  [None]: an index outside
    the buckets. *)
Definition hash_append `{EqDecision A} h (key : Z) (x : A) : option (hash A) :=
  l ← bucket h !! index h key;
  if linked h x then Some h else
  Some (mk_hash (<[index h key := l ++ [x]]> (bucket h)) (bsize h)).

(** [list_unlink]: the element leaves the bucket that it is in. *)
Fixpoint unlink_one `{EqDecision A} (x : A) (l : list A) : list A :=
  match l with [] => [] | y :: l => if decide (y = x) then l else y :: unlink_one x l end.
Fixpoint unlink_in `{EqDecision A} (x : A) (bs : list (list A)) : list (list A) :=
  match bs with
  | [] => []
  | b :: bs => if decide (x ∈ b) then unlink_one x b :: bs else b :: unlink_in x bs
  end.
Definition hash_unlink `{EqDecision A} (x : A) h : hash A := mk_hash (unlink_in x (bucket h)) (bsize h).

(** [list_apply] from the head: the element at which the handler stopped. *)
Fixpoint list_apply {S} (l : list A) (ah : A -> M S bool) : M S (option A) :=
  match l with
  | [] => mret None
  | x :: l => stop ← ah x; if (stop : bool) then mret (Some x) else list_apply l ah
  end.

Definition hash_lookup {S} h (key : Z) (ah : A -> M S bool) : M S (option A) :=
  l ← of_option (bucket h !! index h key);
  list_apply l ah.

Fixpoint apply_buckets {S} (bs : list (list A)) (ah : A -> M S bool) : M S (option A) :=
  match bs with
  | [] => mret None
  | b :: bs =>
    le ← list_apply b ah;
    match le with Some x => mret (Some x) | None => apply_buckets bs ah end
  end.

Definition hash_apply {S} h (ah : A -> M S bool) : M S (option A) := apply_buckets (bucket h) ah.

Definition hash_list h (key : Z) : option (list A) := bucket h !! index h key.
Definition hash_bsize h : Z := bsize h.

(** The elements that are released, in their order. *)
Definition hash_flush h : list A * hash A :=
  (concat (bucket h), mk_hash (map (fun _ => []) (bucket h)) (bsize h)).
Definition hash_clear h : hash A := mk_hash (map (fun _ => []) (bucket h)) (bsize h).

End Table.

Fixpoint valid_size_loop (fuel : nat) (x size : Z) : Z :=
  match fuel with
  | O => x
  | S fuel => if (Z.shiftl 1 x <? size) && (x <? 31) then valid_size_loop fuel (x + 1) size else x
  end.

Definition hash_valid_size (size : Z) : Z := Z.shiftl 1 (valid_size_loop 31 0 size).

(** ** A table holds a sequence of keyed elements *)

Section Holds.
Context {A : Type} `{EqDecision A} (key : A -> Z).
Implicit Types (h : hash A) (l : list A).

(** The table has a power of two of buckets, and every bucket the elements
    that belong to it, in the order in which they were added. *)
Record holds (h : hash A) (l : list A) : Prop := {
  hd_size : exists n, 0 <= n < 32 /\ bsize h = 2 ^ n;
  hd_len : zlen (bucket h) = bsize h;
  hd_bucket : forall i, (i < length (bucket h))%nat ->
    bucket h !! i = Some (filter (fun x => index h (key x) = i) l);
  hd_nodup : NoDup l }.

Lemma index_mod h k n : 0 <= n -> bsize h = 2 ^ n -> index h k = Z.to_nat (k mod 2 ^ n).
Proof. intros Hn Hs. unfold index. by rewrite (land_mask _ _ n) by lia. Qed.

Lemma index_lt h l k : holds h l -> (index h k < length (bucket h))%nat.
Proof.
  intros [(n & Hn & Hs) Hl _ _]. rewrite (index_mod h k n) by (done || lia). unfold zlen in Hl.
  assert (0 < 2 ^ n) by (apply Z.pow_pos_nonneg; lia). pose proof (Z.mod_pos_bound k (2 ^ n)). lia.
Qed.

Lemma pow2_test b : 0 < b < 2 ^ 32 -> Z.land b (b - 1) = 0 -> exists n, 0 <= n < 32 /\ b = 2 ^ n.
Proof.
  intros Hb Hl. set (n := Z.log2 b). assert (Hn : 0 <= n) by apply Z.log2_nonneg.
  destruct (Z.log2_spec b ltac:(lia)) as [H1 H2]. fold n in H1, H2. rewrite Z.pow_succ_r in H2 by done.
  exists n. split.
  { split; [done|]. apply (Z.pow_lt_mono_r_iff 2); lia. }
  destruct (decide (b = 2 ^ n)) as [|Hne]; [done|]. exfalso.
  assert (Hbit : Z.testbit (Z.land b (b - 1)) n = true).
  { rewrite Z.land_spec. pose proof (Z.bit_log2 b ltac:(lia)) as Hlog. fold n in Hlog.
    rewrite Hlog. cbn [andb].
    assert (Hd : (b - 1) / 2 ^ n = 1) by (symmetry; apply (Z.div_unique_pos _ _ 1 (b - 1 - 2 ^ n)); lia).
    rewrite Z.testbit_odd, Z.shiftr_div_pow2, Hd by lia. done. }
  by rewrite Hl, Z.bits_0 in Hbit.
Qed.

Lemma alloc_holds alloc_ok b h : 0 <= b < 2 ^ 32 -> hash_alloc alloc_ok b = (0, Some h) -> holds h [].
Proof.
  intros Hb. unfold hash_alloc. destruct (Z.eqb_spec b 0); [discriminate|].
  rewrite u32_small by lia. destruct (Z.eqb_spec (Z.land b (b - 1)) 0) as [Hl|]; [|discriminate].
  cbn [negb]. destruct (alloc_ok 16); [|discriminate]. destruct (alloc_ok (b * 16)); [|discriminate].
  cbn [negb]. intros [= <-]. split; cbn.
  - apply pow2_test; [lia|done].
  - unfold zlen. rewrite length_replicate. lia.
  - intros i Hi. rewrite length_replicate in Hi. by apply lookup_replicate.
  - constructor.
Qed.

(** ** Lookup and traversal *)

(** A handler that only compares. *)
Definition finds {S} (ah : A -> M S bool) (p : A -> bool) : Prop := forall x s, ah x s = Some (p x, s).

Lemma list_apply_find {S} l (ah : A -> M S bool) p s :
  (forall x, x ∈ l -> ah x s = Some (p x, s)) ->
  list_apply l ah s = Some (snd <$> list_find (fun x => p x = true) l, s).
Proof.
  induction l as [|x l IH]; intros Hp; [done|]. cbn [list_apply list_find].
  unfold mbind at 1, M_bind. rewrite Hp by left. destruct (p x); [done|].
  rewrite IH by (intros y Hy; apply Hp; by right). cbn.
  by destruct (list_find _ l) as [[? ?]|].
Qed.

Lemma find_filter (p q : A -> bool) l : (forall x, p x = true -> q x = true) ->
  snd <$> list_find (fun x => p x = true) (filter (fun x => q x = true) l)
  = snd <$> list_find (fun x => p x = true) l.
Proof.
  intros Hpq. induction l as [|x l IH]; [done|]. rewrite filter_cons. cbn [list_find].
  destruct (decide (q x = true)) as [Hq|Hq].
  - cbn [list_find]. destruct (decide (p x = true)); [done|].
    destruct (list_find _ l) as [[? ?]|], (list_find _ (filter _ l)) as [[? ?]|]; cbn in *; congruence.
  - destruct (decide (p x = true)) as [Hp|]; [by apply Hpq in Hp|]. rewrite IH.
    by destruct (list_find _ l) as [[? ?]|].
Qed.

Lemma lookup_find {S} h l (ah : A -> M S bool) p k s :
  holds h l -> (forall x, x ∈ l -> ah x s = Some (p x, s)) -> (forall x, p x = true -> key x = k) ->
  hash_lookup h k ah s = Some (snd <$> list_find (fun x => p x = true) l, s).
Proof.
  intros H Hf Hk. unfold hash_lookup, mbind, M_bind, of_option.
  rewrite (hd_bucket _ _ H) by (by eapply index_lt). rewrite (list_apply_find _ ah p s).
  2:{ intros x [_ Hx]%list_elem_of_filter. by apply Hf. }
  do 2 f_equal. rewrite <- (find_filter p (fun x => bool_decide (index h (key x) = index h k)) l).
  - f_equal. f_equal. apply list_filter_iff. intros x. by rewrite bool_decide_eq_true.
  - intros x Hx. apply bool_decide_eq_true. by rewrite (Hk x Hx).
Qed.

Lemma filter_below (f : A -> nat) n l :
  filter (fun x => (f x < S n)%nat) l ≡ₚ filter (fun x => (f x < n)%nat) l ++ filter (fun x => f x = n) l.
Proof.
  induction l as [|x l IH]; [done|]. rewrite !filter_cons.
  destruct (decide (f x < S n)%nat), (decide (f x < n)%nat), (decide (f x = n)); try lia; cbn.
  - by rewrite IH.
  - rewrite IH. apply Permutation_middle.
  - done.
Qed.

Lemma concat_filter (f : A -> nat) n l :
  concat (map (fun i => filter (fun x => f x = i) l) (seq 0 n)) ≡ₚ filter (fun x => (f x < n)%nat) l.
Proof.
  induction n as [|n IH].
  - cbn. induction l as [|x l IH]; [done|]. rewrite filter_cons_False by lia. done.
  - rewrite seq_S, map_app, concat_app, IH, filter_below. cbn. by rewrite app_nil_r.
Qed.

(** Every element is in the table once. *)
Lemma elements_perm h l : holds h l -> concat (bucket h) ≡ₚ l.
Proof.
  intros H. assert (Hb : bucket h = map (fun i => filter (fun x => index h (key x) = i) l)
    (seq 0 (length (bucket h)))).
  { apply list_eq. intros i. rewrite list_lookup_fmap. destruct (decide (i < length (bucket h))%nat) as [Hi|Hi].
    - rewrite (hd_bucket _ _ H) by done. by rewrite lookup_seq_lt.
    - rewrite lookup_ge_None_2 by lia. by rewrite lookup_seq_ge by lia. }
  rewrite Hb, concat_filter. clear Hb.
  assert (Hall : Forall (fun x => (index h (key x) < length (bucket h))%nat) l).
  { apply Forall_forall. intros x _. by eapply index_lt. }
  clear H. induction Hall as [|x l Hx _ IH]; [done|]. rewrite filter_cons_True by done. by rewrite IH.
Qed.

Lemma linked_iff h l x : holds h l -> linked h x = bool_decide (x ∈ l).
Proof.
  intros H. apply eq_bool_prop_intro. rewrite !Is_true_true, bool_decide_eq_true, <- (elements_perm h l H), list_elem_of_In, in_concat.
  unfold linked. rewrite existsb_exists. split; intros (b & Hb & Hx); exists b; (split; [done|]); [apply bool_decide_eq_true in Hx|apply bool_decide_eq_true]; by apply list_elem_of_In.
Qed.

Lemma append_holds h l x : holds h l ->
  exists h', hash_append h (key x) x = Some h' /\ holds h' (if decide (x ∈ l) then l else l ++ [x]).
Proof.
  intros H. pose proof (index_lt h l (key x) H) as Hi. unfold hash_append. rewrite (linked_iff h l x H). pose proof H as [Hs Hl Hb Hnd].
  rewrite Hb by done. cbn [mbind option_bind]. destruct (decide (x ∈ l)) as [Hin|Hin]; [rewrite bool_decide_true by done; by exists h|].
  rewrite bool_decide_false by done. eexists. split; [done|].
  split; cbn; [done|unfold zlen in *; by rewrite length_insert| |].
  2: { apply NoDup_app. split; [done|]. split; [|apply NoDup_singleton]. intros y Hy ->%list_elem_of_singleton. done. }
  intros i Hi'. rewrite length_insert in Hi'.
  change (index (mk_hash _ (bsize h))) with (index h). rewrite filter_app.
  destruct (decide (i = index h (key x))) as [->|Hne].
  - rewrite list_lookup_insert_eq by done. do 2 f_equal. by rewrite filter_cons_True.
  - rewrite list_lookup_insert_ne by done. rewrite Hb by done. f_equal.
    rewrite filter_cons_False by done. by rewrite filter_nil, app_nil_r.
Qed.

Lemma append_new h l x : holds h l -> x ∉ l -> exists h', hash_append h (key x) x = Some h' /\ holds h' (l ++ [x]).
Proof. intros H Hx. destruct (append_holds h l x H) as (h' & E & H'). rewrite decide_False in H' by done. by exists h'. Qed.

Lemma filter_absent x (l : list A) : x ∉ l -> filter (fun y => y <> x) l = l.
Proof.
  induction l as [|y l IH]; intros Hx; [done|]. apply not_elem_of_cons in Hx as [Hne Hx]. rewrite filter_cons_True by (intros ->; by apply Hne). by rewrite IH.
Qed.

Lemma unlink_one_filter x (l : list A) : NoDup l -> unlink_one x l = filter (fun y => y <> x) l.
Proof.
  induction 1 as [|y l Hy _ IH]; [done|]. cbn [unlink_one]. destruct (decide (y = x)) as [->|Hne].
  - rewrite filter_cons_False by (intros Hc; by apply Hc). by rewrite filter_absent.
  - rewrite filter_cons_True by done. by rewrite IH.
Qed.

Lemma unlink_in_filter x (bs : list (list A)) : NoDup (concat bs) -> unlink_in x bs = map (filter (fun y => y <> x)) bs.
Proof.
  induction bs as [|b bs IH]; intros Hnd; [done|]. cbn [concat unlink_in map] in *. apply NoDup_app in Hnd as (Hb & Hd & Hbs).
  destruct (decide (x ∈ b)) as [Hx|Hx].
  - rewrite unlink_one_filter by done. f_equal. rewrite <- (map_id bs) at 1. apply map_ext_in. intros b' Hb'. symmetry. apply filter_absent.
    intros Hx'. apply (Hd x Hx), list_elem_of_In, in_concat. exists b'. split; [done|by apply list_elem_of_In].
  - by rewrite IH, filter_absent.
Qed.

Lemma unlink_holds h l x : holds h l -> holds (hash_unlink x h) (filter (fun y => y <> x) l).
Proof.
  intros H. pose proof (elements_perm h l H) as Hp. destruct H as [Hs Hl Hb Hnd]. unfold hash_unlink. rewrite unlink_in_filter by (by rewrite Hp).
  split; cbn; [done|unfold zlen in *; by rewrite length_map| |by apply NoDup_filter].
  intros i Hi. rewrite length_map in Hi. rewrite list_lookup_fmap, Hb by done. cbn. f_equal.
  change (index (mk_hash _ (bsize h))) with (index h).
  rewrite !list_filter_filter. apply list_filter_iff. tauto.
Qed.

Lemma apply_concat {S} (bs : list (list A)) (ah : A -> M S bool) s :
  apply_buckets bs ah s = list_apply (concat bs) ah s.
Proof.
  revert s. induction bs as [|b bs IH]; intros s; [done|]. cbn [apply_buckets concat].
  revert s. induction b as [|x b IHb]; intros s; cbn [list_apply app].
  - unfold mbind, M_bind at 1. cbn. apply IH.
  - specialize (IHb). unfold mbind, M_bind in *. destruct (ah x s) as [[[] s']|]; [done| |done]. apply IHb.
Qed.

(** Only the keys of the elements matter. *)
Lemma filter_key (f g : A -> nat) i l : (forall x, x ∈ l -> f x = g x) ->
  filter (fun x => f x = i) l = filter (fun x => g x = i) l.
Proof.
  induction l as [|x l IH]; intros Hk; [done|]. rewrite !filter_cons, (Hk x) by left.
  rewrite IH by (intros y Hy; apply Hk; by right). done.
Qed.

(** ** Sequences of changes *)

Inductive hop := Append (x : A) | Unlink (x : A).

Definition hstep h (o : hop) : option (hash A) :=
  match o with Append x => hash_append h (key x) x | Unlink x => Some (hash_unlink x h) end.
Definition lstep l (o : hop) : list A :=
  match o with Append x => if decide (x ∈ l) then l else l ++ [x] | Unlink x => filter (fun y => y <> x) l end.

Fixpoint hrun h (os : list hop) : option (hash A) :=
  match os with [] => Some h | o :: os => h ← hstep h o; hrun h os end.

Lemma hrun_holds os h l : holds h l -> exists h', hrun h os = Some h' /\ holds h' (fold_left lstep os l).
Proof.
  revert h l. induction os as [|o os IH]; intros h l H; [by exists h|]. cbn [hrun fold_left].
  destruct o as [x|x]; cbn [hstep lstep].
  - destruct (append_holds h l x H) as (h' & -> & H'). by apply IH.
  - apply IH. by apply unlink_holds.
Qed.

End Holds.

Lemma holds_ext {A} `{EqDecision A} (key key' : A -> Z) h l :
  (forall x, x ∈ l -> key x = key' x) -> holds key h l -> holds key' h l.
Proof.
  intros Hk [H1 H2 H3 H4]. split; [done|done| |done]. intros i Hi. rewrite H3 by done. f_equal.
  apply filter_key. intros x Hx. by rewrite (Hk x Hx).
Qed.

(** C22: a hash table implements a sequence of keyed elements.  After any
    sequence of additions and removals on a new table, where adding an element
    that is in the table changes nothing and removing one that is not neither,
    a lookup returns the element that was added first among those the handler
    accepts, provided the handler accepts only elements with the key that is
    looked up; and the elements that a traversal visits are those of the
    sequence, each once. *)
Theorem hash_refines {A} `{EqDecision A} (key : A -> Z) alloc_ok b (h : hash A) os
  (Hb : 0 <= b < 2 ^ 32) (Ha : hash_alloc alloc_ok b = (0, Some h)) :
  exists h', hrun key h os = Some h' /\
    (forall S (ah : A -> M S bool) p k (s : S), finds ah p -> (forall x, p x = true -> key x = k) ->
       hash_lookup h' k ah s = Some (snd <$> list_find (fun x => p x = true) (fold_left lstep os []), s)) /\
    (forall S (ah : A -> M S bool) (s : S), hash_apply h' ah s = list_apply (concat (bucket h')) ah s) /\
    concat (bucket h') ≡ₚ fold_left lstep os [] /\ NoDup (concat (bucket h')).
Proof.
  apply (alloc_holds key) in Ha; [|done]. destruct (hrun_holds key os h [] Ha) as (h' & E & H).
  exists h'. pose proof (elements_perm _ _ _ H) as Hp. split_and!; [done| | |done|rewrite Hp; by apply (hd_nodup _ _ _ H)].
  - intros S ah p k s Hf Hk. eapply lookup_find; [done|by intros x _; apply Hf|done].
  - intros S ah s. apply apply_concat.
Qed.

Lemma hash_refines_witness :
  exists h', hrun (fun x => x) (mk_hash (replicate 8 []) 8) [Append 3; Append 11; Append 3; Append 4; Unlink 3; Unlink 5] = Some h' /\
    (forall S (ah : Z -> M S bool) p k (s : S), finds ah p -> (forall x, p x = true -> x = k) ->
       hash_lookup h' k ah s = Some (snd <$> list_find (fun x => p x = true) [11; 4], s)) /\
    (forall S (ah : Z -> M S bool) (s : S), hash_apply h' ah s = list_apply (concat (bucket h')) ah s) /\
    concat (bucket h') ≡ₚ [11; 4] /\ NoDup (concat (bucket h')).
Proof.
  assert (E : fold_left lstep [Append 3; Append 11; Append 3; Append 4; Unlink 3; Unlink 5] [] = [11; 4]) by reflexivity.
  rewrite <- E. apply (hash_refines (fun x => x) (fun _ => true) 8 (mk_hash (replicate 8 []) 8)
    [Append 3; Append 11; Append 3; Append 4; Unlink 3; Unlink 5]); [lia|reflexivity].
Defined.

(** [hash_valid_size] gives a size that [hash_alloc] takes. *)
Lemma valid_size_loop_spec fuel x size : 0 <= x -> x + Z.of_nat fuel = 31 -> size <= 2 ^ 31 ->
  let y := valid_size_loop fuel x size in x <= y <= 31 /\ size <= 2 ^ y.
Proof.
  revert x. induction fuel as [|fuel IH]; intros x Hx Hf Hs; cbn [valid_size_loop].
  - replace x with 31 by lia. lia.
  - rewrite Z.shiftl_1_l. destruct (Z.ltb_spec (2 ^ x) size) as [|Hge]; cbn [andb]; [|lia].
    replace (x <? 31) with true by lia. destruct (IH (x + 1)); lia.
Qed.

Lemma hash_valid_size_ok {A} alloc_ok size : 0 <= size <= 2 ^ 31 -> (forall n, alloc_ok n = true) ->
  size <= hash_valid_size size /\ exists h : hash A, hash_alloc alloc_ok (hash_valid_size size) = (0, Some h).
Proof.
  intros Hs Ha. unfold hash_valid_size. destruct (valid_size_loop_spec 31 0 size) as [H1 H2]; [lia..|].
  set (y := valid_size_loop 31 0 size) in *. rewrite Z.shiftl_1_l. split; [done|].
  assert (0 < 2 ^ y) by (apply Z.pow_pos_nonneg; lia).
  assert (2 ^ y <= 2 ^ 31) by (apply Z.pow_le_mono_r; lia).
  unfold hash_alloc. replace (2 ^ y =? 0) with false by lia. rewrite u32_small by lia.
  replace (Z.land (2 ^ y) (2 ^ y - 1)) with 0; [rewrite !Ha; by eexists|].
  rewrite (land_mask _ _ y), Z.mod_same by lia. done.
Qed.

End Ht.
