(* ===== verification/G711.v ===== *)
(** * The G.711 codec

    Models rem/src/g711/g711.c, the four tables, and the functions of
    rem/include/rem_g711.h.  A read outside a table is [None].  The reference
    is the companding law itself: sign, segment number and position inside
    the segment. *)

From S2P Require Import Prelude.

Module G711.

Definition g711_l2u : list Z := [
  254; 253; 252; 251; 250; 249; 248; 247; 246; 245; 244; 243; 242; 241; 240; 239; 239; 238;
  238; 237; 237; 236; 236; 235; 235; 234; 234; 233; 233; 232; 232; 231; 231; 230; 230; 229;
  229; 228; 228; 227; 227; 226; 226; 225; 225; 224; 224; 223; 223; 223; 223; 222; 222; 222;
  222; 221; 221; 221; 221; 220; 220; 220; 220; 219; 219; 219; 219; 218; 218; 218; 218; 217;
  217; 217; 217; 216; 216; 216; 216; 215; 215; 215; 215; 214; 214; 214; 214; 213; 213; 213;
  213; 212; 212; 212; 212; 211; 211; 211; 211; 210; 210; 210; 210; 209; 209; 209; 209; 208;
  208; 208; 208; 207; 207; 207; 207; 207; 207; 207; 207; 206; 206; 206; 206; 206; 206; 206;
  206; 205; 205; 205; 205; 205; 205; 205; 205; 204; 204; 204; 204; 204; 204; 204; 204; 203;
  203; 203; 203; 203; 203; 203; 203; 202; 202; 202; 202; 202; 202; 202; 202; 201; 201; 201;
  201; 201; 201; 201; 201; 200; 200; 200; 200; 200; 200; 200; 200; 199; 199; 199; 199; 199;
  199; 199; 199; 198; 198; 198; 198; 198; 198; 198; 198; 197; 197; 197; 197; 197; 197; 197;
  197; 196; 196; 196; 196; 196; 196; 196; 196; 195; 195; 195; 195; 195; 195; 195; 195; 194;
  194; 194; 194; 194; 194; 194; 194; 193; 193; 193; 193; 193; 193; 193; 193; 192; 192; 192;
  192; 192; 192; 192; 192; 191; 191; 191; 191; 191; 191; 191; 191; 191; 191; 191; 191; 191;
  191; 191; 191; 190; 190; 190; 190; 190; 190; 190; 190; 190; 190; 190; 190; 190; 190; 190;
  190; 189; 189; 189; 189; 189; 189; 189; 189; 189; 189; 189; 189; 189; 189; 189; 189; 188;
  188; 188; 188; 188; 188; 188; 188; 188; 188; 188; 188; 188; 188; 188; 188; 187; 187; 187;
  187; 187; 187; 187; 187; 187; 187; 187; 187; 187; 187; 187; 187; 186; 186; 186; 186; 186;
  186; 186; 186; 186; 186; 186; 186; 186; 186; 186; 186; 185; 185; 185; 185; 185; 185; 185;
  185; 185; 185; 185; 185; 185; 185; 185; 185; 184; 184; 184; 184; 184; 184; 184; 184; 184;
  184; 184; 184; 184; 184; 184; 184; 183; 183; 183; 183; 183; 183; 183; 183; 183; 183; 183;
  183; 183; 183; 183; 183; 182; 182; 182; 182; 182; 182; 182; 182; 182; 182; 182; 182; 182;
  182; 182; 182; 181; 181; 181; 181; 181; 181; 181; 181; 181; 181; 181; 181; 181; 181; 181;
  181; 180; 180; 180; 180; 180; 180; 180; 180; 180; 180; 180; 180; 180; 180; 180; 180; 179;
  179; 179; 179; 179; 179; 179; 179; 179; 179; 179; 179; 179; 179; 179; 179; 178; 178; 178;
  178; 178; 178; 178; 178; 178; 178; 178; 178; 178; 178; 178; 178; 177; 177; 177; 177; 177;
  177; 177; 177; 177; 177; 177; 177; 177; 177; 177; 177; 176; 176; 176; 176; 176; 176; 176;
  176; 176; 176; 176; 176; 176; 176; 176; 176; 175; 175; 175; 175; 175; 175; 175; 175; 175;
  175; 175; 175; 175; 175; 175; 175; 175; 175; 175; 175; 175; 175; 175; 175; 175; 175; 175;
  175; 175; 175; 175; 175; 174; 174; 174; 174; 174; 174; 174; 174; 174; 174; 174; 174; 174;
  174; 174; 174; 174; 174; 174; 174; 174; 174; 174; 174; 174; 174; 174; 174; 174; 174; 174;
  174; 173; 173; 173; 173; 173; 173; 173; 173; 173; 173; 173; 173; 173; 173; 173; 173; 173;
  173; 173; 173; 173; 173; 173; 173; 173; 173; 173; 173; 173; 173; 173; 173; 172; 172; 172;
  172; 172; 172; 172; 172; 172; 172; 172; 172; 172; 172; 172; 172; 172; 172; 172; 172; 172;
  172; 172; 172; 172; 172; 172; 172; 172; 172; 172; 172; 171; 171; 171; 171; 171; 171; 171;
  171; 171; 171; 171; 171; 171; 171; 171; 171; 171; 171; 171; 171; 171; 171; 171; 171; 171;
  171; 171; 171; 171; 171; 171; 171; 170; 170; 170; 170; 170; 170; 170; 170; 170; 170; 170;
  170; 170; 170; 170; 170; 170; 170; 170; 170; 170; 170; 170; 170; 170; 170; 170; 170; 170;
  170; 170; 170; 169; 169; 169; 169; 169; 169; 169; 169; 169; 169; 169; 169; 169; 169; 169;
  169; 169; 169; 169; 169; 169; 169; 169; 169; 169; 169; 169; 169; 169; 169; 169; 169; 168;
  168; 168; 168; 168; 168; 168; 168; 168; 168; 168; 168; 168; 168; 168; 168; 168; 168; 168;
  168; 168; 168; 168; 168; 168; 168; 168; 168; 168; 168; 168; 168; 167; 167; 167; 167; 167;
  167; 167; 167; 167; 167; 167; 167; 167; 167; 167; 167; 167; 167; 167; 167; 167; 167; 167;
  167; 167; 167; 167; 167; 167; 167; 167; 167; 166; 166; 166; 166; 166; 166; 166; 166; 166;
  166; 166; 166; 166; 166; 166; 166; 166; 166; 166; 166; 166; 166; 166; 166; 166; 166; 166;
  166; 166; 166; 166; 166; 165; 165; 165; 165; 165; 165; 165; 165; 165; 165; 165; 165; 165;
  165; 165; 165; 165; 165; 165; 165; 165; 165; 165; 165; 165; 165; 165; 165; 165; 165; 165;
  165; 164; 164; 164; 164; 164; 164; 164; 164; 164; 164; 164; 164; 164; 164; 164; 164; 164;
  164; 164; 164; 164; 164; 164; 164; 164; 164; 164; 164; 164; 164; 164; 164; 163; 163; 163;
  163; 163; 163; 163; 163; 163; 163; 163; 163; 163; 163; 163; 163; 163; 163; 163; 163; 163;
  163; 163; 163; 163; 163; 163; 163; 163; 163; 163; 163; 162; 162; 162; 162; 162; 162; 162;
  162; 162; 162; 162; 162; 162; 162; 162; 162; 162; 162; 162; 162; 162; 162; 162; 162; 162;
  162; 162; 162; 162; 162; 162; 162; 161; 161; 161; 161; 161; 161; 161; 161; 161; 161; 161;
  161; 161; 161; 161; 161; 161; 161; 161; 161; 161; 161; 161; 161; 161; 161; 161; 161; 161;
  161; 161; 161; 160; 160; 160; 160; 160; 160; 160; 160; 160; 160; 160; 160; 160; 160; 160;
  160; 160; 160; 160; 160; 160; 160; 160; 160; 160; 160; 160; 160; 160; 160; 160; 160; 159;
  159; 159; 159; 159; 159; 159; 159; 159; 159; 159; 159; 159; 159; 159; 159; 159; 159; 159;
  159; 159; 159; 159; 159; 159; 159; 159; 159; 159; 159; 159; 159; 159; 159; 159; 159; 159;
  159; 159; 159; 159; 159; 159; 159; 159; 159; 159; 159; 159; 159; 159; 159; 159; 159; 159;
  159; 159; 159; 159; 159; 159; 159; 159; 159; 158; 158; 158; 158; 158; 158; 158; 158; 158;
  158; 158; 158; 158; 158; 158; 158; 158; 158; 158; 158; 158; 158; 158; 158; 158; 158; 158;
  158; 158; 158; 158; 158; 158; 158; 158; 158; 158; 158; 158; 158; 158; 158; 158; 158; 158;
  158; 158; 158; 158; 158; 158; 158; 158; 158; 158; 158; 158; 158; 158; 158; 158; 158; 158;
  158; 157; 157; 157; 157; 157; 157; 157; 157; 157; 157; 157; 157; 157; 157; 157; 157; 157;
  157; 157; 157; 157; 157; 157; 157; 157; 157; 157; 157; 157; 157; 157; 157; 157; 157; 157;
  157; 157; 157; 157; 157; 157; 157; 157; 157; 157; 157; 157; 157; 157; 157; 157; 157; 157;
  157; 157; 157; 157; 157; 157; 157; 157; 157; 157; 157; 156; 156; 156; 156; 156; 156; 156;
  156; 156; 156; 156; 156; 156; 156; 156; 156; 156; 156; 156; 156; 156; 156; 156; 156; 156;
  156; 156; 156; 156; 156; 156; 156; 156; 156; 156; 156; 156; 156; 156; 156; 156; 156; 156;
  156; 156; 156; 156; 156; 156; 156; 156; 156; 156; 156; 156; 156; 156; 156; 156; 156; 156;
  156; 156; 156; 155; 155; 155; 155; 155; 155; 155; 155; 155; 155; 155; 155; 155; 155; 155;
  155; 155; 155; 155; 155; 155; 155; 155; 155; 155; 155; 155; 155; 155; 155; 155; 155; 155;
  155; 155; 155; 155; 155; 155; 155; 155; 155; 155; 155; 155; 155; 155; 155; 155; 155; 155;
  155; 155; 155; 155; 155; 155; 155; 155; 155; 155; 155; 155; 155; 154; 154; 154; 154; 154;
  154; 154; 154; 154; 154; 154; 154; 154; 154; 154; 154; 154; 154; 154; 154; 154; 154; 154;
  154; 154; 154; 154; 154; 154; 154; 154; 154; 154; 154; 154; 154; 154; 154; 154; 154; 154;
  154; 154; 154; 154; 154; 154; 154; 154; 154; 154; 154; 154; 154; 154; 154; 154; 154; 154;
  154; 154; 154; 154; 154; 153; 153; 153; 153; 153; 153; 153; 153; 153; 153; 153; 153; 153;
  153; 153; 153; 153; 153; 153; 153; 153; 153; 153; 153; 153; 153; 153; 153; 153; 153; 153;
  153; 153; 153; 153; 153; 153; 153; 153; 153; 153; 153; 153; 153; 153; 153; 153; 153; 153;
  153; 153; 153; 153; 153; 153; 153; 153; 153; 153; 153; 153; 153; 153; 153; 152; 152; 152;
  152; 152; 152; 152; 152; 152; 152; 152; 152; 152; 152; 152; 152; 152; 152; 152; 152; 152;
  152; 152; 152; 152; 152; 152; 152; 152; 152; 152; 152; 152; 152; 152; 152; 152; 152; 152;
  152; 152; 152; 152; 152; 152; 152; 152; 152; 152; 152; 152; 152; 152; 152; 152; 152; 152;
  152; 152; 152; 152; 152; 152; 152; 151; 151; 151; 151; 151; 151; 151; 151; 151; 151; 151;
  151; 151; 151; 151; 151; 151; 151; 151; 151; 151; 151; 151; 151; 151; 151; 151; 151; 151;
  151; 151; 151; 151; 151; 151; 151; 151; 151; 151; 151; 151; 151; 151; 151; 151; 151; 151;
  151; 151; 151; 151; 151; 151; 151; 151; 151; 151; 151; 151; 151; 151; 151; 151; 151; 150;
  150; 150; 150; 150; 150; 150; 150; 150; 150; 150; 150; 150; 150; 150; 150; 150; 150; 150;
  150; 150; 150; 150; 150; 150; 150; 150; 150; 150; 150; 150; 150; 150; 150; 150; 150; 150;
  150; 150; 150; 150; 150; 150; 150; 150; 150; 150; 150; 150; 150; 150; 150; 150; 150; 150;
  150; 150; 150; 150; 150; 150; 150; 150; 150; 149; 149; 149; 149; 149; 149; 149; 149; 149;
  149; 149; 149; 149; 149; 149; 149; 149; 149; 149; 149; 149; 149; 149; 149; 149; 149; 149;
  149; 149; 149; 149; 149; 149; 149; 149; 149; 149; 149; 149; 149; 149; 149; 149; 149; 149;
  149; 149; 149; 149; 149; 149; 149; 149; 149; 149; 149; 149; 149; 149; 149; 149; 149; 149;
  149; 148; 148; 148; 148; 148; 148; 148; 148; 148; 148; 148; 148; 148; 148; 148; 148; 148;
  148; 148; 148; 148; 148; 148; 148; 148; 148; 148; 148; 148; 148; 148; 148; 148; 148; 148;
  148; 148; 148; 148; 148; 148; 148; 148; 148; 148; 148; 148; 148; 148; 148; 148; 148; 148;
  148; 148; 148; 148; 148; 148; 148; 148; 148; 148; 148; 147; 147; 147; 147; 147; 147; 147;
  147; 147; 147; 147; 147; 147; 147; 147; 147; 147; 147; 147; 147; 147; 147; 147; 147; 147;
  147; 147; 147; 147; 147; 147; 147; 147; 147; 147; 147; 147; 147; 147; 147; 147; 147; 147;
  147; 147; 147; 147; 147; 147; 147; 147; 147; 147; 147; 147; 147; 147; 147; 147; 147; 147;
  147; 147; 147; 146; 146; 146; 146; 146; 146; 146; 146; 146; 146; 146; 146; 146; 146; 146;
  146; 146; 146; 146; 146; 146; 146; 146; 146; 146; 146; 146; 146; 146; 146; 146; 146; 146;
  146; 146; 146; 146; 146; 146; 146; 146; 146; 146; 146; 146; 146; 146; 146; 146; 146; 146;
  146; 146; 146; 146; 146; 146; 146; 146; 146; 146; 146; 146; 146; 145; 145; 145; 145; 145;
  145; 145; 145; 145; 145; 145; 145; 145; 145; 145; 145; 145; 145; 145; 145; 145; 145; 145;
  145; 145; 145; 145; 145; 145; 145; 145; 145; 145; 145; 145; 145; 145; 145; 145; 145; 145;
  145; 145; 145; 145; 145; 145; 145; 145; 145; 145; 145; 145; 145; 145; 145; 145; 145; 145;
  145; 145; 145; 145; 145; 144; 144; 144; 144; 144; 144; 144; 144; 144; 144; 144; 144; 144;
  144; 144; 144; 144; 144; 144; 144; 144; 144; 144; 144; 144; 144; 144; 144; 144; 144; 144;
  144; 144; 144; 144; 144; 144; 144; 144; 144; 144; 144; 144; 144; 144; 144; 144; 144; 144;
  144; 144; 144; 144; 144; 144; 144; 144; 144; 144; 144; 144; 144; 144; 144; 143; 143; 143;
  143; 143; 143; 143; 143; 143; 143; 143; 143; 143; 143; 143; 143; 143; 143; 143; 143; 143;
  143; 143; 143; 143; 143; 143; 143; 143; 143; 143; 143; 143; 143; 143; 143; 143; 143; 143;
  143; 143; 143; 143; 143; 143; 143; 143; 143; 143; 143; 143; 143; 143; 143; 143; 143; 143;
  143; 143; 143; 143; 143; 143; 143; 143; 143; 143; 143; 143; 143; 143; 143; 143; 143; 143;
  143; 143; 143; 143; 143; 143; 143; 143; 143; 143; 143; 143; 143; 143; 143; 143; 143; 143;
  143; 143; 143; 143; 143; 143; 143; 143; 143; 143; 143; 143; 143; 143; 143; 143; 143; 143;
  143; 143; 143; 143; 143; 143; 143; 143; 143; 143; 143; 143; 143; 143; 143; 143; 143; 142;
  142; 142; 142; 142; 142; 142; 142; 142; 142; 142; 142; 142; 142; 142; 142; 142; 142; 142;
  142; 142; 142; 142; 142; 142; 142; 142; 142; 142; 142; 142; 142; 142; 142; 142; 142; 142;
  142; 142; 142; 142; 142; 142; 142; 142; 142; 142; 142; 142; 142; 142; 142; 142; 142; 142;
  142; 142; 142; 142; 142; 142; 142; 142; 142; 142; 142; 142; 142; 142; 142; 142; 142; 142;
  142; 142; 142; 142; 142; 142; 142; 142; 142; 142; 142; 142; 142; 142; 142; 142; 142; 142;
  142; 142; 142; 142; 142; 142; 142; 142; 142; 142; 142; 142; 142; 142; 142; 142; 142; 142;
  142; 142; 142; 142; 142; 142; 142; 142; 142; 142; 142; 142; 142; 142; 142; 142; 142; 142;
  142; 141; 141; 141; 141; 141; 141; 141; 141; 141; 141; 141; 141; 141; 141; 141; 141; 141;
  141; 141; 141; 141; 141; 141; 141; 141; 141; 141; 141; 141; 141; 141; 141; 141; 141; 141;
  141; 141; 141; 141; 141; 141; 141; 141; 141; 141; 141; 141; 141; 141; 141; 141; 141; 141;
  141; 141; 141; 141; 141; 141; 141; 141; 141; 141; 141; 141; 141; 141; 141; 141; 141; 141;
  141; 141; 141; 141; 141; 141; 141; 141; 141; 141; 141; 141; 141; 141; 141; 141; 141; 141;
  141; 141; 141; 141; 141; 141; 141; 141; 141; 141; 141; 141; 141; 141; 141; 141; 141; 141;
  141; 141; 141; 141; 141; 141; 141; 141; 141; 141; 141; 141; 141; 141; 141; 141; 141; 141;
  141; 141; 141; 140; 140; 140; 140; 140; 140; 140; 140; 140; 140; 140; 140; 140; 140; 140;
  140; 140; 140; 140; 140; 140; 140; 140; 140; 140; 140; 140; 140; 140; 140; 140; 140; 140;
  140; 140; 140; 140; 140; 140; 140; 140; 140; 140; 140; 140; 140; 140; 140; 140; 140; 140;
  140; 140; 140; 140; 140; 140; 140; 140; 140; 140; 140; 140; 140; 140; 140; 140; 140; 140;
  140; 140; 140; 140; 140; 140; 140; 140; 140; 140; 140; 140; 140; 140; 140; 140; 140; 140;
  140; 140; 140; 140; 140; 140; 140; 140; 140; 140; 140; 140; 140; 140; 140; 140; 140; 140;
  140; 140; 140; 140; 140; 140; 140; 140; 140; 140; 140; 140; 140; 140; 140; 140; 140; 140;
  140; 140; 140; 140; 140; 139; 139; 139; 139; 139; 139; 139; 139; 139; 139; 139; 139; 139;
  139; 139; 139; 139; 139; 139; 139; 139; 139; 139; 139; 139; 139; 139; 139; 139; 139; 139;
  139; 139; 139; 139; 139; 139; 139; 139; 139; 139; 139; 139; 139; 139; 139; 139; 139; 139;
  139; 139; 139; 139; 139; 139; 139; 139; 139; 139; 139; 139; 139; 139; 139; 139; 139; 139;
  139; 139; 139; 139; 139; 139; 139; 139; 139; 139; 139; 139; 139; 139; 139; 139; 139; 139;
  139; 139; 139; 139; 139; 139; 139; 139; 139; 139; 139; 139; 139; 139; 139; 139; 139; 139;
  139; 139; 139; 139; 139; 139; 139; 139; 139; 139; 139; 139; 139; 139; 139; 139; 139; 139;
  139; 139; 139; 139; 139; 139; 139; 138; 138; 138; 138; 138; 138; 138; 138; 138; 138; 138;
  138; 138; 138; 138; 138; 138; 138; 138; 138; 138; 138; 138; 138; 138; 138; 138; 138; 138;
  138; 138; 138; 138; 138; 138; 138; 138; 138; 138; 138; 138; 138; 138; 138; 138; 138; 138;
  138; 138; 138; 138; 138; 138; 138; 138; 138; 138; 138; 138; 138; 138; 138; 138; 138; 138;
  138; 138; 138; 138; 138; 138; 138; 138; 138; 138; 138; 138; 138; 138; 138; 138; 138; 138;
  138; 138; 138; 138; 138; 138; 138; 138; 138; 138; 138; 138; 138; 138; 138; 138; 138; 138;
  138; 138; 138; 138; 138; 138; 138; 138; 138; 138; 138; 138; 138; 138; 138; 138; 138; 138;
  138; 138; 138; 138; 138; 138; 138; 138; 138; 137; 137; 137; 137; 137; 137; 137; 137; 137;
  137; 137; 137; 137; 137; 137; 137; 137; 137; 137; 137; 137; 137; 137; 137; 137; 137; 137;
  137; 137; 137; 137; 137; 137; 137; 137; 137; 137; 137; 137; 137; 137; 137; 137; 137; 137;
  137; 137; 137; 137; 137; 137; 137; 137; 137; 137; 137; 137; 137; 137; 137; 137; 137; 137;
  137; 137; 137; 137; 137; 137; 137; 137; 137; 137; 137; 137; 137; 137; 137; 137; 137; 137;
  137; 137; 137; 137; 137; 137; 137; 137; 137; 137; 137; 137; 137; 137; 137; 137; 137; 137;
  137; 137; 137; 137; 137; 137; 137; 137; 137; 137; 137; 137; 137; 137; 137; 137; 137; 137;
  137; 137; 137; 137; 137; 137; 137; 137; 137; 137; 137; 136; 136; 136; 136; 136; 136; 136;
  136; 136; 136; 136; 136; 136; 136; 136; 136; 136; 136; 136; 136; 136; 136; 136; 136; 136;
  136; 136; 136; 136; 136; 136; 136; 136; 136; 136; 136; 136; 136; 136; 136; 136; 136; 136;
  136; 136; 136; 136; 136; 136; 136; 136; 136; 136; 136; 136; 136; 136; 136; 136; 136; 136;
  136; 136; 136; 136; 136; 136; 136; 136; 136; 136; 136; 136; 136; 136; 136; 136; 136; 136;
  136; 136; 136; 136; 136; 136; 136; 136; 136; 136; 136; 136; 136; 136; 136; 136; 136; 136;
  136; 136; 136; 136; 136; 136; 136; 136; 136; 136; 136; 136; 136; 136; 136; 136; 136; 136;
  136; 136; 136; 136; 136; 136; 136; 136; 136; 136; 136; 136; 136; 135; 135; 135; 135; 135;
  135; 135; 135; 135; 135; 135; 135; 135; 135; 135; 135; 135; 135; 135; 135; 135; 135; 135;
  135; 135; 135; 135; 135; 135; 135; 135; 135; 135; 135; 135; 135; 135; 135; 135; 135; 135;
  135; 135; 135; 135; 135; 135; 135; 135; 135; 135; 135; 135; 135; 135; 135; 135; 135; 135;
  135; 135; 135; 135; 135; 135; 135; 135; 135; 135; 135; 135; 135; 135; 135; 135; 135; 135;
  135; 135; 135; 135; 135; 135; 135; 135; 135; 135; 135; 135; 135; 135; 135; 135; 135; 135;
  135; 135; 135; 135; 135; 135; 135; 135; 135; 135; 135; 135; 135; 135; 135; 135; 135; 135;
  135; 135; 135; 135; 135; 135; 135; 135; 135; 135; 135; 135; 135; 135; 135; 134; 134; 134;
  134; 134; 134; 134; 134; 134; 134; 134; 134; 134; 134; 134; 134; 134; 134; 134; 134; 134;
  134; 134; 134; 134; 134; 134; 134; 134; 134; 134; 134; 134; 134; 134; 134; 134; 134; 134;
  134; 134; 134; 134; 134; 134; 134; 134; 134; 134; 134; 134; 134; 134; 134; 134; 134; 134;
  134; 134; 134; 134; 134; 134; 134; 134; 134; 134; 134; 134; 134; 134; 134; 134; 134; 134;
  134; 134; 134; 134; 134; 134; 134; 134; 134; 134; 134; 134; 134; 134; 134; 134; 134; 134;
  134; 134; 134; 134; 134; 134; 134; 134; 134; 134; 134; 134; 134; 134; 134; 134; 134; 134;
  134; 134; 134; 134; 134; 134; 134; 134; 134; 134; 134; 134; 134; 134; 134; 134; 134; 133;
  133; 133; 133; 133; 133; 133; 133; 133; 133; 133; 133; 133; 133; 133; 133; 133; 133; 133;
  133; 133; 133; 133; 133; 133; 133; 133; 133; 133; 133; 133; 133; 133; 133; 133; 133; 133;
  133; 133; 133; 133; 133; 133; 133; 133; 133; 133; 133; 133; 133; 133; 133; 133; 133; 133;
  133; 133; 133; 133; 133; 133; 133; 133; 133; 133; 133; 133; 133; 133; 133; 133; 133; 133;
  133; 133; 133; 133; 133; 133; 133; 133; 133; 133; 133; 133; 133; 133; 133; 133; 133; 133;
  133; 133; 133; 133; 133; 133; 133; 133; 133; 133; 133; 133; 133; 133; 133; 133; 133; 133;
  133; 133; 133; 133; 133; 133; 133; 133; 133; 133; 133; 133; 133; 133; 133; 133; 133; 133;
  133; 132; 132; 132; 132; 132; 132; 132; 132; 132; 132; 132; 132; 132; 132; 132; 132; 132;
  132; 132; 132; 132; 132; 132; 132; 132; 132; 132; 132; 132; 132; 132; 132; 132; 132; 132;
  132; 132; 132; 132; 132; 132; 132; 132; 132; 132; 132; 132; 132; 132; 132; 132; 132; 132;
  132; 132; 132; 132; 132; 132; 132; 132; 132; 132; 132; 132; 132; 132; 132; 132; 132; 132;
  132; 132; 132; 132; 132; 132; 132; 132; 132; 132; 132; 132; 132; 132; 132; 132; 132; 132;
  132; 132; 132; 132; 132; 132; 132; 132; 132; 132; 132; 132; 132; 132; 132; 132; 132; 132;
  132; 132; 132; 132; 132; 132; 132; 132; 132; 132; 132; 132; 132; 132; 132; 132; 132; 132;
  132; 132; 132; 131; 131; 131; 131; 131; 131; 131; 131; 131; 131; 131; 131; 131; 131; 131;
  131; 131; 131; 131; 131; 131; 131; 131; 131; 131; 131; 131; 131; 131; 131; 131; 131; 131;
  131; 131; 131; 131; 131; 131; 131; 131; 131; 131; 131; 131; 131; 131; 131; 131; 131; 131;
  131; 131; 131; 131; 131; 131; 131; 131; 131; 131; 131; 131; 131; 131; 131; 131; 131; 131;
  131; 131; 131; 131; 131; 131; 131; 131; 131; 131; 131; 131; 131; 131; 131; 131; 131; 131;
  131; 131; 131; 131; 131; 131; 131; 131; 131; 131; 131; 131; 131; 131; 131; 131; 131; 131;
  131; 131; 131; 131; 131; 131; 131; 131; 131; 131; 131; 131; 131; 131; 131; 131; 131; 131;
  131; 131; 131; 131; 131; 130; 130; 130; 130; 130; 130; 130; 130; 130; 130; 130; 130; 130;
  130; 130; 130; 130; 130; 130; 130; 130; 130; 130; 130; 130; 130; 130; 130; 130; 130; 130;
  130; 130; 130; 130; 130; 130; 130; 130; 130; 130; 130; 130; 130; 130; 130; 130; 130; 130;
  130; 130; 130; 130; 130; 130; 130; 130; 130; 130; 130; 130; 130; 130; 130; 130; 130; 130;
  130; 130; 130; 130; 130; 130; 130; 130; 130; 130; 130; 130; 130; 130; 130; 130; 130; 130;
  130; 130; 130; 130; 130; 130; 130; 130; 130; 130; 130; 130; 130; 130; 130; 130; 130; 130;
  130; 130; 130; 130; 130; 130; 130; 130; 130; 130; 130; 130; 130; 130; 130; 130; 130; 130;
  130; 130; 130; 130; 130; 130; 130; 129; 129; 129; 129; 129; 129; 129; 129; 129; 129; 129;
  129; 129; 129; 129; 129; 129; 129; 129; 129; 129; 129; 129; 129; 129; 129; 129; 129; 129;
  129; 129; 129; 129; 129; 129; 129; 129; 129; 129; 129; 129; 129; 129; 129; 129; 129; 129;
  129; 129; 129; 129; 129; 129; 129; 129; 129; 129; 129; 129; 129; 129; 129; 129; 129; 129;
  129; 129; 129; 129; 129; 129; 129; 129; 129; 129; 129; 129; 129; 129; 129; 129; 129; 129;
  129; 129; 129; 129; 129; 129; 129; 129; 129; 129; 129; 129; 129; 129; 129; 129; 129; 129;
  129; 129; 129; 129; 129; 129; 129; 129; 129; 129; 129; 129; 129; 129; 129; 129; 129; 129;
  129; 129; 129; 129; 129; 129; 129; 129; 129; 128; 128; 128; 128; 128; 128; 128; 128; 128;
  128; 128; 128; 128; 128; 128; 128; 128; 128; 128; 128; 128; 128; 128; 128; 128; 128; 128;
  128; 128; 128; 128; 128; 128; 128; 128; 128; 128; 128; 128; 128; 128; 128; 128; 128; 128;
  128; 128; 128; 128; 128; 128; 128; 128; 128; 128; 128; 128; 128; 128; 128; 128; 128; 128;
  128; 128; 128; 128; 128; 128; 128; 128; 128; 128; 128; 128; 128; 128; 128; 128; 128; 128;
  128; 128; 128; 128; 128; 128; 128; 128; 128; 128; 128; 128; 128; 128; 128; 128; 128; 128;
  128; 128; 128; 128; 128; 128; 128; 128; 128; 128; 128; 128; 128; 128; 128; 128; 128; 128;
  128; 128; 128; 128; 128; 128; 128; 128; 128; 128; 128; 128; 128; 128; 128; 128; 128; 128;
  128; 128; 128; 128; 128; 128; 128; 128; 128; 128].

Definition g711_l2A : list Z := [
  213; 212; 215; 214; 209; 208; 211; 210; 221; 220; 223; 222; 217; 216; 219; 218; 197; 196;
  199; 198; 193; 192; 195; 194; 205; 204; 207; 206; 201; 200; 203; 202; 245; 245; 244; 244;
  247; 247; 246; 246; 241; 241; 240; 240; 243; 243; 242; 242; 253; 253; 252; 252; 255; 255;
  254; 254; 249; 249; 248; 248; 251; 251; 250; 250; 229; 229; 229; 229; 228; 228; 228; 228;
  231; 231; 231; 231; 230; 230; 230; 230; 225; 225; 225; 225; 224; 224; 224; 224; 227; 227;
  227; 227; 226; 226; 226; 226; 237; 237; 237; 237; 236; 236; 236; 236; 239; 239; 239; 239;
  238; 238; 238; 238; 233; 233; 233; 233; 232; 232; 232; 232; 235; 235; 235; 235; 234; 234;
  234; 234; 149; 149; 149; 149; 149; 149; 149; 149; 148; 148; 148; 148; 148; 148; 148; 148;
  151; 151; 151; 151; 151; 151; 151; 151; 150; 150; 150; 150; 150; 150; 150; 150; 145; 145;
  145; 145; 145; 145; 145; 145; 144; 144; 144; 144; 144; 144; 144; 144; 147; 147; 147; 147;
  147; 147; 147; 147; 146; 146; 146; 146; 146; 146; 146; 146; 157; 157; 157; 157; 157; 157;
  157; 157; 156; 156; 156; 156; 156; 156; 156; 156; 159; 159; 159; 159; 159; 159; 159; 159;
  158; 158; 158; 158; 158; 158; 158; 158; 153; 153; 153; 153; 153; 153; 153; 153; 152; 152;
  152; 152; 152; 152; 152; 152; 155; 155; 155; 155; 155; 155; 155; 155; 154; 154; 154; 154;
  154; 154; 154; 154; 133; 133; 133; 133; 133; 133; 133; 133; 133; 133; 133; 133; 133; 133;
  133; 133; 132; 132; 132; 132; 132; 132; 132; 132; 132; 132; 132; 132; 132; 132; 132; 132;
  135; 135; 135; 135; 135; 135; 135; 135; 135; 135; 135; 135; 135; 135; 135; 135; 134; 134;
  134; 134; 134; 134; 134; 134; 134; 134; 134; 134; 134; 134; 134; 134; 129; 129; 129; 129;
  129; 129; 129; 129; 129; 129; 129; 129; 129; 129; 129; 129; 128; 128; 128; 128; 128; 128;
  128; 128; 128; 128; 128; 128; 128; 128; 128; 128; 131; 131; 131; 131; 131; 131; 131; 131;
  131; 131; 131; 131; 131; 131; 131; 131; 130; 130; 130; 130; 130; 130; 130; 130; 130; 130;
  130; 130; 130; 130; 130; 130; 141; 141; 141; 141; 141; 141; 141; 141; 141; 141; 141; 141;
  141; 141; 141; 141; 140; 140; 140; 140; 140; 140; 140; 140; 140; 140; 140; 140; 140; 140;
  140; 140; 143; 143; 143; 143; 143; 143; 143; 143; 143; 143; 143; 143; 143; 143; 143; 143;
  142; 142; 142; 142; 142; 142; 142; 142; 142; 142; 142; 142; 142; 142; 142; 142; 137; 137;
  137; 137; 137; 137; 137; 137; 137; 137; 137; 137; 137; 137; 137; 137; 136; 136; 136; 136;
  136; 136; 136; 136; 136; 136; 136; 136; 136; 136; 136; 136; 139; 139; 139; 139; 139; 139;
  139; 139; 139; 139; 139; 139; 139; 139; 139; 139; 138; 138; 138; 138; 138; 138; 138; 138;
  138; 138; 138; 138; 138; 138; 138; 138; 181; 181; 181; 181; 181; 181; 181; 181; 181; 181;
  181; 181; 181; 181; 181; 181; 181; 181; 181; 181; 181; 181; 181; 181; 181; 181; 181; 181;
  181; 181; 181; 181; 180; 180; 180; 180; 180; 180; 180; 180; 180; 180; 180; 180; 180; 180;
  180; 180; 180; 180; 180; 180; 180; 180; 180; 180; 180; 180; 180; 180; 180; 180; 180; 180;
  183; 183; 183; 183; 183; 183; 183; 183; 183; 183; 183; 183; 183; 183; 183; 183; 183; 183;
  183; 183; 183; 183; 183; 183; 183; 183; 183; 183; 183; 183; 183; 183; 182; 182; 182; 182;
  182; 182; 182; 182; 182; 182; 182; 182; 182; 182; 182; 182; 182; 182; 182; 182; 182; 182;
  182; 182; 182; 182; 182; 182; 182; 182; 182; 182; 177; 177; 177; 177; 177; 177; 177; 177;
  177; 177; 177; 177; 177; 177; 177; 177; 177; 177; 177; 177; 177; 177; 177; 177; 177; 177;
  177; 177; 177; 177; 177; 177; 176; 176; 176; 176; 176; 176; 176; 176; 176; 176; 176; 176;
  176; 176; 176; 176; 176; 176; 176; 176; 176; 176; 176; 176; 176; 176; 176; 176; 176; 176;
  176; 176; 179; 179; 179; 179; 179; 179; 179; 179; 179; 179; 179; 179; 179; 179; 179; 179;
  179; 179; 179; 179; 179; 179; 179; 179; 179; 179; 179; 179; 179; 179; 179; 179; 178; 178;
  178; 178; 178; 178; 178; 178; 178; 178; 178; 178; 178; 178; 178; 178; 178; 178; 178; 178;
  178; 178; 178; 178; 178; 178; 178; 178; 178; 178; 178; 178; 189; 189; 189; 189; 189; 189;
  189; 189; 189; 189; 189; 189; 189; 189; 189; 189; 189; 189; 189; 189; 189; 189; 189; 189;
  189; 189; 189; 189; 189; 189; 189; 189; 188; 188; 188; 188; 188; 188; 188; 188; 188; 188;
  188; 188; 188; 188; 188; 188; 188; 188; 188; 188; 188; 188; 188; 188; 188; 188; 188; 188;
  188; 188; 188; 188; 191; 191; 191; 191; 191; 191; 191; 191; 191; 191; 191; 191; 191; 191;
  191; 191; 191; 191; 191; 191; 191; 191; 191; 191; 191; 191; 191; 191; 191; 191; 191; 191;
  190; 190; 190; 190; 190; 190; 190; 190; 190; 190; 190; 190; 190; 190; 190; 190; 190; 190;
  190; 190; 190; 190; 190; 190; 190; 190; 190; 190; 190; 190; 190; 190; 185; 185; 185; 185;
  185; 185; 185; 185; 185; 185; 185; 185; 185; 185; 185; 185; 185; 185; 185; 185; 185; 185;
  185; 185; 185; 185; 185; 185; 185; 185; 185; 185; 184; 184; 184; 184; 184; 184; 184; 184;
  184; 184; 184; 184; 184; 184; 184; 184; 184; 184; 184; 184; 184; 184; 184; 184; 184; 184;
  184; 184; 184; 184; 184; 184; 187; 187; 187; 187; 187; 187; 187; 187; 187; 187; 187; 187;
  187; 187; 187; 187; 187; 187; 187; 187; 187; 187; 187; 187; 187; 187; 187; 187; 187; 187;
  187; 187; 186; 186; 186; 186; 186; 186; 186; 186; 186; 186; 186; 186; 186; 186; 186; 186;
  186; 186; 186; 186; 186; 186; 186; 186; 186; 186; 186; 186; 186; 186; 186; 186; 165; 165;
  165; 165; 165; 165; 165; 165; 165; 165; 165; 165; 165; 165; 165; 165; 165; 165; 165; 165;
  165; 165; 165; 165; 165; 165; 165; 165; 165; 165; 165; 165; 165; 165; 165; 165; 165; 165;
  165; 165; 165; 165; 165; 165; 165; 165; 165; 165; 165; 165; 165; 165; 165; 165; 165; 165;
  165; 165; 165; 165; 165; 165; 165; 165; 164; 164; 164; 164; 164; 164; 164; 164; 164; 164;
  164; 164; 164; 164; 164; 164; 164; 164; 164; 164; 164; 164; 164; 164; 164; 164; 164; 164;
  164; 164; 164; 164; 164; 164; 164; 164; 164; 164; 164; 164; 164; 164; 164; 164; 164; 164;
  164; 164; 164; 164; 164; 164; 164; 164; 164; 164; 164; 164; 164; 164; 164; 164; 164; 164;
  167; 167; 167; 167; 167; 167; 167; 167; 167; 167; 167; 167; 167; 167; 167; 167; 167; 167;
  167; 167; 167; 167; 167; 167; 167; 167; 167; 167; 167; 167; 167; 167; 167; 167; 167; 167;
  167; 167; 167; 167; 167; 167; 167; 167; 167; 167; 167; 167; 167; 167; 167; 167; 167; 167;
  167; 167; 167; 167; 167; 167; 167; 167; 167; 167; 166; 166; 166; 166; 166; 166; 166; 166;
  166; 166; 166; 166; 166; 166; 166; 166; 166; 166; 166; 166; 166; 166; 166; 166; 166; 166;
  166; 166; 166; 166; 166; 166; 166; 166; 166; 166; 166; 166; 166; 166; 166; 166; 166; 166;
  166; 166; 166; 166; 166; 166; 166; 166; 166; 166; 166; 166; 166; 166; 166; 166; 166; 166;
  166; 166; 161; 161; 161; 161; 161; 161; 161; 161; 161; 161; 161; 161; 161; 161; 161; 161;
  161; 161; 161; 161; 161; 161; 161; 161; 161; 161; 161; 161; 161; 161; 161; 161; 161; 161;
  161; 161; 161; 161; 161; 161; 161; 161; 161; 161; 161; 161; 161; 161; 161; 161; 161; 161;
  161; 161; 161; 161; 161; 161; 161; 161; 161; 161; 161; 161; 160; 160; 160; 160; 160; 160;
  160; 160; 160; 160; 160; 160; 160; 160; 160; 160; 160; 160; 160; 160; 160; 160; 160; 160;
  160; 160; 160; 160; 160; 160; 160; 160; 160; 160; 160; 160; 160; 160; 160; 160; 160; 160;
  160; 160; 160; 160; 160; 160; 160; 160; 160; 160; 160; 160; 160; 160; 160; 160; 160; 160;
  160; 160; 160; 160; 163; 163; 163; 163; 163; 163; 163; 163; 163; 163; 163; 163; 163; 163;
  163; 163; 163; 163; 163; 163; 163; 163; 163; 163; 163; 163; 163; 163; 163; 163; 163; 163;
  163; 163; 163; 163; 163; 163; 163; 163; 163; 163; 163; 163; 163; 163; 163; 163; 163; 163;
  163; 163; 163; 163; 163; 163; 163; 163; 163; 163; 163; 163; 163; 163; 162; 162; 162; 162;
  162; 162; 162; 162; 162; 162; 162; 162; 162; 162; 162; 162; 162; 162; 162; 162; 162; 162;
  162; 162; 162; 162; 162; 162; 162; 162; 162; 162; 162; 162; 162; 162; 162; 162; 162; 162;
  162; 162; 162; 162; 162; 162; 162; 162; 162; 162; 162; 162; 162; 162; 162; 162; 162; 162;
  162; 162; 162; 162; 162; 162; 173; 173; 173; 173; 173; 173; 173; 173; 173; 173; 173; 173;
  173; 173; 173; 173; 173; 173; 173; 173; 173; 173; 173; 173; 173; 173; 173; 173; 173; 173;
  173; 173; 173; 173; 173; 173; 173; 173; 173; 173; 173; 173; 173; 173; 173; 173; 173; 173;
  173; 173; 173; 173; 173; 173; 173; 173; 173; 173; 173; 173; 173; 173; 173; 173; 172; 172;
  172; 172; 172; 172; 172; 172; 172; 172; 172; 172; 172; 172; 172; 172; 172; 172; 172; 172;
  172; 172; 172; 172; 172; 172; 172; 172; 172; 172; 172; 172; 172; 172; 172; 172; 172; 172;
  172; 172; 172; 172; 172; 172; 172; 172; 172; 172; 172; 172; 172; 172; 172; 172; 172; 172;
  172; 172; 172; 172; 172; 172; 172; 172; 175; 175; 175; 175; 175; 175; 175; 175; 175; 175;
  175; 175; 175; 175; 175; 175; 175; 175; 175; 175; 175; 175; 175; 175; 175; 175; 175; 175;
  175; 175; 175; 175; 175; 175; 175; 175; 175; 175; 175; 175; 175; 175; 175; 175; 175; 175;
  175; 175; 175; 175; 175; 175; 175; 175; 175; 175; 175; 175; 175; 175; 175; 175; 175; 175;
  174; 174; 174; 174; 174; 174; 174; 174; 174; 174; 174; 174; 174; 174; 174; 174; 174; 174;
  174; 174; 174; 174; 174; 174; 174; 174; 174; 174; 174; 174; 174; 174; 174; 174; 174; 174;
  174; 174; 174; 174; 174; 174; 174; 174; 174; 174; 174; 174; 174; 174; 174; 174; 174; 174;
  174; 174; 174; 174; 174; 174; 174; 174; 174; 174; 169; 169; 169; 169; 169; 169; 169; 169;
  169; 169; 169; 169; 169; 169; 169; 169; 169; 169; 169; 169; 169; 169; 169; 169; 169; 169;
  169; 169; 169; 169; 169; 169; 169; 169; 169; 169; 169; 169; 169; 169; 169; 169; 169; 169;
  169; 169; 169; 169; 169; 169; 169; 169; 169; 169; 169; 169; 169; 169; 169; 169; 169; 169;
  169; 169; 168; 168; 168; 168; 168; 168; 168; 168; 168; 168; 168; 168; 168; 168; 168; 168;
  168; 168; 168; 168; 168; 168; 168; 168; 168; 168; 168; 168; 168; 168; 168; 168; 168; 168;
  168; 168; 168; 168; 168; 168; 168; 168; 168; 168; 168; 168; 168; 168; 168; 168; 168; 168;
  168; 168; 168; 168; 168; 168; 168; 168; 168; 168; 168; 168; 171; 171; 171; 171; 171; 171;
  171; 171; 171; 171; 171; 171; 171; 171; 171; 171; 171; 171; 171; 171; 171; 171; 171; 171;
  171; 171; 171; 171; 171; 171; 171; 171; 171; 171; 171; 171; 171; 171; 171; 171; 171; 171;
  171; 171; 171; 171; 171; 171; 171; 171; 171; 171; 171; 171; 171; 171; 171; 171; 171; 171;
  171; 171; 171; 171; 170; 170; 170; 170; 170; 170; 170; 170; 170; 170; 170; 170; 170; 170;
  170; 170; 170; 170; 170; 170; 170; 170; 170; 170; 170; 170; 170; 170; 170; 170; 170; 170;
  170; 170; 170; 170; 170; 170; 170; 170; 170; 170; 170; 170; 170; 170; 170; 170; 170; 170;
  170; 170; 170; 170; 170; 170; 170; 170; 170; 170; 170; 170; 170; 170].

Definition g711_u2l : list Z := [
  -32124; -31100; -30076; -29052; -28028; -27004; -25980; -24956; -23932; -22908; -21884;
  -20860; -19836; -18812; -17788; -16764; -15996; -15484; -14972; -14460; -13948; -13436;
  -12924; -12412; -11900; -11388; -10876; -10364; -9852; -9340; -8828; -8316; -7932; -7676;
  -7420; -7164; -6908; -6652; -6396; -6140; -5884; -5628; -5372; -5116; -4860; -4604;
  -4348; -4092; -3900; -3772; -3644; -3516; -3388; -3260; -3132; -3004; -2876; -2748;
  -2620; -2492; -2364; -2236; -2108; -1980; -1884; -1820; -1756; -1692; -1628; -1564;
  -1500; -1436; -1372; -1308; -1244; -1180; -1116; -1052; -988; -924; -876; -844; -812;
  -780; -748; -716; -684; -652; -620; -588; -556; -524; -492; -460; -428; -396; -372; -356;
  -340; -324; -308; -292; -276; -260; -244; -228; -212; -196; -180; -164; -148; -132; -120;
  -112; -104; -96; -88; -80; -72; -64; -56; -48; -40; -32; -24; -16; -8; -2; 32124; 31100;
  30076; 29052; 28028; 27004; 25980; 24956; 23932; 22908; 21884; 20860; 19836; 18812;
  17788; 16764; 15996; 15484; 14972; 14460; 13948; 13436; 12924; 12412; 11900; 11388;
  10876; 10364; 9852; 9340; 8828; 8316; 7932; 7676; 7420; 7164; 6908; 6652; 6396; 6140;
  5884; 5628; 5372; 5116; 4860; 4604; 4348; 4092; 3900; 3772; 3644; 3516; 3388; 3260; 3132;
  3004; 2876; 2748; 2620; 2492; 2364; 2236; 2108; 1980; 1884; 1820; 1756; 1692; 1628; 1564;
  1500; 1436; 1372; 1308; 1244; 1180; 1116; 1052; 988; 924; 876; 844; 812; 780; 748; 716;
  684; 652; 620; 588; 556; 524; 492; 460; 428; 396; 372; 356; 340; 324; 308; 292; 276; 260;
  244; 228; 212; 196; 180; 164; 148; 132; 120; 112; 104; 96; 88; 80; 72; 64; 56; 48; 40;
  32; 24; 16; 8; 2].

Definition g711_A2l : list Z := [
  -5504; -5248; -6016; -5760; -4480; -4224; -4992; -4736; -7552; -7296; -8064; -7808;
  -6528; -6272; -7040; -6784; -2752; -2624; -3008; -2880; -2240; -2112; -2496; -2368;
  -3776; -3648; -4032; -3904; -3264; -3136; -3520; -3392; -22016; -20992; -24064; -23040;
  -17920; -16896; -19968; -18944; -30208; -29184; -32256; -31232; -26112; -25088; -28160;
  -27136; -11008; -10496; -12032; -11520; -8960; -8448; -9984; -9472; -15104; -14592;
  -16128; -15616; -13056; -12544; -14080; -13568; -344; -328; -376; -360; -280; -264; -312;
  -296; -472; -456; -504; -488; -408; -392; -440; -424; -88; -72; -120; -104; -24; -8; -56;
  -40; -216; -200; -248; -232; -152; -136; -184; -168; -1376; -1312; -1504; -1440; -1120;
  -1056; -1248; -1184; -1888; -1824; -2016; -1952; -1632; -1568; -1760; -1696; -688; -656;
  -752; -720; -560; -528; -624; -592; -944; -912; -1008; -976; -816; -784; -880; -848;
  5504; 5248; 6016; 5760; 4480; 4224; 4992; 4736; 7552; 7296; 8064; 7808; 6528; 6272; 7040;
  6784; 2752; 2624; 3008; 2880; 2240; 2112; 2496; 2368; 3776; 3648; 4032; 3904; 3264; 3136;
  3520; 3392; 22016; 20992; 24064; 23040; 17920; 16896; 19968; 18944; 30208; 29184; 32256;
  31232; 26112; 25088; 28160; 27136; 11008; 10496; 12032; 11520; 8960; 8448; 9984; 9472;
  15104; 14592; 16128; 15616; 13056; 12544; 14080; 13568; 344; 328; 376; 360; 280; 264;
  312; 296; 472; 456; 504; 488; 408; 392; 440; 424; 88; 72; 120; 104; 24; 8; 56; 40; 216;
  200; 248; 232; 152; 136; 184; 168; 1376; 1312; 1504; 1440; 1120; 1056; 1248; 1184; 1888;
  1824; 2016; 1952; 1632; 1568; 1760; 1696; 688; 656; 752; 720; 560; 528; 624; 592; 944;
  912; 1008; 976; 816; 784; 880; 848].

Definition g711_pcm2ulaw (lx : Z) : option Z :=
  let l := lx in
  let mask := if l <? 0 then 0x7f else 0xff in
  let l := if l <? 0 then - l else l in
  if l <? 4 then Some (Z.land 0xff mask) else
  let l := l - 4 in
  let l := Z.shiftr l 3 in
  e ← rd g711_l2u l;
  Some (Z.land e mask).

Definition g711_pcm2alaw (l : Z) : option Z :=
  let mask := if l <? 0 then 0x7f else 0xff in
  let l := if l <? 0 then Z.lnot l else l in
  let l := Z.shiftr l 4 in
  e ← rd g711_l2A l;
  Some (Z.land e mask).

Definition g711_ulaw2pcm (u : Z) : option Z := rd g711_u2l u.

Definition g711_alaw2pcm (a : Z) : option Z := rd g711_A2l a.

(** ** The companding laws *)

(** Sign bit, three bits of segment, four bits of position; all inverted. *)
Definition ulaw_code (neg : bool) (m : Z) : Z :=
  let e := Z.log2 m - 7 in
  let pos := Z.land (Z.shiftr m (e + 3)) 15 in
  Z.land (Z.lnot (Z.lor (if neg then 0x80 else 0) (Z.lor (Z.shiftl e 4) pos))) 0xff.
Definition ulaw_ref (x : Z) : Z := ulaw_code (x <? 0) (Z.min (Z.abs x + 132) 32767).

(** The lowest segment is linear; the even bits are inverted. *)
Definition alaw_code (neg : bool) (m : Z) : Z :=
  let e := Z.log2 m - 7 in
  let pos := if m <? 256 then Z.shiftr m 4
             else Z.lor (Z.shiftl e 4) (Z.land (Z.shiftr m (e + 3)) 15) in
  Z.lxor (Z.lor (if neg then 0 else 0x80) pos) 0x55.
Definition alaw_ref (x : Z) : Z := alaw_code (x <? 0) (if x <? 0 then - x - 1 else x).

(** The middle of the interval of a code; the two codes of zero keep their
    sign. *)
Definition ulaw_mid (u : Z) : Z :=
  let v := Z.land (Z.lnot u) 0xff in
  let e := Z.land (Z.shiftr v 4) 7 in
  let m := Z.shiftl (Z.shiftl (Z.land v 15) 3 + 132) e - 132 in
  let m := if m =? 0 then 2 else m in
  if Z.testbit v 7 then - m else m.

Definition alaw_mid (a : Z) : Z :=
  let v := Z.lxor a 0x55 in
  let e := Z.land (Z.shiftr v 4) 7 in
  let p := Z.shiftl (Z.land v 15) 4 + 8 in
  let m := if e =? 0 then p else Z.shiftl (p + 256) (e - 1) in
  if Z.testbit v 7 then m else - m.

(** ** Checking the tables *)

(** The decoded value [o] is close to the samples from [a] to [b]. *)
Definition close (slack a b : Z) (o : option Z) : bool :=
  match o with
  | Some y => (32 * Z.abs (y - a) <=? Z.abs a + slack) && (32 * Z.abs (y - b) <=? Z.abs b + slack)
  | None => false
  end.

Lemma close_between s a b o x : close s a b o = true -> a <= x <= b -> 0 <= a \/ b <= 0 ->
  exists y, o = Some y /\ 32 * Z.abs (y - x) <= Z.abs x + s.
Proof.
  destruct o as [y|]; cbn; [|done]. intros [H1 H2]%andb_true_iff Hx Hs. exists y. split; [done|]. lia.
Qed.

(** The entry for the samples from [8 k + 4] to [8 k + 11], of either sign. *)
Definition ulaw_entry (k e : Z) : bool :=
  let m := Z.min (8 * k + 136) 32760 in
  (e =? ulaw_code false m) && (Z.land e 0xff =? ulaw_code false m) &&
  (Z.land e 0x7f =? ulaw_code true m) &&
  close 132 (8 * k + 4) (8 * k + 11) (g711_ulaw2pcm (ulaw_code false m)) &&
  close 132 (- (8 * k + 11)) (- (8 * k + 4)) (g711_ulaw2pcm (ulaw_code true m)).

(** The entry for the samples from [16 k] to [16 k + 15], and from
    [- 16 k - 16] to [- 16 k - 1]. *)
Definition alaw_entry (k e : Z) : bool :=
  let m := 16 * k in
  (Z.land e 0xff =? alaw_code false m) && (Z.land e 0x7f =? alaw_code true m) &&
  close 256 m (m + 15) (g711_alaw2pcm (alaw_code false m)) &&
  close 256 (- m - 16) (- m - 1) (g711_alaw2pcm (alaw_code true m)).

Lemma l2u_ok : table_ok ulaw_entry 0 g711_l2u = true.
Proof. vm_compute. reflexivity. Qed.
Lemma l2A_ok : table_ok alaw_entry 0 g711_l2A = true.
Proof. vm_compute. reflexivity. Qed.

Definition yields (o : option Z) (v : Z) : bool := bool_decide (o = Some v).
Lemma yields_true o v : yields o v = true -> o = Some v.
Proof. apply bool_decide_eq_true. Qed.

Definition code_ok (c y : Z) : bool :=
  (y =? ulaw_mid c) && yields (g711_alaw2pcm c) (alaw_mid c) &&
  yields (g711_pcm2ulaw (ulaw_mid c)) c && yields (g711_pcm2alaw (alaw_mid c)) c.
Lemma code_all : table_ok code_ok 0 g711_u2l = true.
Proof. vm_compute. reflexivity. Qed.

(** The codes depend on the sample without its low bits only. *)
Lemma low_bits n q r : 0 <= n -> 0 < q -> 0 <= r < 2 ^ n ->
  Z.log2 (q * 2 ^ n + r) = Z.log2 (q * 2 ^ n) /\
  forall e, n <= e -> Z.shiftr (q * 2 ^ n + r) e = Z.shiftr (q * 2 ^ n) e.
Proof.
  intros Hn Hq Hr. assert (H2 : forall s e, 0 <= s < 2 ^ n -> n <= e ->
    Z.shiftr (q * 2 ^ n + s) e = Z.shiftr q (e - n)).
  { intros s e Hs He. replace e with (n + (e - n)) at 1 by lia. rewrite <- Z.shiftr_shiftr by lia.
    f_equal. rewrite Z.shiftr_div_pow2 by lia. rewrite Z.div_add_l by lia.
    rewrite (Z.div_small s) by lia. lia. }
  assert (0 < 2 ^ n) by (apply Z.pow_pos_nonneg; lia). split.
  - rewrite <- (Z.add_0_r (q * 2 ^ n)) at 2.
    assert (Hlog : forall s, 0 <= s < 2 ^ n -> Z.log2 (q * 2 ^ n + s) = n + Z.log2 q).
    { intros s Hs. apply Z.log2_unique; [pose proof (Z.log2_nonneg q); lia|].
      destruct (Z.log2_spec q Hq) as [L1 L2]. rewrite Z.pow_succ_r in L2 by apply Z.log2_nonneg.
      rewrite <- Z.add_succ_r, !Z.pow_add_r, Z.pow_succ_r by (pose proof (Z.log2_nonneg q); lia). nia. }
    rewrite !Hlog; lia.
  - intros e He. rewrite H2 by lia. rewrite <- (H2 0 e) by lia. by rewrite Z.add_0_r.
Qed.

Lemma ulaw_code_low neg q r : 16 <= q -> 0 <= r < 8 ->
  ulaw_code neg (8 * q + r) = ulaw_code neg (8 * q).
Proof.
  intros Hq Hr. rewrite (Z.mul_comm 8). change 8 with (2 ^ 3).
  destruct (low_bits 3 q r) as [E1 E2]; [lia..|]. unfold ulaw_code. rewrite E1, E2; [done|].
  assert (7 <= Z.log2 (q * 2 ^ 3)); [|lia]. change 7 with (Z.log2 128). apply Z.log2_le_mono. lia.
Qed.

Lemma alaw_code_low neg q r : 0 <= q -> 0 <= r < 16 ->
  alaw_code neg (16 * q + r) = alaw_code neg (16 * q).
Proof.
  intros Hq Hr. unfold alaw_code. destruct (Z.ltb_spec (16 * q + r) 256), (Z.ltb_spec (16 * q) 256);
    try lia; f_equal; f_equal.
  - rewrite !Z.shiftr_div_pow2 by lia. change (2 ^ 4) with 16. rewrite (Z.mul_comm 16), Z.div_add_l by lia.
    rewrite Z.div_mul by lia. rewrite Z.div_small by lia. lia.
  - rewrite (Z.mul_comm 16). change 16 with (2 ^ 4).
    destruct (low_bits 4 q r) as [E1 E2]; [lia..|]. rewrite E1, E2; [done|].
    assert (8 <= Z.log2 (q * 2 ^ 4)); [|lia]. change 8 with (Z.log2 256). apply Z.log2_le_mono. lia.
Qed.

Lemma ulaw_ok x : - 2 ^ 15 <= x < 2 ^ 15 ->
  g711_pcm2ulaw x = Some (ulaw_ref x) /\
  exists y, g711_ulaw2pcm (ulaw_ref x) = Some y /\ 32 * Z.abs (y - x) <= Z.abs x + 132.
Proof.
  intros Hx. unfold g711_pcm2ulaw. replace (if x <? 0 then - x else x) with (Z.abs x) by
    (destruct (Z.ltb_spec x 0); lia).
  destruct (Z.ltb_spec (Z.abs x) 4) as [Hs|Hs].
  { assert (H : x = -3 \/ x = -2 \/ x = -1 \/ x = 0 \/ x = 1 \/ x = 2 \/ x = 3) by lia.
    destruct H as [->|[->|[->|[->|[->|[->| ->]]]]]]; (split; [reflexivity|]); eexists; (split; [reflexivity|]);
      vm_compute; discriminate. }
  rewrite Z.shiftr_div_pow2 by lia. change (2 ^ 3) with 8.
  pose proof (Z.div_mod (Z.abs x - 4) 8 ltac:(lia)) as Hd.
  pose proof (Z.mod_pos_bound (Z.abs x - 4) 8 ltac:(lia)) as Hm.
  set (k := (Z.abs x - 4) / 8) in *. set (r := (Z.abs x - 4) mod 8) in *.
  destruct (table_lookup _ _ _ k l2u_ok) as (e & -> & He).
  { change (zlen g711_l2u) with 4096. lia. }
  assert (Er : forall neg, ulaw_code neg (Z.min (Z.abs x + 132) 32767) = ulaw_code neg (Z.min (8 * k + 136) 32760)).
  { intros neg. destruct (decide (4079 <= k)).
    - rewrite !Z.min_r by lia. change 32767 with (8 * 4095 + 7). by rewrite ulaw_code_low by lia.
    - rewrite !Z.min_l by lia. replace (Z.abs x + 132) with (8 * (k + 17) + r) by lia.
      replace (8 * k + 136) with (8 * (k + 17)) by lia. apply ulaw_code_low; lia. }
  unfold ulaw_ref. rewrite Er. cbn [mbind option_bind]. unfold ulaw_entry in He. rewrite Z.add_0_l in He.
  apply andb_true_iff in He as [He C2]. apply andb_true_iff in He as [He C1].
  apply andb_true_iff in He as [He E3]. apply andb_true_iff in He as [_ E2].
  destruct (Z.ltb_spec x 0).
  - split; [f_equal; lia|]. eapply close_between; [exact C2|lia|lia].
  - split; [f_equal; lia|]. eapply close_between; [exact C1|lia|lia].
Qed.

Lemma alaw_ok x : - 2 ^ 15 <= x < 2 ^ 15 ->
  g711_pcm2alaw x = Some (alaw_ref x) /\
  exists y, g711_alaw2pcm (alaw_ref x) = Some y /\ 32 * Z.abs (y - x) <= Z.abs x + 256.
Proof.
  intros Hx. unfold g711_pcm2alaw, alaw_ref.
  replace (if x <? 0 then Z.lnot x else x) with (if x <? 0 then - x - 1 else x) by
    (destruct (x <? 0); unfold Z.lnot; lia).
  set (m := if x <? 0 then - x - 1 else x).
  assert (Hm : 0 <= m < 2 ^ 15) by (subst m; destruct (Z.ltb_spec x 0); lia).
  rewrite Z.shiftr_div_pow2 by lia. change (2 ^ 4) with 16.
  pose proof (Z.div_mod m 16 ltac:(lia)) as Hd. pose proof (Z.mod_pos_bound m 16 ltac:(lia)) as Hr.
  set (k := m / 16) in *. set (r := m mod 16) in *.
  destruct (table_lookup _ _ _ k l2A_ok) as (e & -> & He).
  { change (zlen g711_l2A) with 2048. lia. }
  cbn [mbind option_bind]. rewrite Z.add_0_l in He. unfold alaw_entry in He.
  assert (Er : forall neg, alaw_code neg m = alaw_code neg (16 * k)).
  { intros neg. rewrite Hd at 1. apply alaw_code_low; lia. }
  rewrite Er. apply andb_true_iff in He as [He C2]. apply andb_true_iff in He as [He C1].
  apply andb_true_iff in He as [E1 E2]. subst m. destruct (Z.ltb_spec x 0).
  - split; [f_equal; lia|]. eapply close_between; [exact C2|lia|lia].
  - split; [f_equal; lia|]. eapply close_between; [exact C1|lia|lia].
Qed.

(** C36: the table-driven encoders compute the companding laws: on every
    16-bit sample the reads stay inside the tables, the u-law and the A-law
    byte are those of the reference definitions, and decoding the byte gives
    a value that is off by at most one 32nd of the sample (and of the offset
    of the smallest segment). *)
Theorem g711_encodes_law x (Hx : - 2 ^ 15 <= x < 2 ^ 15) :
  g711_pcm2ulaw x = Some (ulaw_ref x) /\ g711_pcm2alaw x = Some (alaw_ref x) /\
  (exists y, g711_ulaw2pcm (ulaw_ref x) = Some y /\ 32 * Z.abs (y - x) <= Z.abs x + 132) /\
  (exists y, g711_alaw2pcm (alaw_ref x) = Some y /\ 32 * Z.abs (y - x) <= Z.abs x + 256).
Proof.
  destruct (ulaw_ok x Hx) as [H1 H2]. destruct (alaw_ok x Hx) as [H3 H4]. done.
Qed.

Lemma g711_encodes_law_witness :
  - 2 ^ 15 <= -12345 < 2 ^ 15 /\ g711_pcm2ulaw (-12345) = Some (ulaw_ref (-12345)).
Proof. split; [lia|]. apply (g711_encodes_law (-12345)). lia. Defined.

(** Every code survives decoding and encoding, in both laws, and the
    decoding tables hold the middle of the interval of each code. *)
Theorem g711_code_roundtrip c (Hc : 0 <= c < 256) :
  g711_ulaw2pcm c = Some (ulaw_mid c) /\ g711_alaw2pcm c = Some (alaw_mid c) /\
  g711_pcm2ulaw (ulaw_mid c) = Some c /\ g711_pcm2alaw (alaw_mid c) = Some c.
Proof.
  destruct (table_lookup _ _ _ c code_all ltac:(done)) as (y & Hy & H). unfold code_ok in H.
  rewrite Z.add_0_l, !andb_true_iff in H. destruct H as [[[H1 H2] H3] H4].
  apply Z.eqb_eq in H1. subst y. split_and!; [exact Hy|by apply yields_true..].
Qed.

Lemma g711_code_roundtrip_witness :
  0 <= 127 < 256 /\ g711_pcm2ulaw (ulaw_mid 127) = Some 127.
Proof. split; [lia|]. apply (g711_code_roundtrip 127). lia. Defined.

End G711.
