(* ===== verification/Base64.v ===== *)
(** * Base64

    Models re/src/base64/b64.c.  Buffers are lists of bytes; an encoder or
    decoder returns its error code and what it has written.  [None] is a read
    outside the table or a write outside the output buffer, whose size is
    [olen]. *)

From S2P Require Import Prelude Effects.

Module B64.

Definition b64_table : list Z :=
  bytes_of "ABCDEFGHIJKLMNOPQRSTUVWXYZabcdefghijklmnopqrstuvwxyz0123456789+/".

(** The characters of one group: [v] holds three bytes, [pad] of them
    missing. *)
Definition encode_group (v pad : Z) : option (list Z) :=
  a ← rd b64_table (Z.land (Z.shiftr v 18) 0x3f);
  b ← rd b64_table (Z.land (Z.shiftr v 12) 0x3f);
  c ← (if 2 <=? pad then Some 61 else rd b64_table (Z.land (Z.shiftr v 6) 0x3f));
  d ← (if 1 <=? pad then Some 61 else rd b64_table (Z.land v 0x3f));
  Some [a; b; c; d].

Fixpoint encode_loop (l : list Z) : option (list Z) :=
  match l with
  | [] => Some []
  | [x] => encode_group (Z.shiftl x 16) 2
  | [x; y] => encode_group (Z.lor (Z.shiftl x 16) (Z.shiftl y 8)) 1
  | x :: y :: z :: l =>
    g ← encode_group (Z.lor (Z.lor (Z.shiftl x 16) (Z.shiftl y 8)) z) 0;
    r ← encode_loop l;
    Some (g ++ r)
  end.

(** What fits into the output buffer. *)
Definition fits (olen : Z) (out : list Z) : option (list Z) :=
  if zlen out <=? olen then Some out else None.

Definition base64_encode (l : list Z) (olen : Z) : option (Z * list Z) :=
  if olen <? usz (4 * (usz (zlen l + 2) / 3)) then Some (EOVERFLOW, []) else
  out ← encode_loop l;
  out ← fits olen out;
  Some (0, out).

(** [vph]: the print handler, on the state of its argument. *)
Fixpoint print_loop {A} (vph : A -> list Z -> Z * A) (fuel : nat) (l : list Z) (s : A) :
  option (Z * A) :=
  match fuel with
  | O => None
  | S fuel =>
    match l with
    | [] => Some (0, s)
    | _ =>
      let n := Z.min (zlen l) (3 * (256 / 4)) in
      '(err, out) ← base64_encode (take (Z.to_nat n) l) 256;
      if negb (err =? 0) then Some (err, s) else
      let '(err, s) := vph s out in
      if negb (err =? 0) then Some (err, s) else
      print_loop vph fuel (drop (Z.to_nat n) l) s
    end
  end.

Definition base64_print {A} (vph : A -> list Z -> Z * A) (l : list Z) (s : A) : option (Z * A) :=
  print_loop vph (S (length l)) l s.

Definition b64val (c : Z) : Z :=
  if (65 <=? c) && (c <=? 90) then c - 65
  else if (97 <=? c) && (c <=? 122) then c - 97 + 26
  else if (48 <=? c) && (c <=? 57) then c - 48 + 52
  else if c =? 43 then 62
  else if c =? 47 then 63
  else if c =? 61 then 2 ^ 24
  else 0.

(** The bytes of one group: an equal sign in the third or fourth place sets
    bit 30 or 24. *)
Definition decode_group (a b c d : Z) : list Z :=
  let v := Z.lor (Z.lor (Z.lor (u32 (Z.shiftl (b64val a) 18)) (u32 (Z.shiftl (b64val b) 12)))
                        (u32 (Z.shiftl (b64val c) 6))) (b64val d) in
  [u8 (Z.shiftr v 16)]
  ++ (if Z.land v (2 ^ 30) =? 0 then [Z.land (Z.shiftr v 8) 0xff] else [])
  ++ (if Z.land v (2 ^ 24) =? 0 then [Z.land v 0xff] else []).

Fixpoint decode_loop (l : list Z) : list Z :=
  match l with
  | a :: b :: c :: d :: l => decode_group a b c d ++ decode_loop l
  | _ => []
  end.

Definition base64_decode (l : list Z) (olen : Z) : option (Z * list Z) :=
  if olen <? usz (3 * (zlen l / 4)) then Some (EOVERFLOW, []) else
  out ← fits olen (decode_loop l);
  Some (0, out).

(** ** Groups *)

Definition byte (b : Z) : Prop := 0 <= b < 256.

Definition char_ok (k c : Z) : bool := b64val c =? k.
Lemma table_chars : table_ok char_ok 0 b64_table = true.
Proof. vm_compute. reflexivity. Qed.

(** The character of six bits, and its value. *)
Lemma char_of v : exists c, rd b64_table (Z.land v 0x3f) = Some c /\ b64val c = Z.land v 0x3f.
Proof.
  destruct (table_lookup char_ok 0 b64_table (Z.land v 0x3f) table_chars) as (c & E & H).
  { change (zlen b64_table) with 64. change 0x3f with (Z.ones 6). rewrite Z.land_ones by lia.
    apply Z.mod_pos_bound. lia. }
  exists c. split; [done|]. by apply Z.eqb_eq in H.
Qed.

Lemma six v : Z.land v 0x3f = v mod 64.
Proof. by apply (land_mask v 0x3f 6). Qed.

Lemma encode_group_some v pad : exists g, encode_group v pad = Some g /\ length g = 4%nat.
Proof.
  unfold encode_group. destruct (char_of (Z.shiftr v 18)) as (a & -> & _).
  destruct (char_of (Z.shiftr v 12)) as (b & -> & _). destruct (char_of (Z.shiftr v 6)) as (c & -> & _).
  destruct (char_of v) as (d & -> & _). cbn [mbind option_bind].
  destruct (2 <=? pad), (1 <=? pad); cbn [mbind option_bind]; by eexists.
Qed.

Lemma lor_mul a b n : 0 <= n -> 0 <= b < 2 ^ n -> Z.lor (a * 2 ^ n) b = a * 2 ^ n + b.
Proof. intros Hn Hb. rewrite <- (Z.shiftl_mul_pow2 a n) at 1 by done. by apply lor_add. Qed.

(** Values of six bits, put together. *)
Lemma value2 p q : 0 <= p < 64 -> 0 <= q < 64 ->
  Z.lor (u32 (Z.shiftl p 18)) (u32 (Z.shiftl q 12)) = (p * 64 + q) * 2 ^ 12.
Proof.
  intros. rewrite !u32_small by (rewrite Z.shiftl_mul_pow2; lia). rewrite !Z.shiftl_mul_pow2 by lia.
  rewrite lor_mul by lia. lia.
Qed.
Lemma value3 p q r : 0 <= p < 64 -> 0 <= q < 64 -> 0 <= r < 64 ->
  Z.lor (Z.lor (u32 (Z.shiftl p 18)) (u32 (Z.shiftl q 12))) (u32 (Z.shiftl r 6))
  = (p * 4096 + q * 64 + r) * 2 ^ 6.
Proof.
  intros. rewrite value2, u32_small, Z.shiftl_mul_pow2 by (rewrite ?Z.shiftl_mul_pow2; lia).
  rewrite lor_mul by lia. lia.
Qed.

Lemma land_bit v k : 0 <= k -> (Z.land v (2 ^ k) =? 0) = negb (Z.odd (v / 2 ^ k)).
Proof.
  intros Hk. rewrite <- Z.shiftr_div_pow2, <- Z.bit0_odd, Z.shiftr_spec, Z.add_0_l by lia.
  destruct (Z.testbit v k) eqn:E; cbn; [apply Z.eqb_neq|apply Z.eqb_eq].
  - intros H. assert (Z.testbit (Z.land v (2 ^ k)) k = true)
      by (by rewrite Z.land_spec, E, Z.pow2_bits_true). by rewrite H, Z.bits_0 in *.
  - apply Z.bits_inj'. intros n Hn. rewrite Z.land_spec, Z.bits_0.
    destruct (decide (n = k)) as [->|]; [by rewrite E|]. rewrite Z.pow2_bits_false by lia.
    apply andb_false_r.
Qed.

(** The bytes of a group with the padding marks [f] and the value [w]. *)
Lemma decode_value a b c d f w :
  Z.lor (Z.lor (Z.lor (u32 (Z.shiftl (b64val a) 18)) (u32 (Z.shiftl (b64val b) 12)))
               (u32 (Z.shiftl (b64val c) 6))) (b64val d) = f * 2 ^ 24 + w ->
  0 <= f -> 0 <= w < 2 ^ 24 ->
  decode_group a b c d =
    [w / 2 ^ 16] ++ (if Z.odd (f / 64) then [] else [w / 2 ^ 8 mod 256])
                 ++ (if Z.odd f then [] else [w mod 256]).
Proof.
  intros E Hf Hw. unfold decode_group. rewrite E, !land_bit by lia.
  rewrite !(land_mask _ 0xff 8) by lia. rewrite !Z.shiftr_div_pow2 by lia. unfold u8.
  replace ((f * 2 ^ 24 + w) / 2 ^ 30) with (f / 64) by dlia.
  replace ((f * 2 ^ 24 + w) / 2 ^ 24) with f by dlia.
  replace ((f * 2 ^ 24 + w) / 2 ^ 16 mod 2 ^ 8) with (w / 2 ^ 16) by dlia.
  replace ((f * 2 ^ 24 + w) / 2 ^ 8 mod 2 ^ 8) with (w / 2 ^ 8 mod 256) by dlia.
  replace ((f * 2 ^ 24 + w) mod 2 ^ 8) with (w mod 256) by dlia.
  by destruct (Z.odd (f / 64)), (Z.odd f).
Qed.

(** What encoding three bytes, two or one of them missing, and decoding
    gives. *)
Definition remaining (pad x y z : Z) : list Z :=
  if pad =? 0 then [x; y; z] else if pad =? 1 then [x; y] else [x].

Lemma group_roundtrip x y z pad : byte x -> byte y -> byte z -> 0 <= pad <= 2 ->
  (1 <= pad -> z = 0) -> (2 <= pad -> y = 0) ->
  exists a b c d, encode_group (x * 2 ^ 16 + y * 2 ^ 8 + z) pad = Some [a; b; c; d] /\
    decode_group a b c d = remaining pad x y z.
Proof.
  unfold byte. intros Hx Hy Hz Hp Hz0 Hy0. unfold encode_group.
  remember (x * 2 ^ 16 + y * 2 ^ 8 + z) as v eqn:Hv.
  destruct (char_of (Z.shiftr v 18)) as (a & -> & Ea). destruct (char_of (Z.shiftr v 12)) as (b & -> & Eb).
  destruct (char_of (Z.shiftr v 6)) as (c & -> & Ec). destruct (char_of v) as (d & -> & Ed).
  rewrite !six, ?Z.shiftr_div_pow2 in * by dlia. cbn [mbind option_bind].
  assert (Hpad : pad = 0 \/ pad = 1 \/ pad = 2) by dlia.
  destruct Hpad as [->|[->| ->]]; cbn [Z.leb Z.compare Pos.compare Pos.compare_cont mbind option_bind];
    do 4 eexists; (split; [reflexivity|]).
  - rewrite (decode_value _ _ _ _ 0 v); [|rewrite Ea, Eb, Ec, Ed, value3, lor_mul; dlia|lia|subst v; lia].
    unfold remaining. subst v. change (Z.odd (0 / 64)) with false. cbn. repeat f_equal; dlia.
  - rewrite (decode_value _ _ _ _ 1 v); [|rewrite Ea, Eb, Ec, value3 by dlia|lia|subst v; lia].
    + unfold remaining. subst v. change (Z.odd (1 / 64)) with false. cbn. repeat f_equal; dlia.
    + change (b64val 61) with (1 * 2 ^ 24). rewrite Z.lor_comm, lor_mul; dlia.
  - rewrite (decode_value _ _ _ _ 65 v); [|rewrite Ea, Eb, value2 by dlia|lia|subst v; lia].
    + unfold remaining. subst v. change (Z.odd (65 / 64)) with true. cbn. repeat f_equal; dlia.
    + rewrite <- Z.lor_assoc, Z.lor_comm.
      change (Z.lor (u32 (Z.shiftl (b64val 61) 6)) (b64val 61)) with (65 * 2 ^ 24).
      rewrite lor_mul; dlia.
Qed.

(** ** Round trip *)

Lemma triple_ind (P : list Z -> Prop) :
  P [] -> (forall x, P [x]) -> (forall x y, P [x; y]) ->
  (forall x y z l, P l -> P (x :: y :: z :: l)) -> forall l, P l.
Proof.
  intros H0 H1 H2 H3 l. assert (H : P l /\ (forall x, P (x :: l)) /\ (forall x y, P (x :: y :: l))); [|apply H].
  induction l as [|z l (IH0 & IH1 & IH2)]; [done|]. split_and!; [done|done|]. intros x y. by apply H3.
Qed.

Lemma encode_decode l : Forall byte l ->
  exists out, encode_loop l = Some out /\ zlen out = 4 * ((zlen l + 2) / 3) /\ decode_loop out = l.
Proof.
  unfold zlen. induction l as [|x|x y|x y z l IH] using triple_ind; intros Hl; cbn [encode_loop].
  - by exists [].
  - apply Forall_cons in Hl as [Hx _]. rewrite Z.shiftl_mul_pow2 by lia.
    replace (x * 2 ^ 16) with (x * 2 ^ 16 + 0 * 2 ^ 8 + 0) by lia.
    destruct (group_roundtrip x 0 0 2) as (a & b & c & d & -> & E); [done| |done..| ]; [done|].
    eexists. split; [done|]. split; [done|]. cbn [decode_loop]. by rewrite E.
  - apply Forall_cons in Hl as [Hx Hl]. apply Forall_cons in Hl as [Hy _]. unfold byte in *.
    rewrite lor_add, Z.shiftl_mul_pow2 by (rewrite ?Z.shiftl_mul_pow2; lia).
    replace (x * 2 ^ 16 + y * 2 ^ 8) with (x * 2 ^ 16 + y * 2 ^ 8 + 0) by lia.
    destruct (group_roundtrip x y 0 1) as (a & b & c & d & -> & E); unfold byte; [lia..|].
    eexists. split; [done|]. split; [done|]. cbn [decode_loop]. by rewrite E.
  - apply Forall_cons in Hl as [Hx Hl]. apply Forall_cons in Hl as [Hy Hl].
    apply Forall_cons in Hl as [Hz Hl]. destruct (IH Hl) as (out & -> & Hn & Hd). unfold byte in *.
    rewrite lor_add, Z.shiftl_mul_pow2 by (rewrite ?Z.shiftl_mul_pow2; lia).
    replace (x * 2 ^ 16 + y * 2 ^ 8) with ((x * 256 + y) * 2 ^ 8) by lia. rewrite lor_mul by lia.
    replace ((x * 256 + y) * 2 ^ 8 + z) with (x * 2 ^ 16 + y * 2 ^ 8 + z) by lia.
    destruct (group_roundtrip x y z 0) as (a & b & c & d & -> & E); unfold byte; [lia..|].
    cbn [mbind option_bind]. eexists. split; [done|]. split.
    + cbn [length app] in *. dlia.
    + cbn [app decode_loop]. by rewrite E, Hd.
Qed.

Lemma quad_ind (P : list Z -> Prop) : (forall l, (length l < 4)%nat -> P l) ->
  (forall a b c d l, P l -> P (a :: b :: c :: d :: l)) -> forall l, P l.
Proof.
  intros H0 H1 l. induction l as [l IH] using (induction_ltof1 _ length). unfold ltof in IH.
  destruct l as [|a [|b [|c [|d l]]]]; try (apply H0; cbn; lia). apply H1, IH. cbn. lia.
Qed.

Lemma decode_len l : zlen (decode_loop l) <= 3 * (zlen l / 4).
Proof.
  induction l as [l Hl|a b c d l IH] using quad_ind.
  - destruct l as [|a [|b [|c [|d l]]]]; cbn in *; try lia; unfold zlen; cbn [length]; dlia.
  - cbn [decode_loop]. unfold zlen in *. rewrite length_app. cbn [length].
    assert (length (decode_group a b c d) <= 3)%nat; [|dlia]. unfold decode_group.
    repeat case_match; cbn; lia.
Qed.

(** ** Printing *)

(** A handler that collects what it is given. *)
Definition collect (s out : list Z) : Z * list Z := (0, s ++ out).

Lemma encode_app a b : (length a mod 3 = 0)%nat ->
  encode_loop (a ++ b) = (x ← encode_loop a; y ← encode_loop b; Some (x ++ y)).
Proof.
  induction a as [|x|x y|x y z a IH] using triple_ind; intros Ha; try discriminate Ha.
  - cbn. by destruct (encode_loop b).
  - cbn [app encode_loop]. destruct (encode_group _ 0) as [g|]; [|done]. cbn [mbind option_bind].
    rewrite IH.
    + destruct (encode_loop a) as [u|]; [|done]. cbn [mbind option_bind].
      destruct (encode_loop b) as [v|]; [|done]. cbn [mbind option_bind]. by rewrite app_assoc.
    + cbn [length] in Ha. replace (S (S (S (length a)))) with (length a + 1 * 3)%nat in Ha by lia.
      by rewrite Nat.Div0.mod_add in Ha.
Qed.

Lemma encode_fits l : Forall byte l -> (length l <= 192)%nat ->
  exists out, encode_loop l = Some out /\ base64_encode l 256 = Some (0, out).
Proof.
  intros Hl Hn. destruct (encode_decode l Hl) as (out & E & Ho & _). exists out. split; [done|].
  unfold base64_encode. rewrite E. unfold zlen in *.
  rewrite !usz_small by (unfold SIZE_MAX; rewrite ?usz_small; unfold SIZE_MAX; dlia).
  replace (256 <? _) with false by dlia. cbn [mbind option_bind]. unfold fits, zlen.
  by replace (Z.of_nat (length out) <=? 256) with true by dlia.
Qed.

Lemma print_loop_encodes fuel l s : Forall byte l -> (length l < fuel)%nat ->
  exists out, encode_loop l = Some out /\ print_loop collect fuel l s = Some (0, s ++ out).
Proof.
  revert l s. induction fuel as [|fuel IH]; intros l s Hl Hf; [lia|]. cbn [print_loop].
  destruct l as [|x l0] eqn:El; [exists []; by rewrite app_nil_r|]. rewrite <- El in *.
  set (n := Z.to_nat (Z.min (zlen l) (3 * (256 / 4)))).
  assert (Hn : n = Nat.min (length l) 192) by (unfold n, zlen; change (3 * (256 / 4)) with 192; lia).
  destruct (encode_fits (take n l)) as (o1 & E1 & ->).
  { by apply Forall_take. }
  { rewrite length_take. lia. }
  cbn [mbind option_bind negb Z.eqb collect].
  destruct (IH (drop n l) (s ++ o1)) as (o2 & E2 & ->).
  { by apply Forall_drop. }
  { rewrite length_drop. assert (0 < length l)%nat by (rewrite El; cbn; lia). lia. }
  exists (o1 ++ o2). rewrite app_assoc. split; [|done].
  destruct (decide (length l <= 192)%nat).
  - rewrite drop_ge in E2 by lia. injection E2 as <-. rewrite app_nil_r, <- E1. f_equal.
    by rewrite take_ge by lia.
  - rewrite <- (take_drop n l), encode_app, E1, E2; [done|]. rewrite length_take.
    by replace (n `min` length l)%nat with 192%nat by lia.
Qed.

(** Printing in pieces of 192 bytes prints what encoding gives. *)
Lemma base64_print_encodes l : Forall byte l ->
  exists out, encode_loop l = Some out /\ base64_print collect l [] = Some (0, out).
Proof. intros Hl. apply (print_loop_encodes (S (length l)) l []); [done|lia]. Qed.

(** ** The theorems *)

(** C38: Base64 text is decoded to the bytes that were encoded, of any
    length: with an output buffer of the size the code asks for, both calls
    succeed and stay inside it.  Printing in pieces gives the same text. *)
Theorem base64_roundtrip l olen olen'
  (Hl : Forall byte l) (Hs : zlen l < 2 ^ 61)
  (Ho : 4 * ((zlen l + 2) / 3) <= olen) (Ho' : zlen l + 2 <= olen') :
  exists out, base64_encode l olen = Some (0, out) /\ zlen out = 4 * ((zlen l + 2) / 3) /\
    base64_print collect l [] = Some (0, out) /\ base64_decode out olen' = Some (0, l).
Proof.
  destruct (encode_decode l Hl) as (out & E & Hn & Hd). exists out.
  assert (Hprint : base64_print collect l [] = Some (0, out)).
  { destruct (base64_print_encodes l Hl) as (out' & E' & H). congruence. }
  assert (Hpos : 0 <= zlen l) by (unfold zlen; lia).
  unfold base64_encode, base64_decode. rewrite E, Hd, Hn. cbn [mbind option_bind].
  rewrite !usz_small by (unfold SIZE_MAX; rewrite ?usz_small; unfold SIZE_MAX; dlia).
  replace (olen <? _) with false by dlia. replace (olen' <? _) with false by dlia.
  unfold fits. replace (zlen out <=? olen) with true by dlia. 
  by replace (zlen l <=? olen') with true by dlia.
Qed.

Lemma base64_roundtrip_witness :
  exists out, base64_encode (bytes_of "Hello") 8 = Some (0, out) /\
    zlen out = 4 * ((zlen (bytes_of "Hello") + 2) / 3) /\
    base64_print collect (bytes_of "Hello") [] = Some (0, out) /\
    base64_decode out 7 = Some (0, bytes_of "Hello").
Proof.
  apply (base64_roundtrip (bytes_of "Hello") 8 7); [|vm_compute; congruence..].
  repeat constructor; cbn; lia.
Defined.

(** Decoding is safe on every text: the bytes that are written fit into
    the output buffer, or nothing is written. *)
Theorem base64_decode_bounded l olen (Hs : zlen l < 2 ^ 61) :
  exists err out, base64_decode l olen = Some (err, out) /\
    ((err = 0 /\ zlen out <= olen) \/ (err = EOVERFLOW /\ out = [] /\ olen < 3 * (zlen l / 4))).
Proof.
  unfold base64_decode. assert (Hpos : 0 <= zlen l) by (unfold zlen; lia).
  rewrite usz_small by (unfold SIZE_MAX; dlia). pose proof (decode_len l).
  destruct (Z.ltb_spec olen (3 * (zlen l / 4))).
  - do 2 eexists. split; [done|]. by right.
  - unfold fits. replace (zlen (decode_loop l) <=? olen) with true by dlia. do 2 eexists.
    split; [done|]. left. split; [done|lia].
Qed.

Lemma base64_decode_bounded_witness :
  exists err out, base64_decode (bytes_of "====") 3 = Some (err, out) /\
    ((err = 0 /\ zlen out <= 3) \/
     (err = EOVERFLOW /\ out = [] /\ 3 < 3 * (zlen (bytes_of "====") / 4))).
Proof. apply (base64_decode_bounded (bytes_of "====") 3). vm_compute. reflexivity. Defined.

End B64.
