(* ===== verification/CoreJson.v ===== *)
(** * The JSON validator and searcher of the signalling client

    Models src/barertc/src/brtc/core_json.c: the [skip*] scanners, the
    stack-driven [skipCollection], [JSON_Validate], the query search behind
    [JSON_Search] and [JSON_Iterate].  A scanner takes the buffer, the index
    [start] and the size [max] and returns the C result together with the
    value left in [*start].  [None] is undefined behaviour: a read outside
    the buffer or the nesting stack, a failed [assert], or a loop that has
    not ended within its fuel. *)

From S2P Require Import Prelude.

Module Json.

Inductive JSONStatus_t :=
| JSONPartial
| JSONSuccess
| JSONIllegalDocument
| JSONMaxDepthExceeded
| JSONNotFound
| JSONNullParameter
| JSONBadParameter.

Inductive JSONTypes_t :=
| JSONInvalid
| JSONString
| JSONNumber
| JSONTrue
| JSONFalse
| JSONNull
| JSONObject
| JSONArray.

#[export] Instance JSONStatus_eq_dec : EqDecision JSONStatus_t.
Proof. solve_decision. Defined.
#[export] Instance JSONTypes_eq_dec : EqDecision JSONTypes_t.
Proof. solve_decision. Defined.

(** ** Character classes

    [char] values are bytes in [0,256); [isascii_] is [x >= 0] for a signed
    [char] and [x <= 0x7F] for an unsigned one, the same set of bytes. *)

Definition isascii_ (x : Z) : bool := x <=? 127.
Definition iscntrl_ (x : Z) : bool := isascii_ x && (x <? 32).
Definition isdigit_ (x : Z) : bool := (48 <=? x) && (x <=? 57).
Definition isspace_ (x : Z) : bool :=
  (x =? 32) || (x =? 9) || (x =? 10) || (x =? 13).

Definition QUOTE := 34.
Definition BACKSLASH := 92.
Definition COMMA := 44.
Definition COLON := 58.
Definition LBRACE := 123.
Definition RBRACE := 125.
Definition LBRACK := 91.
Definition RBRACK := 93.
Definition DOT := 46.

Definition isOpenBracket_ (x : Z) : bool := (x =? LBRACE) || (x =? LBRACK).
Definition isCloseBracket_ (x : Z) : bool := (x =? RBRACE) || (x =? RBRACK).
Definition isCurlyPair_ (x y : Z) : bool := (x =? LBRACE) && (y =? RBRACE).
Definition isSquarePair_ (x y : Z) : bool := (x =? LBRACK) && (y =? RBRACK).
Definition isMatchingBracket_ (x y : Z) : bool :=
  isCurlyPair_ x y || isSquarePair_ x y.
Definition isSquareOpen_ (x : Z) : bool := x =? LBRACK.
Definition isSquareClose_ (x : Z) : bool := x =? RBRACK.

(** Every loop below moves its index forward and stops at [max]. *)
Definition fuel (max : Z) : nat := S (S (Z.to_nat max)).
Arguments fuel : simpl never.

Fixpoint skipSpace_loop (f : nat) (buf : list Z) (i max : Z) : option Z :=
  match f with
  | O => None
  | S f =>
    if i <? max then
      c ← rd buf i;
      if isspace_ c then skipSpace_loop f buf (usz (i + 1)) max else Some i
    else Some i
  end.

Definition skipSpace (buf : list Z) (start max : Z) : option Z :=
  _ ← assert_ (0 <? max);
  skipSpace_loop (fuel max) buf start max.

(** ** UTF-8 *)

Fixpoint countHighBits_loop (f : nat) (n i : Z) : option Z :=
  match f with
  | O => None
  | S f =>
    if Z.land n 0x80 =? 0 then Some i
    else countHighBits_loop f (u8 (Z.shiftl (Z.land n 0x7F) 1)) (usz (i + 1))
  end.

Definition countHighBits (c : Z) : option Z := countHighBits_loop 9 c 0.

Definition shortestUTF8 (length value : Z) : option bool :=
  _ ← assert_ ((2 <=? length) && (length <=? 4));
  let '(mn, mx) :=
    if length =? 2 then (Z.shiftl 1 7, Z.shiftl 1 11 - 1)
    else if length =? 3 then (Z.shiftl 1 11, Z.shiftl 1 16 - 1)
    else (Z.shiftl 1 16, 0x10FFFF) in
  Some ((mn <=? value) && (value <=? mx) &&
        ((value <? 0xD800) || (0xDFFF <? value))).

(** The trailing-byte loop; returns [j], [i] and [value] as it leaves them. *)
Fixpoint utf8_trail (j : nat) (buf : list Z) (i max value : Z)
  : option (nat * Z * Z) :=
  match j with
  | O => Some (O, i, value)
  | S j' =>
    let i := usz (i + 1) in
    if max <=? i then Some (j, i, value)
    else
      c ← rd buf i;
      if negb (Z.land c 0xC0 =? 0x80) then Some (j, i, value)
      else utf8_trail j' buf i max
             (Z.lor (u32 (Z.shiftl value 6)) (Z.land c 0x3F))
  end.

Definition skipUTF8MultiByte (buf : list Z) (start max : Z)
  : option (bool * Z) :=
  _ ← assert_ (0 <? max);
  _ ← assert_ (start <? max);
  c ← rd buf start;
  _ ← assert_ (negb (isascii_ c));
  if (0xC1 <? c) && (c <? 0xF5) then
    bitCount ← countHighBits c;
    let value := Z.land c (Z.shiftl 1 (7 - bitCount) - 1) in
    '(j, i, value) ← utf8_trail (Z.to_nat (bitCount - 1)) buf start max value;
    if Nat.eqb j 0 then
      ok ← shortestUTF8 bitCount value;
      Some (if ok : bool then (true, usz (i + 1)) else (false, start))
    else Some (false, start)
  else Some (false, start).

Definition skipUTF8 (buf : list Z) (start max : Z) : option (bool * Z) :=
  _ ← assert_ (0 <? max);
  if start <? max then
    c ← rd buf start;
    if isascii_ c then Some (true, usz (start + 1))
    else skipUTF8MultiByte buf start max
  else Some (false, start).

(** ** Escapes and strings *)

Definition NOT_A_HEX_CHAR : Z := 0x10.

Definition hexToInt (c : Z) : Z :=
  if (97 <=? c) && (c <=? 102) then u8 (c - 97 + 10)
  else if (65 <=? c) && (c <=? 70) then u8 (c - 65 + 10)
  else if isdigit_ c then u8 (c - 48)
  else NOT_A_HEX_CHAR.

Fixpoint hex_loop (f : nat) (buf : list Z) (i end_ value : Z)
  : option (Z * Z) :=
  match f with
  | O => None
  | S f =>
    if i <? end_ then
      c ← rd buf i;
      let n := hexToInt c in
      if n =? NOT_A_HEX_CHAR then Some (i, value)
      else hex_loop f buf (usz (i + 1)) end_
             (u16 (Z.lor (Z.shiftl value 4) n))
    else Some (i, value)
  end.

Definition HEX_ESCAPE_LENGTH : Z := 6.

(** [Some (i, v)] inside the result: [*start := i] and [*outValue := v]. *)
Definition skipOneHexEscape (buf : list Z) (start max : Z)
  : option (option (Z * Z)) :=
  _ ← assert_ (0 <? max);
  let end_ := if start <=? SIZE_MAX - HEX_ESCAPE_LENGTH
              then usz (start + HEX_ESCAPE_LENGTH) else SIZE_MAX in
  '(i, value) ←
    (if end_ <? max then
       c0 ← rd buf start;
       if c0 =? BACKSLASH then
         c1 ← rd buf (usz (start + 1));
         if c1 =? 117 then hex_loop 7 buf (usz (start + 2)) end_ 0
         else Some (start, 0)
       else Some (start, 0)
     else Some (start, 0));
  Some (if (i =? end_) && (0 <? value) then Some (i, value) else None).

Definition isHighSurrogate (x : Z) : bool := (0xD800 <=? x) && (x <=? 0xDBFF).
Definition isLowSurrogate (x : Z) : bool := (0xDC00 <=? x) && (x <=? 0xDFFF).

Definition skipHexEscape (buf : list Z) (start max : Z) : option (bool * Z) :=
  _ ← assert_ (0 <? max);
  r ← skipOneHexEscape buf start max;
  match r with
  | None => Some (false, start)
  | Some (i, value) =>
    if isHighSurrogate value then
      r2 ← skipOneHexEscape buf i max;
      match r2 with
      | Some (i2, value2) =>
        Some (if isLowSurrogate value2 then (true, i2) else (false, start))
      | None => Some (false, start)
      end
    else if isLowSurrogate value then Some (false, start)
    else Some (true, i)
  end.

Definition isSimpleEscape (c : Z) : bool :=
  (c =? QUOTE) || (c =? BACKSLASH) || (c =? 47) || (c =? 98) ||
  (c =? 102) || (c =? 110) || (c =? 114) || (c =? 116).

Definition skipEscape (buf : list Z) (start max : Z) : option (bool * Z) :=
  _ ← assert_ (0 <? max);
  if start <? max - 1 then
    c0 ← rd buf start;
    if c0 =? BACKSLASH then
      c ← rd buf (usz (start + 1));
      if c =? 0 then Some (false, start)
      else if c =? 117 then skipHexEscape buf start max
      else if isSimpleEscape c then Some (true, usz (start + 2))
      else if iscntrl_ c then Some (true, usz (start + 2))
      else Some (false, start)
    else Some (false, start)
  else Some (false, start).

Fixpoint skipString_loop (f : nat) (buf : list Z) (i max : Z)
  : option (bool * Z) :=
  match f with
  | O => None
  | S f =>
    if i <? max then
      c ← rd buf i;
      if c =? QUOTE then Some (true, usz (i + 1))
      else if c =? BACKSLASH then
        '(ok, i') ← skipEscape buf i max;
        if ok : bool then skipString_loop f buf i' max else Some (false, i')
      else if iscntrl_ c then Some (false, i)
      else
        '(ok, i') ← skipUTF8 buf i max;
        if ok : bool then skipString_loop f buf i' max else Some (false, i')
    else Some (false, i)
  end.

Definition skipString (buf : list Z) (start max : Z) : option (bool * Z) :=
  _ ← assert_ (0 <? max);
  if start <? max then
    c ← rd buf start;
    if c =? QUOTE then
      '(ret, i) ← skipString_loop (fuel max) buf (usz (start + 1)) max;
      Some (if ret : bool then (true, i) else (false, start))
    else Some (false, start)
  else Some (false, start).

(** ** Literals and numbers *)

Fixpoint strnEq_loop (f : nat) (a b : list Z) (i n : Z) : option bool :=
  match f with
  | O => None
  | S f =>
    if i <? n then
      x ← rd a i;
      y ← rd b i;
      if negb (x =? y) then Some (i =? n)
      else strnEq_loop f a b (usz (i + 1)) n
    else Some (i =? n)
  end.

Definition strnEq (a b : list Z) (n : Z) : option bool :=
  strnEq_loop (fuel n) a b 0 n.

(** [&buf[i]] as the memory from index [i] on. *)
Definition at_ (buf : list Z) (i : Z) : list Z := drop (Z.to_nat i) buf.

Definition skipLiteral (buf : list Z) (start max : Z) (literal : list Z)
  (length : Z) : option (bool * Z) :=
  _ ← assert_ (0 <? max);
  ret ← (if (start <? max) && (length <=? max - start)
         then strnEq (at_ buf start) literal length else Some false);
  Some (if ret : bool then (true, usz (start + length)) else (false, start)).

Definition lit_true : list Z := bytes_of "true"%string.
Definition lit_false : list Z := bytes_of "false"%string.
Definition lit_null : list Z := bytes_of "null"%string.

Definition skipAnyLiteral (buf : list Z) (start max : Z) : option (bool * Z) :=
  '(t, i) ← skipLiteral buf start max lit_true 4;
  if t : bool then Some (true, i) else
  '(f, i) ← skipLiteral buf i max lit_false 5;
  if f : bool then Some (true, i) else
  '(n, i) ← skipLiteral buf i max lit_null 4;
  if n : bool then Some (true, i) else Some (false, i).

Definition MAX_INDEX_VALUE : Z := 0x7FFFFFF7.
Definition MAX_FACTOR : Z := MAX_INDEX_VALUE / 10.

Fixpoint skipDigits_loop (f : nat) (buf : list Z) (i max : Z) (want : bool)
  (value : Z) : option (Z * Z) :=
  match f with
  | O => None
  | S f =>
    if i <? max then
      c ← rd buf i;
      if negb (isdigit_ c) then Some (i, value)
      else
        let value :=
          if want && (-1 <? value) then
            if value <=? MAX_FACTOR then i32 (value * 10 + hexToInt c) else -1
          else value in
        skipDigits_loop f buf (usz (i + 1)) max want value
    else Some (i, value)
  end.

(** [want] is [outValue != NULL]; the last component is what is stored in
    [*outValue], if anything is. *)
Definition skipDigits (buf : list Z) (start max : Z) (want : bool)
  : option (bool * Z * option Z) :=
  _ ← assert_ (0 <? max);
  '(i, value) ← skipDigits_loop (fuel max) buf start max want 0;
  Some (if start <? i
        then (true, i, if want then Some value else None)
        else (false, start, None)).

Definition skipDecimals (buf : list Z) (start max : Z) : option Z :=
  _ ← assert_ (0 <? max);
  if start <? max then
    c ← rd buf start;
    if c =? DOT then
      '(ok, i, _) ← skipDigits buf (usz (start + 1)) max false;
      Some (if ok : bool then i else start)
    else Some start
  else Some start.

Definition skipExponent (buf : list Z) (start max : Z) : option Z :=
  _ ← assert_ (0 <? max);
  if start <? max then
    c ← rd buf start;
    if (c =? 101) || (c =? 69) then
      let i := usz (start + 1) in
      i ← (if i <? max then
             s ← rd buf i;
             Some (if (s =? 45) || (s =? 43) then usz (i + 1) else i)
           else Some i);
      '(ok, i, _) ← skipDigits buf i max false;
      Some (if ok : bool then i else start)
    else Some start
  else Some start.

Definition skipNumber (buf : list Z) (start max : Z) : option (bool * Z) :=
  _ ← assert_ (0 <? max);
  i ← (if start <? max then
         c ← rd buf start;
         Some (if c =? 45 then usz (start + 1) else start)
       else Some start);
  '(ret, i) ←
    (if i <? max then
       c ← rd buf i;
       if c =? 48 then Some (true, usz (i + 1))
       else '(ok, i, _) ← skipDigits buf i max false; Some (ok, i)
     else Some (false, i));
  if ret : bool then
    i ← skipDecimals buf i max;
    i ← skipExponent buf i max;
    Some (true, i)
  else Some (false, start).

Definition skipAnyScalar (buf : list Z) (start max : Z) : option (bool * Z) :=
  '(s, i) ← skipString buf start max;
  if s : bool then Some (true, i) else
  '(l, i) ← skipAnyLiteral buf i max;
  if l : bool then Some (true, i) else
  '(n, i) ← skipNumber buf i max;
  if n : bool then Some (true, i) else Some (false, i).

Definition skipSpaceAndComma (buf : list Z) (start max : Z)
  : option (bool * Z) :=
  _ ← assert_ (0 <? max);
  start ← skipSpace buf start max;
  if start <? max then
    c ← rd buf start;
    if c =? COMMA then
      i ← skipSpace buf (usz (start + 1)) max;
      if i <? max then
        d ← rd buf i;
        Some (if negb (isCloseBracket_ d) then (true, i) else (false, start))
      else Some (false, start)
    else Some (false, start)
  else Some (false, start).

(** ** Collections *)

Fixpoint skipArrayScalars_loop (f : nat) (buf : list Z) (i max : Z)
  : option Z :=
  match f with
  | O => None
  | S f =>
    if i <? max then
      '(ok, i) ← skipAnyScalar buf i max;
      if negb ok then Some i else
      '(comma, i) ← skipSpaceAndComma buf i max;
      if negb comma then Some i else skipArrayScalars_loop f buf i max
    else Some i
  end.

Definition skipArrayScalars (buf : list Z) (start max : Z) : option Z :=
  _ ← assert_ (0 <? max);
  skipArrayScalars_loop (fuel max) buf start max.

(** [start] is the caller's [*start], written only where the code does. *)
Fixpoint skipObjectScalars_loop (f : nat) (buf : list Z) (i start max : Z)
  : option Z :=
  match f with
  | O => None
  | S f =>
    if i <? max then
      '(ok, i) ← skipString buf i max;
      if negb ok then Some start else
      i ← skipSpace buf i max;
      nocolon ← (if i <? max then c ← rd buf i; Some (negb (c =? COLON))
                 else Some false);
      if nocolon : bool then Some start else
      i ← skipSpace buf (usz (i + 1)) max;
      nested ← (if i <? max then c ← rd buf i; Some (isOpenBracket_ c)
                else Some false);
      if nested : bool then Some i else
      '(ok, i) ← skipAnyScalar buf i max;
      if negb ok then Some start else
      '(comma, i) ← skipSpaceAndComma buf i max;
      if negb comma then Some i else skipObjectScalars_loop f buf i i max
    else Some start
  end.

Definition skipObjectScalars (buf : list Z) (start max : Z) : option Z :=
  _ ← assert_ (0 <? max);
  skipObjectScalars_loop (fuel max) buf start start max.

Definition skipScalars (buf : list Z) (start max mode : Z) : option Z :=
  _ ← assert_ (isOpenBracket_ mode);
  start ← skipSpace buf start max;
  if mode =? LBRACK then skipArrayScalars buf start max
  else skipObjectScalars buf start max.

Definition JSON_MAX_DEPTH : Z := 32.

(** One pass of the [while] body: the next [i], [depth], [stack] and [ret]. *)
Definition skipCollection_step (buf : list Z) (i max depth : Z)
  (stack : list Z) : option (Z * Z * list Z * JSONStatus_t) :=
  c ← rd buf i;
  let i := usz (i + 1) in
  if (c =? LBRACE) || (c =? LBRACK) then
    let depth := depth + 1 in
    if depth =? JSON_MAX_DEPTH then
      Some (i, depth, stack, JSONMaxDepthExceeded)
    else
      _ ← rd stack depth;
      let stack := <[Z.to_nat depth := c]> stack in
      i ← skipScalars buf i max c;
      Some (i, depth, stack, JSONPartial)
  else if (c =? RBRACE) || (c =? RBRACK) then
    m ← (if 0 <? depth then
           t ← rd stack depth; Some (isMatchingBracket_ t c)
         else Some false);
    if m : bool then
      let depth := depth - 1 in
      '(comma, i) ← skipSpaceAndComma buf i max;
      if comma : bool then
        t ← rd stack depth;
        i ← skipScalars buf i max t;
        Some (i, depth, stack, JSONPartial)
      else Some (i, depth, stack, JSONPartial)
    else Some (i, depth, stack,
               if depth =? 0 then JSONSuccess else JSONIllegalDocument)
  else Some (i, depth, stack, JSONIllegalDocument).

Fixpoint skipCollection_loop (f : nat) (buf : list Z) (i max depth : Z)
  (stack : list Z) : option (JSONStatus_t * Z) :=
  match f with
  | O => None
  | S f =>
    if i <? max then
      '(i, depth, stack, ret) ← skipCollection_step buf i max depth stack;
      if decide (ret = JSONPartial) then
        skipCollection_loop f buf i max depth stack
      else Some (ret, i)
    else Some (JSONPartial, i)
  end.

Definition skipCollection (buf : list Z) (start max : Z)
  : option (JSONStatus_t * Z) :=
  _ ← assert_ (0 <? max);
  '(ret, i) ← skipCollection_loop (fuel max) buf start max (-1)
                (replicate (Z.to_nat JSON_MAX_DEPTH) 0);
  Some (ret, if decide (ret = JSONSuccess) then i else start).

(** [None] for the buffer is a NULL pointer. *)
Definition JSON_Validate (buf : option (list Z)) (max : Z)
  : option JSONStatus_t :=
  match buf with
  | None => Some JSONNullParameter
  | Some buf =>
    if max =? 0 then Some JSONBadParameter
    else
      i ← skipSpace buf 0 max;
      '(ok, i) ← skipAnyScalar buf i max;
      '(ret, i) ← (if ok : bool then Some (JSONSuccess, i)
                   else skipCollection buf i max);
      if decide (ret = JSONSuccess) then
        if i <? max then
          i ← skipSpace buf i max;
          Some (if negb (i =? max) then JSONIllegalDocument else ret)
        else Some ret
      else Some ret
  end.

(** ** Searching

    [nextValue] and [nextKeyValuePair] return the new [*start] with the
    index and length of the value (and of the key), or [None] inside the
    result for the C [false]. *)

Record value_out := mk_value { v_next : Z; v_index : Z; v_length : Z }.
Record pair_out := mk_pair { p_key : Z; p_keyLength : Z; p_value : value_out }.

Definition nextValue (buf : list Z) (start max : Z)
  : option (option value_out) :=
  _ ← assert_ (0 <? max);
  '(ok, i) ← skipAnyScalar buf start max;
  if ok : bool then Some (Some (mk_value i start (usz (i - start))))
  else
    '(ret, i) ← skipCollection buf i max;
    Some (if decide (ret = JSONSuccess)
          then Some (mk_value i start (usz (i - start))) else None).

Definition nextKeyValuePair (buf : list Z) (start max : Z)
  : option (option pair_out) :=
  _ ← assert_ (0 <? max);
  '(ok, i) ← skipString buf start max;
  if negb ok then Some None else
  let key := usz (start + 1) in
  let keyLength := usz (i - start - 2) in
  i ← skipSpace buf i max;
  colon ← (if i <? max then c ← rd buf i; Some (c =? COLON) else Some false);
  if negb colon then Some None else
  i ← skipSpace buf (usz (i + 1)) max;
  v ← nextValue buf i max;
  Some (match v with
        | Some v => Some (mk_pair key keyLength v)
        | None => None
        end).

Fixpoint objectSearch_loop (f : nat) (buf : list Z) (i max : Z)
  (query : list Z) (queryLength : Z) : option (option value_out) :=
  match f with
  | O => None
  | S f =>
    if i <? max then
      p ← nextKeyValuePair buf i max;
      match p with
      | None => Some None
      | Some p =>
        hit ← (if queryLength =? p_keyLength p
               then strnEq query (at_ buf (p_key p)) (p_keyLength p)
               else Some false);
        if hit : bool then Some (Some (p_value p)) else
        '(comma, i) ← skipSpaceAndComma buf (v_next (p_value p)) max;
        if comma : bool then objectSearch_loop f buf i max query queryLength
        else Some None
      end
    else Some None
  end.

(** The result is [Some (value, length)] when the key is found. *)
Definition objectSearch (buf : list Z) (max : Z) (query : list Z)
  (queryLength : Z) : option (option (Z * Z)) :=
  i ← skipSpace buf 0 max;
  r ← (if i <? max then
         c ← rd buf i;
         if c =? LBRACE then
           i ← skipSpace buf (usz (i + 1)) max;
           objectSearch_loop (fuel max) buf i max query queryLength
         else Some None
       else Some None);
  Some (v ← r; Some (v_index v, v_length v)).

Fixpoint arraySearch_loop (f : nat) (buf : list Z) (i max queryIndex cur : Z)
  : option (option value_out) :=
  match f with
  | O => None
  | S f =>
    if i <? max then
      v ← nextValue buf i max;
      match v with
      | None => Some None
      | Some v =>
        if cur =? queryIndex then Some (Some v) else
        '(comma, i) ← skipSpaceAndComma buf (v_next v) max;
        if comma : bool
        then arraySearch_loop f buf i max queryIndex (u32 (cur + 1))
        else Some None
      end
    else Some None
  end.

Definition arraySearch (buf : list Z) (max queryIndex : Z)
  : option (option (Z * Z)) :=
  i ← skipSpace buf 0 max;
  r ← (if i <? max then
         c ← rd buf i;
         if c =? LBRACK then
           i ← skipSpace buf (usz (i + 1)) max;
           arraySearch_loop (fuel max) buf i max queryIndex 0
         else Some None
       else Some None);
  Some (v ← r; Some (v_index v, v_length v)).

Definition isSeparator_ (x : Z) : bool := x =? DOT.

Fixpoint skipQueryPart_loop (f : nat) (buf : list Z) (i max : Z) : option Z :=
  match f with
  | O => None
  | S f =>
    if i <? max then
      c ← rd buf i;
      if negb (isSeparator_ c) && negb (isSquareOpen_ c)
      then skipQueryPart_loop f buf (usz (i + 1)) max
      else Some i
    else Some i
  end.

(** [Some (i, n)] inside: [*start := i], [*outLength := n]. *)
Definition skipQueryPart (buf : list Z) (start max : Z)
  : option (option (Z * Z)) :=
  _ ← assert_ (0 <? max);
  i ← skipQueryPart_loop (fuel max) buf start max;
  Some (if start <? i then Some (i, usz (i - start)) else None).

(** One pass of the query loop: [inl] is an early exit with its status,
    [inr (i, start, length)] the state for the next part. *)
Definition multiSearch_step (buf : list Z) (query : list Z) (queryLength : Z)
  (i start length : Z) : option (JSONStatus_t + Z * Z * Z) :=
  c ← rd query i;
  r ← (if isSquareOpen_ c then
         let i := usz (i + 1) in
         '(_, i, out) ← skipDigits query i queryLength true;
         let queryIndex := default (-1) out in
         closed ← (if i <? queryLength
                   then d ← rd query i; Some (isSquareClose_ d)
                   else Some false);
         if (queryIndex <? 0) || negb closed then Some None
         else
           found ← arraySearch (at_ buf start) length (u32 queryIndex);
           Some (Some (usz (i + 1), found))
       else
         let queryStart := i in
         part ← skipQueryPart query i queryLength;
         match part with
         | None => Some None
         | Some (i, keyLength) =>
           if i =? queryLength - 1 then Some None
           else
             found ← objectSearch (at_ buf start) length
                       (at_ query queryStart) keyLength;
             Some (Some (i, found))
         end);
  match r with
  | None => Some (inl JSONBadParameter)
  | Some (_, None) => Some (inl JSONNotFound)
  | Some (i, Some (value, length)) =>
    sep ← (if i <? queryLength then d ← rd query i; Some (isSeparator_ d)
           else Some false);
    Some (inr (if sep : bool then usz (i + 1) else i,
               usz (start + value), length))
  end.

Fixpoint multiSearch_loop (f : nat) (buf : list Z) (query : list Z)
  (queryLength i start length : Z) : option (JSONStatus_t * Z * Z) :=
  match f with
  | O => None
  | S f =>
    if i <? queryLength then
      r ← multiSearch_step buf query queryLength i start length;
      match r with
      | inl st => Some (st, start, length)
      | inr (i, start, length) =>
        multiSearch_loop f buf query queryLength i start length
      end
    else Some (JSONSuccess, start, length)
  end.

Definition multiSearch (buf : list Z) (max : Z) (query : list Z)
  (queryLength : Z) : option (JSONStatus_t * Z * Z) :=
  _ ← assert_ ((0 <? max) && (0 <? queryLength));
  multiSearch_loop (fuel queryLength) buf query queryLength 0 0 max.

Definition getType (c : Z) : JSONTypes_t :=
  if c =? QUOTE then JSONString
  else if c =? LBRACE then JSONObject
  else if c =? LBRACK then JSONArray
  else if c =? 116 then JSONTrue
  else if c =? 102 then JSONFalse
  else if c =? 110 then JSONNull
  else JSONNumber.

(** What a successful search stores: the index of [*outValue] in the buffer,
    [*outValueLength] and [*outType]. *)
Record search_out := mk_search
  { s_value : Z; s_length : Z; s_type : JSONTypes_t }.

Definition strip_quotes (t : JSONTypes_t) (value length : Z) : search_out :=
  if decide (t = JSONString)
  then mk_search (usz (value + 1)) (usz (length - 2)) t
  else mk_search value length t.

(** [outs] tells that [outValue] and [outValueLength] are not NULL. *)
Definition JSON_SearchConst (buf : option (list Z)) (max : Z)
  (query : option (list Z)) (queryLength : Z) (outs : bool)
  : option (JSONStatus_t * option search_out) :=
  match buf, query, outs with
  | Some buf, Some query, true =>
    if (max =? 0) || (queryLength =? 0) then Some (JSONBadParameter, None)
    else
      '(ret, value, length) ← multiSearch buf max query queryLength;
      if decide (ret = JSONSuccess) then
        c ← rd buf value;
        Some (ret, Some (strip_quotes (getType c) value length))
      else Some (ret, None)
  | _, _, _ => Some (JSONNullParameter, None)
  end.

(** [JSON_SearchT] only casts; [JSON_Search] drops the type. *)
Definition JSON_SearchT := JSON_SearchConst.

Definition JSON_Search (buf : option (list Z)) (max : Z)
  (query : option (list Z)) (queryLength : Z) (outs : bool)
  : option (JSONStatus_t * option (Z * Z)) :=
  '(ret, out) ← JSON_SearchT buf max query queryLength outs;
  Some (ret, o ← out; Some (s_value o, s_length o)).

(** ** Iterating over a collection *)

Definition iterate (buf : list Z) (max start next : Z)
  : option (JSONStatus_t * Z * option pair_out) :=
  _ ← assert_ (0 <? max);
  r ← (if start <? max then
         c ← rd buf start;
         if c =? LBRACK then
           v ← nextValue buf next max;
           Some (JSONNotFound, v ← v; Some (mk_pair 0 0 v))
         else if c =? LBRACE then
           p ← nextKeyValuePair buf next max;
           Some (JSONNotFound, p)
         else Some (JSONIllegalDocument, None)
       else Some (JSONNotFound, None));
  match r with
  | (_, Some p) =>
    '(_, next) ← skipSpaceAndComma buf (v_next (p_value p)) max;
    Some (JSONSuccess, next, Some p)
  | (ret, None) => Some (ret, next, None)
  end.

(** [jp_key] is [None] for a NULL key (a value of an array). *)
Record JSONPair_t := mk_JSONPair
  { jp_key : option Z; jp_keyLength : Z; jp_out : search_out }.

Definition JSON_Iterate (buf : option (list Z)) (max : Z) (outs : bool)
  (start next : Z)
  : option (JSONStatus_t * Z * Z * option JSONPair_t) :=
  match buf, outs with
  | Some buf, true =>
    if (max =? 0) || (max <=? start) || (max <? next)
    then Some (JSONBadParameter, start, next, None)
    else
      start ← skipSpace buf start max;
      next ← (if next <=? start
              then skipSpace buf (usz (start + 1)) max else Some next);
      '(ret, next, p) ← iterate buf max start next;
      match p with
      | Some p =>
        let v := p_value p in
        c ← rd buf (v_index v);
        Some (ret, start, next,
          Some (mk_JSONPair (if p_key p =? 0 then None else Some (p_key p))
                  (p_keyLength p)
                  (strip_quotes (getType c) (v_index v) (v_length v))))
      | None => Some (ret, start, next, None)
      end
  | _, _ => Some (JSONNullParameter, start, next, None)
  end.

#[global] Arguments rd : simpl never.
#[global] Arguments skipSpace : simpl never.
#[global] Arguments countHighBits : simpl never.
#[global] Arguments shortestUTF8 : simpl never.
#[global] Arguments skipUTF8MultiByte : simpl never.
#[global] Arguments skipUTF8 : simpl never.
#[global] Arguments hexToInt : simpl never.
#[global] Arguments skipOneHexEscape : simpl never.
#[global] Arguments skipHexEscape : simpl never.
#[global] Arguments isSimpleEscape : simpl never.
#[global] Arguments iscntrl_ : simpl never.
#[global] Arguments isascii_ : simpl never.
#[global] Arguments isdigit_ : simpl never.
#[global] Arguments isspace_ : simpl never.
#[global] Arguments skipEscape : simpl never.
#[global] Arguments skipString : simpl never.
#[global] Arguments strnEq : simpl never.
#[global] Arguments at_ : simpl never.
#[global] Arguments skipLiteral : simpl never.
#[global] Arguments skipAnyLiteral : simpl never.
#[global] Arguments skipDigits : simpl never.
#[global] Arguments skipDecimals : simpl never.
#[global] Arguments skipExponent : simpl never.
#[global] Arguments skipNumber : simpl never.
#[global] Arguments skipAnyScalar : simpl never.
#[global] Arguments skipSpaceAndComma : simpl never.
#[global] Arguments skipArrayScalars : simpl never.
#[global] Arguments skipObjectScalars : simpl never.
#[global] Arguments skipScalars : simpl never.
#[global] Arguments skipCollection_step : simpl never.
#[global] Arguments skipCollection : simpl never.
#[global] Arguments nextValue : simpl never.
#[global] Arguments nextKeyValuePair : simpl never.
#[global] Arguments objectSearch : simpl never.
#[global] Arguments arraySearch : simpl never.
#[global] Arguments skipQueryPart : simpl never.
#[global] Arguments multiSearch_step : simpl never.
#[global] Arguments multiSearch : simpl never.
#[global] Arguments getType : simpl never.
#[global] Arguments usz : simpl never.
#[global] Arguments u8 : simpl never.
#[global] Arguments u16 : simpl never.
#[global] Arguments u32 : simpl never.
#[global] Arguments i32 : simpl never.

End Json.
