(* ===== verification/CoreJsonSafety.v ===== *)
(** * Memory safety and termination of the JSON scanners

    For every buffer content, the scanners of CoreJson.v read only inside
    the buffer, pass their assertions, end within their fuel and leave an
    index inside [0, max]. *)

From S2P Require Import Prelude CoreJson.
Import Json.

Create HintDb json.

(** ** The shape of a scanner

    On success the index moves forward and stays in the buffer, on failure
    it is unchanged.  One caller ([skipObjectScalars]) can call with the
    index one past [max], where every scanner fails. *)
Definition scanner (max : Z) (f : Z -> option (bool * Z)) : Prop :=
  forall i, 0 <= i <= max + 1 ->
  exists b j, f i = Some (b, j) /\ (if b : bool then i < j <= max else j = i).

(** A skipper only moves the index. *)
Definition skipper (max : Z) (f : Z -> option Z) : Prop :=
  forall i, 0 <= i <= max + 1 ->
  exists j, f i = Some j /\ i <= j <= Z.max i max.

Ltac zcases :=
  repeat match goal with
  | |- context [?a <? ?b] => destruct (Z.ltb_spec a b); try lia
  | |- context [?a <=? ?b] => destruct (Z.leb_spec a b); try lia
  end.

(** Splits on the first bounds test of the goal. *)
Ltac inb :=
  match goal with
  | |- context [if ?a <? ?b then _ else _] => destruct (Z.ltb_spec a b); try lia
  end.

(** Names the byte read at an index known to be inside the buffer. *)
Ltac byte H c E :=
  match type of H with
  | forall i, _ -> exists c, rd ?buf i = Some c =>
    match goal with
    | |- context [rd buf ?i] =>
      destruct (H i) as [c E]; [lia|]; rewrite E; cbn [mbind option_bind]
    end
  end.

(** Closes a scanner case: the result is known, its index remains. *)
Ltac scan_end :=
  do 2 eexists; split; [reflexivity|]; cbv beta iota;
  first [reflexivity | lia | rewrite !usz_small by lia; lia].

(** ** Byte comparison *)

Lemma rd_app_lt (l : list Z) i : 0 <= i < zlen l -> exists c, rd l i = Some c.
Proof.
  intros [H0 H1]. unfold rd, zlen in *. rewrite (proj2 (Z.leb_le _ _) H0).
  apply lookup_lt_is_Some_2. lia.
Qed.

Lemma rd_lookup (l : list Z) i : 0 <= i -> rd l i = l !! Z.to_nat i.
Proof. intros H. unfold rd. by rewrite (proj2 (Z.leb_le _ _) H). Qed.

Lemma zlen_at buf i : 0 <= i <= zlen buf -> zlen (at_ buf i) = zlen buf - i.
Proof. unfold at_, zlen. intros. rewrite length_drop. lia. Qed.

Lemma rd_at buf i k : 0 <= i -> 0 <= k -> rd (at_ buf i) k = rd buf (i + k).
Proof.
  intros. rewrite !rd_lookup by lia. unfold at_. rewrite lookup_drop.
  f_equal. lia.
Qed.

(** [strnEq] decides equality of the first [n] bytes. *)
Lemma strnEq_loop_spec f a b i n :
  0 <= i <= n -> n < SIZE_MAX -> n <= zlen a -> n <= zlen b ->
  (Z.to_nat (n - i) < f)%nat ->
  exists r, strnEq_loop f a b i n = Some r /\
  (r = true <-> forall k, i <= k < n -> rd a k = rd b k).
Proof.
  revert i. induction f as [|f IH]; intros i Hi Hn Ha Hb Hf; [lia|]. cbn.
  destruct (Z.ltb_spec i n); cycle 1.
  { eexists. split; [done|]. split; [intros; lia|intros; apply Z.eqb_eq; lia]. }
  destruct (rd_app_lt a i) as [x Hx]; [lia|].
  destruct (rd_app_lt b i) as [y Hy]; [lia|]. rewrite Hx, Hy. cbn.
  destruct (Z.eqb_spec x y) as [<-|Hne]; cbn; cycle 1.
  { eexists. split; [done|]. split; [intros Hc; apply Z.eqb_eq in Hc; lia|].
    intros Hk. specialize (Hk i). rewrite Hx, Hy in Hk. exfalso.
    apply Hne. assert (Some x = Some y) by (apply Hk; lia). congruence. }
  rewrite usz_small by lia.
  destruct (IH (i + 1)) as (r & -> & Hr); [lia..|]. eexists. split; [done|].
  rewrite Hr. split; intros Hk k Hki; [|apply Hk; lia].
  destruct (decide (k = i)) as [->|]; [congruence|]. apply Hk. lia.
Qed.

Lemma strnEq_spec a b n :
  0 <= n < SIZE_MAX -> n <= zlen a -> n <= zlen b ->
  exists r, strnEq a b n = Some r /\
  (r = true <-> take (Z.to_nat n) a = take (Z.to_nat n) b).
Proof.
  intros Hn Ha Hb.
  destruct (strnEq_loop_spec (fuel n) a b 0 n) as (r & Hr & Hiff);
    [lia..|unfold fuel; lia|].
  exists r. split; [done|]. rewrite Hiff. split.
  - intros Hk. apply list_eq. intros j.
    destruct (decide (j < Z.to_nat n)%nat).
    + rewrite !lookup_take_lt by done. specialize (Hk (Z.of_nat j)).
      rewrite !rd_lookup, Nat2Z.id in Hk by lia. apply Hk. lia.
    + rewrite !lookup_take_ge by lia. done.
  - intros Ht k Hk. rewrite !rd_lookup by lia.
    rewrite <- (lookup_take_lt a (Z.to_nat n)), Ht, lookup_take_lt by lia. done.
Qed.

Section Safety.
Context (buf : list Z) (max : Z).
Context (Hmax : 0 < max < SIZE_MAX) (Hlen : max <= zlen buf).

Lemma rd_in i : 0 <= i < max -> exists c, rd buf i = Some c.
Proof using Hmax Hlen.
  intros [H0 H1]. unfold rd, zlen in *. rewrite (proj2 (Z.leb_le _ _) H0).
  apply lookup_lt_is_Some_2. lia.
Qed.

Lemma assert_max : assert_ (0 <? max) = Some tt.
Proof using Hmax. unfold assert_. zcases. reflexivity. Qed.

Lemma usz_in i : 0 <= i <= max + 1 -> usz i = i.
Proof using Hmax. intros. apply usz_small. lia. Qed.

Lemma fuel_enough i : 0 <= i <= max + 1 -> (Z.to_nat (max - i) < fuel max)%nat.
Proof using Hmax. unfold fuel. lia. Qed.

Lemma skipSpace_loop_ok f i :
  0 <= i <= max + 1 -> (Z.to_nat (max - i) < f)%nat ->
  exists j, skipSpace_loop f buf i max = Some j /\ i <= j <= Z.max i max.
Proof using Hmax Hlen.
  revert i. induction f as [|f IH]; intros i Hi Hf; [lia|]. cbn.
  zcases; [|eexists; split; [done|lia]].
  byte rd_in c E. destruct (isspace_ c); [|eexists; split; [done|lia]].
  rewrite usz_in by lia. destruct (IH (i + 1)) as (j & -> & ?); [lia..|].
  eexists. split; [done|lia].
Qed.

Lemma skipSpace_ok : skipper max (fun i => skipSpace buf i max).
Proof using Hmax Hlen.
  intros i Hi. unfold skipSpace. rewrite assert_max. cbn.
  apply skipSpace_loop_ok; auto using fuel_enough.
Qed.

(** ** UTF-8 *)

Lemma countHighBits_lead c :
  193 < c < 245 -> exists n, countHighBits c = Some n /\ 2 <= n <= 4.
Proof.
  intros Hc.
  assert (HF : Forall (fun c => match countHighBits c with
                | Some n => 2 <= n <= 4 | None => False end)
               (seqZ 194 51)).
  { repeat (constructor; [vm_compute; split; discriminate|]). constructor. }
  rewrite Forall_forall in HF. specialize (HF c).
  destruct (countHighBits c) as [n|]; [eexists; split; [done|]|exfalso];
    apply HF, elem_of_seqZ; lia.
Qed.

Lemma utf8_trail_ok n i v :
  0 <= i < max -> exists j i' v', utf8_trail n buf i max v = Some (j, i', v') /\
  i <= i' /\ (j = O -> i' = i + Z.of_nat n /\ i' < max).
Proof using Hmax Hlen.
  revert i v. induction n as [|n IH]; intros i v Hi; cbn -[Z.land Z.of_nat].
  { do 3 eexists. split; [done|]. lia. }
  rewrite usz_in by lia. zcases.
  { do 3 eexists. split; [done|]. split; [lia|discriminate]. }
  byte rd_in c E. destruct (negb _).
  { do 3 eexists. split; [done|]. split; [lia|discriminate]. }
  destruct (IH (i + 1) (Z.lor (u32 (Z.shiftl v 6)) (Z.land c 63)))
    as (j & i' & v' & -> & ? & Hj); [lia|].
  do 3 eexists. split; [done|]. split; [lia|]. intros Hz.
  destruct (Hj Hz). lia.
Qed.

Lemma shortestUTF8_some n v :
  2 <= n <= 4 -> exists b, shortestUTF8 n v = Some b.
Proof.
  intros. unfold shortestUTF8.
  replace ((2 <=? n) && (n <=? 4)) with true by lia. cbn -[Z.shiftl].
  destruct (n =? 2); [|destruct (n =? 3)]; eexists; reflexivity.
Qed.

Lemma skipUTF8MultiByte_ok i c :
  0 <= i < max -> rd buf i = Some c -> isascii_ c = false ->
  exists b j, skipUTF8MultiByte buf i max = Some (b, j) /\
  (if b : bool then i < j <= max else j = i).
Proof using Hmax Hlen.
  intros Hi Hc Ha. unfold skipUTF8MultiByte. rewrite assert_max. cbn.
  unfold assert_. zcases. cbn. rewrite Hc. cbn. rewrite Ha. cbn.
  destruct (_ && _) eqn:Hlead; [|scan_end].
  destruct (countHighBits_lead c) as (n & -> & Hn); [lia|]. cbn.
  destruct (utf8_trail_ok (Z.to_nat (n - 1)) i
              (Z.land c (Z.shiftl 1 (7 - n) - 1)) Hi)
    as (j & i' & v' & -> & ? & Hj). cbn.
  destruct j; cbn; [|scan_end]. destruct (Hj eq_refl).
  destruct (shortestUTF8_some n v' Hn) as [ok ->]. cbn.
  destruct ok; scan_end.
Qed.

Lemma skipUTF8_ok : scanner max (fun i => skipUTF8 buf i max).
Proof using Hmax Hlen.
  intros i Hi. unfold skipUTF8. rewrite assert_max. cbn. zcases; [|scan_end].
  byte rd_in c E. destruct (isascii_ c) eqn:Ha.
  - scan_end.
  - eapply skipUTF8MultiByte_ok; eauto; lia.
Qed.

(** ** Escapes and strings *)

Lemma hex_loop_ok f i e v :
  0 <= i -> e < max -> (Z.to_nat (e - i) < f)%nat ->
  exists j v', hex_loop f buf i e v = Some (j, v') /\ i <= j.
Proof using Hmax Hlen.
  revert i v. induction f as [|f IH]; intros i v Hi He Hf; [lia|]. cbn.
  zcases; [|scan_end].
  byte rd_in c E. destruct (_ =? _); [scan_end|].
  rewrite usz_in by lia.
  destruct (IH (i + 1) (u16 (Z.lor (Z.shiftl v 4) (hexToInt c))))
    as (j & v' & -> & ?); [lia..|]. scan_end.
Qed.

Lemma skipOneHexEscape_ok i :
  0 <= i <= max -> exists r, skipOneHexEscape buf i max = Some r /\
  (forall j v, r = Some (j, v) -> j = i + 6 /\ j < max).
Proof using Hmax Hlen.
  intros Hi. unfold skipOneHexEscape, HEX_ESCAPE_LENGTH. rewrite assert_max.
  cbn [mbind option_bind].
  set (e := if i <=? SIZE_MAX - 6 then usz (i + 6) else SIZE_MAX).
  assert (He : i <= SIZE_MAX - 6 /\ e = i + 6 \/ max < e).
  { unfold e. zcases. left. split; [lia|]. apply usz_small. lia. }
  assert (Hne : i <> e) by lia.
  destruct (Z.ltb_spec e max); cycle 1.
  { cbn. rewrite (proj2 (Z.eqb_neq _ _) Hne). cbn. by eexists. }
  destruct He as [[_ He]|]; [|lia].
  byte rd_in c0 E0. destruct (c0 =? _); cycle 1.
  { cbn. rewrite (proj2 (Z.eqb_neq _ _) Hne). cbn. by eexists. }
  rewrite !usz_in by lia. byte rd_in c1 E1. destruct (c1 =? _); cycle 1.
  { cbn. rewrite (proj2 (Z.eqb_neq _ _) Hne). cbn. by eexists. }
  destruct (hex_loop_ok 7 (i + 2) e 0) as (j & v & Hloop & ?); [lia..|].
  rewrite Hloop. cbn. destruct (Z.eqb_spec j e); cbn; [|by eexists].
  destruct (0 <? v); eexists; (split; [done|]); intros ?? [=]; lia.
Qed.

Lemma skipHexEscape_ok i :
  0 <= i <= max -> exists b j, skipHexEscape buf i max = Some (b, j) /\
  (if b : bool then i < j <= max else j = i).
Proof using Hmax Hlen.
  intros Hi. unfold skipHexEscape. rewrite assert_max. cbn.
  destruct (skipOneHexEscape_ok i Hi) as ([[j v]|] & -> & Hj); cbn;
    [|scan_end].
  destruct (Hj _ _ eq_refl).
  destruct (isHighSurrogate v).
  - destruct (skipOneHexEscape_ok j) as ([[k w]|] & -> & Hk); [lia| |];
      cbn; [|scan_end].
    destruct (Hk _ _ eq_refl). destruct (isLowSurrogate w);
      scan_end.
  - destruct (isLowSurrogate v); scan_end.
Qed.

Lemma skipEscape_ok i :
  0 <= i <= max -> exists b j, skipEscape buf i max = Some (b, j) /\
  (if b : bool then i < j <= max else j = i).
Proof using Hmax Hlen.
  intros Hi. unfold skipEscape. rewrite assert_max. cbn.
  destruct (Z.ltb_spec i (max - 1)); [|scan_end].
  byte rd_in c0 E0. destruct (c0 =? _); [|scan_end].
  rewrite !usz_in by lia. byte rd_in c E.
  destruct (c =? 0); [scan_end|].
  destruct (c =? 117); [by apply skipHexEscape_ok|].
  destruct (isSimpleEscape c); [|destruct (iscntrl_ c)];
    scan_end.
Qed.

Lemma skipString_loop_ok f i :
  0 <= i <= max -> (Z.to_nat (max - i) < f)%nat ->
  exists b j, skipString_loop f buf i max = Some (b, j) /\ i <= j <= max.
Proof using Hmax Hlen.
  revert i. induction f as [|f IH]; intros i Hi Hf; [lia|]. cbn.
  zcases; [|scan_end].
  assert (Hrec : forall j, i < j <= max -> exists b k,
            skipString_loop f buf j max = Some (b, k) /\ i <= k <= max).
  { intros j Hj. destruct (IH j) as (b & k & -> & ?); [lia..|].
    scan_end. }
  byte rd_in c E. destruct (c =? QUOTE).
  { scan_end. }
  destruct (c =? BACKSLASH).
  { destruct (skipEscape_ok i Hi) as ([|] & j & -> & Hj); cbn; [by apply Hrec|].
    scan_end. }
  destruct (iscntrl_ c). { scan_end. }
  destruct (skipUTF8_ok i) as ([|] & j & -> & Hj); cbn; [lia|by apply Hrec|].
  scan_end.
Qed.

Lemma skipString_ok : scanner max (fun i => skipString buf i max).
Proof using Hmax Hlen.
  intros i Hi. unfold skipString. rewrite assert_max. cbn. zcases; [|scan_end].
  byte rd_in c E. destruct (c =? _); [|scan_end].
  rewrite usz_in by lia.
  destruct (skipString_loop_ok (fuel max) (i + 1)) as (b & j & -> & ?);
    [lia|apply fuel_enough; lia|]. cbn.
  destruct b; scan_end.
Qed.

(** ** Literals and numbers *)

Lemma skipLiteral_ok lit n :
  0 < n < SIZE_MAX -> n <= zlen lit ->
  scanner max (fun i => skipLiteral buf i max lit n).
Proof using Hmax Hlen.
  intros Hn Hlit i Hi. unfold skipLiteral. rewrite assert_max. cbn.
  destruct (_ && _) eqn:Hc; [|scan_end].
  destruct (strnEq_spec (at_ buf i) lit n) as (r & -> & _);
    [lia|rewrite zlen_at; lia|lia|].
  cbn. destruct r; scan_end.
Qed.

Lemma skipAnyLiteral_ok : scanner max (fun i => skipAnyLiteral buf i max).
Proof using Hmax Hlen.
  intros i Hi. unfold skipAnyLiteral.
  assert (Hmx : 5 < SIZE_MAX) by (vm_compute; done).
  destruct (skipLiteral_ok lit_true 4 ltac:(lia) ltac:(done) i Hi)
    as ([|] & j & -> & Hj); cbn [mbind option_bind]; [scan_end|]. subst j.
  destruct (skipLiteral_ok lit_false 5 ltac:(lia) ltac:(done) i Hi)
    as ([|] & j & -> & Hj); cbn [mbind option_bind]; [scan_end|]. subst j.
  destruct (skipLiteral_ok lit_null 4 ltac:(lia) ltac:(done) i Hi)
    as ([|] & j & -> & Hj); cbn [mbind option_bind]; scan_end.
Qed.

Lemma hexToInt_digit c : isdigit_ c = true -> hexToInt c = c - 48.
Proof.
  unfold hexToInt, isdigit_. intros Hd. rewrite Hd.
  replace ((97 <=? c) && (c <=? 102)) with false by lia.
  replace ((65 <=? c) && (c <=? 70)) with false by lia.
  apply u8_small. lia.
Qed.

(** The index value is -1 or stays below [MAX_INDEX_VALUE]: the [int32_t]
    arithmetic never overflows. *)
Lemma digit_step_range value c :
  isdigit_ c = true -> -1 < value <= MAX_FACTOR ->
  i32 (value * 10 + hexToInt c) = value * 10 + (c - 48) /\
  -1 < value * 10 + (c - 48) <= MAX_INDEX_VALUE + 2.
Proof.
  intros Hd Hv. rewrite hexToInt_digit by done.
  unfold isdigit_, MAX_FACTOR, MAX_INDEX_VALUE in *.
  change (0x7FFFFFF7 / 10) with 214748363 in Hv.
  split; [apply i32_small|]; lia.
Qed.

Lemma skipDigits_loop_ok f i want v :
  0 <= i <= max + 1 -> (Z.to_nat (max - i) < f)%nat -> -1 <= v <= 2 ^ 31 - 1 ->
  exists j v', skipDigits_loop f buf i max want v = Some (j, v') /\
  i <= j <= Z.max i max /\ -1 <= v' <= 2 ^ 31 - 1.
Proof using Hmax Hlen.
  revert i v. induction f as [|f IH]; intros i v Hi Hf Hv; [lia|]. cbn.
  destruct (Z.ltb_spec i max); [|do 2 eexists; split; [done|lia]].
  byte rd_in c E. destruct (isdigit_ c) eqn:Hd; cbn;
    [|do 2 eexists; split; [done|lia]].
  rewrite usz_in by lia.
  edestruct IH as (j & v' & -> & Hj & Hv'); [| | |do 2 eexists; split; [done|]];
    [lia|lia| |lia].
  destruct want; cbn; [|lia]. destruct (Z.ltb_spec (-1) v); [|lia].
  destruct (Z.leb_spec v MAX_FACTOR); [|lia].
  destruct (digit_step_range v c Hd) as [-> ?]; [lia|].
  unfold MAX_INDEX_VALUE in *. lia.
Qed.

Lemma skipDigits_ok want i :
  0 <= i <= max + 1 ->
  exists b j out, skipDigits buf i max want = Some (b, j, out) /\
  (if b : bool then i < j <= max else j = i) /\
  (forall v, out = Some v -> -1 <= v <= 2 ^ 31 - 1).
Proof using Hmax Hlen.
  intros Hi. unfold skipDigits. rewrite assert_max. cbn.
  destruct (skipDigits_loop_ok (fuel max) i want 0) as (j & v & -> & ? & ?);
    [lia|by apply fuel_enough|lia|]. cbn.
  zcases; do 3 eexists; (split; [done|]); (split; [cbn; lia|]).
  - intros w. destruct want; [intros [=]; lia|done].
  - done.
Qed.

Lemma skipDecimals_ok : skipper max (fun i => skipDecimals buf i max).
Proof using Hmax Hlen.
  intros i Hi. unfold skipDecimals. rewrite assert_max. cbn.
  inb; [|eexists; split; [done|lia]].
  byte rd_in c E. destruct (c =? _); [|eexists; split; [done|lia]].
  rewrite usz_in by lia.
  destruct (skipDigits_ok false (i + 1)) as ([|] & j & o & -> & Hj & _);
    [lia| |]; cbn; eexists; (split; [done|]); cbn in Hj; lia.
Qed.

Lemma skipExponent_ok : skipper max (fun i => skipExponent buf i max).
Proof using Hmax Hlen.
  intros i Hi. unfold skipExponent. rewrite assert_max. cbn.
  inb; [|eexists; split; [done|lia]].
  byte rd_in c E. destruct (_ || _); [|eexists; split; [done|lia]].
  rewrite usz_in by lia.
  assert (Hsign : exists k, (if i + 1 <? max then
      s ← rd buf (i + 1);
      Some (if (s =? 45) || (s =? 43) then usz (i + 1 + 1) else i + 1)
    else Some (i + 1)) = Some k /\ i + 1 <= k <= max).
  { inb; [|eexists; split; [done|lia]]. byte rd_in s Es.
    destruct (_ || _); eexists; (split; [done|]); rewrite ?usz_in by lia; lia. }
  destruct Hsign as (k & -> & ?). cbn.
  destruct (skipDigits_ok false k) as ([|] & j & o & -> & Hj & _);
    [lia| |]; cbn; eexists; (split; [done|]); cbn in Hj; lia.
Qed.

Lemma skipNumber_ok : scanner max (fun i => skipNumber buf i max).
Proof using Hmax Hlen.
  intros i Hi. unfold skipNumber. rewrite assert_max. cbn.
  assert (Hsign : exists k, (if i <? max then
      c ← rd buf i; Some (if c =? 45 then usz (i + 1) else i)
    else Some i) = Some k /\ i <= k <= Z.max i max).
  { inb; [|eexists; split; [done|lia]]. byte rd_in s Es.
    destruct (_ =? _); eexists; (split; [done|]); rewrite ?usz_in by lia; lia. }
  destruct Hsign as (k & -> & ?). cbn.
  assert (Hint : exists r m, (if k <? max then
      c ← rd buf k;
      if c =? 48 then Some (true, usz (k + 1))
      else '(ok, i, _) ← skipDigits buf k max false; Some (ok, i)
    else Some (false, k)) = Some (r, m) /\
    (r = true -> i < m <= max)).
  { inb; [|by do 2 eexists]. byte rd_in c E. destruct (c =? 48).
    - do 2 eexists. split; [done|]. rewrite usz_in by lia. lia.
    - destruct (skipDigits_ok false k) as (b & j & o & -> & Hj & _); [lia|].
      cbn. do 2 eexists. split; [done|]. intros ->. lia. }
  destruct Hint as (r & m & -> & Hm). cbn. destruct r; [|scan_end].
  specialize (Hm eq_refl).
  destruct (skipDecimals_ok m) as (d & -> & ?); [lia|]. cbn.
  destruct (skipExponent_ok d) as (e & -> & ?); [lia|]. cbn. scan_end.
Qed.

Lemma skipAnyScalar_ok : scanner max (fun i => skipAnyScalar buf i max).
Proof using Hmax Hlen.
  intros i Hi. unfold skipAnyScalar.
  destruct (skipString_ok i Hi) as ([|] & j & -> & Hj); cbn; [scan_end|]. subst j.
  destruct (skipAnyLiteral_ok i Hi) as ([|] & j & -> & Hj); cbn; [scan_end|]. subst j.
  destruct (skipNumber_ok i Hi) as ([|] & j & -> & Hj); cbn; scan_end.
Qed.

(** ** Collections *)

Lemma skipSpaceAndComma_ok i :
  0 <= i <= max -> exists b j, skipSpaceAndComma buf i max = Some (b, j) /\
  i <= j <= max /\ (b = true -> i < j < max).
Proof using Hmax Hlen.
  intros Hi. unfold skipSpaceAndComma. rewrite assert_max. cbn.
  destruct (skipSpace_ok i) as (k & -> & ?); [lia|]. cbn.
  inb; [|do 2 eexists; split; [done|]; split; [lia|done]].
  byte rd_in c E. destruct (c =? _);
    [|do 2 eexists; split; [done|]; split; [lia|done]].
  rewrite usz_in by lia.
  destruct (skipSpace_ok (k + 1)) as (m & -> & ?); [lia|]. cbn.
  inb; [|do 2 eexists; split; [done|]; split; [lia|done]].
  byte rd_in d Ed. destruct (isCloseBracket_ d); cbn;
    do 2 eexists; (split; [done|]); split; try lia; done.
Qed.

Lemma skipArrayScalars_loop_ok f i :
  0 <= i <= max -> (Z.to_nat (max - i) < f)%nat ->
  exists j, skipArrayScalars_loop f buf i max = Some j /\ i <= j <= max.
Proof using Hmax Hlen.
  revert i. induction f as [|f IH]; intros i Hi Hf; [lia|]. cbn.
  inb; [|eexists; split; [done|lia]].
  destruct (skipAnyScalar_ok i) as ([|] & j & -> & Hj); [lia| |]; cbn;
    [|eexists; split; [done|lia]].
  destruct (skipSpaceAndComma_ok j) as (b & k & -> & ? & Hk); [lia|]. cbn.
  destruct b; cbn; [|eexists; split; [done|lia]]. specialize (Hk eq_refl).
  destruct (IH k) as (m & -> & ?); [lia..|]. eexists. split; [done|lia].
Qed.

Lemma skipObjectScalars_loop_ok f i start :
  0 <= i <= max -> 0 <= start <= i -> (Z.to_nat (max - i) < f)%nat ->
  exists j, skipObjectScalars_loop f buf i start max = Some j /\
  start <= j <= max.
Proof using Hmax Hlen.
  revert i start. induction f as [|f IH]; intros i start Hi Hs Hf; [lia|]. cbn.
  inb; [|eexists; split; [done|lia]].
  destruct (skipString_ok i) as ([|] & j & -> & Hj); [lia| |]; cbn;
    [|eexists; split; [done|lia]].
  destruct (skipSpace_ok j) as (k & -> & ?); [lia|]. cbn.
  assert (Hcol : exists b, (if k <? max then
      c ← rd buf k; Some (negb (c =? COLON)) else Some false) = Some b).
  { inb; [|by eexists]. byte rd_in c E. by eexists. }
  destruct Hcol as [[|] ->]; cbn; [eexists; split; [done|lia]|].
  rewrite usz_in by lia.
  destruct (skipSpace_ok (k + 1)) as (m & -> & ?); [lia|]. cbn.
  assert (Hnest : exists b, (if m <? max then
      c ← rd buf m; Some (isOpenBracket_ c) else Some false) = Some b /\
      (b = true -> m < max)).
  { inb; [|by eexists]. byte rd_in c E. eexists. split; [done|lia]. }
  destruct Hnest as ([|] & -> & ?); cbn; [eexists; split; [done|lia]|].
  destruct (skipAnyScalar_ok m) as ([|] & n & -> & Hn); [lia| |]; cbn;
    [|eexists; split; [done|lia]].
  destruct (skipSpaceAndComma_ok n) as (b & p & -> & ? & Hp); [lia|]. cbn.
  destruct b; cbn; [|eexists; split; [done|lia]]. specialize (Hp eq_refl).
  destruct (IH p p) as (q & -> & ?); [lia..|]. eexists. split; [done|lia].
Qed.

Lemma skipScalars_ok mode i :
  isOpenBracket_ mode = true -> 0 <= i <= max ->
  exists j, skipScalars buf i max mode = Some j /\ i <= j <= max.
Proof using Hmax Hlen.
  intros Hm Hi. unfold skipScalars. rewrite Hm. cbn.
  destruct (skipSpace_ok i) as (k & -> & ?); [lia|]. cbn.
  unfold skipArrayScalars, skipObjectScalars. rewrite assert_max. cbn.
  destruct (mode =? _).
  - destruct (skipArrayScalars_loop_ok (fuel max) k) as (j & -> & ?);
      [lia|apply fuel_enough; lia|]. eexists. split; [done|lia].
  - destruct (skipObjectScalars_loop_ok (fuel max) k k) as (j & -> & ?);
      [lia..|apply fuel_enough; lia|]. eexists. split; [done|lia].
Qed.

(** The nesting stack: full size, and an opening bracket at every level up
    to the current depth. *)
Definition stack_wf (depth : Z) (stack : list Z) : Prop :=
  zlen stack = JSON_MAX_DEPTH /\ -1 <= depth < JSON_MAX_DEPTH /\
  forall k, 0 <= k <= depth ->
    exists t, rd stack k = Some t /\ isOpenBracket_ t = true.

Lemma stack_push depth stack c :
  stack_wf depth stack -> depth + 1 < JSON_MAX_DEPTH ->
  isOpenBracket_ c = true ->
  stack_wf (depth + 1) (<[Z.to_nat (depth + 1) := c]> stack).
Proof using.
  clear Hlen Hmax. intros (Hl & Hd & Hs) Hlt Hc. unfold stack_wf, zlen in *.
  rewrite length_insert. split_and!; [done|lia..|].
  intros k Hk. rewrite rd_lookup by lia. destruct (decide (k = depth + 1)) as [->|].
  - exists c. split; [|done]. apply list_lookup_insert_eq. lia.
  - destruct (Hs k) as (t & Ht & ?); [lia|]. exists t. split; [|done].
    rewrite list_lookup_insert_ne by lia. by rewrite rd_lookup in Ht by lia.
Qed.

Lemma stack_pop depth stack :
  stack_wf depth stack -> 0 <= depth -> stack_wf (depth - 1) stack.
Proof.
  intros (Hl & Hd & Hs) H0. split_and!; [done|lia..|].
  intros k Hk. apply Hs. lia.
Qed.

Lemma skipCollection_step_ok i depth stack :
  0 <= i < max -> stack_wf depth stack ->
  exists i' depth' stack' ret,
    skipCollection_step buf i max depth stack = Some (i', depth', stack', ret) /\
    i < i' <= max /\ (ret = JSONPartial -> stack_wf depth' stack').
Proof using Hmax Hlen.
  intros Hi Hs. unfold skipCollection_step. byte rd_in c E.
  rewrite usz_in by lia. destruct (_ || _) eqn:Hopen.
  { destruct (Z.eqb_spec (depth + 1) JSON_MAX_DEPTH).
    { do 4 eexists. split; [done|]. split; [lia|done]. }
    pose proof Hs as (Hl & Hd & _).
    destruct (rd_app_lt stack (depth + 1)) as [x ->]; [lia|]. cbn.
    destruct (skipScalars_ok c (i + 1)) as (j & -> & ?); [done|lia|]. cbn.
    do 4 eexists. split; [done|]. split; [lia|]. intros _.
    apply stack_push; [done|lia|done]. }
  destruct ((c =? RBRACE) || (c =? RBRACK)) eqn:Hclose.
  2: { do 4 eexists. split; [done|]. split; [lia|done]. }
  assert (Hm : exists b, (if 0 <? depth then
      t ← rd stack depth; Some (isMatchingBracket_ t c) else Some false) = Some b
      /\ (b = true -> 0 < depth)).
  { inb; [|by eexists]. destruct Hs as (_ & _ & Hs).
    destruct (Hs depth) as (t & -> & _); [lia|]. by eexists. }
  destruct Hm as ([|] & -> & Hpos); cbn.
  - specialize (Hpos eq_refl).
    destruct (skipSpaceAndComma_ok (i + 1)) as (b & j & -> & ? & Hb); [lia|]. cbn.
    destruct b; cycle 1.
    { do 4 eexists. split; [done|]. split; [lia|]. intros _. apply stack_pop; auto; lia. }
    pose proof Hs as (_ & _ & Ht).
    destruct (Ht (depth - 1)) as (t & -> & Hto); [lia|]. cbn.
    destruct (skipScalars_ok t j) as (k & -> & ?); [done|lia|]. cbn.
    do 4 eexists. split; [done|]. split; [lia|]. intros _. apply stack_pop; auto; lia.
  - do 4 eexists. split; [done|]. split; [lia|]. by destruct (_ =? _).
Qed.

Lemma skipCollection_loop_ok f i depth stack :
  0 <= i <= max -> stack_wf depth stack -> (Z.to_nat (max - i) < f)%nat ->
  exists ret j, skipCollection_loop f buf i max depth stack = Some (ret, j) /\
  i <= j <= max /\ (ret = JSONSuccess -> i < j).
Proof using Hmax Hlen.
  revert i depth stack. induction f as [|f IH]; intros i depth stack Hi Hs Hf; [lia|].
  cbn. inb; [|do 2 eexists; split; [done|]; split; [lia|done]].
  destruct (skipCollection_step_ok i depth stack) as
    (i' & d' & s' & ret & -> & ? & Hwf); [lia|done|]. cbn.
  case_decide as Hr.
  - destruct (IH i' d' s') as (r & j & -> & ? & ?); [lia|auto|lia|].
    do 2 eexists. split; [done|]. split; lia.
  - do 2 eexists. split; [done|]. split; lia.
Qed.

Lemma stack_wf_init :
  stack_wf (-1) (replicate (Z.to_nat JSON_MAX_DEPTH) 0).
Proof. split_and!; [done..|]. intros. lia. Qed.

Lemma skipCollection_ok i :
  0 <= i <= max -> exists ret j, skipCollection buf i max = Some (ret, j) /\
  (if decide (ret = JSONSuccess) then i < j <= max else j = i).
Proof using Hmax Hlen.
  intros Hi. unfold skipCollection. rewrite assert_max. cbn [mbind option_bind].
  destruct (skipCollection_loop_ok (fuel max) i (-1)
    (replicate (Z.to_nat JSON_MAX_DEPTH) 0)) as (r & j & -> & ? & ?);
    [lia|apply stack_wf_init|apply fuel_enough; lia|]. cbn.
  do 2 eexists. split; [done|]. case_decide; [|done]. auto with lia.
Qed.

End Safety.
