(* ===== verification/CoreJsonSearch.v ===== *)
(** * The JSON entry points: safety and the slices they return

    [JSON_Validate], [JSON_SearchConst] and [JSON_Iterate] never leave their
    buffers, and what a search returns is a slice of the buffer. *)

From S2P Require Import Prelude CoreJson CoreJsonSafety.
Import Json.

Section Values.
Context (buf : list Z) (max : Z).
Context (Hmax : 0 < max < SIZE_MAX) (Hlen : max <= zlen buf).

(** A string is at least its two quotation marks long. *)
Lemma skipString_loop_len f i j :
  0 <= i <= max -> (Z.to_nat (max - i) < f)%nat ->
  skipString_loop f buf i max = Some (true, j) -> i < j <= max.
Proof using Hmax Hlen.
  revert i. induction f as [|f IH]; intros i Hi Hf; [lia|]. cbn.
  inb; [|done]. byte (rd_in buf max Hmax Hlen) c E. destruct (c =? QUOTE).
  { intros [= <-]. rewrite (usz_in max) by lia. lia. }
  destruct (c =? BACKSLASH).
  { destruct (skipEscape_ok buf max Hmax Hlen i Hi) as ([|] & k & -> & Hk); cbn; [|done].
    intros Hr. apply IH in Hr; lia. }
  destruct (iscntrl_ c); [done|].
  destruct (skipUTF8_ok buf max Hmax Hlen i) as ([|] & k & -> & Hk); cbn; [lia| |done].
  intros Hr. apply IH in Hr; lia.
Qed.

Lemma skipString_len i j :
  0 <= i <= max + 1 -> skipString buf i max = Some (true, j) -> i + 2 <= j <= max.
Proof using Hmax Hlen.
  intros Hi. unfold skipString. rewrite (assert_max max Hmax). cbn. inb; [|done].
  byte (rd_in buf max Hmax Hlen) c E. destruct (c =? _); [|done].
  rewrite (usz_in max Hmax) by lia.
  destruct (skipString_loop _ _ _ _) as [[[|] k]|] eqn:Hl; cbn; [|done..].
  intros [= <-]. apply skipString_loop_len in Hl; [lia..|].
  apply fuel_enough; lia.
Qed.

(** ** Values and pairs *)

Definition value_in (i : Z) (v : value_out) : Prop :=
  v_index v = i /\ v_next v = i + v_length v /\ 0 < v_length v /\
  v_next v <= max /\
  (rd buf i = Some QUOTE -> 2 <= v_length v).

(** Only [skipString] accepts an opening quotation mark. *)
Lemma quote_not_literal i :
  0 <= i < max -> rd buf i = Some QUOTE -> skipAnyLiteral buf i max = Some (false, i).
Proof using Hmax Hlen.
  intros Hi Hq. unfold skipAnyLiteral, skipLiteral.
  rewrite (assert_max max Hmax). cbn [mbind option_bind].
  assert (Hlit : forall lit n, rd lit 0 <> Some QUOTE -> 0 < n -> n <= zlen lit ->
    n < SIZE_MAX ->
    (if (i <? max) && (n <=? max - i) then strnEq (at_ buf i) lit n
     else Some false) = Some false).
  { intros lit n Hne Hn Hnl Hns. destruct (_ && _) eqn:Hc; [|done].
    destruct (strnEq_loop_spec (fuel n) (at_ buf i) lit 0 n) as (r & Hr & Hiff);
      [lia|lia|rewrite zlen_at; lia|lia|unfold fuel; lia|].
    unfold strnEq. rewrite Hr. destruct r; [|done]. exfalso. apply Hne.
    rewrite <- (proj1 Hiff eq_refl 0 ltac:(lia)), rd_at, Z.add_0_r by lia. done. }
  do 3 (rewrite Hlit by (vm_compute; done); cbn [mbind option_bind]). done.
Qed.

Lemma quote_not_number i :
  0 <= i < max -> rd buf i = Some QUOTE -> skipNumber buf i max = Some (false, i).
Proof using Hmax Hlen.
  intros Hi Hq. unfold skipNumber. rewrite (assert_max max Hmax). cbn [mbind option_bind].
  inb. rewrite Hq. cbn. inb. rewrite Hq. cbn.
  unfold skipDigits. rewrite (assert_max max Hmax). cbn [mbind option_bind].
  unfold fuel. cbn [skipDigits_loop]. inb. rewrite Hq. cbn.
  change (isdigit_ QUOTE) with false. cbn. rewrite Z.ltb_irrefl. done.
Qed.

Lemma quote_not_collection i :
  0 <= i < max -> rd buf i = Some QUOTE ->
  skipCollection buf i max = Some (JSONIllegalDocument, i).
Proof using Hmax Hlen.
  intros Hi Hq. unfold skipCollection. rewrite (assert_max max Hmax).
  cbn [mbind option_bind]. unfold fuel. cbn [skipCollection_loop]. inb.
  unfold skipCollection_step. rewrite Hq. reflexivity.
Qed.

Lemma nextValue_ok i :
  0 <= i <= max -> exists r, nextValue buf i max = Some r /\
  (forall v, r = Some v -> value_in i v).
Proof using Hmax Hlen.
  intros Hi. unfold nextValue. rewrite (assert_max max Hmax). cbn [mbind option_bind].
  destruct (skipAnyScalar buf i max) as [[[|] j]|] eqn:Hs; cbn [mbind option_bind].
  - destruct (skipAnyScalar_ok buf max Hmax Hlen i) as (b & j' & Hs' & Hj); [lia|].
    rewrite Hs in Hs'. injection Hs' as <- <-. eexists. split; [done|].
    intros v [= <-]. unfold value_in; cbn. rewrite usz_small by lia.
    split_and!; [lia..|]. intros Hq. unfold skipAnyScalar in Hs.
    assert (Him : 0 <= i < max) by lia.
    destruct (skipString buf i max) as [[[|] k]|] eqn:Hstr; cbn in Hs; [| |done].
    + injection Hs as ->. apply skipString_len in Hstr; lia.
    + destruct (skipString_ok buf max Hmax Hlen i) as (b & k' & Hk & Hk'); [lia|].
      rewrite Hstr in Hk. injection Hk as <- <-. cbn in Hk'. subst k.
      rewrite quote_not_literal in Hs by done. cbn in Hs.
      rewrite quote_not_number in Hs by done. done.
  - destruct (skipAnyScalar_ok buf max Hmax Hlen i) as (b & j' & Hs' & Hj); [lia|].
    rewrite Hs in Hs'. injection Hs' as <- <-. cbn in Hj. subst j.
    destruct (skipCollection_ok buf max Hmax Hlen i Hi) as (ret & j & Hc & Hj).
    rewrite Hc. cbn [mbind option_bind]. eexists. split; [done|].
    case_decide; [|done]. intros v [= <-]. unfold value_in; cbn.
    rewrite usz_small by lia. split_and!; [lia..|]. intros Hq.
    rewrite quote_not_collection in Hc by (done || lia). congruence.
  - destruct (skipAnyScalar_ok buf max Hmax Hlen i) as (b & j' & Hs' & _); [lia|].
    congruence.
Qed.

Definition pair_in (i : Z) (p : pair_out) : Prop :=
  p_key p = i + 1 /\ 0 <= p_keyLength p /\ p_key p + p_keyLength p < max /\
  p_key p + p_keyLength p < v_index (p_value p) /\
  value_in (v_index (p_value p)) (p_value p).

Lemma nextKeyValuePair_ok i :
  0 <= i <= max -> exists r, nextKeyValuePair buf i max = Some r /\
  (forall p, r = Some p -> pair_in i p).
Proof using Hmax Hlen.
  intros Hi. unfold nextKeyValuePair. rewrite (assert_max max Hmax).
  cbn [mbind option_bind].
  destruct (skipString_ok buf max Hmax Hlen i) as (b & j & Hs & Hj); [lia|].
  rewrite Hs. cbn [mbind option_bind]. destruct b; cbn [negb]; [|by eexists].
  apply skipString_len in Hs; [|lia].
  destruct (skipSpace_ok buf max Hmax Hlen j) as (k & -> & ?); [lia|].
  cbn [mbind option_bind].
  assert (Hcol : exists b, (if k <? max then
      c ← rd buf k; Some (c =? COLON) else Some false) = Some b /\
      (b = true -> k < max)).
  { inb; [|by eexists]. byte (rd_in buf max Hmax Hlen) c E. by eexists. }
  destruct Hcol as ([|] & -> & Hk); cbn [mbind option_bind negb]; [|by eexists].
  specialize (Hk eq_refl). rewrite !(usz_in max Hmax) by lia.
  destruct (skipSpace_ok buf max Hmax Hlen (k + 1)) as (m & -> & ?); [lia|].
  cbn [mbind option_bind].
  destruct (nextValue_ok m) as ([v|] & -> & Hv); [lia| |];
    cbn [mbind option_bind]; eexists; (split; [done|]); [|done].
  intros p [= <-]. destruct (Hv _ eq_refl) as (Hidx & Hrest).
  unfold pair_in; cbn. rewrite Hidx.
  split_and!; [lia..|]. by split.
Qed.

(** ** Object and array search *)

Definition slice_in (r : option (Z * Z)) : Prop :=
  forall v l, r = Some (v, l) -> 0 <= v /\ 0 < l /\ v + l <= max /\
  (rd buf v = Some QUOTE -> 2 <= l).

Lemma value_slice i v :
  0 <= i -> value_in i v -> slice_in (Some (v_index v, v_length v)).
Proof. intros Hi (-> & ? & ? & ? & ?) ?? [= <- <-]. split_and!; auto; lia. Qed.

Context (query : list Z) (queryLength : Z).
Context (Hq : 0 <= queryLength < SIZE_MAX) (Hql : queryLength <= zlen query).

Lemma objectSearch_loop_ok f i :
  0 <= i <= max -> (Z.to_nat (max - i) < f)%nat ->
  exists r, objectSearch_loop f buf i max query queryLength = Some r /\
  slice_in (v ← r; Some (v_index v, v_length v)).
Proof using Hmax Hlen Hq Hql.
  revert i. induction f as [|f IH]; intros i Hi Hf; [lia|]. cbn.
  inb; [|by eexists].
  destruct (nextKeyValuePair_ok i) as ([p|] & -> & Hp); [lia| |]; cbn;
    [|by eexists].
  destruct (Hp _ eq_refl) as (Hk & Hkl & Hkm & Hkv & Hv).
  assert (Hhit : exists b, (if queryLength =? p_keyLength p
     then strnEq query (at_ buf (p_key p)) (p_keyLength p) else Some false) = Some b).
  { destruct (Z.eqb_spec queryLength (p_keyLength p)); [|by eexists].
    destruct (strnEq_spec query (at_ buf (p_key p)) (p_keyLength p))
      as (r & -> & _); [lia|lia|rewrite zlen_at; lia|by eexists]. }
  destruct Hhit as [[|] ->]; cbn.
  { eexists. split; [done|]. cbn. eapply value_slice, Hv. lia. }
  destruct Hv as (Hvi & Hvn & Hvl & Hvm & _).
  destruct (skipSpaceAndComma_ok buf max Hmax Hlen (v_next (p_value p)))
    as ([|] & j & -> & ? & Hj); [lia| |]; cbn; [|by eexists].
  apply IH; lia.
Qed.

Lemma objectSearch_ok :
  exists r, objectSearch buf max query queryLength = Some r /\ slice_in r.
Proof using Hmax Hlen Hq Hql.
  unfold objectSearch.
  destruct (skipSpace_ok buf max Hmax Hlen 0) as (i & -> & ?); [lia|].
  cbn [mbind option_bind]. inb; [|by eexists].
  byte (rd_in buf max Hmax Hlen) c E. destruct (c =? _); [|by eexists].
  rewrite (usz_in max Hmax) by lia.
  destruct (skipSpace_ok buf max Hmax Hlen (i + 1)) as (j & -> & ?); [lia|].
  cbn [mbind option_bind].
  destruct (objectSearch_loop_ok (fuel max) j) as (r & -> & ?);
    [lia|apply fuel_enough; lia|]. cbn. by eexists.
Qed.

Lemma arraySearch_loop_ok f i idx cur :
  0 <= i <= max -> (Z.to_nat (max - i) < f)%nat ->
  exists r, arraySearch_loop f buf i max idx cur = Some r /\
  slice_in (v ← r; Some (v_index v, v_length v)).
Proof using Hmax Hlen.
  revert i cur. induction f as [|f IH]; intros i cur Hi Hf; [lia|]. cbn.
  inb; [|by eexists].
  destruct (nextValue_ok i) as ([v|] & -> & Hv); [lia| |]; cbn; [|by eexists].
  specialize (Hv _ eq_refl). destruct (cur =? idx).
  { eexists. split; [done|]. cbn. eapply value_slice, Hv. lia. }
  destruct Hv as (Hvi & Hvn & Hvl & Hvm & _).
  destruct (skipSpaceAndComma_ok buf max Hmax Hlen (v_next v))
    as ([|] & j & -> & ? & Hj); [lia| |]; cbn; [|by eexists].
  apply IH; lia.
Qed.

Lemma arraySearch_ok idx :
  exists r, arraySearch buf max idx = Some r /\ slice_in r.
Proof using Hmax Hlen.
  unfold arraySearch.
  destruct (skipSpace_ok buf max Hmax Hlen 0) as (i & -> & ?); [lia|].
  cbn [mbind option_bind]. inb; [|by eexists].
  byte (rd_in buf max Hmax Hlen) c E. destruct (c =? _); [|by eexists].
  rewrite (usz_in max Hmax) by lia.
  destruct (skipSpace_ok buf max Hmax Hlen (i + 1)) as (j & -> & ?); [lia|].
  cbn [mbind option_bind].
  destruct (arraySearch_loop_ok (fuel max) j idx 0) as (r & -> & ?);
    [lia|apply fuel_enough; lia|]. cbn. by eexists.
Qed.

Lemma skipQueryPart_loop_ok f i :
  0 <= i <= max -> (Z.to_nat (max - i) < f)%nat ->
  exists j, skipQueryPart_loop f buf i max = Some j /\ i <= j <= max.
Proof using Hmax Hlen.
  revert i. induction f as [|f IH]; intros i Hi Hf; [lia|]. cbn.
  inb; [|eexists; split; [done|lia]].
  byte (rd_in buf max Hmax Hlen) c E.
  destruct (_ && _); [|eexists; split; [done|lia]].
  rewrite (usz_in max Hmax) by lia.
  destruct (IH (i + 1)) as (j & -> & ?); [lia..|]. eexists. split; [done|lia].
Qed.

Lemma skipQueryPart_ok i :
  0 <= i <= max -> exists r, skipQueryPart buf i max = Some r /\
  (forall j n, r = Some (j, n) -> i < j <= max /\ n = j - i).
Proof using Hmax Hlen.
  intros Hi. unfold skipQueryPart. rewrite (assert_max max Hmax).
  cbn [mbind option_bind].
  destruct (skipQueryPart_loop_ok (fuel max) i) as (j & -> & ?);
    [lia|apply fuel_enough; lia|]. cbn [mbind option_bind].
  eexists. split; [done|]. inb; [|done]. intros ?? [= <- <-].
  rewrite usz_small; lia.
Qed.

End Values.

(** ** Nested queries *)

Section Queries.
Context (buf : list Z) (max : Z).
Context (Hmax : 0 < max < SIZE_MAX) (Hlen : max <= zlen buf).
Context (query : list Z) (queryLength : Z).
Context (Hq : 0 < queryLength < SIZE_MAX) (Hql : queryLength <= zlen query).

(** The window of the buffer a partial query has narrowed down to. *)
Definition window (start length : Z) : Prop :=
  0 <= start /\ 0 < length /\ start + length <= max.

(** A window found by a search step, which knows its first byte. *)
Definition found_window (start length : Z) : Prop :=
  window start length /\ (rd buf start = Some QUOTE -> 2 <= length).

Lemma at_window start length :
  window start length ->
  0 < length < SIZE_MAX /\ length <= zlen (at_ buf start).
Proof using Hmax Hlen.
  intros (? & ? & ?). rewrite zlen_at by lia. lia.
Qed.

Lemma slice_window start length v l :
  window start length -> slice_in (at_ buf start) length (Some (v, l)) ->
  usz (start + v) = start + v /\ found_window (start + v) l.
Proof using Hmax Hlen.
  intros (? & ? & ?) Hs. destruct (Hs _ _ eq_refl) as (? & ? & ? & Hquote).
  rewrite usz_small by lia. split; [done|]. split; [unfold window; lia|].
  intros Hr. apply Hquote. by rewrite rd_at by lia.
Qed.

(** What one query part produces: the index behind it and the search result. *)
Definition part_ok (i start length : Z)
  (r : option (Z * option (Z * Z))) : Prop :=
  forall i' found, r = Some (i', found) ->
    i < i' <= queryLength /\ slice_in (at_ buf start) length found.

Lemma index_part_ok i start length :
  0 <= i < queryLength -> window start length ->
  exists r,
    ('(_, j, out) ← skipDigits query (usz (i + 1)) queryLength true;
     closed ← (if j <? queryLength
               then d ← rd query j; Some (isSquareClose_ d) else Some false);
     if (default (-1) out <? 0) || negb closed then Some None
     else
       found ← arraySearch (at_ buf start) length (u32 (default (-1) out));
       Some (Some (usz (j + 1), found))) = Some r /\ part_ok i start length r.
Proof using Hmax Hlen Hq Hql.
  intros Hi Hw. rewrite usz_small by lia.
  destruct (skipDigits_ok query queryLength Hq Hql true (i + 1))
    as (b & j & out & -> & Hj & _); [lia|]. cbn [mbind option_bind].
  assert (Hj' : i + 1 <= j <= queryLength) by (destruct b; lia).
  assert (Hc : exists b, (if j <? queryLength
      then d ← rd query j; Some (isSquareClose_ d) else Some false) = Some b
      /\ (b = true -> j < queryLength)).
  { inb; [|by eexists]. byte (rd_in query queryLength Hq Hql) d E. by eexists. }
  destruct Hc as (cl & -> & Hcl). cbn [mbind option_bind].
  destruct (_ || _) eqn:Hbad; [by eexists|].
  destruct (at_window start length Hw) as [Hl1 Hl2].
  destruct (arraySearch_ok _ _ Hl1 Hl2 (u32 (default (-1) out)))
    as (r & -> & Hr). cbn [mbind option_bind]. eexists. split; [done|].
  intros ? ? [= <- <-]. split; [|done].
  destruct cl; [|by rewrite orb_true_r in Hbad]. specialize (Hcl eq_refl).
  rewrite usz_small by lia; lia.
Qed.

Lemma key_part_ok i start length :
  0 <= i < queryLength -> window start length ->
  exists r,
    (part ← skipQueryPart query i queryLength;
     match part with
     | None => Some None
     | Some (j, keyLength) =>
       if j =? queryLength - 1 then Some None
       else
         found ← objectSearch (at_ buf start) length (at_ query i) keyLength;
         Some (Some (j, found))
     end) = Some r /\ part_ok i start length r.
Proof using Hmax Hlen Hq Hql.
  intros Hi Hw.
  destruct (skipQueryPart_ok query queryLength Hq Hql i)
    as ([[j n]|] & -> & Hp); [lia| |]; cbn [mbind option_bind]; [|by eexists].
  destruct (Hp _ _ eq_refl) as [Hj Hn]. destruct (_ =? _); [by eexists|].
  destruct (at_window start length Hw) as [Hl1 Hl2].
  destruct (objectSearch_ok _ _ Hl1 Hl2 (at_ query i) n) as (r & -> & Hr);
    [lia|rewrite zlen_at; lia|]. cbn [mbind option_bind].
  eexists. split; [done|]. intros ? ? [= <- <-]. auto with lia.
Qed.

Lemma multiSearch_step_ok i start length :
  0 <= i < queryLength -> window start length ->
  exists r, multiSearch_step buf query queryLength i start length = Some r /\
  match r with
  | inl st => st <> JSONSuccess
  | inr (i', start', length') =>
    i < i' <= queryLength /\ found_window start' length'
  end.
Proof using Hmax Hlen Hq Hql.
  intros Hi Hw. unfold multiSearch_step.
  byte (rd_in query queryLength Hq Hql) c E.
  assert (Hpart : exists r,
    (if isSquareOpen_ c then
         '(_, j, out) ← skipDigits query (usz (i + 1)) queryLength true;
         closed ← (if j <? queryLength
                   then d ← rd query j; Some (isSquareClose_ d)
                   else Some false);
         if (default (-1) out <? 0) || negb closed then Some None
         else
           found ← arraySearch (at_ buf start) length (u32 (default (-1) out));
           Some (Some (usz (j + 1), found))
       else
         part ← skipQueryPart query i queryLength;
         match part with
         | None => Some None
         | Some (j, keyLength) =>
           if j =? queryLength - 1 then Some None
           else
             found ← objectSearch (at_ buf start) length (at_ query i) keyLength;
             Some (Some (j, found))
         end) = Some r /\ part_ok i start length r).
  { destruct (isSquareOpen_ c); [by apply index_part_ok|by apply key_part_ok]. }
  destruct Hpart as (r & -> & Hr). cbn [mbind option_bind].
  destruct r as [[j [[v l]|]]|]; [|by eexists..].
  destruct (Hr _ _ eq_refl) as [Hj Hs].
  destruct (slice_window start length v l Hw Hs) as [-> Hf].
  assert (Hsep : exists b, (if j <? queryLength
      then d ← rd query j; Some (isSeparator_ d) else Some false) = Some b
      /\ (b = true -> j < queryLength)).
  { inb; [|by eexists]. byte (rd_in query queryLength Hq Hql) d Ed. by eexists. }
  destruct Hsep as (b & -> & Hb). cbn [mbind option_bind].
  eexists. split; [done|]. split; [|done].
  destruct b; [|lia]. rewrite usz_small; lia.
Qed.

Lemma multiSearch_loop_ok f i start length :
  0 <= i <= queryLength -> window start length ->
  (i = queryLength -> found_window start length) ->
  (Z.to_nat (queryLength - i) < f)%nat ->
  exists st v l, multiSearch_loop f buf query queryLength i start length
    = Some (st, v, l) /\ (st = JSONSuccess -> found_window v l).
Proof using Hmax Hlen Hq Hql.
  revert i start length. induction f as [|f IH]; intros i start length Hi Hw He Hf; [lia|].
  cbn. inb; cycle 1.
  { do 3 eexists. split; [done|]. intros _. apply He. lia. }
  destruct (multiSearch_step_ok i start length) as (r & -> & Hr); [lia|done|]. cbn.
  destruct r as [st|[[i' start'] length']].
  { do 3 eexists. by split. }
  destruct Hr as [? [Hw' ?]]. apply IH; [lia|done|by intros; split|lia].
Qed.

Lemma multiSearch_ok :
  exists st v l, multiSearch buf max query queryLength = Some (st, v, l) /\
  (st = JSONSuccess -> found_window v l).
Proof using Hmax Hlen Hq Hql.
  unfold multiSearch. replace ((0 <? max) && (0 <? queryLength)) with true by lia.
  cbn [mbind option_bind assert_].
  apply multiSearch_loop_ok; [lia|unfold window; lia|lia|unfold fuel; lia].
Qed.

End Queries.

(** ** Entry points *)

(** C32: [JSON_Validate] is total and memory safe: whatever the bytes, it
    returns a status without reading outside the [max] bytes it was given or
    its 32-entry nesting stack, without failing an assertion, and within the
    loop bound [max]. *)
Theorem JSON_Validate_safe (buf : list Z) (max : Z)
  (Hmax : 0 <= max < SIZE_MAX) (Hlen : max <= zlen buf) :
  exists st, JSON_Validate (Some buf) max = Some st.
Proof.
  cbn. destruct (Z.eqb_spec max 0) as [|Hne]; [by eexists|].
  assert (Hm : 0 < max < SIZE_MAX) by lia.
  destruct (skipSpace_ok buf max Hm Hlen 0) as (i & -> & ?); [lia|].
  cbn [mbind option_bind].
  destruct (skipAnyScalar_ok buf max Hm Hlen i) as (b & j & -> & Hj); [lia|].
  cbn [mbind option_bind].
  assert (Hc : exists ret k, (if b then Some (JSONSuccess, j)
             else skipCollection buf j max) = Some (ret, k) /\ 0 <= k <= max).
  { destruct b; [do 2 eexists; split; [done|lia]|]. subst j.
    destruct (skipCollection_ok buf max Hm Hlen i) as (ret & k & -> & Hk); [lia|].
    do 2 eexists. split; [done|]. case_decide; lia. }
  destruct Hc as (ret & k & -> & ?). cbn [mbind option_bind].
  case_decide; [|by eexists]. inb; [|by eexists].
  destruct (skipSpace_ok buf max Hm Hlen k) as (m & -> & ?); [lia|].
  by eexists.
Qed.

Lemma JSON_Validate_safe_witness :
  exists st, JSON_Validate (Some (json_text "{'janus':[1,{}]}")) 16 = Some st.
Proof.
  apply (JSON_Validate_safe (json_text "{'janus':[1,{}]}") 16);
    zdec.
Defined.

(** [JSON_Search] is total and memory safe on any buffer and any query,
    and a successful search returns a slice that lies inside the buffer; for
    a string value the slice excludes both quotation marks. *)
Theorem JSON_SearchConst_slice (buf query : list Z) (max queryLength : Z)
  (Hmax : 0 <= max < SIZE_MAX) (Hlen : max <= zlen buf)
  (Hq : 0 <= queryLength < SIZE_MAX) (Hql : queryLength <= zlen query) :
  exists st out,
    JSON_SearchConst (Some buf) max (Some query) queryLength true
      = Some (st, out) /\
    (st = JSONSuccess <-> is_Some out) /\
    (forall o, out = Some o ->
       0 <= s_value o /\ 0 <= s_length o /\ s_value o + s_length o <= max /\
       (s_type o = JSONString ->
          rd buf (s_value o - 1) = Some QUOTE /\
          s_value o + s_length o < max)).
Proof.
  cbn. destruct (_ || _) eqn:Hz.
  { do 2 eexists. split; [done|]. split; [|done]. split; [done|by intros [? ?]]. }
  destruct (multiSearch_ok buf max ltac:(lia) Hlen query queryLength ltac:(lia) Hql)
    as (st & v & l & -> & Hw). cbn [mbind option_bind].
  case_decide as Hst; cycle 1.
  { do 2 eexists. split; [done|]. split; [|done]. split; [done|by intros [? ?]]. }
  destruct (Hw Hst) as ((? & ? & ?) & Hquote).
  destruct (rd_in buf max ltac:(lia) Hlen v ltac:(lia)) as [c Hc]. rewrite Hc.
  cbn [mbind option_bind]. do 2 eexists. split; [done|]. split; [by split|].
  intros o [= <-]. unfold strip_quotes. case_decide as Ht; cbn.
  - assert (c = QUOTE) as ->.
    { unfold getType in Ht. repeat case_match; try done. lia. }
    specialize (Hquote Hc). rewrite !usz_small by lia.
    replace (v + 1 - 1) with v by lia. split_and!; [lia..|]. auto with lia.
  - split_and!; [lia..|]. done.
Qed.

Lemma JSON_SearchConst_slice_witness :
  exists st out,
    JSON_SearchConst (Some (json_text "{'a':{'b':'xyz'}}")) 17
      (Some (json_text "a.b")) 3 true = Some (st, out) /\
    (st = JSONSuccess <-> is_Some out) /\
    (forall o, out = Some o ->
       0 <= s_value o /\ 0 <= s_length o /\ s_value o + s_length o <= 17 /\
       (s_type o = JSONString ->
          rd (json_text "{'a':{'b':'xyz'}}") (s_value o - 1) = Some QUOTE /\
          s_value o + s_length o < 17)).
Proof.
  apply (JSON_SearchConst_slice (json_text "{'a':{'b':'xyz'}}") (json_text "a.b"));
    zdec.
Defined.

(** ** Iteration *)

Lemma strip_quotes_in buf max v :
  value_in buf max (v_index v) v -> 0 <= v_index v -> max < SIZE_MAX ->
  forall c, rd buf (v_index v) = Some c ->
  let o := strip_quotes (getType c) (v_index v) (v_length v) in
  v_index v <= s_value o /\ 0 <= s_length o /\ s_value o + s_length o <= v_next v.
Proof.
  intros (_ & Hn & Hl & Hm & Hq) Hi Hmax c Hc o. subst o. unfold strip_quotes.
  case_decide as Ht; cbn; [|lia].
  assert (c = QUOTE) as ->.
  { unfold getType in Ht. repeat case_match; try done. lia. }
  specialize (Hq Hc). rewrite !usz_small by lia. lia.
Qed.

Lemma iterate_ok buf max start next :
  0 < max < SIZE_MAX -> max <= zlen buf -> 0 <= start <= max -> start < next ->
  next <= max \/ start = max /\ next = max + 1 ->
  exists st next' p, iterate buf max start next = Some (st, next', p) /\
  (st = JSONSuccess <-> is_Some p) /\
  (p = None -> next' = next) /\
  (forall p', p = Some p' -> next <= v_index (p_value p') /\
     value_in buf max (v_index (p_value p')) (p_value p') /\
     v_next (p_value p') <= next' <= max /\
     0 <= p_key p' /\ 0 <= p_keyLength p' /\ p_key p' + p_keyLength p' <= max).
Proof.
  intros Hmax Hlen Hs Hn Hnm. unfold iterate. rewrite (assert_max max Hmax).
  cbn [mbind option_bind].
  assert (Hfail : forall ret, ret <> JSONSuccess ->
    exists st next' p, Some (ret, next, @None pair_out) = Some (st, next', p) /\
    (st = JSONSuccess <-> is_Some p) /\ (p = None -> next' = next) /\
    (forall p', p = Some p' -> next <= v_index (p_value p') /\
     value_in buf max (v_index (p_value p')) (p_value p') /\
     v_next (p_value p') <= next' <= max /\
     0 <= p_key p' /\ 0 <= p_keyLength p' /\ p_key p' + p_keyLength p' <= max)).
  { intros ret Hr. do 3 eexists. split; [done|]. split; [|done].
    split; [done|by intros [? ?]]. }
  destruct (Z.ltb_spec start max); [|by apply Hfail].
  byte (rd_in buf max Hmax Hlen) c E.
  assert (Hpair : exists r, (if c =? LBRACK then
      v ← nextValue buf next max;
      Some (JSONNotFound, v ← v; Some (mk_pair 0 0 v))
    else if c =? LBRACE then
      p ← nextKeyValuePair buf next max; Some (JSONNotFound, p)
    else Some (JSONIllegalDocument, None)) = Some r /\ r.1 <> JSONSuccess /\
    (forall p', r.2 = Some p' -> next <= v_index (p_value p') /\
     value_in buf max (v_index (p_value p')) (p_value p') /\
     0 <= p_key p' /\ 0 <= p_keyLength p' /\ p_key p' + p_keyLength p' <= max)).
  { destruct (c =? LBRACK).
    { destruct (nextValue_ok buf max Hmax Hlen next) as (r & -> & Hr); [lia|].
      eexists. split; [done|]. split; [done|]. intros p' Hp'. cbn in Hp'.
      destruct r as [v|]; [|done]. injection Hp' as <-. cbn.
      pose proof (Hr v eq_refl) as Hv. pose proof Hv as (Hi & _).
      rewrite Hi. split_and!; [lia|done|lia..]. }
    destruct (c =? LBRACE); [|by eexists].
    destruct (nextKeyValuePair_ok buf max Hmax Hlen next) as (r & -> & Hr); [lia|].
    eexists. split; [done|]. split; [done|]. cbn. intros p' ->.
    destruct (Hr p' eq_refl) as (? & ? & ? & ? & ?). split_and!; (done || lia). }
  destruct Hpair as ([ret [p|]] & -> & Hr & Hp); cbn [mbind option_bind fst snd] in *;
    [|by apply Hfail].
  destruct (Hp p eq_refl) as (Hi & Hv & Hk). pose proof Hv as (? & ? & ? & ? & _).
  destruct (skipSpaceAndComma_ok buf max Hmax Hlen (v_next (p_value p)))
    as (b & j & -> & ? & _); [lia|]. cbn [mbind option_bind].
  do 3 eexists. split; [done|]. split; [by split|]. split; [done|].
  intros p' [= <-]. split_and!; (done || lia).
Qed.

(** [JSON_Iterate] is total, memory safe and makes progress: whenever it
    reports a pair, the key and the value are slices of the buffer that lie
    behind the old [*next], and the new [*next] is strictly larger and still
    inside the buffer, so a loop that calls it until it fails ends after at
    most [max] rounds. *)
Theorem JSON_Iterate_progress (buf : list Z) (max start next : Z)
  (Hmax : 0 < max < SIZE_MAX) (Hlen : max <= zlen buf)
  (Hs : 0 <= start < max) (Hn : 0 <= next <= max) :
  exists st start' next' out,
    JSON_Iterate (Some buf) max true start next = Some (st, start', next', out) /\
    (st = JSONSuccess <-> is_Some out) /\
    (forall o, out = Some o ->
       next < next' <= max /\ start <= start' /\
       next <= s_value (jp_out o) /\ 0 <= s_length (jp_out o) /\
       s_value (jp_out o) + s_length (jp_out o) <= next' /\
       (forall k, jp_key o = Some k ->
          0 < k /\ 0 <= jp_keyLength o /\ k + jp_keyLength o <= max)).
Proof.
  unfold JSON_Iterate.
  replace ((max =? 0) || (max <=? start) || (max <? next)) with false by lia.
  destruct (skipSpace_ok buf max Hmax Hlen start) as (i & -> & ?); [lia|].
  cbn [mbind option_bind].
  assert (Hnx : exists n, (if next <=? i then skipSpace buf (usz (i + 1)) max
      else Some next) = Some n /\ next <= n /\ i < n /\
      (n <= max \/ i = max /\ n = max + 1)).
  { destruct (Z.leb_spec next i); [|eexists; split; [done|]; lia].
    rewrite usz_small by lia.
    destruct (skipSpace_ok buf max Hmax Hlen (i + 1)) as (n & -> & ?); [lia|].
    eexists. split; [done|]. lia. }
  destruct Hnx as (n & -> & ? & ? & ?). cbn [mbind option_bind].
  destruct (iterate_ok buf max i n Hmax Hlen) as (st & n' & p & -> & Hst & _ & Hp);
    [lia|lia|done|].
  cbn [mbind option_bind]. destruct p as [p|]; cycle 1.
  { do 4 eexists. split; [done|]. split; [|done]. by rewrite Hst. }
  destruct (Hp p eq_refl) as (Hi & Hv & ? & ? & ? & ?).
  pose proof Hv as (_ & ? & ? & ? & _).
  byte (rd_in buf max Hmax Hlen) c E.
  pose proof (strip_quotes_in buf max (p_value p) Hv ltac:(lia) ltac:(lia) c E) as Ho.
  do 4 eexists. split; [done|]. split; [rewrite Hst; by split|].
  intros o [= <-]. cbn. cbn in Ho. split_and!; try lia.
  intros k Hk. destruct (Z.eqb_spec (p_key p) 0); [done|]. injection Hk as <-. lia.
Qed.

Lemma JSON_Iterate_progress_witness :
  exists st start' next' out,
    JSON_Iterate (Some (json_text "{'a':1, 'b':[2]}")) 16 true 0 0
      = Some (st, start', next', out) /\
    (st = JSONSuccess <-> is_Some out) /\
    (forall o, out = Some o ->
       0 < next' <= 16 /\ 0 <= start' /\
       0 <= s_value (jp_out o) /\ 0 <= s_length (jp_out o) /\
       s_value (jp_out o) + s_length (jp_out o) <= next' /\
       (forall k, jp_key o = Some k ->
          0 < k /\ 0 <= jp_keyLength o /\ k + jp_keyLength o <= 16)).
Proof.
  apply (JSON_Iterate_progress (json_text "{'a':1, 'b':[2]}") 16 0 0); zdec.
Defined.
