(* ===== verification/CoreJsonGrammar.v ===== *)
(** * The JSON grammar and the validator's completeness

    The grammar of RFC 8259 as inductive predicates on byte lists, and the
    proof that [JSON_Validate] accepts every document of it whose nesting is
    at most [JSON_MAX_DEPTH]. *)

From S2P Require Import Prelude CoreJson CoreJsonSafety.
Import Json.

(** ** Grammar *)

Definition ws (s : list Z) : Prop := Forall (fun c => isspace_ c = true) s.

(** Unicode scalar values and their UTF-8 encoding. *)
Definition scalar_value (v : Z) : Prop :=
  0 <= v <= 0x10FFFF /\ ~ (0xD800 <= v <= 0xDFFF).

Definition trail (v : Z) : Z := 0x80 + v mod 64.

Definition utf8_encode (v : Z) : list Z :=
  if v <? 0x80 then [v]
  else if v <? 0x800 then [0xC0 + v / 64; trail v]
  else if v <? 0x10000 then [0xE0 + v / 4096; trail (v / 64); trail v]
  else [0xF0 + v / 262144; trail (v / 4096); trail (v / 64); trail v].

Definition is_hex (c : Z) : Prop :=
  48 <= c <= 57 \/ 65 <= c <= 70 \/ 97 <= c <= 102.

Definition hex4_value (a b c d : Z) : Z :=
  hexToInt a * 4096 + hexToInt b * 256 + hexToInt c * 16 + hexToInt d.

Definition hex4 (w : list Z) (v : Z) : Prop :=
  exists a b c d, w = [a; b; c; d] /\ is_hex a /\ is_hex b /\ is_hex c /\
  is_hex d /\ v = hex4_value a b c d.

(** The units between the quotation marks of a string; the code disallows
    the escaped NUL. *)
Inductive jchar : list Z -> Prop :=
| jc_plain v :
    scalar_value v -> 32 <= v -> v <> QUOTE -> v <> BACKSLASH ->
    jchar (utf8_encode v)
| jc_escape c : isSimpleEscape c = true -> jchar [BACKSLASH; c]
| jc_unicode w v :
    hex4 w v -> 0 < v -> ~ (0xD800 <= v <= 0xDFFF) ->
    jchar (BACKSLASH :: 117 :: w)
| jc_surrogates w1 v1 w2 v2 :
    hex4 w1 v1 -> 0xD800 <= v1 <= 0xDBFF ->
    hex4 w2 v2 -> 0xDC00 <= v2 <= 0xDFFF ->
    jchar (BACKSLASH :: 117 :: w1 ++ BACKSLASH :: 117 :: w2).

Definition jstring (w : list Z) : Prop :=
  exists us, Forall jchar us /\ w = QUOTE :: concat us ++ [QUOTE].

Definition digits (w : list Z) : Prop :=
  w <> [] /\ Forall (fun c => isdigit_ c = true) w.

Definition jint (w : list Z) : Prop :=
  w = [48] \/ (digits w /\ hd 48 w <> 48).

Definition jfrac (w : list Z) : Prop :=
  w = [] \/ exists ds, w = DOT :: ds /\ digits ds.

Definition jexp (w : list Z) : Prop :=
  w = [] \/ exists e sign ds, w = e :: sign ++ ds /\ (e = 101 \/ e = 69) /\
  (sign = [] \/ sign = [45] \/ sign = [43]) /\ digits ds.

Definition jnumber (w : list Z) : Prop :=
  exists m n f e, w = m ++ n ++ f ++ e /\ (m = [] \/ m = [45]) /\
  jint n /\ jfrac f /\ jexp e.

Definition jliteral (w : list Z) : Prop :=
  w = lit_true \/ w = lit_false \/ w = lit_null.

Definition jscalar (w : list Z) : Prop := jstring w \/ jliteral w \/ jnumber w.

(** [jvalue d w]: [w] is a JSON value nested at most [d] deep; [jelems] and
    [jmembers] are the comma-separated bodies of arrays and objects. *)
Inductive jvalue : nat -> list Z -> Prop :=
| jv_scalar d w : jscalar w -> jvalue d w
| jv_array_empty d s : ws s -> jvalue (S d) (LBRACK :: s ++ [RBRACK])
| jv_array d w : jelems d w -> jvalue (S d) (LBRACK :: w ++ [RBRACK])
| jv_object_empty d s : ws s -> jvalue (S d) (LBRACE :: s ++ [RBRACE])
| jv_object d w : jmembers d w -> jvalue (S d) (LBRACE :: w ++ [RBRACE])
with jelems : nat -> list Z -> Prop :=
| je_last d s1 v s2 : ws s1 -> jvalue d v -> ws s2 -> jelems d (s1 ++ v ++ s2)
| je_cons d s1 v s2 w : ws s1 -> jvalue d v -> ws s2 -> jelems d w ->
    jelems d (s1 ++ v ++ s2 ++ COMMA :: w)
with jmembers : nat -> list Z -> Prop :=
| jm_last d s1 k s2 s3 v s4 :
    ws s1 -> jstring k -> ws s2 -> ws s3 -> jvalue d v -> ws s4 ->
    jmembers d (s1 ++ k ++ s2 ++ COLON :: s3 ++ v ++ s4)
| jm_cons d s1 k s2 s3 v s4 w :
    ws s1 -> jstring k -> ws s2 -> ws s3 -> jvalue d v -> ws s4 ->
    jmembers d w ->
    jmembers d (s1 ++ k ++ s2 ++ COLON :: s3 ++ v ++ s4 ++ COMMA :: w).

Scheme jvalue_mut := Induction for jvalue Sort Prop
  with jelems_mut := Induction for jelems Sort Prop
  with jmembers_mut := Induction for jmembers Sort Prop.
Combined Scheme json_mut from jvalue_mut, jelems_mut, jmembers_mut.

(** A document: one value inside optional whitespace, nested at most 32. *)
Definition jdocument (w : list Z) : Prop :=
  exists s1 v s2, w = s1 ++ v ++ s2 /\ ws s1 /\
  jvalue (Z.to_nat JSON_MAX_DEPTH) v /\ ws s2.

(** ** Byte arithmetic of UTF-8 *)

Lemma trail_byte k : 0 <= k < 64 ->
  Z.land (0x80 + k) 0xC0 = 0x80 /\ Z.land (0x80 + k) 0x3F = k.
Proof.
  intros. apply (z_enum (fun k => Z.land (0x80 + k) 0xC0 = 0x80 /\
    Z.land (0x80 + k) 0x3F = k) 0 64); [by_enum|lia].
Qed.

Lemma trail_inv c : 0 <= c < 256 -> Z.land c 0xC0 = 0x80 ->
  exists k, 0 <= k < 64 /\ c = 0x80 + k.
Proof.
  intros Hc Hl. exists (c - 0x80).
  assert (H : Z.land c 0xC0 <> 0x80 \/ 0x80 <= c < 0xC0).
  { apply (z_enum (fun c => Z.land c 0xC0 <> 0x80 \/ 0x80 <= c < 0xC0) 0 256);
      [|lia].
    repeat (constructor; [vm_compute; (left; congruence) || (right; split; congruence)|]).
    constructor. }
  destruct H; [done|lia].
Qed.

Lemma trail_range v : 0 <= v mod 64 < 64.
Proof. apply Z.mod_pos_bound. lia. Qed.

Lemma land_low p v k : 0 <= p -> 0 <= k < 2 ^ p -> Z.land (v * 2 ^ p) k = 0.
Proof.
  intros Hp Hk. destruct (decide (k = 0)) as [->|Hne]; [apply Z.land_0_r|].
  apply Z.bits_inj'. intros n Hn. rewrite Z.land_spec, Z.bits_0.
  destruct (Z.ltb_spec n p).
  { by rewrite Z.mul_pow2_bits_low by lia. }
  rewrite (Z.bits_above_log2 k n); [apply andb_false_r|lia|].
  apply Z.lt_le_trans with p; [|done]. apply Z.log2_lt_pow2; [lia|apply Hk].
Qed.

Lemma lor_trail v k : 0 <= v < 2 ^ 26 -> 0 <= k < 64 ->
  Z.lor (u32 (Z.shiftl v 6)) k = v * 64 + k.
Proof.
  intros Hv Hk. rewrite Z.shiftl_mul_pow2 by lia.
  rewrite u32_small by lia.
  rewrite <- Z.lxor_lor, <- Z.add_nocarry_lxor by (apply land_low; lia). done.
Qed.

Lemma lor_hex v k : 0 <= v < 4096 -> 0 <= k < 16 ->
  u16 (Z.lor (Z.shiftl v 4) k) = v * 16 + k.
Proof.
  intros Hv Hk. rewrite Z.shiftl_mul_pow2 by lia.
  rewrite <- Z.lxor_lor, <- Z.add_nocarry_lxor by (apply land_low; lia).
  apply u16_small. lia.
Qed.

Lemma lead2 a : 2 <= a < 32 ->
  countHighBits (0xC0 + a) = Some 2 /\ Z.land (0xC0 + a) (Z.shiftl 1 5 - 1) = a.
Proof.
  intros. apply (z_enum (fun a => countHighBits (0xC0 + a) = Some 2 /\
    Z.land (0xC0 + a) (Z.shiftl 1 5 - 1) = a) 2 30); [by_enum|lia].
Qed.

Lemma lead3 a : 0 <= a < 16 ->
  countHighBits (0xE0 + a) = Some 3 /\ Z.land (0xE0 + a) (Z.shiftl 1 4 - 1) = a.
Proof.
  intros. apply (z_enum (fun a => countHighBits (0xE0 + a) = Some 3 /\
    Z.land (0xE0 + a) (Z.shiftl 1 4 - 1) = a) 0 16); [by_enum|lia].
Qed.

Lemma lead4 a : 0 <= a < 5 ->
  countHighBits (0xF0 + a) = Some 4 /\ Z.land (0xF0 + a) (Z.shiftl 1 3 - 1) = a.
Proof.
  intros. apply (z_enum (fun a => countHighBits (0xF0 + a) = Some 4 /\
    Z.land (0xF0 + a) (Z.shiftl 1 3 - 1) = a) 0 5); [by_enum|lia].
Qed.

(** The encoding of a value put together from its six-bit groups. *)
Lemma six_bits a k : 0 <= k < 64 -> (a * 64 + k) / 64 = a /\ (a * 64 + k) mod 64 = k.
Proof.
  intros. split; symmetry;
    [apply Z.div_unique with k|apply Z.mod_unique with a]; lia.
Qed.

Lemma utf8_encode_2 a k : 0 <= k < 64 -> 0x80 <= a * 64 + k < 0x800 ->
  utf8_encode (a * 64 + k) = [0xC0 + a; 0x80 + k].
Proof.
  intros Hk Hv. unfold utf8_encode, trail. destruct (six_bits a k Hk) as [-> ->].
  destruct (Z.ltb_spec (a * 64 + k) 0x80); [lia|].
  destruct (Z.ltb_spec (a * 64 + k) 0x800); [done|lia].
Qed.

Lemma utf8_encode_3 a k k2 : 0 <= k < 64 -> 0 <= k2 < 64 ->
  0x800 <= (a * 64 + k) * 64 + k2 < 0x10000 ->
  utf8_encode ((a * 64 + k) * 64 + k2) = [0xE0 + a; 0x80 + k; 0x80 + k2].
Proof.
  intros Hk Hk2 Hv. unfold utf8_encode, trail.
  change 4096 with (64 * 64). rewrite <- !Z.div_div by lia.
  destruct (six_bits (a * 64 + k) k2 Hk2) as [-> ->].
  destruct (six_bits a k Hk) as [-> ->].
  set (v := (a * 64 + k) * 64 + k2) in *.
  destruct (Z.ltb_spec v 0x80); [lia|]. destruct (Z.ltb_spec v 0x800); [lia|].
  destruct (Z.ltb_spec v 0x10000); [done|lia].
Qed.

Lemma utf8_encode_4 a k k2 k3 : 0 <= k < 64 -> 0 <= k2 < 64 -> 0 <= k3 < 64 ->
  0x10000 <= ((a * 64 + k) * 64 + k2) * 64 + k3 ->
  utf8_encode (((a * 64 + k) * 64 + k2) * 64 + k3)
    = [0xF0 + a; 0x80 + k; 0x80 + k2; 0x80 + k3].
Proof.
  intros Hk Hk2 Hk3 Hv. unfold utf8_encode, trail.
  change 262144 with (64 * 64 * 64). change 4096 with (64 * 64).
  rewrite <- !Z.div_div by lia.
  destruct (six_bits ((a * 64 + k) * 64 + k2) k3 Hk3) as [-> ->].
  destruct (six_bits (a * 64 + k) k2 Hk2) as [-> ->].
  destruct (six_bits a k Hk) as [-> ->].
  set (v := ((a * 64 + k) * 64 + k2) * 64 + k3) in *.
  destruct (Z.ltb_spec v 0x80); [lia|]. destruct (Z.ltb_spec v 0x800); [lia|].
  destruct (Z.ltb_spec v 0x10000); [lia|done].
Qed.

(** ** Scanning forward over a known text

    [suf i l]: the bytes from index [i] up to [max] are [l]. *)
Section Forward.
Context (buf : list Z) (max : Z).
Context (Hmax : 0 < max < SIZE_MAX) (Hlen : max <= zlen buf).

Definition suf (i : Z) (l : list Z) : Prop :=
  0 <= i <= max /\ drop (Z.to_nat i) (take (Z.to_nat max) buf) = l.

Lemma suf_end i l : suf i l -> i + zlen l = max.
Proof using Hmax Hlen.
  intros [Hi <-]. unfold zlen in *. rewrite length_drop, length_take. lia.
Qed.

Lemma suf_app i a l : suf i (a ++ l) -> suf (i + zlen a) l.
Proof using Hmax Hlen.
  intros H. pose proof (suf_end _ _ H) as He. destruct H as [Hi Hd].
  unfold zlen in He. rewrite length_app in He. split; [unfold zlen; lia|].
  replace (Z.to_nat (i + zlen a)) with (Z.to_nat i + length a)%nat
    by (unfold zlen; lia).
  rewrite <- drop_drop, Hd. apply drop_app_length.
Qed.

Lemma suf_cons i c l :
  suf i (c :: l) -> rd buf i = Some c /\ i < max /\ suf (i + 1) l.
Proof using Hmax Hlen.
  intros H. pose proof (suf_end _ _ H) as He. unfold zlen in He. cbn in He.
  split_and!; [|lia|by apply (suf_app i [c] l)].
  destruct H as [Hi Hd]. rewrite rd_lookup by lia.
  transitivity (drop (Z.to_nat i) (take (Z.to_nat max) buf) !! 0%nat); [|by rewrite Hd].
  rewrite lookup_drop, Nat.add_0_r, lookup_take_lt by lia. done.
Qed.

Lemma suf_nil i : suf i [] -> i = max.
Proof using Hmax Hlen. intros H. apply suf_end in H. unfold zlen in H. cbn in H. lia. Qed.

Lemma suf_rd i c : rd buf i = Some c -> 0 <= i < max ->
  exists l, suf i (c :: l).
Proof using Hmax Hlen.
  intros Hc Hi. exists (drop (S (Z.to_nat i)) (take (Z.to_nat max) buf)).
  split; [lia|]. apply drop_S. rewrite rd_lookup in Hc by lia.
  by rewrite lookup_take_lt by lia.
Qed.

Lemma suf_fun i l l' : suf i l -> suf i l' -> l = l'.
Proof. intros [_ <-] [_ <-]. done. Qed.

Lemma suf_bounds i l : suf i l -> 0 <= i <= max.
Proof. by intros []. Qed.

(** *** Whitespace and separators *)

(** The next byte, if any, satisfies [P]. *)
Definition next (P : Z -> bool) (l : list Z) : Prop :=
  match l with [] => True | c :: _ => P c = true end.

Definition nonspace (l : list Z) : Prop := next (fun c => negb (isspace_ c)) l.

Lemma skipSpace_loop_fwd f i s l :
  suf i (s ++ l) -> ws s -> nonspace l -> (Z.to_nat (max - i) < f)%nat ->
  skipSpace_loop f buf i max = Some (i + zlen s).
Proof using Hmax Hlen.
  revert i s. induction f as [|f IH]; intros i s Hs Hw Hn Hf; [lia|].
  cbn [skipSpace_loop]. destruct s as [|c s]; cbn in Hs.
  - unfold zlen; cbn. rewrite Z.add_0_r. destruct l as [|c l].
    + apply suf_nil in Hs as ->. rewrite Z.ltb_irrefl. done.
    + destruct (suf_cons _ _ _ Hs) as (-> & ? & _). inb. cbn.
      cbn in Hn. apply negb_true_iff in Hn. by rewrite Hn.
  - pose proof (suf_bounds _ _ Hs).
    destruct (suf_cons _ _ _ Hs) as (-> & ? & Hs'). inb. cbn.
    inversion_clear Hw as [|? ? Hc Hw']. rewrite Hc.
    rewrite (usz_in max) by lia. rewrite (IH (i + 1) s) by (done || lia).
    f_equal. unfold zlen. cbn. lia.
Qed.

Lemma skipSpace_fwd i s l :
  suf i (s ++ l) -> ws s -> nonspace l -> skipSpace buf i max = Some (i + zlen s).
Proof using Hmax Hlen.
  intros Hs Hw Hn. unfold skipSpace. rewrite (assert_max max) by done. cbn.
  pose proof (suf_bounds _ _ Hs).
  eapply skipSpace_loop_fwd; eauto. apply fuel_enough; lia.
Qed.

Lemma comma_not_space : isspace_ COMMA = false.
Proof. done. Qed.

Lemma skipSpaceAndComma_none i s l :
  suf i (s ++ l) -> ws s -> nonspace l ->
  next (fun c => negb (c =? COMMA)) l ->
  skipSpaceAndComma buf i max = Some (false, i + zlen s).
Proof using Hmax Hlen.
  intros Hs Hw Hn Hc. unfold skipSpaceAndComma. rewrite (assert_max max) by done.
  cbn [mbind option_bind]. rewrite (skipSpace_fwd i s l) by done.
  cbn [mbind option_bind]. apply suf_app in Hs. destruct l as [|c l].
  - apply suf_nil in Hs as ->. by rewrite Z.ltb_irrefl.
  - destruct (suf_cons _ _ _ Hs) as (-> & ? & _). inb. cbn [mbind option_bind].
    cbn in Hc. apply negb_true_iff in Hc. by rewrite Hc.
Qed.

Lemma skipSpaceAndComma_some i s s' c l :
  suf i (s ++ COMMA :: s' ++ c :: l) -> ws s -> ws s' ->
  isspace_ c = false -> isCloseBracket_ c = false ->
  skipSpaceAndComma buf i max = Some (true, i + zlen s + 1 + zlen s').
Proof using Hmax Hlen.
  intros Hs Hw Hw' Hc Hb. unfold skipSpaceAndComma. rewrite (assert_max max) by done.
  cbn [mbind option_bind]. rewrite (skipSpace_fwd i s (COMMA :: s' ++ c :: l)) by done.
  cbn [mbind option_bind]. apply suf_app in Hs. pose proof (suf_bounds _ _ Hs).
  destruct (suf_cons _ _ _ Hs) as (-> & ? & Hs'). inb. cbn [mbind option_bind].
  change (COMMA =? COMMA) with true. cbv iota. rewrite (usz_in max) by lia.
  assert (Hns : nonspace (c :: l)) by (cbn; by rewrite Hc).
  rewrite (skipSpace_fwd _ s' (c :: l)) by done. cbn [mbind option_bind].
  apply suf_app in Hs'. destruct (suf_cons _ _ _ Hs') as (-> & ? & _). inb.
  cbn [mbind option_bind]. by rewrite Hb.
Qed.

(** *** UTF-8 *)

Lemma utf8_trail_step n i v k l :
  suf (i + 1) (0x80 + k :: l) -> 0 <= i -> 0 <= k < 64 -> 0 <= v < 2 ^ 26 ->
  utf8_trail (S n) buf i max v = utf8_trail n buf (i + 1) max (v * 64 + k).
Proof using Hmax Hlen.
  intros Hs Hi Hk Hv. destruct (suf_cons _ _ _ Hs) as (Hr & ? & _).
  cbn [utf8_trail]. rewrite (usz_in max) by lia.
  destruct (Z.leb_spec max (i + 1)); [lia|]. rewrite Hr. cbn [mbind option_bind].
  destruct (trail_byte k Hk) as [-> ->]. rewrite lor_trail by lia. done.
Qed.

Lemma utf8_trail_inv n i v i' v' :
  Forall (fun c => 0 <= c < 256) buf -> 0 <= i < max -> 0 <= v < 2 ^ 26 ->
  utf8_trail (S n) buf i max v = Some (O, i', v') ->
  exists k l, 0 <= k < 64 /\ suf (i + 1) (0x80 + k :: l) /\
  utf8_trail n buf (i + 1) max (v * 64 + k) = Some (O, i', v').
Proof using Hmax Hlen.
  intros Hb Hi Hv. cbn [utf8_trail]. rewrite (usz_in max) by lia.
  destruct (Z.leb_spec max (i + 1)); [done|].
  byte (rd_in buf max Hmax Hlen) c E.
  destruct (Z.eqb_spec (Z.land c 0xC0) 0x80) as [Hl|]; cbn [negb]; [|done].
  assert (Hc : 0 <= c < 256).
  { rewrite rd_lookup in E by lia. rewrite Forall_lookup in Hb. by eapply Hb. }
  destruct (trail_inv c Hc Hl) as (k & Hk & ->).
  destruct (trail_byte k Hk) as [_ ->]. rewrite lor_trail by lia.
  intros Ht. destruct (suf_rd _ _ E) as [l Hl']; [lia|]. eauto.
Qed.

(** The two-, three- and four-byte cases share the final test. *)
Lemma skipUTF8_lead i c l n a v :
  suf i (c :: l) -> isascii_ c = false -> (0xC1 <? c) && (c <? 0xF5) = true ->
  countHighBits c = Some n -> Z.land c (Z.shiftl 1 (7 - n) - 1) = a ->
  0 <= i -> 2 <= n ->
  utf8_trail (Z.to_nat (n - 1)) buf i max a = Some (O, i + (n - 1), v) ->
  shortestUTF8 n v = Some true -> i + n <= max ->
  skipUTF8 buf i max = Some (true, i + n).
Proof using Hmax Hlen.
  intros Hs Ha Hlead Hn Hv Hi Hn2 Ht Hsh Hb.
  destruct (suf_cons _ _ _ Hs) as (Hr & ? & _).
  unfold skipUTF8. rewrite (assert_max max) by done. cbn [mbind option_bind]. inb.
  rewrite Hr. cbn [mbind option_bind]. rewrite Ha. unfold skipUTF8MultiByte.
  rewrite (assert_max max) by done. cbn [mbind option_bind]. unfold assert_. inb.
  cbn [mbind option_bind]. rewrite Hr. cbn [mbind option_bind]. rewrite Ha.
  cbn [mbind option_bind negb]. rewrite Hlead, Hn. cbn [mbind option_bind].
  rewrite Hv, Ht. cbn [mbind option_bind Nat.eqb]. rewrite Hsh.
  cbn [mbind option_bind]. rewrite (usz_in max) by lia. do 2 f_equal. lia.
Qed.

Lemma shortest_ok n v mn mx :
  (n = 2 /\ mn = 0x80 /\ mx = 0x7FF) \/ (n = 3 /\ mn = 0x800 /\ mx = 0xFFFF) \/
  (n = 4 /\ mn = 0x10000 /\ mx = 0x10FFFF) ->
  shortestUTF8 n v = Some true <-> mn <= v <= mx /\ ~ (0xD800 <= v <= 0xDFFF).
Proof.
  intros [(-> & -> & ->)|[(-> & -> & ->)|(-> & -> & ->)]];
    unfold shortestUTF8; change (assert_ _) with (Some tt);
    cbn [mbind option_bind Z.eqb Pos.eqb];
    change (Z.shiftl 1 7) with 128; change (Z.shiftl 1 11) with 2048;
    change (Z.shiftl 1 16) with 65536;
    (split; intros H; [injection H as H; lia|f_equal; lia]).
Qed.

Lemma triple_eq (a b c d : Z) :
  a = c -> b = d -> Some (O, a, b) = Some (O, c, d).
Proof. by intros -> ->. Qed.

(** [skipUTF8] moves over the encoding of any scalar value. *)
Lemma skipUTF8_fwd i v post :
  suf i (utf8_encode v ++ post) -> scalar_value v ->
  skipUTF8 buf i max = Some (true, i + zlen (utf8_encode v)).
Proof using Hmax Hlen.
  intros Hs [Hv Hsur]. pose proof (suf_bounds _ _ Hs).
  pose proof (suf_bounds _ _ (suf_app _ _ _ Hs)) as Hend.
  unfold utf8_encode in *. destruct (Z.ltb_spec v 0x80).
  { destruct (suf_cons _ _ _ Hs) as (Hr & ? & _).
    unfold skipUTF8. rewrite (assert_max max) by done. cbn [mbind option_bind]. inb.
    rewrite Hr. cbn [mbind option_bind]. unfold isascii_.
    rewrite (proj2 (Z.leb_le _ _)) by lia. by rewrite (usz_in max) by lia. }
  pose proof (trail_range v). pose proof (trail_range (v / 64)).
  pose proof (trail_range (v / 4096)).
  pose proof (Z.div_mod v 64 ltac:(lia)). pose proof (Z.div_mod (v / 64) 64 ltac:(lia)).
  pose proof (Z.div_mod (v / 4096) 64 ltac:(lia)).
  rewrite Z.div_div in * by lia. cbn in Hs.
  change (64 * 64) with 4096 in *. change (4096 * 64) with 262144 in *.
  destruct (Z.ltb_spec v 0x800); [|destruct (Z.ltb_spec v 0x10000)].
  - destruct (lead2 (v / 64) ltac:(lia)) as [Hn Ha].
    destruct (suf_cons _ _ _ Hs) as (_ & _ & Ht1).
    refine (skipUTF8_lead i _ _ 2 (v / 64) v Hs _ _ Hn Ha _ _ _ _ _);
      [unfold isascii_; lia|lia|lia|lia| | |unfold zlen in Hend; cbn in Hend; lia].
    + change (Z.to_nat (2 - 1)) with 1%nat.
      rewrite (utf8_trail_step 0 i (v / 64) (v mod 64) _ Ht1) by lia.
      apply triple_eq; lia.
    + apply (shortest_ok 2 v 0x80 0x7FF); [auto|]. lia.
  - destruct (lead3 (v / 4096) ltac:(lia)) as [Hn Ha].
    destruct (suf_cons _ _ _ Hs) as (_ & _ & Ht1).
    destruct (suf_cons _ _ _ Ht1) as (_ & _ & Ht2).
    refine (skipUTF8_lead i _ _ 3 (v / 4096) v Hs _ _ Hn Ha _ _ _ _ _);
      [unfold isascii_; lia|lia|lia|lia| | |unfold zlen in Hend; cbn in Hend; lia].
    + change (Z.to_nat (3 - 1)) with 2%nat.
      rewrite (utf8_trail_step 1 i (v / 4096) ((v / 64) mod 64) _ Ht1) by lia.
      rewrite (utf8_trail_step 0 (i + 1) _ (v mod 64) _ Ht2) by lia.
      apply triple_eq; lia.
    + apply (shortest_ok 3 v 0x800 0xFFFF); [auto|]. lia.
  - destruct (lead4 (v / 262144) ltac:(lia)) as [Hn Ha].
    destruct (suf_cons _ _ _ Hs) as (_ & _ & Ht1).
    destruct (suf_cons _ _ _ Ht1) as (_ & _ & Ht2).
    destruct (suf_cons _ _ _ Ht2) as (_ & _ & Ht3).
    refine (skipUTF8_lead i _ _ 4 (v / 262144) v Hs _ _ Hn Ha _ _ _ _ _);
      [unfold isascii_; lia|lia|lia|lia| | |unfold zlen in Hend; cbn in Hend; lia].
    + change (Z.to_nat (4 - 1)) with 3%nat.
      rewrite (utf8_trail_step 2 i (v / 262144) ((v / 4096) mod 64) _ Ht1) by lia.
      rewrite (utf8_trail_step 1 (i + 1) _ ((v / 64) mod 64) _ Ht2) by lia.
      rewrite (utf8_trail_step 0 (i + 1 + 1) _ (v mod 64) _ Ht3) by lia.
      apply triple_eq; lia.
    + apply (shortest_ok 4 v 0x10000 0x10FFFF); [auto|]. lia.
Qed.

(** The bytes a complete trailing loop has read. *)
Lemma utf8_trail_groups n i v i' v' :
  Forall (fun c => 0 <= c < 256) buf -> 0 <= i < max ->
  0 <= v -> (v + 1) * 64 ^ Z.of_nat n <= 2 ^ 32 ->
  utf8_trail n buf i max v = Some (O, i', v') ->
  exists ks l, length ks = n /\ Forall (fun k => 0 <= k < 64) ks /\
  suf (i + 1) (map (Z.add 0x80) ks ++ l) /\ i' = i + Z.of_nat n /\
  v' = fold_left (fun v k => v * 64 + k) ks v.
Proof using Hmax Hlen.
  intros Hb. revert i v. induction n as [|n IH]; intros i v Hi Hv Hbd Ht.
  { cbn in Ht. injection Ht as <- <-.
    exists [], (drop (Z.to_nat (i + 1)) (take (Z.to_nat max) buf)).
    split_and!; [done|constructor|split; [lia|done]|lia|done]. }
  rewrite Nat2Z.inj_succ, Z.pow_succ_r in Hbd by lia.
  assert (1 <= 64 ^ Z.of_nat n) by (apply (Z.pow_le_mono_r 64 0); lia).
  assert (0 <= v < 2 ^ 26) by nia.
  apply utf8_trail_inv in Ht as (k & l1 & Hk & Hl1 & Ht); [|done|lia|lia].
  destruct (suf_cons _ _ _ Hl1) as (_ & Hi1 & Hs1).
  apply IH in Ht as (ks & l & Hn & Hf & Hs & -> & ->); [|lia|nia|nia].
  rewrite (suf_fun _ _ _ Hs1 Hs) in Hl1.
  exists (k :: ks), l. split_and!; cbn; [lia|by constructor|done|lia|done].
Qed.

Lemma utf8_encode_groups c l1 l2 (v : Z) i j :
  suf i (c :: l1 ++ l2) -> utf8_encode v = c :: l1 -> scalar_value v ->
  j = usz (i + zlen l1 + 1) ->
  exists v post, scalar_value v /\ suf i (utf8_encode v ++ post) /\
  j = i + zlen (utf8_encode v).
Proof using Hmax Hlen.
  intros Hs He Hv ->. exists v, l2. rewrite He. split_and!; [done|done|].
  pose proof (suf_bounds _ _ Hs).
  pose proof (suf_bounds _ _ (suf_app i (c :: l1) l2 Hs)) as Hb.
  unfold zlen in *. cbn [length] in *. rewrite (usz_in max) by lia. lia.
Qed.

(** Only encodings of scalar values are accepted. *)
Lemma skipUTF8MultiByte_inv i j c l :
  Forall (fun c => 0 <= c < 256) buf -> suf i (c :: l) ->
  0 <= c < 256 -> isascii_ c = false ->
  skipUTF8MultiByte buf i max = Some (true, j) ->
  exists v post, scalar_value v /\ suf i (utf8_encode v ++ post) /\
  j = i + zlen (utf8_encode v).
Proof using Hmax Hlen.
  intros Hb Hl Hc Ha. pose proof (suf_bounds _ _ Hl).
  destruct (suf_cons _ _ _ Hl) as (E & Hi & Hs1).
  unfold skipUTF8MultiByte. rewrite (assert_max max) by done.
  cbn [mbind option_bind]. unfold assert_. inb. cbn [mbind option_bind].
  rewrite E. cbn [mbind option_bind]. rewrite Ha. cbn [mbind option_bind negb].
  destruct (_ && _) eqn:Hlead; [|done].
  assert (Hcase : exists n a, countHighBits c = Some n /\
    Z.land c (Z.shiftl 1 (7 - n) - 1) = a /\
    (n = 2 /\ c = 0xC0 + a /\ 2 <= a < 32 \/ n = 3 /\ c = 0xE0 + a /\ 0 <= a < 16 \/
     n = 4 /\ c = 0xF0 + a /\ 0 <= a < 5)).
  { destruct (Z.ltb_spec c 0xE0); [|destruct (Z.ltb_spec c 0xF0)].
    - exists 2, (c - 0xC0). destruct (lead2 (c - 0xC0)) as [Hh1 Hh2]; [lia|].
      replace (0xC0 + (c - 0xC0)) with c in * by lia. split_and!; auto. lia.
    - exists 3, (c - 0xE0). destruct (lead3 (c - 0xE0)) as [Hh1 Hh2]; [lia|].
      replace (0xE0 + (c - 0xE0)) with c in * by lia. split_and!; auto. lia.
    - exists 4, (c - 0xF0). destruct (lead4 (c - 0xF0)) as [Hh1 Hh2]; [lia|].
      replace (0xF0 + (c - 0xF0)) with c in * by lia. split_and!; auto. lia. }
  destruct Hcase as (n & a & Hn0 & Hv0 & Hna). rewrite Hn0. cbn [mbind option_bind].
  rewrite Hv0.
  destruct (utf8_trail _ _ _ _ _) as [[[[|m] i'] v']|] eqn:Ht;
    cbn [mbind option_bind Nat.eqb]; [|done..].
  destruct (shortestUTF8 n v') as [[|]|] eqn:Hsh; cbn [mbind option_bind]; [|done..].
  intros [= <-].
  apply utf8_trail_groups in Ht as (ks & l2 & Hn & Hf & Hs & -> & ->);
    [|done|lia|lia|destruct Hna as [(-> & _ & ?)|[(-> & _ & ?)|(-> & _ & ?)]];
      [change (64 ^ _) with 64|change (64 ^ _) with 4096|change (64 ^ _) with 262144];
      lia].
  rewrite (suf_fun _ _ _ Hs1 Hs) in Hl.
  eapply (utf8_encode_groups _ _ _ (fold_left (fun v k => v * 64 + k) ks a));
    [exact Hl| | |].
  3: { unfold zlen. by rewrite length_map, Hn. }
  all: destruct Hna as [(-> & -> & ?)|[(-> & -> & ?)|(-> & -> & ?)]];
    do 4 (try (destruct ks as [|? ks]; try done)); decompose_Forall; cbn in *;
    [apply (shortest_ok 2 _ 0x80 0x7FF) in Hsh
    |apply (shortest_ok 3 _ 0x800 0xFFFF) in Hsh
    |apply (shortest_ok 4 _ 0x10000 0x10FFFF) in Hsh]; auto;
    first [unfold scalar_value; lia | by rewrite utf8_encode_2 by lia
          | by rewrite utf8_encode_3 by lia | by rewrite utf8_encode_4 by lia].
Qed.

Lemma skipUTF8_inv i j :
  Forall (fun c => 0 <= c < 256) buf -> 0 <= i <= max ->
  skipUTF8 buf i max = Some (true, j) ->
  exists v post, scalar_value v /\ suf i (utf8_encode v ++ post) /\
  j = i + zlen (utf8_encode v).
Proof using Hmax Hlen.
  intros Hb Hi. unfold skipUTF8. rewrite (assert_max max) by done.
  cbn [mbind option_bind]. inb; [|done]. byte (rd_in buf max Hmax Hlen) c E.
  assert (Hc : 0 <= c < 256).
  { rewrite rd_lookup in E by lia. rewrite Forall_lookup in Hb. by eapply Hb. }
  destruct (suf_rd _ _ E) as [l Hl]; [lia|].
  destruct (isascii_ c) eqn:Ha; [|by eapply skipUTF8MultiByte_inv].
  unfold isascii_ in Ha. intros [= <-].
  apply (utf8_encode_groups c [] l c i); [done| | |f_equal; unfold zlen; cbn; lia].
  - unfold utf8_encode. by rewrite (proj2 (Z.ltb_lt c 0x80)) by lia.
  - unfold scalar_value. lia.
Qed.

End Forward.

(** [skipUTF8] accepts exactly the well-formed UTF-8: it succeeds and
    moves to [j] if and only if the bytes in front of it are the shortest-form
    encoding of a Unicode scalar value (no surrogates, at most U+10FFFF) that
    ends at [j]. *)
Theorem skipUTF8_exact (buf : list Z) (max i j : Z)
  (Hmax : 0 < max < SIZE_MAX) (Hlen : max <= zlen buf)
  (Hbytes : Forall (fun c => 0 <= c < 256) buf) (Hi : 0 <= i <= max) :
  skipUTF8 buf i max = Some (true, j) <->
  exists v post, scalar_value v /\ suf buf max i (utf8_encode v ++ post) /\
  j = i + zlen (utf8_encode v).
Proof.
  split; [by apply skipUTF8_inv|].
  intros (v & post & Hv & Hs & ->). by eapply skipUTF8_fwd.
Qed.

Lemma skipUTF8_exact_witness :
  skipUTF8 [0xE2; 0x82; 0xAC] 0 3 = Some (true, 3) <->
  exists v post, scalar_value v /\
    suf [0xE2; 0x82; 0xAC] 3 0 (utf8_encode v ++ post) /\
    3 = 0 + zlen (utf8_encode v).
Proof.
  apply (skipUTF8_exact [0xE2; 0x82; 0xAC] 3 0 3); [zdec|zdec| |lia].
  repeat (constructor; [lia|]). constructor.
Defined.
