(* ===== verification/CoreJsonTokens.v ===== *)
(** * The scanners accept the tokens of the grammar

    Strings, literals and numbers: on a text that starts with a token of
    CoreJsonGrammar.v, each scanner stops right behind it. *)

From S2P Require Import Prelude CoreJson CoreJsonSafety CoreJsonGrammar.
Import Json.

Section Tokens.
Context (buf : list Z) (max : Z).
Context (Hmax : 0 < max < SIZE_MAX) (Hlen : max <= zlen buf).

Local Abbreviation suf := (suf buf max).
Local Abbreviation suf_cons := (suf_cons buf max Hmax Hlen).
Local Abbreviation suf_app := (suf_app buf max Hmax Hlen).
Local Abbreviation suf_bounds := (suf_bounds buf max).

Ltac run := cbn [mbind option_bind].

(** ** Escapes *)

Lemma hex_range c : is_hex c -> 0 <= hexToInt c < 16.
Proof.
  unfold is_hex, hexToInt, isdigit_. intros H.
  destruct (Z.leb_spec 97 c), (Z.leb_spec c 102); cbn;
    try (rewrite u8_small; lia);
  destruct (Z.leb_spec 65 c), (Z.leb_spec c 70); cbn;
    try (rewrite u8_small; lia);
  destruct (Z.leb_spec 48 c), (Z.leb_spec c 57); cbn;
    try (rewrite u8_small; lia); lia.
Qed.

Lemma hex_loop_step f i e v c l :
  suf i (c :: l) -> is_hex c -> i < e -> 0 <= v < 4096 ->
  hex_loop (S f) buf i e v = hex_loop f buf (i + 1) e (v * 16 + hexToInt c).
Proof using Hmax Hlen.
  intros Hs Hc He Hv. pose proof (suf_bounds _ _ Hs).
  destruct (suf_cons _ _ _ Hs) as (Hr & ? & _).
  cbn [hex_loop]. inb. rewrite Hr. run. pose proof (hex_range c Hc).
  unfold NOT_A_HEX_CHAR. destruct (Z.eqb_spec (hexToInt c) 16); [lia|].
  rewrite (usz_in max) by lia. rewrite lor_hex by lia. done.
Qed.

Lemma skipOneHexEscape_fwd i w v l :
  suf i (BACKSLASH :: 117 :: w ++ l) -> hex4 w v -> 0 < v -> l <> [] ->
  skipOneHexEscape buf i max = Some (Some (i + 6, v)).
Proof using Hmax Hlen.
  intros Hs (a & b & c & d & -> & Ha & Hb & Hc & Hd & ->) Hv Hl.
  destruct l as [|x l]; [done|]. cbn in Hs.
  pose proof (suf_bounds _ _ Hs).
  destruct (suf_cons _ _ _ Hs) as (Hr0 & ? & Hs1).
  destruct (suf_cons _ _ _ Hs1) as (Hr1 & ? & Hs2).
  destruct (suf_cons _ _ _ Hs2) as (_ & ? & Hs3).
  destruct (suf_cons _ _ _ Hs3) as (_ & ? & Hs4).
  destruct (suf_cons _ _ _ Hs4) as (_ & ? & Hs5).
  destruct (suf_cons _ _ _ Hs5) as (_ & ? & Hs6).
  destruct (suf_cons _ _ _ Hs6) as (_ & ? & _).
  unfold skipOneHexEscape, HEX_ESCAPE_LENGTH. rewrite (assert_max max) by done. run.
  destruct (Z.leb_spec i (SIZE_MAX - 6)); [|lia]. rewrite !usz_small by lia. inb.
  rewrite Hr0. run. change (BACKSLASH =? BACKSLASH) with true. cbv iota.
  rewrite Hr1. run. change (117 =? 117) with true. cbv iota.
  pose proof (hex_range a Ha). pose proof (hex_range b Hb).
  pose proof (hex_range c Hc). pose proof (hex_range d Hd).
  replace (i + 1 + 1) with (i + 2) in Hs2 by lia.
  replace (i + 1 + 1 + 1) with (i + 2 + 1) in Hs3 by lia.
  replace (i + 1 + 1 + 1 + 1) with (i + 2 + 1 + 1) in Hs4 by lia.
  replace (i + 1 + 1 + 1 + 1 + 1) with (i + 2 + 1 + 1 + 1) in Hs5 by lia.
  rewrite (hex_loop_step _ _ _ _ _ _ Hs2), (hex_loop_step _ _ _ _ _ _ Hs3),
    (hex_loop_step _ _ _ _ _ _ Hs4), (hex_loop_step _ _ _ _ _ _ Hs5) by (done || lia).
  cbn [hex_loop]. inb. run. unfold hex4_value in *.
  rewrite (proj2 (Z.eqb_eq _ _)), (proj2 (Z.ltb_lt _ _)) by lia. cbn [andb].
  do 3 f_equal; lia.
Qed.

Lemma skipHexEscape_fwd i w v l :
  suf i (BACKSLASH :: 117 :: w ++ l) -> hex4 w v -> 0 < v ->
  ~ (0xD800 <= v <= 0xDFFF) -> l <> [] ->
  skipHexEscape buf i max = Some (true, i + 6).
Proof using Hmax Hlen.
  intros Hs Hw Hv Hsur Hl. unfold skipHexEscape. rewrite (assert_max max) by done. run.
  rewrite (skipOneHexEscape_fwd i w v l) by done. run.
  unfold isHighSurrogate, isLowSurrogate.
  replace ((0xD800 <=? v) && (v <=? 0xDBFF)) with false by lia.
  replace ((0xDC00 <=? v) && (v <=? 0xDFFF)) with false by lia. done.
Qed.

Lemma skipHexEscape_pair i w1 v1 w2 v2 l :
  suf i (BACKSLASH :: 117 :: w1 ++ BACKSLASH :: 117 :: w2 ++ l) ->
  hex4 w1 v1 -> 0xD800 <= v1 <= 0xDBFF ->
  hex4 w2 v2 -> 0xDC00 <= v2 <= 0xDFFF -> l <> [] ->
  skipHexEscape buf i max = Some (true, i + 12).
Proof using Hmax Hlen.
  intros Hs H1 Hv1 H2 Hv2 Hl. unfold skipHexEscape. rewrite (assert_max max) by done. run.
  rewrite (skipOneHexEscape_fwd i w1 v1 (BACKSLASH :: 117 :: w2 ++ l)) by (done || lia).
  run. unfold isHighSurrogate, isLowSurrogate.
  replace ((0xD800 <=? v1) && (v1 <=? 0xDBFF)) with true by lia.
  assert (Hs' : suf (i + 6) (BACKSLASH :: 117 :: w2 ++ l)).
  { destruct H1 as (a & b & c & d & -> & _).
    apply (suf_app i [BACKSLASH; 117; a; b; c; d]). done. }
  rewrite (skipOneHexEscape_fwd (i + 6) w2 v2 l) by (done || lia). run.
  replace ((0xDC00 <=? v2) && (v2 <=? 0xDFFF)) with true by lia.
  do 2 f_equal. lia.
Qed.

(** ** Strings *)

Lemma utf8_head v :
  scalar_value v -> 32 <= v -> v <> QUOTE -> v <> BACKSLASH ->
  exists c l, utf8_encode v = c :: l /\ (c =? QUOTE) = false /\
  (c =? BACKSLASH) = false /\ iscntrl_ c = false.
Proof.
  intros [Hv _] H32 Hq Hb. unfold QUOTE, BACKSLASH, iscntrl_, isascii_ in *.
  pose proof (Z.div_pos v 64). pose proof (Z.div_pos v 4096).
  pose proof (Z.div_pos v 262144).
  unfold utf8_encode. destruct (Z.ltb_spec v 0x80);
    [|destruct (Z.ltb_spec v 0x800); [|destruct (Z.ltb_spec v 0x10000)]];
    do 2 eexists; (split; [reflexivity|]); split_and!; lia.
Qed.

(** The body of [skipEscape] behind its two tests. *)
Lemma skipEscape_at i c l :
  suf i (BACKSLASH :: c :: l) ->
  skipEscape buf i max =
    (if c =? 0 then Some (false, i)
     else if c =? 117 then skipHexEscape buf i max
     else if isSimpleEscape c then Some (true, i + 2)
     else if iscntrl_ c then Some (true, i + 2)
     else Some (false, i)).
Proof using Hmax Hlen.
  intros Hs. pose proof (suf_bounds _ _ Hs).
  destruct (suf_cons _ _ _ Hs) as (Hr & ? & Hs1).
  destruct (suf_cons _ _ _ Hs1) as (Hr1 & ? & _).
  unfold skipEscape. rewrite (assert_max max) by done. run. inb.
  rewrite Hr. run. change (BACKSLASH =? BACKSLASH) with true. cbv iota.
  rewrite !(usz_in max) by lia. rewrite Hr1. done.
Qed.

Lemma skipString_escape f i c l j :
  suf i (BACKSLASH :: c :: l) -> skipEscape buf i max = Some (true, j) ->
  skipString_loop (S f) buf i max = skipString_loop f buf j max.
Proof using Hmax Hlen.
  intros Hs He. destruct (suf_cons _ _ _ Hs) as (Hr & ? & _).
  cbn [skipString_loop]. inb. rewrite Hr. run.
  change (BACKSLASH =? QUOTE) with false. change (BACKSLASH =? BACKSLASH) with true.
  cbv iota. rewrite He. done.
Qed.

(** The string loop consumes one unit per pass. *)
Lemma skipString_unit f i u l :
  suf i (u ++ l) -> jchar u -> l <> [] ->
  skipString_loop (S f) buf i max = skipString_loop f buf (i + zlen u) max.
Proof using Hmax Hlen.
  intros Hs Hu Hl.
  destruct Hu as [v Hv H32 Hq Hb|c Hc|w v Hw Hv Hsur|w1 v1 w2 v2 H1 Hv1 H2 Hv2].
  - destruct (utf8_head v) as (c & u & He & Hnq & Hnb & Hnc); [done..|].
    pose proof Hs as Hs'. rewrite He in Hs'. cbn [skipString_loop].
    destruct (suf_cons _ _ _ Hs') as (Hr & ? & _). inb. rewrite Hr. run.
    rewrite Hnq, Hnb, Hnc.
    rewrite (skipUTF8_fwd buf max Hmax Hlen i v l) by done. done.
  - cbn in Hs. apply (skipString_escape f i c l); [done|].
    rewrite (skipEscape_at i c l Hs), Hc.
    unfold isSimpleEscape, QUOTE, BACKSLASH in Hc.
    destruct (Z.eqb_spec c 0); [lia|]. destruct (Z.eqb_spec c 117); [lia|]. done.
  - cbn in Hs. apply (skipString_escape f i 117 (w ++ l)); [done|].
    rewrite (skipEscape_at i 117 (w ++ l) Hs). cbn.
    rewrite (skipHexEscape_fwd i w v l) by done.
    destruct Hw as (a & b & c & d & -> & _). done.
  - cbn in Hs. rewrite <- app_assoc in Hs. cbn in Hs.
    apply (skipString_escape f i 117 (w1 ++ BACKSLASH :: 117 :: w2 ++ l)); [done|].
    rewrite (skipEscape_at _ _ _ Hs). cbn.
    rewrite (skipHexEscape_pair i w1 v1 w2 v2 l) by done.
    destruct H1 as (? & ? & ? & ? & -> & _), H2 as (? & ? & ? & ? & -> & _). done.
Qed.

Lemma jchar_nonempty u : jchar u -> u <> [].
Proof.
  intros [v|c|w v|w1 v1 w2 v2]; try done. unfold utf8_encode.
  by repeat case_match.
Qed.

Lemma skipString_loop_fwd f i us l :
  suf i (concat us ++ QUOTE :: l) -> Forall jchar us ->
  (Z.to_nat (max - i) < f)%nat ->
  skipString_loop f buf i max = Some (true, i + zlen (concat us) + 1).
Proof using Hmax Hlen.
  revert f i. induction us as [|u us IH]; intros f i Hs Hu Hf; cbn in Hs |- *.
  - destruct f; [lia|]. destruct (suf_cons _ _ _ Hs) as (Hr & ? & _).
    pose proof (suf_bounds _ _ Hs). cbn [skipString_loop]. inb. rewrite Hr. run.
    change (QUOTE =? QUOTE) with true. cbv iota. rewrite (usz_in max) by lia.
    do 2 f_equal. unfold zlen; cbn. lia.
  - rewrite <- app_assoc in Hs. inversion_clear Hu as [|? ? Hu1 Hus].
    pose proof (jchar_nonempty u Hu1). pose proof (suf_app _ _ _ Hs) as Hs'.
    pose proof (suf_bounds _ _ Hs'). pose proof (suf_bounds _ _ Hs).
    assert (0 < zlen u) by (destruct u; [done|unfold zlen; cbn; lia]).
    destruct f; [lia|]. rewrite (skipString_unit f i u (concat us ++ QUOTE :: l)) by
      (done || by destruct (concat us)).
    rewrite IH by (done || lia). do 2 f_equal. unfold zlen. rewrite length_app. lia.
Qed.

Lemma skipString_fwd i w l :
  suf i (w ++ l) -> jstring w -> skipString buf i max = Some (true, i + zlen w).
Proof using Hmax Hlen.
  intros Hs (us & Hu & ->). cbn in Hs. rewrite <- app_assoc in Hs. cbn in Hs.
  pose proof (suf_bounds _ _ Hs). destruct (suf_cons _ _ _ Hs) as (Hr & ? & Hs1).
  unfold skipString. rewrite (assert_max max) by done. run. inb. rewrite Hr. run.
  change (QUOTE =? QUOTE) with true. cbv iota. rewrite (usz_in max) by lia.
  rewrite (skipString_loop_fwd (fuel max) (i + 1) us l)
    by (done || (apply fuel_enough; lia)).
  run. do 2 f_equal. unfold zlen. cbn. rewrite length_app. cbn. lia.
Qed.

(** Anything but a quotation mark is not a string. *)
Lemma skipString_not i c l :
  suf i (c :: l) -> c <> QUOTE -> skipString buf i max = Some (false, i).
Proof using Hmax Hlen.
  intros Hs Hc. destruct (suf_cons _ _ _ Hs) as (Hr & ? & _).
  unfold skipString. rewrite (assert_max max) by done. run. inb. rewrite Hr. run.
  by rewrite (proj2 (Z.eqb_neq _ _) Hc).
Qed.

(** ** Literals *)

Lemma skipLiteral_not i c l lit n :
  suf i (c :: l) -> rd lit 0 <> Some c -> 0 < n < SIZE_MAX -> n <= zlen lit ->
  skipLiteral buf i max lit n = Some (false, i).
Proof using Hmax Hlen.
  intros Hs Hne Hn Hnl. pose proof (suf_bounds _ _ Hs).
  destruct (suf_cons _ _ _ Hs) as (Hr & ? & _).
  unfold skipLiteral. rewrite (assert_max max) by done. run.
  destruct (_ && _) eqn:Hc; [|done].
  destruct (strnEq_loop_spec (fuel n) (at_ buf i) lit 0 n) as (r & Hr' & Hiff);
    [lia|lia|rewrite zlen_at; lia|lia|unfold fuel; lia|].
  unfold strnEq. rewrite Hr'. run. destruct r; [|done]. exfalso. apply Hne.
  rewrite <- (proj1 Hiff eq_refl 0 ltac:(lia)), rd_at, Z.add_0_r by lia. done.
Qed.

Lemma skipLiteral_fwd i w l :
  suf i (w ++ l) -> 0 < zlen w < SIZE_MAX ->
  skipLiteral buf i max w (zlen w) = Some (true, i + zlen w).
Proof using Hmax Hlen.
  intros Hs Hw. pose proof (suf_bounds _ _ Hs).
  pose proof (suf_bounds _ _ (suf_app _ _ _ Hs)).
  unfold skipLiteral. rewrite (assert_max max) by done. run.
  replace ((i <? max) && (zlen w <=? max - i)) with true by lia.
  destruct (strnEq_spec (at_ buf i) w (zlen w)) as (r & -> & Hiff);
    [lia|rewrite zlen_at; lia|lia|]. run.
  assert (r = true) as ->.
  { apply Hiff. destruct Hs as [_ Hd]. unfold at_, zlen. rewrite Nat2Z.id.
    apply (f_equal (take (length w))) in Hd.
    rewrite take_app_length, skipn_firstn_comm, take_take in Hd.
    rewrite (take_ge w) by lia. rewrite <- Hd at 2. f_equal. unfold zlen in *. lia. }
  run. by rewrite (usz_in max) by lia.
Qed.

Lemma skipAnyLiteral_not i c l :
  suf i (c :: l) -> c <> 116 -> c <> 102 -> c <> 110 ->
  skipAnyLiteral buf i max = Some (false, i).
Proof using Hmax Hlen.
  intros Hs Ht Hf Hn. assert (5 < SIZE_MAX) by (vm_compute; done).
  unfold skipAnyLiteral.
  rewrite (skipLiteral_not i c l lit_true 4); [|done|vm_compute; congruence|lia|done].
  run. rewrite (skipLiteral_not i c l lit_false 5);
    [|done|vm_compute; congruence|lia|done].
  run. rewrite (skipLiteral_not i c l lit_null 4);
    [|done|vm_compute; congruence|lia|done].
  done.
Qed.

Lemma skipAnyLiteral_fwd i w l :
  suf i (w ++ l) -> jliteral w -> skipAnyLiteral buf i max = Some (true, i + zlen w).
Proof using Hmax Hlen.
  assert (5 < SIZE_MAX) by (vm_compute; done).
  intros Hs [-> | [-> | ->]]; unfold skipAnyLiteral.
  - rewrite (skipLiteral_fwd i lit_true l Hs : _ -> skipLiteral _ _ _ _ 4 = _)
      by (vm_compute; done). done.
  - rewrite (skipLiteral_not i _ _ lit_true 4 Hs); [|done|lia|done]. run.
    rewrite (skipLiteral_fwd i lit_false l Hs : _ -> skipLiteral _ _ _ _ 5 = _)
      by (vm_compute; done). done.
  - rewrite (skipLiteral_not i _ _ lit_true 4 Hs); [|done|lia|done]. run.
    rewrite (skipLiteral_not i _ _ lit_false 5 Hs); [|done|lia|done]. run.
    rewrite (skipLiteral_fwd i lit_null l Hs : _ -> skipLiteral _ _ _ _ 4 = _)
      by (vm_compute; done). done.
Qed.

(** ** Numbers *)

Definition nondigit (l : list Z) : Prop := next (fun c => negb (isdigit_ c)) l.

(** What may follow a number in a document. *)
Definition numend (l : list Z) : Prop :=
  next (fun c => isspace_ c || (c =? COMMA) || isCloseBracket_ c) l.

Lemma numend_facts l : numend l ->
  nondigit l /\ next (fun c => negb (c =? DOT)) l /\
  next (fun c => negb ((c =? 101) || (c =? 69))) l.
Proof.
  unfold numend, nondigit, next. destruct l as [|c l]; [done|].
  unfold isspace_, isdigit_, isCloseBracket_, COMMA, RBRACE, RBRACK, DOT. lia.
Qed.

Lemma skipDigits_loop_fwd f i ds l :
  suf i (ds ++ l) -> Forall (fun c => isdigit_ c = true) ds -> nondigit l ->
  (Z.to_nat (max - i) < f)%nat ->
  skipDigits_loop f buf i max false 0 = Some (i + zlen ds, 0).
Proof using Hmax Hlen.
  revert i ds. induction f as [|f IH]; intros i ds Hs Hd Hl Hf; [lia|].
  cbn [skipDigits_loop]. pose proof (suf_bounds _ _ Hs). destruct ds as [|c ds].
  - cbn in Hs. unfold zlen; cbn. rewrite Z.add_0_r. destruct l as [|c l].
    + apply (suf_nil buf max Hmax Hlen) in Hs as ->. by rewrite Z.ltb_irrefl.
    + destruct (suf_cons _ _ _ Hs) as (-> & ? & _). inb. run. cbn in Hl. by rewrite Hl.
  - destruct (suf_cons _ _ _ Hs) as (-> & ? & Hs1). inb. run.
    inversion_clear Hd as [|? ? Hc Hds]. rewrite Hc. cbn [negb andb].
    rewrite (usz_in max) by lia. rewrite (IH (i + 1) ds) by (done || lia).
    do 2 f_equal. unfold zlen; cbn. lia.
Qed.

Lemma skipDigits_fwd i ds l :
  suf i (ds ++ l) -> digits ds -> nondigit l ->
  skipDigits buf i max false = Some (true, i + zlen ds, None).
Proof using Hmax Hlen.
  intros Hs [Hne Hd] Hl. pose proof (suf_bounds _ _ Hs). unfold skipDigits.
  rewrite (assert_max max) by done. run.
  rewrite (skipDigits_loop_fwd (fuel max) i ds l)
    by (done || (apply fuel_enough; lia)). run.
  rewrite (proj2 (Z.ltb_lt _ _)); [done|].
  destruct ds; [done|]. unfold zlen; cbn. lia.
Qed.

Lemma skipDecimals_fwd i f l :
  suf i (f ++ l) -> jfrac f -> nondigit l -> next (fun c => negb (c =? DOT)) l ->
  skipDecimals buf i max = Some (i + zlen f).
Proof using Hmax Hlen.
  intros Hs Hf Hl Hdot. pose proof (suf_bounds _ _ Hs). unfold skipDecimals.
  rewrite (assert_max max) by done. run. destruct Hf as [->|(ds & -> & Hds)].
  - unfold zlen; cbn. rewrite Z.add_0_r. destruct l as [|c l].
    + apply (suf_nil buf max Hmax Hlen) in Hs as ->. by rewrite Z.ltb_irrefl.
    + destruct (suf_cons _ _ _ Hs) as (-> & ? & _). inb. run.
      cbn in Hdot. apply negb_true_iff in Hdot. by rewrite Hdot.
  - destruct (suf_cons _ _ _ Hs) as (-> & ? & Hs1). inb. run.
    change (DOT =? DOT) with true. cbv iota. rewrite (usz_in max) by lia.
    rewrite (skipDigits_fwd (i + 1) ds l) by done. run.
    f_equal. unfold zlen; cbn. lia.
Qed.

(** An optional sign in front of the digits of an exponent. *)
Lemma sign_fwd i sign ds l :
  suf i (sign ++ ds ++ l) -> (sign = [] \/ sign = [45] \/ sign = [43]) ->
  digits ds ->
  (if i <? max then
     s ← rd buf i;
     Some (if (s =? 45) || (s =? 43) then usz (i + 1) else i)
   else Some i) = Some (i + zlen sign).
Proof using Hmax Hlen.
  intros Hs Hsg [Hne Hd]. pose proof (suf_bounds _ _ Hs).
  destruct Hsg as [-> | [-> | ->]]; cbn in Hs;
    [|destruct (suf_cons _ _ _ Hs) as (-> & ? & _); inb; run; cbn;
      by rewrite (usz_in max) by lia..].
  destruct ds as [|c ds]; [done|]. destruct (suf_cons _ _ _ Hs) as (-> & ? & _).
  inb. run. inversion_clear Hd as [|? ? Hc _]. unfold isdigit_ in Hc.
  replace ((c =? 45) || (c =? 43)) with false by lia.
  f_equal. unfold zlen; cbn. lia.
Qed.

Lemma skipExponent_fwd i e l :
  suf i (e ++ l) -> jexp e -> nondigit l ->
  next (fun c => negb ((c =? 101) || (c =? 69))) l ->
  skipExponent buf i max = Some (i + zlen e).
Proof using Hmax Hlen.
  intros Hs He Hl Hne. pose proof (suf_bounds _ _ Hs). unfold skipExponent.
  rewrite (assert_max max) by done. run.
  destruct He as [->|(c & sign & ds & -> & Hc & Hsg & Hds)].
  - unfold zlen; cbn. rewrite Z.add_0_r. destruct l as [|c l].
    + apply (suf_nil buf max Hmax Hlen) in Hs as ->. by rewrite Z.ltb_irrefl.
    + destruct (suf_cons _ _ _ Hs) as (-> & ? & _). inb. run.
      cbn in Hne. apply negb_true_iff in Hne. by rewrite Hne.
  - cbn in Hs. rewrite <- app_assoc in Hs.
    destruct (suf_cons _ _ _ Hs) as (-> & ? & Hs1). inb. run.
    replace ((c =? 101) || (c =? 69)) with true by lia. rewrite (usz_in max Hmax (i + 1)) by lia.
    pose proof (sign_fwd (i + 1) sign ds l Hs1 Hsg Hds) as Hsign.
    rewrite Hsign. run. apply suf_app in Hs1.
    rewrite (skipDigits_fwd _ ds l) by done. run.
    f_equal. unfold zlen; cbn. rewrite length_app. lia.
Qed.

Lemma jfrac_head f l P :
  jfrac f -> next P l -> P DOT = true -> next P (f ++ l).
Proof. intros [->|(ds & -> & _)]; done. Qed.

Lemma jexp_head e l P :
  jexp e -> next P l -> P 101 = true -> P 69 = true -> next P (e ++ l).
Proof. intros [->|(c & ? & ? & -> & [-> | ->] & _)]; done. Qed.

Lemma jint_fwd i n l :
  suf i (n ++ l) -> jint n -> nondigit l ->
  (c ← rd buf i;
   if c =? 48 then Some (true, usz (i + 1))
   else '(ok, i, _) ← skipDigits buf i max false; Some (ok, i))
  = Some (true, i + zlen n) /\ i < max.
Proof using Hmax Hlen.
  intros Hs Hn Hl. pose proof (suf_bounds _ _ Hs). destruct Hn as [->|[Hd Hh]].
  - destruct (suf_cons _ _ _ Hs) as (-> & ? & _). run. cbn.
    rewrite (usz_in max) by lia. done.
  - pose proof Hd as [Hne _]. destruct n as [|c n]; [done|]. cbn in Hh.
    pose proof Hs as Hs'. cbn in Hs'.
    destruct (suf_cons _ _ _ Hs') as (-> & ? & _). run.
    rewrite (proj2 (Z.eqb_neq _ _) Hh). rewrite (skipDigits_fwd i (c :: n) l) by done.
    done.
Qed.

Lemma skipNumber_fwd i w l :
  suf i (w ++ l) -> jnumber w -> numend l ->
  skipNumber buf i max = Some (true, i + zlen w).
Proof using Hmax Hlen.
  intros Hs (m & n & f & e & -> & Hm & Hn & Hf & He) Hl.
  destruct (numend_facts l Hl) as (Hnd & Hdot & Hexp).
  rewrite <- !app_assoc in Hs. pose proof (suf_bounds _ _ Hs).
  assert (Hfe : nondigit (f ++ e ++ l)).
  { apply jfrac_head; [done| |done]. by apply jexp_head. }
  assert (Hsign : (if i <? max then
      c ← rd buf i; Some (if c =? 45 then usz (i + 1) else i)
    else Some i) = Some (i + zlen m)).
  { destruct Hm as [-> | ->]; cbn in Hs.
    - destruct n as [|c n]; [destruct Hn as [?|[[? _] _]]; done|].
      destruct (suf_cons _ _ _ Hs) as (-> & ? & _). inb. run.
      assert (c <> 45).
      { destruct Hn as [[= -> _]|[[_ Hd] _]]; [done|].
        inversion_clear Hd as [|? ? Hc _]. unfold isdigit_ in Hc. lia. }
      rewrite (proj2 (Z.eqb_neq _ _)) by done. f_equal. unfold zlen; cbn. lia.
    - destruct (suf_cons _ _ _ Hs) as (-> & ? & _). inb. run. cbn.
      by rewrite (usz_in max) by lia. }
  unfold skipNumber. rewrite (assert_max max) by done. run. rewrite Hsign. run.
  pose proof (suf_app _ _ _ Hs) as Hs1.
  destruct (jint_fwd _ n (f ++ e ++ l) Hs1 Hn Hfe) as [Hint Hlt]. inb.
  rewrite Hint. run. apply suf_app in Hs1.
  rewrite (skipDecimals_fwd _ f (e ++ l)); [|done|done|by apply jexp_head..]. run.
  apply suf_app in Hs1. rewrite (skipExponent_fwd _ e l) by done. run.
  do 2 f_equal. unfold zlen. rewrite !length_app. lia.
Qed.

Lemma skipNumber_not i c l :
  suf i (c :: l) -> c <> 45 -> isdigit_ c = false ->
  skipNumber buf i max = Some (false, i).
Proof using Hmax Hlen.
  intros Hs Hm Hd. destruct (suf_cons _ _ _ Hs) as (Hr & ? & _).
  unfold skipNumber. rewrite (assert_max max) by done. run. inb. rewrite Hr. run.
  rewrite (proj2 (Z.eqb_neq _ _) Hm). inb. rewrite Hr. run.
  assert (c <> 48) by (unfold isdigit_ in Hd; lia).
  rewrite (proj2 (Z.eqb_neq c 48)) by done. unfold skipDigits.
  rewrite (assert_max max) by done. run. unfold fuel. cbn [skipDigits_loop]. inb.
  rewrite Hr. run. rewrite Hd. cbn [negb]. run. by rewrite Z.ltb_irrefl.
Qed.

(** ** Scalars *)

Lemma jnumber_head w : jnumber w -> exists c t, w = c :: t /\ (c = 45 \/ isdigit_ c = true).
Proof.
  intros (m & n & f & e & -> & [-> | ->] & Hn & _ & _); [|by do 2 eexists; auto].
  destruct Hn as [->|[[Hne Hd] _]]; [do 2 eexists; auto|].
  destruct n as [|c n]; [done|]. inversion_clear Hd. do 2 eexists. auto.
Qed.

Lemma skipAnyScalar_fwd i w l :
  suf i (w ++ l) -> jscalar w -> numend l ->
  skipAnyScalar buf i max = Some (true, i + zlen w).
Proof using Hmax Hlen.
  intros Hs [Hw|[Hw|Hw]] Hl; unfold skipAnyScalar.
  - rewrite (skipString_fwd i w l) by done. done.
  - assert (exists c t, w = c :: t /\ c <> QUOTE) as (c & t & -> & Hq)
      by (destruct Hw as [-> | [-> | ->]]; do 2 eexists; (split; [reflexivity|done])).
    rewrite (skipString_not i c (t ++ l)) by done. run.
    rewrite (skipAnyLiteral_fwd i (c :: t) l) by done. done.
  - destruct (jnumber_head w Hw) as (c & t & -> & Hc).
    assert (c <> QUOTE /\ c <> 116 /\ c <> 102 /\ c <> 110) as (? & ? & ? & ?).
    { unfold isdigit_, QUOTE in *. lia. }
    rewrite (skipString_not i c (t ++ l)) by done. run.
    rewrite (skipAnyLiteral_not i c (t ++ l)) by done. run.
    rewrite (skipNumber_fwd i (c :: t) l) by done. done.
Qed.

(** A bracket of either kind does not start a scalar. *)
Lemma skipAnyScalar_bracket i c l :
  suf i (c :: l) -> isOpenBracket_ c || isCloseBracket_ c = true ->
  skipAnyScalar buf i max = Some (false, i).
Proof using Hmax Hlen.
  intros Hs Hc. unfold isOpenBracket_, isCloseBracket_, LBRACE, LBRACK, RBRACE, RBRACK in Hc.
  unfold skipAnyScalar.
  rewrite (skipString_not i c l) by (unfold QUOTE; done || lia). run.
  rewrite (skipAnyLiteral_not i c l) by (done || lia). run.
  rewrite (skipNumber_not i c l); [done|done|lia|unfold isdigit_; lia].
Qed.

(** A scalar starts neither with whitespace nor with a bracket. *)
Lemma jscalar_head w : jscalar w ->
  exists c t, w = c :: t /\ isspace_ c = false /\ isCloseBracket_ c = false /\
  isOpenBracket_ c = false.
Proof.
  intros [(us & _ & ->)|[Hl|Hn]]; [by do 2 eexists|..].
  - destruct Hl as [-> | [-> | ->]]; by do 2 eexists.
  - destruct (jnumber_head w Hn) as (c & t & -> & Hc). do 2 eexists. split; [done|].
    unfold isdigit_, isspace_, isCloseBracket_, isOpenBracket_, LBRACE, LBRACK,
      RBRACE, RBRACK in *. split_and!; lia.
Qed.

End Tokens.
