(* ===== verification/CoreJsonComplete.v ===== *)
(** * [JSON_Validate] accepts every JSON document

    Collections: the stack machine of [skipCollection] runs from the opening
    bracket of a value of the grammar to its closing bracket.  The step
    relation is the body of the C loop; the run is built by induction on the
    derivation of the value. *)

From stdpp Require Import relations.
From S2P Require Import Prelude CoreJson CoreJsonSafety CoreJsonGrammar.
From S2P Require Import CoreJsonTokens.
Import Json.

(** ** More fuel does not change a result *)

Lemma skipArrayScalars_mono buf max f f' i r :
  (f <= f')%nat -> skipArrayScalars_loop f buf i max = Some r ->
  skipArrayScalars_loop f' buf i max = Some r.
Proof.
  revert f' i. induction f as [|f IH]; intros f' i Hf; [done|].
  destruct f' as [|f']; [lia|]. cbn. destruct (i <? max); [|done].
  destruct (skipAnyScalar buf i max) as [[ok j]|]; cbn; [|done].
  destruct ok; cbn; [|done].
  destruct (skipSpaceAndComma buf j max) as [[c k]|]; cbn; [|done].
  destruct c; cbn; [|done]. apply IH. lia.
Qed.

Lemma skipObjectScalars_mono buf max f f' i s r :
  (f <= f')%nat -> skipObjectScalars_loop f buf i s max = Some r ->
  skipObjectScalars_loop f' buf i s max = Some r.
Proof.
  revert f' i s. induction f as [|f IH]; intros f' i s Hf; [done|].
  destruct f' as [|f']; [lia|]. cbn. destruct (i <? max); [|done].
  destruct (skipString buf i max) as [[ok j]|]; cbn; [|done].
  destruct ok; cbn; [|done].
  destruct (skipSpace buf j max) as [k|]; cbn; [|done].
  match goal with |- context [?m ≫= _] => destruct m as [[|]|] end; cbn; [done| |done].
  destruct (skipSpace buf (usz (k + 1)) max) as [m|]; cbn; [|done].
  match goal with |- context [?m ≫= _] => destruct m as [[|]|] end; cbn; [done| |done].
  destruct (skipAnyScalar buf m max) as [[ok' n]|]; cbn; [|done].
  destruct ok'; cbn; [|done].
  destruct (skipSpaceAndComma buf n max) as [[c p]|]; cbn; [|done].
  destruct c; cbn; [|done]. apply IH. lia.
Qed.

Lemma skipCollection_mono buf max f f' i d st r :
  (f <= f')%nat -> skipCollection_loop f buf i max d st = Some r ->
  skipCollection_loop f' buf i max d st = Some r.
Proof.
  revert f' i d st. induction f as [|f IH]; intros f' i d st Hf; [done|].
  destruct f' as [|f']; [lia|]. cbn. destruct (i <? max); [|done].
  destruct (skipCollection_step buf i max d st) as [[[[i' d'] st'] ret]|];
    cbn; [|done].
  case_decide; [|done]. apply IH. lia.
Qed.

(** ** First bytes *)

Lemma jvalue_head d v : jvalue d v ->
  exists c t, v = c :: t /\ isspace_ c = false /\ isCloseBracket_ c = false /\
  (isOpenBracket_ c = false -> jscalar v).
Proof.
  intros H. inversion H as [? ? Hs| | | |]; subst; [|by do 2 eexists..].
  destruct (jscalar_head v Hs) as (c & t & -> & ? & ? & ?). do 2 eexists.
  split_and!; auto.
Qed.

Lemma jelems_head d w : jelems d w ->
  exists s c t, w = s ++ c :: t /\ ws s /\ isspace_ c = false /\
  isCloseBracket_ c = false.
Proof.
  intros [? s1 v s2 Hw Hv _|? s1 v s2 w' Hw Hv _ _];
    destruct (jvalue_head _ _ Hv) as (c & t & -> & ? & ? & _);
    exists s1, c; eexists; (split; [reflexivity|done]).
Qed.

Lemma jmembers_head d w : jmembers d w ->
  exists s t, w = s ++ QUOTE :: t /\ ws s.
Proof.
  intros [? s1 k s2 s3 v s4 Hw (us & _ & ->)|? s1 k s2 s3 v s4 w' Hw (us & _ & ->)];
    exists s1; eexists; (split; [reflexivity|done]).
Qed.

Lemma numend_ws s l : ws s -> numend l -> numend (s ++ l).
Proof. intros Hs Hl. destruct Hs as [|c s Hc _]; [done|]. cbn. by rewrite Hc. Qed.

Lemma bracket_nonspace c l :
  isOpenBracket_ c || isCloseBracket_ c = true -> nonspace (c :: l).
Proof.
  unfold isOpenBracket_, isCloseBracket_, LBRACE, LBRACK, RBRACE, RBRACK, isspace_.
  cbn. unfold isspace_. lia.
Qed.

Section Machine.
Context (buf : list Z) (max : Z).
Context (Hmax : 0 < max < SIZE_MAX) (Hlen : max <= zlen buf).

Local Abbreviation suf := (suf buf max).
Local Abbreviation suf_cons := (suf_cons buf max Hmax Hlen).
Local Abbreviation suf_app := (suf_app buf max Hmax Hlen).
Local Abbreviation suf_bounds := (suf_bounds buf max).
Local Abbreviation skipSpace_fwd := (skipSpace_fwd buf max Hmax Hlen).
Local Abbreviation comma_none := (skipSpaceAndComma_none buf max Hmax Hlen).
Local Abbreviation comma_some := (skipSpaceAndComma_some buf max Hmax Hlen).

Ltac run := cbn [mbind option_bind].

(** ** Runs of scalars *)

Lemma array_fuel f i :
  0 <= i <= max -> (Z.to_nat (max - i) < f)%nat ->
  skipArrayScalars_loop f buf i max = skipArrayScalars buf i max.
Proof using Hmax Hlen.
  intros Hi Hf. unfold skipArrayScalars. rewrite (assert_max max) by done. run.
  destruct (skipArrayScalars_loop_ok buf max Hmax Hlen f i Hi Hf) as (j & Hj & _).
  destruct (skipArrayScalars_loop_ok buf max Hmax Hlen (fuel max) i Hi)
    as (k & Hk & _); [apply fuel_enough; lia|].
  rewrite Hj, Hk.
  apply (skipArrayScalars_mono _ _ _ (f + fuel max)%nat) in Hj, Hk; [|lia..].
  congruence.
Qed.

Lemma object_fuel f i :
  0 <= i <= max -> (Z.to_nat (max - i) < f)%nat ->
  skipObjectScalars_loop f buf i i max = skipObjectScalars buf i max.
Proof using Hmax Hlen.
  intros Hi Hf. unfold skipObjectScalars. rewrite (assert_max max) by done. run.
  destruct (skipObjectScalars_loop_ok buf max Hmax Hlen f i i) as (j & Hj & _);
    [lia..|].
  destruct (skipObjectScalars_loop_ok buf max Hmax Hlen (fuel max) i i)
    as (k & Hk & _); [lia|lia|apply fuel_enough; lia|].
  rewrite Hj, Hk.
  apply (skipObjectScalars_mono _ _ _ (f + fuel max)%nat) in Hj, Hk; [|lia..].
  congruence.
Qed.

(** [skipScalars] skips the whitespace in front and dispatches on the mode. *)
Lemma skipScalars_at i s c l mode :
  suf i (s ++ c :: l) -> ws s -> isspace_ c = false -> isOpenBracket_ mode = true ->
  skipScalars buf i max mode =
    (if mode =? LBRACK then skipArrayScalars buf (i + zlen s) max
     else skipObjectScalars buf (i + zlen s) max).
Proof using Hmax Hlen.
  intros Hs Hw Hc Hm. unfold skipScalars. rewrite Hm. cbn [assert_]. run.
  rewrite (skipSpace_fwd i s (c :: l)); [done|done|done|]. cbn. by rewrite Hc.
Qed.

(** One array element that is a scalar, and then a closing bracket. *)
Lemma array_scalar_last i v s c l :
  suf i (v ++ s ++ c :: l) -> jscalar v -> ws s -> isCloseBracket_ c = true ->
  skipArrayScalars buf i max = Some (i + zlen v + zlen s).
Proof using Hmax Hlen.
  intros Hs Hv Hw Hc. pose proof (suf_bounds _ _ Hs) as Hb.
  assert (Hn : nonspace (c :: l))
    by (apply bracket_nonspace; rewrite Hc; apply orb_true_r).
  assert (Hne : numend (s ++ c :: l)).
  { apply numend_ws; [done|]. cbn. rewrite Hc. apply orb_true_r. }
  assert (i < max).
  { destruct (jscalar_head v Hv) as (x & t & -> & _).
    by destruct (suf_cons _ _ _ Hs) as (_ & ? & _). }
  unfold skipArrayScalars. rewrite (assert_max max) by done. run. unfold fuel.
  cbn [skipArrayScalars_loop]. inb.
  rewrite (skipAnyScalar_fwd buf max Hmax Hlen i v (s ++ c :: l)) by done. run.
  cbn [negb]. apply suf_app in Hs.
  rewrite (comma_none _ s (c :: l)); [done|done|done|done|].
  cbn. unfold isCloseBracket_, RBRACE, RBRACK, COMMA in *. lia.
Qed.

(** One scalar element, a comma, and the start of the next element. *)
Lemma array_scalar_cons i v s s' c l :
  suf i (v ++ s ++ COMMA :: s' ++ c :: l) -> jscalar v -> ws s -> ws s' ->
  isspace_ c = false -> isCloseBracket_ c = false ->
  skipArrayScalars buf i max =
    skipArrayScalars buf (i + zlen v + zlen s + 1 + zlen s') max.
Proof using Hmax Hlen.
  intros Hs Hv Hw Hw' Hc Hb. pose proof (suf_bounds _ _ Hs) as Hi.
  assert (Hne : numend (s ++ COMMA :: s' ++ c :: l)) by (by apply numend_ws).
  assert (i < max /\ 0 < zlen v) as [? ?].
  { destruct (jscalar_head v Hv) as (x & t & -> & _). unfold zlen; cbn.
    destruct (suf_cons _ _ _ Hs) as (_ & ? & _). split; [done|lia]. }
  unfold skipArrayScalars at 1. rewrite (assert_max max) by done. run. unfold fuel.
  remember (S (Z.to_nat max)) as g. cbn [skipArrayScalars_loop]. inb.
  rewrite (skipAnyScalar_fwd buf max Hmax Hlen i v (s ++ COMMA :: s' ++ c :: l)) by done.
  run. cbn [negb]. apply suf_app in Hs.
  rewrite (comma_some _ s s' c l) by done. run. cbn [negb].
  assert (Hend : 0 <= i + zlen v + zlen s + 1 + zlen s' <= max).
  { apply suf_app, (suf_app _ [COMMA]), suf_app, suf_bounds in Hs.
    unfold zlen in *; cbn in *. lia. }
  assert (0 <= zlen s /\ 0 <= zlen s') by (unfold zlen; lia).
  apply array_fuel; lia.
Qed.

Lemma array_bracket i c l :
  suf i (c :: l) -> isOpenBracket_ c || isCloseBracket_ c = true ->
  skipArrayScalars buf i max = Some i.
Proof using Hmax Hlen.
  intros Hs Hc. destruct (suf_cons _ _ _ Hs) as (_ & ? & _).
  unfold skipArrayScalars. rewrite (assert_max max) by done. run. unfold fuel.
  cbn [skipArrayScalars_loop]. inb.
  by rewrite (skipAnyScalar_bracket buf max Hmax Hlen i c l) by done.
Qed.

(** A key, its colon and the whitespace behind it. *)
Lemma object_key f i start k s2 s3 c l :
  suf i (k ++ s2 ++ COLON :: s3 ++ c :: l) -> jstring k -> ws s2 -> ws s3 ->
  isspace_ c = false ->
  skipObjectScalars_loop (S f) buf i start max =
    let m := i + zlen k + zlen s2 + 1 + zlen s3 in
    if isOpenBracket_ c then Some m
    else '(ok, n) ← skipAnyScalar buf m max;
         if negb ok then Some start else
         '(comma, n) ← skipSpaceAndComma buf n max;
         if negb comma then Some n else skipObjectScalars_loop f buf n n max.
Proof using Hmax Hlen.
  intros Hs Hk Hw2 Hw3 Hc. pose proof (suf_bounds _ _ Hs) as Hi.
  assert (i < max).
  { destruct Hk as (us & _ & ->). by destruct (suf_cons _ _ _ Hs) as (_ & ? & _). }
  cbn [skipObjectScalars_loop]. inb.
  rewrite (skipString_fwd buf max Hmax Hlen i k (s2 ++ COLON :: s3 ++ c :: l)) by done.
  run. cbn [negb]. apply suf_app in Hs.
  rewrite (skipSpace_fwd _ s2 (COLON :: s3 ++ c :: l)) by done. run.
  apply suf_app in Hs. pose proof (suf_bounds _ _ Hs).
  destruct (suf_cons _ _ _ Hs) as (-> & ? & Hs1). inb. run.
  change (negb (COLON =? COLON)) with false. cbv iota. rewrite (usz_in max) by lia.
  rewrite (skipSpace_fwd _ s3 (c :: l)); [|done|done|cbn; by rewrite Hc]. run.
  apply suf_app in Hs1. destruct (suf_cons _ _ _ Hs1) as (-> & ? & _). inb. run.
  done.
Qed.

(** ** The stack machine *)

Definition cstate : Type := Z * Z * list Z.

Definition cstep (a b : cstate) : Prop :=
  let '(i, d, st) := a in let '(i', d', st') := b in
  i < max /\ skipCollection_step buf i max d st = Some (i', d', st', JSONPartial).

Lemma cstep_loop a b f r :
  cstep a b ->
  skipCollection_loop f buf b.1.1 max b.1.2 b.2 = Some r ->
  skipCollection_loop (S f) buf a.1.1 max a.1.2 a.2 = Some r.
Proof.
  destruct a as [[i d] st], b as [[i' d'] st']. intros [Hi Hs] Hl.
  cbn [skipCollection_loop fst snd] in *. inb. rewrite Hs. run.
  by rewrite decide_True by done.
Qed.

Lemma csteps_loop a b r :
  rtc cstep a b ->
  (exists f, skipCollection_loop f buf b.1.1 max b.1.2 b.2 = Some r) ->
  exists f, skipCollection_loop f buf a.1.1 max a.1.2 a.2 = Some r.
Proof.
  intros Hr. induction Hr as [|a c b Hs _ IH]; [done|]. intros Hb.
  destruct (IH Hb) as [f Hf]. exists (S f). by eapply cstep_loop.
Qed.

(** Levels up to [d] hold the same brackets. *)
Definition agree (d : Z) (s s' : list Z) : Prop :=
  forall k, 0 <= k <= d -> rd s' k = rd s k.

Lemma agree_push d s c :
  0 <= d + 1 -> agree d s (<[Z.to_nat (d + 1) := c]> s).
Proof.
  intros Hd k Hk. rewrite !rd_lookup by lia. apply list_lookup_insert_ne. lia.
Qed.

Lemma agree_trans d s s' s'' : agree d s s' -> agree d s' s'' -> agree d s s''.
Proof. intros H H' k Hk. rewrite H', H; auto. Qed.

Lemma agree_mono d d' s s' : d' <= d -> agree d s s' -> agree d' s s'.
Proof. intros Hd H k Hk. apply H. lia. Qed.

(** Opening a collection: the bracket is pushed and the scalars behind it
    are skipped. *)
Lemma cstep_open i d st c l p :
  suf i (c :: l) -> isOpenBracket_ c = true -> stack_wf d st ->
  d + 1 < JSON_MAX_DEPTH -> skipScalars buf (i + 1) max c = Some p ->
  cstep (i, d, st) (p, d + 1, <[Z.to_nat (d + 1) := c]> st).
Proof using Hmax Hlen.
  intros Hs Hc Hst Hd Hp. pose proof (suf_bounds _ _ Hs).
  destruct (suf_cons _ _ _ Hs) as (Hr & Hi & _). split; [done|].
  unfold skipCollection_step. rewrite Hr. run.
  unfold isOpenBracket_ in Hc. rewrite Hc. rewrite (usz_in max) by lia.
  rewrite (proj2 (Z.eqb_neq _ _)) by lia. destruct Hst as (Hl & Hd' & _).
  destruct (rd_app_lt st (d + 1)) as [x ->]; [lia|]. run.
  rewrite Hp. done.
Qed.

(** Closing an inner collection that is followed by a closing bracket. *)
Lemma step_close_match c' t :
  isMatchingBracket_ t c' = true ->
  (c' =? LBRACE) || (c' =? LBRACK) = false /\ (c' =? RBRACE) || (c' =? RBRACK) = true.
Proof.
  unfold isMatchingBracket_, isCurlyPair_, isSquarePair_, LBRACE, LBRACK, RBRACE, RBRACK.
  lia.
Qed.

Lemma cstep_close i d st c' t s l :
  suf i (c' :: s ++ l) -> 0 <= d -> rd st (d + 1) = Some t ->
  isMatchingBracket_ t c' = true -> ws s -> nonspace l ->
  next (fun c => negb (c =? COMMA)) l ->
  cstep (i, d + 1, st) (i + 1 + zlen s, d, st).
Proof using Hmax Hlen.
  intros Hs Hd Ht Hm Hw Hn Hc. pose proof (suf_bounds _ _ Hs).
  destruct (suf_cons _ _ _ Hs) as (Hr & Hi & Hs1). split; [done|].
  unfold skipCollection_step. rewrite Hr. run.
  destruct (step_close_match c' t Hm) as [-> ->]. inb. rewrite Ht. run. rewrite Hm.
  rewrite (usz_in max) by lia. rewrite (comma_none _ s l) by done. run.
  do 4 f_equal. lia.
Qed.

(** Closing an inner collection that is followed by a comma: the scan goes
    on in the mode of the enclosing collection. *)
Lemma cstep_close_comma i d st c' t m s s' c l p :
  suf i (c' :: s ++ COMMA :: s' ++ c :: l) -> 0 <= d -> rd st (d + 1) = Some t ->
  isMatchingBracket_ t c' = true -> ws s -> ws s' -> isspace_ c = false ->
  isCloseBracket_ c = false -> rd st d = Some m ->
  skipScalars buf (i + 1 + zlen s + 1 + zlen s') max m = Some p ->
  cstep (i, d + 1, st) (p, d, st).
Proof using Hmax Hlen.
  intros Hs Hd Ht Hm Hw Hw' Hc Hcb Hmode Hp. pose proof (suf_bounds _ _ Hs).
  destruct (suf_cons _ _ _ Hs) as (Hr & Hi & Hs1). split; [done|].
  unfold skipCollection_step. rewrite Hr. run.
  destruct (step_close_match c' t Hm) as [-> ->]. inb. rewrite Ht. run. rewrite Hm.
  rewrite (usz_in max) by lia. rewrite (comma_some _ s s' c l) by done. run.
  replace (d + 1 - 1) with d by lia. rewrite Hmode. run. rewrite Hp. done.
Qed.

(** ** Items of a collection

    An item is a value behind an optional key; [scalars m i] is the scan of
    the body of a collection opened by [m], from its first non-space byte. *)
Inductive lead : Z -> list Z -> Prop :=
| lead_array : lead LBRACK []
| lead_object k s2 s3 : jstring k -> ws s2 -> ws s3 ->
    lead LBRACE (k ++ s2 ++ COLON :: s3).

Definition scalars (m i : Z) : option Z :=
  if m =? LBRACK then skipArrayScalars buf i max else skipObjectScalars buf i max.

Definition closing (m : Z) : Z := if m =? LBRACK then RBRACK else RBRACE.

Lemma lead_open m p : lead m p -> isOpenBracket_ m = true.
Proof. by intros []. Qed.

Lemma closing_close m : isCloseBracket_ (closing m) = true.
Proof. unfold closing. by case_match. Qed.

Lemma closing_match m : isOpenBracket_ m = true -> isMatchingBracket_ m (closing m) = true.
Proof.
  unfold isOpenBracket_, closing, isMatchingBracket_, isCurlyPair_, isSquarePair_,
    LBRACE, LBRACK, RBRACE, RBRACK. intros H. destruct (Z.eqb_spec m 91); lia.
Qed.

Lemma lead_assoc (k s2 s3 w : list Z) :
  (k ++ s2 ++ COLON :: s3) ++ w = k ++ s2 ++ COLON :: s3 ++ w.
Proof. by rewrite <- !app_assoc. Qed.

Lemma zlen_lead (k s2 s3 : list Z) i :
  i + zlen (k ++ s2 ++ COLON :: s3) = i + zlen k + zlen s2 + 1 + zlen s3.
Proof. unfold zlen. rewrite !length_app. cbn. lia. Qed.

Lemma scalars_nested m p i c l :
  lead m p -> suf i (p ++ c :: l) -> isOpenBracket_ c = true ->
  scalars m i = Some (i + zlen p).
Proof using Hmax Hlen.
  intros [|k s2 s3 Hk H2 H3] Hs Hc; unfold scalars; cbn.
  - rewrite (array_bracket i c l); [f_equal; unfold zlen; cbn; lia|done|by rewrite Hc].
  - rewrite lead_assoc in Hs. unfold skipObjectScalars.
    rewrite (assert_max max) by done. run. unfold fuel.
    rewrite (object_key _ i i k s2 s3 c l); try done; cycle 1.
    { assert (Hn := bracket_nonspace c l ltac:(by rewrite Hc)). cbn in Hn.
      by apply negb_true_iff. }
    cbv zeta. by rewrite Hc, zlen_lead.
Qed.

Lemma scalars_last m p i v s c l :
  lead m p -> suf i (p ++ v ++ s ++ c :: l) -> jscalar v -> ws s ->
  isCloseBracket_ c = true -> scalars m i = Some (i + zlen p + zlen v + zlen s).
Proof using Hmax Hlen.
  intros [|k s2 s3 Hk H2 H3] Hs Hv Hw Hc; unfold scalars; cbn.
  - rewrite (array_scalar_last i v s c l) by done. f_equal. unfold zlen; cbn. lia.
  - assert (Hn : nonspace (c :: l))
      by (apply bracket_nonspace; rewrite Hc; apply orb_true_r).
    assert (Hne : numend (s ++ c :: l)).
    { apply numend_ws; [done|]. cbn. rewrite Hc. apply orb_true_r. }
    rewrite lead_assoc in Hs. unfold skipObjectScalars.
    rewrite (assert_max max) by done. run. unfold fuel.
    destruct (jscalar_head v Hv) as (x & t & Ev & Hx & _ & Ho).
    rewrite (object_key _ i i k s2 s3 x (t ++ s ++ c :: l)) by (done || by subst v).
    cbv zeta. rewrite Ho, zlen_lead. apply suf_app, suf_app, (suf_app _ [COLON]), suf_app in Hs.
    change (zlen [COLON]) with 1 in Hs.
    rewrite (skipAnyScalar_fwd buf max Hmax Hlen _ v (s ++ c :: l)) by done. run.
    cbn [negb]. apply suf_app in Hs.
    rewrite (comma_none _ s (c :: l)); [done|done|done|done|].
    cbn. unfold isCloseBracket_, RBRACE, RBRACK, COMMA in *. lia.
Qed.

Lemma scalars_cons m p i v s s' c l :
  lead m p -> suf i (p ++ v ++ s ++ COMMA :: s' ++ c :: l) -> jscalar v -> ws s ->
  ws s' -> isspace_ c = false -> isCloseBracket_ c = false ->
  scalars m i = scalars m (i + zlen p + zlen v + zlen s + 1 + zlen s').
Proof using Hmax Hlen.
  intros [|k s2 s3 Hk H2 H3] Hs Hv Hw Hw' Hc Hb; unfold scalars; cbn.
  - rewrite (array_scalar_cons i v s s' c l) by done. f_equal. unfold zlen; cbn. lia.
  - assert (Hne : numend (s ++ COMMA :: s' ++ c :: l)) by (by apply numend_ws).
    rewrite lead_assoc in Hs. unfold skipObjectScalars at 1.
    rewrite (assert_max max) by done. run. unfold fuel.
    pose proof (suf_bounds _ _ Hs) as Hi.
    destruct (jscalar_head v Hv) as (x & t & Ev & Hx & _ & Ho).
    rewrite (object_key _ i i k s2 s3 x (t ++ s ++ COMMA :: s' ++ c :: l))
      by (done || by subst v).
    cbv zeta. rewrite Ho, zlen_lead. apply suf_app, suf_app, (suf_app _ [COLON]), suf_app in Hs.
    change (zlen [COLON]) with 1 in Hs.
    rewrite (skipAnyScalar_fwd buf max Hmax Hlen _ v (s ++ COMMA :: s' ++ c :: l)) by done.
    run. cbn [negb]. apply suf_app in Hs.
    rewrite (comma_some _ s s' c l) by done. run. cbn [negb].
    apply suf_app, (suf_app _ [COMMA]), suf_app, suf_bounds in Hs.
    change (zlen [COMMA]) with 1 in Hs.
    apply object_fuel; unfold zlen in *; lia.
Qed.

Lemma skipScalars_scalars i s c l m :
  suf i (s ++ c :: l) -> ws s -> isspace_ c = false -> isOpenBracket_ m = true ->
  skipScalars buf i max m = scalars m (i + zlen s).
Proof using Hmax Hlen. intros. unfold scalars. by eapply skipScalars_at. Qed.

Lemma skipScalars_skip i s c l m :
  suf i (s ++ c :: l) -> ws s -> isspace_ c = false -> isOpenBracket_ m = true ->
  skipScalars buf i max m = skipScalars buf (i + zlen s) max m.
Proof using Hmax Hlen.
  intros Hs Hw Hc Hm. rewrite (skipScalars_scalars i s c l m) by done.
  rewrite (skipScalars_scalars (i + zlen s) [] c l m); try done.
  - f_equal. unfold zlen; cbn. lia.
  - by apply suf_app in Hs.
  - by constructor.
Qed.

(** ** Runs over values and bodies *)

(** A collection of the grammar is run through to its closing bracket, which
    is left unread with its opening bracket on top of the stack. *)
Definition run_value (d : nat) (v : list Z) : Prop :=
  forall c t i depth st l,
  v = c :: t -> isOpenBracket_ c = true -> suf i (v ++ l) -> stack_wf depth st ->
  depth + Z.of_nat d < JSON_MAX_DEPTH ->
  exists j st' c', rtc cstep (i, depth, st) (j, depth + 1, st') /\
    suf j (c' :: l) /\ isMatchingBracket_ c c' = true /\
    rd st' (depth + 1) = Some c /\ agree depth st st' /\ stack_wf (depth + 1) st'.

Definition run_body (m : Z) (d : nat) (w : list Z) : Prop :=
  forall i depth st l,
  suf i (w ++ closing m :: l) -> stack_wf depth st -> 0 <= depth ->
  rd st depth = Some m -> depth + Z.of_nat d < JSON_MAX_DEPTH ->
  exists p j st', skipScalars buf i max m = Some p /\
    rtc cstep (p, depth, st) (j, depth, st') /\ suf j (closing m :: l) /\
    agree depth st st' /\ stack_wf depth st'.

Lemma agree_refl d st : agree d st st.
Proof. by intros ?. Qed.

Lemma run_empty m d s : isOpenBracket_ m = true -> ws s -> run_body m d s.
Proof using Hmax Hlen.
  intros Hm Hw i depth st l Hs Hst Hd Ht Hdd.
  assert (Hn : nonspace (closing m :: l))
    by (apply bracket_nonspace; rewrite closing_close; apply orb_true_r).
  cbn in Hn. apply negb_true_iff in Hn.
  exists (i + zlen s), (i + zlen s), st.
  pose proof (suf_app _ _ _ Hs) as Hs'. destruct (suf_cons _ _ _ Hs') as (_ & ? & _).
  split_and!; [|apply rtc_refl|done|apply agree_refl|done].
  rewrite (skipScalars_scalars i s (closing m) l m) by done. unfold scalars.
  case_match.
  - eapply array_bracket; [done|]. rewrite closing_close. apply orb_true_r.
  - unfold skipObjectScalars. rewrite (assert_max max) by done. run. unfold fuel.
    cbn [skipObjectScalars_loop]. inb.
    rewrite (skipString_not buf max Hmax Hlen _ (closing m) l); [done|done|].
    unfold closing. by case_match.
Qed.

Lemma stack_wf_drop d st : stack_wf (d + 1) st -> 0 <= d + 1 -> stack_wf d st.
Proof. intros H Hd. replace d with (d + 1 - 1) by lia. by apply stack_pop. Qed.

Lemma lead_first m p v l c t :
  lead m p -> v = c :: t -> isspace_ c = false ->
  exists x y, p ++ v ++ l = x :: y /\ isspace_ x = false.
Proof.
  intros [|k s2 s3 (us & _ & ->) _ _] -> Hc; cbn; do 2 eexists; by split.
Qed.

Lemma run_last m d s1 p v s2 :
  lead m p -> ws s1 -> jvalue d v -> run_value d v -> ws s2 ->
  run_body m d (s1 ++ p ++ v ++ s2).
Proof using Hmax Hlen.
  intros Hp H1 Hv IH H2 i depth st l Hs Hst Hd Ht Hdd. rewrite <- !app_assoc in Hs.
  destruct (jvalue_head d v Hv) as (c & t & Ev & Hc & Hcb & Hsc).
  destruct (lead_first m p v (s2 ++ closing m :: l) c t) as (x & y & Exy & Hx); [done..|].
  pose proof Hs as Hs0. rewrite Exy in Hs0.
  rewrite (skipScalars_scalars i s1 x y m) by (eauto using lead_open). clear Hs0.
  apply suf_app in Hs. destruct (isOpenBracket_ c) eqn:Ho; cycle 1.
  { do 2 eexists. exists st. split.
    { eapply scalars_last; [done|done|auto|done|apply closing_close]. }
    split; [apply rtc_refl|]. split; [|split; [apply agree_refl|done]].
    by apply suf_app, suf_app, suf_app in Hs. }
  pose proof (suf_app _ _ _ Hs) as Hs'.
  destruct (IH c t _ depth st _ Ev Ho Hs' Hst Hdd)
    as (j & st' & c' & Hr & Hj & Hm & Htop & Hag & Hwf).
  do 2 eexists. exists st'. split.
  { eapply scalars_nested; [done| |exact Ho]. rewrite Ev in Hs. exact Hs. }
  assert (Hn : nonspace (closing m :: l))
    by (apply bracket_nonspace; rewrite closing_close; apply orb_true_r).
  split; [|split; [|split; [done|by apply stack_wf_drop; [|lia]]]].
  - eapply rtc_r; [exact Hr|]. eapply cstep_close; try done.
    cbn. unfold closing, RBRACE, RBRACK, COMMA. by case_match.
  - destruct (suf_cons _ _ _ Hj) as (_ & _ & Hj'). by apply suf_app in Hj'.
Qed.

Lemma run_cons m d s1 p v s2 w :
  lead m p -> ws s1 -> jvalue d v -> run_value d v -> ws s2 -> run_body m d w ->
  (exists s c t, w = s ++ c :: t /\ ws s /\ isspace_ c = false /\
     isCloseBracket_ c = false) ->
  run_body m d (s1 ++ p ++ v ++ s2 ++ COMMA :: w).
Proof using Hmax Hlen.
  intros Hp H1 Hv IH H2 IHw (s' & x' & t' & Ew & Hs' & Hx' & Hb')
    i depth st l Hs Hst Hd Ht Hdd. rewrite <- !app_assoc in Hs. cbn in Hs.
  destruct (jvalue_head d v Hv) as (c & t & Ev & Hc & Hcb & Hsc).
  destruct (lead_first m p v (s2 ++ COMMA :: w ++ closing m :: l) c t)
    as (x & y & Exy & Hx); [done..|].
  pose proof (lead_open m p Hp) as Hm0.
  pose proof Hs as Hs0. rewrite Exy in Hs0.
  rewrite (skipScalars_scalars i s1 x y m) by done. clear Hs0.
  apply suf_app in Hs. pose proof Hs as Hs0.
  rewrite Ew, <- app_assoc in Hs0. cbn in Hs0.
  destruct (isOpenBracket_ c) eqn:Ho; cycle 1.
  { rewrite (scalars_cons m p _ v s2 s' x' (t' ++ closing m :: l)) by auto.
    apply suf_app, suf_app, suf_app, (suf_app _ [COMMA]) in Hs, Hs0.
    change (zlen [COMMA]) with 1 in *.
    rewrite <- (skipScalars_scalars _ s' x' (t' ++ closing m :: l) m) by done.
    by apply IHw. }
  pose proof (suf_app _ _ _ Hs) as Hv'.
  destruct (IH c t _ depth st _ Ev Ho Hv' Hst Hdd)
    as (j & st' & c' & Hr & Hj & Hm & Htop & Hag & Hwf).
  destruct (suf_cons _ _ _ Hj) as (_ & _ & Hj').
  apply suf_app, (suf_app _ [COMMA]) in Hj'. change (zlen [COMMA]) with 1 in *.
  assert (Hwf' : stack_wf depth st') by (apply stack_wf_drop; [done|lia]).
  assert (Ht' : rd st' depth = Some m) by (rewrite Hag by lia; done).
  destruct (IHw _ depth st' l Hj' Hwf' Hd Ht' Hdd)
    as (q & j2 & st2 & Hq & Hr2 & Hj2 & Hag2 & Hwf2).
  do 2 eexists. exists st2. split.
  { eapply scalars_nested; [done| |exact Ho]. rewrite Ev in Hs. exact Hs. }
  split; [|split; [done|split; [by eapply agree_trans|done]]].
  etrans; [exact Hr|]. eapply rtc_l; [|exact Hr2].
  rewrite Ew, <- app_assoc in Hj, Hj'. cbn in Hj, Hj'.
  eapply (cstep_close_comma j depth st' c' c m s2 s' x'); try done.
  rewrite <- Hq. symmetry. by eapply skipScalars_skip.
Qed.

Lemma run_collection m d w :
  isOpenBracket_ m = true -> run_body m d w -> run_value (S d) (m :: w ++ [closing m]).
Proof using Hmax Hlen.
  intros Hm IH c t i depth st l [= <- _] _ Hs Hst Hd. cbn in Hs.
  rewrite <- app_assoc in Hs. cbn in Hs.
  destruct (suf_cons _ _ _ Hs) as (_ & _ & Hs').
  assert (-1 <= depth < JSON_MAX_DEPTH) as Hdr by apply Hst.
  assert (Hst' : stack_wf (depth + 1) (<[Z.to_nat (depth + 1) := m]> st))
    by (apply stack_push; [done|lia|done]).
  set (st1 := <[Z.to_nat (depth + 1) := m]> st) in *.
  assert (Htop : rd st1 (depth + 1) = Some m).
  { rewrite rd_lookup by lia. apply list_lookup_insert_eq.
    destruct Hst as (Hl & _). unfold zlen in Hl. lia. }
  destruct (IH (i + 1) (depth + 1) st1 l Hs' Hst') as
    (p & j & st' & Hp & Hr & Hj & Hag & Hwf); [lia|done|lia|].
  exists j, st', (closing m). split_and!; [|done|by apply closing_match| | |done].
  - eapply rtc_l; [|exact Hr]. eapply cstep_open; try done. lia.
  - rewrite Hag by lia. done.
  - eapply agree_trans; [apply (agree_push depth st m); lia|].
    eapply agree_mono; [|exact Hag]. lia.
Qed.

Lemma quote_head d w : jmembers d w ->
  exists s c t, w = s ++ c :: t /\ ws s /\ isspace_ c = false /\ isCloseBracket_ c = false.
Proof. intros H. destruct (jmembers_head d w H) as (s & t & -> & ?). by exists s, QUOTE, t. Qed.

Lemma runs :
  (forall d v, jvalue d v -> run_value d v) /\
  (forall d w, jelems d w -> run_body LBRACK d w) /\
  (forall d w, jmembers d w -> run_body LBRACE d w).
Proof using Hmax Hlen.
  apply json_mut.
  - intros d w Hw c t i depth st l -> Ho.
    destruct (jscalar_head _ Hw) as (? & ? & [= -> ->] & _ & _ & ?). congruence.
  - intros d s Hs. apply (run_collection LBRACK); [done|]. by apply run_empty.
  - intros d w _ IH. by apply (run_collection LBRACK).
  - intros d s Hs. apply (run_collection LBRACE); [done|]. by apply run_empty.
  - intros d w _ IH. by apply (run_collection LBRACE).
  - intros d s1 v s2 H1 Hv IH H2. apply (run_last LBRACK d s1 [] v s2); auto using lead.
  - intros d s1 v s2 w H1 Hv IH H2 Hw IHw.
    apply (run_cons LBRACK d s1 [] v s2 w); eauto using lead, jelems_head.
  - intros d s1 k s2 s3 v s4 H1 Hk H2 H3 Hv IH H4. rewrite <- lead_assoc.
    apply run_last; auto using lead.
  - intros d s1 k s2 s3 v s4 w H1 Hk H2 H3 Hv IH H4 Hw IHw. rewrite <- lead_assoc.
    apply run_cons; eauto using lead, quote_head.
Qed.

(** ** Values *)

Lemma skipCollection_fwd i c t l :
  suf i ((c :: t) ++ l) -> jvalue (Z.to_nat JSON_MAX_DEPTH) (c :: t) ->
  isOpenBracket_ c = true ->
  skipCollection buf i max = Some (JSONSuccess, i + zlen (c :: t)).
Proof using Hmax Hlen.
  intros Hs Hv Ho. pose proof (suf_bounds _ _ Hs) as Hi.
  set (st0 := replicate (Z.to_nat JSON_MAX_DEPTH) 0).
  destruct (proj1 runs _ _ Hv c t i (-1) st0 l) as
    (j & st & c' & Hr & Hj & Hm & Htop & _ & _);
    [done|done|done|apply stack_wf_init|done|].
  assert (Hf : exists f, skipCollection_loop f buf i max (-1) st0
                         = Some (JSONSuccess, j + 1)).
  { apply (csteps_loop (i, -1, st0) (j, -1 + 1, st)); [done|]. exists 1%nat. cbn [fst snd].
    pose proof (suf_bounds _ _ Hj). destruct (suf_cons _ _ _ Hj) as (Hr' & ? & _).
    cbn [skipCollection_loop]. inb. unfold skipCollection_step. rewrite Hr'. run.
    destruct (step_close_match c' c Hm) as [-> ->]. change (0 <? -1 + 1) with false.
    cbv iota. run. rewrite (usz_in max) by lia. done. }
  destruct Hf as [f Hf]. unfold skipCollection. rewrite (assert_max max) by done. run.
  destruct (skipCollection_loop_ok buf max Hmax Hlen (fuel max) i (-1) st0)
    as (r & k & Hk & _); [lia|apply stack_wf_init|apply fuel_enough; lia|].
  fold st0. rewrite Hk. run.
  apply (skipCollection_mono _ _ _ (f + fuel max)%nat) in Hf, Hk; [|lia..].
  rewrite Hf in Hk. injection Hk as <- <-. rewrite decide_True by done.
  destruct (suf_cons _ _ _ Hj) as (_ & _ & Hj'). apply suf_app in Hs.
  apply (suf_end buf max Hmax Hlen) in Hs, Hj'. do 2 f_equal. lia.
Qed.

(** The two ways in which the code skips a value. *)
Lemma value_fwd i v l :
  suf i (v ++ l) -> jvalue (Z.to_nat JSON_MAX_DEPTH) v -> numend l ->
  skipAnyScalar buf i max = Some (true, i + zlen v) \/
  skipAnyScalar buf i max = Some (false, i) /\
  skipCollection buf i max = Some (JSONSuccess, i + zlen v).
Proof using Hmax Hlen.
  intros Hs Hv Hl. destruct (jvalue_head _ v Hv) as (c & t & -> & _ & _ & Hsc).
  destruct (isOpenBracket_ c) eqn:Ho; [right|left].
  - split; [|by eapply skipCollection_fwd].
    eapply skipAnyScalar_bracket; [done..|by rewrite Ho].
  - eapply skipAnyScalar_fwd; eauto.
Qed.

End Machine.

Lemma validate_document (w : list Z) :
  jdocument w -> zlen w < SIZE_MAX -> JSON_Validate (Some w) (zlen w) = Some JSONSuccess.
Proof.
  intros Hw Hlen.
  destruct Hw as (s1 & v & s2 & Ew & H1 & Hv & H2).
  destruct (jvalue_head _ v Hv) as (c & t & Ev & Hc & _ & _).
  assert (Hmax : 0 < zlen w < SIZE_MAX).
  { split; [|done]. subst. unfold zlen. rewrite !length_app. cbn. lia. }
  assert (Hle : zlen w <= zlen w) by lia.
  assert (Hs : suf w (zlen w) 0 (s1 ++ v ++ s2)).
  { split; [lia|]. unfold zlen. rewrite Nat2Z.id, firstn_all. by rewrite Ew. }
  assert (Hne : numend s2) by (rewrite <- (app_nil_r s2); by apply numend_ws).
  unfold JSON_Validate. rewrite (proj2 (Z.eqb_neq _ _)) by lia.
  rewrite (skipSpace_fwd w _ Hmax Hle 0 s1 (v ++ s2)); [|done|done|].
  2:{ subst v. cbn. by rewrite Hc. }
  cbn [mbind option_bind]. apply (suf_app w _ Hmax Hle) in Hs.
  assert (Hk : forall r, (if zlen s1 + zlen v <? zlen w then
      i ← skipSpace w (zlen s1 + zlen v) (zlen w);
      Some (if negb (i =? zlen w) then JSONIllegalDocument else JSONSuccess)
      else Some JSONSuccess) = r -> r = Some JSONSuccess).
  { intros r <-. inb; [|done]. apply (suf_app w _ Hmax Hle) in Hs.
    pose proof (suf_end w _ Hmax Hle _ _ Hs).
    rewrite (skipSpace_fwd w _ Hmax Hle _ s2 []); [|by rewrite app_nil_r|done|done].
    cbn [mbind option_bind]. by rewrite (proj2 (Z.eqb_eq _ _)) by lia. }
  destruct (value_fwd w _ Hmax Hle _ v s2 Hs Hv Hne) as [->|[-> Hcol]];
    cbn [mbind option_bind]; [|rewrite Hcol; cbn [mbind option_bind]];
    rewrite decide_True by done; by apply Hk.
Qed.

(** C1: the validator is complete: every text of the JSON grammar (RFC 8259
    values inside optional whitespace, UTF-8 well formed, surrogate escapes
    paired, no escaped NUL) nested at most [JSON_MAX_DEPTH] deep is accepted
    with [JSONSuccess]. *)
Theorem JSON_Validate_complete (w : list Z)
  (Hw : jdocument w) (Hlen : zlen w < SIZE_MAX) :
  JSON_Validate (Some w) (zlen w) = Some JSONSuccess.
Proof. by apply validate_document. Qed.

Lemma jstring_plain s :
  Forall (fun c => 32 <= c < 128 /\ c <> QUOTE /\ c <> BACKSLASH) s ->
  jstring (QUOTE :: s ++ [QUOTE]).
Proof.
  intros H. exists (map (fun c => [c]) s). split.
  - induction H as [|c s (Hc & Hq & Hb) _ IH]; constructor; [|done].
    assert (E : utf8_encode c = [c]).
    { unfold utf8_encode. destruct (Z.ltb_spec c 0x80); [done|lia]. }
    rewrite <- E. constructor; unfold scalar_value; try lia; done.
  - do 2 f_equal. clear H. induction s; cbn; congruence.
Qed.

Lemma janus_document : jdocument (json_text "{'janus':[true, {}]}").
Proof.
  exists [], (json_text "{'janus':[true, {}]}"), []. split; [done|].
  split; [constructor|]. split; [|constructor].
  apply (jv_object 31 (json_text "'janus':[true, {}]")).
  assert (Hk : jstring (json_text "'janus'")).
  { apply (jstring_plain (json_text "janus")).
    vm_compute. repeat constructor; congruence. }
  assert (Hv : jvalue 31 (json_text "[true, {}]")).
  { apply (jv_array 30 (json_text "true, {}")).
    apply (je_cons 30 [] (json_text "true") [] (json_text " {}")); try by constructor.
    - constructor. right. left. by left.
    - apply (je_last 30 (json_text " ") (json_text "{}") []);
        [by repeat constructor| |constructor].
      apply (jv_object_empty 29 []). constructor. }
  apply (jm_last 31 [] (json_text "'janus'") [] [] (json_text "[true, {}]") []);
    done || constructor.
Qed.

Lemma JSON_Validate_complete_witness :
  JSON_Validate (Some (json_text "{'janus':[true, {}]}")) 20 = Some JSONSuccess.
Proof. by apply (JSON_Validate_complete _ janus_document). Defined.

(** *** The validator is not sound

    A collection body may hold collections side by side and keyless values
    in objects: the code tracks brackets, not separators. *)

Lemma double_brace_not_json : ~ jdocument (json_text "{{}}").
Proof.
  intros (s1 & v & s2 & Ew & H1 & Hv & H2).
  assert (s1 = []) as ->.
  { destruct H1 as [|c s Hc]; [done|]. injection Ew as <-. done. }
  destruct (jvalue_head _ v Hv) as (c & t & -> & _ & _ & Hsc).
  injection Ew as <- Et.
  inversion Hv as [? ? Hs Hd Hv'| | |? s Hs Hd Hv'|? w Hm Hd Hv']; subst.
  - destruct (jscalar_head _ Hs) as (? & ? & [= <- _] & _ & _ & Ho). done.
  - destruct Hs as [|c s' Hc]; cbn in Et; [done|]. injection Et as <-. done.
  - destruct (jmembers_head _ _ Hm) as (s & t' & -> & Hs'). cbn in Et.
    rewrite <- !app_assoc in Et.
    destruct Hs' as [|c s' Hc]; [discriminate|]. injection Et as <-. done.
Qed.

(** [JSON_Validate] is not sound for the grammar, although its interface
    (core_json.h) promises [JSONIllegalDocument] for a buffer that is not
    valid JSON: the text of an object whose only content is a keyless object
    is accepted. *)
Theorem JSON_Validate_unsound :
  JSON_Validate (Some (json_text "{{}}")) 4 = Some JSONSuccess /\
  ~ jdocument (json_text "{{}}").
Proof. split; [by vm_compute|exact double_brace_not_json]. Qed.
