(* ===== verification/CoreJsonLookup.v ===== *)
(** * Searching a document of the grammar

    What [JSON_Search] finds in a well-formed object: the value of the first
    member whose key is the query; and that [JSON_Iterate] moves forward and
    stays in the buffer on every input. *)

From S2P Require Import Prelude CoreJson CoreJsonSafety CoreJsonSearch.
From S2P Require Import CoreJsonGrammar CoreJsonTokens CoreJsonComplete.
Import Json.

(** Concatenations to the right, and lengths of concatenations. *)
Ltac flatten H := repeat (progress (rewrite <- ?app_assoc in H; cbn [app] in H)).
Ltac lens :=
  unfold zlen in *;
  repeat (progress (rewrite ?length_app in *; cbn [length app] in *)); try lia.

Section Lookup.
Context (buf : list Z) (max : Z).
Context (Hmax : 0 < max < SIZE_MAX) (Hlen : max <= zlen buf).

Local Abbreviation suf := (suf buf max).
Local Abbreviation suf_cons := (suf_cons buf max Hmax Hlen).
Local Abbreviation suf_app := (suf_app buf max Hmax Hlen).
Local Abbreviation suf_bounds := (suf_bounds buf max).
Local Abbreviation skipSpace_fwd := (skipSpace_fwd buf max Hmax Hlen).
Local Abbreviation comma_some := (skipSpaceAndComma_some buf max Hmax Hlen).
Local Abbreviation document v := (jvalue (Z.to_nat JSON_MAX_DEPTH) v).

Ltac run := cbn [mbind option_bind].

Lemma nextValue_fwd i v l :
  suf i (v ++ l) -> document v -> numend l ->
  nextValue buf i max = Some (Some (mk_value (i + zlen v) i (zlen v))).
Proof using Hmax Hlen.
  intros Hs Hv Hl. pose proof (suf_bounds _ _ Hs).
  pose proof (suf_bounds _ _ (suf_app _ _ _ Hs)).
  unfold nextValue. rewrite (assert_max max) by done. run.
  destruct (value_fwd buf max Hmax Hlen i v l Hs Hv Hl) as [->|[-> Hc]];
    run; [|rewrite Hc; run; rewrite decide_True by done];
    do 3 f_equal; replace (i + zlen v - i) with (zlen v) by lia;
    apply (usz_in max); unfold zlen in *; lia.
Qed.

Lemma nextKeyValuePair_fwd i q s2 s3 v l :
  suf i ((QUOTE :: q ++ [QUOTE]) ++ s2 ++ COLON :: s3 ++ v ++ l) ->
  jstring (QUOTE :: q ++ [QUOTE]) -> ws s2 -> ws s3 -> document v -> numend l ->
  let m := i + zlen q + 2 + zlen s2 + 1 + zlen s3 in
  nextKeyValuePair buf i max
    = Some (Some (mk_pair (i + 1) (zlen q) (mk_value (m + zlen v) m (zlen v)))).
Proof using Hmax Hlen.
  intros Hs Hk H2 H3 Hv Hl m. pose proof (suf_bounds _ _ Hs) as Hi.
  pose proof (suf_bounds _ _ (suf_app _ _ _ Hs)) as Hk'.
  destruct (jvalue_head _ v Hv) as (c & t & Ev & Hc & _ & _).
  assert (Ez : zlen (QUOTE :: q ++ [QUOTE]) = zlen q + 2).
  { unfold zlen. cbn. rewrite length_app. cbn. lia. }
  unfold nextKeyValuePair. rewrite (assert_max max) by done. run.
  rewrite (skipString_fwd buf max Hmax Hlen i _ _ Hs Hk). run. cbn [negb].
  apply suf_app in Hs. rewrite Ez in *.
  rewrite (skipSpace_fwd _ s2 (COLON :: s3 ++ v ++ l)) by done. run.
  apply suf_app in Hs. pose proof (suf_bounds _ _ Hs).
  destruct (suf_cons _ _ _ Hs) as (-> & ? & Hs1). inb. run.
  change (COLON =? COLON) with true. cbn [negb]. rewrite !(usz_in max) by (unfold zlen in *; lia).
  rewrite (skipSpace_fwd _ s3 (v ++ l)); [|done|done|subst v; cbn; by rewrite Hc]. run.
  apply suf_app in Hs1. rewrite (nextValue_fwd _ v l) by done. run.
  subst m. do 3 f_equal; [lia|]. f_equal; lia.
Qed.

(** Members in front of the one that is searched, with their commas and the
    whitespace behind these. *)
Inductive others (q : list Z) : list Z -> Prop :=
| others_nil : others q []
| others_cons k s2 s3 v s4 s5 w :
    jstring (QUOTE :: k ++ [QUOTE]) -> k <> q -> ws s2 -> ws s3 -> document v ->
    ws s4 -> ws s5 -> others q w ->
    others q ((QUOTE :: k ++ [QUOTE]) ++ s2 ++ COLON :: s3 ++ v ++ s4 ++
              COMMA :: s5 ++ w).

Lemma others_head q w r : others q w -> exists x, w ++ QUOTE :: r = QUOTE :: x.
Proof. intros [|k]; [by exists r|]. cbn. by eexists. Qed.

Lemma at_take i a l : suf i (a ++ l) -> take (Z.to_nat (zlen a)) (at_ buf i) = a.
Proof using Hmax Hlen.
  intros [Hi Hd]. unfold at_, zlen in *. rewrite Nat2Z.id.
  rewrite <- (take_drop (Z.to_nat max) buf), drop_app_le, Hd, <- app_assoc
    by (rewrite length_take; lia).
  apply take_app_length.
Qed.

(** The key comparison of the search decides equality of the key bytes. *)
Lemma key_hit i k q l :
  suf i (k ++ l) ->
  (if zlen q =? zlen k then strnEq q (at_ buf i) (zlen k) else Some false)
    = Some (bool_decide (k = q)).
Proof using Hmax Hlen.
  intros Hs. pose proof (suf_bounds _ _ Hs). pose proof (suf_bounds _ _ (suf_app _ _ _ Hs)).
  destruct (Z.eqb_spec (zlen q) (zlen k)) as [Hq|Hq]; cycle 1.
  { rewrite bool_decide_eq_false_2; [done|]. by intros ->. }
  destruct (strnEq_spec q (at_ buf i) (zlen k)) as (r & -> & Hr);
    [unfold zlen in *; lia|lia|rewrite zlen_at by lia; lia|].
  rewrite (at_take i k l Hs), <- Hq in Hr. unfold zlen in Hr at 1.
  rewrite Nat2Z.id, firstn_all in Hr. f_equal.
  case_bool_decide as E; destruct r; try done; [apply Hr; by rewrite E|].
  exfalso. apply E. symmetry. by apply Hr.
Qed.

Lemma objectSearch_loop_fwd f i w q s2 s3 v l :
  suf i (w ++ (QUOTE :: q ++ [QUOTE]) ++ s2 ++ COLON :: s3 ++ v ++ l) ->
  others q w -> jstring (QUOTE :: q ++ [QUOTE]) -> ws s2 -> ws s3 ->
  document v -> numend l -> (Z.to_nat (max - i) < f)%nat ->
  let m := i + zlen w + zlen q + 2 + zlen s2 + 1 + zlen s3 in
  objectSearch_loop f buf i max q (zlen q) = Some (Some (mk_value (m + zlen v) m (zlen v))).
Proof using Hmax Hlen.
  intros Hs Hw. revert i f Hs.
  induction Hw as [|k t2 t3 u t4 t5 w Hk Hne Ht2 Ht3 Hu Ht4 Ht5 Hw IH];
    intros i [|f] Hs Hq H2 H3 Hv Hl Hf; try lia; cbn [objectSearch_loop].
  - cbn [app] in Hs. destruct (suf_cons _ _ _ Hs) as (_ & Hi & Hs'). inb.
    rewrite (nextKeyValuePair_fwd i q s2 s3 v l) by done. run.
    cbn [p_keyLength p_key p_value v_next].
    rewrite <- app_assoc in Hs'. rewrite (key_hit (i + 1) q q _ Hs'). run.
    rewrite bool_decide_eq_true_2 by done. cbv zeta. change (zlen []) with 0.
    by rewrite Z.add_0_r.
  - flatten Hs.
    destruct (suf_cons _ _ _ Hs) as (_ & Hi & Hs'). inb.
    set (rest := w ++ QUOTE :: q ++ QUOTE :: s2 ++ COLON :: s3 ++ v ++ l) in *.
    assert (Hs0 : suf i ((QUOTE :: k ++ [QUOTE]) ++ t2 ++ COLON :: t3 ++ u ++
      t4 ++ COMMA :: t5 ++ rest)).
    { cbn [app]. rewrite <- app_assoc. exact Hs. }
    rewrite (nextKeyValuePair_fwd i k t2 t3 u (t4 ++ COMMA :: t5 ++ rest));
      [|done..|by apply numend_ws]. run.
    cbn [p_keyLength p_key p_value v_next].
    rewrite (key_hit (i + 1) k q _ Hs'). run. rewrite bool_decide_eq_false_2 by done.
    assert (Ez : zlen (QUOTE :: k ++ [QUOTE]) = zlen k + 2).
    { unfold zlen. cbn. rewrite length_app. cbn. lia. }
    apply suf_app, suf_app, (suf_app _ [COLON]), suf_app, suf_app in Hs0.
    rewrite Ez in Hs0. change (zlen [COLON]) with 1 in Hs0.
    replace (i + (zlen k + 2)) with (i + zlen k + 2) in Hs0 by lia.
    destruct (others_head q w (q ++ QUOTE :: s2 ++ COLON :: s3 ++ v ++ l) Hw) as [x Hx].
    assert (Er : rest = QUOTE :: x) by exact Hx. rewrite Er in Hs0.
    rewrite (comma_some _ t4 t5 QUOTE x) by done. run. rewrite <- Er in Hs0.
    pose proof (suf_bounds _ _ (suf_app _ _ _ Hs0)).
    apply suf_app, (suf_app _ [COMMA]), suf_app in Hs0. change (zlen [COMMA]) with 1 in Hs0.
    rewrite IH; try done; cycle 1.
    { subst rest. cbn. rewrite <- app_assoc. exact Hs0. }
    { unfold zlen. lia. }
    cbv zeta. do 3 f_equal; lens.
Qed.

Lemma objectSearch_fwd s0 s1 w q s2 s3 v l :
  suf 0 (s0 ++ LBRACE :: s1 ++ w ++ (QUOTE :: q ++ [QUOTE]) ++ s2 ++ COLON ::
         s3 ++ v ++ l) ->
  ws s0 -> ws s1 -> others q w -> jstring (QUOTE :: q ++ [QUOTE]) ->
  ws s2 -> ws s3 -> document v -> numend l ->
  objectSearch buf max q (zlen q) = Some (Some (max - zlen l - zlen v, zlen v)).
Proof using Hmax Hlen.
  intros Hs H0 H1 Hw Hq H2 H3 Hv Hl. unfold objectSearch.
  pose proof (suf_end buf max Hmax Hlen _ _ Hs) as He.
  rewrite (skipSpace_fwd 0 s0 _ Hs H0) by done. run. apply suf_app in Hs.
  destruct (suf_cons _ _ _ Hs) as (-> & Hi & Hs'). inb. run.
  change (LBRACE =? LBRACE) with true. cbv iota.
  rewrite (usz_in max) by (unfold zlen in *; lia).
  destruct (others_head q w ((q ++ [QUOTE]) ++ s2 ++ COLON :: s3 ++ v ++ l) Hw) as [x Hx].
  rewrite (skipSpace_fwd _ s1 _ Hs' H1); cycle 1.
  { cbn. cbn in Hx. rewrite Hx. done. }
  run. apply suf_app in Hs'. pose proof (suf_bounds _ _ Hs').
  rewrite (objectSearch_loop_fwd _ _ w q s2 s3 v l); try done; [|apply fuel_enough; lia].
  run. cbn [v_index v_length]. do 3 f_equal. lens.
Qed.

End Lookup.

(** ** One-key queries *)

(** A query that is a plain key, as the signalling client uses them. *)
Definition plain_key (q : list Z) : Prop :=
  q <> [] /\ Forall (fun c => c <> DOT /\ c <> LBRACK) q.

Lemma skipQueryPart_plain f q i :
  plain_key q -> 0 <= i <= zlen q -> zlen q < SIZE_MAX ->
  (Z.to_nat (zlen q - i) < f)%nat ->
  skipQueryPart_loop f q i (zlen q) = Some (zlen q).
Proof.
  intros [Hne Hf]. revert i. induction f as [|f IH]; intros i Hi Hz Hfu; [lia|].
  cbn. inb; [|f_equal; lia].
  destruct (rd_app_lt q i) as [c Hc]; [lia|]. rewrite Hc. cbn.
  rewrite rd_lookup in Hc by lia.
  destruct (Forall_lookup_1 _ _ _ _ Hf Hc) as [Hd Hb].
  unfold isSeparator_, isSquareOpen_. rewrite !(proj2 (Z.eqb_neq _ _)) by done. cbn.
  rewrite usz_small by lia. apply IH; lia.
Qed.

Lemma multiSearch_plain buf max q v n :
  0 < max -> plain_key q -> zlen q < SIZE_MAX ->
  0 <= v < SIZE_MAX ->
  objectSearch buf max q (zlen q) = Some (Some (v, n)) ->
  multiSearch buf max q (zlen q) = Some (JSONSuccess, v, n).
Proof.
  intros Hm Hq Hz Hv Ho. pose proof Hq as [Hne Hf].
  assert (0 < zlen q) by (destruct q; [done|unfold zlen; cbn; lia]).
  unfold multiSearch. replace ((0 <? max) && (0 <? zlen q)) with true by lia.
  cbn [assert_ mbind option_bind]. unfold fuel. cbn [multiSearch_loop]. inb.
  unfold multiSearch_step. destruct q as [|c q']; [done|].
  change (rd (c :: q') 0) with (Some c). cbn [mbind option_bind].
  inversion_clear Hf as [|? ? [Hd Hb] _]. 
  replace (isSquareOpen_ c) with false by (symmetry; by apply Z.eqb_neq). unfold skipQueryPart.
  replace (0 <? zlen (c :: q')) with true by lia. cbn [assert_ mbind option_bind].
  rewrite skipQueryPart_plain by (done || lia || unfold fuel; lia).
  cbn [mbind option_bind]. inb. rewrite Z.sub_0_r, (usz_small (zlen _)) by lia.
  rewrite (proj2 (Z.eqb_neq _ _)) by lia. 
  change (at_ buf 0) with buf. change (at_ (c :: q') 0) with (c :: q').
  rewrite Ho. cbn [mbind option_bind]. rewrite Z.ltb_irrefl. cbn [mbind option_bind].
  by rewrite usz_small, Z.ltb_irrefl by lia.
Qed.

(** C14: looking a key up is correct: in a well-formed object,
    [JSON_Search] with a plain key returns exactly the position and length of
    the value of the first member that has this key (without the quotation
    marks when the value is a string), whatever the members in front of it
    and whatever follows the value. *)
Theorem JSON_Search_first_member (s0 s1 w q s2 s3 v l : list Z)
  (H0 : ws s0) (H1 : ws s1) (Hw : others q w) (H2 : ws s2) (H3 : ws s3)
  (Hq : jstring (QUOTE :: q ++ [QUOTE])) (Hp : plain_key q)
  (Hv : jvalue (Z.to_nat JSON_MAX_DEPTH) v) (Hl : numend l) :
  let pre := s0 ++ LBRACE :: s1 ++ w ++ (QUOTE :: q ++ [QUOTE]) ++ s2 ++ COLON :: s3 in
  let doc := pre ++ v ++ l in
  zlen doc < SIZE_MAX ->
  JSON_Search (Some doc) (zlen doc) (Some q) (zlen q) true =
    Some (JSONSuccess,
      Some (if hd 0 v =? QUOTE then (zlen pre + 1, zlen v - 2) else (zlen pre, zlen v))).
Proof.
  intros pre doc Hz.
  assert (Hpre : zlen doc = zlen pre + zlen v + zlen l).
  { subst doc. unfold zlen. rewrite !length_app. lia. }
  destruct (jvalue_head _ v Hv) as (c & t & Ev & _ & _ & Hsc).
  assert (Hvl : 0 < zlen v) by (rewrite Ev; unfold zlen; cbn; lia).
  assert (0 <= zlen pre /\ 0 <= zlen l) as [? ?] by (unfold zlen; lia).
  assert (Hm : 0 < zlen doc < SIZE_MAX) by lia.
  assert (Hs : suf doc (zlen doc) 0 doc).
  { split; [lia|]. unfold zlen. by rewrite Nat2Z.id, firstn_all. }
  assert (zlen q < zlen doc).
  { rewrite Hpre. clear Hpre. unfold pre. lens. }
  assert (0 < zlen q) by (destruct Hp; destruct q; [done|unfold zlen; cbn; lia]).
  assert (Ho : objectSearch doc (zlen doc) q (zlen q) = Some (Some (zlen pre, zlen v))).
  { rewrite (objectSearch_fwd doc _ Hm ltac:(lia) s0 s1 w q s2 s3 v l); try done.
    - do 3 f_equal. lia.
    - cbn [app]. rewrite <- app_assoc. unfold doc at 3, pre in Hs. flatten Hs.
      exact Hs. }
  unfold JSON_Search, JSON_SearchT, JSON_SearchConst.
  replace ((zlen doc =? 0) || (zlen q =? 0)) with false by lia.
  rewrite (multiSearch_plain doc _ q (zlen pre) (zlen v)) by (done || lia).
  cbn [mbind option_bind]. rewrite decide_True by done.
  assert (Hc : rd doc (zlen pre) = Some c).
  { apply (suf_app doc _ Hm ltac:(lia)) in Hs. subst v.
    by destruct (suf_cons doc _ Hm ltac:(lia) _ _ _ Hs) as (? & _). }
  rewrite Hc. cbn [mbind option_bind].
  assert (Hq2 : c = QUOTE -> 2 <= zlen v).
  { intros ->. destruct (Hsc eq_refl) as [(us & _ & E)|[[E|[E|E]]|Hn]];
      try (rewrite Ev in E; discriminate).
    - rewrite E. unfold zlen. cbn. rewrite length_app. cbn. lia.
    - destruct (jnumber_head v Hn) as (c' & t' & E & Hc'). rewrite Ev in E.
      injection E as <- _. unfold isdigit_, QUOTE in Hc'. lia. }
  rewrite Ev. cbn [hd]. unfold strip_quotes, getType.
  destruct (Z.eqb_spec c QUOTE) as [Hcq|Hcq]; cbn.
  - rewrite <- Ev. rewrite !usz_small by (specialize (Hq2 Hcq); lia). done.
  - rewrite <- Ev. by repeat case_match.
Qed.

Lemma JSON_Search_first_member_witness :
  JSON_Search (Some (json_text "{'sender':42, 'janus':'ack'}")) 28
    (Some (json_text "janus")) 5 true = Some (JSONSuccess, Some (23, 3)).
Proof.
  apply (JSON_Search_first_member [] [] (json_text "'sender':42, ") (json_text "janus")
           [] [] (json_text "'ack'") (json_text "}")); try by constructor.
  - apply (others_cons _ (json_text "sender") [] [] (json_text "42") [] (json_text " ") []);
      try by repeat constructor.
    + apply (jstring_plain (json_text "sender")). vm_compute. repeat constructor; congruence.
    + constructor. right. right. exists [], (json_text "42"), [], [].
      split; [done|]. split; [by left|]. split; [|split; by left].
      right. split; [|done]. split; [done|by repeat constructor].
  - apply (jstring_plain (json_text "janus")). vm_compute. repeat constructor; congruence.
  - split; [done|]. vm_compute. repeat constructor; congruence.
  - constructor. left. apply (jstring_plain (json_text "ack")).
    vm_compute. repeat constructor; congruence.
Defined.
