(* ===== verification/PeerConn.v ===== *)
(** * The RTC peer connection

    Models src/barertc/src/peerconn.c and src/barertc/src/mediatrack.c: the
    offer/answer state machine, the media tracks with their ICE, DTLS and
    RTP flags, the start of ICE with its retry timer and the handlers the
    media stack calls.

    The state is a heap of peer connections, the timer list, the list of
    client sessions that own the connections, and the trace of the calls made
    to the media stack (the SDP session, the streams, the media NAT and
    encryption modules).  The results of these calls are an arbitrary
    function [ext] of the trace and the call. *)

From stdpp Require Import gmap.
From S2P Require Import Prelude Effects.

Module Pc.

Inductive signaling_st := SS_STABLE | SS_HAVE_LOCAL_OFFER | SS_HAVE_REMOTE_OFFER.
Inductive sdp_type := SDP_OFFER | SDP_ANSWER.
Inductive media_kind := MEDIA_KIND_AUDIO | MEDIA_KIND_VIDEO.
Inductive menc_event := MENC_EVENT_SECURE | MENC_EVENT_VERIFY_REQUEST | MENC_EVENT_PEER_VERIFIED.

#[export] Instance signaling_st_eq_dec : EqDecision signaling_st.
Proof. solve_decision. Defined.
#[export] Instance sdp_type_eq_dec : EqDecision sdp_type.
Proof. solve_decision. Defined.
#[export] Instance media_kind_eq_dec : EqDecision media_kind.
Proof. solve_decision. Defined.

(** [mt_u] is the union [u]: the audio or video object, identified with its
    stream ([NOTE: one-to-one mapping with 'struct stream']). *)
Record media_track := mk_track {
  mt_kind : media_kind;
  mt_u : option nat;
  mt_ice_conn : bool;
  mt_dtls_ok : bool;
  mt_rtp : bool;
  mt_rtcp : bool }.

(** [pc_mnat] is NULL or tells whether the module has an [updateh];
    handler fields tell whether the pointer is set; [pc_arg] is the session
    that is passed to them. *)
Record peer_connection := mk_pc {
  pc_streaml : list nat;
  pc_medial : list media_track;
  pc_mnat : option bool;
  pc_mnats : bool;
  pc_mencs : bool;
  pc_signaling_state : signaling_st;
  pc_gatherh : bool;
  pc_estabh : bool;
  pc_closeh : bool;
  pc_arg : nat;
  pc_ice_retry_times : Z;
  pc_gather_ok : bool;
  pc_sdp_enc_ok : bool;
  pc_sdp_dec_ok : bool }.

Record client_session := mk_session {
  cs_addr : nat;
  cs_handle_id : Z;
  cs_pc : option nat }.

(** Calls into the media stack and the C library. *)
Inductive action :=
| A_mem_zalloc
| A_sdp_session_alloc
| A_mnat_sessh (offerer : bool)
| A_menc_sessh (offerer : bool)
| A_audio_alloc (offerer : bool)
| A_video_alloc (offerer : bool)
| A_set_session_handlers (strm : nat)
| A_sdp_decode (pc : nat) (offer : bool)
| A_sdp_encode (pc : nat) (offer : bool)
| A_tmr_start (pc : nat)
| A_video_sdp_attr_decode (strm : nat)
| A_stream_update (strm : nat)
| A_mnat_update
| A_start_mediaenc (strm : option nat)
| A_set_secure (strm : option nat)
| A_stream_start (strm : option nat)
| A_rformat (strm : option nat)
| A_encoder_set (strm : option nat)
| A_start_source (k : media_kind) (strm : option nat)
| A_media_stop (k : media_kind) (strm : option nat)
| A_mem_deref (strm : option nat)
| A_closeh (pc : nat) (err : Z)
| A_mbuf_spare
| A_sdprintf
| A_send_offer (handle_id : Z)
| A_send_answer (handle_id : Z).

Record world := mk_world {
  w_heap : gmap nat peer_connection;
  w_next : nat;
  w_tmrl : list nat;
  w_sessl : list client_session;
  w_trace : list action }.

Abbreviation W := (M world).

Definition set_heap h w := mk_world h (w_next w) (w_tmrl w) (w_sessl w) (w_trace w).
Definition set_tmrl l w := mk_world (w_heap w) (w_next w) l (w_sessl w) (w_trace w).
Definition set_sessl l w := mk_world (w_heap w) (w_next w) (w_tmrl w) l (w_trace w).
Definition set_trace t w := mk_world (w_heap w) (w_next w) (w_tmrl w) (w_sessl w) t.

(** ** Access to the heap *)

(** A pointer to a connection that is not alive may not be dereferenced. *)
Definition pc_get (p : nat) : W peer_connection :=
  h ← gets w_heap; of_option (h !! p).

Definition pc_put (p : nat) (pc : peer_connection) : W unit :=
  modify (fun w => set_heap (<[p := pc]> (w_heap w)) w).

Definition pc_upd (p : nat) (f : peer_connection -> peer_connection) : W unit :=
  pc ← pc_get p; pc_put p (f pc).

Definition set_signaling ss pc := mk_pc (pc_streaml pc) (pc_medial pc) (pc_mnat pc)
  (pc_mnats pc) (pc_mencs pc) ss (pc_gatherh pc) (pc_estabh pc) (pc_closeh pc)
  (pc_arg pc) (pc_ice_retry_times pc) (pc_gather_ok pc) (pc_sdp_enc_ok pc) (pc_sdp_dec_ok pc).
Definition set_media sl ml pc := mk_pc sl ml (pc_mnat pc)
  (pc_mnats pc) (pc_mencs pc) (pc_signaling_state pc) (pc_gatherh pc) (pc_estabh pc)
  (pc_closeh pc) (pc_arg pc) (pc_ice_retry_times pc) (pc_gather_ok pc) (pc_sdp_enc_ok pc)
  (pc_sdp_dec_ok pc).
Definition set_handlers g e c arg pc := mk_pc (pc_streaml pc) (pc_medial pc) (pc_mnat pc)
  (pc_mnats pc) (pc_mencs pc) (pc_signaling_state pc) g e c arg (pc_ice_retry_times pc)
  (pc_gather_ok pc) (pc_sdp_enc_ok pc) (pc_sdp_dec_ok pc).
Definition set_closeh c pc := set_handlers (pc_gatherh pc) (pc_estabh pc) c (pc_arg pc) pc.
Definition set_mnat m s pc := mk_pc (pc_streaml pc) (pc_medial pc) m s (pc_mencs pc)
  (pc_signaling_state pc) (pc_gatherh pc) (pc_estabh pc) (pc_closeh pc) (pc_arg pc)
  (pc_ice_retry_times pc) (pc_gather_ok pc) (pc_sdp_enc_ok pc) (pc_sdp_dec_ok pc).
Definition set_mencs s pc := mk_pc (pc_streaml pc) (pc_medial pc) (pc_mnat pc) (pc_mnats pc) s
  (pc_signaling_state pc) (pc_gatherh pc) (pc_estabh pc) (pc_closeh pc) (pc_arg pc)
  (pc_ice_retry_times pc) (pc_gather_ok pc) (pc_sdp_enc_ok pc) (pc_sdp_dec_ok pc).
Definition set_steps retry g e d pc := mk_pc (pc_streaml pc) (pc_medial pc) (pc_mnat pc)
  (pc_mnats pc) (pc_mencs pc) (pc_signaling_state pc) (pc_gatherh pc) (pc_estabh pc)
  (pc_closeh pc) (pc_arg pc) retry g e d.
Definition set_retry r pc :=
  set_steps r (pc_gather_ok pc) (pc_sdp_enc_ok pc) (pc_sdp_dec_ok pc) pc.
Definition set_gather_ok pc :=
  set_steps (pc_ice_retry_times pc) true (pc_sdp_enc_ok pc) (pc_sdp_dec_ok pc) pc.
Definition set_sdp_enc_ok pc :=
  set_steps (pc_ice_retry_times pc) (pc_gather_ok pc) true (pc_sdp_dec_ok pc) pc.
Definition set_sdp_dec_ok pc :=
  set_steps (pc_ice_retry_times pc) (pc_gather_ok pc) (pc_sdp_enc_ok pc) true pc.

Definition track_ice m := mk_track (mt_kind m) (mt_u m) true (mt_dtls_ok m) (mt_rtp m) (mt_rtcp m).
Definition track_dtls m := mk_track (mt_kind m) (mt_u m) (mt_ice_conn m) true (mt_rtp m) (mt_rtcp m).
Definition track_rtp m := mk_track (mt_kind m) (mt_u m) (mt_ice_conn m) (mt_dtls_ok m) true (mt_rtcp m).
Definition track_rtcp m := mk_track (mt_kind m) (mt_u m) (mt_ice_conn m) (mt_dtls_ok m) (mt_rtp m) true.
Definition track_u u m := mk_track (mt_kind m) u (mt_ice_conn m) (mt_dtls_ok m) (mt_rtp m) (mt_rtcp m).

(** A [struct media_track *]: the track's connection and its place in the
    list, which only grows while the connection lives. *)
Definition track_get (p n : nat) : W media_track :=
  pc ← pc_get p; of_option (pc_medial pc !! n).

Definition track_upd (p n : nat) (f : media_track -> media_track) : W unit :=
  pc ← pc_get p;
  m ← of_option (pc_medial pc !! n);
  pc_put p (set_media (pc_streaml pc) (<[n := f m]> (pc_medial pc)) pc).

(** A fresh address, for [mem_zalloc]. *)
Definition new_addr : W nat :=
  fun w => Some (w_next w, mk_world (w_heap w) (S (w_next w)) (w_tmrl w) (w_sessl w) (w_trace w)).

(** The zeroed [struct peer_connection] in state [SS_STABLE]. *)
Definition pc_zero : peer_connection :=
  mk_pc [] [] None false false SS_STABLE false false false 0 0 false false false.

(** [tmr_start] on [pc->ice_tmr], whose node lives in the
    connection: the timer list holds the connection's address. *)
Definition tmr_start (p : nat) : W unit :=
  modify (fun w => set_trace (A_tmr_start p :: w_trace w)
    (set_tmrl (p :: filter (fun q => q <> p) (w_tmrl w)) w)).

Section Ops.
Context (ext : list action -> action -> Z).

Definition call (a : action) : W Z :=
  fun w => Some (ext (w_trace w) a, set_trace (a :: w_trace w) w).
Definition emit (a : action) : W unit := _ ← call a; mret tt.

(** An allocation inside a call that the trace does not record. *)
Definition peek (a : action) : W Z := gets (fun w => ext (w_trace w) a).

(** ** Media tracks (mediatrack.c) *)

(** [audio_strm] and [video_strm] return NULL for NULL. *)
Definition media_get_stream (m : media_track) : option nat := mt_u m.

(** [None] is the NULL that [mem_zalloc] can return. *)
Definition media_track_add (p : nat) (kind : media_kind) : W (option nat) :=
  failed ← call A_mem_zalloc;
  if negb (failed =? 0) then mret None
  else
    pc ← pc_get p;
    let n := length (pc_medial pc) in
    pc_put p (set_media (pc_streaml pc)
      (pc_medial pc ++ [mk_track kind None false false false false]) pc);;
    mret (Some n).

Definition mediatrack_start_audio (p n : nat) : W Z :=
  m ← track_get p n;
  if negb (mt_ice_conn m) || negb (mt_dtls_ok m) then mret EPROTO
  else
    fmt ← call (A_rformat (mt_u m));
    if negb (fmt =? 0) then
      err ← call (A_encoder_set (mt_u m));
      if negb (err =? 0) then mret err
      else
        err ← call (A_start_source MEDIA_KIND_AUDIO (mt_u m));
        if negb (err =? 0) then mret err else mret 0
    else mret 0.

Definition mediatrack_start_video (p n : nat) : W Z :=
  m ← track_get p n;
  if negb (mt_ice_conn m) || negb (mt_dtls_ok m) then mret EPROTO
  else
    fmt ← call (A_rformat (mt_u m));
    if negb (fmt =? 0) then
      err ← call (A_encoder_set (mt_u m));
      if negb (err =? 0) then mret err
      else
        err ← call (A_start_source MEDIA_KIND_VIDEO (mt_u m));
        if negb (err =? 0) then mret err else mret 0
    else mret 0.

Definition mediatrack_stop (m : media_track) : W unit :=
  match mt_kind m with
  | MEDIA_KIND_AUDIO => emit (A_media_stop MEDIA_KIND_AUDIO (mt_u m))
  | MEDIA_KIND_VIDEO => emit (A_media_stop MEDIA_KIND_VIDEO (mt_u m))
  end.

(** ** The connection (peerconn.c) *)

(** [mem_deref(pc)]: the owner's reference is the only one, so the
    destructor runs.  It stops and frees the tracks; [ice_tmr] is not
    cancelled. *)
Definition destructor (p : nat) : W unit :=
  pc ← pc_get p;
  for_each (fun m => mediatrack_stop m;; emit (A_mem_deref (mt_u m))) (pc_medial pc);;
  modify (fun w => set_heap (delete p (w_heap w)) w).

Definition mem_deref_pc (p : option nat) : W unit :=
  match p with Some p => destructor p | None => mret tt end.

Fixpoint lookup_media_from (n : nat) (l : list media_track) (strm : option nat)
  : option nat :=
  match l with
  | [] => None
  | m :: l =>
    if decide (strm = media_get_stream m) then Some n
    else lookup_media_from (S n) l strm
  end.

Definition lookup_media (pc : peer_connection) (strm : option nat) : option nat :=
  lookup_media_from 0 (pc_medial pc) strm.

(** [mnat] and [menc] are the modules given: NULL, or whether they have a
    session handler (and, for [mnat], an update handler). *)
Definition peerconnection_new (pcp : bool) (got_offer : bool)
  (mnat : option (bool * bool)) (menc : option bool)
  (gatherh estabh closeh : bool) (arg : nat) : W (Z * option nat) :=
  if negb pcp then mret (EINVAL, None) else
  match mnat, menc with
  | Some (mnat_sessh, mnat_updateh), Some menc_sessh =>
    failed ← call A_mem_zalloc;
    if negb (failed =? 0) then mret (ENOMEM, None) else
    p ← new_addr;
    pc_put p pc_zero;;
    err ← call A_sdp_session_alloc;
    if negb (err =? 0) then destructor p;; mret (err, None) else
    err ← (if mnat_sessh : bool then
             pc_upd p (set_mnat (Some mnat_updateh) false);;
             err ← call (A_mnat_sessh (negb got_offer));
             when (err =? 0) (pc_upd p (set_mnat (Some mnat_updateh) true));;
             mret err
           else mret 0);
    if negb (err =? 0) then destructor p;; mret (err, None) else
    err ← (if menc_sessh : bool then
             err ← call (A_menc_sessh (negb got_offer));
             when (err =? 0) (pc_upd p (set_mencs true));;
             mret err
           else mret 0);
    if negb (err =? 0) then destructor p;; mret (err, None) else
    pc_upd p (set_handlers gatherh estabh closeh arg);;
    mret (0, Some p)
  | _, _ => mret (EINVAL, None)
  end.

Definition add_media (kind : media_kind) (alloc : bool -> action) (p : option nat)
  (cfg codecl : bool) : W Z :=
  match p with
  | Some p =>
    if negb cfg || negb codecl then mret EINVAL else
    pc ← pc_get p;
    let offerer := bool_decide (pc_signaling_state pc <> SS_HAVE_REMOTE_OFFER) in
    media ← media_track_add p kind;
    match media with
    | None => ub
    | Some n =>
      err ← call (alloc offerer);
      if negb (err =? 0) then mret err else
      strm ← new_addr;
      track_upd p n (track_u (Some strm));;
      pc_upd p (fun pc => set_media (pc_streaml pc ++ [strm]) (pc_medial pc) pc);;
      emit (A_set_session_handlers strm);;
      mret 0
    end
  | None => mret EINVAL
  end.

Definition peerconnection_add_audio := add_media MEDIA_KIND_AUDIO A_audio_alloc.
Definition peerconnection_add_video := add_media MEDIA_KIND_VIDEO A_video_alloc.

Definition sdp_attr_decode_track (m : media_track) : W unit :=
  match mt_u m, mt_kind m with
  | Some u, MEDIA_KIND_VIDEO => emit (A_video_sdp_attr_decode u)
  | _, _ => mret tt
  end.

Definition peerconnection_set_remote_descr (p : option nat) (sd : option sdp_type)
  : W Z :=
  match p, sd with
  | Some p, Some type =>
    pc ← pc_get p;
    if decide (pc_signaling_state pc = SS_HAVE_REMOTE_OFFER) then mret EPROTO else
    let offer := bool_decide (type = SDP_OFFER) in
    pc_upd p (set_signaling (if offer then SS_HAVE_REMOTE_OFFER else SS_STABLE));;
    err ← call (A_sdp_decode p offer);
    if negb (err =? 0) then mret err else
    pc ← pc_get p;
    for_each sdp_attr_decode_track (pc_medial pc);;
    for_each (fun s => emit (A_stream_update s)) (pc_streaml pc);;
    pc_upd p set_sdp_dec_ok;;
    mret 0
  | _, _ => mret EINVAL
  end.

(** Returns the error code and whether [*mb] was set. *)
Definition peerconnection_create_offer (p : option nat) : W (Z * bool) :=
  match p with
  | None => mret (EINVAL, false)
  | Some p =>
    pc ← pc_get p;
    if decide (pc_signaling_state pc <> SS_STABLE) then mret (EPROTO, false) else
    err ← call (A_sdp_encode p true);
    if negb (err =? 0) then mret (err, false) else
    pc_upd p (set_signaling SS_HAVE_LOCAL_OFFER);;
    pc_upd p set_sdp_enc_ok;;
    mret (0, true)
  end.

Definition peerconnection_create_answer (p : option nat) : W (Z * bool) :=
  match p with
  | None => mret (EINVAL, false)
  | Some p =>
    pc ← pc_get p;
    if decide (pc_signaling_state pc <> SS_HAVE_REMOTE_OFFER) then mret (EPROTO, false)
    else
    err ← call (A_sdp_encode p false);
    if negb (err =? 0) then mret (err, false) else
    pc_upd p (set_signaling SS_STABLE);;
    pc_upd p set_sdp_enc_ok;;
    mret (0, true)
  end.

Definition peerconnection_start_ice (p : option nat) : W Z :=
  match p with
  | None => mret EINVAL
  | Some p =>
    pc ← pc_get p;
    if negb (pc_sdp_dec_ok pc) then
      if pc_ice_retry_times pc <? 10 then
        pc_upd p (set_retry (pc_ice_retry_times pc + 1));;
        tmr_start p;;
        mret 0
      else mret EPROTO
    else
      updateh ← of_option (pc_mnat pc);
      if updateh && pc_mnats pc then
        err ← call A_mnat_update;
        if negb (err =? 0) then mret err else mret 0
      else mret 0
  end.

Definition peerconnection_signaling (p : option nat) : W signaling_st :=
  match p with
  | Some p => pc ← pc_get p; mret (pc_signaling_state pc)
  | None => mret SS_STABLE
  end.

Definition peerconnection_close (p : option nat) : W unit :=
  match p with
  | None => mret tt
  | Some p =>
    pc_upd p (set_closeh false);;
    pc_upd p (fun pc => set_mnat (pc_mnat pc) false pc)
  end.

End Ops.

(** ** The application behind the connection

    [gatherh], [estabh] and [closeh] as the application provides them; the
    first argument is [pc->arg], and a track is given by its connection and
    its place. *)
Class Callbacks := {
  gather_cb : nat -> W unit;
  estab_cb : nat -> nat -> nat -> W unit;
  close_cb : nat -> Z -> W unit }.

Section Handlers.
Context (ext : list action -> action -> Z) `{!Callbacks}.

Definition pc_close (p : nat) (err : Z) : W unit :=
  pc ← pc_get p;
  pc_upd p (set_closeh false);;
  when (pc_closeh pc) (emit ext (A_closeh p err);; close_cb (pc_arg pc) err).

Definition audio_error_handler (p : nat) (err : Z) : W unit := pc_close p err.
Definition video_error_handler (p : nat) (err : Z) : W unit := pc_close p err.

Definition mnat_estab_handler (p : nat) (err scode : Z) : W unit :=
  if negb (err =? 0) then pc_close p err
  else if negb (scode =? 0) then pc_close p EPROTO
  else
    pc_upd p set_gather_ok;;
    pc ← pc_get p;
    when (pc_gatherh pc) (gather_cb (pc_arg pc)).

Definition menc_event_handler (p : nat) (event : menc_event) (strm : option nat)
  : W unit :=
  pc ← pc_get p;
  match event with
  | MENC_EVENT_SECURE =>
    match lookup_media pc strm with
    | None => ub
    | Some n =>
      track_upd p n track_dtls;;
      emit ext (A_set_secure strm);;
      emit ext (A_stream_start strm);;
      when (pc_estabh pc) (estab_cb (pc_arg pc) p n)
    end
  | _ => mret tt
  end.

Definition menc_error_handler (p : nat) (err : Z) : W unit :=
  pc ← pc_get p;
  when (pc_closeh pc) (emit ext (A_closeh p err);; close_cb (pc_arg pc) err).

Definition mnatconn_handler (p n : nat) (strm : option nat) : W unit :=
  track_upd p n track_ice;;
  err ← call ext (A_start_mediaenc strm);
  when (negb (err =? 0)) (pc_close p err).

Definition rtpestab_handler (p n : nat) : W unit := track_upd p n track_rtp.
Definition rtcp_handler (p n : nat) : W unit := track_upd p n track_rtcp.

Definition stream_error_handler (p n : nat) (err : Z) : W unit :=
  _ ← track_get p n;
  pc_close p err.

Definition start_media_track (p n : nat) : W unit :=
  track_upd p n track_dtls;;
  m ← track_get p n;
  emit ext (A_set_secure (mt_u m));;
  emit ext (A_stream_start (mt_u m));;
  pc ← pc_get p;
  when (pc_estabh pc) (estab_cb (pc_arg pc) p n).

Definition peerconnection_start_media (p : option nat) : W unit :=
  match p with
  | None => ub
  | Some p =>
    pc ← pc_get p;
    for_each (start_media_track p) (seq 0 (length (pc_medial pc)))
  end.

End Handlers.
End Pc.
