(* ===== verification/ClientSession.v ===== *)
(** * Client sessions

    Models src/barertc/src/brtc/baidu_rtc_client_session.c, the session
    descriptions of src/barertc/src/descr.c and the four flows of
    src/barertc/src/brtc/baidu_rtc_signal_client.c that drive a session:
    publishing, the remote answer, a remote offer and the start of media. *)

From stdpp Require Import gmap.
From S2P Require Import Prelude Effects PeerConn.
Import Pc.

(** ** Session descriptions (descr.c) *)
Module Descr.

Definition sdptype_name (type : sdp_type) : list Z :=
  match type with
  | SDP_OFFER => bytes_of "offer"
  | SDP_ANSWER => bytes_of "answer"
  end.

(** [strcasecmp] in the C locale. *)
Definition tolower (c : Z) : Z := if (65 <=? c) && (c <=? 90) then c + 32 else c.
Definition str_caseeq (a b : list Z) : bool :=
  bool_decide (map tolower a = map tolower b).

(** The string entries of an [odict], first added first. *)
Definition odict : Type := list (list Z * list Z).

Definition odict_string (od : odict) (key : list Z) : option (list Z) :=
  snd <$> find (fun e => bool_decide (fst e = key)) od.

Record session_description := mk_sd {
  sd_type : option sdp_type;
  sd_sdp : option (list Z) }.

Section Codec.
(** [json_decode_odict] on the unread bytes, with its error code; whether
    the allocations and the string copy succeed. *)
Context (json_decode_odict : list Z -> Z + odict).

(** Returns the error code and the odict, if one is stored in [*odp]:
    [None] is undefined behaviour, the [mem_deref] of an uninitialised
    pointer when the copy of the text fails.  The arguments are the results
    of [mbuf_strdup], [odict_alloc] and the two [odict_entry_add]. *)
Definition session_description_encode (type : sdp_type) (sdp : option (list Z))
  (e_strdup e_alloc e_add1 e_add2 : Z) : option (Z * option odict) :=
  match sdp with
  | None => Some (EINVAL, None)
  | Some sdp =>
    if negb (e_strdup =? 0) then None
    else if negb (e_alloc =? 0) then Some (e_alloc, None)
    else
      let err := Z.lor e_add1 e_add2 in
      if negb (err =? 0) then Some (err, None)
      else Some (0, Some [(bytes_of "type", sdptype_name type); (bytes_of "sdp", sdp)])
  end.

(** [memset] leaves the type 0, which is [SDP_OFFER]. *)
Definition session_description_decode (mb : option (list Z)) (alloc_ok : bool)
  : Z * session_description :=
  match mb with
  | None => (EINVAL, mk_sd None None)
  | Some mb =>
    match json_decode_odict mb with
    | inl err => (err, mk_sd (Some SDP_OFFER) None)
    | inr od =>
      match odict_string od (bytes_of "type"), odict_string od (bytes_of "sdp") with
      | Some type, Some sdp =>
        let store t :=
          if alloc_ok then (0, mk_sd (Some t) (Some sdp))
          else (ENOMEM, mk_sd (Some t) None) in
        if str_caseeq type (bytes_of "offer") then store SDP_OFFER
        else if str_caseeq type (bytes_of "answer") then store SDP_ANSWER
        else (EPROTO, mk_sd (Some SDP_OFFER) None)
      | _, _ => (EPROTO, mk_sd (Some SDP_OFFER) None)
      end
    end
  end.

End Codec.

Definition session_description_reset (sd : session_description) : session_description :=
  mk_sd None None.

End Descr.

Module Session.
Import Descr.

Section Session.
Context (ext : list action -> action -> Z).
(** The modules of the build, and the JSON decoder of the descriptions. *)
Context (mnat : option (bool * bool)) (menc_srtp : option bool).
Context (json_decode_odict : list Z -> Z + odict).

Definition client_session_new (handle_id : Z) : W nat :=
  failed ← call ext A_mem_zalloc;
  if negb (failed =? 0) then ub else
  a ← new_addr;
  modify (fun w => set_sessl (w_sessl w ++ [mk_session a handle_id None]) w);;
  mret a.

Definition client_session_lookup (handle_id : Z) : W (option nat) :=
  l ← gets w_sessl;
  mret (cs_addr <$> find (fun s => handle_id =? cs_handle_id s) l).

Definition sess_get (a : nat) : W client_session :=
  l ← gets w_sessl; of_option (find (fun s => Nat.eqb a (cs_addr s)) l).

Definition sess_set_pc (a : nat) (p : option nat) : W unit :=
  modify (fun w => set_sessl
    (map (fun s => if Nat.eqb a (cs_addr s) then mk_session a (cs_handle_id s) p else s)
         (w_sessl w)) w).

Definition client_session_destructor (a : nat) : W unit :=
  s ← sess_get a;
  modify (fun w => set_sessl (filter (fun s => cs_addr s <> a) (w_sessl w)) w);;
  mem_deref_pc ext (cs_pc s).

(** Writing the terminating NUL needs a byte behind [end]; a NULL buffer is
    dereferenced. *)
Definition nul_terminate (mb : bool) : W unit :=
  if mb then
    spare ← call ext A_mbuf_spare;
    if spare =? 0 then ub else mret tt
  else ub.

Definition reply_fmt (handle_id : Z) : W unit :=
  err ← call ext A_sdprintf;
  when (err =? 0) (emit ext (A_send_offer handle_id)).

Definition reply_descr (handle_id : Z) : W Z := reply_fmt handle_id;; mret 0.

Definition sendanswer_fmt (handle_id : Z) : W unit :=
  err ← call ext A_sdprintf;
  when (err =? 0) (emit ext (A_send_answer handle_id)).

Definition sendanswer_descr (handle_id : Z) (mb : bool) : W Z :=
  nul_terminate mb;;
  sendanswer_fmt handle_id;;
  mret 0.

Definition client_session_create_offer (a : nat) : W unit :=
  s ← sess_get a;
  _ ← peerconnection_signaling (cs_pc s);
  '(_, mb) ← peerconnection_create_offer ext (cs_pc s);
  nul_terminate mb;;
  _ ← reply_descr (cs_handle_id s);
  mret tt.

Definition client_session_create_answer (a : nat) : W unit :=
  s ← sess_get a;
  _ ← peerconnection_signaling (cs_pc s);
  '(_, mb) ← peerconnection_create_answer ext (cs_pc s);
  _ ← sendanswer_descr (cs_handle_id s) mb;
  mret tt.

(** ** The handlers given to the peer connection *)

Definition peerconnection_gather_handler (a : nat) : W unit :=
  s ← sess_get a;
  _ ← peerconnection_signaling (cs_pc s);
  _ ← peerconnection_start_ice ext (cs_pc s);
  mret tt.

Definition peerconnection_estab_handler (a p n : nat) : W unit :=
  m ← track_get p n;
  _ ← match mt_kind m with
      | MEDIA_KIND_AUDIO => mediatrack_start_audio ext p n
      | MEDIA_KIND_VIDEO => mediatrack_start_video ext p n
      end;
  mret tt.

Definition peerconnection_close_handler (a : nat) (err : Z) : W unit :=
  s ← sess_get a;
  mem_deref_pc ext (cs_pc s);;
  sess_set_pc a None.

#[local] Instance callbacks : Callbacks := {|
  gather_cb := peerconnection_gather_handler;
  estab_cb := peerconnection_estab_handler;
  close_cb := peerconnection_close_handler |}.

(** [*pcp] is written only on success: the session's old pointer is
    overwritten without being released. *)
Definition client_session_create_pc (a : nat) (type : sdp_type) : W Z :=
  s ← sess_get a;
  let is_offer := bool_decide (type = SDP_OFFER) in
  '(err, p) ← peerconnection_new ext true (negb is_offer) mnat menc_srtp true true true a;
  if negb (err =? 0) then mret err else
  sess_set_pc a p;;
  peerconnection_add_audio ext p true true.

Definition client_session_set_remote_description (a : nat) (jsep : option (list Z))
  : W Z :=
  s ← sess_get a;
  failed ← peek ext A_mem_zalloc;
  let '(err, sd) := session_description_decode json_decode_odict jsep (failed =? 0) in
  if negb (err =? 0) then mret err else
  err ← peerconnection_set_remote_descr ext (cs_pc s) (sd_type sd);
  mret err.

(** ** The flows of the signalling client *)

(** [publishOwnFeed] with the publisher's handle. *)
Definition publishOwnFeed (handle_id : Z) : W unit :=
  a ← client_session_new handle_id;
  _ ← client_session_create_pc a SDP_OFFER;
  client_session_create_offer a.

(** The text is copied to a buffer, whose allocation is not checked. *)
Definition mbuf_of_text (text : list Z) : W (list Z) :=
  failed ← call ext A_mem_zalloc;
  if negb (failed =? 0) then ub else mret text.

(** [onPublisherRemoteJsep] behind its guards. *)
Definition onPublisherRemoteJsep (handle_id : Z) (jsep : list Z) : W unit :=
  s ← client_session_lookup handle_id;
  match s with
  | Some a =>
    msg ← mbuf_of_text jsep;
    _ ← client_session_set_remote_description a (Some msg); mret tt
  | None => mret tt
  end.

(** [onOffer]: the copied text includes its terminating NUL. *)
Definition onOffer (handle_id : Z) (jsep : list Z) : W unit :=
  a ← client_session_new handle_id;
  _ ← client_session_create_pc a SDP_ANSWER;
  msg ← mbuf_of_text (jsep ++ [0]);
  _ ← client_session_set_remote_description a (Some msg);
  client_session_create_answer a.

(** [onRTCWebrtcUp] behind its guards, for the publisher's handle. *)
Definition onRTCWebrtcUp (handle_id : Z) : W unit :=
  s ← client_session_lookup handle_id;
  match s with
  | Some a =>
    s ← sess_get a;
    peerconnection_start_media ext (cs_pc s)
  | None => mret tt
  end.

End Session.
End Session.
