(* ===== verification/PeerConnInv.v ===== *)
(** * Invariants of the peer connections

    The step relation of the application: the flows of the signalling client
    and the events the media stack and the timer raise.  Over every
    reachable state: the stored signalling state of a connection is the one
    its SDP operations lead to, and tells which offer is pending; a media
    source is started only on streams whose media encryption was started and
    that were marked secure; ICE is retried at most ten times per
    connection. *)

From stdpp Require Import gmap relations.
From S2P Require Import Prelude Effects PeerConn ClientSession.
Import Pc Session.

#[export] Instance action_eq_dec : EqDecision action.
Proof. solve_decision. Defined.

(** ** Specifications over the trace (newest action first) *)

Section Spec.
Context (ext : list action -> action -> Z).

(** The signalling states as peerconn.c moves them: which SDP operations its
    guards let through in a state, and the state each leads to.  These are
    the guards of the code and not the state machine of JSEP: an answer is
    applied in the stable state, a remote offer over the connection's own
    one, and a description that does not decode has moved the state.  What
    they guarantee is stated with [pending] below. *)
Definition sig_step (t : list action) (p : nat) (a : action) (s : signaling_st)
  : option signaling_st :=
  match a with
  | A_sdp_encode q true =>
    if decide (q = p) then
      if decide (s = SS_STABLE) then
        Some (if ext t a =? 0 then SS_HAVE_LOCAL_OFFER else SS_STABLE)
      else None
    else Some s
  | A_sdp_encode q false =>
    if decide (q = p) then
      if decide (s = SS_HAVE_REMOTE_OFFER) then
        Some (if ext t a =? 0 then SS_STABLE else SS_HAVE_REMOTE_OFFER)
      else None
    else Some s
  | A_sdp_decode q offer =>
    if decide (q = p) then
      if decide (s = SS_HAVE_REMOTE_OFFER) then None
      else Some (if offer : bool then SS_HAVE_REMOTE_OFFER else SS_STABLE)
    else Some s
  | _ => Some s
  end.

Fixpoint sig_state (p : nat) (t : list action) : option signaling_st :=
  match t with
  | [] => Some SS_STABLE
  | a :: t => s ← sig_state p t; sig_step t p a s
  end.

(** What is pending after a history: the last action that opens or closes is
    one that opens. *)
Fixpoint pending (opens closes : list action -> action -> bool) (t : list action) : bool :=
  match t with
  | [] => false
  | a :: t => if opens t a then true else if closes t a then false
              else pending opens closes t
  end.

Definition offers (p : nat) (t : list action) (a : action) : bool :=
  bool_decide (a = A_sdp_encode p true) && (ext t a =? 0).
Definition answers (p : nat) (t : list action) (a : action) : bool :=
  bool_decide (a = A_sdp_encode p false) && (ext t a =? 0).
Definition applies_offer (p : nat) (_ : list action) (a : action) : bool :=
  bool_decide (a = A_sdp_decode p true).
Definition applies_any (p : nat) (_ : list action) (a : action) : bool :=
  bool_decide (a = A_sdp_decode p true) || bool_decide (a = A_sdp_decode p false).

(** A remote offer that was handed to the decoder and not answered yet. *)
Definition remote_offer_pending (p : nat) : list action -> bool :=
  pending (applies_offer p) (answers p).

(** An offer of the connection after which no remote description came. *)
Definition own_offer_pending (p : nat) : list action -> bool :=
  pending (offers p) (applies_any p).

(** The signalling state that says which offer is pending. *)
Definition state_says (p : nat) (t : list action) (s : signaling_st) : Prop :=
  match s with
  | SS_STABLE => remote_offer_pending p t = false /\ own_offer_pending p t = false
  | SS_HAVE_LOCAL_OFFER => remote_offer_pending p t = false /\ own_offer_pending p t = true
  | SS_HAVE_REMOTE_OFFER => remote_offer_pending p t = true /\ own_offer_pending p t = false
  end.

Lemma state_says_step p t a s s' :
  state_says p t s -> sig_step t p a s = Some s' -> state_says p (a :: t) s'.
Proof.
  unfold state_says, remote_offer_pending, own_offer_pending. cbn [pending].
  unfold applies_offer, answers, offers, applies_any, sig_step.
  intros Hs Hn. destruct a; simplify_eq/=; try done;
    repeat case_match; simplify_eq/=; repeat case_bool_decide; simplify_eq/=;
    try done; destruct_and?; split_and?; try done; repeat case_match; done.
Qed.

Lemma sig_state_says p t s : sig_state p t = Some s -> state_says p t s.
Proof.
  revert s. induction t as [|a t IH]; cbn; [by intros ? [= <-]|].
  intros s' H. apply bind_Some in H as (s & Hs & H). by eapply state_says_step; [apply IH|].
Qed.

Lemma sig_state_prefix p t1 t2 : is_Some (sig_state p (t1 ++ t2)) -> is_Some (sig_state p t2).
Proof.
  induction t1 as [|a t1 IH]; [done|]. cbn. intros [s H].
  apply bind_Some in H as (s1 & Hs & _). apply IH. by exists s1.
Qed.

(** The state an operation of a legal history was performed in. *)
Lemma sdp_op_state p after a before :
  is_Some (sig_state p (after ++ a :: before)) ->
  exists s, state_says p before s /\ is_Some (sig_step before p a s).
Proof.
  intros H. apply sig_state_prefix in H as [s' H]. cbn in H.
  apply bind_Some in H as (s & Hs & H). exists s. split; [by apply sig_state_says|by exists s'].
Qed.

End Spec.

(** A media source is started only after the stream was connected (its media
    encryption is started by the ICE handler) and marked secure. *)
Fixpoint gated (t : list action) : Prop :=
  match t with
  | [] => True
  | A_start_source _ u :: t =>
    (A_start_mediaenc u ∈ t /\ A_set_secure u ∈ t) /\ gated t
  | _ :: t => gated t
  end.

Definition tmr_count (p : nat) (t : list action) : Z :=
  zlen (filter (fun a => a = A_tmr_start p) t).

(** ** The step relation *)

Inductive event :=
| Ev_publish (handle_id : Z)
| Ev_remote_answer (handle_id : Z) (jsep : list Z)
| Ev_remote_offer (handle_id : Z) (jsep : list Z)
| Ev_webrtc_up (handle_id : Z)
| Ev_session_free (a : nat)
| Ev_close (p : nat)
| Ev_mnat_estab (p : nat) (err scode : Z)
| Ev_menc_event (p : nat) (e : menc_event) (strm : nat)
| Ev_menc_error (p : nat) (err : Z)
| Ev_mnatconn (p n : nat)
| Ev_rtpestab (p n : nat)
| Ev_rtcp (p n : nat)
| Ev_stream_error (p n : nat) (err : Z)
| Ev_audio_error (p : nat) (err : Z)
| Ev_ice_tmr (p : nat).

Section Machine.
Context (ext : list action -> action -> Z).
Context (mnat : option (bool * bool)) (menc_srtp : option bool).
Context (json_decode_odict : list Z -> Z + Descr.odict).

#[local] Instance session_callbacks : Callbacks := callbacks ext.

(** The ICE handler gets the stream of its own track. *)
Definition exec_mnatconn (p n : nat) : W unit :=
  m ← track_get p n;
  mnatconn_handler ext p n (mt_u m).

Definition exec (e : event) : W unit :=
  match e with
  | Ev_publish h => publishOwnFeed ext mnat menc_srtp h
  | Ev_remote_answer h j => onPublisherRemoteJsep ext json_decode_odict h j
  | Ev_remote_offer h j => onOffer ext mnat menc_srtp json_decode_odict h j
  | Ev_webrtc_up h => onRTCWebrtcUp ext h
  | Ev_session_free a => client_session_destructor ext a
  | Ev_close p => peerconnection_close (Some p)
  | Ev_mnat_estab p err scode => mnat_estab_handler ext p err scode
  | Ev_menc_event p e strm => menc_event_handler ext p e (Some strm)
  | Ev_menc_error p err => menc_error_handler ext p err
  | Ev_mnatconn p n => exec_mnatconn p n
  | Ev_rtpestab p n => rtpestab_handler p n
  | Ev_rtcp p n => rtcp_handler p n
  | Ev_stream_error p n err => stream_error_handler ext p n err
  | Ev_audio_error p err => audio_error_handler ext p err
  | Ev_ice_tmr p =>
    modify (fun w => set_tmrl (filter (fun q => q <> p) (w_tmrl w)) w);;
    _ ← peerconnection_start_ice ext (Some p);
    mret tt
  end.

(** Which events the environment can raise: the media stack's objects belong
    to a live connection, the timer fires when it is in the list. *)
Definition enabled (w : world) (e : event) : Prop :=
  match e with
  | Ev_publish _ | Ev_remote_answer _ _ | Ev_remote_offer _ _ | Ev_webrtc_up _ => True
  | Ev_session_free a => exists s, s ∈ w_sessl w /\ cs_addr s = a
  | Ev_close p | Ev_mnat_estab p _ _ | Ev_menc_error p _ | Ev_audio_error p _ =>
    is_Some (w_heap w !! p)
  | Ev_menc_event p _ strm =>
    exists pc m, w_heap w !! p = Some pc /\ m ∈ pc_medial pc /\ mt_u m = Some strm
  | Ev_mnatconn p n | Ev_rtpestab p n | Ev_rtcp p n | Ev_stream_error p n _ =>
    exists pc m, w_heap w !! p = Some pc /\ pc_medial pc !! n = Some m /\
    is_Some (mt_u m)
  | Ev_ice_tmr p => p ∈ w_tmrl w
  end.

Definition step (w w' : world) : Prop :=
  exists e, enabled w e /\ exec e w = Some (tt, w').

Definition init : world := mk_world ∅ 0 [] [] [].

Definition reachable (w : world) : Prop := rtc step init w.

(** ** The invariant *)

Definition track_ok (t : list action) (m : media_track) : Prop :=
  (mt_ice_conn m = true -> A_start_mediaenc (mt_u m) ∈ t) /\
  (mt_dtls_ok m = true -> A_set_secure (mt_u m) ∈ t).

Record pc_ok (t : list action) (p : nat) (pc : peer_connection) : Prop := {
  ok_tracks : Forall (track_ok t) (pc_medial pc);
  ok_ss : sig_state ext p t = Some (pc_signaling_state pc);
  ok_retry : pc_ice_retry_times pc = tmr_count p t;
  ok_bound : tmr_count p t <= 10 }.

Record wf (w : world) : Prop := {
  wf_gated : gated (w_trace w);
  wf_pc : forall p pc, w_heap w !! p = Some pc -> pc_ok (w_trace w) p pc;
  wf_legal : forall p, is_Some (sig_state ext p (w_trace w));
  wf_tmr : forall p, tmr_count p (w_trace w) <= 10;
  wf_fresh : forall p, (w_next w <= p)%nat -> w_heap w !! p = None /\
    sig_state ext p (w_trace w) = Some SS_STABLE /\ tmr_count p (w_trace w) = 0 }.

(** The connection an action is about. *)
Definition about (a : action) : option nat :=
  match a with
  | A_sdp_encode p _ | A_sdp_decode p _ | A_tmr_start p => Some p
  | _ => None
  end.

Definition source (a : action) : bool :=
  match a with A_start_source _ _ => true | _ => false end.

Lemma sig_other a p t : about a <> Some p -> sig_state ext p (a :: t) = sig_state ext p t.
Proof.
  intros H. cbn. destruct (sig_state ext p t) as [s|]; [|done]. cbn.
  destruct a; try done; cbn in *; repeat case_match; congruence.
Qed.

Lemma tmr_other a p t : about a <> Some p -> tmr_count p (a :: t) = tmr_count p t.
Proof.
  intros H. unfold tmr_count. rewrite filter_cons. case_decide as E; [|done].
  subst a. done.
Qed.

Lemma track_ok_cons a t m : track_ok t m -> track_ok (a :: t) m.
Proof. intros [H1 H2]. split; intros; right; auto. Qed.

Lemma pc_ok_cons a t p pc : about a <> Some p -> pc_ok t p pc -> pc_ok (a :: t) p pc.
Proof.
  intros Ha [H1 H2 H3 H4]. split; rewrite ?sig_other, ?tmr_other by done; try done.
  eapply Forall_impl; [exact H1|]. apply track_ok_cons.
Qed.

Lemma gated_cons a t : source a = false -> gated t -> gated (a :: t).
Proof. by destruct a. Qed.

Lemma wf_act a w :
  wf w -> about a = None -> gated (a :: w_trace w) ->
  wf (set_trace (a :: w_trace w) w).
Proof.
  intros [H1 H2 H3 H4 H5] Ha Hg. assert (Hn : forall p, about a <> Some p) by congruence.
  split; cbn [set_trace w_trace w_heap w_next]; intros;
    rewrite ?sig_other, ?tmr_other by done; auto using pc_ok_cons.
Qed.

Lemma wf_put p pc w :
  wf w -> (p < w_next w)%nat -> pc_ok (w_trace w) p pc ->
  wf (set_heap (<[p := pc]> (w_heap w)) w).
Proof.
  intros [H1 H2 H3 H4 H5] Hp Hpc. split; cbn; try done.
  - intros q qc Hq. destruct (decide (q = p)) as [->|Hne].
    + rewrite lookup_insert_eq in Hq. congruence.
    + rewrite lookup_insert_ne in Hq by done. auto.
  - intros q Hq. rewrite lookup_insert_ne by lia. auto.
Qed.

(** An action about a connection, together with the new connection. *)
Lemma wf_act_put a p pc w :
  wf w -> (p < w_next w)%nat -> about a = Some p -> source a = false ->
  pc_ok (a :: w_trace w) p pc ->
  wf (set_trace (a :: w_trace w) (set_heap (<[p := pc]> (w_heap w)) w)).
Proof.
  intros [H1 H2 H3 H4 H5] Hp Ha Hs Hpc.
  assert (Hne : forall q, q <> p -> about a <> Some q) by congruence.
  split; cbn [set_trace set_heap w_trace w_heap w_next]; [by apply gated_cons|..].
  - intros q qc Hq. destruct (decide (q = p)) as [->|].
    + rewrite lookup_insert_eq in Hq. congruence.
    + rewrite lookup_insert_ne in Hq by done. apply pc_ok_cons; auto.
  - intros q. destruct (decide (q = p)) as [->|];
      [rewrite (ok_ss _ _ _ Hpc); eauto|rewrite sig_other; auto].
  - intros q. destruct (decide (q = p)) as [->|];
      [apply (ok_bound _ _ _ Hpc)|rewrite tmr_other; auto].
  - intros q Hq. rewrite lookup_insert_ne by lia.
    rewrite sig_other, tmr_other by (apply Hne; lia). auto.
Qed.

Lemma wf_live w p pc : wf w -> w_heap w !! p = Some pc -> (p < w_next w)%nat.
Proof.
  intros H Hp. destruct (decide (w_next w <= p)%nat) as [Hle|]; [|lia].
  destruct (wf_fresh _ H p Hle) as [Hn _]. congruence.
Qed.

(** ** Primitives *)

Lemma keeps_call a :
  about a = None -> source a = false -> keeps wf (call ext a).
Proof.
  intros Ha Hs w v w' Hw [= <- <-]. apply wf_act; [done|done|].
  apply gated_cons; [done|]. apply Hw.
Qed.

Lemma keeps_emit a :
  about a = None -> source a = false -> keeps wf (emit ext a).
Proof. intros. unfold emit. auto using keeps_call with effects. Qed.

(** Only the heap, the next address and the trace matter. *)
Lemma wf_frame w w' :
  wf w -> w_heap w' = w_heap w -> (w_next w <= w_next w')%nat ->
  w_trace w' = w_trace w -> wf w'.
Proof.
  intros [H1 H2 H3 H4 H5] Eh En Et. split; rewrite ?Eh, ?Et; try done.
  intros p Hp. apply H5. lia.
Qed.

Lemma keeps_frame f :
  (forall w, w_heap (f w) = w_heap w /\ (w_next w <= w_next (f w))%nat /\
     w_trace (f w) = w_trace w) ->
  keeps wf (modify f).
Proof.
  intros H. apply keeps_modify. intros w Hw. destruct (H w) as (? & ? & ?).
  by eapply wf_frame.
Qed.

Lemma keeps_new_addr : keeps wf new_addr.
Proof. intros w a w' Hw [= <- <-]. eapply wf_frame; [done|done|cbn; lia|done]. Qed.

Lemma pc_get_run p w pc w' :
  pc_get p w = Some (pc, w') <-> w' = w /\ w_heap w !! p = Some pc.
Proof.
  unfold pc_get, mbind, M_bind, gets, of_option.
  destruct (w_heap w !! p); split; [by intros [= <- <-]|by intros [-> [= <-]]|done|].
  by intros [_ ?].
Qed.

Lemma keeps_pc_get p : keeps wf (pc_get p).
Proof. intros w pc w' Hw H. by apply pc_get_run in H as [-> _]. Qed.

(** Reading a connection: the continuation knows what the heap holds. *)
Lemma inv_pc_get {A} (P : world -> Prop) p (f : peer_connection -> W A) Q :
  (forall pc, inv (fun w => P w /\ w_heap w !! p = Some pc) (f pc) Q) ->
  inv P (pc_get p ≫= f) Q.
Proof.
  intros H w a w' Hw Hr. apply bind_run in Hr as (pc & w1 & H1 & H2).
  apply pc_get_run in H1 as [-> Hp]. by eapply H.
Qed.

Lemma inv_pre {A} (P P' : world -> Prop) (m : W A) Q :
  (forall w, P' w -> P w) -> inv P m Q -> inv P' m Q.
Proof. intros H Hm w a w' Hw. apply Hm. auto. Qed.

Lemma keeps_pre {A} (P : world -> Prop) (m : W A) :
  (forall w, P w -> wf w) -> keeps wf m -> inv P m (fun _ => wf).
Proof. intros. by eapply inv_pre. Qed.

Lemma pc_ok_same t p pc pc' :
  pc_ok t p pc -> pc_medial pc' = pc_medial pc ->
  pc_signaling_state pc' = pc_signaling_state pc ->
  pc_ice_retry_times pc' = pc_ice_retry_times pc -> pc_ok t p pc'.
Proof. intros [H1 H2 H3 H4] E1 E2 E3. split; congruence. Qed.

Lemma keeps_upd p f :
  (forall pc, pc_medial (f pc) = pc_medial pc /\
     pc_signaling_state (f pc) = pc_signaling_state pc /\
     pc_ice_retry_times (f pc) = pc_ice_retry_times pc) ->
  keeps wf (pc_upd p f).
Proof.
  intros Hf. apply inv_pc_get. intros pc w u w' [Hw Hp] [= _ <-].
  apply wf_put; [done|by eapply wf_live|]. destruct (Hf pc) as (? & ? & ?).
  eapply pc_ok_same; eauto. by apply Hw.
Qed.

Lemma pc_upd_run p f w u w' :
  pc_upd p f w = Some (u, w') ->
  exists pc, w_heap w !! p = Some pc /\ w' = set_heap (<[p := f pc]> (w_heap w)) w.
Proof.
  intros H. apply bind_run in H as (pc & w1 & H1 & H2).
  apply pc_get_run in H1 as [-> Hp]. injection H2 as _ <-. eauto.
Qed.

Lemma pc_ok_track t p pc n f m :
  pc_ok t p pc -> pc_medial pc !! n = Some m -> track_ok t (f m) ->
  pc_ok t p (set_media (pc_streaml pc) (<[n := f m]> (pc_medial pc)) pc).
Proof. intros [H1 H2 H3 H4] Hm Hf. split; cbn; try done. by apply Forall_insert. Qed.

Lemma track_upd_run p n f w u w' :
  track_upd p n f w = Some (u, w') ->
  exists pc m, w_heap w !! p = Some pc /\ pc_medial pc !! n = Some m /\
  w' = set_heap (<[p := set_media (pc_streaml pc) (<[n := f m]> (pc_medial pc)) pc]>
         (w_heap w)) w.
Proof.
  intros H. apply bind_run in H as (pc & w1 & H1 & H). apply pc_get_run in H1 as [-> Hp].
  apply bind_run in H as (m & w2 & H2 & H). unfold of_option in H2.
  destruct (pc_medial pc !! n) as [m'|] eqn:E; [|done]. injection H2 as <- <-.
  injection H as _ <-. eauto.
Qed.

Lemma keeps_track_upd p n f :
  (forall t m, track_ok t m -> track_ok t (f m)) -> keeps wf (track_upd p n f).
Proof.
  intros Hf w u w' Hw Hr. apply track_upd_run in Hr as (pc & m & Hp & Hm & ->).
  apply wf_put; [done|by eapply wf_live|]. pose proof (wf_pc _ Hw _ _ Hp) as Hok.
  eapply pc_ok_track; [done..|]. apply Hf.
  by eapply Forall_lookup_1; [apply Hok|].
Qed.

Lemma track_get_run p n w m w' :
  track_get p n w = Some (m, w') ->
  w' = w /\ exists pc, w_heap w !! p = Some pc /\ pc_medial pc !! n = Some m.
Proof.
  intros H. apply bind_run in H as (pc & w1 & H1 & H). apply pc_get_run in H1 as [-> Hp].
  unfold of_option in H. destruct (pc_medial pc !! n) eqn:E; [|done].
  injection H as <- <-. eauto.
Qed.

Lemma keeps_track_get p n : keeps wf (track_get p n).
Proof. intros w m w' Hw H. by apply track_get_run in H as [-> _]. Qed.

Lemma keeps_destructor p : keeps wf (destructor ext p).
Proof.
  apply inv_pc_get. intros pc. apply (keeps_pre (fun w => wf w /\ _)); [tauto|].
  apply keeps_bind.
  - apply keeps_for_each. intros m. unfold mediatrack_stop.
    destruct (mt_kind m); auto using keeps_emit with effects.
  - intros _. apply keeps_modify. intros w [H1 H2 H3 H4 H5]. split; cbn; try done.
    + intros q qc Hq. apply lookup_delete_Some in Hq as [_ Hq]. auto.
    + intros q Hq. destruct (H5 q Hq) as (Hn & ? & ?). split; [|done].
      by rewrite lookup_delete_None, Hn; right.
Qed.

(** ** Operations *)

Ltac keep1 := first
  [ apply keeps_ret | apply keeps_ub | apply keeps_gets | apply keeps_of_option
  | apply keeps_emit; [done|done] | apply keeps_call; [done|done]
  | apply keeps_pc_get | apply keeps_track_get | apply keeps_new_addr
  | apply keeps_destructor
  | apply keeps_upd; [by intros]
  | apply keeps_when | apply keeps_if
  | apply keeps_for_each; intros ?
  | apply keeps_bind; [|intros ?] ].
Ltac keep := repeat (keep1 || case_match).

Lemma insert_same (h : gmap nat peer_connection) p pc :
  h !! p = Some pc -> <[p := pc]> h = h.
Proof. apply insert_id. Qed.

Lemma tmr_count_same p t : tmr_count p (A_tmr_start p :: t) = tmr_count p t + 1.
Proof.
  unfold tmr_count. rewrite filter_cons_True by done. unfold zlen. cbn. lia.
Qed.

Lemma set_heap_id w h : h = w_heap w -> set_heap h w = w.
Proof. intros ->. by destruct w. Qed.

(** A new SDP state: the action is legal, and leads where the stored state
    goes. *)
Lemma pc_ok_sdp a t p pc pc' :
  pc_ok t p pc -> about a = Some p -> a <> A_tmr_start p ->
  sig_step ext t p a (pc_signaling_state pc) = Some (pc_signaling_state pc') ->
  pc_medial pc' = pc_medial pc -> pc_ice_retry_times pc' = pc_ice_retry_times pc ->
  pc_ok (a :: t) p pc'.
Proof.
  intros [H1 H2 H3 H4] Ha Ht Hj Em Er.
  assert (Hc : tmr_count p (a :: t) = tmr_count p t).
  { unfold tmr_count. by rewrite filter_cons_False. }
  split; rewrite ?Hc, ?Em, ?Er; try done.
  - eapply Forall_impl; [exact H1|]. apply track_ok_cons.
  - cbn. rewrite H2. done.
Qed.

(** [peerconnection_create_offer] and [peerconnection_create_answer] are the
    same code with another role and other states. *)
Lemma keeps_sdp_encode p role s0 s1 :
  (forall t, sig_step ext t p (A_sdp_encode p role) s0
     = Some (if ext t (A_sdp_encode p role) =? 0 then s1 else s0)) ->
  keeps wf (pc ← pc_get p;
    if decide (pc_signaling_state pc <> s0) then mret (EPROTO, false) else
    err ← call ext (A_sdp_encode p role);
    if negb (err =? 0) then mret (err, false) else
    pc_upd p (set_signaling s1);; pc_upd p set_sdp_enc_ok;; mret (0, true)).
Proof.
  intros Hj. apply inv_pc_get.
  intros pc w r w' [Hw Hp] Hr. pose proof (wf_live _ _ _ Hw Hp) as Hlt.
  pose proof (wf_pc _ Hw _ _ Hp) as Hok. cbn in Hr.
  case_decide as Hs; [by injection Hr as _ <-|].
  apply bind_run in Hr as (err & w1 & [= <- <-] & Hr).
  destruct (Z.eqb_spec (ext (w_trace w) (A_sdp_encode p role)) 0) as [E|E]; cbn in Hr.
  - apply bind_run in Hr as (? & ? & H1 & Hr). apply pc_upd_run in H1 as (? & H1 & ->).
    apply bind_run in Hr as (? & ? & H2 & Hr). apply pc_upd_run in H2 as (? & H2 & ->).
    cbn in H1, H2. rewrite Hp in H1. injection H1 as <-.
    rewrite lookup_insert_eq in H2. injection H2 as <-. injection Hr as _ <-.
    unfold set_heap. cbn. rewrite insert_insert_eq.
    apply (wf_act_put (A_sdp_encode p role) p _ w); try done.
    eapply pc_ok_sdp; try done. by rewrite Hs, Hj, E.
  - injection Hr as _ <-. rewrite <- (set_heap_id w (<[p := pc]> (w_heap w)))
      by (by apply insert_id).
    apply (wf_act_put (A_sdp_encode p role) p pc w); try done.
    eapply pc_ok_sdp; try done. by rewrite Hs, Hj, (proj2 (Z.eqb_neq _ _) E).
Qed.

Lemma keeps_create_offer p : keeps wf (peerconnection_create_offer ext p).
Proof.
  destruct p as [p|]; [|apply keeps_ret]. apply keeps_sdp_encode.
  intros t. cbn. by rewrite !decide_True.
Qed.

Lemma keeps_create_answer p : keeps wf (peerconnection_create_answer ext p).
Proof.
  destruct p as [p|]; [|apply keeps_ret]. apply keeps_sdp_encode.
  intros t. cbn. by rewrite !decide_True.
Qed.

Lemma keeps_set_remote_descr p sd :
  keeps wf (peerconnection_set_remote_descr ext p sd).
Proof.
  destruct p as [p|], sd as [type|]; try apply keeps_ret. cbn. apply inv_pc_get.
  intros pc w r w' [Hw Hp] Hr. case_decide as Hs; [by injection Hr as _ <-|].
  apply bind_run in Hr as (? & ? & H1 & Hr). apply pc_upd_run in H1 as (? & H1 & ->).
  rewrite Hp in H1. injection H1 as <-.
  apply bind_run in Hr as (err & w1 & [= <- <-] & Hr).
  set (offer := bool_decide (type = SDP_OFFER)) in *.
  assert (Hw1 : wf (set_trace (A_sdp_decode p offer :: w_trace w) (set_heap
    (<[p := set_signaling (if offer then SS_HAVE_REMOTE_OFFER else SS_STABLE) pc]>
       (w_heap w)) w))).
  { apply wf_act_put; try done; [by eapply wf_live|].
    apply (pc_ok_sdp _ _ _ pc); try done; [by apply Hw|]. cbn.
    rewrite decide_True, decide_False by done. done. }
  match type of Hr with (if ?b then _ else ?m) _ = _ =>
    assert (Hk : keeps wf m) by (unfold sdp_attr_decode_track; keep); destruct b end.
  - by injection Hr as _ <-.
  - eapply Hk; [|exact Hr]. exact Hw1.
Qed.

Lemma keeps_start_ice p : keeps wf (peerconnection_start_ice ext p).
Proof.
  destruct p as [p|]; [|apply keeps_ret]. cbn. apply inv_pc_get.
  intros pc w r w' [Hw Hp] Hr. destruct (pc_sdp_dec_ok pc); cbn [negb] in Hr.
  { revert Hr. apply (fun H => H w r w' Hw). fold (keeps wf
      (updateh ← of_option (pc_mnat pc); if updateh && pc_mnats pc
       then err ← call ext A_mnat_update; if negb (err =? 0) then mret err else mret 0
       else mret 0)). keep. }
  destruct (Z.ltb_spec (pc_ice_retry_times pc) 10); [|by injection Hr as _ <-].
  apply bind_run in Hr as (? & ? & H1 & Hr). apply pc_upd_run in H1 as (? & H1 & ->).
  rewrite Hp in H1. injection H1 as <-.
  apply bind_run in Hr as (? & ? & [= _ <-] & Hr). injection Hr as _ <-.
  pose proof (wf_pc _ Hw _ _ Hp) as [H1 H2 H3 H4].
  eapply wf_frame; [eapply (wf_act_put (A_tmr_start p) p)| | |]; try done.
  - by eapply wf_live.
  - split; rewrite ?tmr_count_same; cbn; [|by rewrite H2|lia|lia].
    eapply Forall_impl; [exact H1|]. apply track_ok_cons.
Qed.

(** ** Media tracks *)

(** The stream may be started. *)
Definition ready (u : option nat) (w : world) : Prop :=
  wf w /\ A_start_mediaenc u ∈ w_trace w /\ A_set_secure u ∈ w_trace w.

Lemma ready_call u a :
  about a = None -> source a = false -> keeps (ready u) (call ext a).
Proof.
  intros Ha Hs w v w' (Hw & H1 & H2) Hr. split; [by eapply keeps_call|].
  injection Hr as _ <-. cbn. split; by right.
Qed.

Lemma start_source_wf u k : inv (ready u) (call ext (A_start_source k u)) (fun _ => wf).
Proof.
  intros w v w' (Hw & H1 & H2) [= _ <-]. apply wf_act; [done|done|].
  split; [done|]. apply Hw.
Qed.

(** [mediatrack_start_audio] and [mediatrack_start_video]. *)
Lemma keeps_mediatrack_start k p n :
  keeps wf (m ← track_get p n;
    if negb (mt_ice_conn m) || negb (mt_dtls_ok m) then mret EPROTO
    else
      fmt ← call ext (A_rformat (mt_u m));
      if negb (fmt =? 0) then
        err ← call ext (A_encoder_set (mt_u m));
        if negb (err =? 0) then mret err
        else
          err ← call ext (A_start_source k (mt_u m));
          if negb (err =? 0) then mret err else mret 0
      else mret 0).
Proof.
  intros w r w' Hw Hr. apply bind_run in Hr as (m & w1 & H1 & Hr).
  apply track_get_run in H1 as (-> & pc & Hp & Hm).
  destruct (mt_ice_conn m) eqn:Hi, (mt_dtls_ok m) eqn:Hd; cbn [negb orb] in Hr;
    try by injection Hr as _ <-.
  assert (Hok : ready (mt_u m) w).
  { pose proof (wf_pc _ Hw _ _ Hp) as [Ht _ _ _].
    pose proof (Forall_lookup_1 _ _ _ _ Ht Hm) as [H1 H2]. split; auto. }
  assert (Hwf : forall w, ready (mt_u m) w -> wf w) by (by intros ? []).
  revert Hr. match goal with |- ?x w = _ -> _ =>
    assert (H : inv (ready (mt_u m)) x (fun _ => wf)) end; [|by apply H].
  eapply inv_bind; [by apply ready_call|]. intros fmt.
  destruct (negb (fmt =? 0)); [|apply keeps_pre; [done|apply keeps_ret]].
  eapply inv_bind; [by apply ready_call|]. intros err.
  destruct (negb (err =? 0)); [apply keeps_pre; [done|apply keeps_ret]|].
  eapply inv_bind; [apply start_source_wf|]. intros err'.
  apply keeps_if; apply keeps_ret.
Qed.

Lemma keeps_estab a p n : keeps wf (peerconnection_estab_handler ext a p n).
Proof.
  unfold peerconnection_estab_handler. apply keeps_bind; [apply keeps_track_get|].
  intros m. apply keeps_bind; [|intros; apply keeps_ret].
  destruct (mt_kind m); apply keeps_mediatrack_start.
Qed.

(** Setting a flag together with the action that it stands for. *)
Definition track_at (p n : nat) (u : option nat) (w : world) : Prop :=
  wf w /\ exists pc m, w_heap w !! p = Some pc /\ pc_medial pc !! n = Some m /\ mt_u m = u.

Lemma keeps_flag {A} p n u f (act : option nat -> action) (k : Z -> W A) :
  (forall u, about (act u) = None /\ source (act u) = false) ->
  (forall t m, track_ok t m -> track_ok (act (mt_u m) :: t) (f m)) ->
  (forall v, keeps wf (k v)) ->
  inv (track_at p n u) (track_upd p n f;; call ext (act u) ≫= k) (fun _ => wf).
Proof.
  intros Ha Hf Hk w v w' (Hw & pc & m & Hp & Hm & <-) Hr.
  apply bind_run in Hr as (? & ? & H1 & Hr).
  apply track_upd_run in H1 as (pc' & m' & Hp' & Hm' & ->).
  rewrite Hp in Hp'. injection Hp' as <-. rewrite Hm in Hm'. injection Hm' as <-.
  apply bind_run in Hr as (r & w2 & [= <- <-] & Hr). eapply Hk; [|exact Hr].
  set (a := act (mt_u m)) in *. destruct (Ha (mt_u m)) as [Ha1 Ha2].
  assert (Hw1 : wf (set_trace (a :: w_trace w) w)).
  { apply wf_act; [done|done|]. apply gated_cons; [done|apply Hw]. }
  assert (Hok : pc_ok (a :: w_trace w) p pc) by (by apply (wf_pc _ Hw1)).
  apply (wf_put p (set_media (pc_streaml pc) (<[n := f m]> (pc_medial pc)) pc)
    (set_trace (a :: w_trace w) w)); [done|by apply (wf_live w p pc)|].
  eapply pc_ok_track; [done..|]. apply Hf.
  pose proof (wf_pc _ Hw _ _ Hp) as [Ht _ _ _]. by eapply Forall_lookup_1.
Qed.

Lemma track_ice_ok t m : track_ok t m ->
  track_ok (A_start_mediaenc (mt_u m) :: t) (track_ice m).
Proof. intros [H1 H2]. split; cbn; intros; [by left|right; auto]. Qed.

Lemma track_dtls_ok t m : track_ok t m ->
  track_ok (A_set_secure (mt_u m) :: t) (track_dtls m).
Proof. intros [H1 H2]. split; cbn; intros; [right; auto|by left]. Qed.

(** ** The application's handlers and flows *)

Lemma keeps_sess_get a : keeps wf (sess_get a).
Proof. unfold sess_get. keep. Qed.

Lemma keeps_sess_set_pc a p : keeps wf (sess_set_pc a p).
Proof. by apply keeps_frame. Qed.

Lemma keeps_mem_deref p : keeps wf (mem_deref_pc ext p).
Proof. destruct p; [apply keeps_destructor|apply keeps_ret]. Qed.

Lemma keeps_signaling p : keeps wf (peerconnection_signaling p).
Proof. destruct p; cbn; keep. Qed.

Lemma keeps_gather a : keeps wf (peerconnection_gather_handler ext a).
Proof.
  unfold peerconnection_gather_handler.
  repeat (keep1 || apply keeps_sess_get || apply keeps_signaling || apply keeps_start_ice).
Qed.

Lemma keeps_close_handler a err : keeps wf (peerconnection_close_handler ext a err).
Proof.
  unfold peerconnection_close_handler.
  repeat (apply keeps_sess_get || apply keeps_sess_set_pc || apply keeps_mem_deref || keep1).
Qed.

Lemma keeps_pc_close p err : keeps wf (pc_close ext p err).
Proof. unfold pc_close. repeat (apply keeps_close_handler || keep1). Qed.

Lemma keeps_mnat_estab p err scode : keeps wf (mnat_estab_handler ext p err scode).
Proof.
  unfold mnat_estab_handler. repeat (apply keeps_pc_close || apply keeps_gather || keep1).
Qed.

Lemma keeps_menc_error p err : keeps wf (menc_error_handler ext p err).
Proof. unfold menc_error_handler. repeat (apply keeps_close_handler || keep1). Qed.

Lemma lookup_media_spec k l strm n :
  lookup_media_from k l strm = Some n ->
  exists m, (k <= n)%nat /\ l !! (n - k)%nat = Some m /\ mt_u m = strm.
Proof.
  revert k. induction l as [|m l IH]; intros k; cbn; [done|].
  case_decide as E.
  - intros [= <-]. exists m. by rewrite Nat.sub_diag.
  - intros H. destruct (IH _ H) as (m' & Hle & Hm' & <-). exists m'.
    split; [lia|]. split; [|done]. by replace (n - k)%nat with (S (n - S k)) by lia.
Qed.

Lemma keeps_menc_event p e strm : keeps wf (menc_event_handler ext p e strm).
Proof.
  unfold menc_event_handler. apply inv_pc_get. intros pc.
  destruct e; try (apply keeps_pre; [tauto|apply keeps_ret]).
  destruct (lookup_media pc strm) as [n|] eqn:Hl; [|apply keeps_pre; [tauto|apply keeps_ub]].
  apply lookup_media_spec in Hl as (m & _ & Hm & Hu). rewrite Nat.sub_0_r in Hm.
  apply (inv_pre (track_at p n strm)).
  { intros w [Hw Hp]. split; [done|]. eauto. }
  apply (keeps_flag p n strm track_dtls A_set_secure
    (fun _ => emit ext (A_stream_start strm);;
              when (pc_estabh pc) (estab_cb (pc_arg pc) p n)));
    [done|apply track_dtls_ok|].
  intros _. repeat (apply keeps_estab || keep1).
Qed.

Lemma keeps_mnatconn p n : keeps wf (exec_mnatconn p n).
Proof.
  intros w r w' Hw Hr. apply bind_run in Hr as (m & ? & H1 & Hr).
  apply track_get_run in H1 as (-> & pc & Hp & Hm). revert Hr.
  apply (keeps_flag p n (mt_u m) track_ice A_start_mediaenc
    (fun err => when (negb (err =? 0)) (pc_close ext p err)));
    [done|apply track_ice_ok| |split; [done|]; eauto].
  intros v. repeat (apply keeps_pc_close || keep1).
Qed.

Lemma keeps_start_media_track p n : keeps wf (start_media_track ext p n).
Proof.
  intros w r w' Hw Hr. apply bind_run in Hr as (? & ? & H1 & Hr).
  pose proof H1 as H0.
  apply track_upd_run in H1 as (pc & m & Hp & Hm & ->).
  apply bind_run in Hr as (m' & ? & H1 & Hr).
  apply track_get_run in H1 as (-> & pc' & Hp' & Hm'). cbn in Hp'.
  rewrite lookup_insert_eq in Hp'. injection Hp' as <-. cbn in Hm'.
  rewrite list_lookup_insert_eq in Hm' by (by eapply lookup_lt_Some).
  injection Hm' as <-.
  refine (keeps_flag p n (mt_u m) track_dtls A_set_secure
    (fun _ => emit ext (A_stream_start (mt_u m));;
              pc ← pc_get p; when (pc_estabh pc) (estab_cb (pc_arg pc) p n))
    _ track_dtls_ok _ w r w' _ _); [done| |split; [done|]; eauto|].
  - intros _. repeat (apply keeps_estab || keep1).
  - apply bind_run. eauto.
Qed.

Lemma keeps_start_media p : keeps wf (peerconnection_start_media ext p).
Proof.
  destruct p as [p|]; cbn; [|apply keeps_ub].
  repeat (apply keeps_start_media_track || keep1).
Qed.

Lemma keeps_alloc_pc {A} (k : nat -> W A) :
  (forall p, keeps wf (k p)) -> keeps wf (p ← new_addr; pc_put p pc_zero;; k p).
Proof.
  intros Hk w r w' Hw Hr. apply bind_run in Hr as (p & w1 & H1 & Hr). injection H1 as <- <-.
  apply bind_run in Hr as (? & w2 & [= _ <-] & Hr). eapply Hk; [|exact Hr].
  destruct (wf_fresh _ Hw (w_next w)) as (_ & Hj & Ht); [lia|].
  apply (wf_put (w_next w) pc_zero
    (mk_world (w_heap w) (S (w_next w)) (w_tmrl w) (w_sessl w) (w_trace w))).
  - eapply wf_frame; [done|done|cbn; lia|done].
  - cbn. lia.
  - split; cbn; [constructor|done|done|lia].
Qed.

Lemma keeps_pc_new pcp got_offer mn me g e c arg :
  keeps wf (peerconnection_new ext pcp got_offer mn me g e c arg).
Proof.
  unfold peerconnection_new. destruct pcp; cbn [negb]; [|apply keeps_ret].
  destruct mn as [[s u]|], me as [ms|]; try apply keeps_ret.
  apply keeps_bind; [by apply keeps_call|]. intros failed.
  apply keeps_if; [apply keeps_ret|]. apply keeps_alloc_pc. intros p. keep.
Qed.

(** The track that [media_track_add] appends carries no flag yet. *)
Definition blank (p n : nat) (w : world) : Prop :=
  wf w /\ exists pc m, w_heap w !! p = Some pc /\ pc_medial pc !! n = Some m /\
  mt_ice_conn m = false /\ mt_dtls_ok m = false.

Lemma media_track_add_blank p kind :
  inv wf (media_track_add ext p kind)
    (fun r w => wf w /\ forall n, r = Some n -> blank p n w).
Proof.
  intros w r w' Hw Hr. apply bind_run in Hr as (v & w1 & H1 & Hr).
  assert (Hw1 : wf w1) by (eapply (keeps_call A_mem_zalloc); eauto).
  destruct (negb (v =? 0)); [by injection Hr as <- <-|].
  apply bind_run in Hr as (pc & w2 & H2 & Hr). apply pc_get_run in H2 as [-> Hp].
  apply bind_run in Hr as (? & w3 & [= _ <-] & Hr). injection Hr as <- <-.
  pose proof (wf_pc _ Hw1 _ _ Hp) as [Ht Hs Hy Hb].
  assert (Hw2 : wf (set_heap (<[p := set_media (pc_streaml pc) (pc_medial pc ++
      [mk_track kind None false false false false]) pc]> (w_heap w1)) w1)).
  { apply wf_put; [done|by eapply wf_live|]. split; cbn; try done.
    apply Forall_app. split; [done|]. by repeat constructor. }
  split; [done|]. intros n [= <-]. split; [done|]. do 2 eexists.
  cbn. rewrite lookup_insert_eq. split; [done|]. cbn.
  rewrite lookup_app_r, Nat.sub_diag by lia. done.
Qed.

Lemma blank_call p n a :
  about a = None -> source a = false -> keeps (blank p n) (call ext a).
Proof.
  intros Ha Hs w v w' [Hw Hb] Hr. split; [by eapply keeps_call|].
  injection Hr as _ <-. done.
Qed.

Lemma blank_new_addr p n : keeps (blank p n) new_addr.
Proof.
  intros w v w' [Hw Hb] Hr. split; [by eapply keeps_new_addr|].
  injection Hr as _ <-. done.
Qed.

Lemma blank_track_u p n u : inv (blank p n) (track_upd p n (track_u u)) (fun _ => wf).
Proof.
  intros w v w' (Hw & pc & m & Hp & Hm & Hi & Hd) Hr.
  apply track_upd_run in Hr as (pc' & m' & Hp' & Hm' & ->).
  rewrite Hp in Hp'. injection Hp' as <-. rewrite Hm in Hm'. injection Hm' as <-.
  apply wf_put; [done|by eapply wf_live|]. eapply pc_ok_track; [by apply Hw|done|].
  split; cbn; congruence.
Qed.

Lemma keeps_add_media kind alloc p cfg codecl :
  (forall b, about (alloc b) = None /\ source (alloc b) = false) ->
  keeps wf (add_media ext kind alloc p cfg codecl).
Proof.
  intros Ha. destruct p as [p|]; cbn; [|apply keeps_ret].
  apply keeps_if; [apply keeps_ret|]. apply keeps_bind; [apply keeps_pc_get|]. intros pc.
  eapply inv_bind; [apply media_track_add_blank|]. intros [n|]; cycle 1.
  { apply keeps_pre; [tauto|apply keeps_ub]. }
  apply (inv_pre (blank p n)). { intros w [_ H]. by apply H. }
  eapply inv_bind; [by apply blank_call; apply Ha|]. intros err.
  destruct (negb (err =? 0)); [apply keeps_pre; [by intros ? []|apply keeps_ret]|].
  eapply inv_bind; [apply blank_new_addr|]. intros strm.
  eapply inv_bind; [apply blank_track_u|]. intros ?. fold (keeps wf (A := Z)). keep.
Qed.

Lemma keeps_session_new h : keeps wf (client_session_new ext h).
Proof.
  unfold client_session_new. repeat (keep1 || (by apply keeps_frame)).
Qed.

Lemma keeps_create_pc a type :
  keeps wf (client_session_create_pc ext mnat menc_srtp a type).
Proof.
  unfold client_session_create_pc. apply keeps_bind; [apply keeps_sess_get|]. intros s.
  apply keeps_bind; [apply keeps_pc_new|]. intros [err p].
  apply keeps_if; [apply keeps_ret|]. apply keeps_bind; [apply keeps_sess_set_pc|].
  intros _. by apply keeps_add_media.
Qed.

Lemma keeps_nul mb : keeps wf (nul_terminate ext mb).
Proof. unfold nul_terminate. keep. Qed.

Lemma keeps_session_create_offer a : keeps wf (client_session_create_offer ext a).
Proof.
  unfold client_session_create_offer, reply_descr, reply_fmt.
  repeat (apply keeps_sess_get || apply keeps_signaling || apply keeps_create_offer ||
          apply keeps_nul || keep1 || case_match).
Qed.

Lemma keeps_session_create_answer a : keeps wf (client_session_create_answer ext a).
Proof.
  unfold client_session_create_answer, sendanswer_descr, sendanswer_fmt.
  repeat (apply keeps_sess_get || apply keeps_signaling || apply keeps_create_answer ||
          apply keeps_nul || keep1 || case_match).
Qed.

Lemma keeps_set_remote a j :
  keeps wf (client_session_set_remote_description ext json_decode_odict a j).
Proof.
  unfold client_session_set_remote_description, peek.
  repeat (apply keeps_sess_get || apply keeps_set_remote_descr || keep1 || case_match).
Qed.

Lemma keeps_lookup h : keeps wf (client_session_lookup h).
Proof. unfold client_session_lookup. keep. Qed.

Lemma keeps_mbuf_of_text x : keeps wf (mbuf_of_text ext x).
Proof. unfold mbuf_of_text. keep. Qed.

Lemma exec_wf e : keeps wf (exec e).
Proof.
  destruct e; cbn [exec].
  - unfold publishOwnFeed. repeat (apply keeps_session_new || apply keeps_create_pc ||
      apply keeps_session_create_offer || keep1).
  - unfold onPublisherRemoteJsep. repeat (apply keeps_lookup || apply keeps_set_remote ||
      apply keeps_mbuf_of_text || keep1 || case_match).
  - unfold onOffer. repeat (apply keeps_session_new || apply keeps_create_pc ||
      apply keeps_set_remote || apply keeps_mbuf_of_text ||
      apply keeps_session_create_answer || keep1).
  - unfold onRTCWebrtcUp. repeat (apply keeps_lookup || apply keeps_start_media ||
      apply keeps_sess_get || keep1 || case_match).
  - unfold client_session_destructor.
    repeat (apply keeps_sess_get || apply keeps_mem_deref || (by apply keeps_frame) || keep1).
  - unfold peerconnection_close. repeat keep1.
  - apply keeps_mnat_estab.
  - apply keeps_menc_event.
  - apply keeps_menc_error.
  - apply keeps_mnatconn.
  - by apply keeps_track_upd.
  - by apply keeps_track_upd.
  - unfold stream_error_handler. repeat (apply keeps_pc_close || keep1).
  - apply keeps_pc_close.
  - repeat ((by apply keeps_frame) || apply keeps_start_ice || keep1).
Qed.

Lemma reachable_wf w : reachable w -> wf w.
Proof.
  apply (rtc_ind_r wf).
  - by split; cbn.
  - intros w1 w2 _ (e & _ & He) Hw. by eapply exec_wf.
Qed.

End Machine.
