(* ===== verification/PeerConnProps.v ===== *)
(** * Properties of the peer connection and its sessions

    The theorems about every reachable state, the end-to-end call setup, and
    the defects the model exhibits. *)

From stdpp Require Import gmap relations.
From S2P Require Import Prelude Effects PeerConn ClientSession PeerConnInv.
Import Pc Session Descr.

(** ** Concrete runs *)

Section Runs.
Context (ext : list action -> action -> Z).
Context (mnat : option (bool * bool)) (menc_srtp : option bool).
Context (json_decode_odict : list Z -> Z + odict).

Local Abbreviation exec := (exec ext mnat menc_srtp json_decode_odict).
Local Abbreviation step := (step ext mnat menc_srtp json_decode_odict).

(** Runs a list of events; [None] is undefined behaviour. *)
Fixpoint run (es : list event) (w : world) : option world :=
  match es with
  | [] => Some w
  | e :: es => '(_, w) ← exec e w; run es w
  end.

Fixpoint all_enabled (es : list event) (w : world) : Prop :=
  match es with
  | [] => True
  | e :: es =>
    enabled w e /\ match exec e w with Some (_, w) => all_enabled es w | None => False end
  end.

Lemma run_reaches es w w' :
  all_enabled es w -> run es w = Some w' -> rtc step w w'.
Proof.
  revert w. induction es as [|e es IH]; intros w; cbn.
  - intros _ [= <-]. apply rtc_refl.
  - intros [He Hes]. destruct (exec e w) as [[[] w1]|] eqn:E; cbn; [|done].
    intros Hr. eapply rtc_l; [|by apply IH]. by exists e.
Qed.

End Runs.

(** A media stack where every call succeeds. *)
Definition ext_ok (t : list action) (a : action) : Z :=
  match a with A_mbuf_spare | A_rformat _ => 1 | _ => 0 end.

Definition answer_text : list Z := bytes_of "answer".
Definition decode_answer (text : list Z) : Z + odict :=
  inr [(bytes_of "type", bytes_of "answer"); (bytes_of "sdp", text)].

(** From the publication to running media. *)
Definition call_events (h : Z) (jsep : list Z) : list event :=
  [ Ev_publish h; Ev_mnat_estab 1 0 0; Ev_remote_answer h jsep; Ev_ice_tmr 1;
    Ev_mnatconn 1 0; Ev_webrtc_up h ].

Definition call_world : world :=
  default init (run ext_ok (Some (true, true)) (Some true) decode_answer
    (call_events 7 answer_text) init).

Lemma call_reachable :
  reachable ext_ok (Some (true, true)) (Some true) decode_answer call_world.
Proof.
  apply (run_reaches _ _ _ _ (call_events 7 answer_text)); [|by vm_compute].
  vm_compute. repeat split; try (by repeat constructor);
    do 2 eexists; (split; [reflexivity|]); (split; [reflexivity|]); by eexists.
Qed.

(** ** Theorems *)

(** C21: one pending offer at a time.  In every reachable state, for every
    connection and every SDP operation it performed: an answer is encoded
    only while a remote offer is pending (one was handed to the decoder and
    no answer was encoded since); an offer is encoded only while neither a
    remote offer nor an own offer is pending; a remote description is handed
    to the decoder only while no remote offer is pending.  The signalling
    state of a live connection says which of the two is pending.  (This is
    not all of JSEP: the code takes an answer in the stable state and a
    remote offer over its own, and a remote offer that fails to decode
    counts as pending.) *)
Theorem sdp_follows_offer_answer ext mnat menc_srtp json_decode_odict w p
  (Hr : reachable ext mnat menc_srtp json_decode_odict w) :
  (forall after before,
     (w_trace w = after ++ A_sdp_encode p false :: before ->
      remote_offer_pending ext p before = true) /\
     (w_trace w = after ++ A_sdp_encode p true :: before ->
      remote_offer_pending ext p before = false /\ own_offer_pending ext p before = false) /\
     (forall offer, w_trace w = after ++ A_sdp_decode p offer :: before ->
      remote_offer_pending ext p before = false)) /\
  (forall pc, w_heap w !! p = Some pc -> state_says ext p (w_trace w) (pc_signaling_state pc)).
Proof.
  apply reachable_wf in Hr. split.
  - intros after before. split_and!; [intros E|intros E|intros offer E];
      pose proof (wf_legal _ _ Hr p) as Hl; rewrite E in Hl;
      apply sdp_op_state in Hl as (s & Hs & Hg); cbn in Hg;
      rewrite decide_True in Hg by done; case_decide; simplify_eq/=;
      try (by destruct Hg); try apply Hs. by destruct s; destruct Hs.
  - intros pc Hp. apply sig_state_says. by apply Hr.
Qed.

Lemma sdp_follows_offer_answer_witness :
  (forall after before,
     (w_trace call_world = after ++ A_sdp_encode 1 false :: before ->
      remote_offer_pending ext_ok 1 before = true) /\
     (w_trace call_world = after ++ A_sdp_encode 1 true :: before ->
      remote_offer_pending ext_ok 1 before = false /\ own_offer_pending ext_ok 1 before = false) /\
     (forall offer, w_trace call_world = after ++ A_sdp_decode 1 offer :: before ->
      remote_offer_pending ext_ok 1 before = false)) /\
  (forall pc, w_heap call_world !! 1%nat = Some pc ->
     state_says ext_ok 1 (w_trace call_world) (pc_signaling_state pc)).
Proof. apply (sdp_follows_offer_answer _ _ _ _ _ 1 call_reachable). Defined.

(** C19: media sources start on prepared streams only.  Whenever a media
    source has been started on a stream, the start of the stream's media
    encryption was called before (the ICE handler does it when the stream is
    connected), and the stream was marked secure before (by the event of the
    DTLS session or by the server's report that the media path is up).  That
    the call succeeded or that a DTLS handshake completed is not claimed:
    [peerconnection_start_media] marks the stream secure on the report
    alone. *)
Theorem media_started_when_ready ext mnat menc_srtp json_decode_odict w
  (Hr : reachable ext mnat menc_srtp json_decode_odict w) :
  forall after k strm before,
  w_trace w = after ++ A_start_source k strm :: before ->
  A_start_mediaenc strm ∈ before /\ A_set_secure strm ∈ before.
Proof.
  intros after k strm before Et. apply reachable_wf, wf_gated in Hr.
  rewrite Et in Hr. clear Et.
  induction after as [|a after IH]; [apply Hr|]. apply IH. cbn in Hr.
  by destruct a; try done; destruct Hr.
Qed.

Lemma media_started_when_ready_witness :
  exists after before,
  w_trace call_world = after ++ A_start_source MEDIA_KIND_AUDIO (Some 2%nat) :: before /\
  A_start_mediaenc (Some 2%nat) ∈ before /\ A_set_secure (Some 2%nat) ∈ before.
Proof.
  exists [], (tail (w_trace call_world)). split; [by vm_compute|].
  apply (media_started_when_ready _ _ _ _ _ call_reachable [] MEDIA_KIND_AUDIO).
  by vm_compute.
Defined.

(** ICE is retried at most ten times: over the whole life of the program
    the retry timer of a connection is armed at most ten times, and the
    counter of a live connection is exactly the number of these retries. *)
Theorem ice_retries_bounded ext mnat menc_srtp json_decode_odict w p
  (Hr : reachable ext mnat menc_srtp json_decode_odict w) :
  tmr_count p (w_trace w) <= 10 /\
  forall pc, w_heap w !! p = Some pc ->
    pc_ice_retry_times pc = tmr_count p (w_trace w).
Proof.
  apply reachable_wf in Hr. split; [apply Hr|]. intros pc Hp. by apply Hr.
Qed.

Lemma ice_retries_bounded_witness :
  tmr_count 1 (w_trace call_world) <= 10 /\
  forall pc, w_heap call_world !! 1%nat = Some pc ->
    pc_ice_retry_times pc = tmr_count 1 (w_trace call_world).
Proof. apply (ice_retries_bounded _ _ _ _ _ 1 call_reachable). Defined.

(** A handle of the first session finds it. *)
Lemma lookup_first h a p l w :
  w_sessl w = mk_session a h p :: l -> client_session_lookup h w = Some (Some a, w).
Proof.
  intros E. unfold client_session_lookup, mbind, M_bind, gets. rewrite E. cbn.
  by rewrite Z.eqb_refl.
Qed.

Lemma remote_answer_first ext json h a p l j w :
  w_sessl w = mk_session a h p :: l ->
  onPublisherRemoteJsep ext json h j w =
    (msg ← mbuf_of_text ext j;
     _ ← client_session_set_remote_description ext json a (Some msg); mret tt) w.
Proof.
  intros E. unfold onPublisherRemoteJsep, mbind, M_bind. by rewrite (lookup_first h a p l).
Qed.

Lemma webrtc_up_first ext h a p l w :
  w_sessl w = mk_session a h p :: l ->
  onRTCWebrtcUp ext h w =
    (s ← sess_get a; peerconnection_start_media ext (H := callbacks ext) (cs_pc s)) w.
Proof.
  intros E. unfold onRTCWebrtcUp, mbind, M_bind. by rewrite (lookup_first h a p l).
Qed.

Ltac vm_step x :=
  let r := eval vm_compute in x in
  let E := fresh in
  assert (E : x = r) by (vm_compute; reflexivity); rewrite E; clear E;
  cbn [mbind option_bind].

(** Call setup: with a media stack whose calls succeed, publishing sends
    the offer, the remote answer brings the connection back to the stable
    state with both descriptions processed, the pending retry starts ICE, and
    once ICE has connected and the server reports the media up the audio
    source is started. *)
Theorem call_setup (h : Z) (jsep : list Z) :
  exists w pc,
    run ext_ok (Some (true, true)) (Some true) decode_answer (call_events h jsep) init
      = Some w /\
    w_heap w !! 1%nat = Some pc /\ pc_signaling_state pc = SS_STABLE /\
    pc_gather_ok pc = true /\ pc_sdp_enc_ok pc = true /\ pc_sdp_dec_ok pc = true /\
    w_tmrl w = [] /\ A_send_offer h ∈ w_trace w /\ A_mnat_update ∈ w_trace w /\
    head (w_trace w) = Some (A_start_source MEDIA_KIND_AUDIO (Some 2%nat)).
Proof.
  do 2 eexists. split.
  { cbn [call_events run].
    match goal with |- context [PeerConnInv.exec ?e ?m ?n ?j (Ev_publish h) init] =>
      vm_step (PeerConnInv.exec e m n j (Ev_publish h) init) end.
    match goal with |- context [PeerConnInv.exec ?e ?m ?n ?j (Ev_mnat_estab 1 0 0) ?w] =>
      vm_step (PeerConnInv.exec e m n j (Ev_mnat_estab 1 0 0) w) end.
    cbn [PeerConnInv.exec].
    erewrite remote_answer_first by reflexivity.
    match goal with |- context [(mbuf_of_text ext_ok jsep ≫= ?f) ?w] =>
      vm_step ((mbuf_of_text ext_ok jsep ≫= f) w) end.
    match goal with |- context [(modify ?g ≫= ?f) ?w] => vm_step ((modify g ≫= f) w) end.
    match goal with |- context [exec_mnatconn ?e ?p ?n ?w] =>
      vm_step (exec_mnatconn e p n w) end.
    erewrite webrtc_up_first by reflexivity.
    match goal with |- context [(sess_get ?a ≫= ?f) ?w] => vm_step ((sess_get a ≫= f) w) end.
    reflexivity. }
  split; [reflexivity|]. cbn. split_and!; try done; by repeat constructor.
Qed.

(** A pending retry outlives its connection: the destructor does not
    cancel the timer, so after an error that closes the connection the timer
    is still in the list, and when it fires the handler works on the freed
    connection. *)
Theorem ice_tmr_use_after_free :
  exists w,
    reachable ext_ok (Some (true, true)) (Some true) decode_answer w /\
    enabled w (Ev_ice_tmr 1) /\
    PeerConnInv.exec ext_ok (Some (true, true)) (Some true) decode_answer (Ev_ice_tmr 1) w
      = None.
Proof.
  set (es := [Ev_publish 7; Ev_mnat_estab 1 0 0; Ev_audio_error 1 EPROTO]).
  exists (default init (run ext_ok (Some (true, true)) (Some true) decode_answer es init)).
  split_and!.
  - apply (run_reaches _ _ _ _ es); [|by vm_compute].
    vm_compute. repeat split; by eexists.
  - vm_compute. by constructor.
  - by vm_compute.
Qed.

(** A remote offer that does not decode crashes the client: [onOffer]
    ignores the error, the connection is still stable, [create_answer] fails
    without a buffer, and the NULL buffer is dereferenced. *)
Theorem undecodable_offer_crashes (err : Z) (h : Z) (jsep : list Z) (Herr : err <> 0) :
  PeerConnInv.exec ext_ok (Some (true, true)) (Some true) (fun _ => inl err)
    (Ev_remote_offer h jsep) init = None.
Proof.
  destruct err; [done|by vm_compute..].
Qed.

Lemma undecodable_offer_crashes_witness :
  PeerConnInv.exec ext_ok (Some (true, true)) (Some true) (fun _ => inl EBADMSG)
    (Ev_remote_offer 7 []) init = None.
Proof. by apply (undecodable_offer_crashes EBADMSG 7 []). Defined.

(** A remote offer whose SDP is rejected wedges the connection: the error
    is returned after the state has already become have-remote-offer, and
    every later remote description is refused with [EPROTO] and changes
    nothing. *)
Theorem failed_offer_wedges ext w p pc
  (Hp : w_heap w !! p = Some pc)
  (Hs : pc_signaling_state pc <> SS_HAVE_REMOTE_OFFER)
  (He : ext (w_trace w) (A_sdp_decode p true) <> 0) :
  exists err w',
    peerconnection_set_remote_descr ext (Some p) (Some SDP_OFFER) w = Some (err, w') /\
    err <> 0 /\
    forall type, peerconnection_set_remote_descr ext (Some p) (Some type) w'
      = Some (EPROTO, w').
Proof.
  unfold peerconnection_set_remote_descr, pc_upd, pc_get, mbind, M_bind, gets, of_option.
  rewrite Hp. cbn. rewrite decide_False by done. cbn. rewrite Hp. cbn.
  change (bool_decide (SDP_OFFER = SDP_OFFER)) with true.
  destruct (ext (w_trace w) (A_sdp_decode p true)); [done|..]; cbn;
    do 2 eexists; (split; [reflexivity|]); (split; [done|]);
    intros type; cbn; by rewrite lookup_insert_eq.
Qed.

Lemma failed_offer_wedges_witness :
  exists err w',
    peerconnection_set_remote_descr (fun _ _ => EBADMSG) (Some 1%nat) (Some SDP_OFFER)
      (mk_world {[1%nat := pc_zero]} 2 [] [] []) = Some (err, w') /\
    err <> 0 /\
    forall type, peerconnection_set_remote_descr (fun _ _ => EBADMSG) (Some 1%nat)
      (Some type) w' = Some (EPROTO, w').
Proof. by apply (failed_offer_wedges _ _ _ pc_zero). Defined.

(** Descriptions survive the codec: what [session_description_encode]
    stores, once printed and parsed back to the same entries, decodes to the
    same type and the same SDP text. *)
Theorem session_description_roundtrip json_decode_odict type sdp od text
  (Henc : session_description_encode type (Some sdp) 0 0 0 0 = Some (0, Some od))
  (Hjson : json_decode_odict text = inr od) :
  session_description_decode json_decode_odict (Some text) true
    = (0, mk_sd (Some type) (Some sdp)).
Proof.
  cbn in Henc. injection Henc as <-. cbn. rewrite Hjson. by destruct type.
Qed.

Lemma session_description_roundtrip_witness :
  session_description_decode
    (fun t => inr [(bytes_of "type", bytes_of "answer"); (bytes_of "sdp", t)])
    (Some (bytes_of "v=0")) true = (0, mk_sd (Some SDP_ANSWER) (Some (bytes_of "v=0"))).
Proof. by eapply (session_description_roundtrip _ SDP_ANSWER). Defined.
