(* ===== verification/Mbuf.v ===== *)
(** * Memory buffers

    Models src/re/src/mbuf/mbuf.c and the inline accessors of
    src/re/include/re_mbuf.h: a growing byte buffer with a position and an
    end.  [None] is a copy outside the allocated bytes; error codes are the
    C results.  Whether an allocation succeeds and which bytes fresh memory
    holds are arbitrary. *)

From S2P Require Import Prelude Effects.

Module Mb.

(** [mb_buf] is [None] for a NULL buffer. *)
Record mbuf := mk_mbuf {
  mb_buf : option (list Z);
  mb_size : Z;
  mb_pos : Z;
  mb_end : Z }.

Definition set_pos (p : Z) (mb : mbuf) : mbuf := mk_mbuf (mb_buf mb) (mb_size mb) p (mb_end mb).
Definition set_end (e : Z) (mb : mbuf) : mbuf := mk_mbuf (mb_buf mb) (mb_size mb) (mb_pos mb) e.
Definition set_bytes (l : list Z) (mb : mbuf) : mbuf :=
  mk_mbuf (Some l) (mb_size mb) (mb_pos mb) (mb_end mb).

Definition DEFAULT_SIZE : Z := 512.

(** [buf[i .. i+n)] as a checked slice. *)
Definition slice (l : list Z) (i n : Z) : option (list Z) :=
  if (0 <=? i) && (0 <=? n) && (i + n <=? zlen l)
  then Some (take (Z.to_nat n) (drop (Z.to_nat i) l)) else None.

(** [memcpy] into [l] at [i], checked. *)
Definition splice (l : list Z) (i : Z) (data : list Z) : option (list Z) :=
  if (0 <=? i) && (i + zlen data <=? zlen l)
  then Some (take (Z.to_nat i) l ++ data ++ drop (Z.to_nat i + length data) l) else None.

(** Host-order bytes of a w-byte integer on the little-endian targets. *)
Fixpoint le_bytes (w : nat) (v : Z) : list Z :=
  match w with O => [] | S w => v mod 256 :: le_bytes w (v / 256) end.
Fixpoint le_value (l : list Z) : Z :=
  match l with [] => 0 | c :: l => c + 256 * le_value l end.

Definition htons (v : Z) : Z := le_value (rev (le_bytes 2 v)).
Definition htonl (v : Z) : Z := le_value (rev (le_bytes 4 v)).
Definition ntohs := htons.
Definition ntohl := htonl.

Definition mbuf_get_left (mb : mbuf) : Z :=
  if mb_pos mb <? mb_end mb then mb_end mb - mb_pos mb else 0.
Definition mbuf_get_space (mb : mbuf) : Z :=
  if mb_pos mb <? mb_size mb then mb_size mb - mb_pos mb else 0.
Definition mbuf_set_pos (mb : mbuf) (pos : Z) : mbuf := set_pos pos mb.
Definition mbuf_set_end (mb : mbuf) (e : Z) : mbuf := set_end e mb.
Definition mbuf_advance (mb : mbuf) (n : Z) : mbuf := set_pos (usz (mb_pos mb + n)) mb.
Definition mbuf_rewind (mb : mbuf) : mbuf := set_end 0 (set_pos 0 mb).
Definition mbuf_skip_to_end (mb : mbuf) : mbuf := set_pos (mb_end mb) mb.

Definition mbuf_init : mbuf := mk_mbuf None 0 0 0.

(** [mbuf_reset]: the bytes are released. *)
Definition mbuf_reset (mb : mbuf) : mbuf := mbuf_init.

Section Alloc.
Context (alloc_ok : Z -> bool) (junk : Z -> Z).

(** [n] bytes of fresh memory, kept from the old block where it has them. *)
Definition grow (old : list Z) (n : Z) : list Z :=
  take (Z.to_nat n) old ++ map junk (seqZ (zlen old) (n - zlen old)).

Definition mbuf_resize (mb : mbuf) (size : Z) : Z * mbuf :=
  if negb (alloc_ok size) then (ENOMEM, mb)
  else (0, mk_mbuf (Some (grow (default [] (mb_buf mb)) size)) size (mb_pos mb) (mb_end mb)).

(** [None] is the NULL result. *)
Definition mbuf_alloc (size : Z) : option mbuf :=
  let '(err, mb) := mbuf_resize mbuf_init (if size =? 0 then DEFAULT_SIZE else size) in
  if negb (err =? 0) then None else Some mb.

Definition mbuf_trim (mb : mbuf) : mbuf :=
  if (mb_end mb =? 0) || (mb_end mb =? mb_size mb) then mb
  else snd (mbuf_resize mb (mb_end mb)).

(** The resize in front of a write up to [rsize]. *)
Definition mbuf_reserve (mb : mbuf) (rsize : Z) : Z * mbuf :=
  if mb_size mb <? rsize then
    let dsize := if negb (mb_size mb =? 0) then usz (mb_size mb * 2) else DEFAULT_SIZE in
    mbuf_resize mb (Z.max rsize dsize)
  else (0, mb).

(** Copies at the position; a zero-sized copy touches nothing. *)
Definition mbuf_put (mb : mbuf) (data : list Z) : option (Z * mbuf) :=
  l ← (if zlen data =? 0 then Some (mb_buf mb)
       else b ← mb_buf mb; l ← splice b (mb_pos mb) data; Some (Some l));
  let pos := usz (mb_pos mb + zlen data) in
  Some (0, mk_mbuf l (mb_size mb) pos (Z.max (mb_end mb) pos)).

Definition mbuf_write_mem (mb : mbuf) (data : list Z) : option (Z * mbuf) :=
  let '(err, mb) := mbuf_reserve mb (usz (mb_pos mb + zlen data)) in
  if negb (err =? 0) then Some (err, mb) else mbuf_put mb data.

Definition mbuf_write_u8 (mb : mbuf) (v : Z) := mbuf_write_mem mb (le_bytes 1 v).
Definition mbuf_write_u16 (mb : mbuf) (v : Z) := mbuf_write_mem mb (le_bytes 2 v).
Definition mbuf_write_u32 (mb : mbuf) (v : Z) := mbuf_write_mem mb (le_bytes 4 v).
Definition mbuf_write_u64 (mb : mbuf) (v : Z) := mbuf_write_mem mb (le_bytes 8 v).

(** A C string up to its NUL, and a pointer-length string. *)
Definition mbuf_write_str (mb : mbuf) (str : option (list Z)) : option (Z * mbuf) :=
  match str with
  | None => Some (EINVAL, mb)
  | Some s => mbuf_write_mem mb s
  end.
Definition mbuf_write_pl := mbuf_write_str.

(** [skip] is [pl[off .. off+len)], as pointers into the same string. *)
Definition mbuf_write_pl_skip (mb : mbuf) (pl : list Z) (off len : Z)
  : option (Z * mbuf) :=
  if (off <? 0) || (zlen pl <? off + len) then Some (ERANGE, mb) else
  '(err, mb) ← mbuf_write_mem mb (take (Z.to_nat off) pl);
  if negb (err =? 0) then Some (err, mb)
  else mbuf_write_mem mb (drop (Z.to_nat (off + len)) pl).

Definition mbuf_fill (mb : mbuf) (c n : Z) : option (Z * mbuf) :=
  if n =? 0 then Some (EINVAL, mb) else
  let '(err, mb) := mbuf_reserve mb (usz (mb_pos mb + n)) in
  if negb (err =? 0) then Some (err, mb)
  else mbuf_put mb (replicate (Z.to_nat n) c).

(** [ssize_t] arithmetic of the range check; [memmove] reads the bytes left
    before it writes them. *)
Definition mbuf_shift (mb : mbuf) (shift : Z) : option (Z * mbuf) :=
  if (mb_pos mb + shift <? 0) || (mb_end mb + shift <? 0) then Some (ERANGE, mb) else
  let rsize := usz (mb_end mb + shift) in
  let '(err, mb) := if mb_size mb <? rsize then mbuf_resize mb rsize else (0, mb) in
  if negb (err =? 0) then Some (err, mb) else
  l ← (if mbuf_get_left mb =? 0 then Some (mb_buf mb)
       else b ← mb_buf mb;
            data ← slice b (mb_pos mb) (mbuf_get_left mb);
            l ← splice b (mb_pos mb + shift) data; Some (Some l));
  Some (0, mk_mbuf l (mb_size mb) (usz (mb_pos mb + shift)) (usz (mb_end mb + shift))).

(** ** Reading *)

(** The bytes are in the first component when the code is 0. *)
Definition mbuf_read_mem (mb : mbuf) (size : Z) : option (Z * list Z * mbuf) :=
  if mbuf_get_left mb <? size then Some (EOVERFLOW, [], mb) else
  data ← (if size =? 0 then Some []
          else b ← mb_buf mb; slice b (mb_pos mb) size);
  Some (0, data, set_pos (usz (mb_pos mb + size)) mb).

Definition mbuf_read_int (w : nat) (mb : mbuf) : option (Z * mbuf) :=
  '(err, data, mb) ← mbuf_read_mem mb (Z.of_nat w);
  Some (if err =? 0 then le_value data else 0, mb).

Definition mbuf_read_u8 := mbuf_read_int 1.
Definition mbuf_read_u16 := mbuf_read_int 2.
Definition mbuf_read_u32 := mbuf_read_int 4.
Definition mbuf_read_u64 := mbuf_read_int 8.

(** Stores every byte read, the first NUL included. *)
Fixpoint mbuf_read_str_loop (n : nat) (mb : mbuf) (out : list Z)
  : option (list Z * mbuf) :=
  match n with
  | O => Some (out, mb)
  | S n =>
    '(c, mb) ← mbuf_read_u8 mb;
    if c =? 0 then Some (out ++ [c], mb) else mbuf_read_str_loop n mb (out ++ [c])
  end.

Definition mbuf_read_str (mb : mbuf) (size : Z) : option (list Z * mbuf) :=
  mbuf_read_str_loop (Z.to_nat size) mb [].

(** The string without its terminator. *)
Definition mbuf_strdup (mb : mbuf) (len : Z) : option (Z * option (list Z) * mbuf) :=
  if negb (alloc_ok (usz (len + 1))) then Some (ENOMEM, None, mb) else
  '(err, data, mb) ← mbuf_read_mem mb len;
  if negb (err =? 0) then Some (err, None, mb) else Some (0, Some data, mb).

End Alloc.

#[global] Arguments slice : simpl never.
#[global] Arguments splice : simpl never.
#[global] Arguments mbuf_get_left : simpl never.

End Mb.
