(* ===== verification/MbufProps.v ===== *)
(** * Properties of memory buffers

    A well-formed buffer stays well formed, writes place exactly their bytes
    and keep the rest, reads return what was written. *)

From S2P Require Import Prelude Effects Mbuf.
Import Mb.

Definition bytes (mb : mbuf) : list Z := default [] (mb_buf mb).

(** The allocation is [size] bytes and the end lies inside it. *)
Definition mb_wf (mb : mbuf) : Prop :=
  zlen (bytes mb) = mb_size mb /\ 0 <= mb_pos mb <= SIZE_MAX /\
  0 <= mb_end mb <= mb_size mb /\ mb_size mb <= SIZE_MAX.

(** ** Slices *)

Lemma zlen_nonneg {A} (l : list A) : 0 <= zlen l.
Proof. unfold zlen. lia. Qed.

Lemma zlen_app {A} (a b : list A) : zlen (a ++ b) = zlen a + zlen b.
Proof. unfold zlen. rewrite length_app. lia. Qed.

Lemma zlen_cons {A} (x : A) l : zlen (x :: l) = zlen l + 1.
Proof. unfold zlen. cbn. lia. Qed.

Lemma slice_some l i n :
  0 <= i -> 0 <= n -> i + n <= zlen l ->
  slice l i n = Some (take (Z.to_nat n) (drop (Z.to_nat i) l)).
Proof. intros. unfold slice. by replace (_ && _) with true by lia. Qed.

Lemma slice_inv l i n d :
  slice l i n = Some d ->
  0 <= i /\ 0 <= n /\ i + n <= zlen l /\ zlen d = n /\
  d = take (Z.to_nat n) (drop (Z.to_nat i) l).
Proof.
  unfold slice. destruct (_ && _) eqn:E; [|done]. intros [= <-].
  split_and!; try lia; [|done]. unfold zlen in *. rewrite length_take, length_drop. lia.
Qed.

Lemma slice_ext l l' i n :
  0 <= i -> 0 <= n -> i + n <= zlen l -> i + n <= zlen l' ->
  (forall k, i <= k < i + n -> l !! Z.to_nat k = l' !! Z.to_nat k) ->
  slice l i n = slice l' i n.
Proof.
  intros Hi Hn Hl Hl' H. rewrite !slice_some by done. f_equal. apply list_eq. intros k.
  destruct (decide (Z.of_nat k < n)).
  - rewrite !lookup_take_lt, !lookup_drop by lia.
    specialize (H (i + Z.of_nat k) ltac:(lia)).
    by replace (Z.to_nat (i + Z.of_nat k)) with (Z.to_nat i + k)%nat in H by lia.
  - rewrite !lookup_take_ge by lia. done.
Qed.

Lemma slice_app l i a b :
  slice l i (zlen (a ++ b)) = Some (a ++ b) <->
  slice l i (zlen a) = Some a /\ slice l (i + zlen a) (zlen b) = Some b.
Proof.
  rewrite zlen_app. pose proof (zlen_nonneg a). pose proof (zlen_nonneg b). split.
  - intros Hs. apply slice_inv in Hs as (? & _ & ? & _ & E).
    rewrite !slice_some by lia.
    replace (Z.to_nat (zlen a + zlen b)) with (length a + length b)%nat in E
      by (unfold zlen; lia).
    split; f_equal.
    + transitivity (take (length a) (a ++ b)); [|apply take_app_length].
      rewrite E, take_take. f_equal. unfold zlen. lia.
    + transitivity (drop (length a) (a ++ b)); [|apply drop_app_length].
      rewrite E, skipn_firstn_comm, drop_drop. unfold zlen. f_equal; [lia|f_equal; lia].
  - intros [H1 H2]. apply slice_inv in H1 as (? & _ & ? & _ & E1).
    apply slice_inv in H2 as (? & _ & ? & _ & E2). rewrite slice_some by lia. f_equal.
    transitivity (take (Z.to_nat (zlen a)) (drop (Z.to_nat i) l) ++
      take (Z.to_nat (zlen b)) (drop (Z.to_nat (i + zlen a)) l)); [|congruence].
    replace (Z.to_nat (i + zlen a)) with (Z.to_nat i + Z.to_nat (zlen a))%nat by lia.
    rewrite <- drop_drop, Z2Nat.inj_add, take_take_drop by lia. done.
Qed.

Section Splice.
Context (l l' : list Z) (i : Z) (d : list Z).
Context (Hs : splice l i d = Some l').

Lemma splice_inv :
  0 <= i /\ i + zlen d <= zlen l /\ zlen l' = zlen l /\
  l' = take (Z.to_nat i) l ++ d ++ drop (Z.to_nat i + length d) l.
Proof using Hs.
  revert Hs. unfold splice. destruct (_ && _) eqn:E; [|done]. intros [= <-].
  split_and!; try lia; [|done]. unfold zlen in *.
  rewrite !length_app, length_take, length_drop. lia.
Qed.

Lemma splice_here : slice l' i (zlen d) = Some d.
Proof using Hs.
  destruct splice_inv as (Hi & Hl & Hz & ->). rewrite slice_some; [|done|apply zlen_nonneg|lia].
  f_equal. rewrite drop_app_ge by (rewrite length_take; unfold zlen in *; lia).
  rewrite length_take, Nat.min_l, Nat.sub_diag, drop_0 by (unfold zlen in *; lia).
  unfold zlen. rewrite Nat2Z.id. apply take_app_length.
Qed.

Lemma splice_lookup k :
  0 <= k -> k < i \/ i + zlen d <= k -> l' !! Z.to_nat k = l !! Z.to_nat k.
Proof using Hs.
  destruct splice_inv as (Hi & Hl & Hz & ->). intros Hk [H|H].
  - rewrite lookup_app_l by (rewrite length_take; unfold zlen in *; lia).
    apply lookup_take_lt. lia.
  - rewrite lookup_app_r, length_take, Nat.min_l by (rewrite ?length_take; unfold zlen in *; lia).
    rewrite lookup_app_r, lookup_drop by (unfold zlen in *; lia).
    f_equal. unfold zlen in *. lia.
Qed.

Lemma splice_other j n :
  0 <= j -> 0 <= n -> j + n <= i \/ i + zlen d <= j -> j + n <= zlen l ->
  slice l' j n = slice l j n.
Proof using Hs.
  intros Hj Hn Hd Hl. destruct splice_inv as (_ & _ & Hz & _).
  apply slice_ext; [lia..|]. intros k Hk. apply splice_lookup; lia.
Qed.

End Splice.

Lemma splice_ok l i d :
  0 <= i -> i + zlen d <= zlen l -> exists l', splice l i d = Some l'.
Proof. intros. unfold splice. replace (_ && _) with true by lia. by eexists. Qed.

(** ** Integers as bytes *)

Lemma le_bytes_length w v : length (le_bytes w v) = w.
Proof. revert v. induction w; intros; cbn; congruence. Qed.

Lemma le_value_bytes w v : 0 <= v < 256 ^ Z.of_nat w -> le_value (le_bytes w v) = v.
Proof.
  revert v. induction w as [|w IH]; intros v Hv; cbn; [cbn in Hv; lia|].
  rewrite IH.
  - pose proof (Z.div_mod v 256). lia.
  - rewrite Nat2Z.inj_succ, Z.pow_succ_r in Hv by lia.
    split; [apply Z.div_pos; lia|]. apply Z.div_lt_upper_bound; lia.
Qed.

Definition is_bytes (l : list Z) : Prop := Forall (fun c => 0 <= c < 256) l.

Lemma le_bytes_value l : is_bytes l -> le_bytes (length l) (le_value l) = l.
Proof.
  induction 1 as [|c l Hc Hl IH]; cbn; [done|].
  replace (c + 256 * le_value l) with (c + le_value l * 256) by lia.
  rewrite Z.mod_add, Z.div_add, Z.mod_small, Z.div_small, Z.add_0_l, IH by lia. done.
Qed.

Lemma le_bytes_is w v : is_bytes (le_bytes w v).
Proof.
  revert v. induction w as [|w IH]; intros v; cbn; constructor.
  - apply Z.mod_pos_bound. lia.
  - apply IH.
Qed.

(** Network order is the reversed host order, and conversion is an
    involution on values of the width. *)
Lemma swap_bytes w v :
  le_bytes w (le_value (rev (le_bytes w v))) = rev (le_bytes w v).
Proof.
  transitivity (le_bytes (length (rev (le_bytes w v))) (le_value (rev (le_bytes w v)))).
  { by rewrite length_rev, le_bytes_length. }
  apply le_bytes_value. apply Forall_rev, le_bytes_is.
Qed.

Lemma swap_swap w v :
  0 <= v < 256 ^ Z.of_nat w ->
  le_value (rev (le_bytes w (le_value (rev (le_bytes w v))))) = v.
Proof. intros Hv. rewrite swap_bytes, rev_involutive. by apply le_value_bytes. Qed.

Lemma ntohs_htons v : 0 <= v < 65536 -> ntohs (htons v) = v.
Proof. apply (swap_swap 2). Qed.
Lemma ntohl_htonl v : 0 <= v < 2 ^ 32 -> ntohl (htonl v) = v.
Proof. apply (swap_swap 4). Qed.
Lemma htons_bytes v : le_bytes 2 (htons v) = rev (le_bytes 2 v).
Proof. apply (swap_bytes 2). Qed.
Lemma htonl_bytes v : le_bytes 4 (htonl v) = rev (le_bytes 4 v).
Proof. apply (swap_bytes 4). Qed.

(** ** Operations *)

Section Ops.
Context (alloc_ok : Z -> bool) (junk : Z -> Z).

Lemma grow_len old n : 0 <= n -> zlen (grow junk old n) = n.
Proof.
  intros Hn. unfold grow, zlen. rewrite length_app, length_take, length_map, length_seqZ. lia.
Qed.

Lemma grow_lookup old n k :
  0 <= k < n -> k < zlen old -> grow junk old n !! Z.to_nat k = old !! Z.to_nat k.
Proof.
  intros Hk Ho. unfold grow.
  rewrite lookup_app_l by (rewrite length_take; unfold zlen in *; lia).
  apply lookup_take_lt. lia.
Qed.

(** Growing keeps every slice of the old bytes. *)
Lemma grow_slice old n i m :
  0 <= i -> 0 <= m -> i + m <= zlen old -> i + m <= n ->
  slice (grow junk old n) i m = slice old i m.
Proof.
  intros. apply slice_ext; rewrite ?grow_len by lia; try lia.
  intros k Hk. apply grow_lookup; lia.
Qed.

(** [mb'] has the same bytes up to [mb]'s size, and the same bookkeeping. *)
Definition extends (mb mb' : mbuf) : Prop :=
  mb_pos mb' = mb_pos mb /\ mb_end mb' = mb_end mb /\ mb_size mb <= mb_size mb' /\
  forall i n, 0 <= i -> 0 <= n -> i + n <= mb_size mb ->
    slice (bytes mb') i n = slice (bytes mb) i n.

Lemma extends_refl mb : extends mb mb.
Proof. split_and!; done. Qed.

Lemma resize_ok mb size :
  mb_wf mb -> mb_size mb <= size <= SIZE_MAX ->
  exists err mb', mbuf_resize alloc_ok junk mb size = (err, mb') /\
  (if err =? 0 then mb_wf mb' /\ extends mb mb' /\ mb_size mb' = size else mb' = mb).
Proof.
  intros (Hl & Hp & He & Hs) Hsz. unfold mbuf_resize.
  destruct (alloc_ok size); cbn [negb]; [|by do 2 eexists].
  do 2 eexists. split; [done|]. cbn. fold (bytes mb). split_and!; cbn; try lia.
  - split_and!; cbn; try lia. apply grow_len. lia.
  - split_and!; cbn; [done|done|lia|]. intros i n Hi Hn Hin. apply grow_slice; lia.
Qed.

Lemma reserve_ok mb rsize :
  mb_wf mb -> 0 <= rsize <= SIZE_MAX ->
  exists err mb', mbuf_reserve alloc_ok junk mb rsize = (err, mb') /\
  (if err =? 0 then mb_wf mb' /\ extends mb mb' /\ rsize <= mb_size mb' else mb' = mb).
Proof.
  intros Hwf Hr. unfold mbuf_reserve. pose proof Hwf as (_ & _ & ? & ?).
  destruct (Z.ltb_spec (mb_size mb) rsize).
  - set (dsize := if negb (mb_size mb =? 0) then usz (mb_size mb * 2) else DEFAULT_SIZE).
    assert (Hd : 0 <= dsize <= SIZE_MAX).
    { subst dsize. destruct (negb _); [|by vm_compute].
      pose proof (Z.mod_pos_bound (mb_size mb * 2) (2 ^ 64)). unfold usz, SIZE_MAX. lia. }
    destruct (resize_ok mb (Z.max rsize dsize) Hwf) as (err & mb' & E & H'); [lia|].
    do 2 eexists. split; [done|]. destruct (err =? 0); [|done].
    destruct H' as (? & ? & ->). split_and!; [done|done|lia].
  - do 2 eexists. split; [done|]. cbn. split_and!; [done|apply extends_refl|lia].
Qed.

(** [data] was written at the position of [mb], giving [mb']. *)
Definition written (mb mb' : mbuf) (data : list Z) : Prop :=
  mb_wf mb' /\ mb_pos mb' = mb_pos mb + zlen data /\
  mb_end mb' = Z.max (mb_end mb) (mb_pos mb') /\
  slice (bytes mb') (mb_pos mb) (zlen data) = Some data /\
  mb_size mb <= mb_size mb' /\
  forall i n, 0 <= i -> 0 <= n -> i + n <= mb_size mb ->
    i + n <= mb_pos mb \/ mb_pos mb' <= i ->
    slice (bytes mb') i n = slice (bytes mb) i n.

Lemma put_ok mb data :
  mb_wf mb -> mb_pos mb + zlen data <= mb_size mb ->
  exists mb', mbuf_put mb data = Some (0, mb') /\ written mb mb' data.
Proof.
  intros (Hl & Hp & He & Hs) Hd. unfold mbuf_put. pose proof (zlen_nonneg data).
  rewrite usz_small by lia. destruct (Z.eqb_spec (zlen data) 0) as [Hz|Hz]; cbn.
  - eexists. split; [done|]. 
    assert (data = []) as ->
      by (destruct data; [done|unfold zlen in Hz; cbn in Hz; lia]).
    split_and!; cbn; fold (bytes mb); try lia; try done.
    + unfold mb_wf, bytes in *. cbn in *. lia.
    + rewrite slice_some; [done|lia|done|]. unfold bytes, zlen in *. cbn in *. lia.
  - destruct (mb_buf mb) as [b|] eqn:Eb; cycle 1.
    { unfold bytes in Hl. rewrite Eb in Hl. unfold zlen in Hl. cbn in Hl. lia. }
    assert (Hb : bytes mb = b) by (unfold bytes; by rewrite Eb). rewrite Hb in Hl.
    destruct (splice_ok b (mb_pos mb) data) as [l' Hsp]; [lia|lia|].
    cbn. rewrite Hsp. cbn. eexists. split; [done|].
    pose proof (splice_inv _ _ _ _ Hsp) as (_ & _ & Hz' & _).
    split_and!; cbn; try lia; try done.
    + unfold mb_wf, bytes. cbn. lia.
    + by eapply splice_here.
    + intros i n Hi Hn Hin Hor. rewrite Hb. eapply splice_other; [done|lia..].
Qed.

Lemma written_extends mb mb1 mb2 data :
  extends mb mb1 -> written mb1 mb2 data -> written mb mb2 data.
Proof.
  intros (E1 & E2 & E3 & E4) (H1 & H2 & H3 & H4 & H5 & H6).
  rewrite E1, E2 in *. split_and!; try done; [lia|].
  intros i n Hi Hn Hin Hor. rewrite H6, E4 by (done || lia). done.
Qed.

Lemma written_app mb mb1 mb2 a b :
  mb_wf mb -> written mb mb1 a -> written mb1 mb2 b -> written mb mb2 (a ++ b).
Proof.
  intros (Hl & Hp & He & Hs) (H1 & H2 & H3 & H4 & H5 & H6) (G1 & G2 & G3 & G4 & G5 & G6).
  pose proof (zlen_nonneg a). pose proof (zlen_nonneg b). pose proof H1 as (? & ? & ? & ?).
  split_and!; rewrite ?zlen_app; try done; try lia.
  - rewrite <- zlen_app. apply slice_app. rewrite <- H2. split; [|done].
    rewrite G6 by lia. done.
  - intros i n Hi Hn Hin Hor. rewrite G6 by lia. apply H6; lia.
Qed.

(** Writing is total on well-formed buffers as long as the new position is a
    [size_t]. *)
Lemma write_mem_ok mb data :
  mb_wf mb -> mb_pos mb + zlen data <= SIZE_MAX ->
  exists err mb', mbuf_write_mem alloc_ok junk mb data = Some (err, mb') /\
  (if err =? 0 then written mb mb' data else mb' = mb).
Proof.
  intros Hwf Hd. pose proof (zlen_nonneg data). unfold mbuf_write_mem.
  pose proof Hwf as (_ & ? & _). rewrite usz_small by lia.
  destruct (reserve_ok mb (mb_pos mb + zlen data) Hwf) as (err & mb1 & -> & H1); [lia|].
  destruct (err =? 0) eqn:Ee; cbn [negb]; [|subst; do 2 eexists; split; [done|]; by rewrite Ee].
  destruct H1 as (Hwf1 & Hext & Hsz). pose proof Hext as (Ep & _).
  destruct (put_ok mb1 data Hwf1) as (mb' & -> & Hw); [lia|].
  do 2 eexists. split; [done|]. cbn. by eapply written_extends.
Qed.

End Ops.

(** ** Reading back *)

(** The bytes [d] can be read at the position. *)
Definition avail (mb : mbuf) (d : list Z) : Prop :=
  mb_wf mb /\ slice (bytes mb) (mb_pos mb) (zlen d) = Some d /\
  mb_pos mb + zlen d <= mb_end mb.

Lemma wf_set_pos mb p : mb_wf mb -> 0 <= p <= SIZE_MAX -> mb_wf (set_pos p mb).
Proof. intros (? & ? & ? & ?) ?. unfold mb_wf, bytes in *. cbn. lia. Qed.

Lemma left_avail mb d : avail mb d -> zlen d <= mbuf_get_left mb.
Proof.
  intros (_ & _ & He). pose proof (zlen_nonneg d). unfold mbuf_get_left.
  destruct (Z.ltb_spec (mb_pos mb) (mb_end mb)); lia.
Qed.

Lemma avail_split mb a b : avail mb (a ++ b) ->
  avail mb a /\ avail (set_pos (mb_pos mb + zlen a) mb) b.
Proof.
  intros (Hwf & Hs & He). rewrite zlen_app in He. apply slice_app in Hs as [H1 H2].
  pose proof (zlen_nonneg a). pose proof (zlen_nonneg b). pose proof Hwf as (? & ? & ? & ?).
  split; [split_and!; done || lia|]. split_and!; [|done|cbn; lia].
  apply wf_set_pos; [done|lia].
Qed.

Lemma read_mem_avail mb d :
  avail mb d ->
  mbuf_read_mem mb (zlen d) = Some (0, d, set_pos (mb_pos mb + zlen d) mb).
Proof.
  intros Hav. pose proof (left_avail _ _ Hav). pose proof (zlen_nonneg d).
  destruct Hav as ((Hl & Hp & Hend & Hs) & Hsl & He). unfold mbuf_read_mem.
  destruct (Z.ltb_spec (mbuf_get_left mb) (zlen d)); [lia|].
  rewrite usz_small by lia. destruct (Z.eqb_spec (zlen d) 0) as [Hz|Hz].
  - assert (d = []) as -> by (destruct d; [done|unfold zlen in Hz; cbn in Hz; lia]).
    done.
  - unfold bytes in *. destruct (mb_buf mb) as [b|]; cbn in *; [by rewrite Hsl|].
    unfold zlen in Hl. cbn in Hl. lia.
Qed.

Lemma read_int_avail w mb d l :
  length d = w -> avail mb (d ++ l) ->
  mbuf_read_int w mb = Some (le_value d, set_pos (mb_pos mb + zlen d) mb) /\
  avail (set_pos (mb_pos mb + zlen d) mb) l.
Proof.
  intros Hw Hav. apply avail_split in Hav as [H1 H2]. split; [|done].
  unfold mbuf_read_int. replace (Z.of_nat w) with (zlen d) by (unfold zlen; lia).
  by rewrite read_mem_avail.
Qed.

(** A read on any well-formed buffer is defined: it fails without moving, or
    returns the next bytes. *)
Lemma read_mem_ok mb n :
  mb_wf mb -> 0 < n ->
  exists err data mb', mbuf_read_mem mb n = Some (err, data, mb') /\
  (if err =? 0 then n <= mbuf_get_left mb /\ zlen data = n /\
     mb' = set_pos (mb_pos mb + n) mb /\ slice (bytes mb) (mb_pos mb) n = Some data
   else mbuf_get_left mb < n /\ mb' = mb).
Proof.
  intros Hwf Hn. destruct (Z.ltb_spec (mbuf_get_left mb) n) as [Hlt|Hge].
  - unfold mbuf_read_mem. rewrite (proj2 (Z.ltb_lt _ _) Hlt). by do 3 eexists.
  - pose proof Hwf as (Hl & Hp & He & Hs).
    assert (Hle : mb_pos mb + n <= mb_end mb).
    { unfold mbuf_get_left in Hge. destruct (Z.ltb_spec (mb_pos mb) (mb_end mb)); lia. }
    pose proof (slice_some (bytes mb) (mb_pos mb) n) as Hsl.
    rewrite Hl in Hsl. specialize (Hsl ltac:(lia) ltac:(lia) ltac:(lia)).
    set (d := take _ _) in Hsl. pose proof (slice_inv _ _ _ _ Hsl) as (_ & _ & _ & Hd & _).
    assert (Hav : avail mb d) by (split_and!; [done|by rewrite Hd|lia]).
    apply read_mem_avail in Hav. rewrite Hd in Hav. rewrite Hav.
    do 3 eexists. split; [done|]. by cbn.
Qed.

Lemma read_int_ok w mb :
  mb_wf mb -> (0 < w)%nat -> Z.of_nat w <= mbuf_get_left mb ->
  exists v, mbuf_read_int w mb = Some (v, set_pos (mb_pos mb + Z.of_nat w) mb).
Proof.
  intros Hwf Hw Hl. unfold mbuf_read_int.
  destruct (read_mem_ok mb (Z.of_nat w) Hwf) as (err & d & mb' & -> & H); [lia|].
  cbn. destruct (err =? 0); [|lia]. destruct H as (_ & _ & -> & _). by eexists.
Qed.

Lemma left_set_pos mb n :
  0 <= n <= mbuf_get_left mb ->
  mbuf_get_left (set_pos (mb_pos mb + n) mb) = mbuf_get_left mb - n.
Proof.
  unfold mbuf_get_left. cbn. intros Hn.
  destruct (Z.ltb_spec (mb_pos mb) (mb_end mb)), (Z.ltb_spec (mb_pos mb + n) (mb_end mb)); lia.
Qed.

(** [mbuf_write_mem] is memory safe and exact: on a well-formed buffer,
    unless the allocation fails (and nothing changes), exactly the given
    bytes stand at the old position, every other byte is kept, the position
    and end move over them, and the buffer is well formed again. *)
Theorem mbuf_write_mem_exact alloc_ok junk mb data
  (Hwf : mb_wf mb) (Hd : mb_pos mb + zlen data <= SIZE_MAX) :
  exists err mb', mbuf_write_mem alloc_ok junk mb data = Some (err, mb') /\
  (if err =? 0 then written mb mb' data else mb' = mb).
Proof. by apply write_mem_ok. Qed.

Lemma mbuf_write_mem_exact_witness :
  exists err mb', mbuf_write_mem (fun _ => true) (fun _ => 170)
      (mk_mbuf (Some [1; 2; 3]) 3 2 3) [7; 8] = Some (err, mb') /\
  (if err =? 0 then written (mk_mbuf (Some [1; 2; 3]) 3 2 3) mb' [7; 8]
   else mb' = mk_mbuf (Some [1; 2; 3]) 3 2 3).
Proof. apply mbuf_write_mem_exact; zdec. Defined.

(** What is written is read back: after a successful write, going back to
    the old position and reading as many bytes returns them. *)
Theorem mbuf_write_read alloc_ok junk mb data mb'
  (Hwf : mb_wf mb) (Hd : mb_pos mb + zlen data <= SIZE_MAX)
  (Hw : mbuf_write_mem alloc_ok junk mb data = Some (0, mb')) :
  mbuf_read_mem (mbuf_set_pos mb' (mb_pos mb)) (zlen data)
    = Some (0, data, mb').
Proof.
  destruct (write_mem_ok alloc_ok junk mb data Hwf Hd) as (err & m & E & H).
  rewrite Hw in E. injection E as <- <-. cbn in H.
  destruct H as (Hwf' & Hp & He & Hs & _). pose proof (zlen_nonneg data).
  pose proof Hwf as (_ & ? & _).
  rewrite read_mem_avail.
  - do 2 f_equal. cbn. rewrite <- Hp. by destruct mb'.
  - split_and!; [by apply wf_set_pos|done|cbn; lia].
Qed.

Lemma mbuf_write_read_witness :
  mbuf_read_mem (mbuf_set_pos (mk_mbuf (Some [1; 2; 7; 8; 170; 170]) 6 4 4) 2) 2
    = Some (0, [7; 8], mk_mbuf (Some [1; 2; 7; 8; 170; 170]) 6 4 4).
Proof.
  apply (mbuf_write_read (fun _ => true) (fun _ => 170)
    (mk_mbuf (Some [1; 2; 3]) 3 2 3) [7; 8]); [zdec..|by vm_compute].
Defined.

Lemma left_diff mb : mb_pos mb <= mb_end mb -> mbuf_get_left mb = mb_end mb - mb_pos mb.
Proof. unfold mbuf_get_left. destruct (Z.ltb_spec (mb_pos mb) (mb_end mb)); lia. Qed.

(** The room that a shift to the right needs. *)
Lemma shift_room alloc_ok junk mb shift :
  mb_wf mb -> 0 <= mb_end mb + shift <= SIZE_MAX ->
  exists err mb1, (if mb_size mb <? mb_end mb + shift
    then mbuf_resize alloc_ok junk mb (mb_end mb + shift) else (0, mb)) = (err, mb1) /\
  (if err =? 0 then mb_wf mb1 /\ extends mb mb1 /\ mb_end mb + shift <= mb_size mb1
   else mb1 = mb).
Proof.
  intros Hwf Hs. destruct (Z.ltb_spec (mb_size mb) (mb_end mb + shift)).
  - destruct (resize_ok alloc_ok junk mb (mb_end mb + shift) Hwf)
      as (err & mb1 & -> & H1); [lia|]. do 2 eexists. split; [done|].
    destruct (err =? 0); [|done]. destruct H1 as (? & ? & ->). split_and!; done || lia.
  - do 2 eexists. split; [done|]. cbn. split_and!; [done|apply extends_refl|lia].
Qed.

(** [mbuf_shift] moves the unread bytes without changing them: on
    success the position, the end and the bytes between them are shifted
    together (the buffer grows when they no longer fit), otherwise the buffer
    is unchanged; a shift to before the start is refused with [ERANGE]. *)
Theorem mbuf_shift_keeps_content alloc_ok junk mb shift
  (Hwf : mb_wf mb) (Hpe : mb_pos mb <= mb_end mb)
  (Hs : mb_end mb + shift <= SIZE_MAX) :
  exists err mb', mbuf_shift alloc_ok junk mb shift = Some (err, mb') /\
  (if err =? 0 then
     mb_wf mb' /\ mb_pos mb' = mb_pos mb + shift /\ mb_end mb' = mb_end mb + shift /\
     slice (bytes mb') (mb_pos mb') (mbuf_get_left mb')
       = slice (bytes mb) (mb_pos mb) (mbuf_get_left mb)
   else mb' = mb) /\
  (mb_pos mb + shift < 0 -> err = ERANGE).
Proof.
  unfold mbuf_shift. destruct (_ || _) eqn:Er.
  { do 2 eexists. split; [done|]. by cbn. }
  pose proof Hwf as (Hl & Hp & He & Hsz). rewrite !usz_small by lia.
  destruct (shift_room alloc_ok junk mb shift Hwf) as (err & mb1 & -> & H1); [lia|].
  destruct (err =? 0) eqn:Ee; cbn [negb]; cycle 1.
  { do 2 eexists. split; [done|]. rewrite Ee. split; [done|]. lia. }
  destruct H1 as (Hwf1 & (E1 & E2 & E3 & E4) & Hsz1).
  pose proof Hwf1 as (Hl1 & Hp1 & He1 & Hz1). rewrite !E1, !E2 in *.
  assert (Hleft : mbuf_get_left mb1 = mb_end mb - mb_pos mb)
    by (rewrite left_diff by lia; lia).
  pose proof (left_diff mb Hpe) as Hleft0.
  assert (Hleft' : forall l, mbuf_get_left (mk_mbuf l (mb_size mb1) (mb_pos mb + shift)
      (mb_end mb + shift)) = mb_end mb - mb_pos mb)
    by (intros l; rewrite left_diff; cbn; lia).
  rewrite Hleft, !usz_small by lia.
  destruct (Z.eqb_spec (mb_end mb - mb_pos mb) 0) as [Hz|Hz]; cbn.
  - do 2 eexists. split; [done|]. split; [|lia]. cbn. rewrite Hleft', Hleft0, Hz.
    unfold mb_wf, bytes in *. cbn in *. split_and!; try lia; try done.
    rewrite !slice_some by lia. done.
  - destruct (mb_buf mb1) as [b|] eqn:Eb; cycle 1.
    { unfold bytes in Hl1. rewrite Eb in Hl1. unfold zlen in Hl1. cbn in Hl1. lia. }
    assert (Hb : bytes mb1 = b) by (unfold bytes; by rewrite Eb). rewrite Hb in *.
    destruct (slice b (mb_pos mb) (mb_end mb - mb_pos mb)) as [d|] eqn:Esl; cycle 1.
    { rewrite slice_some in Esl by lia. done. }
    pose proof (slice_inv _ _ _ _ Esl) as (_ & _ & _ & Hd & _). cbn.
    rewrite Esl. cbn.
    destruct (splice_ok b (mb_pos mb + shift) d) as [l' Hsp]; [lia|lia|].
    rewrite Hsp. cbn. do 2 eexists. split; [done|]. split; [|lia]. cbn.
    pose proof (splice_inv _ _ _ _ Hsp) as (_ & _ & Hz' & _).
    pose proof (splice_here _ _ _ _ Hsp) as Hh. rewrite Hleft', Hleft0.
    split_and!; try done.
    + unfold mb_wf, bytes. cbn. lia.
    + unfold bytes at 1. cbn. rewrite <- Hd, Hh. rewrite Hd, <- E4, Esl by lia. done.
Qed.

Lemma mbuf_shift_keeps_content_witness :
  exists err mb', mbuf_shift (fun _ => true) (fun _ => 170)
      (mk_mbuf (Some [1; 2; 3; 4]) 4 1 3) 4 = Some (err, mb') /\
  (if err =? 0 then
     mb_wf mb' /\ mb_pos mb' = 5 /\ mb_end mb' = 7 /\
     slice (bytes mb') (mb_pos mb') (mbuf_get_left mb') = slice [1; 2; 3; 4] 1 2
   else mb' = mk_mbuf (Some [1; 2; 3; 4]) 4 1 3) /\
  (5 < 0 -> err = ERANGE).
Proof.
  apply (mbuf_shift_keeps_content _ _ (mk_mbuf (Some [1; 2; 3; 4]) 4 1 3) 4); zdec.
Defined.
