(* ===== verification/RtcConnection.v ===== *)
(** * The Janus signalling connection

    Models src/barertc/src/brtc/RTCConnection.c: the connection object
    [FRTCConnection], the transactions and plugin handles it keeps in small
    arrays, the messages it sends and the dispatch of the messages it
    receives.  Transactions and handles are heap objects that the arrays point
    to, so that a pointer that outlives its object is visible: using it, or a
    function pointer that was never set, or overrunning a character array, is
    [ub].  The calls on the observer are recorded in order; what an observer
    does to the connection in turn is an operation of its own. *)

From stdpp Require Import gmap.
From S2P Require Import Prelude Effects Libc CoreJson Mbuf.
Import Json.

Module Conn.

Definition RTC_JANUS_TRANSACTION_ID_LEN : nat := 13.
Definition RTC_JANUS_TRANSACTION_MAP_LEN : nat := 8.
Definition RTC_JANUS_HANDLE_MAP_LEN : nat := 2.
Definition RTC_JANUS_PUBLISHER_LISTERN_MAP_LEN : nat := 2.
Definition DEFAULT_SIZE : Z := 512.
Definition MIN_SIZE : nat := 50.

(** ** Data *)

(** The functions a transaction can call on success. *)
Inductive OnTransactionSuccess :=
| createSession_fn
| publisherCreateHandle_fn
| createRoom_fn
| subscriberCreateHandle_fn.

Record RtcJanusTransaction := mk_jt {
  transactionId : list Z;
  onSuccess : OnTransactionSuccess }.

(** The function pointers of a handle; [malloc] leaves them unset. *)
Inductive OnJoined := joined_unset | publisherJoined_fn.
Inductive OnRemoteJsep := jsep_unset | publisherRemoteJsep_fn | subscriberRemoteJsep_fn.

Record RtcJanusHandle := mk_jh {
  handleId : Z;
  feedId : Z;
  onJoined : OnJoined;
  onRemoteJsep : OnRemoteJsep }.

Record janusTransactionMap := mk_slot { jtId : list Z; jt : option nat }.
Record janusHandlesMap := mk_hslot { jhId : Z; jh : option nat }.
Record publisherWebListenerMap := mk_wslot { wfeedId : Z; wcount : Z }.

(** The calls on the observer. *)
Inductive obs :=
| onCirrusDisconnected
| onPublisherJoined (h : Z)
| onPublisherRemoteJsep (h : Z) (jsep : list Z)
| subscriberHandleRemoteJsep (h : Z) (jsep : list Z)
| onLeaving (h : Z)
| onListenerNACKs (nacks : Z)
| onNACKs (nacks : Z)
| onUnpublished
| onRTCLoginOK
| onRTCLoginError
| onRTCConnectError
| onRTCWebrtcUp (h : Z)
| onRTCMediaStreamingEvent (h type : Z) (sending : bool)
| onRTCHangUp (h : Z)
| onRTCFeedComing (feed : Z) (name : list Z)
| onRTCUserMessage (feed : Z) (msg : list Z)
| onRTCUserAttribute (feed : Z) (attr : list Z)
| onRTCUserJoinedRoom (feed : Z) (name : list Z)
| onRTCUserLeavingRoom (feed : Z)
| onRTCError (code : Z) (error : list Z).

(** What the application configures. *)
Record settings := mk_settings {
  mUserId : list Z;
  mRoomName : list Z;
  mAppId : list Z;
  mTokenStr : list Z;
  mDisplayName : list Z;
  mCerPath : list Z;
  mVideoCodec : list Z;
  mAudioCodec : list Z;
  mMediaServerIP : list Z;
  mSDKTag : list Z;
  mOriginURI : list Z;
  mAsPublisher : bool;
  mAsListener : bool;
  mHasAudio : bool;
  mHasVideo : bool;
  mHasData : bool;
  mAutoSubscribe : bool }.

Definition cfg_UserId (x : list Z) (c : settings) : settings :=
  mk_settings x (mRoomName c) (mAppId c) (mTokenStr c) (mDisplayName c) (mCerPath c)
    (mVideoCodec c) (mAudioCodec c) (mMediaServerIP c) (mSDKTag c) (mOriginURI c)
    (mAsPublisher c) (mAsListener c) (mHasAudio c) (mHasVideo c) (mHasData c)
    (mAutoSubscribe c).
Definition cfg_RoomName (x : list Z) (c : settings) : settings :=
  mk_settings (mUserId c) x (mAppId c) (mTokenStr c) (mDisplayName c) (mCerPath c)
    (mVideoCodec c) (mAudioCodec c) (mMediaServerIP c) (mSDKTag c) (mOriginURI c)
    (mAsPublisher c) (mAsListener c) (mHasAudio c) (mHasVideo c) (mHasData c)
    (mAutoSubscribe c).
Definition cfg_AppId (x : list Z) (c : settings) : settings :=
  mk_settings (mUserId c) (mRoomName c) x (mTokenStr c) (mDisplayName c) (mCerPath c)
    (mVideoCodec c) (mAudioCodec c) (mMediaServerIP c) (mSDKTag c) (mOriginURI c)
    (mAsPublisher c) (mAsListener c) (mHasAudio c) (mHasVideo c) (mHasData c)
    (mAutoSubscribe c).
Definition cfg_TokenStr (x : list Z) (c : settings) : settings :=
  mk_settings (mUserId c) (mRoomName c) (mAppId c) x (mDisplayName c) (mCerPath c)
    (mVideoCodec c) (mAudioCodec c) (mMediaServerIP c) (mSDKTag c) (mOriginURI c)
    (mAsPublisher c) (mAsListener c) (mHasAudio c) (mHasVideo c) (mHasData c)
    (mAutoSubscribe c).
Definition cfg_DisplayName (x : list Z) (c : settings) : settings :=
  mk_settings (mUserId c) (mRoomName c) (mAppId c) (mTokenStr c) x (mCerPath c)
    (mVideoCodec c) (mAudioCodec c) (mMediaServerIP c) (mSDKTag c) (mOriginURI c)
    (mAsPublisher c) (mAsListener c) (mHasAudio c) (mHasVideo c) (mHasData c)
    (mAutoSubscribe c).
Definition cfg_CerPath (x : list Z) (c : settings) : settings :=
  mk_settings (mUserId c) (mRoomName c) (mAppId c) (mTokenStr c) (mDisplayName c) x
    (mVideoCodec c) (mAudioCodec c) (mMediaServerIP c) (mSDKTag c) (mOriginURI c)
    (mAsPublisher c) (mAsListener c) (mHasAudio c) (mHasVideo c) (mHasData c)
    (mAutoSubscribe c).
Definition cfg_VideoCodec (x : list Z) (c : settings) : settings :=
  mk_settings (mUserId c) (mRoomName c) (mAppId c) (mTokenStr c) (mDisplayName c)
    (mCerPath c) x (mAudioCodec c) (mMediaServerIP c) (mSDKTag c) (mOriginURI c)
    (mAsPublisher c) (mAsListener c) (mHasAudio c) (mHasVideo c) (mHasData c)
    (mAutoSubscribe c).
Definition cfg_AudioCodec (x : list Z) (c : settings) : settings :=
  mk_settings (mUserId c) (mRoomName c) (mAppId c) (mTokenStr c) (mDisplayName c)
    (mCerPath c) (mVideoCodec c) x (mMediaServerIP c) (mSDKTag c) (mOriginURI c)
    (mAsPublisher c) (mAsListener c) (mHasAudio c) (mHasVideo c) (mHasData c)
    (mAutoSubscribe c).
Definition cfg_MediaServerIP (x : list Z) (c : settings) : settings :=
  mk_settings (mUserId c) (mRoomName c) (mAppId c) (mTokenStr c) (mDisplayName c)
    (mCerPath c) (mVideoCodec c) (mAudioCodec c) x (mSDKTag c) (mOriginURI c)
    (mAsPublisher c) (mAsListener c) (mHasAudio c) (mHasVideo c) (mHasData c)
    (mAutoSubscribe c).
Definition cfg_SDKTag (x : list Z) (c : settings) : settings :=
  mk_settings (mUserId c) (mRoomName c) (mAppId c) (mTokenStr c) (mDisplayName c)
    (mCerPath c) (mVideoCodec c) (mAudioCodec c) (mMediaServerIP c) x (mOriginURI c)
    (mAsPublisher c) (mAsListener c) (mHasAudio c) (mHasVideo c) (mHasData c)
    (mAutoSubscribe c).
Definition cfg_OriginURI (x : list Z) (c : settings) : settings :=
  mk_settings (mUserId c) (mRoomName c) (mAppId c) (mTokenStr c) (mDisplayName c)
    (mCerPath c) (mVideoCodec c) (mAudioCodec c) (mMediaServerIP c) (mSDKTag c) x
    (mAsPublisher c) (mAsListener c) (mHasAudio c) (mHasVideo c) (mHasData c)
    (mAutoSubscribe c).
Definition cfg_AsPublisher (x : bool) (c : settings) : settings :=
  mk_settings (mUserId c) (mRoomName c) (mAppId c) (mTokenStr c) (mDisplayName c)
    (mCerPath c) (mVideoCodec c) (mAudioCodec c) (mMediaServerIP c) (mSDKTag c)
    (mOriginURI c) x (mAsListener c) (mHasAudio c) (mHasVideo c) (mHasData c)
    (mAutoSubscribe c).
Definition cfg_AsListener (x : bool) (c : settings) : settings :=
  mk_settings (mUserId c) (mRoomName c) (mAppId c) (mTokenStr c) (mDisplayName c)
    (mCerPath c) (mVideoCodec c) (mAudioCodec c) (mMediaServerIP c) (mSDKTag c)
    (mOriginURI c) (mAsPublisher c) x (mHasAudio c) (mHasVideo c) (mHasData c)
    (mAutoSubscribe c).
Definition cfg_HasAudio (x : bool) (c : settings) : settings :=
  mk_settings (mUserId c) (mRoomName c) (mAppId c) (mTokenStr c) (mDisplayName c)
    (mCerPath c) (mVideoCodec c) (mAudioCodec c) (mMediaServerIP c) (mSDKTag c)
    (mOriginURI c) (mAsPublisher c) (mAsListener c) x (mHasVideo c) (mHasData c)
    (mAutoSubscribe c).
Definition cfg_HasVideo (x : bool) (c : settings) : settings :=
  mk_settings (mUserId c) (mRoomName c) (mAppId c) (mTokenStr c) (mDisplayName c)
    (mCerPath c) (mVideoCodec c) (mAudioCodec c) (mMediaServerIP c) (mSDKTag c)
    (mOriginURI c) (mAsPublisher c) (mAsListener c) (mHasAudio c) x (mHasData c)
    (mAutoSubscribe c).
Definition cfg_HasData (x : bool) (c : settings) : settings :=
  mk_settings (mUserId c) (mRoomName c) (mAppId c) (mTokenStr c) (mDisplayName c)
    (mCerPath c) (mVideoCodec c) (mAudioCodec c) (mMediaServerIP c) (mSDKTag c)
    (mOriginURI c) (mAsPublisher c) (mAsListener c) (mHasAudio c) (mHasVideo c) x
    (mAutoSubscribe c).
Definition cfg_AutoSubscribe (x : bool) (c : settings) : settings :=
  mk_settings (mUserId c) (mRoomName c) (mAppId c) (mTokenStr c) (mDisplayName c)
    (mCerPath c) (mVideoCodec c) (mAudioCodec c) (mMediaServerIP c) (mSDKTag c)
    (mOriginURI c) (mAsPublisher c) (mAsListener c) (mHasAudio c) (mHasVideo c)
    (mHasData c) x.

(** The connection with the objects it owns, the number of objects allocated
    and of random numbers drawn, and the texts sent and observer calls made,
    latest last.  [mBRTCServerVersion] is [None] once it points to a buffer
    that has gone out of scope. *)
Record conn := mk_conn {
  mCfg : settings;
  mSessionId : Z;
  mRoomId : Z;
  mFeedId : Z;
  mNeedRoomID : bool;
  mBRTCServerVersion : option (list Z);
  mFeedIdIsOnline : bool;
  mRTCConnected : bool;
  mbAliving : bool;
  mbQuitWatchDog : bool;
  mJanusTransactionMap : list janusTransactionMap;
  mJanusHandlesMap : list janusHandlesMap;
  mPublisherWebListenerMap : list publisherWebListenerMap;
  mWSCtx : bool;
  mWSConnetion : bool;
  mFullURL : list Z;
  transactions : gmap nat RtcJanusTransaction;
  handles : gmap nat RtcJanusHandle;
  next : nat;
  rands : nat;
  count : Z;
  sent : list (list Z);
  seen : list obs }.

Definition set_mCfg (x : settings) (c : conn) : conn :=
  mk_conn x (mSessionId c) (mRoomId c) (mFeedId c) (mNeedRoomID c) (mBRTCServerVersion c)
    (mFeedIdIsOnline c) (mRTCConnected c) (mbAliving c) (mbQuitWatchDog c)
    (mJanusTransactionMap c) (mJanusHandlesMap c) (mPublisherWebListenerMap c) (mWSCtx c)
    (mWSConnetion c) (mFullURL c) (transactions c) (handles c) (next c) (rands c) (count c)
    (sent c) (seen c).
Definition set_mSessionId (x : Z) (c : conn) : conn :=
  mk_conn (mCfg c) x (mRoomId c) (mFeedId c) (mNeedRoomID c) (mBRTCServerVersion c)
    (mFeedIdIsOnline c) (mRTCConnected c) (mbAliving c) (mbQuitWatchDog c)
    (mJanusTransactionMap c) (mJanusHandlesMap c) (mPublisherWebListenerMap c) (mWSCtx c)
    (mWSConnetion c) (mFullURL c) (transactions c) (handles c) (next c) (rands c) (count c)
    (sent c) (seen c).
Definition set_mRoomId (x : Z) (c : conn) : conn :=
  mk_conn (mCfg c) (mSessionId c) x (mFeedId c) (mNeedRoomID c) (mBRTCServerVersion c)
    (mFeedIdIsOnline c) (mRTCConnected c) (mbAliving c) (mbQuitWatchDog c)
    (mJanusTransactionMap c) (mJanusHandlesMap c) (mPublisherWebListenerMap c) (mWSCtx c)
    (mWSConnetion c) (mFullURL c) (transactions c) (handles c) (next c) (rands c) (count c)
    (sent c) (seen c).
Definition set_mFeedId (x : Z) (c : conn) : conn :=
  mk_conn (mCfg c) (mSessionId c) (mRoomId c) x (mNeedRoomID c) (mBRTCServerVersion c)
    (mFeedIdIsOnline c) (mRTCConnected c) (mbAliving c) (mbQuitWatchDog c)
    (mJanusTransactionMap c) (mJanusHandlesMap c) (mPublisherWebListenerMap c) (mWSCtx c)
    (mWSConnetion c) (mFullURL c) (transactions c) (handles c) (next c) (rands c) (count c)
    (sent c) (seen c).
Definition set_mNeedRoomID (x : bool) (c : conn) : conn :=
  mk_conn (mCfg c) (mSessionId c) (mRoomId c) (mFeedId c) x (mBRTCServerVersion c)
    (mFeedIdIsOnline c) (mRTCConnected c) (mbAliving c) (mbQuitWatchDog c)
    (mJanusTransactionMap c) (mJanusHandlesMap c) (mPublisherWebListenerMap c) (mWSCtx c)
    (mWSConnetion c) (mFullURL c) (transactions c) (handles c) (next c) (rands c) (count c)
    (sent c) (seen c).
Definition set_mBRTCServerVersion (x : option (list Z)) (c : conn) : conn :=
  mk_conn (mCfg c) (mSessionId c) (mRoomId c) (mFeedId c) (mNeedRoomID c) x
    (mFeedIdIsOnline c) (mRTCConnected c) (mbAliving c) (mbQuitWatchDog c)
    (mJanusTransactionMap c) (mJanusHandlesMap c) (mPublisherWebListenerMap c) (mWSCtx c)
    (mWSConnetion c) (mFullURL c) (transactions c) (handles c) (next c) (rands c) (count c)
    (sent c) (seen c).
Definition set_mFeedIdIsOnline (x : bool) (c : conn) : conn :=
  mk_conn (mCfg c) (mSessionId c) (mRoomId c) (mFeedId c) (mNeedRoomID c)
    (mBRTCServerVersion c) x (mRTCConnected c) (mbAliving c) (mbQuitWatchDog c)
    (mJanusTransactionMap c) (mJanusHandlesMap c) (mPublisherWebListenerMap c) (mWSCtx c)
    (mWSConnetion c) (mFullURL c) (transactions c) (handles c) (next c) (rands c) (count c)
    (sent c) (seen c).
Definition set_mRTCConnected (x : bool) (c : conn) : conn :=
  mk_conn (mCfg c) (mSessionId c) (mRoomId c) (mFeedId c) (mNeedRoomID c)
    (mBRTCServerVersion c) (mFeedIdIsOnline c) x (mbAliving c) (mbQuitWatchDog c)
    (mJanusTransactionMap c) (mJanusHandlesMap c) (mPublisherWebListenerMap c) (mWSCtx c)
    (mWSConnetion c) (mFullURL c) (transactions c) (handles c) (next c) (rands c) (count c)
    (sent c) (seen c).
Definition set_mbAliving (x : bool) (c : conn) : conn :=
  mk_conn (mCfg c) (mSessionId c) (mRoomId c) (mFeedId c) (mNeedRoomID c)
    (mBRTCServerVersion c) (mFeedIdIsOnline c) (mRTCConnected c) x (mbQuitWatchDog c)
    (mJanusTransactionMap c) (mJanusHandlesMap c) (mPublisherWebListenerMap c) (mWSCtx c)
    (mWSConnetion c) (mFullURL c) (transactions c) (handles c) (next c) (rands c) (count c)
    (sent c) (seen c).
Definition set_mbQuitWatchDog (x : bool) (c : conn) : conn :=
  mk_conn (mCfg c) (mSessionId c) (mRoomId c) (mFeedId c) (mNeedRoomID c)
    (mBRTCServerVersion c) (mFeedIdIsOnline c) (mRTCConnected c) (mbAliving c) x
    (mJanusTransactionMap c) (mJanusHandlesMap c) (mPublisherWebListenerMap c) (mWSCtx c)
    (mWSConnetion c) (mFullURL c) (transactions c) (handles c) (next c) (rands c) (count c)
    (sent c) (seen c).
Definition set_mJanusTransactionMap (x : list janusTransactionMap) (c : conn) : conn :=
  mk_conn (mCfg c) (mSessionId c) (mRoomId c) (mFeedId c) (mNeedRoomID c)
    (mBRTCServerVersion c) (mFeedIdIsOnline c) (mRTCConnected c) (mbAliving c)
    (mbQuitWatchDog c) x (mJanusHandlesMap c) (mPublisherWebListenerMap c) (mWSCtx c)
    (mWSConnetion c) (mFullURL c) (transactions c) (handles c) (next c) (rands c) (count c)
    (sent c) (seen c).
Definition set_mJanusHandlesMap (x : list janusHandlesMap) (c : conn) : conn :=
  mk_conn (mCfg c) (mSessionId c) (mRoomId c) (mFeedId c) (mNeedRoomID c)
    (mBRTCServerVersion c) (mFeedIdIsOnline c) (mRTCConnected c) (mbAliving c)
    (mbQuitWatchDog c) (mJanusTransactionMap c) x (mPublisherWebListenerMap c) (mWSCtx c)
    (mWSConnetion c) (mFullURL c) (transactions c) (handles c) (next c) (rands c) (count c)
    (sent c) (seen c).
Definition set_mPublisherWebListenerMap (x : list publisherWebListenerMap) (c : conn) : conn :=
  mk_conn (mCfg c) (mSessionId c) (mRoomId c) (mFeedId c) (mNeedRoomID c)
    (mBRTCServerVersion c) (mFeedIdIsOnline c) (mRTCConnected c) (mbAliving c)
    (mbQuitWatchDog c) (mJanusTransactionMap c) (mJanusHandlesMap c) x (mWSCtx c)
    (mWSConnetion c) (mFullURL c) (transactions c) (handles c) (next c) (rands c) (count c)
    (sent c) (seen c).
Definition set_mWSCtx (x : bool) (c : conn) : conn :=
  mk_conn (mCfg c) (mSessionId c) (mRoomId c) (mFeedId c) (mNeedRoomID c)
    (mBRTCServerVersion c) (mFeedIdIsOnline c) (mRTCConnected c) (mbAliving c)
    (mbQuitWatchDog c) (mJanusTransactionMap c) (mJanusHandlesMap c)
    (mPublisherWebListenerMap c) x (mWSConnetion c) (mFullURL c) (transactions c)
    (handles c) (next c) (rands c) (count c) (sent c) (seen c).
Definition set_mWSConnetion (x : bool) (c : conn) : conn :=
  mk_conn (mCfg c) (mSessionId c) (mRoomId c) (mFeedId c) (mNeedRoomID c)
    (mBRTCServerVersion c) (mFeedIdIsOnline c) (mRTCConnected c) (mbAliving c)
    (mbQuitWatchDog c) (mJanusTransactionMap c) (mJanusHandlesMap c)
    (mPublisherWebListenerMap c) (mWSCtx c) x (mFullURL c) (transactions c) (handles c)
    (next c) (rands c) (count c) (sent c) (seen c).
Definition set_mFullURL (x : list Z) (c : conn) : conn :=
  mk_conn (mCfg c) (mSessionId c) (mRoomId c) (mFeedId c) (mNeedRoomID c)
    (mBRTCServerVersion c) (mFeedIdIsOnline c) (mRTCConnected c) (mbAliving c)
    (mbQuitWatchDog c) (mJanusTransactionMap c) (mJanusHandlesMap c)
    (mPublisherWebListenerMap c) (mWSCtx c) (mWSConnetion c) x (transactions c) (handles c)
    (next c) (rands c) (count c) (sent c) (seen c).
Definition set_transactions (x : gmap nat RtcJanusTransaction) (c : conn) : conn :=
  mk_conn (mCfg c) (mSessionId c) (mRoomId c) (mFeedId c) (mNeedRoomID c)
    (mBRTCServerVersion c) (mFeedIdIsOnline c) (mRTCConnected c) (mbAliving c)
    (mbQuitWatchDog c) (mJanusTransactionMap c) (mJanusHandlesMap c)
    (mPublisherWebListenerMap c) (mWSCtx c) (mWSConnetion c) (mFullURL c) x (handles c)
    (next c) (rands c) (count c) (sent c) (seen c).
Definition set_handles (x : gmap nat RtcJanusHandle) (c : conn) : conn :=
  mk_conn (mCfg c) (mSessionId c) (mRoomId c) (mFeedId c) (mNeedRoomID c)
    (mBRTCServerVersion c) (mFeedIdIsOnline c) (mRTCConnected c) (mbAliving c)
    (mbQuitWatchDog c) (mJanusTransactionMap c) (mJanusHandlesMap c)
    (mPublisherWebListenerMap c) (mWSCtx c) (mWSConnetion c) (mFullURL c) (transactions c)
    x (next c) (rands c) (count c) (sent c) (seen c).
Definition set_next (x : nat) (c : conn) : conn :=
  mk_conn (mCfg c) (mSessionId c) (mRoomId c) (mFeedId c) (mNeedRoomID c)
    (mBRTCServerVersion c) (mFeedIdIsOnline c) (mRTCConnected c) (mbAliving c)
    (mbQuitWatchDog c) (mJanusTransactionMap c) (mJanusHandlesMap c)
    (mPublisherWebListenerMap c) (mWSCtx c) (mWSConnetion c) (mFullURL c) (transactions c)
    (handles c) x (rands c) (count c) (sent c) (seen c).
Definition set_rands (x : nat) (c : conn) : conn :=
  mk_conn (mCfg c) (mSessionId c) (mRoomId c) (mFeedId c) (mNeedRoomID c)
    (mBRTCServerVersion c) (mFeedIdIsOnline c) (mRTCConnected c) (mbAliving c)
    (mbQuitWatchDog c) (mJanusTransactionMap c) (mJanusHandlesMap c)
    (mPublisherWebListenerMap c) (mWSCtx c) (mWSConnetion c) (mFullURL c) (transactions c)
    (handles c) (next c) x (count c) (sent c) (seen c).
Definition set_count (x : Z) (c : conn) : conn :=
  mk_conn (mCfg c) (mSessionId c) (mRoomId c) (mFeedId c) (mNeedRoomID c)
    (mBRTCServerVersion c) (mFeedIdIsOnline c) (mRTCConnected c) (mbAliving c)
    (mbQuitWatchDog c) (mJanusTransactionMap c) (mJanusHandlesMap c)
    (mPublisherWebListenerMap c) (mWSCtx c) (mWSConnetion c) (mFullURL c) (transactions c)
    (handles c) (next c) (rands c) x (sent c) (seen c).
Definition set_sent (x : list (list Z)) (c : conn) : conn :=
  mk_conn (mCfg c) (mSessionId c) (mRoomId c) (mFeedId c) (mNeedRoomID c)
    (mBRTCServerVersion c) (mFeedIdIsOnline c) (mRTCConnected c) (mbAliving c)
    (mbQuitWatchDog c) (mJanusTransactionMap c) (mJanusHandlesMap c)
    (mPublisherWebListenerMap c) (mWSCtx c) (mWSConnetion c) (mFullURL c) (transactions c)
    (handles c) (next c) (rands c) (count c) x (seen c).
Definition set_seen (x : list obs) (c : conn) : conn :=
  mk_conn (mCfg c) (mSessionId c) (mRoomId c) (mFeedId c) (mNeedRoomID c)
    (mBRTCServerVersion c) (mFeedIdIsOnline c) (mRTCConnected c) (mbAliving c)
    (mbQuitWatchDog c) (mJanusTransactionMap c) (mJanusHandlesMap c)
    (mPublisherWebListenerMap c) (mWSCtx c) (mWSConnetion c) (mFullURL c) (transactions c)
    (handles c) (next c) (rands c) (count c) (sent c) x.

Abbreviation C := (M conn).

(** [mem] is the memory from the message on: its [len] bytes and what the
    receive buffer holds behind them. *)
Definition search (mem : list Z) (len : Z) (query : String.string)
  : C (option (Z * Z)) :=
  '(r, out) ← of_option (JSON_Search (Some mem) len (Some (bytes_of query))
                           (zlen (bytes_of query)) true);
  match r with
  | JSONSuccess => o ← of_option out; mret (Some o)
  | _ => mret None
  end.

(** The bytes of a value; a value that was not found is a NULL pointer with
    length 0. *)
Definition value (mem : list Z) (v : option (Z * Z)) : C (list Z) :=
  match v with
  | None => mret []
  | Some (i, n) => of_option (Mb.slice mem i n)
  end.

Definition validate (mem : list Z) (len : Z) : C bool :=
  r ← of_option (JSON_Validate (Some mem) len);
  mret (bool_decide (r = JSONSuccess)).

Definition lit (s : String.string) (v : list Z) : bool := strn_eq (bytes_of s) v.

(** [char save[n] = ""; strncpy(save, value, len)]. *)
Definition save (n : nat) (v : list Z) : C (list Z) :=
  of_option (strncpy (replicate n 0) v).

(** [(unsigned long long) atoll(save)] of a value copied to [n] bytes. *)
Definition save_id (n : nat) (v : list Z) : C Z :=
  b ← save n v;
  z ← of_option (atoll b);
  mret (u64 z).

Section Connection.

(** [rand]'s results, [malloc]'s success, and which of the observer's
    function pointers are set. *)
Context (rand : nat -> Z) (mem_ok : nat -> bool) (observer : obs -> bool).

Definition call (o : obs) : C unit :=
  if observer o then modify (fun c => set_seen (seen c ++ [o]) c) else ub.

Definition alphabet : list Z :=
  bytes_of "ABCDEFGHIJKLMNOPQRSTUVWXYZabcdefghijklmnopqrstuvwxyz0123456789".

(** [len - 1] characters; the terminating NUL is left out. *)
Fixpoint generate_chars (n : nat) : C (list Z) :=
  match n with
  | O => mret []
  | S n =>
    k ← gets rands;
    modify (fun c => set_rands (S k) c) ;;
    x ← of_option (rd alphabet (rand k mod 62));
    l ← generate_chars n;
    mret (x :: l)
  end.

Definition generateString (len : nat) : C (list Z) := generate_chars (len - 1).

Definition malloc : C nat :=
  p ← gets next;
  if mem_ok p then modify (fun c => set_next (S p) c) ;; mret p else ub.

(** [sprintf] into an array of [size] characters. *)
Definition sprintf (size : Z) (text : list Z) : C (list Z) :=
  if zlen text <? size then mret text else ub.

Definition sendMessage (buf : list Z) : C unit :=
  connected ← gets mRTCConnected;
  when connected (modify (fun c => set_sent (sent c ++ [buf]) c)).

(** A transaction entered in slot [i]. *)
Definition register (i : nat) (id : list Z) (f : OnTransactionSuccess) (p : nat) : C unit :=
  modify (fun c => set_transactions (<[p := mk_jt id f]> (transactions c))
    (set_mJanusTransactionMap (<[i := mk_slot id (Some p)]> (mJanusTransactionMap c)) c)).

(** ** Requests *)

Definition createSession : C unit :=
  p ← malloc;
  id ← generateString RTC_JANUS_TRANSACTION_ID_LEN;
  cfg ← gets mCfg;
  text ← sprintf DEFAULT_SIZE
    (json_text "{'janus':'create','transaction':'" ++ id ++
     json_text "','sdktag':'" ++ mSDKTag cfg ++ json_text "','janusIp':'" ++
     mMediaServerIP cfg ++ json_text "','uri':'" ++ mOriginURI cfg ++
     json_text "','userevent':true,'sessionevent':true}");
  register 0 id createSession_fn p ;;
  sendMessage text.

(** With a room id the code passes the number [mRoomId] for a string. *)
Definition createRoom (h : Z) : C unit :=
  p ← malloc;
  id ← generateString RTC_JANUS_TRANSACTION_ID_LEN;
  c ← gets Datatypes.id;
  if mNeedRoomID c then ub else
  let cfg := mCfg c in
  text ← sprintf DEFAULT_SIZE
    (json_text "{'janus':'message','body':{'request':'create','id':" ++ mUserId cfg ++
     json_text ",'app_id':'" ++ mAppId cfg ++ json_text "','room_name':'" ++
     mRoomName cfg ++ json_text "','description':'RTOS','publishers':10000,'is_private':false,'videocodec':'" ++
     mVideoCodec cfg ++ json_text "','audiocodec':'" ++ mAudioCodec cfg ++
     json_text "'},'transaction':'" ++ id ++ json_text "','session_id': " ++
     lld (mSessionId c) ++ json_text ",'handle_id':" ++ lld h ++ json_text "}");
  register 2 id createRoom_fn p ;;
  sendMessage text.

(** [opened]: the result of the web socket's connect call. *)
Definition connecting (url : list Z) (opened : bool) : C unit :=
  c ← gets Datatypes.id;
  let cfg := mCfg c in
  full ← sprintf DEFAULT_SIZE
    (url ++ bytes_of "?appid=" ++ mAppId cfg ++ bytes_of "&roomname=" ++ mRoomName cfg ++
     bytes_of "&uid=" ++ mUserId cfg ++ bytes_of "&token=" ++ mTokenStr cfg ++
     bytes_of "&compulsive=true&connectingCount=" ++ lld (count c));
  modify (fun c => set_mWSConnetion opened (set_mWSCtx true (set_mFullURL full
    (set_mCfg (cfg_OriginURI url cfg) c)))) ;;
  when (negb opened) (call onRTCConnectError) ;;
  modify (fun c => set_count (u64 (count c + 1)) c).

Definition keepAlive : C unit :=
  session ← gets mSessionId;
  if session =? 0 then mret tt else
  id ← generateString RTC_JANUS_TRANSACTION_ID_LEN;
  text ← sprintf DEFAULT_SIZE
    (json_text "{'janus':'keepalive','session_id': " ++ lld session ++
     json_text ",'transaction':'" ++ id ++ json_text "'}");
  sendMessage text.

Definition attach_text (id : list Z) (session : Z) : list Z :=
  json_text "{'janus':'attach','plugin':'janus.plugin.videoroom','transaction':'" ++ id ++
  json_text "','session_id': " ++ lld session ++ json_text "}".

Definition publisherCreateHandle : C unit :=
  p ← malloc;
  id ← generateString RTC_JANUS_TRANSACTION_ID_LEN;
  session ← gets mSessionId;
  text ← sprintf DEFAULT_SIZE (attach_text id session);
  register 1 id publisherCreateHandle_fn p ;;
  sendMessage text.

(** The end that most requests share. *)
Definition trailer (id : list Z) (session h : Z) : list Z :=
  json_text "'transaction':'" ++ id ++ json_text "','session_id':" ++ lld session ++
  json_text ",'handle_id':" ++ lld h ++ json_text "}".

Definition user_id (cfg : settings) : C Z :=
  z ← of_option (atoll (mUserId cfg ++ [0])); mret (u64 z).

Definition publisherJoinRoom (h : Z) : C unit :=
  id ← generateString RTC_JANUS_TRANSACTION_ID_LEN;
  c ← gets Datatypes.id;
  let cfg := mCfg c in
  uid ← user_id cfg;
  text ← sprintf DEFAULT_SIZE
    (json_text "{'janus':'message','body':{'request':'join','room':" ++ lld (mRoomId c) ++
     json_text ",'ptype':'publisher','display':'" ++ mDisplayName cfg ++ json_text "','id':" ++
     lld uid ++ json_text ",'app_id':'" ++ mAppId cfg ++ json_text "','room_name':'" ++
     mRoomName cfg ++ json_text "','role':'publisher','token':'" ++ mTokenStr cfg ++
     json_text "'}," ++ trailer id (mSessionId c) h);
  sendMessage text.

Definition c_bool (b : bool) : list Z := if b then bytes_of "true" else bytes_of "false".

Definition publisherCreateOffer (h : Z) (desc : list Z) : C unit :=
  id ← generateString RTC_JANUS_TRANSACTION_ID_LEN;
  c ← gets Datatypes.id;
  let cfg := mCfg c in
  text ← sprintf (DEFAULT_SIZE * 8)
    (json_text "{'janus':'message','body':{'request':'configure','audio':" ++
     c_bool (mHasAudio cfg) ++ json_text ",'video':" ++ c_bool (mHasVideo cfg) ++
     json_text ",'data':" ++ c_bool (mHasData cfg) ++
     json_text "},'jsep':{'type':'OFFER','sdp':'" ++ desc ++ json_text "'}," ++
     trailer id (mSessionId c) h);
  sendMessage text.

Definition trickleCandicate (h : Z) (candidate : list Z) : C unit :=
  version ← gets mBRTCServerVersion;
  version ← of_option version;
  if bool_decide (version = bytes_of "brtc_v0") then mret tt else
  id ← generateString RTC_JANUS_TRANSACTION_ID_LEN;
  session ← gets mSessionId;
  text ← sprintf DEFAULT_SIZE
    (json_text "{'janus':'trickle','candidate':{'candidate':'candidate:'" ++ candidate ++
     json_text "','sdpMid':'0','sdpMLineIndex':0}," ++ trailer id session h);
  sendMessage text.

Definition trickleCandicateComplete (h : Z) : C unit :=
  id ← generateString RTC_JANUS_TRANSACTION_ID_LEN;
  session ← gets mSessionId;
  text ← sprintf DEFAULT_SIZE
    (json_text "{'janus':'trickle','candidate':{'completed':true}," ++ trailer id session h);
  sendMessage text.

Definition subscriberCreateHandle (feed : Z) : C unit :=
  p ← malloc;
  id ← generateString RTC_JANUS_TRANSACTION_ID_LEN;
  session ← gets mSessionId;
  text ← sprintf DEFAULT_SIZE (attach_text id session);
  modify (set_mFeedId feed) ;;
  register 3 id subscriberCreateHandle_fn p ;;
  sendMessage text.

Definition subscriberJoinRoom (h feed : Z) : C unit :=
  id ← generateString RTC_JANUS_TRANSACTION_ID_LEN;
  c ← gets Datatypes.id;
  let cfg := mCfg c in
  uid ← user_id cfg;
  text ← sprintf DEFAULT_SIZE
    (json_text "{'janus':'message','body':{'request':'join','room':" ++ lld (mRoomId c) ++
     json_text ",'ptype':'listener','id':" ++ lld uid ++ json_text ",'app_id':'" ++
     mAppId cfg ++ json_text "','room_name':'" ++ mRoomName cfg ++ json_text "','role':'" ++
     (if mAsPublisher cfg then bytes_of "publisher" else bytes_of "listener") ++
     json_text "','token':'" ++ mTokenStr cfg ++ json_text "','feed':" ++ lld feed ++
     json_text "}," ++ trailer id (mSessionId c) h);
  sendMessage text.

Definition subscriberCreateAnswer (h : Z) (desc : list Z) : C unit :=
  id ← generateString RTC_JANUS_TRANSACTION_ID_LEN;
  c ← gets Datatypes.id;
  text ← sprintf (DEFAULT_SIZE * 4)
    (json_text "{'janus':'message','body':{'request':'start','room':" ++ lld (mRoomId c) ++
     json_text "},'jsep':{'type':'ANSWER','sdp':'" ++ desc ++ json_text "'}," ++
     trailer id (mSessionId c) h);
  sendMessage text.

(** The three switches come from the settings, not from the arguments. *)
Definition subscriberConfig (h : Z) (audio video data : bool) : C unit :=
  id ← generateString RTC_JANUS_TRANSACTION_ID_LEN;
  c ← gets Datatypes.id;
  let cfg := mCfg c in
  text ← sprintf DEFAULT_SIZE
    (json_text "{'janus':'message','body':{'request':'configure', 'audio':" ++
     c_bool (mHasAudio cfg) ++ json_text ",'video':" ++ c_bool (mHasVideo cfg) ++
     json_text ",'data':" ++ c_bool (mHasData cfg) ++ json_text "}," ++
     trailer id (mSessionId c) h);
  sendMessage text.

Definition sendMessageToUser (msg : list Z) (to_ : Z) (internal : bool) : C unit :=
  id ← generateString RTC_JANUS_TRANSACTION_ID_LEN;
  c ← gets Datatypes.id;
  uid ← user_id (mCfg c);
  text ← sprintf DEFAULT_SIZE
    (json_text "{'janus':'message','transaction':'" ++ id ++
     json_text "','body':{'request':'senddata','room':" ++ lld (mRoomId c) ++
     json_text ",'id':" ++ lld uid ++ json_text ",'to':" ++ lld to_ ++ json_text ",'data':'" ++
     msg ++ json_text "','internal':'" ++ c_bool internal ++ json_text "'},'session_id':" ++
     lld (mSessionId c) ++ json_text "}");
  sendMessage text.

Definition unpublish (h : Z) : C unit :=
  id ← generateString RTC_JANUS_TRANSACTION_ID_LEN;
  session ← gets mSessionId;
  text ← sprintf DEFAULT_SIZE
    (json_text "{'janus':'message','body':{'request':'unpublish'}," ++ trailer id session h);
  sendMessage text.

Definition detach (h : Z) : C unit :=
  id ← generateString RTC_JANUS_TRANSACTION_ID_LEN;
  session ← gets mSessionId;
  text ← sprintf DEFAULT_SIZE (json_text "{'janus':'detach'," ++ trailer id session h);
  sendMessage text.

(** ** Replies to transactions *)

(** These take the length from [strlen], not from the message. *)
Definition createSession_callback (mem : list Z) : C unit :=
  len ← of_option (strlen mem);
  valid ← validate mem len;
  if negb valid then mret tt else
  v ← search mem len "data.id";
  (match v with
   | None => mret tt
   | Some _ => b ← value mem v; z ← save_id MIN_SIZE b; modify (set_mSessionId z)
   end) ;;
  v ← search mem len "standalone";
  (match v with
   | None => mret tt
   | Some _ => b ← value mem v; modify (set_mNeedRoomID (lit "true" b))
   end) ;;
  v ← search mem len "data.version";
  (match v with
   | None => mret tt
   | Some _ => b ← value mem v; save MIN_SIZE b ;; modify (set_mBRTCServerVersion None)
   end) ;;
  publisherCreateHandle.

Definition publisherCreateHandle_callback (mem : list Z) : C unit :=
  len ← of_option (strlen mem);
  valid ← validate mem len;
  if negb valid then mret tt else
  v ← search mem len "data.id";
  match v with
  | None => mret tt
  | Some _ => b ← value mem v; h ← save_id MIN_SIZE b; createRoom h
  end.

Definition handle_at (p : nat) : C RtcJanusHandle :=
  hs ← gets handles; of_option (hs !! p).

Definition onPublisherJoined_callback (p : nat) : C unit :=
  x ← handle_at p; call (onPublisherJoined (handleId x)).

Definition onPublisherRemoteJsep_callback (p : nat) (mem : list Z) : C unit :=
  len ← of_option (strlen mem);
  valid ← validate mem len;
  if negb valid then mret tt else
  v ← search mem len "jsep";
  match v with
  | None => mret tt
  | Some _ =>
    b ← value mem v;
    b ← save (MIN_SIZE * 100) b;
    s ← of_option (c_string b);
    x ← handle_at p;
    call (onPublisherRemoteJsep (handleId x) s)
  end.

(** The text is terminated in place and restored afterwards. *)
Definition subscriberHandleRemoteJsep_callback (p : nat) (mem : list Z) : C unit :=
  len ← of_option (strlen mem);
  valid ← validate mem len;
  if negb valid then mret tt else
  v ← search mem len "jsep";
  match v with
  | None => mret tt
  | Some (i, n) =>
    b ← value mem v;
    of_option (rd mem (i + n)) ;;
    s ← of_option (c_string (b ++ [0]));
    x ← handle_at p;
    call (subscriberHandleRemoteJsep (handleId x) s)
  end.

(** A handle entered in slot [i]. *)
Definition new_handle (i : nat) (p : nat) (h : Z) (f : OnJoined) (g : OnRemoteJsep) : C unit :=
  modify (fun c => set_handles (<[p := mk_jh h (mFeedId c) f g]> (handles c))
    (set_mJanusHandlesMap (<[i := mk_hslot h (Some p)]> (mJanusHandlesMap c)) c)).

Definition createRoom_callback (mem : list Z) : C unit :=
  len ← of_option (strlen mem);
  valid ← validate mem len;
  if negb valid then mret tt else
  v ← search mem len "sender";
  h ← (match v with
       | None => mret 0
       | Some _ => b ← value mem v; save_id MIN_SIZE b
       end);
  v ← search mem len "plugindata.data.room";
  (match v with
   | None => mret tt
   | Some _ => b ← value mem v; z ← save_id MIN_SIZE b; modify (set_mRoomId z)
   end) ;;
  v ← search mem len "jsep";
  (match v with
   | None => mret tt
   | Some _ => b ← value mem v; save MIN_SIZE b ;; mret tt
   end) ;;
  p ← malloc;
  cfg ← gets mCfg;
  if mAsPublisher cfg then
    new_handle 0 p h publisherJoined_fn publisherRemoteJsep_fn ;;
    publisherJoinRoom h
  else if mAsListener cfg then
    new_handle 0 p h joined_unset subscriberRemoteJsep_fn ;;
    feed ← gets mFeedId;
    subscriberJoinRoom h feed
  else new_handle 0 p h joined_unset jsep_unset.

Definition subscriberCreateHandle_callback (mem : list Z) (len : Z) : C unit :=
  valid ← validate mem len;
  if negb valid then mret tt else
  v ← search mem len "data.id";
  h ← (match v with
       | None => mret 0
       | Some _ => b ← value mem v; save_id MIN_SIZE b
       end);
  p ← malloc;
  new_handle 1 p h joined_unset subscriberRemoteJsep_fn ;;
  feed ← gets mFeedId;
  subscriberJoinRoom h feed.

Definition run_success (f : OnTransactionSuccess) (mem : list Z) (len : Z) : C unit :=
  match f with
  | createSession_fn => createSession_callback mem
  | publisherCreateHandle_fn => publisherCreateHandle_callback mem
  | createRoom_fn => createRoom_callback mem
  | subscriberCreateHandle_fn => subscriberCreateHandle_callback mem len
  end.

(** ** Events

    The parts of [onEvent], in order; [true] means that it has returned. *)

Definition web_listener_index (l : list publisherWebListenerMap) (feed : Z) : option nat :=
  fst <$> list_find (fun w => wfeedId w = feed) l.

Definition onEvent_leaving (mem : list Z) (len : Z) : C bool :=
  v ← search mem len "plugindata.data.leaving";
  match v with
  | None => mret false
  | Some _ =>
    b ← value mem v;
    hid ← save_id MIN_SIZE b;
    if hid =? 0 then mret false else
    l ← gets mPublisherWebListenerMap;
    match web_listener_index l hid with
    | Some i =>
      modify (fun c => set_mPublisherWebListenerMap
        (<[i := mk_wslot 0 0]> (mPublisherWebListenerMap c)) c) ;;
      mret true
    | None => call (onLeaving hid) ;; mret true
    end
  end.

Definition onEvent_unpublished (mem : list Z) (len : Z) : C bool :=
  v ← search mem len "plugindata.data.unpublished";
  r ← (match v with
       | None => mret (Some 0)
       | Some _ =>
         b ← value mem v;
         s ← save MIN_SIZE b;
         if lit "ok" (take (length b) s) then call onUnpublished ;; mret None
         else z ← of_option (atoll s); mret (Some (u64 z))
       end);
  match r with
  | None => mret true
  | Some feed =>
    own ← gets mFeedId;
    if negb (feed =? 0) && (feed =? own) then call (onLeaving feed) ;; mret true
    else mret false
  end.

Definition handle_lookup (l : list janusHandlesMap) (h : Z) : option nat :=
  match list_find (fun s => jhId s = h) l with
  | Some (_, s) => jh s
  | None => None
  end.

Definition onEvent_joined (p : option nat) (videoroom : option (list Z)) : C unit :=
  match p, videoroom with
  | Some p, Some v =>
    if lit "joined" v then
      x ← handle_at p;
      match onJoined x with
      | publisherJoined_fn => onPublisherJoined_callback p
      | joined_unset => ub
      end
    else mret tt
  | _, _ => mret tt
  end.

Definition onEvent_jsep (p : option nat) (mem : list Z) (len : Z) : C bool :=
  jsep ← search mem len "jsep";
  feed ← search mem len "plugindata.data.configured";
  feed ← (match feed with
          | Some _ => mret feed
          | None => search mem len "plugindata.data.id"
          end);
  match jsep, feed, p with
  | Some _, Some _, Some p =>
    x ← handle_at p;
    match onRemoteJsep x with
    | jsep_unset => ub
    | f =>
      b ← value mem jsep;
      if lit "" b then mret false else
      fb ← value mem feed;
      fid ← save_id MIN_SIZE fb;
      own ← gets mFeedId;
      when (negb (fid =? 0) && (fid =? own)) (modify (set_mFeedIdIsOnline true)) ;;
      (match f with
       | publisherRemoteJsep_fn => onPublisherRemoteJsep_callback p mem
       | _ => subscriberHandleRemoteJsep_callback p mem
       end) ;;
      handle_at p ;;
      modify (fun c => set_handles (delete p (handles c)) c) ;;
      mret true
    end
  | _, _, _ => mret false
  end.

Definition onEvent_nacks (videoroom : list Z) (mem : list Z) (len : Z) : C bool :=
  v ← search mem len "plugindata.data.nacks";
  match v with
  | None => mret false
  | Some _ =>
    b ← value mem v;
    if lit "listener_slow_link" videoroom && negb (lit "" b) then
      s ← save MIN_SIZE b;
      z ← of_option (atoll s);
      call (onListenerNACKs z) ;; mret true
    else mret false
  end.

Definition onEvent_error (mem : list Z) (len : Z) : C bool :=
  t ← search mem len "transaction";
  ec ← search mem len "plugindata.data.error_code";
  e ← search mem len "plugindata.data.error";
  match t, ec, e with
  | Some _, Some _, Some _ =>
    tb ← value mem t;
    if lit "" tb then mret false else
    cb ← value mem ec;
    code ← save_id MIN_SIZE cb;
    eb ← value mem e;
    if lit "" eb then mret false else
    s ← save MIN_SIZE eb;
    s ← of_option (c_string s);
    call (onRTCError (i32 code) s) ;; mret true
  | _, _, _ => mret false
  end.

Definition noname : list Z := bytes_of "noname" ++ replicate (MIN_SIZE - 6) 0.

Definition onEvent_publisher (mem : list Z) (len : Z) : C unit :=
  pid ← search mem len "plugindata.data.publishers.[0].id";
  dis ← search mem len "plugindata.data.publishers.[0].display";
  match pid, dis with
  | Some _, Some _ =>
    pb ← value mem pid;
    id ← save_id MIN_SIZE pb;
    d ← value mem dis;
    if lit "" d then mret tt else
    name ← of_option (strncpy noname d);
    s ← of_option (c_string name);
    call (onRTCFeedComing id s) ;;
    when (lit "web_listener" (take (length d) name))
      (modify (fun c => set_mPublisherWebListenerMap
        (<[0%nat := mk_wslot id 1]> (mPublisherWebListenerMap c)) c)) ;;
    c ← gets Datatypes.id;
    let cfg := mCfg c in
    if mAsListener cfg && (mFeedId c =? 0) then
      when (mAutoSubscribe cfg) (subscriberCreateHandle id)
    else
      when (mAsListener cfg && negb (mFeedId c =? 0) && mAsPublisher cfg && (id =? mFeedId c))
        (subscriberCreateHandle id)
  | _, _ => mret tt
  end.

Definition onEvent (mem : list Z) (len : Z) : C unit :=
  valid ← validate mem len;
  if negb valid then mret tt else
  sender ← search mem len "sender";
  done ← onEvent_leaving mem len;
  if (done : bool) then mret tt else
  done ← onEvent_unpublished mem len;
  if (done : bool) then mret tt else
  b ← value mem sender;
  h ← save_id MIN_SIZE b;
  hl ← gets mJanusHandlesMap;
  let p := handle_lookup hl h in
  vr ← search mem len "plugindata.data.videoroom";
  vb ← value mem vr;
  onEvent_joined p (match vr with Some _ => Some vb | None => None end) ;;
  done ← onEvent_jsep p mem len;
  if (done : bool) then mret tt else
  done ← onEvent_nacks vb mem len;
  if (done : bool) then mret tt else
  done ← onEvent_error mem len;
  if (done : bool) then mret tt else
  onEvent_publisher mem len.

Definition onSessionEvent_recvdata (mem : list Z) (len : Z) : C unit :=
  d ← search mem len "recvdata.data";
  internal ← search mem len "recvdata.internal";
  from ← search mem len "recvdata.from";
  match d with
  | None => mret tt
  | Some _ =>
    db ← value mem d;
    data ← save MIN_SIZE db;
    fb ← value mem from;
    sf ← save MIN_SIZE fb;
    match internal, from with
    | Some _, Some _ =>
      ib ← value mem internal;
      if lit "true" ib then
        z ← of_option (atoll sf); s ← of_option (c_string data);
        call (onRTCUserAttribute (u64 z) s)
      else if lit "false" ib then
        z ← of_option (atoll sf); s ← of_option (c_string data);
        call (onRTCUserMessage (u64 z) s)
      else mret tt
    | _, _ => mret tt
    end
  end.

Definition nonempty (mem : list Z) (v : option (Z * Z)) : C (option (list Z)) :=
  match v with
  | None => mret None
  | Some _ => b ← value mem v; mret (if lit "" b then None else Some b)
  end.

(** The attribute is passed on where it stands in the message, up to the
    next NUL. *)
Definition onSessionEvent (mem : list Z) (len : Z) : C unit :=
  valid ← validate mem len;
  if negb valid then mret tt else
  onSessionEvent_recvdata mem len ;;
  ue ← search mem len "userevent";
  join ← search mem len "userevent.joined";
  uedis ← search mem len "userevent.display";
  leave ← search mem len "userevent.leaving";
  uid ← search mem len "userevent.users.[0].id";
  udis ← search mem len "userevent.users.[0].display";
  attr ← search mem len "userevent.users.[0].attribute";
  match ue with
  | None => mret tt
  | Some _ =>
    j ← nonempty mem join;
    l ← nonempty mem leave;
    u ← nonempty mem uid;
    match j, l, u with
    | Some jb, _, _ =>
      sj ← save MIN_SIZE jb;
      db ← value mem uedis;
      sd ← save MIN_SIZE db;
      z ← of_option (atoll sj);
      s ← of_option (c_string sd);
      call (onRTCUserJoinedRoom (u64 z) s)
    | None, Some lb, _ =>
      sl ← save MIN_SIZE lb;
      z ← of_option (atoll sl);
      call (onRTCUserLeavingRoom (u64 z))
    | None, None, Some idb =>
      id ← save_id MIN_SIZE idb;
      d ← nonempty mem udis;
      name ← (match d with Some d => of_option (strncpy noname d) | None => mret noname end);
      s ← of_option (c_string name);
      call (onRTCUserJoinedRoom id s) ;;
      a ← nonempty mem attr;
      match a, attr with
      | Some ab, Some (i, _) =>
        save MIN_SIZE ab ;;
        s ← of_option (c_string (drop (Z.to_nat i) mem));
        call (onRTCUserAttribute id s)
      | _, _ => mret tt
      end
    | None, None, None => mret tt
    end
  end.

(** ** The web socket's events *)

Definition onRTCClosed : C unit :=
  modify (set_mbQuitWatchDog true) ;;
  call onRTCConnectError ;;
  call onCirrusDisconnected.

(** Releasing the web socket closes a connection that is still open ([live]),
    which delivers the close event. *)
Definition disconnect (live : bool) : C unit :=
  ctx ← gets mWSCtx;
  when (ctx && live) onRTCClosed ;;
  modify (fun c => set_mRTCConnected false (set_mWSConnetion false (set_mWSCtx false c))).

Definition onRTCFailure : C unit :=
  modify (set_mbQuitWatchDog true) ;;
  call onRTCLoginError.

Definition onRTCOpen : C unit :=
  modify (fun c => set_mbAliving true (set_mRTCConnected true c)) ;;
  call onRTCLoginOK ;;
  createSession.

Definition slot_match (trans : list Z) (s : janusTransactionMap) : Prop :=
  strn_eq (jtId s) trans = true.
#[global] Instance slot_match_dec trans s : Decision (slot_match trans s) :=
  decide (strn_eq (jtId s) trans = true).

(** [strcpy(jtId, '')]: the slot keeps its pointer. *)
Definition clear_slot (i : nat) : C unit :=
  modify (fun c => set_mJanusTransactionMap
    (alter (fun s => mk_slot [] (jt s)) i (mJanusTransactionMap c)) c).

Definition free_transaction (p : nat) : C unit :=
  ts ← gets transactions;
  of_option (ts !! p) ;;
  modify (fun c => set_transactions (delete p (transactions c)) c).

(** The transaction of the first slot whose id matches is run and
    freed. *)
Definition on_success (trans mem : list Z) (len : Z) : C unit :=
  l ← gets mJanusTransactionMap;
  match list_find (slot_match trans) l with
  | None => mret tt
  | Some (i, s) =>
    p ← of_option (jt s);
    ts ← gets transactions;
    t ← of_option (ts !! p);
    run_success (onSuccess t) mem len ;;
    clear_slot i ;;
    free_transaction p
  end.

(** [onError] does nothing; slots without a transaction are passed over. *)
Definition on_error (trans : list Z) : C unit :=
  l ← gets mJanusTransactionMap;
  match list_find (fun s => slot_match trans s /\ jt s <> None) l with
  | None => mret tt
  | Some (i, s) =>
    p ← of_option (jt s);
    ts ← gets transactions;
    of_option (ts !! p) ;;
    clear_slot i ;;
    free_transaction p
  end.

(** The id of the handle a message is about, 0 without one. *)
Definition sender_id (n : nat) (mem : list Z) (len : Z) : C Z :=
  v ← search mem len "sender";
  match v with
  | None => mret 0
  | Some _ => b ← value mem v; save_id n b
  end.

(** [sending] compares the message's kind, not the value of "receiving". *)
Definition on_media (janus mem : list Z) (len : Z) : C unit :=
  r ← search mem len "receiving";
  let sending := match r with Some _ => lit "true" janus | None => false end in
  t ← search mem len "type";
  tb ← value mem t;
  let type := match t with Some _ => if lit "video" tb then 1 else 0 | None => 0 end in
  call (onRTCMediaStreamingEvent 0 type sending).

Definition on_slowlink (mem : list Z) (len : Z) : C unit :=
  v ← search mem len "nacks";
  match v with
  | None => mret tt
  | Some _ => b ← value mem v; s ← save 20 b; z ← of_option (atoll s); call (onNACKs z)
  end.

Definition onRTCMessage (mem : list Z) (len : Z) : C unit :=
  connected ← gets mRTCConnected;
  if negb connected then mret tt else
  valid ← validate mem len;
  if negb valid then mret tt else
  v ← search mem len "janus";
  match v with
  | None => mret tt
  | Some _ =>
    janus ← value mem v;
    t ← search mem len "transaction";
    trans ← value mem t;
    if lit "success" janus then on_success trans mem len
    else if lit "error" janus then on_error trans
    else if lit "event" janus then onEvent mem len
    else if lit "ack" janus then modify (set_mbAliving true)
    else if lit "sessionevent" janus then onSessionEvent mem len
    else if lit "webrtcup" janus then
      h ← sender_id MIN_SIZE mem len; call (onRTCWebrtcUp h)
    else if lit "media" janus then on_media janus mem len
    else if lit "hangup" janus then h ← sender_id 20 mem len; call (onRTCHangUp h)
    else if lit "slowlink" janus then on_slowlink mem len
    else mret tt
  end.

Inductive ws_event :=
| MG_EV_WS_OPEN
| MG_EV_CONNECT
| MG_EV_WS_MSG (mem : list Z) (len : Z)
| MG_EV_CLOSE
| MG_EV_ERROR.

Definition RTCConnection_baidurtc_client (ev : ws_event) : C unit :=
  match ev with
  | MG_EV_WS_OPEN => onRTCOpen
  | MG_EV_CONNECT => mret tt
  | MG_EV_WS_MSG mem len => onRTCMessage mem len
  | MG_EV_CLOSE | MG_EV_ERROR => onRTCClosed
  end.

End Connection.

(** The state after [memset] and [FRTCConnection_construct]. *)
Definition FRTCConnection_construct : conn :=
  mk_conn
    (mk_settings (bytes_of "10001") (bytes_of "2131") [] [] (bytes_of "BRTC RTOS demo")
       (bytes_of "./a.cer") (bytes_of "h263") (bytes_of "pcmu") [] [] []
       true true true true false true)
    0 999 0 false (Some (bytes_of "brtc_v0")) false false false false
    (replicate RTC_JANUS_TRANSACTION_MAP_LEN (mk_slot [] None))
    (replicate RTC_JANUS_HANDLE_MAP_LEN (mk_hslot 0 None))
    (replicate RTC_JANUS_PUBLISHER_LISTERN_MAP_LEN (mk_wslot 0 0))
    false false [] ∅ ∅ 0 0 0 [] [].

(** The observer that the client installs sets every function but one. *)
Definition init_observer (o : obs) : bool :=
  match o with onListenerNACKs _ => false | _ => true end.

End Conn.
