(* ===== verification/RtcConnectionInv.v ===== *)
(** * The invariant of the signalling connection

    What every operation of RTCConnection.c keeps: the arrays have their sizes,
    and a slot with a transaction id points to a live transaction with this
    id, alone, and with the callback that belongs to the slot. *)

From stdpp Require Import gmap.
From S2P Require Import Prelude Effects Libc CoreJson Mbuf RtcConnection.
Import Json Conn.

(** The callback a slot is for. *)
Definition slot_fn (i : nat) : OnTransactionSuccess :=
  match i with
  | 0%nat => createSession_fn
  | 1%nat => publisherCreateHandle_fn
  | 2%nat => createRoom_fn
  | _ => subscriberCreateHandle_fn
  end.

Definition good_id (id : list Z) : Prop :=
  length id = 12%nat /\ Forall (fun c => c <> 0) id.

Record wf (c : conn) : Prop := {
  wf_slots : length (mJanusTransactionMap c) = RTC_JANUS_TRANSACTION_MAP_LEN;
  wf_handles : length (mJanusHandlesMap c) = RTC_JANUS_HANDLE_MAP_LEN;
  wf_listeners : length (mPublisherWebListenerMap c) = RTC_JANUS_PUBLISHER_LISTERN_MAP_LEN;
  wf_live : forall i s, mJanusTransactionMap c !! i = Some s -> jtId s <> [] ->
    good_id (jtId s) /\ exists p, jt s = Some p /\
    transactions c !! p = Some (mk_jt (jtId s) (slot_fn i));
  wf_next : forall i s p, mJanusTransactionMap c !! i = Some s -> jt s = Some p ->
    (p < next c)%nat;
  wf_alone : forall i j s s' p, mJanusTransactionMap c !! i = Some s ->
    mJanusTransactionMap c !! j = Some s' -> jt s = Some p -> jt s' = Some p -> i = j }.

(** [p] is known to be pointed to by slot [i] only. *)
Definition only (o : option (nat * nat)) (c : conn) : Prop :=
  match o with
  | None => True
  | Some (p, i) => (p < next c)%nat /\
    forall j s, mJanusTransactionMap c !! j = Some s -> jt s = Some p -> j = i
  end.

Definition I (o : option (nat * nat)) (c : conn) : Prop := wf c /\ only o c.

(** [p] is allocated and no slot points to it. *)
Definition fresh (p : nat) (c : conn) : Prop :=
  (p < next c)%nat /\
  forall i s, mJanusTransactionMap c !! i = Some s -> jt s <> Some p.

Definition apart (p : nat) (o : option (nat * nat)) : Prop :=
  match o with None => True | Some (q, _) => p <> q end.

(** Fields the invariant does not read. *)
Definition same_slots (c c' : conn) : Prop :=
  mJanusTransactionMap c' = mJanusTransactionMap c /\ transactions c' = transactions c /\
  (next c <= next c')%nat /\
  length (mJanusHandlesMap c') = length (mJanusHandlesMap c) /\
  length (mPublisherWebListenerMap c') = length (mPublisherWebListenerMap c).

Lemma I_same o c c' : same_slots c c' -> I o c -> I o c'.
Proof.
  intros (E1 & E2 & E3 & E4 & E5) [[H1 H2 H3 H4 H5 H6] Ho]. split.
  - split; rewrite ?E1, ?E2, ?E4, ?E5; try done. intros i s p Hi Hp.
    specialize (H5 i s p Hi Hp). lia.
  - destruct o as [[p i]|]; cbn in *; [|done]. rewrite E1. destruct Ho. split; [lia|done].
Qed.

Lemma fresh_same p c c' : same_slots c c' -> fresh p c -> fresh p c'.
Proof. intros (E1 & _ & E3 & _) [H1 H2]. split; [lia|]. by rewrite E1. Qed.

(** Computations that leave the slots alone. *)
Definition quiet {A} (m : C A) : Prop :=
  forall c a c', m c = Some (a, c') -> same_slots c c'.

Lemma same_refl c : same_slots c c.
Proof. by repeat split. Qed.

Lemma same_trans a b c : same_slots a b -> same_slots b c -> same_slots a c.
Proof.
  intros (E1 & E2 & E3 & E4 & E5) (F1 & F2 & F3 & F4 & F5).
  unfold same_slots. split_and!; [congruence..|lia|congruence|congruence].
Qed.

Create HintDb conn.

Lemma quiet_ret {A} (a : A) : quiet (mret a : C A).
Proof. intros c b c' [= <- <-]. apply same_refl. Qed.
Lemma quiet_bind {A B} (m : C A) (f : A -> C B) :
  quiet m -> (forall a, quiet (f a)) -> quiet (m ≫= f).
Proof.
  intros Hm Hf c b c' H. apply bind_run in H as (a & c1 & H1 & H2).
  eapply same_trans; [by eapply Hm|by eapply Hf].
Qed.
Lemma quiet_ub {A} : quiet (ub : C A).
Proof. by intros c a c'. Qed.
Lemma quiet_gets {A} (f : conn -> A) : quiet (gets f).
Proof. intros c a c' [= <- <-]. apply same_refl. Qed.
Lemma quiet_of_option {A} (o : option A) : quiet (of_option o : C A).
Proof. intros c a c' H. destruct o; [|done]. injection H as <- <-. apply same_refl. Qed.
Lemma quiet_modify f : (forall c, same_slots c (f c)) -> quiet (modify f).
Proof. by intros H c a c' [= <- <-]. Qed.
Lemma quiet_when b m : quiet m -> quiet (when b m).
Proof. destruct b; [done|]. intros _. apply quiet_ret. Qed.

#[export] Hint Resolve quiet_ret quiet_bind quiet_ub quiet_gets quiet_of_option
  quiet_when : conn.

(** Goes through a computation by its shape. *)
Ltac quiet_go :=
  repeat match goal with
  | |- forall _, _ => intros ?
  | |- quiet (mret _) => apply quiet_ret
  | |- quiet (_ ≫= _) => apply quiet_bind
  | |- quiet ub => apply quiet_ub
  | |- quiet (gets _) => apply quiet_gets
  | |- quiet (of_option _) => apply quiet_of_option
  | |- quiet (modify _) => apply quiet_modify; intros; by repeat split; cbn; rewrite ?length_insert; try lia
  | |- quiet (when _ _) => apply quiet_when
  | |- quiet _ => solve [auto with conn nocore]
  | |- quiet (if ?b then _ else _) => destruct b
  | |- quiet (match ?x with _ => _ end) => destruct x
  | |- quiet (match ?x with _ => _ end _) => destruct x
  | |- quiet ((let (_, _) := ?x in _)) => destruct x
  | |- quiet (let '(_, _) := ?x in _) => destruct x
  | |- quiet _ => progress cbv zeta
  end.

Section Quiet.
Context (rand : nat -> Z) (mem_ok : nat -> bool) (observer : obs -> bool).

Lemma quiet_search mem len q : quiet (search mem len q).
Proof. unfold search. quiet_go. Qed.
Lemma quiet_value mem v : quiet (value mem v).
Proof. unfold value. quiet_go. Qed.
Lemma quiet_validate mem len : quiet (validate mem len).
Proof. unfold validate. quiet_go. Qed.
Lemma quiet_save n v : quiet (save n v).
Proof. unfold save. quiet_go. Qed.
#[local] Hint Resolve quiet_search quiet_value quiet_validate quiet_save : conn.
Lemma quiet_save_id n v : quiet (save_id n v).
Proof. unfold save_id. quiet_go. Qed.
Lemma quiet_call o : quiet (call observer o).
Proof. unfold call. quiet_go. Qed.
Lemma quiet_generate n : quiet (generateString rand n).
Proof.
  unfold generateString. generalize (n - 1)%nat. intros k.
  induction k as [|k IH]; cbn; quiet_go.
Qed.
Lemma quiet_sprintf n t : quiet (sprintf n t).
Proof. unfold sprintf. quiet_go. Qed.
Lemma quiet_send t : quiet (sendMessage t).
Proof. unfold sendMessage. quiet_go. Qed.
Lemma quiet_user_id cfg : quiet (user_id cfg).
Proof. unfold user_id. quiet_go. Qed.
Lemma quiet_handle_at p : quiet (handle_at p).
Proof. unfold handle_at. quiet_go. Qed.
Lemma quiet_malloc : quiet (malloc mem_ok).
Proof.
  unfold malloc. intros c a c' (p & c1 & [= <- <-] & H)%bind_run.
  destruct (mem_ok (next c)); [|done]. apply bind_run in H as (u & c2 & [= <- <-] & [= <- <-]).
  repeat split; cbn; lia.
Qed.
End Quiet.

#[export] Hint Resolve quiet_search quiet_value quiet_validate quiet_save quiet_save_id
  quiet_call quiet_generate quiet_sprintf quiet_send quiet_user_id quiet_handle_at
  quiet_malloc : conn.

(** ** Computations that keep the invariant *)

Definition kept {A} (m : C A) : Prop := forall o, keeps (I o) m.

Lemma quiet_kept {A} (m : C A) : quiet m -> kept m.
Proof. intros H o c a c' Hc Hm. by eapply I_same; [eapply H|]. Qed.

Lemma kept_bind {A B} (m : C A) (f : A -> C B) :
  kept m -> (forall a, kept (f a)) -> kept (m ≫= f).
Proof. intros Hm Hf o. apply keeps_bind; [apply Hm|intros a; apply Hf]. Qed.

Lemma kept_when b m : kept m -> kept (when b m).
Proof. intros H o. by apply keeps_when. Qed.

(** A new slot entry with a fresh transaction. *)
Lemma register_keeps o i id p :
  good_id id ->
  inv (fun c => I o c /\ fresh p c /\ apart p o) (register i id (slot_fn i) p) (fun _ => I o).
Proof.
  intros Hid c a c' ([Hw Ho] & [Hp Hf] & Ha) [= <- <-].
  destruct Hw as [H1 H2 H3 H4 H5 H6].
  assert (Hl : forall j s, <[i := mk_slot id (Some p)]> (mJanusTransactionMap c) !! j = Some s ->
    (j = i /\ s = mk_slot id (Some p)) \/ (j <> i /\ mJanusTransactionMap c !! j = Some s)).
  { intros j s Hj. apply list_lookup_insert_Some in Hj as [(-> & <- & _)|[Hne Hj]]; [by left|].
    right. done. }
  split; [split; cbn|].
  - by rewrite length_insert.
  - done.
  - done.
  - intros j s [[-> ->]|[Hne Hj]]%Hl Hs.
    + split; [done|]. exists p. split; [done|]. by rewrite lookup_insert_eq.
    + destruct (H4 j s Hj Hs) as [Hg (q & Hq & Ht)]. split; [done|]. exists q. split; [done|].
      rewrite lookup_insert_ne; [done|]. intros ->. by apply (Hf j s).
  - intros j s q [[-> ->]|[Hne Hj]]%Hl Hq; [by injection Hq as <-|by eapply H5].
  - intros j k s s' q [[-> ->]|[Hne Hj]]%Hl [[-> ->]|[Hnk Hk]]%Hl Hq Hq'; cbn in *;
      [done|injection Hq as <-|injection Hq' as <-|by eapply H6].
    + by destruct (Hf k s').
    + by destruct (Hf j s).
  - destruct o as [[q k]|]; cbn in *; [|done]. destruct Ho as [Hn Ho]. split; [done|].
    intros j s [[-> ->]|[Hne Hj]]%Hl Hq; cbn in *; [congruence|]. by eapply Ho.
Qed.

Section Kept.
Context (rand : nat -> Z) (mem_ok : nat -> bool) (observer : obs -> bool).

Lemma alphabet_nonzero x k : rd alphabet k = Some x -> x <> 0.
Proof.
  unfold rd. destruct (_ <=? _); [|done]. intros H.
  assert (Hall : Forall (fun c => c <> 0) alphabet).
  { apply (bool_decide_unpack _). by vm_compute. }
  exact (Forall_lookup_1 _ _ _ _ Hall H).
Qed.

Lemma generate_good c id c' :
  generateString rand RTC_JANUS_TRANSACTION_ID_LEN c = Some (id, c') -> good_id id.
Proof.
  unfold generateString, good_id. change (RTC_JANUS_TRANSACTION_ID_LEN - 1)%nat with 12%nat.
  generalize 12%nat. intros n. revert c id c'.
  induction n as [|n IH]; intros c id c' H; [by injection H as <- <-|].
  cbn in H. apply bind_run in H as (k & c1 & [= <- <-] & H).
  apply bind_run in H as (u & c2 & [= <- <-] & H).
  apply bind_run in H as (x & c3 & Hx & H).
  unfold of_option in Hx. destruct (rd _ _) eqn:E in Hx; [|done]. injection Hx as -> <-.
  apply bind_run in H as (l & c4 & Hl & [= <- <-]). apply IH in Hl as [Hl1 Hl2].
  split; [cbn; by rewrite Hl1|]. constructor; [by eapply alphabet_nonzero|done].
Qed.

(** Allocating, drawing an id and what follows up to the registration. *)
Lemma new_transaction_keeps o (rest : nat -> list Z -> C unit) :
  (forall p id, good_id id ->
     inv (fun c => I o c /\ fresh p c /\ apart p o) (rest p id) (fun _ => I o)) ->
  keeps (I o)
    (p ← malloc mem_ok; id ← generateString rand RTC_JANUS_TRANSACTION_ID_LEN; rest p id).
Proof.
  intros Hrest c a c' Hc H. apply bind_run in H as (p & c1 & Hm & H).
  apply bind_run in H as (id & c2 & Hg & H).
  assert (Hf : fresh p c1 /\ apart p o).
  { pose proof Hm as Hm'. unfold malloc in Hm'.
    apply bind_run in Hm' as (q & c3 & [= <- <-] & Hm').
    destruct (mem_ok (next c)); [|done].
    apply bind_run in Hm' as (u & c2' & [= <- <-] & [= E1 E2]). subst p c1.
    destruct Hc as [Hw Ho]. split; [split; cbn; [lia|]|].
    - intros i s Hi Hs. pose proof (wf_next _ Hw i s (next c) Hi Hs). lia.
    - destruct o as [[q k]|]; cbn in *; [|done]. lia. }
  eapply (Hrest p id (generate_good _ _ _ Hg)); [|exact H].
  pose proof (quiet_malloc mem_ok _ _ _ Hm) as S1.
  pose proof (quiet_generate rand _ _ _ _ Hg) as S2.
  split; [by eapply I_same, I_same|]. split; [|apply Hf]. eapply fresh_same; [done|apply Hf].
Qed.

(** The registration may come after computations that leave the slots alone. *)
Lemma register_after {A} o p (m : C A) (f : A -> C unit) :
  quiet m ->
  (forall a, inv (fun c => I o c /\ fresh p c /\ apart p o) (f a) (fun _ => I o)) ->
  inv (fun c => I o c /\ fresh p c /\ apart p o) (m ≫= f) (fun _ => I o).
Proof.
  intros Hm Hf. eapply inv_bind; [|exact Hf]. intros c a c' (H1 & H2 & H3) H.
  pose proof (Hm _ _ _ H) as Hs. split; [by eapply I_same|]. split; [by eapply fresh_same|done].
Qed.

Lemma register_then o i id p (m : C unit) :
  good_id id -> kept m ->
  inv (fun c => I o c /\ fresh p c /\ apart p o)
    (register i id (slot_fn i) p ;; m) (fun _ => I o).
Proof. intros Hid Hm. eapply inv_bind; [by apply register_keeps|]. intros ?. apply Hm. Qed.

Lemma createSession_kept : kept (createSession rand mem_ok).
Proof.
  intros o. apply new_transaction_keeps. intros p id Hid.
  apply register_after; [quiet_go|]. intros cfg. apply register_after; [quiet_go|]. intros text.
  apply (register_then o 0); [done|]. apply quiet_kept. quiet_go.
Qed.

Lemma createRoom_kept h : kept (createRoom rand mem_ok h).
Proof.
  intros o. apply new_transaction_keeps. intros p id Hid.
  apply register_after; [quiet_go|]. intros c. destruct (mNeedRoomID c); [by intros ? ? ? _|].
  cbv zeta. apply register_after; [quiet_go|]. intros text.
  apply (register_then o 2); [done|]. apply quiet_kept. quiet_go.
Qed.

Lemma publisherCreateHandle_kept : kept (publisherCreateHandle rand mem_ok).
Proof.
  intros o. apply new_transaction_keeps. intros p id Hid.
  apply register_after; [quiet_go|]. intros cfg. apply register_after; [quiet_go|]. intros text.
  apply (register_then o 1); [done|]. apply quiet_kept. quiet_go.
Qed.

Lemma subscriberCreateHandle_kept feed : kept (subscriberCreateHandle rand mem_ok feed).
Proof.
  intros o. apply new_transaction_keeps. intros p id Hid.
  apply register_after; [quiet_go|]. intros cfg. apply register_after; [quiet_go|]. intros text.
  apply register_after; [quiet_go|]. intros _.
  apply (register_then o 3); [done|]. apply quiet_kept. quiet_go.
Qed.

End Kept.

#[export] Hint Resolve createSession_kept createRoom_kept publisherCreateHandle_kept
  subscriberCreateHandle_kept : conn.

(** As [quiet_go], for computations that may register transactions. *)
Ltac kept_go :=
  repeat match goal with
  | |- forall _, _ => intros ?
  | |- kept _ => solve [auto with conn nocore]
  | |- kept _ => solve [apply quiet_kept; quiet_go]
  | |- kept (_ ≫= _) => apply kept_bind
  | |- kept (when _ _) => apply kept_when
  | |- kept (if ?b then _ else _) => destruct b
  | |- kept (match ?x with _ => _ end) => destruct x
  | |- kept (match ?x with _ => _ end _) => destruct x
  | |- kept (let '(_, _) := ?x in _) => destruct x
  | |- kept _ => progress cbv zeta
  end.

Section Replies.
Context (rand : nat -> Z) (mem_ok : nat -> bool) (observer : obs -> bool).

Lemma publisherJoinRoom_quiet h : quiet (publisherJoinRoom rand h).
Proof. unfold publisherJoinRoom. quiet_go. Qed.
Lemma subscriberJoinRoom_quiet h f : quiet (subscriberJoinRoom rand h f).
Proof. unfold subscriberJoinRoom. quiet_go. Qed.
Lemma new_handle_quiet i p h f g : quiet (new_handle i p h f g).
Proof. unfold new_handle. quiet_go. Qed.
#[local] Hint Resolve publisherJoinRoom_quiet subscriberJoinRoom_quiet new_handle_quiet : conn.

Lemma run_success_kept f mem len : kept (run_success rand mem_ok f mem len).
Proof.
  destruct f; cbn; unfold createSession_callback, publisherCreateHandle_callback,
    createRoom_callback, subscriberCreateHandle_callback; kept_go.
Qed.

Lemma onEvent_kept mem len : kept (onEvent rand mem_ok observer mem len).
Proof.
  unfold onEvent, onEvent_leaving, onEvent_unpublished, onEvent_joined, onEvent_jsep,
    onEvent_nacks, onEvent_error, onEvent_publisher, onPublisherJoined_callback,
    onPublisherRemoteJsep_callback, subscriberHandleRemoteJsep_callback. kept_go.
Qed.

Lemma onSessionEvent_kept mem len : kept (onSessionEvent observer mem len).
Proof. unfold onSessionEvent, onSessionEvent_recvdata, nonempty. kept_go. Qed.

(** Clearing a slot and freeing what it alone points to. *)
Lemma clear_free_keeps o p i :
  inv (fun c => I o c /\ I (Some (p, i)) c) (clear_slot i ;; free_transaction p)
    (fun _ => I o).
Proof.
  intros c a c' [[Hw Ho] [_ [Hp Hon]]] H.
  apply bind_run in H as (u & c1 & [= <- <-] & H).
  apply bind_run in H as (ts & c1 & [= <- <-] & H).
  apply bind_run in H as (t & c1 & Ht & [= <- <-]).
  assert (c1 = set_mJanusTransactionMap (alter (fun s => mk_slot [] (jt s)) i
    (mJanusTransactionMap c)) c) as ->.
  { unfold of_option in Ht. destruct (_ !! p) in Ht; [by injection Ht|done]. }
  clear Ht. destruct Hw as [H1 H2 H3 H4 H5 H6].
  assert (Hl : forall j s, alter (fun s => mk_slot [] (jt s)) i (mJanusTransactionMap c) !! j
    = Some s -> exists s0, mJanusTransactionMap c !! j = Some s0 /\ jt s = jt s0 /\
    (jtId s <> [] -> j <> i /\ s = s0)).
  { intros j s Hj. destruct (decide (j = i)) as [->|Hne].
    - rewrite list_lookup_alter_eq in Hj. destruct (_ !! i) as [s0|] eqn:E; [|done].
      injection Hj as <-. exists s0. cbn. done.
    - rewrite list_lookup_alter_ne in Hj by done. by exists s. }
  split; [split; cbn|].
  - by rewrite length_alter.
  - done.
  - done.
  - intros j s (s0 & Hj & Ejt & Hid)%Hl Hs. destruct (Hid Hs) as [Hne ->].
    destruct (H4 j s0 Hj Hs) as [Hg (q & Hq & Ht)]. split; [done|]. exists q. split; [done|].
    rewrite lookup_delete_ne; [done|]. intros ->. apply Hne. by eapply Hon.
  - intros j s q (s0 & Hj & Ejt & _)%Hl Hq. rewrite Ejt in Hq. by eapply H5.
  - intros j k s s' q (s0 & Hj & Ej & _)%Hl (s1 & Hk & Ek & _)%Hl Hq Hq'.
    rewrite Ej in Hq. rewrite Ek in Hq'. by eapply H6.
  - destruct o as [[q k]|]; cbn in *; [|done]. destruct Ho as [? Ho]. split; [done|].
    intros j s (s0 & Hj & Ejt & _)%Hl Hq. rewrite Ejt in Hq. by eapply Ho.
Qed.

(** In a well-formed connection the owner of a slot's pointer is the slot. *)
Lemma slot_owner o c i s p :
  I o c -> mJanusTransactionMap c !! i = Some s -> jt s = Some p -> I (Some (p, i)) c.
Proof.
  intros [Hw _] Hi Hp. split; [done|]. split; [by eapply (wf_next _ Hw)|].
  intros j s' Hj Hp'. by eapply (wf_alone _ Hw).
Qed.

Lemma on_success_kept trans mem len : kept (on_success rand mem_ok trans mem len).
Proof.
  intros o c a c' Hc H. unfold on_success in H.
  apply bind_run in H as (l & c1 & [= <- <-] & H).
  destruct (list_find _ _) as [[i s]|] eqn:E; [|by injection H as _ <-].
  apply list_find_Some in E as (Hi & _ & _).
  apply bind_run in H as (p & c1 & Hp & H).
  unfold of_option in Hp. destruct (jt s) as [q|] eqn:Ejt; [|done]. injection Hp as -> <-.
  apply bind_run in H as (ts & c1 & [= <- <-] & H).
  apply bind_run in H as (t & c1 & Ht & H). unfold of_option in Ht.
  destruct (_ !! p) in Ht; [|done]. injection Ht as -> <-.
  apply bind_run in H as (u & c1 & Hr & H).
  eapply clear_free_keeps; [|exact H].
  split; (eapply run_success_kept; [|exact Hr]); [done|by eapply slot_owner].
Qed.

Lemma on_error_kept trans : kept (on_error trans).
Proof.
  intros o c a c' Hc H. unfold on_error in H.
  apply bind_run in H as (l & c1 & [= <- <-] & H).
  destruct (list_find _ _) as [[i s]|] eqn:E; [|by injection H as _ <-].
  apply list_find_Some in E as (Hi & _ & _).
  apply bind_run in H as (p & c1 & Hp & H).
  unfold of_option in Hp. destruct (jt s) as [q|] eqn:Ejt; [|done]. injection Hp as -> <-.
  apply bind_run in H as (ts & c1 & [= <- <-] & H).
  apply bind_run in H as (t & c1 & Ht & H). unfold of_option in Ht.
  destruct (_ !! p) in Ht; [|done]. injection Ht as -> <-.
  eapply clear_free_keeps; [|exact H]. split; [done|by eapply slot_owner].
Qed.

#[local] Hint Resolve run_success_kept onEvent_kept onSessionEvent_kept on_success_kept
  on_error_kept : conn.

Lemma onRTCMessage_kept mem len : kept (onRTCMessage rand mem_ok observer mem len).
Proof. unfold onRTCMessage, sender_id, on_media, on_slowlink. kept_go. Qed.

Lemma client_event_kept ev : kept (RTCConnection_baidurtc_client rand mem_ok observer ev).
Proof.
  destruct ev; cbn; unfold onRTCOpen, onRTCClosed; kept_go. apply onRTCMessage_kept.
Qed.

End Replies.

(** ** Predicates that a computation keeps *)

Create HintDb conn_keep.

(** Goes through a computation, keeping a predicate. *)
Ltac keeps_go :=
  repeat match goal with
  | |- forall _, _ => intros ?
  | |- keeps _ (mret _) => apply keeps_ret
  | |- keeps _ (_ ≫= _) => apply keeps_bind
  | |- keeps _ ub => apply keeps_ub
  | |- keeps _ (gets _) => apply keeps_gets
  | |- keeps _ (of_option _) => apply keeps_of_option
  | |- keeps _ (modify _) => apply keeps_modify; intros ? ?; first [done | solve [auto with conn_keep nocore]]
  | |- keeps _ (when _ _) => apply keeps_when
  | |- keeps _ _ => solve [auto with conn_keep nocore]
  | |- keeps _ (if ?b then _ else _) => destruct b
  | |- keeps _ (match ?x with _ => _ end) => destruct x
  | |- keeps _ (match ?x with _ => _ end _) => destruct x
  | |- keeps _ _ => progress cbv zeta
  end.

Lemma search_keeps P mem len q : keeps P (search mem len q).
Proof. unfold search. keeps_go. Qed.
Lemma value_keeps P mem v : keeps P (value mem v).
Proof. unfold value. keeps_go. Qed.
Lemma validate_keeps P mem len : keeps P (validate mem len).
Proof. unfold validate. keeps_go. Qed.
Lemma save_keeps P n v : keeps P (save n v).
Proof. unfold save. keeps_go. Qed.
Lemma save_id_keeps P n v : keeps P (save_id n v).
Proof. unfold save_id, save. keeps_go. Qed.
Lemma sprintf_keeps P n v : keeps P (sprintf n v).
Proof. unfold sprintf. keeps_go. Qed.
Lemma user_id_keeps P cfg : keeps P (user_id cfg).
Proof. unfold user_id. keeps_go. Qed.
Lemma handle_at_keeps P p : keeps P (handle_at p).
Proof. unfold handle_at. keeps_go. Qed.
#[export] Hint Resolve search_keeps value_keeps validate_keeps save_keeps save_id_keeps
  sprintf_keeps user_id_keeps handle_at_keeps : conn_keep.
