(* ===== verification/RtcConnectionProps.v ===== *)
(** * Properties of the signalling connection

    The events and calls a connection sees and the states they reach; replies
    reach the callback of their transaction; what a session reply does; and
    the messages on which the code misbehaves. *)

From stdpp Require Import gmap.
From S2P Require Import Prelude Effects Libc CoreJson Mbuf RtcConnection RtcConnectionInv.
Import Json Conn.

(** ** What a connection goes through *)

(** The web socket's events and the calls of the client. *)
Inductive op :=
| Event (ev : ws_event)
| Connecting (url : list Z) (opened : bool)
| Failure
| KeepAlive
| CreateOffer (h : Z) (desc : list Z)
| Trickle (h : Z) (candidate : list Z)
| TrickleComplete (h : Z)
| Subscribe (feed : Z)
| CreateAnswer (h : Z) (desc : list Z)
| Config (h : Z) (audio video data : bool)
| SendToUser (msg : list Z) (to_ : Z) (internal : bool)
| Unpublish (h : Z)
| Detach (h : Z)
| Disconnect (live : bool)
| Configure (cfg : settings)
| SetFeedId (feed : Z).

Section Runs.
Context (rand : nat -> Z) (mem_ok : nat -> bool) (observer : obs -> bool).

Definition exec (o : op) : C unit :=
  match o with
  | Event ev => RTCConnection_baidurtc_client rand mem_ok observer ev
  | Connecting url opened => connecting observer url opened
  | Failure => onRTCFailure observer
  | KeepAlive => keepAlive rand
  | CreateOffer h d => publisherCreateOffer rand h d
  | Trickle h d => trickleCandicate rand h d
  | TrickleComplete h => trickleCandicateComplete rand h
  | Subscribe feed => subscriberCreateHandle rand mem_ok feed
  | CreateAnswer h d => subscriberCreateAnswer rand h d
  | Config h a v d => subscriberConfig rand h a v d
  | SendToUser m t i => sendMessageToUser rand m t i
  | Unpublish h => unpublish rand h
  | Detach h => detach rand h
  | Disconnect live => disconnect observer live
  | Configure cfg => modify (set_mCfg cfg)
  | SetFeedId feed => modify (set_mFeedId feed)
  end.

Inductive reachable : conn -> Prop :=
| reach_init : reachable FRTCConnection_construct
| reach_step c o a c' : reachable c -> exec o c = Some (a, c') -> reachable c'.

Lemma exec_kept o : kept (exec o).
Proof.
  destruct o; cbn [exec]; [apply client_event_kept|..];
    unfold connecting, onRTCFailure, keepAlive, publisherCreateOffer, trickleCandicate,
      trickleCandicateComplete, subscriberCreateAnswer, subscriberConfig, sendMessageToUser,
      unpublish, detach, disconnect, onRTCClosed; kept_go.
Qed.

Lemma construct_wf : wf FRTCConnection_construct.
Proof.
  assert (Hs : forall i s, mJanusTransactionMap FRTCConnection_construct !! i = Some s ->
    s = mk_slot [] None).
  { intros i s Hi. by apply lookup_replicate in Hi as [-> _]. }
  split; try done.
  - by intros i s ->%Hs.
  - by intros i s p ->%Hs.
  - by intros i j s s' p ->%Hs.
Qed.

Lemma connection_wf c : reachable c -> wf c.
Proof.
  induction 1 as [|c o a c' _ IH Hx]; [apply construct_wf|].
  by destruct (exec_kept o None c a c' (conj IH Logic.I) Hx).
Qed.
End Runs.

(** ** What a message says *)

Definition lookup_json (mem : list Z) (len : Z) (q : String.string) :=
  JSON_Search (Some mem) len (Some (bytes_of q)) (zlen (bytes_of q)) true.

(** The message has the value [v] under the query [q]. *)
Definition finds (mem : list Z) (len : Z) (q : String.string) (v : list Z) : Prop :=
  exists i n, lookup_json mem len q = Some (JSONSuccess, Some (i, n)) /\
  Mb.slice mem i n = Some v.

Definition lacks (mem : list Z) (len : Z) (q : String.string) : Prop :=
  exists r o, lookup_json mem len q = Some (r, o) /\ r <> JSONSuccess.

Definition valid (mem : list Z) (len : Z) : Prop :=
  JSON_Validate (Some mem) len = Some JSONSuccess.

Lemma search_finds mem len q v :
  finds mem len q v -> exists i n, (forall c, search mem len q c = Some (Some (i, n), c)) /\
  forall c, value mem (Some (i, n)) c = Some (v, c).
Proof.
  intros (i & n & Hs & Hv). exists i, n. split; intros c.
  - unfold search. fold (lookup_json mem len q). by rewrite Hs.
  - cbn. by rewrite Hv.
Qed.

Lemma search_lacks mem len q c : lacks mem len q -> search mem len q c = Some (None, c).
Proof.
  intros (r & o & Hs & Hr). unfold search. fold (lookup_json mem len q). rewrite Hs.
  by destruct r.
Qed.

Lemma validate_valid mem len c : valid mem len -> validate mem len c = Some (true, c).
Proof. unfold valid, validate. by intros ->. Qed.

Lemma bind_step {A B} (m : C A) (f : A -> C B) c a c' :
  m c = Some (a, c') -> (m ≫= f) c = f a c'.
Proof. unfold mbind, M_bind. by intros ->. Qed.

Ltac step H := erewrite bind_step; [|exact H]; cbv beta iota.
Ltac gets_step := erewrite bind_step; [|reflexivity]; cbv beta iota.

Section Claims.
Context (rand : nat -> Z) (mem_ok : nat -> bool) (observer : obs -> bool).

(** The dispatch of a valid message by its kind. *)
Lemma message_success mem len c trans :
  mRTCConnected c = true -> valid mem len -> finds mem len "janus" (bytes_of "success") ->
  finds mem len "transaction" trans \/ (lacks mem len "transaction" /\ trans = []) ->
  onRTCMessage rand mem_ok observer mem len c = on_success rand mem_ok trans mem len c.
Proof.
  intros Hc Hv Hj Ht. unfold onRTCMessage. gets_step. rewrite Hc. cbn [negb].
  step (validate_valid mem len c Hv). cbn [negb].
  destruct (search_finds _ _ _ _ Hj) as (i & n & Hs & Hval). step (Hs c). step (Hval c).
  destruct Ht as [Ht|[Ht ->]].
  - destruct (search_finds _ _ _ _ Ht) as (i' & n' & Hs' & Hval').
    step (Hs' c). step (Hval' c). done.
  - step (search_lacks mem len "transaction" c Ht). done.
Qed.

(** A slot whose id matches a full transaction id has exactly this id. *)
Lemma slot_match_id c i s id :
  wf c -> mJanusTransactionMap c !! i = Some s -> good_id id ->
  slot_match id s <-> jtId s = id.
Proof.
  intros Hw Hi [Hl Hnz]. unfold slot_match. destruct (decide (jtId s = [])) as [E|E].
  - rewrite E. destruct id as [|x id]; [done|]. cbn.
    apply Forall_cons_1 in Hnz as [Hx _]. split; [|done].
    intros Hb%Z.eqb_eq. done.
  - destruct (wf_live _ Hw i s Hi E) as [[Hl' _] _].
    rewrite strn_eq_same by (done || congruence). apply bool_decide_eq_true.
Qed.

(** C11: the reply to a transaction reaches its callback, once: in every
    state the connection can be in, a valid success message with a complete
    transaction id either is ignored (no slot has this id), or runs the
    callback that belongs to the first slot with this id, on a transaction
    that is alive, and then clears the slot and frees the transaction. *)
Theorem reply_reaches_its_callback c mem len id
  (Hr : reachable rand mem_ok observer c) (Hc : mRTCConnected c = true)
  (Hv : valid mem len) (Hj : finds mem len "janus" (bytes_of "success"))
  (Ht : finds mem len "transaction" id) (Hid : good_id id) :
  ((forall i s, mJanusTransactionMap c !! i = Some s -> jtId s <> id) /\
   onRTCMessage rand mem_ok observer mem len c = Some (tt, c)) \/
  exists i s p, mJanusTransactionMap c !! i = Some s /\ jtId s = id /\ jt s = Some p /\
    transactions c !! p = Some (mk_jt id (slot_fn i)) /\
    onRTCMessage rand mem_ok observer mem len c
      = (run_success rand mem_ok (slot_fn i) mem len ;;
         clear_slot i ;; free_transaction p) c.
Proof.
  pose proof (connection_wf _ _ _ c Hr) as Hw.
  rewrite (message_success mem len c id Hc Hv Hj (or_introl Ht)). unfold on_success. gets_step.
  destruct (list_find _ _) as [[i s]|] eqn:E.
  - right. apply list_find_Some in E as (Hi & Hm & _).
    apply (slot_match_id c i s id Hw Hi Hid) in Hm.
    assert (Hne : jtId s <> []) by (rewrite Hm; by destruct Hid as [? _], id).
    destruct (wf_live _ Hw i s Hi Hne) as (_ & p & Hp & Htr). rewrite Hm in Htr.
    exists i, s, p. split_and!; try done. rewrite Hp. gets_step. gets_step. rewrite Htr.
    by gets_step.
  - left. split; [|done]. intros i s Hi Hs. apply list_find_None in E.
    apply (Forall_lookup_1 _ _ _ _ E Hi). by apply (slot_match_id c i s id Hw Hi Hid).
Qed.

(** A success message that names no transaction crashes an idle client:
    the comparison with an empty id matches the first slot, whose pointer is
    NULL before the session is created and dangling after the reply to its
    transaction was handled. *)
Theorem anonymous_success_crashes c mem len s
  (Hc : mRTCConnected c = true) (Hv : valid mem len)
  (Hj : finds mem len "janus" (bytes_of "success"))
  (Ht : finds mem len "transaction" [] \/ lacks mem len "transaction")
  (Hs : mJanusTransactionMap c !! 0%nat = Some s)
  (Hidle : forall p, jt s = Some p -> transactions c !! p = None) :
  onRTCMessage rand mem_ok observer mem len c = None.
Proof.
  rewrite (message_success mem len c []); [|done..|tauto].
  unfold on_success. gets_step. destruct (mJanusTransactionMap c) as [|s0 l]; [done|].
  injection Hs as ->. cbn [list_find]. rewrite decide_True by done. cbv iota.
  destruct (jt s) as [p|]; [|done]. gets_step. gets_step. by rewrite (Hidle p eq_refl).
Qed.

(** ** The session reply *)

Lemma gen_run n c : exists l, generate_chars rand n c = Some (l, set_rands (rands c + n)%nat c).
Proof.
  revert c. induction n as [|n IH]; intros c.
  - exists []. cbn. unfold mret, M_ret. rewrite Nat.add_0_r. by destruct c.
  - cbn [generate_chars]. gets_step. gets_step.
    pose proof (Z.mod_pos_bound (rand (rands c)) 62 ltac:(lia)) as Hk.
    destruct (rd alphabet (rand (rands c) mod 62)) as [x|] eqn:Ex.
    + step (eq_refl (Some (x, set_rands (S (rands c)) c))).
      destruct (IH (set_rands (S (rands c)) c)) as [l Hl]. step Hl.
      exists (x :: l). unfold mret, M_ret. do 2 f_equal. destruct c; unfold set_rands; cbn.
      by rewrite Nat.add_succ_r.
    + exfalso. unfold rd in Ex. rewrite (proj2 (Z.leb_le _ _)) in Ex by lia.
      apply lookup_ge_None in Ex. change (length alphabet) with 62%nat in Ex. lia.
Qed.

Lemma attach_length id session : length id = 12%nat -> zlen (attach_text id session) < DEFAULT_SIZE.
Proof.
  intros Hl. pose proof (lld_length session). unfold attach_text, zlen, DEFAULT_SIZE in *.
  rewrite !length_app, Hl.
  change (length (json_text "{'janus':'attach','plugin':'janus.plugin.videoroom','transaction':'"))
    with 67%nat.
  change (length (json_text "','session_id': ")) with 16%nat.
  change (length (json_text "}")) with 1%nat. lia.
Qed.

(** The request for a plugin handle, from a connected state. *)
Lemma publisherCreateHandle_run c :
  mem_ok (next c) = true -> mRTCConnected c = true ->
  exists id, good_id id /\ publisherCreateHandle rand mem_ok c = Some (tt,
    set_sent (sent c ++ [attach_text id (mSessionId c)])
      (set_transactions (<[next c := mk_jt id publisherCreateHandle_fn]> (transactions c))
      (set_mJanusTransactionMap (<[1%nat := mk_slot id (Some (next c))]> (mJanusTransactionMap c))
      (set_rands (rands c + 12)%nat (set_next (S (next c)) c))))).
Proof.
  intros Hm Hc. unfold publisherCreateHandle. unfold malloc at 1.
  destruct (gen_run 12 (set_next (S (next c)) c)) as [id Hid].
  pose proof (generate_good rand _ _ _ Hid) as Hg. exists id. split; [done|].
  erewrite bind_step; [|gets_step; rewrite Hm; gets_step; reflexivity]. cbv beta.
  step Hid. gets_step. unfold sprintf.
  change (mSessionId (set_rands _ _)) with (mSessionId c).
  rewrite (proj2 (Z.ltb_lt _ _)) by (apply attach_length; apply Hg).
  gets_step. gets_step. unfold sendMessage. gets_step. cbn [mRTCConnected set_transactions
    set_mJanusTransactionMap set_rands set_next]. rewrite Hc. done.
Qed.

Lemma save_id_lld mem len z c :
  0 <= z < 2 ^ 63 -> finds mem len "data.id" (lld z) ->
  exists i n, (forall c, search mem len "data.id" c = Some (Some (i, n), c)) /\
  (forall c, value mem (Some (i, n)) c = Some (lld z, c)) /\
  save_id MIN_SIZE (lld z) c = Some (z, c).
Proof.
  intros Hz Hf. destruct (search_finds _ _ _ _ Hf) as (i & n & Hs & Hv). exists i, n.
  split; [done|]. split; [done|]. unfold save_id, save. pose proof (lld_length z) as Hl.
  rewrite strncpy_exact by (apply lld_nonzero || (unfold MIN_SIZE; lia)). gets_step.
  assert (exists k, (MIN_SIZE - length (lld z) = S k)%nat) as [k ->].
  { exists (49 - length (lld z))%nat. unfold MIN_SIZE, zlen in *. lia. }
  cbn [replicate]. rewrite atoll_lld by done. gets_step. unfold mret, M_ret.
  rewrite i64_small by lia. by rewrite u64_small by lia.
Qed.

(** The reply to the session request establishes the session: on a valid
    success message with the id of the pending session request and a numeric
    session id, the connection stores this id, asks for a plugin handle in
    this session under a new transaction of slot 1, and retires the request
    of slot 0. *)
Theorem session_created c mem len id p sid
  (Hr : reachable rand mem_ok observer c) (Hc : mRTCConnected c = true)
  (Hm : mem_ok (next c) = true)
  (Hv : valid mem len) (Hlen : strlen mem = Some len)
  (Hj : finds mem len "janus" (bytes_of "success"))
  (Ht : finds mem len "transaction" id) (Hid : id <> [])
  (Hslot : mJanusTransactionMap c !! 0%nat = Some (mk_slot id (Some p)))
  (Hsid : 0 <= sid < 2 ^ 63) (Hd : finds mem len "data.id" (lld sid))
  (Hst : lacks mem len "standalone") (Hver : lacks mem len "data.version") :
  exists id' c', onRTCMessage rand mem_ok observer mem len c = Some (tt, c') /\
    mSessionId c' = sid /\ good_id id' /\ sent c' = sent c ++ [attach_text id' sid] /\
    mJanusTransactionMap c' !! 1%nat = Some (mk_slot id' (Some (next c))) /\
    transactions c' !! next c = Some (mk_jt id' publisherCreateHandle_fn) /\
    mJanusTransactionMap c' !! 0%nat = Some (mk_slot [] (Some p)) /\
    transactions c' !! p = None.
Proof.
  pose proof (connection_wf _ _ _ c Hr) as Hw.
  destruct (wf_live _ Hw 0 _ Hslot Hid) as (Hg & q & [= <-] & Htr).
  pose proof (wf_next _ Hw 0 _ p Hslot eq_refl) as Hnext.
  rewrite (message_success mem len c id Hc Hv Hj (or_introl Ht)). unfold on_success. gets_step.
  pose proof (wf_slots _ Hw) as Hlens. unfold RTC_JANUS_TRANSACTION_MAP_LEN in Hlens.
  assert (Hfind : list_find (slot_match id) (mJanusTransactionMap c)
    = Some (0%nat, mk_slot id (Some p))).
  { apply list_find_Some. split_and!; [done|by apply (slot_match_id c 0 _ id Hw Hslot Hg)|].
    intros j y _ Hj0. lia. }
  rewrite Hfind. cbn [jt]. gets_step. gets_step. rewrite Htr. gets_step.
  cbn [onSuccess slot_fn run_success].
  destruct (save_id_lld mem len sid c Hsid Hd) as (i & n & Hs & Hval & Hsave).
  set (c1 := set_mSessionId sid c).
  assert (Hcb : createSession_callback rand mem_ok mem c = publisherCreateHandle rand mem_ok c1).
  { unfold createSession_callback. rewrite Hlen. gets_step. step (validate_valid mem len c Hv).
    cbn [negb]. step (Hs c).
    erewrite bind_step; [|rewrite (bind_step _ _ _ _ _ (Hval c)), (bind_step _ _ _ _ _ Hsave);
      reflexivity].
    cbv beta. step (search_lacks mem len "standalone" c1 Hst). gets_step.
    step (search_lacks mem len "data.version" c1 Hver). by gets_step. }
  destruct (publisherCreateHandle_run c1 Hm Hc) as (id' & Hg' & Hrun).
  erewrite bind_step; [|rewrite Hcb; exact Hrun]. cbv beta.
  unfold clear_slot, free_transaction. gets_step. gets_step.
  cbn [transactions set_mJanusTransactionMap set_sent set_transactions set_rands set_next].
  change (next c1) with (next c). change (transactions c1) with (transactions c).
  rewrite lookup_insert_ne by lia. rewrite Htr. gets_step. exists id'. eexists.
  split; [reflexivity|]. cbn [mSessionId transactions set_mJanusTransactionMap set_sent
    set_transactions set_rands set_next sent mJanusTransactionMap].
  change (mJanusTransactionMap c1) with (mJanusTransactionMap c).
  split_and!; try done.
  - rewrite list_lookup_alter_ne by done. rewrite list_lookup_insert_eq by lia. done.
  - rewrite lookup_delete_ne, lookup_insert_eq by lia. done.
  - rewrite list_lookup_alter_eq, list_lookup_insert_ne, Hslot by done. done.
  - by rewrite lookup_delete_eq.
Qed.

(** A session reply is lost when something follows it in the receive
    buffer: the callback measures the message with [strlen] and not with the
    length it was given; when the longer text is not valid JSON (the next
    frame has already arrived), the reply is consumed without creating the
    session and without a new request. *)
Theorem session_reply_lost c mem len len2 r id p
  (Hr : reachable rand mem_ok observer c) (Hc : mRTCConnected c = true)
  (Hv : valid mem len) (Hj : finds mem len "janus" (bytes_of "success"))
  (Ht : finds mem len "transaction" id) (Hid : id <> [])
  (Hslot : mJanusTransactionMap c !! 0%nat = Some (mk_slot id (Some p)))
  (Hlen : strlen mem = Some len2)
  (Hbad : JSON_Validate (Some mem) len2 = Some r) (Hrne : r <> JSONSuccess) :
  exists c', onRTCMessage rand mem_ok observer mem len c = Some (tt, c') /\
    mSessionId c' = mSessionId c /\ sent c' = sent c /\ seen c' = seen c /\
    mJanusTransactionMap c' !! 0%nat = Some (mk_slot [] (Some p)).
Proof.
  pose proof (connection_wf _ _ _ c Hr) as Hw.
  destruct (wf_live _ Hw 0 _ Hslot Hid) as (Hg & q & [= <-] & Htr).
  rewrite (message_success mem len c id Hc Hv Hj (or_introl Ht)). unfold on_success. gets_step.
  assert (Hfind : list_find (slot_match id) (mJanusTransactionMap c)
    = Some (0%nat, mk_slot id (Some p))).
  { apply list_find_Some. split_and!; [done|by apply (slot_match_id c 0 _ id Hw Hslot Hg)|].
    intros j y _ Hj0. lia. }
  rewrite Hfind. cbn [jt]. gets_step. gets_step. rewrite Htr. gets_step.
  cbn [onSuccess slot_fn run_success].
  assert (Hcb : createSession_callback rand mem_ok mem c = Some (tt, c)).
  { unfold createSession_callback. rewrite Hlen. gets_step. unfold validate at 1.
    rewrite Hbad. erewrite bind_step; [|gets_step; reflexivity]. cbv beta.
    by rewrite bool_decide_eq_false_2. }
  step Hcb. unfold clear_slot, free_transaction. gets_step. gets_step. 
  change (transactions (set_mJanusTransactionMap _ c)) with (transactions c). rewrite Htr.
  gets_step. eexists. split; [reflexivity|]. cbn. rewrite list_lookup_alter_eq, Hslot. done.
Qed.

(** A client of a standalone server crashes: once the server has asked
    for numeric room ids, every well-formed reply to the handle request makes
    the client format the room number as a character pointer. *)
Theorem standalone_room_crashes c mem len h
  (Hn : mNeedRoomID c = true) (Hv : valid mem len) (Hlen : strlen mem = Some len)
  (Hh : 0 <= h < 2 ^ 63) (Hd : finds mem len "data.id" (lld h)) :
  run_success rand mem_ok publisherCreateHandle_fn mem len c = None.
Proof.
  cbn. unfold publisherCreateHandle_callback. rewrite Hlen. gets_step.
  step (validate_valid mem len c Hv). cbn [negb].
  destruct (save_id_lld mem len h c Hh Hd) as (i & n & Hs & Hval & Hsave).
  step (Hs c). step (Hval c). step Hsave. unfold createRoom, malloc.
  destruct (mem_ok (next c)) eqn:Em; cycle 1.
  { unfold mbind at 1, M_bind. unfold mbind at 1, M_bind. cbn. by rewrite Em. }
  erewrite bind_step; [|gets_step; rewrite Em; gets_step; reflexivity]. cbv beta.
  destruct (gen_run 12 (set_next (S (next c)) c)) as [id Hid].
  step Hid. gets_step. change (mNeedRoomID _) with (mNeedRoomID c). by rewrite Hn.
Qed.

(** ** Media reports and the server version *)

(** The observer was never told that media is being sent, and the version is
    the initial one or a dangling pointer. *)
Definition quirks (c : conn) : Prop :=
  (forall h t, onRTCMediaStreamingEvent h t true ∉ seen c) /\
  (mBRTCServerVersion c = None \/ mBRTCServerVersion c = Some (bytes_of "brtc_v0")).

Lemma version_dropped c : quirks c -> quirks (set_mBRTCServerVersion None c).
Proof. intros [H _]. split; [exact H|by left]. Qed.
#[local] Hint Resolve version_dropped : conn_keep.

Lemma call_keeps_media o :
  (forall h t, o <> onRTCMediaStreamingEvent h t true) -> keeps quirks (call observer o).
Proof.
  intros Ho. unfold call. destruct (observer o); [|apply keeps_ub].
  apply keeps_modify. intros c [Hc Hv]. split; [|exact Hv]. intros h t Hin. cbn in Hin.
  apply elem_of_app in Hin as [Hin|Hin%list_elem_of_singleton]; [by eapply Hc|by eapply Ho].
Qed.
#[local] Hint Extern 1 (keeps quirks (call _ _)) =>
  apply call_keeps_media; done : conn_keep.

Lemma generate_keeps n : keeps quirks (generateString rand n).
Proof.
  unfold generateString. generalize (n - 1)%nat. intros k.
  induction k as [|k IH]; cbn [generate_chars]; keeps_go.
Qed.
Lemma malloc_keeps : keeps quirks (malloc mem_ok).
Proof. unfold malloc. keeps_go. Qed.
Lemma send_keeps text : keeps quirks (sendMessage text).
Proof. unfold sendMessage. keeps_go. Qed.
#[local] Hint Resolve generate_keeps malloc_keeps send_keeps : conn_keep.

Lemma run_success_keeps f mem len :
  keeps quirks (run_success rand mem_ok f mem len).
Proof.
  destruct f; cbn; unfold createSession_callback, publisherCreateHandle_callback,
    createRoom_callback, subscriberCreateHandle_callback, publisherCreateHandle, createRoom,
    publisherJoinRoom, subscriberJoinRoom, new_handle, register; keeps_go.
Qed.

(** A kind that is dispatched to the media branch is not "true". *)
Lemma media_not_true janus :
  lit "success" janus = false -> lit "media" janus = true -> lit "true" janus = false.
Proof.
  destruct janus as [|x l]; [done|]. unfold lit. intros _.
  change (bytes_of "media") with [109; 101; 100; 105; 97].
  change (bytes_of "true") with [116; 114; 117; 101]. cbn [strn_eq].
  by destruct (Z.eqb_spec 109 x) as [<-|].
Qed.

Lemma on_media_keeps janus mem len :
  lit "true" janus = false -> keeps quirks (on_media observer janus mem len).
Proof.
  intros H. unfold on_media. rewrite H. keeps_go;
    apply call_keeps_media; intros h t; repeat case_match; congruence.
Qed.

Lemma onRTCMessage_keeps mem len :
  keeps quirks (onRTCMessage rand mem_ok observer mem len).
Proof.
  unfold onRTCMessage. apply keeps_bind; [apply keeps_gets|]. intros [|]; cbn [negb]; [|keeps_go].
  apply keeps_bind; [auto with conn_keep|]. intros [|]; cbn [negb]; [|keeps_go].
  apply keeps_bind; [auto with conn_keep|]. intros [v|]; [|keeps_go].
  apply keeps_bind; [auto with conn_keep|]. intros janus.
  apply keeps_bind; [auto with conn_keep|]. intros t.
  apply keeps_bind; [auto with conn_keep|]. intros trans.
  destruct (lit "success" janus) eqn:Es.
  { unfold on_success, clear_slot, free_transaction. keeps_go; apply run_success_keeps. }
  destruct (lit "error" janus).
  { unfold on_error, clear_slot, free_transaction. keeps_go. }
  destruct (lit "event" janus).
  { unfold onEvent, onEvent_leaving, onEvent_unpublished, onEvent_joined, onEvent_jsep,
      onEvent_nacks, onEvent_error, onEvent_publisher, onPublisherJoined_callback,
      onPublisherRemoteJsep_callback, subscriberHandleRemoteJsep_callback,
      subscriberCreateHandle, register. keeps_go. }
  destruct (lit "ack" janus); [keeps_go|].
  destruct (lit "sessionevent" janus).
  { unfold onSessionEvent, onSessionEvent_recvdata, nonempty. keeps_go. }
  destruct (lit "webrtcup" janus); [unfold sender_id; keeps_go|].
  destruct (lit "media" janus) eqn:Em; [apply on_media_keeps; by apply media_not_true|].
  unfold sender_id, on_slowlink. keeps_go.
Qed.

Lemma reachable_quirks c : reachable rand mem_ok observer c -> quirks c.
Proof.
  induction 1 as [|c o a c' _ IH Hx]; [split; [intros h t; apply not_elem_of_nil|by right]|].
  revert a c' Hx. assert (Hk : keeps quirks (exec rand mem_ok observer o)); [|by eauto].
  destruct o as [[]| | | | | | | | | | | | | | |]; cbn [exec RTCConnection_baidurtc_client];
    try apply onRTCMessage_keeps;
    unfold onRTCOpen, disconnect, onRTCClosed, createSession, connecting, onRTCFailure, keepAlive,
      publisherCreateOffer, trickleCandicate, trickleCandicateComplete, subscriberCreateHandle,
      subscriberCreateAnswer, subscriberConfig, sendMessageToUser, unpublish, detach,
      register; keeps_go.
Qed.

(** The observer is never told that media is being received: whatever
    messages arrive and whatever calls are made, no media event has the flag
    set, because the code compares the kind of the message, and not the value
    of its "receiving" member, with "true". *)
Theorem media_flag_never_set c (Hr : reachable rand mem_ok observer c) h t :
  onRTCMediaStreamingEvent h t true ∉ seen c.
Proof. by apply (reachable_quirks c Hr). Qed.

(** Candidates are never sent: in every state that a connection reaches,
    trickling a candidate does nothing, or reads the version string of the
    server from a buffer that has gone out of scope. *)
Theorem candidates_never_sent c (Hr : reachable rand mem_ok observer c) h candidate :
  trickleCandicate rand h candidate c = Some (tt, c) \/
  trickleCandicate rand h candidate c = None.
Proof.
  destruct (reachable_quirks c Hr) as [_ [Hv|Hv]]; unfold trickleCandicate; gets_step;
    rewrite Hv; [by right|left]. gets_step. by rewrite bool_decide_eq_true_2.
Qed.

(** ** Handles *)

Lemma call_keeps_handles l o :
  keeps (fun c => mJanusHandlesMap c = l) (call observer o).
Proof. unfold call. keeps_go. Qed.
#[local] Hint Resolve call_keeps_handles : conn_keep.

Lemma onEvent_jsep_slots l p mem len :
  keeps (fun c => mJanusHandlesMap c = l) (onEvent_jsep observer p mem len).
Proof.
  unfold onEvent_jsep, onPublisherRemoteJsep_callback, subscriberHandleRemoteJsep_callback.
  keeps_go.
Qed.

(** The end of the branch that hands the description on. *)
Lemma freed_at_end {A} (m : C A) p c c' :
  (m ;; handle_at p ;; modify (fun c => set_handles (delete p (handles c)) c) ;; mret true) c
    = Some (true, c') -> handles c' !! p = None.
Proof.
  intros H. apply bind_run in H as (? & c1 & _ & H). apply bind_run in H as (? & c2 & _ & H).
  apply bind_run in H as (? & c3 & [= _ <-] & [= <-]). cbn. apply lookup_delete_eq.
Qed.

Lemma onEvent_jsep_frees p mem len c c' :
  onEvent_jsep observer (Some p) mem len c = Some (true, c') -> handles c' !! p = None.
Proof.
  unfold onEvent_jsep. intros H. apply bind_run in H as (j & c1 & _ & H).
  apply bind_run in H as (f & c2 & _ & H). apply bind_run in H as (f' & c3 & _ & H).
  destruct j; [|done]. destruct f'; [|done]. apply bind_run in H as (x & c4 & _ & H).
  destruct (onRemoteJsep x); [done|..];
    apply bind_run in H as (b & c5 & _ & H); destruct (lit "" b); try done;
    apply bind_run in H as (? & c6 & _ & H); apply bind_run in H as (? & c7 & _ & H);
    apply bind_run in H as (? & c8 & _ & H); apply bind_run in H as (? & c9 & _ & H);
    by apply freed_at_end in H.
Qed.

(** A plugin handle is used after it was freed: once a session
    description was handed on, the handle is freed but stays in the array, so
    that a second description for the same sender reads freed memory. *)
Theorem handle_used_after_free c p mem len c' mem2 len2 j f
  (Hfirst : onEvent_jsep observer (Some p) mem len c = Some (true, c'))
  (Hj : finds mem2 len2 "jsep" j) (Hf : finds mem2 len2 "plugindata.data.configured" f) :
  (forall h, handle_lookup (mJanusHandlesMap c') h = handle_lookup (mJanusHandlesMap c) h) /\
  onEvent_jsep observer (Some p) mem2 len2 c' = None.
Proof.
  split.
  - intros h. by rewrite (onEvent_jsep_slots (mJanusHandlesMap c) _ _ _ _ _ _ eq_refl Hfirst).
  - apply onEvent_jsep_frees in Hfirst. unfold onEvent_jsep.
    destruct (search_finds _ _ _ _ Hj) as (i & n & Hs & _). step (Hs c').
    destruct (search_finds _ _ _ _ Hf) as (i' & n' & Hs' & _). step (Hs' c'). gets_step.
    unfold handle_at. unfold mbind, M_bind. cbn. by rewrite Hfirst.
Qed.

(** A report about lost packets crashes the client: the observer that
    the client installs leaves [onListenerNACKs] unset, and the connection
    calls it without a test. *)
Theorem slow_link_event_crashes mem len c n
  (Hobs : observer = init_observer)
  (Hn : finds mem len "plugindata.data.nacks" n) (Hne : lit "" n = false) :
  onEvent_nacks observer (bytes_of "listener_slow_link") mem len c = None.
Proof.
  unfold onEvent_nacks. destruct (search_finds _ _ _ _ Hn) as (i & k & Hs & Hv). step (Hs c).
  step (Hv c). rewrite Hne. cbn [negb].
  change (lit "listener_slow_link" (bytes_of "listener_slow_link")) with true. cbn [andb].
  unfold save. destruct (strncpy _ _) as [b|]; [|done]. gets_step.
  destruct (atoll b) as [z|]; [|done]. gets_step.
  unfold call. rewrite Hobs. done.
Qed.
End Claims.

(** ** A run *)

Definition demo_rand (k : nat) : Z := Z.of_nat (7 * k).
Definition always (_ : nat) : bool := true.

Definition message (s : list Z) : ws_event := MG_EV_WS_MSG (s ++ [0]) (zlen s).

Definition after (o : op) (c : conn) : conn :=
  match exec demo_rand always init_observer o c with Some (_, c) => c | None => c end.

Definition opened : conn := Eval vm_compute in
  after (Event MG_EV_WS_OPEN) FRTCConnection_construct.
Definition session_reply : list Z := Eval vm_compute in
  json_text "{'janus':'success','transaction':'AHOVcjqx4BIP','data':{'id':77}}" ++ [0].
Definition in_session : conn := Eval vm_compute in
  after (Event (MG_EV_WS_MSG session_reply 65)) opened.
Definition media_message : list Z := Eval vm_compute in
  json_text "{'janus':'media','receiving':true,'type':'video'}" ++ [0].
Definition with_media : conn := Eval vm_compute in
  after (Event (MG_EV_WS_MSG media_message 49)) in_session.

Lemma opened_reachable : reachable demo_rand always init_observer opened.
Proof.
  apply (reach_step demo_rand always init_observer FRTCConnection_construct
    (Event MG_EV_WS_OPEN) tt); [constructor|by vm_compute].
Qed.
Lemma in_session_reachable : reachable demo_rand always init_observer in_session.
Proof.
  apply (reach_step demo_rand always init_observer opened
    (Event (MG_EV_WS_MSG session_reply 65)) tt); [apply opened_reachable|by vm_compute].
Qed.
Lemma with_media_reachable : reachable demo_rand always init_observer with_media.
Proof.
  apply (reach_step demo_rand always init_observer in_session
    (Event (MG_EV_WS_MSG media_message 49)) tt); [apply in_session_reachable|by vm_compute].
Qed.

(** Reads a value out of a concrete message. *)
Ltac found i n := exists i, n; split; vm_compute; reflexivity.
Ltac missing := eexists; eexists; split; [vm_compute; reflexivity|done].

Lemma reply_reaches_its_callback_witness :
  (forall i s, mJanusTransactionMap opened !! i = Some s -> jtId s <> bytes_of "AHOVcjqx4BIP") /\
    onRTCMessage demo_rand always init_observer session_reply 65 opened = Some (tt, opened) \/
  exists i s p, mJanusTransactionMap opened !! i = Some s /\ jtId s = bytes_of "AHOVcjqx4BIP" /\
    jt s = Some p /\ transactions opened !! p = Some (mk_jt (bytes_of "AHOVcjqx4BIP") (slot_fn i)) /\
    onRTCMessage demo_rand always init_observer session_reply 65 opened
      = (run_success demo_rand always (slot_fn i) session_reply 65 ;;
         clear_slot i ;; free_transaction p) opened.
Proof.
  apply (reply_reaches_its_callback demo_rand always init_observer opened session_reply 65
    (bytes_of "AHOVcjqx4BIP"));
    [apply opened_reachable|reflexivity|vm_compute; reflexivity|found 10 7|found 34 12|].
  split; [reflexivity|]. apply (bool_decide_unpack _). by vm_compute.
Defined.

Definition anonymous : list Z := Eval vm_compute in json_text "{'janus':'success'}" ++ [0].

Lemma anonymous_success_crashes_witness :
  onRTCMessage demo_rand always init_observer anonymous 19 in_session = None.
Proof.
  apply (anonymous_success_crashes demo_rand always init_observer in_session anonymous 19
    (mk_slot [] (Some 0%nat)));
    [reflexivity|vm_compute; reflexivity|found 10 7|right; missing|reflexivity|].
  intros p [= <-]. reflexivity.
Defined.

Lemma session_created_witness :
  exists id' c', onRTCMessage demo_rand always init_observer session_reply 65 opened
      = Some (tt, c') /\
    mSessionId c' = 77 /\ good_id id' /\ sent c' = sent opened ++ [attach_text id' 77] /\
    mJanusTransactionMap c' !! 1%nat = Some (mk_slot id' (Some (next opened))) /\
    transactions c' !! next opened = Some (mk_jt id' publisherCreateHandle_fn) /\
    mJanusTransactionMap c' !! 0%nat = Some (mk_slot [] (Some 0%nat)) /\
    transactions c' !! 0%nat = None.
Proof.
  apply (session_created demo_rand always init_observer opened session_reply 65
    (bytes_of "AHOVcjqx4BIP") 0%nat 77);
    [apply opened_reachable|reflexivity|reflexivity|vm_compute; reflexivity|vm_compute; reflexivity
    |found 10 7|found 34 12|discriminate|vm_compute; reflexivity|lia|found 61 2|missing|missing].
Defined.

(** The session reply with the next frame behind it. *)
Definition two_frames : list Z := Eval vm_compute in
  json_text "{'janus':'success','transaction':'AHOVcjqx4BIP','data':{'id':77}}" ++
  [129; 15] ++ json_text "{'janus':'ack'}" ++ [0].

Lemma session_reply_lost_witness :
  exists c', onRTCMessage demo_rand always init_observer two_frames 65 opened = Some (tt, c') /\
    mSessionId c' = mSessionId opened /\ sent c' = sent opened /\ seen c' = seen opened /\
    mJanusTransactionMap c' !! 0%nat = Some (mk_slot [] (Some 0%nat)).
Proof.
  apply (session_reply_lost demo_rand always init_observer opened two_frames 65 82
    JSONIllegalDocument (bytes_of "AHOVcjqx4BIP") 0%nat);
    [apply opened_reachable|reflexivity|vm_compute; reflexivity|found 10 7|found 34 12
    |discriminate|vm_compute; reflexivity|vm_compute; reflexivity|vm_compute; reflexivity
    |discriminate].
Defined.

Lemma media_flag_never_set_witness : onRTCMediaStreamingEvent 0 1 true ∉ seen with_media.
Proof.
  apply (media_flag_never_set demo_rand always init_observer with_media with_media_reachable 0 1).
Defined.

Lemma candidates_never_sent_witness :
  trickleCandicate demo_rand 5 (bytes_of "1 udp") in_session = Some (tt, in_session) \/
  trickleCandicate demo_rand 5 (bytes_of "1 udp") in_session = None.
Proof.
  apply (candidates_never_sent demo_rand always init_observer in_session in_session_reachable).
Defined.

Definition handle_reply : list Z := Eval vm_compute in
  json_text "{'janus':'success','transaction':'Wdkry5CJQXel','data':{'id':88}}" ++ [0].
Definition standalone_session : conn := Eval vm_compute in set_mNeedRoomID true in_session.

Lemma standalone_room_crashes_witness :
  run_success demo_rand always publisherCreateHandle_fn handle_reply 65 standalone_session = None.
Proof.
  apply (standalone_room_crashes demo_rand always standalone_session handle_reply 65 88);
    [reflexivity|vm_compute; reflexivity|vm_compute; reflexivity|lia|found 61 2].
Defined.

Definition jsep_event : list Z := Eval vm_compute in
  json_text "{'janus':'event','sender':88,'plugindata':{'data':{'configured':'ok'}},'jsep':{'type':'answer','sdp':'v=0'}}" ++ [0].
Definition joined : conn := Eval vm_compute in
  set_handles {[ 5%nat := mk_jh 88 0 publisherJoined_fn publisherRemoteJsep_fn ]}
    (set_mJanusHandlesMap [mk_hslot 88 (Some 5%nat); mk_hslot 0 None] in_session).
Definition described : conn := Eval vm_compute in
  match onEvent_jsep init_observer (Some 5%nat) jsep_event 108 joined with
  | Some (_, c) => c | None => joined end.

Lemma handle_used_after_free_witness :
  (forall h, handle_lookup (mJanusHandlesMap described) h
     = handle_lookup (mJanusHandlesMap joined) h) /\
  onEvent_jsep init_observer (Some 5%nat) jsep_event 108 described = None.
Proof.
  apply (handle_used_after_free init_observer joined 5%nat jsep_event 108 described
    jsep_event 108 (json_text "{'type':'answer','sdp':'v=0'}") (bytes_of "ok"));
    [vm_compute; reflexivity|found 78 29|found 65 2].
Defined.

Definition slow_link : list Z := Eval vm_compute in
  json_text "{'plugindata':{'data':{'nacks':3}}}" ++ [0].

Lemma slow_link_event_crashes_witness :
  onEvent_nacks init_observer (bytes_of "listener_slow_link") slow_link 35 in_session = None.
Proof.
  apply (slow_link_event_crashes init_observer slow_link 35 in_session (bytes_of "3"));
    [reflexivity|found 31 1|reflexivity].
Defined.
