(* ===== verification/RtcMessages.v ===== *)
(** * The requests of the signalling connection are JSON

    The texts that RTCConnection.c assembles with [sprintf] are read against
    the grammar of CoreJsonGrammar.v: the client's own validator accepts
    them. *)

From stdpp Require Import gmap.
From S2P Require Import Prelude Effects Libc CoreJson CoreJsonGrammar CoreJsonComplete Mbuf.
From S2P Require Import RtcConnection RtcConnectionInv RtcConnectionProps.
Import Json Conn.

(** ** Numbers *)

Lemma dec_digits_head fuel z acc :
  0 < z -> z < 10 ^ Z.of_nat fuel -> hd 48 (dec_digits fuel z acc) <> 48.
Proof.
  revert z acc. induction fuel as [|fuel IH]; intros z acc Hz Hlt; [cbn in Hlt; lia|].
  cbn [dec_digits]. destruct (Z.ltb_spec z 10).
  - cbn [hd]. rewrite Z.mod_small by lia. lia.
  - rewrite Nat2Z.inj_succ, Z.pow_succ_r in Hlt by lia.
    apply IH; [apply Z.div_str_pos; lia|]. apply Z.div_lt_upper_bound; lia.
Qed.

Lemma dec_digits_jint z : 0 <= z < 10 ^ 20 -> jint (dec_digits 20 z []).
Proof.
  intros Hz. destruct (Z.eq_dec z 0) as [->|Hne]; [by left|].
  right. split; [|apply dec_digits_head; [lia|change (Z.of_nat 20) with 20; lia]].
  destruct (dec_digits_spec 20 z []) as (l & -> & Hl & Hd & _);
    [lia|change (Z.of_nat 20) with 20; lia|done|].
  rewrite app_nil_r. split; [done|]. exact Hd.
Qed.

Lemma lld_jnumber z : jnumber (lld z).
Proof.
  pose proof (Z.mod_pos_bound (z + 2 ^ 63) (2 ^ 64) ltac:(lia)) as Hr.
  assert (Hi : - 2 ^ 63 <= i64 z < 2 ^ 63) by (unfold i64; lia).
  unfold lld. destruct (Z.ltb_spec (i64 z) 0).
  - exists [45], (dec_digits 20 (- i64 z) []), [], [].
    split_and!; [by rewrite !app_nil_r|by right|apply dec_digits_jint; lia|by left|by left].
  - exists [], (dec_digits 20 (i64 z) []), [], [].
    split_and!; [by rewrite !app_nil_r|by left|apply dec_digits_jint; lia|by left|by left].
Qed.

(** ** Objects *)

(** Characters that stand for themselves in a string. *)
Definition plain (s : list Z) : Prop :=
  Forall (fun c => 32 <= c < 128 /\ c <> QUOTE /\ c <> BACKSLASH) s.

#[global] Instance plain_dec s : Decision (plain s).
Proof. unfold plain. apply _. Defined.

Definition quoted (s : list Z) : list Z := QUOTE :: s ++ [QUOTE].

(** A member: key, space behind the colon, value. *)
Definition member : Type := list Z * list Z * list Z.
Definition member_text (m : member) : list Z :=
  let '(k, s, v) := m in quoted k ++ COLON :: s ++ v.
Definition member_ok (d : nat) (m : member) : Prop :=
  let '(k, s, v) := m in plain k /\ ws s /\ jvalue d v.

Fixpoint members_text (ms : list member) : list Z :=
  match ms with
  | [] => []
  | [m] => member_text m
  | m :: ms => member_text m ++ COMMA :: members_text ms
  end.

Definition object_text (ms : list member) : list Z := LBRACE :: members_text ms ++ [RBRACE].

Lemma members_ok d ms : ms <> [] -> Forall (member_ok d) ms -> jmembers d (members_text ms).
Proof.
  induction ms as [|[[k s] v] ms IH]; intros Hne Hf; [done|].
  apply Forall_cons in Hf as [(Hk & Hs & Hv) Hf]. apply jstring_plain in Hk.
  destruct ms as [|m ms].
  - pose proof (jm_last d [] (quoted k) [] s v [] (Forall_nil_2 _) Hk (Forall_nil_2 _) Hs Hv
      (Forall_nil_2 _)) as H. rewrite app_nil_r in H. exact H.
  - pose proof (jm_cons d [] (quoted k) [] s v [] _ (Forall_nil_2 _) Hk (Forall_nil_2 _) Hs Hv
      (Forall_nil_2 _) (IH ltac:(done) Hf)) as H.
    change (members_text ((k, s, v) :: m :: ms))
      with ((quoted k ++ COLON :: s ++ v) ++ COMMA :: members_text (m :: ms)).
    rewrite <- app_assoc. cbn [app]. rewrite <- app_assoc. exact H.
Qed.

Lemma object_ok d ms : ms <> [] -> Forall (member_ok d) ms -> jvalue (S d) (object_text ms).
Proof. intros Hne Hf. apply jv_object. by apply members_ok. Qed.

Lemma object_valid ms :
  ms <> [] -> Forall (member_ok 31) ms -> zlen (object_text ms) < SIZE_MAX ->
  JSON_Validate (Some (object_text ms)) (zlen (object_text ms)) = Some JSONSuccess.
Proof.
  intros Hne Hf Hl. apply validate_document; [|done].
  exists [], (object_text ms), []. rewrite app_nil_r. split; [done|].
  split; [constructor|]. split; [|constructor]. by apply (object_ok 31).
Qed.

Lemma string_value d s : plain s -> jvalue d (quoted s).
Proof. intros H. constructor. left. by apply jstring_plain. Qed.
Lemma number_value d z : jvalue d (lld z).
Proof. constructor. right. right. apply lld_jnumber. Qed.
Lemma true_value d : jvalue d lit_true.
Proof. constructor. right. left. by left. Qed.

Create HintDb json_text.
#[export] Hint Resolve string_value number_value true_value : json_text.

Definition str (s : String.string) : list Z := quoted (bytes_of s).

Lemma plain_bytes s : bool_decide (plain (bytes_of s)) = true -> plain (bytes_of s).
Proof. apply bool_decide_eq_true. Qed.

(** The members that end most requests. *)
Definition trailer_members (id : list Z) (session h : Z) : list member :=
  [(bytes_of "transaction", [], quoted id); (bytes_of "session_id", [], lld session);
   (bytes_of "handle_id", [], lld h)].

(** Equality of concatenations up to association. *)
Ltac same_text :=
  unfold quoted; cbn [app]; repeat (progress (rewrite <- ?app_assoc; cbn [app])); reflexivity.

Ltac members_go :=
  repeat (apply Forall_cons; split); try apply Forall_nil_2;
  repeat split; try (by apply plain_bytes); try (by repeat constructor);
  eauto with json_text.

Section Requests.
Context (rand : nat -> Z) (mem_ok : nat -> bool) (observer : obs -> bool).

Lemma generated_plain n c id c' : generate_chars rand n c = Some (id, c') -> plain id.
Proof.
  revert c id c'. induction n as [|n IH]; intros c id c' H; [injection H as <- <-; constructor|].
  cbn [generate_chars] in H. apply bind_run in H as (k & c1 & [= <- <-] & H).
  apply bind_run in H as (u & c2 & [= <- <-] & H).
  apply bind_run in H as (x & c3 & Hx & H). apply bind_run in H as (l & c4 & Hl & [= <- <-]).
  constructor; [|by eapply IH].
  unfold of_option in Hx. destruct (rd _ _) as [y|] eqn:E in Hx; [|done]. injection Hx as -> <-.
  unfold rd in E. destruct (_ <=? _); [|done].
  assert (Hall : plain alphabet) by (apply (bool_decide_unpack _); by vm_compute).
  exact (Forall_lookup_1 _ _ _ _ Hall E).
Qed.

Lemma trailer_length id session h :
  length id = 12%nat -> zlen (trailer id session h) <= 110.
Proof.
  intros Hl. pose proof (lld_length session). pose proof (lld_length h).
  unfold trailer, zlen in *. rewrite !length_app, Hl.
  change (length (json_text "'transaction':'")) with 15%nat.
  change (length (json_text "','session_id':")) with 15%nat.
  change (length (json_text ",'handle_id':")) with 13%nat.
  change (length (json_text "}")) with 1%nat. lia.
Qed.

Lemma trailer_text id session h :
  trailer id session h = members_text (trailer_members id session h) ++ [RBRACE].
Proof.
  unfold trailer, trailer_members. cbn [members_text member_text]. same_text.
Qed.

(** A request with an id, given by its text. *)
Lemma request_run (f : list Z -> Z -> list Z) c :
  (forall id, length id = 12%nat -> zlen (f id (mSessionId c)) < DEFAULT_SIZE) ->
  exists id c', length id = 12%nat /\ plain id /\
  (id ← generateString rand RTC_JANUS_TRANSACTION_ID_LEN; session ← gets mSessionId;
   text ← sprintf DEFAULT_SIZE (f id session); sendMessage text) c = Some (tt, c') /\
  sent c' = sent c ++ (if mRTCConnected c then [f id (mSessionId c)] else []).
Proof.
  intros Hf. destruct (gen_run rand 12 c) as [id Hid].
  pose proof (generate_good rand _ _ _ Hid) as [Hl _].
  pose proof (generated_plain _ _ _ _ Hid) as Hp. exists id.
  set (c1 := set_rands (rands c + 12)%nat c) in *.
  exists (if mRTCConnected c then set_sent (sent c ++ [f id (mSessionId c)]) c1 else c1).
  split; [done|]. split; [done|]. split.
  - step Hid. gets_step. unfold sprintf. change (mSessionId c1) with (mSessionId c).
    rewrite (proj2 (Z.ltb_lt _ _) (Hf id Hl)). gets_step. unfold sendMessage. gets_step.
    change (mRTCConnected c1) with (mRTCConnected c). by destruct (mRTCConnected c).
  - destruct (mRTCConnected c); [done|]. by rewrite app_nil_r.
Qed.

Definition accepted (text : list Z) : Prop :=
  JSON_Validate (Some text) (zlen text) = Some JSONSuccess.

(** The requests without application data. *)
Definition bare (o : op) : Prop :=
  match o with
  | KeepAlive | TrickleComplete _ | Unpublish _ | Detach _ => True
  | _ => False
  end.

Lemma accepted_object text ms :
  text = object_text ms -> ms <> [] -> Forall (member_ok 31) ms -> zlen text < DEFAULT_SIZE ->
  accepted text.
Proof.
  intros -> Hne Hf Hl. apply object_valid; [done|done|]. unfold DEFAULT_SIZE, SIZE_MAX in *. lia.
Qed.

Lemma if_sent (b : bool) (t : list Z) : accepted t -> Forall accepted (if b then [t] else []).
Proof. destruct b; [by repeat constructor|constructor]. Qed.

(** A request that consists of leading members and the trailer. *)
Lemma trailer_request head ms c h :
  (forall id session, head ++ trailer id session h = object_text (ms ++ trailer_members id session h)) ->
  zlen head <= 300 -> Forall (member_ok 31) ms ->
  exists c' texts,
  (id ← generateString rand RTC_JANUS_TRANSACTION_ID_LEN; session ← gets mSessionId;
   text ← sprintf DEFAULT_SIZE (head ++ trailer id session h); sendMessage text) c
    = Some (tt, c') /\ sent c' = sent c ++ texts /\ Forall accepted texts.
Proof.
  intros Htext Hhead Hms.
  assert (Hlen : forall id, length id = 12%nat ->
    zlen (head ++ trailer id (mSessionId c) h) < DEFAULT_SIZE).
  { intros id Hl. pose proof (trailer_length id (mSessionId c) h Hl).
    unfold zlen, DEFAULT_SIZE in *. rewrite length_app. lia. }
  destruct (request_run (fun id session => head ++ trailer id session h) c Hlen)
    as (id & c' & Hl & Hp & Hrun & Hs).
  exists c', (if mRTCConnected c then [head ++ trailer id (mSessionId c) h] else []).
  split; [done|]. split; [done|]. apply if_sent.
  eapply accepted_object; [apply Htext| |apply Forall_app; split; [done|]|by apply Hlen].
  - by destruct ms.
  - unfold trailer_members. members_go.
Qed.

(** What the client sends is JSON: in every state, keepalive, trickle
    completion, unpublish and detach requests are built without overrunning
    their buffer, and the texts they send are accepted by the JSON
    validator. *)
Theorem requests_are_json o c (Hb : bare o) :
  exists c' texts, exec rand mem_ok observer o c = Some (tt, c') /\
  sent c' = sent c ++ texts /\ Forall accepted texts.
Proof.
  destruct o; try done; cbn [exec].
  - unfold keepAlive. destruct (Z.eqb_spec (mSessionId c) 0) as [Hz|Hz].
    { exists c, []. gets_step. rewrite Hz. cbn [Z.eqb]. by rewrite app_nil_r. }
    set (f := fun id session => json_text "{'janus':'keepalive','session_id': " ++ lld session ++
      json_text ",'transaction':'" ++ id ++ json_text "'}").
    assert (Hlen : forall id, length id = 12%nat -> zlen (f id (mSessionId c)) < DEFAULT_SIZE).
    { intros id Hl. pose proof (lld_length (mSessionId c)).
      unfold f, zlen, DEFAULT_SIZE in *. rewrite !length_app, Hl.
      change (length (json_text "{'janus':'keepalive','session_id': ")) with 35%nat.
      change (length (json_text ",'transaction':'")) with 16%nat.
      change (length (json_text "'}")) with 2%nat. lia. }
    destruct (request_run f c Hlen) as (id & c' & Hl & Hp & Hrun & Hs).
    exists c', (if mRTCConnected c then [f id (mSessionId c)] else []).
    split; [|split; [done|]].
    + gets_step. rewrite (proj2 (Z.eqb_neq _ _) Hz). rewrite <- Hrun. unfold f.
      destruct (gen_run rand 12 c) as [id0 Hid0]. step Hid0. symmetry. step Hid0. by gets_step.
    + apply if_sent. eapply (accepted_object _ [(bytes_of "janus", [], str "keepalive");
        (bytes_of "session_id", [32], lld (mSessionId c)); (bytes_of "transaction", [], quoted id)]);
        [|done| |by apply Hlen].
      * unfold f, object_text, str. cbn [members_text member_text]. same_text.
      * unfold str. members_go. apply string_value. by apply plain_bytes.
  - apply (trailer_request _ [(bytes_of "janus", [], str "trickle");
      (bytes_of "candidate", [], object_text [(bytes_of "completed", [], lit_true)])]).
    + intros id session. rewrite trailer_text. reflexivity.
    + by vm_compute.
    + unfold str. members_go; [apply string_value; by apply plain_bytes|].
      apply object_ok; [done|]. members_go.
  - apply (trailer_request _ [(bytes_of "janus", [], str "message");
      (bytes_of "body", [], object_text [(bytes_of "request", [], str "unpublish")])]).
    + intros id session. rewrite trailer_text. reflexivity.
    + by vm_compute.
    + unfold str. members_go; [apply string_value; by apply plain_bytes|].
      apply object_ok; [done|]. members_go. apply string_value; by apply plain_bytes.
  - apply (trailer_request _ [(bytes_of "janus", [], str "detach")]).
    + intros id session. rewrite trailer_text. reflexivity.
    + by vm_compute.
    + unfold str. members_go. apply string_value; by apply plain_bytes.
Qed.

End Requests.

Lemma requests_are_json_witness :
  exists c' texts, exec demo_rand always init_observer KeepAlive in_session = Some (tt, c') /\
  sent c' = sent in_session ++ texts /\ Forall accepted texts.
Proof.
  apply (requests_are_json demo_rand always init_observer KeepAlive in_session Logic.I).
Defined.
