(* ===== verification/RtcClient.v ===== *)
(** * The signalling client

    Models src/barertc/src/brtc/baidu_rtc_signal_client.c: the client object
    behind [g_client], its settings, room log-in and log-out, the keepalive
    watchdog, and the observer functions that forward the events of the
    signalling connection to the application's listener and to the sessions.
    The connection is the one of RtcConnection.v; the observer calls that an
    operation on it makes are delivered in their order.  None of the observer
    functions changes the connection itself; what they start on the media side
    (modelled in ClientSession.v) is recorded. *)

From stdpp Require Import gmap.
From S2P Require Import Prelude Effects Libc CoreJson RtcConnection.
Import Conn.

Module Client.

Inductive RtcMessageType :=
| RTC_MESSAGE_ROOM_EVENT_LOGIN_OK
| RTC_MESSAGE_ROOM_EVENT_LOGIN_TIMEOUT
| RTC_MESSAGE_ROOM_EVENT_LOGIN_ERROR
| RTC_MESSAGE_ROOM_EVENT_CONNECTION_LOST
| RTC_MESSAGE_ROOM_EVENT_REMOTE_COMING
| RTC_MESSAGE_ROOM_EVENT_REMOTE_LEAVING
| RTC_MESSAGE_ROOM_EVENT_REMOTE_RENDERING
| RTC_MESSAGE_ROOM_EVENT_REMOTE_GONE
| RTC_MESSAGE_ROOM_EVENT_SERVER_ERROR
| RTC_ROOM_EVENT_AVAILABLE_SEND_BITRATE
| RTC_ROOM_EVENT_FORCE_KEY_FRAME
| RTC_ROOM_EVENT_ON_USER_JOINED_ROOM
| RTC_ROOM_EVENT_ON_USER_LEAVING_ROOM
| RTC_ROOM_EVENT_ON_USER_MESSAGE
| RTC_ROOM_EVENT_ON_USER_ATTRIBUTE
| RTC_MESSAGE_STATE_STREAM_UP
| RTC_MESSAGE_STATE_SENDING_MEDIA_OK
| RTC_MESSAGE_STATE_SENDING_MEDIA_FAILED
| RTC_MESSAGE_STATE_STREAM_DOWN
| RTC_STATE_STREAM_SLOW_LINK_NACKS.

(** [data] is the union of feed id and error code; [None] fields are not set. *)
Record RtcMessage := mk_msg {
  msgType : RtcMessageType;
  data : option Z;
  extra_info : option (list Z) }.

Inductive RtcImageType :=
| RTC_IMAGE_TYPE_NONE
| RTC_IMAGE_TYPE_JPEG
| RTC_IMAGE_TYPE_H263
| RTC_IMAGE_TYPE_H264
| RTC_IMAGE_TYPE_I420P
| RTC_IMAGE_TYPE_RGB
| RTC_IMAGE_TYPE_VP8.

(** What the observer functions start on the media side. *)
Inductive media_act :=
| publish_feed (h : Z)
| remote_jsep (h : Z) (jsep : list Z)
| answer_offer (h : Z) (jsep : list Z)
| start_media (h : Z).

Record RtcParameterSettings := mk_params {
  HasVideo : bool;
  HasAudio : bool;
  HasData : bool;
  AudioINFrequency : Z;
  AudioINChannel : Z;
  AudioOUTFrequency : Z;
  AudioOUTChannel : Z;
  VideoWidth : Z;
  VideoHeight : Z;
  VideoFps : Z;
  VideoMaxkbps : Z;
  VideoMinkbps : Z;
  ImageINType : RtcImageType;
  ImageOUTType : RtcImageType;
  ConnectionTimeoutMs : Z;
  ReadTimeoutMs : Z;
  AutoPublish : bool;
  AutoSubscribe : bool;
  AsPublisher : bool;
  AsListener : bool }.

Definition set_HasVideo (x : bool) (c : RtcParameterSettings) : RtcParameterSettings :=
  mk_params x (HasAudio c) (HasData c) (AudioINFrequency c) (AudioINChannel c)
    (AudioOUTFrequency c) (AudioOUTChannel c) (VideoWidth c) (VideoHeight c) (VideoFps c)
    (VideoMaxkbps c) (VideoMinkbps c) (ImageINType c) (ImageOUTType c)
    (ConnectionTimeoutMs c) (ReadTimeoutMs c) (AutoPublish c) (AutoSubscribe c)
    (AsPublisher c) (AsListener c).
Definition set_VideoMaxkbps (x : Z) (c : RtcParameterSettings) : RtcParameterSettings :=
  mk_params (HasVideo c) (HasAudio c) (HasData c) (AudioINFrequency c) (AudioINChannel c)
    (AudioOUTFrequency c) (AudioOUTChannel c) (VideoWidth c) (VideoHeight c) (VideoFps c) x
    (VideoMinkbps c) (ImageINType c) (ImageOUTType c) (ConnectionTimeoutMs c)
    (ReadTimeoutMs c) (AutoPublish c) (AutoSubscribe c) (AsPublisher c) (AsListener c).

Definition defaultSetting : RtcParameterSettings :=
  mk_params true true false 48000 1 16000 1 176 144 20 1500 1000 RTC_IMAGE_TYPE_NONE
    RTC_IMAGE_TYPE_H263 5000 5000 true true true true.

Inductive RtcParamSettingType :=
| RTC_AUDIO_PARAM_SETTINGS_ONLY_AUDIO
| RTC_AUDIO_PARAM_SETTINGS_AEC_DUMP
| RTC_AUDIO_PARAM_SETTINGS_LEVEL_CONTROL
| RTC_AUDIO_PARAM_SETTINGS_MANUAL_CONFIG
| RTC_AUDIO_PARAM_SETTINGS_EXPORT_RECORD
| RTC_AUDIO_PARAM_SETTINGS_EXPORT_PLAYOUT
| RTC_AUDIO_PARAM_SETTINGS_EXPORT_RECORD_PLAYOUT_MIX
| RTC_VIDEO_PARAM_SETTINGS_FPS
| RTC_VIDEO_PARAM_SETTINGS_RESOLUTION
| RTC_VIDEO_PARAM_SETTINGS_BITRATE
| RTC_VIDEO_PARAM_SETTINGS_CODECTYPE
| RTC_VIDEO_PARAM_SETTINGS_SESSION_MODE
| RTC_VIDEO_PARAM_SETTINGS_CAPTURE_MODE
| RTC_VIDEO_PARAM_SETTINGS_RENDER_MODE
| RTC_PARAM_SETTINGS_ALL
| RTC_PARAM_SETTINGS_OTHERS.

(** The connection is [Raw] when it has been allocated and not constructed: its
    members and function pointers are indeterminate. *)
Inductive conn_ptr := NoConn | Raw | Ready (c : conn).

(** The strings have the prefix [c] where the connection has a member of the
    same name.  [cAppId] and [mVideoCodecImageType] are [None] until they are
    set: [createClient] leaves them out. *)
Record BaiduRtcClient := mk_client {
  mIsInitialized : bool;
  mIsLoginRoom : bool;
  mFRTCconn : conn_ptr;
  mObserver : option (list Z);
  mRtcMessageListener : bool;
  cAppId : option (list Z);
  cCer : list Z;
  cFeedID : list Z;
  cMediaServerURL : list Z;
  cMediaServerIP : list Z;
  cVideoCodec : list Z;
  cAutoSubscribe : bool;
  mListernerHandleId : Z;
  mPulisherHandleId : Z;
  mAutoPublish : bool;
  mVideoCodecImageType : option RtcImageType;
  mParamSettings : RtcParameterSettings }.

Definition set_mIsInitialized (x : bool) (c : BaiduRtcClient) : BaiduRtcClient :=
  mk_client x (mIsLoginRoom c) (mFRTCconn c) (mObserver c) (mRtcMessageListener c)
    (cAppId c) (cCer c) (cFeedID c) (cMediaServerURL c) (cMediaServerIP c) (cVideoCodec c)
    (cAutoSubscribe c) (mListernerHandleId c) (mPulisherHandleId c) (mAutoPublish c)
    (mVideoCodecImageType c) (mParamSettings c).
Definition set_mIsLoginRoom (x : bool) (c : BaiduRtcClient) : BaiduRtcClient :=
  mk_client (mIsInitialized c) x (mFRTCconn c) (mObserver c) (mRtcMessageListener c)
    (cAppId c) (cCer c) (cFeedID c) (cMediaServerURL c) (cMediaServerIP c) (cVideoCodec c)
    (cAutoSubscribe c) (mListernerHandleId c) (mPulisherHandleId c) (mAutoPublish c)
    (mVideoCodecImageType c) (mParamSettings c).
Definition set_mFRTCconn (x : conn_ptr) (c : BaiduRtcClient) : BaiduRtcClient :=
  mk_client (mIsInitialized c) (mIsLoginRoom c) x (mObserver c) (mRtcMessageListener c)
    (cAppId c) (cCer c) (cFeedID c) (cMediaServerURL c) (cMediaServerIP c) (cVideoCodec c)
    (cAutoSubscribe c) (mListernerHandleId c) (mPulisherHandleId c) (mAutoPublish c)
    (mVideoCodecImageType c) (mParamSettings c).
Definition set_mObserver (x : option (list Z)) (c : BaiduRtcClient) : BaiduRtcClient :=
  mk_client (mIsInitialized c) (mIsLoginRoom c) (mFRTCconn c) x (mRtcMessageListener c)
    (cAppId c) (cCer c) (cFeedID c) (cMediaServerURL c) (cMediaServerIP c) (cVideoCodec c)
    (cAutoSubscribe c) (mListernerHandleId c) (mPulisherHandleId c) (mAutoPublish c)
    (mVideoCodecImageType c) (mParamSettings c).
Definition set_mRtcMessageListener (x : bool) (c : BaiduRtcClient) : BaiduRtcClient :=
  mk_client (mIsInitialized c) (mIsLoginRoom c) (mFRTCconn c) (mObserver c) x (cAppId c)
    (cCer c) (cFeedID c) (cMediaServerURL c) (cMediaServerIP c) (cVideoCodec c)
    (cAutoSubscribe c) (mListernerHandleId c) (mPulisherHandleId c) (mAutoPublish c)
    (mVideoCodecImageType c) (mParamSettings c).
Definition set_cAppId (x : option (list Z)) (c : BaiduRtcClient) : BaiduRtcClient :=
  mk_client (mIsInitialized c) (mIsLoginRoom c) (mFRTCconn c) (mObserver c)
    (mRtcMessageListener c) x (cCer c) (cFeedID c) (cMediaServerURL c) (cMediaServerIP c)
    (cVideoCodec c) (cAutoSubscribe c) (mListernerHandleId c) (mPulisherHandleId c)
    (mAutoPublish c) (mVideoCodecImageType c) (mParamSettings c).
Definition set_cCer (x : list Z) (c : BaiduRtcClient) : BaiduRtcClient :=
  mk_client (mIsInitialized c) (mIsLoginRoom c) (mFRTCconn c) (mObserver c)
    (mRtcMessageListener c) (cAppId c) x (cFeedID c) (cMediaServerURL c) (cMediaServerIP c)
    (cVideoCodec c) (cAutoSubscribe c) (mListernerHandleId c) (mPulisherHandleId c)
    (mAutoPublish c) (mVideoCodecImageType c) (mParamSettings c).
Definition set_cFeedID (x : list Z) (c : BaiduRtcClient) : BaiduRtcClient :=
  mk_client (mIsInitialized c) (mIsLoginRoom c) (mFRTCconn c) (mObserver c)
    (mRtcMessageListener c) (cAppId c) (cCer c) x (cMediaServerURL c) (cMediaServerIP c)
    (cVideoCodec c) (cAutoSubscribe c) (mListernerHandleId c) (mPulisherHandleId c)
    (mAutoPublish c) (mVideoCodecImageType c) (mParamSettings c).
Definition set_cMediaServerURL (x : list Z) (c : BaiduRtcClient) : BaiduRtcClient :=
  mk_client (mIsInitialized c) (mIsLoginRoom c) (mFRTCconn c) (mObserver c)
    (mRtcMessageListener c) (cAppId c) (cCer c) (cFeedID c) x (cMediaServerIP c)
    (cVideoCodec c) (cAutoSubscribe c) (mListernerHandleId c) (mPulisherHandleId c)
    (mAutoPublish c) (mVideoCodecImageType c) (mParamSettings c).
Definition set_cMediaServerIP (x : list Z) (c : BaiduRtcClient) : BaiduRtcClient :=
  mk_client (mIsInitialized c) (mIsLoginRoom c) (mFRTCconn c) (mObserver c)
    (mRtcMessageListener c) (cAppId c) (cCer c) (cFeedID c) (cMediaServerURL c) x
    (cVideoCodec c) (cAutoSubscribe c) (mListernerHandleId c) (mPulisherHandleId c)
    (mAutoPublish c) (mVideoCodecImageType c) (mParamSettings c).
Definition set_cVideoCodec (x : list Z) (c : BaiduRtcClient) : BaiduRtcClient :=
  mk_client (mIsInitialized c) (mIsLoginRoom c) (mFRTCconn c) (mObserver c)
    (mRtcMessageListener c) (cAppId c) (cCer c) (cFeedID c) (cMediaServerURL c)
    (cMediaServerIP c) x (cAutoSubscribe c) (mListernerHandleId c) (mPulisherHandleId c)
    (mAutoPublish c) (mVideoCodecImageType c) (mParamSettings c).
Definition set_cAutoSubscribe (x : bool) (c : BaiduRtcClient) : BaiduRtcClient :=
  mk_client (mIsInitialized c) (mIsLoginRoom c) (mFRTCconn c) (mObserver c)
    (mRtcMessageListener c) (cAppId c) (cCer c) (cFeedID c) (cMediaServerURL c)
    (cMediaServerIP c) (cVideoCodec c) x (mListernerHandleId c) (mPulisherHandleId c)
    (mAutoPublish c) (mVideoCodecImageType c) (mParamSettings c).
Definition set_mListernerHandleId (x : Z) (c : BaiduRtcClient) : BaiduRtcClient :=
  mk_client (mIsInitialized c) (mIsLoginRoom c) (mFRTCconn c) (mObserver c)
    (mRtcMessageListener c) (cAppId c) (cCer c) (cFeedID c) (cMediaServerURL c)
    (cMediaServerIP c) (cVideoCodec c) (cAutoSubscribe c) x (mPulisherHandleId c)
    (mAutoPublish c) (mVideoCodecImageType c) (mParamSettings c).
Definition set_mPulisherHandleId (x : Z) (c : BaiduRtcClient) : BaiduRtcClient :=
  mk_client (mIsInitialized c) (mIsLoginRoom c) (mFRTCconn c) (mObserver c)
    (mRtcMessageListener c) (cAppId c) (cCer c) (cFeedID c) (cMediaServerURL c)
    (cMediaServerIP c) (cVideoCodec c) (cAutoSubscribe c) (mListernerHandleId c) x
    (mAutoPublish c) (mVideoCodecImageType c) (mParamSettings c).
Definition set_mAutoPublish (x : bool) (c : BaiduRtcClient) : BaiduRtcClient :=
  mk_client (mIsInitialized c) (mIsLoginRoom c) (mFRTCconn c) (mObserver c)
    (mRtcMessageListener c) (cAppId c) (cCer c) (cFeedID c) (cMediaServerURL c)
    (cMediaServerIP c) (cVideoCodec c) (cAutoSubscribe c) (mListernerHandleId c)
    (mPulisherHandleId c) x (mVideoCodecImageType c) (mParamSettings c).
Definition set_mVideoCodecImageType (x : option RtcImageType) (c : BaiduRtcClient) : BaiduRtcClient :=
  mk_client (mIsInitialized c) (mIsLoginRoom c) (mFRTCconn c) (mObserver c)
    (mRtcMessageListener c) (cAppId c) (cCer c) (cFeedID c) (cMediaServerURL c)
    (cMediaServerIP c) (cVideoCodec c) (cAutoSubscribe c) (mListernerHandleId c)
    (mPulisherHandleId c) (mAutoPublish c) x (mParamSettings c).
Definition set_mParamSettings (x : RtcParameterSettings) (c : BaiduRtcClient) : BaiduRtcClient :=
  mk_client (mIsInitialized c) (mIsLoginRoom c) (mFRTCconn c) (mObserver c)
    (mRtcMessageListener c) (cAppId c) (cCer c) (cFeedID c) (cMediaServerURL c)
    (cMediaServerIP c) (cVideoCodec c) (cAutoSubscribe c) (mListernerHandleId c)
    (mPulisherHandleId c) (mAutoPublish c) (mVideoCodecImageType c) x.

(** The global client pointer. *)
Inductive gptr := Null | Live (c : BaiduRtcClient) | Dangling.

Record sys := mk_sys {
  g_client : gptr;
  told : list RtcMessage;
  acts : list media_act;
  g_exit : bool }.

Definition set_g_client (x : gptr) (c : sys) : sys :=
  mk_sys x (told c) (acts c) (g_exit c).
Definition set_told (x : list RtcMessage) (c : sys) : sys :=
  mk_sys (g_client c) x (acts c) (g_exit c).
Definition set_acts (x : list media_act) (c : sys) : sys :=
  mk_sys (g_client c) (told c) x (g_exit c).
Definition set_g_exit (x : bool) (c : sys) : sys :=
  mk_sys (g_client c) (told c) (acts c) x.

Abbreviation K := (M sys).

(** Functions that test their client against NULL. *)
Definition with_client {A} (d : A) (k : BaiduRtcClient -> K A) : K A :=
  g ← gets g_client;
  match g with Null => mret d | Live c => k c | Dangling => ub end.

Definition put (c : BaiduRtcClient) : K unit := modify (set_g_client (Live c)).

Definition act (a : media_act) : K unit := modify (fun s => set_acts (acts s ++ [a]) s).

(** ** The observer functions *)

(** The guards they share: a client, an observer, and the observer's handle. *)
Definition guarded (handle : list Z) (k : BaiduRtcClient -> K unit) : K unit :=
  with_client tt (fun c =>
    match mObserver c with
    | None => mret tt
    | Some h => if bool_decide (handle = h) then k c else mret tt
    end).

Definition notify (t : RtcMessageType) (d : option Z) (e : option (list Z))
  (c : BaiduRtcClient) : K unit :=
  when (mRtcMessageListener c) (modify (fun s => set_told (told s ++ [mk_msg t d e]) s)).

Definition onCirrusDisconnected (handle : list Z) : K unit := guarded handle (fun _ => mret tt).

Definition onPublisherJoined (handle : list Z) (h : Z) : K unit :=
  guarded handle (fun c =>
    put (set_mPulisherHandleId h c) ;;
    when (mAutoPublish c) (act (publish_feed h))).

(** The description is handed on before the handle is compared. *)
Definition onPublisherRemoteJsep (handle : list Z) (h : Z) (jsep : list Z) : K unit :=
  with_client tt (fun c =>
    match mObserver c with
    | None => mret tt
    | Some _ => act (remote_jsep h jsep)
    end).

Definition subscriberHandleRemoteJsep (handle : list Z) (h : Z) (jsep : list Z) : K unit :=
  guarded handle (fun c =>
    put (set_mListernerHandleId h c) ;;
    act (answer_offer h jsep)).

Definition onLeaving (handle : list Z) (h : Z) : K unit :=
  guarded handle (notify RTC_MESSAGE_ROOM_EVENT_REMOTE_LEAVING (Some (i64 h)) None).

Definition onListenerNACKs (handle : list Z) (n : Z) : K unit := guarded handle (fun _ => mret tt).

Definition onNACKs (handle : list Z) (n : Z) : K unit :=
  guarded handle (notify RTC_STATE_STREAM_SLOW_LINK_NACKS (Some n) None).

Definition onUnpublished (handle : list Z) : K unit := guarded handle (fun _ => mret tt).

Definition onRTCLoginOK (handle : list Z) : K unit :=
  guarded handle (notify RTC_MESSAGE_ROOM_EVENT_LOGIN_OK None None).

Definition onRTCLoginTimeout (handle : list Z) : K unit :=
  guarded handle (notify RTC_MESSAGE_ROOM_EVENT_LOGIN_TIMEOUT None None).

Definition onRTCLoginError (handle : list Z) : K unit :=
  guarded handle (notify RTC_MESSAGE_ROOM_EVENT_LOGIN_ERROR None None).

Definition onRTCConnectError (handle : list Z) : K unit :=
  guarded handle (notify RTC_MESSAGE_ROOM_EVENT_LOGIN_ERROR None None).

Definition onRTCWebrtcUp (handle : list Z) (h : Z) : K unit :=
  guarded handle (fun c =>
    when (h =? mPulisherHandleId c) (act (start_media h)) ;;
    notify RTC_MESSAGE_STATE_STREAM_UP (Some (i64 h)) None c).

Definition onRTCMediaStreamingEvent (handle : list Z) (h type : Z) (sending : bool) : K unit :=
  guarded handle (notify (if sending then RTC_MESSAGE_STATE_SENDING_MEDIA_OK
                          else RTC_MESSAGE_STATE_SENDING_MEDIA_FAILED) None None).

Definition onRTCHangUp (handle : list Z) (h : Z) : K unit :=
  guarded handle (notify RTC_MESSAGE_STATE_STREAM_DOWN None None).

Definition onRTCFeedComing (handle : list Z) (feed : Z) (name : list Z) : K unit :=
  guarded handle (notify RTC_MESSAGE_ROOM_EVENT_REMOTE_COMING (Some (i64 feed)) (Some name)).

Definition onRTCUserMessage (handle : list Z) (feed : Z) (msg : list Z) : K unit :=
  guarded handle (notify RTC_ROOM_EVENT_ON_USER_MESSAGE (Some (i64 feed)) (Some msg)).

Definition onRTCUserAttribute (handle : list Z) (feed : Z) (attr : list Z) : K unit :=
  guarded handle (notify RTC_ROOM_EVENT_ON_USER_ATTRIBUTE (Some (i64 feed)) (Some attr)).

Definition onRTCUserJoinedRoom (handle : list Z) (feed : Z) (name : list Z) : K unit :=
  guarded handle (notify RTC_ROOM_EVENT_ON_USER_JOINED_ROOM (Some (i64 feed)) (Some name)).

Definition onRTCUserLeavingRoom (handle : list Z) (feed : Z) : K unit :=
  guarded handle (notify RTC_ROOM_EVENT_ON_USER_LEAVING_ROOM (Some (i64 feed)) None).

Definition onRTCError (handle : list Z) (code : Z) (error : list Z) : K unit :=
  guarded handle (notify RTC_MESSAGE_ROOM_EVENT_SERVER_ERROR (Some code) (Some error)).

(** The table that [init] installs. *)
Definition deliver (handle : list Z) (o : obs) : K unit :=
  match o with
  | Conn.onCirrusDisconnected => onCirrusDisconnected handle
  | Conn.onPublisherJoined h => onPublisherJoined handle h
  | Conn.onPublisherRemoteJsep h j => onPublisherRemoteJsep handle h j
  | Conn.subscriberHandleRemoteJsep h j => subscriberHandleRemoteJsep handle h j
  | Conn.onLeaving h => onLeaving handle h
  | Conn.onListenerNACKs n => onListenerNACKs handle n
  | Conn.onNACKs n => onNACKs handle n
  | Conn.onUnpublished => onUnpublished handle
  | Conn.onRTCLoginOK => onRTCLoginOK handle
  | Conn.onRTCLoginError => onRTCLoginError handle
  | Conn.onRTCConnectError => onRTCConnectError handle
  | Conn.onRTCWebrtcUp h => onRTCWebrtcUp handle h
  | Conn.onRTCMediaStreamingEvent h t s => onRTCMediaStreamingEvent handle h t s
  | Conn.onRTCHangUp h => onRTCHangUp handle h
  | Conn.onRTCFeedComing f n => onRTCFeedComing handle f n
  | Conn.onRTCUserMessage f m => onRTCUserMessage handle f m
  | Conn.onRTCUserAttribute f a => onRTCUserAttribute handle f a
  | Conn.onRTCUserJoinedRoom f n => onRTCUserJoinedRoom handle f n
  | Conn.onRTCUserLeavingRoom f => onRTCUserLeavingRoom handle f
  | Conn.onRTCError c e => onRTCError handle c e
  end.

Section Operations.
Context (rand : nat -> Z) (mem_ok : nat -> bool).

(** ** Operations on the connection *)

(** The connection where it is used without a test. *)
Definition ready (c : BaiduRtcClient) : K conn :=
  match mFRTCconn c with Ready conn => mret conn | _ => ub end.

(** An operation of the connection, then the observer calls it has made. *)
Definition on_conn {A} (m : Conn.C A) (c : BaiduRtcClient) : K A :=
  conn ← ready c;
  handle ← of_option (mObserver c);
  '(a, conn') ← of_option (m conn);
  put (set_mFRTCconn (Ready conn') c) ;;
  for_each (deliver handle) (drop (length (seen conn)) (seen conn')) ;;
  mret a.

(** An event of the web socket. *)
Definition ws (ev : ws_event) : K unit :=
  with_client tt (on_conn (RTCConnection_baidurtc_client rand mem_ok init_observer ev)).

(** ** Creation and room log-in *)

Definition createClient (ok : bool) : K unit :=
  if ok then
    put (mk_client false false NoConn None false None [] (bytes_of "0")
      (bytes_of "wss://rtc.exp.bcelive.com/janus") [] (bytes_of "h263") true 0 0 true None
      defaultSetting)
  else ub.

(** A constructed connection; the numbers drawn so far stay drawn. *)
Definition construct (p : conn_ptr) : conn :=
  match p with
  | Ready old => set_rands (rands old) FRTCConnection_construct
  | _ => FRTCConnection_construct
  end.

(** [conn_ok], [obs_ok], [handle_ok]: success of the three allocations, where
    they are made; the last one is not tested. *)
Definition init (conn_ok obs_ok handle_ok : bool) : K bool :=
  with_client false (fun c =>
    if mIsInitialized c then mret false else
    match mFRTCconn c, conn_ok with
    | NoConn, false => mret false
    | p, _ =>
      match mObserver c, obs_ok with
      | None, false => put (set_mFRTCconn (match p with NoConn => Raw | _ => p end) c) ;; mret false
      | _, _ =>
        if negb handle_ok then ub else
        '(handle, conn) ← of_option (generateString rand 10 (construct p));
        put (set_mIsInitialized true (set_mObserver (Some handle)
          (set_mFRTCconn (Ready conn) c))) ;;
        mret true
      end
    end).

(** [live]: the web socket is still open. *)
Definition deInit (live : bool) : K unit :=
  with_client tt (fun c =>
    if negb (mIsInitialized c) then mret tt else
    conn ← ready c;
    when (mRTCConnected conn) (on_conn (disconnect init_observer live) c) ;;
    with_client tt (fun c => put (set_mIsInitialized false (set_mIsLoginRoom false c)))).

(** The settings that [loginRoom] passes on, in its order. *)
Definition login_settings (app roomName userId displayName token : list Z)
  (c : BaiduRtcClient) (cfg : settings) : settings :=
  let p := mParamSettings c in
  let cfg := cfg_SDKTag (bytes_of "BRTC.RTOS.SDK V3.0.1") cfg in
  let cfg := cfg_AppId app cfg in
  let cfg := cfg_CerPath (cCer c) cfg in
  let cfg := cfg_VideoCodec (cVideoCodec c) cfg in
  let cfg := cfg_HasAudio (HasAudio p) cfg in
  let cfg := cfg_HasVideo (HasVideo p) cfg in
  let cfg := cfg_HasData (HasData p) cfg in
  let cfg := cfg_MediaServerIP (cMediaServerIP c) cfg in
  let cfg := cfg_AutoSubscribe (cAutoSubscribe c) cfg in
  let cfg := cfg_AsListener (AsListener p) cfg in
  let cfg := cfg_AsPublisher (AsPublisher p) cfg in
  let cfg := cfg_RoomName roomName cfg in
  let cfg := cfg_UserId userId cfg in
  let cfg := cfg_TokenStr token cfg in
  let cfg := cfg_HasVideo false cfg in
  cfg_DisplayName displayName cfg.

Definition loginRoom (roomName userId displayName token : list Z) (opened : bool) : K bool :=
  with_client false (fun c =>
    if mIsLoginRoom c then mret true else
    match mFRTCconn c with
    | NoConn => mret false
    | Raw => ub
    | Ready conn =>
      app ← of_option (cAppId c);
      feed ← of_option (atoll (cFeedID c ++ [0]));
      let conn := set_mFeedId (u64 feed)
        (set_mCfg (login_settings app roomName userId displayName token c (mCfg conn)) conn) in
      let c := set_mParamSettings (set_HasVideo false (mParamSettings c))
        (set_mFRTCconn (Ready conn) c) in
      on_conn (connecting init_observer (cMediaServerURL c) opened) c ;;
      with_client tt (fun c => put (set_mIsLoginRoom true c)) ;;
      mret true
    end).

Definition logoutRoom (live : bool) : K bool :=
  with_client false (fun c =>
    if negb (mIsLoginRoom c) then mret true else
    conn ← ready c;
    when (mRTCConnected conn)
      (on_conn (disconnect init_observer live) c ;; modify (set_g_exit true)) ;;
    with_client tt (fun c => put (set_mIsLoginRoom false c)) ;;
    mret true).

(** ** The keepalive watchdog

    The result is [None] where the C function ends without a return. *)
Definition baidu_rtc_signal_keepalive : K (option Z) :=
  with_client None (fun c =>
    match mFRTCconn c with
    | Ready conn =>
      if negb (mWSCtx conn) then mret None else
      if negb (mbAliving conn) then
        on_conn (call init_observer Conn.onRTCConnectError ;;
                 call init_observer Conn.onCirrusDisconnected) c ;;
        mret (Some 1)
      else
        on_conn (modify (set_mbAliving false) ;; keepAlive rand) c ;;
        mret None
    | NoConn => mret None
    | Raw => ub
    end).

Definition baidu_rtc_signal_keepalive_check_result : K (option Z) :=
  with_client None (fun c =>
    match mFRTCconn c with
    | Ready conn =>
      if negb (mWSCtx conn) then mret None else
      if negb (mbAliving conn) then
        on_conn (call init_observer Conn.onRTCConnectError ;;
                 call init_observer Conn.onCirrusDisconnected) c ;;
        mret (Some 1)
      else mret None
    | NoConn => mret None
    | Raw => ub
    end).

(** ** Settings and requests *)

Definition setParamSettings (t : RtcParamSettingType) (p : option RtcParameterSettings) : K unit :=
  with_client tt (fun c =>
    match t, p with
    | RTC_PARAM_SETTINGS_ALL, Some p => put (set_mParamSettings p c)
    | RTC_VIDEO_PARAM_SETTINGS_BITRATE, Some p =>
      put (set_mParamSettings (set_VideoMaxkbps (VideoMaxkbps p) (mParamSettings c)) c)
    | _, _ => mret tt
    end).

Definition setFeedId (feed : list Z) : K unit := with_client tt (fun c => put (set_cFeedID feed c)).
Definition setCER (cer : list Z) : K unit := with_client tt (fun c => put (set_cCer cer c)).

Definition setVideoCodec (vc : list Z) : K unit :=
  with_client tt (fun c =>
    match mFRTCconn c with
    | NoConn => mret tt
    | Raw => ub
    | Ready conn =>
      let c :=
        if bool_decide (take 4 vc = bytes_of "h263")
        then set_mVideoCodecImageType (Some RTC_IMAGE_TYPE_H263) c
        else if bool_decide (take 4 vc = bytes_of "h264")
        then set_mVideoCodecImageType (Some RTC_IMAGE_TYPE_H264) c else c in
      put (set_mFRTCconn (Ready (set_mCfg (cfg_VideoCodec vc (mCfg conn)) conn))
             (set_cVideoCodec vc c))
    end).

Definition setMediaServerURL (url : option (list Z)) : K unit :=
  with_client tt (fun c =>
    match url with Some u => put (set_cMediaServerURL u c) | None => mret tt end).

(** Without a client this dereferences NULL. *)
Definition setAppID (app : option (list Z)) : K unit :=
  match app with
  | None => mret tt
  | Some a =>
    g ← gets g_client;
    match g with Live c => put (set_cAppId (Some a) c) | _ => ub end
  end.

Definition setMediaServerIP (ip : list Z) : K unit :=
  with_client tt (fun c => put (set_cMediaServerIP ip c)).

Definition registerRtcMessageListener (set_ : bool) : K unit :=
  with_client tt (fun c => put (set_mRtcMessageListener set_ c)).

(** Requests through the connection, when there is one. *)
Definition if_conn (m : Conn.C unit) (c : BaiduRtcClient) : K unit :=
  match mFRTCconn c with NoConn => mret tt | _ => on_conn m c end.

Definition sendMessageToUser (msg id : list Z) : K unit :=
  with_client tt (if_conn (
    z ← of_option (atoll (id ++ [0]));
    Conn.sendMessageToUser rand msg (u64 z) false)).

Definition subscribeStreaming (feed : list Z) : K unit :=
  with_client tt (fun c =>
    let c := set_cFeedID feed c in
    put c ;;
    if_conn (z ← of_option (atoll (feed ++ [0])); subscriberCreateHandle rand mem_ok (u64 z)) c).

Definition stopSubscribeStreaming : K unit :=
  with_client tt (fun c => if_conn (detach rand (mListernerHandleId c)) c).

Definition startPublish : K unit :=
  with_client tt (fun c => act (publish_feed (mPulisherHandleId c))).

Definition stopPublish : K unit :=
  with_client tt (fun c => if_conn (unpublish rand (mPulisherHandleId c)) c).

(** The observer is dereferenced before it is tested; [g_client] keeps the
    pointer to the freed client. *)
Definition destoryClient : K unit :=
  g ← gets g_client;
  match g with
  | Live c => of_option (mObserver c) ;; modify (set_g_client Dangling)
  | _ => ub
  end.

End Operations.
End Client.
