(* ===== verification/RtcClientProps.v ===== *)
(** * Properties of the signalling client

    The keepalive watchdog reports a silent server and accepts an answering
    one; in every state an application can reach, leaving the room and shutting
    the client down are safe. *)

From stdpp Require Import gmap.
From S2P Require Import Prelude Effects Libc CoreJson Mbuf RtcConnection RtcConnectionInv.
From S2P Require Import RtcConnectionProps RtcClient.
Import Json Conn Client.

(** ** The watchdog *)

(** The message is an answer to a keepalive; the code compares as many
    characters as the value has. *)
Definition is_ack (mem : list Z) (len : Z) : Prop :=
  exists v, finds mem len "janus" v /\ v <> [] /\ lit "ack" v = true.

(** Events that do not show that the server lives. *)
Definition silent (ev : ws_event) : Prop :=
  match ev with
  | MG_EV_WS_OPEN => False
  | MG_EV_WS_MSG mem len => ~ is_ack mem len
  | _ => True
  end.

(** A keepalive is unanswered and the web socket is there. *)
Definition waiting (c : conn) : Prop := mbAliving c = false /\ mWSCtx c = true.

(** Another kind of a message starts with another letter. *)
Lemma ack_kind v : v <> [] -> lit "ack" v = true ->
  lit "success" v = false /\ lit "error" v = false /\ lit "event" v = false.
Proof.
  destruct v as [|x v]; [done|]. intros _. unfold lit.
  change (bytes_of "ack") with [97; 99; 107]. cbn [strn_eq].
  by destruct (Z.eqb_spec 97 x) as [<-|].
Qed.

Section Watchdog.
Context (rand : nat -> Z) (mem_ok : nat -> bool).

Lemma waiting_generate n : keeps waiting (generateString rand n).
Proof.
  unfold generateString. generalize (n - 1)%nat. intros k.
  induction k as [|k IH]; cbn [generate_chars]; keeps_go.
Qed.
Lemma waiting_malloc : keeps waiting (malloc mem_ok).
Proof. unfold malloc. keeps_go. Qed.
Lemma waiting_send text : keeps waiting (sendMessage text).
Proof. unfold sendMessage. keeps_go. Qed.
Lemma waiting_call o : keeps waiting (call init_observer o).
Proof. unfold call. keeps_go. Qed.
#[local] Hint Resolve waiting_generate waiting_malloc waiting_send waiting_call : conn_keep.

Lemma run_success_waiting f mem len : keeps waiting (run_success rand mem_ok f mem len).
Proof.
  destruct f; cbn; unfold createSession_callback, publisherCreateHandle_callback,
    createRoom_callback, subscriberCreateHandle_callback, publisherCreateHandle, createRoom,
    publisherJoinRoom, subscriberJoinRoom, new_handle, register; keeps_go.
Qed.

Lemma waiting_event mem len : keeps waiting (onEvent rand mem_ok init_observer mem len).
Proof.
  unfold onEvent, onEvent_leaving, onEvent_unpublished, onEvent_joined, onEvent_jsep,
    onEvent_nacks, onEvent_error, onEvent_publisher, onPublisherJoined_callback,
    onPublisherRemoteJsep_callback, subscriberHandleRemoteJsep_callback,
    subscriberCreateHandle, register. keeps_go.
Qed.
#[local] Hint Resolve run_success_waiting waiting_event : conn_keep.

(** What a search has found is in the message. *)
Lemma search_value mem len q v c c1 janus c2 :
  search mem len q c = Some (Some v, c1) -> value mem (Some v) c1 = Some (janus, c2) ->
  finds mem len q janus /\ c1 = c /\ c2 = c.
Proof.
  unfold search. fold (lookup_json mem len q). destruct v as [i n].
  destruct (lookup_json mem len q) as [[r o]|] eqn:E; [|done].
  destruct r; try done. destruct o as [o|]; [|done]. intros [= -> <-]. cbn.
  destruct (Mb.slice mem i n) as [l|] eqn:El; [|done]. intros [= <- <-].
  split; [|done]. by exists i, n.
Qed.

Lemma onRTCMessage_waiting mem len : ~ is_ack mem len ->
  keeps waiting (onRTCMessage rand mem_ok init_observer mem len).
Proof.
  intros Ha. unfold onRTCMessage.
  apply keeps_bind; [apply keeps_gets|]. intros [|]; cbn [negb]; [|keeps_go].
  apply keeps_bind; [auto with conn_keep|]. intros [|]; cbn [negb]; [|keeps_go].
  intros c a c' Hc H. apply bind_run in H as (v & c1 & Hs & H).
  destruct v as [v|].
  2:{ assert (c1 = c) as -> by (pose proof (search_keeps (eq c) mem len "janus" c _ _ eq_refl Hs);
        by subst). by injection H as <- <-. }
  apply bind_run in H as (janus & c2 & Hv & H).
  destruct (search_value _ _ _ _ _ _ _ _ Hs Hv) as (Hf & -> & ->).
  revert H. match goal with |- ?m c = _ -> _ => assert (Hk : keeps waiting m); [|by apply Hk] end.
  apply keeps_bind; [auto with conn_keep|]. intros t.
  apply keeps_bind; [auto with conn_keep|]. intros trans.
  destruct (lit "success" janus) eqn:Es.
  { unfold on_success, clear_slot, free_transaction. keeps_go. }
  destruct (lit "error" janus); [unfold on_error, clear_slot, free_transaction; keeps_go|].
  destruct (lit "event" janus); [keeps_go|].
  destruct (lit "ack" janus) eqn:Ek.
  { destruct Ha. exists janus. split_and!; [done|by intros ->|done]. }
  unfold onSessionEvent, onSessionEvent_recvdata, nonempty, on_media, sender_id, on_slowlink.
  keeps_go.
Qed.

Lemma silent_waiting ev : silent ev ->
  keeps waiting (RTCConnection_baidurtc_client rand mem_ok init_observer ev).
Proof.
  destruct ev; cbn; [done|intros _; apply keeps_ret|apply onRTCMessage_waiting|..];
    intros _; unfold onRTCClosed; keeps_go.
Qed.

Lemma keepAlive_waiting : keeps waiting (keepAlive rand).
Proof. unfold keepAlive. keeps_go. Qed.

End Watchdog.

(** ** What the observer functions leave alone *)

(** The client is there, with the connection, observer, listener and flags of [c]. *)
Definition link (c : BaiduRtcClient) (s : sys) : Prop :=
  exists c', g_client s = Live c' /\ mFRTCconn c' = mFRTCconn c /\ mObserver c' = mObserver c /\
    mRtcMessageListener c' = mRtcMessageListener c /\
    mIsInitialized c' = mIsInitialized c /\ mIsLoginRoom c' = mIsLoginRoom c.

Lemma link_keep c s x : link c s -> g_client x = g_client s -> link c x.
Proof. unfold link. by intros H ->. Qed.

Lemma with_client_live {A} d (k : BaiduRtcClient -> K A) c s :
  g_client s = Live c -> with_client d k s = k c s.
Proof. intros E. unfold with_client, mbind, M_bind. cbn. by rewrite E. Qed.

Definition runs_linked (m : K unit) : Prop :=
  forall c s, link c s -> exists s', m s = Some (tt, s') /\ link c s'.

Lemma runs_for_each {A} (f : A -> K unit) l :
  (forall x, runs_linked (f x)) -> runs_linked (for_each f l).
Proof.
  intros Hf. induction l as [|x l IH]; intros c s Hs; [by exists s|].
  destruct (Hf x c s Hs) as (s1 & E1 & H1). destruct (IH c s1 H1) as (s2 & E2 & H2).
  exists s2. split; [|done]. cbn. unfold mbind, M_bind. by rewrite E1.
Qed.

(** Every observer function runs, whatever handle it is called with. *)
Lemma deliver_runs handle o : runs_linked (deliver handle o).
Proof.
  intros c s (c' & E & Hc & Ho & Hl & Hi & Hr).
  destruct o; cbn [deliver]; unfold Client.onCirrusDisconnected, Client.onPublisherJoined,
    Client.onPublisherRemoteJsep, Client.subscriberHandleRemoteJsep, Client.onLeaving,
    Client.onListenerNACKs, Client.onNACKs, Client.onUnpublished, Client.onRTCLoginOK,
    Client.onRTCLoginError, Client.onRTCConnectError, Client.onRTCWebrtcUp,
    Client.onRTCMediaStreamingEvent, Client.onRTCHangUp, Client.onRTCFeedComing,
    Client.onRTCUserMessage, Client.onRTCUserAttribute, Client.onRTCUserJoinedRoom,
    Client.onRTCUserLeavingRoom, Client.onRTCError, guarded; rewrite (with_client_live _ _ _ _ E);
    destruct (mObserver c') as [hd|] eqn:?; try case_bool_decide;
    unfold notify, when, act, put, modify, mret, M_ret, mbind, M_bind; repeat case_match; simplify_eq;
    (eexists; split; [reflexivity|eexists; split; [first [exact E|reflexivity]|split_and!; cbn; congruence]]).
Qed.

(** ** Operations on the connection *)

Lemma on_conn_runs {A} (m : C A) c s conn h a conn' :
  mFRTCconn c = Ready conn -> mObserver c = Some h -> m conn = Some (a, conn') ->
  exists s', on_conn m c s = Some (a, s') /\ link (set_mFRTCconn (Ready conn') c) s'.
Proof.
  intros Hc Ho Hm.
  destruct (runs_for_each (deliver h) (drop (length (seen conn)) (seen conn')) (deliver_runs h)
    (set_mFRTCconn (Ready conn') c) (set_g_client (Live (set_mFRTCconn (Ready conn') c)) s))
    as (s' & Hd & Hl); [eexists; by split|].
  exists s'. split; [|done]. unfold on_conn, ready, mbind, M_bind. rewrite Hc, Ho.
  cbn. rewrite Hm. cbn. unfold mbind, M_bind in Hd. by rewrite Hd.
Qed.

Lemma on_conn_inv {A} (m : C A) c s a s' :
  on_conn m c s = Some (a, s') ->
  exists conn h conn', mFRTCconn c = Ready conn /\ mObserver c = Some h /\
    m conn = Some (a, conn') /\ link (set_mFRTCconn (Ready conn') c) s'.
Proof.
  intros H. destruct (mFRTCconn c) as [| |conn] eqn:Hc;
    [unfold on_conn, ready, mbind, M_bind in H; by rewrite Hc in H..|].
  destruct (mObserver c) as [h|] eqn:Ho;
    [|unfold on_conn, ready, mbind, M_bind in H; by rewrite Hc, Ho in H].
  destruct (m conn) as [[a1 conn']|] eqn:Hm;
    [|unfold on_conn, ready, mbind, M_bind in H; rewrite Hc, Ho in H; cbn in H; by rewrite Hm in H].
  destruct (on_conn_runs m c s conn h a1 conn' Hc Ho Hm) as (s1 & H1 & Hl).
  rewrite H1 in H. injection H as <- <-. by exists conn, h, conn'.
Qed.

(** The connection of the client waits for an answer. *)
Definition awaiting (l : bool) (s : sys) : Prop :=
  exists c conn h, g_client s = Live c /\ mFRTCconn c = Ready conn /\ mObserver c = Some h /\
    mRtcMessageListener c = l /\ waiting conn.

Lemma link_awaiting c conn s :
  link (set_mFRTCconn (Ready conn) c) s -> is_Some (mObserver c) -> waiting conn ->
  awaiting (mRtcMessageListener c) s.
Proof.
  intros (c' & E & Hc & Ho & Hl & _) [h Hh] Hw. cbn in *.
  exists c', conn, h. split_and!; [done|done|congruence|done|done].
Qed.

Section Client.
Context (rand : nat -> Z) (mem_ok : nat -> bool).

Lemma ws_awaiting l ev : silent ev -> keeps (awaiting l) (ws rand mem_ok ev).
Proof.
  intros Hev s a s' (c & conn & h & E & Hc & Ho & Hl & Hw) H.
  unfold ws in H. rewrite (with_client_live _ _ _ _ E) in H.
  apply on_conn_inv in H as (conn1 & h1 & conn' & Hc1 & Ho1 & Hm & Hlk). simplify_eq.
  eapply link_awaiting; [done|by eauto|]. rewrite Hc in Hc1. injection Hc1 as ->.
  by eapply silent_waiting.
Qed.

Definition login_error : RtcMessage :=
  mk_msg RTC_MESSAGE_ROOM_EVENT_LOGIN_ERROR None None.

Lemma check_awaiting s : awaiting true s ->
  exists s', baidu_rtc_signal_keepalive_check_result s = Some (Some 1, s') /\
    told s' = told s ++ [login_error].
Proof.
  intros (c & conn & h & E & Hc & Ho & Hl & Ha & Hw).
  unfold baidu_rtc_signal_keepalive_check_result. rewrite (with_client_live _ _ _ _ E), Hc, Hw, Ha.
  cbn [negb]. unfold on_conn, ready, mbind, M_bind. rewrite Hc, Ho. cbn.
  rewrite <- app_assoc, drop_app_length. cbn.
  unfold Client.onRTCConnectError, Client.onCirrusDisconnected, guarded, with_client, notify, when,
    modify, mbind, M_bind; cbn.
  rewrite !Ho. rewrite !bool_decide_true by done. cbn. rewrite Hl. cbn.
  rewrite !Ho. rewrite !bool_decide_true by done. eexists. split; [reflexivity|done].
Qed.

(** A server that falls silent is reported: after a keepalive of a live
    connection, whatever events come in, if none of them is an
    acknowledgement or a new connection, the check of the result returns 1 and
    tells the application's listener of the failure. *)
Theorem silent_server_reported s c conn r s1 evs u s2
  (Hg : g_client s = Live c) (Hc : mFRTCconn c = Ready conn)
  (Hw : mWSCtx conn = true) (Ha : mbAliving conn = true) (Hl : mRtcMessageListener c = true)
  (Hk : baidu_rtc_signal_keepalive rand s = Some (r, s1))
  (Hs : Forall silent evs) (Hr : for_each (ws rand mem_ok) evs s1 = Some (u, s2)) :
  exists s3, baidu_rtc_signal_keepalive_check_result s2 = Some (Some 1, s3) /\
    told s3 = told s2 ++ [login_error].
Proof.
  apply check_awaiting. assert (H1 : awaiting true s1).
  { unfold baidu_rtc_signal_keepalive in Hk.
    rewrite (with_client_live _ _ _ _ Hg), Hc, Hw, Ha in Hk. cbn [negb] in Hk.
    apply bind_run in Hk as (a & s' & Hk & [= <- <-]).
    apply on_conn_inv in Hk as (conn1 & h & conn' & Hc1 & Ho & Hm & Hlk).
    rewrite Hc in Hc1. injection Hc1 as <-. rewrite <- Hl.
    eapply link_awaiting; [done|by eauto|].
    apply bind_run in Hm as (? & conn2 & [= _ <-] & Hm).
    refine (keepAlive_waiting rand _ _ _ _ Hm). by split. }
  clear -Hs Hr H1. revert s1 H1 Hr. induction Hs as [|ev evs Hev _ IH]; intros s1 H1 Hr.
  { by injection Hr as <- <-. }
  apply bind_run in Hr as (a & s' & He & Hr). eapply IH; [|exact Hr].
  by eapply ws_awaiting.
Qed.

(** A server that answers is kept: an acknowledgement on a connection
    makes the check find nothing to report, and the next keepalive is sent
    instead of an error. *)
Theorem ack_keeps_alive s c conn h mem len v trans
  (Hg : g_client s = Live c) (Hc : mFRTCconn c = Ready conn) (Ho : mObserver c = Some h)
  (Hcon : mRTCConnected conn = true) (Hw : mWSCtx conn = true)
  (Hv : valid mem len) (Hj : finds mem len "janus" v) (Hn : v <> []) (Hack : lit "ack" v = true)
  (Ht : finds mem len "transaction" trans \/ (lacks mem len "transaction" /\ trans = [])) :
  exists s1 c1, ws rand mem_ok (MG_EV_WS_MSG mem len) s = Some (tt, s1) /\
    told s1 = told s /\ g_client s1 = Live c1 /\
    mFRTCconn c1 = Ready (set_mbAliving true conn) /\
    baidu_rtc_signal_keepalive_check_result s1 = Some (None, s1) /\
    baidu_rtc_signal_keepalive rand s1
      = (on_conn (modify (set_mbAliving false) ;; keepAlive rand) c1 ;; mret None) s1.
Proof.
  destruct (ack_kind v Hn Hack) as (K1 & K2 & K3).
  assert (Hm : onRTCMessage rand mem_ok init_observer mem len conn
    = Some (tt, set_mbAliving true conn)).
  { unfold onRTCMessage. gets_step. rewrite Hcon. cbn [negb].
    step (validate_valid mem len conn Hv). cbn [negb].
    destruct (search_finds _ _ _ _ Hj) as (i & n & Hs & Hval). step (Hs conn). step (Hval conn).
    destruct Ht as [Ht|[Ht ->]].
    - destruct (search_finds _ _ _ _ Ht) as (i' & n' & Hs' & Hval').
      step (Hs' conn). step (Hval' conn). by rewrite K1, K2, K3, Hack.
    - step (search_lacks mem len "transaction" conn Ht). cbn [value]. gets_step.
      by rewrite K1, K2, K3, Hack. }
  set (c1 := set_mFRTCconn (Ready (set_mbAliving true conn)) c).
  exists (set_g_client (Live c1) s), c1. split_and!; [|done..| |].
  - unfold ws. rewrite (with_client_live _ _ _ _ Hg). unfold on_conn, ready, mbind, M_bind.
    rewrite Hc, Ho. cbn. rewrite Hm. cbn. by rewrite drop_all.
  - unfold baidu_rtc_signal_keepalive_check_result. rewrite (with_client_live _ _ c1) by done.
    subst c1. cbn. by rewrite Hw.
  - unfold baidu_rtc_signal_keepalive. rewrite (with_client_live _ _ c1) by done.
    subst c1. cbn. by rewrite Hw.
Qed.

(** ** The life of the client *)

(** What the application calls, and what the web socket delivers. *)
Inductive api :=
| Create (ok : bool)
| Init (conn_ok obs_ok handle_ok : bool)
| DeInit (live : bool)
| Login (room user name token : list Z) (opened : bool)
| Logout (live : bool)
| Socket (ev : ws_event)
| Ping
| Ping_check
| Params (t : RtcParamSettingType) (p : option RtcParameterSettings)
| Set_feed (x : list Z)
| Set_cer (x : list Z)
| Set_codec (x : list Z)
| Set_url (x : option (list Z))
| Set_app (x : option (list Z))
| Set_ip (x : list Z)
| Set_listener (b : bool)
| Send_user (msg id : list Z)
| Subscribe_to (feed : list Z)
| Unsubscribe
| Start
| Stop
| Destroy.

Definition run (o : api) : K unit :=
  match o with
  | Create ok => createClient ok
  | Init a b h => init rand a b h ;; mret tt
  | DeInit live => deInit live
  | Login r u n t opened => loginRoom r u n t opened ;; mret tt
  | Logout live => logoutRoom live ;; mret tt
  | Socket ev => ws rand mem_ok ev
  | Ping => baidu_rtc_signal_keepalive rand ;; mret tt
  | Ping_check => baidu_rtc_signal_keepalive_check_result ;; mret tt
  | Params t p => setParamSettings t p
  | Set_feed x => setFeedId x
  | Set_cer x => setCER x
  | Set_codec x => setVideoCodec x
  | Set_url x => setMediaServerURL x
  | Set_app x => setAppID x
  | Set_ip x => setMediaServerIP x
  | Set_listener b => registerRtcMessageListener b
  | Send_user m i => Client.sendMessageToUser rand m i
  | Subscribe_to f => subscribeStreaming rand mem_ok f
  | Unsubscribe => stopSubscribeStreaming rand
  | Start => startPublish
  | Stop => stopPublish rand
  | Destroy => destoryClient
  end.

Definition start : sys := mk_sys Null [] [] false.

Inductive client_reachable : sys -> Prop :=
| client_start : client_reachable start
| client_step s o u s' : client_reachable s -> run o s = Some (u, s') -> client_reachable s'.

(** An initialised or logged-in client has a constructed connection; a
    constructed connection keeps its invariant and has an observer. *)
Definition sane_client (c : BaiduRtcClient) : Prop :=
  (mIsInitialized c = true \/ mIsLoginRoom c = true -> exists conn, mFRTCconn c = Ready conn) /\
  (forall conn, mFRTCconn c = Ready conn -> wf conn /\ is_Some (mObserver c)).

Definition sane (s : sys) : Prop :=
  match g_client s with Live c => sane_client c | _ => True end.

Lemma link_sane c s : link c s -> sane_client c -> sane s.
Proof.
  intros (c' & E & Hc & Ho & _ & Hi & Hr) [H1 H2]. unfold sane. rewrite E.
  unfold sane_client. by rewrite Hc, Ho, Hi, Hr.
Qed.

Lemma sane_with {A} d (k : BaiduRtcClient -> K A) :
  (forall c, sane_client c -> keeps sane (k c)) -> keeps sane (with_client d k).
Proof.
  intros H s a s' Hs Hr. unfold with_client in Hr. apply bind_run in Hr as (g & s1 & [= <- <-] & Hr).
  destruct (g_client s) as [|c|] eqn:E; [by injection Hr as <- <-| |done].
  eapply H; [|exact Hs|exact Hr]. unfold sane in Hs. by rewrite E in Hs.
Qed.

Lemma sane_put c : sane_client c -> keeps sane (put c).
Proof. intros H s a s' _ [= <- <-]. exact H. Qed.

(** A new connection in place of the old one. *)
Lemma sane_conn conn c : wf conn -> is_Some (mObserver c) ->
  sane_client (set_mFRTCconn (Ready conn) c).
Proof. intros Hw Ho. split; cbn; [by eauto|]. by intros ? [= <-]. Qed.

Lemma sane_on_conn {A} (m : C A) c : sane_client c -> kept m -> keeps sane (on_conn m c).
Proof.
  intros [_ H2] Hm s a s' _ Hr.
  apply on_conn_inv in Hr as (conn & h & conn' & Hc & Ho & Hr & Hl).
  eapply link_sane; [exact Hl|]. destruct (H2 conn Hc) as [Hw Hs].
  apply sane_conn; [|done]. by destruct (Hm None conn a conn' (conj Hw Logic.I) Hr).
Qed.

Lemma wf_same c c' : same_slots c c' -> wf c -> wf c'.
Proof. intros Hs Hw. by destruct (I_same None c c' Hs (conj Hw Logic.I)). Qed.

(** Goes through a client operation. *)
Ltac sane_go :=
  repeat match goal with
  | |- forall _, _ => intros ?
  | |- keeps _ (with_client _ _) => apply sane_with; intros
  | |- keeps _ (put _) => apply sane_put
  | |- keeps _ (on_conn _ _) => apply sane_on_conn; [done|]
  | |- keeps _ (mret _) => apply keeps_ret
  | |- keeps _ ub => apply keeps_ub
  | |- keeps _ (_ ≫= _) => apply keeps_bind
  | |- keeps _ (gets _) => apply keeps_gets
  | |- keeps _ (of_option _) => apply keeps_of_option
  | |- keeps _ (when _ _) => apply keeps_when
  | |- keeps _ (ready _) => unfold ready
  | |- keeps _ (act _) => by apply keeps_modify
  | |- keeps _ (modify _) => by apply keeps_modify
  | |- keeps _ (if ?b then _ else _) => destruct b
  | |- keeps _ (match ?x with _ => _ end) => destruct x eqn:?
  | |- kept _ => solve [kept_go]
  | |- sane_client _ => done
  end.

Lemma construct_ptr_wf p : wf (construct p).
Proof. destruct p; [apply construct_wf..|]. by eapply wf_same; [|apply construct_wf]. Qed.

Lemma init_sane a b h : keeps sane (init rand a b h).
Proof.
  unfold init. apply sane_with. intros c Hc. destruct (mIsInitialized c) eqn:Ei; [apply keeps_ret|].
  assert (Hnew : keeps sane (if negb h then ub else
    '(handle, conn) ← of_option (generateString rand 10 (construct (mFRTCconn c)));
    put (set_mIsInitialized true (set_mObserver (Some handle)
      (set_mFRTCconn (Ready conn) c))) ;; mret true)).
  { destruct h; cbn [negb]; [|apply keeps_ub].
    intros s r s' Hs Hr. apply bind_run in Hr as ([id conn] & s1 & Hg & Hr).
    destruct (generateString rand 10 (construct (mFRTCconn c))) as [[id' conn']|] eqn:E; [|done].
    injection Hg as -> -> <-. injection Hr as <- <-.
    split; cbn; [by eauto|]. intros ? [= <-]. split; [|done].
    eapply wf_same; [|apply (construct_ptr_wf (mFRTCconn c))]. by eapply quiet_generate. }
  assert (Hraw : keeps sane
    (put (set_mFRTCconn (match mFRTCconn c with NoConn => Raw | _ => mFRTCconn c end) c) ;;
     mret false)).
  { apply keeps_bind; [|intros; apply keeps_ret]. apply sane_put. destruct Hc as [H1 H2].
    destruct (mFRTCconn c) eqn:E; split; cbn; try done; try by eauto.
    intros Hf. by destruct (H1 Hf). }
  destruct (mFRTCconn c), a; try apply keeps_ret; destruct (mObserver c), b; done.
Qed.

Lemma login_sane r u n t opened : keeps sane (loginRoom r u n t opened).
Proof.
  unfold loginRoom. apply sane_with. intros c [H1 H2].
  destruct (mIsLoginRoom c); [apply keeps_ret|].
  destruct (mFRTCconn c) as [| |conn] eqn:Hc; [apply keeps_ret|apply keeps_ub|].
  destruct (H2 conn eq_refl) as [Hw Ho].
  apply keeps_bind; [apply keeps_of_option|]. intros app.
  apply keeps_bind; [apply keeps_of_option|]. intros feed. cbv zeta.
  match goal with |- keeps _ (on_conn _ ?c0 ≫= _) => set (c1 := c0) end.
  intros s a s' _ Hr. apply bind_run in Hr as ([] & s1 & Hr & Hr').
  apply on_conn_inv in Hr as (conn1 & h & conn2 & Hc1 & _ & Hx & Hl).
  destruct Hl as (c2 & E2 & Hc2 & Ho2 & _). cbn in Hc2, Ho2.
  apply bind_run in Hr' as ([] & s2 & Hp & [= <- <-]).
  rewrite (with_client_live _ _ _ _ E2) in Hp. injection Hp as <-.
  split; cbn; [by eauto|]. rewrite Ho2. intros conn3 Hc3. split; [|done].
  rewrite Hc2 in Hc3. injection Hc3 as <-.
  assert (Hk : kept (connecting init_observer (cMediaServerURL c1) opened))
    by (unfold connecting; kept_go).
  assert (Hw1 : wf conn1).
  { subst c1. cbn in Hc1. injection Hc1 as <-. eapply wf_same; [|exact Hw]. by repeat split. }
  by destruct (Hk None conn1 tt conn2 (conj Hw1 Logic.I) Hx).
Qed.

(** Lowering the flags. *)
Lemma sane_out c : sane_client c -> sane_client (set_mIsLoginRoom false c).
Proof. intros [H1 H2]. split; [|done]. cbn. intros [H|]; [by apply H1; left|done]. Qed.
Lemma sane_off c :
  sane_client c -> sane_client (set_mIsInitialized false (set_mIsLoginRoom false c)).
Proof. intros [H1 H2]. split; [|done]. by intros [|]. Qed.

Lemma if_conn_sane m c : sane_client c -> kept m -> keeps sane (if_conn m c).
Proof.
  intros Hc Hm. unfold if_conn. destruct (mFRTCconn c); [apply keeps_ret|..];
    by apply sane_on_conn.
Qed.

Lemma run_sane o : keeps sane (run o).
Proof.
  destruct o; cbn [run].
  - unfold createClient. destruct ok; [|apply keeps_ub]. apply sane_put. split; cbn; [|done].
    by intros [|].
  - apply keeps_bind; [apply init_sane|]. intros. apply keeps_ret.
  - unfold deInit, disconnect, onRTCClosed. sane_go. by apply sane_off.
  - apply keeps_bind; [apply login_sane|]. intros. apply keeps_ret.
  - unfold logoutRoom, disconnect, onRTCClosed. sane_go. by apply sane_out.
  - unfold ws. sane_go. apply client_event_kept.
  - unfold baidu_rtc_signal_keepalive, keepAlive. sane_go.
  - unfold baidu_rtc_signal_keepalive_check_result. sane_go.
  - unfold setParamSettings. sane_go.
  - unfold setFeedId. sane_go.
  - unfold setCER. sane_go.
  - unfold setVideoCodec. sane_go. destruct (proj2 H _ Heqc0).
    apply (sane_conn _ (set_cVideoCodec x _)); repeat case_bool_decide; try done;
      (eapply wf_same; [|done]; by repeat split).
  - unfold setMediaServerURL. sane_go.
  - unfold setAppID. destruct x; [|apply keeps_ret]. intros s [] s' Hs Hr.
    apply bind_run in Hr as (g & s1 & [= <- <-] & Hr). unfold sane in Hs.
    destruct (g_client s) eqn:E; [done| |done]. by injection Hr as <-.
  - unfold setMediaServerIP. sane_go.
  - unfold registerRtcMessageListener. sane_go.
  - unfold Client.sendMessageToUser, Conn.sendMessageToUser. sane_go.
    apply if_conn_sane; [done|kept_go].
  - unfold subscribeStreaming. sane_go. apply if_conn_sane; [done|]. kept_go.
  - unfold stopSubscribeStreaming, detach. sane_go. apply if_conn_sane; [done|kept_go].
  - unfold startPublish. sane_go.
  - unfold stopPublish, unpublish. sane_go. apply if_conn_sane; [done|kept_go].
  - unfold destoryClient. intros s [] s' Hs Hr.
    apply bind_run in Hr as (g & s1 & [= <- <-] & Hr).
    destruct (g_client s) eqn:E; [done| |done].
    apply bind_run in Hr as (h & s1 & _ & Hr). by injection Hr as <-.
Qed.

Lemma reachable_sane s : client_reachable s -> sane s.
Proof. induction 1 as [|s o u s' _ IH Hr]; [done|]. by eapply run_sane. Qed.

(** What shutting down leaves of a connection: an open one is released, one
    that is still being opened stays. *)
Definition shut (conn conn' : conn) : Prop :=
  mRTCConnected conn' = false /\
  if mRTCConnected conn then mWSCtx conn' = false /\ mWSConnetion conn' = false else conn' = conn.

Lemma disconnect_runs live conn : mRTCConnected conn = true ->
  exists conn', disconnect init_observer live conn = Some (tt, conn') /\ shut conn conn'.
Proof.
  intros Hc. unfold shut. rewrite Hc. unfold disconnect, onRTCClosed, when, mbind, M_bind. cbn.
  destruct (mWSCtx conn), live; by eexists.
Qed.

(** The connection of a client is closed if it was open. *)
Lemma close_runs live c conn s (after_ : K unit) : runs_linked after_ ->
  sane_client c -> g_client s = Live c -> mFRTCconn c = Ready conn ->
  exists s' c' conn',
    when (mRTCConnected conn) (on_conn (disconnect init_observer live) c ;; after_) s
      = Some (tt, s') /\
    g_client s' = Live c' /\ mFRTCconn c' = Ready conn' /\ shut conn conn' /\
    mIsInitialized c' = mIsInitialized c.
Proof.
  intros Ha [_ H2] Hg Hc. destruct (H2 conn Hc) as [_ [h Ho]].
  destruct (mRTCConnected conn) eqn:E; cbn [when]; [|exists s, c, conn; unfold shut; by rewrite E].
  destruct (disconnect_runs live conn E) as (conn' & Hd & Hf).
  destruct (on_conn_runs _ c s conn h _ _ Hc Ho Hd) as (s1 & E1 & Hl).
  destruct (Ha _ s1 Hl) as (s2 & E2 & c' & Hg' & Hc' & _ & _ & Hi & _).
  exists s2, c', conn'. split_and!; [|done..]. unfold mbind, M_bind. by rewrite E1.
Qed.

Lemma skip_linked : runs_linked (mret tt).
Proof. intros c s H. by exists s. Qed.
Lemma exit_linked : runs_linked (modify (set_g_exit true)).
Proof. intros c s H. eexists. split; [reflexivity|]. by eapply link_keep. Qed.

Lemma when_skip b (m : K unit) s : when b m s = when b (m ;; mret tt) s.
Proof. destruct b; [|done]. cbn. unfold mbind, M_bind. by destruct (m s) as [[[] ?]|]. Qed.

(** C35: whatever the application has called and the web socket has delivered,
    as long as the client has not been destroyed, shutting it down and leaving
    the room have defined behaviour, clear their flags, and release a
    connection that is open, with its web socket; one that is still being
    opened stays as it is. *)
Theorem client_shuts_down s c live (Hr : client_reachable s) (Hg : g_client s = Live c) :
  (exists s' c', deInit live s = Some (tt, s') /\ g_client s' = Live c' /\
    mIsInitialized c' = false /\
    (mIsInitialized c = true -> mIsLoginRoom c' = false /\
     exists conn conn', mFRTCconn c = Ready conn /\ mFRTCconn c' = Ready conn' /\ shut conn conn')) /\
  (exists s' c', logoutRoom live s = Some (true, s') /\ g_client s' = Live c' /\
    mIsLoginRoom c' = false /\ mIsInitialized c' = mIsInitialized c /\
    (mIsLoginRoom c = true ->
     exists conn conn', mFRTCconn c = Ready conn /\ mFRTCconn c' = Ready conn' /\ shut conn conn')).
Proof.
  pose proof (reachable_sane s Hr) as Hs. unfold sane in Hs. rewrite Hg in Hs.
  unfold deInit, logoutRoom. rewrite !(with_client_live _ _ _ _ Hg). split.
  - destruct (mIsInitialized c) eqn:Ei; cbn [negb]; [|by exists s, c].
    destruct (proj1 Hs (or_introl Ei)) as [conn Hc].
    destruct (close_runs live c conn s _ skip_linked Hs Hg Hc) as (s' & c' & conn' & E & E' & Hx & Hy & _).
    rewrite <- when_skip in E. unfold ready. rewrite Hc. unfold mbind at 1, M_bind at 1. cbn.
    unfold mbind, M_bind at 1. rewrite E. rewrite (with_client_live _ _ _ _ E').
    eexists _, _. split_and!; [reflexivity..|]. intros _. split; [done|]. by exists conn, conn'.
  - destruct (mIsLoginRoom c) eqn:Ei; cbn [negb]; [|by exists s, c].
    destruct (proj1 Hs (or_intror Ei)) as [conn Hc].
    destruct (close_runs live c conn s _ exit_linked Hs Hg Hc) as (s' & c' & conn' & E & E' & Hx & Hy & Hz).
    unfold ready. rewrite Hc. unfold mbind at 1, M_bind at 1. cbn.
    unfold mbind at 1, M_bind at 1. rewrite E.
    unfold mbind, M_bind. rewrite (with_client_live _ _ _ _ E').
    eexists _, _. split_and!; [reflexivity|reflexivity|reflexivity|exact Hz|]. intros _. by exists conn, conn'.
Qed.

End Client.

(** ** A run *)

Definition next_sys (s : sys) (o : api) : sys :=
  match run demo_rand always o s with Some (_, s) => s | None => s end.

Definition session_text : list Z := Eval vm_compute in
  json_text "{'janus':'success','transaction':'BIPWdkry5CJQ','data':{'id':77}}".

Definition log_in : list api :=
  [Create true; Init true true true; Set_app (Some (bytes_of "app")); Set_listener true;
   Login (bytes_of "room") (bytes_of "7") (bytes_of "me") (bytes_of "token") true;
   Socket MG_EV_WS_OPEN; Socket (message session_text)].

Definition logged_in : sys := Eval vm_compute in foldl next_sys start log_in.

Definition the_client : BaiduRtcClient := Eval vm_compute in
  match g_client logged_in with
  | Live c => c
  | _ => mk_client false false NoConn None false None [] [] [] [] [] false 0 0 false None
           defaultSetting
  end.
Definition the_conn : conn := Eval vm_compute in
  match mFRTCconn the_client with Ready c => c | _ => FRTCConnection_construct end.

Example logged_in_session : mSessionId the_conn = 77 /\ mIsLoginRoom the_client = true.
Proof. by vm_compute. Qed.

Definition hangup_text : list Z := Eval vm_compute in json_text "{'janus':'hangup','sender':5}".
Definition ack_text : list Z := Eval vm_compute in json_text "{'janus':'ack','session_id':77}".

Definition pinged : sys := Eval vm_compute in next_sys logged_in Ping.
Definition silence : list ws_event := [MG_EV_CONNECT; message hangup_text].
Definition still_silent : sys := Eval vm_compute in foldl next_sys pinged (map Socket silence).

Lemma silent_server_reported_witness :
  exists s3, baidu_rtc_signal_keepalive_check_result still_silent = Some (Some 1, s3) /\
    told s3 = told still_silent ++ [login_error].
Proof.
  apply (silent_server_reported demo_rand always logged_in the_client the_conn None pinged
    silence tt still_silent); [reflexivity..|by vm_compute| |by vm_compute].
  repeat constructor. intros (v & (i & n & E & Ev) & Hn & Hl). cbn [message] in *.
  vm_compute in E. injection E as <- <-. vm_compute in Ev. injection Ev as <-.
  by vm_compute in Hl.
Defined.

Definition pinged_client : BaiduRtcClient := Eval vm_compute in
  match g_client pinged with Live c => c | _ => the_client end.
Definition pinged_conn : conn := Eval vm_compute in
  match mFRTCconn pinged_client with Ready c => c | _ => the_conn end.
Definition observer_handle : list Z := Eval vm_compute in
  match mObserver pinged_client with Some h => h | _ => [] end.

Lemma ack_keeps_alive_witness :
  exists s1 c1, ws demo_rand always (message ack_text) pinged = Some (tt, s1) /\
    told s1 = told pinged /\ g_client s1 = Live c1 /\
    mFRTCconn c1 = Ready (set_mbAliving true pinged_conn) /\
    baidu_rtc_signal_keepalive_check_result s1 = Some (None, s1) /\
    baidu_rtc_signal_keepalive demo_rand s1
      = (on_conn (modify (set_mbAliving false) ;; keepAlive demo_rand) c1 ;; mret None) s1.
Proof.
  apply (ack_keeps_alive demo_rand always pinged pinged_client pinged_conn observer_handle
    (ack_text ++ [0]) (zlen ack_text) (bytes_of "ack") []); [reflexivity..|by vm_compute| | |by vm_compute|].
  - found 10 3.
  - discriminate.
  - right. split; [missing|done].
Defined.

Lemma play_reachable l s : client_reachable demo_rand always s ->
  client_reachable demo_rand always (foldl next_sys s l).
Proof.
  revert s. induction l as [|o l IH]; intros s Hs; [done|]. cbn. apply IH. unfold next_sys.
  destruct (run demo_rand always o s) as [[u s']|] eqn:E; [|done]. by eapply client_step.
Qed.

Lemma client_shuts_down_witness :
  (exists s' c', deInit true logged_in = Some (tt, s') /\ g_client s' = Live c' /\
    mIsInitialized c' = false /\
    (mIsInitialized the_client = true -> mIsLoginRoom c' = false /\
     exists conn conn', mFRTCconn the_client = Ready conn /\ mFRTCconn c' = Ready conn' /\ shut conn conn')) /\
  (exists s' c', logoutRoom true logged_in = Some (true, s') /\ g_client s' = Live c' /\
    mIsLoginRoom c' = false /\ mIsInitialized c' = mIsInitialized the_client /\
    (mIsLoginRoom the_client = true ->
     exists conn conn', mFRTCconn the_client = Ready conn /\ mFRTCconn c' = Ready conn' /\ shut conn conn')).
Proof.
  apply (client_shuts_down demo_rand always logged_in the_client true).
  - change logged_in with (foldl next_sys start log_in). apply play_reachable. constructor.
  - reflexivity.
Defined.
