(* ===== verification/Rtp.v ===== *)
(** * The RTP header

    Models [rtp_hdr_encode] and [rtp_hdr_decode] of src/re/src/rtp/rtp.c
    over the memory buffers of Mbuf.v. *)

From S2P Require Import Prelude Effects Mbuf MbufProps.
Import Mb.

Module Rtp.

Definition RTP_HEADER_SIZE : Z := 12.
Definition RTP_CSRC_MAX : Z := 16.

Record rtp_header := mk_hdr {
  h_ver : Z;
  h_pad : bool;
  h_ext : bool;
  h_cc : Z;
  h_m : bool;
  h_pt : Z;
  h_seq : Z;
  h_ts : Z;
  h_ssrc : Z;
  h_csrc : list Z;
  h_x_type : Z;
  h_x_len : Z }.

Definition b2z (b : bool) : Z := if b then 1 else 0.

Definition hdr_byte0 (h : rtp_header) : Z :=
  u8 (Z.lor (Z.lor (Z.lor (Z.shiftl (Z.land (h_ver h) 0x02) 6)
                          (Z.shiftl (Z.land (b2z (h_pad h)) 0x01) 5))
                   (Z.shiftl (Z.land (b2z (h_ext h)) 0x01) 4))
            (Z.shiftl (Z.land (h_cc h) 0x0f) 0)).

Definition hdr_byte1 (h : rtp_header) : Z :=
  u8 (Z.lor (Z.shiftl (Z.land (b2z (h_m h)) 0x01) 7) (Z.shiftl (Z.land (h_pt h) 0x7f) 0)).

Section Alloc.
Context (alloc_ok : Z -> bool) (junk : Z -> Z).

(** The [csrc] loop; an index past the 16 entries is out of bounds. *)
Fixpoint csrc_encode (n : nat) (mb : mbuf) (csrc : list Z) (i err : Z)
  : option (Z * mbuf) :=
  match n with
  | O => Some (err, mb)
  | S n =>
    c ← rd csrc i;
    '(e, mb) ← mbuf_write_u32 alloc_ok junk mb (htonl c);
    csrc_encode n mb csrc (i + 1) (Z.lor err e)
  end.

Definition rtp_hdr_encode (mb : mbuf) (h : rtp_header) : option (Z * mbuf) :=
  '(e0, mb) ← mbuf_write_mem alloc_ok junk mb [hdr_byte0 h; hdr_byte1 h];
  '(e1, mb) ← mbuf_write_u16 alloc_ok junk mb (htons (h_seq h));
  '(e2, mb) ← mbuf_write_u32 alloc_ok junk mb (htonl (h_ts h));
  '(e3, mb) ← mbuf_write_u32 alloc_ok junk mb (htonl (h_ssrc h));
  csrc_encode (Z.to_nat (h_cc h)) mb (h_csrc h) 0
    (Z.lor (Z.lor (Z.lor e0 e1) e2) e3).

End Alloc.

Fixpoint csrc_decode (n : nat) (mb : mbuf) (out : list Z) : option (list Z * mbuf) :=
  match n with
  | O => Some (out, mb)
  | S n =>
    '(v, mb) ← mbuf_read_u32 mb;
    csrc_decode n mb (out ++ [ntohl v])
  end.

Definition hdr_zero : rtp_header :=
  mk_hdr 0 false false 0 false 0 0 0 0 [] 0 0.

(** The result code, the header as far as it was stored (the [csrc] entries
    read), and the buffer. *)
Definition rtp_hdr_decode (mb : mbuf) : option (Z * rtp_header * mbuf) :=
  if mbuf_get_left mb <? RTP_HEADER_SIZE then Some (EBADMSG, hdr_zero, mb) else
  '(err, buf, mb) ← mbuf_read_mem mb 2;
  if negb (err =? 0) then Some (err, hdr_zero, mb) else
  b0 ← rd buf 0;
  b1 ← rd buf 1;
  let ver := Z.land (Z.shiftr b0 6) 0x03 in
  let pad := Z.land (Z.shiftr b0 5) 0x01 =? 1 in
  let ext := Z.land (Z.shiftr b0 4) 0x01 =? 1 in
  let cc := Z.land (Z.shiftr b0 0) 0x0f in
  let m := Z.land (Z.shiftr b1 7) 0x01 =? 1 in
  let pt := Z.land (Z.shiftr b1 0) 0x7f in
  '(seq, mb) ← mbuf_read_u16 mb;
  '(ts, mb) ← mbuf_read_u32 mb;
  '(ssrc, mb) ← mbuf_read_u32 mb;
  let hdr csrc xt xl :=
    mk_hdr ver pad ext cc m pt (ntohs seq) (ntohl ts) (ntohl ssrc) csrc xt xl in
  if mbuf_get_left mb <? cc * 4 then Some (EBADMSG, hdr [] 0 0, mb) else
  '(csrc, mb) ← csrc_decode (Z.to_nat cc) mb [];
  if ext then
    if mbuf_get_left mb <? 4 then Some (EBADMSG, hdr csrc 0 0, mb) else
    '(xt, mb) ← mbuf_read_u16 mb;
    '(xl, mb) ← mbuf_read_u16 mb;
    let xl := ntohs xl in
    if mbuf_get_left mb <? xl * 4 then Some (EBADMSG, hdr csrc (ntohs xt) xl, mb)
    else Some (0, hdr csrc (ntohs xt) xl, set_pos (usz (mb_pos mb + xl * 4)) mb)
  else Some (0, hdr csrc 0 0, mb).

(** ** The wire format *)

Definition be16 (v : Z) : list Z := rev (le_bytes 2 v).
Definition be32 (v : Z) : list Z := rev (le_bytes 4 v).

Definition wire (h : rtp_header) : list Z :=
  [hdr_byte0 h; hdr_byte1 h] ++ be16 (h_seq h) ++ be32 (h_ts h) ++ be32 (h_ssrc h) ++
  concat (map be32 (h_csrc h)).

(** Headers that the encoder can represent: version 0 or 2, no extension
    (which the encoder announces but does not write). *)
Record hdr_ok (h : rtp_header) : Prop := {
  ok_ver : h_ver h = 0 \/ h_ver h = 2;
  ok_ext : h_ext h = false;
  ok_cc : h_cc h = zlen (h_csrc h) /\ h_cc h <= 15;
  ok_pt : 0 <= h_pt h < 128;
  ok_seq : 0 <= h_seq h < 65536;
  ok_ts : 0 <= h_ts h < 2 ^ 32;
  ok_ssrc : 0 <= h_ssrc h < 2 ^ 32;
  ok_csrc : Forall (fun c => 0 <= c < 2 ^ 32) (h_csrc h);
  ok_x : h_x_type h = 0 /\ h_x_len h = 0 }.

Lemma be16_len v : zlen (be16 v) = 2.
Proof. done. Qed.
Lemma be32_len v : zlen (be32 v) = 4.
Proof. done. Qed.

(** *** Bits of the first two bytes, by enumeration *)

Lemma byte0_fields h :
  hdr_ok h ->
  let b := hdr_byte0 h in
  0 <= b < 256 /\ Z.land (Z.shiftr b 6) 0x03 = h_ver h /\
  (Z.land (Z.shiftr b 5) 0x01 =? 1) = h_pad h /\
  (Z.land (Z.shiftr b 4) 0x01 =? 1) = h_ext h /\
  Z.land (Z.shiftr b 0) 0x0f = h_cc h.
Proof.
  intros [Hv He [Hcc Hc15] _ _ _ _ _ _]. unfold hdr_byte0. rewrite He.
  pose proof (zlen_nonneg (h_csrc h)).
  assert (Hc : 0 <= h_cc h < 0 + 16) by lia. revert Hc. clear - Hv. generalize (h_cc h).
  destruct Hv as [-> | ->]; destruct (h_pad h); apply z_enum; by_enum.
Qed.

Lemma byte1_fields h :
  hdr_ok h ->
  let b := hdr_byte1 h in
  0 <= b < 256 /\ (Z.land (Z.shiftr b 7) 0x01 =? 1) = h_m h /\
  Z.land (Z.shiftr b 0) 0x7f = h_pt h.
Proof.
  intros [_ _ _ Hpt _ _ _ _ _]. unfold hdr_byte1.
  assert (Hc : 0 <= h_pt h < 0 + 128) by lia. revert Hc. clear. generalize (h_pt h).
  destruct (h_m h); apply z_enum; by_enum.
Qed.

(** ** Encoding *)

Section Encode.
Context (alloc_ok : Z -> bool) (junk : Z -> Z).

(** A write of [d] that may have failed with [err]. *)
Definition wr (mb mb' : mbuf) (d : list Z) (err : Z) : Prop :=
  mb_wf mb' /\ mb_pos mb' <= mb_pos mb + zlen d /\ (err = 0 -> written mb mb' d).

Lemma write_wr mb d :
  mb_wf mb -> mb_pos mb + zlen d <= SIZE_MAX ->
  exists err mb', mbuf_write_mem alloc_ok junk mb d = Some (err, mb') /\ wr mb mb' d err.
Proof.
  intros Hwf Hd. pose proof (zlen_nonneg d).
  destruct (write_mem_ok alloc_ok junk mb d Hwf Hd) as (err & mb' & E & H').
  do 2 eexists. split; [exact E|]. destruct (Z.eqb_spec err 0) as [->|Hne].
  - pose proof H' as (? & ? & _). split_and!; [done|lia|done].
  - subst mb'. split_and!; [done|lia|done].
Qed.

Lemma wr_app mb mb1 mb2 a b e1 e2 :
  mb_wf mb -> wr mb mb1 a e1 -> wr mb1 mb2 b e2 -> wr mb mb2 (a ++ b) (Z.lor e1 e2).
Proof.
  intros Hwf (H1 & H2 & H3) (G1 & G2 & G3). split_and!; [done|rewrite zlen_app; lia|].
  intros [-> ->]%Z.lor_eq_0_iff. eapply written_app; eauto.
Qed.

Lemma csrc_encode_wr n mb pre post mb0 d err :
  length post = n -> mb_wf mb0 -> wr mb0 mb d err ->
  mb_pos mb0 + zlen d + 4 * zlen post <= SIZE_MAX ->
  exists err' mb', csrc_encode alloc_ok junk n mb (pre ++ post) (zlen pre) err
    = Some (err', mb') /\ wr mb0 mb' (d ++ concat (map be32 post)) err'.
Proof.
  revert mb pre post d err. induction n as [|n IH]; intros mb pre post d err Hn Hwf0 Hw Hs.
  - destruct post; [|done]. cbn. rewrite app_nil_r. eauto.
  - destruct post as [|c post]; [done|]. cbn [csrc_encode].
    assert (Hc : rd (pre ++ c :: post) (zlen pre) = Some c).
    { unfold rd, zlen. rewrite (proj2 (Z.leb_le _ _)) by lia. rewrite Nat2Z.id.
      rewrite lookup_app_r, Nat.sub_diag by lia. done. }
    rewrite Hc. cbn [mbind option_bind]. unfold mbuf_write_u32. rewrite htonl_bytes.
    fold (be32 c). pose proof Hw as (Hwf & Hp & _).
    unfold zlen in Hs. cbn [length] in Hs.
    destruct (write_wr mb (be32 c) Hwf) as (e & mb1 & -> & Hw1);
      [rewrite be32_len; unfold zlen in *; lia|]. cbn [mbind option_bind].
    destruct (IH mb1 (pre ++ [c]) post (d ++ be32 c) (Z.lor err e)) as (err' & mb' & E & H').
    + by injection Hn.
    + done.
    + by eapply wr_app.
    + rewrite zlen_app, be32_len. unfold zlen in *. lia.
    + rewrite <- app_assoc, zlen_app in E. cbn in E. change (zlen [c]) with 1 in E.
      rewrite E. do 2 eexists. split; [done|]. cbn. by rewrite <- app_assoc in H'.
Qed.

Lemma rtp_hdr_encode_wr mb h :
  hdr_ok h -> mb_wf mb -> mb_pos mb + 12 + 4 * zlen (h_csrc h) <= SIZE_MAX ->
  exists err mb', rtp_hdr_encode alloc_ok junk mb h = Some (err, mb') /\
  wr mb mb' (wire h) err.
Proof.
  intros Hok Hwf Hs. pose proof (zlen_nonneg (h_csrc h)).
  unfold rtp_hdr_encode, mbuf_write_u16, mbuf_write_u32.
  rewrite htons_bytes, !htonl_bytes.
  fold (be16 (h_seq h)) (be32 (h_ts h)) (be32 (h_ssrc h)).
  destruct (write_wr mb [hdr_byte0 h; hdr_byte1 h] Hwf) as (e0 & mb0 & -> & W0);
    [change (zlen [hdr_byte0 h; hdr_byte1 h]) with 2; lia|]. cbn [mbind option_bind].
  pose proof W0 as (Hwf0 & Hp0 & _). change (zlen [hdr_byte0 h; hdr_byte1 h]) with 2 in Hp0.
  destruct (write_wr mb0 (be16 (h_seq h)) Hwf0) as (e1 & mb1 & -> & W1);
    [rewrite be16_len; lia|]. cbn [mbind option_bind].
  pose proof W1 as (Hwf1 & Hp1 & _). rewrite be16_len in Hp1.
  destruct (write_wr mb1 (be32 (h_ts h)) Hwf1) as (e2 & mb2 & -> & W2);
    [rewrite be32_len; lia|]. cbn [mbind option_bind].
  pose proof W2 as (Hwf2 & Hp2 & _). rewrite be32_len in Hp2.
  destruct (write_wr mb2 (be32 (h_ssrc h)) Hwf2) as (e3 & mb3 & -> & W3);
    [rewrite be32_len; lia|]. cbn [mbind option_bind].
  assert (W := wr_app _ _ _ _ _ _ _ Hwf W0 W1).
  apply (wr_app _ _ _ _ _ _ _ Hwf W) in W2. apply (wr_app _ _ _ _ _ _ _ Hwf W2) in W3.
  destruct (ok_cc _ Hok) as [Hcc _].
  edestruct (csrc_encode_wr (Z.to_nat (h_cc h)) mb3 [] (h_csrc h) mb)
    as (err & mb' & E & Hw); [|done|exact W3| |].
  - rewrite Hcc. unfold zlen. lia.
  - change (mb_pos mb + 12 + 4 * zlen (h_csrc h) <= SIZE_MAX). lia.
  - cbn [app] in E. change (zlen (@nil Z)) with 0 in E. rewrite E. do 2 eexists.
    split; [done|]. unfold wire. by rewrite <- !app_assoc in Hw.
Qed.

End Encode.

(** ** Decoding *)

Lemma csrc_decode_avail l mb out rest :
  Forall (fun c => 0 <= c < 2 ^ 32) l -> avail mb (concat (map be32 l) ++ rest) ->
  csrc_decode (length l) mb out
    = Some (out ++ l, set_pos (mb_pos mb + 4 * zlen l) mb) /\
  avail (set_pos (mb_pos mb + 4 * zlen l) mb) rest.
Proof.
  intros Hl. revert mb out. induction Hl as [|c l Hc Hl IH]; intros mb out Hav.
  - cbn. change (zlen (@nil Z)) with 0. rewrite Z.mul_0_r, Z.add_0_r, app_nil_r.
    by destruct mb.
  - cbn [map concat] in Hav. rewrite <- app_assoc in Hav. cbn [length csrc_decode].
    destruct (read_int_avail 4 mb (be32 c) _ eq_refl Hav) as [E Hav']. unfold mbuf_read_u32.
    rewrite E. cbn [mbind option_bind]. rewrite be32_len in *.
    change (le_value (be32 c)) with (htonl c). rewrite ntohl_htonl by done.
    destruct (IH _ (out ++ [c]) Hav') as [-> Hav'']. cbn in Hav'' |- *.
    replace (mb_pos mb + 4 + 4 * zlen l) with (mb_pos mb + 4 * zlen (c :: l)) in *
      by (unfold zlen; cbn; lia).
    rewrite <- app_assoc. done.
Qed.

Lemma be32s_len l : zlen (concat (map be32 l)) = 4 * zlen l.
Proof.
  induction l as [|c l IH]; [done|]. cbn [map concat]. rewrite zlen_app, be32_len, IH.
  unfold zlen. cbn. lia.
Qed.

Lemma wire_len h : zlen (wire h) = 12 + 4 * zlen (h_csrc h).
Proof.
  unfold wire. rewrite !zlen_app, be16_len, !be32_len, be32s_len.
  change (zlen [_; _]) with 2. lia.
Qed.

Lemma rtp_hdr_decode_wire mb h rest :
  hdr_ok h -> avail mb (wire h ++ rest) ->
  rtp_hdr_decode mb = Some (0, h, set_pos (mb_pos mb + zlen (wire h)) mb).
Proof.
  intros Hok Hav. pose proof (left_avail _ _ Hav) as Hleft.
  rewrite zlen_app, wire_len in Hleft. pose proof (zlen_nonneg rest).
  pose proof (zlen_nonneg (h_csrc h)). rewrite wire_len. unfold rtp_hdr_decode.
  destruct (Z.ltb_spec (mbuf_get_left mb) RTP_HEADER_SIZE);
    [unfold RTP_HEADER_SIZE in *; lia|].
  unfold wire in Hav. rewrite <- !app_assoc in Hav.
  destruct (avail_split _ _ _ Hav) as [G0 G1].
  apply read_mem_avail in G0. change (zlen [_; _]) with 2 in *. rewrite G0.
  no_error.
  change (rd [hdr_byte0 h; hdr_byte1 h] 0) with (Some (hdr_byte0 h)).
  change (rd [hdr_byte0 h; hdr_byte1 h] 1) with (Some (hdr_byte1 h)).
  cbn [mbind option_bind].
  destruct (byte0_fields h Hok) as (_ & -> & -> & -> & ->).
  destruct (byte1_fields h Hok) as (_ & -> & ->).
  destruct (read_int_avail 2 _ (be16 (h_seq h)) _ eq_refl G1) as [E1 G2]. unfold mbuf_read_u16.
  rewrite E1. cbn [mbind option_bind]. rewrite be16_len in G2 |- *.
  destruct (read_int_avail 4 _ (be32 (h_ts h)) _ eq_refl G2) as [E2 G3]. unfold mbuf_read_u32.
  rewrite E2. cbn [mbind option_bind]. rewrite be32_len in G3 |- *.
  destruct (read_int_avail 4 _ (be32 (h_ssrc h)) _ eq_refl G3) as [E3 G4]. rewrite E3.
  cbn [mbind option_bind]. rewrite be32_len in G4 |- *. cbn [set_pos mb_pos] in *.
  change (le_value (be16 (h_seq h))) with (htons (h_seq h)).
  change (le_value (be32 (h_ts h))) with (htonl (h_ts h)).
  change (le_value (be32 (h_ssrc h))) with (htonl (h_ssrc h)).
  destruct Hok as [_ Hext [Hcc _] _ Hseq Hts Hssrc Hcsrc [Hx1 Hx2]].
  rewrite ntohs_htons, !ntohl_htonl by done.
  destruct (csrc_decode_avail (h_csrc h) _ [] rest Hcsrc G4) as [E4 G5].
  pose proof (left_avail _ _ G4) as Hl4. rewrite zlen_app in Hl4.
  match goal with |- context [?a <? h_cc h * 4] =>
    destruct (Z.ltb_spec a (h_cc h * 4)) as [Hlt|_] end.
  { rewrite Hcc in Hlt. rewrite be32s_len in Hl4. lia. }
  replace (Z.to_nat (h_cc h)) with (length (h_csrc h)) by (rewrite Hcc; unfold zlen; lia).
  cbn [set_pos mb_buf mb_size mb_end] in E4 |- *. rewrite E4. cbn [mbind option_bind].
  rewrite Hext. cbn [app]. do 2 f_equal.
  - destruct h; cbn in *; subst; done.
  - unfold set_pos; cbn. f_equal; lia.
Qed.

(** ** Safety of the decoder *)

(** [mb'] is [mb] at a later position that is not behind the end. *)
Definition moved (mb mb' : mbuf) : Prop :=
  exists n, 0 <= n <= mbuf_get_left mb /\ mb' = set_pos (mb_pos mb + n) mb.

Lemma moved_refl mb : moved mb mb.
Proof.
  exists 0. split; [unfold mbuf_get_left; case_match; lia|]. rewrite Z.add_0_r. by destruct mb.
Qed.

Lemma moved_step mb mb' k :
  moved mb mb' -> 0 <= k <= mbuf_get_left mb' -> moved mb (set_pos (mb_pos mb' + k) mb').
Proof.
  intros (n & Hn & ->) Hk. rewrite left_set_pos in Hk by done. exists (n + k).
  split; [lia|]. cbn. unfold set_pos. cbn. f_equal. lia.
Qed.

Lemma moved_wf mb mb' : mb_wf mb -> moved mb mb' -> mb_wf mb'.
Proof.
  intros Hwf (n & Hn & ->). pose proof Hwf as (? & ? & ? & ?). apply wf_set_pos; [done|].
  unfold mbuf_get_left in Hn. destruct (Z.ltb_spec (mb_pos mb) (mb_end mb)); lia.
Qed.

Lemma read_int_moved w mb mb' :
  mb_wf mb -> moved mb mb' -> (0 < w)%nat -> Z.of_nat w <= mbuf_get_left mb' ->
  exists v mb1, mbuf_read_int w mb' = Some (v, mb1) /\ moved mb mb1 /\
  mbuf_get_left mb1 = mbuf_get_left mb' - Z.of_nat w.
Proof.
  intros Hwf Hm Hw Hl. destruct (read_int_ok w mb') as (v & E); [by eapply moved_wf|done|done|].
  do 2 eexists. split; [exact E|]. split; [apply moved_step; [done|lia]|].
  apply left_set_pos. lia.
Qed.

Lemma csrc_decode_moved n mb mb' out :
  mb_wf mb -> moved mb mb' -> 4 * Z.of_nat n <= mbuf_get_left mb' ->
  exists l mb1, csrc_decode n mb' out = Some (l, mb1) /\ moved mb mb1 /\
  length l = (length out + n)%nat.
Proof.
  intros Hwf. revert mb' out. induction n as [|n IH]; intros mb' out Hm Hl; cbn [csrc_decode].
  - do 2 eexists. split; [done|]. split; [done|lia].
  - destruct (read_int_moved 4 mb mb' Hwf Hm) as (v & mb1 & E & Hm1 & Hl1); [lia|lia|].
    unfold mbuf_read_u32. rewrite E. cbn [mbind option_bind].
    destruct (IH mb1 (out ++ [ntohl v]) Hm1) as (l & mb2 & -> & Hm2 & Hlen); [lia|].
    do 2 eexists. split; [done|]. split; [done|]. rewrite Hlen, length_app. cbn. lia.
Qed.

Lemma cc_range b : 0 <= Z.land (Z.shiftr b 0) 0x0f <= 15.
Proof.
  pose proof (Z.land_ones (Z.shiftr b 0) 4 ltac:(lia)) as E.
  change (Z.ones 4) with 0x0f in E. rewrite E. change (2 ^ 4) with 16.
  pose proof (Z.mod_pos_bound (Z.shiftr b 0) 16 ltac:(lia)). lia.
Qed.

(** The extension header behind the contributing sources. *)
Lemma extension_safe mb mb1 (g : Z -> Z -> rtp_header) :
  mb_wf mb -> moved mb mb1 -> (forall x y, zlen (h_csrc (g x y)) <= 15) ->
  exists err h mb',
    (if mbuf_get_left mb1 <? 4 then Some (EBADMSG, g 0 0, mb1) else
     '(xt, mb2) ← mbuf_read_u16 mb1; '(xl, mb2) ← mbuf_read_u16 mb2;
     let xl := ntohs xl in
     if mbuf_get_left mb2 <? xl * 4 then Some (EBADMSG, g (ntohs xt) xl, mb2)
     else Some (0, g (ntohs xt) xl, set_pos (usz (mb_pos mb2 + xl * 4)) mb2))
      = Some (err, h, mb') /\ mb_wf mb' /\ moved mb mb' /\ zlen (h_csrc h) <= 15.
Proof.
  intros Hwf Hm1 Hg. unfold mbuf_read_u16.
  destruct (Z.ltb_spec (mbuf_get_left mb1) 4).
  { do 3 eexists. split; [done|]. split; [by eapply moved_wf|done]. }
  destruct (read_int_moved 2 _ _ Hwf Hm1) as (xt & mb6 & E6 & Hm6 & Hl6); [lia|lia|].
  rewrite E6. cbn [mbind option_bind].
  destruct (read_int_moved 2 _ _ Hwf Hm6) as (xl & mb7 & E7 & Hm7 & Hl7); [lia|lia|].
  rewrite E7. cbn [mbind option_bind].
  destruct (Z.ltb_spec (mbuf_get_left mb7) (ntohs xl * 4)) as [|Hx].
  { do 3 eexists. split; [done|]. split; [by eapply moved_wf|done]. }
  assert (0 <= ntohs xl).
  { unfold ntohs, htons. cbn. pose proof (Z.mod_pos_bound xl 256).
    pose proof (Z.mod_pos_bound (xl / 256) 256). lia. }
  assert (Hm8 : moved mb (set_pos (mb_pos mb7 + ntohs xl * 4) mb7))
    by (apply moved_step; [done|lia]).
  pose proof (moved_wf _ _ Hwf Hm8) as Hwf8. pose proof Hwf8 as (_ & ? & _). cbn in *.
  rewrite usz_small by lia. do 3 eexists. split; [done|]. done.
Qed.

Lemma hdr_decode_run mb (Hwf : mb_wf mb) :
  exists err h mb', rtp_hdr_decode mb = Some (err, h, mb') /\ mb_wf mb' /\
  moved mb mb' /\ zlen (h_csrc h) <= 15.
Proof.
  unfold rtp_hdr_decode. pose proof (moved_refl mb) as Hm0.
  assert (Hfin : forall (err : Z) h mb', moved mb mb' -> zlen (h_csrc h) <= 15 ->
    exists (err' : Z) h' mb'', Some (err, h, mb') = Some (err', h', mb'') /\ mb_wf mb'' /\
    moved mb mb'' /\ zlen (h_csrc h') <= 15).
  { intros err h mb' Hm Hc. do 3 eexists. split; [done|].
    split; [by eapply moved_wf|done]. }
  destruct (Z.ltb_spec (mbuf_get_left mb) RTP_HEADER_SIZE) as [|Hl];
    [by apply Hfin|]. unfold RTP_HEADER_SIZE in Hl.
  destruct (read_mem_ok mb 2 Hwf) as (err & d & mb1 & -> & H1); [lia|]. cbn [mbind option_bind].
  destruct (err =? 0); cbn [negb]; [|lia]. destruct H1 as (_ & Hd & -> & _).
  destruct d as [|b0 [|b1 [|? ?]]]; try (unfold zlen in Hd; cbn in Hd; lia).
  change (rd [b0; b1] 0) with (Some b0). change (rd [b0; b1] 1) with (Some b1).
  cbn [mbind option_bind].
  assert (Hm1 : moved mb (set_pos (mb_pos mb + 2) mb)) by (apply moved_step; [done|lia]).
  assert (Hl1 : mbuf_get_left (set_pos (mb_pos mb + 2) mb) = mbuf_get_left mb - 2)
    by (apply left_set_pos; lia).
  destruct (read_int_moved 2 _ _ Hwf Hm1) as (sq & mb2 & E2 & Hm2 & Hl2); [lia|lia|].
  unfold mbuf_read_u16, mbuf_read_u32. rewrite E2. cbn [mbind option_bind].
  destruct (read_int_moved 4 _ _ Hwf Hm2) as (ts & mb3 & E3 & Hm3 & Hl3); [lia|lia|].
  rewrite E3. cbn [mbind option_bind].
  destruct (read_int_moved 4 _ _ Hwf Hm3) as (sc & mb4 & E4 & Hm4 & Hl4); [lia|lia|].
  rewrite E4. cbn [mbind option_bind]. pose proof (cc_range b0) as Hcc.
  set (cc := Z.land (Z.shiftr b0 0) 0x0f) in *.
  destruct (Z.ltb_spec (mbuf_get_left mb4) (cc * 4)); [by apply Hfin|].
  destruct (csrc_decode_moved (Z.to_nat cc) mb mb4 [] Hwf Hm4) as (l & mb5 & -> & Hm5 & Hlen);
    [lia|]. cbn [mbind option_bind]. cbn in Hlen.
  assert (zlen l <= 15) by (unfold zlen; lia).
  destruct (_ =? 1); [|by apply Hfin].
  refine (extension_safe mb mb5 (fun x y => mk_hdr _ _ _ _ _ _ _ _ _ l x y) Hwf Hm5 _).
  by intros x y.
Qed.

(** [rtp_hdr_decode] is total and memory safe on any buffer: it never
    reads outside the buffer, stores at most 15 of the 16 [csrc] entries,
    leaves the bytes and the end alone, and on success the payload position
    is not behind the end. *)
Theorem rtp_hdr_decode_safe mb (Hwf : mb_wf mb) :
  exists err h mb', rtp_hdr_decode mb = Some (err, h, mb') /\ mb_wf mb' /\
  moved mb mb' /\ zlen (h_csrc h) <= 15.
Proof. by apply hdr_decode_run. Qed.

Lemma rtp_hdr_decode_safe_witness :
  exists err h mb', rtp_hdr_decode (mk_mbuf (Some (replicate 20 255)) 20 1 20)
    = Some (err, h, mb') /\ mb_wf mb' /\
  moved (mk_mbuf (Some (replicate 20 255)) 20 1 20) mb' /\ zlen (h_csrc h) <= 15.
Proof. apply rtp_hdr_decode_safe. zdec. Defined.

(** Headers survive the wire: encoding a header into a buffer and
    decoding at the same position gives the header back, and leaves the
    position at the payload. *)
Theorem rtp_hdr_roundtrip alloc_ok junk mb h mb'
  (Hok : hdr_ok h) (Hwf : mb_wf mb)
  (Hsz : mb_pos mb + 12 + 4 * zlen (h_csrc h) <= SIZE_MAX)
  (Henc : rtp_hdr_encode alloc_ok junk mb h = Some (0, mb')) :
  rtp_hdr_decode (mbuf_set_pos mb' (mb_pos mb)) = Some (0, h, mb').
Proof.
  destruct (rtp_hdr_encode_wr alloc_ok junk mb h Hok Hwf Hsz) as (err & m & E & _ & _ & Hw).
  rewrite Henc in E. injection E as <- <-.
  destruct (Hw eq_refl) as (Hwf' & Hp & He & Hs & _).
  pose proof Hwf as (_ & ? & _). pose proof (zlen_nonneg (wire h)).
  rewrite (rtp_hdr_decode_wire _ h []); [|done|].
  - unfold mbuf_set_pos, set_pos. cbn [mb_pos mb_buf mb_size mb_end].
    rewrite <- Hp. by destruct mb'.
  - rewrite app_nil_r. split_and!; [by apply wf_set_pos|done|].
    unfold mbuf_set_pos, set_pos. cbn [mb_pos mb_end]. lia.
Qed.

Definition sample_hdr : rtp_header :=
  mk_hdr 2 false false 1 true 96 0x1234 160 0x01020304 [9] 0 0.

Lemma sample_hdr_ok : hdr_ok sample_hdr.
Proof.
  split; cbn; try lia; try done.
  repeat constructor; vm_compute; congruence.
Qed.

Lemma rtp_hdr_roundtrip_witness :
  rtp_hdr_decode (mk_mbuf (Some
      [129; 224; 18; 52; 0; 0; 0; 160; 1; 2; 3; 4; 0; 0; 0; 9]) 16 0 16)
  = Some (0, sample_hdr, mk_mbuf (Some
      [129; 224; 18; 52; 0; 0; 0; 160; 1; 2; 3; 4; 0; 0; 0; 9]) 16 16 16).
Proof.
  apply (rtp_hdr_roundtrip (fun _ => true) (fun _ => 0)
    (mk_mbuf (Some (replicate 16 0)) 16 0 0) sample_hdr
    (mk_mbuf (Some [129; 224; 18; 52; 0; 0; 0; 160; 1; 2; 3; 4; 0; 0; 0; 9]) 16 16 16));
    [exact sample_hdr_ok|zdec|zdec|by vm_compute].
Defined.

End Rtp.
