(* ===== verification/Srtp.v ===== *)
(** * Secure RTP

    Models src/re/src/srtp: the replay window (replay.c), the streams of a
    session (stream.c), the packet index, the key derivation and the
    initialisation vectors (misc.c), the session and the protection of RTP
    (srtp.c) and RTCP (srtcp.c) packets.  AES and HMAC come from a
    cryptographic library and are an interface, [Crypto]. *)

From S2P Require Import Prelude Effects Mbuf Rtp.
Import Mb Rtp.

Module Srtp.

(** ** Replay protection *)

Record replay := mk_replay { r_bitmap : Z; r_lix : Z }.

Definition SRTP_WINDOW_SIZE : Z := 64.

Definition srtp_replay_init : replay := mk_replay 0 0.

Definition srtp_replay_check (r : replay) (ix : Z) : bool * replay :=
  if r_lix r <? ix then
    let diff := u64 (ix - r_lix r) in
    (true,
     if diff <? SRTP_WINDOW_SIZE
     then mk_replay (Z.lor (u64 (Z.shiftl (r_bitmap r) diff)) 1) ix
     else mk_replay 1 ix)
  else
    let diff := u64 (r_lix r - ix) in
    if SRTP_WINDOW_SIZE <=? diff then (false, r)
    else if negb (Z.land (r_bitmap r) (u64 (Z.shiftl 1 diff)) =? 0) then (false, r)
    else (true, mk_replay (Z.lor (r_bitmap r) (u64 (Z.shiftl 1 diff))) (r_lix r)).

(** ** Streams *)

Record srtp_stream := mk_stream {
  s_replay_rtp : replay;
  s_replay_rtcp : replay;
  s_ssrc : Z;
  s_roc : Z;
  s_s_l : Z;
  s_s_l_set : bool;
  s_rtcp_index : Z }.

Definition SRTP_MAX_STREAMS : Z := 8.

Definition set_seq (roc s_l : Z) (s : srtp_stream) : srtp_stream :=
  mk_stream (s_replay_rtp s) (s_replay_rtcp s) (s_ssrc s) roc s_l true (s_rtcp_index s).
Definition set_replay (r : replay) (s : srtp_stream) : srtp_stream :=
  mk_stream r (s_replay_rtcp s) (s_ssrc s) (s_roc s) (s_s_l s) (s_s_l_set s) (s_rtcp_index s).
Definition set_replay_rtcp (r : replay) (s : srtp_stream) : srtp_stream :=
  mk_stream (s_replay_rtp s) r (s_ssrc s) (s_roc s) (s_s_l s) (s_s_l_set s) (s_rtcp_index s).
Definition set_rtcp_index (i : Z) (s : srtp_stream) : srtp_stream :=
  mk_stream (s_replay_rtp s) (s_replay_rtcp s) (s_ssrc s) (s_roc s) (s_s_l s) (s_s_l_set s) i.

(** Streams are appended to the list and found by position. *)
Fixpoint stream_find_from (n : nat) (l : list srtp_stream) (ssrc : Z) : option nat :=
  match l with
  | [] => None
  | s :: l => if s_ssrc s =? ssrc then Some n else stream_find_from (S n) l ssrc
  end.

Definition stream_find (l : list srtp_stream) (ssrc : Z) : option nat :=
  stream_find_from 0 l ssrc.

Definition stream_zero (ssrc : Z) : srtp_stream :=
  mk_stream srtp_replay_init srtp_replay_init ssrc 0 0 false 0.

(** [alloc] tells whether [mem_zalloc] succeeds. *)
Definition stream_new (alloc : bool) (l : list srtp_stream) (ssrc : Z)
  : Z * nat * list srtp_stream :=
  if SRTP_MAX_STREAMS <=? zlen l then (ENOSR, O, l)
  else if negb alloc then (ENOMEM, O, l)
  else (0, length l, l ++ [stream_zero ssrc]).

Definition stream_get (alloc : bool) (l : list srtp_stream) (ssrc : Z)
  : Z * nat * list srtp_stream :=
  match stream_find l ssrc with
  | Some n => (0, n, l)
  | None => stream_new alloc l ssrc
  end.

(** The initial sequence number is set once. *)
Definition stream_get_seq (alloc : bool) (l : list srtp_stream) (ssrc seq : Z)
  : option (Z * nat * list srtp_stream) :=
  let '(err, n, l) := stream_get alloc l ssrc in
  if negb (err =? 0) then Some (err, n, l) else
  s ← l !! n;
  if negb (s_s_l_set s) then Some (0, n, <[n := set_seq (s_roc s) seq s]> l)
  else Some (0, n, l).

(** ** Index, derivation, initialisation vectors *)

Definition in_int (z : Z) : bool := (- 2 ^ 31 <=? z) && (z <? 2 ^ 31).

(** [None] is the overflow of the [int] multiplication. *)
Definition srtp_get_index (roc s_l seq : Z) : option Z :=
  let v :=
    if s_l <? 32768 then
      if 32768 <? seq - s_l then i32 (Z.land (u32 (roc - 1)) 0xffffffff) else i32 roc
    else
      if seq <? s_l - 32768 then i32 (Z.land (u32 (roc + 1)) 0xffffffff) else i32 roc in
  if in_int (v * 65536) && in_int (seq + v * 65536)
  then Some (u64 (seq + v * 65536)) else None.

Definition xor_bytes (a b : list Z) : list Z := zip_with Z.lxor a b.

(** The vector in network order, [k_s] being 16 bytes. *)
Definition srtp_iv_calc (k_s : list Z) (ssrc ix : Z) : list Z :=
  take 4 k_s ++
  xor_bytes (take 4 (drop 4 k_s)) (be32 ssrc) ++
  xor_bytes (take 4 (drop 8 k_s)) (be32 (u32 (Z.shiftr ix 16))) ++
  xor_bytes (take 2 (drop 12 k_s)) (be16 (u16 ix)) ++ [0; 0].

(** The 12 bytes of the GCM vector. *)
Definition srtp_iv_calc_gcm (k_s : list Z) (ssrc ix : Z) : list Z :=
  take 2 k_s ++
  xor_bytes (take 2 (drop 2 k_s)) (be16 (u16 (Z.shiftr ssrc 16))) ++
  xor_bytes (take 2 (drop 4 k_s)) (be16 (Z.land ssrc 0xffff)) ++
  xor_bytes (take 2 (drop 6 k_s)) (be16 (Z.land (Z.shiftr ix 32) 0xffff)) ++
  xor_bytes (take 2 (drop 8 k_s)) (be16 (Z.land (Z.shiftr ix 16) 0xffff)) ++
  xor_bytes (take 2 (drop 10 k_s)) (be16 (Z.land ix 0xffff)).

Inductive aes_mode := AES_MODE_CTR | AES_MODE_GCM.

#[export] Instance aes_mode_eq_dec : EqDecision aes_mode.
Proof. solve_decision. Defined.

(** The cryptographic library: the first component is the error code.  A
    vector is set before each use, so the operations take it; [gcm_*] also
    take the associated data given before. *)
Class Crypto := {
  aes : Type;
  hmac : Type;
  aes_alloc : aes_mode -> list Z -> Z * aes;
  hmac_create : list Z -> Z * hmac;
  ctr_encr : aes -> list Z -> list Z -> Z * list Z;
  ctr_decr : aes -> list Z -> list Z -> Z * list Z;
  gcm_aad : aes -> list Z -> list Z -> Z;
  gcm_encr : aes -> list Z -> list Z -> list Z -> Z * list Z;
  gcm_decr : aes -> list Z -> list Z -> list Z -> Z * list Z;
  gcm_authtag : aes -> list Z -> list Z -> list Z -> Z * list Z;
  gcm_authenticate : aes -> list Z -> list Z -> list Z -> list Z -> Z;
  hmac_digest : hmac -> list Z -> Z * list Z }.

Definition SHA_DIGEST_LENGTH : Z := 20.
Definition GCM_TAGLEN : Z := 16.
Definition MAX_KEYLEN : Z := 32.
Definition AES_BLOCK_SIZE : Z := 16.

Section Session.
Context `{!Crypto}.

Record comp := mk_comp {
  c_aes : option aes;
  c_mode : aes_mode;
  c_hmac : option hmac;
  c_k_s : list Z;
  c_tag_len : Z }.

Record srtp := mk_srtp {
  srtp_rtp : comp;
  srtp_rtcp : comp;
  srtp_streaml : list srtp_stream }.

Definition set_streaml (l : list srtp_stream) (s : srtp) : srtp :=
  mk_srtp (srtp_rtp s) (srtp_rtcp s) l.

(** [x] is the zero-padded salt with the label in byte 7. *)
Definition srtp_derive (out_len label : Z) (master_key master_salt : list Z)
  : Z * list Z :=
  if (AES_BLOCK_SIZE * 2 <? out_len) || (AES_BLOCK_SIZE <? zlen master_salt)
  then (EINVAL, [])
  else
    let x := master_salt ++ replicate (16 - length master_salt) 0 in
    let x := match x !! 7%nat with
             | Some b => <[7%nat := Z.lxor b label]> x | None => x end in
    let '(err, a) := aes_alloc AES_MODE_CTR master_key in
    if negb (err =? 0) then (err, [])
    else ctr_encr a x (replicate (Z.to_nat out_len) 0).

Definition comp_init (offs : Z) (key s : list Z) (tag_len : Z) (encrypted hash : bool)
  (mode : aes_mode) : Z * option comp :=
  if MAX_KEYLEN <? zlen key then (EINVAL, None)
  else if SHA_DIGEST_LENGTH <? tag_len then (EINVAL, None)
  else
    let '(e1, k_e) := srtp_derive (zlen key) (0x00 + offs) key s in
    let '(e2, k_a) := srtp_derive SHA_DIGEST_LENGTH (0x01 + offs) key s in
    let '(e3, k_s) := srtp_derive 14 (0x02 + offs) key s in
    let err := Z.lor (Z.lor e1 e2) e3 in
    if negb (err =? 0) then (err, None) else
    let '(err, a) := if encrypted then let '(e, a) := aes_alloc mode k_e in (e, Some a)
                     else (0, None) in
    if negb (err =? 0) then (err, None) else
    let '(err, h) := if hash then let '(e, h) := hmac_create k_a in (e, Some h)
                     else (0, None) in
    if negb (err =? 0) then (err, None)
    else (0, Some (mk_comp a mode h (k_s ++ [0; 0]) tag_len)).

Inductive srtp_suite :=
| SRTP_AES_CM_128_HMAC_SHA1_32
| SRTP_AES_CM_128_HMAC_SHA1_80
| SRTP_AES_256_CM_HMAC_SHA1_32
| SRTP_AES_256_CM_HMAC_SHA1_80
| SRTP_AES_128_GCM
| SRTP_AES_256_GCM.

(** Mode, cipher bytes, salt bytes, tag bytes and whether a hash is used. *)
Definition suite_params (suite : srtp_suite) : aes_mode * Z * Z * Z * bool :=
  match suite with
  | SRTP_AES_CM_128_HMAC_SHA1_80 => (AES_MODE_CTR, 16, 14, 10, true)
  | SRTP_AES_CM_128_HMAC_SHA1_32 => (AES_MODE_CTR, 16, 14, 4, true)
  | SRTP_AES_256_CM_HMAC_SHA1_80 => (AES_MODE_CTR, 32, 14, 10, true)
  | SRTP_AES_256_CM_HMAC_SHA1_32 => (AES_MODE_CTR, 32, 14, 4, true)
  | SRTP_AES_128_GCM => (AES_MODE_GCM, 16, 12, 0, false)
  | SRTP_AES_256_GCM => (AES_MODE_GCM, 32, 12, 0, false)
  end.

Definition srtp_alloc (suite : srtp_suite) (key : list Z) (alloc unencrypted_srtcp : bool)
  : Z * option srtp :=
  let '(mode, cipher_bytes, salt_bytes, auth_bytes, hash) := suite_params suite in
  if negb (cipher_bytes + salt_bytes =? zlen key) then (EINVAL, None) else
  let k := take (Z.to_nat cipher_bytes) key in
  let master_salt := take (Z.to_nat salt_bytes) (drop (Z.to_nat cipher_bytes) key) in
  if negb alloc then (ENOMEM, None) else
  let '(e1, c1) := comp_init 0 k master_salt auth_bytes true hash mode in
  let '(e2, c2) := comp_init 3 k master_salt auth_bytes (negb unencrypted_srtcp) hash mode in
  let err := Z.lor e1 e2 in
  match c1, c2 with
  | Some c1, Some c2 => if negb (err =? 0) then (err, None) else (0, Some (mk_srtp c1 c2 []))
  | _, _ => (err, None)
  end.

(** ** Packets *)

Context (alloc_ok : Z -> bool) (junk : Z -> Z).

(** Bytes [pos .. pos+n) of the buffer. *)
Definition mb_slice (mb : mbuf) (i n : Z) : option (list Z) :=
  if n =? 0 then Some [] else b ← mb_buf mb; slice b i n.

(** [f] applied in place to the [n] bytes at the position. *)
Definition in_place (mb : mbuf) (n : Z) (f : list Z -> Z * list Z) : option (Z * mbuf) :=
  data ← mb_slice mb (mb_pos mb) n;
  let '(err, out) := f data in
  if negb (err =? 0) then Some (err, mb)
  else if n =? 0 then Some (0, mb)
  else b ← mb_buf mb; b ← splice b (mb_pos mb) out; Some (0, set_bytes b mb).

Definition seq_diff (x y : Z) : Z := y - x.

(** The rollover test and the new roll-over counter and sequence number. *)
Definition roll (s : srtp_stream) (seq : Z) : srtp_stream :=
  if seq_diff (s_s_l s) seq <=? -32768 then set_seq (u32 (s_roc s + 1)) 0 s else s.

Definition srtp_result : Type := Z * srtp * mbuf.

(** The counter-mode and GCM encryption of the payload. *)
Definition encrypt_payload (c : comp) (ssrc ix start : Z) (mb : mbuf) : option (Z * mbuf) :=
  match c_aes c, c_mode c with
  | Some a, AES_MODE_CTR =>
    in_place mb (mbuf_get_left mb) (ctr_encr a (srtp_iv_calc (c_k_s c) ssrc ix))
  | Some a, AES_MODE_GCM =>
    let iv := srtp_iv_calc_gcm (c_k_s c) ssrc ix in
    hdr ← mb_slice mb start (mb_pos mb - start);
    let err := gcm_aad a iv hdr in
    if negb (err =? 0) then Some (err, mb) else
    plain ← mb_slice mb (mb_pos mb) (mbuf_get_left mb);
    '(err, mb) ← in_place mb (mbuf_get_left mb) (gcm_encr a iv hdr);
    if negb (err =? 0) then Some (err, mb) else
    let '(err, tag) := gcm_authtag a iv hdr plain in
    if negb (err =? 0) then Some (err, mb) else
    mbuf_write_mem alloc_ok junk (set_pos (mb_end mb) mb) (take 16 tag)
  | None, _ => Some (0, mb)
  end.

(** The HMAC over the packet and the roll-over counter, appended as tag. *)
Definition append_tag (c : comp) (roc start : Z) (mb : mbuf) : option (Z * mbuf) :=
  match c_hmac c with
  | None => Some (0, mb)
  | Some h =>
    let tag_start := mb_end mb in
    '(err, mb) ← mbuf_write_u32 alloc_ok junk (set_pos tag_start mb) (htonl roc);
    if negb (err =? 0) then Some (err, mb) else
    let mb := set_pos start mb in
    data ← mb_slice mb start (mbuf_get_left mb);
    let '(err, tag) := hmac_digest h data in
    if negb (err =? 0) then Some (err, mb) else
    mbuf_write_mem alloc_ok junk (set_end tag_start (set_pos tag_start mb))
      (take (Z.to_nat (c_tag_len c)) tag)
  end.

Definition srtp_encrypt (alloc : bool) (srtp : srtp) (mb : mbuf) : option srtp_result :=
  let c := srtp_rtp srtp in
  let start := mb_pos mb in
  '(err, hdr, mb) ← rtp_hdr_decode mb;
  if negb (err =? 0) then Some (err, srtp, mb) else
  '(err, n, l) ← stream_get_seq alloc (srtp_streaml srtp) (h_ssrc hdr) (h_seq hdr);
  if negb (err =? 0) then Some (err, set_streaml l srtp, mb) else
  s ← l !! n;
  let s := roll s (h_seq hdr) in
  let srtp := set_streaml (<[n := s]> l) srtp in
  let ix := u64 (65536 * s_roc s + h_seq hdr) in
  '(err, mb) ← encrypt_payload c (s_ssrc s) ix start mb;
  if negb (err =? 0) then Some (err, srtp, mb) else
  '(err, mb) ← append_tag c (s_roc s) start mb;
  if negb (err =? 0) then Some (err, srtp, mb) else
  let s := if s_s_l s <? h_seq hdr then set_seq (s_roc s) (h_seq hdr) s else s in
  Some (0, set_streaml (<[n := s]> l) srtp, set_pos start mb).

(** The tag check: the code, the stream and the buffer without the tag. *)
Definition check_tag (c : comp) (s : srtp_stream) (ix start : Z) (mb : mbuf)
  : option (Z * srtp_stream * mbuf) :=
  match c_hmac c with
  | None => Some (0, s, mb)
  | Some h =>
    if mbuf_get_left mb <? c_tag_len c then Some (EBADMSG, s, mb) else
    let pld_start := mb_pos mb in
    let tag_start := usz (mb_end mb - c_tag_len c) in
    '(err, tag_pkt, mb) ← mbuf_read_mem (set_pos tag_start mb) (c_tag_len c);
    if negb (err =? 0) then Some (err, s, mb) else
    '(err, mb) ← mbuf_write_u32 alloc_ok junk (set_end tag_start (set_pos tag_start mb))
                   (htonl (s_roc s));
    if negb (err =? 0) then Some (err, s, mb) else
    let mb := set_pos start mb in
    data ← mb_slice mb start (mbuf_get_left mb);
    let '(err, tag_calc) := hmac_digest h data in
    if negb (err =? 0) then Some (err, s, mb) else
    let mb := set_end tag_start (set_pos pld_start mb) in
    if negb (bool_decide (take (Z.to_nat (c_tag_len c)) tag_calc = tag_pkt))
    then Some (EAUTH, s, mb)
    else
      let '(ok, r) := srtp_replay_check (s_replay_rtp s) ix in
      if negb ok then Some (EALREADY, set_replay r s, mb)
      else Some (0, set_replay r s, mb)
  end.

Definition decrypt_payload (c : comp) (s : srtp_stream) (ix start : Z) (mb : mbuf)
  : option (Z * srtp_stream * mbuf) :=
  match c_aes c, c_mode c with
  | Some a, AES_MODE_CTR =>
    '(err, mb) ← in_place mb (mbuf_get_left mb)
                   (ctr_decr a (srtp_iv_calc (c_k_s c) (s_ssrc s) ix));
    Some (err, s, mb)
  | Some a, AES_MODE_GCM =>
    let iv := srtp_iv_calc_gcm (c_k_s c) (s_ssrc s) ix in
    hdr ← mb_slice mb start (mb_pos mb - start);
    let err := gcm_aad a iv hdr in
    if negb (err =? 0) then Some (err, s, mb) else
    if mbuf_get_left mb <? GCM_TAGLEN then Some (EBADMSG, s, mb) else
    let tag_start := usz (mb_end mb - GCM_TAGLEN) in
    let n := tag_start - mb_pos mb in
    cipher ← mb_slice mb (mb_pos mb) n;
    '(err, mb) ← in_place mb n (gcm_decr a iv hdr);
    if negb (err =? 0) then Some (err, s, mb) else
    tag ← mb_slice mb tag_start GCM_TAGLEN;
    let err := gcm_authenticate a iv hdr cipher tag in
    if negb (err =? 0) then Some (err, s, mb) else
    let mb := set_end tag_start mb in
    let '(ok, r) := srtp_replay_check (s_replay_rtp s) ix in
    if negb ok then Some (EALREADY, set_replay r s, mb)
    else Some (0, set_replay r s, mb)
  | None, _ => Some (0, s, mb)
  end.

Definition srtp_decrypt (alloc : bool) (srtp : srtp) (mb : mbuf) : option srtp_result :=
  let c := srtp_rtp srtp in
  let start := mb_pos mb in
  '(err, hdr, mb) ← rtp_hdr_decode mb;
  if negb (err =? 0) then Some (err, srtp, mb) else
  '(err, n, l) ← stream_get_seq alloc (srtp_streaml srtp) (h_ssrc hdr) (h_seq hdr);
  if negb (err =? 0) then Some (err, set_streaml l srtp, mb) else
  s ← l !! n;
  if 32768 <? seq_diff (s_s_l s) (h_seq hdr)
  then Some (ETIMEDOUT, set_streaml l srtp, mb) else
  let s := roll s (h_seq hdr) in
  let put s := set_streaml (<[n := s]> l) srtp in
  ix ← srtp_get_index (s_roc s) (s_s_l s) (h_seq hdr);
  '(err, s, mb) ← check_tag c s ix start mb;
  if negb (err =? 0) then Some (err, put s, mb) else
  '(err, s, mb) ← decrypt_payload c s ix start mb;
  if negb (err =? 0) then Some (err, put s, mb) else
  let s := if s_s_l s <? h_seq hdr then set_seq (s_roc s) (h_seq hdr) s else s in
  Some (0, put s, set_pos start mb).

End Session.
End Srtp.
