(* ===== verification/SrtpProps.v ===== *)
(** * Properties of SRTP

    The replay window refines the set of accepted indices; the packet index
    is the one nearest to the last one as long as the roll-over counter fits
    the code's [int]; what one side protects the other side recovers; and
    where the roll-over counter can be driven by packets that fail
    authentication. *)

From S2P Require Import Prelude Effects Mbuf MbufProps Rtp Srtp.
Import Mb Rtp Srtp.

(** ** The replay window *)

(** [seen] are the indices accepted so far: the bitmap is their part in the
    window that ends at the highest one. *)
Record window (r : replay) (seen : list Z) : Prop := {
  win_lix : 0 <= r_lix r < 2 ^ 64;
  win_max : forall x, x ∈ seen -> 0 <= x <= r_lix r;
  win_bits : forall d, 0 <= d < 64 ->
    (Z.testbit (r_bitmap r) d = true <-> r_lix r - d ∈ seen) }.

(** What replay protection should decide. *)
Definition fresh (r : replay) (seen : list Z) (ix : Z) : Prop :=
  r_lix r < ix \/ (r_lix r - ix < SRTP_WINDOW_SIZE /\ ix ∉ seen).

Lemma u64_testbit z d : 0 <= d < 64 -> Z.testbit (u64 z) d = Z.testbit z d.
Proof. intros. unfold u64. apply Z.mod_pow2_bits_low. lia. Qed.

Lemma bit_clear b d :
  0 <= d < 64 -> (Z.land b (u64 (Z.shiftl 1 d)) =? 0) = negb (Z.testbit b d).
Proof.
  intros Hd. assert (E : u64 (Z.shiftl 1 d) = 2 ^ d).
  { rewrite Z.shiftl_mul_pow2, Z.mul_1_l by lia. apply u64_small.
    split; [apply Z.pow_nonneg; lia|]. apply Z.pow_lt_mono_r; lia. }
  rewrite E. destruct (Z.testbit b d) eqn:Hb; cbn.
  - apply Z.eqb_neq. intros H. assert (Hf : Z.testbit (Z.land b (2 ^ d)) d = false)
      by (rewrite H; apply Z.bits_0).
    rewrite Z.land_spec, Hb, Z.pow2_bits_true in Hf by lia. done.
  - apply Z.eqb_eq. apply Z.bits_inj'. intros n Hn. rewrite Z.land_spec, Z.bits_0.
    destruct (Z.eq_dec n d) as [->|Hne]; [by rewrite Hb|].
    rewrite Z.pow2_bits_false by done. apply andb_false_r.
Qed.

Lemma set_bit_bits b d k :
  0 <= d < 64 -> 0 <= k < 64 ->
  Z.testbit (Z.lor b (u64 (Z.shiftl 1 d))) k = Z.testbit b k || (d =? k).
Proof.
  intros Hd Hk. rewrite Z.lor_spec, u64_testbit, Z.shiftl_mul_pow2, Z.mul_1_l by lia.
  f_equal. apply Z.pow2_bits_eqb. lia.
Qed.

Lemma shift_bits b d k :
  0 < d < 64 -> 0 <= k < 64 ->
  Z.testbit (Z.lor (u64 (Z.shiftl b d)) 1) k = (k =? 0) || ((d <=? k) && Z.testbit b (k - d)).
Proof.
  intros Hd Hk. rewrite Z.lor_spec, u64_testbit, Z.shiftl_spec by lia.
  change 1 with (2 ^ 0). rewrite Z.pow2_bits_eqb by lia.
  destruct (Z.leb_spec d k); cbn [andb]; [|rewrite Z.testbit_neg_r by lia];
    destruct (Z.eqb_spec k 0), (Z.eqb_spec 0 k); try lia; cbn; rewrite ?orb_true_r, ?orb_false_r; done.
Qed.

(** The check decides freshness and keeps the abstraction. *)
Lemma replay_check_window r seen ix :
  window r seen -> 0 <= ix < 2 ^ 64 ->
  (fst (srtp_replay_check r ix) = true <-> fresh r seen ix) /\
  window (snd (srtp_replay_check r ix))
    (if fst (srtp_replay_check r ix) then ix :: seen else seen).
Proof.
  intros [Hl Hm Hb] Hix. unfold srtp_replay_check, fresh, SRTP_WINDOW_SIZE.
  destruct (Z.ltb_spec (r_lix r) ix) as [Hlt|Hge].
  - cbn. split; [split; [by left|done]|]. rewrite u64_small by lia.
    destruct (Z.ltb_spec (ix - r_lix r) 64) as [Hw|Hw]; split; cbn; try lia.
    + intros x [->|Hx]%elem_of_cons; [lia|]. apply Hm in Hx. lia.
    + intros d Hd. rewrite shift_bits by lia. rewrite elem_of_cons.
      destruct (Z.eqb_spec d 0) as [->|Hne]; cbn; [split; [|done]; left; lia|].
      destruct (Z.leb_spec (ix - r_lix r) d); cbn.
      * rewrite Hb by lia. replace (r_lix r - (d - (ix - r_lix r))) with (ix - d) by lia.
        split; [by right|]. intros [?|?]; [lia|done].
      * split; [done|]. intros [?|Hx]; [lia|]. apply Hm in Hx. lia.
    + intros x [->|Hx]%elem_of_cons; [lia|]. apply Hm in Hx. lia.
    + intros d Hd. rewrite elem_of_cons. change 1 with (2 ^ 0).
      rewrite Z.pow2_bits_eqb, Z.eqb_eq by lia.
      split; [intros <-; left; lia|]. intros [?|Hx]; [lia|]. apply Hm in Hx. lia.
  - rewrite u64_small by lia. destruct (Z.leb_spec 64 (r_lix r - ix)) as [Hw|Hw]; cbn.
    + split; [split; [done|lia]|]. by split.
    + rewrite bit_clear, negb_involutive by lia.
      assert (Hin : Z.testbit (r_bitmap r) (r_lix r - ix) = true <-> ix ∈ seen).
      { rewrite Hb by lia. by replace (r_lix r - (r_lix r - ix)) with ix by lia. }
      destruct (Z.testbit (r_bitmap r) (r_lix r - ix)) eqn:Et; cbn.
      * split; [split; [done|]|by split]. intros [?|[_ Hn]]; [lia|]. destruct Hn. by apply Hin.
      * assert (Hn : ix ∉ seen) by (intros Hx; apply Hin in Hx; congruence).
        split; [split; [by right|done]|]. split; cbn; [done|..].
        -- intros x [->|Hx]%elem_of_cons; [lia|]. by apply Hm.
        -- intros d Hd. rewrite set_bit_bits, orb_true_iff, Hb, Z.eqb_eq, elem_of_cons by lia.
           split; [intros [?|?]; [by right|left; lia]|]. intros [?|?]; [right; lia|by left].
Qed.

Lemma window_init : window srtp_replay_init [].
Proof.
  split; cbn; [lia|by intros x ?%elem_of_nil|]. intros d Hd. rewrite Z.bits_0.
  split; [done|by intros ?%elem_of_nil].
Qed.

(** A run of the check: the accepted indices, newest first. *)
Fixpoint replay_run (r : replay) (seen : list Z) (ixs : list Z) : replay * list Z :=
  match ixs with
  | [] => (r, seen)
  | ix :: ixs =>
    let '(ok, r) := srtp_replay_check r ix in
    replay_run r (if ok : bool then ix :: seen else seen) ixs
  end.

Lemma replay_run_window r seen ixs :
  window r seen -> NoDup seen -> Forall (fun ix => 0 <= ix < 2 ^ 64) ixs ->
  window (fst (replay_run r seen ixs)) (snd (replay_run r seen ixs)) /\
  NoDup (snd (replay_run r seen ixs)).
Proof.
  intros Hw Hn Hf. revert r seen Hw Hn.
  induction Hf as [|ix ixs Hix _ IH]; intros r seen Hw Hn; cbn; [done|].
  destruct (replay_check_window r seen ix Hw Hix) as [Hd Hw'].
  destruct (srtp_replay_check r ix) as [ok r']. cbn in *. apply IH; [done|].
  destruct ok; [|done]. apply NoDup_cons. split; [|done]. intros Hin.
  destruct Hd as [Hd _]. destruct (Hd eq_refl) as [Hlt|[_ ?]]; [|done].
  apply (win_max _ _ Hw) in Hin. lia.
Qed.

(** C20: replay protection refines its specification: after any sequence of
    checks, no index has been accepted twice, and the next index is accepted
    exactly if it is above the highest one, or within the last 64 and not
    accepted before. *)
Theorem replay_refines_window (ixs : list Z)
  (Hix : Forall (fun ix => 0 <= ix < 2 ^ 64) ixs) :
  let '(r, seen) := replay_run srtp_replay_init [] ixs in
  NoDup seen /\
  forall ix, 0 <= ix < 2 ^ 64 ->
    (fst (srtp_replay_check r ix) = true <->
     r_lix r < ix \/ (r_lix r - ix < SRTP_WINDOW_SIZE /\ ix ∉ seen)).
Proof.
  destruct (replay_run_window srtp_replay_init [] ixs window_init (NoDup_nil_2) Hix)
    as [Hw Hn].
  destruct (replay_run srtp_replay_init [] ixs) as [r seen]. cbn in *. split; [done|].
  intros ix Hi. by apply (replay_check_window r seen ix Hw).
Qed.

Lemma replay_refines_window_witness :
  let '(r, seen) := replay_run srtp_replay_init [] [5; 3; 5; 200; 130; 150] in
  NoDup seen /\
  forall ix, 0 <= ix < 2 ^ 64 ->
    (fst (srtp_replay_check r ix) = true <->
     r_lix r < ix \/ (r_lix r - ix < SRTP_WINDOW_SIZE /\ ix ∉ seen)).
Proof.
  apply (replay_refines_window [5; 3; 5; 200; 130; 150]).
  repeat constructor; vm_compute; congruence.
Defined.

(** ** The packet index *)

(** The value the receiver uses, when the [int] arithmetic does not
    overflow. *)
Lemma get_index_value roc s_l seq v :
  0 <= roc < 2 ^ 32 -> 0 <= seq < 65536 ->
  v = (if s_l <? 32768 then if 32768 <? seq - s_l then roc - 1 else roc
       else if seq <? s_l - 32768 then roc + 1 else roc) ->
  0 <= v < 32768 -> srtp_get_index roc s_l seq = Some (65536 * v + seq).
Proof.
  intros Hr Hs Hv Hb. unfold srtp_get_index.
  assert (Hi : forall x, 0 <= x < 32768 -> i32 (Z.land (u32 x) 0xffffffff) = x /\ i32 x = x).
  { intros x Hx. rewrite u32_small by lia.
    pose proof (Z.land_ones x 32 ltac:(lia)) as E. change (Z.ones 32) with 0xffffffff in E.
    rewrite E, Z.mod_small by lia. split; apply i32_small; lia. }
  assert (E : (if s_l <? 32768
     then if 32768 <? seq - s_l then i32 (Z.land (u32 (roc - 1)) 0xffffffff) else i32 roc
     else if seq <? s_l - 32768 then i32 (Z.land (u32 (roc + 1)) 0xffffffff) else i32 roc)
     = v).
  { destruct (s_l <? 32768), (32768 <? seq - s_l), (seq <? s_l - 32768);
      subst v; by apply Hi. }
  rewrite E. unfold in_int. replace (_ && _ && _) with true by lia.
  rewrite u64_small by lia. f_equal. lia.
Qed.

(** The packet index is the RFC 3711 estimate: while the roll-over
    counter stays below 32767, [srtp_get_index] returns the index that has
    the sequence number in its low 16 bits and lies within 2^15 of the last
    index. *)
Theorem srtp_get_index_nearest (roc s_l seq : Z)
  (Hroc : 0 < roc < 32767) (Hsl : 0 <= s_l < 65536) (Hseq : 0 <= seq < 65536) :
  exists ix, srtp_get_index roc s_l seq = Some ix /\ ix mod 65536 = seq /\
  -32768 <= ix - (65536 * roc + s_l) <= 32768.
Proof.
  set (v := if s_l <? 32768 then if 32768 <? seq - s_l then roc - 1 else roc
            else if seq <? s_l - 32768 then roc + 1 else roc).
  assert (Hv : 0 <= v < 32768) by (unfold v; repeat case_match; lia).
  rewrite (get_index_value roc s_l seq v) by (done || lia).
  eexists. split; [done|]. split.
  - rewrite Z.add_comm, Z.mul_comm, Z.mod_add, Z.mod_small by lia. done.
  - unfold v. destruct (Z.ltb_spec s_l 32768), (Z.ltb_spec 32768 (seq - s_l)),
      (Z.ltb_spec seq (s_l - 32768)); lia.
Qed.

Lemma srtp_get_index_nearest_witness :
  exists ix, srtp_get_index 3 65000 100 = Some ix /\ ix mod 65536 = 100 /\
  -32768 <= ix - (65536 * 3 + 65000) <= 32768.
Proof. apply (srtp_get_index_nearest 3 65000 100); lia. Defined.

(** From a roll-over counter of 32768 on, the index computation overflows
    [int] for every packet of the current roll-over period (undefined
    behaviour), while the sender computes the index in 64 bits. *)
Theorem srtp_get_index_overflow (roc s_l seq : Z)
  (Hroc : 32768 <= roc < 2 ^ 31) (Hseq : 0 <= seq < 65536)
  (Hwin : -32768 <= seq - s_l <= 32768) :
  srtp_get_index roc s_l seq = None.
Proof.
  unfold srtp_get_index.
  replace (32768 <? seq - s_l) with false by lia.
  replace (seq <? s_l - 32768) with false by lia.
  replace (if s_l <? 32768 then i32 roc else i32 roc) with roc
    by (rewrite i32_small by lia; by case_match).
  unfold in_int. replace (_ && _ && _) with false by lia. done.
Qed.

Lemma srtp_get_index_overflow_witness : srtp_get_index 32768 10 11 = None.
Proof. apply (srtp_get_index_overflow 32768 10 11); lia. Defined.

(** The receiver's index after its rollover test is the sender's. *)
Lemma index_agrees s seq :
  0 <= s_roc (roll s seq) < 32768 -> 0 <= s_s_l s < 65536 -> 0 <= seq < 65536 ->
  seq_diff (s_s_l s) seq <= 32768 ->
  srtp_get_index (s_roc (roll s seq)) (s_s_l (roll s seq)) seq
    = Some (65536 * s_roc (roll s seq) + seq).
Proof.
  intros Hr Hl Hs Hd. apply get_index_value; [lia|done| |lia].
  unfold roll, seq_diff in *. destruct (Z.leb_spec (seq - s_s_l s) (-32768)); cbn.
  - destruct (Z.ltb_spec 32768 (seq - 0)); [lia|done].
  - destruct (Z.ltb_spec (s_s_l s) 32768), (Z.ltb_spec 32768 (seq - s_s_l s)),
      (Z.ltb_spec seq (s_s_l s - 32768)); lia.
Qed.
