(* ===== verification/SrtpRoundtrip.v ===== *)
(** * Protecting and recovering an RTP packet

    With a counter-mode cipher and an HMAC, [srtp_decrypt] on the receiver's
    side undoes [srtp_encrypt] on the sender's side when both sides have the
    same keys and roll-over state. *)

From S2P Require Import Prelude Effects Mbuf MbufProps Rtp Srtp SrtpProps.
Import Mb Rtp Srtp.

#[local] Arguments zlen : simpl never.
#[local] Arguments be32 : simpl never.
#[local] Arguments wire : simpl never.

(** What the library is relied on for: counter mode keeps the length and
    decryption inverts encryption; a SHA-1 digest has 20 bytes. *)
Class CryptoLaws `{!Crypto} := {
  ctr_encr_len : forall a iv d e, ctr_encr a iv d = (0, e) -> zlen e = zlen d;
  ctr_decr_encr : forall a iv d e, ctr_encr a iv d = (0, e) -> ctr_decr a iv e = (0, d);
  hmac_len : forall h d t, hmac_digest h d = (0, t) -> zlen t = SHA_DIGEST_LENGTH }.

(** ** Bytes at an index *)

Definition has (mb : mbuf) (i : Z) (d : list Z) : Prop :=
  slice (bytes mb) i (zlen d) = Some d.

Lemma has_app mb i a b : has mb i (a ++ b) <-> has mb i a /\ has mb (i + zlen a) b.
Proof. apply slice_app. Qed.

Lemma has_len mb i d : has mb i d -> 0 <= i /\ i + zlen d <= zlen (bytes mb).
Proof. intros H. by apply slice_inv in H as (? & _ & ? & _). Qed.

Lemma mb_slice_has mb i d : has mb i d -> mb_slice mb i (zlen d) = Some d.
Proof.
  intros H. unfold mb_slice. destruct (Z.eqb_spec (zlen d) 0) as [Hz|Hz].
  - destruct d; [done|]. unfold zlen in Hz. cbn in Hz. lia.
  - unfold has, bytes in H. destruct (mb_buf mb); cbn in *; [done|].
    apply slice_inv in H as (? & ? & H & _). unfold zlen in *. cbn in *. lia.
Qed.

Lemma left_exact mb (d : list Z) : mb_end mb = mb_pos mb + zlen d -> mbuf_get_left mb = zlen d.
Proof.
  intros E. pose proof (zlen_nonneg d). unfold mbuf_get_left.
  destruct (Z.ltb_spec (mb_pos mb) (mb_end mb)); lia.
Qed.

(** [mb'] is [mb] with [e] at [i]; the rest and the bookkeeping are kept. *)
Definition patched (mb mb' : mbuf) (i : Z) (e : list Z) : Prop :=
  mb_wf mb' /\ mb_pos mb' = mb_pos mb /\ mb_end mb' = mb_end mb /\
  mb_size mb' = mb_size mb /\ has mb' i e /\
  forall j d, has mb j d -> j + zlen d <= i \/ i + zlen e <= j -> has mb' j d.

Lemma in_place_ok mb d f e :
  mb_wf mb -> has mb (mb_pos mb) d -> f d = (0, e) -> zlen e = zlen d ->
  exists mb', in_place mb (zlen d) f = Some (0, mb') /\ patched mb mb' (mb_pos mb) e.
Proof.
  intros Hwf Hd Hf He. unfold in_place. rewrite (mb_slice_has _ _ _ Hd). cbn. rewrite Hf. cbn.
  pose proof (has_len _ _ _ Hd) as [? ?]. pose proof Hwf as (Hl & ? & ? & ?).
  destruct (Z.eqb_spec (zlen d) 0) as [Hz|Hz].
  - eexists. split; [done|].
    assert (e = []) as -> by (destruct e; [done|unfold zlen in *; cbn in *; lia]).
    split_and!; try done. unfold has. rewrite slice_some; [done|lia|done|]. cbn. lia.
  - unfold bytes in *. destruct (mb_buf mb) as [b|] eqn:Eb; cbn in *;
      [|unfold zlen in *; cbn in *; lia].
    destruct (splice_ok b (mb_pos mb) e) as [l' Hsp]; [lia|lia|]. rewrite Hsp. cbn.
    pose proof (splice_inv _ _ _ _ Hsp) as (_ & _ & Hz' & _).
    eexists. split; [done|]. split_and!; cbn; try done.
    + unfold mb_wf, bytes. cbn. lia.
    + unfold has, bytes. cbn. by eapply splice_here.
    + intros j x Hj Hor. unfold has, bytes in *. cbn. rewrite Eb in Hj. cbn in Hj.
      pose proof (slice_inv _ _ _ _ Hj) as (? & ? & ? & _).
      rewrite (splice_other _ _ _ _ Hsp); [done|lia..].
Qed.

(** A write keeps what lies in front of it. *)
Lemma written_has mb mb' d : written mb mb' d -> has mb' (mb_pos mb) d.
Proof. by intros (_ & _ & _ & H & _). Qed.

Lemma written_keeps mb mb' d j x :
  mb_wf mb -> written mb mb' d -> has mb j x -> j + zlen x <= mb_pos mb -> has mb' j x.
Proof.
  intros (Hl & _) (_ & _ & _ & _ & _ & H) Hx Hle.
  pose proof (slice_inv _ _ _ _ Hx) as (? & ? & ? & _). unfold has.
  rewrite H; [done|lia|lia|lia|by left].
Qed.

Lemma wf_set_end mb e : mb_wf mb -> 0 <= e <= mb_size mb -> mb_wf (set_end e mb).
Proof. intros (? & ? & ? & ?) ?. unfold mb_wf, bytes in *. cbn. lia. Qed.

(** No allocation when the bytes fit. *)
Lemma write_fits alloc_ok junk mb d :
  mb_wf mb -> mb_pos mb + zlen d <= mb_size mb ->
  exists mb', mbuf_write_mem alloc_ok junk mb d = Some (0, mb') /\ written mb mb' d.
Proof.
  intros Hwf Hd. pose proof Hwf as (_ & ? & _ & ?). pose proof (zlen_nonneg d).
  unfold mbuf_write_mem, mbuf_reserve. rewrite usz_small by lia.
  destruct (Z.ltb_spec (mb_size mb) (mb_pos mb + zlen d)); [lia|]. cbn.
  by apply put_ok.
Qed.

Section Roundtrip.
Context {C : Crypto} {L : CryptoLaws}.
Context (alloc_ok : Z -> bool) (junk : Z -> Z).

(** ** The sender's tag *)

Lemma append_tag_ok c h roc start mb x mb' :
  c_hmac c = Some h -> 0 <= c_tag_len c <= SHA_DIGEST_LENGTH -> mb_wf mb ->
  has mb start x -> mb_end mb = start + zlen x -> mb_end mb + 20 <= SIZE_MAX ->
  append_tag alloc_ok junk c roc start mb = Some (0, mb') ->
  exists t, hmac_digest h (x ++ be32 roc) = (0, t) /\ mb_wf mb' /\
  has mb' start (x ++ take (Z.to_nat (c_tag_len c)) t) /\
  mb_end mb' = start + zlen x + c_tag_len c.
Proof.
  intros Eh Ht Hwf Hx He Hsz. unfold append_tag, SHA_DIGEST_LENGTH in *. rewrite Eh.
  pose proof (has_len _ _ _ Hx) as [? ?]. pose proof (zlen_nonneg x).
  pose proof Hwf as (Hl & ? & ? & ?).
  unfold mbuf_write_u32. rewrite htonl_bytes. fold (be32 roc).
  assert (Hwf1 : mb_wf (set_pos (mb_end mb) mb)) by (apply wf_set_pos; [done|lia]).
  destruct (write_mem_ok alloc_ok junk (set_pos (mb_end mb) mb) (be32 roc) Hwf1)
    as (err & mb1 & -> & W1); [rewrite be32_len; cbn; lia|]. cbn [mbind option_bind].
  destruct (Z.eqb_spec err 0) as [->|Hne]; cbn [negb]; [|by intros [= ?]].
  assert (Hx1 : has mb1 start (x ++ be32 roc)).
  { apply has_app. split; [|rewrite <- He; apply (written_has _ _ _ W1)].
    eapply written_keeps; [exact Hwf1|done|done|cbn; lia]. }
  destruct W1 as (Hw1 & Hp1 & He1 & _). cbn [set_pos mb_pos mb_end mb_size] in Hp1, He1. rewrite be32_len in Hp1.
  assert (Hleft : mbuf_get_left (set_pos start mb1) = zlen (x ++ be32 roc)).
  { apply left_exact. cbn. rewrite zlen_app, be32_len. lia. }
  rewrite Hleft. rewrite (mb_slice_has (set_pos start mb1) start (x ++ be32 roc)) by done.
  cbn [mbind option_bind]. destruct (hmac_digest h (x ++ be32 roc)) as [e t] eqn:Ed.
  destruct (Z.eqb_spec e 0) as [->|Hne]; cbn [negb]; [|by intros [= ?]].
  pose proof (hmac_len _ _ _ Ed) as Hlt. unfold SHA_DIGEST_LENGTH in Hlt.
  pose proof Hw1 as (Hl1 & ? & ? & ?).
  set (mb2 := set_end (mb_end mb) (set_pos (mb_end mb) (set_pos start mb1))).
  assert (Hwf2 : mb_wf mb2).
  { apply wf_set_end; [|cbn; lia]. apply wf_set_pos; [|lia]. apply wf_set_pos; [done|lia]. }
  set (tag := take (Z.to_nat (c_tag_len c)) t).
  assert (Hlen : zlen tag = c_tag_len c) by (unfold tag, zlen in *; rewrite length_take; lia).
  destruct (write_mem_ok alloc_ok junk mb2 tag Hwf2) as (err & mb3 & -> & W3);
    [cbn; rewrite Hlen; lia|].
  intros [= -> <-]. cbn in W3. exists t. split; [done|].
  pose proof W3 as (? & Hp3 & He3 & _). cbn [mb2 set_pos set_end mb_pos mb_end mb_size] in Hp3, He3. split; [done|]. split.
  - apply has_app in Hx1 as [Hx1 _]. apply has_app. split.
    + eapply written_keeps; [exact Hwf2|done|exact Hx1|cbn; lia].
    + rewrite <- He. apply (written_has _ _ _ W3).
  - rewrite Hlen in Hp3. lia.
Qed.

(** ** The receiver's check *)

Lemma check_tag_ok c h s ix start w e t mb r :
  c_hmac c = Some h -> 4 <= c_tag_len c <= SHA_DIGEST_LENGTH ->
  hmac_digest h ((w ++ e) ++ be32 (s_roc s)) = (0, t) ->
  mb_wf mb -> has mb start ((w ++ e) ++ take (Z.to_nat (c_tag_len c)) t) ->
  mb_end mb = start + zlen (w ++ e) + c_tag_len c -> mb_pos mb = start + zlen w ->
  srtp_replay_check (s_replay_rtp s) ix = (true, r) ->
  exists mb', check_tag alloc_ok junk c s ix start mb = Some (0, set_replay r s, mb') /\
  mb_wf mb' /\ mb_pos mb' = start + zlen w /\ mb_end mb' = start + zlen (w ++ e) /\
  has mb' start (w ++ e).
Proof.
  intros Eh Ht Hd Hwf Hx He Hp Hr. unfold check_tag, SHA_DIGEST_LENGTH in *. rewrite Eh.
  pose proof (hmac_len _ _ _ Hd) as Hlt. unfold SHA_DIGEST_LENGTH in Hlt.
  set (x := w ++ e) in *. set (tag := take (Z.to_nat (c_tag_len c)) t) in *.
  assert (Hlen : zlen tag = c_tag_len c) by (unfold tag, zlen in *; rewrite length_take; lia).
  assert (Hxl : zlen x = zlen w + zlen e) by apply zlen_app.
  pose proof (has_len _ _ _ Hx) as [? ?]. pose proof (zlen_nonneg w). pose proof (zlen_nonneg e).
  pose proof Hwf as (Hl & ? & ? & ?).
  assert (Hleft : mbuf_get_left mb = zlen e + c_tag_len c).
  { unfold mbuf_get_left. destruct (Z.ltb_spec (mb_pos mb) (mb_end mb)); lia. }
  rewrite Hleft. destruct (Z.ltb_spec (zlen e + c_tag_len c) (c_tag_len c)); [lia|].
  rewrite usz_small by lia. replace (mb_end mb - c_tag_len c) with (start + zlen x) by lia.
  set (ts := start + zlen x) in *. apply has_app in Hx as [Hx Htag].
  assert (Hav : avail (set_pos ts mb) tag).
  { split_and!; [apply wf_set_pos; [done|lia]|done|cbn; lia]. }
  pose proof (read_mem_avail _ _ Hav) as Er. rewrite Hlen in Er. rewrite Er.
  no_error.
  unfold mbuf_write_u32. rewrite htonl_bytes. fold (be32 (s_roc s)).
  set (mb1 := set_end ts (set_pos ts (set_pos (mb_pos (set_pos ts mb) + c_tag_len c)
    (set_pos ts mb)))).
  assert (Hwf1 : mb_wf mb1).
  { apply wf_set_end; [|cbn; lia]. apply wf_set_pos; [|lia]. apply wf_set_pos; [|cbn; lia].
    apply wf_set_pos; [done|lia]. }
  destruct (write_fits alloc_ok junk mb1 (be32 (s_roc s)) Hwf1) as (mb2 & -> & Hw2);
    [rewrite be32_len; cbn; lia|].
  no_error.
  assert (Hx2 : has mb2 start (x ++ be32 (s_roc s))).
  { apply has_app. split; [|apply (written_has _ _ _ Hw2)].
    eapply written_keeps; [exact Hwf1|done|exact Hx|cbn; lia]. }
  destruct Hw2 as (Hwf2 & Hp2 & He2 & _ & Hsz2 & _). cbn [mb1 set_pos set_end mb_pos mb_end mb_size] in Hp2, He2, Hsz2.
  rewrite be32_len in Hp2.
  rewrite (left_exact (set_pos start mb2) (x ++ be32 (s_roc s)))
    by (cbn; rewrite zlen_app, be32_len; lia).
  rewrite (mb_slice_has (set_pos start mb2) start (x ++ be32 (s_roc s))) by done.
  cbn [mbind option_bind]. rewrite Hd. no_error.
  fold tag. rewrite bool_decide_eq_true_2 by done. cbn [negb]. rewrite Hr. cbn [negb].
  eexists. split; [done|]. apply has_app in Hx2 as [Hx2 _]. cbn.
  pose proof Hwf2 as (? & ? & ? & ?). split_and!; try done.
  apply wf_set_end; [|cbn; lia]. apply wf_set_pos; [|lia]. apply wf_set_pos; [done|lia].
Qed.

(** ** Streams *)

Lemma stream_find_ssrc k l ssrc n :
  stream_find_from k l ssrc = Some n ->
  exists s, l !! (n - k)%nat = Some s /\ s_ssrc s = ssrc /\ (k <= n)%nat.
Proof.
  revert k. induction l as [|s l IH]; intros k; cbn; [done|].
  destruct (Z.eqb_spec (s_ssrc s) ssrc) as [E|E].
  - intros [= <-]. exists s. by rewrite Nat.sub_diag.
  - intros Hf. destruct (IH _ Hf) as (s' & Hs & ? & ?). exists s'.
    split; [|split; [done|lia]]. by replace (n - k)%nat with (Datatypes.S (n - Datatypes.S k)) by lia.
Qed.

(** The stream a packet is assigned to. *)
Definition stream_of (alloc : bool) (l : list srtp_stream) (h : rtp_header)
  : option srtp_stream :=
  '(err, n, l) ← stream_get_seq alloc l (h_ssrc h) (h_seq h);
  if negb (err =? 0) then None else l !! n.

Lemma stream_of_run alloc l h s :
  stream_of alloc l h = Some s ->
  exists n l', stream_get_seq alloc l (h_ssrc h) (h_seq h) = Some (0, n, l') /\
  l' !! n = Some s /\ s_ssrc s = h_ssrc h.
Proof.
  unfold stream_of. destruct (stream_get_seq alloc l (h_ssrc h) (h_seq h))
    as [[[err n] l']|] eqn:E; cbn; [|done].
  destruct (Z.eqb_spec err 0) as [->|]; cbn; [|done]. intros Hs. do 2 eexists.
  split; [done|]. split; [done|]. revert E. unfold stream_get_seq.
  assert (Hg : forall e m l1 x, stream_get alloc l (h_ssrc h) = (e, m, l1) -> e = 0 ->
    l1 !! m = Some x -> s_ssrc x = h_ssrc h).
  { intros e m l1 x. unfold stream_get, stream_new, stream_find.
    destruct (stream_find_from 0 l (h_ssrc h)) as [k|] eqn:Ef.
    - intros [= <- <- <-] _ Hx. apply stream_find_ssrc in Ef as (y & Hy & ? & _).
      rewrite Nat.sub_0_r in Hy. congruence.
    - repeat case_match; intros [= <- <- <-]; try done. intros _.
      rewrite lookup_app_r, Nat.sub_diag by lia. by intros [= <-]. }
  destruct (stream_get alloc l (h_ssrc h)) as [[e m] l1] eqn:Eg.
  destruct (Z.eqb_spec e 0) as [->|]; cbn; [|by intros [= ?]].
  destruct (l1 !! m) as [x|] eqn:Ex; cbn; [|done].
  pose proof (Hg _ _ _ x eq_refl eq_refl Ex) as Hx.
  destruct (s_s_l_set x); cbn; intros [= <- <-].
  - congruence.
  - rewrite list_lookup_insert_eq in Hs by (by eapply lookup_lt_Some).
    by injection Hs as <-.
Qed.

(** ** One packet *)

Context (c : comp) (a : aes) (k : hmac).
Context (Ha : c_aes c = Some a) (Hmode : c_mode c = AES_MODE_CTR) (Hk : c_hmac c = Some k).
Context (Htag : 4 <= c_tag_len c <= SHA_DIGEST_LENGTH).

(** What the sender leaves in the buffer. *)
Lemma srtp_encrypt_packet alloc snd snd' mb mb' h p s :
  srtp_rtp snd = c -> hdr_ok h -> mb_wf mb -> has mb (mb_pos mb) (wire h ++ p) ->
  mb_end mb = mb_pos mb + zlen (wire h ++ p) -> mb_end mb + 20 <= SIZE_MAX ->
  stream_of alloc (srtp_streaml snd) h = Some s ->
  0 <= s_roc (roll s (h_seq h)) < 32768 ->
  srtp_encrypt alloc_ok junk alloc snd mb = Some (0, snd', mb') ->
  let roc := s_roc (roll s (h_seq h)) in
  exists e t,
    ctr_encr a (srtp_iv_calc (c_k_s c) (h_ssrc h) (65536 * roc + h_seq h)) p = (0, e) /\
    hmac_digest k ((wire h ++ e) ++ be32 roc) = (0, t) /\ mb_wf mb' /\
    mb_pos mb' = mb_pos mb /\
    has mb' (mb_pos mb) ((wire h ++ e) ++ take (Z.to_nat (c_tag_len c)) t) /\
    mb_end mb' = mb_pos mb + zlen (wire h ++ e) + c_tag_len c.
Proof using All.
  intros Hc Hok Hwf Hx He Hsz Hst Hroc Hrun roc.
  destruct (stream_of_run _ _ _ _ Hst) as (n & l' & Eg & Hn & Hss).
  pose proof (has_len _ _ _ Hx) as [? ?]. pose proof Hwf as (Hl & ? & ? & ?).
  assert (Hd : rtp_hdr_decode mb = Some (0, h, set_pos (mb_pos mb + zlen (wire h)) mb)).
  { apply (rtp_hdr_decode_wire mb h p); [done|]. split_and!; [done|done|lia]. }
  pose proof (ok_seq _ Hok) as Hseq.
  unfold srtp_encrypt in Hrun. rewrite Hd in Hrun. no_error in Hrun.
  rewrite Eg in Hrun. no_error in Hrun.
  rewrite Hn in Hrun. cbn [mbind option_bind] in Hrun. fold roc in Hrun.
  rewrite u64_small in Hrun by (unfold roc; lia).
  assert (Hs2 : s_ssrc (roll s (h_seq h)) = h_ssrc h)
    by (rewrite <- Hss; unfold roll; by destruct (_ <=? _)).
  rewrite Hs2, Hc in Hrun. unfold encrypt_payload in Hrun. rewrite Ha, Hmode in Hrun.
  set (iv := srtp_iv_calc _ _ _) in Hrun.
  rewrite zlen_app in He. apply has_app in Hx as [Hxw Hxp].
  pose proof (zlen_nonneg (wire h)). pose proof (zlen_nonneg p).
  assert (Hleft : mbuf_get_left (set_pos (mb_pos mb + zlen (wire h)) mb) = zlen p)
    by (apply left_exact; cbn; lia).
  rewrite Hleft in Hrun.
  assert (Hwf1 : mb_wf (set_pos (mb_pos mb + zlen (wire h)) mb))
    by (apply wf_set_pos; [done|lia]).
  destruct (ctr_encr a iv p) as [e0 e] eqn:Ee.
  destruct (Z.eq_dec e0 0) as [->|Hne].
  2:{ unfold in_place in Hrun. rewrite (mb_slice_has _ _ p) in Hrun by done.
      cbn [mbind option_bind] in Hrun. rewrite Ee, (proj2 (Z.eqb_neq _ _) Hne) in Hrun.
      cbn in Hrun. rewrite (proj2 (Z.eqb_neq _ _) Hne) in Hrun. cbn in Hrun. congruence. }
  pose proof (ctr_encr_len _ _ _ _ Ee) as Hel.
  destruct (in_place_ok _ p (ctr_encr a iv) e Hwf1 Hxp Ee Hel) as (mb1 & E1 & Hpt).
  rewrite E1 in Hrun. no_error in Hrun.
  destruct Hpt as (Hwf2 & Hp2 & He2 & Hsz2 & Hhe & Hkeep). cbn [set_pos mb_pos mb_end] in *.
  destruct (append_tag alloc_ok junk c roc (mb_pos mb) mb1) as [[e1 mb2]|] eqn:Et;
    cbn [mbind option_bind] in Hrun; [|done].
  destruct (Z.eqb_spec e1 0) as [->|]; cbn [negb] in Hrun; [|congruence].
  injection Hrun as _ <-.
  destruct (append_tag_ok c k roc (mb_pos mb) mb1 (wire h ++ e) mb2)
    as (t & Hdig & Hw & Hh & Hend); try done.
  - unfold SHA_DIGEST_LENGTH in *. lia.
  - apply has_app. split; [|done]. apply Hkeep; [done|left; lia].
  - rewrite zlen_app. lia.
  - lia.
  - exists e, t. split_and!; try done. apply wf_set_pos; [done|lia].
Qed.

(** Streams in step stay in step. *)
Lemma roll_sync s s' seq :
  s_roc s' = s_roc s -> s_s_l s' = s_s_l s ->
  s_roc (roll s' seq) = s_roc (roll s seq) /\ s_s_l (roll s' seq) = s_s_l (roll s seq) /\
  s_replay_rtp (roll s' seq) = s_replay_rtp s' /\ s_ssrc (roll s' seq) = s_ssrc s'.
Proof.
  intros E1 E2. unfold roll. rewrite E2. destruct (_ <=? _); cbn; rewrite ?E1, ?E2; done.
Qed.

(** The receiver's payload: what [e] was encrypted from. *)
Lemma decrypt_payload_ok st ix start mb w e p :
  ctr_encr a (srtp_iv_calc (c_k_s c) (s_ssrc st) ix) p = (0, e) -> mb_wf mb ->
  mb_pos mb = start + zlen w -> mb_end mb = start + zlen (w ++ e) -> has mb start (w ++ e) ->
  exists mb', decrypt_payload c st ix start mb = Some (0, st, mb') /\
    mb_pos mb' = mb_pos mb /\ mb_end mb' = mb_end mb /\ has mb' start (w ++ p).
Proof using All.
  intros Ee Hwf Hp He Hh. pose proof (ctr_encr_len _ _ _ _ Ee) as Hel.
  unfold decrypt_payload. rewrite Ha, Hmode.
  rewrite zlen_app in He. apply has_app in Hh as [Hh1 Hh2].
  rewrite (left_exact mb e) by lia.
  destruct (in_place_ok mb e (ctr_decr a (srtp_iv_calc (c_k_s c) (s_ssrc st) ix)) p Hwf)
    as (mb2 & E2 & Hpt); [by rewrite Hp|by apply ctr_decr_encr|lia|].
  rewrite E2. cbn [mbind option_bind].
  destruct Hpt as (Hwf2 & Hp2 & He2 & _ & Hh3 & Hkeep).
  eexists. split; [done|]. split; [done|]. split; [done|].
  apply has_app. rewrite Hp in Hh3. split; [|done]. apply Hkeep; [done|lia].
Qed.

(** C9: SRTP round trip (counter mode with HMAC): a packet without a header
    extension that [srtp_encrypt] has protected is accepted by [srtp_decrypt]
    of a receiver with the same keys and the same roll-over state whose replay
    window has not seen the index, and the receiver gets back exactly the
    original header and payload.  The roll-over counter is below 2^15 (from
    there on the packet index is computed wrong) and the sequence number is
    at most 2^15 away from the last one of the stream. *)
Theorem srtp_roundtrip alloc alloc' snd snd' rcv mb mb' h p s s'
  (Hsnd : srtp_rtp snd = c) (Hrcv : srtp_rtp rcv = c) (Hok : hdr_ok h) (Hwf : mb_wf mb)
  (Hx : has mb (mb_pos mb) (wire h ++ p)) (He : mb_end mb = mb_pos mb + zlen (wire h ++ p))
  (Hsz : mb_end mb + 20 <= SIZE_MAX)
  (Hs : stream_of alloc (srtp_streaml snd) h = Some s)
  (Hs' : stream_of alloc' (srtp_streaml rcv) h = Some s')
  (Hsync : s_roc s' = s_roc s /\ s_s_l s' = s_s_l s) (Hsl : 0 <= s_s_l s < 65536)
  (Hroc : 0 <= s_roc (roll s (h_seq h)) < 32768)
  (Hdiff : seq_diff (s_s_l s) (h_seq h) <= 32768)
  (Hfresh : fst (srtp_replay_check (s_replay_rtp s')
              (65536 * s_roc (roll s (h_seq h)) + h_seq h)) = true)
  (Henc : srtp_encrypt alloc_ok junk alloc snd mb = Some (0, snd', mb')) :
  exists rcv' mb2,
    srtp_decrypt alloc_ok junk alloc' rcv mb' = Some (0, rcv', mb2) /\
    mb_pos mb2 = mb_pos mb /\ mb_end mb2 = mb_end mb /\
    has mb2 (mb_pos mb) (wire h ++ p).
Proof using All.
  destruct (srtp_encrypt_packet alloc snd snd' mb mb' h p s) as
    (e & t & Ee & Hdig & Hwf' & Hp' & Hh & Hend); [done..|].
  pose proof (ctr_encr_len _ _ _ _ Ee) as Hel. pose proof (ok_seq _ Hok) as Hseq.
  destruct (stream_of_run _ _ _ _ Hs') as (n & l' & Eg & Hn & Hss).
  destruct (roll_sync s s' (h_seq h) (proj1 Hsync) (proj2 Hsync)) as (Er1 & Er2 & Er3 & Er4).
  set (roc := s_roc (roll s (h_seq h))) in *. set (st := roll s' (h_seq h)) in *.
  pose proof (zlen_nonneg (wire h)). pose proof (zlen_nonneg p).
  assert (Hlx : zlen (wire h ++ e) = zlen (wire h ++ p)) by (rewrite !zlen_app; lia).
  pose proof (zlen_app (wire h) e) as Hwe. pose proof (zlen_nonneg e).
  unfold SHA_DIGEST_LENGTH in Htag. pose proof Hwf' as (Hl' & ? & ? & ?).
  pose proof (hmac_len _ _ _ Hdig) as Htl. unfold SHA_DIGEST_LENGTH in Htl.
  pose proof (has_len _ _ _ Hh) as [? _].
  assert (Hd : rtp_hdr_decode mb' = Some (0, h, set_pos (mb_pos mb + zlen (wire h)) mb')).
  { rewrite <- Hp'. rewrite <- app_assoc in Hh.
    apply (rtp_hdr_decode_wire mb' h (e ++ take (Z.to_nat (c_tag_len c)) t)); [done|].
    split_and!; [done|by rewrite Hp'|]. rewrite app_assoc, zlen_app, Hp', Hend.
    unfold zlen in *. rewrite length_take. lia. }
  unfold srtp_decrypt. rewrite Hd. no_error. rewrite Eg. no_error. rewrite Hn. cbn [mbind option_bind].
  destruct (Z.ltb_spec 32768 (seq_diff (s_s_l s') (h_seq h))) as [Hlt|_].
  { destruct Hsync as [_ E]. rewrite E in Hlt. lia. }
  fold st. assert (Hix : srtp_get_index (s_roc st) (s_s_l st) (h_seq h)
    = Some (65536 * roc + h_seq h)).
  { rewrite Er1, Er2. apply index_agrees; done || lia. }
  rewrite Hix. cbn [mbind option_bind]. rewrite Hrcv, Hp'.
  destruct (srtp_replay_check (s_replay_rtp st) (65536 * roc + h_seq h)) as [ok r] eqn:Erp.
  rewrite Er3 in Erp. rewrite Erp in Hfresh. cbn in Hfresh. subst ok. rewrite <- Er3 in Erp.
  rewrite <- Er1 in Hdig.
  destruct (check_tag_ok c k st (65536 * roc + h_seq h) (mb_pos mb)
    (wire h) e t (set_pos (mb_pos mb + zlen (wire h)) mb') r)
    as (mb1 & Ec & Hwf1 & Hp1 & He1 & Hh1); try done.
  { apply wf_set_pos; [done|lia]. }
  rewrite Ec. no_error.
  destruct (decrypt_payload_ok (set_replay r st) (65536 * roc + h_seq h) (mb_pos mb) mb1
    (wire h) e p) as (mb2 & -> & Hp2 & He2 & Hh3); try done.
  { cbn [set_replay s_ssrc]. by rewrite Er4, Hss. }
  no_error. do 2 eexists. split; [done|]. split; [done|]. split; [cbn; lia|done].
Qed.

End Roundtrip.

(** ** A concrete cipher and hash *)

#[export] Instance toy_crypto : Crypto := {|
  aes := unit;
  hmac := unit;
  aes_alloc _ _ := (0, tt);
  hmac_create _ := (0, tt);
  ctr_encr _ iv d := (0, map (Z.lxor (hd 0 iv)) d);
  ctr_decr _ iv d := (0, map (Z.lxor (hd 0 iv)) d);
  gcm_aad _ _ _ := 0;
  gcm_encr _ _ _ d := (0, d);
  gcm_decr _ _ _ d := (0, d);
  gcm_authtag _ _ _ d := (0, replicate 16 (foldr Z.add 0 d));
  gcm_authenticate _ _ _ d t :=
    if decide (t = replicate 16 (foldr Z.add 0 d)) then 0 else EAUTH;
  hmac_digest _ d := (0, replicate 20 (foldr (fun c x => (31 * x + c) mod 256) 7 d)) |}.

#[export] Instance toy_laws : CryptoLaws.
Proof.
  split; cbn.
  - intros _ iv d e [= <-]. unfold zlen. by rewrite length_map.
  - intros _ iv d e [= <-]. f_equal. rewrite map_map. rewrite <- (map_id d) at 2.
    apply map_ext. intros x. by rewrite <- Z.lxor_assoc, Z.lxor_nilpotent, Z.lxor_0_l.
  - intros _ d t [= <-]. done.
Qed.

Definition toy_comp : comp := mk_comp (Some tt) AES_MODE_CTR (Some tt) (replicate 16 90) 10.
Definition toy_srtp : srtp := mk_srtp toy_comp toy_comp [].
Definition toy_packet : mbuf := Eval vm_compute in
  let d := wire sample_hdr ++ [1; 2; 3] in
  mk_mbuf (Some (d ++ replicate 45 0)) 64 0 (zlen d).

Definition toy_protected : mbuf := Eval vm_compute in
  match srtp_encrypt (fun _ => true) (fun _ => 0) true toy_srtp toy_packet with
  | Some (_, _, mb) => mb
  | None => mbuf_init
  end.
Definition toy_sender : srtp := Eval vm_compute in
  match srtp_encrypt (fun _ => true) (fun _ => 0) true toy_srtp toy_packet with
  | Some (_, s, _) => s
  | None => toy_srtp
  end.

(** The stream both sides create for the first packet. *)
Definition toy_stream : srtp_stream :=
  mk_stream srtp_replay_init srtp_replay_init 0x01020304 0 0x1234 true 0.

Lemma srtp_roundtrip_witness :
  exists rcv' mb2,
    srtp_decrypt (fun _ => true) (fun _ => 0) true toy_srtp toy_protected
      = Some (0, rcv', mb2) /\
    mb_pos mb2 = mb_pos toy_packet /\ mb_end mb2 = mb_end toy_packet /\
    has mb2 (mb_pos toy_packet) (wire sample_hdr ++ [1; 2; 3]).
Proof.
  apply (srtp_roundtrip (fun _ => true) (fun _ => 0) toy_comp tt tt eq_refl eq_refl eq_refl
    ltac:(zdec) true true toy_srtp toy_sender toy_srtp toy_packet toy_protected
    sample_hdr [1; 2; 3] toy_stream toy_stream);
    [done|done|exact sample_hdr_ok|zdec|zdec|zdec|zdec|zdec|zdec|done|zdec|zdec|zdec|zdec|zdec].
Defined.

(** ** Unauthenticated packets and the roll-over counter *)

Section Forged.
Context {C : Crypto} (alloc_ok : Z -> bool) (junk : Z -> Z).

(** Follows a run through its binds and tests. *)
Ltac follow H :=
  repeat match type of H with
  | (if ?b then _ else _) = Some _ => destruct b
  | (let '(_, _) := ?x in _) = Some _ => destruct x
  | (?m ≫= _) = Some _ =>
    let E := fresh in destruct m as [?|] eqn:E; cbn [mbind option_bind] in H; [|discriminate H]; clear E
  | (match ?p with (_, _) => _ end) = Some _ => destruct p
  end.

Lemma check_tag_roc c s ix start mb err s' mb' :
  check_tag alloc_ok junk c s ix start mb = Some (err, s', mb') ->
  s_roc s' = s_roc s /\ s_s_l s' = s_s_l s.
Proof.
  unfold check_tag. intros H. destruct (c_hmac c); [|by injection H as _ <- _].
  cbv zeta in H. follow H; by injection H as _ <- _.
Qed.

Lemma decrypt_payload_roc c s ix start mb err s' mb' :
  decrypt_payload c s ix start mb = Some (err, s', mb') ->
  s_roc s' = s_roc s /\ s_s_l s' = s_s_l s.
Proof.
  unfold decrypt_payload. intros H.
  destruct (c_aes c), (c_mode c); cbv zeta in H; follow H; by injection H as _ <- _.
Qed.

(** The roll-over counter is advanced before authentication: a packet
    whose sequence number is 2^15 or more behind the last one and that
    [srtp_decrypt] rejects (for instance with [EAUTH]) still leaves the
    stream with the next roll-over counter and a reset sequence number, so
    that the peer's genuine packets no longer authenticate. *)
Theorem rejected_packet_moves_roc alloc rcv mb h mb1 n l s err rcv' mb'
  (Hdec : rtp_hdr_decode mb = Some (0, h, mb1))
  (Hst : stream_get_seq alloc (srtp_streaml rcv) (h_ssrc h) (h_seq h) = Some (0, n, l))
  (Hn : l !! n = Some s) (Hd : seq_diff (s_s_l s) (h_seq h) <= -32768)
  (Hrun : srtp_decrypt alloc_ok junk alloc rcv mb = Some (err, rcv', mb'))
  (Herr : err <> 0) :
  exists s1, srtp_streaml rcv' !! n = Some s1 /\
  s_roc s1 = u32 (s_roc s + 1) /\ s_s_l s1 = 0.
Proof.
  unfold srtp_decrypt in Hrun. rewrite Hdec in Hrun. no_error in Hrun.
  rewrite Hst in Hrun. no_error in Hrun.
  rewrite Hn in Hrun. cbn [mbind option_bind] in Hrun.
  destruct (Z.ltb_spec 32768 (seq_diff (s_s_l s) (h_seq h))); [lia|].
  set (st := roll s (h_seq h)) in Hrun.
  assert (Hr : s_roc st = u32 (s_roc s + 1) /\ s_s_l st = 0).
  { unfold st, roll. rewrite (proj2 (Z.leb_le _ _) Hd). done. }
  assert (Hput : forall x, srtp_streaml (set_streaml (<[n := x]> l) rcv) !! n = Some x).
  { intros x. cbn. apply list_lookup_insert_eq. by eapply lookup_lt_Some. }
  destruct (srtp_get_index (s_roc st) (s_s_l st) (h_seq h)) as [ix|];
    cbn [mbind option_bind] in Hrun; [|done].
  destruct (check_tag alloc_ok junk (srtp_rtp rcv) st ix (mb_pos mb) mb1)
    as [[[e2 s2] mb2]|] eqn:Ec; cbn [mbind option_bind] in Hrun; [|done].
  apply check_tag_roc in Ec as [Ec1 Ec2].
  destruct (Z.eqb_spec e2 0); cbn [negb] in Hrun.
  2:{ injection Hrun as _ <- _. exists s2. rewrite Hput, Ec1, Ec2. tauto. }
  destruct (decrypt_payload (srtp_rtp rcv) s2 ix (mb_pos mb) mb2)
    as [[[e3 s3] mb3]|] eqn:Ed; cbn [mbind option_bind] in Hrun; [|done].
  apply decrypt_payload_roc in Ed as [Ed1 Ed2].
  destruct (Z.eqb_spec e3 0); cbn [negb] in Hrun; [by injection Hrun as <- _ _|].
  injection Hrun as _ <- _. exists s3. rewrite Hput, Ed1, Ed2, Ec1, Ec2. tauto.
Qed.

End Forged.

(** A forged packet with sequence number 0 against a stream at 40000. *)
Definition forged_hdr : rtp_header := mk_hdr 2 false false 0 false 96 0 0 7 [] 0 0.
Definition forged_packet : mbuf := Eval vm_compute in
  mk_mbuf (Some (wire forged_hdr ++ replicate 20 0)) 32 0 32.
Definition victim_stream : srtp_stream :=
  mk_stream srtp_replay_init srtp_replay_init 7 5 40000 true 0.
Definition victim : srtp := mk_srtp toy_comp toy_comp [victim_stream].
Definition after_forgery : srtp * mbuf := Eval vm_compute in
  match srtp_decrypt (fun _ => true) (fun _ => 0) true victim forged_packet with
  | Some (_, r, mb) => (r, mb)
  | None => (victim, mbuf_init)
  end.

Lemma rejected_packet_moves_roc_witness :
  exists s1, srtp_streaml (fst after_forgery) !! 0%nat = Some s1 /\
    s_roc s1 = u32 (s_roc victim_stream + 1) /\ s_s_l s1 = 0.
Proof.
  apply (rejected_packet_moves_roc (fun _ => true) (fun _ => 0) true victim forged_packet
    forged_hdr (set_pos 12 forged_packet) 0%nat [victim_stream] victim_stream EAUTH
    (fst after_forgery) (snd after_forgery)); zdec.
Defined.
