(* ===== verification/Srtcp.v ===== *)
(** * Secure RTCP and packet-level replay protection

    Models src/re/src/srtp/srtcp.c.  A protected RTP packet is accepted at
    most once; for SRTCP this holds only when the suite has an HMAC: the GCM
    suites skip the replay check. *)

From S2P Require Import Prelude Effects Mbuf MbufProps Rtp Srtp SrtpProps SrtpRoundtrip.
Import Mb Rtp Srtp.

Module Srtcp.

Definition get_rtcp_ssrc (mb : mbuf) : option (Z * Z * mbuf) :=
  if mbuf_get_left mb <? 8 then Some (EBADMSG, 0, mb) else
  let mb := mbuf_advance mb 4 in
  '(v, mb) ← mbuf_read_u32 mb;
  Some (0, ntohl v, mb).

Section Packets.
Context {C : Crypto} (alloc_ok : Z -> bool) (junk : Z -> Z).

(** The encryption of the payload and the value of the E bit. *)
Definition encrypt_rtcp (c : comp) (ssrc ix start : Z) (mb : mbuf)
  : option (Z * Z * mbuf) :=
  match c_aes c, c_mode c with
  | Some a, AES_MODE_CTR =>
    '(err, mb) ← in_place mb (mbuf_get_left mb) (ctr_encr a (srtp_iv_calc (c_k_s c) ssrc ix));
    Some (err, 1, mb)
  | Some a, AES_MODE_GCM =>
    let iv := srtp_iv_calc_gcm (c_k_s c) ssrc ix in
    hdr ← mb_slice mb start (mb_pos mb - start);
    let aad := hdr ++ be32 (Z.lor (2 ^ 31) ix) in
    let err := Z.lor (gcm_aad a iv hdr) (gcm_aad a iv aad) in
    if negb (err =? 0) then Some (err, 0, mb) else
    plain ← mb_slice mb (mb_pos mb) (mbuf_get_left mb);
    '(err, mb) ← in_place mb (mbuf_get_left mb) (gcm_encr a iv aad);
    if negb (err =? 0) then Some (err, 0, mb) else
    let '(err, tag) := gcm_authtag a iv aad plain in
    if negb (err =? 0) then Some (err, 0, mb) else
    '(err, mb) ← mbuf_write_mem alloc_ok junk (set_pos (mb_end mb) mb) (take 16 tag);
    Some (err, 1, mb)
  | None, _ => Some (0, 0, mb)
  end.

Definition srtcp_encrypt (alloc : bool) (srtp : srtp) (mb : mbuf) : option srtp_result :=
  let c := srtp_rtcp srtp in
  let start := mb_pos mb in
  '(err, ssrc, mb) ← get_rtcp_ssrc mb;
  if negb (err =? 0) then Some (err, srtp, mb) else
  let '(err, n, l) := stream_get alloc (srtp_streaml srtp) ssrc in
  if negb (err =? 0) then Some (err, set_streaml l srtp, mb) else
  s ← l !! n;
  let s := set_rtcp_index (Z.land (u32 (s_rtcp_index s + 1)) 0x7fffffff) s in
  let ix := s_rtcp_index s in
  let srtp := set_streaml (<[n := s]> l) srtp in
  '(err, ep, mb) ← encrypt_rtcp c ssrc ix start mb;
  if negb (err =? 0) then Some (err, srtp, mb) else
  '(err, mb) ← mbuf_write_u32 alloc_ok junk (set_pos (mb_end mb) mb)
                 (htonl (Z.lor (u32 (Z.shiftl ep 31)) ix));
  if negb (err =? 0) then Some (err, srtp, mb) else
  '(err, mb) ←
    match c_hmac c with
    | None => Some (0, mb)
    | Some h =>
      let mb := set_pos start mb in
      data ← mb_slice mb start (mbuf_get_left mb);
      let '(err, tag) := hmac_digest h data in
      if negb (err =? 0) then Some (err, mb)
      else mbuf_write_mem alloc_ok junk (set_pos (mb_end mb) mb)
             (take (Z.to_nat (c_tag_len c)) tag)
    end;
  if negb (err =? 0) then Some (err, srtp, mb) else
  Some (0, srtp, set_pos start mb).

(** The tag check behind the index word; [mb] stands behind that word. *)
Definition check_rtcp_tag (c : comp) (s : srtp_stream) (ix start : Z) (mb : mbuf)
  : option (Z * srtp_stream * mbuf) :=
  match c_hmac c with
  | None => Some (0, s, mb)
  | Some h =>
    let tag_start := mb_pos mb in
    '(err, tag_pkt, mb) ← mbuf_read_mem mb (c_tag_len c);
    if negb (err =? 0) then Some (err, s, mb) else
    let mb := set_end tag_start (set_pos start mb) in
    data ← mb_slice mb start (mbuf_get_left mb);
    let '(err, tag) := hmac_digest h data in
    if negb (err =? 0) then Some (err, s, mb) else
    if negb (bool_decide (take (Z.to_nat (c_tag_len c)) tag = tag_pkt))
    then Some (EAUTH, s, mb)
    else
      let '(ok, r) := srtp_replay_check (s_replay_rtcp s) ix in
      if negb ok then Some (EALREADY, set_replay_rtcp r s, mb)
      else Some (0, set_replay_rtcp r s, mb)
  end.

Definition decrypt_rtcp (c : comp) (ep : bool) (ssrc ix start pld_start eix_start : Z)
  (mb : mbuf) : option (Z * mbuf) :=
  match c_aes c, ep, c_mode c with
  | Some a, true, AES_MODE_CTR =>
    let mb := set_pos pld_start mb in
    in_place mb (mbuf_get_left mb) (ctr_decr a (srtp_iv_calc (c_k_s c) ssrc ix))
  | Some a, true, AES_MODE_GCM =>
    let iv := srtp_iv_calc_gcm (c_k_s c) ssrc ix in
    hdr ← mb_slice mb start (pld_start - start);
    word ← mb_slice mb eix_start 4;
    let aad := hdr ++ word in
    let err := Z.lor (gcm_aad a iv hdr) (gcm_aad a iv aad) in
    if negb (err =? 0) then Some (err, mb) else
    let mb := set_pos pld_start mb in
    if mbuf_get_left mb <? GCM_TAGLEN then Some (EBADMSG, mb) else
    let tag_start := usz (mb_end mb - GCM_TAGLEN) in
    let n := tag_start - pld_start in
    cipher ← mb_slice mb pld_start n;
    '(err, mb) ← in_place mb n (gcm_decr a iv aad);
    if negb (err =? 0) then Some (err, mb) else
    tag ← mb_slice mb tag_start GCM_TAGLEN;
    let err := gcm_authenticate a iv aad cipher tag in
    if negb (err =? 0) then Some (err, mb) else
    Some (0, set_end tag_start mb)
  | _, _, _ => Some (0, mb)
  end.

Definition srtcp_decrypt (alloc : bool) (srtp : srtp) (mb : mbuf) : option srtp_result :=
  let c := srtp_rtcp srtp in
  let start := mb_pos mb in
  '(err, ssrc, mb) ← get_rtcp_ssrc mb;
  if negb (err =? 0) then Some (err, srtp, mb) else
  let '(err, n, l) := stream_get alloc (srtp_streaml srtp) ssrc in
  if negb (err =? 0) then Some (err, set_streaml l srtp, mb) else
  s ← l !! n;
  let pld_start := mb_pos mb in
  if mbuf_get_left mb <? 4 + c_tag_len c then Some (EBADMSG, set_streaml l srtp, mb) else
  let eix_start := usz (mb_end mb - (4 + c_tag_len c)) in
  '(v, mb) ← mbuf_read_u32 (set_pos eix_start mb);
  let v := ntohl v in
  let ep := Z.land (Z.shiftr v 31) 1 =? 1 in
  let ix := Z.land v 0x7fffffff in
  '(err, s, mb) ← check_rtcp_tag c s ix start mb;
  let srtp := set_streaml (<[n := s]> l) srtp in
  if negb (err =? 0) then Some (err, srtp, mb) else
  let mb := set_end eix_start mb in
  '(err, mb) ← decrypt_rtcp c ep ssrc ix start pld_start eix_start mb;
  if negb (err =? 0) then Some (err, srtp, mb) else
  Some (0, srtp, set_pos start mb).

End Packets.

(** ** Streams that exist stay where they are *)

Lemma stream_find_app k l x ssrc n :
  stream_find_from k l ssrc = Some n -> stream_find_from k (l ++ [x]) ssrc = Some n.
Proof.
  revert k. induction l as [|s l IH]; intros k; cbn; [done|]. by destruct (_ =? _); auto.
Qed.

Lemma stream_find_new k l x ssrc :
  stream_find_from k l ssrc = None -> s_ssrc x = ssrc ->
  stream_find_from k (l ++ [x]) ssrc = Some (k + length l)%nat.
Proof.
  revert k. induction l as [|s l IH]; intros k; cbn.
  - intros _ ->. rewrite Z.eqb_refl. f_equal. lia.
  - destruct (_ =? _); [done|]. intros H E. rewrite IH by done. f_equal. lia.
Qed.

(** Replacing a stream by one of the same source keeps the lookup. *)
Lemma stream_find_insert k l n s ssrc :
  l !! n = Some s -> forall s', s_ssrc s' = s_ssrc s ->
  stream_find_from k (<[n := s']> l) ssrc = stream_find_from k l ssrc.
Proof.
  revert k n. induction l as [|x l IH]; intros k n Hn s' E; [done|].
  destruct n as [|n]; cbn in *; [injection Hn as ->; by rewrite E|].
  destruct (s_ssrc x =? ssrc); [done|]. by apply IH.
Qed.

(** The stream that [stream_get] returned is found again. *)
Lemma stream_get_again alloc alloc' l ssrc n l' :
  stream_get alloc l ssrc = (0, n, l') -> stream_get alloc' l' ssrc = (0, n, l') /\
  exists s, l' !! n = Some s /\ s_ssrc s = ssrc.
Proof.
  unfold stream_get, stream_find, stream_new.
  destruct (stream_find_from 0 l ssrc) as [m|] eqn:E.
  - intros [= <- <-]. rewrite E. split; [done|].
    apply stream_find_ssrc in E as (s & Hs & ? & _). rewrite Nat.sub_0_r in Hs. eauto.
  - destruct (_ <=? _); [done|]. destruct alloc; cbn; [|done]. intros [= <- <-].
    rewrite (stream_find_new 0 l (stream_zero ssrc) ssrc E eq_refl). split; [done|].
    exists (stream_zero ssrc). split; [|done]. by rewrite lookup_app_r, Nat.sub_diag by lia.
Qed.

(** SRTCP packets of the GCM suites can be replayed: without an HMAC
    [srtcp_decrypt] never consults the replay window, so a packet that was
    accepted is accepted again, with the same result, on the state its first
    acceptance left (the code's comment promises replay protection for
    SRTCP). *)
Theorem srtcp_gcm_replay {C : Crypto} alloc alloc' rcv mb rcv' mb'
  (Hh : c_hmac (srtp_rtcp rcv) = None)
  (Hrun : srtcp_decrypt alloc rcv mb = Some (0, rcv', mb')) :
  srtcp_decrypt alloc' rcv' mb = Some (0, rcv', mb').
Proof.
  unfold srtcp_decrypt in *.
  destruct (get_rtcp_ssrc mb) as [[[e ssrc] mb1]|]; cbn [mbind option_bind] in *; [|done].
  destruct (Z.eqb_spec e 0); cbn [negb] in *; [|congruence].
  destruct (stream_get alloc (srtp_streaml rcv) ssrc) as [[e2 n] l] eqn:Eg.
  destruct (Z.eqb_spec e2 0) as [->|]; cbn [negb] in *; [|congruence].
  destruct (stream_get_again _ alloc' _ _ _ _ Eg) as [Ea (s & Hs & _)].
  rewrite Hs in Hrun. cbn [mbind option_bind] in Hrun.
  destruct (_ <? _) eqn:Elt in Hrun; [done|].
  destruct (mbuf_read_u32 _) as [[v mb2]|] eqn:Er in Hrun; cbn [mbind option_bind] in Hrun; [|done].
  unfold check_rtcp_tag in Hrun at 1. rewrite Hh in Hrun. no_error in Hrun.
  rewrite list_insert_id in Hrun by done.
  destruct (decrypt_rtcp _ _ _ _ _ _ _ _) as [[e3 mb3]|] eqn:Ed in Hrun;
    cbn [mbind option_bind] in Hrun; [|done].
  destruct (Z.eqb_spec e3 0) as [->|]; cbn [negb] in *; [|congruence].
  injection Hrun as <- <-. cbn [srtp_streaml set_streaml srtp_rtcp]. rewrite Ea.
  no_error. rewrite Hs. cbn [mbind option_bind].
  rewrite Elt, Er. cbn [mbind option_bind]. unfold check_rtcp_tag. rewrite Hh.
  no_error.
  rewrite Ed. no_error.
  by rewrite list_insert_id.
Qed.

Definition gcm_comp : comp := mk_comp (Some tt) AES_MODE_GCM None (replicate 16 90) 0.
Definition gcm_srtp : srtp := mk_srtp gcm_comp gcm_comp [].
Definition rtcp_packet : mbuf :=
  mk_mbuf (Some (replicate 8 1 ++ [5; 6; 7; 8] ++ replicate 52 0)) 64 0 12.
Definition rtcp_protected : mbuf := Eval vm_compute in
  match srtcp_encrypt (fun _ => true) (fun _ => 0) true gcm_srtp rtcp_packet with
  | Some (_, _, mb) => mb
  | None => mbuf_init
  end.
Definition rtcp_received : srtp * mbuf := Eval vm_compute in
  match srtcp_decrypt true gcm_srtp rtcp_protected with
  | Some (_, s, mb) => (s, mb)
  | None => (gcm_srtp, mbuf_init)
  end.

Lemma srtcp_gcm_replay_witness :
  srtcp_decrypt true (fst rtcp_received) rtcp_protected
    = Some (0, fst rtcp_received, snd rtcp_received).
Proof.
  apply (srtcp_gcm_replay true true gcm_srtp rtcp_protected (fst rtcp_received)
    (snd rtcp_received)); zdec.
Defined.

(** ** A protected RTP packet is accepted once *)

Lemma replay_check_twice r ix r' :
  0 <= r_lix r < 2 ^ 64 -> 0 <= ix < 2 ^ 64 ->
  srtp_replay_check r ix = (true, r') -> fst (srtp_replay_check r' ix) = false.
Proof.
  intros Hl Hix. unfold srtp_replay_check at 1, SRTP_WINDOW_SIZE.
  destruct (Z.ltb_spec (r_lix r) ix) as [Hlt|Hge].
  - intros [= <-]. set (x := if _ : bool then _ else _).
    assert (Hx : r_lix x = ix /\ Z.testbit (r_bitmap x) 0 = true).
    { subst x. case_match; (split; [done|]); [|done]. cbn [r_bitmap].
      rewrite Z.lor_spec. apply orb_true_r. }
    destruct Hx as [Hx1 Hx2]. unfold srtp_replay_check. rewrite Hx1, Z.ltb_irrefl, Z.sub_diag.
    change (SRTP_WINDOW_SIZE <=? u64 0) with false. cbv iota.
    change (u64 0) with 0. rewrite bit_clear, Hx2 by lia. done.
  - rewrite u64_small by lia. destruct (Z.leb_spec 64 (r_lix r - ix)); [done|].
    rewrite bit_clear by lia. destruct (Z.testbit (r_bitmap r) (r_lix r - ix)); cbn; [done|].
    intros [= <-]. unfold srtp_replay_check, SRTP_WINDOW_SIZE. cbn [r_lix r_bitmap].
    rewrite (proj2 (Z.ltb_ge _ _) Hge), u64_small by lia.
    destruct (Z.leb_spec 64 (r_lix r - ix)); [lia|].
    rewrite bit_clear, set_bit_bits, Z.eqb_refl, orb_true_r by lia. done.
Qed.

Section Once.
Context {C : Crypto} (alloc_ok : Z -> bool) (junk : Z -> Z).

(** A passed tag check has consulted the replay window. *)
Lemma check_tag_pass c h s ix start mb s' mb' :
  c_hmac c = Some h -> check_tag alloc_ok junk c s ix start mb = Some (0, s', mb') ->
  exists r, srtp_replay_check (s_replay_rtp s) ix = (true, r) /\ s' = set_replay r s.
Proof.
  unfold check_tag. intros -> H. cbv zeta in H.
  destruct (_ <? _); [done|].
  destruct (mbuf_read_mem _ _) as [[[e d] m]|]; cbn [mbind option_bind] in H; [|done].
  destruct (Z.eqb_spec e 0); cbn [negb] in H; [|congruence].
  destruct (mbuf_write_u32 _ _ _ _) as [[e2 m2]|]; cbn [mbind option_bind] in H; [|done].
  destruct (Z.eqb_spec e2 0); cbn [negb] in H; [|congruence].
  destruct (mb_slice _ _ _) as [data|]; cbn [mbind option_bind] in H; [|done].
  destruct (hmac_digest h data) as [e3 t].
  destruct (Z.eqb_spec e3 0); cbn [negb] in H; [|congruence].
  destruct (negb (bool_decide _)); [done|].
  destruct (srtp_replay_check (s_replay_rtp s) ix) as [[|] r]; cbn [negb] in H; [|done].
  injection H as <- _. eauto.
Qed.

(** Counter-mode decryption and a missing cipher leave the stream alone. *)
Lemma decrypt_payload_ctr c s ix start mb err s' mb' :
  c_mode c = AES_MODE_CTR -> decrypt_payload c s ix start mb = Some (err, s', mb') -> s' = s.
Proof.
  unfold decrypt_payload. intros -> H. destruct (c_aes c); [|by injection H as _ <- _].
  destruct (in_place _ _ _) as [[e m]|]; cbn [mbind option_bind] in H; [|done].
  by injection H as _ <- _.
Qed.

(** A stream that has accepted [seq] does not roll over for it again, and
    keeps its index. *)
Lemma accepted_again s seq s2 :
  0 <= seq -> (s_roc s2 = s_roc (roll s seq)) ->
  s_s_l s2 = (if s_s_l (roll s seq) <? seq then seq else s_s_l (roll s seq)) ->
  roll s2 seq = s2 /\
  seq_diff (s_s_l s2) seq <= 0 /\
  (0 <= seq < 65536 -> 0 <= s_s_l s < 65536 ->
   forall ix, srtp_get_index (s_roc (roll s seq)) (s_s_l (roll s seq)) seq = Some ix ->
   seq_diff (s_s_l s) seq <= 32768 ->
   srtp_get_index (s_roc s2) (s_s_l s2) seq = Some ix).
Proof.
  intros Hs0 Hr Hl.
  assert (Hd : -32768 < seq_diff (s_s_l s2) seq <= 0).
  { rewrite Hl. unfold roll, seq_diff. destruct (Z.leb_spec (seq - s_s_l s) (-32768)); cbn.
    - destruct (Z.ltb_spec 0 seq); lia.
    - destruct (Z.ltb_spec (s_s_l s) seq); lia. }
  split_and!; [|lia|].
  - unfold roll. rewrite (proj2 (Z.leb_gt _ _)) by lia. done.
  - intros Hs Hsl ix Hix Hdf. rewrite Hr. rewrite <- Hix. unfold srtp_get_index.
    set (roc := s_roc (roll s seq)) in *. unfold seq_diff in *.
    assert (E : forall l, -32768 <= seq - l <= 32768 ->
      (if l <? 32768 then if 32768 <? seq - l then i32 (Z.land (u32 (roc - 1)) 0xffffffff)
         else i32 roc
       else if seq <? l - 32768 then i32 (Z.land (u32 (roc + 1)) 0xffffffff) else i32 roc)
      = i32 roc).
    { intros l Hle. destruct (Z.ltb_spec l 32768), (Z.ltb_spec 32768 (seq - l)),
        (Z.ltb_spec seq (l - 32768)); try done; lia. }
    rewrite !E; [done|..|lia].
    unfold roll, seq_diff. destruct (Z.leb_spec (seq - s_s_l s) (-32768)); cbn; lia.
Qed.

Lemma htons_range v : 0 <= htons v < 65536.
Proof.
  unfold htons. cbn. pose proof (Z.mod_pos_bound v 256 ltac:(lia)).
  pose proof (Z.mod_pos_bound (v / 256) 256 ltac:(lia)). lia.
Qed.

Lemma decode_seq_range mb h mb1 :
  rtp_hdr_decode mb = Some (0, h, mb1) -> 0 <= h_seq h < 65536.
Proof.
  unfold rtp_hdr_decode. intros H. destruct (_ <? _); [done|].
  destruct (mbuf_read_mem mb 2) as [[[e d] m]|]; cbn [mbind option_bind] in H; [|done].
  destruct (Z.eqb_spec e 0); cbn [negb] in H; [|congruence].
  destruct (rd d 0); cbn [mbind option_bind] in H; [|done].
  destruct (rd d 1); cbn [mbind option_bind] in H; [|done].
  destruct (mbuf_read_u16 m) as [[v m1]|]; cbn [mbind option_bind] in H; [|done].
  pose proof (htons_range v) as Hv.
  destruct (mbuf_read_u32 m1) as [[v2 m2]|]; cbn [mbind option_bind] in H; [|done].
  destruct (mbuf_read_u32 m2) as [[v3 m3]|]; cbn [mbind option_bind] in H; [|done].
  destruct (_ <? _); [done|].
  destruct (csrc_decode _ _ _) as [[l m4]|]; cbn [mbind option_bind] in H; [|done].
  destruct (_ =? 1); [|by injection H as <- _].
  destruct (_ <? _); [done|].
  destruct (mbuf_read_u16 m4) as [[v5 m5]|]; cbn [mbind option_bind] in H; [|done].
  destruct (mbuf_read_u16 m5) as [[v6 m6]|]; cbn [mbind option_bind] in H; [|done].
  destruct (_ <? _); [done|]. by injection H as <- _.
Qed.

(** Streams as the code leaves them. *)
Definition stream_ok (s : srtp_stream) : Prop :=
  0 <= s_s_l s < 65536 /\ 0 <= s_roc s < 2 ^ 32 /\ 0 <= r_lix (s_replay_rtp s) < 2 ^ 64.

Lemma rolled_fields s seq :
  s_ssrc (roll s seq) = s_ssrc s /\ (s_s_l_set s = true -> s_s_l_set (roll s seq) = true) /\
  s_replay_rtp (roll s seq) = s_replay_rtp s.
Proof. unfold roll. by destruct (_ <=? _). Qed.

Lemma index_range roc s_l seq ix : srtp_get_index roc s_l seq = Some ix -> 0 <= ix < 2 ^ 64.
Proof.
  unfold srtp_get_index. destruct (in_int _ && in_int _); [|done]. intros [= <-].
  apply Z.mod_pos_bound. lia.
Qed.

Lemma stream_get_seq_again alloc alloc' l0 ssrc seq n l :
  Forall stream_ok l0 -> 0 <= seq < 65536 ->
  stream_get_seq alloc l0 ssrc seq = Some (0, n, l) ->
  exists s, l !! n = Some s /\ s_ssrc s = ssrc /\ stream_ok s /\ s_s_l_set s = true /\
  forall s', s_ssrc s' = ssrc -> s_s_l_set s' = true ->
    stream_get_seq alloc' (<[n := s']> l) ssrc seq = Some (0, n, <[n := s']> l).
Proof.
  intros Hf Hs. unfold stream_get_seq at 1.
  destruct (stream_get alloc l0 ssrc) as [[e m] l1] eqn:Eg.
  destruct (Z.eqb_spec e 0) as [->|]; cbn [negb]; [|congruence].
  destruct (stream_get_again _ alloc' _ _ _ _ Eg) as [Ea (x & Hx & Hss)].
  assert (Hok1 : Forall stream_ok l1).
  { revert Eg. unfold stream_get, stream_new. destruct (stream_find l0 ssrc); [by intros [= _ <-]|].
    destruct (_ <=? _); [by intros [= ?]|]. destruct alloc; cbn; [|by intros [= ?]].
    intros [= _ <-]. apply Forall_app. split; [done|]. constructor; [|constructor].
    unfold stream_ok. cbn. lia. }
  pose proof (Forall_lookup_1 _ _ _ _ Hok1 Hx) as Hokx. rewrite Hx. cbn [mbind option_bind].
  assert (Hfind : stream_find_from 0 l1 ssrc = Some m).
  { revert Ea. unfold stream_get, stream_find. destruct (stream_find_from 0 l1 ssrc) eqn:E.
    - by intros [= <-].
    - unfold stream_new. destruct (_ <=? _); [by intros [= ?]|].
      destruct alloc'; cbn; [|by intros [= ?]]. intros [= _ El].
      apply (f_equal length) in El. rewrite length_app in El. cbn in El. lia. }
  assert (Hlt : (m < length l1)%nat) by (by eapply lookup_lt_Some).
  assert (Hagain : forall s', s_ssrc s' = ssrc -> s_s_l_set s' = true ->
    stream_get_seq alloc' (<[m := s']> l1) ssrc seq = Some (0, m, <[m := s']> l1)).
  { intros s' E1 E2. unfold stream_get_seq, stream_get, stream_find.
    rewrite (stream_find_insert _ _ _ x) by (done || congruence). rewrite Hfind.
    no_error.
    rewrite list_lookup_insert_eq by done. cbn [mbind option_bind]. by rewrite E2. }
  destruct (s_s_l_set x) eqn:Eset; cbn [negb]; intros [= <- <-].
  - exists x. split_and!; try done; apply Hokx.
  - exists (set_seq (s_roc x) seq x). rewrite list_lookup_insert_eq by done.
    split_and!; try done.
    + destruct Hokx as (? & ? & ?). unfold stream_ok. cbn. lia.
    + intros s' E1 E2. rewrite list_insert_insert_eq. by apply Hagain.
Qed.

(** The stream after a packet was accepted. *)
Definition accepted_stream (s : srtp_stream) (seq : Z) (rp : replay) : srtp_stream :=
  let s := set_replay rp (roll s seq) in
  if s_s_l s <? seq then set_seq (s_roc s) seq s else s.

(** What an accepted packet went through. *)
Lemma decrypt_accepts alloc rcv mb rcv' mb' k :
  c_hmac (srtp_rtp rcv) = Some k -> c_mode (srtp_rtp rcv) = AES_MODE_CTR ->
  srtp_decrypt alloc_ok junk alloc rcv mb = Some (0, rcv', mb') ->
  exists h mb1 n l s ix rp, rtp_hdr_decode mb = Some (0, h, mb1) /\
    stream_get_seq alloc (srtp_streaml rcv) (h_ssrc h) (h_seq h) = Some (0, n, l) /\
    l !! n = Some s /\ seq_diff (s_s_l s) (h_seq h) <= 32768 /\
    srtp_get_index (s_roc (roll s (h_seq h))) (s_s_l (roll s (h_seq h))) (h_seq h) = Some ix /\
    srtp_replay_check (s_replay_rtp (roll s (h_seq h))) ix = (true, rp) /\
    rcv' = set_streaml (<[n := accepted_stream s (h_seq h) rp]> l) rcv.
Proof.
  intros Hh Hmode H. unfold srtp_decrypt in H.
  destruct (rtp_hdr_decode mb) as [[[e h] mb1]|] eqn:Ed; cbn [mbind option_bind] in *; [|done].
  destruct (Z.eqb_spec e 0) as [->|]; cbn [negb] in *; [|congruence].
  destruct (stream_get_seq alloc (srtp_streaml rcv) (h_ssrc h) (h_seq h))
    as [[[e n] l]|] eqn:Eg; cbn [mbind option_bind] in H; [|done].
  destruct (Z.eqb_spec e 0) as [->|]; cbn [negb] in H; [|congruence].
  destruct (l !! n) as [s|] eqn:Hs; cbn [mbind option_bind] in H; [|done].
  destruct (Z.ltb_spec 32768 (seq_diff (s_s_l s) (h_seq h))); [done|].
  destruct (srtp_get_index _ _ (h_seq h)) as [ix|] eqn:Eix; cbn [mbind option_bind] in H; [|done].
  destruct (check_tag alloc_ok junk (srtp_rtp rcv) (roll s (h_seq h)) ix (mb_pos mb) mb1)
    as [[[e s1] mb2]|] eqn:Ec; cbn [mbind option_bind] in H; [|done].
  destruct (Z.eqb_spec e 0) as [->|]; cbn [negb] in H; [|congruence].
  destruct (check_tag_pass _ _ _ _ _ _ _ _ Hh Ec) as (rp & Erp & ->).
  destruct (decrypt_payload _ _ _ _ _) as [[[e s2] mb3]|] eqn:Ep;
    cbn [mbind option_bind] in H; [|done].
  apply (decrypt_payload_ctr _ _ _ _ _ _ _ _ Hmode) in Ep as ->.
  destruct (Z.eqb_spec e 0) as [->|]; cbn [negb] in H; [|congruence].
  injection H as <- _. exists h, mb1, n, l, s, ix, rp. split_and!; done || lia.
Qed.

Lemma accepted_stream_fields s seq rp :
  let s3 := accepted_stream s seq rp in
  s_ssrc s3 = s_ssrc s /\ (s_s_l_set s = true -> s_s_l_set s3 = true) /\ s_replay_rtp s3 = rp /\
  s_roc s3 = s_roc (roll s seq) /\
  s_s_l s3 = if s_s_l (roll s seq) <? seq then seq else s_s_l (roll s seq).
Proof.
  destruct (rolled_fields s seq) as (Hr1 & Hr2 & _). unfold accepted_stream. cbn.
  destruct (_ <? _); cbn; split_and!; done.
Qed.

(** C16: a protected RTP packet is accepted at most once: after
    [srtp_decrypt] has accepted a packet (suites with an HMAC), the same
    packet is never accepted again on the state that this left. *)
Theorem srtp_packet_accepted_once alloc alloc' rcv mb rcv' mb' k err r m
  (Hh : c_hmac (srtp_rtp rcv) = Some k) (Hmode : c_mode (srtp_rtp rcv) = AES_MODE_CTR)
  (Hok : Forall stream_ok (srtp_streaml rcv))
  (Hfirst : srtp_decrypt alloc_ok junk alloc rcv mb = Some (0, rcv', mb'))
  (Hagain : srtp_decrypt alloc_ok junk alloc' rcv' mb = Some (err, r, m)) :
  err <> 0.
Proof.
  intros ->. destruct (decrypt_accepts _ _ _ _ _ k Hh Hmode Hfirst)
    as (h & mb1 & n & l & s & ix & rp & Ed & Eg & Hs & Hdf & Eix & Erp & ->).
  destruct (decrypt_accepts alloc' (set_streaml _ rcv) mb r m k Hh Hmode Hagain)
    as (h' & mb1' & n' & l' & s' & ix' & rp' & Ed' & Eg' & Hs' & _ & Eix' & Erp' & _).
  rewrite Ed in Ed'. injection Ed' as <- <-.
  pose proof (decode_seq_range _ _ _ Ed) as Hseq.
  destruct (stream_get_seq_again _ alloc' _ _ _ _ _ Hok Hseq Eg)
    as (s0 & Hs0 & Hss & Hoks & Hset & Hget).
  rewrite Hs in Hs0. injection Hs0 as <-.
  destruct (accepted_stream_fields s (h_seq h) rp) as (E1 & E2 & E3 & E4 & E5).
  set (s3 := accepted_stream s (h_seq h) rp) in *.
  cbn [srtp_streaml set_streaml] in Eg'. rewrite Hget in Eg' by (congruence || by apply E2).
  injection Eg' as <- <-. rewrite list_lookup_insert_eq in Hs' by (by eapply lookup_lt_Some).
  injection Hs' as <-.
  destruct (accepted_again s (h_seq h) s3 ltac:(lia) E4 E5) as (Hroll & _ & Hix).
  rewrite Hroll in Eix', Erp'. rewrite (Hix Hseq (proj1 Hoks) ix Eix Hdf) in Eix'.
  injection Eix' as <-. rewrite E3 in Erp'. destruct Hoks as (_ & _ & Hlix).
  destruct (rolled_fields s (h_seq h)) as (_ & _ & Hr3). rewrite Hr3 in Erp.
  pose proof (replay_check_twice _ ix _ Hlix (index_range _ _ _ _ Eix) Erp) as Htw.
  by rewrite Erp' in Htw.
Qed.
End Once.

Definition received_once : srtp * mbuf := Eval vm_compute in
  match srtp_decrypt (fun _ => true) (fun _ => 0) true toy_srtp toy_protected with
  | Some (_, r, mb) => (r, mb)
  | None => (toy_srtp, mbuf_init)
  end.
Definition received_twice : Z * srtp * mbuf := Eval vm_compute in
  match srtp_decrypt (fun _ => true) (fun _ => 0) true (fst received_once) toy_protected with
  | Some x => x
  | None => (0, toy_srtp, mbuf_init)
  end.

Lemma srtp_packet_accepted_once_witness : received_twice.1.1 <> 0.
Proof.
  apply (srtp_packet_accepted_once (fun _ => true) (fun _ => 0) true true toy_srtp toy_protected
    (fst received_once) (snd received_once) tt received_twice.1.1 received_twice.1.2
    received_twice.2); [done|done|constructor|zdec|zdec].
Defined.

End Srtcp.
