(* ===== verification/Jbuf.v ===== *)
(** * The jitter buffer

    Models src/re/src/jbuf/jbuf.c: a pool of frames, the buffered frames
    sorted by sequence number, and the statistics that drive the adaptive
    mode.  The linked lists are sequences (ReListProps.v).  [None] is a NULL
    dereference or an overflow of a signed integer.  References to packet
    memory are recorded in a log.  Locks and debug output are left out; the
    statistics counters are compiled in (JBUF_STAT). *)

From S2P Require Import Prelude Effects Rtp.
Import Rtp.

Module Jb.

Definition JBUF_JITTER_PERIOD : Z := 512.
Definition JBUF_JITTER_UP_SPEED : Z := 64.
Definition JBUF_BUFTIME_PERIOD : Z := 128.
Definition JBUF_LO_BOUND : Z := 125.
Definition JBUF_HI_BOUND : Z := 200.

Definition EAGAIN : Z := 11.

(** An [int] result: overflow is undefined. *)
Definition int_ (z : Z) : option Z :=
  if (- 2 ^ 31 <=? z) && (z <? 2 ^ 31) then Some z else None.

Definition i16 (z : Z) : Z := (z + 2 ^ 15) mod 2 ^ 16 - 2 ^ 15.

(** [mem] is NULL in a frame of the pool. *)
Record frame := mk_frame { hdr : rtp_header; mem : option Z }.

Inductive jb_state := JS_GOOD | JS_EMPTY | JS_LOW | JS_HIGH.
#[global] Instance jb_state_eq : EqDecision jb_state.
Proof. solve_decision. Defined.

Record jitter_stat := mk_jitst {
  jitter : Z;
  ts0 : Z;
  tr0 : Z;
  st : jb_state;
  avbuftime : Z;
  jtime : Z;
  mintime : Z }.

Record jbuf_stat := mk_stat {
  n_put : Z;
  n_get : Z;
  n_oos : Z;
  n_dups : Z;
  n_late : Z;
  n_lost : Z;
  n_overflow : Z;
  n_underflow : Z;
  n_flush : Z }.

Inductive jbuf_type := JBUF_OFF | JBUF_FIXED | JBUF_ADAPTIVE.
#[global] Instance jbuf_type_eq : EqDecision jbuf_type.
Proof. solve_decision. Defined.

Inductive ref_event := mem_ref_ (m : Z) | mem_deref_ (m : Z).

Record jbuf := mk_jbuf {
  pooll : list frame;
  framel : list frame;
  n : Z;
  min : Z;
  max : Z;
  wish : Z;
  ptime : Z;
  seq_put : Z;
  seq_get : Z;
  ssrc : Z;
  started : bool;
  running : bool;
  silence : bool;
  jitst : jitter_stat;
  jbtype : jbuf_type;
  stat : jbuf_stat;
  log : list ref_event }.

Definition set_jitter (x : Z) (c : jitter_stat) : jitter_stat :=
  mk_jitst x (ts0 c) (tr0 c) (st c) (avbuftime c) (jtime c) (mintime c).
Definition set_ts0 (x : Z) (c : jitter_stat) : jitter_stat :=
  mk_jitst (jitter c) x (tr0 c) (st c) (avbuftime c) (jtime c) (mintime c).
Definition set_tr0 (x : Z) (c : jitter_stat) : jitter_stat :=
  mk_jitst (jitter c) (ts0 c) x (st c) (avbuftime c) (jtime c) (mintime c).
Definition set_st (x : jb_state) (c : jitter_stat) : jitter_stat :=
  mk_jitst (jitter c) (ts0 c) (tr0 c) x (avbuftime c) (jtime c) (mintime c).
Definition set_avbuftime (x : Z) (c : jitter_stat) : jitter_stat :=
  mk_jitst (jitter c) (ts0 c) (tr0 c) (st c) x (jtime c) (mintime c).
Definition set_jtime (x : Z) (c : jitter_stat) : jitter_stat :=
  mk_jitst (jitter c) (ts0 c) (tr0 c) (st c) (avbuftime c) x (mintime c).
Definition set_mintime (x : Z) (c : jitter_stat) : jitter_stat :=
  mk_jitst (jitter c) (ts0 c) (tr0 c) (st c) (avbuftime c) (jtime c) x.

Definition set_n_put (x : Z) (c : jbuf_stat) : jbuf_stat :=
  mk_stat x (n_get c) (n_oos c) (n_dups c) (n_late c) (n_lost c) (n_overflow c)
    (n_underflow c) (n_flush c).
Definition set_n_get (x : Z) (c : jbuf_stat) : jbuf_stat :=
  mk_stat (n_put c) x (n_oos c) (n_dups c) (n_late c) (n_lost c) (n_overflow c)
    (n_underflow c) (n_flush c).
Definition set_n_oos (x : Z) (c : jbuf_stat) : jbuf_stat :=
  mk_stat (n_put c) (n_get c) x (n_dups c) (n_late c) (n_lost c) (n_overflow c)
    (n_underflow c) (n_flush c).
Definition set_n_dups (x : Z) (c : jbuf_stat) : jbuf_stat :=
  mk_stat (n_put c) (n_get c) (n_oos c) x (n_late c) (n_lost c) (n_overflow c)
    (n_underflow c) (n_flush c).
Definition set_n_late (x : Z) (c : jbuf_stat) : jbuf_stat :=
  mk_stat (n_put c) (n_get c) (n_oos c) (n_dups c) x (n_lost c) (n_overflow c)
    (n_underflow c) (n_flush c).
Definition set_n_lost (x : Z) (c : jbuf_stat) : jbuf_stat :=
  mk_stat (n_put c) (n_get c) (n_oos c) (n_dups c) (n_late c) x (n_overflow c)
    (n_underflow c) (n_flush c).
Definition set_n_overflow (x : Z) (c : jbuf_stat) : jbuf_stat :=
  mk_stat (n_put c) (n_get c) (n_oos c) (n_dups c) (n_late c) (n_lost c) x (n_underflow c)
    (n_flush c).
Definition set_n_underflow (x : Z) (c : jbuf_stat) : jbuf_stat :=
  mk_stat (n_put c) (n_get c) (n_oos c) (n_dups c) (n_late c) (n_lost c) (n_overflow c) x
    (n_flush c).
Definition set_n_flush (x : Z) (c : jbuf_stat) : jbuf_stat :=
  mk_stat (n_put c) (n_get c) (n_oos c) (n_dups c) (n_late c) (n_lost c) (n_overflow c)
    (n_underflow c) x.

Definition set_pooll (x : list frame) (c : jbuf) : jbuf :=
  mk_jbuf x (framel c) (n c) (min c) (max c) (wish c) (ptime c) (seq_put c) (seq_get c)
    (ssrc c) (started c) (running c) (silence c) (jitst c) (jbtype c) (stat c) (log c).
Definition set_framel (x : list frame) (c : jbuf) : jbuf :=
  mk_jbuf (pooll c) x (n c) (min c) (max c) (wish c) (ptime c) (seq_put c) (seq_get c)
    (ssrc c) (started c) (running c) (silence c) (jitst c) (jbtype c) (stat c) (log c).
Definition set_n (x : Z) (c : jbuf) : jbuf :=
  mk_jbuf (pooll c) (framel c) x (min c) (max c) (wish c) (ptime c) (seq_put c) (seq_get c)
    (ssrc c) (started c) (running c) (silence c) (jitst c) (jbtype c) (stat c) (log c).
Definition set_min (x : Z) (c : jbuf) : jbuf :=
  mk_jbuf (pooll c) (framel c) (n c) x (max c) (wish c) (ptime c) (seq_put c) (seq_get c)
    (ssrc c) (started c) (running c) (silence c) (jitst c) (jbtype c) (stat c) (log c).
Definition set_max (x : Z) (c : jbuf) : jbuf :=
  mk_jbuf (pooll c) (framel c) (n c) (min c) x (wish c) (ptime c) (seq_put c) (seq_get c)
    (ssrc c) (started c) (running c) (silence c) (jitst c) (jbtype c) (stat c) (log c).
Definition set_wish (x : Z) (c : jbuf) : jbuf :=
  mk_jbuf (pooll c) (framel c) (n c) (min c) (max c) x (ptime c) (seq_put c) (seq_get c)
    (ssrc c) (started c) (running c) (silence c) (jitst c) (jbtype c) (stat c) (log c).
Definition set_ptime (x : Z) (c : jbuf) : jbuf :=
  mk_jbuf (pooll c) (framel c) (n c) (min c) (max c) (wish c) x (seq_put c) (seq_get c)
    (ssrc c) (started c) (running c) (silence c) (jitst c) (jbtype c) (stat c) (log c).
Definition set_seq_put (x : Z) (c : jbuf) : jbuf :=
  mk_jbuf (pooll c) (framel c) (n c) (min c) (max c) (wish c) (ptime c) x (seq_get c)
    (ssrc c) (started c) (running c) (silence c) (jitst c) (jbtype c) (stat c) (log c).
Definition set_seq_get (x : Z) (c : jbuf) : jbuf :=
  mk_jbuf (pooll c) (framel c) (n c) (min c) (max c) (wish c) (ptime c) (seq_put c) x
    (ssrc c) (started c) (running c) (silence c) (jitst c) (jbtype c) (stat c) (log c).
Definition set_ssrc (x : Z) (c : jbuf) : jbuf :=
  mk_jbuf (pooll c) (framel c) (n c) (min c) (max c) (wish c) (ptime c) (seq_put c)
    (seq_get c) x (started c) (running c) (silence c) (jitst c) (jbtype c) (stat c) (log c).
Definition set_started (x : bool) (c : jbuf) : jbuf :=
  mk_jbuf (pooll c) (framel c) (n c) (min c) (max c) (wish c) (ptime c) (seq_put c)
    (seq_get c) (ssrc c) x (running c) (silence c) (jitst c) (jbtype c) (stat c) (log c).
Definition set_running (x : bool) (c : jbuf) : jbuf :=
  mk_jbuf (pooll c) (framel c) (n c) (min c) (max c) (wish c) (ptime c) (seq_put c)
    (seq_get c) (ssrc c) (started c) x (silence c) (jitst c) (jbtype c) (stat c) (log c).
Definition set_silence (x : bool) (c : jbuf) : jbuf :=
  mk_jbuf (pooll c) (framel c) (n c) (min c) (max c) (wish c) (ptime c) (seq_put c)
    (seq_get c) (ssrc c) (started c) (running c) x (jitst c) (jbtype c) (stat c) (log c).
Definition set_jitst (x : jitter_stat) (c : jbuf) : jbuf :=
  mk_jbuf (pooll c) (framel c) (n c) (min c) (max c) (wish c) (ptime c) (seq_put c)
    (seq_get c) (ssrc c) (started c) (running c) (silence c) x (jbtype c) (stat c) (log c).
Definition set_jbtype (x : jbuf_type) (c : jbuf) : jbuf :=
  mk_jbuf (pooll c) (framel c) (n c) (min c) (max c) (wish c) (ptime c) (seq_put c)
    (seq_get c) (ssrc c) (started c) (running c) (silence c) (jitst c) x (stat c) (log c).
Definition set_stat (x : jbuf_stat) (c : jbuf) : jbuf :=
  mk_jbuf (pooll c) (framel c) (n c) (min c) (max c) (wish c) (ptime c) (seq_put c)
    (seq_get c) (ssrc c) (started c) (running c) (silence c) (jitst c) (jbtype c) x (log c).
Definition set_log (x : list ref_event) (c : jbuf) : jbuf :=
  mk_jbuf (pooll c) (framel c) (n c) (min c) (max c) (wish c) (ptime c) (seq_put c)
    (seq_get c) (ssrc c) (started c) (running c) (silence c) (jitst c) (jbtype c) (stat c) x.

(** [++jb->stat.x]. *)
Definition STAT_INC (get : jbuf_stat -> Z) (set : Z -> jbuf_stat -> jbuf_stat) (jb : jbuf) : jbuf :=
  set_stat (set (u32 (get (stat jb) + 1)) (stat jb)) jb.

(** Is x less than y? *)
Definition seq_less (x y : Z) : bool := i16 (x - y) <? 0.

(** [mem_ref] and [mem_deref]; the latter returns NULL. *)
Definition mem_ref (m : Z) (jb : jbuf) : jbuf := set_log (log jb ++ [mem_ref_ m]) jb.
Definition mem_deref (m : option Z) (jb : jbuf) : jbuf :=
  match m with None => jb | Some m => set_log (log jb ++ [mem_deref_ m]) jb end.

(** A frame from the pool, or the oldest one. *)
Definition frame_alloc (jb : jbuf) : option (frame * jbuf) :=
  match pooll jb with
  | f :: pool => Some (f, set_n (u32 (n jb + 1)) (set_pooll pool jb))
  | [] =>
    match framel jb with
    | [] => None
    | f0 :: l =>
      let jb := STAT_INC n_overflow set_n_overflow jb in
      let jb := mem_deref (mem f0) jb in
      Some (mk_frame (hdr f0) None, set_framel l jb)
    end
  end.

(** Releases a frame that has been taken out of the buffer. *)
Definition frame_deref (f : frame) (jb : jbuf) : jbuf :=
  let jb := mem_deref (mem f) jb in
  set_n (u32 (n jb - 1)) (set_pooll (pooll jb ++ [mk_frame (hdr f) None]) jb).

(** The division is unsigned, [8 * seqd] being positive. *)
Definition calc_ptime (jb : jbuf) : Z :=
  match rev (framel jb) with
  | ft :: ftt :: _ =>
    let seqd := h_seq (hdr ft) - h_seq (hdr ftt) in
    if 0 <? seqd then u32 (h_ts (hdr ft) - h_ts (hdr ftt)) / (8 * seqd) else ptime jb
  | _ => ptime jb
  end.

(** [wish * jtime] and [min * jtime] are computed without sign. *)
Definition init_jitst (jb : jbuf) : option jbuf :=
  let jb := set_ptime (calc_ptime jb) jb in
  jt ← int_ (i32 (ptime jb) * JBUF_JITTER_PERIOD);
  let av := i32 (u32 (wish jb * jt)) in
  j ← int_ (av * 100);
  j ← int_ (j * 2);
  let mt := i32 (u32 (u32 (min jb * jt) - Z.quot jt 3)) in
  Some (set_jitst (mk_jitst (Z.quot j (JBUF_LO_BOUND + JBUF_HI_BOUND)) 0 0 JS_GOOD av jt mt) jb).

(** The loop puts back one frame after the other. *)
Definition flush_frames (jb : jbuf) : jbuf :=
  fold_left (fun jb f => frame_deref f (set_framel (tail (framel jb)) jb)) (framel jb) jb.

Definition jbuf_flush (jb : jbuf) : option jbuf :=
  let jb := flush_frames jb in
  let jb := set_seq_get 0 (set_running false (set_n 0 jb)) in
  let jb := set_stat (mk_stat 0 0 0 0 0 0 0 0 (u32 (n_flush (stat jb) + 1))) jb in
  jb ← init_jitst jb;
  Some (set_started false jb).

(** [lock_ok]: success of the allocations of the buffer and its lock;
    [frame_ok i]: of the frames. *)
Definition jbuf_alloc (lock_ok : bool) (frame_ok : nat -> bool) (mn mx : Z) : Z * option jbuf :=
  if mx <? mn then (EINVAL, None) else
  if negb (seq_less 10 20) || seq_less 20 10 || negb (seq_less 65535 0) then (ENOSYS, None) else
  if negb lock_ok then (ENOMEM, None) else
  if negb (forallb frame_ok (seq 0 (Z.to_nat mx))) then (ENOMEM, None) else
  (0, Some (mk_jbuf (replicate (Z.to_nat mx) (mk_frame hdr_zero None)) [] 0 mn mx 0 20 0 0 0
              false false true (mk_jitst 0 0 0 JS_GOOD 0 0 0) JBUF_FIXED
              (mk_stat 0 0 0 0 0 0 0 0 0) [])).

Definition jbuf_set_type (jb : jbuf) (t : jbuf_type) : jbuf :=
  let jb := set_jbtype t jb in
  match t with
  | JBUF_ADAPTIVE =>
    let jb := set_min (Z.max (min jb) 1) jb in
    let jb := set_max (Z.max (max jb) (u32 (min jb + 3))) jb in
    let jb := set_max (Z.max (max jb) (u32 (min jb * JBUF_HI_BOUND) / JBUF_LO_BOUND)) jb in
    set_wish (Z.max (min jb) (Z.min (u32 (max jb - 1)) (wish jb))) jb
  | _ => jb
  end.

Definition jbuf_set_wish (jb : jbuf) (w : Z) : jbuf :=
  set_wish (Z.max (min jb) (Z.min (u32 (max jb - 1)) w)) jb.

Definition calc_bufftime (jb : jbuf) : option (Z * jbuf) :=
  let jb := set_ptime (calc_ptime jb) jb in
  if n jb =? 0 then Some (ptime jb, jb) else
  fh ← head (framel jb);
  ft ← last (framel jb);
  let diff := u32 (h_ts (hdr ft) - h_ts (hdr fh)) / 8 in
  Some (u32 (diff + ptime jb), jb).

(** The jitter for a time difference [d] and a buffered time. *)
Definition jitter_update (jb : jbuf) (d buftime : Z) : option jbuf :=
  let s := jitst jb in
  a ← int_ (Z.abs d);
  da ← int_ (a * JBUF_JITTER_PERIOD);
  let speed := if jitter s <? da then JBUF_JITTER_UP_SPEED else 1 in
  x ← int_ (da - jitter s);
  x ← int_ (x * speed);
  j ← int_ (jitter s + Z.quot x JBUF_JITTER_PERIOD);
  let j := if j <? 0 then 0 else j in
  av ← (if negb (avbuftime s =? 0) then
          y ← int_ (buftime - avbuftime s);
          int_ (avbuftime s + Z.quot y JBUF_BUFTIME_PERIOD)
        else Some buftime);
  lo ← int_ (j * JBUF_LO_BOUND);
  hi ← int_ (j * JBUF_HI_BOUND);
  let bufmin := Z.max (Z.quot lo 100) (mintime s) in
  jt ← int_ (4 * jtime s);
  b ← int_ (bufmin + Z.quot jt 3);
  let bufmax := Z.max (Z.quot hi 100) b in
  if (n jb <? max jb) && (av <? bufmin) then
    av ← int_ (av + jtime s);
    Some (set_jitst (set_st JS_LOW (set_avbuftime av (set_jitter j s))) jb)
  else if (min jb <? n jb) && (bufmax <? av) then
    Some (set_jitst (set_st JS_HIGH (set_avbuftime av (set_jitter j s))) jb)
  else Some (set_jitst (set_st JS_GOOD (set_avbuftime av (set_jitter j s))) jb).

(** [tr]: the time of [tmr_jiffies]. *)
Definition jbuf_jitter_calc (jb : jbuf) (ts tr : Z) : option jbuf :=
  jb ← (if ts0 (jitst jb) =? 0 then Some jb else
        '(bt, jb) ← calc_bufftime jb;
        let buftime := i32 (u32 (bt * JBUF_JITTER_PERIOD)) in
        let d := i32 ((tr - tr0 (jitst jb)) - Z.quot (ts - ts0 (jitst jb)) 8) in
        jitter_update jb d buftime);
  Some (set_jitst (set_tr0 tr (set_ts0 ts (jitst jb))) jb).

Definition jbuf_state (jb : jbuf) : jb_state := st (jitst jb).

(** Where a frame goes, from the tail: the frames in front of it and behind
    it, and whether there is one with its number. *)
Inductive place :=
| after_ (pre post : list frame)
| duplicate
| in_head.

Fixpoint find_place (s : Z) (rl : list frame) (post : list frame) : place :=
  match rl with
  | [] => in_head
  | f :: rl =>
    let s' := h_seq (hdr f) in
    if seq_less s' s then after_ (rev (f :: rl)) post
    else if s =? s' then duplicate
    else find_place s rl (f :: post)
  end.

(** Puts the frame in its place: the new list, and whether it was the tail. *)
Definition jbuf_insert (jb : jbuf) (f : frame) (h : rtp_header) (m : Z) : option (Z * jbuf) :=
  let f' := mk_frame h (Some m) in
  match last (framel jb) with
  | None => Some (0, set_framel [f'] jb)
  | Some t =>
    if seq_less (h_seq (hdr t)) (h_seq h) then Some (0, set_framel (framel jb ++ [f']) jb)
    else
      match find_place (h_seq h) (rev (framel jb)) [] with
      | after_ pre post =>
        Some (0, STAT_INC n_oos set_n_oos (set_framel (pre ++ f' :: post) jb))
      | in_head => Some (0, STAT_INC n_oos set_n_oos (set_framel (f' :: framel jb) jb))
      | duplicate =>
        Some (EALREADY, frame_deref f (STAT_INC n_dups set_n_dups jb))
      end
  end.

Definition jbuf_put (jb : jbuf) (h : rtp_header) (m now : Z) : option (Z * jbuf) :=
  jb ← (if negb (ssrc jb =? 0) && negb (ssrc jb =? h_ssrc h) then jbuf_flush jb else Some jb);
  let jb := set_ssrc (h_ssrc h) jb in
  if running jb && (negb (seq_get jb =? 0) && seq_less (h_seq h) (u16 (seq_get jb + 1)))
  then Some (ETIMEDOUT, STAT_INC n_late set_n_late jb)
  else
    let jb := STAT_INC n_put set_n_put jb in
    '(f, jb) ← frame_alloc jb;
    '(err, jb) ← jbuf_insert jb f h m;
    if negb (err =? 0) then Some (err, jb) else
    let jb := mem_ref m (set_seq_put (h_seq h) (set_running true jb)) in
    jb ← (if bool_decide (jbtype jb = JBUF_ADAPTIVE) && started jb
          then jbuf_jitter_calc jb (h_ts h) now else Some jb);
    Some (0, jb).

Definition jbuf_silence (jb : jbuf) (on : bool) : jbuf := set_silence on jb.

(** Whether a frame can be handed out. *)
Definition jbuf_ready (jb : jbuf) : option (Z * jbuf) :=
  match jbtype jb with
  | JBUF_ADAPTIVE =>
    if negb (started jb) && (n jb <? wish jb) then Some (ENOENT, jb) else
    '(err, jb) ←
      (if negb (started jb) then jb ← init_jitst (set_started true jb); Some (0, jb)
       else match framel jb with
            | [] => Some (ENOENT, set_jitst (set_st JS_EMPTY (jitst jb))
                                    (STAT_INC n_underflow set_n_underflow jb))
            | _ => Some (0, jb)
            end);
    if negb (err =? 0) then Some (err, jb) else
    if silence jb && ((n jb <? u32 (max jb - 1)) && bool_decide (jbuf_state jb = JS_LOW))
    then Some (ENOENT, jb) else Some (0, jb)
  | _ =>
    if (n jb <=? min jb) || bool_decide (framel jb = [])
    then Some (ENOENT, STAT_INC n_underflow set_n_underflow jb)
    else Some (0, jb)
  end.

(** The lost-packet statistics of a played frame. *)
Definition count_lost (s : Z) (jb : jbuf) : jbuf :=
  if seq_get jb =? 0 then jb else
  if seq_less s (seq_get jb) then jb else
  if 1 <? i16 (s - seq_get jb) then STAT_INC n_lost set_n_lost jb else jb.

(** The result code, what is stored through [hdr] and [mem], and the buffer. *)
Definition jbuf_get (jb : jbuf) : option (Z * option (rtp_header * option Z) * jbuf) :=
  let jb := STAT_INC n_get set_n_get jb in
  '(err, jb) ← jbuf_ready jb;
  if negb (err =? 0) then Some (err, None, jb) else
  match framel jb with
  | [] => None
  | f :: l =>
    let jb := count_lost (h_seq (hdr f)) jb in
    let jb := set_seq_get (h_seq (hdr f)) jb in
    let jb := match mem f with Some m => mem_ref m jb | None => jb end in
    let jb := frame_deref f (set_framel l jb) in
    if bool_decide (jbtype jb = JBUF_ADAPTIVE) &&
       (((min jb <? n jb) && bool_decide (jbuf_state jb = JS_HIGH)) || (n jb =? max jb)) then
      av ← int_ (avbuftime (jitst jb) - jtime (jitst jb));
      Some (EAGAIN, Some (hdr f, mem f),
            set_jitst (set_st JS_GOOD (set_avbuftime av (jitst jb))) jb)
    else Some (0, Some (hdr f, mem f), jb)
  end.

Definition jbuf_stats (jb : jbuf) : jbuf_stat := stat jb.

End Jb.
