(* ===== verification/JbufProps.v ===== *)
(** * Properties of the jitter buffer

    Every operation keeps the frames accounted for and the buffer sorted;
    packets are handed out in the order of their extended sequence numbers. *)

From stdpp Require Import sorting.
From S2P Require Import Prelude Effects MbufProps Rtp Jbuf.
Import Rtp Jb.

(** Conversion looks into these last. *)
#[local] Strategy 1000 [jbuf_flush jbuf_put jbuf_get init_jitst jbuf_jitter_calc].

(** ** Sequence numbers *)

Lemma i16_small z : - 2 ^ 15 <= z < 2 ^ 15 -> i16 z = z.
Proof. unfold i16. intros. rewrite Z.mod_small; lia. Qed.

Lemma i16_u16 a b : i16 (u16 a - u16 b) = i16 (a - b).
Proof.
  unfold i16, u16. f_equal.
  rewrite <- (Zplus_mod_idemp_l (a mod 2 ^ 16 - b mod 2 ^ 16)), <- Zminus_mod,
    Zplus_mod_idemp_l. done.
Qed.

(** Numbers that are less than half the range apart are compared as the
    extended numbers they stand for. *)
Lemma seq_less_ext a b : Z.abs (a - b) < 2 ^ 15 -> seq_less (u16 a) (u16 b) = (a <? b).
Proof. intros H. unfold seq_less. rewrite i16_u16, i16_small by lia. lia. Qed.

Lemma u16_inj a b : Z.abs (a - b) < 2 ^ 15 -> u16 a = u16 b -> a = b.
Proof.
  intros H E. pose proof (seq_less_ext a b H). pose proof (seq_less_ext b a ltac:(lia)).
  rewrite E in *. unfold seq_less in *. rewrite Z.sub_diag in *. cbn in *. lia.
Qed.

(** Any two numbers are comparable. *)
Lemma seq_less_total x y : 0 <= x < 2 ^ 16 -> 0 <= y < 2 ^ 16 ->
  seq_less x y = false -> x <> y -> seq_less y x = true.
Proof.
  unfold seq_less, i16. intros Hx Hy H Hne.
  assert (x - y + 2 ^ 15 < 0 \/ 0 <= x - y + 2 ^ 15 < 2 ^ 16 \/ 2 ^ 16 <= x - y + 2 ^ 15)
    as [|[|]] by lia.
  - replace (y - x + 2 ^ 15) with (y - x + 2 ^ 15 - 2 ^ 16 + 1 * 2 ^ 16) by lia.
    rewrite Z.mod_add, Z.mod_small by lia. lia.
  - rewrite Z.mod_small in H by lia. rewrite Z.mod_small by lia. lia.
  - replace (x - y + 2 ^ 15) with (x - y + 2 ^ 15 - 2 ^ 16 + 1 * 2 ^ 16) in H by lia.
    rewrite Z.mod_add, Z.mod_small in H by lia. lia.
Qed.

(** ** The invariant *)

Definition fseq (f : frame) : Z := h_seq (hdr f).
Definition before (f g : frame) : Prop := seq_less (fseq f) (fseq g) = true.
Definition seq_ok (f : frame) : Prop := 0 <= fseq f < 2 ^ 16.

(** References taken and dropped. *)
Definition refs (m : Z) (l : list ref_event) : Z :=
  fold_right (fun e a => match e with
                         | mem_ref_ k => if k =? m then a + 1 else a
                         | mem_deref_ k => if k =? m then a - 1 else a
                         end) 0 l.
Definition held (m : Z) (l : list frame) : Z :=
  zlen (filter (fun f => mem f = Some m) l).

Lemma refs_app m a b : refs m (a ++ b) = refs m a + refs m b.
Proof.
  induction a as [|e a IH]; cbn; [done|]. fold (refs m (a ++ b)) (refs m a). rewrite IH.
  destruct e; case_match; lia.
Qed.
#[local] Arguments refs : simpl never.
#[local] Arguments held : simpl never.
#[local] Arguments seq_less : simpl never.

Lemma refs_one m e : refs m [e] =
  match e with
  | mem_ref_ k => if k =? m then 1 else 0
  | mem_deref_ k => if k =? m then -1 else 0
  end.
Proof. done. Qed.

Lemma held_app m a b : held m (a ++ b) = held m a + held m b.
Proof. unfold held. by rewrite filter_app, zlen_app. Qed.
Lemma held_cons m f l : held m (f :: l) = (if decide (mem f = Some m) then 1 else 0) + held m l.
Proof.
  unfold held. rewrite filter_cons. case_decide; [|lia]. unfold zlen. cbn. lia.
Qed.

(** [cap]: the number of frames that were allocated; [k]: those in hand,
    neither buffered nor in the pool; [out]: the memory that has been handed
    out, with a reference each time. *)
Record jwf (k cap : Z) (out : list Z) (jb : jbuf) : Prop := {
  jwf_cap : zlen (framel jb) + zlen (pooll jb) + k = cap;
  jwf_n : n jb = zlen (framel jb) + k;
  jwf_range : cap < 2 ^ 32;
  jwf_used : Forall (fun f => is_Some (mem f)) (framel jb);
  jwf_free : Forall (fun f => mem f = None) (pooll jb);
  jwf_seq : Forall seq_ok (framel jb);
  jwf_sorted : Sorted before (framel jb);
  jwf_refs : forall m, refs m (log jb) = held m (framel jb) + zlen (filter (eq m) out) }.

(** The invariant reads four members. *)
Lemma jwf_ext k cap out jb jb' :
  pooll jb' = pooll jb -> framel jb' = framel jb -> n jb' = n jb -> log jb' = log jb ->
  jwf k cap out jb -> jwf k cap out jb'.
Proof. intros E1 E2 E3 E4 [H1 H2 H3 H4 H5 H6 H7 H8]. split; rewrite ?E1, ?E2, ?E3, ?E4; done. Qed.

(** ** Sorted sequences *)

Lemma sorted_insert {A} (R : A -> A -> Prop) a b x :
  Sorted R (a ++ b) -> (forall y, last a = Some y -> R y x) ->
  (forall y, head b = Some y -> R x y) -> Sorted R (a ++ x :: b).
Proof.
  induction a as [|z a IH]; cbn; intros Hs Ha Hb.
  - constructor; [done|]. destruct b; constructor. by apply Hb.
  - inversion Hs as [|? ? Hs' Hh]; subst. constructor.
    + apply IH; [done| |done]. intros y Hy. apply Ha. by destruct a.
    + destruct a as [|w a]; constructor; [by apply Ha|]. by inversion Hh.
Qed.

Lemma sorted_tail {A} (R : A -> A -> Prop) x l : Sorted R (x :: l) -> Sorted R l.
Proof. by inversion 1. Qed.

Lemma place_spec s rl post :
  0 <= s < 2 ^ 16 -> Forall seq_ok rl ->
  (forall g, head post = Some g -> seq_less s (fseq g) = true) ->
  match find_place s rl post with
  | after_ a b => rev rl ++ post = a ++ b /\
      (exists f, last a = Some f /\ seq_less (fseq f) s = true) /\
      (forall g, head b = Some g -> seq_less s (fseq g) = true)
  | duplicate => exists f, f ∈ rl /\ fseq f = s
  | in_head => forall g, head (rev rl ++ post) = Some g -> seq_less s (fseq g) = true
  end.
Proof.
  intros Hs. revert post. induction rl as [|f rl IH]; intros post Hok Hp; cbn [find_place].
  - done.
  - apply Forall_cons in Hok as [Hf Hok]. destruct (seq_less (h_seq (hdr f)) s) eqn:E1.
    { split_and!; [done| |done]. exists f. split; [|done]. cbn. by rewrite last_snoc. }
    destruct (Z.eqb_spec s (h_seq (hdr f))) as [E2|E2]; [exists f; split; [left|done]|].
    assert (Hf' : forall g, head (f :: post) = Some g -> seq_less s (fseq g) = true).
    { intros g [= <-]. apply seq_less_total; [exact Hf|done|exact E1|]. unfold fseq. congruence. }
    specialize (IH (f :: post) Hok Hf'). cbn. rewrite <- app_assoc. cbn.
    destruct (find_place s rl (f :: post)); [done| |done].
    destruct IH as (g & Hg & Hg'). exists g. split; [by right|done].
Qed.

(** ** Operations keep the invariant *)

Lemma held_mem m f l : mem f = None -> held m (f :: l) = held m l.
Proof. intros E. rewrite held_cons, E. by rewrite decide_False. Qed.

Lemma refs_deref m f jb : refs m (log (mem_deref (mem f) jb)) =
  refs m (log jb) - (if decide (mem f = Some m) then 1 else 0).
Proof.
  destruct (mem f) as [k|] eqn:E; cbn; [|rewrite decide_False by done; lia].
  rewrite refs_app, refs_one. destruct (Z.eqb_spec k m) as [->|Hne].
  - rewrite decide_True by done. lia.
  - rewrite decide_False by congruence. lia.
Qed.

Lemma deref_same m jb :
  pooll (mem_deref m jb) = pooll jb /\ framel (mem_deref m jb) = framel jb /\
  n (mem_deref m jb) = n jb.
Proof. by destruct m. Qed.

Lemma alloc_wf cap out jb f jb' :
  jwf 0 cap out jb -> frame_alloc jb = Some (f, jb') -> jwf 1 cap out jb' /\ mem f = None.
Proof.
  intros [H1 H2 H3 H4 H5 H6 H7 H8]. unfold frame_alloc.
  pose proof (zlen_nonneg (framel jb)). pose proof (zlen_nonneg (pooll jb)).
  destruct (pooll jb) as [|f0 pool] eqn:Ep.
  - destruct (framel jb) as [|f0 l] eqn:El; [done|]. intros [= <- <-]. split; [|done].
    destruct (deref_same (mem f0) (STAT_INC n_overflow set_n_overflow jb)) as (D1 & D2 & D3).
    rewrite zlen_cons in *. apply Forall_cons in H4 as [_ H4]. apply Forall_cons in H6 as [_ H6].
    split; cbn [set_framel pooll framel n log]; rewrite ?D1, ?D3; cbn; rewrite ?Ep; try done; try lia.
    + by eapply sorted_tail.
    + intros m. rewrite refs_deref. cbn. rewrite H8, held_cons. lia.
  - intros [= <- <-]. rewrite zlen_cons in *. apply Forall_cons in H5 as [Hf H5].
    split; [|done]. pose proof (zlen_nonneg pool). split; cbn; try done; try lia. rewrite u32_small; lia.
Qed.

Lemma frame_deref_wf cap out jb f :
  jwf 1 cap out jb -> mem f = None -> jwf 0 cap out (frame_deref f jb).
Proof.
  intros [H1 H2 H3 H4 H5 H6 H7 H8] Hf. pose proof (zlen_nonneg (framel jb)).
  pose proof (zlen_nonneg (pooll jb)). unfold frame_deref. rewrite Hf.
  split; cbn; try done; rewrite ?zlen_app, ?zlen_cons; cbn; try lia.
  - change (zlen (@nil frame)) with 0. lia.
  - rewrite u32_small; lia.
  - by apply Forall_app_2; [|constructor].
Qed.

(** A frame with its packet goes into its place. *)
Lemma place_wf cap out jb a b h m :
  jwf 1 cap out jb -> framel jb = a ++ b -> 0 <= h_seq h < 2 ^ 16 ->
  (forall y, last a = Some y -> seq_less (fseq y) (h_seq h) = true) ->
  (forall y, head b = Some y -> seq_less (h_seq h) (fseq y) = true) ->
  jwf 0 cap out (mem_ref m (set_framel (a ++ mk_frame h (Some m) :: b) jb)).
Proof.
  intros [H1 H2 H3 H4 H5 H6 H7 H8] E Hs Ha Hb. rewrite E in *.
  rewrite zlen_app in H1, H2. apply Forall_app in H4 as []. apply Forall_app in H6 as [].
  split; cbn; try done; rewrite ?zlen_app, ?zlen_cons; try lia.
  - apply Forall_app_2; [done|]. by constructor.
  - apply Forall_app_2; [done|]. by constructor.
  - by apply sorted_insert.
  - intros k. rewrite refs_app, refs_one, H8, !held_app, held_cons. cbn.
    destruct (Z.eqb_spec m k) as [->|Hne]; [rewrite decide_True by done|rewrite decide_False by congruence]; lia.
Qed.

Lemma insert_wf cap out jb f h m err jb' :
  jwf 1 cap out jb -> mem f = None -> 0 <= h_seq h < 2 ^ 16 ->
  jbuf_insert jb f h m = Some (err, jb') ->
  (err = 0 /\ jwf 0 cap out (mem_ref m jb')) \/ (err = EALREADY /\ jwf 0 cap out jb').
Proof.
  intros Hw Hf Hs. unfold jbuf_insert. destruct (last (framel jb)) as [t|] eqn:Et.
  2:{ intros [= <- <-]. left. split; [done|]. apply last_None in Et.
      by apply (place_wf cap out jb [] []). }
  destruct (seq_less (h_seq (hdr t)) (h_seq h)) eqn:El.
  { intros [= <- <-]. left. split; [done|].
    apply (place_wf cap out jb (framel jb) []); [done|by rewrite app_nil_r|done| |done].
    intros y Hy. rewrite Et in Hy. by injection Hy as <-. }
  pose proof (place_spec (h_seq h) (rev (framel jb)) [] Hs) as Hp.
  specialize (Hp ltac:(apply Forall_rev, Hw) ltac:(done)).
  rewrite rev_involutive, app_nil_r in Hp.
  destruct (find_place (h_seq h) (rev (framel jb)) []) as [a b| |]; intros [= <- <-].
  - left. split; [done|]. destruct Hp as (E & (g & Hg & Hg') & Hb).
    eapply jwf_ext; [..|apply (place_wf cap out jb a b h m)]; try done.
    intros y Hy. rewrite Hg in Hy. by injection Hy as <-.
  - right. split; [done|]. apply frame_deref_wf; [|done]. by eapply jwf_ext; [..|exact Hw].
  - left. split; [done|]. by eapply jwf_ext; [..|apply (place_wf cap out jb [] (framel jb) h m)].
Qed.

(** The statistics do not touch what is buffered. *)
Definition same (jb jb' : jbuf) : Prop :=
  pooll jb' = pooll jb /\ framel jb' = framel jb /\ n jb' = n jb /\ log jb' = log jb /\
  seq_get jb' = seq_get jb /\ running jb' = running jb /\ ssrc jb' = ssrc jb.

Lemma jb_same_refl jb : same jb jb.
Proof. by repeat split. Qed.
Lemma jb_same_trans a b c : same a b -> same b c -> same a c.
Proof. unfold same. intuition congruence. Qed.
Lemma same_wf k cap out jb jb' : same jb jb' -> jwf k cap out jb -> jwf k cap out jb'.
Proof. intros (? & ? & ? & ? & _). by apply jwf_ext. Qed.

(** Goes through the checked computations of a function. *)
Ltac run_go H :=
  repeat match type of H with
  | context [mbind _ (int_ ?z)] => destruct (int_ z) eqn:?; cbn [mbind option_bind] in H; [|done]
  end.

Lemma init_same jb jb' : init_jitst jb = Some jb' -> same jb jb'.
Proof. unfold init_jitst. cbv zeta. intros H. run_go H. injection H as <-. by repeat split. Qed.

Lemma update_same jb d bt jb' : jitter_update jb d bt = Some jb' -> same jb jb'.
Proof.
  unfold jitter_update. cbv zeta. intros H. run_go H.
  match type of H with context [mbind _ (if ?b then _ else _)] =>
    destruct (if b then _ else _) as [av|]; [|done] end.
  cbn [mbind option_bind] in H. run_go H. repeat case_match; run_go H; simplify_eq;
    by repeat split.
Qed.

Lemma calc_same jb ts tr jb' : jbuf_jitter_calc jb ts tr = Some jb' -> same jb jb'.
Proof.
  unfold jbuf_jitter_calc. destruct (ts0 (jitst jb) =? 0).
  { intros [= <-]. by repeat split. }
  unfold calc_bufftime. cbv zeta. set (jb1 := set_ptime _ jb).
  assert (S1 : same jb jb1) by by repeat split. intros H.
  assert (Hb : exists bt jb2, same jb1 jb2 /\ exists d t,
    (x ← jitter_update jb2 d bt; Some (set_jitst (set_tr0 tr (set_ts0 t (jitst x))) x)) = Some jb').
  { destruct (n jb1 =? 0); cbn [mbind option_bind] in H.
    - do 2 eexists. split; [apply jb_same_refl|]. by do 2 eexists.
    - destruct (head (framel jb1)), (last (framel jb1)); try done. cbn [mbind option_bind] in H.
      do 2 eexists. split; [apply jb_same_refl|]. by do 2 eexists. }
  destruct Hb as (bt & jb2 & S2 & d & t & H2). destruct (jitter_update jb2 d bt) as [jb3|] eqn:E; [|done].
  injection H2 as <-. apply update_same in E.
  eapply jb_same_trans; [exact S1|]. eapply jb_same_trans; [exact S2|]. eapply jb_same_trans; [exact E|].
  by repeat split.
Qed.

(** Flushing puts every frame back. *)
Lemma flush_frames_wf cap out jb : jwf 0 cap out jb ->
  jwf 0 cap out (flush_frames jb) /\ framel (flush_frames jb) = [] /\
  seq_get (flush_frames jb) = seq_get jb.
Proof.
  unfold flush_frames. remember (framel jb) as l eqn:El. revert jb El.
  induction l as [|f l IH]; intros jb El Hw; cbn; [by rewrite El|].
  set (jb1 := frame_deref f (set_framel (tail (framel jb)) jb)).
  assert (El1 : framel jb1 = l).
  { subst jb1. unfold frame_deref. cbn.
    rewrite (proj1 (proj2 (deref_same _ _))). cbn. by rewrite <- El. }
  assert (Hw1 : jwf 0 cap out jb1).
  { destruct Hw as [H1 H2 H3 H4 H5 H6 H7 H8]. rewrite <- El in *. rewrite zlen_cons in *.
    pose proof (zlen_nonneg l). pose proof (zlen_nonneg (pooll jb)).
    apply Forall_cons in H4 as [_ H4]. apply Forall_cons in H6 as [_ H6].
    split; rewrite ?El1; try done; subst jb1; unfold frame_deref; cbn;
      destruct (deref_same (mem f) (set_framel (tail (framel jb)) jb)) as (D1 & D2 & D3);
      rewrite ?D1, ?D2, ?D3; cbn.
    - rewrite zlen_app, zlen_cons. change (zlen (@nil frame)) with 0. lia.
    - rewrite u32_small; lia.
    - apply Forall_app_2; [done|]. by constructor.
    - by eapply sorted_tail.
    - intros m. rewrite refs_deref. cbn. rewrite H8, held_cons. lia. }
  destruct (IH jb1 (eq_sym El1) Hw1) as (G1 & G2 & G3). split_and!; [done|done|].
  rewrite G3. subst jb1. unfold frame_deref. cbn. by destruct (mem f).
Qed.

Lemma flush_wf cap out jb jb' : jwf 0 cap out jb -> jbuf_flush jb = Some jb' ->
  jwf 0 cap out jb' /\ framel jb' = [] /\ running jb' = false /\ seq_get jb' = 0.
Proof.
  intros Hw. unfold jbuf_flush. cbv zeta.
  destruct (flush_frames_wf cap out jb Hw) as (Hw1 & El & _).
  set (jb1 := flush_frames jb) in *.
  match goal with |- context [init_jitst ?x] => set (jb2 := x) end.
  destruct (init_jitst jb2) as [jb3|] eqn:E; [|done]. intros [= <-].
  apply init_same in E as (E1 & E2 & E3 & E4 & E5 & E6 & _). cbn.
  split_and!; [|by rewrite E2|by rewrite E6|by rewrite E5].
  apply jwf_ext with jb3; [done..|]. apply jwf_ext with jb2; [done..|].
  apply jwf_ext with jb1; [done|done| |done|done]. subst jb2. cbn.
  rewrite (jwf_n _ _ _ _ Hw1), El. done.
Qed.

Lemma put_wf cap out jb h m now err jb' :
  jwf 0 cap out jb -> 0 <= h_seq h < 2 ^ 16 ->
  jbuf_put jb h m now = Some (err, jb') -> jwf 0 cap out jb'.
Proof.
  intros Hw Hs. unfold jbuf_put.
  assert (H0 : forall jb0, (if negb (ssrc jb =? 0) && negb (ssrc jb =? h_ssrc h)
    then jbuf_flush jb else Some jb) = Some jb0 -> jwf 0 cap out jb0).
  { intros jb0. destruct (_ && _); [|by intros [= <-]].
    intros Hfl. by destruct (flush_wf cap out jb jb0 Hw Hfl). }
  destruct (if negb _ && negb _ then _ else _) as [jb0|]; [|done]. specialize (H0 jb0 eq_refl).
  cbn [mbind option_bind]. destruct (running _ && _).
  { intros [= <- <-]. by eapply jwf_ext; [..|exact H0]. }
  match goal with |- context [frame_alloc ?x] => assert (H1 : jwf 0 cap out x)
    by (by eapply jwf_ext; [..|exact H0]); destruct (frame_alloc x) as [[f jb2]|] eqn:Ea; [|done] end.
  cbn [mbind option_bind]. destruct (alloc_wf _ _ _ _ _ H1 Ea) as [H2 Hf].
  destruct (jbuf_insert jb2 f h m) as [[e jb3]|] eqn:Ei; [|done]. cbn [mbind option_bind].
  destruct (insert_wf _ _ _ _ _ _ _ _ H2 Hf Hs Ei) as [[-> H3]|[-> H3]]; cbn [Z.eqb negb].
  2:{ by intros [= <- <-]. }
  match goal with |- context [set_seq_put ?a ?b] => set (jb4 := mem_ref m (set_seq_put a b)) end.
  assert (H4 : jwf 0 cap out jb4) by (by eapply jwf_ext; [..|exact H3]).
  destruct (_ && _).
  - destruct (jbuf_jitter_calc jb4 (h_ts h) now) as [jb5|] eqn:Ej; [|done].
    intros [= <- <-]. apply calc_same in Ej. by eapply same_wf.
  - by intros [= <- <-].
Qed.

Lemma ready_same jb err jb' : jbuf_ready jb = Some (err, jb') -> same jb jb'.
Proof.
  unfold jbuf_ready. destruct (jbtype jb).
  1,2: destruct (_ || _); intros [= <- <-]; by repeat split.
  destruct (negb (started jb) && (n jb <? wish jb)); [intros [= <- <-]; by repeat split|].
  intros H. assert (Hx : exists e jb1, same jb jb1 /\
    (if negb (e =? 0) then Some (e, jb1)
     else if silence jb1 && ((n jb1 <? u32 (max jb1 - 1)) && bool_decide (jbuf_state jb1 = JS_LOW))
     then Some (ENOENT, jb1) else Some (0, jb1)) = Some (err, jb')).
  { destruct (negb (started jb)).
    - destruct (init_jitst (set_started true jb)) as [jb1|] eqn:E; [|done].
      apply init_same in E. exists 0, jb1. split; [|exact H].
      eapply jb_same_trans; [|exact E]. by repeat split.
    - destruct (framel jb);
        [exists ENOENT, (set_jitst (set_st JS_EMPTY (jitst jb))
           (STAT_INC n_underflow set_n_underflow jb))|exists 0, jb];
        (split; [by repeat split|exact H]). }
  destruct Hx as (e & jb1 & S1 & H1). repeat case_match; by simplify_eq.
Qed.

(** The memory that a call to [jbuf_get] hands out. *)
Definition got (o : option (rtp_header * option Z)) : list Z :=
  match o with Some (_, Some m) => [m] | _ => [] end.

(** What is left once the first frame has been played. *)
Definition played (jb : jbuf) (f : frame) (l : list frame) : jbuf :=
  frame_deref f (set_framel l
    (match mem f with Some m => mem_ref m | None => fun jb => jb end
       (set_seq_get (fseq f) (count_lost (fseq f) jb)))).

Lemma count_same s jb : same jb (count_lost s jb).
Proof. unfold count_lost. repeat case_match; by repeat split. Qed.

Lemma played_wf cap out jb f l :
  jwf 0 cap out jb -> framel jb = f :: l ->
  exists m, mem f = Some m /\ jwf 0 cap (out ++ [m]) (played jb f l).
Proof.
  intros Hw El. apply (same_wf _ _ _ _ _ (count_same (fseq f) jb)) in Hw as Hw1.
  pose proof (count_same (fseq f) jb) as (_ & El1 & _). rewrite El in El1.
  unfold played. set (jb1 := count_lost (fseq f) jb) in *.
  destruct Hw1 as [H1 H2 H3 H4 H5 H6 H7 H8]. rewrite El1 in *. rewrite zlen_cons in *.
  apply Forall_cons in H4 as [[m Hm] H4]. apply Forall_cons in H6 as [_ H6].
  exists m. split; [done|]. pose proof (zlen_nonneg l). pose proof (zlen_nonneg (pooll jb1)).
  rewrite Hm. unfold frame_deref. rewrite Hm. split; cbn; try done.
  - rewrite zlen_app, zlen_cons. change (zlen (@nil frame)) with 0. lia.
  - rewrite u32_small; lia.
  - apply Forall_app_2; [done|]. by constructor.
  - by eapply sorted_tail.
  - intros k. rewrite !refs_app, !refs_one, H8, held_cons, Hm, filter_app, zlen_app, filter_cons.
    rewrite filter_nil. destruct (Z.eqb_spec m k) as [->|Hne].
    + rewrite !decide_True by done. change (zlen [k]) with 1. lia.
    + rewrite !decide_False by congruence. change (zlen (@nil Z)) with 0. lia.
Qed.

(** A call either hands out nothing, or the first frame. *)
Lemma get_cases jb err o jb' : jbuf_get jb = Some (err, o, jb') ->
  (o = None /\ err <> 0 /\ same jb jb') \/
  exists f l jb1, same jb jb1 /\ framel jb = f :: l /\ o = Some (hdr f, mem f) /\
    (err = 0 \/ err = EAGAIN) /\ same (played jb1 f l) jb'.
Proof.
  unfold jbuf_get. set (jb0 := STAT_INC n_get set_n_get jb).
  assert (S0 : same jb jb0) by by repeat split.
  destruct (jbuf_ready jb0) as [[e jb1]|] eqn:Er; [|done]. cbn [mbind option_bind].
  apply ready_same in Er as S1. pose proof (jb_same_trans _ _ _ S0 S1) as S.
  destruct (Z.eqb_spec e 0) as [->|He]; cbn [negb].
  2:{ intros [= <- <- <-]. by left. }
  pose proof S as (_ & El & _). destruct (framel jb1) as [|f l] eqn:El1; [done|].
  intros H. right. exists f, l, jb1. split; [done|]. split; [done|].
  assert (Hp : frame_deref f (set_framel l match mem f with
      | Some m => mem_ref m (set_seq_get (h_seq (hdr f)) (count_lost (h_seq (hdr f)) jb1))
      | None => set_seq_get (h_seq (hdr f)) (count_lost (h_seq (hdr f)) jb1)
      end) = played jb1 f l) by (unfold played, fseq; by destruct (mem f)).
  rewrite Hp in H. destruct (_ && _).
  - destruct (int_ _); [|done]. injection H as <- <- <-. split_and!; [done|by right|].
    by repeat split.
  - injection H as <- <- <-. split_and!; [done|by left|apply jb_same_refl].
Qed.

Lemma get_wf cap out jb err o jb' :
  jwf 0 cap out jb -> jbuf_get jb = Some (err, o, jb') -> jwf 0 cap (out ++ got o) jb'.
Proof.
  intros Hw H. destruct (get_cases _ _ _ _ H) as [(-> & _ & S)|(f & l & jb1 & S & El & -> & _ & S')].
  - cbn. rewrite app_nil_r. by eapply same_wf.
  - apply (same_wf _ _ _ _ _ S) in Hw. pose proof S as (_ & El1 & _). rewrite El in El1.
    destruct (played_wf _ _ _ _ _ Hw El1) as (m & Hm & Hp). unfold got. rewrite Hm.
    by eapply same_wf.
Qed.

(** ** Runs *)

Inductive jop :=
| Put (h : rtp_header) (m now : Z)
| Get
| Flush
| Set_type (t : jbuf_type)
| Set_wish (w : Z)
| Silence (on : bool).

(** The packet memory handed out by an operation, and the new buffer. *)
Definition jstep (jb : jbuf) (o : jop) : option (list Z * jbuf) :=
  match o with
  | Put h m now => '(_, jb) ← jbuf_put jb h m now; Some ([], jb)
  | Get => '(_, o, jb) ← jbuf_get jb; Some (got o, jb)
  | Flush => jb ← jbuf_flush jb; Some ([], jb)
  | Set_type t => Some ([], jbuf_set_type jb t)
  | Set_wish w => Some ([], jbuf_set_wish jb w)
  | Silence on => Some ([], jbuf_silence jb on)
  end.

Fixpoint jrun (jb : jbuf) (os : list jop) : option (list Z * jbuf) :=
  match os with
  | [] => Some ([], jb)
  | o :: os =>
    '(a, jb) ← jstep jb o;
    '(b, jb) ← jrun jb os;
    Some (a ++ b, jb)
  end.

(** Headers come from the wire: 16 bits of sequence number. *)
Definition wire_op (o : jop) : Prop :=
  match o with Put h _ _ => 0 <= h_seq h < 2 ^ 16 | _ => True end.

Definition setting (o : jop) : bool :=
  match o with Set_type _ | Set_wish _ | Silence _ => true | _ => false end.

Lemma settings_same jb o a jb' :
  setting o = true -> jstep jb o = Some (a, jb') -> a = [] /\ same jb jb'.
Proof.
  destruct o as [| | |[]|w|on]; try discriminate; intros _; unfold jstep, jbuf_set_type, jbuf_set_wish,
    jbuf_silence; intros [= <- <-]; by repeat split.
Qed.

Lemma put_step_wf cap out jb h m now a jb' :
  jwf 0 cap out jb -> 0 <= h_seq h < 2 ^ 16 -> jstep jb (Put h m now) = Some (a, jb') ->
  jwf 0 cap (out ++ a) jb'.
Proof.
  intros Hw Hs Hj. cbn in Hj. destruct (jbuf_put jb h m now) as [[err jb1]|] eqn:E; [|done].
  injection Hj as <- <-. rewrite app_nil_r. by eapply put_wf.
Qed.

Lemma get_step_wf cap out jb a jb' :
  jwf 0 cap out jb -> jstep jb Get = Some (a, jb') -> jwf 0 cap (out ++ a) jb'.
Proof.
  intros Hw Hj. cbn in Hj. destruct (jbuf_get jb) as [[[err o] jb1]|] eqn:E; [|done].
  injection Hj as <- <-. by eapply get_wf.
Qed.

Lemma flush_step_wf cap out jb a jb' :
  jwf 0 cap out jb -> jstep jb Flush = Some (a, jb') -> jwf 0 cap (out ++ a) jb'.
Proof.
  intros Hw Hj. apply bind_Some in Hj as (jb1 & E & Hj). injection Hj as <- <-.
  rewrite app_nil_r. exact (proj1 (flush_wf cap out jb jb1 Hw E)).
Qed.

Lemma step_wf cap out jb o a jb' :
  jwf 0 cap out jb -> wire_op o -> jstep jb o = Some (a, jb') -> jwf 0 cap (out ++ a) jb'.
Proof.
  intros Hw Hs Hj. destruct (setting o) eqn:Ho.
  { destruct (settings_same _ _ _ _ Ho Hj) as [-> Hsame]. rewrite app_nil_r.
    exact (same_wf _ _ _ _ _ Hsame Hw). }
  destruct o; try discriminate Ho.
  - exact (put_step_wf _ _ _ _ _ _ _ _ Hw Hs Hj).
  - exact (get_step_wf _ _ _ _ _ Hw Hj).
  - exact (flush_step_wf _ _ _ _ _ Hw Hj).
Qed.

Lemma alloc_jwf lock_ok frame_ok mn mx jb :
  0 <= mx < 2 ^ 32 -> jbuf_alloc lock_ok frame_ok mn mx = (0, Some jb) -> jwf 0 mx [] jb.
Proof.
  intros Hmx. unfold jbuf_alloc.
  destruct (mx <? mn); [discriminate|]. destruct (negb _ || _ || _); [discriminate|].
  destruct lock_ok; [|discriminate]. cbn [negb].
  destruct (forallb _ _); [|discriminate]. cbn [negb]. intros E. apply (f_equal snd), Some_inj in E. subst jb.
  split; cbn [pooll framel n log]; [|done|lia|constructor|by apply Forall_replicate|constructor|constructor|done].
  unfold zlen. rewrite length_replicate. cbn [length]. lia.
Qed.

(** A jitter buffer accounts for everything it has: after any sequence of
    calls, the counter is the number of buffered frames, buffered and free
    frames together are the frames that were allocated, the buffered packets
    are in the order of their sequence numbers, and every packet has one
    reference for each time it is buffered and each time it was handed out. *)
Theorem jbuf_accounts lock_ok frame_ok mn mx jb os out jb'
  (Hm : 0 <= mx < 2 ^ 32) (Ha : jbuf_alloc lock_ok frame_ok mn mx = (0, Some jb))
  (Hw : Forall wire_op os) (Hr : jrun jb os = Some (out, jb')) :
  n jb' = zlen (framel jb') /\ zlen (framel jb') + zlen (pooll jb') = mx /\
  Sorted before (framel jb') /\
  forall m, refs m (log jb') = held m (framel jb') + zlen (filter (eq m) out).
Proof.
  apply alloc_jwf in Ha; [|done].
  assert (H : forall out0, jwf 0 mx out0 jb -> jwf 0 mx (out0 ++ out) jb').
  { clear Ha. revert jb out Hr. induction Hw as [|o os Ho _ IH]; intros jb out Hr out0 Hj.
    { injection Hr as <- <-. by rewrite app_nil_r. }
    cbn in Hr. destruct (jstep jb o) as [[a jb1]|] eqn:E1; [|done].
    cbn in Hr. destruct (jrun jb1 os) as [[b jb2]|] eqn:E2; [|done]. injection Hr as <- <-.
    rewrite app_assoc. eapply IH; [exact E2|]. by eapply step_wf. }
  destruct (H [] Ha) as [H1 H2 _ _ _ _ H7 H8]. split_and!; [lia|lia|done|done].
Qed.

(** ** The fixed mode never fails *)

(** A buffer of usual size that is not adaptive: the packet time is the
    initial one. *)
Record calm (jb : jbuf) : Prop := {
  calm_type : jbtype jb <> JBUF_ADAPTIVE;
  calm_ptime : ptime jb = 20;
  calm_min : 0 <= min jb <= max jb;
  calm_max : 1 <= max jb <= 1000;
  calm_wish : 0 <= wish jb <= 1000 }.

Lemma calm_ext jb jb' :
  jbtype jb' = jbtype jb -> ptime jb' = ptime jb -> min jb' = min jb -> max jb' = max jb ->
  wish jb' = wish jb -> calm jb -> calm jb'.
Proof. intros E1 E2 E3 E4 E5 [H1 H2 H3 H4 H5]. split; congruence || (rewrite ?E3, ?E4, ?E5; done). Qed.

Lemma int_ok z : - 2 ^ 31 <= z < 2 ^ 31 -> int_ z = Some z.
Proof. intros H. unfold int_. by replace (_ && _) with true by lia. Qed.

Lemma init_calm jb : calm jb -> framel jb = [] ->
  exists jb', init_jitst jb = Some jb' /\ calm jb'.
Proof.
  intros [H1 H2 H3 H4 H5] El. unfold init_jitst, calc_ptime. rewrite El.
  cbn [rev set_ptime ptime wish min]. rewrite H2, i32_small by lia.
  rewrite int_ok by (unfold JBUF_JITTER_PERIOD; lia). cbn [mbind option_bind].
  change (20 * JBUF_JITTER_PERIOD) with 10240.
  rewrite (u32_small (wish jb * 10240)), i32_small, !int_ok by lia. cbn [mbind option_bind].
  rewrite int_ok by lia. eexists. split; [done|]. by split.
Qed.

Lemma deref_calm f jb : calm jb -> calm (frame_deref f jb).
Proof. apply calm_ext; unfold frame_deref; by destruct (mem f). Qed.

Lemma flush_calm cap out jb : jwf 0 cap out jb -> calm jb ->
  exists jb', jbuf_flush jb = Some jb' /\ calm jb'.
Proof.
  intros Hw Hc. unfold jbuf_flush. cbv zeta.
  destruct (flush_frames_wf cap out jb Hw) as (_ & El & _).
  assert (Hf : calm (flush_frames jb)).
  { unfold flush_frames. clear El. generalize (framel jb) as l. intros l.
    clear Hw. revert jb Hc. induction l as [|f l IH]; intros jb Hc; cbn; [done|].
    apply IH, deref_calm. by eapply calm_ext; [..|exact Hc]. }
  match goal with |- context [init_jitst ?x] => set (jb1 := x) end.
  destruct (init_calm jb1) as (jb2 & E & H2); [by eapply calm_ext; [..|exact Hf]|exact El|].
  rewrite E. eexists. split; [done|]. by eapply calm_ext; [..|exact H2].
Qed.

Lemma alloc_runs cap out jb : jwf 0 cap out jb -> 1 <= cap -> calm jb ->
  exists f jb', frame_alloc jb = Some (f, jb') /\ calm jb'.
Proof.
  intros Hw Hcap Hc. unfold frame_alloc. destruct (pooll jb) as [|f pool] eqn:Ep.
  - destruct (framel jb) as [|f l] eqn:El.
    { pose proof (jwf_cap _ _ _ _ Hw) as H. rewrite El, Ep in H.
      change (zlen (@nil frame)) with 0 in H. lia. }
    do 2 eexists. split; [done|]. eapply calm_ext; [..|exact Hc]; by destruct (mem f).
  - do 2 eexists. split; [done|]. by eapply calm_ext; [..|exact Hc].
Qed.

Lemma insert_runs jb f h m : calm jb ->
  exists err jb', jbuf_insert jb f h m = Some (err, jb') /\ calm jb'.
Proof.
  intros Hc. unfold jbuf_insert. destruct (last (framel jb)) as [t|].
  2:{ do 2 eexists. split; [done|]. by eapply calm_ext; [..|exact Hc]. }
  destruct (seq_less _ _).
  { do 2 eexists. split; [done|]. by eapply calm_ext; [..|exact Hc]. }
  destruct (find_place _ _ _); do 2 eexists; (split; [done|]).
  2:{ apply deref_calm. by eapply calm_ext; [..|exact Hc]. }
  all: by eapply calm_ext; [..|exact Hc].
Qed.

Lemma put_runs cap out jb h m now : jwf 0 cap out jb -> 1 <= cap -> calm jb ->
  exists err jb', jbuf_put jb h m now = Some (err, jb') /\ calm jb'.
Proof.
  intros Hw Hcap Hc. unfold jbuf_put.
  assert (H0 : exists jb0, (if negb (ssrc jb =? 0) && negb (ssrc jb =? h_ssrc h)
    then jbuf_flush jb else Some jb) = Some jb0 /\ calm jb0 /\ jwf 0 cap out jb0).
  { destruct (_ && _); [|by exists jb]. destruct (flush_calm _ _ _ Hw Hc) as (jb0 & E & Hc0).
    exists jb0. split_and!; [done|done|]. exact (proj1 (flush_wf cap out jb jb0 Hw E)). }
  destruct H0 as (jb0 & -> & Hc0 & Hw0). cbn [mbind option_bind]. destruct (running _ && _).
  { do 2 eexists. split; [done|]. by eapply calm_ext; [..|exact Hc0]. }
  match goal with |- context [frame_alloc ?x] =>
    destruct (alloc_runs cap out x) as (f & jb1 & -> & Hc1) end.
  { by eapply jwf_ext; [..|exact Hw0]. }
  { done. }
  { by eapply calm_ext; [..|exact Hc0]. }
  cbn [mbind option_bind]. destruct (insert_runs jb1 f h m Hc1) as (err & jb2 & -> & Hc2).
  cbn [mbind option_bind]. destruct (negb (err =? 0)); [by do 2 eexists|].
  match goal with |- context [bool_decide (jbtype ?x = _)] => set (jb3 := x) end.
  assert (Hc3 : calm jb3) by (by eapply calm_ext; [..|exact Hc2]).
  rewrite bool_decide_false by apply Hc3. cbn. by do 2 eexists.
Qed.

Lemma get_runs cap out jb : jwf 0 cap out jb -> calm jb ->
  exists r jb', jbuf_get jb = Some (r, jb') /\ calm jb'.
Proof.
  intros Hw Hc. unfold jbuf_get, jbuf_ready. set (jb0 := STAT_INC n_get set_n_get jb).
  assert (Hc0 : calm jb0) by (by eapply calm_ext; [..|exact Hc]).
  assert (Ht : jbtype jb0 = JBUF_OFF \/ jbtype jb0 = JBUF_FIXED).
  { pose proof (calm_type _ Hc0). destruct (jbtype jb0); auto. done. }
  assert (Hr : exists e jb1, match jbtype jb0 with
    | JBUF_ADAPTIVE => None
    | _ => if (n jb0 <=? min jb0) || bool_decide (framel jb0 = [])
           then Some (ENOENT, STAT_INC n_underflow set_n_underflow jb0) else Some (0, jb0)
    end = Some (e, jb1) /\ calm jb1 /\ (e = 0 -> framel jb1 <> [])).
  { destruct Ht as [-> | ->]; destruct (_ || _) eqn:E; do 2 eexists; (split; [done|]);
      (split; [by eapply calm_ext; [..|exact Hc0]|]); try done; intros _;
      apply orb_false_iff in E as [_ E]; by apply bool_decide_eq_false in E. }
  destruct Hr as (e & jb1 & E & Hc1 & Hne).
  destruct Ht as [Ht|Ht]; rewrite Ht in *; rewrite E; cbn [mbind option_bind].
  all: destruct (Z.eqb_spec e 0) as [->|]; cbn [negb]; [|by do 2 eexists].
  all: destruct (framel jb1) as [|f l] eqn:El; [by destruct (Hne eq_refl)|].
  all: match goal with |- context [bool_decide (jbtype ?x = JBUF_ADAPTIVE)] => set (jb2 := x) end.
  all: assert (Hc2 : calm jb2) by (subst jb2; apply deref_calm; unfold count_lost; 
    repeat case_match; by eapply calm_ext; [..|exact Hc1]).
  all: rewrite bool_decide_false by apply Hc2; cbn; by do 2 eexists.
Qed.

(** Calls that leave the buffer in a fixed mode. *)
Definition fixed_op (o : jop) : Prop :=
  wire_op o /\
  match o with Set_type t => t <> JBUF_ADAPTIVE | Set_wish w => 0 <= w < 2 ^ 32 | _ => True end.

Lemma step_runs cap out jb o : jwf 0 cap out jb -> 1 <= cap -> calm jb -> fixed_op o ->
  exists a jb', jstep jb o = Some (a, jb') /\ calm jb'.
Proof.
  intros Hw Hcap Hc [_ Ho]. destruct o as [h m now| | |t|w|on]; cbn.
  - destruct (put_runs cap out jb h m now Hw Hcap Hc) as (e & jb1 & -> & H1). by do 2 eexists.
  - destruct (get_runs cap out jb Hw Hc) as ([e o] & jb1 & -> & H1). by do 2 eexists.
  - destruct (flush_calm cap out jb Hw Hc) as (jb1 & -> & H1). by do 2 eexists.
  - do 2 eexists. split; [done|]. destruct Hc as [H1 H2 H3 H4 H5]. by destruct t.
  - do 2 eexists. split; [done|]. destruct Hc as [H1 H2 H3 H4 H5].
    unfold jbuf_set_wish. rewrite u32_small by lia. split; cbn; done || lia.
  - do 2 eexists. split; [done|]. by eapply calm_ext; [..|exact Hc].
Qed.

(** A jitter buffer of 1 to 1000 frames in a fixed mode has defined
    behaviour on every sequence of calls: no call dereferences NULL or
    overflows an integer, whatever packets arrive. *)
Theorem jbuf_fixed_total lock_ok frame_ok mn mx jb os
  (Hm : 1 <= mx <= 1000) (Hn : 0 <= mn)
  (Ha : jbuf_alloc lock_ok frame_ok mn mx = (0, Some jb)) (Ho : Forall fixed_op os) :
  exists out jb', jrun jb os = Some (out, jb').
Proof.
  assert (Hw : jwf 0 mx [] jb) by (eapply alloc_jwf; [lia|exact Ha]).
  assert (Hc : calm jb).
  { revert Ha. unfold jbuf_alloc. destruct (Z.ltb_spec mx mn); [discriminate|].
    destruct (negb _ || _ || _); [discriminate|]. destruct lock_ok; [|discriminate]. cbn [negb].
    destruct (forallb _ _); [|discriminate]. cbn [negb]. intros E.
    apply (f_equal snd), Some_inj in E. subst jb. split; cbn; done || lia. }
  clear Ha. revert jb Hw Hc. generalize (@nil Z) as out0.
  induction Ho as [|o os Ho _ IH]; intros out0 jb Hw Hc; [by do 2 eexists|]. cbn [jrun].
  destruct (step_runs mx out0 jb o Hw ltac:(lia) Hc Ho) as (a & jb1 & E & Hc1). rewrite E.
  cbn [mbind option_bind].
  destruct (IH (out0 ++ a) jb1) as (b & jb2 & ->); [|done|by do 2 eexists].
  eapply step_wf; [exact Hw|apply Ho|exact E].
Qed.

(** ** Order of play *)

(** A packet with its extended sequence number, header and memory. *)
Abbreviation packet := (Z * (rtp_header * Z))%type.

Definition to_frame (p : packet) : frame := mk_frame p.2.1 (Some p.2.2).

(** The packets in order, a new one at its place. *)
Fixpoint ins (p : packet) (B : list packet) : list packet :=
  match B with
  | [] => [p]
  | b :: B => if p.1 <? b.1 then p :: b :: B else b :: ins p B
  end.

Definition late (e : Z) (g : option Z) : bool :=
  match g with Some x => e <=? x | None => false end.

(** What a buffer of [cap] frames holds after a packet has arrived; [g] is
    the last packet played. *)
Definition arrive (cap : Z) (p : packet) (B : list packet) (g : option Z) : list packet :=
  if late p.1 g then B else
  let B := if zlen B =? cap then tail B else B in
  if bool_decide (p.1 ∈ B.*1) then B else ins p B.

(** The packet is less than half the range of sequence numbers away from
    what is buffered and from what was played last.  Sequence number 0 is the
    mark for nothing played: behind it, the packet must not be late. *)
Definition near (e : Z) (B : list packet) (g : option Z) : Prop :=
  Forall (fun b => Z.abs (e - b.1) < 2 ^ 15) B /\
  forall x, g = Some x -> Z.abs (e - (x + 1)) < 2 ^ 15 /\ (u16 x = 0 -> x < e).

Inductive playing (cap : Z) : jbuf -> list packet -> option Z -> list packet -> Prop :=
| play_start lock_ok frame_ok mn jb :
    jbuf_alloc lock_ok frame_ok mn cap = (0, Some jb) -> playing cap jb [] None []
| play_put jb B g D h m now e err jb' :
    playing cap jb B g D -> h_seq h = u16 e -> ssrc jb = 0 \/ ssrc jb = h_ssrc h ->
    near e B g -> jbuf_put jb h m now = Some (err, jb') ->
    playing cap jb' (arrive cap (e, (h, m)) B g) g D
| play_wait jb B g D err jb' :
    playing cap jb B g D -> jbuf_get jb = Some (err, None, jb') -> playing cap jb' B g D
| play_next jb B g D err r jb' :
    playing cap jb B g D -> jbuf_get jb = Some (err, Some r, jb') ->
    playing cap jb' (tail B) (fst <$> head B) (D ++ take 1 B)
| play_flush jb B g D jb' :
    playing cap jb B g D -> jbuf_flush jb = Some jb' -> playing cap jb' [] None []
| play_setting jb B g D o a jb' :
    playing cap jb B g D -> setting o = true -> jstep jb o = Some (a, jb') ->
    playing cap jb' B g D.

Definition earlier (a b : packet) : Prop := a.1 < b.1.

(** How a buffer relates to the packets it stands for. *)
Record tracks (cap : Z) (jb : jbuf) (B : list packet) (g : option Z) (D : list packet) : Prop := {
  tr_wf : exists out, jwf 0 cap out jb;
  tr_frames : framel jb = map to_frame B;
  tr_seq : Forall (fun b => h_seq b.2.1 = u16 b.1) B;
  tr_sorted : StronglySorted earlier B;
  tr_spread : forall a b, a ∈ B -> b ∈ B -> Z.abs (a.1 - b.1) < 2 ^ 15;
  tr_last : match g with
            | Some x => running jb = true /\ seq_get jb = u16 x /\ Forall (fun b => x < b.1) B /\
                        Forall (fun d => d.1 <= x) D
            | None => seq_get jb = 0 /\ D = []
            end;
  tr_played : StronglySorted earlier D;
  tr_running : B <> [] -> running jb = true }.

Lemma ins_app p a b :
  Forall (fun x => x.1 < p.1) a -> Forall (fun x => p.1 < x.1) b -> ins p (a ++ b) = a ++ p :: b.
Proof.
  intros Ha Hb. induction Ha as [|x a Hx _ IH]; cbn.
  - destruct Hb as [|y b Hy _]; cbn; [done|]. by replace (p.1 <? y.1) with true by lia.
  - replace (p.1 <? x.1) with false by lia. by rewrite IH.
Qed.

(** Everything in front of an earlier packet is earlier. *)
Lemma sorted_before a x e : StronglySorted earlier (a ++ [x]) -> x.1 < e ->
  Forall (fun y => y.1 < e) (a ++ [x]).
Proof.
  intros Hs Hx. apply Forall_app_2; [|by repeat constructor].
  apply Forall_forall. intros y Hy.
  enough (y.1 < x.1) by lia. revert Hs. induction a as [|z a IH]; [by apply elem_of_nil in Hy|].
  cbn. intros [Hz Hs]%StronglySorted_cons. apply elem_of_cons in Hy as [->|Hy]; [|by apply IH].
  rewrite Forall_forall in Hz. apply Hz, elem_of_app. right. by left.
Qed.
Lemma sorted_after x b e : StronglySorted earlier (x :: b) -> e < x.1 ->
  Forall (fun y => e < y.1) (x :: b).
Proof.
  intros [Hx _]%StronglySorted_cons He. constructor; [done|].
  eapply Forall_impl; [exact Hx|]. unfold earlier. cbn. lia.
Qed.

Lemma app_map_inv {A C} (f : A -> C) l a b : map f l = a ++ b ->
  exists la lb, l = la ++ lb /\ map f la = a /\ map f lb = b.
Proof.
  revert l. induction a as [|x a IH]; intros l E; cbn in E.
  - by exists [], l.
  - destruct l as [|y l]; [done|]. injection E as <- E. destruct (IH l E) as (la & lb & -> & <- & <-).
    by exists (y :: la), lb.
Qed.

(** The comparisons on frames are comparisons of extended numbers. *)
Lemma less_ext h e b : h_seq h = u16 e -> h_seq b.2.1 = u16 b.1 -> Z.abs (e - b.1) < 2 ^ 15 ->
  seq_less (fseq (to_frame b)) (h_seq h) = (b.1 <? e) /\
  seq_less (h_seq h) (fseq (to_frame b)) = (e <? b.1).
Proof.
  intros -> Hb Hn. unfold fseq. cbn. rewrite Hb. split; apply seq_less_ext; lia.
Qed.

Lemma frames_ok B : Forall (fun b => h_seq b.2.1 = u16 b.1) B ->
  Forall seq_ok (rev (map to_frame B)).
Proof.
  intros H. apply Forall_rev, Forall_fmap. eapply Forall_impl; [exact H|]. intros y Hy.
  unfold seq_ok, fseq. cbn. rewrite Hy. apply u16_range.
Qed.

Section Place.
Context (B : list packet) (h : rtp_header) (e : Z).
Context (Hh : Forall (fun b => h_seq b.2.1 = u16 b.1) B) (Hs : StronglySorted earlier B).
Context (Hn : Forall (fun b => Z.abs (e - b.1) < 2 ^ 15) B) (He : h_seq h = u16 e).

Lemma cmp_ext b : b ∈ B ->
  seq_less (fseq (to_frame b)) (h_seq h) = (b.1 <? e) /\
  seq_less (h_seq h) (fseq (to_frame b)) = (e <? b.1).
Proof using Hh Hn He.
  intros Hb. rewrite Forall_forall in Hh, Hn. apply less_ext; [done|by apply Hh|by apply Hn].
Qed.

(** Between a last frame that is less and a first one that is greater. *)
Lemma split_ext a b : B = a ++ b ->
  (forall y, last (map to_frame a) = Some y -> seq_less (fseq y) (h_seq h) = true) ->
  (forall y, head (map to_frame b) = Some y -> seq_less (h_seq h) (fseq y) = true) ->
  Forall (fun x => x.1 < e) a /\ Forall (fun x => e < x.1) b.
Proof using Hh Hn He Hs.
  intros E Ha Hb. split.
  - destruct a as [|y a _] using rev_ind; [constructor|]. rewrite map_app in Ha. cbn [map] in Ha.
    specialize (Ha (to_frame y)). rewrite last_snoc in Ha. specialize (Ha eq_refl).
    destruct (cmp_ext y) as [Hy _]; [rewrite E, !elem_of_app; left; right; by left|].
    rewrite Hy in Ha. apply sorted_before; [|lia]. rewrite E in Hs.
    by apply StronglySorted_app_1_l in Hs.
  - destruct b as [|y b]; [constructor|]. specialize (Hb (to_frame y) eq_refl).
    destruct (cmp_ext y) as [_ Hy]; [rewrite E, elem_of_app; right; by left|].
    rewrite Hy in Hb. apply sorted_after; [|lia]. rewrite E in Hs.
    by apply StronglySorted_app_1_r in Hs.
Qed.

Lemma dup_ext x : x ∈ rev (map to_frame B) -> fseq x = h_seq h -> e ∈ B.*1.
Proof using Hh Hn He.
  intros Hx%list_elem_of_In%in_rev%list_elem_of_In Hx'.
  apply list_elem_of_fmap in Hx as (y & -> & Hy). apply list_elem_of_fmap. exists y.
  split; [|done]. unfold fseq in Hx'. cbn in Hx'. rewrite Forall_forall in Hh, Hn.
  specialize (Hn y Hy). rewrite (Hh y Hy), He in Hx'. symmetry. apply u16_inj; [lia|done].
Qed.

(** The place that the code finds is the place of the extended number. *)
Lemma insert_sim jb f m err jb' :
  framel jb = map to_frame B -> jbuf_insert jb f h m = Some (err, jb') ->
  (exists a b, B = a ++ b /\ Forall (fun x => x.1 < e) a /\ Forall (fun x => e < x.1) b /\
     err = 0 /\ framel jb' = map to_frame (a ++ (e, (h, m)) :: b)) \/
  (e ∈ B.*1 /\ err = EALREADY /\ framel jb' = framel jb).
Proof using Hh Hn He Hs.
  intros El. unfold jbuf_insert.
  assert (Hput : forall a b jb1, B = a ++ b ->
    (forall y, last (map to_frame a) = Some y -> seq_less (fseq y) (h_seq h) = true) ->
    (forall y, head (map to_frame b) = Some y -> seq_less (h_seq h) (fseq y) = true) ->
    framel jb1 = map to_frame a ++ mk_frame h (Some m) :: map to_frame b ->
    exists a b, B = a ++ b /\ Forall (fun x => x.1 < e) a /\ Forall (fun x => e < x.1) b /\
      0 = 0 /\ framel jb1 = map to_frame (a ++ (e, (h, m)) :: b)).
  { intros a b jb1 E Ha Hb Ef. destruct (split_ext a b E Ha Hb). exists a, b.
    split_and!; [done|done|done|done|]. by rewrite map_app. }
  destruct (last (framel jb)) as [t|] eqn:Et.
  2:{ intros [= <- <-]. left. apply last_None in Et. rewrite El in Et. apply map_eq_nil in Et.
      by apply (Hput [] []). }
  destruct (seq_less (h_seq (hdr t)) (h_seq h)) eqn:Hlt.
  { intros [= <- <-]. left. apply (Hput B []); [by rewrite app_nil_r| |done|by cbn; rewrite El].
    intros y Hy. rewrite <- El, Et in Hy. by injection Hy as <-. }
  pose proof (place_spec (h_seq h) (rev (framel jb)) []) as Hp.
  rewrite rev_involutive, app_nil_r, El in Hp. rewrite El.
  specialize (Hp ltac:(rewrite He; apply u16_range) (frames_ok B Hh) ltac:(done)).
  destruct (find_place _ _ _) as [a b| |]; intros [= <- <-].
  - left. destruct Hp as (E & (x & Hx & Hx') & Hb).
    apply app_map_inv in E as (la & lb & E & <- & <-). apply (Hput la lb); [done| |done|done].
    intros y Hy. rewrite Hx in Hy. by injection Hy as <-.
  - right. destruct Hp as (x & Hx & Hx'). split_and!; [by eapply dup_ext|done|].
    unfold frame_deref. cbn. by rewrite (proj1 (proj2 (deref_same _ _))).
  - left. by apply (Hput [] B).
Qed.

End Place.

(** What the order of play depends on. *)
Definition seen (jb : jbuf) : list frame * Z * bool := (framel jb, seq_get jb, running jb).

Definition late_test (jb : jbuf) (h : rtp_header) : bool :=
  running jb && (negb (seq_get jb =? 0) && seq_less (h_seq h) (u16 (seq_get jb + 1))).

Lemma insert_keeps jb f h m err jb' : jbuf_insert jb f h m = Some (err, jb') ->
  seq_get jb' = seq_get jb /\ running jb' = running jb.
Proof.
  unfold jbuf_insert. repeat case_match; intros [= <- <-]; try done.
  unfold frame_deref. by destruct (mem f).
Qed.

Lemma alloc_sim cap out jb B f jb' : jwf 0 cap out jb -> framel jb = map to_frame B ->
  frame_alloc jb = Some (f, jb') ->
  seen jb' = (map to_frame (if zlen B =? cap then tail B else B), seq_get jb, running jb).
Proof.
  intros Hw El. pose proof (jwf_cap _ _ _ _ Hw) as Hc. rewrite El in Hc.
  assert (zlen (map to_frame B) = zlen B) as Hz by (unfold zlen; by rewrite length_map).
  rewrite Hz in Hc. unfold frame_alloc, seen. destruct (pooll jb) as [|p pool] eqn:Ep.
  - change (zlen (@nil frame)) with 0 in Hc. replace (zlen B =? cap) with true by lia.
    rewrite El. destruct B as [|b B]; [done|]. cbn. by intros [= <- <-].
  - rewrite zlen_cons in Hc. pose proof (zlen_nonneg pool).
    replace (zlen B =? cap) with false by lia. intros [= <- <-]. cbn. by rewrite El.
Qed.

(** The course of a call for the stream that is buffered. *)
Lemma put_cases cap out jb B h m now err jb' :
  jwf 0 cap out jb -> framel jb = map to_frame B -> ssrc jb = 0 \/ ssrc jb = h_ssrc h ->
  jbuf_put jb h m now = Some (err, jb') ->
  (late_test jb h = true /\ seen jb' = seen jb) \/
  (late_test jb h = false /\ exists f jb1 jb2,
    seen jb1 = (map to_frame (if zlen B =? cap then tail B else B), seq_get jb, running jb) /\
    jbuf_insert jb1 f h m = Some (err, jb2) /\
    seen jb' = (framel jb2, seq_get jb, if err =? 0 then true else running jb)).
Proof.
  intros Hw El Hss. unfold jbuf_put.
  replace (negb (ssrc jb =? 0) && negb (ssrc jb =? h_ssrc h)) with false by
    (destruct Hss as [-> | ->]; by rewrite ?Z.eqb_refl, ?andb_false_r).
  cbn [mbind option_bind]. destruct (running (set_ssrc _ _) && _) eqn:Elt.
  { intros [= <- <-]. by left. }
  match goal with |- context [frame_alloc ?x] => destruct (frame_alloc x) as [[f jb1]|] eqn:Ea end; [|done].
  cbn [mbind option_bind]. apply (alloc_sim cap out _ B) in Ea; [|by eapply jwf_ext; [..|exact Hw]|done].
  destruct (jbuf_insert jb1 f h m) as [[e jb2]|] eqn:Ei; [|done]. cbn [mbind option_bind].
  destruct (insert_keeps _ _ _ _ _ _ Ei) as [K1 K2]. injection Ea as A1 A2 A3.
  intros H. right. split; [done|]. exists f, jb1, jb2. split; [unfold seen; congruence|].
  destruct (Z.eqb_spec e 0) as [->|He]; cbn [negb] in H.
  2:{ injection H as <- <-. split; [done|]. replace (e =? 0) with false by lia. unfold seen. congruence. }
  match goal with H : context [set_seq_put ?a ?b] |- _ => set (jb4 := mem_ref m (set_seq_put a b)) in H end.
  assert (Hx : exists jb5, same jb4 jb5 /\ Some (0, jb5) = Some (err, jb')).
  { revert H. destruct (bool_decide (jbtype jb4 = JBUF_ADAPTIVE) && started jb4); [|intros H; exists jb4; split; [apply jb_same_refl|exact H]].
    destruct (jbuf_jitter_calc _ _ _) as [jb5|] eqn:Ej; [|done]. intros H.
    exists jb5. split; [by eapply calc_same|exact H]. }
  destruct Hx as (jb5 & (_ & S2 & _ & _ & S5 & S6 & _) & [= <- <-]). split; [done|].
  unfold seen. rewrite S2, S5, S6. cbn. congruence.
Qed.

Lemma late_ext cap jb B g D h e : tracks cap jb B g D -> h_seq h = u16 e -> near e B g ->
  late_test jb h = late e g.
Proof.
  intros T He [_ Hn]. unfold late_test. pose proof (tr_last _ _ _ _ _ T) as Hl. destruct g as [x|]; cbn.
  - destruct Hl as (-> & -> & _). destruct (Hn x eq_refl) as [Hx Hz]. cbn.
    destruct (Z.eqb_spec (u16 x) 0) as [E|E]; cbn.
    { specialize (Hz E). lia. }
    replace (u16 (u16 x + 1)) with (u16 (x + 1)) by (unfold u16; by rewrite Zplus_mod_idemp_l).
    rewrite He, seq_less_ext by lia. lia.
  - destruct Hl as [-> _]. cbn. apply andb_false_r.
Qed.

Lemma Forall_part {A} (P : A -> Prop) l k : k `sublist_of` l -> Forall P l -> Forall P k.
Proof. rewrite !Forall_forall. intros Hs H x Hx. apply H. by eapply sublist_subseteq. Qed.

(** A part of what is buffered is as ordered as the whole. *)
Lemma in_order_part B B' : B' `sublist_of` B -> StronglySorted earlier B ->
  (forall a b, a ∈ B -> b ∈ B -> Z.abs (a.1 - b.1) < 2 ^ 15) ->
  StronglySorted earlier B' /\ (forall a b, a ∈ B' -> b ∈ B' -> Z.abs (a.1 - b.1) < 2 ^ 15).
Proof.
  intros Hsub Hs Hp. split.
  - revert Hs. clear Hp. induction Hsub as [|x a b Hab IH|x a b Hab IH]; intros Hs; [done|..];
      apply StronglySorted_cons in Hs as [Hx Hs]; [|by apply IH].
    apply StronglySorted_cons. split; [|by apply IH].
    rewrite Forall_forall in *. intros y Hy. apply Hx. by eapply sublist_subseteq.
  - intros a b Ha Hb. apply Hp; by eapply sublist_subseteq.
Qed.

Lemma sorted_put a b p : StronglySorted earlier (a ++ b) ->
  Forall (fun x => x.1 < p.1) a -> Forall (fun x => p.1 < x.1) b ->
  StronglySorted earlier (a ++ p :: b).
Proof.
  intros Hs Ha Hb. induction Ha as [|x a Hx Ha IH]; cbn in *.
  - by apply StronglySorted_cons.
  - apply StronglySorted_cons in Hs as [Hy Hs]. apply StronglySorted_cons. split; [|by apply IH].
    apply Forall_app in Hy as [Hy1 Hy2]. apply Forall_app_2; [done|]. by constructor.
Qed.

(** The buffered packets with one more, put in its place. *)
Lemma tracks_put cap jb B g D a b p out jb' :
  tracks cap jb B g D -> a ++ b `sublist_of` B -> jwf 0 cap out jb' ->
  seen jb' = (map to_frame (a ++ p :: b), seq_get jb, true) ->
  h_seq p.2.1 = u16 p.1 -> Forall (fun x => x.1 < p.1) a -> Forall (fun x => p.1 < x.1) b ->
  near p.1 B g -> late p.1 g = false -> tracks cap jb' (a ++ p :: b) g D.
Proof.
  intros [T1 T2 T3 T4 T5 T6 T7 T8] Hsub Hw [= E1 E2 E3] Hp Ha Hb [Hn _] Hl.
  destruct (in_order_part _ _ Hsub T4 T5) as [T4' T5'].
  assert (Hin : forall y, y ∈ a ++ p :: b -> y = p \/ y ∈ a ++ b) by
    (intros y; rewrite !elem_of_app, elem_of_cons; tauto).
  assert (Hsubs : forall y, y ∈ a ++ b -> y ∈ B) by (intros y Hy; by eapply sublist_subseteq).
  rewrite Forall_forall in T3, Hn. split.
  - by exists out.
  - done.
  - apply Forall_forall. intros y [->|Hy]%Hin; [done|]. by apply T3, Hsubs.
  - by apply sorted_put.
  - intros x y [->|Hx]%Hin [->|Hy]%Hin; [lia| | |by apply T5'].
    + by apply Hn, Hsubs.
    + specialize (Hn x (Hsubs x Hx)). cbn in Hn. lia.
  - destruct g as [x|]; [|by rewrite E2]. destruct T6 as (R & S & F & G). rewrite E2, E3.
    split_and!; [done|done| |done]. rewrite Forall_forall in F |- *. cbn in Hl.
    intros y [->|Hy]%Hin; [lia|]. by apply F, Hsubs.
  - done.
  - done.
Qed.

(** The buffer with part of its packets. *)
Lemma tracks_part cap jb B g D B' out jb' :
  tracks cap jb B g D -> B' `sublist_of` B -> jwf 0 cap out jb' ->
  seen jb' = (map to_frame B', seq_get jb, running jb) -> tracks cap jb' B' g D.
Proof.
  intros [T1 T2 T3 T4 T5 T6 T7 T8] Hsub Hw [= E1 E2 E3].
  destruct (in_order_part _ _ Hsub T4 T5) as [T4' T5']. split; try done.
  - by exists out.
  - by eapply Forall_part.
  - destruct g as [x|]; [|by rewrite E2]. destruct T6 as (R & S & F & G). rewrite E2, E3.
    split_and!; [done|done| |done]. by eapply Forall_part.
  - rewrite E3. intros Hne. apply T8. intros ->. by apply sublist_nil_r in Hsub.
Qed.

Lemma put_tracks cap jb B g D h m now e err jb' :
  tracks cap jb B g D -> h_seq h = u16 e -> ssrc jb = 0 \/ ssrc jb = h_ssrc h ->
  near e B g -> jbuf_put jb h m now = Some (err, jb') ->
  tracks cap jb' (arrive cap (e, (h, m)) B g) g D.
Proof.
  intros T He Hss Hn Hput. destruct (tr_wf _ _ _ _ _ T) as [out Hw].
  pose proof (tr_frames _ _ _ _ _ T) as El.
  assert (Hw' : jwf 0 cap out jb')
    by (eapply put_wf; [exact Hw|rewrite He; apply u16_range|exact Hput]).
  pose proof (late_ext _ _ _ _ _ _ _ T He Hn) as Hlt. unfold arrive. cbn [fst].
  destruct (put_cases cap out jb B h m now err jb' Hw El Hss Hput)
    as [[E S]|(E & f & jb1 & jb2 & [= S1 S2 S3] & Ei & S)]; rewrite E in Hlt; rewrite <- Hlt.
  { apply (tracks_part cap jb B g D B out jb' T); [done|done|]. rewrite S. unfold seen. by rewrite El. }
  set (B1 := if zlen B =? cap then tail B else B) in *.
  assert (Hsub : B1 `sublist_of` B).
  { subst B1. destruct (zlen B =? cap); [|done]. destruct B; [done|]. by apply sublist_cons. }
  destruct (in_order_part _ _ Hsub (tr_sorted _ _ _ _ _ T) (tr_spread _ _ _ _ _ T)) as [Hs1 _].
  assert (Hn1 : Forall (fun b => Z.abs (e - b.1) < 2 ^ 15) B1)
    by (eapply Forall_part; [exact Hsub|apply Hn]).
  assert (Hh1 : Forall (fun b => h_seq b.2.1 = u16 b.1) B1)
    by (eapply Forall_part; [exact Hsub|apply T]).
  destruct (insert_sim B1 h e Hh1 Hs1 Hn1 He jb1 f m err jb2 S1 Ei)
    as [(a & b & EB & Ha & Hb & -> & Ef)|(Hd & -> & Ef)].
  - rewrite bool_decide_false.
    2:{ rewrite EB, fmap_app, elem_of_app, !list_elem_of_fmap. rewrite Forall_forall in Ha, Hb.
        intros [(y & -> & Hy)|(y & -> & Hy)]; [apply Ha in Hy|apply Hb in Hy]; lia. }
    rewrite EB, ins_app by done.
    eapply (tracks_put cap jb B g D a b (e, (h, m))); try done; [by rewrite <- EB|].
    rewrite S, Ef. done.
  - rewrite bool_decide_true by done. eapply (tracks_part cap jb B g D B1); try done.
    rewrite S, Ef, S1. done.
Qed.

Lemma get_tracks cap jb B g D err h mm jb' :
  tracks cap jb B g D -> jbuf_get jb = Some (err, Some (h, mm), jb') ->
  exists e m B', B = (e, (h, m)) :: B' /\ mm = Some m /\
    tracks cap jb' B' (Some e) (D ++ [(e, (h, m))]).
Proof.
  intros T H. destruct (tr_wf _ _ _ _ _ T) as [out Hw].
  pose proof (get_wf _ _ _ _ _ _ Hw H) as Hw'.
  destruct (get_cases _ _ _ _ H) as [(? & _)|(f & l & jb1 & S & El & [= -> ->] & _ & S')]; [done|].
  destruct T as [T1 T2 T3 T4 T5 T6 T7 T8]. rewrite T2 in El. destruct B as [|[e [h m]] B]; [done|].
  injection El as <- <-. exists e, m, B. split_and!; [done..|].
  assert (Hr : running jb' = true).
  { destruct S' as (_ & _ & _ & _ & _ & -> & _). destruct S as (_ & _ & _ & _ & _ & S6 & _).
    rewrite <- (T8 ltac:(done)), <- S6. unfold played, frame_deref, count_lost. cbn.
    by repeat case_match. }
  destruct S' as (_ & S2 & _ & _ & S5 & _). cbn in S2, S5.
  apply Forall_cons in T3 as [Hh T3]. apply StronglySorted_cons in T4 as [Hlt T4].
  assert (HD : Forall (fun d => earlier d (e, (h, m))) D).
  { destruct g as [x|]; [|by destruct T6 as [_ ->]]. destruct T6 as (_ & _ & F & G).
    apply Forall_cons in F as [F _]. eapply Forall_impl; [exact G|]. unfold earlier. cbn in *. lia. }
  split; try done.
  - by eexists.
  - intros a b Ha Hb. apply T5; by right.
  - split_and!; [done|by rewrite S5|done|]. apply Forall_app_2; [|by repeat constructor].
    eapply Forall_impl; [exact HD|]. unfold earlier. cbn. lia.
  - clear - T7 HD. induction T7 as [|d D Hs IH Hd]; cbn; [by repeat constructor|].
    apply Forall_cons in HD as [Hd' HD]. apply StronglySorted_cons.
    split; [by apply Forall_app_2; [|repeat constructor]|by apply IH].
Qed.

Lemma playing_tracks cap jb B g D : 0 <= cap < 2 ^ 32 -> playing cap jb B g D ->
  tracks cap jb B g D.
Proof.
  intros Hc. induction 1 as [lk fk mn jb Ha|jb B g D h m now e err jb' _ IH He Hs Hn Hp
    |jb B g D err jb' _ IH Hg|jb B g D err [h mm] jb' _ IH Hg|jb B g D jb' _ IH Hf
    |jb B g D o a jb' _ IH Ho Hj].
  - pose proof (alloc_jwf _ _ _ _ _ Hc Ha) as Hw. revert Ha Hw. unfold jbuf_alloc.
    repeat (case_match; [discriminate|]). intros [= <-] Hw.
    split; try done; [by eexists|by constructor|by intros a b Ha%elem_of_nil|by constructor].
  - by eapply put_tracks.
  - destruct (get_cases _ _ _ _ Hg) as [(_ & _ & S)|(f & l & jb1 & _ & _ & ? & _)]; [|done].
    destruct (tr_wf _ _ _ _ _ IH) as [out Hw]. eapply tracks_part; [exact IH|done|by eapply same_wf|].
    destruct S as (_ & S2 & _ & _ & S5 & S6 & _). unfold seen. rewrite S2, S5, S6. by rewrite (tr_frames _ _ _ _ _ IH).
  - by destruct (get_tracks _ _ _ _ _ _ _ _ _ IH Hg) as (e & m & B' & -> & -> & T).
  - destruct (tr_wf _ _ _ _ _ IH) as [out Hw]. destruct (flush_wf _ _ _ _ Hw Hf) as (Hw' & F1 & F2 & F3).
    split; try done; [by eexists|by constructor|by intros a b Ha%elem_of_nil|by constructor].
  - destruct (tr_wf _ _ _ _ _ IH) as [out Hw]. destruct (settings_same _ _ _ _ Ho Hj) as [_ S].
    eapply tracks_part; [exact IH|done|by eapply same_wf|].
    destruct S as (_ & S2 & _ & _ & S5 & S6 & _). unfold seen. rewrite S2, S5, S6. by rewrite (tr_frames _ _ _ _ _ IH).
Qed.

(** C12: the jitter buffer plays in order.  As long as the packets of one
    source arrive less than half the sequence number range apart, and none
    arrives late or twice directly after number 0 was played (0 is also the
    mark for nothing played: there the code takes such a packet and plays it
    out of order, [late_after_zero]), across any number of wrap-arounds,
    losses, duplicates, overflows and changes of mode, the buffered packets are those of the reference definition
    [arrive], and the packet a call hands out is the first of them: it is
    newer than all packets played before and older than all that stay. *)
Theorem jbuf_plays_in_order cap jb B g D err h mm jb'
  (Hc : 0 <= cap < 2 ^ 32) (Hp : playing cap jb B g D)
  (Hg : jbuf_get jb = Some (err, Some (h, mm), jb')) :
  exists e m B', B = (e, (h, m)) :: B' /\ mm = Some m /\ h_seq h = u16 e /\
    Forall (fun d => d.1 < e) D /\ Forall (fun b => e < b.1) B' /\
    framel jb' = map to_frame B'.
Proof.
  pose proof (playing_tracks _ _ _ _ _ Hc Hp) as T.
  destruct (get_tracks _ _ _ _ _ _ _ _ _ T Hg) as (e & m & B' & -> & -> & T').
  exists e, m, B'. split_and!; [done|done| | | |by apply T'].
  - apply tr_seq in T. by apply Forall_cons in T as [? _].
  - apply tr_played in T'. clear - T'. induction D as [|d D IH]; [constructor|].
    cbn in T'. apply StronglySorted_cons in T' as [Hd T']. constructor; [|by apply IH].
    apply Forall_app in Hd as [_ Hd]. by apply Forall_cons in Hd as [? _].
  - by apply tr_last in T' as (_ & _ & ? & _).
Qed.

(** ** Examples *)

Definition pkt (s ts : Z) : rtp_header := mk_hdr 2 false false 0 false 0 s ts 7 [] 0 0.

Definition jb_two : jbuf :=
  match jbuf_alloc true (fun _ => true) 0 2 with (_, Some jb) => jb
  | _ => mk_jbuf [] [] 0 0 0 0 0 0 0 0 false false false (mk_jitst 0 0 0 JS_GOOD 0 0 0) JBUF_OFF
           (mk_stat 0 0 0 0 0 0 0 0 0) [] end.

(** Two packets around the wrap of the sequence number, the later one first. *)
Definition swapped : list jop := [Put (pkt 0 320) 5 0; Put (pkt 65535 160) 4 0].

Definition jb_swapped : jbuf := match jrun jb_two swapped with Some (_, jb) => jb | None => jb_two end.

Lemma jbuf_accounts_witness :
  exists out jb', jrun jb_two (swapped ++ [Get]) = Some (out, jb') /\
    n jb' = zlen (framel jb') /\ zlen (framel jb') + zlen (pooll jb') = 2 /\
    Sorted before (framel jb') /\
    forall m, refs m (log jb') = held m (framel jb') + zlen (filter (eq m) out).
Proof.
  do 2 eexists. split; [vm_compute; reflexivity|].
  apply (jbuf_accounts true (fun _ => true) 0 2 jb_two (swapped ++ [Get])); [lia|reflexivity| |].
  - repeat constructor; cbn; lia.
  - vm_compute. reflexivity.
Defined.

Lemma jbuf_fixed_total_witness :
  exists out jb', jrun jb_two (swapped ++ [Get]) = Some (out, jb').
Proof.
  apply (jbuf_fixed_total true (fun _ => true) 0 2); [lia|lia|reflexivity|].
  repeat constructor; cbn; lia.
Defined.

Definition B_swapped : list packet := [(65535, (pkt 65535 160, 4)); (65536, (pkt 0 320, 5))].

Lemma playing_swapped : playing 2 jb_swapped B_swapped None [].
Proof.
  assert (P0 : playing 2 jb_two [] None []) by (by eapply (play_start 2 true (fun _ => true) 0)).
  assert (P1 : playing 2 (match jrun jb_two (take 1 swapped) with Some (_, jb) => jb | None => jb_two end)
    [(65536, (pkt 0 320, 5))] None []).
  { eapply (play_put 2 jb_two [] None [] (pkt 0 320) 5 0 65536); [done|done|by left| |vm_compute; done].
    by split. }
  eapply (play_put 2 _ _ _ _ (pkt 65535 160) 4 0 65535) in P1; [exact P1|done|by right| |vm_compute; done].
  split; [|done]. repeat constructor; cbn; lia.
Qed.

Lemma jbuf_plays_in_order_witness :
  exists err h mm jb', jbuf_get jb_swapped = Some (err, Some (h, mm), jb') /\
  exists e m B', B_swapped = (e, (h, m)) :: B' /\ mm = Some m /\ h_seq h = u16 e /\
    Forall (fun d : packet => d.1 < e) [] /\ Forall (fun b => e < b.1) B' /\
    framel jb' = map to_frame B'.
Proof.
  do 4 eexists. split; [vm_compute; reflexivity|].
  eapply (jbuf_plays_in_order 2 jb_swapped B_swapped None []); [lia|exact playing_swapped|].
  vm_compute. reflexivity.
Defined.

(** The number that would be played next after a run. *)
Definition next_after (os : list jop) : option Z :=
  '(_, jb) ← jrun jb_two os; '(_, o, _) ← jbuf_get jb; '(h, _) ← o; Some (h_seq h).

(** Number 0 doubles as the mark for nothing played: behind it a late packet
    is accepted and played; behind any other number it is not. *)
Example late_after_zero :
  next_after [Put (pkt 0 320) 5 0; Get; Put (pkt 65535 160) 4 0] = Some 65535.
Proof. vm_compute. reflexivity. Qed.
Example late_after_one :
  next_after [Put (pkt 1 320) 5 0; Get; Put (pkt 65535 160) 4 0] = None.
Proof. vm_compute. reflexivity. Qed.

(** A duplicate that arrives at a full buffer costs the oldest packet. *)
Example duplicate_evicts :
  next_after [Put (pkt 1 0) 5 0; Put (pkt 2 160) 6 0; Put (pkt 2 160) 7 0] = Some 2.
Proof. vm_compute. reflexivity. Qed.
