(* ===== verification/Codec.v ===== *)
(** * Reading and writing packets

    Decoders are programs of the monad [M mbuf] and encoders are programs
    that return the disjunction of their error codes.  This file has the
    rules that compose them: [reads p m d a] for a decoder that takes the
    bytes [d] at position [p] and returns [a], [safe m] for a decoder with
    defined behaviour on every buffer, [emits m d] for an encoder that succeeds and
    writes [d]. *)

From S2P Require Import Prelude Effects Mbuf MbufProps Rtp.
Import Mb Rtp.

(** ** Decoders *)

Section Read.
Context {A B : Type}.

Definition reads (p : Z) (m : M mbuf A) (d : list Z) (a : A) : Prop :=
  forall mb rest, mb_pos mb = p -> avail mb (d ++ rest) ->
    m mb = Some (a, set_pos (p + zlen d) mb).

End Read.

Lemma reads_ret {A} p (a : A) : reads p (mret a) [] a.
Proof.
  intros mb rest Hp _. unfold mret, M_ret. do 2 f_equal.
  change (zlen (@nil Z)) with 0. rewrite Z.add_0_r, <- Hp. by destruct mb.
Qed.

Lemma reads_bind {A B} p (m : M mbuf A) (f : A -> M mbuf B) d e a b :
  reads p m d a -> reads (p + zlen d) (f a) e b -> reads p (m ≫= f) (d ++ e) b.
Proof.
  intros Hm Hf mb rest Hp Hav. rewrite <- app_assoc in Hav. unfold mbind, M_bind.
  rewrite (Hm mb (e ++ rest) Hp Hav). apply avail_split in Hav as [_ Hav].
  rewrite Hp in Hav. rewrite (Hf _ rest); [|done|done]. rewrite zlen_app. do 2 f_equal.
  unfold set_pos. cbn. f_equal. lia.
Qed.

(** A step that takes nothing. *)
Lemma reads_here {A B} p (m : M mbuf A) (f : A -> M mbuf B) d a b :
  reads p m [] a -> reads p (f a) d b -> reads p (m ≫= f) d b.
Proof.
  intros Hm Hf. apply (reads_bind p m f [] d a b Hm). change (zlen (@nil Z)) with 0.
  by rewrite Z.add_0_r.
Qed.

Lemma reads_pos {A} p (f : Z -> M mbuf A) d a : reads p (f p) d a -> reads p (gets mb_pos ≫= f) d a.
Proof. intros H mb rest Hp Hav. unfold mbind, M_bind, gets. rewrite Hp. by apply (H mb rest). Qed.

(** The test for enough bytes. *)
Lemma reads_guard {A} p n (x m : M mbuf A) d a :
  n <= zlen d -> reads p m d a ->
  reads p (l ← gets mbuf_get_left; if l <? n then x else m) d a.
Proof.
  intros Hn Hm mb rest Hp Hav. unfold mbind, M_bind, gets.
  pose proof (left_avail _ _ Hav) as Hl. rewrite zlen_app in Hl. pose proof (zlen_nonneg rest).
  replace (mbuf_get_left mb <? n) with false by lia. by apply (Hm mb rest).
Qed.

Lemma reads_left {A} p (f : Z -> M mbuf A) d a :
  (forall l, zlen d <= l -> reads p (f l) d a) -> reads p (gets mbuf_get_left ≫= f) d a.
Proof.
  intros H mb rest Hp Hav. unfold mbind, M_bind, gets.
  pose proof (left_avail _ _ Hav) as Hl. rewrite zlen_app in Hl. pose proof (zlen_nonneg rest).
  apply (H (mbuf_get_left mb) ltac:(lia) mb rest); done.
Qed.

(** A value that is only known by a property, such as a view of the buffer. *)
Definition reads_to {A} (p : Z) (m : M mbuf A) (d : list Z) (Q : A -> Prop) : Prop :=
  forall mb rest, mb_pos mb = p -> avail mb (d ++ rest) ->
    exists a, m mb = Some (a, set_pos (p + zlen d) mb) /\ Q a.

Lemma reads_to_eq {A} p (m : M mbuf A) d a : reads p m d a <-> reads_to p m d (eq a).
Proof.
  split; intros H mb rest Hp Hav; [exists a; split; [by apply (H mb rest)|done]|].
  by destruct (H mb rest Hp Hav) as (b & E & <-).
Qed.

Lemma reads_to_bind {A B} p (m : M mbuf A) (f : A -> M mbuf B) d e P Q :
  reads_to p m d P -> (forall a, P a -> reads_to (p + zlen d) (f a) e Q) -> reads_to p (m ≫= f) (d ++ e) Q.
Proof.
  intros Hm Hf mb rest Hp Hav. rewrite <- app_assoc in Hav. destruct (Hm mb (e ++ rest) Hp Hav) as (a & E & Ha).
  apply avail_split in Hav as [_ Hav]. rewrite Hp in Hav. destruct (Hf a Ha (set_pos (p + zlen d) mb) rest eq_refl Hav) as (b & Eb & Hb).
  exists b. split; [|done]. unfold mbind, M_bind. rewrite E, Eb, zlen_app. do 2 f_equal. unfold set_pos. cbn. f_equal. lia.
Qed.

Lemma reads_to_after {A B} p (m : M mbuf A) (f : A -> M mbuf B) d e a Q :
  reads p m d a -> reads_to (p + zlen d) (f a) e Q -> reads_to p (m ≫= f) (d ++ e) Q.
Proof. intros Hm Hf. eapply reads_to_bind; [by apply reads_to_eq|]. by intros ? <-. Qed.

Lemma reads_to_ret {A} p (a : A) (Q : A -> Prop) : Q a -> reads_to p (mret a) [] Q.
Proof. intros Hq mb rest Hp Hav. exists a. split; [by apply (reads_ret p a mb rest)|done]. Qed.

Lemma reads_to_last {A B} p (m : M mbuf A) (f : A -> M mbuf B) d P Q :
  reads_to p m d P -> (forall a, P a -> exists b, f a = mret b /\ Q b) -> reads_to p (m ≫= f) d Q.
Proof.
  intros Hm Hf. rewrite <- (app_nil_r d). eapply reads_to_bind; [done|]. intros a Ha. destruct (Hf a Ha) as (b & -> & Hb).
  by apply reads_to_ret.
Qed.

Lemma reads_to_pos {A} p (f : Z -> M mbuf A) d Q : reads_to p (f p) d Q -> reads_to p (gets mb_pos ≫= f) d Q.
Proof. intros H mb rest Hp Hav. unfold mbind, M_bind, gets. rewrite Hp. by apply (H mb rest). Qed.

Lemma reads_to_guard {A} p n (x m : M mbuf A) d Q :
  n <= zlen d -> reads_to p m d Q ->
  reads_to p (l ← gets mbuf_get_left; if l <? n then x else m) d Q.
Proof.
  intros Hn Hm mb rest Hp Hav. unfold mbind, M_bind, gets.
  pose proof (left_avail _ _ Hav) as Hl. rewrite zlen_app in Hl. pose proof (zlen_nonneg rest).
  replace (mbuf_get_left mb <? n) with false by lia. by apply (Hm mb rest).
Qed.

Lemma reads_int p w d : length d = w -> reads p (mbuf_read_int w) d (le_value d).
Proof.
  intros Hw mb rest Hp Hav. destruct (read_int_avail w mb d rest Hw Hav) as [E _].
  by rewrite E, Hp.
Qed.

Lemma reads_u8 p b : reads p mbuf_read_u8 [b] b.
Proof.
  pose proof (reads_int p 1 [b] eq_refl) as H. cbn [le_value] in H.
  by replace (b + 256 * 0) with b in H by lia.
Qed.

(** An integer in network order. *)
Definition read16 : M mbuf Z := v ← mbuf_read_u16; mret (ntohs v).
Definition read32 : M mbuf Z := v ← mbuf_read_u32; mret (ntohl v).

Lemma reads16 p v : 0 <= v < 65536 -> reads p read16 (be16 v) v.
Proof.
  intros Hv. rewrite <- (app_nil_r (be16 v)). eapply reads_bind; [by apply reads_int|].
  change (le_value (be16 v)) with (htons v). rewrite ntohs_htons by done. apply reads_ret.
Qed.
Lemma reads32 p v : 0 <= v < 2 ^ 32 -> reads p read32 (be32 v) v.
Proof.
  intros Hv. rewrite <- (app_nil_r (be32 v)). eapply reads_bind; [by apply reads_int|].
  change (le_value (be32 v)) with (htonl v). rewrite ntohl_htonl by done. apply reads_ret.
Qed.

(** [sys_htonll] and [sys_ntohll]. *)
Definition htonll (v : Z) : Z := le_value (rev (le_bytes 8 v)).
Definition be64 (v : Z) : list Z := rev (le_bytes 8 v).
Definition read64 : M mbuf Z := v ← mbuf_read_u64; mret (htonll v).

Lemma reads64 p v : 0 <= v < 2 ^ 64 -> reads p read64 (be64 v) v.
Proof.
  intros Hv. rewrite <- (app_nil_r (be64 v)). eapply reads_bind; [by apply reads_int|].
  change (le_value (be64 v)) with (htonll v). unfold htonll. rewrite (swap_swap 8) by done. apply reads_ret.
Qed.

(** [mbuf_read_mem] in the monad: its code and the bytes. *)
Definition read_mem (n : Z) : M mbuf (Z * list Z) := fun mb => mbuf_read_mem mb n.

Lemma reads_mem p d : reads p (read_mem (zlen d)) d (0, d).
Proof.
  intros mb rest Hp Hav. apply avail_split in Hav as [Hav _]. unfold read_mem.
  by rewrite (read_mem_avail _ _ Hav), Hp.
Qed.

(** ** Defined behaviour *)

Lemma moved_trans a b c : moved a b -> moved b c -> moved a c.
Proof. intros Hab (n & Hn & ->). by apply moved_step. Qed.

(** A well-formed buffer that holds bytes. *)
Definition good (mb : mbuf) : Prop := mb_wf mb /\ is_bytes (bytes mb).

Lemma moved_good mb mb' : good mb -> moved mb mb' -> good mb'.
Proof.
  intros [Hwf Hb] Hm. split; [by eapply moved_wf|]. by destruct Hm as (n & _ & ->).
Qed.

(** On every such buffer the decoder returns, moves forward inside the
    buffer only, and its result satisfies [Q]. *)
Definition safe {A} (m : M mbuf A) (Q : A -> Prop) : Prop :=
  forall mb, good mb -> exists a mb', m mb = Some (a, mb') /\ moved mb mb' /\ Q a.

Lemma safe_ret {A} (a : A) (Q : A -> Prop) : Q a -> safe (mret a) Q.
Proof. intros H mb _. exists a, mb. split_and!; [done|apply moved_refl|done]. Qed.

Lemma safe_bind {A B} (m : M mbuf A) (f : A -> M mbuf B) P Q :
  safe m P -> (forall a, P a -> safe (f a) Q) -> safe (m ≫= f) Q.
Proof.
  intros Hm Hf mb Hg. destruct (Hm mb Hg) as (a & mb1 & E1 & M1 & HP).
  destruct (Hf a HP mb1 (moved_good _ _ Hg M1)) as (b & mb2 & E2 & M2 & HQ).
  exists b, mb2. unfold mbind, M_bind. rewrite E1. split_and!; [done|by eapply moved_trans|done].
Qed.

Lemma safe_weaken {A} (m : M mbuf A) (P Q : A -> Prop) : (forall a, P a -> Q a) -> safe m P -> safe m Q.
Proof.
  intros H Hm mb Hg. destruct (Hm mb Hg) as (a & mb1 & E1 & M1 & HP). exists a, mb1.
  split_and!; auto.
Qed.

Lemma safe_gets {A} (f : mbuf -> A) (Q : A -> Prop) :
  (forall mb, good mb -> Q (f mb)) -> safe (gets f) Q.
Proof. intros H mb Hg. exists (f mb), mb. split_and!; [done|apply moved_refl|by apply H]. Qed.

Lemma slice_bytes l i n d : is_bytes l -> slice l i n = Some d -> is_bytes d.
Proof.
  intros Hl (_ & _ & _ & _ & ->)%slice_inv. by apply Forall_take, Forall_drop.
Qed.

Lemma safe_read_mem n : 0 <= n -> safe (read_mem n) (fun r => is_bytes r.2 /\ (r.1 = 0 -> zlen r.2 = n)).
Proof.
  intros Hn mb [Hwf Hb]. unfold read_mem. destruct (Z.eqb_spec n 0) as [->|].
  - unfold mbuf_read_mem. pose proof Hwf as (_ & Hp & _).
    replace (mbuf_get_left mb <? 0) with false by (unfold mbuf_get_left; case_match; lia).
    cbn. do 2 eexists. split; [done|]. split; [|by split; [constructor|]].
    rewrite Z.add_0_r, usz_small by lia.
    replace (set_pos (mb_pos mb) mb) with mb by (by destruct mb). apply moved_refl.
  - destruct (read_mem_ok mb n Hwf) as (err & d & mb' & E & H); [lia|]. rewrite E.
    do 2 eexists. split; [done|]. destruct (Z.eqb_spec err 0) as [->|He].
    + destruct H as (Hl & Hd & -> & Hs). split; [apply moved_step; [apply moved_refl|lia]|].
      split; [by eapply slice_bytes|done].
    + destruct H as [Hl ->]. split; [apply moved_refl|]. unfold mbuf_read_mem in E.
      replace (mbuf_get_left mb <? n) with true in E by lia. injection E as <- <-.
      split; [constructor|done].
Qed.

Lemma le_value_range l : is_bytes l -> 0 <= le_value l < 256 ^ zlen l.
Proof.
  unfold zlen. induction l as [|c l IH]; cbn [le_value length]; [done|].
  intros [Hc Hl]%Forall_cons. specialize (IH Hl). rewrite Nat2Z.inj_succ, Z.pow_succ_r by lia. lia.
Qed.

Lemma safe_int w : safe (mbuf_read_int w) (fun v => 0 <= v < 256 ^ Z.of_nat w).
Proof.
  intros mb Hg. destruct (safe_read_mem (Z.of_nat w) ltac:(lia) mb Hg) as ([e d] & mb' & E & Hm & Hd & Hl).
  unfold read_mem in E. unfold mbuf_read_int. rewrite E. do 2 eexists. split; [done|].
  split; [done|]. cbn in *. destruct (Z.eqb_spec e 0) as [->|]; [|lia].
  rewrite <- (Hl eq_refl). by apply le_value_range.
Qed.

Lemma safe_u8 : safe mbuf_read_u8 (fun v => 0 <= v < 256).
Proof. apply (safe_int 1). Qed.

Lemma swap_range w v : 0 <= le_value (rev (le_bytes w v)) < 256 ^ Z.of_nat w.
Proof.
  pose proof (le_value_range (rev (le_bytes w v)) (Forall_rev (le_bytes_is w v))) as H.
  unfold zlen in H. by rewrite length_rev, le_bytes_length in H.
Qed.

Lemma safe16 : safe read16 (fun v => 0 <= v < 65536).
Proof. eapply safe_bind; [apply safe_int|]. intros v _. apply safe_ret. apply (swap_range 2). Qed.
Lemma safe32 : safe read32 (fun v => 0 <= v < 2 ^ 32).
Proof. eapply safe_bind; [apply safe_int|]. intros v _. apply safe_ret. apply (swap_range 4). Qed.

Lemma safe64 : safe read64 (fun v => 0 <= v < 2 ^ 64).
Proof. eapply safe_bind; [apply safe_int|]. intros v _. apply safe_ret. apply (swap_range 8). Qed.

(** Skipping bytes that are there. *)
Lemma safe_skip {A} n (x : M mbuf A) (m : M mbuf A) Q :
  0 <= n -> safe x Q -> safe m Q ->
  safe (l ← gets mbuf_get_left; if l <? n then x else modify (fun mb => mbuf_advance mb n) ;; m) Q.
Proof.
  intros Hn Hx Hm mb Hg. unfold mbind, M_bind, gets, modify.
  destruct (Z.ltb_spec (mbuf_get_left mb) n); [by apply Hx|].
  assert (Hmv : moved mb (mbuf_advance mb n)).
  { unfold mbuf_advance. destruct Hg as [(_ & ? & ? & ?) _].
    rewrite usz_small by (unfold mbuf_get_left in *; case_match; lia).
    apply moved_step; [apply moved_refl|lia]. }
  destruct (Hm _ (moved_good _ _ Hg Hmv)) as (a & mb' & E & M' & HQ).
  exists a, mb'. split_and!; [done|by eapply moved_trans|done].
Qed.

Lemma safe_guard {A} n (x m : M mbuf A) Q :
  safe x Q -> safe m Q -> safe (l ← gets mbuf_get_left; if l <? n then x else m) Q.
Proof.
  intros Hx Hm. eapply safe_bind; [by apply (safe_gets _ (fun _ => True))|].
  intros l _. by destruct (l <? n).
Qed.

(** ** Automation *)

Create HintDb safe.
#[export] Hint Resolve safe_u8 safe16 safe32 safe64 safe_ret : safe.
#[export] Hint Extern 1 (safe (gets _) _) => (by apply (safe_gets _ (fun _ => True))) : safe.
#[export] Hint Extern 1 (safe (read_mem _) _) => (apply safe_read_mem; lia) : safe.
#[export] Hint Extern 1 True => exact I : safe.

(** One step of a decoder. *)
Ltac safe_step :=
  lazymatch goal with
  | |- safe (mret _) _ => apply safe_ret; try done
  | |- safe (gets mbuf_get_left ≫= _) _ => eapply safe_bind; [eauto with safe|intros ? _]
  | |- safe (_ ≫= _) _ => eapply safe_bind; [solve [eauto with safe]|let H := fresh in intros ? H; cbv beta in H]
  | |- safe (if ?b then _ else _) _ => destruct b eqn:?
  | |- safe (match ?x with _ => _ end) _ => destruct x
  | |- safe (let '(_, _) := ?x in _) _ => destruct x
  end.

(** Moves over the padding of a chunk or packet. *)
Fixpoint slurp_padding (fuel : nat) (start : Z) : M mbuf unit :=
  match fuel with
  | O => ub
  | S fuel =>
    pos ← gets mb_pos;
    l ← gets mbuf_get_left;
    if negb (Z.land (pos - start) 0x3 =? 0) && negb (l =? 0) then
      modify (fun mb => set_pos (usz (mb_pos mb + 1)) mb) ;;
      slurp_padding fuel start
    else mret tt
  end.

Lemma land3 x : Z.land x 0x3 = x mod 4.
Proof. by apply (land_mask x 0x3 2). Qed.

(** At most three bytes are skipped. *)
Lemma slurp_run fuel start mb : mb_wf mb -> (start - mb_pos mb) mod 4 < Z.of_nat fuel ->
  exists mb', slurp_padding fuel start mb = Some (tt, mb') /\ moved mb mb'.
Proof.
  revert mb. induction fuel as [|fuel IH]; intros mb Hwf Hf.
  { pose proof (Z.mod_pos_bound (start - mb_pos mb) 4). lia. }
  cbn [slurp_padding]. unfold mbind, M_bind, gets, modify.
  rewrite land3. destruct (Z.eqb_spec ((mb_pos mb - start) mod 4) 0) as [E0|E0]; cbn [negb andb].
  { exists mb. split; [done|apply moved_refl]. }
  destruct (Z.eqb_spec (mbuf_get_left mb) 0) as [E1|E1]; cbn [negb].
  { exists mb. split; [done|apply moved_refl]. }
  assert (Hl : 0 <= mbuf_get_left mb) by (unfold mbuf_get_left; case_match; lia).
  pose proof Hwf as (? & ? & ? & ?).
  rewrite usz_small by (unfold mbuf_get_left in *; case_match; lia).
  assert (Hm : moved mb (set_pos (mb_pos mb + 1) mb)) by (apply moved_step; [apply moved_refl|lia]).
  destruct (IH _ (moved_wf _ _ Hwf Hm)) as (mb' & -> & Hm').
  { cbn [mb_pos set_pos]. dlia. }
  exists mb'. split; [done|by eapply moved_trans].
Qed.

Lemma safe_slurp start : safe (slurp_padding 4 start) (fun _ => True).
Proof.
  intros mb [Hwf _]. destruct (slurp_run 4 start mb Hwf) as (mb' & E & Hm).
  - pose proof (Z.mod_pos_bound (start - mb_pos mb) 4). lia.
  - by exists tt, mb'.
Qed.

Lemma moved_left mb mb' : moved mb mb' -> mbuf_get_left mb' <= mbuf_get_left mb.
Proof. intros (n & Hn & ->). rewrite left_set_pos by done. lia. Qed.

Lemma read_u8_left mb : good mb -> 1 <= mbuf_get_left mb ->
  exists v mb', mbuf_read_u8 mb = Some (v, mb') /\ moved mb mb' /\ good mb' /\
    mbuf_get_left mb' = mbuf_get_left mb - 1 /\ 0 <= v < 256.
Proof.
  intros Hg Hl. destruct (read_int_moved 1 mb mb (proj1 Hg) (moved_refl mb)) as (v & mb' & E & Hm & L); [lia..|].
  destruct (safe_u8 mb Hg) as (v' & mb2 & E' & _ & Hv). unfold mbuf_read_u8 in *. rewrite E in E'.
  injection E' as <- <-. exists v, mb'. split_and!; try done; [by eapply moved_good|lia|lia].
Qed.

(** ** Padding *)

Lemma slurp_reads_any fuel start d p :
  (p + zlen d - start) mod 4 = 0 -> zlen d < 4 -> zlen d < Z.of_nat fuel ->
  reads p (slurp_padding fuel start) d tt.
Proof.
  revert fuel p. induction d as [|x d IH]; intros [|fuel] p Hm Hk Hf; rewrite ?zlen_cons in *;
    try (pose proof (zlen_nonneg d); lia); try (change (zlen (@nil Z)) with 0 in *; lia).
  all: cbn [slurp_padding]; apply reads_pos, reads_left; intros l Hl; rewrite land3.
  - change (zlen (@nil Z)) with 0 in Hm. replace ((p - start) mod 4 =? 0) with true by dlia. apply reads_ret.
  - pose proof (zlen_nonneg d). rewrite zlen_cons in Hl. replace ((p - start) mod 4 =? 0) with false by dlia.
    replace (l =? 0) with false by lia. cbn [negb andb]. change (x :: d) with ([x] ++ d).
    eapply (reads_bind p _ _ [x] _ tt).
    + intros mb rest Hp Hav. unfold modify. rewrite Hp. destruct Hav as ((_ & ? & ? & ?) & _ & ?).
      unfold zlen in *. cbn [length app] in *. by rewrite usz_small by lia.
    + apply IH; try lia. change (zlen [x]) with 1. by replace (p + 1 + zlen d) with (p + (zlen d + 1)) by lia.
Qed.

Lemma slurp_reads fuel start k p :
  (p + Z.of_nat k - start) mod 4 = 0 -> (k < 4)%nat -> (k < fuel)%nat ->
  reads p (slurp_padding fuel start) (replicate k 0) tt.
Proof.
  intros Hm Hk Hf. apply slurp_reads_any; unfold zlen; rewrite length_replicate; [done|lia..].
Qed.

(** ** Encoders *)

(** [err = m1; err |= m2]. *)
Definition seq_or (m1 m2 : M mbuf Z) : M mbuf Z := e1 ← m1; e2 ← m2; mret (Z.lor e1 e2).
(** [err = m1; if (err) return err; m2]. *)
Definition seq_stop (m1 m2 : M mbuf Z) : M mbuf Z := e1 ← m1; if negb (e1 =? 0) then mret e1 else m2.

Declare Scope codec_scope.
Delimit Scope codec_scope with codec.
Infix "|;" := seq_or (at level 62, left associativity) : codec_scope.
Infix "&;" := seq_stop (at level 62, left associativity) : codec_scope.
Global Open Scope codec_scope.

Section Alloc.
Context (alloc_ok : Z -> bool) (junk : Z -> Z).

Definition write_mem (d : list Z) : M mbuf Z := fun mb => mbuf_write_mem alloc_ok junk mb d.
Definition write8 (v : Z) : M mbuf Z := fun mb => mbuf_write_u8 alloc_ok junk mb v.
Definition write16 (v : Z) : M mbuf Z := fun mb => mbuf_write_u16 alloc_ok junk mb (htons v).
Definition write32 (v : Z) : M mbuf Z := fun mb => mbuf_write_u32 alloc_ok junk mb (htonl v).
Definition write64 (v : Z) : M mbuf Z := fun mb => mbuf_write_u64 alloc_ok junk mb (htonll v).

End Alloc.

(** ** Encoders that succeed

    [puts m d]: on every buffer the encoder succeeds and writes [d] at the
    position, which may lie behind the end. *)

Definition puts (m : M mbuf Z) (d : list Z) : Prop :=
  forall mb, mb_wf mb -> mb_pos mb + zlen d <= SIZE_MAX ->
    exists mb', m mb = Some (0, mb') /\ written mb mb' d.

Lemma puts_or m1 m2 a b : puts m1 a -> puts m2 b -> puts (m1 |; m2) (a ++ b).
Proof.
  intros H1 H2 mb Hwf Hs. rewrite zlen_app in Hs. pose proof (zlen_nonneg a). pose proof (zlen_nonneg b).
  destruct (H1 mb Hwf) as (mb1 & E1 & W1); [lia|]. pose proof W1 as (Hwf1 & Hp1 & _).
  destruct (H2 mb1 Hwf1) as (mb2 & E2 & W2); [lia|]. exists mb2. unfold seq_or, mbind, M_bind. rewrite E1, E2.
  split; [done|]. by eapply written_app.
Qed.

Section Put.
Context (alloc_ok : Z -> bool) (junk : Z -> Z) (Hmem : forall n, alloc_ok n = true).

Lemma puts_mem d : puts (write_mem alloc_ok junk d) d.
Proof using Hmem.
  intros mb Hwf Hs. destruct (write_mem_ok alloc_ok junk mb d Hwf Hs) as (err & mb' & E & H').
  assert (err = 0) as ->; [|by exists mb'].
  revert E. unfold mbuf_write_mem, mbuf_reserve, mbuf_resize. rewrite !Hmem. cbn [negb].
  assert (Hput : forall x, mbuf_put x d = Some (err, mb') -> err = 0).
  { intros x. unfold mbuf_put. destruct (if zlen d =? 0 then _ else _); [|done]. by intros [= <- <-]. }
  destruct (_ <? _); cbn; apply Hput.
Qed.
Lemma puts8 v : puts (write8 alloc_ok junk v) [u8 v].
Proof using Hmem. exact (puts_mem [u8 v]). Qed.
Lemma puts16 v : puts (write16 alloc_ok junk v) (be16 v).
Proof using Hmem. unfold write16, mbuf_write_u16. rewrite htons_bytes. apply puts_mem. Qed.
Lemma puts32 v : puts (write32 alloc_ok junk v) (be32 v).
Proof using Hmem. unfold write32, mbuf_write_u32. rewrite htonl_bytes. apply puts_mem. Qed.
Lemma puts64 v : puts (write64 alloc_ok junk v) (be64 v).
Proof using Hmem. unfold write64, mbuf_write_u64, htonll. rewrite (swap_bytes 8). apply puts_mem. Qed.
End Put.

(** The encoder succeeds and writes [d] at the position. *)
Definition emits (m : M mbuf Z) (d : list Z) : Prop :=
  forall mb, mb_wf mb -> mb_pos mb <= mb_end mb -> mb_pos mb + zlen d <= SIZE_MAX ->
    exists mb', m mb = Some (0, mb') /\ written mb mb' d.

Lemma written_none mb : mb_wf mb -> mb_pos mb <= mb_end mb -> written mb mb [].
Proof.
  intros Hwf He. pose proof Hwf as (? & ? & ? & ?).
  split_and!; try done; try (change (zlen (@nil Z)) with 0; lia); try lia.
  change (zlen (@nil Z)) with 0. rewrite slice_some by lia. by rewrite take_0.
Qed.

Lemma emits_none : emits (mret 0) [].
Proof. intros mb Hwf He _. exists mb. split; [done|]. by apply written_none. Qed.

(** Running one encoder behind another. *)
Lemma emits_run {A} (m1 : M mbuf Z) (f : Z -> M mbuf A) mb a :
  emits m1 a -> mb_wf mb -> mb_pos mb <= mb_end mb -> mb_pos mb + zlen a <= SIZE_MAX ->
  exists mb1, (m1 ≫= f) mb = f 0 mb1 /\ written mb mb1 a /\ mb_pos mb1 <= mb_end mb1.
Proof.
  intros H1 Hwf He Hs. destruct (H1 mb Hwf He Hs) as (mb1 & E1 & W1). exists mb1.
  unfold mbind, M_bind. rewrite E1. pose proof W1 as (_ & _ & ? & _). split_and!; [done|done|lia].
Qed.

Lemma emits_bind m1 (f : Z -> M mbuf Z) a b :
  emits m1 a -> emits (f 0) b -> emits (m1 ≫= f) (a ++ b).
Proof.
  intros H1 H2 mb Hwf He Hs. rewrite zlen_app in Hs. pose proof (zlen_nonneg a).
  pose proof (zlen_nonneg b).
  destruct (emits_run m1 f mb a H1 Hwf He) as (mb1 & E1 & W1 & He1); [lia|].
  pose proof W1 as (Hwf1 & Hp1 & _). destruct (H2 mb1 Hwf1 He1) as (mb2 & E2 & W2); [lia|].
  exists mb2. rewrite E1. split; [done|]. by eapply written_app.
Qed.

Lemma emits_ret_0 (m : M mbuf Z) d : emits m d -> emits (e ← m; mret e) d.
Proof.
  intros H. rewrite <- (app_nil_r d). apply emits_bind; [done|]. apply emits_none.
Qed.

Lemma emits_or m1 m2 a b : emits m1 a -> emits m2 b -> emits (m1 |; m2) (a ++ b).
Proof.
  intros H1 H2. apply emits_bind; [done|]. rewrite <- (app_nil_r b).
  apply emits_bind; [done|]. apply emits_none.
Qed.

Lemma emits_stop m1 m2 a b : emits m1 a -> emits m2 b -> emits (m1 &; m2) (a ++ b).
Proof. intros H1 H2. by apply emits_bind. Qed.

Lemma emits_eq m d d' : d = d' -> emits m d -> emits m d'.
Proof. by intros ->. Qed.

Section Emit.
Context (alloc_ok : Z -> bool) (junk : Z -> Z) (Hmem : forall n, alloc_ok n = true).

Lemma emits_puts m d : puts m d -> emits m d.
Proof. intros H mb Hwf _ Hs. by apply H. Qed.
Lemma emits_mem d : emits (write_mem alloc_ok junk d) d.
Proof using Hmem. by apply emits_puts, puts_mem. Qed.
Lemma emits8 v : emits (write8 alloc_ok junk v) [u8 v].
Proof using Hmem. exact (emits_mem [u8 v]). Qed.
Lemma emits16 v : emits (write16 alloc_ok junk v) (be16 v).
Proof using Hmem. unfold write16, mbuf_write_u16. rewrite htons_bytes. apply emits_mem. Qed.
Lemma emits32 v : emits (write32 alloc_ok junk v) (be32 v).
Proof using Hmem. unfold write32, mbuf_write_u32. rewrite htonl_bytes. apply emits_mem. Qed.

End Emit.

(** ** Programs that append

    [appends p m d a]: at the end of a buffer, at position [p], the program
    writes [d] and returns [a]. *)

Definition appends {A} (p : Z) (m : M mbuf A) (d : list Z) (a : A) : Prop :=
  forall mb, mb_wf mb -> mb_pos mb = p -> mb_end mb = p -> p + zlen d <= SIZE_MAX ->
    exists mb', m mb = Some (a, mb') /\ written mb mb' d.

Lemma appends_emits p m d : emits m d -> appends p m d 0.
Proof. intros H mb Hwf Hp He Hs. apply H; [done|lia|lia]. Qed.

Lemma appends_ret {A} p (a : A) : appends p (mret a) [] a.
Proof. intros mb Hwf Hp He Hs. exists mb. split; [done|]. apply written_none; [done|lia]. Qed.

Lemma appends_bind {A B} p (m : M mbuf A) (f : A -> M mbuf B) d e a b :
  appends p m d a -> appends (p + zlen d) (f a) e b -> appends p (m ≫= f) (d ++ e) b.
Proof.
  intros Hm Hf mb Hwf Hp He Hs. rewrite zlen_app in Hs. pose proof (zlen_nonneg d).
  pose proof (zlen_nonneg e). destruct (Hm mb Hwf Hp He) as (mb1 & E1 & W1); [lia|].
  pose proof W1 as (Hwf1 & Hp1 & He1 & _).
  destruct (Hf mb1 Hwf1) as (mb2 & E2 & W2); [lia..|]. exists mb2.
  unfold mbind, M_bind. rewrite E1. split; [done|]. by eapply written_app.
Qed.

Lemma appends_gets {A} p (g : mbuf -> Z) (f : Z -> M mbuf A) d a :
  g = mb_pos \/ g = mb_end -> appends p (f p) d a -> appends p (gets g ≫= f) d a.
Proof.
  intros Hg H mb Hwf Hp He Hs. unfold mbind, M_bind, gets.
  destruct Hg as [->| ->]; rewrite ?Hp, ?He; by apply H.
Qed.
Lemma appends_pos {A} p (f : Z -> M mbuf A) d a : appends p (f p) d a -> appends p (gets mb_pos ≫= f) d a.
Proof. apply appends_gets. by left. Qed.

Lemma appends_last {A} p (m : M mbuf A) (f : A -> M mbuf A) d a b :
  appends p m d a -> f a = mret b -> appends p (m ≫= f) d b.
Proof.
  intros Hm Hf. rewrite <- (app_nil_r d). eapply appends_bind; [done|]. rewrite Hf. apply appends_ret.
Qed.

Lemma appends_or p m1 m2 a b :
  appends p m1 a 0 -> appends (p + zlen a) m2 b 0 -> appends p (m1 |; m2) (a ++ b) 0.
Proof.
  intros H1 H2. eapply appends_bind; [done|]. by eapply appends_last.
Qed.
