(* ===== verification/RtcpPkt.v ===== *)
(** * RTCP packets

    Models re/src/rtp/pkt.c, rr.c, sdes.c and fb.c: encoding and decoding of
    RTCP packets.  The optional arguments of [rtcp_encode] are an inductive
    type; encode handlers are programs on the buffer.  [alloc_ok] tells
    whether an allocation of a size succeeds.  [None] is an access outside an
    object, or a padding loop that never ends because its writes fail.
    Printing and the release of messages are left out. *)

From S2P Require Import Prelude Effects Mbuf MbufProps Rtp Codec.
Import Mb Rtp.

Module Rtcp.

Definition RTCP_VERSION : Z := 2.
Definition RTCP_HDR_SIZE : Z := 4.
Definition RTCP_SRC_SIZE : Z := 4.
Definition RTCP_SR_SIZE : Z := 20.
Definition RTCP_RR_SIZE : Z := 24.
Definition RTCP_APP_SIZE : Z := 8.
Definition RTCP_FIR_SIZE : Z := 4.
Definition RTCP_NACK_SIZE : Z := 8.
Definition RTCP_FB_SIZE : Z := 8.
Definition GNACK_SIZE : Z := 4.
Definition SLI_SIZE : Z := 4.
Definition RTCP_SDES_MIN_SIZE : Z := 1.

(** [enum rtcp_type] and the feedback formats. *)
Definition RTCP_FIR : Z := 192.
Definition RTCP_NACK : Z := 193.
Definition RTCP_SR : Z := 200.
Definition RTCP_RR : Z := 201.
Definition RTCP_SDES : Z := 202.
Definition RTCP_BYE : Z := 203.
Definition RTCP_APP : Z := 204.
Definition RTCP_RTPFB : Z := 205.
Definition RTCP_PSFB : Z := 206.
Definition RTCP_RTPFB_GNACK : Z := 1.
Definition RTCP_PSFB_PLI : Z := 1.
Definition RTCP_PSFB_SLI : Z := 2.
Definition RTCP_PSFB_AFB : Z := 15.
Definition RTCP_SDES_END : Z := 0.
Definition RTCP_SDES_CNAME : Z := 1.

Record rtcp_hdr := mk_rhdr {
  version : Z;
  p : Z;
  count : Z;
  pt : Z;
  length_ : Z }.

(** [lost] is a signed field of 24 bits. *)
Record rtcp_rr := mk_rr {
  rr_ssrc : Z;
  fraction : Z;
  lost : Z;
  last_seq : Z;
  rr_jitter : Z;
  lsr : Z;
  dlsr : Z }.

Record rtcp_sdes_item := mk_item {
  it_type : Z;
  it_length : Z;
  it_data : list Z }.

Record rtcp_sdes := mk_sdes { sdes_src : Z; itemv : list rtcp_sdes_item }.

(** The feedback control information. *)
Inductive fci :=
| fci_null
| gnackv (l : list (Z * Z))
| sliv (l : list (Z * Z * Z))
| afb (mb : mbuf).

(** The union [r] of a message. *)
Inductive rtcp_body :=
| sr (ssrc ntp_sec ntp_frac rtp_ts psent osent : Z) (rrv : list rtcp_rr)
| rr (ssrc : Z) (rrv : list rtcp_rr)
| sdesv (l : list rtcp_sdes)
| bye (srcv : list Z) (reason : option (list Z))
| app_ (src : Z) (name : list Z) (data : option (list Z))
| fir (ssrc : Z)
| nack (ssrc fsn blp : Z)
| fb (ssrc_packet ssrc_media n : Z) (f : fci)
| other.

Record rtcp_msg := mk_msg { hdr : rtcp_hdr; r : rtcp_body }.

Definition i24 (z : Z) : Z := (z + 2 ^ 23) mod 2 ^ 24 - 2 ^ 23.

Section Alloc.
Context (alloc_ok : Z -> bool) (junk : Z -> Z).

Abbreviation write8 := (write8 alloc_ok junk).
Abbreviation write16 := (write16 alloc_ok junk).
Abbreviation write32 := (write32 alloc_ok junk).
Abbreviation write_mem := (write_mem alloc_ok junk).

(** ** Encoding *)

Definition rtcp_hdr_encode (count type length : Z) : M mbuf Z :=
  write8 (Z.lor (Z.shiftl RTCP_VERSION 6) (u8 count)) |; write8 type |; write16 length.

(** The eight bits of the fraction are shifted in [int], which overflows from
    128 on; the value is what two's complement gives. *)
Definition rtcp_rr_encode (b : rtcp_rr) : M mbuf Z :=
  write32 (rr_ssrc b) |;
  write32 (u32 (Z.lor (Z.shiftl (fraction b) 24) (Z.land (lost b) 0x00ffffff))) |;
  write32 (last_seq b) |; write32 (rr_jitter b) |; write32 (lsr b) |; write32 (dlsr b).

Definition rtcp_rtpfb_gnack_encode (pid blp : Z) : M mbuf Z := write16 pid |; write16 blp.

Definition rtcp_psfb_sli_encode (first number picid : Z) : M mbuf Z :=
  write32 (u32 (Z.lor (Z.lor (Z.shiftl first 19) (Z.shiftl number 6)) picid)).

(** Zero bytes until [at_ mb] is a multiple of four from [start]. *)
Fixpoint pad_loop (at_ : mbuf -> Z) (fuel : nat) (start err : Z) : M mbuf Z :=
  match fuel with
  | O => ub
  | S fuel =>
    x ← gets at_;
    if Z.land (x - start) 0x3 =? 0 then mret err else
    e ← write8 0;
    pad_loop at_ fuel start (Z.lor err e)
  end.

(** The items of a chunk, as type and text; an absent text is skipped. *)
Fixpoint sdes_items (items : list (Z * option (list Z))) : M mbuf (Z * bool) :=
  match items with
  | [] => mret (0, true)
  | (type, None) :: items => sdes_items items
  | (type, Some v) :: items =>
    if 255 <? zlen v then mret (EINVAL, false) else
    err ← (write8 type |; write8 (Z.land (zlen v) 0xff) |; write_mem v);
    if negb (err =? 0) then mret (err, true) else sdes_items items
  end.

Definition rtcp_sdes_encode (src : Z) (items : list (Z * option (list Z))) : M mbuf Z :=
  if bool_decide (items = []) then mret EINVAL else
  start ← gets mb_pos;
  err ← write32 src;
  '(err, go_on) ← (if negb (err =? 0) then mret (err, true) else sdes_items items);
  if negb go_on then mret err else
  e ← write8 RTCP_SDES_END;
  pad_loop mb_pos 4 start (Z.lor err e).

(** The arguments behind the count. *)
Inductive rtcp_args :=
| a_sr (v : list Z) (ench : option (M mbuf Z))
| a_rr (ssrc : Z) (ench : option (M mbuf Z))
| a_sdes (ench : option (M mbuf Z))
| a_bye (srcv : list Z) (reason : option (list Z))
| a_app (src : Z) (name : list Z) (data : option (list Z))
| a_fir (ssrc : Z)
| a_nack (ssrc fsn blp : Z)
| a_rtpfb (ssrc_packet ssrc_media : Z) (ench : option (M mbuf Z))
| a_psfb (ssrc_packet ssrc_media : Z) (ench : option (M mbuf Z))
| a_other (type : Z).

Definition args_type (a : rtcp_args) : Z :=
  match a with
  | a_sr _ _ => RTCP_SR | a_rr _ _ => RTCP_RR | a_sdes _ => RTCP_SDES | a_bye _ _ => RTCP_BYE
  | a_app _ _ _ => RTCP_APP | a_fir _ => RTCP_FIR | a_nack _ _ _ => RTCP_NACK
  | a_rtpfb _ _ _ => RTCP_RTPFB | a_psfb _ _ _ => RTCP_PSFB | a_other type => type
  end.

Definition call (ench : option (M mbuf Z)) : M mbuf Z :=
  match ench with Some m => m | None => mret 0 end.

(** [for (i=0; i<6; i++) err |= ...]. *)
Fixpoint write_all (v : list Z) : M mbuf Z :=
  match v with [] => mret 0 | x :: v => write32 x |; write_all v end.

(** [for (i=0; i<count && !err; i++)]. *)
Fixpoint write_srcs (n : nat) (srcv : list Z) (i : Z) : M mbuf Z :=
  match n with
  | O => mret 0
  | S n => s ← of_option (rd srcv i); write32 s &; write_srcs n srcv (i + 1)
  end.

Definition encode_body (count : Z) (a : rtcp_args) : M mbuf Z :=
  match a with
  | a_sr v ench => write_all v |; call ench
  | a_rr ssrc ench => write32 ssrc |; call ench
  | a_sdes ench => call ench
  | a_bye srcv reason =>
    write_srcs (Z.to_nat count) srcv 0 |;
    match reason with
    | None => mret 0
    | Some s => write8 (zlen s) |; write_mem s
    end
  | a_app src name data =>
    e ← (write32 src |; (d ← of_option (slice name 0 4); write_mem d));
    match data with
    | None => mret e
    | Some d =>
      if negb (zlen d mod 4 =? 0) then mret EBADMSG else
      e2 ← write_mem d;
      mret (Z.lor e e2)
    end
  | a_fir ssrc => write32 ssrc
  | a_nack ssrc fsn blp => write32 ssrc |; write16 fsn |; write16 blp
  | a_rtpfb x y ench | a_psfb x y ench => write32 x |; write32 y |; call ench
  | a_other _ => mret EINVAL
  end.

Definition rtcp_vencode (count : Z) (a : rtcp_args) : M mbuf Z :=
  pos ← gets mb_pos;
  modify (fun mb => let q := usz (mb_pos mb + RTCP_HDR_SIZE) in set_pos q (set_end q mb)) ;;
  err ← encode_body count a;
  if negb (err =? 0) then mret err else
  err ← pad_loop mb_end 4 pos err;
  if negb (err =? 0) then mret err else
  modify (set_pos pos) ;;
  e ← gets mb_end;
  let len := u16 ((e - pos - RTCP_HDR_SIZE) / 4) in
  err ← rtcp_hdr_encode count (args_type a) len;
  if negb (err =? 0) then mret err else
  modify (fun mb => set_pos (mb_end mb) mb) ;;
  mret 0.

Definition rtcp_encode := rtcp_vencode.

(** ** Decoding *)

Definition rtcp_hdr_decode : M mbuf (Z * rtcp_hdr) :=
  l ← gets mbuf_get_left;
  if l <? RTCP_HDR_SIZE then mret (EBADMSG, mk_rhdr 0 0 0 0 0) else
  b ← mbuf_read_u8;
  pt ← mbuf_read_u8;
  len ← read16;
  mret (0, mk_rhdr (Z.land (Z.shiftr b 6) 0x3) (Z.land (Z.shiftr b 5) 0x1)
             (Z.land (Z.shiftr b 0) 0x1f) pt len).

(** The report block: [None] when the bytes are missing. *)
Definition rtcp_rr_decode : M mbuf (option rtcp_rr) :=
  l ← gets mbuf_get_left;
  if l <? RTCP_RR_SIZE then mret None else
  ssrc ← read32;
  w ← read32;
  last_seq ← read32;
  jitter ← read32;
  lsr ← read32;
  dlsr ← read32;
  mret (Some (mk_rr ssrc (Z.shiftr w 24) (i24 (Z.land w 0x00ffffff)) last_seq jitter lsr dlsr)).

Fixpoint rr_loop (n : nat) (out : list rtcp_rr) : M mbuf (Z * list rtcp_rr) :=
  match n with
  | O => mret (0, out)
  | S n =>
    b ← rtcp_rr_decode;
    match b with
    | None => mret (EBADMSG, out)
    | Some b => rr_loop n (out ++ [b])
    end
  end.

(** sizeof(struct rtcp_sdes_item) is 16. *)
Fixpoint sdes_loop (fuel : nat) (items : list rtcp_sdes_item) : M mbuf (Z * list rtcp_sdes_item) :=
  match fuel with
  | O => ub
  | S fuel =>
    l ← gets mbuf_get_left;
    if l <? RTCP_SDES_MIN_SIZE then mret (0, items) else
    type ← mbuf_read_u8;
    if type =? RTCP_SDES_END then mret (0, items) else
    l ← gets mbuf_get_left;
    if l <? 1 then mret (EBADMSG, items) else
    if negb (alloc_ok ((zlen items + 1) * 16)) then mret (ENOMEM, items) else
    len ← mbuf_read_u8;
    l ← gets mbuf_get_left;
    if l <? len then mret (EBADMSG, items) else
    if negb (alloc_ok len) then mret (ENOMEM, items) else
    '(_, d) ← read_mem len;
    sdes_loop fuel (items ++ [mk_item type len d])
  end.

Definition rtcp_sdes_decode : M mbuf (Z * rtcp_sdes) :=
  l ← gets mbuf_get_left;
  if l <? RTCP_SRC_SIZE then mret (EBADMSG, mk_sdes 0 []) else
  start ← gets mb_pos;
  src ← read32;
  l ← gets mbuf_get_left;
  '(err, items) ← sdes_loop (S (Z.to_nat l)) [];
  if negb (err =? 0) then mret (err, mk_sdes src items) else
  slurp_padding 4 start ;;
  mret (0, mk_sdes src items).

Fixpoint sdes_chunks (n : nat) (out : list rtcp_sdes) : M mbuf (Z * list rtcp_sdes) :=
  match n with
  | O => mret (0, out)
  | S n =>
    '(err, c) ← rtcp_sdes_decode;
    if negb (err =? 0) then mret (err, out) else sdes_chunks n (out ++ [c])
  end.

Fixpoint read_srcs (n : nat) (out : list Z) : M mbuf (list Z) :=
  match n with
  | O => mret out
  | S n => v ← read32; read_srcs n (out ++ [v])
  end.

Fixpoint read_gnacks (n : nat) (out : list (Z * Z)) : M mbuf (list (Z * Z)) :=
  match n with
  | O => mret out
  | S n => pid ← read16; blp ← read16; read_gnacks n (out ++ [(pid, blp)])
  end.

Fixpoint read_slis (n : nat) (out : list (Z * Z * Z)) : M mbuf (list (Z * Z * Z)) :=
  match n with
  | O => mret out
  | S n =>
    v ← read32;
    read_slis n (out ++ [(Z.land (Z.shiftr v 19) 0x1fff, Z.land (Z.shiftr v 6) 0x1fff,
                          Z.land (Z.shiftr v 0) 0x003f)])
  end.

(** The code and the feedback information; [n] words are announced. *)
Definition rtcp_rtpfb_decode (count n : Z) : M mbuf (Z * fci) :=
  if count =? RTCP_RTPFB_GNACK then
    if negb (alloc_ok (n * 4)) then mret (ENOMEM, fci_null) else
    l ← gets mbuf_get_left;
    if l <? n * GNACK_SIZE then mret (EBADMSG, fci_null) else
    v ← read_gnacks (Z.to_nat n) [];
    mret (0, gnackv v)
  else mret (0, fci_null).

(** A second buffer over the same bytes. *)
Definition mbuf_alloc_ref : M mbuf (option mbuf) :=
  mb ← gets id;
  mret (if alloc_ok 32 then Some mb else None).

Definition rtcp_psfb_decode (count n : Z) : M mbuf (Z * fci) :=
  if count =? RTCP_PSFB_PLI then mret (0, fci_null)
  else if count =? RTCP_PSFB_SLI then
    if negb (alloc_ok (n * 6)) then mret (ENOMEM, fci_null) else
    l ← gets mbuf_get_left;
    if l <? n * SLI_SIZE then mret (EBADMSG, fci_null) else
    v ← read_slis (Z.to_nat n) [];
    mret (0, sliv v)
  else if count =? RTCP_PSFB_AFB then
    let sz := n * 4 in
    l ← gets mbuf_get_left;
    if l <? sz then mret (EBADMSG, fci_null) else
    ref ← mbuf_alloc_ref;
    match ref with
    | None => mret (ENOMEM, fci_null)
    | Some b =>
      modify (fun mb => mbuf_advance mb sz) ;;
      mret (0, afb (set_end (usz (mb_pos b + sz)) b))
    end
  else mret (0, fci_null).

(** The part of a packet behind its header. *)
Definition decode_body (h : rtcp_hdr) : M mbuf (Z * rtcp_body) :=
  let rem := length_ h * 4 in
  let bad := mret (EBADMSG, other) in
  if pt h =? RTCP_SR then
    l ← gets mbuf_get_left;
    if l <? RTCP_SRC_SIZE + RTCP_SR_SIZE then bad else
    ssrc ← read32;
    ntp_sec ← read32;
    ntp_frac ← read32;
    rtp_ts ← read32;
    psent ← read32;
    osent ← read32;
    if negb (alloc_ok (count h * 24)) then mret (ENOMEM, other) else
    '(err, v) ← rr_loop (Z.to_nat (count h)) [];
    mret (err, sr ssrc ntp_sec ntp_frac rtp_ts psent osent v)
  else if pt h =? RTCP_RR then
    l ← gets mbuf_get_left;
    if l <? RTCP_SRC_SIZE then bad else
    ssrc ← read32;
    if negb (alloc_ok (count h * 24)) then mret (ENOMEM, other) else
    '(err, v) ← rr_loop (Z.to_nat (count h)) [];
    mret (err, rr ssrc v)
  else if pt h =? RTCP_SDES then
    if count h =? 0 then mret (0, sdesv []) else
    if negb (alloc_ok (count h * 24)) then mret (ENOMEM, other) else
    '(err, v) ← sdes_chunks (Z.to_nat (count h)) [];
    mret (err, sdesv v)
  else if pt h =? RTCP_BYE then
    let sz := count h * 4 in
    if negb (alloc_ok sz) then mret (ENOMEM, other) else
    l ← gets mbuf_get_left;
    if l <? sz then bad else
    srcv ← read_srcs (Z.to_nat (count h)) [];
    if sz <? rem then
      len ← mbuf_read_u8;
      l ← gets mbuf_get_left;
      if l <? len then bad else
      '(err, reason) ← (fun mb => mbuf_strdup alloc_ok mb len);
      mret (err, bye srcv reason)
    else mret (0, bye srcv None)
  else if pt h =? RTCP_APP then
    l ← gets mbuf_get_left;
    if l <? RTCP_APP_SIZE then bad else
    src ← read32;
    '(_, name) ← read_mem 4;
    if RTCP_APP_SIZE <? rem then
      let data_len := rem - RTCP_APP_SIZE in
      if negb (alloc_ok data_len) then mret (ENOMEM, other) else
      l ← gets mbuf_get_left;
      if l <? data_len then bad else
      '(_, d) ← read_mem data_len;
      mret (0, app_ src name (Some d))
    else mret (0, app_ src name None)
  else if pt h =? RTCP_FIR then
    l ← gets mbuf_get_left;
    if l <? RTCP_FIR_SIZE then bad else
    ssrc ← read32;
    mret (0, fir ssrc)
  else if pt h =? RTCP_NACK then
    l ← gets mbuf_get_left;
    if l <? RTCP_NACK_SIZE then bad else
    ssrc ← read32;
    fsn ← read16;
    blp ← read16;
    mret (0, nack ssrc fsn blp)
  else if (pt h =? RTCP_RTPFB) || (pt h =? RTCP_PSFB) then
    l ← gets mbuf_get_left;
    if l <? RTCP_FB_SIZE then bad else
    if length_ h <? 2 then bad else
    ssrc_packet ← read32;
    ssrc_media ← read32;
    let n := length_ h - 2 in
    '(err, f) ← (if pt h =? RTCP_RTPFB then rtcp_rtpfb_decode (count h) n
                 else rtcp_psfb_decode (count h) n);
    mret (err, fb ssrc_packet ssrc_media n f)
  else
    modify (fun mb => mbuf_advance mb rem) ;;
    mret (0, other).

(** The code and the message; sizeof(struct rtcp_msg) is 40. *)
Definition rtcp_decode : M mbuf (Z * option rtcp_msg) :=
  l ← gets mbuf_get_left;
  if l <? RTCP_HDR_SIZE then mret (EBADMSG, None) else
  if negb (alloc_ok 40) then mret (ENOMEM, None) else
  start ← gets mb_pos;
  '(err, h) ← rtcp_hdr_decode;
  if negb (err =? 0) then mret (err, None) else
  if negb (version h =? RTCP_VERSION) then mret (EBADMSG, None) else
  l ← gets mbuf_get_left;
  if l <? length_ h * 4 then mret (EBADMSG, None) else
  '(err, b) ← decode_body h;
  if negb (err =? 0) then mret (err, None) else
  slurp_padding 4 start ;;
  mret (0, Some (mk_msg h b)).

End Alloc.

End Rtcp.
