(* ===== verification/RtcpPktProps.v ===== *)
(** * Properties of RTCP packets

    Decoding has defined behaviour on every buffer; a packet of every kind
    survives encoding and decoding. *)

From S2P Require Import Prelude Effects Mbuf MbufProps Rtp Codec RtcpPkt.
Import Mb Rtp Rtcp.

(** ** Decoding is safe *)

Section Safe.
Context (alloc_ok : Z -> bool).

(** Every item takes bytes. *)
Lemma sdes_loop_run fuel items mb : good mb -> mbuf_get_left mb < Z.of_nat fuel ->
  exists a mb', sdes_loop alloc_ok fuel items mb = Some (a, mb') /\ moved mb mb'.
Proof.
  revert items mb. induction fuel as [|fuel IH]; intros items mb Hg Hf.
  { unfold mbuf_get_left in Hf. case_match; lia. }
  cbn [sdes_loop]. unfold mbind, M_bind, gets, RTCP_SDES_MIN_SIZE.
  destruct (Z.ltb_spec (mbuf_get_left mb) 1) as [|H1].
  { do 2 eexists. split; [done|apply moved_refl]. }
  destruct (read_u8_left mb Hg H1) as (type & mb1 & -> & M1 & G1 & L1 & _).
  destruct (type =? RTCP_SDES_END); [by do 2 eexists|].
  destruct (Z.ltb_spec (mbuf_get_left mb1) 1) as [|H2]; [by do 2 eexists|].
  destruct (alloc_ok _); cbn [negb]; [|by do 2 eexists].
  destruct (read_u8_left mb1 G1 H2) as (len & mb2 & -> & M2 & G2 & L2 & Hlen).
  pose proof (moved_trans _ _ _ M1 M2) as M12.
  destruct (Z.ltb_spec (mbuf_get_left mb2) len) as [|H3]; [by do 2 eexists|].
  destruct (alloc_ok len); cbn [negb]; [|by do 2 eexists].
  destruct (safe_read_mem len ltac:(lia) mb2 G2) as ([e d] & mb3 & -> & M3 & _).
  destruct (IH (items ++ [mk_item type len d]) mb3) as (a & mb4 & -> & M4).
  - by eapply moved_good.
  - apply moved_left in M3. lia.
  - do 2 eexists. split; [done|]. eapply moved_trans; [|exact M4]. by eapply moved_trans.
Qed.

Lemma safe_sdes_loop items :
  safe (l ← gets mbuf_get_left; sdes_loop alloc_ok (S (Z.to_nat l)) items) (fun _ => True).
Proof.
  intros mb Hg. destruct (sdes_loop_run (S (Z.to_nat (mbuf_get_left mb))) items mb Hg) as (a & mb' & E & Hm).
  - unfold mbuf_get_left. case_match; lia.
  - by exists a, mb'.
Qed.

Lemma safe_rr_loop n out :
  safe (rr_loop n out) (fun r => r.1 = 0 -> length r.2 = (length out + n)%nat).
Proof.
  revert out. induction n as [|n IH]; intros out; cbn [rr_loop]; [safe_step; cbn; lia|].
  eapply (safe_bind _ _ (fun _ => True)); [unfold rtcp_rr_decode; repeat safe_step|].
  intros [b|] _; [|by safe_step]. eapply safe_weaken; [|apply IH]. cbn. intros r Hr E.
  rewrite (Hr E), length_app. cbn. lia.
Qed.

Lemma safe_sdes_decode : safe (rtcp_sdes_decode alloc_ok) (fun _ => True).
Proof.
  unfold rtcp_sdes_decode. do 2 safe_step; [by safe_step|].
  eapply (safe_bind _ _ (fun _ => True)); [eauto with safe|]. intros start _. safe_step.
  pose proof (safe_sdes_loop []) as Hl. intros mb Hg.
  destruct (Hl mb Hg) as ([err items] & mb1 & E & M1 & _). unfold mbind, M_bind, gets in *. rewrite E.
  destruct (negb (err =? 0)); [by do 2 eexists|].
  destruct (safe_slurp start mb1 (moved_good _ _ Hg M1)) as (u & mb2 & -> & M2 & _).
  do 2 eexists. split; [done|]. split; [by eapply moved_trans|done].
Qed.

Lemma safe_sdes_chunks n out : safe (sdes_chunks alloc_ok n out) (fun _ => True).
Proof.
  revert out. induction n as [|n IH]; intros out; cbn [sdes_chunks]; [by safe_step|].
  eapply safe_bind; [apply safe_sdes_decode|]. intros [err c] _. repeat safe_step. apply IH.
Qed.

Lemma safe_read_srcs n out : safe (read_srcs n out) (fun r => length r = (length out + n)%nat).
Proof.
  revert out. induction n as [|n IH]; intros out; cbn [read_srcs]; [safe_step; lia|].
  safe_step. eapply safe_weaken; [|apply IH]. intros r. rewrite length_app. cbn. lia.
Qed.
Lemma safe_read_gnacks n out : safe (read_gnacks n out) (fun _ => True).
Proof.
  revert out. induction n as [|n IH]; intros out; cbn [read_gnacks]; [by safe_step|].
  do 2 safe_step. apply IH.
Qed.
Lemma safe_read_slis n out : safe (read_slis n out) (fun _ => True).
Proof.
  revert out. induction n as [|n IH]; intros out; cbn [read_slis]; [by safe_step|].
  safe_step. apply IH.
Qed.

#[local] Hint Resolve safe_rr_loop safe_sdes_chunks safe_read_srcs safe_read_gnacks safe_read_slis : safe.

Lemma safe_rtpfb c n : safe (rtcp_rtpfb_decode alloc_ok c n) (fun _ => True).
Proof. unfold rtcp_rtpfb_decode. repeat safe_step. Qed.

Lemma safe_psfb c n : 0 <= n -> safe (rtcp_psfb_decode alloc_ok c n) (fun _ => True).
Proof.
  intros Hn. unfold rtcp_psfb_decode. destruct (c =? RTCP_PSFB_PLI); [by safe_step|].
  destruct (c =? RTCP_PSFB_SLI); [repeat safe_step|].
  destruct (c =? RTCP_PSFB_AFB); [|by safe_step]. intros mb Hg. unfold mbuf_alloc_ref, mbind, M_bind, gets, mret, M_ret.
  destruct (Z.ltb_spec (mbuf_get_left mb) (n * 4)) as [|Hl].
  { do 2 eexists. split; [done|]. split; [apply moved_refl|done]. }
  destruct (alloc_ok 32); cbn [id].
  - unfold modify, mbuf_advance. destruct Hg as [(_ & ? & ? & ?) _].
    rewrite !usz_small by (unfold mbuf_get_left in *; case_match; lia).
    do 2 eexists. split; [done|]. split; [|done]. apply moved_step; [apply moved_refl|lia].
  - do 2 eexists. split; [done|]. split; [apply moved_refl|done].
Qed.

Lemma safe_strdup n : 0 <= n -> safe (fun mb => mbuf_strdup alloc_ok mb n) (fun _ => True).
Proof.
  intros Hn mb Hg. unfold mbuf_strdup. destruct (alloc_ok _); cbn [negb].
  - destruct (safe_read_mem n Hn mb Hg) as ([e d] & mb' & E & Hm & _). unfold read_mem in E. rewrite E.
    cbn [mbind option_bind]. destruct (negb (e =? 0)); by do 2 eexists.
  - do 2 eexists. split; [done|]. split; [apply moved_refl|done].
Qed.

#[local] Hint Resolve safe_rtpfb : safe.
#[local] Hint Extern 1 (safe (fun mb => mbuf_strdup _ mb _) _) => (apply safe_strdup; lia) : safe.

(** A body has as many reports and sources as its header counts, and numbers
    of 32 bits. *)
Definition fits (h : rtcp_hdr) (b : rtcp_body) : Prop :=
  match b with
  | sr ssrc sec frac _ _ _ v =>
    0 <= ssrc < 2 ^ 32 /\ 0 <= sec < 2 ^ 32 /\ 0 <= frac < 2 ^ 32 /\ length v = Z.to_nat (count h)
  | rr ssrc v => 0 <= ssrc < 2 ^ 32 /\ length v = Z.to_nat (count h)
  | bye v _ => length v = Z.to_nat (count h)
  | _ => True
  end.

(** The body, on a buffer that has the announced length. *)
Lemma safe_body h : 0 <= length_ h ->
  forall mb, good mb -> length_ h * 4 <= mbuf_get_left mb ->
  exists a mb', decode_body alloc_ok h mb = Some (a, mb') /\ moved mb mb' /\ (a.1 = 0 -> fits h a.2).
Proof.
  intros Hlen mb Hg Hl.
  assert (Hs : forall m : M mbuf (Z * rtcp_body), safe m (fun a => a.1 = 0 -> fits h a.2) ->
    exists a mb', m mb = Some (a, mb') /\ moved mb mb' /\ (a.1 = 0 -> fits h a.2)) by (intros m Hm; by apply Hm).
  unfold decode_body.
  do 7 (destruct (pt h =? _); [apply Hs; repeat safe_step; cbn in *; intros; split_and?; solve [lia|auto]|]).
  destruct (_ || _).
  - apply Hs. do 2 safe_step; [by safe_step|]. safe_step; [by safe_step|]. do 2 safe_step.
    eapply (safe_bind _ _ (fun _ => True)); [destruct (pt h =? RTCP_RTPFB); [eauto with safe|apply safe_psfb; lia]|].
    intros [err f] _. by safe_step.
  - unfold mbind, M_bind, modify, mbuf_advance. destruct Hg as [(_ & ? & ? & ?) _].
    rewrite usz_small by (unfold mbuf_get_left in *; case_match; lia).
    do 2 eexists. split; [done|]. split; [|done]. apply moved_step; [apply moved_refl|lia].
Qed.

Lemma safe_hdr : safe rtcp_hdr_decode (fun r => 0 <= length_ r.2).
Proof. unfold rtcp_hdr_decode. repeat safe_step. cbn. lia. Qed.

(** A header takes bytes. *)
Lemma hdr_progress mb err h mb' : good mb -> rtcp_hdr_decode mb = Some ((err, h), mb') -> err = 0 ->
  mbuf_get_left mb' < mbuf_get_left mb.
Proof.
  intros Hg. unfold rtcp_hdr_decode, mbind, M_bind, gets, RTCP_HDR_SIZE.
  destruct (Z.ltb_spec (mbuf_get_left mb) 4) as [|Hl]; [by intros [= <- _ _]|].
  destruct (read_u8_left mb Hg ltac:(lia)) as (v & mb1 & -> & _ & G1 & L1 & _).
  destruct (safe_u8 mb1 G1) as (v2 & mb2 & -> & M2 & _).
  destruct (safe16 mb2 (moved_good _ _ G1 M2)) as (v3 & mb3 & -> & M3 & _).
  intros [= _ _ <-] _. apply moved_left in M2, M3. lia.
Qed.

(** Decoding returns; a message fits its header and takes bytes. *)
Lemma decode_run mb : good mb ->
  exists err m mb', rtcp_decode alloc_ok mb = Some ((err, m), mb') /\ moved mb mb' /\
    (err = 0 <-> is_Some m) /\
    (forall x, m = Some x -> fits (hdr x) (r x) /\ mbuf_get_left mb' < mbuf_get_left mb).
Proof.
  intros Hg. assert (Hno : forall (err : Z) mb', moved mb mb' -> err <> 0 ->
    exists (err' : Z) (m' : option rtcp_msg) mb'', Some (err, @None rtcp_msg, mb') = Some (err', m', mb'') /\
    moved mb mb'' /\ (err' = 0 <-> is_Some m') /\
    (forall x, m' = Some x -> fits (hdr x) (r x) /\ mbuf_get_left mb'' < mbuf_get_left mb)).
  { intros err mb' Hm He. do 3 eexists. split_and!; [done|done| |done]. split; [done|by intros [? ?]]. }
  pose proof (moved_refl mb) as Hr.
  unfold rtcp_decode, mbind, M_bind, gets, mret, M_ret.
  destruct (_ <? _); [by apply Hno|]. destruct (negb _); [by apply Hno|].
  destruct (safe_hdr mb Hg) as ([err h] & mb1 & E1 & M1 & Hlen). cbn in Hlen. rewrite E1.
  destruct (Z.eqb_spec err 0) as [->|]; cbn [negb]; [|by apply Hno].
  pose proof (hdr_progress _ _ _ _ Hg E1 eq_refl) as Hp.
  destruct (negb _); [by apply Hno|].
  destruct (Z.ltb_spec (mbuf_get_left mb1) (length_ h * 4)); [by apply Hno|].
  pose proof (moved_good _ _ Hg M1) as G1.
  destruct (safe_body h Hlen mb1 G1) as ([err b] & mb2 & -> & M2 & Hb); [done|]. cbn [fst snd] in Hb.
  pose proof (moved_trans _ _ _ M1 M2) as M12.
  destruct (Z.eqb_spec err 0) as [->|]; cbn [negb]; [|by apply Hno].
  destruct (safe_slurp (mb_pos mb) mb2 (moved_good _ _ Hg M12)) as (u & mb3 & -> & M3 & _).
  do 3 eexists. split_and!; [done|by eapply moved_trans|split; [by eexists|done]|]. intros x [= <-].
  split; [by apply Hb|]. apply moved_left in M2, M3. lia.
Qed.

End Safe.

(** Decoding an RTCP packet is memory safe: on every buffer that holds
    bytes, whatever they are, and whether or not memory can be allocated,
    [rtcp_decode] returns, reads inside the buffer only and moves the
    position forward to at most its end; without an error there is a
    message. *)
Theorem rtcp_decode_safe alloc_ok mb (Hg : good mb) :
  exists err m mb', rtcp_decode alloc_ok mb = Some ((err, m), mb') /\ moved mb mb' /\ good mb' /\
    (err = 0 <-> is_Some m).
Proof.
  destruct (decode_run alloc_ok mb Hg) as (err & m & mb' & E & Hm & He & _).
  do 3 eexists. split_and!; [done|done|by eapply moved_good|apply He..].
Qed.

Lemma rtcp_decode_safe_witness :
  let mb := mk_mbuf (Some (replicate 24 0x82)) 24 0 24 in
  exists err m mb', rtcp_decode (fun _ => true) mb = Some ((err, m), mb') /\ moved mb mb' /\ good mb' /\
    (err = 0 <-> is_Some m).
Proof.
  apply (rtcp_decode_safe (fun _ => true) (mk_mbuf (Some (replicate 24 0x82)) 24 0 24)).
  split; [zdec|]. by apply Forall_replicate.
Defined.
