(* ===== verification/RtcpRoundtrip.v ===== *)
(** * Round trip of RTCP packets

    The wire format of every kind of packet, and that encoding followed by
    decoding gives the packet back. *)

From S2P Require Import Prelude Effects Mbuf MbufProps Rtp Codec RtcpPkt RtcpPktProps.
Import Mb Rtp Rtcp.

(** ** The wire format *)

Definition u32v (v : Z) : Prop := 0 <= v < 2 ^ 32.

Record rr_ok (b : rtcp_rr) : Prop := {
  rro_ssrc : u32v (rr_ssrc b);
  rro_fraction : 0 <= fraction b < 256;
  rro_lost : - 2 ^ 23 <= lost b < 2 ^ 23;
  rro_seq : u32v (last_seq b);
  rro_jitter : u32v (rr_jitter b);
  rro_lsr : u32v (lsr b);
  rro_dlsr : u32v (dlsr b) }.

Definition wire_rr (b : rtcp_rr) : list Z :=
  be32 (rr_ssrc b) ++ be32 (fraction b * 2 ^ 24 + lost b mod 2 ^ 24) ++ be32 (last_seq b) ++
  be32 (rr_jitter b) ++ be32 (lsr b) ++ be32 (dlsr b).

Definition wire_rrs (l : list rtcp_rr) : list Z := concat (map wire_rr l).

(** An item with a length that fits; its text has no end. *)
Definition item_ok (i : rtcp_sdes_item) : Prop :=
  0 < it_type i < 256 /\ it_length i = zlen (it_data i) /\ zlen (it_data i) <= 255.

Definition wire_item (i : rtcp_sdes_item) : list Z := it_type i :: it_length i :: it_data i.

Definition chunk_ok (c : rtcp_sdes) : Prop :=
  u32v (sdes_src c) /\ itemv c <> [] /\ Forall item_ok (itemv c).

(** One to four zero bytes end a chunk. *)
Definition ends (n : Z) : nat := Z.to_nat (4 - n mod 4).

Lemma ends_fill n : (n + (4 - n mod 4)) mod 4 = 0.
Proof. dlia. Qed.

Definition wire_chunk (c : rtcp_sdes) : list Z :=
  let d := be32 (sdes_src c) ++ concat (map wire_item (itemv c)) in
  d ++ replicate (ends (zlen d)) 0.

Definition wire_gnack (g : Z * Z) : list Z := be16 g.1 ++ be16 g.2.
Definition gnack_ok (g : Z * Z) : Prop := 0 <= g.1 < 65536 /\ 0 <= g.2 < 65536.

Definition sli_word (s : Z * Z * Z) : Z := s.1.1 * 2 ^ 19 + s.1.2 * 2 ^ 6 + s.2.
Definition sli_ok (s : Z * Z * Z) : Prop :=
  0 <= s.1.1 < 2 ^ 13 /\ 0 <= s.1.2 < 2 ^ 13 /\ 0 <= s.2 < 2 ^ 6.

(** The zero bytes behind a packet. *)
Definition padding (n : Z) : nat := Z.to_nat (- n mod 4).

Lemma be32s_zlen l : zlen (concat (map be32 l)) = 4 * zlen l.
Proof.
  induction l as [|x l IH]; [done|]. cbn [map concat]. rewrite zlen_app, IH, be32_len.
  unfold zlen. cbn [length]. lia.
Qed.

Lemma wire_rr_len b : zlen (wire_rr b) = 24.
Proof. unfold wire_rr. rewrite !zlen_app, !be32_len. lia. Qed.

Lemma wire_rrs_len l : zlen (wire_rrs l) = 24 * zlen l.
Proof.
  unfold wire_rrs. induction l as [|b l IH]; [done|]. cbn [map concat].
  rewrite zlen_app, IH, wire_rr_len. unfold zlen. cbn [length]. lia.
Qed.

(** ** Encoding *)

Section Encode.
Context (alloc_ok : Z -> bool) (junk : Z -> Z) (Hmem : forall n, alloc_ok n = true).

Hint Resolve emits8 emits16 emits32 emits_mem emits_or emits_none : core.

Lemma rr_word b : rr_ok b ->
  u32 (Z.lor (Z.shiftl (fraction b) 24) (Z.land (lost b) 0x00ffffff))
  = fraction b * 2 ^ 24 + lost b mod 2 ^ 24.
Proof.
  intros [_ Hf _ _ _ _ _]. rewrite (land_mask _ _ 24), lor_add, u32_small by dlia. done.
Qed.

Lemma rr_emits b : rr_ok b -> emits (rtcp_rr_encode alloc_ok junk b) (wire_rr b).
Proof using Hmem.
  intros Hok. unfold rtcp_rr_encode, wire_rr. rewrite rr_word by done. rewrite !app_assoc. auto 10.
Qed.

Lemma all_emits v : emits (write_all alloc_ok junk v) (concat (map be32 v)).
Proof using Hmem. induction v as [|x v IH]; cbn [write_all map concat]; auto. Qed.

Lemma srcs_emits l pre :
  emits (write_srcs alloc_ok junk (length l) (pre ++ l) (zlen pre)) (concat (map be32 l)).
Proof using Hmem.
  revert pre. induction l as [|x l IH]; intros pre; cbn [write_srcs length map concat]; [auto|].
  assert (Hx : rd (pre ++ x :: l) (zlen pre) = Some x).
  { unfold rd, zlen. rewrite (proj2 (Z.leb_le _ _)) by lia.
    by rewrite Nat2Z.id, lookup_app_r, Nat.sub_diag by lia. }
  rewrite Hx. specialize (IH (pre ++ [x])). rewrite <- app_assoc, zlen_app in IH.
  change (zlen [x]) with 1 in IH. cbn [app] in IH.
  intros mb Hwf He Hs. unfold mbind, M_bind, of_option.
  apply (emits_stop _ _ _ _ (emits32 alloc_ok junk Hmem x) IH mb); done.
Qed.

(** The padding loops. *)
Lemma pad_appends at_ fuel start k p :
  at_ = mb_pos \/ at_ = mb_end -> (p + Z.of_nat k - start) mod 4 = 0 -> (k < 4)%nat -> (k < fuel)%nat ->
  appends p (pad_loop alloc_ok junk at_ fuel start 0) (replicate k 0) 0.
Proof using Hmem.
  intros Hat. revert fuel p. induction k as [|k IH]; intros [|fuel] p Hm Hk Hf; try lia.
  all: cbn [pad_loop]; apply appends_gets; [done|]; rewrite land3.
  - replace ((p - start) mod 4 =? 0) with true by dlia. apply appends_ret.
  - replace ((p - start) mod 4 =? 0) with false by dlia.
    change (replicate (S k) 0) with ([u8 0] ++ replicate k 0).
    eapply (appends_bind p); [by apply appends_emits, emits8|]. apply IH; try lia.
    change (zlen [u8 0]) with 1. by replace (p + 1 + Z.of_nat k) with (p + Z.of_nat (S k)) by lia.
Qed.

Definition item_arg (i : rtcp_sdes_item) : Z * option (list Z) := (it_type i, Some (it_data i)).

Lemma item_appends p i : item_ok i ->
  appends p (write8 alloc_ok junk (it_type i) |; write8 alloc_ok junk (Z.land (zlen (it_data i)) 0xff) |;
    write_mem alloc_ok junk (it_data i)) (wire_item i) 0.
Proof using Hmem.
  intros (Ht & Hl & Hn). apply appends_emits. unfold wire_item. rewrite Hl.
  pose proof (zlen_nonneg (it_data i)).
  change (it_type i :: zlen (it_data i) :: it_data i) with
    (([it_type i] ++ [zlen (it_data i)]) ++ it_data i).
  rewrite (land_mask _ _ 8), Z.mod_small by lia.
  rewrite <- (u8_small (it_type i)) at 2 by lia. rewrite <- (u8_small (zlen (it_data i))) at 2 by lia. auto.
Qed.

Lemma items_append p items : Forall item_ok items ->
  appends p (sdes_items alloc_ok junk (map item_arg items)) (concat (map wire_item items)) (0, true).
Proof using Hmem.
  intros Hok. revert p. induction Hok as [|i items Hi _ IH]; intros p; [apply appends_ret|].
  cbn [map concat item_arg sdes_items]. pose proof Hi as (_ & _ & Hn).
  replace (255 <? zlen (it_data i)) with false by lia.
  eapply appends_bind; [by apply item_appends|]. apply IH.
Qed.

Lemma replicate_ends n : replicate (ends n) 0 = [u8 RTCP_SDES_END] ++ replicate (pred (ends n)) 0.
Proof.
  pose proof (Z.mod_pos_bound n 4 ltac:(lia)). change (u8 RTCP_SDES_END) with 0.
  replace (ends n) with (S (pred (ends n))) at 1 by (unfold ends; lia). done.
Qed.

Lemma chunk_appends p c : chunk_ok c ->
  appends p (rtcp_sdes_encode alloc_ok junk (sdes_src c) (map item_arg (itemv c))) (wire_chunk c) 0.
Proof using Hmem.
  intros (Hsrc & Hne & Hok). unfold rtcp_sdes_encode.
  rewrite bool_decide_false by (intros E; by apply map_eq_nil in E).
  apply appends_pos. unfold wire_chunk. rewrite <- !app_assoc.
  eapply appends_bind; [apply appends_emits, emits32; done|].
  eapply appends_bind; [by apply items_append|]. cbn [negb]. rewrite replicate_ends.
  eapply appends_bind; [apply appends_emits, emits8; done|]. cbn [Z.lor].
  set (n := zlen (be32 (sdes_src c) ++ concat (map wire_item (itemv c)))).
  assert (Hn : n = zlen (be32 (sdes_src c)) + zlen (concat (map wire_item (itemv c)))) by apply zlen_app.
  pose proof (Z.mod_pos_bound n 4 ltac:(lia)). change (zlen [u8 RTCP_SDES_END]) with 1.
  apply pad_appends; [by left|..]; unfold ends; [|lia..].
  replace (p + zlen (be32 (sdes_src c)) + zlen (concat (map wire_item (itemv c))) + 1
    + Z.of_nat (pred (Z.to_nat (4 - n mod 4))) - p) with (n + (4 - n mod 4)) by lia. apply ends_fill.
Qed.

End Encode.

(** ** Decoding *)

(** The value of a program does not depend on how its bytes are grouped. *)
Lemma reads_eq {A} p (m : M mbuf A) d d' a : d = d' -> reads p m d a -> reads p m d' a.
Proof. by intros ->. Qed.

(** A last step that reads nothing. *)
Lemma reads_last {A B} p (m : M mbuf A) (f : A -> M mbuf B) d a b :
  reads p m d a -> f a = mret b -> reads p (m ≫= f) d b.
Proof.
  intros Hm Hf. rewrite <- (app_nil_r d). eapply reads_bind; [done|]. rewrite Hf. apply reads_ret.
Qed.

Lemma rr_reads p b : rr_ok b -> reads p rtcp_rr_decode (wire_rr b) (Some b).
Proof.
  intros Hok. pose proof Hok as [H1 H2 H3 H4 H5 H6 H7]. unfold rtcp_rr_decode, wire_rr.
  apply reads_guard; [fold (wire_rr b); rewrite wire_rr_len; done|].
  eapply reads_bind; [by apply reads32|]. eapply reads_bind; [apply reads32; dlia|].
  eapply reads_bind; [by apply reads32|]. eapply reads_bind; [by apply reads32|].
  eapply reads_bind; [by apply reads32|]. eapply reads_last; [by apply reads32|].
  rewrite Z.shiftr_div_pow2, (land_mask _ _ 24) by done. unfold i24.
  replace ((fraction b * 2 ^ 24 + lost b mod 2 ^ 24) / 2 ^ 24) with (fraction b) by dlia.
  replace (((fraction b * 2 ^ 24 + lost b mod 2 ^ 24) mod 2 ^ 24 + 2 ^ 23) mod 2 ^ 24 - 2 ^ 23)
    with (lost b) by dlia. by destruct b.
Qed.

Lemma rr_loop_reads l p out : Forall rr_ok l ->
  reads p (rr_loop (length l) out) (wire_rrs l) (0, out ++ l).
Proof.
  intros Hok. revert p out. induction Hok as [|b l Hb _ IH]; intros p out; cbn [rr_loop length].
  - rewrite app_nil_r. apply reads_ret.
  - unfold wire_rrs. cbn [map concat]. eapply reads_bind; [by apply rr_reads|]. cbv beta iota.
    replace (out ++ b :: l) with ((out ++ [b]) ++ l) by (by rewrite <- app_assoc). apply IH.
Qed.


Section Decode.
Context (alloc_ok : Z -> bool) (Hmem : forall n, alloc_ok n = true).

Lemma items_reads items fuel p out : Forall item_ok items -> (length items < fuel)%nat ->
  reads p (sdes_loop alloc_ok fuel out) (concat (map wire_item items) ++ [0]) (0, out ++ items).
Proof using Hmem.
  intros Hok. revert fuel p out. induction Hok as [|i items (Ht & Hl & Hn) _ IH]; intros [|fuel] p out Hf;
    cbn [length] in Hf; try lia; cbn [sdes_loop map concat app].
  - apply reads_guard; [done|]. rewrite app_nil_r. eapply reads_last; [apply reads_u8|]. done.
  - unfold wire_item at 1. cbn [app]. pose proof (zlen_nonneg (it_data i)).
    apply reads_guard; [unfold RTCP_SDES_MIN_SIZE, zlen; cbn [length]; lia|].
    eapply (reads_bind p _ _ [it_type i]); [apply reads_u8|].
    unfold RTCP_SDES_END at 1. replace (it_type i =? 0) with false by lia.
    apply reads_guard; [unfold zlen; cbn [length]; lia|]. rewrite Hmem. cbn [negb].
    eapply (reads_bind _ _ _ [it_length i]); [apply reads_u8|]. rewrite <- app_assoc.
    apply reads_guard; [rewrite Hl, !zlen_app; pose proof (zlen_nonneg (concat (map wire_item items)));
      pose proof (zlen_nonneg [0]); lia|].
    rewrite Hmem. cbn [negb]. rewrite Hl. eapply reads_bind; [apply reads_mem|]. cbv beta iota.
    replace (out ++ i :: items) with
      ((out ++ [mk_item (it_type i) (zlen (it_data i)) (it_data i)]) ++ items).
    + apply IH. lia.
    + rewrite <- app_assoc. cbn [app]. rewrite <- Hl. by destruct i.
Qed.

Lemma items_len items : Z.of_nat (length items) <= zlen (concat (map wire_item items)).
Proof.
  induction items as [|i items IH]; [done|]. cbn [map concat]. rewrite zlen_app. unfold zlen in *.
  cbn [length wire_item]. lia.
Qed.

Lemma chunk_reads p c : chunk_ok c -> reads p (rtcp_sdes_decode alloc_ok) (wire_chunk c) (0, c).
Proof using Hmem.
  intros (Hsrc & Hne & Hok). unfold rtcp_sdes_decode, wire_chunk.
  set (d := concat (map wire_item (itemv c))). rewrite <- app_assoc, replicate_ends.
  set (n := zlen (be32 (sdes_src c) ++ d)). pose proof (zlen_nonneg d).
  assert (Hn : n = 4 + zlen d) by (unfold n; by rewrite zlen_app).
  pose proof (Z.mod_pos_bound n 4 ltac:(lia)).
  apply reads_guard; [rewrite zlen_app, be32_len; unfold RTCP_SRC_SIZE;
    pose proof (zlen_nonneg (d ++ [u8 RTCP_SDES_END] ++ replicate (pred (ends n)) 0)); lia|].
  apply reads_pos. eapply reads_bind; [by apply reads32|]. apply reads_left. intros l Hl.
  rewrite app_assoc, zlen_app in Hl. rewrite app_assoc. pose proof (zlen_nonneg (replicate (pred (ends n)) 0)).
  eapply reads_bind; [apply items_reads; [done|]|].
  { pose proof (items_len (itemv c)) as Hi. fold d in Hi. rewrite zlen_app in Hl. pose proof (zlen_nonneg [u8 RTCP_SDES_END]). lia. }
  cbn [negb Z.eqb app]. eapply reads_last; [|by destruct c].
  apply slurp_reads; unfold ends; [|lia..]. rewrite be32_len, zlen_app. fold d.
  change (zlen [u8 RTCP_SDES_END]) with 1.
  replace (p + 4 + (zlen d + 1) + Z.of_nat (pred (Z.to_nat (4 - n mod 4))) - p)
    with (n + (4 - n mod 4)) by lia. apply ends_fill.
Qed.

Lemma chunks_read cs p out : Forall chunk_ok cs ->
  reads p (sdes_chunks alloc_ok (length cs) out) (concat (map wire_chunk cs)) (0, out ++ cs).
Proof using Hmem.
  intros Hok. revert p out. induction Hok as [|c cs Hc _ IH]; intros p out; cbn [sdes_chunks length map concat].
  - rewrite app_nil_r. apply reads_ret.
  - eapply reads_bind; [by apply chunk_reads|]. cbn [negb Z.eqb].
    replace (out ++ c :: cs) with ((out ++ [c]) ++ cs) by (by rewrite <- app_assoc). apply IH.
Qed.

Lemma srcs_read l p out : Forall u32v l ->
  reads p (read_srcs (length l) out) (concat (map be32 l)) (out ++ l).
Proof.
  intros Hok. revert p out. induction Hok as [|x l Hx _ IH]; intros p out; cbn [read_srcs length map concat].
  - rewrite app_nil_r. apply reads_ret.
  - eapply reads_bind; [by apply reads32|].
    replace (out ++ x :: l) with ((out ++ [x]) ++ l) by (by rewrite <- app_assoc). apply IH.
Qed.

Lemma gnacks_read l p out : Forall gnack_ok l ->
  reads p (read_gnacks (length l) out) (concat (map wire_gnack l)) (out ++ l).
Proof.
  intros Hok. revert p out. induction Hok as [|[x y] l [Hx Hy] _ IH]; intros p out;
    cbn [read_gnacks length map concat].
  - rewrite app_nil_r. apply reads_ret.
  - unfold wire_gnack. rewrite <- app_assoc. eapply reads_bind; [by apply reads16|].
    eapply reads_bind; [by apply reads16|]. cbn [fst snd].
    replace (out ++ (x, y) :: l) with ((out ++ [(x, y)]) ++ l) by (by rewrite <- app_assoc). apply IH.
Qed.

Lemma slis_read l p out : Forall sli_ok l ->
  reads p (read_slis (length l) out) (concat (map (fun s => be32 (sli_word s)) l)) (out ++ l).
Proof.
  intros Hok. revert p out. induction Hok as [|[[x y] z] l (Hx & Hy & Hz) _ IH]; intros p out;
    cbn [read_slis length map concat].
  - rewrite app_nil_r. apply reads_ret.
  - unfold sli_word. cbn [fst snd] in *. eapply reads_bind; [apply reads32; lia|].
    rewrite !Z.shiftr_div_pow2, !(land_mask _ 0x1fff 13), (land_mask _ 0x003f 6) by done.
    replace ((x * 2 ^ 19 + y * 2 ^ 6 + z) / 2 ^ 19 mod 2 ^ 13) with x by dlia.
    replace ((x * 2 ^ 19 + y * 2 ^ 6 + z) / 2 ^ 6 mod 2 ^ 13) with y by dlia.
    replace ((x * 2 ^ 19 + y * 2 ^ 6 + z) / 2 ^ 0 mod 2 ^ 6) with z by dlia.
    replace (out ++ (x, y, z) :: l) with ((out ++ [(x, y, z)]) ++ l) by (by rewrite <- app_assoc). apply IH.
Qed.

End Decode.

(** ** Packets that can be sent

    [sent count a b w]: the arguments [a] of [rtcp_encode] stand for the
    message body [b], whose bytes are [w]; the handlers append the blocks. *)

Inductive sent : Z -> rtcp_args -> rtcp_body -> list Z -> Prop :=
| sent_sr x1 x2 x3 x4 x5 x6 m l :
    Forall u32v [x1; x2; x3; x4; x5; x6] -> Forall rr_ok l ->
    (forall p, appends p m (wire_rrs l) 0) ->
    sent (zlen l) (a_sr [x1; x2; x3; x4; x5; x6] (Some m)) (sr x1 x2 x3 x4 x5 x6 l)
      (concat (map be32 [x1; x2; x3; x4; x5; x6]) ++ wire_rrs l)
| sent_rr x m l :
    u32v x -> Forall rr_ok l -> (forall p, appends p m (wire_rrs l) 0) ->
    sent (zlen l) (a_rr x (Some m)) (rr x l) (be32 x ++ wire_rrs l)
| sent_sdes m cs :
    cs <> [] -> Forall chunk_ok cs -> (forall p, appends p m (concat (map wire_chunk cs)) 0) ->
    sent (zlen cs) (a_sdes (Some m)) (sdesv cs) (concat (map wire_chunk cs))
| sent_bye l :
    Forall u32v l -> sent (zlen l) (a_bye l None) (bye l None) (concat (map be32 l))
| sent_bye_reason l s :
    Forall u32v l -> zlen s <= 255 ->
    sent (zlen l) (a_bye l (Some s)) (bye l (Some s)) (concat (map be32 l) ++ zlen s :: s)
| sent_app count x name :
    u32v x -> zlen name = 4 -> sent count (a_app x name None) (app_ x name None) (be32 x ++ name)
| sent_app_data count x name d :
    u32v x -> zlen name = 4 -> d <> [] -> zlen d mod 4 = 0 ->
    sent count (a_app x name (Some d)) (app_ x name (Some d)) ((be32 x ++ name) ++ d)
| sent_fir count x : u32v x -> sent count (a_fir x) (fir x) (be32 x)
| sent_nack count x y z :
    u32v x -> 0 <= y < 65536 -> 0 <= z < 65536 ->
    sent count (a_nack x y z) (nack x y z) ((be32 x ++ be16 y) ++ be16 z)
| sent_gnack x y m l :
    u32v x -> u32v y -> Forall gnack_ok l ->
    (forall p, appends p m (concat (map wire_gnack l)) 0) ->
    sent RTCP_RTPFB_GNACK (a_rtpfb x y (Some m)) (fb x y (zlen l) (gnackv l))
      ((be32 x ++ be32 y) ++ concat (map wire_gnack l))
| sent_pli x y :
    u32v x -> u32v y -> sent RTCP_PSFB_PLI (a_psfb x y None) (fb x y 0 fci_null) ((be32 x ++ be32 y) ++ [])
| sent_sli x y m l :
    u32v x -> u32v y -> Forall sli_ok l ->
    (forall p, appends p m (concat (map (fun s => be32 (sli_word s)) l)) 0) ->
    sent RTCP_PSFB_SLI (a_psfb x y (Some m)) (fb x y (zlen l) (sliv l))
      ((be32 x ++ be32 y) ++ concat (map (fun s => be32 (sli_word s)) l)).

(** The header and the whole packet. *)
Definition packet_words (w : list Z) : Z := (zlen w + Z.of_nat (padding (zlen w))) / 4.

Definition packet_hdr (count : Z) (a : rtcp_args) (w : list Z) : rtcp_hdr :=
  mk_rhdr RTCP_VERSION 0 count (args_type a) (packet_words w).

Definition wire_hdr (h : rtcp_hdr) : list Z := [0x80 + count h; pt h] ++ be16 (length_ h).

Definition wire_packet (count : Z) (a : rtcp_args) (w : list Z) : list Z :=
  wire_hdr (packet_hdr count a w) ++ w ++ replicate (padding (zlen w)) 0.

Lemma packet_words_4 w : packet_words w * 4 = zlen w + Z.of_nat (padding (zlen w)).
Proof. unfold packet_words, padding. pose proof (zlen_nonneg w). dlia. Qed.

Lemma fours_len {A} (f : A -> list Z) l : (forall x, zlen (f x) = 4) -> zlen (concat (map f l)) = 4 * zlen l.
Proof.
  intros Hf. induction l as [|x l IH]; [done|]. cbn [map concat]. rewrite zlen_app, IH, Hf.
  unfold zlen. cbn [length]. lia.
Qed.

Section Send.
Context (alloc_ok : Z -> bool) (junk : Z -> Z) (Hmem : forall n, alloc_ok n = true).

Hint Resolve emits8 emits16 emits32 emits_mem emits_or emits_none all_emits : core.

Lemma body_appends count a b w p : sent count a b w ->
  appends p (encode_body alloc_ok junk count a) w 0.
Proof using Hmem.
  destruct 1 as [x1 x2 x3 x4 x5 x6 m l _ _ Hm|x m l _ _ Hm|m cs _ _ Hm|l _|l s _ Hs|count x name Hx Hn
    |count x name d Hx Hn Hd Hd4|count x|count x y z|x y m l _ _ _ Hm|x y|x y m l _ _ _ Hm]; cbn [encode_body call].
  - eapply appends_or; [by apply appends_emits, all_emits|done].
  - eapply appends_or; [by apply appends_emits, emits32|done].
  - done.
  - unfold zlen. rewrite Nat2Z.id, <- (app_nil_r (concat _)). eapply appends_or; [|apply appends_ret].
    by apply appends_emits, (srcs_emits alloc_ok junk Hmem l []).
  - unfold zlen at 1. rewrite Nat2Z.id. eapply appends_or;
      [by apply appends_emits, (srcs_emits alloc_ok junk Hmem l [])|].
    apply appends_emits. change (zlen s :: s) with ([zlen s] ++ s). pose proof (zlen_nonneg s).
    rewrite <- (u8_small (zlen s)) at 2 by lia. auto.
  - rewrite slice_some by lia. rewrite take_ge by (rewrite length_drop; unfold zlen in Hn; lia).
    rewrite drop_0. eapply appends_last; [|done]. apply appends_emits, emits_or; [auto|].
    intros mb. apply (emits_mem alloc_ok junk Hmem name mb).
  - rewrite slice_some by lia. rewrite take_ge by (rewrite length_drop; unfold zlen in Hn; lia).
    rewrite drop_0, Hd4. cbn [Z.eqb negb]. eapply appends_bind.
    + apply appends_emits, emits_or; [auto|]. intros mb. apply (emits_mem alloc_ok junk Hmem name mb).
    + eapply appends_last; [|done]. by apply appends_emits, emits_mem.
  - by apply appends_emits, emits32.
  - apply appends_emits. auto.
  - eapply appends_or; [|done]. apply appends_emits. auto.
  - eapply appends_or; [|apply appends_ret]. apply appends_emits. auto.
  - eapply appends_or; [|done]. apply appends_emits. auto.
Qed.

End Send.

Section Receive.
Context (alloc_ok : Z -> bool) (Hmem : forall n, alloc_ok n = true).

Lemma rr_body_reads p n l (f : list rtcp_rr -> rtcp_body) : n = zlen l -> Forall rr_ok l ->
  reads p ('(err, v) ← rr_loop (Z.to_nat n) []; mret (err, f v)) (wire_rrs l) (0, f l).
Proof.
  intros -> Hl. unfold zlen. rewrite Nat2Z.id. eapply reads_last; [by apply rr_loop_reads|]. done.
Qed.

Lemma bye_reads p h l : count h = zlen l -> length_ h * 4 = 4 * zlen l -> pt h = RTCP_BYE -> Forall u32v l ->
  reads p (decode_body alloc_ok h) (concat (map be32 l)) (0, bye l None).
Proof using Hmem.
  intros Hc Hn Hp Hl. unfold decode_body. rewrite Hp. cbn [Z.eqb RTCP_SR RTCP_RR RTCP_SDES RTCP_BYE Pos.eqb].
  rewrite Hmem. cbn [negb]. apply reads_guard; [rewrite be32s_zlen; lia|].
  rewrite Hc at 1. unfold zlen at 1. rewrite Nat2Z.id. eapply reads_last; [by apply srcs_read|].
  by replace (count h * 4 <? length_ h * 4) with false by lia.
Qed.

Lemma bye_reason_reads p h l s : count h = zlen l -> 4 * zlen l < length_ h * 4 -> pt h = RTCP_BYE ->
  Forall u32v l ->
  reads p (decode_body alloc_ok h) (concat (map be32 l) ++ zlen s :: s) (0, bye l (Some s)).
Proof using Hmem.
  intros Hc Hn Hp Hl. unfold decode_body. rewrite Hp. cbn [Z.eqb RTCP_SR RTCP_RR RTCP_SDES RTCP_BYE Pos.eqb].
  pose proof (zlen_nonneg (zlen s :: s)). pose proof (zlen_nonneg s).
  rewrite Hmem. cbn [negb]. apply reads_guard; [rewrite zlen_app, be32s_zlen; lia|].
  rewrite Hc at 1. unfold zlen at 1. rewrite Nat2Z.id. eapply reads_bind; [by apply srcs_read|].
  replace (count h * 4 <? length_ h * 4) with true by lia. cbn [app].
  eapply (reads_bind _ _ _ [zlen s]); [apply reads_u8|]. apply reads_guard; [done|].
  eapply (reads_last _ _ _ _ (0, Some s)); [|done].
  intros mb rest Hmp Hav. unfold mbuf_strdup. rewrite Hmem. cbn [negb].
  pose proof (reads_mem _ s mb rest Hmp Hav) as E. unfold read_mem in E. by rewrite E.
Qed.

Lemma app_reads p h x name d : pt h = RTCP_APP -> u32v x -> zlen name = 4 ->
  length_ h * 4 = 8 + zlen (default [] d) -> d <> Some [] ->
  reads p (decode_body alloc_ok h) ((be32 x ++ name) ++ default [] d) (0, app_ x name d).
Proof using Hmem.
  intros Hp Hx Hname Hlen Hd. unfold decode_body. rewrite Hp.
  cbn [Z.eqb RTCP_SR RTCP_RR RTCP_SDES RTCP_BYE RTCP_APP Pos.eqb].
  apply reads_guard; [rewrite !zlen_app, be32_len, Hname; unfold RTCP_APP_SIZE;
    pose proof (zlen_nonneg (default [] d)); lia|].
  rewrite <- app_assoc. eapply reads_bind; [by apply reads32|]. rewrite <- Hname at 1.
  eapply reads_bind; [apply reads_mem|]. cbv beta iota. unfold RTCP_APP_SIZE at 1.
  destruct d as [d|]; cbn [default id] in *.
  - assert (0 < zlen d) by (destruct d; [done|unfold zlen; cbn [length]; lia]).
    replace (8 <? length_ h * 4) with true by lia. rewrite Hmem. cbn [negb].
    apply reads_guard; [unfold RTCP_APP_SIZE; lia|].
    replace (length_ h * 4 - RTCP_APP_SIZE) with (zlen d) by (unfold RTCP_APP_SIZE; lia).
    eapply reads_last; [apply reads_mem|done].
  - replace (8 <? length_ h * 4) with false by (change (zlen (@nil Z)) with 0 in Hlen; lia). apply reads_ret.
Qed.

(** A feedback packet, whose information is read by the given decoder. *)
Lemma fb_reads p h x y f w : (pt h = RTCP_RTPFB \/ pt h = RTCP_PSFB) -> u32v x -> u32v y ->
  2 <= length_ h ->
  (forall q, reads q (if pt h =? RTCP_RTPFB then rtcp_rtpfb_decode alloc_ok (count h) (length_ h - 2)
                      else rtcp_psfb_decode alloc_ok (count h) (length_ h - 2)) w (0, f)) ->
  reads p (decode_body alloc_ok h) ((be32 x ++ be32 y) ++ w) (0, fb x y (length_ h - 2) f).
Proof.
  intros Hp Hx Hy Hlen Hf. unfold decode_body.
  assert (Hno : forall t, t <> RTCP_RTPFB -> t <> RTCP_PSFB -> (pt h =? t) = false) by (intros; lia).
  rewrite !Hno by done. replace ((pt h =? RTCP_RTPFB) || (pt h =? RTCP_PSFB)) with true by lia.
  apply reads_guard; [rewrite !zlen_app, !be32_len; unfold RTCP_FB_SIZE; pose proof (zlen_nonneg w); lia|].
  replace (length_ h <? 2) with false by lia. rewrite <- app_assoc.
  eapply reads_bind; [by apply reads32|]. eapply reads_bind; [by apply reads32|].
  eapply reads_last; [apply Hf|done].
Qed.

Lemma words_of_4 w n : zlen w = 4 * n -> packet_words w = n.
Proof. intros E. unfold packet_words, padding. rewrite E. dlia. Qed.

(** The same for the header of a packet with [n] words of information. *)
Lemma fb_body_reads p count a x y f w n :
  (args_type a = RTCP_RTPFB \/ args_type a = RTCP_PSFB) -> u32v x -> u32v y -> 0 <= n -> zlen w = 4 * n ->
  let h := packet_hdr count a ((be32 x ++ be32 y) ++ w) in
  (forall q, reads q (if pt h =? RTCP_RTPFB then rtcp_rtpfb_decode alloc_ok (Rtcp.count h) n
                      else rtcp_psfb_decode alloc_ok (Rtcp.count h) n) w (0, f)) ->
  reads p (decode_body alloc_ok h) ((be32 x ++ be32 y) ++ w) (0, fb x y n f).
Proof.
  intros Ha Hx Hy Hn Hw h Hf.
  assert (Hlen : length_ h = 2 + n).
  { unfold h. cbn [packet_hdr length_]. apply words_of_4. rewrite !zlen_app, !be32_len. lia. }
  replace n with (length_ h - 2) in Hf |- * by lia. apply fb_reads; [done|done|done|lia|done].
Qed.

Lemma body_reads count a b w p : sent count a b w ->
  reads p (decode_body alloc_ok (packet_hdr count a w)) w (0, b).
Proof using Hmem.
  intros Hsent. pose proof (packet_words_4 w) as Hw.
  destruct Hsent as [x1 x2 x3 x4 x5 x6 m l Hx Hl _|x m l Hx Hl _|m cs Hne Hcs _|l Hl|l s Hl Hs
    |count x name Hx Hn|count x name d Hx Hn Hd Hd4|count x Hx|count x y z Hx Hy Hz|x y m l Hx Hy Hl _
    |x y Hx Hy|x y m l Hx Hy Hl _].
  - unfold decode_body. cbn [packet_hdr pt args_type Z.eqb RTCP_SR Pos.eqb count].
    apply reads_guard; [rewrite zlen_app, be32s_zlen; unfold RTCP_SRC_SIZE, RTCP_SR_SIZE;
      pose proof (zlen_nonneg (wire_rrs l)); change (zlen [x1; x2; x3; x4; x5; x6]) with 6; lia|].
    cbn [map concat]. rewrite <- !app_assoc. rewrite !Forall_cons in Hx. destruct Hx as (? & ? & ? & ? & ? & ? & _).
    do 6 (eapply reads_bind; [by apply reads32|]). rewrite Hmem. cbn [negb]. by apply rr_body_reads.
  - unfold decode_body. cbn [packet_hdr pt args_type Z.eqb RTCP_SR RTCP_RR Pos.eqb count].
    apply reads_guard; [rewrite zlen_app, be32_len; unfold RTCP_SRC_SIZE;
      pose proof (zlen_nonneg (wire_rrs l)); lia|].
    eapply reads_bind; [by apply reads32|]. rewrite Hmem. cbn [negb]. by apply rr_body_reads.
  - unfold decode_body. cbn [packet_hdr pt args_type Z.eqb RTCP_SR RTCP_RR RTCP_SDES Pos.eqb count].
    destruct (Z.eqb_spec (zlen cs) 0) as [E|_]; [destruct cs; [done|unfold zlen in E; cbn in E; lia]|].
    rewrite Hmem. cbn [negb]. unfold zlen at 1. rewrite Nat2Z.id. eapply reads_last; [by apply chunks_read|done].
  - apply bye_reads; try done. cbn [packet_hdr length_]. rewrite Hw, be32s_zlen. unfold padding.
    dlia.
  - apply bye_reason_reads; try done. cbn [packet_hdr length_]. rewrite Hw, zlen_app, be32s_zlen, zlen_cons.
    pose proof (zlen_nonneg s). lia.
  - rewrite <- (app_nil_r (be32 x ++ name)). apply (app_reads p _ x name None); try done.
    cbn [packet_hdr length_ default]. rewrite app_nil_r. rewrite (words_of_4 _ 2); [done|].
    rewrite zlen_app, be32_len, Hn. done.
  - apply (app_reads p _ x name (Some d)); try done; [|by intros [= ->]].
    cbn [packet_hdr length_ default id]. rewrite (words_of_4 _ (2 + zlen d / 4)); [dlia|].
    rewrite !zlen_app, be32_len, Hn. dlia.
  - unfold decode_body. cbn [packet_hdr pt args_type Z.eqb RTCP_SR RTCP_RR RTCP_SDES RTCP_BYE RTCP_APP RTCP_FIR Pos.eqb].
    apply reads_guard; [done|]. eapply reads_last; [by apply reads32|done].
  - unfold decode_body. cbn [packet_hdr pt args_type Z.eqb RTCP_SR RTCP_RR RTCP_SDES RTCP_BYE RTCP_APP RTCP_FIR
      RTCP_NACK Pos.eqb]. apply reads_guard; [done|]. rewrite <- app_assoc.
    eapply reads_bind; [by apply reads32|]. eapply reads_bind; [by apply reads16|].
    eapply reads_last; [by apply reads16|done].
  - apply (fb_body_reads p _ _ x y _ _ (zlen l)); try done; [by left|apply zlen_nonneg| |].
    { rewrite (fours_len wire_gnack) by done. done. }
    intros q. cbn [packet_hdr pt args_type count]. unfold rtcp_rtpfb_decode. cbn [Z.eqb RTCP_RTPFB_GNACK Pos.eqb RTCP_RTPFB].
    rewrite Hmem. cbn [negb]. apply reads_guard; [rewrite (fours_len wire_gnack) by done; unfold GNACK_SIZE; lia|].
    unfold zlen at 1. rewrite Nat2Z.id. eapply reads_last; [by apply gnacks_read|done].
  - apply (fb_body_reads p _ _ x y _ _ 0); try done; [by right|].
    intros q. cbn [packet_hdr pt args_type count]. apply reads_ret.
  - apply (fb_body_reads p _ _ x y _ _ (zlen l)); try done; [by right|apply zlen_nonneg| |].
    { rewrite (fours_len (fun s => be32 (sli_word s))) by done. done. }
    intros q. cbn [packet_hdr pt args_type count]. unfold rtcp_psfb_decode.
    cbn [Z.eqb RTCP_PSFB_PLI RTCP_PSFB_SLI Pos.eqb RTCP_RTPFB RTCP_PSFB].
    rewrite Hmem. cbn [negb]. apply reads_guard;
      [rewrite (fours_len (fun s => be32 (sli_word s))) by done; unfold SLI_SIZE; lia|].
    unfold zlen at 1. rewrite Nat2Z.id. eapply reads_last; [by apply slis_read|done].
Qed.

Lemma hdr_reads p h : version h = RTCP_VERSION -> Rtcp.p h = 0 -> 0 <= count h < 32 -> 0 <= length_ h < 65536 ->
  reads p rtcp_hdr_decode (wire_hdr h) (0, h).
Proof.
  intros Hv Hpad Hc Hl. unfold rtcp_hdr_decode, wire_hdr. cbn [app].
  apply reads_guard; [done|]. eapply (reads_bind p _ _ [_]); [apply reads_u8|].
  eapply (reads_bind _ _ _ [_]); [apply reads_u8|]. eapply reads_last; [by apply reads16|].
  rewrite !Z.shiftr_div_pow2, (land_mask _ 0x3 2), (land_mask _ 0x1 1), (land_mask _ 0x1f 5) by done.
  replace ((0x80 + count h) / 2 ^ 6 mod 2 ^ 2) with 2 by dlia.
  replace ((0x80 + count h) / 2 ^ 5 mod 2 ^ 1) with 0 by dlia.
  replace ((0x80 + count h) / 2 ^ 0 mod 2 ^ 5) with (count h) by dlia.
  destruct h; cbn in *; by subst.
Qed.

(** A packet whose body is known by a property. *)
Lemma packet_reads_to count a w p (Q : rtcp_body -> Prop) :
  (forall q, reads_to q (decode_body alloc_ok (packet_hdr count a w)) w (fun r => r.1 = 0 /\ Q r.2)) ->
  0 <= count < 32 -> packet_words w < 65536 ->
  reads_to p (rtcp_decode alloc_ok) (wire_packet count a w)
    (fun r => exists b, r = (0, Some (mk_msg (packet_hdr count a w) b)) /\ Q b).
Proof using Hmem.
  intros Hb Hc Hw. unfold rtcp_decode, wire_packet. pose proof (zlen_nonneg w).
  pose proof (packet_words_4 w) as H4.
  assert (Hn : zlen (w ++ replicate (padding (zlen w)) 0) = packet_words w * 4).
  { rewrite zlen_app, H4. unfold zlen at 2. by rewrite length_replicate. }
  apply reads_to_guard; [rewrite zlen_app, Hn; unfold wire_hdr; rewrite zlen_app, be16_len;
    change (zlen [_; _]) with 2; unfold RTCP_HDR_SIZE; lia|].
  rewrite Hmem. cbn [negb]. apply reads_to_pos.
  eapply reads_to_after; [apply hdr_reads; cbn [packet_hdr version Rtcp.p Rtcp.count length_]; done || lia|].
  cbn [negb Z.eqb packet_hdr version RTCP_VERSION Pos.eqb length_].
  apply reads_to_guard; [rewrite Hn; done|].
  eapply reads_to_bind; [apply Hb|]. intros [e b] [He Hq]. cbn [fst snd] in He, Hq. subst e. cbn [negb Z.eqb].
  eapply reads_to_last; [|intros [] _; eexists; split; [done|]; by exists b].
  assert (Hpad : 0 <= - zlen w mod 4 < 4) by (apply Z.mod_pos_bound; lia).
  apply (reads_to_eq _ _ _ tt), slurp_reads; unfold padding; [|lia..]. unfold wire_hdr. rewrite zlen_app, be16_len.
  change (zlen [_; _]) with 2.
  replace (p + (2 + 2) + zlen w + Z.of_nat (Z.to_nat (- zlen w mod 4)) - p)
    with (4 + zlen w + - zlen w mod 4) by lia. clear. dlia.
Qed.

Lemma packet_reads count a b w p : sent count a b w -> 0 <= count < 32 -> packet_words w < 65536 ->
  reads p (rtcp_decode alloc_ok) (wire_packet count a w)
    (0, Some (mk_msg (packet_hdr count a w) b)).
Proof using Hmem.
  intros Hs Hc Hw mb rest Hp Hav. destruct (packet_reads_to count a w p (eq b)) with (mb := mb) (rest := rest) as (r & E & b' & -> & <-); try done.
  intros q mb' rest' Hp' Hav'. exists (0, b). split; [|done]. by apply (body_reads count a b w q Hs mb' rest').
Qed.

(** Application layer feedback: the information is a view of the packet. *)
Definition holds_bytes (b : mbuf) (d : list Z) : Prop := mbuf_get_left b = zlen d /\ slice (bytes b) (mb_pos b) (zlen d) = Some d.

Lemma afb_reads q d : zlen d mod 4 = 0 ->
  reads_to q (rtcp_psfb_decode alloc_ok RTCP_PSFB_AFB (zlen d / 4)) d (fun r => exists b, r = (0, afb b) /\ holds_bytes b d).
Proof using Hmem.
  intros H4. unfold rtcp_psfb_decode. cbn [Z.eqb Pos.eqb RTCP_PSFB_AFB RTCP_PSFB_PLI RTCP_PSFB_SLI].
  replace (zlen d / 4 * 4) with (zlen d) by dlia. apply reads_to_guard; [done|].
  intros mb rest Hp Hav. unfold mbuf_alloc_ref, mbind, M_bind, gets. rewrite Hmem. cbn [id mret M_ret modify].
  pose proof Hav as (Hwf & Hs & He). rewrite zlen_app in Hs, He. pose proof (zlen_nonneg d). pose proof (zlen_nonneg rest). pose proof Hwf as (_ & Hp0 & Hse & Hsz).
  apply avail_split in Hav as [(_ & Hsd & _) _].
  rewrite (usz_small (mb_pos mb + zlen d)) by lia. eexists. split; [unfold mbuf_advance; rewrite usz_small by lia; by rewrite Hp|].
  eexists. split; [done|]. split; [unfold mbuf_get_left; cbn; case_match; lia|exact Hsd].
Qed.

End Receive.

(** ** The whole packet *)

(** The packet [d] stands at the position of [mb] and ends the buffer; what
    was in front of it is kept. *)
Definition placed (mb mb' : mbuf) (d : list Z) : Prop :=
  mb_wf mb' /\ mb_pos mb' = mb_pos mb + zlen d /\ mb_end mb' = mb_pos mb' /\
  slice (bytes mb') (mb_pos mb) (zlen d) = Some d /\ mb_size mb <= mb_size mb' /\
  forall i n, 0 <= i -> 0 <= n -> i + n <= mb_pos mb -> slice (bytes mb') i n = slice (bytes mb) i n.

Lemma hdr_emits alloc_ok junk (Hmem : forall n, alloc_ok n = true) count a w :
  0 <= count < 32 -> 0 <= args_type a < 256 -> 0 <= packet_words w < 65536 ->
  emits (rtcp_hdr_encode alloc_ok junk count (args_type a) (packet_words w))
    (wire_hdr (packet_hdr count a w)).
Proof.
  intros Hc Ha Hw. unfold rtcp_hdr_encode, wire_hdr. cbn [packet_hdr Rtcp.count pt length_].
  rewrite (u8_small count) by lia. rewrite lor_add by lia.
  change (RTCP_VERSION * 2 ^ 6) with 0x80.
  change [0x80 + count; args_type a] with ([0x80 + count] ++ [args_type a]).
  rewrite <- (u8_small (0x80 + count)) at 2 by lia. rewrite <- (u8_small (args_type a)) at 2 by lia.
  auto using emits_or, emits8, emits16.
Qed.

(** Skipping the header leaves room for it. *)
Lemma skip_hdr mb : mb_wf mb -> mb_pos mb + 4 <= mb_size mb ->
  let mb1 := set_pos (usz (mb_pos mb + 4)) (set_end (usz (mb_pos mb + 4)) mb) in
  mb_wf mb1 /\ mb_pos mb1 = mb_pos mb + 4 /\ mb_end mb1 = mb_pos mb + 4 /\
  mb_size mb1 = mb_size mb /\ bytes mb1 = bytes mb.
Proof.
  intros (? & ? & ? & ?) Hr. cbn. rewrite usz_small by lia.
  split_and!; try done. unfold mb_wf, bytes in *. cbn. lia.
Qed.

Lemma sent_type count a b w : sent count a b w -> 0 <= args_type a < 256.
Proof. by destruct 1. Qed.

(** What the body and the padding give, then the header in front of them. *)
Lemma finish_packet mb mb1 mb2 mb3 h d :
  mb_wf mb -> zlen h = 4 -> mb_pos mb1 = mb_pos mb + 4 -> mb_end mb1 = mb_pos mb + 4 ->
  mb_size mb1 = mb_size mb -> bytes mb1 = bytes mb -> mb_pos mb + 4 <= mb_size mb ->
  written mb1 mb2 d -> written (set_pos (mb_pos mb) mb2) mb3 h ->
  placed mb (set_pos (mb_end mb3) mb3) (h ++ d).
Proof.
  intros Hwf Hh Hp1 He1 Hs1 Hb1 Hroom (W1 & W2 & W3 & W4 & W5 & W6) (V1 & V2 & V3 & V4 & V5 & V6).
  cbn [set_pos mb_pos mb_end mb_size] in *. change (bytes (set_pos (mb_pos mb) mb2)) with (bytes mb2) in *.
  pose proof (zlen_nonneg d). pose proof Hwf as (? & ? & ? & ?). pose proof W1 as (? & ? & ? & ?).
  split_and!; cbn [set_pos mb_pos mb_end mb_size]; rewrite ?zlen_app; try lia.
  - apply wf_set_pos; [done|]. pose proof V1 as (? & ? & ? & ?). lia.
  - change (bytes (set_pos (mb_end mb3) mb3)) with (bytes mb3). rewrite <- zlen_app.
    apply slice_app. split; [done|]. rewrite Hh, V6 by lia. by rewrite <- Hp1.
  - intros i n Hi Hn Hin. change (bytes (set_pos (mb_end mb3) mb3)) with (bytes mb3).
    rewrite V6 by lia. rewrite W6 by lia. by rewrite Hb1.
Qed.

Lemma rtcp_encode_at alloc_ok junk (Hmem : forall n, alloc_ok n = true) count a w mb :
  (forall p, appends p (encode_body alloc_ok junk count a) w 0) -> 0 <= args_type a < 256 -> 0 <= count < 32 -> packet_words w < 65536 ->
  mb_wf mb -> mb_pos mb + 4 <= mb_size mb -> mb_pos mb + 4 + zlen w + 3 <= SIZE_MAX ->
  exists mb', rtcp_encode alloc_ok junk count a mb = Some (0, mb') /\
    placed mb mb' (wire_packet count a w).
Proof.
  intros Hs Hty Hc Hw Hwf Hroom Hsz. pose proof (zlen_nonneg w) as Hw0.
  destruct (skip_hdr mb Hwf Hroom) as (Hwf1 & Hp1 & He1 & Hs1 & Hb1).
  set (mb1 := set_pos _ _) in *. pose proof (packet_words_4 w) as H4.
  assert (Hpad : 0 <= - zlen w mod 4 < 4) by (apply Z.mod_pos_bound; lia).
  assert (Hpl : Z.of_nat (padding (zlen w)) = - zlen w mod 4) by (unfold padding; lia).
  destruct (Hs (mb_pos mb + 4) mb1 Hwf1 Hp1 He1)
    as (mb2 & E2 & W2); [lia|]. pose proof W2 as (Hwf2 & Hp2 & He2 & _).
  assert (Hpa : appends (mb_pos mb + 4 + zlen w) (pad_loop alloc_ok junk mb_end 4 (mb_pos mb) 0)
    (replicate (padding (zlen w)) 0) 0).
  { apply pad_appends; [done|by right|rewrite Hpl; clear; dlia|lia|lia]. }
  destruct (Hpa mb2 Hwf2) as (mb3 & E3 & W3); [lia|lia| |].
  { unfold zlen at 2. rewrite length_replicate. lia. }
  pose proof (written_app _ _ _ _ _ Hwf1 W2 W3) as W13. pose proof W13 as (Hwf3 & Hp3 & He3 & _).
  rewrite zlen_app in Hp3. unfold zlen at 2 in Hp3. rewrite length_replicate in Hp3.
  assert (Hwf3' : mb_wf (set_pos (mb_pos mb) mb3)) by (apply wf_set_pos; [done|destruct Hwf as (_ & ? & _); lia]).
  destruct (hdr_emits alloc_ok junk Hmem count a w Hc Hty ltac:(lia)
    (set_pos (mb_pos mb) mb3) Hwf3') as (mb4 & E4 & W4); cbn [set_pos mb_pos mb_end]; [lia| |].
  { unfold wire_hdr. rewrite zlen_app, be16_len. change (zlen [_; _]) with 2. destruct Hwf as (_ & ? & _). lia. }
  exists (set_pos (mb_end mb4) mb4). split.
  - unfold rtcp_encode, rtcp_vencode, mbind, M_bind, gets, modify. fold mb1.
    change RTCP_HDR_SIZE with 4. fold mb1. rewrite E2. cbn [negb Z.eqb]. rewrite E3. cbn [negb Z.eqb].
    cbn [set_pos mb_end]. replace ((mb_end mb3 - mb_pos mb - 4) / 4) with (packet_words w).
    2:{ replace (mb_end mb3 - mb_pos mb - 4) with (packet_words w * 4) by lia. by rewrite Z.div_mul. }
    rewrite u16_small by lia. unfold set_pos in E4 |- *. by rewrite E4.
  - unfold wire_packet. by apply (finish_packet mb mb1 mb3 mb4).
Qed.

Lemma rtcp_encode_places alloc_ok junk (Hmem : forall n, alloc_ok n = true) count a b w mb :
  sent count a b w -> 0 <= count < 32 -> packet_words w < 65536 ->
  mb_wf mb -> mb_pos mb + 4 <= mb_size mb -> mb_pos mb + 4 + zlen w + 3 <= SIZE_MAX ->
  exists mb', rtcp_encode alloc_ok junk count a mb = Some (0, mb') /\
    placed mb mb' (wire_packet count a w).
Proof. intros Hs. apply rtcp_encode_at; [done|intros p; by eapply body_appends|by eapply sent_type]. Qed.

(** ** The calls that send a body *)

(** A handler that encodes one block after the other. *)
Definition each {A} (enc : A -> M mbuf Z) (l : list A) : M mbuf Z := foldr (fun x m => enc x &; m) (mret 0) l.

Lemma each_appends {A} (enc : A -> M mbuf Z) (wire : A -> list Z) (ok : A -> Prop) l :
  (forall p x, ok x -> appends p (enc x) (wire x) 0) -> Forall ok l -> forall p, appends p (each enc l) (concat (map wire l)) 0.
Proof.
  intros He. induction 1 as [|x l Hx _ IH]; intros p; cbn [each foldr map concat]; [apply appends_ret|].
  eapply appends_bind; [by apply He|]. cbn [negb Z.eqb]. apply IH.
Qed.

(** What application layer feedback shows of its buffer. *)
Definition afb_data (v : mbuf) : list Z := default [] (slice (bytes v) (mb_pos v) (mbuf_get_left v)).

Section Calls.
Context (alloc_ok : Z -> bool) (junk : Z -> Z) (Hmem : forall n, alloc_ok n = true).

(** The count and the arguments of [rtcp_encode] for a body; [sub]: the
    subtype of packets that have no blocks. *)
Definition args_of (sub : Z) (b : rtcp_body) : Z * rtcp_args :=
  match b with
  | sr x1 x2 x3 x4 x5 x6 l => (zlen l, a_sr [x1; x2; x3; x4; x5; x6] (Some (each (rtcp_rr_encode alloc_ok junk) l)))
  | rr x l => (zlen l, a_rr x (Some (each (rtcp_rr_encode alloc_ok junk) l)))
  | sdesv cs => (zlen cs, a_sdes (Some (each (fun c => rtcp_sdes_encode alloc_ok junk (sdes_src c) (map item_arg (itemv c))) cs)))
  | bye l reason => (zlen l, a_bye l reason)
  | app_ x name d => (sub, a_app x name d)
  | fir x => (sub, a_fir x)
  | nack x y z => (sub, a_nack x y z)
  | fb x y _ (gnackv l) => (RTCP_RTPFB_GNACK, a_rtpfb x y (Some (each (fun g => rtcp_rtpfb_gnack_encode alloc_ok junk g.1 g.2) l)))
  | fb x y _ (sliv l) => (RTCP_PSFB_SLI, a_psfb x y (Some (each (fun s => rtcp_psfb_sli_encode alloc_ok junk s.1.1 s.1.2 s.2) l)))
  | fb x y _ fci_null => (RTCP_PSFB_PLI, a_psfb x y None)
  | fb x y _ (afb v) => (RTCP_PSFB_AFB, a_psfb x y (Some (write_mem alloc_ok junk (afb_data v))))
  | other => (sub, a_other 0)
  end.

(** Bodies whose fields fit. *)
Definition body_ok (b : rtcp_body) : Prop :=
  match b with
  | sr x1 x2 x3 x4 x5 x6 l => Forall u32v [x1; x2; x3; x4; x5; x6] /\ Forall rr_ok l
  | rr x l => u32v x /\ Forall rr_ok l
  | sdesv cs => cs <> [] /\ Forall chunk_ok cs
  | bye l reason => Forall u32v l /\ zlen (default [] reason) <= 255
  | app_ x name d => u32v x /\ zlen name = 4 /\ d <> Some [] /\ zlen (default [] d) mod 4 = 0
  | fir x => u32v x
  | nack x y z => u32v x /\ 0 <= y < 65536 /\ 0 <= z < 65536
  | fb x y n (gnackv l) => u32v x /\ u32v y /\ n = zlen l /\ Forall gnack_ok l
  | fb x y n (sliv l) => u32v x /\ u32v y /\ n = zlen l /\ Forall sli_ok l
  | fb x y n fci_null => u32v x /\ u32v y /\ n = 0
  | fb x y n (afb v) => u32v x /\ u32v y /\ holds_bytes v (afb_data v) /\ zlen (afb_data v) = 4 * n
  | other => False
  end.

Definition body_wire (b : rtcp_body) : list Z :=
  match b with
  | sr x1 x2 x3 x4 x5 x6 l => concat (map be32 [x1; x2; x3; x4; x5; x6]) ++ wire_rrs l
  | rr x l => be32 x ++ wire_rrs l
  | sdesv cs => concat (map wire_chunk cs)
  | bye l None => concat (map be32 l)
  | bye l (Some s) => concat (map be32 l) ++ zlen s :: s
  | app_ x name None => be32 x ++ name
  | app_ x name (Some d) => (be32 x ++ name) ++ d
  | fir x => be32 x
  | nack x y z => (be32 x ++ be16 y) ++ be16 z
  | fb x y _ (gnackv l) => (be32 x ++ be32 y) ++ concat (map wire_gnack l)
  | fb x y _ (sliv l) => (be32 x ++ be32 y) ++ concat (map (fun s => be32 (sli_word s)) l)
  | fb x y _ fci_null => (be32 x ++ be32 y) ++ []
  | fb x y _ (afb v) => (be32 x ++ be32 y) ++ afb_data v
  | other => []
  end.

(** The same body; application layer feedback lies in a buffer. *)
Definition same_body (b b' : rtcp_body) : Prop :=
  match b, b' with
  | fb x y n (afb v), fb x' y' n' (afb v') => x' = x /\ y' = y /\ n' = n /\ holds_bytes v' (afb_data v)
  | _, _ => b' = b
  end.

Lemma sli_emits s : sli_ok s -> emits (rtcp_psfb_sli_encode alloc_ok junk s.1.1 s.1.2 s.2) (be32 (sli_word s)).
Proof using Hmem.
  intros (H1 & H2 & H3). unfold rtcp_psfb_sli_encode, sli_word.
  destruct s as [[a b] c]. cbn [fst snd] in *.
  assert (E : Z.lor (Z.lor (Z.shiftl a 19) (Z.shiftl b 6)) c = a * 2 ^ 19 + b * 2 ^ 6 + c).
  { rewrite (Z.shiftl_mul_pow2 b), (lor_add a (b * 2 ^ 6) 19) by lia.
    replace (a * 2 ^ 19 + b * 2 ^ 6) with (Z.shiftl (a * 2 ^ 13 + b) 6) at 1 by (rewrite Z.shiftl_mul_pow2; lia).
    rewrite (lor_add _ c 6) by lia. lia. }
  rewrite E, u32_small by lia. by apply emits32.
Qed.

Lemma args_sent sub b : body_ok b -> (forall x y n v, b <> fb x y n (afb v)) ->
  sent (args_of sub b).1 (args_of sub b).2 b (body_wire b).
Proof using Hmem.
  intros Hok Hna. destruct b as [x1 x2 x3 x4 x5 x6 l|x l|cs|l [s|]|x name [d|]|x|x y z|x y n [|l|l|v]|]; cbn [body_ok args_of body_wire fst snd default] in *.
  - destruct Hok. apply sent_sr; [done..|]. apply each_appends with (ok := rr_ok); [|done]. intros p b Hb. by apply appends_emits, rr_emits.
  - destruct Hok. apply sent_rr; [done..|]. apply each_appends with (ok := rr_ok); [|done]. intros p b Hb. by apply appends_emits, rr_emits.
  - destruct Hok. apply sent_sdes; [done..|]. apply each_appends with (ok := chunk_ok); [|done]. intros p c Hc. by apply chunk_appends.
  - destruct Hok. by apply sent_bye_reason.
  - destruct Hok. by apply sent_bye.
  - destruct Hok as (? & ? & ? & ?). apply sent_app_data; try done. by intros ->.
  - destruct Hok as (? & ? & ? & ?). by apply sent_app.
  - by apply sent_fir.
  - destruct Hok as (? & ? & ?). by apply sent_nack.
  - destruct Hok as (? & ? & ->). by apply sent_pli.
  - destruct Hok as (? & ? & -> & ?). apply sent_gnack; [done..|]. apply each_appends with (ok := gnack_ok); [|done].
    intros p g Hg. apply appends_emits, emits_or; by apply emits16.
  - destruct Hok as (? & ? & -> & ?). apply sent_sli; [done..|]. apply (each_appends _ (fun s => be32 (sli_word s)) sli_ok); [|done].
    intros p s Hs. by apply appends_emits, sli_emits.
  - by destruct (Hna x y n v).
  - done.
Qed.

Lemma afb_packet sub x y n v p : body_ok (fb x y n (afb v)) ->
  let a := (args_of sub (fb x y n (afb v))).2 in let w := body_wire (fb x y n (afb v)) in
  (forall q, appends q (encode_body alloc_ok junk RTCP_PSFB_AFB a) w 0) /\
  (packet_words w < 65536 -> reads_to p (rtcp_decode alloc_ok) (wire_packet RTCP_PSFB_AFB a w)
    (fun r => exists b, r = (0, Some (mk_msg (packet_hdr RTCP_PSFB_AFB a w) b)) /\ same_body (fb x y n (afb v)) b)).
Proof using Hmem.
  intros (Hx & Hy & Hh & Hn). cbn [args_of body_wire snd]. set (d := afb_data v) in *. pose proof (zlen_nonneg d).
  assert (Hn4 : zlen d / 4 = n) by (rewrite Hn; dlia). split.
  - intros q. cbn [encode_body call]. eapply appends_or; [|by apply appends_emits, emits_mem]. apply appends_emits, emits_or; by apply emits32.
  - intros Hw. apply packet_reads_to; [done| |done|done]. intros q.
    assert (Hlen : packet_words ((be32 x ++ be32 y) ++ d) = 2 + n) by (apply words_of_4; rewrite !zlen_app, !be32_len; lia).
    unfold decode_body. cbn [packet_hdr pt args_type Z.eqb Pos.eqb RTCP_SR RTCP_RR RTCP_SDES RTCP_BYE RTCP_APP RTCP_FIR RTCP_NACK RTCP_RTPFB RTCP_PSFB orb length_ count].
    rewrite Hlen. apply reads_to_guard; [rewrite !zlen_app, !be32_len; unfold RTCP_FB_SIZE; lia|]. replace (2 + n <? 2) with false by lia.
    rewrite <- app_assoc. eapply reads_to_after; [by apply reads32|]. eapply reads_to_after; [by apply reads32|].
    replace (2 + n - 2) with (zlen d / 4) by lia. eapply reads_to_last; [apply (afb_reads alloc_ok Hmem); rewrite Hn; dlia|].
    intros r (b & -> & Hb). eexists. split; [done|]. by rewrite Hn4.
Qed.

End Calls.

(** C18: RTCP packets survive the wire.  For sender and receiver reports with
    their blocks, source descriptions, BYE with and without a reason, APP,
    FIR, NACK, generic NACK, picture and slice loss indications and
    application layer feedback, each encoded with the encoders of its blocks:
    when memory can be allocated and the fields fit, [rtcp_encode] succeeds
    and keeps what is in front of the packet, and [rtcp_decode] at the same
    position returns the header and the body that were encoded and stops
    behind the packet. *)
Theorem rtcp_roundtrip alloc_ok junk sub b mb
  (Hmem : forall n, alloc_ok n = true) (Hb : body_ok b) (Hc : 0 <= (args_of alloc_ok junk sub b).1 < 32)
  (Hw : packet_words (body_wire b) < 65536) (Hwf : mb_wf mb) (Hroom : mb_pos mb + 4 <= mb_size mb)
  (Hsz : mb_pos mb + 4 + zlen (body_wire b) + 3 <= SIZE_MAX) :
  let count := (args_of alloc_ok junk sub b).1 in let a := (args_of alloc_ok junk sub b).2 in
  exists mb' b', rtcp_encode alloc_ok junk count a mb = Some (0, mb') /\
    rtcp_decode alloc_ok (set_pos (mb_pos mb) mb')
      = Some ((0, Some (mk_msg (packet_hdr count a (body_wire b)) b')), mb') /\ same_body b b' /\
    forall i n, 0 <= i -> 0 <= n -> i + n <= mb_pos mb -> slice (bytes mb') i n = slice (bytes mb) i n.
Proof.
  intros count a.
  assert (H : (forall p, appends p (encode_body alloc_ok junk count a) (body_wire b) 0) /\ 0 <= args_type a < 256 /\
    reads_to (mb_pos mb) (rtcp_decode alloc_ok) (wire_packet count a (body_wire b))
      (fun r => exists b', r = (0, Some (mk_msg (packet_hdr count a (body_wire b)) b')) /\ same_body b b')).
  { assert (Hcase : (exists x y n v, b = fb x y n (afb v)) \/ (forall x y n v, b <> fb x y n (afb v))).
    { destruct b as [| | | | | | |x y n [| | |v]|]; try (by right); left; by exists x, y, n, v. }
    destruct Hcase as [(x & y & n & v & ->)|Hna].
    - split; [intros p; by apply (afb_packet alloc_ok junk Hmem sub x y n v 0)|]. split; [done|by apply afb_packet].
    - pose proof (args_sent alloc_ok junk Hmem sub b Hb Hna) as Hs. fold count a in Hs. split; [intros p; by eapply body_appends|]. split; [by eapply sent_type|].
      intros mb0 rest Hp Hav. eexists. split; [by apply (packet_reads alloc_ok Hmem count a b _ (mb_pos mb) Hs Hc Hw mb0 rest)|].
      exists b. split; [done|]. destruct b as [| | | | | | |x y n [| | |v]|]; try done. by destruct (Hna x y n v). }
  destruct H as (Happ & Hty & Hrd).
  destruct (rtcp_encode_at alloc_ok junk Hmem count a (body_wire b) mb Happ Hty Hc Hw Hwf Hroom Hsz) as (mb' & E & Hwf' & Hp & He & Hsl & _ & Hkeep).
  pose proof (zlen_nonneg (wire_packet count a (body_wire b))).
  destruct (Hrd (set_pos (mb_pos mb) mb') []) as (r & Er & b' & -> & Hsame); [done| |].
  - rewrite app_nil_r. split_and!; [apply wf_set_pos; [done|destruct Hwf as (_ & ? & _); lia]|done|]. cbn [set_pos mb_pos mb_end]. lia.
  - exists mb', b'. split_and!; try done. rewrite Er. f_equal. f_equal. unfold set_pos. cbn [mb_buf mb_size mb_pos mb_end]. rewrite <- Hp. by destruct mb'.
Qed.

(** ** Examples *)

Definition sample_rr : rtcp_rr := mk_rr 7 64 (-3) 0x10005 12 0x80000001 655.

Lemma sample_rr_ok : rr_ok sample_rr.
Proof. split; unfold u32v; cbn; lia. Qed.

Definition yes (n : Z) : bool := true.
Definition zero (i : Z) : Z := 0.

(** A source description with two items, and its packet. *)
Definition sample_sdes : rtcp_body := sdesv [mk_sdes 7 [mk_item RTCP_SDES_CNAME 3 [97; 98; 99]; mk_item 6 2 [100; 101]]].

Lemma rtcp_roundtrip_witness :
  exists mb' b', rtcp_encode yes zero 1 (args_of yes zero 0 sample_sdes).2 (mk_mbuf (Some (replicate 64 9)) 64 4 0) = Some (0, mb') /\
    rtcp_decode yes (set_pos 4 mb')
      = Some ((0, Some (mk_msg (mk_rhdr 2 0 1 RTCP_SDES 4) b')), mb') /\ b' = sample_sdes /\
    forall i n, 0 <= i -> 0 <= n -> i + n <= 4 -> slice (bytes mb') i n = slice (replicate 64 9) i n.
Proof.
  apply (rtcp_roundtrip yes zero 0 sample_sdes (mk_mbuf (Some (replicate 64 9)) 64 4 0)); [done| |zdec..].
  split; [done|]. repeat constructor; done.
Defined.
