(* ===== verification/RtcpSess.v ===== *)
(** * RTCP sessions

    Models re/src/rtp/source.c, member.c, sess.c and the compact time format
    of ntp.c: sequence number and jitter statistics of a source, the member
    table of a session, its reaction to RTP and RTCP packets, and the
    reports it sends.  [None] is undefined behaviour: an overflowing [int], a
    dangling member, an index outside an array.  Time is an argument ([env]),
    constant during a call; the addresses of peers are opaque. *)

From stdpp Require Import gmap.
From S2P Require Import Prelude Effects Mbuf Codec RtcpPkt Hash.
Import Mb Rtcp Ht.

Module Sess.

(** An [int] result: overflow is undefined. *)
Definition int_ (z : Z) : option Z :=
  if (- 2 ^ 31 <=? z) && (z <? 2 ^ 31) then Some z else None.

(** ** Sources *)

Record rtp_source := mk_source {
  rtp_peer : Z;
  max_seq : Z;
  cycles : Z;
  base_seq : Z;
  bad_seq : Z;
  probation : Z;
  received : Z;
  expected_prior : Z;
  received_prior : Z;
  transit : Z;
  jitter : Z;
  rtp_rx_bytes : Z;
  sr_recv : Z;
  last_sr_hi : Z;
  last_sr_lo : Z;
  rtp_ts : Z;
  psent : Z;
  osent : Z }.

Definition source_zero : rtp_source := mk_source 0 0 0 0 0 0 0 0 0 0 0 0 0 0 0 0 0 0.

Definition RTP_SEQ_MOD : Z := Z.shiftl 1 16.
Definition MAX_DROPOUT : Z := 3000.
Definition MAX_MISORDER : Z := 100.
Definition MIN_SEQUENTIAL : Z := 2.

(** The members that the sequence number functions change. *)
Definition set_seq (max cyc base bad prob recv ep rp : Z) (s : rtp_source) : rtp_source :=
  mk_source (rtp_peer s) max cyc base bad prob recv ep rp (transit s) (jitter s) (rtp_rx_bytes s)
    (sr_recv s) (last_sr_hi s) (last_sr_lo s) (rtp_ts s) (psent s) (osent s).

Definition set_max_seq (x : Z) (s : rtp_source) : rtp_source :=
  set_seq x (cycles s) (base_seq s) (bad_seq s) (probation s) (received s) (expected_prior s)
    (received_prior s) s.
Definition set_cycles (x : Z) (s : rtp_source) : rtp_source :=
  set_seq (max_seq s) x (base_seq s) (bad_seq s) (probation s) (received s) (expected_prior s)
    (received_prior s) s.
Definition set_bad_seq (x : Z) (s : rtp_source) : rtp_source :=
  set_seq (max_seq s) (cycles s) (base_seq s) x (probation s) (received s) (expected_prior s)
    (received_prior s) s.
Definition set_probation (x : Z) (s : rtp_source) : rtp_source :=
  set_seq (max_seq s) (cycles s) (base_seq s) (bad_seq s) x (received s) (expected_prior s)
    (received_prior s) s.
Definition set_received (x : Z) (s : rtp_source) : rtp_source :=
  set_seq (max_seq s) (cycles s) (base_seq s) (bad_seq s) (probation s) x (expected_prior s)
    (received_prior s) s.
Definition set_prior (ep rp : Z) (s : rtp_source) : rtp_source :=
  set_seq (max_seq s) (cycles s) (base_seq s) (bad_seq s) (probation s) (received s) ep rp s.
Definition set_transit (tr j : Z) (s : rtp_source) : rtp_source :=
  mk_source (rtp_peer s) (max_seq s) (cycles s) (base_seq s) (bad_seq s) (probation s) (received s)
    (expected_prior s) (received_prior s) tr j (rtp_rx_bytes s) (sr_recv s) (last_sr_hi s)
    (last_sr_lo s) (rtp_ts s) (psent s) (osent s).
Definition set_peer (x : Z) (s : rtp_source) : rtp_source :=
  mk_source x (max_seq s) (cycles s) (base_seq s) (bad_seq s) (probation s) (received s)
    (expected_prior s) (received_prior s) (transit s) (jitter s) (rtp_rx_bytes s) (sr_recv s)
    (last_sr_hi s) (last_sr_lo s) (rtp_ts s) (psent s) (osent s).
Definition set_rx_bytes (x : Z) (s : rtp_source) : rtp_source :=
  mk_source (rtp_peer s) (max_seq s) (cycles s) (base_seq s) (bad_seq s) (probation s) (received s)
    (expected_prior s) (received_prior s) (transit s) (jitter s) x (sr_recv s)
    (last_sr_hi s) (last_sr_lo s) (rtp_ts s) (psent s) (osent s).
Definition set_sr (recv hi lo ts p o : Z) (s : rtp_source) : rtp_source :=
  mk_source (rtp_peer s) (max_seq s) (cycles s) (base_seq s) (bad_seq s) (probation s) (received s)
    (expected_prior s) (received_prior s) (transit s) (jitter s) (rtp_rx_bytes s) recv hi lo ts p o.

Definition source_init_seq (s : rtp_source) (seq : Z) : rtp_source :=
  set_seq seq 0 seq (RTP_SEQ_MOD + 1) (probation s) 0 0 0 s.

Definition source_update_seq (s : rtp_source) (seq : Z) : Z * rtp_source :=
  let udelta := u16 (seq - max_seq s) in
  let count s := (1, set_received (u32 (received s + 1)) s) in
  if negb (probation s =? 0) then
    if seq =? max_seq s + 1 then
      let s := set_max_seq seq (set_probation (u32 (probation s - 1)) s) in
      if probation s =? 0 then count (source_init_seq s seq) else (0, s)
    else (0, set_max_seq seq (set_probation (MIN_SEQUENTIAL - 1) s))
  else if udelta <? MAX_DROPOUT then
    let s := if seq <? max_seq s then set_cycles (u32 (cycles s + RTP_SEQ_MOD)) s else s in
    count (set_max_seq seq s)
  else if udelta <=? RTP_SEQ_MOD - MAX_MISORDER then
    if seq =? bad_seq s then count (source_init_seq s seq)
    else (0, set_bad_seq (Z.land (seq + 1) (RTP_SEQ_MOD - 1)) s)
  else count s.

Definition source_calc_jitter (s : rtp_source) (ts arrival : Z) : option rtp_source :=
  let tr := i32 (u32 (arrival - ts)) in
  d ← int_ (tr - transit s);
  if transit s =? 0 then Some (set_transit tr (jitter s) s) else
  d ← (if d <? 0 then int_ (- d) else Some d);
  Some (set_transit tr (u32 (jitter s + (d - Z.shiftr (u32 (jitter s + 8)) 4))) s).

Definition calc_expected (s : rtp_source) : Z :=
  let extended_max := i32 (u32 (cycles s + max_seq s)) in
  i32 (u32 (extended_max - base_seq s + 1)).

Definition source_calc_lost (s : rtp_source) : Z :=
  let lost := i32 (u32 (calc_expected s - received s)) in
  if 0x7fffff <? lost then 0x7fffff else if lost <? - 0x7fffff then - 0x7fffff else lost.

Definition source_calc_fraction_lost (s : rtp_source) : option (Z * rtp_source) :=
  let expected := calc_expected s in
  let expected_interval := i32 (u32 (expected - expected_prior s)) in
  let received_interval := i32 (u32 (received s - received_prior s)) in
  let s := set_prior (u32 expected) (received s) s in
  lost_interval ← int_ (expected_interval - received_interval);
  if (expected_interval =? 0) || (lost_interval <=? 0) then Some (0, s) else
  x ← int_ (lost_interval * 2 ^ 8);
  Some (u8 (Z.quot x expected_interval), s).

(** ** Compact time *)

Definition ntp_compact (hi lo : Z) : Z := Z.lor (Z.shiftl (Z.land hi 0xffff) 16) (Z.shiftr lo 16).

Definition ntp_compact2us (ntpc : Z) : Z :=
  let hi := Z.land (Z.shiftr ntpc 16) 0xffff in
  let lo := u32 (Z.shiftl (Z.land ntpc 0xffff) 16) in
  u64 (u64 (1000000 * hi) + Z.shiftr (u64 (1000000 * lo)) 32).

(** [tmr_jiffies], and the result of [ntp_time_get]. *)
Record env := mk_env { jiffies : Z; ntp_err : Z; ntp_hi : Z; ntp_lo : Z }.

(** ** Members and the session *)

Record rtp_member := mk_member {
  m_s : option rtp_source;
  m_src : Z;
  m_cum_lost : Z;
  m_jit : Z;
  m_rtt : Z }.

Definition set_m_s (x : option rtp_source) (m : rtp_member) : rtp_member :=
  mk_member x (m_src m) (m_cum_lost m) (m_jit m) (m_rtt m).

Record txstat := mk_txstat {
  tx_psent : Z;
  tx_osent : Z;
  tx_jfs_ref : Z;
  tx_ts_ref : Z;
  tx_ts_synced : bool }.

Definition MAX_MEMBERS : Z := 8.

(** [heap]: the member objects; [ssrc]: [rtp_sess_ssrc] of the socket;
    [timer]: whether the report timer runs; [wire]: the packets given to
    the socket. *)
Record rtcp_sess := mk_sess {
  members : hash nat;
  heap : gmap nat rtp_member;
  next : nat;
  cname : option (list Z);
  memberc : Z;
  senderc : Z;
  srate_tx : Z;
  srate_rx : Z;
  tx : txstat;
  ssrc : Z;
  timer : bool;
  wire : list (list Z) }.

Definition set_members (x : hash nat) (c : rtcp_sess) : rtcp_sess :=
  mk_sess x (heap c) (next c) (cname c) (memberc c) (senderc c) (srate_tx c) (srate_rx c) (tx c)
    (ssrc c) (timer c) (wire c).
Definition set_heap (x : gmap nat rtp_member) (c : rtcp_sess) : rtcp_sess :=
  mk_sess (members c) x (next c) (cname c) (memberc c) (senderc c) (srate_tx c) (srate_rx c) (tx c)
    (ssrc c) (timer c) (wire c).
Definition set_next (x : nat) (c : rtcp_sess) : rtcp_sess :=
  mk_sess (members c) (heap c) x (cname c) (memberc c) (senderc c) (srate_tx c) (srate_rx c) (tx c)
    (ssrc c) (timer c) (wire c).
Definition set_cname (x : option (list Z)) (c : rtcp_sess) : rtcp_sess :=
  mk_sess (members c) (heap c) (next c) x (memberc c) (senderc c) (srate_tx c) (srate_rx c) (tx c)
    (ssrc c) (timer c) (wire c).
Definition set_memberc (x : Z) (c : rtcp_sess) : rtcp_sess :=
  mk_sess (members c) (heap c) (next c) (cname c) x (senderc c) (srate_tx c) (srate_rx c) (tx c)
    (ssrc c) (timer c) (wire c).
Definition set_senderc (x : Z) (c : rtcp_sess) : rtcp_sess :=
  mk_sess (members c) (heap c) (next c) (cname c) (memberc c) x (srate_tx c) (srate_rx c) (tx c)
    (ssrc c) (timer c) (wire c).
Definition set_srates (t r : Z) (c : rtcp_sess) : rtcp_sess :=
  mk_sess (members c) (heap c) (next c) (cname c) (memberc c) (senderc c) t r (tx c)
    (ssrc c) (timer c) (wire c).
Definition set_tx (x : txstat) (c : rtcp_sess) : rtcp_sess :=
  mk_sess (members c) (heap c) (next c) (cname c) (memberc c) (senderc c) (srate_tx c) (srate_rx c) x
    (ssrc c) (timer c) (wire c).
Definition set_timer (x : bool) (c : rtcp_sess) : rtcp_sess :=
  mk_sess (members c) (heap c) (next c) (cname c) (memberc c) (senderc c) (srate_tx c) (srate_rx c)
    (tx c) (ssrc c) x (wire c).
Definition set_wire (x : list (list Z)) (c : rtcp_sess) : rtcp_sess :=
  mk_sess (members c) (heap c) (next c) (cname c) (memberc c) (senderc c) (srate_tx c) (srate_rx c)
    (tx c) (ssrc c) (timer c) x.

Abbreviation SM := (M rtcp_sess).

Section Session.
Context (alloc_ok : Z -> bool) (junk : Z -> Z).

Definition get_mbr (a : nat) : SM rtp_member := h ← gets heap; of_option (h !! a).
Definition put_mbr (a : nat) (m : rtp_member) : SM unit :=
  modify (fun c => set_heap (<[a := m]> (heap c)) c).

(** sizeof(struct rtp_member) is 64, of struct rtp_source 152. *)
Definition member_add (src : Z) : SM (option nat) :=
  if negb (alloc_ok 64) then mret None else
  a ← gets next;
  modify (set_next (S a)) ;;
  h ← gets members;
  h ← of_option (hash_append h src a);
  modify (set_members h) ;;
  put_mbr a (mk_member None src 0 0 0) ;;
  mret (Some a).

Definition hash_cmp_handler (src : Z) (a : nat) : SM bool := m ← get_mbr a; mret (m_src m =? src).

Definition member_find (src : Z) : SM (option nat) :=
  h ← gets members;
  hash_lookup h src (hash_cmp_handler src).

(** [mem_deref] of a member: unlinked from the table and released. *)
Definition member_deref (a : nat) : SM unit :=
  modify (fun c => set_heap (delete a (heap c)) (set_members (hash_unlink a (members c)) c)).

Definition get_member (src : Z) : SM (option nat) :=
  mbr ← member_find src;
  match mbr with
  | Some a => mret (Some a)
  | None =>
    n ← gets memberc;
    if MAX_MEMBERS <=? n then mret None else
    mbr ← member_add src;
    match mbr with
    | None => mret None
    | Some a => modify (set_memberc (u32 (n + 1))) ;; mret (Some a)
    end
  end.

(** The new round-trip time; [None] keeps the old one. *)
Definition calc_rtt (e : env) (lsr dlsr : Z) : option Z :=
  if negb (ntp_err e =? 0) then None else
  let a_us := ntp_compact2us (ntp_compact (ntp_hi e) (ntp_lo e)) in
  let lsr_us := ntp_compact2us lsr in
  let dlsr_us := u64 (1000000 * dlsr) / 65536 in
  Some (Z.max (i32 (u64 (a_us - lsr_us - dlsr_us))) 0).

Definition handle_rr_block (e : env) (a : nat) (b : rtcp_rr) : SM unit :=
  m ← get_mbr a;
  rate ← gets srate_tx;
  let jit := if rate =? 0 then m_jit m else u32 (1000000 * rr_jitter b) / rate in
  let rtt := if negb (lsr b =? 0) && negb (dlsr b =? 0)
             then default (m_rtt m) (calc_rtt e (lsr b) (dlsr b)) else m_rtt m in
  put_mbr a (mk_member (m_s m) (m_src m) (lost b) jit rtt).

(** [for (i=0; i<count; i++)] over an array. *)
Fixpoint for_count {A} (n : nat) (i : nat) (v : list A) (f : A -> SM unit) : SM unit :=
  match n with
  | O => mret tt
  | S n => x ← of_option (v !! i); f x ;; for_count n (S i) v f
  end.

Definition handle_incoming_rr (e : env) (n : Z) (rssrc : Z) (rrv : list rtcp_rr) : SM unit :=
  mbr ← get_member rssrc;
  match mbr with
  | None => mret tt
  | Some a => for_count (Z.to_nat n) 0 rrv (handle_rr_block e a)
  end.

Definition handle_incoming_sr (e : env) (n : Z) (rssrc sec frac ts p o : Z) (rrv : list rtcp_rr) : SM unit :=
  mbr ← get_member rssrc;
  match mbr with
  | None => mret tt
  | Some a =>
    m ← get_mbr a;
    (match m_s m with
     | None => mret tt
     | Some s => put_mbr a (set_m_s (Some (set_sr (jiffies e) sec frac ts p o s)) m)
     end) ;;
    for_count (Z.to_nat n) 0 rrv (handle_rr_block e a)
  end.

Definition handle_incoming_bye (n : Z) (srcv : list Z) : SM unit :=
  for_count (Z.to_nat n) 0 srcv (fun src =>
    mbr ← member_find src;
    match mbr with
    | None => mret tt
    | Some a =>
      m ← get_mbr a;
      (match m_s m with
       | Some _ => modify (fun c => set_senderc (u32 (senderc c - 1)) c)
       | None => mret tt
       end) ;;
      modify (fun c => set_memberc (u32 (memberc c - 1)) c) ;;
      member_deref a
    end).

(** The type of a message is that of its body. *)
Definition rtcp_handler (e : env) (msg : rtcp_msg) : SM unit :=
  let n := count (hdr msg) in
  match r msg with
  | sr rssrc sec frac ts p o rrv => handle_incoming_sr e n rssrc sec frac ts p o rrv
  | rr rssrc rrv => handle_incoming_rr e n rssrc rrv
  | bye srcv _ => handle_incoming_bye n srcv
  | _ => mret tt
  end.

(** [lock_ok]: the lock; sizeof(struct rtcp_sess) is 208. *)
Definition rtcp_sess_alloc (lock_ok : bool) (rs_ssrc : Z) : Z * option rtcp_sess :=
  if negb (alloc_ok 208) then (ENOMEM, None) else
  if negb lock_ok then (ENOMEM, None) else
  match hash_alloc alloc_ok MAX_MEMBERS with
  | (err, None) => (err, None)
  | (_, Some h) =>
    (0, Some (mk_sess h ∅ 0 None 0 0 0 0 (mk_txstat 0 0 0 0 false) rs_ssrc false []))
  end.

Definition rtcp_set_srate (t r : Z) : SM unit := modify (set_srates t r).
Definition rtcp_set_srate_tx (t : Z) : SM unit := modify (fun c => set_srates t (srate_rx c) c).
Definition rtcp_set_srate_rx (r : Z) : SM unit := modify (fun c => set_srates (srate_tx c) r c).

Definition schedule : SM unit := modify (set_timer true).

Definition rtcp_enable (enabled : bool) (name : list Z) : SM Z :=
  modify (set_cname None) ;;
  if negb (alloc_ok (zlen name + 1)) then mret ENOMEM else
  modify (set_cname (Some name)) ;;
  (if enabled then schedule else modify (set_timer false)) ;;
  mret 0.

(** ** Reports *)

Definition calc_lsr (hi lo : Z) : Z := if hi =? 0 then 0 else ntp_compact hi lo.

Definition calc_dlsr (e : env) (recv : Z) : Z :=
  if recv =? 0 then 0 else u32 (u64 (65536 * u64 (jiffies e - recv)) / 1000).

(** The report block of a sender, and what it leaves in the source. *)
Definition sender_block (e : env) (m : rtp_member) (s : rtp_source) : option (rtcp_rr * rtp_source) :=
  '(fr, s) ← source_calc_fraction_lost s;
  Some (mk_rr (m_src m) fr (source_calc_lost s) (Z.lor (cycles s) (max_seq s)) (Z.shiftr (jitter s) 4)
          (calc_lsr (last_sr_hi s) (last_sr_lo s)) (calc_dlsr e (sr_recv s)), s).

(** The traversal of the members: the blocks in their order.  It runs ahead
    of the writing; in the code it stops at a block that cannot be written,
    which the buffer of 512 bytes excludes. *)
Definition sender_apply_handler (e : env) (a : nat) : SM (list rtcp_rr) :=
  m ← get_mbr a;
  match m_s m with
  | None => mret []
  | Some s =>
    '(b, s) ← of_option (sender_block e m s);
    put_mbr a (set_m_s (Some s) m) ;;
    mret [b]
  end.

Fixpoint collect_blocks (e : env) (l : list nat) : SM (list rtcp_rr) :=
  match l with
  | [] => mret []
  | a :: l => b ← sender_apply_handler e a; bs ← collect_blocks e l; mret (b ++ bs)
  end.

(** Writes the blocks until one fails. *)
Fixpoint encode_handler (bs : list rtcp_rr) : M mbuf Z :=
  match bs with
  | [] => mret 0
  | b :: bs =>
    err ← rtcp_rr_encode alloc_ok junk b;
    if negb (err =? 0) then mret ENOMEM else encode_handler bs
  end.

(** The sender report of the session, written to [mb]. *)
Definition mk_sr (e : env) (mb : mbuf) : SM (Z * mbuf) :=
  if negb (ntp_err e =? 0) then mret (ntp_err e, mb) else
  t ← gets tx;
  modify (set_tx (mk_txstat (tx_psent t) (tx_osent t) (tx_jfs_ref t) (tx_ts_ref t) false)) ;;
  rate ← gets srate_tx;
  let ts := if tx_jfs_ref t =? 0 then 0
            else let dur := u32 (jiffies e - tx_jfs_ref t) in
                 u32 (tx_ts_ref t + u32 (dur * rate) / 1000) in
  h ← gets members;
  bs ← collect_blocks e (concat (bucket h));
  n ← gets senderc;
  x ← gets ssrc;
  of_option (rtcp_encode alloc_ok junk n
    (a_sr [x; ntp_hi e; ntp_lo e; ts; tx_psent t; tx_osent t] (Some (encode_handler bs))) mb).

Definition mk_sdes (mb : mbuf) : SM (Z * mbuf) :=
  x ← gets ssrc;
  name ← gets cname;
  of_option (rtcp_encode alloc_ok junk 1
    (a_sdes (Some (rtcp_sdes_encode alloc_ok junk x [(RTCP_SDES_CNAME, name)]))) mb).

Definition RTCP_HEADROOM : Z := 4.

(** [rtcp_send] of the socket of the session.  [link]: [None] when that has no
    RTCP socket or no RTCP peer, else the result of [udp_send], to which the
    bytes from the position to the end go. *)
Definition rtcp_send (link : option Z) (mb : mbuf) : SM Z :=
  match link with
  | None => mret EINVAL
  | Some send_err =>
    d ← of_option (slice (default [] (mb_buf mb)) (mb_pos mb) (mbuf_get_left mb));
    modify (fun c => set_wire (wire c ++ [d]) c) ;;
    mret send_err
  end.

(** Two packets in one buffer, sent. *)
Definition send_compound (link : option Z) (first : mbuf -> SM (Z * mbuf)) : SM Z :=
  match mbuf_alloc alloc_ok junk 512 with
  | None => mret ENOMEM
  | Some mb =>
    '(e1, mb) ← first (set_pos RTCP_HEADROOM mb);
    '(e2, mb) ← mk_sdes mb;
    let err := Z.lor e1 e2 in
    if negb (err =? 0) then mret err else
    rtcp_send link (set_pos RTCP_HEADROOM mb)
  end.

Definition send_rtcp_report (e : env) (link : option Z) : SM Z := send_compound link (mk_sr e).

Definition mk_bye (mb : mbuf) : SM (Z * mbuf) :=
  x ← gets ssrc;
  of_option (rtcp_encode alloc_ok junk 1 (a_bye [x] (Some (bytes_of "Adjo"))) mb).

Definition send_bye_packet (link : option Z) : SM Z := send_compound link mk_bye.

Definition timeout (e : env) (link : option Z) : SM unit := send_rtcp_report e link ;; schedule.

(** The destructor: a BYE, and everything is released. *)
Definition sess_destructor (link : option Z) : SM unit :=
  name ← gets cname;
  (match name with Some _ => send_bye_packet link ;; mret tt | None => mret tt end) ;;
  modify (set_timer false) ;;
  modify (set_cname None) ;;
  modify (fun c => set_heap ∅ (set_members (snd (hash_flush (members c))) c)).

(** ** RTP packets *)

Definition rtcp_sess_tx_rtp (e : env) (ts payload_size : Z) : SM unit :=
  modify (fun c =>
    let t := tx c in
    let p := u32 (tx_psent t + 1) in
    let o := u32 (tx_osent t + u32 payload_size) in
    set_tx (if tx_ts_synced t then mk_txstat p o (tx_jfs_ref t) (tx_ts_ref t) true
            else mk_txstat p o (jiffies e) ts true) c).

(** The source of a member, made on its first packet. *)
Definition ensure_source (a : nat) (seq peer : Z) : SM bool :=
  m ← get_mbr a;
  match m_s m with
  | Some _ => mret true
  | None =>
    if negb (alloc_ok 152) then mret false else
    put_mbr a (set_m_s (Some (set_peer peer (source_init_seq source_zero seq))) m) ;;
    modify (fun c => set_senderc (u32 (senderc c + 1)) c) ;;
    mret true
  end.

Definition rtcp_sess_rx_rtp (e : env) (seq ts rssrc payload_size peer : Z) : SM unit :=
  mbr ← get_member rssrc;
  match mbr with
  | None => mret tt
  | Some a =>
    ok ← ensure_source a seq peer;
    if negb ok then mret tt else
    m ← get_mbr a;
    s ← of_option (m_s m);
    let '(_, s) := source_update_seq s seq in
    rate ← gets srate_rx;
    s ← (if rate =? 0 then mret s
         else of_option (source_calc_jitter s ts (u32 (u64 (jiffies e * rate) / 1000))));
    put_mbr a (set_m_s (Some (set_rx_bytes (usz (rtp_rx_bytes s + payload_size)) s)) m)
  end.

Record rtcp_stats := mk_stats {
  st_tx_sent : Z; st_tx_lost : Z; st_tx_jit : Z;
  st_rx_sent : Z; st_rx_lost : Z; st_rx_jit : Z;
  st_rtt : Z }.

Definition rtcp_stats_get (rssrc : Z) : SM (Z * option rtcp_stats) :=
  mbr ← member_find rssrc;
  match mbr with
  | None => mret (ENOENT, None)
  | Some a =>
    m ← get_mbr a;
    t ← gets tx;
    rate ← gets srate_rx;
    match m_s m with
    | None => mret (0, Some (mk_stats (tx_psent t) (m_cum_lost m) (m_jit m) 0 0 0 (m_rtt m)))
    | Some s =>
      let jit := if rate =? 0 then 0 else u32 (1000000 * Z.shiftr (jitter s) 4) / rate in
      mret (0, Some (mk_stats (tx_psent t) (m_cum_lost m) (m_jit m) (received s)
                       (source_calc_lost s) jit (m_rtt m)))
    end
  end.

End Session.

End Sess.
