(* ===== verification/RtcpSourceProps.v ===== *)
(** * Properties of RTP sources

    The statistics of a source against its definition in terms of extended
    sequence numbers: losses, loss fraction and jitter. *)

From S2P Require Import Prelude Effects MbufProps RtcpSess.
Import Sess.

(** ** Extended sequence numbers *)

Lemma u16_sub a b : u16 (u16 a - u16 b) = u16 (a - b).
Proof. unfold u16. by rewrite <- Zminus_mod. Qed.

Lemma i32_u32 z : - 2 ^ 31 <= z < 2 ^ 31 -> i32 (u32 z) = z.
Proof. intros Hz. unfold i32, u32. dlia. Qed.

(** Feeding packets, given by their extended numbers. *)
Definition feed (s : rtp_source) (es : list Z) : rtp_source :=
  fold_left (fun s e => snd (source_update_seq s (u16 e))) es s.

Definition highest (h : Z) (es : list Z) : Z := fold_left Z.max es h.

(** Every packet is at most 3000 ahead of or 100 behind the highest number
    before it. *)
Fixpoint in_step (h : Z) (es : list Z) : Prop :=
  match es with
  | [] => True
  | e :: es => h - MAX_MISORDER < e < h + MAX_DROPOUT /\ in_step (Z.max h e) es
  end.

(** A valid source that started at [e0], has seen [h] as highest number and
    [n] packets. *)
Record counts (e0 h n : Z) (s : rtp_source) : Prop := {
  ct_prob : probation s = 0;
  ct_max : max_seq s = u16 h;
  ct_base : base_seq s = u16 e0;
  ct_cycles : cycles s = u32 (2 ^ 16 * (h / 2 ^ 16 - e0 / 2 ^ 16));
  ct_received : received s = u32 n }.

Lemma counts_init e0 : counts e0 e0 0 (source_init_seq source_zero (u16 e0)).
Proof. split; try done. cbn. unfold u32. by rewrite Z.sub_diag. Qed.

Lemma cycles_step h e : h <= e < h + 3000 ->
  (if u16 e <? u16 h then 2 ^ 16 else 0) = 2 ^ 16 * (e / 2 ^ 16) - 2 ^ 16 * (h / 2 ^ 16).
Proof. intros He. unfold u16. destruct (Z.ltb_spec (e mod 2 ^ 16) (h mod 2 ^ 16)); dlia. Qed.

Lemma u32_add_l a b : u32 (u32 a + b) = u32 (a + b).
Proof. unfold u32. by rewrite Zplus_mod_idemp_l. Qed.

Lemma update_counts e0 h n s e : counts e0 h n s -> h - 100 < e < h + 3000 ->
  counts e0 (Z.max h e) (n + 1) (snd (source_update_seq s (u16 e))) /\
  expected_prior (snd (source_update_seq s (u16 e))) = expected_prior s /\
  received_prior (snd (source_update_seq s (u16 e))) = received_prior s.
Proof.
  intros [C1 C2 C3 C4 C5] He. unfold source_update_seq. rewrite C1, C2, u16_sub. cbn [Z.eqb negb].
  destruct (decide (h <= e)) as [Hle|Hlt].
  - rewrite (u16_small (e - h)) by lia. replace (e - h <? MAX_DROPOUT) with true by (unfold MAX_DROPOUT; lia).
    rewrite Z.max_r by lia. pose proof (cycles_step h e ltac:(lia)) as Hc.
    destruct (Z.ltb_spec (u16 e) (u16 h)) as [Hw|Hw]; cbn; (split; [split; cbn; try done|done]).
    + rewrite C4, u32_add_l. change RTP_SEQ_MOD with (2 ^ 16). f_equal. lia.
    + by rewrite C5, u32_add_l.
    + rewrite C4. f_equal. lia.
    + by rewrite C5, u32_add_l.
  - assert (Hu : u16 (e - h) = 2 ^ 16 + (e - h)) by (unfold u16; dlia). rewrite Hu.
    unfold MAX_DROPOUT, MAX_MISORDER. change RTP_SEQ_MOD with (2 ^ 16).
    replace (2 ^ 16 + (e - h) <? 3000) with false by lia.
    replace (2 ^ 16 + (e - h) <=? 2 ^ 16 - 100) with false by lia. rewrite Z.max_l by lia.
    cbn. split; [split; cbn; try done|done]. by rewrite C5, u32_add_l.
Qed.

Lemma feed_counts e0 h n s es : counts e0 h n s -> in_step h es ->
  counts e0 (highest h es) (n + zlen es) (feed s es) /\
  expected_prior (feed s es) = expected_prior s /\ received_prior (feed s es) = received_prior s.
Proof.
  revert h n s. induction es as [|e es IH]; intros h n s Hc Hs.
  { cbn. change (zlen (@nil Z)) with 0. by rewrite Z.add_0_r. }
  destruct Hs as [He Hs]. unfold MAX_MISORDER, MAX_DROPOUT in He.
  destruct (update_counts _ _ _ _ _ Hc He) as (Hc' & E1 & E2).
  destruct (IH _ _ _ Hc' Hs) as (Hc2 & F1 & F2). cbn [feed highest fold_left].
  unfold feed, highest in *. rewrite F1, F2, E1, E2. split; [|done].
  replace (n + zlen (e :: es)) with (n + 1 + zlen es) by (rewrite zlen_cons; lia). done.
Qed.

Lemma highest_ge h es : h <= highest h es.
Proof.
  unfold highest. revert h. induction es as [|e es IH]; intros h; cbn [fold_left]; [lia|].
  specialize (IH (Z.max h e)). lia.
Qed.

(** ** Losses *)

Lemma expected_counts e0 h n s : counts e0 h n s -> e0 <= h -> h - e0 + 1 < 2 ^ 31 ->
  calc_expected s = h - e0 + 1.
Proof.
  intros [_ C2 C3 C4 _] Hh Hr. unfold calc_expected. rewrite C2, C3, C4, u32_add_l.
  rewrite <- (i32_u32 (h - e0 + 1)) by lia. unfold i32, u32, u16. dlia.
Qed.

Definition clamp24 (z : Z) : Z := Z.max (- 0x7fffff) (Z.min 0x7fffff z).

Lemma lost_counts e0 h n s : counts e0 h n s -> e0 <= h -> h - e0 + 1 < 2 ^ 31 -> 0 <= n < 2 ^ 31 ->
  source_calc_lost s = clamp24 (h - e0 + 1 - n).
Proof.
  intros Hc Hh Hr Hn. unfold source_calc_lost. rewrite (expected_counts _ _ _ _ Hc Hh Hr).
  rewrite (ct_received _ _ _ _ Hc), (u32_small n), i32_u32 by lia. unfold clamp24.
  destruct (Z.ltb_spec 0x7fffff (h - e0 + 1 - n)), (Z.ltb_spec (h - e0 + 1 - n) (- 0x7fffff)); lia.
Qed.

(** The share of 256 that was lost among [expected] packets of an interval. *)
Definition fraction_of (expected n : Z) : Z :=
  if expected <=? n then 0 else 256 * (expected - n) / expected.

Lemma fraction_counts e0 h n s : counts e0 h n s -> e0 <= h -> h - e0 + 1 < 2 ^ 23 -> 0 <= n < 2 ^ 23 ->
  0 <= expected_prior s <= h - e0 + 1 -> 0 <= received_prior s <= n ->
  (expected_prior s < h - e0 + 1 -> received_prior s < n) ->
  source_calc_fraction_lost s = Some
    (fraction_of (h - e0 + 1 - expected_prior s) (n - received_prior s), set_prior (h - e0 + 1) n s).
Proof.
  intros Hc Hh Hr Hn Hep Hrp Hone. unfold source_calc_fraction_lost.
  rewrite (expected_counts _ _ _ _ Hc Hh ltac:(lia)), (ct_received _ _ _ _ Hc).
  rewrite (u32_small n), !i32_u32, u32_small by lia.
  set (ei := h - e0 + 1 - expected_prior s) in *. set (ri := n - received_prior s) in *.
  assert (Hli : int_ (ei - ri) = Some (ei - ri)).
  { unfold int_. by replace (_ && _) with true by lia. }
  rewrite Hli. cbn [mbind option_bind]. unfold fraction_of. destruct (Z.leb_spec ei ri).
  - by replace ((ei =? 0) || (ei - ri <=? 0)) with true by lia.
  - replace ((ei =? 0) || (ei - ri <=? 0)) with false by lia.
    assert (Hx : int_ ((ei - ri) * 2 ^ 8) = Some ((ei - ri) * 2 ^ 8)).
    { unfold int_. by replace (_ && _) with true by lia. }
    rewrite Hx. cbn [mbind option_bind]. rewrite Z.quot_div_nonneg by lia.
    replace ((ei - ri) * 2 ^ 8) with (256 * (ei - ri)) by lia. do 3 f_equal. apply u8_small.
    split; [apply Z.div_pos; lia|]. apply Z.div_lt_upper_bound; lia.
Qed.

Lemma set_prior_counts e0 h n ep rp s : counts e0 h n s -> counts e0 h n (set_prior ep rp s).
Proof. by intros [? ? ? ? ?]. Qed.

(** A packet with a higher number has arrived when the highest has grown. *)
Lemma highest_len h es : h < highest h es -> 0 < zlen es.
Proof. destruct es; cbn; [lia|]. intros _. rewrite zlen_cons. pose proof (zlen_nonneg es). lia. Qed.

(** C33: the loss statistics are those of RFC 3550.  A source that starts at
    the extended number [e0] and receives the packets [e0 :: a] before and
    [b] after a report, each at most 3000 ahead of or 99 behind the highest
    number so far, in any order and across any number of wrap-arounds,
    reports as lost exactly what is missing up to the highest number,
    and the second report's fraction is the rounded-down share of the
    packets that were expected in its interval; it never exceeds 255. *)
Theorem source_reports_losses e0 a b
  (Ha : in_step e0 (e0 :: a)) (Hb : in_step (highest e0 (e0 :: a)) b)
  (Hr : highest (highest e0 (e0 :: a)) b - e0 + 1 < 2 ^ 23) (Hn : zlen (e0 :: a) + zlen b < 2 ^ 23) :
  let h1 := highest e0 (e0 :: a) in
  let h2 := highest h1 b in
  exists f1 s1 f2 s2,
    source_calc_fraction_lost (feed (source_init_seq source_zero (u16 e0)) (e0 :: a)) = Some (f1, s1) /\
    source_calc_fraction_lost (feed s1 b) = Some (f2, s2) /\
    source_calc_lost s1 = h1 - e0 + 1 - zlen (e0 :: a) /\
    source_calc_lost s2 = h2 - e0 + 1 - (zlen (e0 :: a) + zlen b) /\
    f1 = fraction_of (h1 - e0 + 1) (zlen (e0 :: a)) /\ f2 = fraction_of (h2 - h1) (zlen b) /\
    0 <= f2 < 256.
Proof.
  intros h1 h2. set (n1 := zlen (e0 :: a)) in *. set (n2 := zlen b) in *.
  assert (Hh1 : e0 <= h1) by apply highest_ge. assert (Hh2 : h1 <= h2) by apply highest_ge.
  assert (H0n1 : 0 < n1) by (unfold n1; rewrite zlen_cons; pose proof (zlen_nonneg a); lia).
  assert (H0n2 : 0 <= n2) by apply zlen_nonneg. fold h1 in Hr. fold h2 in Hr.
  destruct (feed_counts e0 e0 0 _ _ (counts_init e0) Ha) as (C1 & E1 & R1).
  rewrite Z.add_0_l in C1. fold h1 n1 in C1.
  set (s := feed (source_init_seq source_zero (u16 e0)) (e0 :: a)) in *.
  change (expected_prior s = 0) in E1. change (received_prior s = 0) in R1.
  pose proof (fraction_counts e0 h1 n1 s C1 Hh1) as F1. rewrite E1, R1, !Z.sub_0_r in F1.
  specialize (F1 ltac:(lia) ltac:(lia) ltac:(lia) ltac:(lia) ltac:(lia)).
  assert (C1' : counts e0 h1 n1 (set_prior (h1 - e0 + 1) n1 s)) by (by apply set_prior_counts).
  destruct (feed_counts e0 h1 n1 _ _ C1' Hb) as (C2 & E2 & R2). fold h2 n2 in C2.
  cbn [set_prior set_seq expected_prior received_prior] in E2, R2.
  set (s2 := feed (set_prior (h1 - e0 + 1) n1 s) b) in *.
  pose proof (fraction_counts e0 h2 (n1 + n2) s2 C2 ltac:(lia)) as F2. rewrite E2, R2 in F2.
  assert (Hlen : h1 < h2 -> 0 < n2) by apply highest_len.
  specialize (F2 ltac:(lia) ltac:(lia) ltac:(lia) ltac:(lia) ltac:(lia)).
  replace (h2 - e0 + 1 - (h1 - e0 + 1)) with (h2 - h1) in F2 by lia.
  replace (n1 + n2 - n1) with n2 in F2 by lia.
  do 4 eexists. split_and!; [exact F1|exact F2| | |done|done|..].
  - rewrite (lost_counts e0 h1 n1) by (done || lia). unfold clamp24. lia.
  - rewrite (lost_counts e0 h2 (n1 + n2)) by (by apply set_prior_counts || lia). unfold clamp24. lia.
  - unfold fraction_of. destruct (Z.leb_spec (h2 - h1) n2); [lia|]. apply Z.div_pos; lia.
  - unfold fraction_of. destruct (Z.leb_spec (h2 - h1) n2); [lia|]. apply Z.div_lt_upper_bound; lia.
Qed.

Lemma source_reports_losses_witness :
  let h1 := highest 65534 [65534; 65535; 65538] in
  let h2 := highest h1 [65537; 65542] in
  exists f1 s1 f2 s2,
    source_calc_fraction_lost (feed (source_init_seq source_zero (u16 65534)) [65534; 65535; 65538]) = Some (f1, s1) /\
    source_calc_fraction_lost (feed s1 [65537; 65542]) = Some (f2, s2) /\
    source_calc_lost s1 = h1 - 65534 + 1 - 3 /\
    source_calc_lost s2 = h2 - 65534 + 1 - (3 + 2) /\
    f1 = fraction_of (h1 - 65534 + 1) 3 /\ f2 = fraction_of (h2 - h1) 2 /\ 0 <= f2 < 256.
Proof.
  apply (source_reports_losses 65534 [65535; 65538] [65537; 65542]); vm_compute; repeat split; congruence.
Defined.

(** ** Jitter *)

(** Feeding timestamps with their arrival times. *)
Fixpoint feed_times (s : rtp_source) (l : list (Z * Z)) : option rtp_source :=
  match l with
  | [] => Some s
  | (ts, arrival) :: l => s ← source_calc_jitter s ts arrival; feed_times s l
  end.

Definition transit_of (x : Z * Z) : Z := i32 (u32 (x.2 - x.1)).

(** Successive transit times differ by at most [d]. *)
Fixpoint steady (d : Z) (tr : Z) (l : list (Z * Z)) : Prop :=
  match l with
  | [] => True
  | x :: l => Z.abs (transit_of x - tr) <= d /\ steady d (transit_of x) l
  end.

Lemma jitter_step d s x : 0 <= d <= 2 ^ 26 -> 0 <= jitter s <= 16 * d -> Z.abs (transit_of x - transit s) <= d ->
  exists s', source_calc_jitter s x.1 x.2 = Some s' /\ transit s' = transit_of x /\ 0 <= jitter s' <= 16 * d.
Proof.
  intros Hd Hj Hx. unfold source_calc_jitter. fold (transit_of x).
  assert (Hi : forall z, Z.abs z <= d -> int_ z = Some z).
  { intros z Hz. unfold int_. by replace (_ && _) with true by lia. }
  rewrite Hi by lia. cbn [mbind option_bind]. destruct (Z.eqb_spec (transit s) 0); [by eexists|].
  assert (Ha : (if transit_of x - transit s <? 0 then int_ (- (transit_of x - transit s))
    else Some (transit_of x - transit s)) = Some (Z.abs (transit_of x - transit s))).
  { destruct (Z.ltb_spec (transit_of x - transit s) 0); [rewrite Hi by lia|]; f_equal; lia. }
  rewrite Ha. cbn [mbind option_bind]. set (v := Z.abs (transit_of x - transit s)) in *.
  assert (Hv : 0 <= v <= d) by lia. eexists. split; [done|]. split; [done|]. cbn.
  rewrite (u32_small (jitter s + 8)), Z.shiftr_div_pow2 by lia.
  assert (0 <= jitter s + (v - (jitter s + 8) / 2 ^ 4) <= 16 * d) by dlia. rewrite u32_small by lia. done.
Qed.

(** The jitter estimate never exceeds the jitter.  While successive
    transit times differ by at most [d] (and [d] is at most 2^26), however
    long the stream, the computation does not overflow and the reported
    jitter, a sixteenth of the stored value, is at most [d]. *)
Theorem jitter_bounded d s l
  (Hd : 0 <= d <= 2 ^ 26) (Hj : 0 <= jitter s <= 16 * d) (Hl : steady d (transit s) l) :
  exists s', feed_times s l = Some s' /\ 0 <= Z.shiftr (jitter s') 4 <= d.
Proof.
  revert s Hj Hl. induction l as [|[ts arr] l IH]; intros s Hj Hl.
  - exists s. split; [done|]. rewrite Z.shiftr_div_pow2 by lia. dlia.
  - destruct Hl as [Hx Hl]. destruct (jitter_step d s (ts, arr) Hd Hj Hx) as (s1 & E & Ht & Hj1).
    cbn [feed_times]. cbn [fst snd] in E. rewrite E. cbn [mbind option_bind]. apply IH; [done|].
    by rewrite Ht.
Qed.

Lemma jitter_bounded_witness :
  exists s', feed_times (set_transit 40 0 source_zero) [(0, 100); (160, 250); (320, 420)] = Some s' /\
    0 <= Z.shiftr (jitter s') 4 <= 60.
Proof.
  apply (jitter_bounded 60 (set_transit 40 0 source_zero) [(0, 100); (160, 250); (320, 420)]);
    vm_compute; repeat split; congruence.
Defined.

(** Between two packets whose transit times are far apart it does overflow. *)
Example jitter_overflows :
  source_calc_jitter (set_transit (2 ^ 30) 0 source_zero) (2 ^ 31 - 1) 0 = None.
Proof. reflexivity. Qed.
