(* ===== verification/RtcpSessProps.v ===== *)
(** * Properties of RTCP sessions

    The member table and its counters agree in every state; the report that
    a session sends is decoded to a sender report with one block for every
    sender, and a description with the canonical name. *)

From stdpp Require Import gmap.
From S2P Require Import Prelude Effects Mbuf MbufProps Rtp Codec RtcpPkt RtcpPktProps RtcpRoundtrip Hash RtcpSess RtcpSourceProps.
Import Mb Rtp Rtcp Ht Sess.

(** ** The invariant *)

Record source_ok (s : rtp_source) : Prop := {
  so_max : 0 <= max_seq s < 65536;
  so_cycles : u32v (cycles s);
  so_jitter : u32v (jitter s);
  so_hi : u32v (last_sr_hi s);
  so_lo : u32v (last_sr_lo s) }.

Definition member_ok (m : rtp_member) : Prop :=
  u32v (m_src m) /\ forall s, m_s m = Some s -> source_ok s.

Definition src_of (h : gmap nat rtp_member) (a : nat) : Z := default 0 (m_src <$> h !! a).

Definition sends (h : gmap nat rtp_member) (a : nat) : bool :=
  match h !! a with Some m => bool_decide (is_Some (m_s m)) | None => false end.

(** [l]: the members in the order in which they joined. *)
Record sinv (c : rtcp_sess) (l : list nat) : Prop := {
  si_table : holds (src_of (heap c)) (members c) l;
  si_nodup : NoDup l;
  si_heap : forall a, a ∈ l <-> is_Some (heap c !! a);
  si_src : forall a b m m', heap c !! a = Some m -> heap c !! b = Some m' -> m_src m = m_src m' -> a = b;
  si_next : forall a, a ∈ l -> (a < next c)%nat;
  si_memberc : memberc c = zlen l;
  si_max : zlen l <= MAX_MEMBERS;
  si_senderc : senderc c = zlen (filter (fun a => sends (heap c) a = true) l);
  si_ok : forall a m, heap c !! a = Some m -> member_ok m }.

(** The invariant reads five members of the session. *)
Lemma sinv_ext c c' l :
  members c' = members c -> heap c' = heap c -> next c' = next c -> memberc c' = memberc c ->
  senderc c' = senderc c -> sinv c l -> sinv c' l.
Proof.
  intros E1 E2 E3 E4 E5 [H1 H2 H3 H4 H5 H6 H7 H8 H9]. split; rewrite ?E1, ?E2, ?E3, ?E4, ?E5; done.
Qed.

Lemma filter_le {A} (P : A -> Prop) `{forall x, Decision (P x)} l : zlen (filter P l) <= zlen l.
Proof.
  induction l as [|x l IH]; [done|]. rewrite filter_cons. destruct (decide (P x)); rewrite ?zlen_cons; lia.
Qed.

Section Ops.
Context (alloc_ok : Z -> bool).

(** A lookup finds the member of a source, if there is one. *)
Lemma find_run c l src : sinv c l ->
  exists r, member_find src c = Some (r, c) /\
    match r with
    | Some a => exists m, heap c !! a = Some m /\ m_src m = src
    | None => forall a m, heap c !! a = Some m -> m_src m <> src
    end.
Proof.
  intros H. unfold member_find, mbind, M_bind, gets.
  assert (Hlive : forall a, a ∈ l -> exists m, heap c !! a = Some m).
  { intros a Ha. by apply (si_heap _ _ H) in Ha as [m Hm]; exists m. }
  set (p := fun a => match heap c !! a with Some m => m_src m =? src | None => false end).
  rewrite (lookup_find (src_of (heap c)) (members c) l (hash_cmp_handler src) p src c (si_table _ _ H)).
  2:{ intros a Ha. destruct (Hlive a Ha) as [m Hm]. unfold hash_cmp_handler, get_mbr, mbind, M_bind, gets, p.
      by rewrite Hm. }
  2:{ intros a. unfold p, src_of. destruct (heap c !! a) as [m|]; [|done]. cbn. lia. }
  eexists. split; [done|]. destruct (list_find _ l) as [[i a]|] eqn:E; cbn.
  - apply list_find_Some in E as (Hi & Hp & _). apply list_elem_of_lookup_2 in Hi.
    destruct (Hlive a Hi) as [m Hm]. exists m. split; [done|]. unfold p in Hp. rewrite Hm in Hp. lia.
  - apply list_find_None in E. rewrite Forall_forall in E. intros a m Hm.
    assert (Ha : a ∈ l) by (apply (si_heap _ _ H); by eexists). specialize (E a Ha). unfold p in E.
    rewrite Hm in E. lia.
Qed.

Lemma filter_agree {A} (P Q : A -> Prop) `{forall x, Decision (P x)} `{forall x, Decision (Q x)} (l : list A) :
  (forall x, x ∈ l -> P x <-> Q x) -> filter P l = filter Q l.
Proof.
  induction l as [|x l IH]; intros E; [done|]. rewrite !filter_cons.
  rewrite IH by (intros y Hy; apply E; by right).
  destruct (decide (P x)) as [HP|HP], (decide (Q x)) as [HQ|HQ]; try done; exfalso;
    rewrite (E x) in HP by left; done.
Qed.

(** A member changes, but not its source number; [n] members send then. *)
Lemma put_gen c l a m m' n : sinv c l -> heap c !! a = Some m -> m_src m' = m_src m -> member_ok m' ->
  n = zlen (filter (fun b => sends (<[a := m']> (heap c)) b = true) l) ->
  sinv (set_senderc n (set_heap (<[a := m']> (heap c)) c)) l.
Proof.
  intros [H1 H2 H3 H4 H5 H6 H7 H8 H9] Ha Hsrc Hok Hn.
  split; cbn [heap members next memberc senderc set_heap set_senderc]; try done.
  - eapply holds_ext; [|exact H1]. intros b _. unfold src_of. destruct (decide (b = a)) as [->|].
    + rewrite lookup_insert_eq, Ha. cbn. done.
    + by rewrite lookup_insert_ne.
  - intros b. rewrite H3. destruct (decide (b = a)) as [->|].
    + rewrite lookup_insert_eq, Ha. split; by eexists.
    + by rewrite lookup_insert_ne.
  - intros b1 b2 m1 m2 E1 E2 E.
    apply lookup_insert_Some in E1 as [[<- <-]|[N1 E1]], E2 as [[<- <-]|[N2 E2]]; [done| | |by eapply H4].
    + eapply H4; [exact Ha|exact E2|congruence].
    + eapply H4; [exact E1|exact Ha|congruence].
  - intros b mb Hb. apply lookup_insert_Some in Hb as [[<- <-]|[_ Hb]]; [done|]. by eapply H9.
Qed.

(** Neither does it change whether it sends. *)
Lemma put_same c l a m m' : sinv c l -> heap c !! a = Some m -> m_src m' = m_src m ->
  (is_Some (m_s m') <-> is_Some (m_s m)) -> member_ok m' ->
  sinv (set_heap (<[a := m']> (heap c)) c) l.
Proof.
  intros H Ha Hsrc Hs Hok. apply sinv_ext with (set_senderc (senderc c) (set_heap (<[a := m']> (heap c)) c));
    try done. apply (put_gen c l a m m'); try done. rewrite (si_senderc _ _ H). f_equal.
  apply filter_agree. intros b _. unfold sends. destruct (decide (b = a)) as [->|].
  - rewrite lookup_insert_eq, Ha, !bool_decide_eq_true. by rewrite Hs.
  - by rewrite lookup_insert_ne.
Qed.

(** A member starts to send. *)
Lemma put_sender c l a m s : sinv c l -> heap c !! a = Some m -> m_s m = None -> source_ok s ->
  sinv (set_senderc (u32 (senderc c + 1)) (set_heap (<[a := set_m_s (Some s) m]> (heap c)) c)) l.
Proof.
  intros H Ha Hn Hs. assert (Hal : a ∈ l) by (apply (si_heap _ _ H); by eexists).
  pose proof (si_max _ _ H) as Hmax. pose proof (si_senderc _ _ H) as Hc.
  pose proof (filter_le (fun b => sends (heap c) b = true) l) as Hle. pose proof (zlen_nonneg (filter (fun b => sends (heap c) b = true) l)).
  rewrite u32_small by (unfold MAX_MEMBERS in *; lia). eapply put_gen; try done.
  { split; [by apply (si_ok _ _ H _ _ Ha)|]. by intros s' [= <-]. }
  rewrite Hc. pose proof (si_nodup _ _ H) as Hnd. clear - Ha Hn Hal Hnd.
  set (h' := <[a := _]> _). induction Hnd as [|b l Hb Hnd IH]; [by apply elem_of_nil in Hal|].
  rewrite !filter_cons. destruct (decide (b = a)) as [->|Hne].
  - assert (S1 : sends h' a = true) by (unfold sends, h'; rewrite lookup_insert_eq; by apply bool_decide_eq_true).
    assert (S2 : sends (heap c) a = false).
    { unfold sends. rewrite Ha, Hn. apply bool_decide_eq_false. by intros [? ?]. }
    rewrite S1, S2. cbn [decide]. rewrite decide_False, decide_True, zlen_cons by done. do 2 f_equal.
    apply filter_agree. intros x Hx. unfold sends, h'. rewrite lookup_insert_ne; [done|]. by intros ->.
  - apply elem_of_cons in Hal as [->|Hal]; [done|]. specialize (IH Hal).
    replace (sends h' b) with (sends (heap c) b) by (unfold sends, h'; by rewrite lookup_insert_ne).
    destruct (decide (sends (heap c) b = true)); rewrite ?zlen_cons; lia.
Qed.

(** A new member joins. *)
Lemma join_inv c l src : sinv c l -> zlen l < MAX_MEMBERS -> u32v src ->
  (forall a m, heap c !! a = Some m -> m_src m <> src) ->
  exists h', hash_append (members c) src (next c) = Some h' /\
  sinv (set_memberc (u32 (memberc c + 1)) (set_heap (<[next c := mk_member None src 0 0 0]> (heap c))
    (set_members h' (set_next (S (next c)) c)))) (l ++ [next c]).
Proof.
  intros [H1 H2 H3 H4 H5 H6 H7 H8 H9] Hlt Hsrc Hnew. set (a := next c) in *.
  assert (Hfresh : heap c !! a = None).
  { destruct (heap c !! a) as [m|] eqn:E; [|done]. assert (Ha : a ∈ l) by (apply H3; by eexists).
    apply H5 in Ha. unfold a in Ha. lia. }
  assert (Hne : forall b, b ∈ l -> b <> a) by (intros b Hb ->; apply H5 in Hb; unfold a in Hb; lia).
  set (h2 := <[a := mk_member None src 0 0 0]> (heap c)) in *.
  assert (Hka : src_of h2 a = src) by (unfold src_of, h2; by rewrite lookup_insert_eq).
  assert (Hold : forall b, b <> a -> h2 !! b = heap c !! b) by (intros b Hb; by apply lookup_insert_ne).
  pose proof (zlen_nonneg l).
  assert (Ht : holds (src_of h2) (members c) l).
  { eapply holds_ext; [|exact H1]. intros b Hb. unfold src_of. by rewrite Hold by (by apply Hne). }
  destruct (append_new (src_of h2) (members c) l a Ht ltac:(intros Ha; by apply (Hne a))) as (h' & E & Hh). rewrite Hka in E.
  exists h'. split; [done|].
  split; cbn [heap members next memberc senderc set_heap set_senderc set_memberc set_members set_next]; try done.
  - apply NoDup_app. split_and!; [done| |apply NoDup_singleton]. intros b Hb Hb'%list_elem_of_singleton.
    by apply (Hne b).
  - intros b. rewrite elem_of_app, list_elem_of_singleton. destruct (decide (b = a)) as [->|Hb].
    + unfold h2. rewrite lookup_insert_eq. split; [by eexists|]. by right.
    + rewrite Hold, <- H3 by done. tauto.
  - intros b1 b2 m1 m2 E1 E2 Eq. apply lookup_insert_Some in E1 as [[<- <-]|[N1 E1]], E2 as [[<- <-]|[N2 E2]];
      [done| | |by eapply H4].
    + cbn in Eq. by apply Hnew in E2.
    + cbn in Eq. by apply Hnew in E1.
  - intros b [Hb|Hb%list_elem_of_singleton]%elem_of_app; [apply H5 in Hb; unfold a; lia|rewrite Hb; unfold a; lia].
  - rewrite H6, zlen_app, u32_small by (unfold MAX_MEMBERS in *; lia). done.
  - rewrite zlen_app. change (zlen [a]) with 1. lia.
  - rewrite H8, filter_app, zlen_app.
    assert (Hs : sends h2 a = false) by (unfold sends, h2; rewrite lookup_insert_eq; apply bool_decide_eq_false; by intros [? ?]).
    rewrite filter_cons, Hs. rewrite decide_False by done. rewrite filter_nil.
    change (zlen (@nil nat)) with 0. rewrite Z.add_0_r. f_equal. apply filter_agree. intros b Hb. unfold sends.
    by rewrite Hold by (by apply Hne).
  - intros b m Hb. apply lookup_insert_Some in Hb as [[<- <-]|[_ Hb]]; [|by eapply H9]. by split.
Qed.

Lemma get_member_run c l src : sinv c l -> u32v src ->
  exists r c' l', get_member alloc_ok src c = Some (r, c') /\ sinv c' l' /\
    match r with Some a => exists m, heap c' !! a = Some m /\ m_src m = src | None => True end.
Proof.
  intros H Hsrc. unfold get_member, mbind at 1, M_bind at 1.
  destruct (find_run c l src H) as ([a|] & -> & Hf).
  { exists (Some a), c, l. done. }
  unfold gets, mbind, M_bind. destruct (Z.leb_spec MAX_MEMBERS (memberc c)).
  { exists None, c, l. done. }
  unfold member_add. destruct (alloc_ok 64); cbn [negb]; [|by exists None, c, l].
  unfold mbind, M_bind, gets, modify. cbn [members set_next].
  destruct (join_inv c l src H) as (h' & E & Hj); [by rewrite <- (si_memberc _ _ H)|done|done|].
  rewrite E. unfold of_option, put_mbr, modify. cbn [heap set_members set_next].
  do 3 eexists. split; [done|]. split.
  - exact Hj.
  - eexists. split; [apply lookup_insert_eq|done].
Qed.

Lemma nodup_remove (l : list nat) a : NoDup l -> a ∈ l ->
  exists l1 l2, l = l1 ++ a :: l2 /\ filter (fun b => b <> a) l = l1 ++ l2 /\ (forall b, b ∈ l1 ++ l2 -> b <> a).
Proof.
  intros Hnd (l1 & l2 & ->)%list_elem_of_split. exists l1, l2.
  apply NoDup_app in Hnd as (_ & H1 & [H2 _]%NoDup_cons).
  assert (Hne : forall b, b ∈ l1 ++ l2 -> b <> a).
  { intros b [Hb|Hb]%elem_of_app ->; [|done]. apply (H1 a Hb). by left. }
  split_and!; [done| |done]. rewrite filter_app, filter_cons_False by (by intros []).
  rewrite <- filter_app. clear H1 H2. induction (l1 ++ l2) as [|b r IH]; [done|].
  rewrite filter_cons_True by (apply Hne; left). f_equal. apply IH. intros x Hx. apply Hne. by right.
Qed.

(** A member leaves. *)
Lemma leave_inv c l a m : sinv c l -> heap c !! a = Some m ->
  sinv (set_heap (delete a (heap c)) (set_members (hash_unlink a (members c))
    (set_memberc (u32 (memberc c - 1))
      (set_senderc (if sends (heap c) a then u32 (senderc c - 1) else senderc c) c))))
    (filter (fun b => b <> a) l).
Proof.
  intros [H1 H2 H3 H4 H5 H6 H7 H8 H9] Ha. pose proof (zlen_nonneg l).
  destruct (nodup_remove l a H2) as (l1 & l2 & El & Ef & Hne); [by apply H3; eexists|].
  assert (Hold : forall b, b ∈ l1 ++ l2 -> delete a (heap c) !! b = heap c !! b)
    by (intros b Hb; apply lookup_delete_ne, not_eq_sym; by apply Hne).
  assert (Hn : zlen l = zlen (l1 ++ l2) + 1) by (rewrite El, !zlen_app, zlen_cons; lia).
  pose proof (zlen_nonneg (l1 ++ l2)). unfold MAX_MEMBERS in *.
  split; cbn [heap members next memberc senderc set_heap set_senderc set_memberc set_members set_next].
  - rewrite Ef. eapply holds_ext; [|rewrite <- Ef; by apply unlink_holds]. intros b Hb. unfold src_of.
    by rewrite Hold.
  - by apply NoDup_filter.
  - intros b. rewrite list_elem_of_filter, H3, lookup_delete_is_Some. split; intros []; split; congruence.
  - intros b1 b2 m1 m2 [_ E1]%lookup_delete_Some [_ E2]%lookup_delete_Some. by apply H4.
  - intros b [_ Hb]%list_elem_of_filter. by apply H5.
  - rewrite Ef, H6, Hn, u32_small by lia. lia.
  - rewrite Ef. unfold MAX_MEMBERS. lia.
  - rewrite Ef. replace (filter (fun b => sends (delete a (heap c)) b = true) (l1 ++ l2))
      with (filter (fun b => sends (heap c) b = true) (l1 ++ l2))
      by (apply filter_agree; intros b Hb; unfold sends; by rewrite Hold).
    rewrite H8, El. rewrite !filter_app, filter_cons, !zlen_app.
    pose proof (filter_le (fun b => sends (heap c) b = true) l1). pose proof (filter_le (fun b => sends (heap c) b = true) l2).
    rewrite zlen_app in *. pose proof (zlen_nonneg (filter (fun b => sends (heap c) b = true) l1)).
    pose proof (zlen_nonneg (filter (fun b => sends (heap c) b = true) l2)).
    destruct (sends (heap c) a); cbn [decide]; [|by rewrite decide_False].
    rewrite decide_True, zlen_cons by done. rewrite u32_small by lia. lia.
  - intros b mb [_ Hb]%lookup_delete_Some. by eapply H9.
Qed.

(** ** Programs over a session *)

Definition consistent (c : rtcp_sess) : Prop := exists l, sinv c l.
Definition live (a : nat) (c : rtcp_sess) : Prop := consistent c /\ is_Some (heap c !! a).

Lemma ok_for_count {A} P (f : A -> SM unit) v : (forall x, x ∈ v -> ok P (f x) (fun _ => P)) ->
  forall n i, (i + n <= length v)%nat -> ok P (for_count n i v f) (fun _ => P).
Proof.
  intros Hf. induction n as [|n IH]; intros i Hi; cbn [for_count]; [apply ok_ret|].
  destruct (lookup_lt_is_Some_2 v i) as [x Hx]; [lia|]. rewrite Hx.
  eapply ok_bind with (Q := fun y c => y = x /\ P c); [intros c Hc; by exists x, c|].
  intros y. intros c [-> Hc].
  eapply (ok_bind P (fun _ => P)); [apply Hf; by eapply list_elem_of_lookup_2| |done].
  intros _. apply IH. lia.
Qed.

Lemma get_member_runs src : u32v src ->
  ok consistent (get_member alloc_ok src)
    (fun r c => match r with Some a => live a c | None => consistent c end).
Proof.
  intros Hs c [l Hl]. destruct (get_member_run c l src Hl Hs) as (r & c' & l' & E & Hi & Hr).
  exists r, c'. split; [done|]. destruct r as [a|]; [|by exists l']. destruct Hr as (m & Hm & _).
  split; [by exists l'|by eexists].
Qed.

(** A member is replaced by one of the same source that sends as before. *)
Lemma member_put_runs a f :
  (forall m, m_src (f m) = m_src m) -> (forall m, is_Some (m_s (f m)) <-> is_Some (m_s m)) ->
  (forall m, member_ok m -> member_ok (f m)) ->
  ok (live a) (m ← get_mbr a; put_mbr a (f m)) (fun _ => live a).
Proof.
  intros H1 H2 H3 c [[l Hl] [m Hm]]. unfold get_mbr, put_mbr, gets, modify, mbind, M_bind, of_option.
  rewrite Hm. do 2 eexists. split; [done|]. split.
  - exists l. apply put_same with m; auto. apply H3. by eapply si_ok.
  - cbn. rewrite lookup_insert_eq. by eexists.
Qed.

Lemma rr_block_runs e a b : ok (live a) (handle_rr_block e a b) (fun _ => live a).
Proof.
  intros c Hc. pose (f := fun m => mk_member (m_s m) (m_src m) (lost b)
    (if srate_tx c =? 0 then m_jit m else u32 (1000000 * rr_jitter b) / srate_tx c)
    (if negb (lsr b =? 0) && negb (dlsr b =? 0)
     then default (m_rtt m) (calc_rtt e (lsr b) (dlsr b)) else m_rtt m)).
  destruct (member_put_runs a f ltac:(done) ltac:(done) ltac:(done) c Hc) as (x & c' & E & H). exists x, c'.
  split; [|done]. revert E. unfold handle_rr_block, get_mbr, put_mbr, gets, modify, mbind, M_bind, of_option.
  by destruct (heap c !! a).
Qed.

Lemma live_consistent a c : live a c -> consistent c.
Proof. by intros [H _]. Qed.

Lemma blocks_run e a n v : (n <= length v)%nat ->
  ok (live a) (for_count n 0 v (handle_rr_block e a)) (fun _ => consistent).
Proof.
  intros Hn. eapply ok_post; [apply ok_for_count; [|lia]|].
  - intros b _. apply rr_block_runs.
  - intros x c. apply live_consistent.
Qed.

Lemma rr_runs e n rssrc v : u32v rssrc -> (Z.to_nat n <= length v)%nat ->
  ok consistent (handle_incoming_rr alloc_ok e n rssrc v) (fun _ => consistent).
Proof.
  intros Hs Hn. eapply ok_bind; [by apply get_member_runs|]. intros [a|]; [by apply blocks_run|].
  apply ok_ret.
Qed.

Lemma sr_runs e n rssrc sec frac ts p o v :
  u32v rssrc -> u32v sec -> u32v frac -> (Z.to_nat n <= length v)%nat ->
  ok consistent (handle_incoming_sr alloc_ok e n rssrc sec frac ts p o v) (fun _ => consistent).
Proof.
  intros Hs H1 H2 Hn. eapply ok_bind; [by apply get_member_runs|]. intros [a|]; [|apply ok_ret].
  set (f := fun m => set_m_s (set_sr (jiffies e) sec frac ts p o <$> m_s m) m).
  assert (Hp : ok (live a) (m ← get_mbr a; put_mbr a (f m)) (fun _ => live a)).
  { apply member_put_runs; [done|intros m; unfold f; cbn; by rewrite fmap_is_Some|].
    intros m [Hm Hok]. split; [done|]. cbn. intros s. destruct (m_s m) as [s0|] eqn:Em; [|done].
    intros [= <-]. destruct (Hok s0 eq_refl). by split. }
  intros c Hc. destruct (Hp c Hc) as (x & c1 & E & L). pose proof Hc as [[l Hl] [m Hm]]. revert E.
  unfold f, get_mbr, put_mbr, gets, modify, mbind, M_bind, of_option. rewrite Hm.
  destruct (m_s m) as [s|] eqn:Es; intros [= <- <-]; by apply (blocks_run e a (Z.to_nat n) v Hn).
Qed.

Lemma bye_runs n v : (Z.to_nat n <= length v)%nat ->
  ok consistent (handle_incoming_bye n v) (fun _ => consistent).
Proof.
  intros Hn. apply ok_for_count; [|lia]. intros src _ c [l Hl].
  destruct (find_run c l src Hl) as (r & E & Hr). unfold mbind, M_bind. rewrite E.
  destruct r as [a|]; [|by exists tt, c; split; [|exists l]]. destruct Hr as (m & Hm & _).
  pose proof (leave_inv c l a m Hl Hm) as Hi.
  unfold get_mbr, member_deref, gets, modify, mbind, M_bind, of_option. rewrite Hm.
  unfold sends in Hi. rewrite Hm in Hi. destruct (m_s m); do 2 eexists; (split; [done|]); by eexists.
Qed.

Lemma handler_runs e msg : fits (hdr msg) (r msg) ->
  ok consistent (rtcp_handler alloc_ok e msg) (fun _ => consistent).
Proof.
  intros Hf. unfold rtcp_handler. destruct (r msg); cbn in Hf; try apply ok_ret.
  - destruct Hf as (? & ? & ? & ?). apply sr_runs; try done. lia.
  - destruct Hf. apply rr_runs; [done|lia].
  - apply bye_runs. lia.
Qed.

(** ** RTP packets *)

Lemma update_ok s seq : source_ok s -> 0 <= seq < 65536 -> source_ok (snd (source_update_seq s seq)).
Proof.
  intros [H1 H2 H3 H4 H5] Hs. unfold source_update_seq.
  assert (Hz : u32v (u32 (cycles s + RTP_SEQ_MOD))) by (unfold u32v, u32; apply Z.mod_pos_bound; lia).
  repeat case_match; split; done.
Qed.

(** The sequence numbers and the arrival times are apart. *)
Lemma update_times s seq :
  transit (snd (source_update_seq s seq)) = transit s /\ jitter (snd (source_update_seq s seq)) = jitter s.
Proof. unfold source_update_seq. repeat case_match; done. Qed.

Lemma jitter_ok s ts arr s' : source_ok s -> source_calc_jitter s ts arr = Some s' -> source_ok s'.
Proof.
  intros [H1 H2 H3 H4 H5]. unfold source_calc_jitter. destruct (int_ _) as [d|]; [|done]. cbn [mbind option_bind].
  destruct (_ =? _); [intros [= <-]; by split|].
  destruct (if d <? 0 then _ else _) as [d'|]; [|done]. cbn. intros [= <-]. split; try done.
  cbn. unfold u32v, u32. apply Z.mod_pos_bound. lia.
Qed.

(** The arrival of a packet is not so far from the one before that the
    difference overflows. *)
Definition no_jump (e : env) (ts : Z) (c : rtcp_sess) : Prop :=
  srate_rx c <> 0 -> forall a m s, heap c !! a = Some m -> m_s m = Some s ->
    is_Some (source_calc_jitter s ts (u32 (u64 (jiffies e * srate_rx c) / 1000))).

Lemma jitter_defined s s' ts arr : transit s' = transit s ->
  is_Some (source_calc_jitter s ts arr) -> is_Some (source_calc_jitter s' ts arr).
Proof.
  intros E. unfold source_calc_jitter. rewrite E. destruct (int_ _) as [d|]; [|done]. cbn [mbind option_bind].
  destruct (_ =? _); [done|]. destruct (if d <? 0 then _ else _); [done|]. done.
Qed.

Lemma jitter_first s ts arr : transit s = 0 -> is_Some (source_calc_jitter s ts arr).
Proof.
  intros E. unfold source_calc_jitter. rewrite E, Z.sub_0_r. unfold int_.
  assert (Hr : - 2 ^ 31 <= i32 (u32 (arr - ts)) < 2 ^ 31) by (unfold i32, u32; dlia).
  replace (_ && _) with true by lia. by eexists.
Qed.

Lemma get_member_heap c l src r c' : sinv c l -> get_member alloc_ok src c = Some (r, c') ->
  srate_rx c' = srate_rx c /\
  forall a m s, heap c' !! a = Some m -> m_s m = Some s -> heap c !! a = Some m.
Proof.
  intros Hl. unfold get_member, mbind at 1, M_bind at 1. destruct (find_run c l src Hl) as (f & -> & _).
  destruct f as [a|]; [by intros [= <- <-]|]. unfold gets, mbind, M_bind.
  destruct (_ <=? _); [by intros [= <- <-]|]. unfold member_add. destruct (negb _); [by intros [= <- <-]|].
  unfold mbind, M_bind, gets, modify, of_option. destruct (hash_append _ _ _); [|done].
  intros [= <- <-]. split; [done|]. cbn. intros a m s Hm Hs.
  apply lookup_insert_Some in Hm as [[<- <-]|[_ Hm]]; done.
Qed.

(** The packet is counted. *)
Lemma rx_counts e seq ts size c l a m s :
  sinv c l -> heap c !! a = Some m -> m_s m = Some s -> 0 <= seq < 65536 ->
  (srate_rx c <> 0 -> is_Some (source_calc_jitter s ts (u32 (u64 (jiffies e * srate_rx c) / 1000)))) ->
  exists c', (m ← get_mbr a; s ← of_option (m_s m);
    let '(_, s) := source_update_seq s seq in
    rate ← gets srate_rx;
    s ← (if rate =? 0 then mret s
         else of_option (source_calc_jitter s ts (u32 (u64 (jiffies e * rate) / 1000))));
    put_mbr a (set_m_s (Some (set_rx_bytes (usz (rtp_rx_bytes s + size)) s)) m)) c = Some (tt, c') /\ sinv c' l.
Proof.
  intros Hl Hm Hs Hseq Hj. pose proof (si_ok _ _ Hl _ _ Hm) as [Hsrc Hok]. specialize (Hok s Hs).
  pose proof (update_ok s seq Hok Hseq) as Hu. destruct (update_times s seq) as [Ht _].
  unfold get_mbr, put_mbr, gets, modify, mbind, M_bind, of_option. rewrite Hm, Hs.
  destruct (source_update_seq s seq) as [x s1]. cbn [snd] in *.
  assert (Hput : forall s', source_ok s' ->
    sinv (set_heap (<[a := set_m_s (Some (set_rx_bytes (usz (rtp_rx_bytes s' + size)) s')) m]> (heap c)) c) l).
  { intros s' [? ? ? ? ?]. apply (put_same c l a m); [done|done|done|cbn; rewrite Hs; split; by eexists|].
    split; [done|]. cbn. intros s2 [= <-]. by split. }
  destruct (Z.eqb_spec (srate_rx c) 0) as [E|E].
  - eexists. split; [done|]. by apply Hput.
  - destruct (jitter_defined s s1 _ _ Ht (Hj E)) as [s2 E2]. rewrite E2. eexists. split; [done|].
    apply Hput. by eapply jitter_ok.
Qed.

Lemma rx_run e seq ts rssrc size peer c : consistent c -> no_jump e ts c -> 0 <= seq < 65536 -> u32v rssrc ->
  exists c', rtcp_sess_rx_rtp alloc_ok e seq ts rssrc size peer c = Some (tt, c') /\ consistent c'.
Proof.
  intros [l Hl] Hj Hseq Hsrc. unfold rtcp_sess_rx_rtp, mbind at 1, M_bind at 1.
  destruct (get_member_run c l rssrc Hl Hsrc) as (r & c1 & l1 & E1 & H1 & Hr). rewrite E1.
  destruct r as [a|]; [|by exists c1; split; [|exists l1]]. destruct Hr as (m & Hm & _).
  destruct (get_member_heap c l rssrc _ _ Hl E1) as [Er Hold]. unfold no_jump in Hj. rewrite <- Er in Hj.
  unfold mbind at 1, M_bind at 1. unfold ensure_source, mbind at 1, M_bind at 1.
  unfold get_mbr at 1, mbind at 1, M_bind at 1, gets at 1, of_option at 1. rewrite Hm.
  destruct (m_s m) as [s|] eqn:Es.
  - destruct (rx_counts e seq ts size c1 l1 a m s H1 Hm Es Hseq) as (c' & E & Hc'); [by eauto|].
    exists c'. split; [exact E|by exists l1].
  - destruct (alloc_ok 152); [|by exists c1; split; [|exists l1]].
    set (s := set_peer peer (source_init_seq source_zero seq)).
    assert (Hs : source_ok s) by (split; done).
    pose proof (put_sender c1 l1 a m s H1 Hm Es Hs) as H2.
    destruct (rx_counts e seq ts size _ l1 a (set_m_s (Some s) m) s H2) as (c' & E & Hc'); try done.
    + cbn. by rewrite lookup_insert_eq.
    + intros _. by apply jitter_first.
    + exists c'. split; [exact E|by exists l1].
Qed.

(** ** Reports *)

Lemma consistent_ext c c' :
  members c' = members c -> heap c' = heap c -> next c' = next c -> memberc c' = memberc c ->
  senderc c' = senderc c -> consistent c -> consistent c'.
Proof. intros ????? [l Hl]. exists l. by apply (sinv_ext c). Qed.

Lemma fraction_ok s f s' : source_ok s -> source_calc_fraction_lost s = Some (f, s') -> source_ok s'.
Proof.
  intros [H1 H2 H3 H4 H5]. unfold source_calc_fraction_lost. intros E.
  assert (Hs : exists ep rp, s' = set_prior ep rp s); [|destruct Hs as (ep & rp & ->); by split].
  destruct (int_ _) as [d|]; [|done]. cbn [mbind option_bind] in E.
  destruct (_ || _); [injection E as _ <-; eauto|].
  destruct (int_ _) as [y|]; [|done]. cbn [mbind option_bind] in E. injection E as _ <-. eauto.
Qed.

Lemma sender_keeps e a : keeps consistent (sender_apply_handler e a).
Proof.
  intros c x c' [l Hl]. unfold sender_apply_handler, get_mbr, put_mbr, gets, modify, mbind, M_bind, of_option, sender_block.
  destruct (heap c !! a) as [m|] eqn:Hm; [|done]. pose proof (si_ok _ _ Hl _ _ Hm) as [Hsrc Hok].
  destruct (m_s m) as [s|] eqn:Es; [|intros [= <- <-]; by exists l].
  destruct (source_calc_fraction_lost s) as [[f s']|] eqn:Ef; [|done]. cbn. intros [= <- <-]. exists l.
  apply (put_same c l a m); [done|done|done|cbn; rewrite Es; split; by eexists|].
  split; [done|]. cbn. intros s2 [= <-]. by eapply fraction_ok; [apply Hok|].
Qed.

Lemma collect_keeps e l : keeps consistent (collect_blocks e l).
Proof.
  induction l as [|a l IH]; cbn [collect_blocks]; [apply keeps_ret|].
  apply keeps_bind; [apply sender_keeps|]. intros b. apply keeps_bind; [done|]. intros bs. apply keeps_ret.
Qed.

Lemma modify_keeps f : (forall c, members (f c) = members c /\ heap (f c) = heap c /\
  next (f c) = next c /\ memberc (f c) = memberc c /\ senderc (f c) = senderc c) -> keeps consistent (modify f).
Proof. intros Hf. apply keeps_modify. intros c. destruct (Hf c) as (?&?&?&?&?). by apply consistent_ext. Qed.

Context (junk : Z -> Z).

Lemma mk_sr_keeps e mb : keeps consistent (mk_sr alloc_ok junk e mb).
Proof.
  unfold mk_sr. pose proof collect_keeps. pose proof modify_keeps. auto 20 using keeps_if with effects.
Qed.

Lemma timeout_keeps e err : keeps consistent (timeout alloc_ok junk e err).
Proof.
  unfold timeout, send_rtcp_report, send_compound, mk_sdes, rtcp_send, schedule.
  apply keeps_bind; [|intros _; by apply modify_keeps]. destruct (mbuf_alloc _ _ _) as [mb|]; [|apply keeps_ret].
  apply keeps_bind; [apply mk_sr_keeps|]. intros [e1 mb1]. apply keeps_bind; [auto 10 with effects|]. intros [e2 mb2].
  apply keeps_if; [apply keeps_ret|]. destruct err as [err|]; [|apply keeps_ret]. apply keeps_bind; [apply keeps_of_option|]. intros d.
  apply keeps_bind; [by apply modify_keeps|]. intros _. apply keeps_ret.
Qed.
End Ops.
