(* ===== verification/RtpSock.v ===== *)
(** * RTP sockets

    Models the socket of re/src/rtp/rtp.c: the packets it makes, the ones it
    receives and how they reach its RTCP session ([Sess.rtcp_sess]) and the
    handlers of the application.  The UDP sockets are parameters: [listen]
    and [send_err] are their results.  The handlers of the application are
    recorded in [calls] and do not change the socket. *)

From S2P Require Import Prelude Effects Mbuf MbufProps Rtp Codec RtcpPkt RtcpSess.
Import Mb Rtp Rtcp.

Module Sock.

Definition RTP_VERSION : Z := 2.

(** A call of a handler of the application. *)
Inductive call :=
| Recvh (src : Z) (h : rtp_header) (mb : mbuf)
| Rtcph (src : Z) (msg : rtcp_msg).

(** [local]: the port; addresses of peers are opaque; [sock_rtp],
    [sock_rtcp]: whether the UDP sockets exist; [sent]: the datagrams given
    to them, by the RTP socket ([true]) or the RTCP socket. *)
Record rtp_sock := mk_sock {
  enc_seq : Z;
  enc_ssrc : Z;
  sock_rtp : bool;
  sock_rtcp : bool;
  local : Z;
  rtcp_peer : option Z;
  recvh : bool;
  rtcph : bool;
  rtcp : option Sess.rtcp_sess;
  rtcp_mux : bool;
  sent : list (bool * Z * list Z);
  calls : list call }.

Definition set_seq (x : Z) (rs : rtp_sock) : rtp_sock :=
  mk_sock x (enc_ssrc rs) (sock_rtp rs) (sock_rtcp rs) (local rs) (rtcp_peer rs) (recvh rs) (rtcph rs)
    (rtcp rs) (rtcp_mux rs) (sent rs) (calls rs).
Definition set_socks (p : Z) (rtp rtcp' : bool) (rs : rtp_sock) : rtp_sock :=
  mk_sock (enc_seq rs) (enc_ssrc rs) rtp rtcp' p (rtcp_peer rs) (recvh rs) (rtcph rs)
    (rtcp rs) (rtcp_mux rs) (sent rs) (calls rs).
Definition set_rtcp_peer (x : option Z) (rs : rtp_sock) : rtp_sock :=
  mk_sock (enc_seq rs) (enc_ssrc rs) (sock_rtp rs) (sock_rtcp rs) (local rs) x (recvh rs) (rtcph rs)
    (rtcp rs) (rtcp_mux rs) (sent rs) (calls rs).
Definition set_handlers (r c : bool) (rs : rtp_sock) : rtp_sock :=
  mk_sock (enc_seq rs) (enc_ssrc rs) (sock_rtp rs) (sock_rtcp rs) (local rs) (rtcp_peer rs) r c
    (rtcp rs) (rtcp_mux rs) (sent rs) (calls rs).
Definition set_rtcp (x : option Sess.rtcp_sess) (rs : rtp_sock) : rtp_sock :=
  mk_sock (enc_seq rs) (enc_ssrc rs) (sock_rtp rs) (sock_rtcp rs) (local rs) (rtcp_peer rs) (recvh rs)
    (rtcph rs) x (rtcp_mux rs) (sent rs) (calls rs).
Definition set_mux (x : bool) (rs : rtp_sock) : rtp_sock :=
  mk_sock (enc_seq rs) (enc_ssrc rs) (sock_rtp rs) (sock_rtcp rs) (local rs) (rtcp_peer rs) (recvh rs)
    (rtcph rs) (rtcp rs) x (sent rs) (calls rs).
Definition set_sent (x : list (bool * Z * list Z)) (rs : rtp_sock) : rtp_sock :=
  mk_sock (enc_seq rs) (enc_ssrc rs) (sock_rtp rs) (sock_rtcp rs) (local rs) (rtcp_peer rs) (recvh rs)
    (rtcph rs) (rtcp rs) (rtcp_mux rs) x (calls rs).
Definition set_calls (x : list call) (rs : rtp_sock) : rtp_sock :=
  mk_sock (enc_seq rs) (enc_ssrc rs) (sock_rtp rs) (sock_rtcp rs) (local rs) (rtcp_peer rs) (recvh rs)
    (rtcph rs) (rtcp rs) (rtcp_mux rs) (sent rs) x.

Abbreviation RM := (M rtp_sock).

Section Sock.
Context (alloc_ok : Z -> bool) (junk : Z -> Z).

(** A step of the RTCP session; without a session, nothing. *)
Definition on_sess (m : M Sess.rtcp_sess unit) : RM unit :=
  c ← gets rtcp;
  match c with
  | None => mret tt
  | Some c =>
    '(_, c) ← of_option (m c);
    modify (set_rtcp (Some c))
  end.

Definition log (x : call) : RM unit := modify (fun rs => set_calls (calls rs ++ [x]) rs).

(** [while (0 == rtcp_decode(&msg, mb))]; the buffer and the rest of the
    loop. *)
Fixpoint recv_loop (fuel : nat) (e : Sess.env) (src : Z) (mb : mbuf) : RM mbuf :=
  match fuel with
  | O => ub
  | S fuel =>
    '(err, m, mb) ← of_option (rtcp_decode alloc_ok mb);
    if negb (err =? 0) then mret mb else
    msg ← of_option m;
    on_sess (Sess.rtcp_handler alloc_ok e msg) ;;
    h ← gets rtcph;
    when h (log (Rtcph src msg)) ;;
    recv_loop fuel e src mb
  end.

(** Every message takes at least its header. *)
Definition rtcp_recv_handler (e : Sess.env) (src : Z) (mb : mbuf) : RM unit :=
  recv_loop (S (Z.to_nat (mbuf_get_left mb))) e src mb ;; mret tt.

Definition rtp_decode (mb : mbuf) : option (Z * rtp_header * mbuf) :=
  '(err, h, mb) ← rtp_hdr_decode mb;
  if negb (err =? 0) then Some (err, h, mb) else
  if negb (RTP_VERSION =? h_ver h) then Some (EBADMSG, h, mb) else
  Some (0, h, mb).

Definition recv_rtp (e : Sess.env) (src : Z) (mb : mbuf) : RM unit :=
  '(err, h, mb) ← of_option (rtp_decode mb);
  if negb (err =? 0) then mret tt else
  on_sess (Sess.rtcp_sess_rx_rtp alloc_ok e (h_seq h) (h_ts h) (h_ssrc h) (mbuf_get_left mb) src) ;;
  r ← gets recvh;
  when r (log (Recvh src h mb)).

Definition udp_recv_handler (e : Sess.env) (src : Z) (mb : mbuf) : RM unit :=
  mux ← gets rtcp_mux;
  if (mux : bool) then
    if mbuf_get_left mb <? 2 then mret tt else
    b ← of_option (rd (bytes mb) (mb_pos mb + 1));
    let pt := Z.land b 0x7f in
    if (64 <=? pt) && (pt <=? 95) then rtcp_recv_handler e src mb
    else recv_rtp e src mb
  else recv_rtp e src mb.

(** ** Sending *)

(** The code, the buffer and the socket; the number is taken before the
    header is written. *)
Definition rtp_encode (ext marker : bool) (pt ts : Z) (mb : mbuf) : RM (Z * mbuf) :=
  if negb (Z.land pt (Z.lnot 0x7f) =? 0) then mret (EINVAL, mb) else
  seq ← gets enc_seq;
  ssrc ← gets enc_ssrc;
  modify (set_seq (u16 (seq + 1))) ;;
  of_option (rtp_hdr_encode alloc_ok junk mb
    (mk_hdr RTP_VERSION false ext 0 marker pt seq ts ssrc [] 0 0)).

(** [udp_send]: the bytes from the position to the end. *)
Definition udp_send (send_err : Z) (by_rtp : bool) (dst : Z) (mb : mbuf) : RM Z :=
  d ← of_option (slice (bytes mb) (mb_pos mb) (mbuf_get_left mb));
  modify (fun rs => set_sent (sent rs ++ [(by_rtp, dst, d)]) rs) ;;
  mret send_err.

Definition rtp_send (e : Sess.env) (send_err dst : Z) (ext marker : bool) (pt ts : Z) (mb : mbuf) : RM (Z * mbuf) :=
  if mb_pos mb <? RTP_HEADER_SIZE then mret (EBADMSG, mb) else
  let mb := mbuf_advance mb (- RTP_HEADER_SIZE) in
  let pos := mb_pos mb in
  '(err, mb) ← rtp_encode ext marker pt ts mb;
  if negb (err =? 0) then mret (err, mb) else
  on_sess (Sess.rtcp_sess_tx_rtp e ts (mbuf_get_left mb)) ;;
  let mb := set_pos pos mb in
  err ← udp_send send_err true dst mb;
  mret (err, mb).

Definition rtcp_start (name : list Z) (peer : option Z) : RM unit :=
  (match peer with Some _ => modify (set_rtcp_peer peer) | None => mret tt end) ;;
  on_sess (Sess.rtcp_enable alloc_ok (bool_decide (is_Some peer)) name ;; mret tt).

Definition rtcp_enable_mux (enabled : bool) : RM unit := modify (set_mux enabled).

(** [sa_isset]: an address has a host and a port. *)
Definition rtcp_send (sa_isset : Z -> bool) (send_err : Z) (mb : mbuf) : RM Z :=
  rs ← gets id;
  match rtcp_peer rs with
  | Some peer =>
    if negb (sock_rtcp rs) || negb (sa_isset peer) then mret EINVAL
    else udp_send send_err (rtcp_mux rs) peer mb
  | None => mret EINVAL
  end.

(** One small packet. *)
Definition rtcp_quick_send (sa_isset : Z -> bool) (send_err count : Z) (a : rtcp_args) : RM Z :=
  match mbuf_alloc alloc_ok junk 32 with
  | None => mret ENOMEM
  | Some mb =>
    '(err, mb) ← of_option (rtcp_vencode alloc_ok junk count a (set_pos Sess.RTCP_HEADROOM mb));
    let mb := set_pos Sess.RTCP_HEADROOM mb in
    if err =? 0 then rtcp_send sa_isset send_err mb else mret err
  end.

Definition rtcp_send_app (sa_isset : Z -> bool) (send_err : Z) (name : list Z) (data : option (list Z)) : RM Z :=
  x ← gets enc_ssrc;
  rtcp_quick_send sa_isset send_err 0 (a_app x name data).
Definition rtcp_send_fir (sa_isset : Z -> bool) (send_err ssrc : Z) : RM Z :=
  rtcp_quick_send sa_isset send_err 0 (a_fir ssrc).
Definition rtcp_send_nack (sa_isset : Z -> bool) (send_err fsn blp : Z) : RM Z :=
  x ← gets enc_ssrc;
  rtcp_quick_send sa_isset send_err 0 (a_nack x fsn blp).
Definition rtcp_send_pli (sa_isset : Z -> bool) (send_err fb_ssrc : Z) : RM Z :=
  x ← gets enc_ssrc;
  rtcp_quick_send sa_isset send_err RTCP_PSFB_PLI (a_psfb x fb_ssrc None).

(** ** Opening a socket *)

(** sizeof(struct rtp_sock) is 176. *)
Definition rtp_alloc (rand16 rand32 : Z) : Z * option rtp_sock :=
  if negb (alloc_ok 176) then (ENOMEM, None) else
  (0, Some (mk_sock (Z.land rand16 0x7fff) rand32 false false 0 None false false None false [] [])).

(** [rand]: the random numbers of the tries; [listen]: the result of
    [udp_listen] on a port.  A remainder by zero is undefined. *)
Fixpoint listen_loop (tries : nat) (rand : nat -> Z) (listen : Z -> Z) (min_port max_port err : Z) (i : nat) (rs : rtp_sock)
  : option (Z * rtp_sock) :=
  match tries with
  | O => Some (err, rs)
  | S tries =>
    if max_port - min_port =? 0 then None else
    let port := Z.land (u16 (min_port + Z.rem (rand i) (max_port - min_port))) 0xfffe in
    let err := listen port in
    if negb (err =? 0) then listen_loop tries rand listen min_port max_port err (S i) (set_socks port false false rs)
    else
    let err := listen (u16 (port + 1)) in
    if negb (err =? 0) then listen_loop tries rand listen min_port max_port err (S i) (set_socks port false false rs)
    else Some (0, set_socks port true true rs)
  end.

Definition udp_range_listen (rand : nat -> Z) (listen : Z -> Z) (min_port max_port : Z) (rs : rtp_sock)
  : option (Z * rtp_sock) :=
  listen_loop 64 rand listen min_port max_port 0 0 rs.

(** [udp]: the protocol is IPPROTO_UDP. *)
Definition rtp_listen (rand16 rand32 : Z) (lock_ok : bool) (rand : nat -> Z) (listen : Z -> Z)
  (udp : bool) (min_port max_port : Z) (enable_rtcp has_recvh has_rtcph : bool) : option (Z * option rtp_sock) :=
  if (max_port <? min_port) || negb has_recvh then Some (EINVAL, None) else
  match rtp_alloc rand16 rand32 with
  | (err, None) => Some (err, None)
  | (_, Some rs) =>
    let rs := set_handlers has_recvh has_rtcph rs in
    let '(err, c) := if enable_rtcp then Sess.rtcp_sess_alloc alloc_ok lock_ok (enc_ssrc rs) else (0, None) in
    if negb (err =? 0) then Some (err, None) else
    let rs := set_rtcp c rs in
    '(err, rs) ← (if udp then udp_range_listen rand listen min_port max_port rs else Some (EPROTONOSUPPORT, rs));
    Some (err, if err =? 0 then Some rs else None)
  end.

Definition rtp_open (rand16 rand32 open_err : Z) : Z * option rtp_sock :=
  match rtp_alloc rand16 rand32 with
  | (err, None) => (err, None)
  | (_, Some rs) =>
    if negb (open_err =? 0) then (open_err, None) else (0, Some (set_socks 0 true false rs))
  end.

End Sock.

End Sock.
