(* ===== verification/RtpSockProps.v ===== *)
(** * Properties of RTP sockets

    Every datagram is handled with defined behaviour and keeps the session
    consistent; what one socket sends, another delivers to its
    application. *)

From stdpp Require Import gmap.
From S2P Require Import Prelude Effects Mbuf MbufProps Rtp Codec RtcpPkt RtcpPktProps RtcpRoundtrip RtcpSess RtcpSessProps RtpSock.
Import Mb Rtp Rtcp Sock.

Section Recv.
Context (alloc_ok : Z -> bool).

(** The session of a socket, if it has one, is consistent. *)
Definition sock_ok (rs : rtp_sock) : Prop := forall c, rtcp rs = Some c -> consistent c.

Lemma on_sess_ok m : ok consistent m (fun _ => consistent) -> ok sock_ok (on_sess m) (fun _ => sock_ok).
Proof.
  intros Hm rs Hrs. unfold on_sess, mbind, M_bind, gets, of_option, modify.
  destruct (rtcp rs) as [c|] eqn:E; [|by exists tt, rs]. destruct (Hm c (Hrs c E)) as (x & c' & -> & Hc).
  do 2 eexists. split; [done|]. intros c'' [= <-]. done.
Qed.

Lemma recv_loop_ok fuel e src mb : good mb -> mbuf_get_left mb < Z.of_nat fuel ->
  ok sock_ok (recv_loop alloc_ok fuel e src mb) (fun _ => sock_ok).
Proof.
  revert mb. induction fuel as [|fuel IH]; intros mb Hg Hf.
  { unfold mbuf_get_left in Hf. case_match; lia. }
  cbn [recv_loop]. destruct (decode_run alloc_ok mb Hg) as (err & m & mb' & -> & Hm & He & Hx).
  eapply (ok_bind _ (fun x s => x = (err, m, mb') /\ sock_ok s)); [by intros rs Hrs; exists (err, m, mb'), rs|].
  intros [[err1 m1] mb1] rs [[= -> -> ->] Hrs]. destruct (Z.eqb_spec err 0) as [->|]; cbn [negb]; [|by exists mb', rs].
  destruct He as [[msg ->] _]; [done|]. destruct (Hx msg eq_refl) as [Hfit Hless].
  change (of_option (Some msg) ≫= ?f) with (f msg).
  revert rs Hrs. change (ok sock_ok
    (on_sess (Sess.rtcp_handler alloc_ok e msg) ;; h ← gets rtcph; when h (log (Rtcph src msg)) ;;
     recv_loop alloc_ok fuel e src mb') (fun _ => sock_ok)).
  eapply ok_bind; [apply on_sess_ok; by apply handler_runs|]. intros x0. apply ok_gets. intros h.
  eapply (ok_bind _ (fun _ => sock_ok)); [destruct h; [by apply ok_modify|apply ok_ret]|]. intros x1. apply IH; [by eapply moved_good|lia].
Qed.

Lemma rtcp_recv_ok e src mb : good mb -> ok sock_ok (rtcp_recv_handler alloc_ok e src mb) (fun _ => sock_ok).
Proof.
  intros Hg. eapply ok_bind; [apply recv_loop_ok; [done|]|intros mb'; apply ok_ret].
  unfold mbuf_get_left. case_match; lia.
Qed.

Lemma hdr_ranges mb err h mb' : rtp_hdr_decode mb = Some (err, h, mb') ->
  0 <= h_seq h < 65536 /\ u32v (h_ts h) /\ u32v (h_ssrc h).
Proof.
  assert (H2 : forall v, 0 <= ntohs v < 65536) by (intros v; apply (swap_range 2)).
  assert (H4 : forall v, u32v (ntohl v)) by (intros v; apply (swap_range 4)).
  unfold rtp_hdr_decode. intros E. repeat (case_match || simplify_option_eq); try done;
  simplify_eq; split_and!; cbn; try done; try apply H2; try apply H4.
Qed.

(** No packet arrives so late that the jitter overflows. *)
Definition steady_arrival (e : Sess.env) (mb : mbuf) (rs : rtp_sock) : Prop :=
  forall h mb' c, rtp_decode mb = Some (0, h, mb') -> rtcp rs = Some c -> no_jump e (h_ts h) c.

Lemma rtp_decode_run mb : mb_wf mb -> exists err h mb', rtp_decode mb = Some (err, h, mb') /\
  0 <= h_seq h < 65536 /\ u32v (h_ssrc h).
Proof.
  intros Hwf. destruct (hdr_decode_run mb Hwf) as (err & h & mb' & E & _). unfold rtp_decode. rewrite E.
  destruct (hdr_ranges mb err h mb' E) as (H1 & _ & H3). cbn [mbind option_bind].
  destruct (negb _); [by do 3 eexists|]. destruct (negb _); by do 3 eexists.
Qed.

Lemma recv_rtp_ok e src mb rs : good mb -> sock_ok rs -> steady_arrival e mb rs ->
  exists rs', recv_rtp alloc_ok e src mb rs = Some (tt, rs') /\ sock_ok rs' /\
    (forall h mb', rtp_decode mb = Some (0, h, mb') -> recvh rs = true -> calls rs' = calls rs ++ [Recvh src h mb']).
Proof.
  intros [Hwf _] Hrs Hj. destruct (rtp_decode_run mb Hwf) as (err & h & mb' & E & Hq & Hs).
  unfold recv_rtp, mbind, M_bind, of_option, on_sess, gets, modify. unfold steady_arrival in Hj. rewrite E in *.
  destruct (Z.eqb_spec err 0) as [->|]; cbn [negb]; [|exists rs; split_and!; [done|done|congruence]].
  destruct (rtcp rs) as [c|] eqn:Ec.
  - destruct (rx_run alloc_ok e (h_seq h) (h_ts h) (h_ssrc h) (mbuf_get_left mb') src c) as (c' & E' & Hc'); try done.
    + by apply Hrs.
    + by eapply Hj.
    + unfold mbind, M_bind, of_option, gets. cbn. rewrite Ec, E'. cbn.
      destruct (recvh rs); (eexists; split; [done|]); (split; [by intros c'' [= <-]|by intros ? ? [= <- <-]]).
  - unfold mbind, M_bind, gets. cbn. rewrite Ec. cbn.
    destruct (recvh rs); (eexists; split; [done|]); (split; [intros c'; cbn; by rewrite Ec|by intros ? ? [= <- <-]]).
Qed.

Lemma udp_recv_ok e src mb rs : good mb -> sock_ok rs -> steady_arrival e mb rs ->
  exists rs', udp_recv_handler alloc_ok e src mb rs = Some (tt, rs') /\ sock_ok rs'.
Proof.
  intros Hg Hrs Hj. assert (Hr : exists rs', recv_rtp alloc_ok e src mb rs = Some (tt, rs') /\ sock_ok rs').
  { destruct (recv_rtp_ok e src mb rs Hg Hrs Hj) as (rs' & ? & ? & _). by exists rs'. }
  unfold udp_recv_handler, mbind, M_bind, gets. destruct (rtcp_mux rs); [|done].
  destruct (Z.ltb_spec (mbuf_get_left mb) 2); [by exists rs|].
  pose proof Hg as [(Hb & ? & ? & ?) _].
  assert (Hx : exists b, rd (bytes mb) (mb_pos mb + 1) = Some b).
  { unfold rd. rewrite (proj2 (Z.leb_le _ _)) by lia. apply lookup_lt_is_Some_2.
    unfold zlen, mbuf_get_left in *. case_match; lia. }
  destruct Hx as [b ->]. cbn. destruct (_ && _); [|done].
  destruct (rtcp_recv_ok e src mb Hg rs Hrs) as ([] & rs' & E & Hrs'). by exists rs'.
Qed.
End Recv.

(** ** All states of a socket *)

Section Steps.
Context (alloc_ok : Z -> bool) (junk : Z -> Z).

(** What happens to an open socket: datagrams arrive at its ports, it sends
    packets, the timer of its session fires, and it is configured. *)
Inductive step (rs : rtp_sock) : rtp_sock -> Prop :=
| step_rtp e src mb rs' : good mb -> steady_arrival e mb rs ->
    udp_recv_handler alloc_ok e src mb rs = Some (tt, rs') -> step rs rs'
| step_rtcp e src mb rs' : good mb -> rtcp_recv_handler alloc_ok e src mb rs = Some (tt, rs') -> step rs rs'
| step_send e err dst ext marker pt ts mb x rs' :
    rtp_send alloc_ok junk e err dst ext marker pt ts mb rs = Some (x, rs') -> step rs rs'
| step_quick isset err count a x rs' :
    rtcp_quick_send alloc_ok junk isset err count a rs = Some (x, rs') -> step rs rs'
| step_timeout e err rs' : on_sess (Sess.timeout alloc_ok junk e err) rs = Some (tt, rs') -> step rs rs'
| step_srate t r rs' : on_sess (Sess.rtcp_set_srate t r) rs = Some (tt, rs') -> step rs rs'
| step_start name peer rs' : rtcp_start alloc_ok name peer rs = Some (tt, rs') -> step rs rs'
| step_mux b rs' : rtcp_enable_mux b rs = Some (tt, rs') -> step rs rs'.

Lemma on_sess_keeps m : keeps consistent m -> keeps sock_ok (on_sess m).
Proof.
  intros Hm rs [] rs' Hrs. unfold on_sess, mbind, M_bind, gets, of_option, modify.
  destruct (rtcp rs) as [c|] eqn:E; [|by intros [= <-]]. destruct (m c) as [[x c']|] eqn:Em; [|done].
  intros [= <-] c'' [= <-]. eapply Hm; [|done]. by apply Hrs.
Qed.

Lemma quiet_keeps (f : rtp_sock -> rtp_sock) : (forall rs, rtcp (f rs) = rtcp rs) -> keeps sock_ok (modify f).
Proof. intros Hf. apply keeps_modify. intros rs Hrs c. rewrite Hf. apply Hrs. Qed.

Lemma rtp_send_keeps e err dst ext marker pt ts mb : keeps sock_ok (rtp_send alloc_ok junk e err dst ext marker pt ts mb).
Proof.
  unfold rtp_send, rtp_encode, udp_send. apply keeps_if; [apply keeps_ret|]. apply keeps_bind.
  - apply keeps_if; [apply keeps_ret|]. apply keeps_bind; [apply keeps_gets|]. intros q.
    apply keeps_bind; [apply keeps_gets|]. intros x. apply keeps_bind; [by apply quiet_keeps|].
    intros _. apply keeps_of_option.
  - intros [err1 mb1]. apply keeps_if; [apply keeps_ret|].
    apply keeps_bind; [apply on_sess_keeps; by apply modify_keeps|]. intros _.
    repeat (apply keeps_bind; [|intros ?]); try apply keeps_ret; [apply keeps_of_option|by apply quiet_keeps].
Qed.

Lemma quick_keeps isset err count a : keeps sock_ok (rtcp_quick_send alloc_ok junk isset err count a).
Proof.
  unfold rtcp_quick_send. destruct (mbuf_alloc _ _ _); [|apply keeps_ret].
  apply keeps_bind; [apply keeps_of_option|]. intros [e mb]. apply keeps_if; [|apply keeps_ret].
  unfold rtcp_send, udp_send. apply keeps_bind; [apply keeps_gets|]. intros rs. destruct (rtcp_peer rs); [|apply keeps_ret].
  apply keeps_if; [apply keeps_ret|]. repeat (apply keeps_bind; [|intros ?]); try apply keeps_ret; [apply keeps_of_option|by apply quiet_keeps].
Qed.

Lemma start_keeps name peer : keeps sock_ok (rtcp_start alloc_ok name peer).
Proof.
  apply keeps_bind; [destruct peer; [by apply quiet_keeps|apply keeps_ret]|]. intros _. apply on_sess_keeps.
  apply keeps_bind; [|intros _; apply keeps_ret]. unfold Sess.rtcp_enable, Sess.schedule.
  apply keeps_bind; [by apply modify_keeps|]. intros _. apply keeps_if; [apply keeps_ret|].
  apply keeps_bind; [by apply modify_keeps|]. intros _. apply keeps_bind; [|intros _; apply keeps_ret].
  destruct (bool_decide _); by apply modify_keeps.
Qed.

Lemma step_ok rs rs' : sock_ok rs -> step rs rs' -> sock_ok rs'.
Proof.
  intros Hrs [e src mb rs2 Hg Hj E|e src mb rs2 Hg E|e err dst ext marker pt ts mb x rs2 E|isset err count a x rs2 E|e err rs2 E|t r rs2 E|name peer rs2 E|b rs2 E].
  - destruct (udp_recv_ok alloc_ok e src mb rs Hg Hrs Hj) as (rs3 & E3 & H3). rewrite E in E3. by injection E3 as <-.
  - destruct (rtcp_recv_ok alloc_ok e src mb Hg rs Hrs) as (u & rs3 & E3 & H3). rewrite E in E3. by injection E3 as _ <-.
  - by eapply rtp_send_keeps.
  - by eapply quick_keeps.
  - eapply on_sess_keeps; [apply timeout_keeps|done|done].
  - eapply (on_sess_keeps (Sess.rtcp_set_srate t r)); [by apply modify_keeps|done|done].
  - by eapply start_keeps.
  - eapply (quiet_keeps (set_mux b)); done.
Qed.
End Steps.

Lemma sess_alloc_consistent alloc_ok lock_ok x c :
  Sess.rtcp_sess_alloc alloc_ok lock_ok x = (0, Some c) -> consistent c.
Proof.
  unfold Sess.rtcp_sess_alloc. destruct (negb _); [done|]. destruct (negb _); [done|].
  destruct (Hash.Ht.hash_alloc alloc_ok Sess.MAX_MEMBERS) as [err [h|]] eqn:E; [|by intros [= _]].
  intros [= <-]. exists []. split; cbn; try done.
  - assert (err = 0) as ->.
    { revert E. unfold Hash.Ht.hash_alloc. repeat case_match; by intros [= <-]. }
    eapply (Hash.Ht.alloc_holds _ alloc_ok Sess.MAX_MEMBERS h); [|exact E]. unfold Sess.MAX_MEMBERS. lia.
  - apply NoDup_nil_2.
  - intros a. rewrite lookup_empty. split; [by intros ?%elem_of_nil|by intros [? ?]].
  - by intros a ?%elem_of_nil.
Qed.

Lemma listen_rtcp tries rand listen lo hi err i rs err' rs' :
  listen_loop tries rand listen lo hi err i rs = Some (err', rs') -> rtcp rs' = rtcp rs.
Proof.
  revert err i rs. induction tries as [|n IH]; intros err i rs; cbn [listen_loop]; [by intros [= _ <-]|].
  destruct (_ =? _); [done|]. destruct (negb _); [by intros ->%IH|]. destruct (negb _); [by intros ->%IH|].
  by intros [= _ <-].
Qed.

Lemma range_rtcp rand listen lo hi rs err rs' :
  udp_range_listen rand listen lo hi rs = Some (err, rs') -> rtcp rs' = rtcp rs.
Proof. unfold udp_range_listen. generalize 64%nat. intros n. apply listen_rtcp. Qed.

Lemma listen_ok alloc_ok r16 r32 lock_ok rand listen udp lo hi en hr hc rs :
  rtp_listen alloc_ok r16 r32 lock_ok rand listen udp lo hi en hr hc = Some (0, Some rs) -> sock_ok rs.
Proof.
  unfold rtp_listen, rtp_alloc. destruct (_ || _); [done|]. destruct (negb (alloc_ok 176)); [done|].
  destruct (if en then _ else _) as [err c] eqn:Ec. destruct (Z.eqb_spec err 0) as [->|]; cbn [negb]; [|done].
  destruct udp; [|done]. destruct (udp_range_listen _ _ _ _ _) as [[err rs1]|] eqn:Eu; [|done].
  apply range_rtcp in Eu. cbn [mbind option_bind]. destruct (Z.eqb_spec err 0); [|done].
  intros [= _ <-] c' Hc'. rewrite Eu in Hc'. cbn [rtcp set_rtcp] in Hc'. rewrite Hc' in Ec.
  destruct en; [|done]. by eapply sess_alloc_consistent.
Qed.

(** A socket that was opened and then used. *)
Definition reachable (alloc_ok : Z -> bool) (junk : Z -> Z) (rs : rtp_sock) : Prop :=
  exists r16 r32 lock_ok rand listen udp lo hi en hr hc rs0,
    rtp_listen alloc_ok r16 r32 lock_ok rand listen udp lo hi en hr hc = Some (0, Some rs0) /\
    rtc (step alloc_ok junk) rs0 rs.

Lemma reachable_ok alloc_ok junk rs : reachable alloc_ok junk rs -> sock_ok rs.
Proof.
  intros (r16 & r32 & lock_ok & rand & listen & udp & lo & hi & en & hr & hc & rs0 & E & Hs).
  apply listen_ok in E. induction Hs as [|x y z Hxy _ IH]; [done|]. apply IH. by eapply step_ok.
Qed.

Lemma reachable_step alloc_ok junk rs rs' :
  reachable alloc_ok junk rs -> step alloc_ok junk rs rs' -> reachable alloc_ok junk rs'.
Proof.
  intros (r16 & r32 & lock_ok & rand & listen & udp & lo & hi & en & hr & hc & rs0 & E & Hr) Hs.
  do 12 eexists. split; [exact E|]. by eapply rtc_r.
Qed.

(** C10: in every state of a socket that was opened with [rtp_listen] and
    then received any datagrams, sent packets and reports and was
    configured, its RTCP session counts correctly: [memberc] is the number
    of members, at most eight, [senderc] the number of those with a source,
    no two members have the same synchronization source, the hash table
    holds just the members, and [member_find] finds each of them. *)
Theorem session_counts_members alloc_ok junk rs c
  (Hr : reachable alloc_ok junk rs) (Hc : rtcp rs = Some c) :
  exists l, Sess.memberc c = zlen l /\ zlen l <= 8 /\
    Sess.senderc c = zlen (filter (fun a => sends (Sess.heap c) a = true) l) /\
    NoDup (src_of (Sess.heap c) <$> l) /\ concat (Hash.Ht.bucket (Sess.members c)) ≡ₚ l /\
    forall a m, Sess.heap c !! a = Some m ->
      a ∈ l /\ Sess.member_find (Sess.m_src m) c = Some (Some a, c).
Proof.
  destruct (reachable_ok _ _ _ Hr c Hc) as [l Hl]. exists l.
  split_and!; [apply Hl|apply Hl|apply Hl| | |].
  - apply NoDup_fmap_2_strong; [|apply Hl]. intros a b Ha Hb. apply (si_heap _ _ Hl) in Ha as [m Hm], Hb as [m' Hm'].
    unfold src_of. rewrite Hm, Hm'. cbn. by eapply (si_src _ _ Hl).
  - eapply Hash.Ht.elements_perm, (si_table _ _ Hl).
  - intros a m Hm. split; [by apply (si_heap _ _ Hl); eexists|].
    destruct (find_run c l (Sess.m_src m) Hl) as ([b|] & -> & Hf).
    + destruct Hf as (m' & Hm' & E). by rewrite (si_src _ _ Hl _ _ _ _ Hm' Hm E).
    + by apply Hf in Hm.
Qed.

(** C13: a reachable socket handles every datagram whose arrival does not
    overflow the jitter ([steady_arrival]: source.c computes the jitter of an
    RTP packet of a known source in [int], and an adverse time stamp makes
    that overflow).  Whatever bytes such a datagram has, at the RTP port
    (where RTCP may be multiplexed) or at the RTCP port, and whether or not
    memory can be allocated, the handler returns: all messages of a compound
    packet are decoded and handled, in a number of rounds that its length
    bounds, without an access outside a buffer, an array or a released member,
    and the socket stays reachable. *)
Theorem socket_receives alloc_ok junk rs e src mb
  (Hr : reachable alloc_ok junk rs) (Hg : good mb) (Hj : steady_arrival e mb rs) :
  (exists rs', udp_recv_handler alloc_ok e src mb rs = Some (tt, rs') /\ reachable alloc_ok junk rs') /\
  (exists rs', rtcp_recv_handler alloc_ok e src mb rs = Some (tt, rs') /\ reachable alloc_ok junk rs').
Proof.
  pose proof (reachable_ok _ _ _ Hr) as Hrs.
  split.
  - destruct (udp_recv_ok alloc_ok e src mb rs Hg Hrs Hj) as (rs' & E & _). exists rs'. split; [done|].
    eapply reachable_step; [done|]. by eapply step_rtp.
  - destruct (rtcp_recv_ok alloc_ok e src mb Hg rs Hrs) as ([] & rs' & E & _). exists rs'. split; [done|].
    eapply reachable_step; [done|]. by eapply step_rtcp.
Qed.

(** ** A socket, and datagrams for it *)

Definition all_ok (_ : Z) : bool := true.
Definition zero_junk (_ : Z) : Z := 0.
Definition opened : rtp_sock :=
  default (mk_sock 0 0 false false 0 None false false None false [] [])
    (rtp_listen all_ok 100 7 true (fun _ => 5) (fun _ => 0) true 1024 2048 true true true ≫= snd).
Definition datagram (d : list Z) : mbuf := mk_mbuf (Some d) (zlen d) 0 (zlen d).
Definition now : Sess.env := Sess.mk_env 0 0 0 0.
Definition rtp_bytes : list Z := [128; 0; 0; 9; 0; 0; 0; 0; 0; 0; 0; 77; 1; 2; 3].
Definition after_rtp : rtp_sock :=
  match udp_recv_handler all_ok now 1 (datagram rtp_bytes) opened with Some (_, rs) => rs | None => opened end.

Lemma opened_sock_reachable : reachable all_ok zero_junk opened.
Proof.
  exists 100, 7, true, (fun _ => 5), (fun _ => 0), true, 1024, 2048, true, true, true, opened.
  split; [by vm_compute|apply rtc_refl].
Qed.

Lemma slow_arrival d rs : (forall c, rtcp rs = Some c -> Sess.srate_rx c = 0) -> steady_arrival now (datagram d) rs.
Proof. intros Hz h mb' c _ Hc Hne. by specialize (Hz c Hc). Qed.

Lemma rtp_good : good (datagram rtp_bytes).
Proof. split; [zdec|]. repeat constructor; vm_compute; congruence. Qed.

Lemma after_rtp_reachable : reachable all_ok zero_junk after_rtp.
Proof.
  eapply reachable_step; [apply opened_sock_reachable|].
  apply (step_rtp all_ok zero_junk opened now 1 (datagram rtp_bytes)); [apply rtp_good| |by vm_compute].
  apply slow_arrival. intros c Hc. vm_compute in Hc. by injection Hc as <-.
Qed.

Lemma session_counts_members_witness : exists c (l : list nat), rtcp after_rtp = Some c /\
  Sess.memberc c = zlen l /\ Sess.memberc c = 1 /\ Sess.senderc c = 1.
Proof.
  destruct (rtcp after_rtp) as [c|] eqn:Ec; [|by vm_compute in Ec].
  destruct (session_counts_members all_ok zero_junk after_rtp c after_rtp_reachable Ec) as (l & H1 & _).
  exists c, l. split_and!; [done|done|..]; vm_compute in Ec; by injection Ec as <-.
Defined.

Lemma socket_receives_witness :
  (exists rs', udp_recv_handler all_ok now 1 (datagram rtp_bytes) opened = Some (tt, rs') /\ reachable all_ok zero_junk rs') /\
  (exists rs', rtcp_recv_handler all_ok now 1 (datagram rtp_bytes) opened = Some (tt, rs') /\ reachable all_ok zero_junk rs').
Proof.
  apply (socket_receives all_ok zero_junk opened now 1 (datagram rtp_bytes) opened_sock_reachable rtp_good).
  apply slow_arrival. intros c Hc. vm_compute in Hc. by injection Hc as <-.
Defined.
