(* ===== verification/RtpDelivery.v ===== *)
(** * Delivery of RTP packets

    What a socket sends with [rtp_send], another hands to its application:
    the composition of buffers, the header codec and two sockets. *)

From S2P Require Import Prelude Effects Mbuf MbufProps Rtp Codec RtcpRoundtrip RtcpSess RtcpSessProps RtpSock RtpSockProps.
Import Mb Rtp Sock.

Section Room.
Context (alloc_ok : Z -> bool) (junk : Z -> Z).

(** A write inside the buffer needs no memory. *)
Lemma write_in_room mb d : mb_wf mb -> mb_pos mb + zlen d <= mb_size mb ->
  exists mb', mbuf_write_mem alloc_ok junk mb d = Some (0, mb') /\ written mb mb' d.
Proof.
  intros Hwf Hd. pose proof Hwf as (? & ? & ? & ?). pose proof (zlen_nonneg d). unfold mbuf_write_mem, mbuf_reserve.
  rewrite usz_small by lia. rewrite (proj2 (Z.ltb_ge _ _)) by lia. by apply put_ok.
Qed.

Lemma hdr_in_room mb h : hdr_ok h -> h_csrc h = [] -> mb_wf mb -> mb_pos mb + 12 <= mb_size mb ->
  exists mb', rtp_hdr_encode alloc_ok junk mb h = Some (0, mb') /\ written mb mb' (wire h).
Proof.
  intros Hok Hc Hwf Hs. unfold rtp_hdr_encode, mbuf_write_u16, mbuf_write_u32.
  rewrite htons_bytes, !htonl_bytes. fold (be16 (h_seq h)) (be32 (h_ts h)) (be32 (h_ssrc h)).
  assert (Hnext : forall a mb1 d, written mb mb1 a -> zlen a + zlen d <= 12 ->
    exists mb2, mbuf_write_mem alloc_ok junk mb1 d = Some (0, mb2) /\ written mb mb2 (a ++ d)).
  { intros a mb1 d Hw Hl. pose proof Hw as (Hwf1 & Hp1 & _ & _ & Hs1 & _).
    destruct (write_in_room mb1 d Hwf1) as (mb2 & E & Hw2); [lia|]. exists mb2. split; [done|].
    by eapply written_app. }
  destruct (write_in_room mb [hdr_byte0 h; hdr_byte1 h] Hwf) as (mb0 & -> & W0); [change (zlen [_; _]) with 2; lia|].
  cbn [mbind option_bind].
  destruct (Hnext _ mb0 (be16 (h_seq h)) W0) as (mb1 & -> & W1); [done|]. cbn [mbind option_bind].
  destruct (Hnext _ mb1 (be32 (h_ts h)) W1) as (mb2 & -> & W2); [done|]. cbn [mbind option_bind].
  destruct (Hnext _ mb2 (be32 (h_ssrc h)) W2) as (mb3 & -> & W3); [done|]. cbn [mbind option_bind].
  destruct (ok_cc _ Hok) as [-> _]. rewrite Hc. exists mb3. split; [done|].
  unfold wire. rewrite Hc. change (concat (map be32 [])) with (@nil Z). rewrite app_nil_r.
  by rewrite <- !app_assoc in W3.
Qed.
End Room.

(** The header of a packet. *)
Definition sent_hdr (marker : bool) (pt ts : Z) (rs : rtp_sock) : rtp_header :=
  mk_hdr RTP_VERSION false false 0 marker pt (enc_seq rs) ts (enc_ssrc rs) [] 0 0.

Record sendable (pt ts : Z) (rs : rtp_sock) : Prop := {
  sd_pt : 0 <= pt < 128;
  sd_ts : u32v ts;
  sd_seq : 0 <= enc_seq rs < 65536;
  sd_ssrc : u32v (enc_ssrc rs) }.

Lemma sent_hdr_ok marker pt ts rs : sendable pt ts rs -> hdr_ok (sent_hdr marker pt ts rs).
Proof. intros [? ? ? ?]. split; cbn; try done; try lia; by right. Qed.

Lemma pt_mask pt : 0 <= pt < 128 -> Z.land pt (Z.lnot 0x7f) = 0.
Proof.
  intros Hp. apply Z.bits_inj'. intros i Hi. rewrite Z.land_spec, Z.lnot_spec, Z.bits_0 by done.
  destruct (decide (i < 7)).
  - assert (E : Z.testbit 0x7f i = true); [|by rewrite E, andb_false_r].
    change 0x7f with (Z.ones 7). apply Z.ones_spec_low. lia.
  - assert (E : Z.testbit pt i = false); [|by rewrite E].
    destruct (decide (pt = 0)) as [->|]; [apply Z.bits_0|].
    apply Z.bits_above_log2; [lia|]. apply Z.log2_lt_pow2; [lia|].
    apply Z.lt_le_trans with (2 ^ 7); [lia|]. apply Z.pow_le_mono_r; lia.
Qed.

(** The datagram is the header and the payload. *)
Lemma send_run alloc_ok junk e err dst marker pt ts mb rs payload :
  RTP_HEADER_SIZE <= mb_pos mb -> avail mb payload -> mb_end mb = mb_pos mb + zlen payload ->
  sendable pt ts rs ->
  exists mb' rs', rtp_send alloc_ok junk e err dst false marker pt ts mb rs = Some ((err, mb'), rs') /\
    sent rs' = sent rs ++ [(true, dst, wire (sent_hdr marker pt ts rs) ++ payload)] /\
    enc_seq rs' = u16 (enc_seq rs + 1).
Proof.
  unfold RTP_HEADER_SIZE. intros Hp (Hwf & Hs & _) He Hsd. pose proof (sd_pt _ _ _ Hsd). pose proof (zlen_nonneg payload).
  pose proof Hwf as (Hlen & ? & ? & ?). unfold rtp_send, rtp_encode, RTP_HEADER_SIZE, mbuf_advance.
  rewrite (proj2 (Z.ltb_ge _ _)) by lia. rewrite pt_mask by done. cbn [Z.eqb negb]. rewrite usz_small by lia.
  set (mb0 := set_pos (mb_pos mb + -12) mb). set (h := sent_hdr marker pt ts rs).
  destruct (hdr_in_room alloc_ok junk mb0 h) as (mb1 & E & Hw); [by apply sent_hdr_ok|done| |cbn; lia|].
  { apply wf_set_pos; [done|lia]. }
  destruct Hw as (Hwf1 & Hp1 & He1 & Hs1 & Hz1 & Hk1). cbn [mb_pos mb_end mb_size set_pos mb0] in *.
  assert (Hw12 : zlen (wire h) = 12) by (by rewrite wire_len).
  unfold mbind, M_bind, gets, modify, of_option. cbv beta iota zeta. fold mb0.
  match goal with |- context [rtp_hdr_encode ?a ?b ?c ?d] =>
    change (rtp_hdr_encode a b c d) with (rtp_hdr_encode alloc_ok junk mb0 h) end.
  rewrite E. cbn [Z.eqb negb].
  assert (Hd : slice (bytes (set_pos (mb_pos mb + -12) mb1)) (mb_pos mb + -12) (mbuf_get_left (set_pos (mb_pos mb + -12) mb1))
    = Some (wire h ++ payload)).
  { replace (mbuf_get_left _) with (zlen (wire h ++ payload)).
    - apply slice_app. split; [done|]. change (bytes (set_pos _ mb1)) with (bytes mb1).
      rewrite Hw12. replace (mb_pos mb + -12 + 12) with (mb_pos mb) by lia. rewrite Hk1 by lia. done.
    - rewrite zlen_app, Hw12. unfold mbuf_get_left. cbn. case_match; lia. }
  unfold on_sess, udp_send, mbind, M_bind, gets, modify, of_option. cbn [rtcp set_seq mb_pos set_pos].
  destruct (rtcp rs) as [c|]; cbn;
    (match type of Hd with ?x = _ => match goal with |- context [slice ?a ?b ?c] => change (slice a b c) with x end end);
    rewrite Hd; cbn; by do 2 eexists.
Qed.

(** ** The receiver *)

Lemma datagram_good d : is_bytes d -> zlen d <= SIZE_MAX -> good (datagram d).
Proof. intros Hb Hs. pose proof (zlen_nonneg d). split; [|done]. unfold mb_wf, bytes. cbn. lia. Qed.

Lemma slice_all d : slice d 0 (zlen d) = Some d.
Proof.
  pose proof (zlen_nonneg d). rewrite slice_some by lia. unfold zlen. rewrite Nat2Z.id. cbn. by rewrite firstn_all.
Qed.

Lemma datagram_avail d : zlen d <= SIZE_MAX -> avail (datagram d) d.
Proof.
  intros Hs. pose proof (zlen_nonneg d). split_and!; [unfold mb_wf, bytes; cbn; lia|apply slice_all|done].
Qed.

Lemma payload_left a p : zlen a = 12 ->
  let mb := set_pos 12 (datagram (a ++ p)) in slice (bytes mb) (mb_pos mb) (mbuf_get_left mb) = Some p.
Proof.
  intros Ha. pose proof (slice_all (a ++ p)) as Hs. apply slice_app in Hs as [_ Hs]. rewrite Ha in Hs. cbn [bytes].
  pose proof (zlen_nonneg p). replace (mbuf_get_left _) with (zlen p); [exact Hs|].
  unfold mbuf_get_left. cbn. rewrite zlen_app, Ha. case_match; lia.
Qed.

Lemma wire_bytes h : hdr_ok h -> is_bytes (wire h).
Proof.
  intros Hok. destruct (byte0_fields h Hok) as [H0 _], (byte1_fields h Hok) as [H1 _].
  unfold wire, is_bytes. apply Forall_app_2; [do 2 (apply Forall_cons_2; [done|]); by apply Forall_nil_2|].
  do 3 (apply Forall_app_2; [apply Forall_rev, le_bytes_is|]).
  induction (h_csrc h); cbn [map concat]; [done|]. apply Forall_app_2; [apply Forall_rev, le_bytes_is|done].
Qed.

Lemma deliver alloc_ok e src h payload rr :
  hdr_ok h -> h_ver h = 2 -> h_csrc h = [] -> is_bytes payload -> 12 + zlen payload <= SIZE_MAX ->
  sock_ok rr -> recvh rr = true -> (rtcp_mux rr = false \/ ~ 64 <= h_pt h <= 95) ->
  (forall c, rtcp rr = Some c -> no_jump e (h_ts h) c) ->
  exists rr', udp_recv_handler alloc_ok e src (datagram (wire h ++ payload)) rr = Some (tt, rr') /\
    calls rr' = calls rr ++ [Recvh src h (set_pos 12 (datagram (wire h ++ payload)))].
Proof.
  intros Hok Hv Hc Hb Hs Hrr Hh Hmux Hj. set (mb := datagram (wire h ++ payload)).
  assert (Hw : zlen (wire h) = 12) by (by rewrite wire_len, Hc). pose proof (zlen_nonneg payload).
  assert (Hd : rtp_decode mb = Some (0, h, set_pos 12 mb)).
  { unfold rtp_decode. rewrite (rtp_hdr_decode_wire mb h payload Hok).
    - cbn [mbind option_bind]. rewrite Hv. cbn [Z.eqb negb]. by rewrite Hw.
    - apply datagram_avail. rewrite zlen_app. lia. }
  assert (Hg : good mb).
  { apply datagram_good; [apply Forall_app_2; [by apply wire_bytes|done]|rewrite zlen_app; lia]. }
  destruct (recv_rtp_ok alloc_ok e src mb rr Hg Hrr) as (rr' & E & _ & Hcall).
  { intros h' mb' c Hd' Hc'. rewrite Hd in Hd'. injection Hd' as <- _. by apply Hj. }
  exists rr'. split; [|by apply Hcall]. unfold udp_recv_handler, mbind, M_bind, gets.
  destruct (rtcp_mux rr); [|done]. destruct Hmux as [|Hmux]; [done|].
  replace (mbuf_get_left mb <? 2) with false.
  2:{ unfold mbuf_get_left, mb. cbn [mb_pos mb_end datagram]. rewrite zlen_app, Hw. case_match; lia. }
  change (rd (bytes mb) (mb_pos mb + 1)) with (Some (hdr_byte1 h)). cbn [of_option].
  destruct (byte1_fields h Hok) as (_ & _ & Hpt). rewrite Z.shiftr_0_r in Hpt. rewrite Hpt.
  by replace ((64 <=? h_pt h) && (h_pt h <=? 95)) with false by lia.
Qed.

(** C25: a packet that a socket sends is delivered.  A payload that stands in
    a buffer behind room for the header is sent with [rtp_send], without an
    allocation, as one datagram; a socket that receives this datagram calls
    its application once, with the payload type, the marker, the time stamp,
    the source of the sender and its sequence number, which grows by one
    (modulo 2^16) from packet to packet, and with a buffer in which just the
    payload is left.  The packet is sent without the extension bit; where the
    receiver has RTCP multiplexed on the port, the payload type is not from 64
    to 95, which it takes for RTCP; and the time stamp does not make the
    receiver's jitter overflow ([no_jump]). *)
Theorem rtp_send_delivered alloc_ok alloc_ok' junk junk' e e' err dst src marker pt ts mb rs rr payload
  (Hp : RTP_HEADER_SIZE <= mb_pos mb) (Hav : avail mb payload) (He : mb_end mb = mb_pos mb + zlen payload)
  (Hb : is_bytes payload) (Hsd : sendable pt ts rs) (Hrr : reachable alloc_ok' junk' rr) (Hh : recvh rr = true)
  (Hmux : rtcp_mux rr = false \/ ~ 64 <= pt <= 95)
  (Hj : forall c, rtcp rr = Some c -> no_jump e' ts c) :
  exists mb' rs' d, rtp_send alloc_ok junk e err dst false marker pt ts mb rs = Some ((err, mb'), rs') /\
    sent rs' = sent rs ++ [(true, dst, d)] /\ enc_seq rs' = u16 (enc_seq rs + 1) /\
    exists rr' mb'', udp_recv_handler alloc_ok' e' src (datagram d) rr = Some (tt, rr') /\
      calls rr' = calls rr ++ [Recvh src (sent_hdr marker pt ts rs) mb''] /\
      slice (bytes mb'') (mb_pos mb'') (mbuf_get_left mb'') = Some payload.
Proof.
  destruct (send_run alloc_ok junk e err dst marker pt ts mb rs payload Hp Hav He Hsd) as (mb' & rs' & E & Es & Eq).
  do 3 eexists. split_and!; [exact E|exact Es|exact Eq|].
  set (h := sent_hdr marker pt ts rs) in *. pose proof (sent_hdr_ok marker pt ts rs Hsd) as Hok. fold h in Hok.
  destruct Hav as (Hwf & _ & _). pose proof (zlen_nonneg payload). pose proof Hwf as (? & ? & ? & ?).
  assert (Hlen : zlen (wire h ++ payload) = 12 + zlen payload) by (by rewrite zlen_app, wire_len).
  unfold RTP_HEADER_SIZE in Hp.
  destruct (deliver alloc_ok' e' src h payload rr) as (rr' & E' & Hc); try done.
  - lia.
  - by eapply reachable_ok.
  - exists rr', (set_pos 12 (datagram (wire h ++ payload))). split_and!; [done|done|].
    apply payload_left. by rewrite wire_len.
Qed.

Definition payload_buf : mbuf := mk_mbuf (Some (replicate 12 0 ++ [1; 2; 3])) 15 12 15.

Lemma rtp_send_delivered_witness :
  exists mb' rs' d, rtp_send all_ok zero_junk now 0 9 false true 8 160 payload_buf opened = Some ((0, mb'), rs') /\
    sent rs' = sent opened ++ [(true, 9, d)] /\ enc_seq rs' = u16 (enc_seq opened + 1) /\
    exists rr' mb'', udp_recv_handler all_ok now 5 (datagram d) opened = Some (tt, rr') /\
      calls rr' = calls opened ++ [Recvh 5 (sent_hdr true 8 160 opened) mb''] /\
      slice (bytes mb'') (mb_pos mb'') (mbuf_get_left mb'') = Some [1; 2; 3].
Proof.
  apply (rtp_send_delivered all_ok all_ok zero_junk zero_junk now now 0 9 5 true 8 160 payload_buf opened opened [1; 2; 3]).
  1-3: zdec.
  - repeat constructor; vm_compute; congruence.
  - split; vm_compute; split; congruence.
  - apply opened_sock_reachable.
  - done.
  - by left.
  - intros c Hc Hne. vm_compute in Hc. by injection Hc as <-.
Defined.
