(* ===== verification/RtcpReport.v ===== *)
(** * The reports of an RTCP session

    The datagram of [send_rtcp_report] is decoded to a sender report with
    one block for every member that sends, and to a description with the
    canonical name: the composition of the session, its sources, the packet
    codec and the buffers. *)

From stdpp Require Import gmap.
From S2P Require Import Prelude Effects Mbuf MbufProps Rtp Codec RtcpPkt RtcpPktProps RtcpRoundtrip Hash RtcpSess RtcpSessProps RtpSock RtpSockProps RtpDelivery.
Import Mb Rtp Rtcp Ht Sess.

(** ** Blocks fit their fields *)

Lemma u32_u32v z : u32v (u32 z).
Proof. unfold u32v, u32. apply Z.mod_pos_bound. lia. Qed.

Lemma lor_u32v a b : u32v a -> u32v b -> u32v (Z.lor a b).
Proof.
  unfold u32v. intros Ha Hb. split; [apply Z.lor_nonneg; lia|].
  destruct (decide (Z.lor a b = 0)) as [->|]; [lia|].
  assert (0 < Z.lor a b) by (pose proof (proj2 (Z.lor_nonneg a b)); lia).
  apply Z.log2_lt_pow2; [done|]. rewrite Z.log2_lor by lia.
  assert (Hl : forall z, 0 <= z < 2 ^ 32 -> Z.log2 z < 32).
  { intros z Hz. destruct (decide (z = 0)) as [->|]; [done|]. apply Z.log2_lt_pow2; lia. }
  apply Z.max_lub_lt; by apply Hl.
Qed.

Lemma compact_u32v hi lo : u32v lo -> u32v (ntp_compact hi lo).
Proof.
  intros Hlo. unfold ntp_compact. apply lor_u32v.
  - rewrite (land_mask _ _ 16), Z.shiftl_mul_pow2 by done. unfold u32v. dlia.
  - unfold u32v in *. rewrite Z.shiftr_div_pow2 by lia. dlia.
Qed.

Lemma block_ok e m s b s' : member_ok m -> m_s m = Some s -> sender_block e m s = Some (b, s') -> rr_ok b.
Proof.
  intros [Hsrc Hok] Hs. specialize (Hok s Hs). unfold sender_block.
  destruct (source_calc_fraction_lost s) as [[f s1]|] eqn:E; [|done]. cbn. intros [= <- <-].
  pose proof (fraction_ok s f s1 Hok E) as [H1 H2 H3 H4 H5]. split; cbn; try done.
  - revert E. unfold source_calc_fraction_lost. destruct (int_ _); [|done]. cbn [mbind option_bind].
    destruct (_ || _); [by intros [= <- _]|]. destruct (int_ _); [|done]. cbn [mbind option_bind].
    intros [= <- _]. unfold u8. apply Z.mod_pos_bound. lia.
  - unfold source_calc_lost. destruct (Z.ltb_spec 0x7fffff (i32 (u32 (calc_expected s1 - received s1)))); [lia|].
    destruct (Z.ltb_spec (i32 (u32 (calc_expected s1 - received s1))) (- 0x7fffff)); lia.
  - apply lor_u32v; [done|unfold u32v; lia].
  - unfold u32v in *. rewrite Z.shiftr_div_pow2 by lia. dlia.
  - unfold calc_lsr. destruct (_ =? _); [done|]. by apply compact_u32v.
  - unfold calc_dlsr. destruct (_ =? _); [done|]. apply u32_u32v.
Qed.

(** ** Collecting them *)

(** The block of one member, from its state before the report. *)
Definition block_for (e : env) (h : gmap nat rtp_member) (a : nat) (b : rtcp_rr) : Prop :=
  exists m s s', h !! a = Some m /\ m_s m = Some s /\ sender_block e m s = Some (b, s').

Definition sending (h : gmap nat rtp_member) (l : list nat) : list nat :=
  filter (fun a => sends h a = true) l.

(** No difference between two reports overflows. *)
Definition counts_defined (h : gmap nat rtp_member) : Prop :=
  forall a m s, h !! a = Some m -> m_s m = Some s -> is_Some (source_calc_fraction_lost s).

(** What a collection leaves alone. *)
Definition same_session (c c' : rtcp_sess) : Prop :=
  wire c' = wire c /\ cname c' = cname c /\ ssrc c' = ssrc c /\ senderc c' = senderc c /\ members c' = members c.

Lemma forall2_in {A B} (P Q : A -> B -> Prop) l k :
  Forall2 P l k -> (forall x y, x ∈ l -> P x y -> Q x y) -> Forall2 Q l k.
Proof.
  induction 1 as [|x y l k Hxy _ IH]; intros HPQ; [apply Forall2_nil_2|]. apply Forall2_cons_2.
  - apply HPQ; [left|done].
  - apply IH. intros a b Ha. apply HPQ. by right.
Qed.

Lemma collect_run e l : NoDup l -> forall c, (forall a, a ∈ l -> is_Some (heap c !! a)) ->
  (forall a m s, a ∈ l -> heap c !! a = Some m -> m_s m = Some s -> is_Some (source_calc_fraction_lost s)) ->
  exists bs c', collect_blocks e l c = Some (bs, c') /\ same_session c c' /\
    Forall2 (block_for e (heap c)) (sending (heap c) l) bs.
Proof.
  induction 1 as [|a l Ha Hnd IH]; intros c Hin Hdef.
  { exists [], c. split_and!; [done|done|]. by apply Forall2_nil_2. }
  cbn [collect_blocks]. destruct (Hin a ltac:(left)) as [m Hm].
  assert (Hone : exists b c1, sender_apply_handler e a c = Some (b, c1) /\ same_session c c1 /\
    (forall x, x <> a -> heap c1 !! x = heap c !! x) /\
    Forall2 (block_for e (heap c)) (sending (heap c) [a]) b).
  { unfold sending. rewrite filter_cons, filter_nil. unfold sends. rewrite Hm.
    unfold sender_apply_handler, get_mbr, put_mbr, gets, modify, mbind, M_bind, of_option. rewrite Hm.
    destruct (m_s m) as [s|] eqn:Es.
    - destruct (Hdef a m s ltac:(left) Hm Es) as [[f s1] E]. unfold sender_block. rewrite E. cbn [mbind option_bind].
      do 2 eexists. split; [done|]. split; [done|]. split.
      + intros x Hx. by apply lookup_insert_ne.
      + rewrite bool_decide_true by by eexists. cbn [decide]. rewrite decide_True by done.
        apply Forall2_cons_2; [|apply Forall2_nil_2]. exists m, s. eexists. split_and!; [done|done|].
        unfold sender_block. by rewrite E.
    - exists [], c. split_and!; [done|done|done|]. rewrite bool_decide_false by by intros [? ?].
      rewrite decide_False by done. apply Forall2_nil_2. }
  destruct Hone as (b & c1 & E1 & S1 & Hold & Hb).
  assert (Hk : forall x, x ∈ l -> heap c1 !! x = heap c !! x) by (intros x Hx; apply Hold; by intros ->).
  destruct (IH c1) as (bs & c2 & E2 & S2 & Hbs).
  - intros x Hx. rewrite Hk by done. apply Hin. by right.
  - intros x mx s Hx. rewrite Hk by done. apply Hdef. by right.
  - exists (b ++ bs), c2. unfold mbind, M_bind. rewrite E1, E2. split; [done|]. split.
    + destruct S1 as (? & ? & ? & ? & ?), S2 as (? & ? & ? & ? & ?). unfold same_session. split_and!; congruence.
    + change (a :: l) with ([a] ++ l). unfold sending in *. rewrite filter_app. apply Forall2_app; [done|].
      rewrite (filter_agree (fun x => sends (heap c) x = true) (fun x => sends (heap c1) x = true) l).
      * eapply forall2_in; [exact Hbs|].
        intros x y Hx (m' & s & s' & H1 & H2 & H3). apply list_elem_of_filter in Hx as [_ Hx].
        rewrite Hk in H1 by done. by exists m', s, s'.
      * intros x Hx. unfold sends. by rewrite Hk.
Qed.

(** ** Writing them *)

Lemma zlen_replicate {A} n (x : A) : zlen (replicate n x) = Z.of_nat n.
Proof. unfold zlen. by rewrite length_replicate. Qed.

(** A session that can report: it runs with the name [name], and its numbers
    fit their fields. *)
Record reporting (e : env) (c : rtcp_sess) (name : list Z) : Prop := {
  rp_ok : consistent c;
  rp_counts : counts_defined (heap c);
  rp_name : cname c = Some name;
  rp_short : zlen name <= 255;
  rp_time : ntp_err e = 0;
  rp_hi : u32v (ntp_hi e);
  rp_lo : u32v (ntp_lo e);
  rp_ssrc : u32v (ssrc c);
  rp_psent : u32v (tx_psent (tx c));
  rp_osent : u32v (tx_osent (tx c)) }.

Section Write.
Context (alloc_ok : Z -> bool) (junk : Z -> Z) (Hmem : forall n, alloc_ok n = true).

Lemma blocks_append p bs : Forall rr_ok bs -> appends p (encode_handler alloc_ok junk bs) (wire_rrs bs) 0.
Proof using Hmem.
  intros Hok. revert p. induction Hok as [|b bs Hb _ IH]; intros p; cbn [encode_handler]; [apply appends_ret|].
  unfold wire_rrs. cbn [map concat]. eapply appends_bind; [by apply appends_emits, rr_emits|]. apply IH.
Qed.

Definition name_chunk (x : Z) (name : list Z) : rtcp_sdes := Rtcp.mk_sdes x [mk_item RTCP_SDES_CNAME (zlen name) name].

Lemma name_chunk_ok x name : u32v x -> zlen name <= 255 -> chunk_ok (name_chunk x name).
Proof.
  intros Hx Hn. split_and!; [done|done|]. apply Forall_cons_2; [|apply Forall_nil_2].
  unfold item_ok. cbn. unfold RTCP_SDES_CNAME. lia.
Qed.

Lemma name_sent x name : u32v x -> zlen name <= 255 ->
  sent 1 (a_sdes (Some (rtcp_sdes_encode alloc_ok junk x [(RTCP_SDES_CNAME, Some name)])))
    (sdesv [name_chunk x name]) (concat (map wire_chunk [name_chunk x name])).
Proof using Hmem.
  intros Hx Hn. apply (sent_sdes _ [name_chunk x name]); [done| |].
  - apply Forall_cons_2; [by apply name_chunk_ok|apply Forall_nil_2].
  - intros p. cbn [map concat]. rewrite app_nil_r.
    apply (chunk_appends alloc_ok junk Hmem p (name_chunk x name)). by apply name_chunk_ok.
Qed.

Lemma chunk_len x name : zlen name <= 255 -> 0 <= zlen (wire_chunk (name_chunk x name)) <= 265.
Proof.
  intros Hn. unfold wire_chunk. set (d := be32 _ ++ _). pose proof (zlen_nonneg name).
  assert (Hd : zlen d = 6 + zlen name).
  { unfold d. cbn [map concat itemv name_chunk]. unfold wire_item. cbn [it_type it_length it_data].
    rewrite zlen_app, app_nil_r, be32_len, !zlen_cons. lia. }
  rewrite zlen_app, Hd, zlen_replicate. unfold ends.
  pose proof (Z.mod_pos_bound (6 + zlen name) 4). lia.
Qed.

(** The members that send are as many as the session counts. *)
Lemma senders_counted c l : sinv c l -> senderc c = zlen (sending (heap c) (concat (bucket (members c)))).
Proof.
  intros Hl. rewrite (si_senderc _ _ Hl). unfold sending, zlen. f_equal. apply Permutation_length.
  apply filter_Permutation. symmetry. by eapply elements_perm, (si_table _ _ Hl).
Qed.

Lemma blocks_fit e c bs l k : sinv c l -> Forall2 (block_for e (heap c)) k bs -> Forall rr_ok bs.
Proof.
  intros Hc H. apply Forall_forall. intros b Hb. apply list_elem_of_lookup_1 in Hb as [i Hi].
  destruct (Forall2_lookup_r _ _ _ _ _ H Hi) as (a & _ & (m & s & s' & Hm & Hs & E)).
  eapply block_ok; [by eapply si_ok|done|exact E].
Qed.

(** The blocks of all members, in the order of the table. *)
Lemma collect_all e c : consistent c -> counts_defined (heap c) ->
  exists bs c', collect_blocks e (concat (bucket (members c))) c = Some (bs, c') /\ same_session c c' /\
    Forall2 (block_for e (heap c)) (sending (heap c) (concat (bucket (members c)))) bs /\
    zlen bs = senderc c /\ zlen bs <= 8 /\ Forall rr_ok bs.
Proof.
  intros [l Hl] Hdef. set (L := concat _).
  assert (HL : L ≡ₚ l) by (eapply elements_perm, (si_table _ _ Hl)).
  destruct (collect_run e L ltac:(rewrite HL; apply Hl) c) as (bs & c' & E & S & Hbs).
  { intros a Ha. apply (si_heap _ _ Hl). by rewrite <- HL. }
  { intros a m s _. apply Hdef. }
  assert (Hn : zlen bs = senderc c).
  { rewrite (senders_counted c l Hl). unfold zlen. f_equal. symmetry. by eapply Forall2_length. }
  exists bs, c'. split_and!; [done|done|done|done| |by eapply blocks_fit].
  rewrite Hn, (si_senderc _ _ Hl). pose proof (filter_le (fun a => sends (heap c) a = true) l).
  pose proof (si_max _ _ Hl). unfold MAX_MEMBERS in *. lia.
Qed.

Lemma mk_sr_run e c name mb : reporting e c name -> mb_wf mb -> mb_pos mb = 4 -> 512 <= mb_size mb ->
  exists bs ts c' mb', mk_sr alloc_ok junk e mb c = Some ((0, mb'), c') /\
    wire c' = wire c /\ cname c' = cname c /\ ssrc c' = ssrc c /\
    Forall2 (block_for e (heap c)) (sending (heap c) (concat (bucket (members c)))) bs /\ zlen bs <= 8 /\
    exists a w, sent (zlen bs) a (sr (ssrc c) (ntp_hi e) (ntp_lo e) ts (tx_psent (tx c)) (tx_osent (tx c)) bs) w /\
      zlen w = 24 + 24 * zlen bs /\ args_type a = RTCP_SR /\ placed mb mb' (wire_packet (zlen bs) a w).
Proof using Hmem.
  intros [Hok Hdef _ _ Htime Hhi Hlo Hssrc Hps Hos] Hwf Hp Hsz. unfold mk_sr. rewrite Htime. cbn [Z.eqb negb].
  set (c1 := set_tx (mk_txstat (tx_psent (tx c)) (tx_osent (tx c)) (tx_jfs_ref (tx c)) (tx_ts_ref (tx c)) false) c).
  set (ts := if tx_jfs_ref (tx c) =? 0 then 0
    else u32 (tx_ts_ref (tx c) + u32 (u32 (jiffies e - tx_jfs_ref (tx c)) * srate_tx c) / 1000)).
  destruct (collect_all e c1) as (bs & c2 & E & (S1 & S2 & S3 & S4 & S5) & Hbs & Hn & Hn8 & Hrr);
    [by eapply consistent_ext; [..|exact Hok]|done|].
  pose proof (zlen_nonneg bs).
  set (w := concat (map be32 [ssrc c; ntp_hi e; ntp_lo e; ts; tx_psent (tx c); tx_osent (tx c)]) ++ wire_rrs bs).
  assert (Hw : zlen w = 24 + 24 * zlen bs) by (unfold w; rewrite zlen_app, be32s_zlen, wire_rrs_len; done).
  set (a := a_sr [ssrc c; ntp_hi e; ntp_lo e; ts; tx_psent (tx c); tx_osent (tx c)] (Some (encode_handler alloc_ok junk bs))).
  assert (Hts : u32v ts) by (unfold ts; destruct (_ =? _); [done|apply u32_u32v]).
  assert (Hs : sent (zlen bs) a (sr (ssrc c) (ntp_hi e) (ntp_lo e) ts (tx_psent (tx c)) (tx_osent (tx c)) bs) w).
  { apply sent_sr; [by repeat (apply Forall_cons_2; [done|]); apply Forall_nil_2|done|]. intros p. by apply blocks_append. }
  destruct (rtcp_encode_places alloc_ok junk Hmem (zlen bs) a _ w mb Hs) as (mb' & Em & Hpl);
    [lia|unfold packet_words, padding; rewrite Hw; dlia|done|lia|rewrite Hw; unfold SIZE_MAX; lia|].
  exists bs, ts, c2, mb'. split.
  - unfold mbind, M_bind, gets, modify. cbv beta iota. fold c1. rewrite E. rewrite S3, S4, <- Hn. unfold of_option.
    change (ssrc c1) with (ssrc c). change (srate_tx c1) with (srate_tx c). fold ts a. by rewrite Em.
  - split_and!; [done|done|done|exact Hbs|done|]. by exists a, w.
Qed.

Lemma alloc_512 : exists mb, mbuf_alloc alloc_ok junk 512 = Some mb /\ mb_wf mb /\ mb_pos mb = 0 /\ mb_size mb = 512.
Proof using Hmem.
  unfold mbuf_alloc, mbuf_resize. rewrite Hmem. cbn [negb Z.eqb]. eexists. split; [done|].
  split; [|done]. split_and!; [|done..]. unfold bytes, grow, zlen. cbn [mb_buf mb_size default id mbuf_init length].
  rewrite length_app, length_map, length_seqZ. done.
Qed.

(** Two packets one behind the other. *)
Lemma placed_both mb mb1 mb2 d1 d2 : mb_wf mb -> placed mb mb1 d1 -> placed mb1 mb2 d2 ->
  slice (bytes mb2) (mb_pos mb) (mbuf_get_left (set_pos (mb_pos mb) mb2)) = Some (d1 ++ d2).
Proof.
  intros Hwf (W1 & P1 & E1 & S1 & _) (W2 & P2 & E2 & S2 & _ & K2). destruct Hwf as (_ & ? & _).
  pose proof (zlen_nonneg d1). pose proof (zlen_nonneg d2).
  replace (mbuf_get_left _) with (zlen (d1 ++ d2)).
  - apply slice_app. rewrite <- P1. split; [|done]. rewrite K2 by lia. done.
  - rewrite zlen_app. unfold mbuf_get_left. cbn. case_match; lia.
Qed.

Lemma report_run e c name : reporting e c name ->
  exists bs ts c' a1 w1 a2 w2, send_rtcp_report alloc_ok junk e (Some 0) c = Some (0, c') /\
    Forall2 (block_for e (heap c)) (sending (heap c) (concat (bucket (members c)))) bs /\ zlen bs <= 8 /\
    sent (zlen bs) a1 (sr (ssrc c) (ntp_hi e) (ntp_lo e) ts (tx_psent (tx c)) (tx_osent (tx c)) bs) w1 /\
    sent 1 a2 (sdesv [name_chunk (ssrc c) name]) w2 /\
    zlen w1 = 24 + 24 * zlen bs /\ 0 <= zlen w2 <= 265 /\
    wire c' = wire c ++ [wire_packet (zlen bs) a1 w1 ++ wire_packet 1 a2 w2].
Proof using Hmem.
  intros Hrep. pose proof Hrep as [_ _ Hname Hshort _ _ _ Hssrc _ _].
  unfold send_rtcp_report, send_compound. destruct alloc_512 as (mb & -> & Hwf & Hp & Hsz).
  change RTCP_HEADROOM with 4. set (mb0 := set_pos 4 mb).
  assert (Hwf0 : mb_wf mb0) by (apply wf_set_pos; [done|unfold SIZE_MAX; lia]).
  destruct (mk_sr_run e c name mb0 Hrep Hwf0 eq_refl) as (bs & ts & c1 & mb1 & E1 & Hwire & Hcn & Hss & Hbs & Hn & a1 & w1 & Hs1 & Hw1 & _ & Hpl1);
    [cbn; lia|]. pose proof (zlen_nonneg bs).
  pose proof (name_sent (ssrc c) name Hssrc Hshort) as Hs2. set (a2 := a_sdes _) in Hs2. set (w2 := concat _) in Hs2.
  assert (Hw2 : 0 <= zlen w2 <= 265) by (unfold w2; cbn [map concat]; rewrite app_nil_r; by apply chunk_len).
  pose proof Hpl1 as (Hwf1 & Hp1 & _ & _ & Hsz1 & _). cbn [mb_pos set_pos mb0 mb_size] in Hp1, Hsz1.
  assert (Hl1 : zlen (wire_packet (zlen bs) a1 w1) <= 4 + zlen w1 + 3).
  { unfold wire_packet. rewrite !zlen_app, zlen_replicate. unfold padding.
    change (zlen (wire_hdr _)) with 4. pose proof (Z.mod_pos_bound (- zlen w1) 4). lia. }
  destruct (rtcp_encode_places alloc_ok junk Hmem 1 a2 _ w2 mb1 Hs2) as (mb2 & Em & Hpl2);
    [lia|unfold packet_words, padding; dlia|done|lia|unfold SIZE_MAX; lia|].
  do 7 eexists. split; [|split_and!; [exact Hbs|done|exact Hs1|exact Hs2|done|lia|lia|]].
  - unfold mbind at 1, M_bind at 1. rewrite E1. unfold mk_sdes, mbind, M_bind, gets, of_option. rewrite Hcn, Hss, Hname.
    fold a2. rewrite Em. cbn [Z.lor Z.eqb negb]. unfold rtcp_send, mbind, M_bind, of_option, modify.
    pose proof (placed_both mb0 mb1 mb2 _ _ Hwf0 Hpl1 Hpl2) as Hd.
    match type of Hd with ?x = _ => match goal with |- context [slice ?a ?b ?c] => change (slice a b c) with x end end.
    by rewrite Hd.
  - cbn. by rewrite Hwire.
Qed.
End Write.

(** ** The receiver *)

Lemma recv_step alloc_ok fuel e src mb mb' msg rs :
  rtcp_decode alloc_ok mb = Some ((0, Some msg), mb') -> fits (hdr msg) (r msg) -> sock_ok rs -> Sock.rtcph rs = true ->
  exists rs', Sock.recv_loop alloc_ok (S fuel) e src mb rs = Sock.recv_loop alloc_ok fuel e src mb' rs' /\
    sock_ok rs' /\ Sock.rtcph rs' = true /\ Sock.calls rs' = Sock.calls rs ++ [Sock.Rtcph src msg].
Proof.
  intros E Hfit Hrs Hh.
  cbn [Sock.recv_loop]. rewrite E. unfold of_option at 1. unfold mbind at 1, M_bind at 1. cbn [Z.eqb negb].
  unfold of_option, Sock.on_sess, mbind, M_bind, gets, modify. destruct (Sock.rtcp rs) as [c|] eqn:Ec.
  - destruct (handler_runs alloc_ok e msg Hfit c (Hrs c Ec)) as (u & c' & Eh & Hc'). 
    cbn. rewrite Ec. unfold of_option. rewrite Eh. cbn. rewrite Hh. cbn. eexists. split; [done|].
    split_and!; [by intros c'' [= <-]|done|done].
  - cbn. rewrite Ec. cbn. rewrite Hh. cbn. eexists. split; [done|]. split_and!; [|done|done]. intros c'. cbn. by rewrite Ec.
Qed.

Lemma packet_len n a w : zlen (wire_packet n a w) = 4 + packet_words w * 4.
Proof. unfold wire_packet. rewrite !zlen_app, zlen_replicate, packet_words_4. change (zlen (wire_hdr _)) with 4. lia. Qed.

(** A compound of two packets, neither of them long. *)
Lemma recv_two alloc_ok (Hmem : forall n, alloc_ok n = true) e src rr n1 n2 a1 a2 b1 b2 w1 w2 :
  sent n1 a1 b1 w1 -> sent n2 a2 b2 w2 -> 0 <= n1 < 32 -> 0 <= n2 < 32 -> zlen w1 <= 1000 -> zlen w2 <= 1000 ->
  fits (packet_hdr n1 a1 w1) b1 -> fits (packet_hdr n2 a2 w2) b2 -> sock_ok rr -> Sock.rtcph rr = true ->
  exists rr', Sock.rtcp_recv_handler alloc_ok e src (datagram (wire_packet n1 a1 w1 ++ wire_packet n2 a2 w2)) rr = Some (tt, rr') /\
    Sock.calls rr' = Sock.calls rr ++ [Sock.Rtcph src (mk_msg (packet_hdr n1 a1 w1) b1);
      Sock.Rtcph src (mk_msg (packet_hdr n2 a2 w2) b2)].
Proof.
  intros Hs1 Hs2 Hn1 Hn2 Hw1 Hw2 Hf1 Hf2 Hrr Hh. set (d1 := wire_packet n1 a1 w1). set (d2 := wire_packet n2 a2 w2).
  pose proof (zlen_nonneg w1). pose proof (zlen_nonneg w2).
  assert (Hp : forall w, 0 <= zlen w <= 1000 -> 0 <= packet_words w <= 250) by (intros w Hw; unfold packet_words, padding; dlia).
  pose proof (Hp w1 ltac:(lia)) as Hp1. pose proof (Hp w2 ltac:(lia)) as Hp2.
  pose proof (packet_len n1 a1 w1) as L1. pose proof (packet_len n2 a2 w2) as L2. fold d1 in L1. fold d2 in L2.
  assert (Hav : avail (datagram (d1 ++ d2)) (d1 ++ d2)) by (apply datagram_avail; rewrite zlen_app; unfold SIZE_MAX; lia).
  unfold Sock.rtcp_recv_handler.
  pose proof (packet_reads alloc_ok Hmem n1 a1 b1 w1 0 Hs1 Hn1 ltac:(lia) (datagram (d1 ++ d2)) d2 eq_refl Hav) as D1.
  apply avail_split in Hav as [_ Hav]. set (mb1 := set_pos _ _) in Hav.
  change (set_pos (0 + zlen (wire_packet n1 a1 w1)) (datagram (d1 ++ d2))) with mb1 in D1.
  assert (Hav2 : avail mb1 (d2 ++ [])) by (by rewrite app_nil_r).
  pose proof (packet_reads alloc_ok Hmem n2 a2 b2 w2 (zlen d1) Hs2 Hn2 ltac:(lia) mb1 [] eq_refl Hav2) as D2.
  set (mb2 := set_pos _ mb1) in D2.
  assert (Hl : mbuf_get_left (datagram (d1 ++ d2)) = zlen d1 + zlen d2).
  { unfold mbuf_get_left. cbn [datagram mb_pos mb_end]. rewrite zlen_app. case_match; lia. }
  rewrite Hl. destruct (Z.to_nat (zlen d1 + zlen d2)) as [|[|fuel]] eqn:Ef; [lia|lia|].
  destruct (recv_step alloc_ok (S (S fuel)) e src _ _ _ rr D1 Hf1 Hrr Hh) as (rr1 & R1 & Hrr1 & Hh1 & C1).
  destruct (recv_step alloc_ok (S fuel) e src mb1 mb2 _ rr1 D2 Hf2 Hrr1 Hh1) as (rr2 & R2 & _ & _ & C2).
  assert (Hend : mbuf_get_left mb2 = 0).
  { unfold mbuf_get_left, mb2. cbn [set_pos mb_pos mb_end mb1 datagram]. rewrite zlen_app. fold d2. case_match; lia. }
  assert (D3 : rtcp_decode alloc_ok mb2 = Some ((EBADMSG, None), mb2)).
  { unfold rtcp_decode, mbind, M_bind, gets. by rewrite Hend. }
  exists rr2. split; [|rewrite C2, C1; by rewrite <- app_assoc].
  unfold mbind at 1, M_bind at 1. rewrite R1, R2. cbn [Sock.recv_loop]. unfold mbind, M_bind, of_option. by rewrite D3.
Qed.

(** C3: a report reaches the peer.  When a session reports, one datagram goes
    out; a socket that receives it hands two messages to its application: a
    sender report with the source, the time and the packet and byte counts of
    the session and with one block for every member that sends, in the order of
    the table, each computed from the state of this member, and a source
    description with the canonical name. *)
Theorem report_received alloc_ok alloc_ok' junk junk' e e' c name src rr
  (Hmem : forall n, alloc_ok n = true) (Hmem' : forall n, alloc_ok' n = true)
  (Hrep : reporting e c name) (Hrr : reachable alloc_ok' junk' rr) (Hh : Sock.rtcph rr = true) :
  exists bs ts c' d rr' h1 h2, send_rtcp_report alloc_ok junk e (Some 0) c = Some (0, c') /\
    wire c' = wire c ++ [d] /\
    Forall2 (block_for e (heap c)) (sending (heap c) (concat (bucket (members c)))) bs /\
    Sock.rtcp_recv_handler alloc_ok' e' src (datagram d) rr = Some (tt, rr') /\
    Sock.calls rr' = Sock.calls rr ++
      [Sock.Rtcph src (mk_msg h1 (sr (ssrc c) (ntp_hi e) (ntp_lo e) ts (tx_psent (tx c)) (tx_osent (tx c)) bs));
       Sock.Rtcph src (mk_msg h2 (sdesv [name_chunk (ssrc c) name]))] /\ count h1 = zlen bs.
Proof.
  destruct (report_run alloc_ok junk Hmem e c name Hrep)
    as (bs & ts & c' & a1 & w1 & a2 & w2 & E & Hbs & Hn & Hs1 & Hs2 & Hw1 & Hw2 & Hd).
  pose proof (zlen_nonneg bs). pose proof Hrep as [_ _ _ _ _ Hhi Hlo Hssrc _ _].
  destruct (recv_two alloc_ok' Hmem' e' src rr (zlen bs) 1 a1 a2 _ _ w1 w2 Hs1 Hs2) as (rr' & Er & Hc); try done; try lia.
  - split_and!; try apply Hssrc; try apply Hhi; try apply Hlo. cbn. unfold zlen. lia.
  - by eapply reachable_ok.
  - do 7 eexists. split_and!; [exact E|exact Hd|exact Hbs|exact Er|exact Hc|done].
Qed.

(** ** An example *)

Definition started : Sock.rtp_sock :=
  match Sock.rtcp_start all_ok (bytes_of "me") (Some 3) after_rtp with Some (_, rs) => rs | None => after_rtp end.

Lemma started_reachable : reachable all_ok zero_junk started.
Proof.
  eapply reachable_step; [apply after_rtp_reachable|].
  apply (step_start all_ok zero_junk after_rtp (bytes_of "me") (Some 3)). by vm_compute.
Qed.

Lemma report_received_witness : exists c, Sock.rtcp started = Some c /\
  exists bs ts c' d rr' h1 h2, send_rtcp_report all_ok zero_junk now (Some 0) c = Some (0, c') /\
    wire c' = wire c ++ [d] /\
    Forall2 (block_for now (heap c)) (sending (heap c) (concat (bucket (members c)))) bs /\
    Sock.rtcp_recv_handler all_ok now 5 (datagram d) opened = Some (tt, rr') /\
    Sock.calls rr' = Sock.calls opened ++
      [Sock.Rtcph 5 (mk_msg h1 (sr (ssrc c) 0 0 ts (tx_psent (tx c)) (tx_osent (tx c)) bs));
       Sock.Rtcph 5 (mk_msg h2 (sdesv [name_chunk (ssrc c) (bytes_of "me")]))] /\ count h1 = zlen bs.
Proof.
  destruct (Sock.rtcp started) as [c|] eqn:Ec; [|by vm_compute in Ec]. exists c. split; [done|].
  apply (report_received all_ok all_ok zero_junk zero_junk now now c (bytes_of "me") 5 opened); [done|done| |apply opened_sock_reachable|by vm_compute].
  pose proof (reachable_ok _ _ _ started_reachable c Ec) as Hc. vm_compute in Ec. injection Ec as <-.
  split; [exact Hc| |done..|zdec|zdec|zdec]. 
  intros a m s Hm Hs. assert (a = 0%nat) as ->.
  { destruct Hc as [l Hl]. pose proof (si_memberc _ _ Hl) as Hn. cbn in Hn.
    assert (H0 : 0%nat ∈ l) by (apply (si_heap _ _ Hl); vm_compute; by eexists).
    assert (Ha : a ∈ l) by (apply (si_heap _ _ Hl); by eexists).
    destruct l as [|x [|y l]]; [done| |unfold zlen in Hn; cbn in Hn; lia].
    apply list_elem_of_singleton in H0, Ha. by subst. }
  vm_compute in Hm. injection Hm as <-. vm_compute in Hs. injection Hs as <-. vm_compute. by eexists.
Defined.
