(* ===== verification/StunMsg.v ===== *)
(** * STUN messages

    Models hdr.c, addr.c, attr.c and msg.c of re/src/stun, with the types of
    stun.h and re_stun.h: the header, the addresses, the attributes and whole
    messages with their integrity and fingerprint attributes.  Decoders and
    encoders are programs over a buffer; [None] is an access outside it, an
    endless loop, or a value of the wrong kind for an attribute.  HMAC-SHA1
    is a parameter. *)

From S2P Require Import Prelude Effects Crc32 Mbuf MbufProps Rtp Codec.
Import Mb.

Module Stun.

Definition STUN_HEADER_SIZE : Z := 20.
Definition STUN_TID_SIZE : Z := 12.
Definition STUN_MAGIC_COOKIE : Z := 0x2112a442.
Definition STUN_AF_IPv4 : Z := 0x01.
Definition STUN_AF_IPv6 : Z := 0x02.
Definition MI_SIZE : Z := 24.
Definition FP_SIZE : Z := 8.

Definition STUN_TYPE (method class : Z) : Z :=
  Z.lor (Z.lor (Z.lor (Z.lor (Z.shiftl (Z.land method 0x0f80) 2) (Z.shiftl (Z.land method 0x0070) 1))
                      (Z.shiftl (Z.land method 0x000f) 0))
               (Z.shiftl (Z.land class 0x2) 7))
        (Z.shiftl (Z.land class 0x1) 4).

Definition STUN_CLASS (type : Z) : Z := Z.land (Z.lor (Z.shiftr type 7) (Z.shiftr type 4)) 0x3.

Definition STUN_METHOD (type : Z) : Z :=
  Z.lor (Z.lor (Z.shiftr (Z.land type 0x3e00) 2) (Z.shiftr (Z.land type 0x00e0) 1)) (Z.land type 0x000f).

(** ** The header *)

Record stun_hdr := mk_shdr { s_type : Z; s_len : Z; s_cookie : Z; s_tid : list Z }.

Definition set_len (x : Z) (h : stun_hdr) : stun_hdr := mk_shdr (s_type h) x (s_cookie h) (s_tid h).

Section Codec.
Context (alloc_ok : Z -> bool) (junk : Z -> Z).
Abbreviation write8 := (write8 alloc_ok junk).
Abbreviation write16 := (write16 alloc_ok junk).
Abbreviation write32 := (write32 alloc_ok junk).
Abbreviation write64 := (write64 alloc_ok junk).
Abbreviation write_mem := (write_mem alloc_ok junk).

Definition stun_hdr_encode (h : stun_hdr) : M mbuf Z :=
  write16 (Z.land (s_type h) 0x3fff) |; write16 (s_len h) |; write32 (s_cookie h) |; write_mem (s_tid h).

(** The code and the header as far as it was read. *)
Definition stun_hdr_decode : M mbuf (Z * stun_hdr) :=
  l ← gets mbuf_get_left;
  if l <? STUN_HEADER_SIZE then mret (EBADMSG, mk_shdr 0 0 0 []) else
  type ← read16;
  if negb (Z.land type 0xc000 =? 0) then mret (EBADMSG, mk_shdr type 0 0 []) else
  len ← read16;
  if negb (Z.land len 0x3 =? 0) then mret (EBADMSG, mk_shdr type len 0 []) else
  cookie ← read32;
  '(_, tid) ← read_mem STUN_TID_SIZE;
  l ← gets mbuf_get_left;
  if l <? len then mret (EBADMSG, mk_shdr type len cookie tid) else
  mret (0, mk_shdr type len cookie tid).

(** ** Addresses *)

(** A socket address: IPv4 as a number, IPv6 as 16 bytes. *)
Inductive sa :=
| sa_in (addr port : Z)
| sa_in6 (addr : list Z) (port : Z)
| sa_unspec (port : Z).

Definition sa_port (a : sa) : Z :=
  match a with sa_in _ p | sa_in6 _ p | sa_unspec p => p end.

Definition zip_xor (a b : list Z) : list Z := zip_with Z.lxor a b.

(** The cookie in front of the transaction number is the mask of an address. *)
Definition in6_xor_tid (in6 tid : list Z) : list Z := zip_xor in6 ([0x21; 0x12; 0xa4; 0x42] ++ tid).

(** [tid]: NULL for a plain address. *)
Definition stun_addr_encode (a : sa) (tid : option (list Z)) : M mbuf Z :=
  let port := match tid with
              | Some _ => u16 (Z.lxor (sa_port a) (Z.shiftr STUN_MAGIC_COOKIE 16))
              | None => sa_port a
              end in
  match a with
  | sa_in addr _ =>
    let addr4 := match tid with Some _ => Z.lxor addr STUN_MAGIC_COOKIE | None => addr end in
    write8 0 |; write8 STUN_AF_IPv4 |; write16 port |; write32 addr4
  | sa_in6 addr _ =>
    let addr6 := match tid with Some t => in6_xor_tid addr t | None => addr end in
    write8 0 |; write8 STUN_AF_IPv6 |; write16 port |; write_mem addr6
  | sa_unspec _ => mret EAFNOSUPPORT
  end.

Definition stun_addr_decode (tid : option (list Z)) : M mbuf (Z * sa) :=
  l ← gets mbuf_get_left;
  if l <? 4 then mret (EBADMSG, sa_unspec 0) else
  _ ← mbuf_read_u8;
  family ← mbuf_read_u8;
  port ← read16;
  let port := match tid with Some _ => Z.lxor port (Z.shiftr STUN_MAGIC_COOKIE 16) | None => port end in
  if family =? STUN_AF_IPv4 then
    l ← gets mbuf_get_left;
    if l <? 4 then mret (EBADMSG, sa_unspec 0) else
    addr4 ← read32;
    mret (0, sa_in (match tid with Some _ => Z.lxor addr4 STUN_MAGIC_COOKIE | None => addr4 end) port)
  else if family =? STUN_AF_IPv6 then
    l ← gets mbuf_get_left;
    if l <? 16 then mret (EBADMSG, sa_unspec 0) else
    '(_, addr6) ← read_mem 16;
    mret (0, sa_in6 (match tid with Some t => in6_xor_tid addr6 t | None => addr6 end) port)
  else mret (EAFNOSUPPORT, sa_unspec 0).

(** ** Attributes *)

Definition STUN_ATTR_MAPPED_ADDR : Z := 0x0001.
Definition STUN_ATTR_CHANGE_REQ : Z := 0x0003.
Definition STUN_ATTR_USERNAME : Z := 0x0006.
Definition STUN_ATTR_MSG_INTEGRITY : Z := 0x0008.
Definition STUN_ATTR_ERR_CODE : Z := 0x0009.
Definition STUN_ATTR_UNKNOWN_ATTR : Z := 0x000a.
Definition STUN_ATTR_CHANNEL_NUMBER : Z := 0x000c.
Definition STUN_ATTR_LIFETIME : Z := 0x000d.
Definition STUN_ATTR_XOR_PEER_ADDR : Z := 0x0012.
Definition STUN_ATTR_DATA : Z := 0x0013.
Definition STUN_ATTR_REALM : Z := 0x0014.
Definition STUN_ATTR_NONCE : Z := 0x0015.
Definition STUN_ATTR_XOR_RELAY_ADDR : Z := 0x0016.
Definition STUN_ATTR_REQ_ADDR_FAMILY : Z := 0x0017.
Definition STUN_ATTR_EVEN_PORT : Z := 0x0018.
Definition STUN_ATTR_REQ_TRANSPORT : Z := 0x0019.
Definition STUN_ATTR_DONT_FRAGMENT : Z := 0x001a.
Definition STUN_ATTR_XOR_MAPPED_ADDR : Z := 0x0020.
Definition STUN_ATTR_RSV_TOKEN : Z := 0x0022.
Definition STUN_ATTR_PRIORITY : Z := 0x0024.
Definition STUN_ATTR_USE_CAND : Z := 0x0025.
Definition STUN_ATTR_PADDING : Z := 0x0026.
Definition STUN_ATTR_RESP_PORT : Z := 0x0027.
Definition STUN_ATTR_SOFTWARE : Z := 0x8022.
Definition STUN_ATTR_ALT_SERVER : Z := 0x8023.
Definition STUN_ATTR_FINGERPRINT : Z := 0x8028.
Definition STUN_ATTR_CONTROLLED : Z := 0x8029.
Definition STUN_ATTR_CONTROLLING : Z := 0x802a.
Definition STUN_ATTR_RESP_ORIGIN : Z := 0x802b.
Definition STUN_ATTR_OTHER_ADDR : Z := 0x802c.

(** The kinds of value, by the cases of the two functions. *)
Inductive kind :=
| k_addr | k_xor_addr | k_change | k_str | k_mi | k_err | k_unknown | k_16 | k_32 | k_mb | k_8 | k_even
| k_none | k_64 | k_other.

Definition kind_of (type : Z) : kind :=
  let among l := existsb (Z.eqb type) l in
  if among [STUN_ATTR_MAPPED_ADDR; STUN_ATTR_ALT_SERVER; STUN_ATTR_RESP_ORIGIN; STUN_ATTR_OTHER_ADDR] then k_addr
  else if among [STUN_ATTR_XOR_PEER_ADDR; STUN_ATTR_XOR_RELAY_ADDR; STUN_ATTR_XOR_MAPPED_ADDR] then k_xor_addr
  else if type =? STUN_ATTR_CHANGE_REQ then k_change
  else if among [STUN_ATTR_USERNAME; STUN_ATTR_REALM; STUN_ATTR_NONCE; STUN_ATTR_SOFTWARE] then k_str
  else if type =? STUN_ATTR_MSG_INTEGRITY then k_mi
  else if type =? STUN_ATTR_ERR_CODE then k_err
  else if type =? STUN_ATTR_UNKNOWN_ATTR then k_unknown
  else if among [STUN_ATTR_CHANNEL_NUMBER; STUN_ATTR_RESP_PORT] then k_16
  else if among [STUN_ATTR_LIFETIME; STUN_ATTR_PRIORITY; STUN_ATTR_FINGERPRINT] then k_32
  else if among [STUN_ATTR_DATA; STUN_ATTR_PADDING] then k_mb
  else if among [STUN_ATTR_REQ_ADDR_FAMILY; STUN_ATTR_REQ_TRANSPORT] then k_8
  else if type =? STUN_ATTR_EVEN_PORT then k_even
  else if among [STUN_ATTR_DONT_FRAGMENT; STUN_ATTR_USE_CAND] then k_none
  else if among [STUN_ATTR_RSV_TOKEN; STUN_ATTR_CONTROLLED; STUN_ATTR_CONTROLLING] then k_64
  else k_other.

(** The union of an attribute; [v_self] is the buffer that is written. *)
Inductive attr_v :=
| v_sa (a : sa)
| v_change (ip port : bool)
| v_str (s : list Z)
| v_mi (m : list Z)
| v_err (code : Z) (reason : option (list Z))
| v_unknown (typev : list Z)
| v_16 (n : Z)
| v_32 (n : Z)
| v_mb (mb : mbuf)
| v_self
| v_8 (n : Z)
| v_even (r : bool)
| v_none
| v_64 (n : Z).

Record stun_attr := mk_attr { a_type : Z; a_v : attr_v }.

Definition b2z (b : bool) : Z := if b then 1 else 0.

Fixpoint write_types (l : list Z) : M mbuf Z :=
  match l with [] => mret 0 | t :: l => write16 t |; write_types l end.

(** [mbuf_write_str], which rejects NULL. *)
Definition write_str (s : option (list Z)) : M mbuf Z :=
  match s with Some s => write_mem s | None => mret EINVAL end.

Definition encode_value (type : Z) (v : attr_v) (tid : option (list Z)) : M mbuf Z :=
  match kind_of type, v with
  | k_addr, v_sa a => stun_addr_encode a None
  | k_xor_addr, v_sa a => stun_addr_encode a tid
  | k_change, v_change ip port => write32 (Z.lor (Z.shiftl (b2z ip) 2) (Z.shiftl (b2z port) 1))
  | k_str, v_str s => write_mem s
  | k_mi, v_mi m => d ← of_option (slice m 0 20); write_mem d
  | k_err, v_err code reason => write16 0 |; write8 (code / 100) |; write8 (code mod 100) |; write_str reason
  | k_unknown, v_unknown typev => write_types typev
  | k_16, v_16 n => write16 n |; write16 0
  | k_32, v_32 n => write32 n
  | k_mb, v_self => modify (fun mb => set_pos (mb_end mb) mb) ;; mret 0
  | k_mb, v_mb d => s ← of_option (slice (bytes d) (mb_pos d) (mbuf_get_left d)); write_mem s
  | k_8, v_8 n => write8 n |; write8 0 |; write16 0
  | k_even, v_even r => write8 (Z.shiftl (b2z r) 7)
  | k_none, _ => mret 0
  | k_64, v_64 n => write64 n
  | k_other, _ => mret EINVAL
  | _, _ => ub
  end.

(** [while ((mb->pos - start) & 0x03)]; a failed write never ends. *)
Fixpoint pad_attr (fuel : nat) (start padding err : Z) : M mbuf Z :=
  match fuel with
  | O => ub
  | S fuel =>
    pos ← gets mb_pos;
    if Z.land (pos - start) 0x3 =? 0 then mret err else
    e ← write8 padding;
    pad_attr fuel start padding (Z.lor err e)
  end.

Definition stun_attr_encode (type : Z) (v : attr_v) (tid : option (list Z)) (padding : Z) : M mbuf Z :=
  modify (fun mb => set_pos (usz (mb_pos mb + 4)) mb) ;;
  start ← gets mb_pos;
  e1 ← encode_value type v tid;
  pos ← gets mb_pos;
  let len := usz (pos - start) in
  modify (set_pos (usz (start - 4))) ;;
  e2 ← (write16 type |; write16 len);
  modify (fun mb => set_pos (usz (mb_pos mb + len)) mb) ;;
  pad_attr 4 start padding (Z.lor e1 e2).

Definition str_decode (len : Z) : M mbuf (Z * option (list Z)) :=
  l ← gets mbuf_get_left;
  if l <? len then mret (EBADMSG, None) else
  fun mb => mbuf_strdup alloc_ok mb len.

(** [ARRAY_SIZE(typev)]. *)
Definition MAX_UNKNOWN : nat := 8.

Fixpoint read_types (n : nat) (out : list Z) : M mbuf (list Z) :=
  match n with
  | O => mret out
  | S n =>
    t ← read16;
    read_types n (if (MAX_UNKNOWN <=? length out)%nat then out else out ++ [t])
  end.

Definition skip (n : Z) : M mbuf unit := modify (fun mb => set_pos (usz (mb_pos mb + n)) mb).

(** The code, the value, and the unknown types. *)
Definition decode_value (type len : Z) (tid : option (list Z)) (ua : option (list Z))
  : M mbuf (Z * attr_v * option (list Z)) :=
  let bad := mret (EBADMSG, v_none, ua) in
  match kind_of type with
  | k_addr => '(err, a) ← stun_addr_decode None; mret (err, v_sa a, ua)
  | k_xor_addr => '(err, a) ← stun_addr_decode tid; mret (err, v_sa a, ua)
  | k_change =>
    if negb (len =? 4) then bad else
    n ← read32;
    mret (0, v_change (Z.land (Z.shiftr n 2) 0x1 =? 1) (Z.land (Z.shiftr n 1) 0x1 =? 1), ua)
  | k_str => '(err, s) ← str_decode len; mret (err, v_str (default [] s), ua)
  | k_mi =>
    if negb (len =? 20) then bad else
    '(err, m) ← read_mem 20;
    mret (err, v_mi m, ua)
  | k_err =>
    if len <? 4 then bad else
    skip 2 ;;
    h ← mbuf_read_u8;
    t ← mbuf_read_u8;
    '(err, s) ← str_decode (len - 4);
    mret (err, v_err (u16 (Z.land h 0x7 * 100 + t)) s, ua)
  | k_unknown => v ← read_types (Z.to_nat (len / 2)) []; mret (0, v_unknown v, ua)
  | k_16 => if len <? 2 then bad else n ← read16; mret (0, v_16 n, ua)
  | k_32 => if negb (len =? 4) then bad else n ← read32; mret (0, v_32 n, ua)
  | k_mb =>
    mb ← gets id;
    skip len ;;
    mret (0, v_mb (mk_mbuf (mb_buf mb) (mb_size mb) (mb_pos mb) (usz (mb_pos mb + len))), ua)
  | k_8 => if len <? 1 then bad else n ← mbuf_read_u8; mret (0, v_8 n, ua)
  | k_even =>
    if len <? 1 then bad else
    n ← mbuf_read_u8;
    mret (0, v_even (Z.land (Z.shiftr n 7) 0x1 =? 1), ua)
  | k_none => if 0 <? len then bad else mret (0, v_none, ua)
  | k_64 => if negb (len =? 8) then bad else n ← read64; mret (0, v_64 n, ua)
  | k_other =>
    skip len ;;
    mret (0, v_none,
      if 0x8000 <=? type then ua
      else match ua with
           | Some l => if (length l <? MAX_UNKNOWN)%nat then Some (l ++ [type]) else ua
           | None => None
           end)
  end.

(** The code, the attribute and the unknown types; sizeof(struct stun_attr) is 72. *)
Definition stun_attr_decode (tid : option (list Z)) (ua : option (list Z))
  : M mbuf (Z * option stun_attr * option (list Z)) :=
  l ← gets mbuf_get_left;
  if l <? 4 then mret (EBADMSG, None, ua) else
  if negb (alloc_ok 72) then mret (ENOMEM, None, ua) else
  type ← read16;
  len ← read16;
  l ← gets mbuf_get_left;
  if l <? len then mret (EBADMSG, None, ua) else
  start ← gets mb_pos;
  '(err, v, ua) ← decode_value type len tid ua;
  if negb (err =? 0) then mret (err, None, ua) else
  slurp_padding 4 start ;;
  mret (0, Some (mk_attr type v), ua).

(** ** Messages *)

(** The buffer of a message is the state of the programs. *)
Record stun_msg := mk_smsg { m_hdr : stun_hdr; m_attrl : list stun_attr; m_start : Z }.

(** [while (mbuf_get_left(mb) - extra >= 4)], in [size_t]. *)
Fixpoint attrs_decode (fuel : nat) (extra : Z) (tid ua : option (list Z)) (out : list stun_attr)
  : M mbuf (Z * list stun_attr * option (list Z)) :=
  match fuel with
  | O => ub
  | S fuel =>
    l ← gets mbuf_get_left;
    if usz (l - extra) <? 4 then mret (0, out, ua) else
    '(err, a, ua) ← stun_attr_decode tid ua;
    if negb (err =? 0) then mret (err, out, ua) else
    match a with
    | Some a => attrs_decode fuel extra tid ua (out ++ [a])
    | None => ub
    end
  end.

(** sizeof(struct stun_msg) is 56. *)
Definition stun_msg_decode (ua : option (list Z)) : M mbuf (Z * option stun_msg * option (list Z)) :=
  start ← gets mb_pos;
  '(err, hdr) ← stun_hdr_decode;
  if negb (err =? 0) then modify (set_pos start) ;; mret (err, None, ua) else
  if negb (alloc_ok 56) then modify (set_pos start) ;; mret (ENOMEM, None, ua) else
  let ua := (fun _ => []) <$> ua in
  l ← gets mbuf_get_left;
  let extra := l - s_len hdr in
  '(err, attrl, ua) ← attrs_decode (S (Z.to_nat l)) extra (Some (s_tid hdr)) ua [];
  modify (set_pos start) ;;
  mret (err, if err =? 0 then Some (mk_smsg hdr attrl start) else None, ua).

Definition stun_msg_type (m : stun_msg) : Z := s_type (m_hdr m).
Definition stun_msg_class (m : stun_msg) : Z := STUN_CLASS (stun_msg_type m).
Definition stun_msg_method (m : stun_msg) : Z := STUN_METHOD (stun_msg_type m).
Definition stun_msg_tid (m : stun_msg) : list Z := s_tid (m_hdr m).
Definition stun_msg_mcookie (m : stun_msg) : bool := STUN_MAGIC_COOKIE =? s_cookie (m_hdr m).

Definition stun_msg_attr (m : stun_msg) (type : Z) : option stun_attr :=
  snd <$> list_find (fun a => a_type a = type) (m_attrl m).

(** The arguments: type and value, NULL skipped. *)
Fixpoint encode_attrs (attrs : list (Z * option attr_v)) (tid : list Z) (padding : Z) : M mbuf Z :=
  match attrs with
  | [] => mret 0
  | (_, None) :: attrs => encode_attrs attrs tid padding
  | (type, Some v) :: attrs =>
    stun_attr_encode type v (Some tid) padding |; encode_attrs attrs tid padding
  end.

(** [fingerprint], [None] for a byte that is no byte. *)
Definition fingerprint (d : list Z) : option Z := c ← Crc.crc32 0 d; Some (Z.lxor c 0x5354554e).

(** The bytes from the position to the end, and [n] of them. *)
Definition rest : M mbuf (list Z) :=
  mb ← gets id;
  of_option (slice (bytes mb) (mb_pos mb) (mbuf_get_left mb)).
Definition first (n : Z) : M mbuf (list Z) :=
  mb ← gets id;
  of_option (slice (bytes mb) (mb_pos mb) n).

Context (hmac_sha1 : list Z -> list Z -> list Z).

(** The parts of [stun_msg_vencode]: the error code and the attributes, the
    block under [if (key)] and the block under [if (fp)]. *)
Definition encode_body (ec : option (Z * option (list Z))) (attrs : list (Z * option attr_v)) (tid : list Z)
  (padding : Z) : M mbuf Z :=
  match ec with
  | Some (code, reason) => stun_attr_encode STUN_ATTR_ERR_CODE (v_err code reason) None padding
  | None => mret 0
  end |; encode_attrs attrs tid padding.

Definition encode_mi (start len : Z) (key : list Z) (padding : Z) : M mbuf Z :=
  modify (set_pos start) ;;
  d ← rest;
  skip (STUN_HEADER_SIZE + len - MI_SIZE) ;;
  stun_attr_encode STUN_ATTR_MSG_INTEGRITY (v_mi (hmac_sha1 key d)) None padding.

Definition encode_fp (start type : Z) (tid : list Z) (padding : Z) : M mbuf Z :=
  pos ← gets mb_pos;
  let len := u16 (pos - start - STUN_HEADER_SIZE + FP_SIZE) in
  modify (set_pos start) ;;
  e ← stun_hdr_encode (mk_shdr type len STUN_MAGIC_COOKIE tid);
  modify (set_pos start) ;;
  d ← rest;
  f ← of_option (fingerprint d);
  skip (STUN_HEADER_SIZE + len - FP_SIZE) ;;
  e' ← stun_attr_encode STUN_ATTR_FINGERPRINT (v_32 f) None padding;
  mret (Z.lor e e').

Definition stun_msg_vencode (method class : Z) (tid : list Z) (ec : option (Z * option (list Z)))
  (key : option (list Z)) (fp : bool) (padding : Z) (attrs : list (Z * option attr_v)) : M mbuf Z :=
  start ← gets mb_pos;
  skip STUN_HEADER_SIZE ;;
  let type := u16 (STUN_TYPE method class) in
  let mi := if key is Some _ then MI_SIZE else 0 in
  e1 ← encode_body ec attrs tid padding;
  pos ← gets mb_pos;
  let len := u16 (pos - start - STUN_HEADER_SIZE + mi) in
  modify (set_pos start) ;;
  e2 ← stun_hdr_encode (mk_shdr type len STUN_MAGIC_COOKIE tid);
  skip (len - mi) ;;
  e3 ← (if key is Some k then encode_mi start len k padding else mret 0);
  e4 ← (if fp then encode_fp start type tid padding else mret 0);
  mret (Z.lor (Z.lor (Z.lor e1 e2) e3) e4).

(** The header is rewritten while the digest is computed; the message that
    is returned has the length restored. *)
Definition stun_msg_chk_mi (m : stun_msg) (key : list Z) : M mbuf (Z * stun_msg) :=
  match stun_msg_attr m STUN_ATTR_MSG_INTEGRITY with
  | None => mret (EPROTO, m)
  | Some mi =>
    modify (set_pos (m_start m)) ;;
    let fp := bool_decide (is_Some (stun_msg_attr m STUN_ATTR_FINGERPRINT)) in
    let m := if fp then mk_smsg (set_len (u16 (s_len (m_hdr m) - FP_SIZE)) (m_hdr m)) (m_attrl m) (m_start m) else m in
    when fp (_ ← stun_hdr_encode (m_hdr m); skip (- STUN_HEADER_SIZE)) ;;
    d ← first (usz (STUN_HEADER_SIZE + s_len (m_hdr m) - MI_SIZE));
    let m := if fp then mk_smsg (set_len (u16 (s_len (m_hdr m) + FP_SIZE)) (m_hdr m)) (m_attrl m) (m_start m) else m in
    when fp (_ ← stun_hdr_encode (m_hdr m); skip (- STUN_HEADER_SIZE)) ;;
    match a_v mi with
    | v_mi x => mret (if bool_decide (x = hmac_sha1 key d) then 0 else EBADMSG, m)
    | _ => ub
    end
  end.

Definition stun_msg_chk_fingerprint (m : stun_msg) : M mbuf Z :=
  match stun_msg_attr m STUN_ATTR_FINGERPRINT with
  | None => mret EPROTO
  | Some fp =>
    modify (set_pos (m_start m)) ;;
    d ← first (usz (STUN_HEADER_SIZE + s_len (m_hdr m) - FP_SIZE));
    f ← of_option (fingerprint d);
    match a_v fp with
    | v_32 n => mret (if f =? n then 0 else EBADMSG)
    | _ => ub
    end
  end.

End Codec.

End Stun.
