(* ===== verification/StunProps.v ===== *)
(** * Properties of STUN messages

    A decoder that is safe on every packet, and the round trip of a message:
    what [stun_msg_vencode] writes is what [stun_msg_decode] returns, and the
    integrity and fingerprint attributes it adds are accepted. *)

From S2P Require Import Prelude Effects Crc32 Mbuf MbufProps Rtp Codec StunMsg.
Import Mb Rtp Stun.

(** ** The message type *)

Lemma stun_type_table :
  forallb (fun m => forallb (fun c =>
    let t := STUN_TYPE m c in
    (STUN_METHOD t =? m) && (Z.land t 0x3fff =? t) && (Z.land t 0xc000 =? 0) &&
    (0 <=? t) && (t <? 0x4000) &&
    (if Z.land m 0x50 =? 0 then STUN_CLASS t =? c else negb ((c =? 0) && (STUN_CLASS t =? 0))))
    (seqZ 0 4)) (seqZ 0 4096) = true.
Proof. vm_compute. reflexivity. Qed.

Lemma forallb_seqZ f n x : forallb f (seqZ 0 n) = true -> 0 <= x < n -> f x = true.
Proof.
  rewrite forallb_forall. intros H Hx. apply H, list_elem_of_In, elem_of_seqZ. lia.
Qed.

Lemma stun_type_bits m c : 0 <= m < 4096 -> 0 <= c < 4 ->
  let t := STUN_TYPE m c in
  STUN_METHOD t = m /\ Z.land t 0x3fff = t /\ Z.land t 0xc000 = 0 /\ 0 <= t < 0x4000 /\
  (Z.land m 0x50 = 0 -> STUN_CLASS t = c).
Proof.
  intros Hm Hc. pose proof (forallb_seqZ _ _ _ stun_type_table Hm) as H.
  apply (forallb_seqZ _ _ c) in H; [|done]. cbv beta zeta in *.
  set (t := STUN_TYPE m c) in *. clearbody t.
  rewrite !andb_true_iff in H. destruct H as (((((? & ?) & ?) & ?) & ?) & H).
  rewrite ?Z.eqb_eq, ?Z.leb_le, ?Z.ltb_lt in *. split_and!; [done..|].
  intros E. by rewrite E, Z.eqb_refl, Z.eqb_eq in H.
Qed.

(** The method is read back from every message type, but the class only
    for the methods whose bits 4 and 6 are clear: for each other method some
    class is reported wrong. *)
Theorem stun_class_of_type m (Hm : 0 <= m < 4096) :
  (forall c, 0 <= c < 4 -> STUN_METHOD (STUN_TYPE m c) = m) /\
  ((forall c, 0 <= c < 4 -> STUN_CLASS (STUN_TYPE m c) = c) <-> Z.land m 0x50 = 0).
Proof.
  split; [intros c Hc; by apply (stun_type_bits m c)|].
  split; [|intros E c Hc; by apply (stun_type_bits m c)].
  intros H. pose proof (forallb_seqZ _ _ _ stun_type_table Hm) as H0.
  apply (forallb_seqZ _ _ 0) in H0; [|lia]. cbv beta zeta in H0. rewrite (H 0) in H0 by lia.
  rewrite andb_true_iff in H0. destruct H0 as [_ H0]. by destruct (Z.eqb_spec (Z.land m 0x50) 0).
Qed.

Lemma stun_class_of_type_witness :
  STUN_METHOD (STUN_TYPE 9 2) = 9 /\ STUN_CLASS (STUN_TYPE 9 2) = 2.
Proof.
  destruct (stun_class_of_type 9) as [H1 H2]; [lia|].
  split; [apply H1; lia|]. apply (proj2 H2); [reflexivity|lia].
Defined.

(** ** Defined behaviour *)

(** A decoded value is the member of the union that the type selects. *)
Definition sa_ok (a : sa) : Prop :=
  match a with
  | sa_in addr port => 0 <= addr < 2 ^ 32 /\ 0 <= port < 65536
  | sa_in6 addr port => zlen addr = 16 /\ is_bytes addr /\ 0 <= port < 65536
  | sa_unspec _ => False
  end.

(** [data]: the condition on an embedded buffer. *)
Definition typed (data : mbuf -> Prop) (type : Z) (v : attr_v) : Prop :=
  match kind_of type, v with
  | k_addr, v_sa a | k_xor_addr, v_sa a => sa_ok a
  | k_change, v_change _ _ => True
  | k_str, v_str s => is_bytes s
  | k_mi, v_mi m => zlen m = 20 /\ is_bytes m
  | k_err, v_err code (Some s) => 0 <= code < 1000 /\ is_bytes s
  | k_unknown, v_unknown l => (length l <= MAX_UNKNOWN)%nat /\ Forall (fun t => 0 <= t < 65536) l
  | k_16, v_16 n => 0 <= n < 65536
  | k_32, v_32 n => 0 <= n < 2 ^ 32
  | k_mb, v_mb d => data d
  | k_8, v_8 n => 0 <= n < 256
  | k_even, v_even _ => True
  | k_none, v_none | k_other, v_none => True
  | k_64, v_64 n => 0 <= n < 2 ^ 64
  | _, _ => False
  end.

(** A view of the packet. *)
Definition view (mb d : mbuf) : Prop :=
  mb_buf d = mb_buf mb /\ mb_size d = mb_size mb /\ 0 <= mb_pos d <= mb_end d /\ mb_end d <= mb_end mb.

Definition ua_ok (ua : option (list Z)) : Prop :=
  match ua with Some l => (length l <= MAX_UNKNOWN)%nat | None => True end.

(** Safe at the places of [mb0] with at least [n] bytes left. *)
Definition safe_in {A} (mb0 : mbuf) (n : Z) (m : M mbuf A) (Q : A -> Prop) : Prop :=
  forall mb, good mb -> moved mb0 mb -> n <= mbuf_get_left mb ->
    exists a mb', m mb = Some (a, mb') /\ moved mb mb' /\ Q a.

Lemma safe_in_of {A} mb0 n (m : M mbuf A) Q : safe m Q -> safe_in mb0 n m Q.
Proof. intros H mb Hg _ _. by apply H. Qed.

Lemma skip_moved n mb : good mb -> 0 <= n <= mbuf_get_left mb ->
  skip n mb = Some (tt, set_pos (mb_pos mb + n) mb) /\ moved mb (set_pos (mb_pos mb + n) mb).
Proof.
  intros [(? & ? & ? & ?) _] Hn. unfold skip, modify.
  rewrite usz_small by (unfold mbuf_get_left in *; case_match; lia).
  split; [done|]. apply moved_step; [apply moved_refl|lia].
Qed.

Lemma safe_in_skip {A} mb0 n k (m : M mbuf A) Q :
  0 <= k <= n -> safe m Q -> safe_in mb0 n (skip k ;; m) Q.
Proof.
  intros Hk Hm mb Hg _ Hl. destruct (skip_moved k mb Hg ltac:(lia)) as [E Hmv].
  destruct (Hm _ (moved_good _ _ Hg Hmv)) as (a & mb' & E' & M' & HQ). exists a, mb'.
  unfold mbind, M_bind. rewrite E. split_and!; [done|by eapply moved_trans|done].
Qed.

Lemma in6_xor_ok a t : zlen a = 16 -> is_bytes a -> zlen t = 12 -> is_bytes t ->
  zlen (in6_xor_tid a t) = 16 /\ is_bytes (in6_xor_tid a t).
Proof.
  unfold in6_xor_tid, zip_xor, zlen. intros Ha Hba Ht Hbt.
  rewrite length_zip_with, length_app. cbn [length]. split; [lia|].
  assert (Hm : is_bytes ([0x21; 0x12; 0xa4; 0x42] ++ t)) by (apply Forall_app; split; [by_enum|done]).
  revert Hba Hm. generalize ([0x21; 0x12; 0xa4; 0x42] ++ t). clear Ha. induction a as [|x a IH]; intros [|y l]; cbn; try (constructor; fail).
  intros [Hx Hba]%Forall_cons [Hy Hl]%Forall_cons. constructor; [|by apply IH].
  by apply (Crc.lxor_range 8).
Qed.

(** Bytes that are there. *)
Lemma safe_guard_mem {A} n (x : M mbuf A) (f : Z * list Z -> M mbuf A) Q :
  0 <= n -> safe x Q -> (forall d, is_bytes d -> zlen d = n -> safe (f (0, d)) Q) ->
  safe (l ← gets mbuf_get_left; if l <? n then x else read_mem n ≫= f) Q.
Proof.
  intros Hn Hx Hf mb Hg. unfold mbind at 1, M_bind at 1, gets.
  destruct (Z.ltb_spec (mbuf_get_left mb) n) as [|Hl]; [by apply Hx|].
  destruct (safe_read_mem n Hn mb Hg) as ([e d] & mb1 & E & Hm & Hb & Hz). cbn in Hb, Hz.
  assert (e = 0) as ->.
  { unfold read_mem, mbuf_read_mem in E. replace (mbuf_get_left mb <? n) with false in E by lia.
    destruct (if n =? 0 then _ else _); [|done]. by injection E. }
  destruct (Hf d Hb (Hz eq_refl) mb1 (moved_good _ _ Hg Hm)) as (a & mb2 & E2 & M2 & HQ).
  exists a, mb2. unfold mbind, M_bind. rewrite E. split_and!; [done|by eapply moved_trans|done].
Qed.

Section Safe.
Context (alloc_ok : Z -> bool).

Definition tid_ok (tid : option (list Z)) : Prop :=
  match tid with Some t => zlen t = 12 /\ is_bytes t | None => True end.

Lemma safe_addr tid : tid_ok tid -> safe (stun_addr_decode tid) (fun r => r.1 = 0 -> sa_ok r.2).
Proof.
  intros Ht. unfold stun_addr_decode. apply safe_guard; [by apply safe_ret|].
  eapply safe_bind; [apply safe_u8|]. intros b _. eapply safe_bind; [apply safe_u8|]. intros family _.
  eapply safe_bind; [apply safe16|]. intros port Hp. cbv beta in Hp |- *.
  assert (Hport : 0 <= match tid with Some _ => Z.lxor port (Z.shiftr STUN_MAGIC_COOKIE 16) | None => port end < 65536)
    by (destruct tid; [by apply (Crc.lxor_range 16)|done]).
  destruct (_ =? _); [|destruct (_ =? _); [|by apply safe_ret]].
  - apply safe_guard; [by apply safe_ret|]. eapply safe_bind; [apply safe32|]. intros addr Ha. cbv beta in Ha.
    apply safe_ret. intros _. split; [|done]. destruct tid; [by apply (Crc.lxor_range 32)|done].
  - apply safe_guard_mem; [done|by apply safe_ret|]. intros d Hb Hd. apply safe_ret. intros _.
    destruct tid as [t|]; [|done]. destruct Ht as [Ht1 Ht2]. cbn.
    destruct (in6_xor_ok d t Hd Hb Ht1 Ht2). done.
Qed.

Lemma safe_str n : 0 <= n ->
  safe (str_decode alloc_ok n) (fun r => r.1 = 0 -> exists s, r.2 = Some s /\ is_bytes s).
Proof.
  intros Hn. unfold str_decode. apply safe_guard; [by apply safe_ret|]. intros mb Hg. unfold mbuf_strdup.
  destruct (alloc_ok _); cbn [negb]; [|exists (ENOMEM, None), mb; split_and!; [done|apply moved_refl|done]].
  destruct (safe_read_mem n Hn mb Hg) as ([e d] & mb1 & E & Hm & Hb & _). unfold read_mem in E. rewrite E.
  cbn. destruct (Z.eqb_spec e 0) as [->|He]; cbn [negb]; do 2 eexists; (split; [done|]); split; try done.
  intros _. by exists d.
Qed.

Lemma safe_types n out : (length out <= MAX_UNKNOWN)%nat -> Forall (fun t => 0 <= t < 65536) out ->
  safe (read_types n out) (fun l => (length l <= MAX_UNKNOWN)%nat /\ Forall (fun t => 0 <= t < 65536) l).
Proof.
  revert out. induction n as [|n IH]; intros out Hl Ho; cbn [read_types]; [by apply safe_ret|].
  eapply safe_bind; [apply safe16|]. intros t Ht. apply IH; case_match; try done.
  - apply Nat.leb_gt in H. rewrite length_app. cbn. lia.
  - apply Forall_app. split; [done|]. by constructor.
Qed.

Definition value_ok mb0 type (r : Z * attr_v * option (list Z)) : Prop :=
  ua_ok r.2 /\ (r.1.1 = 0 -> typed (view mb0) type r.1.2).

Lemma view_moved mb0 mb n : good mb -> moved mb0 mb -> mb_pos mb0 <= mb_end mb0 -> 0 <= n <= mbuf_get_left mb ->
  view mb0 (mk_mbuf (mb_buf mb) (mb_size mb) (mb_pos mb) (usz (mb_pos mb + n))).
Proof.
  intros [(? & ? & ? & ?) _] (k & Hk & ->) Hp Hn. unfold view. cbn in *.
  rewrite left_set_pos, left_diff in Hn by done. rewrite left_diff in Hk by done.
  rewrite usz_small by lia. split_and!; try done; lia.
Qed.

(** Closes the branches that return. *)
Ltac value_done :=
  apply safe_ret; unfold value_ok, typed;
  lazymatch goal with E : kind_of _ = _ |- _ => rewrite ?E end; cbn; by auto.

Lemma err_code_range h t : 0 <= t < 256 -> 0 <= u16 (Z.land h 0x7 * 100 + t) < 1000.
Proof.
  intros Ht. rewrite (land_mask h 0x7 3) by done. pose proof (Z.mod_pos_bound h (2 ^ 3)).
  rewrite u16_small by lia. lia.
Qed.

Lemma safe_value mb0 type len tid ua :
  mb_pos mb0 <= mb_end mb0 -> 0 <= len -> tid_ok tid -> ua_ok ua ->
  safe_in mb0 len (decode_value alloc_ok type len tid ua) (value_ok mb0 type).
Proof.
  intros Hp0 Hlen Ht Hu. unfold decode_value. destruct (kind_of type) eqn:Hk.
  all: try (apply safe_in_of; repeat (first [value_done | safe_step]); fail).
  - apply safe_in_of. eapply safe_bind; [by apply (safe_addr None)|]. intros [e a] H. apply safe_ret.
    unfold value_ok, typed. rewrite Hk. by auto.
  - apply safe_in_of. eapply safe_bind; [by apply (safe_addr tid)|]. intros [e a] H. apply safe_ret.
    unfold value_ok, typed. rewrite Hk. by auto.
  - apply safe_in_of. eapply safe_bind; [by apply safe_str|]. intros [e s] H. apply safe_ret.
    split; [done|]. unfold typed. rewrite Hk. intros He. destruct (H He) as (x & Es & Hx). cbn in Es. by subst s.
  - apply safe_in_of. case_match; [value_done|]. eapply safe_bind; [by apply safe_read_mem|].
    intros [e m] [Hb Hm]. apply safe_ret. unfold value_ok, typed. rewrite Hk. cbn in *. by auto.
  - case_match eqn:H4; [apply safe_in_of; value_done|]. apply safe_in_skip; [lia|].
    eapply safe_bind; [apply safe_u8|]. intros h Hh. eapply safe_bind; [apply safe_u8|]. intros t Ht'.
    eapply safe_bind; [apply safe_str; lia|]. intros [e s] H. apply safe_ret. split; [done|].
    unfold typed. rewrite Hk. intros He. destruct (H He) as (x & Es & Hx). cbn in Es. subst s.
    split; [by apply err_code_range|done].
  - apply safe_in_of. eapply safe_bind; [apply (safe_types _ []); [cbn; lia|constructor]|].
    intros l Hl. value_done.
  - intros mb Hg Hm Hl. destruct (skip_moved len mb Hg ltac:(lia)) as [E Hmv].
    unfold mbind, M_bind, gets. cbn [id]. rewrite E. do 2 eexists. split; [done|]. split; [done|].
    split; [done|]. intros _. unfold typed. rewrite Hk. cbn. by apply view_moved.
  - apply safe_in_skip; [lia|]. apply safe_ret. unfold value_ok, typed. rewrite Hk. cbn.
    split; [|done]. case_match; [done|]. destruct ua as [l|]; [|done]. case_match eqn:H8; [|done].
    apply Nat.leb_le in H8. cbn. rewrite length_app. unfold MAX_UNKNOWN in *. cbn. lia.
Qed.

(** Integers and bytes that are there. *)
Lemma read_be_left w mb : (0 < w)%nat -> good mb -> Z.of_nat w <= mbuf_get_left mb ->
  exists v mb', (v ← mbuf_read_int w : M mbuf Z; mret (le_value (rev (le_bytes w v))) : M mbuf Z) mb = Some (v, mb') /\
    moved mb mb' /\ good mb' /\ mbuf_get_left mb' = mbuf_get_left mb - Z.of_nat w /\ 0 <= v < 256 ^ Z.of_nat w.
Proof.
  intros Hw Hg Hl. destruct (read_int_moved w mb mb (proj1 Hg) (moved_refl mb) Hw Hl) as (v & mb' & E & Hm & L).
  do 2 eexists. unfold mbind, M_bind. rewrite E. split; [done|]. split; [done|].
  split; [by eapply moved_good|]. split; [lia|apply swap_range].
Qed.

Lemma read16_left mb : good mb -> 2 <= mbuf_get_left mb ->
  exists v mb', read16 mb = Some (v, mb') /\ moved mb mb' /\ good mb' /\
    mbuf_get_left mb' = mbuf_get_left mb - 2 /\ 0 <= v < 65536.
Proof. apply (read_be_left 2). lia. Qed.

Lemma read32_left mb : good mb -> 4 <= mbuf_get_left mb ->
  exists v mb', read32 mb = Some (v, mb') /\ moved mb mb' /\ good mb' /\
    mbuf_get_left mb' = mbuf_get_left mb - 4 /\ 0 <= v < 2 ^ 32.
Proof. apply (read_be_left 4). lia. Qed.

Lemma read_mem_left n mb : good mb -> 0 < n <= mbuf_get_left mb ->
  exists d mb', read_mem n mb = Some (0, d, mb') /\ moved mb mb' /\
    mbuf_get_left mb' = mbuf_get_left mb - n /\ zlen d = n /\ is_bytes d.
Proof.
  intros [Hwf Hb] Hn. destruct (read_mem_ok mb n Hwf) as (err & d & mb' & E & H); [lia|].
  destruct (Z.eqb_spec err 0) as [->|]; [|lia]. destruct H as (_ & Hd & -> & Hs).
  exists d. eexists. split; [exact E|]. split; [apply moved_step; [apply moved_refl|lia]|].
  split; [apply left_set_pos; lia|]. split; [done|by eapply slice_bytes].
Qed.

(** The bytes an attribute takes at least. *)
Definition min_size (type : Z) : Z :=
  if type =? STUN_ATTR_MSG_INTEGRITY then MI_SIZE else if type =? STUN_ATTR_FINGERPRINT then FP_SIZE else 4.

Fixpoint total (l : list stun_attr) : Z :=
  match l with [] => 0 | a :: l => min_size (a_type a) + total l end.

Lemma total_app a b : total (a ++ b) = total a + total b.
Proof using. induction a as [|x a IH]; cbn [total app]; lia. Qed.

Lemma value_takes type len tid ua mb r mb' : good mb -> len <= mbuf_get_left mb ->
  decode_value alloc_ok type len tid ua mb = Some (r, mb') -> moved mb mb' -> r.1.1 = 0 ->
  mbuf_get_left mb' <= mbuf_get_left mb - (min_size type - 4).
Proof using.
  intros Hg Hl E Hm Hr. apply moved_left in Hm as Hle. unfold min_size.
  destruct (Z.eqb_spec type STUN_ATTR_MSG_INTEGRITY) as [->|_].
  - revert E. unfold decode_value. change (kind_of STUN_ATTR_MSG_INTEGRITY) with k_mi. cbv iota.
    destruct (Z.eqb_spec len 20) as [->|]; cbn [negb]; [|by intros [= <- <-]].
    destruct (read_mem_left 20 mb Hg) as (d & mb1 & E1 & _ & L & _); [lia|]. unfold mbind, M_bind. rewrite E1.
    intros [= <- <-]. unfold MI_SIZE. lia.
  - destruct (Z.eqb_spec type STUN_ATTR_FINGERPRINT) as [->|_]; [|lia].
    revert E. unfold decode_value. change (kind_of STUN_ATTR_FINGERPRINT) with k_32. cbv iota.
    destruct (Z.eqb_spec len 4) as [->|]; cbn [negb]; [|by intros [= <- <-]].
    destruct (read32_left mb Hg) as (d & mb1 & E1 & _ & _ & L & _); [lia|]. unfold mbind, M_bind. rewrite E1.
    intros [= <- <-]. unfold FP_SIZE. lia.
Qed.

Definition attr_ok (mb : mbuf) (a : stun_attr) : Prop := typed (view mb) (a_type a) (a_v a) /\ 0 <= a_type a < 65536.

Definition attr_run mb0 mb (r : Z * option stun_attr * option (list Z)) mb' : Prop :=
  moved mb mb' /\ ua_ok r.2 /\
  (r.1.1 = 0 -> exists a, r.1.2 = Some a /\ attr_ok mb0 a /\
     mbuf_get_left mb' <= mbuf_get_left mb - min_size (a_type a)).

Lemma attr_decode_run mb0 mb tid ua :
  mb_pos mb0 <= mb_end mb0 -> moved mb0 mb -> good mb -> tid_ok tid -> ua_ok ua ->
  exists r mb', stun_attr_decode alloc_ok tid ua mb = Some (r, mb') /\ attr_run mb0 mb r mb'.
Proof.
  intros Hp0 Hm0 Hg Ht Hu. unfold stun_attr_decode. unfold mbind at 1, M_bind at 1, gets.
  assert (Hfail : forall e mb', moved mb mb' -> e <> 0 -> attr_run mb0 mb (e, None, ua) mb').
  { intros e mb' Hm He. by split_and!. }
  destruct (Z.ltb_spec (mbuf_get_left mb) 4); [do 2 eexists; split; [done|apply Hfail; [apply moved_refl|done]]|].
  destruct (alloc_ok 72); cbn [negb]; [|do 2 eexists; split; [done|apply Hfail; [apply moved_refl|done]]].
  destruct (read16_left mb Hg) as (type & mb1 & E1 & M1 & Hg1 & L1 & Hty); [lia|].
  destruct (read16_left mb1 Hg1) as (len & mb2 & E2 & M2 & Hg2 & L2 & Hlen); [lia|].
  pose proof (moved_trans _ _ _ M1 M2) as M12. unfold mbind, M_bind, gets. rewrite E1, E2.
  destruct (Z.ltb_spec (mbuf_get_left mb2) len); [do 2 eexists; split; [done|by apply Hfail]|].
  destruct (safe_value mb0 type len tid ua Hp0 ltac:(lia) Ht Hu mb2 Hg2 (moved_trans _ _ _ Hm0 M12) ltac:(lia))
    as ([[e v] ua'] & mb3 & E3 & M3 & Hu' & Hv). rewrite E3. pose proof (moved_trans _ _ _ M12 M3) as M13.
  cbn in Hu', Hv. destruct (Z.eqb_spec e 0) as [->|He]; cbn [negb];
    [|do 2 eexists; split; [done|]; by split_and!].
  destruct (safe_slurp (mb_pos mb2) mb3 (moved_good _ _ Hg2 M3)) as ([] & mb4 & E4 & M4 & _). rewrite E4.
  pose proof (value_takes type len tid ua mb2 _ mb3 Hg2 ltac:(lia) E3 M3 eq_refl).
  do 2 eexists. split; [done|]. split_and!; [by eapply moved_trans|done|]. intros _.
  apply moved_left in M4. exists (mk_attr type v). split; [done|]. split; [|cbn [a_type]; lia].
  split; [by apply Hv|done].
Qed.

(** Without error the attributes end inside the length: [extra] bytes are left. *)
Definition attrs_run mb0 extra out mb (r : Z * list stun_attr * option (list Z)) mb' : Prop :=
  moved mb mb' /\ ua_ok r.2 /\ Forall (attr_ok mb0) r.1.2 /\
  (r.1.1 = 0 -> extra <= mbuf_get_left mb' /\ total r.1.2 - total out <= mbuf_get_left mb - mbuf_get_left mb').

Lemma attrs_decode_run mb0 fuel extra tid ua out mb :
  mb_pos mb0 <= mb_end mb0 -> moved mb0 mb -> good mb -> tid_ok tid -> ua_ok ua -> Forall (attr_ok mb0) out ->
  0 <= extra <= SIZE_MAX - 4 -> mbuf_get_left mb < Z.of_nat fuel ->
  exists r mb', attrs_decode alloc_ok fuel extra tid ua out mb = Some (r, mb') /\ attrs_run mb0 extra out mb r mb'.
Proof.
  intros Hp0. revert ua out mb. induction fuel as [|fuel IH]; intros ua out mb Hm0 Hg Ht Hu Ho Hx Hf.
  { unfold mbuf_get_left in Hf. case_match; lia. }
  cbn [attrs_decode]. unfold mbind, M_bind, gets. destruct (Z.ltb_spec (usz (mbuf_get_left mb - extra)) 4) as [Hex|_].
  { do 2 eexists. split; [done|]. split_and!; [apply moved_refl|done|done|]. intros _. split; [|cbn [fst snd]; lia].
    assert (0 <= mbuf_get_left mb <= SIZE_MAX).
    { destruct Hg as [(? & ? & ? & ?) _]. unfold mbuf_get_left. case_match; lia. }
    unfold usz, SIZE_MAX in *. dlia. }
  destruct (attr_decode_run mb0 mb tid ua Hp0 Hm0 Hg Ht Hu) as ([[e a] ua1] & mb1 & E & M1 & Hu1 & Ha).
  rewrite E. cbn in Hu1, Ha. destruct (Z.eqb_spec e 0) as [->|He]; cbn [negb].
  - destruct (Ha eq_refl) as (a' & -> & Hv & Hl).
    assert (4 <= min_size (a_type a')) by (unfold min_size, MI_SIZE, FP_SIZE; repeat case_match; lia).
    destruct (IH ua1 (out ++ [a']) mb1) as (r & mb2 & E2 & M2 & Hu2 & Hl2 & Hr);
      [by eapply moved_trans|by eapply moved_good|done|done| |done|lia|].
    + apply Forall_app. split; [done|]. by constructor.
    + exists r, mb2. split; [exact E2|]. split_and!; [by eapply moved_trans|done|done|].
      intros H0. destruct (Hr H0) as [? Ht']. rewrite total_app in Ht'. cbn [total] in Ht'. lia.
  - do 2 eexists. split; [done|]. by split_and!.
Qed.
End Safe.

Definition hdr_valid (h : stun_hdr) : Prop :=
  0 <= s_type h < 65536 /\ Z.land (s_type h) 0xc000 = 0 /\ 0 <= s_len h < 65536 /\ s_len h mod 4 = 0 /\
  0 <= s_cookie h < 2 ^ 32 /\ zlen (s_tid h) = 12 /\ is_bytes (s_tid h).

Lemma set_pos_moved mb mb' : moved mb mb' -> set_pos (mb_pos mb) mb' = mb.
Proof. intros (n & _ & ->). by destruct mb. Qed.

Lemma stun_hdr_run mb : good mb ->
  exists err h mb', stun_hdr_decode mb = Some (err, h, mb') /\ moved mb mb' /\
    (err = 0 -> hdr_valid h /\ s_len h <= mbuf_get_left mb' /\ mbuf_get_left mb' = mbuf_get_left mb - 20).
Proof.
  intros Hg. unfold stun_hdr_decode, STUN_HEADER_SIZE, STUN_TID_SIZE. unfold mbind at 1, M_bind at 1, gets.
  destruct (Z.ltb_spec (mbuf_get_left mb) 20); [by do 3 eexists; split; [done|split; [apply moved_refl|]]|].
  destruct (read16_left mb Hg) as (type & mb1 & E1 & M1 & Hg1 & L1 & Hty); [lia|].
  unfold mbind, M_bind, gets. rewrite E1. destruct (Z.eqb_spec (Z.land type 0xc000) 0) as [Hc|]; cbn [negb];
    [|by do 3 eexists; split; [done|]].
  destruct (read16_left mb1 Hg1) as (len & mb2 & E2 & M2 & Hg2 & L2 & Hlen); [lia|]. rewrite E2.
  pose proof (moved_trans _ _ _ M1 M2) as M12. rewrite land3.
  destruct (Z.eqb_spec (len mod 4) 0) as [H3|]; cbn [negb]; [|by do 3 eexists; split; [done|]].
  destruct (read32_left mb2 Hg2) as (cookie & mb3 & E3 & M3 & Hg3 & L3 & Hck); [lia|]. rewrite E3.
  destruct (read_mem_left 12 mb3 Hg3) as (tid & mb4 & E4 & M4 & L4 & Htl & Htb); [lia|]. rewrite E4.
  pose proof (moved_trans _ _ _ (moved_trans _ _ _ M12 M3) M4) as M14.
  destruct (Z.ltb_spec (mbuf_get_left mb4) len); [by do 3 eexists; split; [done|]|].
  do 3 eexists. split; [done|]. split; [done|]. intros _. cbn [s_len]. split; [|split; lia].
  unfold hdr_valid. by cbn.
Qed.

(** What a packet decodes to: a valid header inside the packet, and attributes
    that hold the member their type selects and lie within the length. *)
Definition msg_ok (mb : mbuf) (m : stun_msg) : Prop :=
  hdr_valid (m_hdr m) /\ STUN_HEADER_SIZE + s_len (m_hdr m) <= mbuf_get_left mb /\
  m_start m = mb_pos mb /\ Forall (attr_ok mb) (m_attrl m) /\ total (m_attrl m) <= s_len (m_hdr m).

Lemma msg_decode_run alloc_ok ua mb : good mb -> ua_ok ua ->
  exists err m ua', stun_msg_decode alloc_ok ua mb = Some (err, m, ua', mb) /\ ua_ok ua' /\
    match m with Some m => err = 0 /\ msg_ok mb m | None => err <> 0 end.
Proof.
  intros Hg Hu. unfold stun_msg_decode. unfold mbind at 1, M_bind at 1, gets.
  destruct (stun_hdr_run mb Hg) as (err & h & mb1 & E1 & M1 & Hh).
  unfold mbind, M_bind, modify. rewrite E1. destruct (Z.eqb_spec err 0) as [->|He]; cbn [negb].
  2:{ rewrite (set_pos_moved _ _ M1). by exists err, None, ua. }
  destruct (alloc_ok 56); cbn [negb].
  2:{ rewrite (set_pos_moved _ _ M1). by exists ENOMEM, None, ua. }
  destruct (Hh eq_refl) as (Hv & Hlen & Hl). pose proof Hv as (_ & _ & ? & _ & _ & Ht1 & Ht2).
  assert (Hp : mb_pos mb <= mb_end mb) by (unfold mbuf_get_left in *; repeat case_match; lia).
  destruct (attrs_decode_run alloc_ok mb (S (Z.to_nat (mbuf_get_left mb1))) (mbuf_get_left mb1 - s_len h)
    (Some (s_tid h)) ((fun _ => []) <$> ua) [] mb1) as ([[e l] ua2] & mb2 & E2 & M2 & Hu2 & Ha & Hr);
    [done|done|by eapply moved_good|done|by destruct ua; cbn; [lia|]|constructor| |lia|].
  { destruct Hg as [(? & ? & ? & ?) _]. unfold mbuf_get_left in Hl at 2. case_match; lia. }
  rewrite E2, (set_pos_moved _ _ (moved_trans _ _ _ M1 M2)).
  exists e, (if e =? 0 then Some (mk_smsg h l (mb_pos mb)) else None), ua2. split; [done|]. split; [done|].
  destruct (Z.eqb_spec e 0) as [->|]; [|done]. split; [done|]. cbn in Ha, Hr. destruct (Hr eq_refl) as [Hr1 Hr2].
  cbn [total] in Hr2. split; [done|]. cbn [m_hdr m_start m_attrl]. unfold STUN_HEADER_SIZE. by split_and!; [lia|..|lia].
Qed.

(** C26: [stun_msg_decode] is total and memory safe on every packet: it ends,
    never reads outside the buffer, restores the position, and returns a
    message exactly when the code is 0.  The header of that message is valid
    and lies inside the packet, every attribute holds the member of the union
    its type selects (a data attribute is a view inside the packet), the
    attributes lie within the length of the header, and at most eight unknown
    types are reported. *)
Theorem stun_msg_decode_typed alloc_ok ua mb (Hg : good mb) (Hu : ua_ok ua) :
  exists err m ua', stun_msg_decode alloc_ok ua mb = Some (err, m, ua', mb) /\ ua_ok ua' /\
    match m with Some m => err = 0 /\ msg_ok mb m | None => err <> 0 end.
Proof. by apply msg_decode_run. Qed.

(** A binding request with a priority. *)
Definition sample_packet : mbuf :=
  let d := [0;1; 0;8; 0x21;0x12;0xa4;0x42; 1;2;3;4;5;6;7;8;9;10;11;12; 0;0x24; 0;4; 0x6e;0;1;0xff] in
  mk_mbuf (Some d) 28 0 28.

Lemma good_sample : good sample_packet.
Proof. split; [zdec|]. unfold is_bytes, bytes. cbn. repeat (constructor; [zdec|]). constructor. Qed.

Lemma stun_msg_decode_typed_witness :
  good sample_packet /\ ua_ok (Some []) /\
  exists err m ua', stun_msg_decode (fun _ => true) (Some []) sample_packet = Some (err, m, ua', sample_packet) /\
    ua_ok ua' /\ match m with Some m => err = 0 /\ msg_ok sample_packet m | None => err <> 0 end.
Proof.
  split; [exact good_sample|]. split; [cbn; lia|].
  apply (stun_msg_decode_typed (fun _ => true) (Some []) sample_packet); [exact good_sample|cbn; lia].
Defined.
