(* ===== verification/StunRoundtrip.v ===== *)
(** * The round trip of STUN messages

    The bytes of attributes and messages, what the encoders leave in a
    buffer, and that the decoder and the two checks accept it. *)

From S2P Require Import Prelude Effects Crc32 Mbuf MbufProps Rtp Codec StunMsg StunProps.
Import Mb Rtp Stun.

(** ** Writing behind the end

    An attribute is written behind a hole for its header, so the position
    may lie behind the end of the buffer: [added mb mb' d] if [d] is written
    at the position and the bytes in front of it are kept. *)

Definition added (mb mb' : mbuf) (d : list Z) : Prop :=
  mb_wf mb' /\ mb_pos mb' = mb_pos mb + zlen d /\ mb_end mb <= mb_end mb' <= mb_pos mb' /\
  (d = [] \/ mb_end mb' = mb_pos mb' /\ slice (bytes mb') (mb_pos mb) (zlen d) = Some d) /\
  mb_size mb <= mb_size mb' /\
  forall i n, 0 <= i -> 0 <= n -> i + n <= mb_size mb -> i + n <= mb_pos mb ->
    slice (bytes mb') i n = slice (bytes mb) i n.

Definition adds (m : M mbuf Z) (d : list Z) : Prop :=
  forall mb, mb_wf mb -> mb_end mb <= mb_pos mb -> mb_pos mb + zlen d <= SIZE_MAX ->
    exists mb', m mb = Some (0, mb') /\ added mb mb' d.

Lemma added_none mb : mb_wf mb -> mb_end mb <= mb_pos mb -> added mb mb [].
Proof. intros Hwf He. split_and!; try done; try (by left); change (zlen (@nil Z)) with 0; lia. Qed.

Lemma zlen_nil (d : list Z) : zlen d = 0 -> d = [].
Proof. by destruct d. Qed.

Lemma wf_len mb : mb_wf mb -> zlen (bytes mb) = mb_size mb.
Proof. by intros []. Qed.

Lemma added_app mb mb1 mb2 a b : mb_wf mb -> added mb mb1 a -> added mb1 mb2 b -> added mb mb2 (a ++ b).
Proof.
  intros Hwf (W1 & P1 & E1 & S1 & Z1 & K1) (W2 & P2 & E2 & S2 & Z2 & K2).
  unfold added. rewrite zlen_app.
  pose proof (zlen_nonneg a). pose proof (zlen_nonneg b). pose proof Hwf as (_ & ? & _).
  split; [done|]. split; [lia|]. split; [lia|]. split; [|split; [lia|]].
  2:{ intros i n Hi Hn Hs Hp. rewrite K2, K1 by lia. done. }
  destruct S1 as [->|[F1 S1]]; [cbn [app]; change (zlen (@nil Z)) with 0 in *|right].
  - destruct S2 as [->|[F2 S2]]; [by left|right]. split; [done|]. rewrite <- S2. f_equal; lia.
  - assert (Ha : slice (bytes mb2) (mb_pos mb) (zlen a) = Some a).
    { pose proof (slice_inv _ _ _ _ S1) as (? & _ & ? & _). rewrite (wf_len mb1 W1) in *. rewrite K2; [done|lia..]. }
    destruct S2 as [->|[F2 S2]].
    + change (zlen (@nil Z)) with 0 in *. rewrite app_nil_r. split; [lia|]. rewrite Z.add_0_r. exact Ha.
    + split; [done|]. rewrite <- zlen_app. apply slice_app. split; [done|]. rewrite <- P1. exact S2.
Qed.

Lemma adds_ret : adds (mret 0) [].
Proof. intros mb Hwf He _. exists mb. split; [done|by apply added_none]. Qed.

Lemma adds_or m1 m2 a b : adds m1 a -> adds m2 b -> adds (m1 |; m2) (a ++ b).
Proof.
  intros H1 H2 mb Hwf He Hs. rewrite zlen_app in Hs. pose proof (zlen_nonneg a). pose proof (zlen_nonneg b).
  destruct (H1 mb Hwf He) as (mb1 & E1 & A1); [lia|]. pose proof A1 as (W1 & P1 & F1 & _).
  destruct (H2 mb1 W1) as (mb2 & E2 & A2); [lia..|]. exists mb2. unfold seq_or, mbind, M_bind. rewrite E1, E2.
  split; [done|by eapply added_app].
Qed.

Lemma written_added mb mb' d : mb_end mb <= mb_pos mb -> written mb mb' d -> added mb mb' d.
Proof.
  intros He (W & P & E & S & Zs & K). pose proof (zlen_nonneg d).
  split; [done|]. split; [done|]. split; [lia|]. split; [right; split; [lia|done]|]. split; [done|].
  intros i n Hi Hn Hs Hp. apply K; [done..|]. by left.
Qed.

Lemma adds_puts m d : puts m d -> adds m d.
Proof.
  intros H mb Hwf He Hs. destruct (H mb Hwf Hs) as (mb' & E & W). exists mb'. split; [done|by apply written_added].
Qed.

(** ** The bytes of an attribute *)

Definition addr_bytes (a : sa) (tid : option (list Z)) : list Z :=
  let port p := match tid with Some _ => Z.lxor p 0x2112 | None => p end in
  match a with
  | sa_in addr p => [0; STUN_AF_IPv4] ++ be16 (port p) ++
      be32 (match tid with Some _ => Z.lxor addr STUN_MAGIC_COOKIE | None => addr end)
  | sa_in6 addr p => [0; STUN_AF_IPv6] ++ be16 (port p) ++
      match tid with Some t => in6_xor_tid addr t | None => addr end
  | sa_unspec _ => []
  end.

Definition value_bytes (tid : list Z) (type : Z) (v : attr_v) : list Z :=
  match v with
  | v_sa a => addr_bytes a (match kind_of type with k_addr => None | _ => Some tid end)
  | v_change ip port => be32 (Z.lor (Z.shiftl (b2z ip) 2) (Z.shiftl (b2z port) 1))
  | v_str s => s
  | v_mi m => m
  | v_err code reason => be16 0 ++ [u8 (code / 100)] ++ [u8 (code mod 100)] ++ default [] reason
  | v_unknown l => concat (map be16 l)
  | v_16 n => be16 n ++ be16 0
  | v_32 n => be32 n
  | v_8 n => [u8 n] ++ [0] ++ be16 0
  | v_even r => [u8 (Z.shiftl (b2z r) 7)]
  | v_64 n => be64 n
  | v_none | v_mb _ | v_self => []
  end.

(** The padding to a multiple of four. *)
Definition pad_len (n : Z) : nat := Z.to_nat (- n mod 4).

Definition attr_bytes (padding : Z) (tid : list Z) (a : Z * attr_v) : list Z :=
  let d := value_bytes tid a.1 a.2 in
  (be16 a.1 ++ be16 (zlen d)) ++ d ++ replicate (pad_len (zlen d)) (u8 padding).

(** The attributes the round trip is stated for: the value is the member the
    type selects, and an error code fits into three bits and two digits.  Not
    among them are DATA and PADDING (and attributes of unknown type): their
    value is another buffer, of which the decoder keeps a view, so [typed] has
    no value of these types here. *)
Definition sendable (a : Z * attr_v) : Prop :=
  kind_of a.1 <> k_other /\ typed (fun _ => False) a.1 a.2 /\ 0 <= a.1 < 65536 /\
  match a.2 with v_err code _ => code < 800 | _ => True end.

Lemma pad_len_lt n : (pad_len n < 4)%nat.
Proof. unfold pad_len. pose proof (Z.mod_pos_bound (- n) 4). lia. Qed.

Lemma pad_len_mod n : (n + Z.of_nat (pad_len n)) mod 4 = 0.
Proof. unfold pad_len. pose proof (Z.mod_pos_bound (- n) 4). rewrite Z2Nat.id by lia. dlia. Qed.

Lemma be_bytes w v : is_bytes (rev (le_bytes w v)).
Proof. apply Forall_rev, le_bytes_is. Qed.

Lemma is_bytes_app a b : is_bytes a -> is_bytes b -> is_bytes (a ++ b).
Proof. intros. by apply Forall_app. Qed.
Lemma is_bytes_one b : 0 <= b < 256 -> is_bytes [b].
Proof. intros. by constructor. Qed.
Lemma is_bytes_u8 b : is_bytes [u8 b].
Proof. apply is_bytes_one, u8_range. Qed.

Lemma addr_is_bytes a tid : sa_ok a -> tid_ok tid -> is_bytes (addr_bytes a tid).
Proof.
  intros Ha Ht. unfold addr_bytes. destruct a; cbn in Ha; [| |done].
  - apply is_bytes_app; [by_enum|]. apply is_bytes_app; apply be_bytes.
  - destruct Ha as (? & ? & ?). apply is_bytes_app; [by_enum|]. apply is_bytes_app; [apply be_bytes|].
    destruct tid as [t|]; [|done]. destruct Ht. by apply in6_xor_ok.
Qed.

Lemma value_is_bytes tid type v : tid_ok (Some tid) -> sendable (type, v) -> is_bytes (value_bytes tid type v).
Proof.
  intros Htid (Hk & Ht & _). cbn [fst snd] in *. unfold typed in Ht. unfold value_bytes.
  destruct (kind_of type), v; try done; try (by apply be_bytes); try (by apply is_bytes_u8).
  - by apply addr_is_bytes.
  - by apply addr_is_bytes.
  - by destruct Ht.
  - destruct reason as [r|]; [|done]. destruct Ht.
    repeat (apply is_bytes_app; [first [apply be_bytes|apply is_bytes_u8]|]). done.
  - induction typev as [|x l IH]; [constructor|]. apply is_bytes_app; [apply be_bytes|]. apply IH.
    destruct Ht as [Hl Hf]. split; [cbn in Hl; lia|]. by apply Forall_cons in Hf as [_ ?].
  - apply is_bytes_app; apply be_bytes.
  - apply is_bytes_app; [apply is_bytes_u8|]. apply is_bytes_app; [by_enum|apply be_bytes].
  - constructor.
Qed.

Lemma attr_is_bytes padding tid a : tid_ok (Some tid) -> sendable a -> is_bytes (attr_bytes padding tid a).
Proof.
  intros Ht Ha. destruct a as [type v]. unfold attr_bytes.
  apply is_bytes_app; [apply is_bytes_app; apply be_bytes|].
  apply is_bytes_app; [by apply value_is_bytes|].
  apply Forall_replicate, u8_range.
Qed.

Lemma attrs_is_bytes padding tid l : tid_ok (Some tid) -> Forall sendable l ->
  is_bytes (concat (map (attr_bytes padding tid) l)).
Proof.
  intros Ht. induction 1; [constructor|]. apply is_bytes_app; [by apply attr_is_bytes|done].
Qed.

Section Write.
Context (alloc_ok : Z -> bool) (junk : Z -> Z) (Hmem : forall n, alloc_ok n = true).

Lemma adds_types l : adds (write_types alloc_ok junk l) (concat (map be16 l)).
Proof using Hmem.
  induction l as [|t l IH]; cbn [write_types map concat]; [apply adds_ret|].
  apply adds_or; [by apply adds_puts, puts16|done].
Qed.

Lemma port_xor p : 0 <= p < 65536 -> u16 (Z.lxor p (Z.shiftr STUN_MAGIC_COOKIE 16)) = Z.lxor p 0x2112.
Proof. intros Hp. apply u16_small. by apply (Crc.lxor_range 16). Qed.

Lemma puts_addr a tid : sa_ok a -> puts (stun_addr_encode alloc_ok junk a tid) (addr_bytes a tid).
Proof using Hmem.
  intros Ha. unfold stun_addr_encode, addr_bytes.
  assert (Hp : 0 <= sa_port a < 65536) by (destruct a; cbn in *; tauto).
  destruct a as [addr port|addr port|]; [| |done]; cbn [sa_port] in *; rewrite port_xor by done.
  - change [0; STUN_AF_IPv4] with ([u8 0] ++ [u8 STUN_AF_IPv4]). rewrite app_assoc.
    repeat apply puts_or; auto using puts8, puts16, puts32.
  - change [0; STUN_AF_IPv6] with ([u8 0] ++ [u8 STUN_AF_IPv6]). rewrite app_assoc.
    repeat apply puts_or; auto using puts8, puts16, puts_mem.
Qed.

Lemma adds_value tid type v otid : sendable (type, v) -> otid = Some tid \/ (forall a, v <> v_sa a) ->
  adds (encode_value alloc_ok junk type v otid) (value_bytes tid type v).
Proof using Hmem.
  intros (Hk & Ht & _ & _) Hx. cbn [fst snd] in *. unfold typed in Ht. unfold encode_value, value_bytes.
  destruct (kind_of type), v; try done.
  - by apply adds_puts, puts_addr.
  - destruct Hx as [->|Hx]; [by apply adds_puts, puts_addr|by edestruct Hx].
  - by apply adds_puts, puts32.
  - by apply adds_puts, puts_mem.
  - destruct Ht as [Hm _]. assert (Es : slice m 0 20 = Some m).
    { unfold zlen in Hm. rewrite slice_some by (unfold zlen; lia). rewrite drop_0, take_ge by lia. done. }
    unfold of_option. rewrite Es. by apply adds_puts, (puts_mem alloc_ok junk Hmem m).
  - destruct reason as [s|]; [|done]. cbn [default write_str]. rewrite !app_assoc.
    apply adds_puts. repeat apply puts_or; auto using puts8, puts16, puts_mem.
  - apply adds_types.
  - apply adds_puts, puts_or; by apply puts16.
  - by apply adds_puts, puts32.
  - rewrite app_assoc. apply adds_puts. repeat apply puts_or; [by apply puts8..|by apply puts16].
  - by apply adds_puts, puts8.
  - apply adds_ret.
  - by apply adds_puts, puts64.
Qed.

(** [while ((mb->pos - start) & 0x03)]. *)
Lemma pad_added fuel start padding k mb :
  mb_wf mb -> mb_end mb <= mb_pos mb -> mb_pos mb + Z.of_nat k <= SIZE_MAX ->
  (mb_pos mb + Z.of_nat k - start) mod 4 = 0 -> (k < 4)%nat -> (k < fuel)%nat ->
  exists mb', pad_attr alloc_ok junk fuel start padding 0 mb = Some (0, mb') /\
    added mb mb' (replicate k (u8 padding)).
Proof using Hmem.
  revert fuel mb. induction k as [|k IH]; intros [|fuel] mb Hwf He Hs Hm Hk Hf; try lia.
  all: cbn [pad_attr replicate]; unfold mbind, M_bind, gets; rewrite land3.
  - replace ((mb_pos mb - start) mod 4 =? 0) with true by dlia. exists mb. split; [done|by apply added_none].
  - replace ((mb_pos mb - start) mod 4 =? 0) with false by dlia.
    destruct (adds_puts _ _ (puts8 alloc_ok junk Hmem padding) mb Hwf He) as (mb1 & E1 & A1);
      [change (zlen [u8 padding]) with 1; lia|].
    rewrite E1. pose proof A1 as (W1 & P1 & F1 & _). change (zlen [u8 padding]) with 1 in P1.
    destruct (IH fuel mb1 W1) as (mb2 & E2 & A2); [lia|lia| |lia|lia|].
    { by replace (mb_pos mb1 + Z.of_nat k - start) with (mb_pos mb + Z.of_nat (S k) - start) by lia. }
    exists mb2. split; [exact E2|]. by apply (added_app mb mb1 mb2 [u8 padding]).
Qed.

(** Filling the hole in front of a value. *)
Lemma hole_added mb mb1 mb2 h d :
  mb_wf mb -> mb_end mb <= mb_pos mb -> 0 < zlen h -> mb_pos mb + zlen h <= SIZE_MAX ->
  added (set_pos (mb_pos mb + zlen h) mb) mb1 d -> written (set_pos (mb_pos mb) mb1) mb2 h ->
  added mb (set_pos (mb_pos mb + zlen h + zlen d) mb2) (h ++ d).
Proof.
  intros Hwf He Hh Hs (W1 & P1 & E1 & S1 & Z1 & K1) (W2 & P2 & E2 & S2 & Z2 & K2).
  cbn [mb_pos mb_end mb_size set_pos] in *. pose proof Hwf as (? & ? & ? & ?). pose proof (zlen_nonneg d).
  pose proof W1 as (L1 & ? & ? & ?). pose proof W2 as (L2 & ? & ? & ?).
  assert (Hend : mb_end mb2 = mb_pos mb + zlen h + zlen d).
  { destruct S1 as [->|[F1 _]]; [change (zlen (@nil Z)) with 0 in *; lia|lia]. }
  split; [apply wf_set_pos; [done|lia]|]. cbn [mb_pos mb_end mb_size set_pos]. rewrite zlen_app.
  split; [lia|]. split; [lia|]. split; [right; split; [lia|]|split; [lia|]].
  - rewrite <- zlen_app. apply slice_app. split; [done|]. destruct S1 as [->|[F1 S1]].
    + change (zlen (@nil Z)) with 0 in *. change (bytes (set_pos _ mb2)) with (bytes mb2).
      rewrite slice_some by (rewrite ?L2; lia). by rewrite take_0.
    + pose proof (slice_inv _ _ _ _ S1) as (? & _ & ? & _). change (bytes (set_pos _ mb2)) with (bytes mb2).
      rewrite K2; [exact S1|lia..].
  - intros i n Hi Hn Hsz Hp. change (bytes (set_pos _ mb2)) with (bytes mb2).
    rewrite K2 by lia. change (bytes (set_pos _ mb1)) with (bytes mb1). rewrite K1 by lia. done.
Qed.

Lemma adds_attr tid padding type v otid :
  sendable (type, v) -> otid = Some tid \/ (forall a, v <> v_sa a) ->
  adds (stun_attr_encode alloc_ok junk type v otid padding) (attr_bytes padding tid (type, v)).
Proof using Hmem.
  intros Hv Hx mb Hwf He Hs. unfold attr_bytes in *. cbn [fst snd] in *.
  set (d := value_bytes tid type v) in *. pose proof (zlen_nonneg d). pose proof Hwf as (? & ? & ? & ?).
  pose proof (pad_len_lt (zlen d)).
  rewrite !zlen_app, !be16_len in Hs. unfold zlen at 2 in Hs. rewrite length_replicate in Hs.
  unfold stun_attr_encode. unfold mbind, M_bind, modify, gets. rewrite usz_small by lia.
  set (mb0 := set_pos (mb_pos mb + 4) mb).
  destruct (adds_value tid type v otid Hv Hx mb0) as (mb1 & E1 & A1);
    [apply wf_set_pos; [done|lia]|cbn; lia|cbn; fold d; lia|].
  rewrite E1. fold d in A1. pose proof A1 as (W1 & P1 & _ & _). cbn [mb_pos mb0 set_pos] in P1 |- *.
  replace (mb_pos mb1 - (mb_pos mb + 4)) with (zlen d) by lia. rewrite (usz_small (zlen d)) by lia.
  rewrite usz_small by lia. replace (mb_pos mb + 4 - 4) with (mb_pos mb) by lia.
  destruct (puts_or _ _ _ _ (puts16 alloc_ok junk Hmem type) (puts16 alloc_ok junk Hmem (zlen d))
    (set_pos (mb_pos mb) mb1)) as (mb2 & E2 & A2); [apply wf_set_pos; [done|lia]|cbn [mb_pos set_pos]; rewrite zlen_app, !be16_len; lia|].
  rewrite E2. pose proof A2 as (W2 & P2 & _). rewrite zlen_app, !be16_len in P2. cbn [mb_pos set_pos] in P2.
  rewrite P2, usz_small by lia.
  assert (A3 : added mb (set_pos (mb_pos mb + 4 + zlen d) mb2) ((be16 type ++ be16 (zlen d)) ++ d)).
  { assert (Hh : zlen (be16 type ++ be16 (zlen d)) = 4) by (by rewrite zlen_app, !be16_len).
    rewrite <- Hh. apply (hole_added mb mb1 mb2); rewrite ?Hh; done || lia. }
  pose proof A3 as (W3 & P3 & E3 & _). set (mb3 := set_pos (mb_pos mb + 4 + zlen d) mb2) in *.
  destruct (pad_added 4 (mb_pos mb + 4) padding (pad_len (zlen d)) mb3) as (mb4 & E4 & A4);
    [done|lia|cbn; lia| |lia|lia|].
  { cbn [mb_pos mb3 set_pos]. rewrite <- (pad_len_mod (zlen d)). f_equal. lia. }
  exists mb4. split; [|rewrite app_assoc; by eapply added_app].
  replace (mb_pos mb + 2 + 2 + zlen d) with (mb_pos mb + 4 + zlen d) by lia. exact E4.
Qed.

(** The attributes that are not NULL. *)
Definition present (attrs : list (Z * option attr_v)) : list (Z * attr_v) :=
  omap (fun a => v ← a.2; Some (a.1, v)) attrs.

Lemma adds_attrs tid padding attrs : Forall sendable (present attrs) ->
  adds (encode_attrs alloc_ok junk attrs tid padding) (concat (map (attr_bytes padding tid) (present attrs))).
Proof using Hmem.
  induction attrs as [|[type [v|]] attrs IH]; intros H; [apply adds_ret| |by apply IH].
  change (present ((type, Some v) :: attrs)) with ((type, v) :: present attrs) in *. cbn [encode_attrs map concat].
  apply Forall_cons in H as [Hv H]. apply adds_or; [|by apply IH]. apply adds_attr; [done|by left].
Qed.

(** ** A message in a buffer *)

Definition holds (s : Z) (d : list Z) (mb : mbuf) : Prop :=
  mb_wf mb /\ mb_end mb = s + zlen d /\ slice (bytes mb) s (zlen d) = Some d.

Lemma holds_bounds s d mb : holds s d mb -> 0 <= s /\ s + zlen d <= SIZE_MAX.
Proof.
  intros (Hwf & _ & (? & _ & ? & _)%slice_inv). rewrite (wf_len mb Hwf) in *. destruct Hwf as (_ & _ & _ & ?). lia.
Qed.

Lemma holds_set_pos s d mb p : holds s d mb -> 0 <= p <= SIZE_MAX -> holds s d (set_pos p mb).
Proof. intros (Hwf & He & Hs) Hp. split; [by apply wf_set_pos|done]. Qed.

Lemma added_holds mb mb' d p :
  added mb mb' d -> d <> [] -> 0 <= p <= SIZE_MAX -> holds (mb_pos mb) d (set_pos p mb').
Proof.
  intros (W & P & _ & S & _) Hd Hp. destruct S as [|[F S]]; [done|]. apply holds_set_pos; [|done].
  split; [done|]. split; [lia|done].
Qed.

Lemma holds_avail s d mb : holds s d mb -> avail (set_pos s mb) d.
Proof.
  intros H. pose proof (holds_bounds _ _ _ H). pose proof (zlen_nonneg d). destruct H as (Hwf & He & Hs).
  split; [apply wf_set_pos; [done|lia]|]. split; [done|cbn [mb_pos mb_end set_pos]; lia].
Qed.

Lemma holds_left s d mb : holds s d mb -> mbuf_get_left (set_pos s mb) = zlen d.
Proof.
  intros (_ & He & _). pose proof (zlen_nonneg d). unfold mbuf_get_left. cbn [mb_pos mb_end set_pos].
  case_match; lia.
Qed.

Lemma holds_rest s d mb : holds s d mb -> rest (set_pos s mb) = Some (d, set_pos s mb).
Proof.
  intros H. unfold rest, mbind, M_bind, gets, of_option. cbn [id]. rewrite (holds_left _ _ _ H).
  destruct H as (_ & _ & Hs). change (bytes (set_pos s mb)) with (bytes mb). cbn [mb_pos set_pos]. by rewrite Hs.
Qed.

Lemma holds_first s a b mb : holds s (a ++ b) mb -> first (zlen a) (set_pos s mb) = Some (a, set_pos s mb).
Proof.
  intros (_ & _ & [Hs _]%slice_app). unfold first, mbind, M_bind, gets, of_option. cbn [id mb_pos set_pos].
  change (bytes (set_pos s mb)) with (bytes mb). by rewrite Hs.
Qed.

(** Appending an attribute. *)
Lemma holds_append m x s d mb : adds m x -> holds s d mb -> s + zlen d + zlen x <= SIZE_MAX ->
  exists mb', m (set_pos (s + zlen d) mb) = Some (0, mb') /\ holds s (d ++ x) mb' /\
    mb_pos mb' = s + zlen d + zlen x.
Proof.
  intros Hm H Hs. pose proof (holds_bounds _ _ _ H). pose proof (zlen_nonneg d). pose proof (zlen_nonneg x).
  destruct H as (Hwf & He & Hsl).
  destruct (Hm (set_pos (s + zlen d) mb)) as (mb' & E & A); [apply wf_set_pos; [done|lia]|cbn; lia..|].
  exists mb'. split; [done|]. pose proof A as (W & P & F & S & Zs & K). cbn [mb_pos mb_end mb_size set_pos] in *.
  split; [|done]. pose proof (slice_inv _ _ _ _ Hsl) as (? & _ & ? & _). rewrite (wf_len mb Hwf) in *.
  assert (Ha : slice (bytes mb') s (zlen d) = Some d) by (rewrite K; [done|lia..]).
  split; [done|]. rewrite zlen_app. destruct S as [->|[F' S]].
  - change (zlen (@nil Z)) with 0 in *. rewrite app_nil_r. split; [lia|]. rewrite Z.add_0_r. done.
  - split; [lia|]. rewrite <- zlen_app. by apply slice_app.
Qed.

(** Rewriting the front. *)
Lemma holds_front m h' s h d mb : puts m h' -> zlen h' = zlen h -> holds s (h ++ d) mb ->
  exists mb', m (set_pos s mb) = Some (0, mb') /\ holds s (h' ++ d) mb' /\ mb_pos mb' = s + zlen h'.
Proof.
  intros Hm Hl H. pose proof (holds_bounds _ _ _ H) as Hb. rewrite zlen_app in Hb.
  pose proof (zlen_nonneg d). pose proof (zlen_nonneg h). destruct H as (Hwf & He & [S1 S2]%slice_app).
  rewrite zlen_app in He.
  destruct (Hm (set_pos s mb)) as (mb' & E & (W & P & F & S & Zs & K)); [apply wf_set_pos; [done|lia]|cbn [mb_pos set_pos]; lia|].
  cbn [mb_pos mb_end mb_size set_pos] in *. exists mb'. split; [done|]. split; [|done].
  split; [done|]. rewrite zlen_app. split; [lia|]. rewrite <- zlen_app. apply slice_app. split; [done|].
  pose proof (slice_inv _ _ _ _ S2) as (? & _ & ? & _). rewrite (wf_len mb Hwf) in *.
  rewrite K; [by rewrite Hl|lia..].
Qed.

Definition hdr_bytes (type len : Z) (tid : list Z) : list Z :=
  be16 (Z.land type 0x3fff) ++ be16 len ++ be32 STUN_MAGIC_COOKIE ++ tid.

Lemma puts_hdr type len tid :
  puts (stun_hdr_encode alloc_ok junk (mk_shdr type len STUN_MAGIC_COOKIE tid)) (hdr_bytes type len tid).
Proof using Hmem.
  unfold stun_hdr_encode, hdr_bytes. rewrite !app_assoc.
  repeat apply puts_or; auto using puts16, puts32, puts_mem.
Qed.

Lemma hdr_bytes_len type len tid : zlen tid = 12 -> zlen (hdr_bytes type len tid) = 20.
Proof. intros H. unfold hdr_bytes. rewrite !zlen_app, !be16_len, be32_len. lia. Qed.

Context (hmac_sha1 : list Z -> list Z -> list Z).
Context (Hmac : forall k d, zlen (hmac_sha1 k d) = 20 /\ is_bytes (hmac_sha1 k d)).

(** The attributes of a message: the error code, those of the caller, the
    integrity [mi] and the fingerprint [f]. *)
Definition ec_attr (ec : option (Z * option (list Z))) : list (Z * attr_v) :=
  match ec with Some (code, reason) => [(STUN_ATTR_ERR_CODE, v_err code reason)] | None => [] end.

Section Message.
Context (t : Z) (tid : list Z) (padding : Z) (Htid : zlen tid = 12).
Abbreviation bytes_of_attrs l := (concat (map (attr_bytes padding tid) l)).

(** The message behind the attributes [l]. *)
Definition front (l : list (Z * attr_v)) (extra : Z) : list Z :=
  hdr_bytes t (zlen (bytes_of_attrs l) + extra) tid ++ bytes_of_attrs l.

Definition with_mi (key : option (list Z)) (l : list (Z * attr_v)) : list (Z * attr_v) :=
  match key with
  | Some k => l ++ [(STUN_ATTR_MSG_INTEGRITY, v_mi (hmac_sha1 k (front l MI_SIZE)))]
  | None => l
  end.

Definition with_fp (fp : bool) (l : list (Z * attr_v)) : list (Z * attr_v) :=
  if fp then l ++ [(STUN_ATTR_FINGERPRINT, v_32 (default 0 (fingerprint (front l FP_SIZE))))] else l.

Lemma bytes_of_attrs_app a b : bytes_of_attrs (a ++ b) = bytes_of_attrs a ++ bytes_of_attrs b.
Proof. by rewrite map_app, concat_app. Qed.

Lemma attr_bytes_len a : zlen (attr_bytes padding tid a) = 4 + zlen (value_bytes tid a.1 a.2) + Z.of_nat (pad_len (zlen (value_bytes tid a.1 a.2))).
Proof.
  unfold attr_bytes. rewrite !zlen_app, !be16_len. unfold zlen at 2. rewrite length_replicate. lia.
Qed.

Lemma mi_len m : zlen m = 20 -> zlen (attr_bytes padding tid (STUN_ATTR_MSG_INTEGRITY, v_mi m)) = 24.
Proof using. intros H. rewrite attr_bytes_len. cbn [fst snd value_bytes]. rewrite H. done. Qed.
Lemma fp_len n : zlen (attr_bytes padding tid (STUN_ATTR_FINGERPRINT, v_32 n)) = 8.
Proof using. rewrite attr_bytes_len. cbn [fst snd value_bytes]. rewrite be32_len. done. Qed.

Lemma fingerprint_total d : is_bytes d -> exists f, fingerprint d = Some f /\ 0 <= f < 2 ^ 32.
Proof using.
  intros Hd. unfold fingerprint. rewrite Crc.crc32_bitwise by done. eexists. split; [done|].
  apply (Crc.lxor_range 32); [done| |done]. by apply Crc.crc32_ref_range.
Qed.

Lemma front_len l n : zlen (front l n) = 20 + zlen (bytes_of_attrs l).
Proof using Htid. unfold front. by rewrite zlen_app, hdr_bytes_len. Qed.

Lemma front_app l a n :
  front l n ++ attr_bytes padding tid a = hdr_bytes t (zlen (bytes_of_attrs l) + n) tid ++ bytes_of_attrs (l ++ [a]).
Proof using. unfold front. rewrite bytes_of_attrs_app, <- app_assoc. cbn [map concat]. by rewrite app_nil_r. Qed.

Lemma skip_run n mb : 0 <= mb_pos mb + n <= SIZE_MAX -> skip n mb = Some (tt, set_pos (mb_pos mb + n) mb).
Proof using. intros H. unfold skip, modify. by rewrite usz_small. Qed.

Lemma adds_mi m : zlen m = 20 -> is_bytes m ->
  adds (stun_attr_encode alloc_ok junk STUN_ATTR_MSG_INTEGRITY (v_mi m) None padding)
    (attr_bytes padding tid (STUN_ATTR_MSG_INTEGRITY, v_mi m)).
Proof using Hmem. intros H1 H2. apply adds_attr; [by split_and!|by right]. Qed.
Lemma adds_fp n : 0 <= n < 2 ^ 32 ->
  adds (stun_attr_encode alloc_ok junk STUN_ATTR_FINGERPRINT (v_32 n) None padding)
    (attr_bytes padding tid (STUN_ATTR_FINGERPRINT, v_32 n)).
Proof using Hmem. intros H. apply adds_attr; [by split_and!|by right]. Qed.

Lemma encode_mi_run s l k mb : holds s (front l MI_SIZE) mb -> s + zlen (front l 0) + 24 <= SIZE_MAX ->
  exists mb', encode_mi alloc_ok junk hmac_sha1 s (zlen (bytes_of_attrs l) + MI_SIZE) k padding mb = Some (0, mb') /\
    holds s (front (with_mi (Some k) l) 0) mb' /\ mb_pos mb' = s + zlen (front (with_mi (Some k) l) 0).
Proof using Hmem Htid Hmac.
  intros H Hs. rewrite front_len in Hs. pose proof (holds_bounds _ _ _ H) as Hb. rewrite front_len in Hb.
  pose proof (zlen_nonneg (bytes_of_attrs l)). destruct (Hmac k (front l MI_SIZE)) as [Hl1 Hl2].
  unfold encode_mi. unfold mbind, M_bind, modify. rewrite (holds_rest _ _ _ H).
  unfold STUN_HEADER_SIZE. rewrite skip_run by (cbn [mb_pos set_pos]; lia). cbn [mb_pos set_pos].
  set (m := v_mi _). change (set_pos ?a (set_pos s mb)) with (set_pos a mb).
  replace (s + _) with (s + zlen (front l MI_SIZE)) by (rewrite front_len; lia).
  destruct (holds_append _ _ _ _ _ (adds_mi _ Hl1 Hl2) H) as (mb' & E & Hh & P).
  { rewrite front_len. unfold m. rewrite mi_len by done. lia. }
  exists mb'. split; [exact E|]. unfold m in *. rewrite front_app in Hh. rewrite mi_len, front_len in P by done.
  assert (Hz : zlen (bytes_of_attrs (with_mi (Some k) l)) = zlen (bytes_of_attrs l) + 24).
  { cbn [with_mi]. rewrite bytes_of_attrs_app, zlen_app. cbn [map concat]. by rewrite app_nil_r, mi_len. }
  split; [|rewrite front_len; lia]. unfold front. rewrite Hz, Z.add_0_r. exact Hh.
Qed.

Lemma encode_fp_run s l mb : holds s (front l 0) mb -> mb_pos mb = s + zlen (front l 0) ->
  zlen (bytes_of_attrs l) + 8 < 65536 -> s + zlen (front l 0) + 8 <= SIZE_MAX -> is_bytes (front l FP_SIZE) ->
  exists mb', encode_fp alloc_ok junk s t tid padding mb = Some (0, mb') /\ holds s (front (with_fp true l) 0) mb'.
Proof using Hmem Htid.
  intros H P Hl Hs Hb. rewrite front_len in Hs, P. pose proof (holds_bounds _ _ _ H) as Hb'. rewrite front_len in Hb'.
  pose proof (zlen_nonneg (bytes_of_attrs l)).
  unfold encode_fp. unfold mbind, M_bind, modify, gets. rewrite P. unfold STUN_HEADER_SIZE.
  replace (u16 _) with (zlen (bytes_of_attrs l) + FP_SIZE) by (unfold FP_SIZE; rewrite u16_small; lia).
  destruct (holds_front _ _ _ _ _ _ (puts_hdr t (zlen (bytes_of_attrs l) + FP_SIZE) tid)
    ltac:(by rewrite !hdr_bytes_len) H) as (mb1 & -> & H1 & P1).
  change (hdr_bytes _ _ _ ++ _) with (front l FP_SIZE) in H1. rewrite (holds_rest _ _ _ H1).
  destruct (fingerprint_total _ Hb) as (f & Ef & Hf). unfold of_option. rewrite Ef.
  rewrite skip_run by (cbn [mb_pos set_pos]; unfold FP_SIZE; lia). cbn [mb_pos set_pos].
  change (set_pos ?a (set_pos s mb1)) with (set_pos a mb1).
  replace (s + _) with (s + zlen (front l FP_SIZE)) by (rewrite front_len; lia).
  destruct (holds_append _ _ _ _ _ (adds_fp _ Hf) H1) as (mb' & -> & Hh & _).
  { rewrite front_len, fp_len. lia. }
  exists mb'. split; [done|]. rewrite front_app in Hh. cbn [with_fp]. rewrite Ef. cbn [default]. unfold front.
  rewrite bytes_of_attrs_app, zlen_app in *. cbn [map concat]. rewrite app_nil_r, fp_len, Z.add_0_r in *. exact Hh.
Qed.

Lemma front_is_bytes l n : tid_ok (Some tid) -> Forall sendable l -> is_bytes (front l n).
Proof using.
  intros Ht Hl. apply is_bytes_app; [|by apply attrs_is_bytes].
  do 3 (apply is_bytes_app; [apply be_bytes|]). by destruct Ht.
Qed.

Lemma with_mi_sendable key l : Forall sendable l -> Forall sendable (with_mi key l).
Proof using Hmac.
  intros H. destruct key as [k|]; [|done]. destruct (Hmac k (front l MI_SIZE)). apply Forall_app. split; [done|].
  constructor; [|constructor]. by split_and!.
Qed.

Lemma with_mi_len key l : zlen (bytes_of_attrs (with_mi key l)) =
  zlen (bytes_of_attrs l) + (if key is Some _ then MI_SIZE else 0).
Proof using Hmac.
  destruct key as [k|]; cbn [with_mi]; [|lia]. rewrite bytes_of_attrs_app, zlen_app. cbn [map concat].
  destruct (Hmac k (front l MI_SIZE)). by rewrite app_nil_r, mi_len.
Qed.

Lemma body_run ec attrs : Forall sendable (ec_attr ec ++ present attrs) ->
  adds (encode_body alloc_ok junk ec attrs tid padding) (bytes_of_attrs (ec_attr ec ++ present attrs)).
Proof using Hmem.
  intros H. rewrite bytes_of_attrs_app. unfold encode_body. apply Forall_app in H as [H1 H2].
  apply adds_or; [|by apply adds_attrs]. destruct ec as [[code reason]|]; [|apply adds_ret].
  cbn [ec_attr map concat]. rewrite app_nil_r. apply adds_attr; [|by right]. by apply Forall_cons in H1 as [? _].
Qed.
End Message.

(** What [stun_msg_vencode] leaves in the buffer. *)
Lemma vencode_run method class tid ec key fp padding attrs mb :
  let t := u16 (STUN_TYPE method class) in
  let l := ec_attr ec ++ present attrs in
  let l1 := with_mi t tid padding key l in
  mb_wf mb -> mb_end mb <= mb_pos mb -> tid_ok (Some tid) -> Forall sendable l ->
  zlen (concat (map (attr_bytes padding tid) l)) + 32 < 65536 ->
  mb_pos mb + 20 + zlen (concat (map (attr_bytes padding tid) l)) + 32 <= SIZE_MAX ->
  exists mb', stun_msg_vencode alloc_ok junk hmac_sha1 method class tid ec key fp padding attrs mb = Some (0, mb') /\
    holds (mb_pos mb) (front t tid padding (with_fp t tid padding fp l1) 0) mb'.
Proof using Hmem Hmac.
  intros t l l1 Hwf He Htid Hl Hsz Hmax. set (b := concat _) in *. pose proof (zlen_nonneg b).
  pose proof Hwf as (_ & ? & _). destruct Htid as [Ht1 Ht2]. set (s := mb_pos mb) in *.
  unfold stun_msg_vencode, STUN_HEADER_SIZE. unfold mbind, M_bind, modify, gets. fold s.
  rewrite skip_run by (fold s; lia). fold s t.
  destruct (body_run tid padding ec attrs Hl (set_pos (s + 20) mb)) as (mb1 & E1 & A1);
    [apply wf_set_pos; [done|lia]|cbn; lia|cbn [mb_pos set_pos]; fold l b; lia|].
  rewrite E1. pose proof A1 as (W1 & P1 & _). cbn [mb_pos set_pos] in P1. fold l b in P1, A1. rewrite P1.
  set (mi := match key with Some _ => MI_SIZE | None => 0 end).
  assert (Hmi : 0 <= mi <= 24) by (subst mi; destruct key; unfold MI_SIZE; lia).
  replace (u16 (s + 20 + zlen b - s - 20 + mi)) with (zlen b + mi) by (rewrite u16_small; lia).
  destruct (puts_hdr t (zlen b + mi) tid (set_pos s mb1)) as (mb2 & E2 & A2);
    [apply wf_set_pos; [done|lia]|rewrite hdr_bytes_len by done; cbn [mb_pos set_pos]; lia|].
  rewrite E2. pose proof A2 as (_ & P2 & _). rewrite hdr_bytes_len in P2 by done. cbn [mb_pos set_pos] in P2.
  rewrite skip_run by (rewrite P2; lia). rewrite P2. replace (s + 20 + (zlen b + mi - mi)) with (s + 20 + zlen b) by lia.
  assert (H2 : holds s (front t tid padding l mi) (set_pos (s + 20 + zlen b) mb2)).
  { rewrite <- (hdr_bytes_len t (zlen b + mi) tid Ht1) in A1.
    eapply hole_added in A2; [|done|done|rewrite hdr_bytes_len by done; fold s; lia..|exact A1].
    exact (added_holds _ _ _ (s + 20 + zlen b) A2 ltac:(done) ltac:(lia)). }
  assert (H3 : exists mb3, match key with
      | Some k => encode_mi alloc_ok junk hmac_sha1 s (zlen b + mi) k padding
      | None => mret 0 end (set_pos (s + 20 + zlen b) mb2) = Some (0, mb3) /\
      holds s (front t tid padding l1 0) mb3 /\ mb_pos mb3 = s + zlen (front t tid padding l1 0)).
  { unfold l1, mi in *. destruct key as [k|].
    - apply encode_mi_run; [done|done|]. rewrite front_len by done. fold b. lia.
    - exists (set_pos (s + 20 + zlen b) mb2). split; [done|]. split; [done|].
      cbn [with_mi mb_pos set_pos]. rewrite front_len by done. fold b. lia. }
  destruct H3 as (mb3 & E3 & H3 & P3). rewrite E3.
  destruct fp; [|by exists mb3].
  pose proof (with_mi_len t tid padding key l) as Hlen. fold l1 mi b in Hlen.
  destruct (encode_fp_run t tid padding Ht1 s l1 mb3 H3 P3) as (mb4 & -> & H4); [lia|rewrite front_len by done; lia| |by exists mb4].
  apply front_is_bytes; [done|]. by apply with_mi_sendable.
Qed.
End Write.
