(* ===== verification/StunCheck.v ===== *)
(** * Decoding and checking a STUN message that was encoded

    The reading side of the round trip, and the theorem. *)

From S2P Require Import Prelude Effects Crc32 Mbuf MbufProps Rtp Codec StunMsg StunProps StunRoundtrip.
Import Mb Rtp Stun.

Section Read.
Context (alloc_ok : Z -> bool) (Hmem : forall n, alloc_ok n = true).

Lemma reads_skip p d : reads p (skip (zlen d)) d tt.
Proof.
  intros mb rest Hp Hav. pose proof (left_avail _ _ Hav) as Hl. apply avail_split in Hav as [(Hwf & Hs & He) _].
  pose proof Hwf as (? & ? & ? & ?). pose proof (zlen_nonneg d). unfold skip, modify. by rewrite usz_small, Hp by lia.
Qed.

Lemma reads_str p d : reads p (str_decode alloc_ok (zlen d)) d (0, Some d).
Proof using Hmem.
  unfold str_decode. apply reads_guard; [done|]. intros mb rest Hp Hav. unfold mbuf_strdup. rewrite Hmem. cbn [negb].
  apply avail_split in Hav as [Hav _]. rewrite (read_mem_avail _ _ Hav). cbn. by rewrite Hp.
Qed.

Lemma reads_types p l out : (length out + length l <= MAX_UNKNOWN)%nat -> Forall (fun t => 0 <= t < 65536) l ->
  reads p (read_types (length l) out) (concat (map be16 l)) (out ++ l).
Proof.
  revert p out. induction l as [|t l IH]; intros p out Hl Hf; cbn [length read_types map concat].
  { rewrite app_nil_r. apply reads_ret. }
  apply Forall_cons in Hf as [Ht Hf]. cbn [length] in Hl. eapply reads_bind; [by apply reads16|]. unfold MAX_UNKNOWN in *.
  replace (8 <=? length out)%nat with false by (symmetry; apply Nat.leb_gt; lia).
  rewrite (cons_middle t out l), app_assoc. apply IH; [rewrite length_app; cbn; lia|done].
Qed.

Lemma xor_twice a m : (length a <= length m)%nat -> zip_xor (zip_xor a m) m = a.
Proof.
  unfold zip_xor. revert m. induction a as [|x a IH]; intros [|y m]; cbn; try done; [lia|].
  intros H. rewrite IH by lia. by rewrite Z.lxor_assoc, Z.lxor_nilpotent, Z.lxor_0_r.
Qed.

Lemma lxor_twice a m : Z.lxor (Z.lxor a m) m = a.
Proof. by rewrite Z.lxor_assoc, Z.lxor_nilpotent, Z.lxor_0_r. Qed.

Lemma addr_front a b v d : 4 <= zlen ([a; b] ++ be16 v ++ d).
Proof. rewrite !zlen_app, be16_len. change (zlen [a; b]) with 2. pose proof (zlen_nonneg d). lia. Qed.

Lemma reads_addr p a tid : sa_ok a -> tid_ok tid -> reads p (stun_addr_decode tid) (addr_bytes a tid) (0, a).
Proof.
  intros Ha Ht. unfold stun_addr_decode. change (Z.shiftr STUN_MAGIC_COOKIE 16) with 0x2112.
  assert (Hport : forall q, 0 <= q < 65536 -> 0 <= match tid with Some _ => Z.lxor q 0x2112 | None => q end < 65536)
    by (intros q Hq; destruct tid; [by apply (Crc.lxor_range 16)|done]).
  destruct a as [addr port|addr port|]; [| |done]; cbn [addr_bytes sa_ok] in *;
    (apply reads_guard; [apply addr_front|]);
    rewrite (app_assoc [0; _]); change [0; ?x] with ([0] ++ [x]); rewrite <- !app_assoc;
    (eapply reads_bind; [apply reads_u8|]); (eapply reads_bind; [apply reads_u8|]);
    (eapply reads_bind; [apply reads16, Hport; tauto|]).
  - destruct Ha as [Ha Hp]. rewrite Z.eqb_refl. apply reads_guard; [by rewrite be32_len|].
    rewrite <- (app_nil_r (be32 _)). eapply reads_bind; [apply reads32; destruct tid; [by apply (Crc.lxor_range 32)|done]|].
    cbv beta.
    destruct tid; rewrite ?lxor_twice; apply reads_ret.
  - destruct Ha as (Hl & Hb & Hp). change (STUN_AF_IPv6 =? STUN_AF_IPv4) with false. rewrite Z.eqb_refl. cbv iota.
    set (d := match tid with Some t => in6_xor_tid addr t | None => addr end).
    assert (Hd : zlen d = 16) by (subst d; destruct tid as [t|]; [by apply in6_xor_ok; try apply Ht|done]).
    apply reads_guard; [by rewrite Hd|]. rewrite <- (app_nil_r d), <- Hd. eapply reads_bind; [apply reads_mem|].
    cbv beta iota. subst d. destruct tid as [t|]; [|apply reads_ret].
    rewrite lxor_twice. unfold in6_xor_tid at 2 3. rewrite xor_twice; [apply reads_ret|].
    destruct Ht as [Ht _]. unfold zlen in *. rewrite length_app. cbn. lia.
Qed.

(** The value takes the front [d1] of its bytes; what is left counts as padding. *)
Definition value_reads p type v tid ua (d1 d2 : list Z) : Prop :=
  value_bytes tid type v = d1 ++ d2 /\ (d2 = [] \/ zlen d2 < 4 /\ zlen (d1 ++ d2) mod 4 = 0) /\
  reads p (decode_value alloc_ok type (zlen (d1 ++ d2)) (Some tid) ua) d1 (0, v, ua).

Lemma value_reads_all p type v tid ua :
  (forall n, n = zlen (value_bytes tid type v) ->
     reads p (decode_value alloc_ok type n (Some tid) ua) (value_bytes tid type v) (0, v, ua)) ->
  exists d1 d2, value_reads p type v tid ua d1 d2.
Proof.
  intros H. exists (value_bytes tid type v), []. split; [by rewrite app_nil_r|]. split; [by left|].
  rewrite app_nil_r. by apply H.
Qed.

Lemma bytes_last {A B} p (m : M mbuf A) (f : A -> M mbuf B) d a b :
  reads p m d a -> f a = mret b -> reads p (m ≫= f) d b.
Proof. intros Hm Hf. rewrite <- (app_nil_r d). eapply reads_bind; [done|]. rewrite Hf. apply reads_ret. Qed.

Lemma change_bits ip port :
  let n := Z.lor (Z.shiftl (b2z ip) 2) (Z.shiftl (b2z port) 1) in
  0 <= n < 2 ^ 32 /\ (Z.land (Z.shiftr n 2) 0x1 =? 1) = ip /\ (Z.land (Z.shiftr n 1) 0x1 =? 1) = port.
Proof. by destruct ip, port. Qed.

Lemma reads_err p code s ua : 0 <= code < 800 ->
  reads p (skip 2 ;; h ← mbuf_read_u8; t ← mbuf_read_u8;
    '(err, x) ← str_decode alloc_ok (zlen (be16 0 ++ [u8 (code / 100)] ++ [u8 (code mod 100)] ++ s) - 4);
    mret (err, v_err (u16 (Z.land h 0x7 * 100 + t)) x, ua) : M mbuf (Z * attr_v * option (list Z)))
    (be16 0 ++ [u8 (code / 100)] ++ [u8 (code mod 100)] ++ s) (0, v_err code (Some s), ua).
Proof using Hmem.
  intros Hc. eapply reads_bind; [apply (reads_skip _ (be16 0))|].
  eapply reads_bind; [apply reads_u8|]. eapply reads_bind; [apply reads_u8|].
  rewrite !zlen_app, be16_len. change (zlen [_]) with 1. replace (2 + (1 + (1 + zlen s)) - 4) with (zlen s) by lia.
  eapply bytes_last; [apply reads_str|]. cbv beta iota. do 3 f_equal.
  rewrite (land_mask _ 0x7 3) by done. rewrite !u8_small by dlia. rewrite Z.mod_small by dlia.
  rewrite u16_small by dlia. f_equal. dlia.
Qed.

Lemma types_len l : zlen (concat (map be16 l)) = 2 * zlen l.
Proof. induction l as [|t l IH]; [done|]. cbn [map concat]. rewrite zlen_app, be16_len, zlen_cons. lia. Qed.

Lemma value_reads_ok p type v tid ua : tid_ok (Some tid) -> sendable (type, v) ->
  exists d1 d2, value_reads p type v tid ua d1 d2.
Proof using Hmem.
  intros Htid (Hk & Ht & _ & He). cbn [fst snd] in *. unfold typed in Ht.
  destruct (kind_of type) eqn:K, v; try done.
  all: lazymatch type of K with
       | _ = k_16 => idtac
       | _ = k_8 => idtac
       | _ => apply value_reads_all; intros ? ->; unfold decode_value, value_bytes; rewrite K
       end.
  - eapply bytes_last; [by apply reads_addr|done].
  - eapply bytes_last; [by apply reads_addr|done].
  - destruct (change_bits ip port) as (Hr & E1 & E2). rewrite be32_len. cbn [negb Z.eqb Pos.eqb].
    eapply bytes_last; [by apply reads32|]. by rewrite E1, E2.
  - eapply bytes_last; [apply reads_str|done].
  - destruct Ht as [Hm _]. rewrite Hm. cbn [negb Z.eqb Pos.eqb]. rewrite <- Hm. eapply bytes_last; [apply reads_mem|done].
  - destruct reason as [s|]; [|done]. cbn [default id]. destruct Ht as [Hc Hs].
    replace (_ <? 4) with false; [apply reads_err; lia|].
    rewrite !zlen_app, be16_len. change (zlen [_]) with 1. pose proof (zlen_nonneg s). lia.
  - destruct Ht as [Hl Hf]. rewrite types_len, Z.mul_comm, Z.div_mul by done. unfold zlen. rewrite Nat2Z.id.
    eapply bytes_last; [by apply (reads_types _ _ [])|done].
  - exists (be16 n), (be16 0). split; [done|]. split; [by right|]. unfold decode_value. rewrite K.
    change (zlen (be16 n ++ be16 0) <? 2) with false. eapply bytes_last; [by apply reads16|done].
  - rewrite be32_len. cbn [negb Z.eqb Pos.eqb]. eapply bytes_last; [by apply reads32|done].
  - exists [u8 n], ([0] ++ be16 0). split; [done|]. split; [by right|]. unfold decode_value. rewrite K.
    change (zlen ([u8 n] ++ [0] ++ be16 0) <? 1) with false. rewrite u8_small by done. eapply bytes_last; [apply reads_u8|done].
  - change (zlen [_] <? 1) with false. eapply bytes_last; [apply reads_u8|]. by destruct r.
  - apply reads_ret.
  - change (zlen (be64 n)) with 8. cbn [negb Z.eqb Pos.eqb]. eapply bytes_last; [by apply reads64|done].
Qed.

Definition attr_of (a : Z * attr_v) : stun_attr := mk_attr a.1 a.2.

Lemma attr_reads p padding tid a ua : tid_ok (Some tid) -> sendable a -> zlen (attr_bytes padding tid a) < 65536 ->
  reads p (stun_attr_decode alloc_ok (Some tid) ua) (attr_bytes padding tid a) (0, Some (attr_of a), ua).
Proof using Hmem.
  intros Htid Ha Hsz. destruct a as [type v]. pose proof Ha as (_ & _ & Htype & _). cbn [fst] in Htype.
  pose proof (attr_bytes_len tid padding (type, v)) as Hlen. cbn [fst snd] in Hlen.
  pose proof (zlen_nonneg (value_bytes tid type v)). pose proof (pad_len_lt (zlen (value_bytes tid type v))) as Hpl.
  pose proof (pad_len_mod (zlen (value_bytes tid type v))) as Hpm.
  unfold stun_attr_decode. apply reads_guard; [lia|]. rewrite Hmem. cbn [negb].
  unfold attr_bytes. cbn [fst snd]. rewrite <- app_assoc.
  eapply reads_bind; [by apply reads16|]. eapply reads_bind; [apply reads16; lia|].
  apply reads_guard; [rewrite zlen_app; pose proof (zlen_nonneg (replicate (pad_len (zlen (value_bytes tid type v))) (u8 padding))); lia|].
  apply reads_pos. set (q := p + _ + _).
  destruct (value_reads_ok q type v tid ua Htid Ha) as (d1 & d2 & E & Hd2 & Hr).
  set (k := pad_len _) in *. rewrite E in *. rewrite <- app_assoc.
  eapply reads_bind; [exact Hr|]. cbv beta iota. cbn [negb Z.eqb].
  rewrite <- (app_nil_r (d2 ++ _)). eapply (reads_bind _ _ _ _ _ tt); [|apply reads_ret].
  assert (Hz : zlen (replicate k (u8 padding)) = Z.of_nat k) by (unfold zlen; by rewrite length_replicate).
  assert (Hk : d2 = [] \/ zlen d2 < 4 /\ k = 0%nat).
  { destruct Hd2 as [|[Hd2 Hm]]; [by left|right]. split; [done|]. unfold k, pad_len. rewrite ?E. dlia. }
  apply slurp_reads_any; rewrite zlen_app, Hz; rewrite ?zlen_app in *.
  - rewrite <- Hpm. f_equal. lia.
  - destruct Hk as [->|[? ->]]; [change (zlen (@nil Z)) with 0|]; lia.
  - destruct Hk as [->|[? ->]]; [change (zlen (@nil Z)) with 0|]; lia.
Qed.

Lemma attrs_reads padding tid l : tid_ok (Some tid) -> Forall sendable l ->
  zlen (concat (map (attr_bytes padding tid) l)) < 65536 ->
  forall fuel ua out mb, (length l < fuel)%nat -> avail mb (concat (map (attr_bytes padding tid) l)) ->
    mb_end mb = mb_pos mb + zlen (concat (map (attr_bytes padding tid) l)) ->
    attrs_decode alloc_ok fuel 0 (Some tid) ua out mb =
      Some (0, out ++ map attr_of l, ua, set_pos (mb_end mb) mb).
Proof using Hmem.
  intros Htid Hl. induction Hl as [|a l Ha Hl IH]; intros Hsz [|fuel] ua out mb Hf Hav He; try (cbn in Hf; lia).
  all: cbn [attrs_decode map concat] in *; unfold mbind, M_bind, gets; rewrite Z.sub_0_r.
  - change (zlen (@nil Z)) with 0 in He. rewrite (left_diff mb) by lia.
    replace (mb_end mb - mb_pos mb) with 0 by lia. cbn. rewrite app_nil_r. rewrite He, Z.add_0_r. by destruct mb.
  - rewrite zlen_app in Hsz, He. pose proof (zlen_nonneg (concat (map (attr_bytes padding tid) l))).
    pose proof (attr_bytes_len tid padding a). pose proof (zlen_nonneg (value_bytes tid a.1 a.2)).
    pose proof Hav as ((_ & ? & ? & ?) & _). rewrite (left_diff mb) by lia. rewrite usz_small by lia.
    replace (_ <? 4) with false by lia.
    rewrite (attr_reads (mb_pos mb) padding tid a ua Htid Ha ltac:(lia) mb _ eq_refl Hav). cbn [negb Z.eqb].
    apply avail_split in Hav as [_ Hav].
    rewrite (IH ltac:(lia) fuel ua (out ++ [attr_of a]) _ ltac:(cbn in Hf; lia) Hav) by (cbn [mb_end mb_pos set_pos]; lia).
    by rewrite <- app_assoc.
Qed.

Lemma reads_at {A} p (m : M mbuf A) d a mb rest :
  reads p m d a -> avail mb (d ++ rest) -> mb_pos mb = p -> m mb = Some (a, set_pos (p + zlen d) mb).
Proof. intros H Hav Hp. by apply (H mb rest). Qed.

Lemma stun_hdr_reads s t len tid b mb :
  holds s (hdr_bytes t len tid ++ b) mb -> zlen b = len -> len < 65536 -> len mod 4 = 0 -> zlen tid = 12 ->
  0 <= t < 0x4000 -> Z.land t 0x3fff = t -> Z.land t 0xc000 = 0 ->
  stun_hdr_decode (set_pos s mb) = Some (0, mk_shdr t len STUN_MAGIC_COOKIE tid, set_pos (s + 20) mb).
Proof.
  intros H Hb Hlen Hmod Htid Ht Ht1 Ht2. pose proof (holds_avail _ _ _ H) as Hav. pose proof (zlen_nonneg b).
  pose proof (holds_left _ _ _ H) as Hl. rewrite zlen_app, hdr_bytes_len in Hl by done.
  unfold hdr_bytes in Hav. rewrite Ht1, <- !app_assoc in Hav.
  unfold stun_hdr_decode, STUN_HEADER_SIZE. unfold mbind, M_bind, gets. rewrite Hl.
  replace (_ <? 20) with false by lia.
  rewrite (reads16 s t ltac:(lia) (set_pos s mb) _ eq_refl Hav), Ht2. cbn [negb Z.eqb].
  apply avail_split in Hav as [_ Hav]. rewrite be16_len in Hav. cbn [mb_pos set_pos] in Hav.
  rewrite be16_len, (reads_at _ _ _ _ _ _ (reads16 (s + 2) len ltac:(lia)) Hav eq_refl), land3, Hmod. cbn [negb Z.eqb].
  apply avail_split in Hav as [_ Hav]. rewrite be16_len in *. cbn [mb_pos set_pos] in Hav.
  rewrite (reads_at _ _ _ _ _ _ (reads32 (s + 2 + 2) STUN_MAGIC_COOKIE ltac:(done)) Hav eq_refl).
  apply avail_split in Hav as [_ Hav]. rewrite be32_len in *. cbn [mb_pos set_pos] in Hav.
  unfold STUN_TID_SIZE. rewrite <- Htid, (reads_at _ _ _ _ _ _ (reads_mem (s + 2 + 2 + 4) tid) Hav eq_refl).
  replace (mbuf_get_left _) with len.
  - rewrite Z.ltb_irrefl, Htid. replace (s + 2 + 2 + 4 + 12) with (s + 20) by lia. done.
  - destruct H as (_ & He & _). rewrite zlen_app, hdr_bytes_len in He by done. unfold mbuf_get_left.
    cbn [mb_pos mb_end set_pos]. case_match; lia.
Qed.

Section Message.
Context (t : Z) (tid : list Z) (padding : Z) (Htid : tid_ok (Some tid)).
Context (Ht : 0 <= t < 0x4000) (Ht1 : Z.land t 0x3fff = t) (Ht2 : Z.land t 0xc000 = 0).
Abbreviation bytes_of_attrs l := (concat (map (attr_bytes padding tid) l)).

Lemma attrs_mod l : zlen (bytes_of_attrs l) mod 4 = 0 /\ Z.of_nat (length l) <= zlen (bytes_of_attrs l).
Proof.
  induction l as [|a l [IH1 IH2]]; [done|]. cbn [map concat length]. rewrite zlen_app, attr_bytes_len.
  pose proof (pad_len_mod (zlen (value_bytes tid a.1 a.2))). pose proof (zlen_nonneg (value_bytes tid a.1 a.2)).
  split; [dlia|lia].
Qed.

Definition decoded (s : Z) (l : list (Z * attr_v)) : stun_msg :=
  mk_smsg (mk_shdr t (zlen (bytes_of_attrs l)) STUN_MAGIC_COOKIE tid) (map attr_of l) s.

Lemma msg_reads s l ua mb : holds s (front t tid padding l 0) mb -> Forall sendable l ->
  zlen (bytes_of_attrs l) < 65536 ->
  stun_msg_decode alloc_ok ua (set_pos s mb) = Some (0, Some (decoded s l), (fun _ => []) <$> ua, set_pos s mb).
Proof using Hmem Htid Ht Ht1 Ht2.
  intros H Hl Hsz. pose proof Htid as [Htl _]. destruct (attrs_mod l) as [Hm Hn].
  pose proof (holds_avail _ _ _ H) as Hav. unfold front in H, Hav. rewrite Z.add_0_r in H, Hav.
  unfold stun_msg_decode, mbind, M_bind, gets, modify. cbn [mb_pos set_pos].
  rewrite (stun_hdr_reads s t _ tid _ mb H) by done. rewrite Hmem. cbn [negb Z.eqb s_len s_tid].
  apply avail_split in Hav as [_ Hav]. rewrite hdr_bytes_len in Hav by done.
  pose proof H as (_ & He & _). rewrite zlen_app, hdr_bytes_len in He by done.
  change (set_pos (mb_pos (set_pos s mb) + 20) (set_pos s mb)) with (set_pos (s + 20) mb) in Hav.
  assert (Hleft : mbuf_get_left (set_pos (s + 20) mb) = zlen (bytes_of_attrs l)).
  { unfold mbuf_get_left. cbn [mb_pos mb_end set_pos]. pose proof (zlen_nonneg (bytes_of_attrs l)). case_match; lia. }
  rewrite Hleft, Z.sub_diag. rewrite (attrs_reads padding tid l Htid Hl Hsz); [done|lia|done|].
  cbn [mb_pos mb_end set_pos]. lia.
Qed.

Lemma attr_not_found s l ty : Forall (fun a => a.1 <> ty) l -> stun_msg_attr (decoded s l) ty = None.
Proof.
  intros H. unfold stun_msg_attr, decoded. cbn [m_attrl]. induction H as [|a l Ha Hl IH]; [done|].
  cbn [map list_find]. rewrite decide_False by (by cbn). by destruct (list_find _ _).
Qed.

Lemma attr_first s l ty v l' : Forall (fun a => a.1 <> ty) l ->
  stun_msg_attr (decoded s (l ++ (ty, v) :: l')) ty = Some (mk_attr ty v).
Proof.
  intros H. unfold stun_msg_attr, decoded. cbn [m_attrl]. rewrite map_app. cbn [map].
  induction H as [|a l Ha Hl IH].
  - cbn. by rewrite decide_True.
  - cbn [map app list_find]. rewrite decide_False by (by cbn). destruct (list_find _ _) as [[i x]|]; cbn in *; done.
Qed.

Context (junk : Z -> Z) (hmac_sha1 : list Z -> list Z -> list Z).
Context (Hmac : forall k d, zlen (hmac_sha1 k d) = 20 /\ is_bytes (hmac_sha1 k d)).
Abbreviation front := (front t tid padding).
Abbreviation with_mi := (with_mi hmac_sha1 t tid padding).
Abbreviation with_fp := (with_fp t tid padding).

(** A message is what was in front of its last attribute, and that. *)
Lemma front_last l a : front (l ++ [a]) 0 = front l (zlen (attr_bytes padding tid a)) ++ attr_bytes padding tid a.
Proof.
  rewrite front_app. unfold StunRoundtrip.front. rewrite !bytes_of_attrs_app, zlen_app. cbn [map concat].
  by rewrite app_nil_r, Z.add_0_r.
Qed.

Lemma chk_fingerprint_ok s l mb : holds s (front (with_fp true l) 0) mb ->
  Forall sendable l -> Forall (fun a => a.1 <> STUN_ATTR_FINGERPRINT) l ->
  zlen (bytes_of_attrs l) + 8 < 65536 ->
  stun_msg_chk_fingerprint (decoded s (with_fp true l)) mb = Some (0, set_pos s mb).
Proof using Htid.
  intros H Hl Hn Hsz. destruct Htid as [Htl _]. cbn [StunRoundtrip.with_fp] in *.
  destruct (fingerprint_total (front l FP_SIZE)) as (f & Ef & Hf); [by apply front_is_bytes|].
  rewrite Ef in *. cbn [default id] in *. unfold stun_msg_chk_fingerprint. rewrite attr_first by done.
  rewrite front_last, fp_len in H. unfold mbind, M_bind, modify. cbn [m_start m_hdr s_len decoded].
  rewrite bytes_of_attrs_app, zlen_app. cbn [map concat]. rewrite app_nil_r, fp_len. unfold STUN_HEADER_SIZE, FP_SIZE in *.
  pose proof (zlen_nonneg (bytes_of_attrs l)). rewrite usz_small by (unfold SIZE_MAX; lia).
  replace (20 + _ - 8) with (zlen (front l 8)) by (rewrite front_len by done; lia).
  rewrite (holds_first _ _ _ _ H). unfold of_option. rewrite Ef. cbn [a_v]. by rewrite Z.eqb_refl.
Qed.

Lemma chk_mi_plain s l k mb : holds s (front (with_mi (Some k) l) 0) mb ->
  Forall (fun a => a.1 <> STUN_ATTR_FINGERPRINT) l -> Forall (fun a => a.1 <> STUN_ATTR_MSG_INTEGRITY) l ->
  zlen (bytes_of_attrs l) + 24 < 65536 ->
  let m := decoded s (with_mi (Some k) l) in
  stun_msg_chk_mi alloc_ok junk hmac_sha1 m k mb = Some (0, m, set_pos s mb).
Proof using Htid Hmac.
  intros H Hf Hn Hsz m. destruct Htid as [Htl _]. destruct (Hmac k (front l MI_SIZE)) as [Hd1 Hd2].
  unfold m. cbn [StunRoundtrip.with_mi] in *. unfold stun_msg_chk_mi. rewrite attr_first by done.
  rewrite attr_not_found by (apply Forall_app; split; [done|by repeat constructor]).
  rewrite bool_decide_false by (by intros [? ?]). rewrite front_last, mi_len in H by done.
  unfold mbind, M_bind, modify, when. cbn [m_start m_hdr s_len decoded].
  rewrite bytes_of_attrs_app, zlen_app. cbn [map concat]. rewrite app_nil_r, mi_len by done. unfold STUN_HEADER_SIZE, MI_SIZE in *.
  pose proof (zlen_nonneg (bytes_of_attrs l)). rewrite usz_small by (unfold SIZE_MAX; lia).
  replace (20 + _ - 24) with (zlen (front l 24)) by (rewrite front_len by done; lia).
  unfold mret, M_ret. rewrite (holds_first _ _ _ _ H). cbn [a_v].
  rewrite bool_decide_true by done. unfold decoded. rewrite bytes_of_attrs_app, zlen_app. cbn [map concat].
  by rewrite app_nil_r, mi_len.
Qed.

Lemma front_split l n : front l n = hdr_bytes t (zlen (bytes_of_attrs l) + n) tid ++ bytes_of_attrs l.
Proof. done. Qed.

(** The header is rewritten, the digest is computed, the header is restored. *)
Lemma chk_mi_fp s l k n mb :
  let l1 := with_mi (Some k) l in
  let m := decoded s (l1 ++ [(STUN_ATTR_FINGERPRINT, v_32 n)]) in
  holds s (front (l1 ++ [(STUN_ATTR_FINGERPRINT, v_32 n)]) 0) mb ->
  Forall (fun a => a.1 <> STUN_ATTR_FINGERPRINT) l -> Forall (fun a => a.1 <> STUN_ATTR_MSG_INTEGRITY) l ->
  zlen (bytes_of_attrs l) + 32 < 65536 ->
  exists mb', stun_msg_chk_mi alloc_ok junk hmac_sha1 m k mb = Some (0, m, set_pos s mb') /\
    holds s (front (l1 ++ [(STUN_ATTR_FINGERPRINT, v_32 n)]) 0) mb'.
Proof using Hmem Htid Hmac.
  intros l1 m H Hf Hn Hsz. destruct Htid as [Htl _]. destruct (Hmac k (front l MI_SIZE)) as [Hd1 Hd2].
  pose proof (holds_bounds _ _ _ H) as Hb. rewrite front_len in Hb by done. set (fpa := (STUN_ATTR_FINGERPRINT, v_32 n)) in *.
  assert (Hz1 : zlen (bytes_of_attrs l1) = zlen (bytes_of_attrs l) + 24) by (by apply (with_mi_len hmac_sha1 Hmac t tid padding (Some k))).
  assert (Hz2 : zlen (bytes_of_attrs (l1 ++ [fpa])) = zlen (bytes_of_attrs l1) + 8).
  { rewrite bytes_of_attrs_app, zlen_app. cbn [map concat].
    rewrite app_nil_r. f_equal. }
  pose proof (zlen_nonneg (bytes_of_attrs l)).
  assert (Hmi : stun_msg_attr m STUN_ATTR_MSG_INTEGRITY = Some (mk_attr STUN_ATTR_MSG_INTEGRITY (v_mi (hmac_sha1 k (front l MI_SIZE))))).
  { unfold m, l1. cbn [StunRoundtrip.with_mi]. rewrite <- app_assoc. by apply attr_first. }
  assert (Hfp : stun_msg_attr m STUN_ATTR_FINGERPRINT = Some (mk_attr STUN_ATTR_FINGERPRINT (v_32 n))).
  { apply attr_first. apply Forall_app. split; [done|]. by repeat constructor. }
  unfold stun_msg_chk_mi. rewrite Hmi, Hfp, bool_decide_true by done. unfold mbind, M_bind, modify, when.
  cbn [m_start m_hdr s_len decoded set_len s_type s_cookie s_tid m_attrl m]. rewrite Hz2. unfold FP_SIZE, STUN_HEADER_SIZE, set_len.
  cbn [s_type s_len s_cookie s_tid].
  rewrite (u16_small (_ - 8)) by lia. replace (_ + 8 - 8) with (zlen (bytes_of_attrs l1)) by lia.
  rewrite front_split, Z.add_0_r, Hz2 in H.
  destruct (holds_front _ _ _ _ _ _ (puts_hdr alloc_ok junk Hmem t (zlen (bytes_of_attrs l1)) tid)
    ltac:(by rewrite !hdr_bytes_len) H) as (mb1 & E1 & H1 & P1).
  rewrite hdr_bytes_len in P1 by done. rewrite E1, skip_run by lia. replace (mb_pos mb1 + - (20)) with s by lia.
  assert (H1' : holds s (front l MI_SIZE ++ attr_bytes padding tid (STUN_ATTR_MSG_INTEGRITY, v_mi (hmac_sha1 k (front l MI_SIZE)))
    ++ attr_bytes padding tid fpa) mb1).
  { rewrite bytes_of_attrs_app in H1. cbn [map concat] in H1. rewrite app_nil_r, app_assoc in H1.
    rewrite app_assoc. rewrite front_app. rewrite Hz1 in H1. exact H1. }
  replace (usz _) with (zlen (front l MI_SIZE))
    by (rewrite front_len, Hz1 by done; unfold MI_SIZE; rewrite usz_small by (unfold SIZE_MAX; lia); lia).
  rewrite (holds_first _ _ _ _ H1'). rewrite (u16_small (_ + 8)) by lia.
  destruct (holds_front _ _ _ _ _ _ (puts_hdr alloc_ok junk Hmem t (zlen (bytes_of_attrs l1) + 8) tid)
    ltac:(by rewrite !hdr_bytes_len) H1) as (mb2 & E2 & H2 & P2).
  rewrite hdr_bytes_len in P2 by done. rewrite E2, skip_run by lia. replace (mb_pos mb2 + - (20)) with s by lia.
  exists mb2. cbn [a_v]. rewrite bool_decide_true by done. split.
  - unfold m, decoded. by rewrite Hz2.
  - rewrite front_split, Hz2, Z.add_0_r. exact H2.
Qed.
End Message.
End Read.

(** The types behind the attributes of the caller. *)
Definition trailer (key : option (list Z)) (fp : bool) : list Z :=
  (if key is Some _ then [STUN_ATTR_MSG_INTEGRITY] else []) ++ (if fp then [STUN_ATTR_FINGERPRINT] else []).

(** Attributes a caller passes. *)
Definition own_attr (a : Z * attr_v) : Prop :=
  sendable a /\ a.1 <> STUN_ATTR_MSG_INTEGRITY /\ a.1 <> STUN_ATTR_FINGERPRINT.

Lemma forall_sendable l : Forall own_attr l -> Forall sendable l.
Proof. intros H. eapply Forall_impl; [exact H|]. by intros ? []. Qed.
Lemma forall_not_mi l : Forall own_attr l -> Forall (fun a => a.1 <> STUN_ATTR_MSG_INTEGRITY) l.
Proof. intros H. eapply Forall_impl; [exact H|]. by intros ? (_ & ? & _). Qed.
Lemma forall_not_fp l : Forall own_attr l -> Forall (fun a => a.1 <> STUN_ATTR_FINGERPRINT) l.
Proof. intros H. eapply Forall_impl; [exact H|]. by intros ? (_ & _ & ?). Qed.

Section Trailer.
Context (hmac_sha1 : list Z -> list Z -> list Z) (t : Z) (tid : list Z) (padding : Z).

Lemma trailer_types key fp l :
  exists tail, map attr_of (with_fp t tid padding fp (with_mi hmac_sha1 t tid padding key l)) = map attr_of l ++ tail /\
    map a_type tail = trailer key fp.
Proof.
  destruct key as [k|], fp; cbn [with_mi with_fp]; rewrite ?map_app, <- ?app_assoc.
  1-3: by eexists.
  exists []. by rewrite app_nil_r.
Qed.

Lemma with_mi_not_fp key l : Forall own_attr l ->
  Forall (fun a => a.1 <> STUN_ATTR_FINGERPRINT) (with_mi hmac_sha1 t tid padding key l).
Proof.
  intros H%forall_not_fp. destruct key; cbn [with_mi]; [|done]. apply Forall_app. split; [done|]. by repeat constructor.
Qed.
End Trailer.

(** A message that lies in a buffer is read back. *)
Lemma message_read alloc_ok junk hmac_sha1 method class tid ec key fp padding attrs ua s mb'
  (Hmem : forall n, alloc_ok n = true) (Hmac : forall k d, zlen (hmac_sha1 k d) = 20 /\ is_bytes (hmac_sha1 k d)) :
  let t := STUN_TYPE method class in let l := ec_attr ec ++ present attrs in
  0 <= method < 4096 -> Z.land method 0x50 = 0 -> 0 <= class < 4 -> tid_ok (Some tid) -> Forall own_attr l ->
  zlen (concat (map (attr_bytes padding tid) l)) + 32 < 65536 ->
  holds s (front t tid padding (with_fp t tid padding fp (with_mi hmac_sha1 t tid padding key l)) 0) mb' ->
  exists m, let at_start := set_pos s mb' in
    stun_msg_decode alloc_ok ua at_start = Some (0, Some m, (fun _ => []) <$> ua, at_start) /\
    stun_msg_method m = method /\ stun_msg_class m = class /\ stun_msg_tid m = tid /\ stun_msg_mcookie m = true /\
    (exists tail, m_attrl m = map attr_of l ++ tail /\ map a_type tail = trailer key fp) /\
    (forall k, key = Some k -> exists mb'', stun_msg_chk_mi alloc_ok junk hmac_sha1 m k mb' = Some (0, m, mb'')) /\
    (fp = true -> stun_msg_chk_fingerprint m mb' = Some (0, at_start)).
Proof.
  intros t l Hm Hm5 Hclass Htid Hl Hsz H. destruct (stun_type_bits method class Hm Hclass) as (B1 & B2 & B3 & B4 & B5).
  pose proof (forall_sendable _ Hl) as Hs.
  set (l1 := with_mi hmac_sha1 t tid padding key l) in *.
  assert (H1 : Forall sendable l1) by (by apply with_mi_sendable).
  pose proof (with_mi_len hmac_sha1 Hmac t tid padding key l) as Hz. fold l1 in Hz.
  assert (Hz1 : zlen (concat (map (attr_bytes padding tid) l1)) + 8 < 65536) by (destruct key; unfold MI_SIZE in Hz; lia).
  pose proof (fingerprint_total (front t tid padding l1 FP_SIZE) ltac:(by apply front_is_bytes)) as (f & Ef & Hf).
  exists (decoded t tid padding s (with_fp t tid padding fp l1)).
  split; [|split; [done|split; [by apply B5|split; [done|split; [done|split; [apply trailer_types|split]]]]]].
  - apply msg_reads; try done; destruct fp; cbn [with_fp]; try done; try lia.
    + apply Forall_app. split; [done|]. rewrite Ef. repeat constructor; cbn; try done; apply Hf.
    + rewrite map_app, concat_app, zlen_app. cbn [map concat]. rewrite app_nil_r, fp_len. lia.
  - intros k ->. destruct fp.
    + destruct (chk_mi_fp alloc_ok Hmem t tid padding Htid junk hmac_sha1 Hmac s l k
        (default 0 (fingerprint (front t tid padding l1 FP_SIZE))) mb' H) as (mb'' & Eq & _);
        [by apply forall_not_fp|by apply forall_not_mi|done|]. by eexists.
    + eexists. apply chk_mi_plain; [done|done|done|by apply forall_not_fp|by apply forall_not_mi|lia].
  - intros ->. apply chk_fingerprint_ok; [done|done|done| |done]. by apply with_mi_not_fp.
Qed.

(** C4: STUN messages survive the wire.  A message that [stun_msg_vencode]
    writes behind the end of a buffer, with attributes that match their types,
    an optional error code, integrity key and fingerprint, decodes
    without error to its method, class, transaction number, magic cookie and
    attributes in order, followed by the integrity and fingerprint attributes
    that were asked for; [stun_msg_chk_mi] accepts it under the same key and
    leaves the message as it was, and [stun_msg_chk_fingerprint] accepts it.
    The attributes are of every known type but DATA and PADDING, whose values
    are buffers of their own, and the two the encoder adds itself; an error
    code is below 800; the bits 4 and 6 of the method are clear, as in
    every method of [enum stun_method] (with one of them set the class would
    be read wrong); and the attributes stay below 64 kB. *)
Theorem stun_msg_roundtrip alloc_ok junk hmac_sha1 method class tid ec key fp padding attrs ua mb
  (Hmem : forall n, alloc_ok n = true)
  (Hmac : forall k d, zlen (hmac_sha1 k d) = 20 /\ is_bytes (hmac_sha1 k d))
  (Hwf : mb_wf mb) (Hend : mb_end mb <= mb_pos mb)
  (Hmethod : 0 <= method < 4096 /\ Z.land method 0x50 = 0) (Hclass : 0 <= class < 4)
  (Htid : tid_ok (Some tid)) (Hl : Forall own_attr (ec_attr ec ++ present attrs))
  (Hsz : zlen (concat (map (attr_bytes padding tid) (ec_attr ec ++ present attrs))) + 32 < 65536)
  (Hmax : mb_pos mb + 65556 <= SIZE_MAX) :
  exists mb' m, let at_start := set_pos (mb_pos mb) mb' in
    stun_msg_vencode alloc_ok junk hmac_sha1 method class tid ec key fp padding attrs mb = Some (0, mb') /\
    stun_msg_decode alloc_ok ua at_start = Some (0, Some m, (fun _ => []) <$> ua, at_start) /\
    stun_msg_method m = method /\ stun_msg_class m = class /\ stun_msg_tid m = tid /\ stun_msg_mcookie m = true /\
    (exists tail, m_attrl m = map attr_of (ec_attr ec ++ present attrs) ++ tail /\ map a_type tail = trailer key fp) /\
    (forall k, key = Some k -> exists mb'', stun_msg_chk_mi alloc_ok junk hmac_sha1 m k mb' = Some (0, m, mb'')) /\
    (fp = true -> stun_msg_chk_fingerprint m mb' = Some (0, at_start)).
Proof.
  destruct Hmethod as [Hm Hm5]. destruct (stun_type_bits method class Hm Hclass) as (_ & _ & _ & B4 & _).
  destruct (vencode_run alloc_ok junk Hmem hmac_sha1 Hmac method class tid ec key fp padding attrs mb)
    as (mb' & E & H); [done|done|done|by apply forall_sendable|done|lia|].
  rewrite (u16_small (STUN_TYPE method class)) in H by lia.
  destruct (message_read alloc_ok junk hmac_sha1 method class tid ec key fp padding attrs ua (mb_pos mb) mb' Hmem Hmac) as (m & Hread); try done.
  by exists mb', m.
Qed.

(** A digest of the right size, and an error response with attributes of
    several kinds. *)
Definition sample_hmac (k d : list Z) : list Z := replicate 20 (u8 (zlen k + zlen d)).
Definition sample_attrs : list (Z * option attr_v) :=
  [(STUN_ATTR_XOR_MAPPED_ADDR, Some (v_sa (sa_in 0xc0000201 3478))); (STUN_ATTR_PRIORITY, None);
   (STUN_ATTR_USE_CAND, Some v_none); (STUN_ATTR_SOFTWARE, Some (v_str (bytes_of "re")))].
Definition sample_ec : option (Z * option (list Z)) := Some (401, Some (bytes_of "Unauthorized")).
Definition sample_tid : list Z := seqZ 1 12.

Lemma sample_hmac_ok k d : zlen (sample_hmac k d) = 20 /\ is_bytes (sample_hmac k d).
Proof.
  split; [unfold sample_hmac, zlen; by rewrite length_replicate|]. apply Forall_replicate, u8_range.
Qed.

Lemma sample_own : Forall own_attr (ec_attr sample_ec ++ present sample_attrs).
Proof.
  cbn. repeat constructor; cbn; try done; try lia; unfold is_bytes; repeat (constructor; [lia|]); try constructor.
Qed.

Lemma stun_msg_roundtrip_witness :
  let enc := stun_msg_vencode (fun _ => true) (fun _ => 0) sample_hmac 1 3 sample_tid sample_ec (Some [1; 2; 3]) true 0x20
    sample_attrs mbuf_init in
  exists mb' m, enc = Some (0, mb') /\
    stun_msg_decode (fun _ => true) None (set_pos 0 mb') = Some (0, Some m, None, set_pos 0 mb') /\
    stun_msg_class m = 3 /\ stun_msg_chk_fingerprint m mb' = Some (0, set_pos 0 mb').
Proof.
  destruct (stun_msg_roundtrip (fun _ => true) (fun _ => 0) sample_hmac 1 3 sample_tid sample_ec (Some [1; 2; 3]) true 0x20
    sample_attrs None mbuf_init) as (mb' & m & E1 & E2 & _ & E3 & _ & _ & _ & _ & E4);
    [done|apply sample_hmac_ok|zdec|cbn; lia|split; [lia|done]|lia| |apply sample_own|vm_compute; reflexivity|zdec|].
  - split; [done|]. unfold is_bytes. cbn. repeat (constructor; [lia|]). constructor.
  - exists mb', m. by auto.
Defined.

(** ** Checks of messages from the network *)

(** Writes inside the storage never allocate. *)
Definition fits (m : M mbuf Z) (d : list Z) : Prop :=
  forall mb, mb_wf mb -> mb_pos mb + zlen d <= mb_size mb -> exists mb', m mb = Some (0, mb') /\ written mb mb' d.

Lemma fits_or m1 m2 a b : fits m1 a -> fits m2 b -> fits (m1 |; m2) (a ++ b).
Proof.
  intros H1 H2 mb Hwf Hs. rewrite zlen_app in Hs. pose proof (zlen_nonneg a). pose proof (zlen_nonneg b).
  destruct (H1 mb Hwf) as (mb1 & E1 & W1); [lia|]. pose proof W1 as (Hwf1 & Hp1 & _ & _ & Hz & _).
  destruct (H2 mb1 Hwf1) as (mb2 & E2 & W2); [lia|]. exists mb2. unfold seq_or, mbind, M_bind. rewrite E1, E2.
  split; [done|]. by eapply written_app.
Qed.

Section Fits.
Context (alloc_ok : Z -> bool) (junk : Z -> Z).

Lemma fits_mem d : fits (write_mem alloc_ok junk d) d.
Proof.
  intros mb Hwf Hs. pose proof Hwf as (? & ? & ? & ?). pose proof (zlen_nonneg d).
  destruct (write_mem_ok alloc_ok junk mb d Hwf ltac:(lia)) as (err & mb' & E & H').
  exists mb'. unfold write_mem. rewrite E. enough (err = 0) as -> by (split; done).
  revert E. unfold mbuf_write_mem, mbuf_reserve. rewrite usz_small by lia.
  replace (mb_size mb <? mb_pos mb + zlen d) with false by lia. cbn [negb Z.eqb]. unfold mbuf_put.
  destruct (if zlen d =? 0 then _ else _); [|done]. by intros [= <- <-].
Qed.
Lemma fits16 v : fits (write16 alloc_ok junk v) (be16 v).
Proof. unfold write16, mbuf_write_u16. rewrite htons_bytes. apply fits_mem. Qed.
Lemma fits32 v : fits (write32 alloc_ok junk v) (be32 v).
Proof. unfold write32, mbuf_write_u32. rewrite htonl_bytes. apply fits_mem. Qed.

Lemma fits_hdr h : fits (stun_hdr_encode alloc_ok junk h)
  (be16 (Z.land (s_type h) 0x3fff) ++ be16 (s_len h) ++ be32 (s_cookie h) ++ s_tid h).
Proof.
  unfold stun_hdr_encode. rewrite !app_assoc. repeat apply fits_or; auto using fits16, fits32, fits_mem.
Qed.

(** Rewriting the header and moving back. *)
Lemma hdr_rewrite h mb : mb_wf mb -> zlen (s_tid h) = 12 -> mb_pos mb + 20 <= mb_size mb ->
  exists mb', (_ ← stun_hdr_encode alloc_ok junk h; skip (- STUN_HEADER_SIZE)) mb = Some (tt, mb') /\
    mb_wf mb' /\ mb_pos mb' = mb_pos mb /\ mb_size mb <= mb_size mb'.
Proof.
  intros Hwf Ht Hs. pose proof Hwf as (? & ? & ? & ?).
  destruct (fits_hdr h mb Hwf) as (mb' & E & W & P & _ & _ & Z & _); rewrite !zlen_app, !be16_len, be32_len, Ht in *; [lia|].
  unfold mbind, M_bind, STUN_HEADER_SIZE. rewrite E, skip_run by lia. eexists. split; [done|].
  split; [apply wf_set_pos; [done|lia]|]. cbn [mb_pos mb_size set_pos]. lia.
Qed.

Lemma first_run n mb : mb_wf mb -> 0 <= n -> mb_pos mb + n <= mb_size mb -> exists d, first n mb = Some (d, mb).
Proof.
  intros (Hl & ? & ?) Hn Hs. unfold first, mbind, M_bind, gets, of_option. cbn [id].
  rewrite slice_some by lia. by eexists.
Qed.

Lemma attr_in m ty a : stun_msg_attr m ty = Some a -> a ∈ m_attrl m /\ a_type a = ty.
Proof.
  unfold stun_msg_attr. destruct (list_find _ _) as [[i x]|] eqn:E; [|done]. intros [= ->].
  apply list_find_Some in E as (Hi & Ht & _). split; [by eapply list_elem_of_lookup_2|done].
Qed.

Lemma total_in l a : a ∈ l -> min_size (a_type a) <= total l.
Proof.
  assert (Hp : forall t, 0 <= min_size t) by (intros t; unfold min_size, MI_SIZE, FP_SIZE; repeat case_match; lia).
  assert (Hn : forall l, 0 <= total l) by (intros l'; induction l' as [|x l' IH]; cbn [total]; [lia|specialize (Hp (a_type x)); lia]).
  induction 1 as [x l|x y l _ IH]; cbn [total]; [specialize (Hn l)|specialize (Hp (a_type y))]; lia.
Qed.

Lemma total_two l a b : a ∈ l -> b ∈ l -> a_type a <> a_type b -> min_size (a_type a) + min_size (a_type b) <= total l.
Proof.
  assert (Hp : forall t, 0 <= min_size t) by (intros t; unfold min_size, MI_SIZE, FP_SIZE; repeat case_match; lia).
  intros Ha. induction Ha as [a l|a y l Ha IH]; cbn [total]; intros Hb Hne; apply elem_of_cons in Hb as [->|Hb]; try done.
  - apply total_in in Hb. lia.
  - apply total_in in Ha. lia.
  - specialize (IH Hb Hne). specialize (Hp (a_type y)). lia.
Qed.

Definition check_result (err : Z) : Prop := err = 0 \/ err = EBADMSG \/ err = EPROTO.

Lemma set_len_back h : 0 <= s_len h < 65536 ->
  set_len (u16 (s_len (set_len (u16 (s_len h - FP_SIZE)) h) + FP_SIZE)) (set_len (u16 (s_len h - FP_SIZE)) h) = h.
Proof.
  intros Hl. destruct h as [ty len c t]. unfold set_len, FP_SIZE. cbn [s_len s_type s_cookie s_tid] in *. f_equal.
  unfold u16. rewrite Zplus_mod_idemp_l. replace (len - 8 + 8) with len by lia. apply Z.mod_small. lia.
Qed.

(** The digest covers bytes of the packet. *)
Lemma digest_run mb start len : mb_wf mb -> mb_pos mb = start -> 24 <= len -> start + 20 + len <= mb_size mb ->
  exists d, first (usz (STUN_HEADER_SIZE + len - MI_SIZE)) mb = Some (d, mb).
Proof.
  intros Hwf Hp Hlen Hs. pose proof Hwf as (? & ? & ? & ?). unfold STUN_HEADER_SIZE, MI_SIZE.
  rewrite usz_small by lia. apply first_run; [done|lia..].
Qed.

Lemma typed_mi m a mb : Forall (attr_ok mb) (m_attrl m) -> a ∈ m_attrl m -> a_type a = STUN_ATTR_MSG_INTEGRITY ->
  exists x, a_v a = v_mi x.
Proof.
  rewrite Forall_forall. intros Ha Hi Ht. destruct (Ha a Hi) as [Hty _]. unfold typed in Hty. rewrite Ht in Hty.
  change (kind_of STUN_ATTR_MSG_INTEGRITY) with k_mi in Hty. destruct (a_v a); try done. by eexists.
Qed.

(** The storage holds the message. *)
Definition room (m : stun_msg) (mb : mbuf) : Prop :=
  mb_wf mb /\ 0 <= m_start m /\ m_start m + 20 + s_len (m_hdr m) <= mb_size mb.

Lemma room_of mb m : msg_ok mb m -> mb_wf mb -> room m mb.
Proof.
  intros ((_ & _ & Hlen & _) & Hin & Hst & _) Hwf. split; [done|]. destruct Hwf as (? & ? & ? & ?).
  unfold STUN_HEADER_SIZE, mbuf_get_left in Hin. case_match; lia.
Qed.

Lemma chk_mi_run hmac_sha1 key mb m mb1 : msg_ok mb m -> room m mb1 ->
  exists err mb2, stun_msg_chk_mi alloc_ok junk hmac_sha1 m key mb1 = Some (err, m, mb2) /\ check_result err.
Proof.
  intros ((_ & _ & Hlen & _ & _ & Htid & _) & _ & _ & Ha & Htot) (Hwf & Hst & Hroom). unfold stun_msg_chk_mi.
  destruct (stun_msg_attr m STUN_ATTR_MSG_INTEGRITY) as [mi|] eqn:Emi; [|by exists EPROTO, mb1; split; [|right; right]].
  apply attr_in in Emi as [Hi Hti]. pose proof (total_in _ _ Hi) as Hmin. rewrite Hti in Hmin.
  change (min_size STUN_ATTR_MSG_INTEGRITY) with 24 in Hmin.
  destruct (typed_mi m mi mb Ha Hi Hti) as [x ->]. pose proof Hwf as (? & ? & ? & ?).
  assert (Hwf' : mb_wf (set_pos (m_start m) mb1)) by (apply wf_set_pos; [done|lia]).
  assert (Hend : forall d, check_result (if bool_decide (x = hmac_sha1 key d) then 0 else EBADMSG))
    by (intros d; case_bool_decide; [by left|by right; left]).
  destruct (stun_msg_attr m STUN_ATTR_FINGERPRINT) as [f|] eqn:Ef.
  - apply attr_in in Ef as [Hfi Htf]. pose proof (total_two _ _ _ Hi Hfi ltac:(by rewrite Hti, Htf)) as H32.
    rewrite Hti, Htf in H32. change (min_size STUN_ATTR_MSG_INTEGRITY + min_size STUN_ATTR_FINGERPRINT) with 32 in H32.
    rewrite bool_decide_true by done. cbn [m_hdr m_attrl m_start when]. rewrite set_len_back by done.
    destruct (hdr_rewrite (set_len (u16 (s_len (m_hdr m) - FP_SIZE)) (m_hdr m)) (set_pos (m_start m) mb1) Hwf' Htid)
      as (mb2 & E2 & W2 & P2 & Z2); [cbn; lia|]. cbn [mb_pos set_pos mb_size] in P2, Z2.
    unfold mbind at 1, M_bind at 1, modify. unfold mbind at 1, M_bind at 1. rewrite E2.
    cbn [s_len set_len]. rewrite (u16_small (s_len (m_hdr m) - FP_SIZE)) by (unfold FP_SIZE; lia).
    destruct (digest_run mb2 (m_start m) (s_len (m_hdr m) - FP_SIZE) W2 P2) as (d & E3); [unfold FP_SIZE; lia..|].
    unfold mbind at 1, M_bind at 1. rewrite E3.
    destruct (hdr_rewrite (m_hdr m) mb2 W2 Htid) as (mb3 & E4 & _); [lia|].
    unfold mbind at 1, M_bind at 1. rewrite E4. do 2 eexists. split; [|apply (Hend d)]. by destruct m.
  - rewrite bool_decide_false by (by intros [? ?]). cbn [when]. unfold mbind, M_bind, modify, mret, M_ret.
    destruct (digest_run (set_pos (m_start m) mb1) (m_start m) (s_len (m_hdr m)) Hwf' eq_refl) as (d & ->); [lia|cbn; lia|].
    do 2 eexists. split; [done|]. apply Hend.
Qed.

Lemma chk_fingerprint_run mb m mb1 : msg_ok mb m -> room m mb1 -> is_bytes (bytes mb1) ->
  exists err mb2, stun_msg_chk_fingerprint m mb1 = Some (err, mb2) /\ check_result err.
Proof.
  intros ((_ & _ & Hlen & _) & _ & _ & Ha & Htot) (Hwf & Hst & Hroom) Hb. unfold stun_msg_chk_fingerprint.
  destruct (stun_msg_attr m STUN_ATTR_FINGERPRINT) as [f|] eqn:Ef; [|by exists EPROTO, mb1; split; [|right; right]].
  apply attr_in in Ef as [Hi Hti]. pose proof (total_in _ _ Hi) as Hmin. rewrite Hti in Hmin.
  change (min_size STUN_ATTR_FINGERPRINT) with 8 in Hmin. pose proof Hwf as (? & ? & ? & ?).
  assert (exists x, a_v f = v_32 x) as [x ->].
  { rewrite Forall_forall in Ha. destruct (Ha f Hi) as [Hty _]. unfold typed in Hty. rewrite Hti in Hty.
    change (kind_of STUN_ATTR_FINGERPRINT) with k_32 in Hty. destruct (a_v f); try done. by eexists. }
  unfold mbind, M_bind, modify, STUN_HEADER_SIZE, FP_SIZE. rewrite usz_small by lia.
  destruct (first_run (20 + s_len (m_hdr m) - 8) (set_pos (m_start m) mb1)) as (d & E);
    [apply wf_set_pos; [done|lia]|lia|cbn; lia|]. rewrite E.
  destruct (fingerprint_total d) as (n & -> & _).
  { unfold first, mbind, M_bind, gets, of_option in E. cbn [id] in E.
    destruct (slice _ _ _) as [d'|] eqn:Es; [|done]. injection E as <-. by eapply slice_bytes. }
  do 2 eexists. split; [done|]. case_match; [by left|by right; left].
Qed.
End Fits.

(** The checks are memory safe on whatever the decoder accepts: for every
    packet that decodes, [stun_msg_chk_mi] under any key and digest and
    [stun_msg_chk_fingerprint] stay inside the buffer, although they subtract
    the sizes of the two attributes from an attacker's length, return 0,
    EBADMSG or EPROTO, and leave the message as it was. *)
Theorem stun_checks_safe alloc_ok junk hmac_sha1 key ua mb m ua' (Hg : good mb) (Hu : ua_ok ua)
  (Hdec : stun_msg_decode alloc_ok ua mb = Some (0, Some m, ua', mb)) :
  (exists err mb2, stun_msg_chk_mi alloc_ok junk hmac_sha1 m key mb = Some (err, m, mb2) /\ check_result err) /\
  (exists err mb2, stun_msg_chk_fingerprint m mb = Some (err, mb2) /\ check_result err).
Proof.
  destruct (msg_decode_run alloc_ok ua mb Hg Hu) as (err & m' & ua2 & E & _ & Hm). rewrite E in Hdec.
  injection Hdec as -> -> ->. destruct Hm as [_ Hm]. pose proof (room_of mb m Hm (proj1 Hg)) as Hr.
  split; [by apply (chk_mi_run alloc_ok junk hmac_sha1 key mb)|apply (chk_fingerprint_run mb); [done|done|apply Hg]].
Qed.

Lemma stun_checks_safe_witness :
  let m := mk_smsg (mk_shdr 1 8 STUN_MAGIC_COOKIE sample_tid) [mk_attr STUN_ATTR_PRIORITY (v_32 0x6e0001ff)] 0 in
  stun_msg_decode (fun _ => true) None sample_packet = Some (0, Some m, None, sample_packet) /\
  exists err mb2, stun_msg_chk_fingerprint m sample_packet = Some (err, mb2) /\ check_result err.
Proof.
  split; [vm_compute; reflexivity|].
  refine (proj2 (stun_checks_safe (fun _ => true) (fun _ => 0) sample_hmac [] None sample_packet _ None good_sample I _)).
  vm_compute. reflexivity.
Defined.
