(* ===== verification/Aubuf.v ===== *)
(** * The audio buffer

    Models src/rem/src/aubuf/aubuf.c: a queue of PCM frames between the
    decoder and the sound driver.  A frame is a memory buffer whose position
    moves as it is read; a frame that was appended belongs to the buffer.
    The lock orders the operations, so they are modelled one after the
    other. *)

From S2P Require Import Prelude Effects Mbuf MbufProps Rtp Codec.
Import Mb Rtp.

Module Ab.

Record aubuf := mk_aubuf {
  afl : list mbuf;
  wish_sz : Z;
  cur_sz : Z;
  max_sz : Z;
  filling : bool;
  ts : Z }.

Definition set_afl (x : list mbuf) (c : Z) (ab : aubuf) := mk_aubuf x (wish_sz ab) c (max_sz ab) (filling ab) (ts ab).
Definition set_filling (x : bool) (ab : aubuf) := mk_aubuf (afl ab) (wish_sz ab) (cur_sz ab) (max_sz ab) x (ts ab).
Definition set_ts (x : Z) (ab : aubuf) := mk_aubuf (afl ab) (wish_sz ab) (cur_sz ab) (max_sz ab) (filling ab) x.

Section Alloc.
Context (alloc_ok : Z -> bool) (junk : Z -> Z).

(** sizeof(struct aubuf) is 72, sizeof(struct auframe) is 40; [lock_err] is
    the result of [lock_alloc]. *)
Definition aubuf_alloc (lock_err min_sz max_sz : Z) : Z * option aubuf :=
  if min_sz =? 0 then (EINVAL, None) else
  if negb (alloc_ok 72) then (ENOMEM, None) else
  if negb (lock_err =? 0) then (lock_err, None) else
  (0, Some (mk_aubuf [] min_sz 0 max_sz true 0)).

Definition aubuf_append (mb : mbuf) : M aubuf Z :=
  if negb (alloc_ok 40) then mret ENOMEM else
  modify (fun ab => set_afl (afl ab ++ [mb]) (usz (cur_sz ab + mbuf_get_left mb)) ab) ;;
  modify (fun ab =>
    if negb (max_sz ab =? 0) && (max_sz ab <? cur_sz ab) then
      match afl ab with
      | [] => ab
      | af :: l => set_afl l (usz (cur_sz ab - mbuf_get_left af)) ab
      end
    else ab) ;;
  mret 0.

Definition aubuf_write (p : list Z) : M aubuf Z :=
  match mbuf_alloc alloc_ok junk (zlen p) with
  | None => mret ENOMEM
  | Some mb =>
    '(_, mb) ← of_option (mbuf_write_mem alloc_ok junk mb p);
    aubuf_append (set_pos 0 mb)
  end.

(** The loop over the frames: the bytes read, the frames and the size left. *)
Fixpoint read_frames (l : list mbuf) (sz cur : Z) : option (list Z * list mbuf * Z) :=
  match l with
  | [] => Some ([], [], cur)
  | af :: l =>
    let n := Z.min (mbuf_get_left af) sz in
    '(_, d, af) ← mbuf_read_mem af n;
    let cur := usz (cur - n) in
    let keep := if mbuf_get_left af =? 0 then [] else [af] in
    if n =? sz then Some (d, keep ++ l, cur)
    else '(d', l', cur) ← read_frames l (sz - n) cur; Some (d ++ d', keep ++ l', cur)
  end.

(** [p]: the caller's memory of [zlen p] bytes; the result is its new content. *)
Definition aubuf_read (p : list Z) : M aubuf (list Z) :=
  let sz := zlen p in
  if sz =? 0 then mret p else
  ab ← gets id;
  let short := cur_sz ab <? (if filling ab then wish_sz ab else sz) in
  let p := if short then replicate (length p) 0 else p in
  modify (set_filling short) ;;
  if short && filling ab then mret p else
  '(d, l, cur) ← of_option (read_frames (afl ab) sz (cur_sz ab));
  modify (set_afl l cur) ;;
  mret (d ++ drop (length d) p).

(** [now]: the clock. *)
Definition aubuf_get (now ptime : Z) (p : list Z) : M aubuf (Z * list Z) :=
  if ptime =? 0 then mret (EINVAL, p) else
  modify (fun ab => if ts ab =? 0 then set_ts now ab else ab) ;;
  ab ← gets id;
  if now <? ts ab then mret (ETIMEDOUT, p) else
  modify (set_ts (u64 (ts ab + ptime))) ;;
  p ← aubuf_read p;
  mret (0, p).

Definition aubuf_flush : M aubuf unit :=
  modify (fun ab => mk_aubuf [] (wish_sz ab) 0 (max_sz ab) true 0).

Definition aubuf_cur_size (ab : aubuf) : Z := cur_sz ab.

End Alloc.

(** ** The buffer on frames of bytes

    What the operations do when a frame is taken for its bytes: the first of
    two steps to the specification [fifo] below.  It still has what the
    documentation does not say: a read that is larger than the wished size
    may leave the end of the caller's memory as it was, and one frame is
    dropped when the limit is passed, whatever its size. *)

Record queue := mk_queue { frames : list (list Z); fill : bool }.

Definition content (q : queue) : list Z := concat (frames q).

(** [n] bytes off the front. *)
Fixpoint pull (l : list (list Z)) (n : nat) : list (list Z) :=
  match l with
  | [] => []
  | f :: l =>
    if (n <? length f)%nat then drop n f :: l
    else if (n =? length f)%nat then l else pull l (n - length f)
  end.

Definition q_write (max : Z) (d : list Z) (q : queue) : queue :=
  let l := frames q ++ [d] in
  mk_queue (if negb (max =? 0) && (max <? zlen (concat l)) then tail l else l) (fill q).

Definition q_read (wish : Z) (p : list Z) (q : queue) : list Z * queue :=
  let n := length p in
  if zlen p =? 0 then (p, q) else
  let short := zlen (content q) <? (if fill q then wish else zlen p) in
  if short && fill q then (replicate n 0, mk_queue (frames q) true) else
  let d := take n (content q) in
  (d ++ drop (length d) (if short then replicate n 0 else p), mk_queue (pull (frames q) n) short).

(** ** Refinement *)

Definition frame_bytes (mb : mbuf) : list Z :=
  default [] (slice (bytes mb) (mb_pos mb) (mbuf_get_left mb)).

Definition abs (ab : aubuf) : queue := mk_queue (map frame_bytes (afl ab)) (filling ab).

Definition ab_wf (ab : aubuf) : Prop :=
  Forall mb_wf (afl ab) /\ cur_sz ab = zlen (content (abs ab)).

Lemma left_room mb : mb_wf mb -> 0 <= mbuf_get_left mb /\ mb_pos mb + mbuf_get_left mb <= Z.max (mb_pos mb) (mb_size mb).
Proof. intros (? & ? & ? & ?). unfold mbuf_get_left. case_match; lia. Qed.

Lemma frame_len mb : mb_wf mb -> zlen (frame_bytes mb) = mbuf_get_left mb.
Proof.
  intros Hwf. destruct (left_room mb Hwf) as [Hl _]. pose proof Hwf as (Hb & ? & ? & ?). unfold frame_bytes.
  destruct (Z.eqb_spec (mbuf_get_left mb) 0) as [E|E].
  - rewrite E. destruct (slice _ _ 0) as [d|] eqn:Es; [|done]. by apply slice_inv in Es as (_ & _ & _ & ? & _).
  - destruct (slice _ _ _) as [d|] eqn:Es; [by apply slice_inv in Es as (_ & _ & _ & ? & _)|].
    rewrite slice_some in Es; [done|lia..|]. unfold mbuf_get_left in *. case_match; lia.
Qed.

(** Reading [n] bytes of a frame. *)
Lemma frame_read mb n : mb_wf mb -> 0 <= n <= mbuf_get_left mb ->
  exists mb', mbuf_read_mem mb n = Some (0, take (Z.to_nat n) (frame_bytes mb), mb') /\ mb_wf mb' /\
    mbuf_get_left mb' = mbuf_get_left mb - n /\ frame_bytes mb' = drop (Z.to_nat n) (frame_bytes mb).
Proof.
  intros Hwf Hn. pose proof (frame_len mb Hwf) as Hlen. pose proof Hwf as (Hb & ? & ? & ?).
  destruct (Z.eqb_spec (mbuf_get_left mb) 0) as [E|E].
  { assert (n = 0) as -> by lia. exists mb. unfold mbuf_read_mem. rewrite E. cbn.
    rewrite Z.add_0_r, usz_small by lia. split_and!; try done; try lia. by destruct mb. }
  assert (Hav : avail mb (frame_bytes mb)).
  { split_and!; [done| |rewrite Hlen; unfold mbuf_get_left in *; case_match; lia].
    rewrite Hlen. unfold frame_bytes. rewrite slice_some; [done|lia..|]. unfold mbuf_get_left in *. case_match; lia. }
  set (d := frame_bytes mb) in *. rewrite <- (take_drop (Z.to_nat n) d) in Hav. apply avail_split in Hav as [A1 A2].
  assert (Hz : zlen (take (Z.to_nat n) d) = n) by (unfold zlen in *; rewrite length_take; lia).
  apply read_mem_avail in A1. rewrite Hz in A1, A2. rewrite A1. eexists. split; [done|].
  split; [by destruct A2|]. rewrite left_set_pos by done. split; [done|].
  unfold frame_bytes. rewrite left_set_pos by done. destruct A2 as (_ & Hs & _).
  assert (Hd : zlen (drop (Z.to_nat n) d) = mbuf_get_left mb - n) by (unfold zlen in *; rewrite length_drop; lia).
  rewrite Hd in Hs. cbn [mb_pos set_pos] in *. by rewrite Hs.
Qed.

(** The loop takes the next bytes off the queue. *)
Lemma read_frames_run l sz : Forall mb_wf l -> 0 < sz -> zlen (concat (map frame_bytes l)) <= SIZE_MAX ->
  exists l', read_frames l sz (zlen (concat (map frame_bytes l))) =
      Some (take (Z.to_nat sz) (concat (map frame_bytes l)), l', zlen (concat (map frame_bytes l'))) /\
    Forall mb_wf l' /\ map frame_bytes l' = pull (map frame_bytes l) (Z.to_nat sz).
Proof.
  intros Hl. revert sz. induction Hl as [|af l Haf Hl IH]; intros sz Hsz Hmax.
  { exists []. cbn. by rewrite firstn_nil. }
  cbn [map concat] in *. rewrite zlen_app in *. pose proof (frame_len af Haf) as Hf.
  pose proof (zlen_nonneg (concat (map frame_bytes l))). destruct (left_room af Haf) as [Hl0 _].
  set (n := Z.min (mbuf_get_left af) sz) in *.
  destruct (frame_read af n Haf ltac:(lia)) as (af' & E & W' & L' & B').
  cbn [read_frames]. fold n. rewrite E. cbn [mbind option_bind].
  rewrite usz_small by (rewrite Hf in *; lia).
  unfold zlen in Hf. cbn [pull]. destruct (Z.ltb_spec sz (mbuf_get_left af)) as [Hlt|Hge].
  - assert (n = sz) as -> by lia. rewrite Z.eqb_refl. replace (mbuf_get_left af' =? 0) with false by lia.
    replace (Z.to_nat sz <? length (frame_bytes af))%nat with true by (symmetry; apply Nat.ltb_lt; lia).
    exists (af' :: l). cbn [app map concat]. rewrite B', zlen_app. split; [|split; [by constructor|done]].
    rewrite take_app_le by lia. do 2 f_equal. unfold zlen. rewrite length_drop. lia.
  - replace (mbuf_get_left af' =? 0) with true by lia. cbn [app].
    replace (Z.to_nat sz <? length (frame_bytes af))%nat with false by (symmetry; apply Nat.ltb_ge; lia).
    destruct (Z.eqb_spec n sz) as [Hn|Hn].
    + replace (Z.to_nat sz =? length (frame_bytes af))%nat with true by (symmetry; apply Nat.eqb_eq; lia).
      exists l. split; [|done]. rewrite Hn, take_app_le by lia. do 2 f_equal. unfold zlen. lia.
    + replace (Z.to_nat sz =? length (frame_bytes af))%nat with false by (symmetry; apply Nat.eqb_neq; lia).
      destruct (IH (sz - n) ltac:(lia) ltac:(unfold zlen in *; lia)) as (l' & E' & W & P).
      replace (zlen (frame_bytes af) + zlen (concat (map frame_bytes l)) - n)
        with (zlen (concat (map frame_bytes l))) by (unfold zlen; lia).
      rewrite E'. cbn [mbind option_bind]. exists l'. split; [|split; [done|]].
      * rewrite (take_ge (frame_bytes af)) by lia. rewrite take_app_ge by lia. do 4 f_equal. f_equal. lia.
      * rewrite P. f_equal. lia.
Qed.

Lemma pull_content l n : concat (pull l n) = drop n (concat l).
Proof.
  revert n. induction l as [|f l IH]; intros n; cbn [pull concat]; [by rewrite drop_nil|].
  destruct (Nat.ltb_spec n (length f)); [cbn; by rewrite drop_app_le by lia|].
  destruct (Nat.eqb_spec n (length f)) as [->|]; [by rewrite drop_app_length|].
  rewrite IH, drop_app_ge by lia. done.
Qed.

(** ** Runs *)

Inductive op := o_write (d : list Z) | o_read (p : list Z) | o_get (now ptime : Z) (p : list Z) | o_flush.

Section Runs.
Context (alloc_ok : Z -> bool) (junk : Z -> Z) (Hmem : forall n, alloc_ok n = true).

Definition exec (o : op) : M aubuf (Z * list Z) :=
  match o with
  | o_write d => e ← aubuf_write alloc_ok junk d; mret (e, [])
  | o_read p => p ← aubuf_read p; mret (0, p)
  | o_get now ptime p => aubuf_get now ptime p
  | o_flush => aubuf_flush ;; mret (0, [])
  end.

Fixpoint run (l : list op) : M aubuf (list (Z * list Z)) :=
  match l with
  | [] => mret []
  | o :: l => r ← exec o; rs ← run l; mret (r :: rs)
  end.

(** The queue with the time of the next timed read. *)
Definition q_exec (wish max : Z) (o : op) (s : queue * Z) : (Z * list Z) * (queue * Z) :=
  let '(q, t) := s in
  match o with
  | o_write d => ((0, []), (q_write max d q, t))
  | o_read p => let '(p, q) := q_read wish p q in ((0, p), (q, t))
  | o_get now ptime p =>
    if ptime =? 0 then ((EINVAL, p), (q, t)) else
    let t := if t =? 0 then now else t in
    if now <? t then ((ETIMEDOUT, p), (q, t)) else
    let '(p, q) := q_read wish p q in ((0, p), (q, u64 (t + ptime)))
  | o_flush => ((0, []), (mk_queue [] true, 0))
  end.

Fixpoint q_run (wish max : Z) (l : list op) (s : queue * Z) : list (Z * list Z) * (queue * Z) :=
  match l with
  | [] => ([], s)
  | o :: l => let '(r, s) := q_exec wish max o s in let '(rs, s) := q_run wish max l s in (r :: rs, s)
  end.

(** The bytes written. *)
Definition input (l : list op) : list Z := concat (map (fun o => match o with o_write d => d | _ => [] end) l).

Definition refines (ab : aubuf) (wish max : Z) (s : queue * Z) : Prop :=
  ab_wf ab /\ abs ab = s.1 /\ ts ab = s.2 /\ wish_sz ab = wish /\ max_sz ab = max.

(** A frame holding the data is appended. *)
Lemma write_frame d : zlen d <= SIZE_MAX ->
  exists mb mb1 e, mbuf_alloc alloc_ok junk (zlen d) = Some mb /\ mbuf_write_mem alloc_ok junk mb d = Some (e, mb1) /\
    mb_wf (set_pos 0 mb1) /\ frame_bytes (set_pos 0 mb1) = d.
Proof using Hmem.
  intros Hd. pose proof (zlen_nonneg d). unfold mbuf_alloc, mbuf_resize. rewrite Hmem. cbn [negb Z.eqb].
  set (n := if zlen d =? 0 then DEFAULT_SIZE else zlen d).
  assert (Hn : 0 <= n <= SIZE_MAX /\ zlen d <= n) by (subst n; unfold DEFAULT_SIZE, SIZE_MAX in *; case_match; lia).
  set (mb := mk_mbuf _ _ _ _). assert (Hwf : mb_wf mb).
  { split; [apply grow_len; apply Hn|]. cbn [mb mb_pos mb_end mb_size mbuf_init]. unfold SIZE_MAX in *. lia. }
  destruct (puts_mem alloc_ok junk Hmem d mb Hwf ltac:(change (mb_pos mb) with 0; lia)) as (mb1 & E & W & P & F & S & _).
  exists mb, mb1, 0. split; [done|]. split; [exact E|].
  change (mb_pos mb) with 0 in *. change (mb_end mb) with 0 in *.
  assert (Hwf1 : mb_wf (set_pos 0 mb1)) by (apply wf_set_pos; [done|lia]).
  split; [done|]. unfold frame_bytes. cbn [mb_pos set_pos]. rewrite left_diff by (cbn [mb_pos mb_end set_pos]; lia).
  cbn [mb_pos mb_end set_pos].
  replace (mb_end mb1 - 0) with (zlen d) by lia. change (bytes (set_pos 0 mb1)) with (bytes mb1). by rewrite S.
Qed.

Lemma write_refines ab wish max q t d :
  refines ab wish max (q, t) -> zlen (content q) + zlen d <= SIZE_MAX ->
  exists ab', aubuf_write alloc_ok junk d ab = Some (0, ab') /\ refines ab' wish max (q_write max d q, t).
Proof using Hmem.
  intros ((Hf & Hc) & Ha & Ht & Hw & Hm) Hs. cbn [fst snd] in *. pose proof (zlen_nonneg (content q)).
  pose proof (zlen_nonneg d). destruct (write_frame d ltac:(lia)) as (mb & mb1 & e & E1 & E2 & Wf & Fb).
  unfold aubuf_write. rewrite E1. unfold mbind, M_bind, of_option. rewrite E2. unfold aubuf_append. rewrite Hmem. cbn [negb].
  unfold mbind, M_bind, modify, mret, M_ret. cbn [max_sz cur_sz afl set_afl].
  rewrite <- (frame_len _ Wf), Fb, Hc, Ha, usz_small by lia. rewrite Hm.
  set (mbf := set_pos 0 mb1) in *. assert (Hq : frames q = map frame_bytes (afl ab)) by (by rewrite <- Ha).
  assert (Hz : zlen (concat (frames q ++ [d])) = zlen (content q) + zlen d).
  { unfold content. by rewrite concat_app, zlen_app, concat_cons, app_nil_r. }
  eexists. split; [done|]. unfold q_write. rewrite Hz.
  assert (Hall : Forall mb_wf (afl ab ++ [mbf])) by (apply Forall_app; split; [done|by constructor]).
  assert (Hmap : map frame_bytes (afl ab ++ [mbf]) = frames q ++ [d]) by (rewrite map_app, Hq; cbn; by rewrite Fb).
  destruct (negb (max =? 0) && (max <? zlen (content q) + zlen d)).
  - destruct (afl ab ++ [mbf]) as [|af l] eqn:El; [by destruct (afl ab)|].
    apply Forall_cons in Hall as [Waf Hl]. cbn [map] in Hmap. rewrite <- Hmap in Hz. cbn [concat] in Hz.
    rewrite zlen_app, (frame_len af Waf) in Hz. destruct (left_room af Waf) as [? _].
    pose proof (zlen_nonneg (concat (map frame_bytes l))).
    rewrite <- Hmap. cbn [tail]. split; [split; [done|]|split; [by cbn; rewrite <- Ha|by cbn]].
    cbn [cur_sz set_afl]. rewrite usz_small by lia. unfold abs, content in *. cbn [frames afl set_afl]. lia.
  - split; [split; [done|]|split; [unfold abs; cbn [afl filling set_afl]; rewrite Hmap; by rewrite <- Ha|by cbn]].
    cbn [cur_sz set_afl]. unfold abs, content in *. cbn [frames afl set_afl]. rewrite Hmap. lia.
Qed.

Lemma read_refines ab wish max q t p :
  refines ab wish max (q, t) -> zlen (content q) <= SIZE_MAX ->
  exists ab', aubuf_read p ab = Some ((q_read wish p q).1, ab') /\ refines ab' wish max ((q_read wish p q).2, t).
Proof.
  intros ((Hf & Hc) & Ha & Ht & Hw & Hm) Hs. cbn [fst snd] in *. unfold aubuf_read, q_read.
  destruct (Z.eqb_spec (zlen p) 0) as [E0|E0]; [by exists ab|]. pose proof (zlen_nonneg p).
  unfold mbind, M_bind, gets, modify, mret, M_ret. cbn [id]. rewrite Hc, Hw. rewrite Ha.
  assert (Hfl : filling ab = fill q) by (by rewrite <- Ha). rewrite Hfl.
  set (short := zlen (content q) <? (if fill q then wish else zlen p)).
  assert (Hq : frames q = map frame_bytes (afl ab)) by (by rewrite <- Ha).
  destruct (short && fill q) eqn:Esf; cbn [fst snd].
  - apply andb_true_iff in Esf as [Es Ef]. rewrite Es. eexists. split; [done|].
    split; [split; [done|]|split; [|by cbn]].
    + cbn [cur_sz set_filling]. rewrite Hc, Ha. unfold content, abs. cbn [frames afl set_filling]. by rewrite <- Hq.
    + unfold abs. cbn [afl filling set_filling fst]. by rewrite <- Hq.
  - destruct (read_frames_run (afl ab) (zlen p) Hf ltac:(lia)) as (l' & E & W & P); rewrite <- Hq in *; [done|].
    change (concat (frames q)) with (content q) in E. unfold of_option. rewrite E. eexists.
    assert (Hn : Z.to_nat (zlen p) = length p) by (unfold zlen; lia). rewrite Hn in *. split; [done|].
    cbn [afl set_afl set_filling]. split; [split; [done|]|split; [|by cbn]].
    + unfold content, abs. cbn [cur_sz set_afl frames afl]. done.
    + unfold abs. cbn [afl filling set_filling set_afl fst]. by rewrite P.
Qed.

Lemma q_read_len wish p q : zlen (content (q_read wish p q).2) <= zlen (content q).
Proof.
  unfold q_read. destruct (zlen p =? 0); [done|]. destruct (_ && _); cbn [snd]; [done|].
  unfold content. cbn [frames]. rewrite pull_content. unfold zlen. rewrite length_drop. lia.
Qed.

Lemma q_write_len max d q : zlen (content (q_write max d q)) <= zlen (content q) + zlen d.
Proof.
  unfold q_write, content. cbn [frames].
  assert (H : zlen (concat (frames q ++ [d])) = zlen (concat (frames q)) + zlen d)
    by (by rewrite concat_app, zlen_app, concat_cons, app_nil_r).
  case_match; [|lia]. destruct (frames q ++ [d]) as [|f l]; [cbn in *; unfold zlen in *; cbn in *; lia|].
  cbn [tail concat] in *. rewrite zlen_app in H. pose proof (zlen_nonneg f). lia.
Qed.

Lemma exec_refines ab wish max o s :
  refines ab wish max s -> zlen (content s.1) + zlen (input [o]) <= SIZE_MAX ->
  let '(r, s') := q_exec wish max o s in
  (exists ab', exec o ab = Some (r, ab') /\ refines ab' wish max s') /\
  zlen (content s'.1) <= zlen (content s.1) + zlen (input [o]).
Proof using Hmem.
  destruct s as [q t]. intros H Hs. pose proof (zlen_nonneg (content q)).
  assert (Hi : input [o] = match o with o_write d => d | _ => [] end) by (destruct o; cbn; by rewrite ?app_nil_r).
  rewrite Hi in *. destruct o as [d|p|now ptime p|]; cbn [q_exec exec fst] in *; change (zlen (@nil Z)) with 0 in *.
  - destruct (write_refines ab wish max q t d H Hs) as (ab' & E & H'). split; [|by apply q_write_len].
    exists ab'. unfold mbind, M_bind. by rewrite E.
  - destruct (read_refines ab wish max q t p H ltac:(lia)) as (ab' & E & H'). pose proof (q_read_len wish p q).
    destruct (q_read wish p q) as [p' q']. cbn [fst snd] in *. split; [|lia].
    exists ab'. unfold mbind, M_bind. by rewrite E.
  - unfold aubuf_get. destruct (ptime =? 0); [split; [by exists ab|cbn [fst]; lia]|].
    pose proof H as (Hwf & Ha & Ht & Hw & Hm). cbn [fst snd] in Ha, Ht. set (ab1 := if ts ab =? 0 then set_ts now ab else ab).
    set (t1 := if t =? 0 then now else t).
    assert (H1 : refines ab1 wish max (q, t1)) by (unfold ab1, t1; rewrite Ht; destruct (t =? 0); by split_and!; cbn).
    assert (Ht1 : ts ab1 = t1) by (by destruct H1 as (_ & _ & ? & _)).
    unfold mbind, M_bind, modify, gets. cbn [id]. fold ab1. rewrite Ht1. destruct (now <? t1).
    { split; [by exists ab1|cbn [fst]; lia]. }
    set (ab2 := set_ts (u64 (t1 + ptime)) ab1).
    assert (H2 : refines ab2 wish max (q, u64 (t1 + ptime))) by (destruct H1 as (? & ? & ? & ? & ?); by split_and!).
    destruct (read_refines ab2 wish max q _ p H2 ltac:(lia)) as (ab' & E & H'). pose proof (q_read_len wish p q).
    destruct (q_read wish p q) as [p' q']. cbn [fst snd] in *. split; [|lia]. exists ab'. by rewrite E.
  - split; [|change (zlen (content (mk_queue [] true))) with 0; lia]. eexists. split; [done|]. destruct H as (_ & _ & _ & ? & ?). by split_and!; cbn.
Qed.

Lemma input_cons o l : input (o :: l) = input [o] ++ input l.
Proof. unfold input. cbn. by rewrite app_nil_r. Qed.

Lemma run_refines ops : forall ab wish max s, refines ab wish max s ->
  zlen (content s.1) + zlen (input ops) <= SIZE_MAX ->
  let '(rs, s') := q_run wish max ops s in exists ab', run ops ab = Some (rs, ab') /\ refines ab' wish max s'.
Proof using Hmem.
  induction ops as [|o ops IH]; intros ab wish max s H Hs; cbn [q_run run]; [by exists ab|].
  rewrite input_cons, zlen_app in Hs. pose proof (zlen_nonneg (input ops)).
  pose proof (exec_refines ab wish max o s H ltac:(lia)) as He. destruct (q_exec wish max o s) as [r s1].
  destruct He as ((ab1 & E1 & H1) & Hl). specialize (IH ab1 wish max s1 H1 ltac:(lia)).
  destruct (q_run wish max ops s1) as [rs s2]. destruct IH as (ab2 & E2 & H2). exists ab2.
  unfold mbind, M_bind. by rewrite E1, E2.
Qed.
End Runs.

(** ** The specification: a first-in first-out queue of bytes

    [starting]: the queue is being filled up to the wished size, and reads
    get silence; [due]: the time of the next timed read. *)
Record fifo := mk_fifo { stored : list Z; starting : bool; due : Z }.

Definition f_read (wish : Z) (n : nat) (s : fifo) : list Z * fifo :=
  if (n =? 0)%nat then ([], s) else
  if starting s && (zlen (stored s) <? wish) then (replicate n 0, s) else
  (take n (stored s) ++ replicate (n - length (stored s)) 0,
   mk_fifo (drop n (stored s)) (zlen (stored s) <? Z.of_nat n) (due s)).

Definition f_exec (wish : Z) (o : op) (s : fifo) : (Z * list Z) * fifo :=
  match o with
  | o_write d => ((0, []), mk_fifo (stored s ++ d) (starting s) (due s))
  | o_read p => let '(d, s) := f_read wish (length p) s in ((0, d), s)
  | o_get now ptime p =>
    if ptime =? 0 then ((EINVAL, p), s) else
    let t := if due s =? 0 then now else due s in
    if now <? t then ((ETIMEDOUT, p), mk_fifo (stored s) (starting s) t) else
    let '(d, s) := f_read wish (length p) s in
    ((0, d), mk_fifo (stored s) (starting s) (u64 (t + ptime)))
  | o_flush => ((0, []), mk_fifo [] true 0)
  end.

Fixpoint f_run (wish : Z) (l : list op) (s : fifo) : list (Z * list Z) * fifo :=
  match l with
  | [] => ([], s)
  | o :: l => let '(r, s) := f_exec wish o s in let '(rs, s) := f_run wish l s in (r :: rs, s)
  end.

(** No write passes the limit, and no read asks for more than the wished
    size. *)
Definition fits_op (wish max : Z) (o : op) (s : fifo) : bool :=
  match o with
  | o_write d => (max =? 0) || (zlen (stored s ++ d) <=? max)
  | o_read p | o_get _ _ p => zlen p <=? wish
  | o_flush => true
  end.

Fixpoint fits (wish max : Z) (l : list op) (s : fifo) : bool :=
  match l with
  | [] => true
  | o :: l => fits_op wish max o s && fits wish max l (f_exec wish o s).2
  end.

(** The bytes of a queue of frames. *)
Definition flat (s : queue * Z) : fifo := mk_fifo (content s.1) (fill s.1) s.2.

Lemma flat_read wish p q t : zlen p <= wish ->
  f_read wish (length p) (flat (q, t)) = ((q_read wish p q).1, flat ((q_read wish p q).2, t)).
Proof.
  intros Hp. unfold f_read, q_read, flat. cbn [fst snd stored starting due].
  destruct p as [|x p]; [done|]. set (n := length (x :: p)). set (c := content q).
  change (zlen (x :: p)) with (Z.of_nat n) in *. assert (Hn0 : Z.of_nat n <> 0) by (subst n; by rewrite length_cons; lia).
  rewrite (proj2 (Z.eqb_neq _ _) Hn0).
  replace (n =? 0)%nat with false by done. destruct (fill q) eqn:F.
  - destruct (Z.ltb_spec (zlen c) wish) as [Hs|Hs]; cbn [andb]; [by rewrite <- F|].
    replace (zlen c <? Z.of_nat n) with false by lia. unfold zlen in Hs.
    rewrite length_take, Nat.min_l by lia. rewrite (drop_ge (x :: p)) by (subst n; lia).
    replace (n - length c)%nat with 0%nat by lia. cbn [replicate fst snd fill]. do 2 f_equal.
    by unfold content; cbn [frames]; rewrite pull_content.
  - rewrite andb_false_r. cbn [fst snd fill]. f_equal; [f_equal|].
    + rewrite length_take. destruct (Z.ltb_spec (zlen c) (Z.of_nat n)) as [Hs|Hs]; unfold zlen in Hs.
      * by rewrite Nat.min_r, drop_replicate by lia.
      * rewrite Nat.min_l, (drop_ge (x :: p)) by (subst n; lia). by replace (n - length c)%nat with 0%nat by lia.
    + f_equal. by unfold content; cbn [frames]; rewrite pull_content.
Qed.

Lemma flat_exec wish max o s : fits_op wish max o (flat s) = true ->
  f_exec wish o (flat s) = ((q_exec wish max o s).1, flat (q_exec wish max o s).2).
Proof.
  destruct s as [q t]. destruct o as [d|p|now ptime p|]; cbn [fits_op f_exec q_exec]; intros Hf.
  - cbn [fst snd flat stored starting due] in *. unfold q_write, flat, content in *. cbn [fst snd frames fill].
    rewrite concat_app, concat_cons, app_nil_r. replace (negb (max =? 0) && _) with false by lia.
    by rewrite concat_app, concat_cons, app_nil_r.
  - rewrite (flat_read wish p q t) by lia. by destruct (q_read wish p q).
  - change (due (flat (q, t))) with t. destruct (ptime =? 0); [done|]. destruct (now <? _); [done|].
    rewrite (flat_read wish p q t) by lia. by destruct (q_read wish p q).
  - done.
Qed.

Lemma flat_run wish max ops : forall s, fits wish max ops (flat s) = true ->
  f_run wish ops (flat s) = ((q_run wish max ops s).1, flat (q_run wish max ops s).2).
Proof.
  induction ops as [|o ops IH]; intros s Hf; [done|]. cbn [fits f_run q_run] in *.
  apply andb_true_iff in Hf as [Ho Hf]. rewrite (flat_exec wish max o s Ho) in Hf |- *. cbn [snd] in Hf.
  destruct (q_exec wish max o s) as [r s1]. cbn [fst snd] in *. rewrite (IH s1 Hf). by destruct (q_run wish max ops s1).
Qed.

(** C31: the audio buffer implements a queue of bytes with silence for what is
    not there.  From a fresh buffer, every sequence of writes, reads, timed
    reads and flushes returns the codes and the samples of the first-in
    first-out queue [fifo], and leaves the bytes of the queue in the buffer,
    counted exactly: bytes come out in the order they were written, silence
    is read until the wished size is there and again after an underrun, and
    what is missing from a read is silence.  The sequences are those in which
    no write passes the maximum size (0: no limit) and no read is larger than
    the wished size: the code keeps neither the limit nor the silence
    there. *)
Theorem aubuf_refines_queue alloc_ok junk min_sz max_sz ops
  (Hmem : forall n, alloc_ok n = true) (Hmin : min_sz <> 0) (Hin : zlen (input ops) <= SIZE_MAX)
  (Hfit : fits min_sz max_sz ops (mk_fifo [] true 0) = true) :
  exists ab ab', aubuf_alloc alloc_ok 0 min_sz max_sz = (0, Some ab) /\
    let '(rs, q) := f_run min_sz ops (mk_fifo [] true 0) in
    run alloc_ok junk ops ab = Some (rs, ab') /\ concat (map frame_bytes (afl ab')) = stored q /\
    aubuf_cur_size ab' = zlen (stored q).
Proof.
  unfold aubuf_alloc. rewrite (proj2 (Z.eqb_neq _ _) Hmin), Hmem. cbn [negb Z.eqb].
  set (ab := mk_aubuf _ _ _ _ _ _). exists ab.
  change (mk_fifo [] true 0) with (flat (mk_queue [] true, 0)) in *. rewrite (flat_run _ max_sz) by done.
  pose proof (run_refines alloc_ok junk Hmem ops ab min_sz max_sz (mk_queue [] true, 0)) as H.
  destruct (q_run min_sz max_sz ops _) as [rs [q t]].
  destruct H as (ab' & E & (_ & Hc) & Ha & _); [by split_and!|done|]. cbn [fst snd] in *.
  exists ab'. split; [done|]. split; [done|]. unfold aubuf_cur_size. rewrite Hc, Ha. cbn. by rewrite <- Ha.
Qed.

Lemma aubuf_refines_queue_witness :
  exists ab ab', aubuf_alloc (fun _ => true) 0 4 6 = (0, Some ab) /\
    run (fun _ => true) (fun _ => 0) [o_write [1; 2; 3]; o_read [9; 9]; o_write [4; 5]; o_get 7 20 [9; 9; 9; 9]; o_read [9; 9]] ab
      = Some ([(0, []); (0, [0; 0]); (0, []); (0, [1; 2; 3; 4]); (0, [5; 0])], ab') /\
    concat (map frame_bytes (afl ab')) = [] /\ aubuf_cur_size ab' = 0.
Proof.
  destruct (aubuf_refines_queue (fun _ => true) (fun _ => 0) 4 6
    [o_write [1; 2; 3]; o_read [9; 9]; o_write [4; 5]; o_get 7 20 [9; 9; 9; 9]; o_read [9; 9]])
    as (ab & ab' & E & H); [done|done|zdec|reflexivity|].
  match type of H with context [f_run ?a ?b ?c] =>
    let v := eval vm_compute in (f_run a b c) in change (f_run a b c) with v in H end.
  by exists ab, ab'.
Defined.

(** ** Samples are neither lost nor reordered *)

Definition no_flush (o : op) : bool := match o with o_flush => false | _ => true end.

Lemma q_read_seg wish p q : exists seg, seg `prefix_of` (q_read wish p q).1 /\
  seg ++ content (q_read wish p q).2 = content q.
Proof.
  unfold q_read. destruct (zlen p =? 0); [by exists []; split; [apply prefix_nil|]|].
  destruct (_ && _); cbn [fst snd]; [by exists []; split; [apply prefix_nil|]|].
  eexists. split; [by apply prefix_app_r|]. unfold content. cbn [frames]. rewrite pull_content. apply take_drop.
Qed.

Lemma q_exec_seg wish o s : no_flush o = true -> exists seg, seg `prefix_of` (q_exec wish 0 o s).1.2 /\
  seg ++ content (q_exec wish 0 o s).2.1 = content s.1 ++ input [o].
Proof.
  destruct s as [q t]. intros Ho. assert (Hi : input [o] = match o with o_write d => d | _ => [] end) by (destruct o; cbn; by rewrite ?app_nil_r).
  rewrite Hi. destruct o as [d|p|now ptime p|]; [| | |done]; cbn [q_exec fst]; rewrite ?app_nil_r.
  - exists []. split; [apply prefix_nil|]. cbn. unfold content. cbn [frames]. by rewrite concat_app, concat_cons, app_nil_r.
  - destruct (q_read_seg wish p q) as (seg & H1 & H2). destruct (q_read wish p q). by exists seg.
  - destruct (ptime =? 0); [by exists []; split; [apply prefix_nil|]|].
    destruct (now <? _); [by exists []; split; [apply prefix_nil|]|].
    destruct (q_read_seg wish p q) as (seg & H1 & H2). destruct (q_read wish p q). by exists seg.
Qed.

Lemma q_run_segs wish ops : Forall (fun o => no_flush o = true) ops -> forall s,
  exists segs, Forall2 (fun seg (r : Z * list Z) => seg `prefix_of` r.2) segs (q_run wish 0 ops s).1 /\
    concat segs ++ content (q_run wish 0 ops s).2.1 = content s.1 ++ input ops.
Proof.
  induction 1 as [|o ops Ho _ IH]; intros s; cbn [q_run].
  { exists []. split; [constructor|]. cbn. by rewrite app_nil_r. }
  destruct (q_exec_seg wish o s Ho) as (seg & P1 & E1). destruct (q_exec wish 0 o s) as [r s1].
  destruct (IH s1) as (segs & P2 & E2). destruct (q_run wish 0 ops s1) as [rs s2]. cbn [fst snd] in *.
  exists (seg :: segs). split; [by constructor|]. rewrite input_cons. cbn [concat].
  by rewrite <- app_assoc, E2, !app_assoc, E1.
Qed.

(** Without a limit and without flushes no sample is lost, repeated or
    reordered: whatever the interleaving of writes and (timed) reads, every
    read returns a run of samples followed by its padding, and those runs in
    order, followed by the samples still in the buffer, are the samples
    written. *)
Theorem aubuf_lossless alloc_ok junk min_sz ops
  (Hmem : forall n, alloc_ok n = true) (Hmin : min_sz <> 0) (Hin : zlen (input ops) <= SIZE_MAX)
  (Hops : Forall (fun o => no_flush o = true) ops) :
  exists ab ab' rs segs, aubuf_alloc alloc_ok 0 min_sz 0 = (0, Some ab) /\ run alloc_ok junk ops ab = Some (rs, ab') /\
    Forall2 (fun seg (r : Z * list Z) => seg `prefix_of` r.2) segs rs /\
    concat segs ++ concat (map frame_bytes (afl ab')) = input ops.
Proof.
  unfold aubuf_alloc. rewrite (proj2 (Z.eqb_neq _ _) Hmin), Hmem. cbn [negb Z.eqb].
  set (ab := mk_aubuf _ _ _ _ _ _). exists ab.
  pose proof (run_refines alloc_ok junk Hmem ops ab min_sz 0 (mk_queue [] true, 0)) as H.
  destruct (q_run_segs min_sz ops Hops (mk_queue [] true, 0)) as (segs & P & E).
  destruct (q_run min_sz 0 ops _) as [rs [q t]]. destruct H as (ab' & Er & _ & Ha & _); [by split_and!|done|].
  exists ab', rs, segs. split_and!; try done. cbn [fst snd] in *. change (input ops) with (content (mk_queue [] true) ++ input ops). by rewrite <- E, <- Ha.
Qed.

Lemma aubuf_lossless_witness :
  exists ab ab' rs segs, aubuf_alloc (fun _ => true) 0 2 0 = (0, Some ab) /\
    run (fun _ => true) (fun _ => 0) [o_write [1; 2; 3]; o_read [9; 9]; o_write [4]; o_read [9; 9; 9]] ab = Some (rs, ab') /\
    Forall2 (fun seg (r : Z * list Z) => seg `prefix_of` r.2) segs rs /\
    concat segs ++ concat (map frame_bytes (afl ab')) = [1; 2; 3; 4].
Proof.
  apply (aubuf_lossless (fun _ => true) (fun _ => 0) 2 [o_write [1; 2; 3]; o_read [9; 9]; o_write [4]; o_read [9; 9; 9]]);
    [done|done|zdec|by repeat constructor].
Defined.

(** A read that is larger than the wished size is not padded: with two
    wished bytes and three in the buffer, a first read of five bytes leaves
    the last two bytes of the caller's memory as they were. *)
Theorem aubuf_stale_tail :
  exists ab ab', aubuf_alloc (fun _ => true) 0 2 0 = (0, Some ab) /\
    run (fun _ => true) (fun _ => 0) [o_write [1; 2; 3]; o_read [77; 77; 77; 77; 77]] ab
      = Some ([(0, []); (0, [1; 2; 3; 77; 77])], ab').
Proof. do 2 eexists. split; [reflexivity|]. vm_compute. reflexivity. Qed.

(** The limit is not kept: only one frame is dropped for a frame that is larger. *)
Example aubuf_limit_passed :
  exists ab rs ab', aubuf_alloc (fun _ => true) 0 2 10 = (0, Some ab) /\
    run (fun _ => true) (fun _ => 0) [o_write [1]; o_write (replicate 9 2); o_write (replicate 10 3)] ab = Some (rs, ab') /\
    aubuf_cur_size ab' = 19.
Proof. do 3 eexists. split; [reflexivity|]. split; [vm_compute; reflexivity|reflexivity]. Qed.
End Ab.
