(* ===== verification/Tmr.v ===== *)
(** * Timers

    Models src/re/src/tmr/tmr.c: the timers of a thread in a list that is
    ordered by expiry.  Timer objects are numbered; the list is the sequence
    of the linked ones (ReListProps.v relates such sequences to the pointers
    of list.c).  Readings of the clock and the handlers are parameters: the
    clock is [gettimeofday], which need not be monotonic. *)

From Stdlib Require Import Sorted.
From stdpp Require Import gmap.
From S2P Require Import Prelude Effects.

Module Tm.

Record tmr := mk_tmr { th : option Z; arg : Z; jfs : Z }.

(** [reads]: how often the clock was read. *)
Record state := mk_state { tmrs : gmap nat tmr; tmrl : list nat; reads : nat }.

Definition set_tmr (t : nat) (d : tmr) (s : state) : state := mk_state (<[t := d]> (tmrs s)) (tmrl s) (reads s).
Definition set_tmrl (l : list nat) (s : state) : state := mk_state (tmrs s) l (reads s).

Abbreviation TM := (M state).

(** A timer object that does not exist is no timer. *)
Definition get_tmr (t : nat) : TM tmr := fun s => d ← tmrs s !! t; Some (d, s).

Definition jfs_of (s : state) (t : nat) : Z := match tmrs s !! t with Some d => jfs d | None => 0 end.

(** [list_insert_before] the first element with [p], or [list_append]. *)
Fixpoint insert_before_first (p : nat -> bool) (t : nat) (l : list nat) : list nat :=
  match l with
  | [] => [t]
  | x :: l => if p x then t :: x :: l else x :: insert_before_first p t l
  end.

(** [list_insert_after] the last element with [p], or [list_prepend]. *)
Definition insert_after_last (p : nat -> bool) (t : nat) (l : list nat) : list nat :=
  rev (insert_before_first p t (rev l)).

Section Clock.
Context (clock : nat -> Z) (handler : Z -> Z -> TM unit).

Definition tmr_jiffies : TM Z :=
  fun s => Some (u64 (clock (reads s)), mk_state (tmrs s) (tmrl s) (S (reads s))).

(** [memset]: the object is no longer running. *)
Definition tmr_init (t : nat) : TM unit := modify (set_tmr t (mk_tmr None 0 0)).

Definition inspos_handler (s : state) (now : Z) (t : nat) : bool := jfs_of s t <=? now.
Definition inspos_handler_0 (s : state) (now : Z) (t : nat) : bool := now <? jfs_of s t.

Definition list_unlink (t : nat) : TM unit := modify (fun s => set_tmrl (filter (fun x => x <> t) (tmrl s)) s).

Definition tmr_start (t : nat) (delay : Z) (h : option Z) (a : Z) : TM unit :=
  d ← get_tmr t;
  when (bool_decide (is_Some (th d))) (list_unlink t) ;;
  modify (set_tmr t (mk_tmr h a (jfs d))) ;;
  match h with
  | None => mret tt
  | Some _ =>
    now ← tmr_jiffies;
    let j := u64 (delay + now) in
    modify (set_tmr t (mk_tmr h a j)) ;;
    modify (fun s => set_tmrl
      (if delay =? 0 then insert_before_first (inspos_handler_0 s j) t (tmrl s)
       else insert_after_last (inspos_handler s j) t (tmrl s)) s)
  end.

Definition tmr_cancel (t : nat) : TM unit := tmr_start t 0 None 0.

Definition tmr_isrunning (t : nat) : TM bool := d ← get_tmr t; mret (bool_decide (is_Some (th d))).

(** The loop of [tmr_poll]; the result lists the timers it took, in order. *)
Fixpoint poll_loop (fuel : nat) (j : Z) : TM (list nat) :=
  match fuel with
  | O => ub
  | S fuel =>
    l ← gets tmrl;
    match l with
    | [] => mret []
    | t :: _ =>
      d ← get_tmr t;
      if j <? jfs d then mret [] else
      modify (set_tmr t (mk_tmr None (arg d) (jfs d))) ;;
      list_unlink t ;;
      match th d with Some h => handler h (arg d) | None => mret tt end ;;
      ts ← poll_loop fuel j;
      mret (t :: ts)
    end
  end.

Definition tmr_poll (fuel : nat) : TM (list nat) := j ← tmr_jiffies; poll_loop fuel j.

Definition tmr_next_timeout : TM Z :=
  jif ← tmr_jiffies;
  l ← gets tmrl;
  match l with
  | [] => mret 0
  | t :: _ =>
    d ← get_tmr t;
    if jfs d <=? jif then mret 1
    else mret (if jfs d - jif <? 2000 then jfs d - jif else 2000)
  end.

Definition tmr_get_expire (t : nat) : TM Z :=
  d ← get_tmr t;
  match th d with
  | None => mret 0
  | Some _ => j ← tmr_jiffies; mret (if j <? jfs d then jfs d - j else 0)
  end.

End Clock.

(** ** The invariant

    The list holds exactly the running timers, once each, by expiry. *)

Definition sorted_by (f : nat -> Z) (l : list nat) : Prop := StronglySorted (fun a b => f a <= f b) l.

Definition wf (s : state) : Prop :=
  NoDup (tmrl s) /\ sorted_by (jfs_of s) (tmrl s) /\
  forall t, t ∈ tmrl s <-> exists d, tmrs s !! t = Some d /\ is_Some (th d).

(** Where a timer goes: behind all that expire no later. *)
Definition slot (f : nat -> Z) (j : Z) (t : nat) (l : list nat) : list nat :=
  filter (fun x => f x <= j) l ++ [t] ++ filter (fun x => j < f x) l.

Lemma filter_none (P : nat -> Prop) `{!forall x, Decision (P x)} l : Forall (fun x => ~ P x) l -> filter P l = [].
Proof. induction 1 as [|x l Hx _ IH]; [done|]. by rewrite filter_cons, decide_False. Qed.
Lemma filter_all (P : nat -> Prop) `{!forall x, Decision (P x)} l : Forall P l -> filter P l = l.
Proof. induction 1 as [|x l Hx _ IH]; [done|]. by rewrite filter_cons, decide_True, IH. Qed.

Lemma sorted_split f j l : sorted_by f l -> l = filter (fun x => f x <= j) l ++ filter (fun x => j < f x) l.
Proof.
  intros Hs. induction Hs as [|a l Hs IH Ha]; [done|]. rewrite !filter_cons.
  destruct (decide (f a <= j)) as [H|H].
  - rewrite decide_False by lia. cbn. by rewrite <- IH.
  - rewrite decide_True by lia.
    assert (E : filter (fun x => f x <= j) l = []).
    { apply filter_none. eapply Forall_impl; [exact Ha|]. cbn. lia. }
    rewrite E in *. cbn in *. by rewrite <- IH.
Qed.

(** The forward scan of a timer without delay. *)
Lemma before_first_slot f j t l : sorted_by f l ->
  insert_before_first (fun x => j <? f x) t l = slot f j t l.
Proof.
  intros Hs. unfold slot. induction Hs as [|a l Hs IH Ha]; [done|]. cbn [insert_before_first]. rewrite !filter_cons.
  destruct (Z.ltb_spec j (f a)).
  - rewrite (decide_False (P := f a <= j)), (decide_True (P := j < f a)) by lia.
    rewrite (filter_none (fun x => f x <= j)), filter_all; [done| |];
      (eapply Forall_impl; [exact Ha|]; cbn; lia).
  - rewrite decide_True, decide_False by lia. by rewrite IH.
Qed.

Lemma before_first_app p t a b : Forall (fun x => p x = false) a ->
  insert_before_first p t (a ++ b) = a ++ insert_before_first p t b.
Proof. induction 1 as [|x a Hx _ IH]; [done|]. cbn. by rewrite Hx, IH. Qed.

Lemma filter_forall (P : nat -> Prop) `{!forall x, Decision (P x)} l : Forall P (filter P l).
Proof. apply Forall_forall. intros x Hx. by apply list_elem_of_filter in Hx as [? _]. Qed.

(** The backward scan of a timer with a delay. *)
Lemma after_last_slot f j t l : sorted_by f l ->
  insert_after_last (fun x => f x <=? j) t l = slot f j t l.
Proof.
  intros Hs. unfold insert_after_last. rewrite (sorted_split f j l Hs) at 1. rewrite rev_app_distr, before_first_app.
  - unfold slot. set (b := filter (fun x => j < f x) l). set (a := filter (fun x => f x <= j) l).
    assert (Ha : Forall (fun x => f x <= j) a) by apply filter_forall.
    assert (E : insert_before_first (fun x => f x <=? j) t (rev a) = t :: rev a).
    { apply Forall_rev in Ha. destruct Ha as [|x r Hx _]; [done|]. cbn. by rewrite (proj2 (Z.leb_le _ _) Hx). }
    rewrite E. rewrite rev_app_distr. cbn [rev]. rewrite !rev_involutive. by rewrite <- app_assoc.
  - apply Forall_rev. eapply Forall_impl; [apply filter_forall|]. cbn. lia.
Qed.

Lemma sorted_ext f g l : (forall x, x ∈ l -> f x = g x) -> sorted_by f l -> sorted_by g l.
Proof.
  intros He Hs. induction Hs as [|a l Hs IH Ha]; [constructor|]. constructor.
  - apply IH. intros x Hx. apply He. by right.
  - rewrite Forall_forall in *. intros x Hx. rewrite <- !He by (by constructor). by apply Ha.
Qed.

Lemma sorted_filter f (P : nat -> Prop) `{!forall x, Decision (P x)} l : sorted_by f l -> sorted_by f (filter P l).
Proof.
  intros Hs. induction Hs as [|a l Hs IH Ha]; [constructor|]. rewrite filter_cons. destruct (decide (P a)); [|done].
  constructor; [done|]. rewrite Forall_forall in *. intros x [_ Hx]%list_elem_of_filter. by apply Ha.
Qed.

Lemma sorted_app f a b : sorted_by f a -> sorted_by f b -> (forall x y, x ∈ a -> y ∈ b -> f x <= f y) -> sorted_by f (a ++ b).
Proof.
  intros Ha Hb H. induction Ha as [|x a Hs IH Hx]; [done|]. cbn. constructor.
  - apply IH. intros y z Hy Hz. apply H; [by right|done].
  - apply Forall_app. split; [done|]. apply Forall_forall. intros y Hy. apply H; [by left|done].
Qed.

Lemma slot_sorted f j t l : sorted_by f l -> f t = j -> sorted_by f (slot f j t l).
Proof.
  intros Hs Ht. unfold slot. apply sorted_app; [by apply sorted_filter| |].
  - cbn. constructor; [by apply sorted_filter|]. eapply Forall_impl; [apply filter_forall|]. cbn. lia.
  - intros x y [Hx _]%list_elem_of_filter [->|[Hy _]%list_elem_of_filter]%elem_of_cons; lia.
Qed.

Lemma slot_perm f j t l : slot f j t l ≡ₚ t :: l.
Proof.
  unfold slot. rewrite Permutation_app_comm. cbn. constructor. rewrite Permutation_app_comm.
  induction l as [|x l IH]; [done|]. rewrite !filter_cons. destruct (decide (f x <= j)).
  - rewrite decide_False by lia. cbn. by constructor.
  - rewrite decide_True by lia. rewrite <- Permutation_middle. by constructor.
Qed.

(** The list without a timer. *)
Definition without (t : nat) (l : list nat) : list nat := filter (fun x => x <> t) l.

Lemma without_id t l : t ∉ l -> without t l = l.
Proof. intros H. apply filter_all, Forall_forall. intros x Hx ->. done. Qed.

Definition started (clock : nat -> Z) (s : state) (t : nat) (delay : Z) (h : option Z) (a j0 : Z) : state :=
  let l := without t (tmrl s) in
  match h with
  | None => mk_state (<[t := mk_tmr None a j0]> (tmrs s)) l (reads s)
  | Some _ =>
    let j := u64 (delay + u64 (clock (reads s))) in
    mk_state (<[t := mk_tmr h a j]> (tmrs s)) (slot (jfs_of s) j t l) (S (reads s))
  end.

Lemma slot_ext f g j t l : (forall x, x ∈ l -> f x = g x) -> slot f j t l = slot g j t l.
Proof.
  intros He. unfold slot. f_equal; [|f_equal].
  all: induction l as [|x l IH]; [done|]; rewrite !filter_cons, He by (by left);
    rewrite IH; [done|intros y Hy; apply He; by right].
Qed.

Lemma start_run clock s t delay h a d : wf s -> tmrs s !! t = Some d ->
  tmr_start clock t delay h a s = Some (tt, started clock s t delay h a (jfs d)).
Proof.
  intros (Hnd & Hs & Hin) Hd. unfold tmr_start, get_tmr. unfold mbind, M_bind, modify. rewrite Hd. cbn [mbind option_bind].
  assert (E : when (bool_decide (is_Some (th d))) (list_unlink t) s = Some (tt, set_tmrl (without t (tmrl s)) s)).
  { case_bool_decide as Hb; [done|]. cbn. rewrite without_id; [by destruct s|].
    intros Ht. apply Hin in Ht as (d' & Hd' & ?). congruence. }
  rewrite E. unfold started. destruct h as [x|]; [|done]. unfold tmr_jiffies.
  cbn [set_tmr set_tmrl tmrs tmrl reads]. set (j := u64 _).
  assert (Hl : sorted_by (jfs_of s) (without t (tmrl s))) by (by apply sorted_filter).
  assert (He : forall y, y ∈ without t (tmrl s) -> jfs_of s y = jfs_of (mk_state (<[t := mk_tmr (Some x) a j]>
    (<[t := mk_tmr (Some x) a (jfs d)]> (tmrs s))) (without t (tmrl s)) (S (reads s))) y).
  { intros y [Hy _]%list_elem_of_filter. unfold jfs_of. cbn. by rewrite !lookup_insert_ne. }
  do 3 f_equal. unfold set_tmrl. cbn [tmrs tmrl reads]. f_equal; [cbn; apply insert_insert_eq|].
  rewrite (slot_ext _ _ _ _ _ He). destruct (delay =? 0).
  - apply before_first_slot. by eapply sorted_ext.
  - apply after_last_slot. by eapply sorted_ext.
Qed.

Lemma started_wf clock s t delay h a j0 : wf s -> is_Some (tmrs s !! t) -> wf (started clock s t delay h a j0).
Proof.
  intros (Hnd & Hs & Hin) [d Hd].
  assert (Hl : NoDup (without t (tmrl s))) by (by apply NoDup_filter).
  assert (Hso : sorted_by (jfs_of s) (without t (tmrl s))) by (by apply sorted_filter).
  assert (Ht : t ∉ without t (tmrl s)) by (by intros [? _]%list_elem_of_filter).
  assert (Hm : forall x, x ∈ without t (tmrl s) <-> x <> t /\ exists d, tmrs s !! x = Some d /\ is_Some (th d)).
  { intros x. unfold without. rewrite list_elem_of_filter. by rewrite Hin. }
  unfold started. destruct h as [x|].
  - set (j := u64 _). set (s' := mk_state _ _ _). assert (Hj : jfs_of s' t = j) by (unfold jfs_of; cbn; by rewrite lookup_insert_eq).
    assert (He : forall y, y ∈ without t (tmrl s) -> jfs_of s y = jfs_of s' y).
    { intros y [Hy _]%list_elem_of_filter. unfold jfs_of. cbn. by rewrite lookup_insert_ne. }
    split; [cbn; rewrite slot_perm; by constructor|]. split.
    + change (tmrl s') with (slot (jfs_of s) j t (without t (tmrl s))). rewrite (slot_ext _ _ _ _ _ He).
      apply slot_sorted; [by eapply sorted_ext|done].
    + intros y. cbn [tmrl tmrs s']. rewrite slot_perm, elem_of_cons, Hm. destruct (decide (y = t)) as [->|Hy].
      * rewrite lookup_insert_eq. split; [|by left]. intros _. by eexists.
      * rewrite lookup_insert_ne by done. split; [intros [?|[_ ?]]; done|by right].
  - split; [done|]. split.
    + eapply sorted_ext; [|exact Hso]. intros y [Hy _]%list_elem_of_filter. unfold jfs_of. cbn. by rewrite lookup_insert_ne.
    + intros y. cbn [tmrl tmrs]. rewrite Hm. destruct (decide (y = t)) as [->|Hy].
      * rewrite lookup_insert_eq. split; [by intros []|]. intros (? & [= <-] & [? [=]]).
      * rewrite lookup_insert_ne by done. split; [by intros []|done].
Qed.

(** One turn of the poll loop in front of the handler. *)
Definition expired (s : state) (t : nat) (d : tmr) : state :=
  mk_state (<[t := mk_tmr None (arg d) (jfs d)]> (tmrs s)) (without t (tmrl s)) (reads s).

Lemma expired_wf s t d : wf s -> tmrs s !! t = Some d -> wf (expired s t d).
Proof.
  intros H Hd. pose proof (started_wf (fun _ => 0) s t 0 None (arg d) (jfs d) H ltac:(by eexists)) as H'. exact H'.
Qed.

(** The timers that are due. *)
Definition due (j : Z) (s : state) : list nat := filter (fun t => jfs_of s t <= j) (tmrl s).

Lemma due_head j s t d l : wf s -> tmrl s = t :: l -> tmrs s !! t = Some d -> jfs d <= j ->
  tmrl (expired s t d) = l /\ (length (due j (expired s t d)) < length (due j s))%nat.
Proof.
  intros (Hnd & _ & _) Hl Hd Hj. rewrite Hl in Hnd. apply NoDup_cons in Hnd as [Ht Hnd].
  assert (El : tmrl (expired s t d) = l).
  { cbn. rewrite Hl. unfold without. rewrite filter_cons, decide_False by (intros H; by apply H). by apply without_id. }
  split; [done|]. unfold due. rewrite El, Hl, filter_cons, decide_True by (unfold jfs_of; by rewrite Hd).
  cbn [length]. apply Nat.lt_succ_r. apply Nat.eq_le_incl. f_equal.
  clear El Hl. induction l as [|x l IH]; [done|]. apply not_elem_of_cons in Ht as [Hx Ht]. apply NoDup_cons in Hnd as [_ Hnd].
  rewrite !filter_cons.
  assert (E : jfs_of (expired s t d) x = jfs_of s x) by (unfold jfs_of; cbn; by rewrite lookup_insert_ne).
  rewrite E, (IH Ht Hnd). done.
Qed.

Section Poll.
Context (clock : nat -> Z) (handler : Z -> Z -> TM unit).

(** What the handlers may do: use timers, but arm none that is due at once. *)
Definition handlers_ok (j : Z) : Prop := forall h a s, wf s ->
  exists s', handler h a s = Some (tt, s') /\ wf s' /\ (length (due j s') <= length (due j s))%nat.

(** Nothing to do for the loop. *)
Definition idle (j : Z) (s : state) : bool := match tmrl s with [] => true | t :: _ => j <? jfs_of s t end.

Lemma none_due j s : wf s -> idle j s = true -> due j s = [].
Proof.
  intros (_ & Hs & _) H. unfold due, idle in *. apply filter_none. destruct Hs as [|t l _ Ht]; [constructor|].
  constructor; [lia|]. eapply Forall_impl; [exact Ht|]. cbn. lia.
Qed.

Lemma head_known s t l : wf s -> tmrl s = t :: l -> exists d h, tmrs s !! t = Some d /\ th d = Some h.
Proof.
  intros (_ & _ & Hin) Hl. destruct (proj1 (Hin t)) as (d & Hd & h & Hh); [rewrite Hl; by left|]. by exists d, h.
Qed.

(** One turn of the loop. *)
Lemma poll_step fuel j s t l d h : tmrl s = t :: l -> tmrs s !! t = Some d -> th d = Some h -> jfs d <= j ->
  poll_loop handler (S fuel) j s =
    match handler h (arg d) (expired s t d) with
    | Some (_, s') => match poll_loop handler fuel j s' with Some (ts, s'') => Some (t :: ts, s'') | None => None end
    | None => None
    end.
Proof.
  intros Hl Hd Hh Hj. cbn [poll_loop]. unfold mbind, M_bind, gets, get_tmr, modify. rewrite Hl, Hd. cbn [mbind option_bind].
  replace (j <? jfs d) with false by lia. rewrite Hh. done.
Qed.

Lemma poll_stop fuel j s : wf s -> idle j s = true ->
  poll_loop handler (S fuel) j s = Some ([], s).
Proof.
  unfold idle. intros Hwf H. cbn [poll_loop]. unfold mbind, M_bind, gets. destruct (tmrl s) as [|t l] eqn:Hl; [done|].
  destruct (head_known s t l Hwf Hl) as (d & h & Hd & _). unfold get_tmr. rewrite Hd. cbn [mbind option_bind].
  unfold jfs_of in H. rewrite Hd in H. by rewrite H.
Qed.

Lemma poll_loop_run j : handlers_ok j -> forall fuel s, wf s -> (length (due j s) < fuel)%nat ->
  exists ts s', poll_loop handler fuel j s = Some (ts, s') /\ wf s' /\ due j s' = [].
Proof.
  intros Hh. induction fuel as [|fuel IH]; intros s Hwf Hf; [lia|].
  destruct (idle j s) eqn:Hn.
  { exists [], s. split; [by apply poll_stop|]. split; [done|by apply none_due]. }
  unfold idle in Hn. destruct (tmrl s) as [|t l] eqn:Hl; [done|]. destruct (head_known s t l Hwf Hl) as (d & h & Hd & Hth).
  unfold jfs_of in Hn. rewrite Hd in Hn. rewrite (poll_step fuel j s t l d h) by (done || lia).
  destruct (due_head j s t d l Hwf Hl Hd ltac:(lia)) as [_ Hlt].
  destruct (Hh h (arg d) (expired s t d) (expired_wf s t d Hwf Hd)) as (s1 & -> & Hwf1 & Hle).
  destruct (IH s1 Hwf1 ltac:(lia)) as (ts & s2 & -> & H2). by exists (t :: ts), s2.
Qed.
End Poll.

(** ** Reachable states *)

(** A thread: fresh timers are initialised, timers are started and cancelled,
    the main loop polls. *)
Inductive reach (clock : nat -> Z) (handler : Z -> Z -> TM unit) : state -> Prop :=
| r_empty : reach clock handler (mk_state ∅ [] 0)
| r_init s t s' : reach clock handler s -> tmrs s !! t = None -> tmr_init t s = Some (tt, s') -> reach clock handler s'
| r_start s t delay h a s' : reach clock handler s -> tmr_start clock t delay h a s = Some (tt, s') -> reach clock handler s'
| r_poll s fuel ts s' : reach clock handler s -> tmr_poll clock handler fuel s = Some (ts, s') -> reach clock handler s'.

Lemma init_wf s t s' : wf s -> tmrs s !! t = None -> tmr_init t s = Some (tt, s') -> wf s'.
Proof.
  intros (Hnd & Hs & Hin) Ht [= <-].
  assert (Hnt : t ∉ tmrl s) by (intros (d & Hd & _)%Hin; congruence).
  split; [done|]. split.
  - eapply sorted_ext; [|exact Hs]. intros x Hx. unfold jfs_of. cbn. rewrite lookup_insert_ne; [done|]. by intros ->.
  - intros x. cbn. rewrite Hin. destruct (decide (x = t)) as [->|Hx]; [|by rewrite lookup_insert_ne].
    rewrite lookup_insert_eq, Ht. split; [by intros (? & ? & _)|]. intros (? & [= <-] & [? [=]]).
Qed.

Lemma start_wf clock t delay h a : keeps wf (tmr_start clock t delay h a).
Proof.
  intros s [] s' Hwf E. destruct (tmrs s !! t) as [d|] eqn:Hd.
  - rewrite (start_run clock s t delay h a d Hwf Hd) in E. injection E as <-. apply started_wf; [done|by eexists].
  - unfold tmr_start, get_tmr, mbind, M_bind in E. by rewrite Hd in E.
Qed.

Lemma reads_wf clock s j s' : wf s -> tmr_jiffies clock s = Some (j, s') -> wf s'.
Proof. by intros H [= <- <-]. Qed.

Lemma poll_wf clock handler fuel : (forall h a, keeps wf (handler h a)) -> keeps wf (tmr_poll clock handler fuel).
Proof.
  intros Hh. unfold tmr_poll. apply keeps_bind; [intros s j s' Hwf E; by eapply reads_wf|]. intros j.
  induction fuel as [|fuel IH]; intros s ts s' Hwf E; [done|].
  destruct (tmrl s) as [|t l] eqn:Hl; [rewrite poll_stop in E by (done || by unfold idle; rewrite Hl); by injection E as _ <-|].
  destruct (head_known s t l Hwf Hl) as (d & h & Hd & Hth).
  destruct (Z.ltb_spec j (jfs d)) as [Hj|Hj].
  { rewrite poll_stop in E; [by injection E as _ <-|done|]. unfold idle, jfs_of. rewrite Hl, Hd. lia. }
  rewrite (poll_step handler fuel j s t l d h) in E by (done || lia).
  destruct (handler h (arg d) _) as [[[] s1]|] eqn:E1; [|done].
  destruct (poll_loop handler fuel j s1) as [[ts1 s2]|] eqn:E2; [|done]. injection E as _ <-.
  eapply IH; [|exact E2]. eapply Hh; [|exact E1]. by apply expired_wf.
Qed.

Lemma reach_wf clock handler s : (forall h a, keeps wf (handler h a)) -> reach clock handler s -> wf s.
Proof.
  intros Hh Hr. induction Hr as [|s t s' _ IH Ht E|s t delay h a s' _ IH E|s fuel ts s' _ IH E].
  - split; [constructor|]. split; [constructor|]. intros t. cbn. split; [by intros ?%not_elem_of_nil|by intros (? & ? & _)].
  - by eapply init_wf.
  - by eapply start_wf.
  - by eapply poll_wf.
Qed.

(** In every reachable state the list holds exactly the running timers,
    each once and ordered by expiry, whatever the clock does and whichever
    timers the handlers start or cancel; and starting a timer is defined and
    puts it behind every timer that expires no later, so that timers of the
    same expiry fire in the order they were started, the delay of 0 that has
    a scan of its own included. *)
Theorem timers_ordered clock handler s (Hh : forall h a, keeps wf (handler h a)) (Hr : reach clock handler s) :
  wf s /\ forall t delay h a, is_Some (tmrs s !! t) ->
    exists s', tmr_start clock t delay (Some h) a s = Some (tt, s') /\
      tmrl s' = slot (jfs_of s) (jfs_of s' t) t (without t (tmrl s)).
Proof.
  pose proof (reach_wf clock handler s Hh Hr) as Hwf. split; [done|]. intros t delay h a [d Hd]. eexists. split; [by apply start_run|].
  cbn. unfold jfs_of at 3. cbn. by rewrite lookup_insert_eq.
Qed.

(** A timer that is started to expire later than [j] is not due at [j]. *)
Lemma start_not_due clock j s t delay h a j0 :
  j < u64 (delay + u64 (clock (reads s))) ->
  (length (due j (started clock s t delay (Some h) a j0)) <= length (due j s))%nat.
Proof.
  intros Hj. unfold due, started. set (n := u64 _) in *. cbn [tmrl]. rewrite slot_perm, filter_cons.
  set (s' := mk_state _ _ _). assert (E : jfs_of s' t = n) by (unfold jfs_of; cbn; by rewrite lookup_insert_eq).
  rewrite decide_False by lia. unfold without. generalize (tmrl s). intros l.
  induction l as [|x l IH]; [done|]. rewrite !filter_cons. destruct (decide (x <> t)) as [Hx|Hx].
  - assert (Ex : jfs_of s' x = jfs_of s x) by (unfold jfs_of; cbn; by rewrite lookup_insert_ne).
    rewrite filter_cons, Ex. destruct (decide (jfs_of s x <= j)); cbn [length]; lia.
  - destruct (decide (jfs_of s x <= j)); cbn [length]; lia.
Qed.

(** A poll ends with no due timer left: if the handlers arm no timer that
    is due at once (they may restart themselves, start and cancel others), the
    loop runs at most once per linked timer, and then every timer in the list
    expires after the time of the poll. *)
Theorem timers_poll_ends clock handler s (Hh : forall h a, keeps wf (handler h a)) (Hr : reach clock handler s)
  (Hq : handlers_ok handler (u64 (clock (reads s)))) :
  exists ts s', tmr_poll clock handler (S (length (tmrl s))) s = Some (ts, s') /\
    Forall (fun t => u64 (clock (reads s)) < jfs_of s' t) (tmrl s').
Proof.
  pose proof (reach_wf clock handler s Hh Hr) as Hwf. set (j := u64 (clock (reads s))) in *.
  set (s1 := mk_state (tmrs s) (tmrl s) (S (reads s))). assert (Hwf1 : wf s1) by exact Hwf.
  assert (Hd : (length (due j s1) <= length (tmrl s))%nat) by (unfold due; apply length_filter).
  destruct (poll_loop_run handler j Hq (S (length (tmrl s))) s1 Hwf1 ltac:(lia)) as (ts & s' & E & _ & Hn).
  exists ts, s'. split; [exact E|]. apply Forall_forall. intros t Ht.
  destruct (decide (jfs_of s' t <= j)); [|lia]. assert (t ∈ due j s') by (by apply list_elem_of_filter).
  rewrite Hn in *. by apply not_elem_of_nil in H.
Qed.

Lemma filter_ext_in (P Q : nat -> Prop) `{!forall x, Decision (P x), !forall x, Decision (Q x)} (l : list nat) :
  (forall x, x ∈ l -> P x <-> Q x) -> filter P l = filter Q l.
Proof.
  induction l as [|x l IH]; intros He; [done|]. rewrite !filter_cons, IH by (intros y Hy; apply He; by right).
  assert (HPQ : P x <-> Q x) by (apply He; by left). destruct (decide (P x)), (decide (Q x)); tauto.
Qed.

Lemma poll_exact_run handler j : (forall h a s, handler h a s = Some (tt, s)) -> forall l s, tmrl s = l -> wf s ->
  exists s', poll_loop handler (S (length l)) j s = Some (due j s, s') /\ tmrl s' = filter (fun t => j < jfs_of s t) l /\
    (forall t, t ∉ l -> tmrs s' !! t = tmrs s !! t) /\
    (forall t, t ∈ due j s -> exists d, tmrs s' !! t = Some d /\ th d = None).
Proof.
  intros Hh. induction l as [|t l IH]; intros s Hl Hwf.
  { exists s. rewrite poll_stop by (done || by unfold idle; rewrite Hl). unfold due. rewrite Hl.
    split_and!; try done. by intros t ?%not_elem_of_nil. }
  destruct (head_known s t l Hwf Hl) as (d & h & Hd & Hth).
  assert (Ej : jfs_of s t = jfs d) by (unfold jfs_of; by rewrite Hd).
  pose proof Hwf as (Hnd & Hs & _). rewrite Hl in Hs, Hnd. apply NoDup_cons in Hnd as [Ht _].
  apply StronglySorted_inv in Hs as [_ Hs]. destruct (Z.ltb_spec j (jfs d)) as [Hj|Hj].
  { assert (Hi : idle j s = true) by (unfold idle; rewrite Hl; lia).
    exists s. rewrite poll_stop, (none_due j s) by done. split_and!; try done; [|by intros x ?%not_elem_of_nil].
    rewrite filter_all; [done|]. constructor; [lia|]. eapply Forall_impl; [exact Hs|]. cbn. lia. }
  rewrite (poll_step handler (length (t :: l)) j s t l d h) by (done || lia). rewrite Hh.
  destruct (due_head j s t d l Hwf Hl Hd ltac:(lia)) as [El _].
  destruct (IH (expired s t d) El (expired_wf s t d Hwf Hd)) as (s' & E & Ef & Hkeep & Hnone).
  assert (Hext : forall x, x ∈ l -> jfs_of (expired s t d) x = jfs_of s x).
  { intros x Hx. unfold jfs_of. cbn. rewrite lookup_insert_ne; [done|]. by intros ->. }
  assert (Hdue : due j s = t :: due j (expired s t d)).
  { unfold due. rewrite Hl, El, filter_cons, decide_True by lia. f_equal. apply filter_ext_in.
    intros x Hx. by rewrite Hext. }
  exists s'. cbn [length]. rewrite E, Hdue. split; [done|]. split; [|split].
  - rewrite Ef, filter_cons, decide_False by lia. apply filter_ext_in. intros x Hx. by rewrite Hext.
  - intros x [Hx Hxl]%not_elem_of_cons. rewrite (Hkeep x Hxl). cbn. by rewrite lookup_insert_ne.
  - intros x [->|Hx]%elem_of_cons; [|by apply Hnone]. rewrite (Hkeep t Ht). cbn. rewrite lookup_insert_eq. by eexists.
Qed.

(** A poll fires exactly the due timers, in order of expiry and, among
    equals, in the order they were started: with handlers that use no timers
    it takes the timers that are due at the time it reads, from the front of
    the list, and leaves the others in place. *)
Theorem timers_poll_exact clock handler s (Hh : forall h a s, handler h a s = Some (tt, s)) (Hr : reach clock handler s) :
  let j := u64 (clock (reads s)) in
  exists s', tmr_poll clock handler (S (length (tmrl s))) s = Some (due j s, s') /\
    tmrl s' = filter (fun t => j < jfs_of s t) (tmrl s) /\
    forall t, t ∈ due j s -> exists d, tmrs s' !! t = Some d /\ th d = None.
Proof.
  intros j. assert (Hk : forall h a, keeps wf (handler h a)) by (intros h a s0 [] s' Hwf E; rewrite Hh in E; by injection E as <-).
  pose proof (reach_wf clock handler s Hk Hr) as Hwf. unfold tmr_poll. set (s1 := mk_state (tmrs s) (tmrl s) (S (reads s))).
  destruct (poll_exact_run handler j Hh (tmrl s) s1 eq_refl Hwf) as (s' & E & Hl & _ & Hd). by exists s'.
Qed.

(** The main loop never oversleeps: [tmr_next_timeout] is 0 exactly when
    no timer runs; otherwise it is at least 1 and the first timer does not
    expire before the returned time, except when it is due already. *)
Theorem timers_next_timeout clock handler s (Hh : forall h a, keeps wf (handler h a)) (Hr : reach clock handler s) :
  exists n s', tmr_next_timeout clock s = Some (n, s') /\
    (n = 0 <-> tmrl s = []) /\ 0 <= n <= 2000 /\
    Forall (fun t => u64 (clock (reads s)) + n <= Z.max (jfs_of s t) (u64 (clock (reads s)) + 1)) (tmrl s).
Proof.
  pose proof (reach_wf clock handler s Hh Hr) as Hwf. unfold tmr_next_timeout, tmr_jiffies, get_tmr, mbind, M_bind, gets.
  cbn [tmrl]. set (j := u64 _). destruct (tmrl s) as [|t l] eqn:Hl.
  { do 2 eexists. split; [done|]. split; [done|]. split; [lia|constructor]. }
  destruct (head_known s t l Hwf Hl) as (d & h & Hd & _). cbn [tmrs]. rewrite Hd. cbn [mbind option_bind].
  assert (Ej : jfs_of s t = jfs d) by (unfold jfs_of; by rewrite Hd).
  pose proof Hwf as (_ & Hs & _). rewrite Hl in Hs. apply StronglySorted_inv in Hs as [_ Hs].
  destruct (Z.leb_spec (jfs d) j).
  - do 2 eexists. split; [done|]. split; [by split|]. split; [lia|]. apply Forall_forall. lia.
  - do 2 eexists. split; [done|]. split; [split; [case_match; lia|done]|]. split; [case_match; lia|].
    constructor; [case_match; lia|]. eapply Forall_impl; [exact Hs|]. cbn. intros x Hx. case_match; lia.
Qed.

(** ** Two timers at a clock that stands

    The first expires in 30 ms, the second at once; the handler restarts the
    second with 20 ms. *)

Definition sample_clock (n : nat) : Z := 1000.
Definition rearm (h a : Z) : TM unit :=
  fun s => match tmrs s !! 2%nat with Some _ => tmr_start sample_clock 2 20 (Some h) a s | None => Some (tt, s) end.
Definition quiet (h a : Z) : TM unit := mret tt.

Definition sample_state : state :=
  mk_state {[1%nat := mk_tmr (Some 7) 0 1030; 2%nat := mk_tmr (Some 8) 0 1000]} [2%nat; 1%nat] 2.

Lemma sample_reach handler : reach sample_clock handler sample_state.
Proof.
  apply (r_start _ _ (mk_state {[1%nat := mk_tmr (Some 7) 0 1030; 2%nat := mk_tmr None 0 0]} [1%nat] 1) 2 0 (Some 8) 0);
    [|vm_compute; reflexivity].
  apply (r_start _ _ (mk_state {[1%nat := mk_tmr None 0 0; 2%nat := mk_tmr None 0 0]} [] 0) 1 30 (Some 7) 0);
    [|vm_compute; reflexivity].
  apply (r_init _ _ (mk_state {[1%nat := mk_tmr None 0 0]} [] 0) 2); [|reflexivity|vm_compute; reflexivity].
  apply (r_init _ _ (mk_state ∅ [] 0) 1); [constructor|reflexivity|reflexivity].
Qed.

Lemma quiet_handler_keeps h a : keeps wf (quiet h a).
Proof. apply keeps_ret. Qed.
Lemma rearm_keeps h a : keeps wf (rearm h a).
Proof.
  intros s [] s' Hwf E. unfold rearm in E. destruct (tmrs s !! 2%nat); [by eapply start_wf|by injection E as <-].
Qed.

Lemma rearm_ok : handlers_ok rearm 1000.
Proof.
  intros h a s Hwf. unfold rearm. destruct (tmrs s !! 2%nat) as [d|] eqn:Hd; [|by exists s].
  eexists. split; [by apply start_run|]. split; [apply started_wf; [done|by eexists]|]. apply start_not_due. done.
Qed.

Lemma timers_ordered_witness :
  wf sample_state /\ exists s', tmr_start sample_clock 1 0 (Some 9) 0 sample_state = Some (tt, s') /\ tmrl s' = [2%nat; 1%nat].
Proof.
  destruct (timers_ordered sample_clock quiet sample_state quiet_handler_keeps (sample_reach quiet)) as [H1 H2].
  split; [exact H1|]. destruct (H2 1%nat 0 9 0) as (s' & E1 & E2); [vm_compute; by eexists|]. exists s'. split; [exact E1|].
  vm_compute in E1. injection E1 as <-. reflexivity.
Defined.

Lemma timers_poll_ends_witness :
  exists ts s', tmr_poll sample_clock rearm 3 sample_state = Some (ts, s') /\ Forall (fun t => 1000 < jfs_of s' t) (tmrl s').
Proof.
  exact (timers_poll_ends sample_clock rearm sample_state rearm_keeps (sample_reach rearm) rearm_ok).
Defined.

Lemma timers_poll_exact_witness :
  exists s', tmr_poll sample_clock quiet 3 sample_state = Some ([2%nat], s') /\ tmrl s' = [1%nat].
Proof.
  destruct (timers_poll_exact sample_clock quiet sample_state ltac:(reflexivity) (sample_reach quiet)) as (s' & E1 & E2 & _).
  exists s'. split; [exact E1|]. exact E2.
Defined.

Lemma timers_next_timeout_witness :
  exists n s', tmr_next_timeout sample_clock sample_state = Some (n, s') /\ (n = 0 <-> tmrl sample_state = []) /\ 0 <= n <= 2000.
Proof.
  destruct (timers_next_timeout sample_clock quiet sample_state quiet_handler_keeps (sample_reach quiet)) as (n & s' & E1 & E2 & E3 & _).
  by exists n, s'.
Defined.
End Tm.
