(* ===== verification/Ice.v ===== *)
(** * ICE: candidates, candidate pairs and connectivity checks

    Models util.c, cand.c, candpair.c, chklist.c, connchk.c and stunsrv.c of
    re/src/ice, with the parts of comp.c and icem.c they use and the types
    of ice.h.  Candidates and pairs are numbered objects; [None] is an access
    to an object that does not exist.  The transport is a parameter: the
    result of the n-th STUN request and of the n-th TURN channel. *)

From stdpp Require Import gmap.
From S2P Require Import Prelude Effects StunMsg Tmr.
Import Stun.

Module Ice.

Definition EBUSY : Z := 16.
Definition EINTR : Z := 4.

Inductive cand_type := HOST | SRFLX | PRFLX | RELAY.
Inductive role := UNKNOWN | CONTROLLING | CONTROLLED.
Inductive pair_state := FROZEN | WAITING | INPROGRESS | SUCCEEDED | FAILED.
Inductive checkl_state := CL_NULL | CL_RUNNING | CL_COMPLETED | CL_FAILED.

#[export] Instance cand_type_eq : EqDecision cand_type.
Proof. solve_decision. Defined.
#[export] Instance role_eq : EqDecision role.
Proof. solve_decision. Defined.
#[export] Instance pair_state_eq : EqDecision pair_state.
Proof. solve_decision. Defined.
#[export] Instance checkl_state_eq : EqDecision checkl_state.
Proof. solve_decision. Defined.
#[export] Instance sa_eq : EqDecision sa.
Proof. solve_decision. Defined.

(** ** Data *)

Record ice_cand := mk_cand {
  c_type : cand_type;
  c_prio : Z;
  c_foundation : list Z;
  c_compid : Z;
  c_rel : option sa;
  c_addr : sa;
  c_base : option nat }.

(** [p_conn]: a STUN transaction is pending ([ct_conn]). *)
Record ice_candpair := mk_pair {
  p_comp : Z;
  p_lcand : nat;
  p_rcand : nat;
  p_def : bool;
  p_valid : bool;
  p_nominated : bool;
  p_state : pair_state;
  p_pprio : Z;
  p_conn : bool;
  p_err : Z;
  p_scode : Z }.

Record icem_comp := mk_comp {
  m_id : Z;
  m_def_lcand : option nat;
  m_def_rcand : option nat;
  m_sel : option nat;
  m_lport : Z;
  m_concluded : bool;
  m_turnc : bool;
  m_keepalive : bool }.

(** A connectivity check that was sent: the pair, USE-CANDIDATE, the role it claims. *)
Record check := mk_check { k_pair : nat; k_use : bool; k_role : role }.

(** [rlite]: the remote mode is lite; [rufrag]: empty for none; [pace]: the
    pacing timer runs; [results]: the calls of the connectivity check handler;
    [sent]: the checks; [calls]: the requests and channels asked for. *)
Record icem := mk_icem {
  lcandl : list nat;
  rcandl : list nat;
  checkl : list nat;
  validl : list nat;
  cands : gmap nat ice_cand;
  pairs : gmap nat ice_candpair;
  comps : list icem_comp;
  tiebrk : Z;
  rlite : bool;
  lrole : role;
  lufrag : list Z;
  rufrag : list Z;
  cstate : checkl_state;
  pace : bool;
  chkh : bool;
  results : list (Z * bool);
  sent : list check;
  calls : nat;
  fresh : nat }.

Abbreviation IM := (M icem).

Definition set_lcandl x i := mk_icem x (rcandl i) (checkl i) (validl i) (cands i) (pairs i) (comps i) (tiebrk i)
  (rlite i) (lrole i) (lufrag i) (rufrag i) (cstate i) (pace i) (chkh i) (results i) (sent i) (calls i) (fresh i).
Definition set_rcandl x i := mk_icem (lcandl i) x (checkl i) (validl i) (cands i) (pairs i) (comps i) (tiebrk i)
  (rlite i) (lrole i) (lufrag i) (rufrag i) (cstate i) (pace i) (chkh i) (results i) (sent i) (calls i) (fresh i).
Definition set_checkl x i := mk_icem (lcandl i) (rcandl i) x (validl i) (cands i) (pairs i) (comps i) (tiebrk i)
  (rlite i) (lrole i) (lufrag i) (rufrag i) (cstate i) (pace i) (chkh i) (results i) (sent i) (calls i) (fresh i).
Definition set_validl x i := mk_icem (lcandl i) (rcandl i) (checkl i) x (cands i) (pairs i) (comps i) (tiebrk i)
  (rlite i) (lrole i) (lufrag i) (rufrag i) (cstate i) (pace i) (chkh i) (results i) (sent i) (calls i) (fresh i).
Definition set_cands x i := mk_icem (lcandl i) (rcandl i) (checkl i) (validl i) x (pairs i) (comps i) (tiebrk i)
  (rlite i) (lrole i) (lufrag i) (rufrag i) (cstate i) (pace i) (chkh i) (results i) (sent i) (calls i) (fresh i).
Definition set_pairs x i := mk_icem (lcandl i) (rcandl i) (checkl i) (validl i) (cands i) x (comps i) (tiebrk i)
  (rlite i) (lrole i) (lufrag i) (rufrag i) (cstate i) (pace i) (chkh i) (results i) (sent i) (calls i) (fresh i).
Definition set_comps x i := mk_icem (lcandl i) (rcandl i) (checkl i) (validl i) (cands i) (pairs i) x (tiebrk i)
  (rlite i) (lrole i) (lufrag i) (rufrag i) (cstate i) (pace i) (chkh i) (results i) (sent i) (calls i) (fresh i).
Definition set_lrole x i := mk_icem (lcandl i) (rcandl i) (checkl i) (validl i) (cands i) (pairs i) (comps i)
  (tiebrk i) (rlite i) x (lufrag i) (rufrag i) (cstate i) (pace i) (chkh i) (results i) (sent i) (calls i) (fresh i).
Definition set_cstate x i := mk_icem (lcandl i) (rcandl i) (checkl i) (validl i) (cands i) (pairs i) (comps i)
  (tiebrk i) (rlite i) (lrole i) (lufrag i) (rufrag i) x (pace i) (chkh i) (results i) (sent i) (calls i) (fresh i).
Definition set_pace x i := mk_icem (lcandl i) (rcandl i) (checkl i) (validl i) (cands i) (pairs i) (comps i)
  (tiebrk i) (rlite i) (lrole i) (lufrag i) (rufrag i) (cstate i) x (chkh i) (results i) (sent i) (calls i)
  (fresh i).
Definition set_chkh x i := mk_icem (lcandl i) (rcandl i) (checkl i) (validl i) (cands i) (pairs i) (comps i)
  (tiebrk i) (rlite i) (lrole i) (lufrag i) (rufrag i) (cstate i) (pace i) x (results i) (sent i) (calls i)
  (fresh i).
Definition set_fresh x i := mk_icem (lcandl i) (rcandl i) (checkl i) (validl i) (cands i) (pairs i) (comps i)
  (tiebrk i) (rlite i) (lrole i) (lufrag i) (rufrag i) (cstate i) (pace i) (chkh i) (results i) (sent i) (calls i) x.
Definition add_result x i := mk_icem (lcandl i) (rcandl i) (checkl i) (validl i) (cands i) (pairs i) (comps i)
  (tiebrk i) (rlite i) (lrole i) (lufrag i) (rufrag i) (cstate i) (pace i) (chkh i) (results i ++ [x]) (sent i)
  (calls i) (fresh i).
Definition add_sent x i := mk_icem (lcandl i) (rcandl i) (checkl i) (validl i) (cands i) (pairs i) (comps i)
  (tiebrk i) (rlite i) (lrole i) (lufrag i) (rufrag i) (cstate i) (pace i) (chkh i) (results i) (sent i ++ [x])
  (calls i) (fresh i).
Definition add_call i := mk_icem (lcandl i) (rcandl i) (checkl i) (validl i) (cands i) (pairs i) (comps i)
  (tiebrk i) (rlite i) (lrole i) (lufrag i) (rufrag i) (cstate i) (pace i) (chkh i) (results i) (sent i)
  (S (calls i)) (fresh i).

Definition get_cand (c : nat) : IM ice_cand := fun i => d ← cands i !! c; Some (d, i).
Definition get_pair (p : nat) : IM ice_candpair := fun i => d ← pairs i !! p; Some (d, i).
Definition put_pair (p : nat) (d : ice_candpair) : IM unit := modify (fun i => set_pairs (<[p := d]> (pairs i)) i).
Definition upd_pair (p : nat) (f : ice_candpair -> ice_candpair) : IM unit := d ← get_pair p; put_pair p (f d).

(** ** Addresses (sa.c) *)

Definition sa_af (a : sa) : Z := match a with sa_in _ _ => 2 | sa_in6 _ _ => 10 | sa_unspec _ => 0 end.

(** SA_ALL; addresses without a family are never equal. *)
Definition sa_cmp (l r : sa) : bool :=
  match l, r with
  | sa_in a p, sa_in b q => (a =? b) && (p =? q)
  | sa_in6 a p, sa_in6 b q => bool_decide (a = b) && (p =? q)
  | _, _ => false
  end.

(** SA_ADDR, of a little-endian machine: the words of an IPv6 address. *)
Definition word (l : list Z) (k : nat) : Z :=
  match take 4 (drop (4 * k) l) with [a; b; c; d] => a + 256 * b + 65536 * c + 16777216 * d | _ => 0 end.
Definition sa_hash (a : sa) : Z :=
  match a with
  | sa_in addr _ => addr
  | sa_in6 l _ => Z.lxor (Z.lxor (Z.lxor (word l 0) (word l 1)) (word l 2)) (word l 3)
  | sa_unspec _ => 0
  end.

Definition set_port (p : Z) (a : sa) : sa :=
  match a with sa_in x _ => sa_in x p | sa_in6 x _ => sa_in6 x p | sa_unspec _ => sa_unspec p end.

(** ** Priorities (util.c) *)

Definition type_prio (t : cand_type) : Z := match t with HOST => 126 | SRFLX => 100 | PRFLX => 110 | RELAY => 0 end.

Definition ice_cand_calc_prio (t : cand_type) (local compid : Z) : Z :=
  u32 (Z.lor (Z.lor (Z.shiftl (type_prio t) 24) (Z.shiftl local 8)) (u32 (256 - compid))).

Definition ice_calc_pair_prio (g d : Z) : Z :=
  u64 (Z.shiftl (Z.min g d) 32 + 2 * Z.max g d + (if d <? g then 1 else 0)).

Definition ice_switch_local_role : IM unit :=
  modify (fun i => set_lrole (if decide (lrole i = CONTROLLING) then CONTROLLED else CONTROLLING) i).

(** [ice_list_unique]: the inner loop over the elements behind [x] returns
    those that stay, those that go, and whether [x] goes; [uh] is the handler
    on two elements: whether the first, the second or none is removed. *)
Inductive removal := r_none | r_first | r_second.

Fixpoint unique_inner (uh : nat -> nat -> removal) (x : nat) (l : list nat) : list nat * bool :=
  match l with
  | [] => ([], false)
  | y :: l =>
    match uh x y with
    | r_none => let '(k, b) := unique_inner uh x l in (y :: k, b)
    | r_first => (y :: l, true)
    | r_second => unique_inner uh x l
    end
  end.

Fixpoint unique_loop (fuel : nat) (uh : nat -> nat -> removal) (l : list nat) : list nat :=
  match fuel, l with
  | S fuel, x :: ((_ :: _) as l) =>
    let '(k, gone) := unique_inner uh x l in
    if gone : bool then unique_loop fuel uh k else x :: unique_loop fuel uh k
  | _, _ => l
  end.

Definition ice_list_unique (uh : nat -> nat -> removal) (l : list nat) : list nat := unique_loop (length l) uh l.

(** ** Components (comp.c) *)

Definition icem_comp_find (id : Z) : IM (option icem_comp) := gets (fun i => find (fun c => m_id c =? id) (comps i)).

(** Assigns to the component with this number. *)
Definition upd_comp (id : Z) (f : icem_comp -> icem_comp) : IM unit :=
  modify (fun i => set_comps (map (fun c => if m_id c =? id then f c else c) (comps i)) i).

Definition set_sel (p : option nat) (c : icem_comp) : icem_comp :=
  mk_comp (m_id c) (m_def_lcand c) (m_def_rcand c) p (m_lport c) (m_concluded c) (m_turnc c) (m_keepalive c).
Definition set_concluded (c : icem_comp) : icem_comp :=
  mk_comp (m_id c) (m_def_lcand c) (m_def_rcand c) (m_sel c) (m_lport c) true (m_turnc c) (m_keepalive c).
Definition set_keepalive (b : bool) (c : icem_comp) : icem_comp :=
  mk_comp (m_id c) (m_def_lcand c) (m_def_rcand c) (m_sel c) (m_lport c) (m_concluded c) (m_turnc c) b.

(** The state of the pair is only warned about. *)
Definition icem_comp_set_selected (id : Z) (p : nat) : IM unit :=
  _ ← get_pair p; upd_comp id (set_sel (Some p)).

Definition icem_comp_keepalive (id : Z) (enable : bool) : IM unit := upd_comp id (set_keepalive enable).

(** ** Candidates (cand.c) *)

(** A pointer to an address: the candidate it lies in, if any.  [sa_cmp] of a
    pointer with itself is true. *)
Record aref := mk_ref { r_owner : option nat; r_sa : sa }.

Definition ref_of (c : nat) (d : ice_cand) : aref := mk_ref (Some c) (c_addr d).
Definition ref_cmp (a b : aref) : bool :=
  match r_owner a, r_owner b with
  | Some x, Some y => (x =? y)%nat || sa_cmp (r_sa a) (r_sa b)
  | _, _ => sa_cmp (r_sa a) (r_sa b)
  end.

Definition hex_digit (n : Z) : Z := if n <? 10 then 48 + n else 87 + n.
(** "%08x" *)
Definition hex8 (v : Z) : list Z := map (fun k => hex_digit (Z.land (Z.shiftr v (4 * k)) 15)) [7; 6; 5; 4; 3; 2; 1; 0].

Definition type_num (t : cand_type) : Z := match t with HOST => 0 | SRFLX => 1 | PRFLX => 2 | RELAY => 3 end.

Definition foundation (t : cand_type) (a : sa) : list Z := hex8 (Z.lxor (sa_hash a) (type_num t)).

Definition new_id : IM nat := n ← gets fresh; modify (set_fresh (S n)) ;; mret n.

Section Env.
Context (alloc_ok : Z -> bool) (request_err : nat -> Z) (chan_err : nat -> Z).

(** sizeof(struct ice_cand) is 128; the foundation takes 9 bytes. *)
Definition cand_alloc (t : cand_type) (compid prio : Z) (addr : sa) (rel : option sa) : IM (Z * option nat) :=
  if negb (alloc_ok 128) || negb (alloc_ok 9) then mret (ENOMEM, None) else
  c ← new_id;
  modify (fun i => set_cands (<[c := mk_cand t prio (foundation t addr) compid rel addr None]> (cands i)) i) ;;
  modify (fun i => set_lcandl (lcandl i ++ [c]) i) ;;
  mret (0, Some c).

Definition set_base (b : nat) (d : ice_cand) : ice_cand :=
  mk_cand (c_type d) (c_prio d) (c_foundation d) (c_compid d) (c_rel d) (c_addr d) (Some b).
Definition set_addr (a : sa) (d : ice_cand) : ice_cand :=
  mk_cand (c_type d) (c_prio d) (c_foundation d) (c_compid d) (c_rel d) a (c_base d).
Definition upd_cand (c : nat) (f : ice_cand -> ice_cand) : IM unit :=
  d ← get_cand c; modify (fun i => set_cands (<[c := f d]> (cands i)) i).

Definition icem_lcand_add_base (compid lprio : Z) (addr : sa) : IM Z :=
  comp ← icem_comp_find compid;
  match comp with
  | None => mret ENOENT
  | Some comp =>
    '(err, c) ← cand_alloc HOST compid (ice_cand_calc_prio HOST lprio compid) addr None;
    match c with
    | None => mret err
    | Some c => upd_cand c (set_base c) ;; upd_cand c (fun d => set_addr (set_port (m_lport comp) (c_addr d)) d) ;; mret 0
    end
  end.

Definition icem_lcand_add (base : nat) (t : cand_type) (addr : sa) : IM Z :=
  b ← get_cand base;
  '(err, c) ← cand_alloc t (c_compid b) (ice_cand_calc_prio t 0 (c_compid b)) addr (Some (c_addr b));
  match c with
  | None => mret err
  | Some c => upd_cand c (set_base base) ;; mret 0
  end.

(** The foundation comes from the peer, or ([icem_rcand_add_prflx]) is random. *)
Definition rcand_alloc (t : cand_type) (compid prio : Z) (addr : sa) (rel : option sa) (fnd : list Z) : IM (Z * option nat) :=
  if negb (alloc_ok 128) || negb (alloc_ok (zlen fnd + 1)) then mret (ENOMEM, None) else
  c ← new_id;
  modify (fun i => set_cands (<[c := mk_cand t prio fnd compid rel addr None]> (cands i)) i) ;;
  modify (fun i => set_rcandl (rcandl i ++ [c]) i) ;;
  mret (0, Some c).

Definition icem_rcand_add (t : cand_type) (compid prio : Z) (addr : sa) (rel : option sa) (fnd : list Z) : IM Z :=
  '(err, _) ← rcand_alloc t compid prio addr rel fnd; mret err.
Definition icem_rcand_add_prflx (rnd compid prio : Z) (addr : sa) : IM (Z * option nat) :=
  rcand_alloc PRFLX compid prio addr None (hex8 rnd).

(** The first candidate of the list with this component (0: any) and address. *)
Fixpoint cand_find_in (l : list nat) (compid : Z) (addr : aref) : IM (option nat) :=
  match l with
  | [] => mret None
  | c :: l =>
    d ← get_cand c;
    if (negb (compid =? 0) && negb (c_compid d =? compid)) || negb (ref_cmp (ref_of c d) addr)
    then cand_find_in l compid addr
    else mret (Some c)
  end.

(** ** Candidate pairs (candpair.c) *)

Definition set_pprio (x : Z) (d : ice_candpair) : ice_candpair :=
  mk_pair (p_comp d) (p_lcand d) (p_rcand d) (p_def d) (p_valid d) (p_nominated d) (p_state d) x (p_conn d) (p_err d) (p_scode d).
Definition set_pstate (x : pair_state) (d : ice_candpair) : ice_candpair :=
  mk_pair (p_comp d) (p_lcand d) (p_rcand d) (p_def d) (p_valid d) (p_nominated d) x (p_pprio d) (p_conn d) (p_err d) (p_scode d).
Definition set_conn (x : bool) (d : ice_candpair) : ice_candpair :=
  mk_pair (p_comp d) (p_lcand d) (p_rcand d) (p_def d) (p_valid d) (p_nominated d) (p_state d) (p_pprio d) x (p_err d) (p_scode d).
Definition set_nominated (d : ice_candpair) : ice_candpair :=
  mk_pair (p_comp d) (p_lcand d) (p_rcand d) (p_def d) (p_valid d) true (p_state d) (p_pprio d) (p_conn d) (p_err d) (p_scode d).
(** [err], [scode] and [valid]. *)
Definition set_outcome (err scode : Z) (valid : bool) (d : ice_candpair) : ice_candpair :=
  mk_pair (p_comp d) (p_lcand d) (p_rcand d) (p_def d) valid (p_nominated d) (p_state d) (p_pprio d) (p_conn d) err scode.

Definition pair_prio (r : role) (l r' : ice_cand) : Z :=
  if decide (r = CONTROLLING) then ice_calc_pair_prio (c_prio l) (c_prio r') else ice_calc_pair_prio (c_prio r') (c_prio l).

Definition candpair_set_pprio (p : nat) : IM unit :=
  d ← get_pair p;
  l ← get_cand (p_lcand d);
  r ← get_cand (p_rcand d);
  role ← gets lrole;
  put_pair p (set_pprio (pair_prio role l r) d).

Definition pprio_of (i : icem) (p : nat) : Z := match pairs i !! p with Some d => p_pprio d | None => 0 end.

(** Behind the last pair of higher priority. *)
Definition list_add_sorted (i : icem) (l : list nat) (p : nat) : list nat :=
  Tm.insert_after_last (fun x => pprio_of i p <? pprio_of i x) p l.

(** sizeof(struct ice_candpair) is 112. *)
Definition icem_candpair_alloc (l r : nat) : IM (Z * option nat) :=
  ld ← get_cand l;
  comp ← icem_comp_find (c_compid ld);
  match comp with
  | None => mret (ENOENT, None)
  | Some comp =>
    if negb (alloc_ok 112) then mret (ENOMEM, None) else
    p ← new_id;
    put_pair p (mk_pair (m_id comp) l r (bool_decide (m_def_lcand comp = Some l) && bool_decide (m_def_rcand comp = Some r))
      false false FROZEN 0 false 0 0) ;;
    candpair_set_pprio p ;;
    modify (fun i => set_checkl (list_add_sorted i (checkl i) p) i) ;;
    mret (0, Some p)
  end.

Definition icem_candpair_clone (p0 : nat) (l r : option nat) : IM (Z * option nat) :=
  d ← get_pair p0;
  if negb (alloc_ok 112) then mret (ENOMEM, None) else
  p ← new_id;
  put_pair p (mk_pair (p_comp d) (default (p_lcand d) l) (default (p_rcand d) r) (p_def d) (p_valid d) (p_nominated d)
    (p_state d) (p_pprio d) false (p_err d) (p_scode d)) ;;
  modify (fun i => set_checkl (list_add_sorted i (checkl i) p) i) ;;
  mret (0, Some p).

(** [list_sort] on the sequence: passes that move the smaller element back,
    until one moves nothing (ReListProps.v). *)
Fixpoint sort_pass (le : nat -> nat -> bool) (x : nat) (l : list nat) : list nat * bool :=
  match l with
  | [] => ([x], false)
  | y :: l =>
    if le x y then let '(k, b) := sort_pass le y l in (x :: k, b)
    else let '(k, _) := sort_pass le x l in (y :: k, true)
  end.

Fixpoint list_sort (fuel : nat) (le : nat -> nat -> bool) (l : list nat) : option (list nat) :=
  match fuel, l with
  | O, _ => None
  | _, [] => Some []
  | S fuel, x :: l => let '(k, moved) := sort_pass le x l in if moved : bool then list_sort fuel le k else Some k
  end.

Definition icem_candpair_prio_order : IM unit :=
  l ← gets checkl;
  for_each candpair_set_pprio l ;;
  i ← gets id;
  k ← of_option (list_sort (S (length l * length l)) (fun x y => pprio_of i y <=? pprio_of i x) l);
  modify (set_checkl k).

Definition iscompleted_state (s : pair_state) : bool := match s with FAILED | SUCCEEDED => true | _ => false end.

Definition icem_candpair_set_state (p : nat) (s : pair_state) : IM unit :=
  upd_pair p (fun d => if bool_decide (p_state d = s) || iscompleted_state (p_state d) then d else set_pstate s d).

Definition icem_candpair_cancel (p : nat) : IM unit := upd_pair p (set_conn false).

Definition unlink (p : nat) : IM unit :=
  modify (fun i => set_validl (filter (fun x => x <> p) (validl i)) (set_checkl (filter (fun x => x <> p) (checkl i)) i)).

Definition icem_candpair_make_valid (p : nat) : IM unit :=
  upd_pair p (set_outcome 0 0 true) ;;
  icem_candpair_set_state p SUCCEEDED ;;
  unlink p ;;
  modify (fun i => set_validl (list_add_sorted i (validl i) p) i).

Definition icem_candpair_failed (p : nat) (err scode : Z) : IM unit :=
  upd_pair p (set_outcome err scode false) ;; icem_candpair_set_state p FAILED.

(** The first pair of a list with a property of its data. *)
Fixpoint pair_find_in (l : list nat) (f : ice_candpair -> bool) : IM (option nat) :=
  match l with
  | [] => mret None
  | p :: l => d ← get_pair p; if f d then mret (Some p) else pair_find_in l f
  end.

Definition same_cand (want : option nat) (c : nat) : bool := match want with Some w => (w =? c)%nat | None => true end.

Definition icem_candpair_find (l : list nat) (lc rc : option nat) : IM (option nat) :=
  pair_find_in l (fun d => same_cand lc (p_lcand d) && same_cand rc (p_rcand d)).

(** The component is that of the local candidate. *)
Definition icem_candpair_find_st (l : list nat) (compid : Z) (s : pair_state) : IM (option nat) :=
  i ← gets id;
  pair_find_in l (fun d =>
    ((compid =? 0) || match cands i !! p_lcand d with Some c => c_compid c =? compid | None => false end)
    && bool_decide (p_state d = s)).

Definition icem_candpair_find_compid (l : list nat) (compid : Z) : IM (option nat) :=
  i ← gets id;
  pair_find_in l (fun d => match cands i !! p_lcand d with Some c => c_compid c =? compid | None => false end).

Definition icem_candpair_find_rcand (rc : nat) : IM (option nat) :=
  l ← gets checkl;
  p ← icem_candpair_find l None (Some rc);
  match p with
  | Some p => mret (Some p)
  | None => l ← gets validl; icem_candpair_find l None (Some rc)
  end.

(** The first pair of the component whose local candidate is a host or relayed one. *)
Fixpoint lcand_find_in (l : list nat) (compid : Z) : IM (option nat) :=
  match l with
  | [] => mret None
  | p :: l =>
    d ← get_pair p;
    c ← get_cand (p_lcand d);
    if (c_compid c =? compid) && match c_type c with HOST | RELAY => true | _ => false end
    then mret (Some (p_lcand d)) else lcand_find_in l compid
  end.
Definition icem_lcand_find_checklist (compid : Z) : IM (option nat) := l ← gets checkl; lcand_find_in l compid.

(** ** Checklists (chklist.c) *)

Fixpoint form_inner (l : nat) (ld : ice_cand) (rs : list nat) : IM Z :=
  match rs with
  | [] => mret 0
  | r :: rs =>
    rd ← get_cand r;
    if negb (c_compid ld =? c_compid rd) || negb (sa_af (c_addr ld) =? sa_af (c_addr rd)) then form_inner l ld rs else
    '(err, _) ← icem_candpair_alloc l r;
    if negb (err =? 0) then mret err else form_inner l ld rs
  end.

Fixpoint form_outer (ls rs : list nat) : IM Z :=
  match ls with
  | [] => mret 0
  | l :: ls =>
    ld ← get_cand l;
    err ← form_inner l ld rs;
    if negb (err =? 0) then mret err else form_outer ls rs
  end.

Definition candpairs_form : IM Z :=
  ls ← gets lcandl;
  rs ← gets rcandl;
  match ls, rs with
  | [], _ | _, [] => mret ENOENT
  | _, _ => form_outer ls rs
  end.

(** [cand_srflx_addr]; the base of a reflexive candidate must exist. *)
Definition cand_srflx_addr (i : icem) (c : nat) : option aref :=
  d ← cands i !! c;
  if decide (c_type d = SRFLX) then b ← c_base d; e ← cands i !! b; Some (ref_of b e) else Some (ref_of c d).

(** Component, local and remote address of a pair. *)
Definition pair_key (i : icem) (p : nat) : option (Z * aref * aref) :=
  d ← pairs i !! p;
  l ← cand_srflx_addr i (p_lcand d);
  r ← cands i !! p_rcand d;
  Some (p_comp d, l, ref_of (p_rcand d) r).

Definition unique_handler (i : icem) (x y : nat) : removal :=
  match pair_key i x, pair_key i y with
  | Some (c1, l1, r1), Some (c2, l2, r2) =>
    if negb (c1 =? c2) || negb (ref_cmp l1 l2) || negb (ref_cmp r1 r2) then r_none
    else if pprio_of i x <? pprio_of i y then r_first else r_second
  | _, _ => r_none
  end.

Definition candpair_prune : IM unit :=
  i ← gets id;
  _ ← of_option (mapM (pair_key i) (checkl i));
  let k := ice_list_unique (unique_handler i) (checkl i) in
  modify (fun i => set_checkl k (set_pairs
    (foldr (fun p m => if bool_decide (p ∈ k) then m else delete p m) (pairs i) (checkl i)) i)).

(** The foundations, the component and the priority of a pair. *)
Definition pair_fnd (i : icem) (p : nat) : option (list Z * list Z * Z * Z) :=
  d ← pairs i !! p;
  l ← cands i !! p_lcand d;
  r ← cands i !! p_rcand d;
  Some (c_foundation l, c_foundation r, c_compid l, p_pprio d).

Definition better (i : icem) (p q : nat) : nat :=
  match pair_fnd i p, pair_fnd i q with
  | Some (fl, fr, c, x), Some (fl', fr', c', x') =>
    if bool_decide (fl = fl') && bool_decide (fr = fr') && (c' <? c) && (x <? x') then q else p
  | _, _ => p
  end.

Definition ice_candpair_set_states : IM unit :=
  l ← gets checkl;
  for_each (fun p =>
    i ← gets id;
    _ ← of_option (mapM (pair_fnd i) l);
    icem_candpair_set_state (foldl (better i) p l) WAITING) l.

Definition icem_checklist_form : IM Z :=
  l ← gets checkl;
  match l with
  | _ :: _ => mret EALREADY
  | [] =>
    err ← candpairs_form;
    if negb (err =? 0) then mret err else
    icem_candpair_prio_order ;;
    candpair_prune ;;
    mret 0
  end.

Fixpoint all_completed (l : list nat) : IM bool :=
  match l with
  | [] => mret true
  | p :: l => d ← get_pair p; if iscompleted_state (p_state d) then all_completed l else mret false
  end.
Definition iscompleted : IM bool := l ← gets checkl; all_completed l.

(** ** Connectivity checks (connchk.c) *)

Definition env_call : IM nat := n ← gets calls; modify add_call ;; mret n.

Definition icem_conncheck_send (p : nat) (use_cand : bool) : IM Z :=
  icem_candpair_set_state p INPROGRESS ;;
  d ← get_pair p;
  role ← gets lrole;
  if bool_decide (role = UNKNOWN) || (bool_decide (role = CONTROLLED) && use_cand) then mret EINVAL else
  if p_conn d then mret EBUSY else
  c ← get_cand (p_lcand d);
  err ← (if decide (c_type c = RELAY) then
           comp ← icem_comp_find (p_comp d);
           comp ← of_option comp;
           n ← env_call;
           mret (if m_turnc comp then chan_err n else EINVAL)
         else mret 0);
  if negb (err =? 0) then mret err else
  n ← env_call;
  if negb (request_err n =? 0) then mret (request_err n) else
  upd_pair p (set_conn true) ;;
  modify (add_sent (mk_check p use_cand role)) ;;
  mret 0.

Definition report (err : Z) : IM unit :=
  modify (fun i => if chkh i then add_result (err, bool_decide (lrole i = CONTROLLING)) i else i).

Definition abort_ice (err : Z) : IM unit :=
  modify (set_cstate CL_FAILED) ;;
  modify (set_pace false) ;;
  report err ;;
  modify (set_chkh false).

(** The functions below call one another through [pace_next], which is their
    parameter [next]. *)

Definition do_check (next : IM unit) (p : nat) : IM unit :=
  err ← icem_conncheck_send p false;
  if err =? 0 then mret tt else
  icem_candpair_failed p err 0 ;;
  if err =? ENOMEM then abort_ice err else next.

Definition icem_conncheck_schedule_check (next : IM unit) : IM unit :=
  l ← gets checkl;
  p ← icem_candpair_find_st l 0 WAITING;
  match p with
  | Some p => do_check next p
  | None =>
    p ← icem_candpair_find_st l 0 FROZEN;
    match p with Some p => do_check next p | None => mret tt end
  end.

Definition concluding_ice (next : IM unit) (id : Z) : IM unit :=
  comp ← icem_comp_find id;
  match comp with
  | None => mret tt
  | Some comp =>
    if m_concluded comp then mret tt else
    l ← gets validl;
    p ← icem_candpair_find_st l id SUCCEEDED;
    match p with
    | None => mret tt
    | Some p =>
      icem_comp_set_selected id p ;;
      role ← gets lrole;
      _ ← icem_conncheck_send p (bool_decide (role = CONTROLLING));
      icem_conncheck_schedule_check next ;;
      upd_comp id set_concluded
    end
  end.

(** The loop over the components. *)
Fixpoint update_comps (next : IM unit) (ids : list Z) : IM Z :=
  match ids with
  | [] => mret 0
  | id :: ids =>
    l ← gets validl;
    p ← icem_candpair_find_compid l id;
    match p with
    | None => mret ENOENT
    | Some _ =>
      concluding_ice next id ;;
      comp ← icem_comp_find id;
      when (bool_decide (is_Some (comp ≫= m_sel))) (icem_comp_keepalive id true) ;;
      update_comps next ids
    end
  end.

Definition icem_checklist_update (next : IM unit) : IM unit :=
  c ← iscompleted;
  if negb c then mret tt else
  ids ← gets (fun i => map m_id (comps i));
  err ← update_comps next ids;
  modify (set_cstate (if err =? 0 then CL_COMPLETED else CL_FAILED)) ;;
  report err.

Fixpoint pace_next (fuel : nat) : IM unit :=
  match fuel with
  | O => ub
  | S fuel =>
    s ← gets cstate;
    if decide (s = CL_RUNNING) then
      icem_conncheck_schedule_check (pace_next fuel) ;;
      s ← gets cstate;
      if decide (s = CL_FAILED) then mret tt else icem_checklist_update (pace_next fuel)
    else mret tt
  end.

(** One turn for every pair of the checklist, and one to conclude. *)
Definition pace_go : IM unit := l ← gets checkl; pace_next (S (S (length l))).

Definition construct_valid_pair (p : nat) (mapped : aref) : IM (option nat) :=
  d ← get_pair p;
  lc ← get_cand (p_lcand d);
  rc ← get_cand (p_rcand d);
  ls ← gets lcandl;
  l ← cand_find_in ls (c_compid lc) mapped;
  rs ← gets rcandl;
  r ← cand_find_in rs (c_compid rc) (ref_of (p_rcand d) rc);
  match l, r with
  | Some l, Some r =>
    icem_candpair_make_valid p ;;
    if negb (l =? p_lcand d)%nat || negb (r =? p_rcand d)%nat then
      vl ← gets validl;
      p2 ← icem_candpair_find vl (Some l) (Some r);
      match p2 with
      | Some p2 => mret (Some p2)
      | None =>
        '(err, p2) ← icem_candpair_clone p (Some l) (Some r);
        match p2 with
        | None => mret None
        | Some p2 => icem_candpair_make_valid p2 ;; mret (Some p2)
        end
      end
    else mret (Some p)
  | _, _ => mret None
  end.

Definition handle_success (p : nat) (laddr : sa) : IM unit :=
  d ← get_pair p;
  lc ← get_cand (p_lcand d);
  ls ← gets lcandl;
  known ← cand_find_in ls (c_compid lc) (mk_ref None laddr);
  match known with
  | Some _ => mret tt
  | None => _ ← icem_lcand_add (p_lcand d) PRFLX laddr; mret tt
  end ;;
  p' ← construct_valid_pair p (mk_ref None laddr);
  match p' with
  | None => mret tt
  | Some p =>
    icem_candpair_make_valid p ;;
    d ← get_pair p;
    icem_comp_set_selected (p_comp d) p ;;
    upd_pair p set_nominated
  end.

(** The transaction is over; [mapped]: XOR-MAPPED-ADDRESS of the response. *)
Definition stunc_resp_handler (p : nat) (err scode : Z) (mapped : option sa) : IM unit :=
  upd_pair p (set_conn false) ;;
  (if negb (err =? 0) then icem_candpair_failed p err scode
   else if scode =? 0 then
     match mapped with
     | None => icem_candpair_failed p EBADMSG 0
     | Some a => handle_success p a
     end
   else if scode =? 487 then
     ice_switch_local_role ;;
     _ ← icem_conncheck_send p false;
     mret tt
   else icem_candpair_failed p err scode) ;;
  pace_go.

Definition pace_timeout : IM unit := modify (set_pace false) ;; pace_go.

Definition icem_conncheck_start : IM Z :=
  err ← icem_checklist_form;
  if negb (err =? 0) then mret err else
  modify (set_cstate CL_RUNNING) ;;
  modify (set_pace true) ;;
  mret 0.

Definition icem_conncheck_continue : IM unit := modify (fun i => if pace i then i else set_pace true i).

Definition icem_conncheck_stop (err : Z) : IM unit :=
  modify (set_cstate (if err =? 0 then CL_COMPLETED else CL_FAILED)) ;;
  modify (set_pace false) ;;
  l ← gets checkl;
  for_each (fun p =>
    d ← get_pair p;
    when (negb (iscompleted_state (p_state d))) (icem_candpair_cancel p ;; icem_candpair_failed p EINTR 0)) l ;;
  icem_checklist_update pace_go.

(** ** Binding requests (stunsrv.c) *)

Definition triggered_check (l r : nat) : IM unit :=
  ls ← gets checkl;
  p ← icem_candpair_find ls (Some l) (Some r);
  match p with
  | None => mret tt
  | Some p =>
    d ← get_pair p;
    match p_state d with
    | FAILED => icem_candpair_set_state p WAITING ;; _ ← icem_conncheck_send p false; mret tt
    | FROZEN | WAITING => _ ← icem_conncheck_send p false; mret tt
    | INPROGRESS | SUCCEEDED => mret tt
    end
  end.

(** [rnd]: the random foundation of a new candidate. *)
Definition handle_stun_full (rnd compid : Z) (src : sa) (prio : Z) (use_cand : bool) : IM Z :=
  rs ← gets rcandl;
  r ← cand_find_in rs compid (mk_ref None src);
  '(err, r) ← match r with Some r => mret (0, Some r) | None => icem_rcand_add_prflx rnd compid prio src end;
  match r with
  | None => mret err
  | Some r =>
    p ← icem_candpair_find_rcand r;
    l ← match p with
        | Some p => d ← get_pair p; mret (Some (p_lcand d))
        | None => icem_lcand_find_checklist compid
        end;
    match l with
    | None => mret 0
    | Some l =>
      triggered_check l r ;;
      p ← match p with Some p => mret (Some p) | None => icem_candpair_find_rcand r end;
      match p with
      | None => mret 0
      | Some p =>
        d ← get_pair p;
        role ← gets lrole;
        when (use_cand && bool_decide (role = CONTROLLED) && bool_decide (p_state d = SUCCEEDED)) (upd_pair p set_nominated) ;;
        mret 0
      end
    end
  end.

(** What is answered: nothing, a success response, or an error response. *)
Inductive answer := a_drop (err : Z) | a_success | a_error (scode : Z).

Definition COLON : Z := 58.
Fixpoint strip (l : list Z) : list Z := match l with c :: l' => if c =? COLON then strip l' else l | [] => [] end.
Fixpoint upto (l : list Z) : list Z * option (list Z) :=
  match l with
  | [] => ([], None)
  | c :: l => if c =? COLON then ([], Some l) else let '(a, b) := upto l in (c :: a, b)
  end.
(** "[^:]+:[^]+": the first field is not empty and the second has a character. *)
Definition parse_username (s : list Z) : option (list Z * list Z) :=
  let '(lu, ru) := upto (strip s) in
  match ru with Some (c :: ru) => Some (lu, c :: ru) | _ => None end.

(** A C string ends at its first NUL. *)
Fixpoint c_str (s : list Z) : list Z := match s with c :: s => if c =? 0 then [] else c :: c_str s | [] => [] end.

Definition attr_64 (m : stun_msg) (type : Z) : option Z :=
  match a_v <$> stun_msg_attr m type with Some (v_64 n) => Some n | _ => None end.
Definition attr_32 (m : stun_msg) (type : Z) : option Z :=
  match a_v <$> stun_msg_attr m type with Some (v_32 n) => Some n | _ => None end.

(** [fp_err], [mi_err]: the results of [stun_msg_chk_fingerprint] and, with
    the local password, of [stun_msg_chk_mi]. *)
Definition icem_stund_recv (rnd compid : Z) (src : sa) (req : stun_msg) (fp_err mi_err : Z) : IM answer :=
  if negb (fp_err =? 0) then mret (a_drop fp_err) else
  if negb (mi_err =? 0) then mret (a_error (if mi_err =? EBADMSG then 401 else 400)) else
  match a_v <$> stun_msg_attr req STUN_ATTR_USERNAME with
  | Some (v_str u) =>
    i ← gets id;
    match parse_username (c_str u) with
    | None => mret (a_error 401)
    | Some (lu, ru) =>
      if negb (bool_decide (lu = lufrag i)) || (negb (bool_decide (rufrag i = [])) && negb (bool_decide (ru = rufrag i)))
      then mret (a_error 401) else
      let controlled := attr_64 req STUN_ATTR_CONTROLLED in
      let controlling := attr_64 req STUN_ATTR_CONTROLLING in
      let rrole := match controlling, controlled with Some _, _ => CONTROLLING | None, Some _ => CONTROLLED | None, None => UNKNOWN end in
      let tie := match controlling, controlled with Some t, _ => t | None, Some t => t | None, None => 0 end in
      if bool_decide (rrole = lrole i) && (tiebrk i <? tie) then mret (a_error 487) else
      when (bool_decide (rrole = lrole i)) ice_switch_local_role ;;
      match attr_32 req STUN_ATTR_PRIORITY with
      | None => mret (a_error 400)
      | Some prio =>
        let use_cand := bool_decide (is_Some (stun_msg_attr req STUN_ATTR_USE_CAND)) in
        err ← handle_stun_full rnd compid src prio use_cand;
        mret (if err =? 0 then a_success else a_error 400)
      end
    end
  | _ => mret (a_error 400)
  end.

(** ** The media stream (icem.c) *)

(** [mode_full], [udp]: the mode and protocol asked for; [stun_err]: the result
    of [stun_alloc]. *)
Definition icem_alloc (mode_full udp : bool) (r : role) (tie : Z) (ufrag pwd : list Z) (handler : bool) (stun_err : Z)
  : Z * option icem :=
  if tie =? 0 then (EINVAL, None) else
  if negb mode_full then (EINVAL, None) else
  if (zlen ufrag <? 4) || (zlen pwd <? 22) then (EINVAL, None) else
  if negb udp then (EPROTONOSUPPORT, None) else
  if negb (alloc_ok 600) then (ENOMEM, None) else
  if negb (alloc_ok (zlen ufrag + 1)) || negb (alloc_ok (zlen pwd + 1)) then (ENOMEM, None) else
  if negb (stun_err =? 0) then (stun_err, None) else
  (0, Some (mk_icem [] [] [] [] ∅ ∅ [] tie false r ufrag [] CL_NULL false handler [] [] 0 0)).

Definition icem_set_role (r : role) : IM unit := modify (fun i => set_lrole (if rlite i then CONTROLLING else r) i).

(** [sock_err], [lport]: the results of the socket calls. *)
Definition icem_comp_alloc (id sock_err lport : Z) : Z * option icem_comp :=
  if (id <? 1) || (255 <? id) then (EINVAL, None) else
  if negb (alloc_ok 200) then (ENOMEM, None) else
  if negb (sock_err =? 0) then (sock_err, None) else
  (0, Some (mk_comp id None None None lport false false false)).

Definition icem_comp_add (compid sock_err lport : Z) : IM Z :=
  c ← icem_comp_find compid;
  match c with
  | Some _ => mret EALREADY
  | None =>
    match icem_comp_alloc compid sock_err lport with
    | (_, Some comp) => modify (fun i => set_comps (comps i ++ [comp]) i) ;; mret 0
    | (err, None) => mret err
    end
  end.

Definition icem_cand_add (compid lprio : Z) (addr : sa) : IM Z :=
  c ← icem_comp_find compid;
  match c with None => mret ENOENT | Some _ => icem_lcand_add_base compid lprio addr end.

End Env.

End Ice.
