(* ===== verification/IceProps.v ===== *)
(** * Properties of ICE: objects and states

    Every operation is defined on a well-formed media stream, keeps it
    well-formed, and lets it only evolve: candidates stay, pairs keep their
    candidates and priority, and a pair whose check has completed keeps its
    state. *)

From Stdlib Require Import Sorted.
From stdpp Require Import gmap.
From S2P Require Import Prelude Effects StunMsg Tmr Ice.
Import Stun Ice.

Definition has (i : icem) (p : nat) : Prop := is_Some (pairs i !! p).
Definition has_cand (i : icem) (c : nat) : Prop := is_Some (cands i !! c).

(** A local candidate with its base. *)
Definition has_base (i : icem) (c : nat) : Prop :=
  exists d b, cands i !! c = Some d /\ c_base d = Some b /\ has_cand i b.

(** By falling priority. *)
Definition falling (f : nat -> Z) (l : list nat) : Prop := Tm.sorted_by (fun x => - f x) l.

Record wf (i : icem) : Prop := {
  wf_lcands : forall c, c ∈ lcandl i -> has_base i c;
  wf_rcands : forall c, c ∈ rcandl i -> has_cand i c;
  wf_pairs : forall p d, pairs i !! p = Some d ->
    has_base i (p_lcand d) /\ has_cand i (p_rcand d) /\ p_comp d ∈ map m_id (comps i);
  wf_lists : forall p, p ∈ checkl i ++ validl i -> has i p;
  wf_nodup : NoDup (checkl i ++ validl i);
  wf_sel : forall c p, c ∈ comps i -> m_sel c = Some p -> p ∈ validl i;
  wf_fresh : forall n, (fresh i <= n)%nat -> cands i !! n = None /\ pairs i !! n = None;
  wf_check_sorted : falling (pprio_of i) (checkl i);
  wf_valid_sorted : falling (pprio_of i) (validl i) }.

(** What no step takes back. *)
Definition pair_evolves (d d' : ice_candpair) : Prop :=
  p_comp d' = p_comp d /\ p_lcand d' = p_lcand d /\ p_rcand d' = p_rcand d /\ p_pprio d' = p_pprio d /\
  (iscompleted_state (p_state d) = true -> p_state d' = p_state d).

(** A check names its role, and only a controlling agent nominates. *)
Definition fair (k : check) : Prop := k_role k <> UNKNOWN /\ (k_use k = true -> k_role k = CONTROLLING).

Record evolves (i i' : icem) : Prop := {
  ev_wf : wf i';
  ev_cands : forall c d, cands i !! c = Some d -> cands i' !! c = Some d;
  ev_pairs : forall p d, pairs i !! p = Some d -> exists d', pairs i' !! p = Some d' /\ pair_evolves d d';
  ev_ids : forall x, x ∈ map m_id (comps i) -> x ∈ map m_id (comps i');
  ev_valid : forall p, p ∈ validl i -> p ∈ validl i';
  ev_sent : exists ks, sent i' = sent i ++ ks /\ Forall fair ks }.

Lemma none_sent (l l' : list check) : l' = l -> exists ks, l' = l ++ ks /\ Forall fair ks.
Proof. intros ->. exists []. by rewrite app_nil_r. Qed.

Lemma pair_evolves_refl d : pair_evolves d d.
Proof. by split_and!. Qed.

Lemma evolves_refl i : wf i -> evolves i i.
Proof.
  intros H. split; try done; [intros p d Hd; exists d; split; [done|apply pair_evolves_refl]|].
  by apply none_sent.
Qed.

Lemma evolves_trans a b c : evolves a b -> evolves b c -> evolves a c.
Proof.
  intros H1 H2. split; [by destruct H2|..].
  - intros x d Hd. by apply (ev_cands _ _ H2), (ev_cands _ _ H1).
  - intros p d Hd. destruct (ev_pairs _ _ H1 p d Hd) as (d1 & E1 & A1 & A2 & A3 & A4 & A5).
    destruct (ev_pairs _ _ H2 p d1 E1) as (d2 & E2 & B1 & B2 & B3 & B4 & B5). exists d2. split; [done|].
    split_and!; try congruence. intros Hc. rewrite B5; [by apply A5|]. by rewrite A5.
  - intros x Hx. by apply (ev_ids _ _ H2), (ev_ids _ _ H1).
  - intros p Hp. by apply (ev_valid _ _ H2), (ev_valid _ _ H1).
  - destruct (ev_sent _ _ H1) as (k1 & E1 & F1), (ev_sent _ _ H2) as (k2 & E2 & F2). exists (k1 ++ k2).
    rewrite E2, E1, app_assoc. split; [done|]. by apply Forall_app.
Qed.

(** A step that leaves the two lists of pairs alone. *)
Definition quiet (i i' : icem) : Prop := evolves i i' /\ checkl i' = checkl i /\ validl i' = validl i.

Class Steps (R : icem -> icem -> Prop) : Prop := {
  st_refl : forall i, wf i -> R i i;
  st_trans : forall a b c, R a b -> R b c -> R a c;
  st_evolves : forall i i', R i i' -> evolves i i' }.

#[export] Instance steps_evolves : Steps evolves.
Proof. split; [apply evolves_refl|apply evolves_trans|done]. Qed.
#[export] Instance steps_quiet : Steps quiet.
Proof.
  split; [intros i Hw; split; [by apply evolves_refl|done]| |by intros i i' []].
  intros a b c (H1 & E1 & F1) (H2 & E2 & F2). split; [by eapply evolves_trans|]. split; congruence.
Qed.

Lemma has_evolves i i' p : evolves i i' -> has i p -> has i' p.
Proof. intros H [d Hd]. destruct (ev_pairs _ _ H p d Hd) as (d' & E & _). by eexists. Qed.
Lemma has_cand_evolves i i' c : evolves i i' -> has_cand i c -> has_cand i' c.
Proof. intros H [d Hd]. exists d. by apply (ev_cands _ _ H). Qed.
Lemma has_base_evolves i i' c : evolves i i' -> has_base i c -> has_base i' c.
Proof.
  intros H (d & b & Hd & Hb & Hc). exists d, b. split; [by apply (ev_cands _ _ H)|]. split; [done|].
  by eapply has_cand_evolves.
Qed.

(** ** The rules

    [goes R P m Q]: from a well-formed stream with [P] the program is defined,
    takes the stream a step of [R] further, and [Q] holds of the result. *)

Definition goes (R : icem -> icem -> Prop) {A} (P : icem -> Prop) (m : IM A) (Q : A -> icem -> Prop) : Prop :=
  forall i, wf i -> P i -> exists r i', m i = Some (r, i') /\ R i i' /\ Q r i'.

(** Properties that survive the steps. *)
Class Stable (R : icem -> icem -> Prop) (P : icem -> Prop) : Prop := stable : forall i i', R i i' -> P i -> P i'.

#[export] Instance stable_true R : Stable R (fun _ => True).
Proof. by intros i i'. Qed.
#[export] Instance stable_pure R (P : Prop) : Stable R (fun _ => P).
Proof. by intros i i'. Qed.
#[export] Instance stable_and R P Q `{!Stable R P, !Stable R Q} : Stable R (fun i => P i /\ Q i).
Proof. intros i i' H [HP HQ]. split; by eapply stable. Qed.
#[export] Instance stable_forall {A} R (P : A -> icem -> Prop) `{!forall x, Stable R (P x)} : Stable R (fun i => forall x, P x i).
Proof. intros i i' Hev HP x. by eapply (stable (P := P x)). Qed.
#[export] Instance stable_impl R (Q : Prop) (P : icem -> Prop) `{!Stable R P} : Stable R (fun i => Q -> P i).
Proof. intros i i' Hev HP q. eapply stable; [done|by apply HP]. Qed.

Section Rules.
Context {R : icem -> icem -> Prop} `{!Steps R}.

#[export] Instance stable_has p : Stable R (fun i => has i p).
Proof. intros i i' H. apply has_evolves. by apply st_evolves. Qed.
#[export] Instance stable_has_cand c : Stable R (fun i => has_cand i c).
Proof. intros i i' H. apply has_cand_evolves. by apply st_evolves. Qed.
#[export] Instance stable_has_base c : Stable R (fun i => has_base i c).
Proof. intros i i' H. apply has_base_evolves. by apply st_evolves. Qed.
#[export] Instance stable_cand c d : Stable R (fun i => cands i !! c = Some d).
Proof. intros i i' H. apply (ev_cands i i'). by apply st_evolves. Qed.
#[export] Instance stable_id x : Stable R (fun i => x ∈ map m_id (comps i)).
Proof. intros i i' H. apply (ev_ids i i'). by apply st_evolves. Qed.
#[export] Instance stable_valid p : Stable R (fun i => p ∈ validl i).
Proof. intros i i' H. apply (ev_valid i i'). by apply st_evolves. Qed.

Lemma goes_ret {A} (P : icem -> Prop) (x : A) (Q : A -> icem -> Prop) : (forall i, P i -> Q x i) -> goes R P (mret x) Q.
Proof. intros H i Hw HP. exists x, i. split; [done|]. split; [by apply st_refl|by apply H]. Qed.

Lemma goes_bind {A B} P (m : IM A) (f : A -> IM B) Q T `{!Stable R P} :
  goes R P m Q -> (forall x, goes R (fun i => P i /\ Q x i) (f x) T) -> goes R P (m ≫= f) T.
Proof.
  intros Hm Hf i Hw HP. destruct (Hm i Hw HP) as (x & i1 & E1 & V1 & Hq).
  destruct (Hf x i1 (ev_wf _ _ (st_evolves _ _ V1))) as (y & i2 & E2 & V2 & Hr); [split; [by eapply stable|done]|].
  exists y, i2. unfold mbind, M_bind. rewrite E1. split; [done|]. split; [by eapply st_trans|done].
Qed.

Lemma goes_pre {A} (P P' : icem -> Prop) (m : IM A) Q : (forall i, wf i -> P i -> P' i) -> goes R P' m Q -> goes R P m Q.
Proof. intros H Hm i Hw HP. apply Hm; [done|by apply H]. Qed.

Lemma goes_post {A} P (m : IM A) (Q Q' : A -> icem -> Prop) : (forall x i, wf i -> Q x i -> Q' x i) -> goes R P m Q -> goes R P m Q'.
Proof.
  intros H Hm i Hw HP. destruct (Hm i Hw HP) as (x & i1 & E & V & Hq). exists x, i1. split; [done|]. split; [done|].
  apply H; [|done]. by destruct (st_evolves _ _ V).
Qed.

Lemma goes_keep {A} P (m : IM A) Q `{!Stable R P} : goes R P m Q -> goes R P m (fun _ => P).
Proof.
  intros Hm i Hw HP. destruct (Hm i Hw HP) as (x & i1 & E & V & _). exists x, i1. split; [done|]. split; [done|by eapply stable].
Qed.

Lemma goes_seq {A B} P (m : IM A) (f : A -> IM B) T `{!Stable R P} :
  goes R P m (fun _ => P) -> (forall x, goes R P (f x) T) -> goes R P (m ≫= f) T.
Proof. intros Hm Hf. eapply goes_bind; [done|done|]. intros x. eapply goes_pre; [|apply Hf]. by intros i _ []. Qed.

(** A reading of the state. *)
Lemma goes_gets {A} (P : icem -> Prop) (f : icem -> A) (Q : A -> icem -> Prop) :
  (forall i, wf i -> P i -> Q (f i) i) -> goes R P (gets f) Q.
Proof. intros H i Hw HP. exists (f i), i. split; [done|]. split; [by apply st_refl|by apply H]. Qed.

Lemma goes_if {A} P (b : bool) (m n : IM A) Q : goes R P m Q -> goes R P n Q -> goes R P (if b then m else n) Q.
Proof. by destruct b. Qed.

Lemma goes_get_pair P p : (forall i, P i -> has i p) ->
  goes R P (get_pair p) (fun d i => has_base i (p_lcand d) /\ has_cand i (p_rcand d) /\ p_comp d ∈ map m_id (comps i)).
Proof.
  intros H i Hw HP. destruct (H i HP) as [d Hd]. exists d, i. unfold get_pair. rewrite Hd. cbn.
  split; [done|]. split; [by apply st_refl|]. by apply (wf_pairs i Hw p).
Qed.

Lemma goes_get_cand P c : (forall i, P i -> has_cand i c) -> goes R P (get_cand c) (fun d i => cands i !! c = Some d).
Proof.
  intros H i Hw HP. destruct (H i HP) as [d Hd]. exists d, i. unfold get_cand. rewrite Hd. cbn.
  split; [done|]. split; [by apply st_refl|done].
Qed.

End Rules.

#[export] Instance stable_quiet P `{!Stable evolves P} : Stable quiet P | 100.
Proof. intros i i' [H _]. by apply stable. Qed.

Lemma goes_quiet {A} P (m : IM A) Q : goes quiet P m Q -> goes evolves P m Q.
Proof. intros H i Hw HP. destruct (H i Hw HP) as (x & i' & E & V & Hq). exists x, i'. by destruct V. Qed.

(** Fields that the invariant does not see. *)
Definition same_core (i i' : icem) : Prop :=
  lcandl i' = lcandl i /\ rcandl i' = rcandl i /\ checkl i' = checkl i /\ validl i' = validl i /\
  cands i' = cands i /\ pairs i' = pairs i /\ comps i' = comps i /\ fresh i' = fresh i /\ sent i' = sent i.

Lemma pprio_of_pairs i i' p : pairs i' !! p = pairs i !! p -> pprio_of i' p = pprio_of i p.
Proof. unfold pprio_of. by intros ->. Qed.

Lemma same_core_quiet i i' : wf i -> same_core i i' -> quiet i i'.
Proof.
  intros Hw (E1 & E2 & E3 & E4 & E5 & E6 & E7 & E8 & E9).
  assert (Hp : pprio_of i' = pprio_of i) by (unfold pprio_of; by rewrite E6).
  split; [|done]. split; rewrite ?E5, ?E6, ?E7, ?E4, ?E9; try done.
  - destruct Hw. split; unfold has_base, has_cand, has in *; rewrite ?E1, ?E2, ?E3, ?E4, ?E5, ?E6, ?E7, ?E8, ?Hp; done.
  - intros p d Hd. exists d. split; [done|apply pair_evolves_refl].
  - by apply none_sent.
Qed.

Lemma goes_core P (f : icem -> icem) `{!Stable quiet P} : (forall i, same_core i (f i)) -> goes quiet P (modify f) (fun _ => P).
Proof.
  intros Hf i Hw HP. exists tt, (f i). split; [done|]. pose proof (same_core_quiet i (f i) Hw (Hf i)).
  split; [done|by eapply stable].
Qed.

(** ** Pairs *)

(** Changing a pair in place. *)
Lemma put_quiet i p d d' : wf i -> pairs i !! p = Some d -> pair_evolves d d' ->
  quiet i (set_pairs (<[p := d']> (pairs i)) i).
Proof.
  intros Hw Hd Hev. pose proof Hev as (A1 & A2 & A3 & A4 & A5).
  assert (Hpp : forall x, pprio_of (set_pairs (<[p := d']> (pairs i)) i) x = pprio_of i x).
  { intros x. unfold pprio_of. cbn. destruct (decide (x = p)) as [->|Hx]; [by rewrite lookup_insert_eq, Hd|by rewrite lookup_insert_ne]. }
  assert (Hh : forall x, has i x -> has (set_pairs (<[p := d']> (pairs i)) i) x).
  { intros x [e He]. unfold has. cbn. destruct (decide (x = p)) as [->|Hx]; [rewrite lookup_insert_eq|rewrite lookup_insert_ne by done]; by eexists. }
  destruct Hw as [W1 W2 W3 W4 W5 W6 W7 W8 W9]. split; [|done]. split; cbn; try done; [| |by apply none_sent].
  - split; cbn; try done.
    + intros x e He. destruct (decide (x = p)) as [->|Hx].
      * rewrite lookup_insert_eq in He. injection He as <-. rewrite A1, A2, A3. by apply (W3 p).
      * rewrite lookup_insert_ne in He by done. by apply (W3 x).
    + intros x Hx. by apply Hh, W4.
    + intros n Hn. destruct (W7 n Hn) as [? E]. split; [done|]. destruct (decide (n = p)) as [->|]; [congruence|by rewrite lookup_insert_ne].
    + eapply Tm.sorted_ext; [|exact W8]. intros x _. cbv beta. by rewrite Hpp.
    + eapply Tm.sorted_ext; [|exact W9]. intros x _. cbv beta. by rewrite Hpp.
  - intros x e He. destruct (decide (x = p)) as [->|Hx].
    + rewrite lookup_insert_eq. exists d'. split; [done|]. assert (e = d) as -> by congruence. done.
    + rewrite lookup_insert_ne by done. exists e. split; [done|apply pair_evolves_refl].
Qed.

Lemma goes_upd_pair P p f `{!Stable quiet P} : (forall i, P i -> has i p) -> (forall d, pair_evolves d (f d)) ->
  goes quiet P (upd_pair p f) (fun _ => P).
Proof.
  intros H Hf i Hw HP. destruct (H i HP) as [d Hd].
  pose proof (put_quiet i p d (f d) Hw Hd (Hf d)) as V.
  do 2 eexists. split; [unfold upd_pair, get_pair, mbind, M_bind; by rewrite Hd|]. split; [exact V|by eapply stable].
Qed.

Lemma goes_set_state P p s `{!Stable quiet P} : (forall i, P i -> has i p) -> goes quiet P (icem_candpair_set_state p s) (fun _ => P).
Proof.
  intros H. apply goes_upd_pair; [done|done|]. intros d. destruct (_ || _) eqn:E; [apply pair_evolves_refl|].
  apply orb_false_iff in E as [_ E]. split_and!; try done. by rewrite E.
Qed.

Lemma goes_failed P p err scode `{!Stable quiet P} : (forall i, P i -> has i p) -> goes quiet P (icem_candpair_failed p err scode) (fun _ => P).
Proof.
  intros H. unfold icem_candpair_failed. apply goes_seq; [done|by apply goes_upd_pair|].
  intros _. by apply goes_set_state.
Qed.

(** ** The sorted lists *)

Lemma add_sorted_slot i l p : falling (pprio_of i) l ->
  list_add_sorted i l p = Tm.slot (fun x => - pprio_of i x) (- pprio_of i p - 1) p l.
Proof.
  intros Hs. unfold list_add_sorted. rewrite <- Tm.after_last_slot by done. unfold Tm.insert_after_last. f_equal.
  generalize (rev l). intros r. induction r as [|x r IH]; [done|]. cbn. rewrite IH.
  replace (- pprio_of i x <=? - pprio_of i p - 1) with (pprio_of i p <? pprio_of i x) by lia. done.
Qed.

Lemma add_sorted_perm i l p : falling (pprio_of i) l -> list_add_sorted i l p ≡ₚ p :: l.
Proof. intros Hs. rewrite add_sorted_slot by done. apply Tm.slot_perm. Qed.

Lemma add_sorted_falling i l p : falling (pprio_of i) l -> falling (pprio_of i) (list_add_sorted i l p).
Proof.
  intros Hs. rewrite add_sorted_slot by done. unfold Tm.slot, falling. apply Tm.sorted_app; [by apply Tm.sorted_filter| |].
  - cbn. constructor; [by apply Tm.sorted_filter|]. eapply Forall_impl; [apply Tm.filter_forall|]. cbn. lia.
  - intros x y [Hx _]%list_elem_of_filter [->|[Hy _]%list_elem_of_filter]%elem_of_cons; lia.
Qed.

(** From one list to the valid list. *)
Definition validated (i : icem) (p : nat) : icem :=
  set_validl (list_add_sorted i (Tm.without p (validl i)) p) (set_checkl (Tm.without p (checkl i)) i).

Lemma without_app p a b : Tm.without p (a ++ b) = Tm.without p a ++ Tm.without p b.
Proof. apply filter_app. Qed.

Lemma validated_evolves i p : wf i -> has i p -> evolves i (validated i p) /\ p ∈ validl (validated i p).
Proof.
  intros Hw Hp. pose proof Hw as [W1 W2 W3 W4 W5 W6 W7 W8 W9].
  assert (Hs : falling (pprio_of i) (Tm.without p (validl i))) by (by apply Tm.sorted_filter).
  assert (Hperm : validl (validated i p) ≡ₚ p :: Tm.without p (validl i)) by (by apply add_sorted_perm).
  assert (Hin : forall x, x ∈ validl i -> x ∈ validl (validated i p)).
  { intros x Hx. rewrite Hperm. destruct (decide (x = p)) as [->|Hne]; [by left|right]. by apply list_elem_of_filter. }
  split; [|rewrite Hperm; by left]. split; try done.
  - split; try done.
    + intros x [Hx|Hx]%elem_of_app.
      * apply list_elem_of_filter in Hx as [_ Hx]. apply W4, elem_of_app. by left.
      * rewrite Hperm in Hx. apply elem_of_cons in Hx as [->|Hx]; [done|]. apply list_elem_of_filter in Hx as [_ Hx].
        apply W4, elem_of_app. by right.
    + change (checkl (validated i p)) with (Tm.without p (checkl i)). rewrite Hperm, Permutation_app_comm. cbn.
      constructor; [by intros [[? _]%list_elem_of_filter|[? _]%list_elem_of_filter]%elem_of_app|].
      rewrite Permutation_app_comm, <- without_app. by apply NoDup_filter.
    + intros c x Hc Hx. by eapply Hin, W6.
    + change (pprio_of (validated i p)) with (pprio_of i). by apply Tm.sorted_filter.
    + change (pprio_of (validated i p)) with (pprio_of i). by apply add_sorted_falling.
  - intros x d Hd. exists d. split; [done|apply pair_evolves_refl].
  - by apply none_sent.
Qed.

Lemma goes_validated P p `{!Stable evolves P} : (forall i, P i -> has i p) ->
  goes evolves P (unlink p ;; modify (fun i => set_validl (list_add_sorted i (validl i) p) i)) (fun _ i => P i /\ p ∈ validl i).
Proof.
  intros H i Hw HP. destruct (validated_evolves i p Hw (H i HP)) as [V Hin].
  exists tt, (validated i p). split; [done|]. split; [done|]. split; [by eapply stable|done].
Qed.

Lemma goes_make_valid P p `{!Stable evolves P} : (forall i, P i -> has i p) ->
  goes evolves P (icem_candpair_make_valid p) (fun _ i => P i /\ p ∈ validl i).
Proof.
  intros H. unfold icem_candpair_make_valid. apply goes_seq; [apply _|by apply goes_quiet, goes_upd_pair; [apply _|..]|]. intros _.
  apply goes_seq; [apply _|by apply goes_quiet, goes_set_state; [apply _|..]|]. intros _. by apply goes_validated.
Qed.

(** ** New objects *)

(** A new pair in the checklist. *)
Definition with_pair (i : icem) (d : ice_candpair) : icem :=
  let i1 := set_pairs (<[fresh i := d]> (pairs i)) (set_fresh (S (fresh i)) i) in
  set_checkl (list_add_sorted i1 (checkl i) (fresh i)) i1.

Lemma with_pair_evolves i d : wf i -> has_base i (p_lcand d) -> has_cand i (p_rcand d) -> p_comp d ∈ map m_id (comps i) ->
  evolves i (with_pair i d) /\ has (with_pair i d) (fresh i) /\ checkl (with_pair i d) ≡ₚ fresh i :: checkl i.
Proof.
  intros Hw Hl Hr Hc. pose proof Hw as [W1 W2 W3 W4 W5 W6 W7 W8 W9]. set (n := fresh i) in *.
  destruct (W7 n (Nat.le_refl _)) as [_ Hn].
  set (i1 := set_pairs (<[n := d]> (pairs i)) (set_fresh (S n) i)).
  assert (Hne : forall x, has i x -> x <> n) by (intros x [e He] ->; congruence).
  assert (Hh : forall x, has i x -> has (with_pair i d) x).
  { intros x Hx. unfold has. cbn. rewrite lookup_insert_ne; [done|]. intros E. by apply (Hne x Hx). }
  assert (Hpp : forall x, has i x -> - pprio_of i x = - pprio_of i1 x).
  { intros x Hx. unfold pprio_of. cbn. rewrite lookup_insert_ne; [done|]. intros E. by apply (Hne x Hx). }
  assert (S8 : falling (pprio_of i1) (checkl i)).
  { eapply Tm.sorted_ext; [|exact W8]. intros x Hx. apply Hpp, W4, elem_of_app. by left. }
  assert (S9 : falling (pprio_of i1) (validl i)).
  { eapply Tm.sorted_ext; [|exact W9]. intros x Hx. apply Hpp, W4, elem_of_app. by right. }
  assert (Hperm : checkl (with_pair i d) ≡ₚ n :: checkl i) by (by apply add_sorted_perm).
  assert (Hnew : has (with_pair i d) n) by (unfold has; cbn; rewrite lookup_insert_eq; by eexists).
  split; [|done]. split; try done.
  - split; try done.
    + intros x e He. cbn in He. destruct (decide (x = n)) as [->|Hx].
      * rewrite lookup_insert_eq in He. by injection He as <-.
      * rewrite lookup_insert_ne in He by done. by apply (W3 x).
    + intros x Hx. change (validl (with_pair i d)) with (validl i) in Hx. rewrite Hperm in Hx.
      apply elem_of_cons in Hx as [->|Hx]; [done|]. by apply Hh, W4.
    + change (validl (with_pair i d)) with (validl i). rewrite Hperm. cbn. constructor; [|done].
      intros Hx. by apply (Hne n (W4 n Hx)).
    + intros m Hm. cbn in Hm. destruct (W7 m ltac:(lia)) as [? ?]. cbn. split; [done|]. rewrite lookup_insert_ne by lia. done.
    + by apply (add_sorted_falling i1).
  - intros x e He. exists e. split; [|apply pair_evolves_refl]. cbn. rewrite lookup_insert_ne; [done|].
    intros E. apply (Hne x); [by eexists|done].
  - by apply none_sent.
Qed.

(** A new candidate; [local]: with its base. *)
Definition with_cand (i : icem) (local : bool) (d : ice_cand) : icem :=
  let i1 := set_cands (<[fresh i := d]> (cands i)) (set_fresh (S (fresh i)) i) in
  if local then set_lcandl (lcandl i ++ [fresh i]) i1 else set_rcandl (rcandl i ++ [fresh i]) i1.

Lemma with_cand_evolves i (local : bool) d : wf i ->
  (if local then exists b, c_base d = Some b /\ (b = fresh i \/ has_cand i b) else True) ->
  evolves i (with_cand i local d) /\ has_cand (with_cand i local d) (fresh i).
Proof.
  intros Hw Hb. pose proof Hw as [W1 W2 W3 W4 W5 W6 W7 W8 W9]. set (n := fresh i) in *.
  destruct (W7 n (Nat.le_refl _)) as [Hn _].
  assert (Ec : cands (with_cand i local d) = <[n := d]> (cands i)) by (by destruct local).
  assert (Hnew : has_cand (with_cand i local d) n) by (unfold has_cand; rewrite Ec, lookup_insert_eq; by eexists).
  assert (Hk : forall c e, cands i !! c = Some e -> cands (with_cand i local d) !! c = Some e).
  { intros c e He. rewrite Ec, lookup_insert_ne; [done|]. intros E. congruence. }
  assert (Hh : forall c, has_cand i c -> has_cand (with_cand i local d) c) by (intros c [e He]; exists e; by apply Hk).
  assert (Hhb : forall c, has_base i c -> has_base (with_cand i local d) c).
  { intros c (e & b & He & Hb' & Hc). exists e, b. split; [by apply Hk|]. split; [done|by apply Hh]. }
  split; [|done]. split; try (by destruct local).
  - split; try (by destruct local).
    + intros c Hc. destruct local; [|by apply Hhb, W1]. cbn in Hc. apply elem_of_app in Hc as [Hc|Hc]; [by apply Hhb, W1|].
      apply list_elem_of_singleton in Hc as ->. destruct Hb as (b & Eb & Hb). exists d, b.
      split; [by rewrite Ec, lookup_insert_eq|]. split; [done|]. destruct Hb as [->|Hb]; [done|by apply Hh].
    + intros c Hc. destruct local; [by apply Hh, W2|]. cbn in Hc. apply elem_of_app in Hc as [Hc|Hc]; [by apply Hh, W2|].
      by apply list_elem_of_singleton in Hc as ->.
    + intros p e He. assert (Hp : pairs (with_cand i local d) = pairs i) by (by destruct local). rewrite Hp in He.
      destruct (W3 p e He) as (H1 & H2 & H3). split; [by apply Hhb|]. split; [by apply Hh|by destruct local].
    + intros m Hm. assert (Hf : fresh (with_cand i local d) = S n) by (by destruct local). rewrite Hf in Hm.
      destruct (W7 m ltac:(lia)) as [? ?]. rewrite Ec, lookup_insert_ne by lia. split; [done|by destruct local].
  - intros p e He. exists e. split; [by destruct local|apply pair_evolves_refl].
  - apply none_sent. by destruct local.
Qed.
