(* ===== verification/IceSteps.v ===== *)
(** * Connectivity checks are defined and terminate

    The functions of connchk.c call one another through [pace_next].  Each
    turn of that recursion completes one more pair of the checklist, so that
    the turns [pace_go] has are enough. *)

From stdpp Require Import gmap.
From S2P Require Import Prelude Effects StunMsg Tmr Ice IceProps.
Import Stun Ice.

(** ** Searches *)

(** What a search through a list of pairs says. *)
Definition found (i : icem) (l : list nat) (f : ice_candpair -> bool) (r : option nat) : Prop :=
  match r with
  | Some p => p ∈ l /\ exists d, pairs i !! p = Some d /\ f d = true
  | None => forall p d, p ∈ l -> pairs i !! p = Some d -> f d = false
  end.

Lemma pair_find_run i l f : (forall p, p ∈ l -> has i p) -> exists r, pair_find_in l f i = Some (r, i) /\ found i l f r.
Proof.
  induction l as [|p l IH]; intros H; [exists None; split; [done|by intros p d ?%not_elem_of_nil]|].
  destruct (H p ltac:(by left)) as [d Hd]. cbn. unfold get_pair, mbind, M_bind. rewrite Hd. cbn.
  destruct (f d) eqn:Ef; [exists (Some p); split; [done|]; split; [by left|by exists d]|].
  destruct IH as (r & E & Hr); [intros q Hq; apply H; by right|]. exists r. split; [done|]. destruct r as [q|]; cbn in *.
  - destruct Hr as [Hq Hd']. split; [by right|done].
  - intros q e [->|Hq]%elem_of_cons He; [congruence|by apply (Hr q)].
Qed.

Section Searches.
Context {R : icem -> icem -> Prop} `{!Steps R}.

(** A program that only reads. *)
Lemma goes_read {A} (P : icem -> Prop) (m : IM A) (Q : A -> icem -> Prop) :
  (forall i, wf i -> P i -> exists r, m i = Some (r, i) /\ Q r i) -> goes R P m Q.
Proof. intros H i Hw HP. destruct (H i Hw HP) as (r & E & Hq). exists r, i. split; [done|]. split; [by apply st_refl|done]. Qed.

Lemma goes_find_in P l f : (forall i, wf i -> P i -> forall p, p ∈ l -> has i p) ->
  goes R P (pair_find_in l f) (fun r i => found i l f r).
Proof. intros H. apply goes_read. intros i Hw HP. apply pair_find_run. by apply H. Qed.

Lemma goes_find_st P l compid s : (forall i, wf i -> P i -> forall p, p ∈ l -> has i p) ->
  goes R P (icem_candpair_find_st l compid s) (fun r i =>
    match r with
    | Some p => p ∈ l /\ exists d, pairs i !! p = Some d /\ p_state d = s
    | None => compid = 0 -> forall p d, p ∈ l -> pairs i !! p = Some d -> p_state d <> s
    end).
Proof.
  intros H. apply goes_read. intros i Hw HP. destruct (pair_find_run i l (fun d =>
    ((compid =? 0) || match cands i !! p_lcand d with Some c => c_compid c =? compid | None => false end)
    && bool_decide (p_state d = s)) (H i Hw HP)) as (r & E & Hr).
  exists r. split; [done|]. destruct r as [p|]; cbn in Hr.
  - destruct Hr as (Hp & d & Hd & Hf). split; [done|]. exists d. split; [done|]. apply andb_true_iff in Hf as [_ Hf].
    by apply bool_decide_eq_true in Hf.
  - intros -> p d Hp Hd Hs. specialize (Hr p d Hp Hd). cbn in Hr. by rewrite Hs, bool_decide_true in Hr.
Qed.

Lemma goes_find_compid P l compid : (forall i, wf i -> P i -> forall p, p ∈ l -> has i p) ->
  goes R P (icem_candpair_find_compid l compid) (fun _ _ => True).
Proof.
  intros H. apply goes_read. intros i Hw HP. edestruct (pair_find_run i l) as (r & E & _); [by apply H|].
  exists r. split; [exact E|done].
Qed.

Lemma goes_find_rcand P rc : goes R P (icem_candpair_find_rcand rc) (fun r i => forall p, r = Some p -> has i p).
Proof.
  apply goes_read. intros i Hw _.
  assert (H : forall l, (forall p, p ∈ l -> has i p) -> exists r, icem_candpair_find l None (Some rc) i = Some (r, i) /\
    forall p, r = Some p -> has i p).
  { intros l Hl. edestruct (pair_find_run i l) as (r & E & Hr); [exact Hl|]. exists r. split; [exact E|].
    intros p ->. by apply Hl, Hr. }
  unfold icem_candpair_find_rcand, gets, mbind, M_bind.
  destruct (H (checkl i)) as (r & E & Hr); [intros p Hp; apply (wf_lists i Hw), elem_of_app; by left|]. rewrite E.
  destruct r as [p|]; [by exists (Some p)|]. apply H. intros p Hp. apply (wf_lists i Hw), elem_of_app. by right.
Qed.

Lemma goes_cand_find P l compid a : (forall i, wf i -> P i -> forall c, c ∈ l -> has_cand i c) ->
  goes R P (cand_find_in l compid a) (fun r _ => forall c, r = Some c -> c ∈ l).
Proof.
  intros H. apply goes_read. intros i Hw HP. specialize (H i Hw HP). clear HP.
  induction l as [|c l IH]; [by exists None|]. destruct (H c ltac:(by left)) as [d Hd].
  cbn. unfold get_cand, mbind, M_bind. rewrite Hd. cbn. destruct (_ || _).
  - destruct IH as (r & E & Hr); [intros x Hx; apply H; by right|]. exists r. split; [done|]. intros x ->. right. by apply Hr.
  - exists (Some c). split; [done|]. intros x [= <-]. by left.
Qed.

Lemma goes_lcand_find P compid : goes R P (icem_lcand_find_checklist compid) (fun r i => forall c, r = Some c -> has_base i c).
Proof.
  apply goes_read. intros i Hw _. unfold icem_lcand_find_checklist, gets, mbind, M_bind.
  assert (H : forall p, p ∈ checkl i -> has i p) by (intros p Hp; apply (wf_lists i Hw), elem_of_app; by left).
  induction (checkl i) as [|p l IH]; [by exists None|]. destruct (H p ltac:(by left)) as [d Hd].
  destruct (wf_pairs i Hw p d Hd) as (Hb & _). pose proof Hb as (c & b & Hc & _).
  cbn. unfold get_pair, get_cand, mbind, M_bind. rewrite Hd. cbn. rewrite Hc. cbn.
  destruct (_ && _); [|apply IH; intros x Hx; apply H; by right].
  exists (Some (p_lcand d)). split; [done|]. by intros x [= <-].
Qed.

Lemma goes_comp_find P id : goes R P (icem_comp_find id) (fun r i => id ∈ map m_id (comps i) -> is_Some r).
Proof.
  apply goes_read. intros i _ _. eexists. split; [done|]. intros (c & -> & Hc)%list_elem_of_fmap.
  destruct (find _ (comps i)) eqn:E; [done|]. eapply find_none in E; [|by apply list_elem_of_In]. cbn in E. lia.
Qed.

End Searches.

(** ** Pairs whose check is not over *)

Definition is_open (i : icem) (p : nat) : bool :=
  match pairs i !! p with Some d => negb (iscompleted_state (p_state d)) | None => true end.

(** At most [n] open pairs are left in the checklist, besides [p]. *)
Definition left_but (n p : nat) (i : icem) : Prop :=
  (length (filter (fun x => is_open i x = true /\ x <> p) (checkl i)) <= n)%nat.
Definition left (n : nat) (i : icem) : Prop := (length (filter (fun x => is_open i x = true) (checkl i)) <= n)%nat.
Definition over (i : icem) (p : nat) : Prop := is_open i p = false.

Lemma open_falls i i' p : evolves i i' -> is_open i' p = true -> is_open i p = true.
Proof.
  unfold is_open. intros H. destruct (pairs i !! p) as [d|] eqn:E; [|done].
  destruct (ev_pairs _ _ H p d E) as (d' & -> & _ & _ & _ & _ & Hc). destruct (iscompleted_state (p_state d)) eqn:Ed; [|done].
  by rewrite Hc, Ed.
Qed.

Lemma filter_length_le {A} (P Q : A -> Prop) `{!forall x, Decision (P x), !forall x, Decision (Q x)} (l : list A) :
  (forall x, P x -> Q x) -> (length (filter P l) <= length (filter Q l))%nat.
Proof.
  intros Himp. induction l as [|x l IH]; [done|]. rewrite !filter_cons. repeat case_decide; cbn; try lia. naive_solver.
Qed.

#[export] Instance stable_left n : Stable quiet (left n).
Proof.
  intros i i' (H & E & _) Hl. unfold left in *. rewrite E. etransitivity; [|exact Hl]. apply filter_length_le.
  intros x. by apply open_falls.
Qed.
#[export] Instance stable_left_but n p : Stable quiet (left_but n p).
Proof.
  intros i i' (H & E & _) Hl. unfold left_but in *. rewrite E. etransitivity; [|exact Hl]. apply filter_length_le.
  intros x [Hx ?]. split; [by eapply open_falls|done].
Qed.
#[export] Instance stable_over p : Stable quiet (fun i => over i p).
Proof. intros i i' (H & _) Hl. unfold over in *. destruct (is_open i' p) eqn:E; [|done]. by rewrite (open_falls i i' p H E) in Hl. Qed.

Lemma left_over n p i : left_but n p i -> over i p -> left n i.
Proof.
  intros H Ho. unfold left, left_but in *. etransitivity; [|exact H]. apply filter_length_le. intros x Hx. split; [done|]. intros ->. unfold over in Ho. congruence.
Qed.

(** An open pair is one of those that are left. *)
Lemma left_pick n p i : wf i -> left n i -> p ∈ checkl i -> is_open i p = true -> exists m, n = S m /\ left_but m p i.
Proof.
  intros Hw Hl Hp Ho. assert (Hlt : (length (filter (fun x => is_open i x = true /\ x <> p) (checkl i)) <
    length (filter (fun x => is_open i x = true) (checkl i)))%nat).
  { clear Hl. revert Hp. generalize (checkl i). intros l. induction l as [|x l IH]; [by intros ?%not_elem_of_nil|].
    pose proof (filter_length_le (fun x => is_open i x = true /\ x <> p) (fun x => is_open i x = true) l ltac:(by intros y [? _])) as Hle.
    rewrite !filter_cons. intros Hx. destruct (decide (x = p)) as [->|Hne].
    - rewrite decide_False by tauto. rewrite decide_True by done. cbn. lia.
    - apply elem_of_cons in Hx as [->|Hx]; [done|]. specialize (IH Hx). repeat case_decide; cbn; try lia. tauto. }
  unfold left, left_but in *. destruct n as [|m]; [lia|]. exists m. split; [done|]. lia.
Qed.

Lemma none_left i : (forall p, p ∈ checkl i -> over i p) -> left 0 i.
Proof.
  intros H. unfold left. destruct (filter _ (checkl i)) as [|p l] eqn:E; [done|].
  assert (Hp : p ∈ filter (fun x => is_open i x = true) (checkl i)) by (rewrite E; by left).
  apply list_elem_of_filter in Hp as [Ho Hp]. specialize (H p Hp). unfold over in H. congruence.
Qed.

Lemma left_length i : left (length (checkl i)) i.
Proof. unfold left. apply length_filter. Qed.

(** ** Sending a check *)

Lemma goes_upd_comp P id f `{!Stable quiet P} : (forall c, m_id (f c) = m_id c) ->
  (forall i c p, P i -> m_sel (f c) = Some p -> m_sel c = Some p \/ p ∈ validl i) -> goes quiet P (upd_comp id f) (fun _ => P).
Proof.
  intros Hid Hsel i Hw HP. set (g := fun c => if m_id c =? id then f c else c).
  assert (Hg : map m_id (map g (comps i)) = map m_id (comps i)).
  { rewrite map_map. apply map_ext. intros c. unfold g. destruct (_ =? _); [apply Hid|done]. }
  assert (V : quiet i (set_comps (map g (comps i)) i)).
  { destruct Hw as [W1 W2 W3 W4 W5 W6 W7 W8 W9]. split; [|done]. split; cbn; rewrite ?Hg; try done; [| |by apply none_sent].
    - split; try done; cbn; rewrite ?Hg; [done|]. intros c p Hc Hp. apply list_elem_of_fmap in Hc as (c0 & -> & Hc).
      unfold g in Hp. destruct (_ =? _); [|by eapply W6]. destruct (Hsel i c0 p HP Hp) as [Hs|Hs]; [by eapply W6|done].
    - intros p d Hd. exists d. split; [done|apply pair_evolves_refl]. }
  exists tt, (set_comps (map g (comps i)) i). split; [done|]. split; [done|by eapply stable].
Qed.

Lemma goes_sent P k `{!Stable quiet P} : fair k -> goes quiet P (modify (add_sent k)) (fun _ => P).
Proof.
  intros Hk i Hw HP. assert (V : quiet i (add_sent k i)).
  { destruct Hw as [W1 W2 W3 W4 W5 W6 W7 W8 W9]. split; [|done]. split; try done.
    - intros p d Hd. exists d. split; [done|apply pair_evolves_refl].
    - exists [k]. split; [done|]. by constructor. }
  exists tt, (add_sent k i). split; [done|]. split; [done|by eapply stable].
Qed.

(** Steps that leave the invariant's fields alone are one bind away. *)
Ltac core := apply goes_core; [apply _|by intros ?; repeat case_match].
Tactic Notation "step" simple_intropattern(x) "by" tactic3(tac) := eapply goes_bind; [apply _|tac|intros x; cbv beta].
Tactic Notation "skip" "by" tactic3(tac) := apply goes_seq; [apply _|tac|intros ?].

Lemma goes_env_call P `{!Stable quiet P} : goes quiet P env_call (fun _ => P).
Proof. unfold env_call. skip by (by apply goes_gets). skip by core. by apply goes_ret. Qed.

Lemma goes_report P err `{!Stable quiet P} : goes quiet P (report err) (fun _ => P).
Proof. core. Qed.

Lemma goes_abort P err `{!Stable quiet P} : goes quiet P (abort_ice err) (fun _ => P).
Proof. unfold abort_ice. skip by core. skip by core. skip by (by apply goes_report). core. Qed.

(** A check that fails is over. *)
Lemma goes_failed_over P p err scode `{!Stable quiet P} : (forall i, P i -> has i p) ->
  goes quiet P (icem_candpair_failed p err scode) (fun _ i => P i /\ over i p).
Proof.
  intros H i Hw HP. destruct (goes_failed P p err scode H i Hw HP) as (r & i' & E & V & HP'). exists r, i'.
  split; [done|]. split; [done|]. split; [done|]. destruct (H i HP) as [d Hd].
  unfold icem_candpair_failed, icem_candpair_set_state, upd_pair, get_pair, put_pair, modify, mbind, M_bind in E.
  rewrite Hd in E. cbn in E. rewrite lookup_insert_eq in E. cbn in E. injection E as _ <-.
  unfold over, is_open. cbn. rewrite lookup_insert_eq. destruct (p_state d) eqn:Es; cbn; repeat case_bool_decide; cbn; by rewrite ?Es.
Qed.

Lemma all_completed_run i l : (forall p, p ∈ l -> has i p) ->
  exists b, all_completed l i = Some (b, i) /\ (b = true -> forall p, p ∈ l -> over i p).
Proof.
  induction l as [|p l IH]; intros H; [exists true; split; [done|by intros _ p ?%not_elem_of_nil]|].
  destruct (H p ltac:(by left)) as [d Hd]. cbn. unfold get_pair, mbind, M_bind. rewrite Hd. cbn.
  destruct (iscompleted_state (p_state d)) eqn:E; [|by exists false].
  destruct IH as (b & Eb & Hb); [intros q Hq; apply H; by right|]. exists b. split; [done|].
  intros -> q [->|Hq]%elem_of_cons; [unfold over, is_open; by rewrite Hd, E|by apply Hb].
Qed.

Lemma goes_set_selected P id p `{!Stable quiet P} : (forall i, P i -> has i p /\ p ∈ validl i) ->
  goes quiet P (icem_comp_set_selected id p) (fun _ => P).
Proof.
  intros H. unfold icem_comp_set_selected. step d by (apply goes_get_pair; naive_solver).
  eapply goes_pre; [intros i _ [Hi _]; exact Hi|]. apply goes_upd_comp; [done|done|].
  intros i c q HP [= <-]. right. by apply H.
Qed.

Section Checks.
Context (request_err chan_err : nat -> Z).
Abbreviation send := (icem_conncheck_send request_err chan_err).

Lemma goes_send P p use `{!Stable quiet P} : (forall i, P i -> has i p) -> goes quiet P (send p use) (fun _ => P).
Proof.
  intros H. unfold icem_conncheck_send. skip by (by apply goes_set_state).
  step d by (by apply goes_get_pair).
  apply goes_seq; [apply _|by apply goes_gets|]. intros r.
  destruct (_ || _) eqn:Er; [apply goes_ret; naive_solver|].
  destruct (p_conn d); [apply goes_ret; naive_solver|].
  step c by (apply goes_get_cand; intros i (_ & (c & b & Hc & _) & _); by eexists).
  skip by idtac.
  - destruct (decide _); [|apply goes_ret; naive_solver].
    step comp by apply goes_comp_find. destruct comp as [comp|]; cbn [of_option].
    + eapply goes_pre; [intros i _ [Hi _]; exact Hi|]. skip by (by apply goes_ret). skip by (by apply goes_env_call; apply _). apply goes_ret. naive_solver.
    + eapply goes_pre with (P' := fun _ => False); [|by intros i _ []].
      intros i _ [Hi Hs]. destruct Hs; [naive_solver|done].
  - destruct (negb _); [apply goes_ret; naive_solver|]. skip by (by apply goes_env_call; apply _).
    destruct (negb _); [apply goes_ret; naive_solver|].
    skip by (apply goes_upd_pair; [apply _|naive_solver|done]).
    skip by (apply goes_sent; [apply _|]); [|apply goes_ret; naive_solver].
    apply orb_false_iff in Er as [E1 E2]. split; cbn; [by apply bool_decide_eq_false in E1|]. intros ->.
    apply bool_decide_eq_false in E1. destruct r; [done|done|]. by rewrite bool_decide_true in E2.
Qed.

(** ** The recursion *)

Lemma goes_do_check n next p : goes quiet (left n) next (fun _ _ => True) ->
  goes quiet (fun i => has i p /\ left_but n p i) (do_check request_err chan_err next p) (fun _ _ => True).
Proof.
  intros Hn. unfold do_check. apply goes_seq; [apply _|apply goes_send; [apply _|naive_solver]|]. intros err.
  destruct (err =? 0); [by apply goes_ret|]. step u by (apply goes_failed_over; [apply _|naive_solver]).
  destruct (err =? ENOMEM); [by eapply goes_pre; [|apply goes_abort, _]|].
  eapply goes_pre; [|exact Hn]. intros i _ (_ & (_ & Hl) & Ho). by eapply left_over.
Qed.

Lemma goes_schedule n next : (forall m, n = S m -> goes quiet (left m) next (fun _ _ => True)) ->
  goes quiet (left n) (icem_conncheck_schedule_check request_err chan_err next) (fun _ _ => True).
Proof.
  intros Hn.
  assert (Hdo : forall l p s, iscompleted_state s = false -> goes quiet (fun i => (left n i /\ l = checkl i) /\
    p ∈ l /\ exists d, pairs i !! p = Some d /\ p_state d = s) (do_check request_err chan_err next p) (fun _ _ => True)).
  { intros l p s Hs i Hw ((Hl & ->) & Hp & d & Hd & <-).
    destruct (left_pick n p i Hw Hl Hp) as (m & Em & Hm); [unfold is_open; by rewrite Hd, Hs|].
    apply (goes_do_check m next p (Hn m Em) i Hw). split; [by exists d|done]. }
  unfold icem_conncheck_schedule_check.
  assert (Hst : forall l, Stable quiet (fun i => left n i /\ l = checkl i)).
  { intros l. apply stable_and; [apply _|]. by intros i i' (_ & -> & _) ->. }
  step l by (apply (goes_gets _ checkl (fun l i => l = checkl i)); done).
  assert (Hh : forall i, wf i -> left n i /\ l = checkl i -> forall p, p ∈ l -> has i p).
  { intros i Hw [_ ->] p Hp. apply (wf_lists i Hw), elem_of_app. by left. }
  step p by (by apply goes_find_st). destruct p as [p|]; [by apply (Hdo l p WAITING)|].
  eapply goes_pre; [intros i _ [Hi _]; exact Hi|].
  step p by (by apply goes_find_st). destruct p as [p|]; [by apply (Hdo l p FROZEN)|by apply goes_ret].
Qed.

Lemma goes_concluding next id : goes quiet (left 0) (concluding_ice request_err chan_err next id) (fun _ => left 0).
Proof.
  unfold concluding_ice. step comp by apply goes_comp_find. eapply goes_pre; [intros i _ [Hi _]; exact Hi|].
  destruct comp as [comp|]; [|by apply goes_ret]. destruct (m_concluded comp); [by apply goes_ret|].
  step l by (apply (goes_gets _ validl (fun l i => forall p, p ∈ l -> has i p /\ p ∈ validl i));
    intros i Hw _ p Hp; split; [apply (wf_lists i Hw), elem_of_app; by right|done]).
  step p by (apply goes_find_st; naive_solver). destruct p as [p|]; [|apply goes_ret; naive_solver].
  eapply goes_pre with (P' := fun i => left 0 i /\ has i p /\ p ∈ validl i); [naive_solver|].
  skip by (apply goes_set_selected; [apply _|naive_solver]). skip by (by apply goes_gets).
  skip by (apply goes_send; [apply _|naive_solver]).
  eapply goes_pre; [intros i _ [Hi _]; exact Hi|].
  skip by (eapply goes_keep; [apply _|by apply goes_schedule]).
  apply goes_upd_comp; [apply _|done|]. intros i c q _ Hq. by left.
Qed.

Lemma goes_update_comps next ids : goes quiet (left 0) (update_comps request_err chan_err next ids) (fun _ => left 0).
Proof.
  induction ids as [|id ids IH]; [by apply goes_ret|]. cbn.
  step l by (apply (goes_gets _ validl (fun l i => forall p, p ∈ l -> has i p));
    intros i Hw _ p Hp; apply (wf_lists i Hw), elem_of_app; by right).
  skip by (eapply goes_keep; [apply _|apply goes_find_compid; naive_solver]).
  eapply goes_pre; [intros i _ [Hi _]; exact Hi|]. destruct x as [p|]; [|by apply goes_ret].
  skip by apply goes_concluding. skip by (eapply goes_keep; [apply _|apply goes_comp_find]).
  skip by idtac; [|done]. destruct (bool_decide _); [|by apply goes_ret].
  apply goes_upd_comp; [apply _|done|]. intros i c q _ Hq. by left.
Qed.

Lemma goes_update P next `{!Stable quiet P} : goes quiet P (icem_checklist_update request_err chan_err next) (fun _ => P).
Proof.
  apply goes_keep with (Q := fun _ _ => True); [apply _|]. eapply goes_pre with (P' := fun _ => True); [done|].
  unfold icem_checklist_update.
  eapply goes_bind with (Q := fun b i => b = true -> left 0 i); [apply _| |].
  { apply goes_read. intros i Hw _. destruct (all_completed_run i (checkl i)) as (b & E & Hb).
    - intros p Hp. apply (wf_lists i Hw), elem_of_app. by left.
    - exists b. split; [done|]. intros ->. apply none_left. by apply Hb. }
  intros [|]; cbn; [|by apply goes_ret]. eapply goes_pre with (P' := left 0); [naive_solver|].
  skip by (by apply goes_gets). skip by apply goes_update_comps. skip by core. eapply goes_post; [|by apply goes_report, _]. done.
Qed.

Lemma goes_pace_next n fuel : (n < fuel)%nat -> goes quiet (left n) (pace_next request_err chan_err fuel) (fun _ _ => True).
Proof.
  revert n. induction fuel as [|fuel IH]; intros n Hn; [lia|]. cbn. skip by (by apply goes_gets).
  destruct (decide _); [|by apply goes_ret].
  skip by (eapply goes_keep; [apply _|apply goes_schedule; intros m ->; apply IH; lia]).
  skip by (by apply goes_gets). destruct (decide _); [by apply goes_ret|]. eapply goes_post; [|by apply goes_update, _]. done.
Qed.

Lemma goes_pace P `{!Stable quiet P} : goes quiet P (pace_go request_err chan_err) (fun _ => P).
Proof.
  intros i Hw HP.
  destruct (goes_pace_next (length (checkl i)) (S (S (length (checkl i)))) ltac:(lia) i Hw (left_length i)) as (r & i' & E & V & _).
  exists r, i'. split; [done|]. split; [done|by eapply stable].
Qed.

End Checks.
