(* ===== verification/IceEvents.v ===== *)
(** * The events of a media stream

    What reaches an ICE media stream from outside: candidates, timers, STUN
    responses and requests.  Each is defined on every stream that can arise
    and lets it evolve. *)

From stdpp Require Import gmap.
From S2P Require Import Prelude Effects StunMsg Tmr Ice IceProps IceSteps.
Import Stun Ice.

Section Events.
Context (alloc_ok : Z -> bool) (request_err chan_err : nat -> Z).

(** ** Candidates *)

(** The programs that add a candidate do so in one step. *)
Lemma goes_cand_alloc P t compid prio addr rel base (g : ice_cand -> ice_cand) `{!Stable evolves P} :
  (forall i, P i -> match base with Some b => has_cand i b | None => True end) -> (forall d, c_base (g d) = c_base d) ->
  goes evolves P
    ('(err, c) ← cand_alloc alloc_ok t compid prio addr rel;
     match c with
     | None => mret err
     | Some c => upd_cand c (set_base (default c base)) ;; upd_cand c g ;; mret 0
     end) (fun _ => P).
Proof.
  intros Hb Hg i Hw HP. unfold cand_alloc. destruct (_ || _).
  { exists ENOMEM, i. split; [done|]. split; [by apply evolves_refl|done]. }
  set (n := fresh i). set (d := g (set_base (default n base) (mk_cand t prio (foundation t addr) compid rel addr None))).
  destruct (with_cand_evolves i true d Hw) as [V _].
  { exists (default n base). unfold d. rewrite Hg. split; [done|]. specialize (Hb i HP). destruct base; [by right|by left]. }
  exists 0, (with_cand i true d). split; [|split; [done|by eapply stable]].
  unfold upd_cand, new_id, get_cand, gets, modify, mbind, M_bind. cbn. fold n. rewrite lookup_insert_eq. cbn.
  rewrite lookup_insert_eq. cbn. rewrite !insert_insert_eq. done.
Qed.

Lemma goes_rcand_alloc P t compid prio addr rel fnd `{!Stable evolves P} :
  goes evolves P (rcand_alloc alloc_ok t compid prio addr rel fnd) (fun r i => P i /\ forall c, r.2 = Some c -> has_cand i c).
Proof.
  intros i Hw HP. unfold rcand_alloc. destruct (_ || _).
  { exists (ENOMEM, None), i. split; [done|]. split; [by apply evolves_refl|done]. }
  destruct (with_cand_evolves i false (mk_cand t prio fnd compid rel addr None) Hw I) as [V Hn].
  exists (0, Some (fresh i)), (with_cand i false (mk_cand t prio fnd compid rel addr None)).
  split; [done|]. split; [done|]. split; [by eapply stable|]. by intros c [= <-].
Qed.

Lemma goes_lcand_add P base t addr `{!Stable evolves P} : (forall i, P i -> has_cand i base) ->
  goes evolves P (icem_lcand_add alloc_ok base t addr) (fun _ => P).
Proof.
  intros Hb. unfold icem_lcand_add. step b by (by apply goes_get_cand). eapply goes_pre; [intros i _ [Hi _]; exact Hi|].
  intros i Hw HP. destruct (goes_cand_alloc P t (c_compid b) (ice_cand_calc_prio t 0 (c_compid b)) addr (Some (c_addr b))
    (Some base) id Hb ltac:(done) i Hw HP) as (r & i' & E & V & HP'). exists r, i'. split; [|done].
  rewrite <- E. unfold mbind, M_bind. destruct (cand_alloc _ _ _ _ _ _ i) as [[[err [c|]] i1]|]; [|done..].
  cbn. unfold upd_cand, mbind, M_bind, get_cand. cbn. destruct (cands i1 !! c) eqn:Ec; [cbn|done]. rewrite lookup_insert_eq. cbn.
  unfold mret, M_ret. do 2 f_equal. unfold id. rewrite insert_insert_eq. done.
Qed.

Lemma goes_lcand_add_base P compid lprio addr `{!Stable evolves P} :
  goes evolves P (icem_lcand_add_base alloc_ok compid lprio addr) (fun _ => P).
Proof.
  unfold icem_lcand_add_base. step comp by apply goes_comp_find. eapply goes_pre; [intros i _ [Hi _]; exact Hi|].
  destruct comp as [comp|]; [|by apply goes_ret].
  by apply (goes_cand_alloc P HOST compid (ice_cand_calc_prio HOST lprio compid) addr None None
    (fun d => set_addr (set_port (m_lport comp) (c_addr d)) d)).
Qed.

(** The elimination of redundant elements keeps the order. *)
Lemma unique_inner_sub uh x l : (unique_inner uh x l).1 `sublist_of` l.
Proof.
  induction l as [|y l IH]; [reflexivity|]. cbn. destruct (uh x y); [|reflexivity|by apply sublist_cons].
  destruct (unique_inner uh x l). by apply sublist_skip.
Qed.

Lemma unique_loop_sub fuel uh l : unique_loop fuel uh l `sublist_of` l.
Proof.
  revert l.
  induction fuel as [|fuel IH]; intros [|x [|y l]]; try reflexivity.
  pose proof (unique_inner_sub uh x (y :: l)) as Hs. cbn [unique_loop]. destruct (unique_inner uh x (y :: l)) as [k [|]]; cbn in Hs.
  - apply sublist_cons. etransitivity; [apply IH|done].
  - apply sublist_skip. etransitivity; [apply IH|done].
Qed.

Lemma unique_sub uh l : ice_list_unique uh l `sublist_of` l.
Proof. apply unique_loop_sub. Qed.

Lemma goes_comp_add P compid sock_err lport `{!Stable evolves P} :
  goes evolves P (icem_comp_add alloc_ok compid sock_err lport) (fun _ => P).
Proof.
  unfold icem_comp_add. step comp by apply goes_comp_find. eapply goes_pre; [intros i _ [Hi _]; exact Hi|].
  destruct comp; [by apply goes_ret|]. unfold icem_comp_alloc. do 3 (destruct (_ : bool); [by apply goes_ret|]).
  apply goes_seq; [apply _| |by intros _; apply goes_ret].
  intros i Hw HP. set (k := comps i ++ [mk_comp compid None None None lport false false false]).
  assert (Hk : forall x, x ∈ map m_id (comps i) -> x ∈ map m_id k).
  { intros x Hx. unfold k. rewrite map_app. apply elem_of_app. by left. }
  assert (V : evolves i (set_comps k i)).
  { destruct Hw as [W1 W2 W3 W4 W5 W6 W7 W8 W9]. split; try done; [| |by apply none_sent].
    - split; try done.
      + intros p d Hd. destruct (W3 p d Hd) as (? & ? & ?). split; [done|]. split; [done|by apply Hk].
      + intros c p [Hc|Hc]%elem_of_app Hp; [by eapply W6|]. apply list_elem_of_singleton in Hc as ->. done.
    - intros p d Hd. exists d. split; [done|apply pair_evolves_refl]. }
  exists tt, (set_comps k i). split; [done|]. split; [done|by eapply stable].
Qed.

(** ** Responses *)

Lemma goes_clone P p l r `{!Stable evolves P} : (forall i, P i -> has i p /\ has_base i l /\ has_cand i r) ->
  goes evolves P (icem_candpair_clone alloc_ok p (Some l) (Some r)) (fun x i => P i /\ forall q, x.2 = Some q -> has i q).
Proof.
  intros H i Hw HP. destruct (H i HP) as ([d Hd] & Hl & Hr). unfold icem_candpair_clone, get_pair, mbind, M_bind.
  rewrite Hd. cbn. destruct (negb _). { exists (ENOMEM, None), i. split; [done|]. split; [by apply evolves_refl|done]. }
  set (e := mk_pair _ _ _ _ _ _ _ _ _ _ _).
  destruct (with_pair_evolves i e Hw Hl Hr (proj2 (proj2 (wf_pairs i Hw p d Hd)))) as (V & Hn & _).
  exists (0, Some (fresh i)), (with_pair i e). split; [done|]. split; [done|]. split; [by eapply stable|]. by intros q [= <-].
Qed.

Lemma goes_find P l lc rc : (forall i, wf i -> P i -> forall p, p ∈ l -> has i p) ->
  goes evolves P (icem_candpair_find l lc rc) (fun r _ => forall p, r = Some p -> p ∈ l).
Proof. intros H. eapply goes_post; [|by apply goes_find_in]. cbn. intros r i _ Hr p ->. apply Hr. Qed.

Lemma goes_construct P p mapped `{!Stable evolves P} : (forall i, P i -> has i p) ->
  goes evolves P (construct_valid_pair alloc_ok p mapped) (fun x i => P i /\ forall q, x = Some q -> has i q).
Proof.
  intros H. unfold construct_valid_pair. step d by (by apply goes_get_pair).
  skip by (eapply goes_keep; [apply _|apply goes_get_cand; intros i (_ & (c & b & Hc & _) & _); by eexists]).
  rename x into lc.
  skip by (eapply goes_keep; [apply _|apply goes_get_cand; naive_solver]). rename x into rc.
  step ls by (apply (goes_gets _ lcandl (fun l i => forall c, c ∈ l -> has_base i c)); intros i Hw _; apply (wf_lcands i Hw)).
  step l by (apply goes_cand_find; intros i _ [_ Hi] c Hc; destruct (Hi c Hc) as (e & b & He & _); by eexists).
  step rs by (apply (goes_gets _ rcandl (fun l i => forall c, c ∈ l -> has_cand i c)); intros i Hw _; apply (wf_rcands i Hw)).
  step r by (apply goes_cand_find; naive_solver).
  destruct l as [l|]; [|apply goes_ret; naive_solver]. destruct r as [r|]; [|apply goes_ret; naive_solver].
  eapply goes_pre with (P' := fun i => P i /\ has_base i l /\ has_cand i r); [naive_solver|].
  skip by (eapply goes_keep; [apply _|apply goes_make_valid; [apply _|naive_solver]]).
  destruct (_ || _); [|apply goes_ret; naive_solver].
  step vl by (apply (goes_gets _ validl (fun l i => forall q, q ∈ l -> has i q)); intros i Hw _ q Hq;
    apply (wf_lists i Hw), elem_of_app; by right).
  step q by (apply goes_find; naive_solver). destruct q as [q|]; [apply goes_ret; naive_solver|].
  eapply goes_pre with (P' := fun i => P i /\ has_base i l /\ has_cand i r); [naive_solver|].
  step e by (apply goes_clone; [apply _|naive_solver]). destruct e as [err [q|]]; [|apply goes_ret; naive_solver]. cbn [snd].
  eapply goes_pre with (P' := fun i => P i /\ has i q); [naive_solver|].
  skip by (eapply goes_keep; [apply _|apply goes_make_valid; [apply _|naive_solver]]). apply goes_ret. naive_solver.
Qed.

Lemma goes_success P p a `{!Stable evolves P} : (forall i, P i -> has i p) -> goes evolves P (handle_success alloc_ok p a) (fun _ => P).
Proof.
  intros H. unfold handle_success. step d by (by apply goes_get_pair).
  skip by (eapply goes_keep; [apply _|apply goes_get_cand; intros i (_ & (c & b & Hc & _) & _); by eexists]).
  step ls by (apply (goes_gets _ lcandl (fun l i => forall c, c ∈ l -> has_base i c)); intros i Hw _; apply (wf_lcands i Hw)).
  skip by (eapply goes_keep; [apply _|apply goes_cand_find; intros i _ [_ Hi] c Hc; destruct (Hi c Hc) as (e & b & He & _); by eexists]).
  eapply goes_pre with (P' := fun i => P i /\ has_base i (p_lcand d)); [naive_solver|].
  skip by idtac.
  { destruct x0; [by apply goes_ret|]. apply goes_seq; [apply _|apply goes_lcand_add; [apply _|]|by intros _; apply goes_ret].
    intros i (_ & c & b & Hc & _). by eexists. }
  step q by (apply goes_construct; [apply _|naive_solver]). destruct q as [q|]; [|apply goes_ret; naive_solver].
  eapply goes_pre with (P' := fun i => P i /\ has i q); [naive_solver|].
  step u by (apply goes_make_valid; [apply _|naive_solver]).
  eapply goes_pre with (P' := fun i => P i /\ has i q /\ q ∈ validl i); [naive_solver|].
  skip by (eapply goes_keep; [apply _|apply goes_get_pair; naive_solver]).
  skip by (apply goes_quiet, goes_set_selected; [apply _|naive_solver]).
  eapply goes_post; [|apply goes_quiet, (goes_upd_pair (fun i => P i /\ has i q /\ q ∈ validl i)); [apply _|naive_solver|done]]. naive_solver.
Qed.

Lemma goes_send' P p use `{!Stable evolves P} : (forall i, P i -> has i p) ->
  goes evolves P (icem_conncheck_send request_err chan_err p use) (fun _ => P).
Proof. intros H. by apply goes_quiet, goes_send; [apply _|]. Qed.

Lemma goes_response P p err scode mapped `{!Stable evolves P} : (forall i, P i -> has i p) ->
  goes evolves P (stunc_resp_handler alloc_ok request_err chan_err p err scode mapped) (fun _ => P).
Proof.
  intros H. unfold stunc_resp_handler. skip by (by apply goes_quiet, goes_upd_pair; [apply _|..]).
  assert (Hf : forall e c, goes evolves P (icem_candpair_failed p e c) (fun _ => P)).
  { intros e c. by apply goes_quiet, goes_failed; [apply _|]. }
  skip by idtac; [|by apply goes_quiet, goes_pace; apply _]. repeat apply goes_if; [apply Hf| | |apply Hf].
  - destruct mapped; [by apply goes_success|apply Hf].
  - skip by (apply goes_quiet; core). skip by (by apply goes_send'). by apply goes_ret.
Qed.

Lemma goes_for_each {A} R `{!Steps R} P (f : A -> IM unit) (l : list A) `{!Stable R P} :
  (forall x, x ∈ l -> goes R P (f x) (fun _ => P)) -> goes R P (for_each f l) (fun _ => P).
Proof.
  induction l as [|x l IH]; intros H; [by apply goes_ret|]. cbn. skip by (apply H; by left). apply IH. intros y Hy. apply H. by right.
Qed.

Lemma goes_stop P err `{!Stable evolves P} : goes evolves P (icem_conncheck_stop request_err chan_err err) (fun _ => P).
Proof.
  unfold icem_conncheck_stop. skip by (apply goes_quiet; core). skip by (apply goes_quiet; core).
  step l by (apply (goes_gets _ checkl (fun l i => forall p, p ∈ l -> has i p)); intros i Hw _ p Hp;
    apply (wf_lists i Hw), elem_of_app; by left).
  skip by idtac; [|eapply goes_post; [|by apply goes_quiet, goes_update; apply _]; naive_solver].
  apply goes_for_each; [apply _|apply _|]. intros p Hp. apply goes_quiet.
  skip by (eapply goes_keep; [apply _|apply goes_get_pair; naive_solver]).
  apply goes_if; [|by apply goes_ret]. skip by (apply goes_upd_pair; [apply _|naive_solver|done]).
  apply goes_failed; [apply _|naive_solver].
Qed.

(** ** Requests *)

Lemma goes_triggered P l r `{!Stable evolves P} : goes evolves P (triggered_check request_err chan_err l r) (fun _ => P).
Proof.
  unfold triggered_check.
  step ls by (apply (goes_gets _ checkl (fun l i => forall p, p ∈ l -> has i p)); intros i Hw _ p Hp;
    apply (wf_lists i Hw), elem_of_app; by left).
  step p by (apply goes_find; naive_solver). destruct p as [p|]; [|apply goes_ret; naive_solver].
  eapply goes_pre with (P' := fun i => P i /\ has i p); [naive_solver|].
  skip by (eapply goes_keep; [apply _|apply goes_get_pair; naive_solver]).
  assert (Hs : goes evolves (fun i => P i /\ has i p)
    (_ ← icem_conncheck_send request_err chan_err p false; mret tt) (fun _ => P)).
  { skip by (apply goes_send'; [apply _|naive_solver]). apply goes_ret. naive_solver. }
  destruct (p_state x); [done|done|apply goes_ret; naive_solver..|].
  skip by (apply goes_quiet, goes_set_state; [apply _|naive_solver]). done.
Qed.

Lemma goes_stun_full P rnd compid src prio use `{!Stable evolves P} :
  goes evolves P (handle_stun_full alloc_ok request_err chan_err rnd compid src prio use) (fun _ => P).
Proof.
  unfold handle_stun_full.
  step rs by (apply (goes_gets _ rcandl (fun l i => forall c, c ∈ l -> has_cand i c)); intros i Hw _; apply (wf_rcands i Hw)).
  step r by (apply goes_cand_find; naive_solver).
  eapply goes_bind with (Q := fun x i => forall c, x.2 = Some c -> has_cand i c); [apply _| |].
  { destruct r as [r|]; [apply goes_ret; naive_solver|]. eapply goes_post; [|apply goes_rcand_alloc; apply _]. naive_solver. }
  intros [err [r'|]]; [|apply goes_ret; naive_solver]. eapply goes_pre with (P' := P); [naive_solver|].
  step p by apply goes_find_rcand.
  skip by idtac.
  { destruct p as [p|]; [|eapply goes_keep; [apply _|apply goes_lcand_find]].
    skip by (eapply goes_keep; [apply _|apply goes_get_pair; naive_solver]). by apply goes_ret. }
  destruct x as [l|]; [|apply goes_ret; naive_solver]. skip by (apply goes_triggered; apply _).
  eapply goes_bind with (Q := fun x i => forall p, x = Some p -> has i p); [apply _| |].
  { destruct p as [p|]; [apply goes_ret; naive_solver|apply goes_find_rcand]. }
  intros [q|]; [|apply goes_ret; naive_solver]. eapply goes_pre with (P' := fun i => P i /\ has i q); [naive_solver|].
  skip by (eapply goes_keep; [apply _|apply goes_get_pair; naive_solver]). skip by (by apply goes_gets).
  skip by idtac; [|apply goes_ret; naive_solver].
  apply goes_if; [|by apply goes_ret]. apply goes_quiet, goes_upd_pair; [apply _|naive_solver|done].
Qed.

Lemma goes_recv P rnd compid src req fp_err mi_err `{!Stable evolves P} :
  goes evolves P (icem_stund_recv alloc_ok request_err chan_err rnd compid src req fp_err mi_err) (fun _ => P).
Proof.
  unfold icem_stund_recv. do 2 (apply goes_if; [by apply goes_ret|]).
  destruct (a_v <$> _) as [[]|]; try by apply goes_ret. skip by (by apply goes_gets).
  destruct (parse_username _) as [[lu ru]|]; [|by apply goes_ret].
  do 2 (apply goes_if; [by apply goes_ret|]).
  skip by (apply goes_if; [apply goes_quiet; core|by apply goes_ret]).
  destruct (attr_32 _ _) as [prio|]; [|by apply goes_ret].
  skip by (by apply goes_stun_full). by apply goes_ret.
Qed.

End Events.
