(* ===== verification/IceForm.v ===== *)
(** * Forming the checklist

    [icem_checklist_form] pairs every local candidate with every remote one
    of its component and address family, orders the pairs by priority and
    prunes those that repeat a pair of higher priority. *)

From Stdlib Require Import Sorted.
From stdpp Require Import gmap.
From S2P Require Import Prelude Effects StunMsg Tmr Ice IceProps IceSteps IceEvents.
Import Stun Ice.

(** ** The specification *)

Definition fits (i : icem) (l r : nat) : bool :=
  match cands i !! l, cands i !! r with
  | Some c, Some d => (c_compid c =? c_compid d) && (sa_af (c_addr c) =? sa_af (c_addr d))
  | _, _ => false
  end.

Definition partners (i : icem) (l : nat) (rs : list nat) : list (nat * nat) :=
  map (fun r => (l, r)) (filter (fun r => fits i l r = true) rs).
Definition pairings (i : icem) (ls rs : list nat) : list (nat * nat) := flat_map (fun l => partners i l rs) ls.

(** The pair of a local and a remote candidate before its check. *)
Definition new_pair (i : icem) (x : nat * nat) : option ice_candpair :=
  l ← cands i !! x.1;
  r ← cands i !! x.2;
  c ← find (fun c => m_id c =? c_compid l) (comps i);
  Some (mk_pair (m_id c) x.1 x.2 (bool_decide (m_def_lcand c = Some x.1) && bool_decide (m_def_rcand c = Some x.2))
    false false FROZEN (pair_prio (lrole i) l r) false 0 0).

(** Two pairs lead from the same address to the same address. *)
Definition route (i : icem) (d : ice_candpair) : option (Z * aref * aref) :=
  l ← cand_srflx_addr i (p_lcand d); r ← cands i !! p_rcand d; Some (p_comp d, l, ref_of (p_rcand d) r).
Definition same_route (i : icem) (d e : ice_candpair) : bool :=
  match route i d, route i e with
  | Some (c1, l1, r1), Some (c2, l2, r2) => (c1 =? c2) && ref_cmp l1 l2 && ref_cmp r1 r2
  | _, _ => false
  end.

(** [p] has at least the priority of [q] and another route. *)
Definition ahead (i : icem) (p q : nat) : Prop :=
  exists d e, pairs i !! p = Some d /\ pairs i !! q = Some e /\ p_pprio e <= p_pprio d /\ same_route i d e = false.

(** ** Pairing *)

Record formed (i0 i : icem) (dn : list (nat * nat)) : Prop := {
  f_ev : evolves i0 i;
  f_cands : cands i = cands i0;
  f_comps : comps i = comps i0;
  f_role : lrole i = lrole i0;
  f_old : forall p, is_Some (pairs i0 !! p) -> pairs i !! p = pairs i0 !! p;
  f_new : forall p, p ∈ checkl i -> pairs i0 !! p = None /\ is_Some (pairs i !! p) /\ exists x, x ∈ dn /\ pairs i !! p = new_pair i0 x;
  f_all : forall x, x ∈ dn -> exists p, p ∈ checkl i /\ pairs i !! p = new_pair i0 x }.

Section Form.
Context (alloc_ok : Z -> bool).

(** Why no pair is made. *)
Definition stuck (i : icem) (c : ice_cand) : Prop := alloc_ok 112 = false \/ ~ c_compid c ∈ map m_id (comps i).

Lemma alloc_run i0 i dn l r : formed i0 i dn -> has_base i0 l -> has_cand i0 r ->
  exists err o i', icem_candpair_alloc alloc_ok l r i = Some ((err, o), i') /\
    (err = 0 /\ formed i0 i' (dn ++ [(l, r)]) \/ err <> 0 /\ i' = i /\ exists c, cands i0 !! l = Some c /\ stuck i0 c).
Proof.
  intros [Fev Fc Fm Fr Fo Fn Fa] Hl [rd Hrd]. pose proof Hl as (ld & b & Hld & Hb).
  assert (Hli : cands i !! l = Some ld) by (by rewrite Fc). assert (Hri : cands i !! r = Some rd) by (by rewrite Fc).
  unfold icem_candpair_alloc, get_cand, icem_comp_find, gets, mbind, M_bind. rewrite Hli. cbn. rewrite Fm.
  destruct (find _ (comps i0)) as [c|] eqn:Ec.
  2:{ exists ENOENT, None, i. split; [done|]. right. split; [done|]. split; [done|]. exists ld. split; [done|]. right.
      intros (c & E & Hc)%list_elem_of_fmap. eapply find_none in Ec; [|by apply list_elem_of_In]. cbn in Ec. lia. }
  pose proof (find_some _ _ Ec) as [Hin Heq]. cbn in Heq. destruct (alloc_ok 112) eqn:Ea; cbn.
  2:{ exists ENOMEM, None, i. split; [done|]. right. split; [done|]. split; [done|]. exists ld. split; [done|]. by left. }
  set (d := mk_pair (m_id c) l r (bool_decide (m_def_lcand c = Some l) && bool_decide (m_def_rcand c = Some r))
    false false FROZEN (pair_prio (lrole i) ld rd) false 0 0).
  assert (Hd : new_pair i0 (l, r) = Some d) by (unfold new_pair, d; cbn; rewrite Hld; cbn; rewrite Hrd; cbn; rewrite Ec, Fr; done).
  pose proof (ev_wf _ _ Fev) as Hw. destruct (wf_fresh i Hw (fresh i) (Nat.le_refl _)) as [_ Hf].
  destruct (with_pair_evolves i d Hw) as (V & Hn & Hp).
  { by eapply has_base_evolves. } { exists rd. done. }
  { rewrite Fm. apply list_elem_of_fmap. exists c. split; [done|]. by apply list_elem_of_In. }
  exists 0, (Some (fresh i)), (with_pair i d). split.
  { unfold new_id, candpair_set_pprio, put_pair, modify, mbind, M_bind, get_pair, get_cand, gets. cbn. rewrite lookup_insert_eq. cbn.
    rewrite Hli. cbn. rewrite Hri. cbn. rewrite insert_insert_eq. done. }
  assert (Hlook : forall p, p <> fresh i -> pairs (with_pair i d) !! p = pairs i !! p) by (intros p Hne; cbn; by rewrite lookup_insert_ne).
  assert (Hme : pairs (with_pair i d) !! fresh i = Some d) by (cbn; by rewrite lookup_insert_eq).
  assert (H0 : pairs i0 !! fresh i = None).
  { destruct (pairs i0 !! fresh i) eqn:E; [|done]. rewrite <- Hf, (Fo (fresh i)) by (by eexists). done. }
  left. split; [done|]. split; [by eapply evolves_trans|done|done|done|..].
  - intros p Hs. rewrite Hlook; [by apply Fo|]. intros ->. rewrite H0 in Hs. by destruct Hs.
  - intros p Hin'. rewrite Hp in Hin'. apply elem_of_cons in Hin' as [->|Hin'].
    + split; [done|]. rewrite Hme. split; [done|]. exists (l, r). split; [apply elem_of_app; right; by left|done].
    + destruct (Fn p Hin') as (H1 & H2 & x & Hx & H3).
      rewrite Hlook; [|intros ->; rewrite Hf in H2; by destruct H2]. split; [done|]. split; [done|].
      exists x. split; [apply elem_of_app; by left|done].
  - intros x [Hx|Hx]%elem_of_app.
    + destruct (Fa x Hx) as (p & Hin' & H1). exists p. split; [rewrite Hp; by right|]. rewrite Hlook; [done|].
      intros ->. destruct (Fn _ Hin') as (_ & [e He] & _). congruence.
    + apply list_elem_of_singleton in Hx as ->. exists (fresh i). split; [rewrite Hp; by left|]. congruence.
Qed.

(** What a loop over candidates comes to. *)
Definition forms (i0 i : icem) (m : IM Z) (dn more : list (nat * nat)) : Prop :=
  exists err i' dn', m i = Some (err, i') /\ formed i0 i' dn' /\ (err = 0 -> dn' = dn ++ more) /\
    (err <> 0 -> exists l c, l ∈ lcandl i0 /\ cands i0 !! l = Some c /\ stuck i0 c).

Lemma form_inner_run i0 l ld rs i dn : cands i0 !! l = Some ld -> l ∈ lcandl i0 -> has_base i0 l ->
  (forall r, r ∈ rs -> has_cand i0 r) -> formed i0 i dn -> forms i0 i (form_inner alloc_ok l ld rs) dn (partners i0 l rs).
Proof.
  intros Hld Hl Hb. revert i dn. induction rs as [|r rs IH]; intros i dn Hr Hf.
  - exists 0, i, dn. unfold partners. cbn. rewrite app_nil_r. done.
  - destruct (Hr r ltac:(by left)) as [rd Hrd]. assert (Hri : cands i !! r = Some rd) by (by rewrite (f_cands _ _ _ Hf)).
    assert (Hfit : fits i0 l r = (c_compid ld =? c_compid rd) && (sa_af (c_addr ld) =? sa_af (c_addr rd))) by (unfold fits; by rewrite Hld, Hrd).
    unfold forms. cbn [form_inner]. unfold get_cand at 1, mbind at 1, M_bind at 1. rewrite Hri. cbn [mbind option_bind].
    unfold partners. rewrite filter_cons. destruct (c_compid ld =? c_compid rd), (sa_af (c_addr ld) =? sa_af (c_addr rd)); cbn in Hfit |- *.
    2,3,4: rewrite decide_False by congruence; apply IH; [intros x Hx; apply Hr; by right|done].
    rewrite decide_True by done. destruct (alloc_run i0 i dn l r Hf Hb ltac:(by eexists)) as (err & o & i1 & E & Hc).
    unfold mbind, M_bind. rewrite E. destruct Hc as [[-> Hf1]|(He & -> & c & Hc & Hs)]; cbn.
    + edestruct (IH i1) as (e & i2 & dn2 & E2 & F2 & H2 & H3); [intros x Hx; apply Hr; by right|exact Hf1|].
      exists e, i2, dn2. split; [done|]. split; [done|]. split; [|done]. intros He. rewrite (H2 He), <- app_assoc. done.
    + replace (err =? 0) with false by lia. cbn. exists err, i, dn. split; [done|]. split; [done|]. split; [lia|]. intros _. by exists l, c.
Qed.

Lemma form_outer_run i0 ls rs i dn : wf i0 -> (forall l, l ∈ ls -> l ∈ lcandl i0) -> (forall r, r ∈ rs -> has_cand i0 r) ->
  formed i0 i dn -> forms i0 i (form_outer alloc_ok ls rs) dn (pairings i0 ls rs).
Proof.
  intros Hw. revert i dn. induction ls as [|l ls IH]; intros i dn Hl Hr Hf.
  - exists 0, i, dn. cbn. rewrite app_nil_r. done.
  - assert (Hin : l ∈ lcandl i0) by (apply Hl; by left). pose proof (wf_lcands i0 Hw l Hin) as Hb. pose proof Hb as (ld & b & Hld & _).
    unfold forms. cbn [form_outer]. unfold get_cand at 1, mbind at 1, M_bind at 1. rewrite (f_cands _ _ _ Hf), Hld. cbn [mbind option_bind].
    destruct (form_inner_run i0 l ld rs i dn Hld Hin Hb Hr Hf) as (err & i1 & dn1 & E & F1 & H1 & H2).
    unfold mbind, M_bind. rewrite E. destruct (Z.eqb_spec err 0) as [->|Hne]; cbn.
    + edestruct (IH i1) as (e & i2 & dn2 & E2 & F2 & H3 & H4); [intros x Hx; apply Hl; by right|exact Hr|exact F1|].
      exists e, i2, dn2. split; [done|]. split; [done|]. split; [|done]. intros He. rewrite (H3 He), (H1 eq_refl), <- app_assoc. done.
    + exists err, i1, dn1. split; [done|]. split; [done|]. split; [done|]. intros _. by apply H2.
Qed.

Lemma formed_start i : wf i -> checkl i = [] -> formed i i [].
Proof.
  intros Hw He. split; try done; [by apply evolves_refl|intros p Hp; rewrite He in Hp; by apply not_elem_of_nil in Hp|].
  by intros x ?%not_elem_of_nil.
Qed.

(** The pairing as a whole. *)
Lemma candpairs_form_run i : wf i -> checkl i = [] ->
  exists err i' dn, candpairs_form alloc_ok i = Some (err, i') /\ formed i i' dn /\
    (err = 0 -> dn = pairings i (lcandl i) (rcandl i)) /\
    (err <> 0 -> lcandl i = [] \/ rcandl i = [] \/ exists l c, l ∈ lcandl i /\ cands i !! l = Some c /\ stuck i c).
Proof.
  intros Hw He. pose proof (formed_start i Hw He) as Hf. unfold candpairs_form, gets, mbind, M_bind.
  destruct (lcandl i) as [|l ls] eqn:El; [exists ENOENT, i, []; naive_solver|].
  destruct (rcandl i) as [|r rs] eqn:Er; [exists ENOENT, i, []; naive_solver|].
  destruct (form_outer_run i (l :: ls) (r :: rs) i [] Hw) as (err & i' & dn & E & F & H1 & H2); [by rewrite El| |done|].
  { rewrite <- Er. apply (wf_rcands i Hw). }
  exists err, i', dn. rewrite <- El in *. split; [done|]. split; [done|]. split; [done|]. intros Hne. right. right. by apply H2.
Qed.

End Form.

(** ** Ordering

    The pairs were inserted in order, and their priorities do not change. *)

Lemma strongly_sorted_impl {A} (R S : A -> A -> Prop) l : (forall a b, R a b -> S a b) -> StronglySorted R l -> StronglySorted S l.
Proof. intros H. induction 1; constructor; [done|]. eapply Forall_impl; [done|cbn; auto]. Qed.

Lemma strongly_sorted_impl_in {A} (R S : A -> A -> Prop) l : (forall a b, a ∈ l -> b ∈ l -> R a b -> S a b) ->
  StronglySorted R l -> StronglySorted S l.
Proof.
  induction l as [|x l IH]; intros H; [constructor|]. intros [Hs Hx]%StronglySorted_inv. constructor.
  - apply IH; [|done]. intros a b Ha Hb. apply H; by right.
  - rewrite Forall_forall in Hx |- *. intros b Hb. apply H; [by left|by right|by apply Hx].
Qed.

Lemma strongly_sorted_and {A} (R S : A -> A -> Prop) l : StronglySorted R l -> StronglySorted S l -> StronglySorted (fun a b => R a b /\ S a b) l.
Proof.
  induction l as [|x l IH]; [constructor|]. intros [H1 F1]%StronglySorted_inv [H2 F2]%StronglySorted_inv. constructor; [by apply IH|].
  by apply Forall_and.
Qed.

Lemma sort_pass_sorted le x l : StronglySorted (fun a b => le a b = true) (x :: l) -> sort_pass le x l = (x :: l, false).
Proof.
  revert x. induction l as [|y l IH]; intros x Hs; [done|]. cbn.
  apply StronglySorted_inv in Hs as [Hs [E _]%Forall_cons_1]. by rewrite E, IH.
Qed.

Lemma set_pprio_id i p d l r : pairs i !! p = Some d -> cands i !! p_lcand d = Some l -> cands i !! p_rcand d = Some r ->
  p_pprio d = pair_prio (lrole i) l r -> candpair_set_pprio p i = Some (tt, i).
Proof.
  intros Hd Hl Hr Hp. unfold candpair_set_pprio, get_pair, get_cand, put_pair, modify, gets, mbind, M_bind. rewrite Hd. cbn.
  rewrite Hl. cbn. rewrite Hr. cbn. rewrite <- Hp. do 2 f_equal. destruct i, d. unfold set_pairs, set_pprio. cbn in *. by rewrite insert_id.
Qed.

Lemma for_each_id {A} (f : A -> IM unit) l i : (forall x, x ∈ l -> f x i = Some (tt, i)) -> for_each f l i = Some (tt, i).
Proof.
  induction l as [|x l IH]; intros H; [done|]. cbn. unfold mbind, M_bind. rewrite H by (by left). apply IH.
  intros y Hy. apply H. by right.
Qed.

Lemma prio_order_id i0 i dn : formed i0 i dn -> icem_candpair_prio_order i = Some (tt, i).
Proof.
  intros Hf. pose proof (ev_wf _ _ (f_ev _ _ _ Hf)) as Hw. unfold icem_candpair_prio_order, gets, mbind, M_bind.
  rewrite for_each_id.
  2:{ intros p Hp. destruct (f_new _ _ _ Hf p Hp) as (_ & [d Hd] & [l r] & _ & E). rewrite Hd in E. unfold new_pair in E. cbn in E.
      destruct (cands i0 !! l) as [ld|] eqn:El; [|done]. cbn in E. destruct (cands i0 !! r) as [rd|] eqn:Er; [|done]. cbn in E.
      destruct (find _ _); [|done]. cbn in E. injection E as ->.
      eapply set_pprio_id; [exact Hd|..]; cbn; rewrite ?(f_cands _ _ _ Hf); [exact El|exact Er|]. by rewrite (f_role _ _ _ Hf). }
  pose proof (wf_check_sorted i Hw) as Hs. unfold of_option, id, modify. destruct (checkl i) as [|x l] eqn:E.
  - cbn. do 2 f_equal. destruct i. cbn in *. by subst.
  - cbn [list_sort length]. rewrite sort_pass_sorted.
    + do 2 f_equal. destruct i. cbn in *. by subst.
    + eapply strongly_sorted_impl; [|exact Hs]. cbn. intros a b H. apply Z.leb_le. lia.
Qed.

(** ** Pruning *)

#[export] Instance removal_eq : EqDecision removal.
Proof. solve_decision. Defined.

Lemma unique_inner_keep uh x l : Forall (fun y => uh x y <> r_first) l ->
  unique_inner uh x l = (filter (fun y => uh x y = r_none) l, false).
Proof.
  induction l as [|y l IH]; [done|]. intros [Hy Hl]%Forall_cons_1. rewrite filter_cons. cbn [unique_inner]. rewrite (IH Hl).
  destruct (uh x y) eqn:E; [by rewrite decide_True|done|by rewrite decide_False].
Qed.

Lemma forall_sub {A} (P : A -> Prop) (k l : list A) : k `sublist_of` l -> Forall P l -> Forall P k.
Proof. induction 1; [done|intros [? ?]%Forall_cons_1; constructor; auto|intros [? ?]%Forall_cons_1; auto]. Qed.

Lemma strongly_sorted_sub {A} (R : A -> A -> Prop) (k l : list A) : k `sublist_of` l -> StronglySorted R l -> StronglySorted R k.
Proof.
  induction 1 as [|x k l Hs IH|x k l Hs IH]; [done|..]; intros [Hl Hx]%StronglySorted_inv; [|by apply IH].
  constructor; [by apply IH|]. by eapply forall_sub.
Qed.

(** Where no element yields to a later one, the first of its kind stays. *)
Lemma unique_spec uh l : StronglySorted (fun x y => uh x y <> r_first) l ->
  StronglySorted (fun x y => uh x y = r_none) (ice_list_unique uh l) /\
  forall x, x ∈ l -> exists y, y ∈ ice_list_unique uh l /\ (y = x \/ uh y x = r_second).
Proof.
  unfold ice_list_unique. generalize (Nat.le_refl (length l)). generalize (length l) at 2 3 4. intros fuel. revert l.
  induction fuel as [|fuel IH]; intros [|x [|y l]] Hn Hs; cbn in Hn; try lia.
  1,2: by split; [constructor|intros x ?%not_elem_of_nil].
  { cbn. split; [by repeat constructor|]. intros z ->%list_elem_of_singleton. exists x. split; [by left|by left]. }
  cbn [unique_loop]. apply StronglySorted_inv in Hs as [Hs Hx]. rewrite unique_inner_keep by done.
  set (k := filter (fun y => uh x y = r_none) (y :: l)).
  assert (Hk : k `sublist_of` y :: l) by apply sublist_filter.
  destruct (IH k) as [H1 H2]; [pose proof (sublist_length _ _ Hk) as Hlen; cbn [length] in Hlen; lia|by eapply strongly_sorted_sub|].
  split.
  - constructor; [done|]. apply (forall_sub _ _ k); [apply unique_loop_sub|]. apply Forall_forall.
    by intros z [Hz _]%list_elem_of_filter.
  - intros z [->|Hz]%elem_of_cons; [exists x; split; by left|]. destruct (uh x z) eqn:E.
    + destruct (H2 z) as (w & Hw & Hwz); [by apply list_elem_of_filter|]. exists w. split; [by right|done].
    + rewrite Forall_forall in Hx. by destruct (Hx z Hz).
    + exists x. split; [by left|by right].
Qed.

(** Pairs that lose their place are freed. *)
Lemma freed_lookup (m : gmap nat ice_candpair) (k l : list nat) p :
  foldr (fun p m => if bool_decide (p ∈ k) then m else delete p m) m l !! p =
    if decide (p ∈ l /\ ~ p ∈ k) then None else m !! p.
Proof.
  induction l as [|q l IH]; cbn; [by rewrite decide_False by (by intros [?%not_elem_of_nil _])|].
  case_bool_decide as Hq; [|destruct (decide (p = q)) as [->|Hne]].
  - rewrite IH. repeat case_decide; set_solver.
  - rewrite lookup_delete_eq. by rewrite decide_True by set_solver.
  - rewrite lookup_delete_ne by done. rewrite IH. repeat case_decide; set_solver.
Qed.

Definition pruned (i : icem) (k : list nat) : icem :=
  set_checkl k (set_pairs (foldr (fun p m => if bool_decide (p ∈ k) then m else delete p m) (pairs i) (checkl i)) i).

Lemma pruned_kept i k p : p ∈ k \/ ~ p ∈ checkl i -> pairs (pruned i k) !! p = pairs i !! p.
Proof. intros H. cbn. rewrite freed_lookup. case_decide; [tauto|done]. Qed.

Lemma pruned_evolves i0 i dn k : formed i0 i dn -> k `sublist_of` checkl i -> evolves i0 (pruned i k).
Proof.
  intros [Fev Fc Fm Fr Fo Fn Fa] Hk. pose proof (ev_wf _ _ Fev) as [W1 W2 W3 W4 W5 W6 W7 W8 W9].
  assert (Hin : forall p, p ∈ k -> p ∈ checkl i) by (intros p Hp; eapply elem_of_submseteq; [exact Hp|by apply sublist_submseteq]).
  assert (Hdis : forall p, p ∈ validl i -> ~ p ∈ checkl i).
  { intros p Hv Hc. apply NoDup_app in W5 as (_ & H & _). by apply (H p). }
  assert (Hkeep : forall p, p ∈ k \/ p ∈ validl i -> pairs (pruned i k) !! p = pairs i !! p).
  { intros p [Hp|Hp]; apply pruned_kept; [by left|right; by apply Hdis]. }
  assert (Hpp : forall p, p ∈ k \/ p ∈ validl i -> - pprio_of i p = - pprio_of (pruned i k) p).
  { intros p Hp. unfold pprio_of. by rewrite Hkeep. }
  split; try apply Fev.
  - split; try done.
    + intros p d Hd. apply (W3 p). cbn in Hd. rewrite freed_lookup in Hd. by case_decide.
    + intros p Hp. unfold has. rewrite Hkeep by (by apply elem_of_app in Hp). apply W4, elem_of_app.
      apply elem_of_app in Hp as [Hp|Hp]; [left; by apply Hin|by right].
    + eapply sublist_NoDup; [exact W5|]. by apply sublist_app.
    + intros n Hn. destruct (W7 n Hn) as [H1 H2]. split; [done|]. cbn. rewrite freed_lookup. by case_decide.
    + eapply Tm.sorted_ext; [intros p Hp; apply Hpp; by left|]. by eapply strongly_sorted_sub.
    + eapply Tm.sorted_ext; [intros p Hp; apply Hpp; by right|done].
  - intros p d Hd. exists d. split; [|apply pair_evolves_refl]. rewrite pruned_kept, Fo; [done|by eexists|].
    right. intros Hc. destruct (Fn p Hc) as [H _]. congruence.
Qed.

Lemma route_some i p d : wf i -> pairs i !! p = Some d -> is_Some (route i d).
Proof.
  intros Hw Hd. destruct (wf_pairs i Hw p d Hd) as ((c & b & Hc & Hb & [e He]) & [r Hr] & _).
  unfold route, cand_srflx_addr. rewrite Hc. cbn. destruct (decide _); [rewrite Hb; cbn; rewrite He|]; cbn; rewrite Hr; cbn; by eexists.
Qed.

Lemma handler_sorted i p q d e : wf i -> pairs i !! p = Some d -> pairs i !! q = Some e -> p_pprio e <= p_pprio d ->
  unique_handler i p q = if same_route i d e then r_second else r_none.
Proof.
  intros Hw Hp Hq Hle. unfold unique_handler, pair_key, same_route, pprio_of. rewrite Hp, Hq. cbn [mbind option_bind]. fold (route i d) (route i e).
  destruct (route_some i p d Hw Hp) as [[[c1 l1] r1] ->], (route_some i q e Hw Hq) as [[[c2 l2] r2] ->].
  replace (p_pprio d <? p_pprio e) with false by lia. by destruct (c1 =? c2), (ref_cmp l1 l2), (ref_cmp r1 r2).
Qed.

Lemma handler_second i p q : unique_handler i p q = r_second -> exists d e, pairs i !! p = Some d /\ pairs i !! q = Some e /\
  p_pprio e <= p_pprio d /\ same_route i d e = true.
Proof.
  unfold unique_handler, pair_key, pprio_of. destruct (pairs i !! p) as [d|], (pairs i !! q) as [e|]; cbn [mbind option_bind]; try done; fold (route i d).
  2: by destruct (route i d) as [[[? ?] ?]|].
  fold (route i e). intros H. exists d, e. split; [done|]. split; [done|]. unfold same_route.
  destruct (route i d) as [[[c1 l1] r1]|], (route i e) as [[[c2 l2] r2]|]; try done.
  destruct (c1 =? c2), (ref_cmp l1 l2), (ref_cmp r1 r2); try done. cbn in H. destruct (Z.ltb_spec (p_pprio d) (p_pprio e)); [done|]. done.
Qed.

(** The order of a list of pairs, on the pairs themselves. *)
Lemma falling_pairs i l : (forall p, p ∈ l -> has i p) -> falling (pprio_of i) l ->
  StronglySorted (fun p q => exists d e, pairs i !! p = Some d /\ pairs i !! q = Some e /\ p_pprio e <= p_pprio d) l.
Proof.
  unfold falling, Tm.sorted_by. induction l as [|p l IH]; intros H Hf; [constructor|].
  apply StronglySorted_inv in Hf as [Hf Hp]. constructor; [apply IH; [|done]; intros q Hq; apply H; by right|].
  rewrite Forall_forall in Hp |- *. intros q Hq. destruct (H p ltac:(by left)) as [d Hd], (H q ltac:(by right)) as [e He].
  exists d, e. specialize (Hp q Hq). unfold pprio_of in Hp. rewrite Hd, He in Hp. split; [done|]. split; [done|]. lia.
Qed.

(** The pruned list: ordered, each route once, and none lost. *)
Lemma prune_spec i : wf i -> let k := ice_list_unique (unique_handler i) (checkl i) in
  StronglySorted (ahead i) k /\
  forall p, p ∈ checkl i -> exists q, q ∈ k /\ (q = p \/ exists d e, pairs i !! q = Some d /\ pairs i !! p = Some e /\
    p_pprio e <= p_pprio d /\ same_route i d e = true).
Proof.
  intros Hw k. pose proof (falling_pairs i (checkl i)) as Hs.
  specialize (Hs ltac:(intros p Hp; apply (wf_lists i Hw), elem_of_app; by left) (wf_check_sorted i Hw)).
  destruct (unique_spec (unique_handler i) (checkl i)) as [H1 H2].
  { eapply strongly_sorted_impl; [|exact Hs]. intros p q (d & e & Hd & He & Hle).
    rewrite (handler_sorted i p q d e) by done. by destruct (same_route _ _ _). }
  split.
  - apply (strongly_sorted_sub _ k) in Hs; [|apply unique_sub].
    eapply strongly_sorted_impl; [|exact (strongly_sorted_and _ _ _ H1 Hs)]. intros p q [Hn (d & e & Hd & He & Hle)].
    exists d, e. split_and!; try done. rewrite (handler_sorted i p q d e) in Hn by done. by destruct (same_route _ _ _).
  - intros p Hp. destruct (H2 p Hp) as (q & Hq & Hqp). exists q. split; [done|]. destruct Hqp as [|Hqp]; [by left|right].
    by apply handler_second.
Qed.

Lemma prune_run i : wf i -> candpair_prune i = Some (tt, pruned i (ice_list_unique (unique_handler i) (checkl i))).
Proof.
  intros Hw. unfold candpair_prune, gets, of_option, mbind, M_bind, id.
  destruct (mapM (pair_key i) (checkl i)) eqn:E; [done|]. exfalso.
  apply mapM_None in E. apply Exists_exists in E as (p & Hp & E).
  destruct (wf_lists i Hw p) as [d Hd]; [apply elem_of_app; by left|]. unfold pair_key in E. rewrite Hd in E. cbn in E.
  destruct (route_some i p d Hw Hd) as [x Hx]. unfold route in Hx. unfold mbind in *. congruence.
Qed.

(** Pairing, ordering and pruning in a row. *)
Lemma form_steps alloc_ok i : wf i -> checkl i = [] ->
  exists err i1 dn, formed i i1 dn /\ (err = 0 -> dn = pairings i (lcandl i) (rcandl i)) /\
    (err <> 0 -> lcandl i = [] \/ rcandl i = [] \/ exists l c, l ∈ lcandl i /\ cands i !! l = Some c /\ stuck alloc_ok i c) /\
    icem_checklist_form alloc_ok i =
      Some (err, if err =? 0 then pruned i1 (ice_list_unique (unique_handler i1) (checkl i1)) else i1).
Proof.
  intros Hw He. destruct (candpairs_form_run alloc_ok i Hw He) as (err & i1 & dn & E & F & H1 & H2).
  exists err, i1, dn. split; [done|]. split; [done|]. split; [done|].
  unfold icem_checklist_form, mbind at 1, M_bind at 1, gets. rewrite He. unfold mbind, M_bind. rewrite E.
  destruct (err =? 0) eqn:Ee; [|done]. cbn. rewrite (prio_order_id i i1 dn F), (prune_run i1) by apply (f_ev _ _ _ F).
  apply Z.eqb_eq in Ee as ->. done.
Qed.

Lemma form_evolves alloc_ok i : wf i -> exists err i', icem_checklist_form alloc_ok i = Some (err, i') /\ evolves i i'.
Proof.
  intros Hw. destruct (checkl i) eqn:El.
  - destruct (form_steps alloc_ok i Hw El) as (err & i1 & dn & F & _ & _ & E). eexists _, _. split; [exact E|].
    destruct (err =? 0); [|apply F]. eapply pruned_evolves; [exact F|apply unique_sub].
  - exists EALREADY, i. split; [|by apply evolves_refl]. unfold icem_checklist_form, gets, mbind, M_bind. by rewrite El.
Qed.

Lemma same_route_cands i i' d e : cands i' = cands i -> same_route i' d e = same_route i d e.
Proof. intros E. unfold same_route, route, cand_srflx_addr. by rewrite E. Qed.

Lemma pruned_ahead i k : StronglySorted (ahead i) k -> StronglySorted (ahead (pruned i k)) (checkl (pruned i k)).
Proof.
  intros H. eapply strongly_sorted_impl_in; [|exact H]. intros p q Hp Hq (d & e & Hd & He & Hle & Hs). exists d, e.
  rewrite !pruned_kept by (by left). rewrite (same_route_cands i) by done. done.
Qed.
