(* ===== verification/IceTheorems.v ===== *)
(** * Correctness of the ICE media stream

    The events of a stream in the order they arrive, what every such history
    keeps, the checklist it forms, and two histories in which the stream does
    not do what it should.  The elimination of redundant candidates, which
    drops references that pairs and other candidates may hold, is not among
    the events. *)

From Stdlib Require Import Sorted.
From stdpp Require Import gmap.
From S2P Require Import Prelude Effects StunMsg Tmr Ice IceProps IceSteps IceEvents IceForm.
Import Stun Ice.

(** ** Events *)

Inductive event :=
  | ev_component (compid sock_err lport : Z)
  | ev_host (compid lprio : Z) (addr : sa)
  | ev_gathered (base : nat) (t : cand_type) (addr : sa)
  | ev_remote (t : cand_type) (compid prio : Z) (addr : sa) (rel : option sa) (fnd : list Z)
  | ev_role (r : role)
  | ev_start
  | ev_continue
  | ev_timer
  | ev_response (p : nat) (err scode : Z) (mapped : option sa)
  | ev_request (rnd compid : Z) (src : sa) (req : stun_msg) (fp_err mi_err : Z)
  | ev_stop (err : Z).

(** When an event can arrive: a candidate is gathered from a local one, a
    response belongs to a pending request, a request reaches the socket of a
    component, and the pacing timer runs. *)
Definition can_arrive (e : event) (i : icem) : Prop :=
  match e with
  | ev_gathered base _ _ => base ∈ lcandl i
  | ev_response p _ _ _ => exists d, pairs i !! p = Some d /\ p_conn d = true
  | ev_request _ compid _ _ _ _ => compid ∈ map m_id (comps i)
  | ev_timer => pace i = true
  | _ => True
  end.

Section Stream.
Context (alloc_ok : Z -> bool) (request_err chan_err : nat -> Z).

Definition handle (e : event) : IM unit :=
  match e with
  | ev_component compid sock_err lport => _ ← icem_comp_add alloc_ok compid sock_err lport; mret tt
  | ev_host compid lprio addr => _ ← icem_cand_add alloc_ok compid lprio addr; mret tt
  | ev_gathered base t addr => _ ← icem_lcand_add alloc_ok base t addr; mret tt
  | ev_remote t compid prio addr rel fnd => _ ← icem_rcand_add alloc_ok t compid prio addr rel fnd; mret tt
  | ev_role r => icem_set_role r
  | ev_start => _ ← icem_conncheck_start alloc_ok; mret tt
  | ev_continue => icem_conncheck_continue
  | ev_timer => pace_timeout request_err chan_err
  | ev_response p err scode mapped => stunc_resp_handler alloc_ok request_err chan_err p err scode mapped
  | ev_request rnd compid src req fp_err mi_err =>
    _ ← icem_stund_recv alloc_ok request_err chan_err rnd compid src req fp_err mi_err; mret tt
  | ev_stop err => icem_conncheck_stop request_err chan_err err
  end.

Inductive history : icem -> list event -> icem -> Prop :=
  | h_none i : history i [] i
  | h_event i e i1 es i2 : can_arrive e i -> handle e i = Some (tt, i1) -> history i1 es i2 -> history i (e :: es) i2.

Lemma goes_unit {A} P (m : IM A) `{!Stable evolves P} : goes evolves P m (fun _ => P) -> goes evolves P (_ ← m; mret tt) (fun _ => P).
Proof. intros H. skip by exact H. by apply goes_ret. Qed.

Lemma goes_start P `{!Stable evolves P} : goes evolves P (icem_conncheck_start alloc_ok) (fun _ => P).
Proof.
  unfold icem_conncheck_start. apply goes_seq; [apply _| |].
  - intros i Hw HP. destruct (form_evolves alloc_ok i Hw) as (err & i' & E & V). exists err, i'. split; [done|]. split; [done|by eapply stable].
  - intros err. apply goes_if; [by apply goes_ret|]. apply goes_quiet. skip by core. skip by core. by apply goes_ret.
Qed.

Lemma goes_handle e : goes evolves (can_arrive e) (handle e) (fun _ _ => True).
Proof.
  assert (H0 : forall m : IM unit, goes evolves (fun _ => True) m (fun _ _ => True) -> goes evolves (can_arrive e) m (fun _ _ => True)).
  { intros m H. eapply goes_pre; [|exact H]. done. }
  destruct e; cbn [can_arrive handle] in *.
  - apply H0. by apply goes_unit, goes_comp_add; apply _.
  - apply H0. apply goes_unit; [apply _|]. unfold icem_cand_add. skip by (eapply goes_keep; [apply _|apply goes_comp_find]).
    destruct x; [by apply goes_lcand_add_base|by apply goes_ret].
  - eapply goes_pre with (P' := fun i => has_cand i base).
    { intros i Hw Hb. destruct (wf_lcands i Hw base Hb) as (d & b & Hd & _). by exists d. }
    eapply goes_post; [|apply (goes_unit (fun i => has_cand i base)); [apply _|by apply goes_lcand_add; [apply _|]]]. done.
  - apply H0. apply goes_unit; [apply _|]. unfold icem_rcand_add. apply goes_seq; [apply _| |].
    + eapply goes_keep; [apply _|]. by apply goes_rcand_alloc.
    + intros [err o]. by apply goes_ret.
  - apply H0, goes_quiet. core.
  - apply H0. by apply goes_unit, goes_start; apply _.
  - apply H0, goes_quiet. core.
  - apply H0, goes_quiet. unfold pace_timeout. skip by core. by apply goes_pace.
  - eapply goes_pre with (P' := fun i => has i p); [intros i _ (d & Hd & _); by exists d|].
    eapply goes_post; [|by apply (goes_response _ _ _ (fun i => has i p)); [apply _|]]. done.
  - apply H0. by apply goes_unit, goes_recv; apply _.
  - apply H0. by apply goes_stop.
Qed.

Lemma history_evolves i es i' : wf i -> history i es i' -> evolves i i'.
Proof.
  intros Hw H. revert Hw. induction H as [i|i e i1 es i2 Ha E _ IH]; intros Hw; [by apply evolves_refl|].
  destruct (goes_handle e i Hw Ha) as (r & i1' & E' & V & _). assert (i1' = i1) as -> by congruence.
  eapply evolves_trans; [exact V|]. apply IH. by destruct V.
Qed.

Lemma stream_alloc_wf mode_full udp r tie ufrag pwd h stun_err i :
  icem_alloc alloc_ok mode_full udp r tie ufrag pwd h stun_err = (0, Some i) -> wf i.
Proof.
  unfold icem_alloc. repeat (case_match; try done). intros [= <-].
  split; cbn; [by intros ? ?%not_elem_of_nil|by intros ? ?%not_elem_of_nil| |by intros ? ?%not_elem_of_nil|apply NoDup_nil_2| | |apply SSorted_nil|apply SSorted_nil].
  - by intros p d Hd%lookup_empty_Some.
  - by intros c p ?%not_elem_of_nil.
  - intros n _. split; apply lookup_empty.
Qed.

(** C2: whatever has happened to a media stream since [icem_alloc], whatever
    the results of memory allocation, of the STUN requests and of the TURN
    channels, the handler of every event that can arrive next (components and
    candidates added, checks started, continued and stopped, the pacing timer,
    responses, requests of the peer) is defined: it reaches no freed pair and no missing base or component, and
    the recursion of the connectivity checks through [pace_next] ends. *)
Theorem ice_handlers_defined mode_full udp r tie ufrag pwd h stun_err i0 es i e :
  icem_alloc alloc_ok mode_full udp r tie ufrag pwd h stun_err = (0, Some i0) -> history i0 es i -> can_arrive e i ->
  exists i', handle e i = Some (tt, i').
Proof.
  intros H0 Hes Ha. pose proof (history_evolves i0 es i (stream_alloc_wf _ _ _ _ _ _ _ _ _ H0) Hes) as V.
  destruct (goes_handle e i (ev_wf _ _ V) Ha) as ([] & i' & E & _). by exists i'.
Qed.

(** C23: at every point of its history, under the events above, a media stream is well formed: its
    checklist and its valid list are disjoint and ordered by priority, all
    pairs have their candidates and component, and a selected pair is a valid
    one; and whatever follows, candidates stay, a pair keeps its candidates
    and priority, one whose check has succeeded or failed keeps that state,
    valid pairs stay valid, and every check sent names its role, with
    USE-CANDIDATE only by a controlling agent. *)
Theorem ice_history_invariant mode_full udp r tie ufrag pwd h stun_err i0 es i es' i' :
  icem_alloc alloc_ok mode_full udp r tie ufrag pwd h stun_err = (0, Some i0) -> history i0 es i -> history i es' i' ->
  wf i /\ evolves i i'.
Proof.
  intros H0 H1 H2. pose proof (history_evolves i0 es i (stream_alloc_wf _ _ _ _ _ _ _ _ _ H0) H1) as V.
  split; [by destruct V|]. eapply history_evolves; [by destruct V|done].
Qed.

End Stream.

(** C24: from a well-formed stream with local candidates of known components
    and remote candidates, and memory, [icem_checklist_form] succeeds; the
    checklist holds only pairs of a local and a remote candidate of one
    component and address family, each as [icem_candpair_alloc] makes it and
    not yet checked; it is ordered by falling priority, no two of its pairs
    share a route, and for every such pair of candidates it has that pair or
    one of the same route and at least its priority. *)
Theorem checklist_formed alloc_ok i : wf i -> checkl i = [] -> lcandl i <> [] -> rcandl i <> [] -> alloc_ok 112 = true ->
  (forall l c, l ∈ lcandl i -> cands i !! l = Some c -> c_compid c ∈ map m_id (comps i)) ->
  exists i', icem_checklist_form alloc_ok i = Some (0, i') /\ evolves i i' /\
    (forall p, p ∈ checkl i' -> exists x, x ∈ pairings i (lcandl i) (rcandl i) /\ is_Some (new_pair i x) /\ pairs i' !! p = new_pair i x) /\
    (forall x, x ∈ pairings i (lcandl i) (rcandl i) -> exists d p e, new_pair i x = Some d /\ p ∈ checkl i' /\
      pairs i' !! p = Some e /\ p_pprio d <= p_pprio e /\ (e = d \/ same_route i e d = true)) /\
    StronglySorted (ahead i') (checkl i').
Proof.
  intros Hw He Hl Hr Ha Hc. destruct (form_steps alloc_ok i Hw He) as (err & i1 & dn & F & H1 & H2 & E).
  assert (err = 0) as ->.
  { destruct (Z.eq_dec err 0) as [|Hne]; [done|]. destruct (H2 Hne) as [|[|(l & c & H3 & H4 & [H5|H5])]]; [done..|congruence|]. by destruct H5; eapply Hc. }
  specialize (H1 eq_refl) as ->. set (k := ice_list_unique (unique_handler i1) (checkl i1)) in *.
  destruct (prune_spec i1) as [S1 S2]; [apply F|]. fold k in S1, S2. pose proof F as [Fev Fc Fm Fr Fo Fn Fa].
  assert (Hsub : forall p, p ∈ k -> p ∈ checkl i1).
  { intros p Hp. eapply elem_of_submseteq; [exact Hp|]. apply sublist_submseteq, unique_sub. }
  exists (pruned i1 k). split; [exact E|]. split; [eapply pruned_evolves; [exact F|apply unique_sub]|]. split; [|split].
  - intros p Hp. change (p ∈ k) in Hp. destruct (Fn p (Hsub p Hp)) as (_ & Hs & x & Hx & Hd). exists x.
    rewrite pruned_kept by (by left). by rewrite <- Hd.
  - intros x Hx. destruct (Fa x Hx) as (p & Hp & Hd). destruct (Fn p Hp) as (_ & [d Hs] & _).
    destruct (S2 p Hp) as (q & Hq & Hqp). destruct Hqp as [->|(e & d' & H3 & H4 & H5 & H6)].
    + exists d, p, d. rewrite pruned_kept by (by left). split_and!; [congruence|done|done|lia|by left].
    + exists d', q, e. rewrite pruned_kept by (by left). rewrite (same_route_cands i i1) in H6 by done.
      split_and!; [congruence|done..|by right].
  - by apply pruned_ahead.
Qed.

(** ** Streams *)

Definition memory (_ : Z) : bool := true.
Definition sends (_ : nat) : Z := 0.

(** Whether an event can arrive, as a test. *)
Definition arrives (e : event) (i : icem) : bool :=
  match e with
  | ev_gathered base _ _ => bool_decide (base ∈ lcandl i)
  | ev_response p _ _ _ => match pairs i !! p with Some d => p_conn d | None => false end
  | ev_request _ compid _ _ _ _ => bool_decide (compid ∈ map m_id (comps i))
  | ev_timer => pace i
  | _ => true
  end.

Lemma arrives_can e i : arrives e i = true -> can_arrive e i.
Proof.
  destruct e; cbn; try done; try (by intros ?%bool_decide_eq_true).
  destruct (pairs i !! p) as [d|]; [|done]. intros Hd. by exists d.
Qed.

(** Plays a history. *)
Fixpoint play (request_err : nat -> Z) (es : list event) (i : icem) : option icem :=
  match es with
  | [] => Some i
  | e :: es =>
    if arrives e i then match handle memory request_err sends e i with Some (_, i) => play request_err es i | None => None end
    else None
  end.

Lemma play_history request_err es i i' : play request_err es i = Some i' -> history memory request_err sends i es i'.
Proof.
  revert i. induction es as [|e es IH]; intros i; cbn; [intros [= ->]; constructor|].
  destruct (arrives e i) eqn:Ea; [|done]. destruct (handle _ _ _ e i) as [[[] i1]|] eqn:E; [|done]. intros H.
  eapply h_event; [by apply arrives_can|exact E|by apply IH].
Qed.

(** A controlling agent with a host and a reflexive candidate, whose peer has two. *)
Definition my_addr : sa := sa_in 16843009 5000.
Definition my_public : sa := sa_in 33686018 6000.
Definition peer_addr : sa := sa_in 50529027 7000.
Definition peer_other : sa := sa_in 67372036 8000.
Definition ufrag4 : list Z := [97; 98; 99; 100].
Definition empty_stream (tie : Z) : icem := mk_icem [] [] [] [] ∅ ∅ [] tie false CONTROLLING ufrag4 [] CL_NULL false true [] [] 0 0.
Definition setup : list event :=
  [ev_component 1 0 5000; ev_host 1 10 my_addr; ev_gathered 0 SRFLX my_public;
   ev_remote HOST 1 2000 peer_addr None [49]; ev_remote RELAY 1 100 peer_other None [50]].
Definition after (es : list event) (tie : Z) : icem := default (empty_stream tie) (play sends es (empty_stream tie)).

Lemma empty_alloc tie : tie <> 0 ->
  icem_alloc memory true true CONTROLLING tie ufrag4 (repeat 97 22) true 0 = (0, Some (empty_stream tie)).
Proof. intros H. unfold icem_alloc. by replace (tie =? 0) with false by lia. Qed.

Lemma ice_handlers_defined_witness :
  can_arrive (ev_response 4 0 0 (Some my_public)) (after (setup ++ [ev_start; ev_timer]) 9) /\
  exists i', handle memory sends sends (ev_response 4 0 0 (Some my_public)) (after (setup ++ [ev_start; ev_timer]) 9) = Some (tt, i').
Proof.
  assert (Ha : can_arrive (ev_response 4 0 0 (Some my_public)) (after (setup ++ [ev_start; ev_timer]) 9)) by (by apply arrives_can; vm_compute).
  split; [exact Ha|].
  apply (ice_handlers_defined memory sends sends true true CONTROLLING 9 ufrag4 (repeat 97 22) true 0 (empty_stream 9)
    (setup ++ [ev_start; ev_timer])); [by apply empty_alloc|by apply play_history; vm_compute|exact Ha].
Defined.

Definition checked : list event := [ev_start; ev_timer; ev_response 4 0 0 (Some my_public)].

Lemma ice_history_invariant_witness :
  wf (after setup 9) /\ evolves (after setup 9) (after (setup ++ checked) 9).
Proof.
  apply (ice_history_invariant memory sends sends true true CONTROLLING 9 ufrag4 (repeat 97 22) true 0 (empty_stream 9) setup
    (after setup 9) checked); [by apply empty_alloc|by apply play_history; vm_compute|by apply play_history; vm_compute].
Defined.

Lemma demo_wf : wf (after setup 9).
Proof.
  assert (Hh : history memory sends sends (empty_stream 9) setup (after setup 9)) by (by apply play_history; vm_compute).
  assert (Hw : wf (empty_stream 9)) by (exact (stream_alloc_wf _ _ _ _ _ _ _ _ _ _ (empty_alloc 9 ltac:(done)))).
  exact (ev_wf _ _ (history_evolves _ _ _ _ _ _ Hw Hh)).
Qed.

Lemma checklist_formed_witness : length (pairings (after setup 9) [0; 1]%nat [2; 3]%nat) = 4%nat /\
  exists i', icem_checklist_form memory (after setup 9) = Some (0, i') /\ StronglySorted (ahead i') (checkl i').
Proof.
  split; [by vm_compute|].
  assert (Hl : lcandl (after setup 9) = [0; 1]%nat) by (by vm_compute).
  destruct (checklist_formed memory (after setup 9)) as (i' & E & _ & _ & _ & H).
  - exact demo_wf.
  - by vm_compute.
  - by rewrite Hl.
  - by vm_compute.
  - done.
  - rewrite Hl. intros l c Hin Hc.
    assert (Forall (fun l => forall c, cands (after setup 9) !! l = Some c -> c_compid c = 1) [0; 1]%nat) as HF.
    { repeat constructor; intros d; vm_compute; by intros [= <-]. }
    rewrite Forall_forall in HF. rewrite (HF l Hin c Hc). vm_compute. by left.
  - exists i'. by split.
Defined.

(** ** Role conflicts *)

(** The check a controlling peer with this tie-breaker sends. *)
Definition claim (tie : Z) : stun_msg :=
  mk_smsg (mk_shdr 1 0 0x2112a442 (repeat 0 12))
    [mk_attr STUN_ATTR_USERNAME (v_str (ufrag4 ++ [58; 120])); mk_attr STUN_ATTR_PRIORITY (v_32 1000);
     mk_attr STUN_ATTR_CONTROLLING (v_64 tie)] 0.

(** Two agents that both start as controlling are still both controlling
    after each has sent one check, received the check of the other and, where
    its check was refused with 487, the refusal: the agent with the smaller
    tie-breaker refuses; the one with the larger yields when it receives the
    check and turns back when the refusal arrives. *)
Theorem role_conflict_stays :
  lrole <$> play sends (setup ++ [ev_start; ev_timer; ev_request 7 1 peer_addr (claim 5) 0 0; ev_response 4 0 487 None])
    (empty_stream 9) = Some CONTROLLING /\
  fst <$> icem_stund_recv memory sends sends 7 1 peer_addr (claim 9) 0 0 (after (setup ++ [ev_start; ev_timer]) 5) = Some (a_error 487) /\
  lrole <$> play sends (setup ++ [ev_start; ev_timer; ev_request 7 1 peer_addr (claim 9) 0 0]) (empty_stream 5) = Some CONTROLLING.
Proof. split; [by vm_compute|]. split; by vm_compute. Qed.

(** ** The report of the outcome *)

(** The first check is sent, every later one is refused by the network. *)
Definition first_only (n : nat) : Z := match n with O => 0 | S _ => 101 end.

(** The connectivity check handler can be called twice for one run of the
    checks: when the last check fails as it is sent, the nested [pace_next]
    reports the completed checklist, and so does the outer one. *)
Theorem outcome_reported_twice :
  results <$> play first_only (setup ++ checked) (empty_stream 9) = Some [(0, true); (0, true)].
Proof. by vm_compute. Qed.

(** ** Priorities *)

Lemma cand_prio_bound t local compid : 0 <= local < 65536 -> 1 <= compid <= 256 -> 0 <= ice_cand_calc_prio t local compid < 2 ^ 31.
Proof.
  intros Hl Hc. assert (Ht : 0 <= type_prio t <= 126) by (destruct t; cbn; lia). unfold ice_cand_calc_prio, u32.
  rewrite (Z.mod_small (256 - compid)) by lia.
  rewrite (lor_add (type_prio t) (Z.shiftl local 8) 24) by (rewrite ?Z.shiftl_mul_pow2 by lia; lia).
  replace (type_prio t * 2 ^ 24 + Z.shiftl local 8) with (Z.shiftl (type_prio t * 2 ^ 16 + local) 8) by (rewrite !Z.shiftl_mul_pow2 by lia; lia).
  rewrite lor_add by lia. rewrite Z.mod_small by lia. lia.
Qed.

Lemma pair_prio_sum g d : 0 <= g < 2 ^ 31 -> 0 <= d < 2 ^ 31 ->
  ice_calc_pair_prio g d = 2 ^ 32 * Z.min g d + 2 * Z.max g d + (if d <? g then 1 else 0).
Proof.
  intros Hg Hd. unfold ice_calc_pair_prio, u64. rewrite Z.shiftl_mul_pow2 by lia. rewrite Z.mod_small by (case_match; lia). lia.
Qed.

(** C39: the priority of a candidate is below 2^31, and on such priorities both
    agents compute the same priority for a pair, without overflow, and
    different priorities of the candidates give different ones of the pairs. *)
Theorem pair_priority_agreed l r l' r' :
  (forall t local compid, 0 <= local < 65536 -> 1 <= compid <= 256 -> 0 <= ice_cand_calc_prio t local compid < 2 ^ 31) /\
  (0 <= c_prio l < 2 ^ 31 -> 0 <= c_prio r < 2 ^ 31 -> 0 <= c_prio l' < 2 ^ 31 -> 0 <= c_prio r' < 2 ^ 31 ->
   pair_prio CONTROLLING l r = pair_prio CONTROLLED r l /\
   (pair_prio CONTROLLING l r = pair_prio CONTROLLING l' r' -> c_prio l = c_prio l' /\ c_prio r = c_prio r')).
Proof.
  split; [exact cand_prio_bound|]. intros Hl Hr Hl' Hr'. split; [done|].
  unfold pair_prio. rewrite decide_True by done. rewrite decide_True by done. rewrite !pair_prio_sum by done.
  destruct (Z.ltb_spec (c_prio r) (c_prio l)), (Z.ltb_spec (c_prio r') (c_prio l')); lia.
Qed.

Lemma pair_priority_agreed_witness : 0 <= ice_cand_calc_prio HOST 10 1 < 2 ^ 31 /\
  let c p := mk_cand HOST p [] 1 None my_addr None in
  pair_prio CONTROLLING (c 5) (c 6) = pair_prio CONTROLLED (c 6) (c 5).
Proof.
  split; [apply (pair_priority_agreed (mk_cand HOST 5 [] 1 None my_addr None) (mk_cand HOST 6 [] 1 None my_addr None)
      (mk_cand HOST 5 [] 1 None my_addr None) (mk_cand HOST 6 [] 1 None my_addr None)); lia|].
  apply (pair_priority_agreed (mk_cand HOST 5 [] 1 None my_addr None) (mk_cand HOST 6 [] 1 None my_addr None)
      (mk_cand HOST 5 [] 1 None my_addr None) (mk_cand HOST 6 [] 1 None my_addr None)); cbn; lia.
Defined.
