(* ===== verification/StunTrans.v ===== *)
(** * STUN client transactions

    Models ctrans.c, req.c, rep.c, ind.c and stun.c of re/src/stun: requests
    with their retransmission, the matching of responses, replies.  The
    network is a parameter: the result of the n-th call of a socket.  What
    goes out and the calls of the application's handlers are recorded. *)

From stdpp Require Import gmap.
From S2P Require Import Prelude Effects Mbuf MbufProps Rtp Codec StunMsg.
Import Mb Stun.

Module Tr.

Definition ECONNABORTED : Z := 103.

Definition STUN_CLASS_REQUEST : Z := 0.
Definition STUN_CLASS_INDICATION : Z := 1.
Definition STUN_CLASS_SUCCESS_RESP : Z := 2.
Definition STUN_CLASS_ERROR_RESP : Z := 3.

Record stun_conf := mk_conf { rto : Z; rc : Z; rm : Z; ti : Z }.
Definition conf_default : stun_conf := mk_conf 500 7 16 39500.

Inductive transport := UDP | TCP | DTLS | OTHER.

(** [t_ctp]: the application holds a pointer; [t_resph]: it has a handler;
    [t_tmr]: the delay of the running timer. *)
Record stun_ctrans := mk_ct {
  t_tmr : option Z;
  t_tid : list Z;
  t_ctp : bool;
  t_key : option (list Z);
  t_mb : mbuf;
  t_pos : Z;
  t_resph : bool;
  t_proto : transport;
  t_txc : Z;
  t_ival : Z;
  t_met : Z }.

(** A datagram of transaction [t]; a call of its handler; an indication. *)
Inductive out :=
| o_send (t : nat) (d : list Z)
| o_done (t : nat) (err scode : Z)
| o_ind (m : stun_msg).

(** [nets]: the calls of sockets so far; [helpers]: the receive helpers that
    were registered at sockets of the application. *)
Record stun := mk_stun {
  conf : stun_conf;
  indh : bool;
  ctl : list nat;
  cts : gmap nat stun_ctrans;
  outs : list out;
  nets : nat;
  helpers : nat;
  fresh : nat }.

Abbreviation SM := (M stun).

Definition set_ctl x s := mk_stun (conf s) (indh s) x (cts s) (outs s) (nets s) (helpers s) (fresh s).
Definition set_cts x s := mk_stun (conf s) (indh s) (ctl s) x (outs s) (nets s) (helpers s) (fresh s).
Definition add_out x s := mk_stun (conf s) (indh s) (ctl s) (cts s) (outs s ++ [x]) (nets s) (helpers s) (fresh s).
Definition add_net s := mk_stun (conf s) (indh s) (ctl s) (cts s) (outs s) (S (nets s)) (helpers s) (fresh s).
Definition add_helper s := mk_stun (conf s) (indh s) (ctl s) (cts s) (outs s) (nets s) (S (helpers s)) (fresh s).
Definition set_fresh x s := mk_stun (conf s) (indh s) (ctl s) (cts s) (outs s) (nets s) (helpers s) x.

Definition set_tmr x d := mk_ct x (t_tid d) (t_ctp d) (t_key d) (t_mb d) (t_pos d) (t_resph d) (t_proto d) (t_txc d) (t_ival d) (t_met d).
Definition set_txc x d := mk_ct (t_tmr d) (t_tid d) (t_ctp d) (t_key d) (t_mb d) (t_pos d) (t_resph d) (t_proto d) x (t_ival d) (t_met d).
Definition set_ival x d := mk_ct (t_tmr d) (t_tid d) (t_ctp d) (t_key d) (t_mb d) (t_pos d) (t_resph d) (t_proto d) (t_txc d) x (t_met d).
(** The application's pointer and handler. *)
Definition set_owner ctp resph d :=
  mk_ct (t_tmr d) (t_tid d) ctp (t_key d) (t_mb d) (t_pos d) resph (t_proto d) (t_txc d) (t_ival d) (t_met d).

Definition get_ct (t : nat) : SM stun_ctrans := fun s => d ← cts s !! t; Some (d, s).
Definition put_ct (t : nat) (d : stun_ctrans) : SM unit := modify (fun s => set_cts (<[t := d]> (cts s)) s).
Definition upd_ct (t : nat) (f : stun_ctrans -> stun_ctrans) : SM unit := d ← get_ct t; put_ct t (f d).

Section Env.
Context (alloc_ok : Z -> bool) (junk : Z -> Z) (hmac_sha1 : list Z -> list Z -> list Z) (net_err : nat -> Z).

(** sizeof(struct stun) is 56. *)
Definition stun_alloc (c : option stun_conf) (h : bool) : Z * option stun :=
  if negb (alloc_ok 56) then (ENOMEM, None) else (0, Some (mk_stun (default conf_default c) h [] ∅ [] 0 0 0)).

(** A call of the network. *)
Definition net : SM Z := n ← gets nets; modify add_net ;; mret (net_err n).

(** The bytes from the position of the buffer on, if they leave. *)
Definition sock_send (t : nat) (mb : mbuf) : SM Z :=
  err ← net;
  d ← of_option (slice (bytes mb) (mb_pos mb) (mbuf_get_left mb));
  when (err =? 0) (modify (add_out (o_send t d))) ;;
  mret err.

Definition stun_send (p : transport) (t : nat) (mb : mbuf) : SM Z :=
  match p with UDP | TCP | DTLS => sock_send t mb | OTHER => mret EPROTONOSUPPORT end.

(** The destructor: the transaction leaves the list, its timer stops. *)
Definition destructor (t : nat) : SM unit :=
  modify (fun s => set_cts (delete t (cts s)) (set_ctl (filter (fun x => x <> t) (ctl s)) s)).

Definition completed (t : nat) (err scode : Z) : SM unit :=
  d ← get_ct t;
  destructor t ;;
  when (t_resph d) (modify (add_out (o_done t err scode))).

Definition timeout_handler (t : nat) : SM unit :=
  upd_ct t (set_tmr None) ;;
  d ← get_ct t;
  c ← gets conf;
  put_ct t (set_txc (u32 (t_txc d + 1)) d) ;;
  if rc c <=? t_txc d then completed t ETIMEDOUT 0 else
  err ← stun_send (t_proto d) t (set_pos (t_pos d) (t_mb d));
  if negb (err =? 0) then completed t err 0 else
  d ← get_ct t;
  let ival := if rc c <=? t_txc d then u32 (rto c * rm c) else u32 (t_ival d * 2) in
  put_ct t (set_tmr (Some ival) (set_ival ival d)).

Definition match_handler (m : stun_msg) (d : stun_ctrans) : bool :=
  (t_met d =? stun_msg_method m) && bool_decide (t_tid d = stun_msg_tid m).

(** [list_apply] with [match_handler]. *)
Fixpoint ct_find (l : list nat) (m : stun_msg) : SM (option nat) :=
  match l with
  | [] => mret None
  | t :: l => d ← get_ct t; if match_handler m d then mret (Some t) else ct_find l m
  end.

(** The error code of the message, and EPROTO for an error response without. *)
Definition error_of (m : stun_msg) : Z * Z :=
  if stun_msg_class m =? STUN_CLASS_ERROR_RESP then
    match a_v <$> stun_msg_attr m STUN_ATTR_ERR_CODE with Some (v_err code _) => (0, code) | _ => (EPROTO, 0) end
  else (0, 0).

(** [mb]: the buffer of the message; [ua]: the unknown attributes. *)
Definition stun_ctrans_recv (m : stun_msg) (ua : list Z) (mb : mbuf) : SM Z :=
  if negb ((stun_msg_class m =? STUN_CLASS_ERROR_RESP) || (stun_msg_class m =? STUN_CLASS_SUCCESS_RESP)) then mret 0 else
  let '(herr, code) := error_of m in
  l ← gets ctl;
  ct ← ct_find l m;
  match ct with
  | None => mret ENOENT
  | Some t =>
    d ← get_ct t;
    err ← (if (code =? 401) || (code =? 438) then mret 0 else
           match t_key d with
           | None => mret 0
           | Some key => r ← of_option (stun_msg_chk_mi alloc_ok junk hmac_sha1 m key mb); mret (fst (fst r))
           end);
    if negb (err =? 0) then mret err else
    let herr := if (herr =? 0) && bool_decide (ua <> []) then EPROTO else herr in
    completed t herr code ;;
    mret 0
  end.

(** The switch over the transports of [stun_ctrans_request]; [sock]: the
    application has a socket. *)
Definition start_transport (t : nat) (c : stun_conf) (p : transport) (sock : bool) (dst : option sa) (mb : mbuf) : SM Z :=
  match p with
  | UDP =>
    match dst with
    | None => mret EINVAL
    | Some _ =>
      upd_ct t (fun d => set_tmr (Some (rto c)) (set_ival (rto c) d)) ;;
      err ← (if sock then modify add_helper ;; mret 0 else net);
      if negb (err =? 0) then mret err else
      upd_ct t (set_txc 1) ;;
      sock_send t mb
    end
  | TCP =>
    upd_ct t (fun d => set_tmr (Some (ti c)) (set_txc (rc c) d)) ;;
    if sock then sock_send t mb else net
  | DTLS =>
    if negb sock then mret EINVAL else
    upd_ct t (fun d => set_tmr (Some (rto c)) (set_ival (rto c) d)) ;;
    upd_ct t (set_txc 1) ;;
    sock_send t mb
  | OTHER => mret EPROTONOSUPPORT
  end.

(** [ctp], [resph]: the argument is not NULL.  sizeof(struct stun_ctrans) is
    208. *)
Definition stun_ctrans_request (ctp : bool) (p : transport) (sock : bool) (dst : option sa) (mb : mbuf) (tid : list Z)
  (met : Z) (key : option (list Z)) (resph : bool) : SM (Z * option nat) :=
  if negb (alloc_ok 208) then mret (ENOMEM, None) else
  t ← gets fresh;
  modify (set_fresh (S t)) ;;
  modify (fun s => set_ctl (ctl s ++ [t]) s) ;;
  put_ct t (mk_ct None tid false key mb (mb_pos mb) false p 0 0 met) ;;
  c ← gets conf;
  err ← (if bool_decide (is_Some key) && negb (alloc_ok (zlen (default [] key))) then mret ENOMEM
         else start_transport t c p sock dst mb);
  if err =? 0 then upd_ct t (set_owner ctp resph) ;; mret (0, Some t)
  else destructor t ;; mret (err, None).

(** [tcp_estab_handler] sends the request, [tcp_close_handler] gives up. *)
Definition tcp_estab_handler (t : nat) : SM unit :=
  d ← get_ct t;
  err ← sock_send t (t_mb d);
  if err =? 0 then mret tt else completed t err 0.
Definition tcp_close_handler (t : nat) (err : Z) : SM unit := completed t err 0.

Definition stun_ctrans_close : SM unit := l ← gets ctl; for_each (fun t => completed t ECONNABORTED 0) l.

(** [rnd]: the random numbers of the transaction number. *)
Definition stun_request (rnd : list Z) (ctp : bool) (p : transport) (sock : bool) (dst : option sa) (presz method : Z)
  (key : option (list Z)) (fp resph : bool) (attrs : list (Z * option attr_v)) : SM (Z * option nat) :=
  match mbuf_alloc alloc_ok junk 512 with
  | None => mret (ENOMEM, None)
  | Some mb =>
    let tid := map u8 rnd in
    '(err, mb) ← of_option (stun_msg_vencode alloc_ok junk hmac_sha1 method STUN_CLASS_REQUEST tid None key fp 0 attrs (set_pos presz mb));
    if negb (err =? 0) then mret (err, None) else
    stun_ctrans_request ctp p sock dst (set_pos presz mb) tid method key resph
  end.

(** What a reply comes to: the code and the bytes that are sent; [send_err]:
    the result of the socket. *)
Definition reply_with (size presz method class : Z) (tid : list Z) (ec : option (Z * option (list Z))) (key : option (list Z))
  (fp : bool) (attrs : list (Z * option attr_v)) (send_err : Z) : option (Z * option (list Z)) :=
  match mbuf_alloc alloc_ok junk size with
  | None => Some (ENOMEM, None)
  | Some mb =>
    '(err, mb) ← stun_msg_vencode alloc_ok junk hmac_sha1 method class tid ec key fp 0 attrs (set_pos presz mb);
    if negb (err =? 0) then Some (err, None) else
    d ← slice (bytes mb) presz (mbuf_get_left (set_pos presz mb));
    Some (send_err, if send_err =? 0 then Some d else None)
  end.

Definition stun_reply (presz : Z) (req : stun_msg) (key : option (list Z)) (fp : bool) (attrs : list (Z * option attr_v))
  (send_err : Z) : option (Z * option (list Z)) :=
  reply_with 256 presz (stun_msg_method req) STUN_CLASS_SUCCESS_RESP (stun_msg_tid req) None key fp attrs send_err.

Definition stun_ereply (presz : Z) (req : stun_msg) (scode : Z) (reason : list Z) (key : option (list Z)) (fp : bool)
  (attrs : list (Z * option attr_v)) (send_err : Z) : option (Z * option (list Z)) :=
  if scode =? 0 then Some (EINVAL, None) else
  reply_with 256 presz (stun_msg_method req) STUN_CLASS_ERROR_RESP (stun_msg_tid req) (Some (scode, Some reason)) key fp attrs send_err.

Definition stun_indication (rnd : list Z) (presz method : Z) (key : option (list Z)) (fp : bool)
  (attrs : list (Z * option attr_v)) (send_err : Z) : option (Z * option (list Z)) :=
  reply_with 2048 presz method STUN_CLASS_INDICATION (map u8 rnd) None key fp attrs send_err.

Definition stun_recv (mb : mbuf) : SM Z :=
  '(err, m, ua, mb) ← of_option (stun_msg_decode alloc_ok (Some []) mb);
  match m with
  | None => mret err
  | Some m =>
    if stun_msg_class m =? STUN_CLASS_INDICATION then
      i ← gets indh;
      when (bool_decide (default [] ua = []) && i) (modify (add_out (o_ind m))) ;;
      mret 0
    else if (stun_msg_class m =? STUN_CLASS_ERROR_RESP) || (stun_msg_class m =? STUN_CLASS_SUCCESS_RESP)
    then stun_ctrans_recv m (default [] ua) mb
    else mret 0
  end.

(** The helper at a socket of the application: what begins like RTP passes. *)
Definition udp_recv_handler_helper (mb : mbuf) : SM bool :=
  b ← of_option (nth_error (bytes mb) 0);
  if negb (Z.land b 0xc0 =? 0) then mret false else
  err ← stun_recv mb;
  mret (err =? 0).

End Env.

End Tr.
