(* ===== verification/StunTransProps.v ===== *)
(** * Properties of STUN client transactions

    Every event is defined, the handler of a transaction is called at most
    once and not while it is pending, a pending transaction has its timer
    running, and one that is not answered ends after the retransmissions of
    its configuration. *)

From stdpp Require Import gmap.
From S2P Require Import Prelude Effects Mbuf MbufProps Rtp Codec StunMsg StunProps StunRoundtrip StunCheck StunTrans.
Import Mb Rtp Stun Tr.

(** ** The invariant *)

(** The calls of the handler of [t]. *)
Definition of_trans (t : nat) (o : out) : bool := match o with o_done x _ _ => (x =? t)%nat | _ => false end.
Definition done_of (t : nat) (s : stun) : list out := filter (fun o => of_trans t o = true) (outs s).

(** The buffer of a request is at its message. *)
Definition packet (mb : mbuf) : Prop := mb_wf mb /\ 0 <= mb_pos mb <= mb_end mb.

(** [e]: the transaction whose timer may have stopped. *)
Record wf (e : option nat) (s : stun) : Prop := {
  wf_nodup : NoDup (ctl s);
  wf_known : forall t, t ∈ ctl s <-> is_Some (cts s !! t);
  wf_fresh : forall t, t ∈ ctl s -> (t < fresh s)%nat;
  wf_timer : forall t d, cts s !! t = Some d -> Some t <> e -> is_Some (t_tmr d);
  wf_packet : forall t d, cts s !! t = Some d -> packet (t_mb d) /\ t_pos d = mb_pos (t_mb d);
  wf_silent : forall t, t ∈ ctl s \/ (fresh s <= t)%nat -> done_of t s = [];
  wf_once : forall t, (length (done_of t s) <= 1)%nat }.

Definition ended (t : nat) (os : list out) (s : stun) : stun :=
  mk_stun (conf s) (indh s) (filter (fun x => x <> t) (ctl s)) (delete t (cts s)) (outs s ++ os) (nets s) (helpers s) (fresh s).

Lemma done_app t s os : filter (fun o => of_trans t o = true) (outs s ++ os) = done_of t s ++ filter (fun o => of_trans t o = true) os.
Proof. apply filter_app. Qed.

(** What completing or destroying a transaction comes to. *)
Lemma ended_wf t os s : wf (Some t) s -> t ∈ ctl s -> (forall x, x <> t -> filter (fun o => of_trans x o = true) os = []) ->
  (length (filter (fun o => of_trans t o = true) os) <= 1)%nat -> wf None (ended t os s).
Proof.
  intros [W1 W2 W3 W4 W5 W6 W7] Ht Hos Hone.
  assert (Hin : forall x, x ∈ ctl (ended t os s) <-> x <> t /\ x ∈ ctl s) by (intros x; cbn; by rewrite list_elem_of_filter).
  split; cbn.
  - by apply NoDup_filter.
  - intros x. rewrite (Hin x). destruct (decide (x = t)) as [->|Hx].
    + rewrite lookup_delete_eq. split; [by intros []|by intros [? ?]].
    + rewrite lookup_delete_ne by done. rewrite <- W2. tauto.
  - intros x [_ Hx]%Hin. by apply W3.
  - intros x d. destruct (decide (x = t)) as [->|Hx]; [by rewrite lookup_delete_eq|]. rewrite lookup_delete_ne by done.
    intros Hd _. apply (W4 x d Hd). congruence.
  - intros x d. destruct (decide (x = t)) as [->|Hx]; [by rewrite lookup_delete_eq|]. rewrite lookup_delete_ne by done. by apply W5.
  - intros x Hx. unfold done_of. cbn. rewrite done_app. assert (Hne : x <> t).
    { intros ->. destruct Hx as [[? _]%Hin|Hx]; [done|]. specialize (W3 t Ht). lia. }
    rewrite (Hos x Hne), app_nil_r. apply W6. destruct Hx as [[_ ?]%Hin|?]; [by left|by right].
  - intros x. unfold done_of. cbn. rewrite done_app, length_app. destruct (decide (x = t)) as [->|Hx].
    + rewrite W6 by (by left). cbn. lia.
    + rewrite Hos by done. cbn. specialize (W7 x). lia.
Qed.

Lemma destructor_run t s : wf (Some t) s -> t ∈ ctl s -> destructor t s = Some (tt, ended t [] s) /\ wf None (ended t [] s).
Proof.
  intros Hw Ht. split; [unfold destructor, modify, ended; by rewrite app_nil_r|]. by apply ended_wf; [..|cbn; lia].
Qed.

Lemma completed_exact t err scode s d : cts s !! t = Some d ->
  completed t err scode s = Some (tt, ended t (if t_resph d then [o_done t err scode] else []) s).
Proof.
  intros Hd. unfold completed, get_ct, mbind, M_bind. rewrite Hd. cbn. destruct (t_resph d); cbn; [done|].
  unfold mret, M_ret, ended. by rewrite app_nil_r.
Qed.

Lemma completed_run t err scode s : wf (Some t) s -> t ∈ ctl s ->
  exists d, cts s !! t = Some d /\
    completed t err scode s = Some (tt, ended t (if t_resph d then [o_done t err scode] else []) s) /\
    wf None (ended t (if t_resph d then [o_done t err scode] else []) s).
Proof.
  intros Hw Ht. destruct (proj1 (wf_known _ _ Hw t) Ht) as [d Hd]. exists d. split; [done|]. split.
  - by apply completed_exact.
  - apply ended_wf; [done|done| |]; destruct (t_resph d); try (cbn; lia).
    + intros x Hx. rewrite filter_cons, decide_False; [done|]. cbn. intros E. apply Nat.eqb_eq in E. congruence.
    + done.
    + rewrite filter_cons. case_decide; cbn; lia.
Qed.

Lemma wf_weaken e s : wf None s -> wf e s.
Proof. intros [W1 W2 W3 W4 W5 W6 W7]. split; try done. intros t d Hd _. by apply (W4 t d Hd). Qed.

(** Changing a pending transaction. *)
Lemma ct_put_wf e e' t d d' s : wf e s -> cts s !! t = Some d -> t_mb d' = t_mb d -> t_pos d' = t_pos d ->
  (Some t <> e' -> is_Some (t_tmr d')) -> (forall x, x <> t -> Some x <> e' -> Some x <> e) ->
  wf e' (set_cts (<[t := d']> (cts s)) s).
Proof.
  intros [W1 W2 W3 W4 W5 W6 W7] Hd E1 E2 Htm He. split; cbn; try done.
  - intros x. rewrite W2. destruct (decide (x = t)) as [->|Hx]; [by rewrite lookup_insert_eq, Hd|by rewrite lookup_insert_ne].
  - intros x c. destruct (decide (x = t)) as [->|Hx].
    + rewrite lookup_insert_eq. by intros [= <-].
    + rewrite lookup_insert_ne by done. intros Hc Hne. apply (W4 x c Hc). by apply He.
  - intros x c. destruct (decide (x = t)) as [->|Hx].
    + rewrite lookup_insert_eq. intros [= <-]. rewrite E1, E2. by apply (W5 t d).
    + rewrite lookup_insert_ne by done. by apply W5.
Qed.

(** The network and what goes out do not matter to it. *)
Definition talk (os : list out) (n : nat) (s : stun) : stun :=
  mk_stun (conf s) (indh s) (ctl s) (cts s) (outs s ++ os) (nets s + n) (helpers s) (fresh s).

Lemma talk_wf e os n s : wf e s -> (forall t, filter (fun o => of_trans t o = true) os = []) -> wf e (talk os n s).
Proof.
  intros [W1 W2 W3 W4 W5 W6 W7] Ho. assert (H : forall t, done_of t (talk os n s) = done_of t s).
  { intros t. unfold done_of at 1. cbn. by rewrite done_app, Ho, app_nil_r. }
  split; try done; intros t; [intros Ht; rewrite H; by apply W6|rewrite H; apply W7].
Qed.

Section Net.
Context (net_err : nat -> Z).

(** The bytes of a request. *)
Definition payload (mb : mbuf) : list Z := default [] (slice (bytes mb) (mb_pos mb) (mbuf_get_left mb)).

Lemma payload_slice mb : packet mb -> slice (bytes mb) (mb_pos mb) (mbuf_get_left mb) = Some (payload mb).
Proof.
  intros [(Hl & Hp & He & Hz) [_ Hpe]]. unfold payload. rewrite slice_some; [done|..]; unfold mbuf_get_left; repeat case_match; lia.
Qed.

Lemma send_exact t mb s : packet mb -> sock_send net_err t mb s =
  Some (net_err (nets s), talk (if net_err (nets s) =? 0 then [o_send t (payload mb)] else []) 1 s).
Proof.
  intros Hp. unfold sock_send, net, gets, modify, mbind, M_bind, of_option. rewrite (payload_slice mb Hp). cbn.
  destruct (net_err (nets s) =? 0); unfold when, mret, M_ret, talk, add_out, add_net; cbn; rewrite ?app_nil_r, Nat.add_1_r; done.
Qed.

Lemma sock_send_run t mb s : packet mb -> exists d, sock_send net_err t mb s =
  Some (net_err (nets s), talk (if net_err (nets s) =? 0 then [o_send t d] else []) 1 s).
Proof. intros Hp. exists (payload mb). by apply send_exact. Qed.

Lemma no_done t d b : forall x, filter (fun o => of_trans x o = true) (if b : bool then [o_send t d] else []) = [].
Proof. intros x. by destruct b. Qed.

(** The timer of a transaction fires. *)
Definition fired (d : stun_ctrans) : stun_ctrans := set_txc (u32 (t_txc d + 1)) (set_tmr None d).
Definition rearmed (c : stun_conf) (d : stun_ctrans) : stun_ctrans :=
  let ival := if rc c <=? t_txc d then u32 (rto c * rm c) else u32 (t_ival d * 2) in set_tmr (Some ival) (set_ival ival d).
Definition with_ct (t : nat) (d : stun_ctrans) (s : stun) : stun := set_cts (<[t := d]> (cts s)) s.

Lemma send_msg_run p t mb s : packet mb -> exists err os n, stun_send net_err p t mb s = Some (err, talk os n s) /\
  (forall x, filter (fun o => of_trans x o = true) os = []) /\
  (p <> OTHER -> err = net_err (nets s) /\ n = 1%nat /\ exists d, os = if err =? 0 then [o_send t d] else []).
Proof.
  intros Hp. destruct (sock_send_run t mb s Hp) as [d E].
  destruct p; cbn [stun_send]; [do 3 eexists; split; [exact E|]; split; [apply no_done|]; by eauto..|].
  exists EPROTONOSUPPORT, [], 0%nat. split; [|done]. unfold talk. rewrite app_nil_r, Nat.add_0_r. by destruct s.
Qed.

Lemma timeout_exact t s d : cts s !! t = Some d -> packet (t_mb d) -> t_pos d = mb_pos (t_mb d) ->
  timeout_handler net_err t s = (
    if rc (conf s) <=? t_txc d then completed t ETIMEDOUT 0 else
    err ← stun_send net_err (t_proto d) t (t_mb d);
    if negb (err =? 0) then completed t err 0 else modify (with_ct t (rearmed (conf s) (fired d)))) (with_ct t (fired d) s).
Proof.
  intros Hd Hp Hpos. unfold timeout_handler, upd_ct, get_ct, put_ct, modify, gets, mbind, M_bind. cbn.
  rewrite Hd. cbn. rewrite lookup_insert_eq. cbn. rewrite insert_insert_eq.
  match goal with |- context [set_cts ?a (set_cts ?b s)] => change (set_cts a (set_cts b s)) with (with_ct t (fired d) s) end.
  destruct (rc (conf s) <=? t_txc d); [done|].
  replace (set_pos (t_pos d) (t_mb d)) with (t_mb d) by (rewrite Hpos; by destruct (t_mb d)).
  destruct (send_msg_run (t_proto d) t (t_mb d) (with_ct t (fired d) s) Hp) as (err & os & n & -> & _).
  destruct (err =? 0); [|done]. cbn. unfold get_ct. cbn. by rewrite lookup_insert_eq.
Qed.

Lemma timeout_run t s d : wf None s -> cts s !! t = Some d -> exists s', timeout_handler net_err t s = Some (tt, s') /\ wf None s'.
Proof.
  intros Hw Hd. destruct (wf_packet _ _ Hw t d Hd) as [Hp Hpos]. rewrite (timeout_exact t s d Hd Hp Hpos).
  assert (Ht : t ∈ ctl s) by (apply (wf_known _ _ Hw); by eexists).
  assert (W1 : wf (Some t) (with_ct t (fired d) s)) by (by apply (ct_put_wf None (Some t) t d (fired d) s Hw Hd)).
  destruct (rc (conf s) <=? t_txc d).
  { destruct (completed_run t ETIMEDOUT 0 _ W1 Ht) as (e & _ & -> & W2). by eexists. }
  destruct (send_msg_run (t_proto d) t (t_mb d) (with_ct t (fired d) s) Hp) as (err & os & n & E & Ho & _).
  unfold mbind, M_bind. rewrite E. pose proof (talk_wf (Some t) os n _ W1 Ho) as W2. destruct (err =? 0); cbn.
  - eexists. split; [done|]. eapply (ct_put_wf (Some t) None t (fired d)); [exact W2|cbn; by rewrite lookup_insert_eq|done|done|by eexists|congruence].
  - destruct (completed_run t err 0 _ W2 Ht) as (e & _ & -> & W3). by eexists.
Qed.

(** A response is looked up. *)
Lemma ct_find_run m l s : (forall t, t ∈ l -> is_Some (cts s !! t)) -> exists r, ct_find l m s = Some (r, s) /\
  match r with
  | Some t => t ∈ l /\ exists d, cts s !! t = Some d /\ match_handler m d = true
  | None => forall t d, t ∈ l -> cts s !! t = Some d -> match_handler m d = false
  end.
Proof.
  induction l as [|t l IH]; intros H; [exists None; split; [done|by intros t d ?%not_elem_of_nil]|].
  destruct (H t ltac:(by left)) as [d Hd]. cbn. unfold get_ct, mbind, M_bind. rewrite Hd. cbn. destruct (match_handler m d) eqn:E.
  - exists (Some t). split; [done|]. split; [by left|by exists d].
  - destruct IH as (r & Er & Hr); [intros x Hx; apply H; by right|]. exists r. split; [done|]. destruct r as [x|].
    + destruct Hr as [Hx Hr]. split; [by right|done].
    + intros x c [->|Hx]%elem_of_cons Hc; [congruence|by apply (Hr x)].
Qed.

(** ** A new request *)

Definition begun (t : nat) (s : stun) : Prop := wf (Some t) s /\ t ∈ ctl s.
Definition armed (t : nat) (s : stun) : Prop := begun t s /\ exists d, cts s !! t = Some d /\ is_Some (t_tmr d).

(** Assignments to the new transaction keep its buffer. *)
Definition tunes (f : stun_ctrans -> stun_ctrans) : Prop := forall d, t_mb (f d) = t_mb d /\ t_pos (f d) = t_pos d.

Lemma begun_upd t f : tunes f -> ok (begun t) (upd_ct t f) (fun _ s => begun t s /\ exists d, cts s !! t = Some (f d)).
Proof.
  intros Hf s [Hw Ht]. destruct (proj1 (wf_known _ _ Hw t) Ht) as [d Hd]. exists tt, (with_ct t (f d) s).
  split; [unfold upd_ct, get_ct, mbind, M_bind; by rewrite Hd|]. split; [|exists d; cbn; by rewrite lookup_insert_eq].
  split; [|done]. destruct (Hf d) as [H1 H2]. by apply (ct_put_wf (Some t) (Some t) t d (f d) s Hw Hd).
Qed.

Lemma begun_arm t f : tunes f -> (forall d, is_Some (t_tmr (f d))) -> ok (begun t) (upd_ct t f) (fun _ => armed t).
Proof.
  intros Hf Ha. eapply ok_post; [by apply begun_upd|]. intros _ s [Hb [d Hd]]. split; [done|]. by exists (f d).
Qed.

Lemma armed_upd t f : tunes f -> (forall d, t_tmr (f d) = t_tmr d) -> ok (armed t) (upd_ct t f) (fun _ => armed t).
Proof.
  intros Hf Ha s [Hb (d & Hd & Htm)]. destruct (begun_upd t f Hf s Hb) as (u & s' & E & Hb' & _). exists u, s'.
  split; [done|]. split; [done|]. exists (f d). rewrite Ha. split; [|done]. unfold upd_ct, get_ct, mbind, M_bind in E.
  rewrite Hd in E. injection E as _ <-. cbn. by rewrite lookup_insert_eq.
Qed.

Lemma armed_talk t os n s : armed t s -> (forall x, filter (fun o => of_trans x o = true) os = []) -> armed t (talk os n s).
Proof. intros [[Hw Ht] Hd] Ho. split; [|done]. split; [by apply talk_wf|done]. Qed.

Lemma armed_send t mb : packet mb -> ok (armed t) (sock_send net_err t mb) (fun _ => armed t).
Proof.
  intros Hp s Hs. destruct (sock_send_run t mb s Hp) as [d E]. do 2 eexists. split; [exact E|]. apply armed_talk; [done|apply no_done].
Qed.

Lemma armed_net t : ok (armed t) (net net_err) (fun _ => armed t).
Proof.
  intros s Hs. exists (net_err (nets s)), (talk [] 1 s). split; [|by apply armed_talk].
  unfold net, gets, modify, mbind, M_bind, talk, add_net. rewrite app_nil_r, Nat.add_1_r. done.
Qed.

Lemma armed_helper t : ok (armed t) (modify add_helper) (fun _ => armed t).
Proof.
  intros s [[Hw Ht] Hd]. exists tt, (add_helper s). split; [done|]. split; [|done]. split; [|done]. destruct Hw. by split.
Qed.

(** The new transaction joins the list. *)
Lemma join_begun s mb d0 : wf None s -> packet mb -> t_mb d0 = mb -> t_pos d0 = mb_pos mb ->
  begun (fresh s) (set_cts (<[fresh s := d0]> (cts s)) (set_ctl (ctl s ++ [fresh s]) (set_fresh (S (fresh s)) s))).
Proof.
  intros [W1 W2 W3 W4 W5 W6 W7] Hp Em Ep. assert (Hn : ~ fresh s ∈ ctl s) by (intros H; specialize (W3 _ H); lia).
  split; [|apply elem_of_app; right; by left]. split; cbn; try done.
  - apply NoDup_app. split; [done|]. split; [|apply NoDup_singleton]. intros x Hx ->%list_elem_of_singleton. done.
  - intros x. rewrite elem_of_app, list_elem_of_singleton, W2. destruct (decide (x = fresh s)) as [->|Hx].
    + rewrite lookup_insert_eq. split; [by eexists|by right].
    + rewrite lookup_insert_ne by done. split; [by intros [?|?]|by left].
  - intros x [Hx|Hx]%elem_of_app; [specialize (W3 x Hx); lia|]. apply list_elem_of_singleton in Hx. lia.
  - intros x d. destruct (decide (x = fresh s)) as [->|Hx]; [done|]. rewrite lookup_insert_ne by done. intros Hd _. by apply (W4 x d Hd).
  - intros x d. destruct (decide (x = fresh s)) as [->|Hx]; [rewrite lookup_insert_eq; intros [= <-]; by rewrite Em, Ep|].
    rewrite lookup_insert_ne by done. by apply W5.
  - intros x [Hx|Hx]; [|apply W6; right; lia]. apply W6. apply elem_of_app in Hx as [Hx|Hx]; [by left|]. apply list_elem_of_singleton in Hx as ->. by right.
Qed.

Section Request.
Context (alloc_ok : Z -> bool) (junk : Z -> Z) (hmac_sha1 : list Z -> list Z -> list Z).

Lemma transport_ok t c p sock dst mb : packet mb ->
  ok (begun t) (start_transport net_err t c p sock dst mb) (fun err s => begun t s /\ (err = 0 -> armed t s)).
Proof.
  intros Hp. assert (Hend : forall m : SM Z, ok (armed t) m (fun _ => armed t) -> ok (armed t) m (fun err s => begun t s /\ (err = 0 -> armed t s))).
  { intros m Hm. eapply ok_post; [exact Hm|]. intros x s Hs. split; [by destruct Hs|done]. }
  assert (Hbad : forall e : Z, e <> 0 -> ok (begun t) (mret e) (fun err s => begun t s /\ (err = 0 -> armed t s))).
  { intros e He s Hs. exists e, s. by split. }
  destruct p; [destruct dst as [a|]; [|by apply Hbad]| |destruct sock; [|by apply Hbad]|by apply Hbad].
  - eapply ok_bind; [by apply begun_arm|]. intros ?. apply Hend. eapply ok_bind with (Q := fun _ => armed t).
    + destruct sock; [|apply armed_net]. eapply ok_bind; [apply armed_helper|]. intros ?. apply ok_ret.
    + intros err. destruct (negb _); [apply ok_ret|]. eapply ok_bind; [by apply armed_upd|]. intros ?. by apply armed_send.
  - eapply ok_bind; [by apply begun_arm|]. intros ?. apply Hend. destruct sock; [by apply armed_send|apply armed_net].
  - eapply ok_bind; [by apply begun_arm|]. intros ?. apply Hend. eapply ok_bind; [by apply armed_upd|]. intros ?. by apply armed_send.
Qed.

Lemma request_ok ctp p sock dst mb tid met key resph : packet mb ->
  ok (wf None) (stun_ctrans_request alloc_ok net_err ctp p sock dst mb tid met key resph) (fun _ => wf None).
Proof.
  intros Hp. unfold stun_ctrans_request. destruct (negb (alloc_ok 208)); [apply ok_ret|]. intros s Hs.
  pose proof (join_begun s mb (mk_ct None tid false key mb (mb_pos mb) false p 0 0 met) Hs Hp eq_refl eq_refl) as Hb.
  unfold mbind at 1 2 3 4 5, M_bind at 1 2 3 4 5, gets, modify, put_ct, modify.
  set (t := fresh s) in *. change (conf _) with (conf s). revert Hb. match goal with |- begun t ?x -> _ => set (s1 := x) end. intros Hb.
  enough (H : ok (begun t)
     (err ← (if bool_decide (is_Some key) && negb (alloc_ok (zlen (default [] key))) then mret ENOMEM
         else start_transport net_err t (conf s) p sock dst mb);
      if err =? 0 then upd_ct t (set_owner ctp resph) ;; mret (0, Some t) else destructor t ;; mret (err, None)) (fun _ => wf None))
    by exact (H s1 Hb).
  eapply ok_bind with (Q := fun err s => begun t s /\ (err = 0 -> armed t s)).
  { destruct (_ && _); [|by apply transport_ok]. intros s' Hs'. exists ENOMEM, s'. by split. }
  intros err. destruct (Z.eqb_spec err 0) as [->|He].
  - intros s' [_ Ha]. specialize (Ha eq_refl).
    destruct (armed_upd t (set_owner ctp resph) ltac:(done) ltac:(done) s' Ha) as ([] & s2 & E & [Hw Ht] & d & Hd & Htm).
    exists (0, Some t), s2. unfold mbind, M_bind. rewrite E. split; [done|]. destruct Hw as [W1 W2 W3 W4 W5 W6 W7]. split; try done.
    intros x c' Hx _. destruct (decide (x = t)) as [->|]; [congruence|]. apply (W4 x c' Hx). congruence.
  - intros s' [[Hw Ht] _]. destruct (destructor_run t s' Hw Ht) as [E W]. exists (err, None), (ended t [] s'). unfold mbind, M_bind. by rewrite E.
Qed.

(** ** Responses *)

(** A response counts when it carries the code of a challenge, when the
    request had no key, or when its integrity is that of the key. *)
Definition authentic (m : stun_msg) (d : stun_ctrans) (mb : mbuf) : Prop :=
  (error_of m).2 = 401 \/ (error_of m).2 = 438 \/ t_key d = None \/
  exists k mb', t_key d = Some k /\ stun_msg_chk_mi alloc_ok junk hmac_sha1 m k mb = Some (0, m, mb').

(** What reception comes to: nothing, an indication, or the end of the
    transaction the response belongs to. *)
Definition received (mb : mbuf) (s s' : stun) : Prop :=
  s' = s \/ (exists m, s' = talk [o_ind m] 0 s) \/
  exists m t d herr, msg_ok mb m /\ t ∈ ctl s /\ cts s !! t = Some d /\ match_handler m d = true /\ authentic m d mb /\
    (stun_msg_class m = STUN_CLASS_ERROR_RESP \/ stun_msg_class m = STUN_CLASS_SUCCESS_RESP) /\
    s' = ended t (if t_resph d then [o_done t herr (error_of m).2] else []) s.

Lemma ctrans_recv_run m ua mb s : wf None s -> good mb -> msg_ok mb m ->
  exists err s', stun_ctrans_recv alloc_ok junk hmac_sha1 m ua mb s = Some (err, s') /\ received mb s s' /\ wf None s'.
Proof.
  intros Hw Hg Hm. unfold stun_ctrans_recv. destruct (negb _) eqn:Ec; [exists 0, s; split; [done|]; split; [by left|done]|].
  assert (Hcl : stun_msg_class m = STUN_CLASS_ERROR_RESP \/ stun_msg_class m = STUN_CLASS_SUCCESS_RESP).
  { apply negb_false_iff, orb_true_iff in Ec as [Ec|Ec]; [left|right]; lia. }
  destruct (error_of m) as [herr code] eqn:Ee. unfold mbind at 1, M_bind at 1, gets.
  destruct (ct_find_run m (ctl s) s) as (r & E & Hr); [intros t; apply (wf_known _ _ Hw)|]. unfold mbind at 1, M_bind at 1. rewrite E.
  destruct r as [t|]; [|exists ENOENT, s; split; [done|]; split; [by left|done]]. destruct Hr as (Ht & d & Hd & Hmatch).
  unfold mbind at 1, M_bind at 1, get_ct. rewrite Hd. cbn [mbind option_bind].
  assert (Hend : authentic m d mb -> forall h, exists err s', (completed t h code ;; mret 0) s = Some (err, s') /\ received mb s s' /\ wf None s').
  { intros Ha h. destruct (completed_run t h code s (wf_weaken _ _ Hw) Ht) as (d' & Hd' & E' & W).
    exists 0, (ended t (if t_resph d' then [o_done t h code] else []) s). unfold mbind, M_bind. rewrite E'. split; [done|]. split; [|done].
    right; right. exists m, t, d, h. rewrite Ee. assert (d' = d) as -> by congruence. by split_and!. }
  destruct ((code =? 401) || (code =? 438)) eqn:Ecode.
  { apply Hend. unfold authentic. rewrite Ee. cbn. apply orb_true_iff in Ecode as [?|?]; [left|right; left]; lia. }
  destruct (t_key d) as [k|] eqn:Ek; [|apply Hend; right; right; by left].
  destruct (chk_mi_run alloc_ok junk hmac_sha1 k mb m mb Hm (room_of mb m Hm (proj1 Hg))) as (err & mb2 & Echk & _).
  unfold of_option, mbind, M_bind. rewrite Echk. unfold mret, M_ret at 1. cbn [fst].
  destruct (Z.eqb_spec err 0) as [->|Hne]; cbn [negb].
  - apply Hend. right; right; right. by exists k, mb2.
  - exists err, s. split; [done|]. split; [by left|done].
Qed.

Lemma recv_run mb s : wf None s -> good mb ->
  exists err s', stun_recv alloc_ok junk hmac_sha1 mb s = Some (err, s') /\ received mb s s' /\ wf None s'.
Proof.
  intros Hw Hg. unfold stun_recv. destruct (msg_decode_run alloc_ok (Some []) mb Hg ltac:(cbn; lia)) as (err & m & ua & E & _ & Hm).
  unfold of_option at 1, mbind at 1, M_bind at 1. rewrite E. destruct m as [m|]; [|exists err, s; split; [done|]; split; [by left|done]].
  destruct Hm as [_ Hm]. destruct (stun_msg_class m =? STUN_CLASS_INDICATION).
  - unfold gets, mbind, M_bind. destruct (_ && indh s); cbn [when].
    + exists 0, (talk [o_ind m] 0 s). split; [unfold talk, modify, add_out; cbn; by rewrite Nat.add_0_r|]. split; [right; left; by exists m|by apply talk_wf].
    + exists 0, s. split; [done|]. split; [by left|done].
  - destruct (_ || _); [by apply ctrans_recv_run|]. exists 0, s. split; [done|]. split; [by left|done].
Qed.

(** ** Closing *)

Lemma close_run l s : wf None s -> NoDup l -> (forall t, t ∈ l -> t ∈ ctl s) ->
  exists s', for_each (fun t => completed t ECONNABORTED 0) l s = Some (tt, s') /\ wf None s' /\
    forall t, t ∈ ctl s' <-> t ∈ ctl s /\ ~ t ∈ l.
Proof.
  revert s. induction l as [|t l IH]; intros s Hw Hnd Hl.
  - exists s. split; [done|]. split; [done|]. intros t. split; [intros H; split; [done|apply not_elem_of_nil]|by intros []].
  - destruct (completed_run t ECONNABORTED 0 s (wf_weaken _ _ Hw) ltac:(apply Hl; by left)) as (d & _ & E & W).
    apply NoDup_cons in Hnd as [Hn Hnd]. set (s1 := ended _ _ _) in *.
    assert (Hin : forall x, x ∈ ctl s1 <-> x <> t /\ x ∈ ctl s) by (intros x; cbn; by rewrite list_elem_of_filter).
    destruct (IH s1 W Hnd) as (s' & E' & W' & H').
    { intros x Hx. apply Hin. split; [by intros ->|apply Hl; by right]. }
    exists s'. cbn. unfold mbind, M_bind. rewrite E. split; [done|]. split; [done|]. intros x. rewrite H', Hin, not_elem_of_cons. tauto.
Qed.

(** ** Events *)

Inductive event :=
| e_request (rnd : list Z) (ctp : bool) (p : transport) (sock : bool) (dst : option sa) (presz method : Z)
    (key : option (list Z)) (fp resph : bool) (attrs : list (Z * option attr_v))
| e_timeout (t : nat)
| e_packet (mb : mbuf)
| e_connected (t : nat)
| e_disconnected (t : nat) (err : Z)
| e_cancel (t : nat)
| e_close.

(** When an event can occur: a request is one that can be encoded, a timer
    runs, a packet is a buffer of bytes, the application cancels a
    transaction it has a pointer to. *)
Definition can (e : event) (s : stun) : Prop :=
  match e with
  | e_request rnd _ _ _ _ presz method key fp _ attrs =>
    length rnd = 12%nat /\ 0 <= presz <= 65536 /\ 0 <= method < 4096 /\ Forall own_attr (present attrs) /\
    zlen (concat (map (attr_bytes 0 (map u8 rnd)) (present attrs))) + 32 < 65536
  | e_timeout t => exists d, cts s !! t = Some d /\ is_Some (t_tmr d)
  | e_packet mb => good mb
  | e_connected t | e_disconnected t _ => exists d, cts s !! t = Some d /\ t_proto d = TCP
  | e_cancel t => exists d, cts s !! t = Some d /\ t_ctp d = true
  | e_close => True
  end.

Definition handle (e : event) : SM unit :=
  match e with
  | e_request rnd ctp p sock dst presz method key fp resph attrs =>
    _ ← stun_request alloc_ok junk hmac_sha1 net_err rnd ctp p sock dst presz method key fp resph attrs; mret tt
  | e_timeout t => timeout_handler net_err t
  | e_packet mb => _ ← stun_recv alloc_ok junk hmac_sha1 mb; mret tt
  | e_connected t => tcp_estab_handler net_err t
  | e_disconnected t err => tcp_close_handler t err
  | e_cancel t => destructor t
  | e_close => stun_ctrans_close
  end.

Inductive reach : stun -> Prop :=
| r_alloc c h s : stun_alloc alloc_ok c h = (0, Some s) -> reach s
| r_event s e s' : reach s -> can e s -> handle e s = Some (tt, s') -> reach s'.

(** ** Every event is defined *)

Context (Hmem : forall n, alloc_ok n = true) (Hmac : forall k d, zlen (hmac_sha1 k d) = 20 /\ is_bytes (hmac_sha1 k d)).

Lemma fresh_buffer size : 0 < size <= 65536 -> exists mb, mbuf_alloc alloc_ok junk size = Some mb /\ mb_wf mb /\ mb_pos mb = 0 /\ mb_end mb = 0.
Proof using Hmem.
  intros Hs. unfold mbuf_alloc, mbuf_resize. rewrite Hmem. replace (size =? 0) with false by lia. cbn [negb Z.eqb]. eexists. split; [done|].
  split; [|done]. unfold mb_wf, bytes, grow, zlen, SIZE_MAX. cbn [mb_buf mb_size mb_pos mb_end default id mbuf_init length].
  rewrite length_app, length_map, length_seqZ. cbn. split_and!; rewrite ?take_nil; cbn; lia.
Qed.

Lemma tid_bytes rnd : length rnd = 12%nat -> tid_ok (Some (map u8 rnd)).
Proof.
  intros Hl. split; [unfold zlen; by rewrite length_map, Hl|]. unfold is_bytes. apply Forall_map, Forall_forall. intros x _. apply u8_range.
Qed.

(** The message of a request or reply, written behind [presz] bytes. *)
Lemma message_run size presz method class tid ec key fp attrs : 0 < size <= 65536 -> 0 <= presz <= 65536 -> tid_ok (Some tid) ->
  Forall own_attr (ec_attr ec ++ present attrs) -> zlen (concat (map (attr_bytes 0 tid) (ec_attr ec ++ present attrs))) + 32 < 65536 ->
  exists mb mb', mbuf_alloc alloc_ok junk size = Some mb /\ mb_wf (set_pos presz mb) /\ mb_end (set_pos presz mb) <= mb_pos (set_pos presz mb) /\
    stun_msg_vencode alloc_ok junk hmac_sha1 method class tid ec key fp 0 attrs (set_pos presz mb) = Some (0, mb') /\
    packet (set_pos presz mb') /\
    let t := u16 (STUN_TYPE method class) in
    holds presz (front t tid 0 (with_fp t tid 0 fp (with_mi hmac_sha1 t tid 0 key (ec_attr ec ++ present attrs))) 0) mb'.
Proof using Hmem Hmac.
  intros Hs Hp Ht Ha Hsz. destruct (fresh_buffer size Hs) as (mb & E & Hwf & Hpos & Hend).
  assert (Hwf' : mb_wf (set_pos presz mb)) by (apply wf_set_pos; [done|unfold SIZE_MAX; lia]).
  assert (Hend' : mb_end (set_pos presz mb) <= mb_pos (set_pos presz mb)) by (cbn; lia).
  destruct (vencode_run alloc_ok junk Hmem hmac_sha1 Hmac method class tid ec key fp 0 attrs (set_pos presz mb))
    as (mb' & E' & Hh); [done|done|done|by apply forall_sendable|done|cbn; unfold SIZE_MAX; lia|].
  exists mb, mb'. split_and!; [done..| |done]. pose proof (holds_bounds _ _ _ Hh). destruct Hh as (W & He & _). cbn in He.
  split; [apply wf_set_pos; [done|unfold SIZE_MAX; lia]|]. cbn. match type of He with _ = _ + zlen ?x => pose proof (zlen_nonneg x) end. lia.
Qed.

Lemma handle_ok e s : wf None s -> can e s -> exists s', handle e s = Some (tt, s') /\ wf None s'.
Proof using Hmem Hmac.
  intros Hw Hc. destruct e; cbn [handle can] in *.
  - destruct Hc as (Hr & Hp & Hm & Ha & Hsz). pose proof (tid_bytes rnd Hr) as Ht.
    destruct (message_run 512 presz method STUN_CLASS_REQUEST (map u8 rnd) None key fp attrs) as (mb & mb' & E & _ & _ & E' & Hpk & _);
      [lia|done|done|done|done|].
    unfold stun_request. rewrite E. unfold mbind at 1 2, M_bind at 1 2, of_option. rewrite E'. cbn [negb Z.eqb].
    destruct (request_ok ctp p sock dst (set_pos presz mb') (map u8 rnd) method key resph Hpk s Hw) as (r & s' & E2 & W).
    rewrite E2. by exists s'.
  - destruct Hc as (d & Hd & _). by apply (timeout_run t s d).
  - destruct (recv_run mb s Hw Hc) as (err & s' & E & _ & W). exists s'. unfold mbind, M_bind. by rewrite E.
  - destruct Hc as (d & Hd & Hp). assert (Ht : t ∈ ctl s) by (apply (wf_known _ _ Hw); by eexists). destruct (wf_packet _ _ Hw t d Hd) as [Hpk _].
    unfold tcp_estab_handler, get_ct. unfold mbind at 1, M_bind at 1. rewrite Hd. cbn [mbind option_bind].
    destruct (sock_send_run t (t_mb d) s Hpk) as [bs E]. unfold mbind, M_bind. rewrite E.
    pose proof (talk_wf None _ 1 s Hw (no_done t bs (net_err (nets s) =? 0))) as W. destruct (net_err (nets s) =? 0); [by eexists|].
    destruct (completed_run t (net_err (nets s)) 0 _ (wf_weaken _ _ W) Ht) as (c & _ & -> & W'). by eexists.
  - destruct Hc as (d & Hd & Hp). assert (Ht : t ∈ ctl s) by (apply (wf_known _ _ Hw); by eexists).
    destruct (completed_run t err 0 s (wf_weaken _ _ Hw) Ht) as (c & _ & E & W'). unfold tcp_close_handler. rewrite E. by eexists.
  - destruct Hc as (d & Hd & Hp). assert (Ht : t ∈ ctl s) by (apply (wf_known _ _ Hw); by eexists).
    destruct (destructor_run t s (wf_weaken _ _ Hw) Ht) as [E W]. by eexists.
  - destruct (close_run (ctl s) s Hw (wf_nodup _ _ Hw)) as (s' & E & W & _); [done|]. by eexists.
Qed.

Lemma trans_wf s : reach s -> wf None s.
Proof using Hmem Hmac.
  induction 1 as [c h s E|s e s' _ IH Hc E].
  - unfold stun_alloc in E. rewrite Hmem in E. injection E as <-. split; cbn; [apply NoDup_nil_2| |by intros t ?%not_elem_of_nil|..].
    + intros t. rewrite lookup_empty. split; [by intros ?%not_elem_of_nil|by intros [? ?]].
    + by intros t d ?%lookup_empty_Some.
    + by intros t d ?%lookup_empty_Some.
    + done.
    + intros t. cbn. lia.
  - destruct (handle_ok e s IH Hc) as (s2 & E2 & W). congruence.
Qed.

End Request.

(** ** A request that is not answered *)

(** The timer of [t] fires until the transaction is over: the time that
    passes and the state then. *)
Fixpoint unanswered (fuel : nat) (t : nat) (s : stun) : option (Z * stun) :=
  match cts s !! t with
  | None => Some (0, s)
  | Some d =>
    match fuel with
    | O => None
    | S fuel =>
      delay ← t_tmr d;
      '(_, s) ← timeout_handler net_err t s;
      '(w, s) ← unanswered fuel t s;
      Some (delay + w, s)
    end
  end.

Lemma unanswered_gone fuel t s : cts s !! t = None -> unanswered fuel t s = Some (0, s).
Proof. intros H. destruct fuel; cbn; by rewrite H. Qed.

Lemma unanswered_run t n c s d : (forall k, net_err k = 0) -> conf s = c -> 0 <= rto c -> 0 <= rm c -> 0 <= rc c < 2 ^ 32 - 1 ->
  rto c * 2 ^ rc c < 2 ^ 32 -> rto c * rm c < 2 ^ 32 ->
  cts s !! t = Some d -> packet (t_mb d) -> t_pos d = mb_pos (t_mb d) -> t_proto d = UDP ->
  1 <= rc c - Z.of_nat n -> t_txc d = rc c - Z.of_nat n ->
  t_ival d = (if (n =? 0)%nat then rto c * rm c else rto c * 2 ^ (rc c - Z.of_nat n - 1)) -> t_tmr d = Some (t_ival d) ->
  exists s', unanswered (S (S n)) t s =
      Some ((if (n =? 0)%nat then 0 else rto c * (2 ^ (rc c - 1) - 2 ^ (rc c - Z.of_nat n - 1))) + rto c * rm c, s') /\
    cts s' !! t = None /\
    outs s' = outs s ++ repeat (o_send t (payload (t_mb d))) n ++ (if t_resph d then [o_done t ETIMEDOUT 0] else []).
Proof.
  intros Hnet. revert s d. induction n as [|n IH]; intros s d Hc Hr0 Hrm Hrc Hpow Hmul Hd Hp Hpos Hproto Hk Htx Hiv Htm.
  - remember 1%nat as one eqn:E1. cbn [unanswered]. rewrite Hd, Htm. cbn [mbind option_bind]. rewrite (timeout_exact t s d Hd Hp Hpos).
    rewrite Hc. replace (rc c <=? t_txc d) with true by lia.
    rewrite (completed_exact t ETIMEDOUT 0 _ (fired d)) by (cbn; by rewrite lookup_insert_eq).
    set (s' := ended _ _ _). assert (Hg : cts s' !! t = None) by (cbn; by rewrite lookup_delete_eq).
    exists s'. cbn [mbind option_bind]. rewrite (unanswered_gone _ t s' Hg), Hiv. split; [cbn -[Z.add Z.mul Z.pow]; do 2 f_equal; lia|]. by split.
  - assert (H2n : 2 ^ (rc c - Z.of_nat (S n) - 1 + 1) = 2 * 2 ^ (rc c - Z.of_nat (S n) - 1)) by (rewrite Z.pow_add_r by lia; lia).
    set (k := rc c - Z.of_nat (S n)) in *. cbn [Nat.eqb] in Hiv |- *.
    assert (Hle : rto c * 2 ^ (k - 1 + 1) <= rto c * 2 ^ rc c) by (apply Z.mul_le_mono_nonneg_l; [done|apply Z.pow_le_mono_r; lia]).
    assert (Hpk : 0 <= 2 ^ (k - 1)) by (apply Z.pow_nonneg; lia).
    remember (S (S n)) as f eqn:Ef. cbn [unanswered]. rewrite Hd, Htm. cbn [mbind option_bind]. rewrite (timeout_exact t s d Hd Hp Hpos).
    rewrite Hc. replace (rc c <=? t_txc d) with false by lia. rewrite Hproto. cbn [stun_send].
    unfold mbind, M_bind. rewrite (send_exact t (t_mb d) _ Hp), Hnet. cbn [Z.eqb negb]. unfold modify.
    set (d' := rearmed c (fired d)). set (s1 := with_ct t d' _).
    assert (Etx : t_txc (fired d) = k + 1) by (cbn; rewrite u32_small; lia).
    assert (Eiv : t_ival d' = if (n =? 0)%nat then rto c * rm c else rto c * 2 ^ (rc c - Z.of_nat n - 1)).
    { unfold d', rearmed. rewrite Etx. cbn [t_ival set_tmr set_ival fired set_txc]. destruct n as [|n].
      - replace (rc c <=? k + 1) with true by lia. cbn. apply u32_small. nia.
      - replace (rc c <=? k + 1) with false by lia. cbn [Nat.eqb]. rewrite Hiv.
        replace (rc c - Z.of_nat (S n) - 1) with (k - 1 + 1) by lia. rewrite H2n, u32_small; nia. }
    destruct (IH s1 d') as (s' & E & Hg & Ho); try done; [cbn; by rewrite lookup_insert_eq|lia|cbn; cbn in Etx; lia|].
    subst f. cbn [option_bind]. rewrite E. exists s'. split; [|split; [done|]].
    + cbn [option_bind]. do 2 f_equal. rewrite Hiv. destruct (Nat.eqb_spec n 0) as [->|Hn].
      * replace (rc c - 1) with (k - 1 + 1) by lia. rewrite H2n. lia.
      * replace (rc c - Z.of_nat n - 1) with (k - 1 + 1) by lia. rewrite H2n. lia.
    + rewrite Ho. cbn [repeat outs s1 with_ct set_cts talk]. rewrite <- app_assoc. done.
Qed.

End Net.

(** ** Samples *)
(** A request that is pending, and the datagram that answers it. *)
Definition sample_start : stun := mk_stun conf_default true [] ∅ [] 0 0 0.
Definition sample_ask : event :=
  e_request sample_tid true UDP true (Some (sa_in 0x7f000001 3478)) 0 1 (Some [1; 2; 3]) true true sample_attrs.
Definition sample_asked : stun :=
  match handle (fun _ => 0) (fun _ => true) (fun _ => 0) sample_hmac sample_ask sample_start with Some (_, s) => s | None => sample_start end.
Definition sample_req : stun_msg := mk_smsg (mk_shdr 1 0 STUN_MAGIC_COOKIE sample_tid) [] 0.
Definition sample_reply : mbuf :=
  let d := match stun_reply (fun _ => true) (fun _ => 0) sample_hmac 0 sample_req (Some [1; 2; 3]) true sample_attrs 0 with
           | Some (_, Some d) => d | _ => [] end in mk_mbuf (Some d) (zlen d) 0 (zlen d).

Lemma asked_reach : reach (fun _ => 0) (fun _ => true) (fun _ => 0) sample_hmac sample_asked.
Proof.
  eapply (r_event _ _ _ _ sample_start sample_ask).
  - by apply (r_alloc _ _ _ _ None true).
  - split; [done|]. split; [lia|]. split; [lia|]. split; [|vm_compute; reflexivity].
    exact (proj2 (proj1 (Forall_app _ (ec_attr sample_ec) (present sample_attrs)) sample_own)).
  - vm_compute. reflexivity.
Qed.

Lemma good_reply : good sample_reply.
Proof. split; [apply (bool_decide_unpack _); vm_compute; exact I|]. apply (bool_decide_unpack _). vm_compute. exact I. Qed.

Lemma packet_reply : packet sample_reply.
Proof. split; [exact (proj1 good_reply)|]. apply (bool_decide_unpack _). vm_compute. exact I. Qed.

(** ** Theorems *)



(** C29: a packet ends a pending transaction only as the response to it: it is
    a response of the same method and transaction number, and unless it is a
    challenge (401, 438) or the request had no key, its integrity attribute is
    the digest under the key of the request; at most that one transaction
    ends, and the others are as they were. *)
Theorem only_responses_complete alloc_ok junk hmac_sha1 net_err s mb err s'
  (Hmem : forall n, alloc_ok n = true) (Hmac : forall k d, zlen (hmac_sha1 k d) = 20 /\ is_bytes (hmac_sha1 k d))
  (Hr : reach net_err alloc_ok junk hmac_sha1 s) (Hg : good mb)
  (Hrecv : stun_recv alloc_ok junk hmac_sha1 mb s = Some (err, s')) :
  s' = s \/ (exists m, s' = talk [o_ind m] 0 s) \/
  exists m t d herr, msg_ok mb m /\ cts s !! t = Some d /\ t_met d = stun_msg_method m /\ t_tid d = stun_msg_tid m /\
    (stun_msg_class m = STUN_CLASS_ERROR_RESP \/ stun_msg_class m = STUN_CLASS_SUCCESS_RESP) /\
    authentic alloc_ok junk hmac_sha1 m d mb /\
    s' = ended t (if t_resph d then [o_done t herr (error_of m).2] else []) s.
Proof.
  pose proof (trans_wf net_err alloc_ok junk hmac_sha1 Hmem Hmac s Hr) as Hw.
  destruct (recv_run alloc_ok junk hmac_sha1 mb s Hw Hg) as (e & s2 & E & H & _). assert (s2 = s') as -> by congruence.
  destruct H as [->|[H|(m & t & d & herr & H1 & _ & H2 & H3 & H4 & H5 & H6)]]; [by left|right; by left|].
  right. right. exists m, t, d, herr. apply andb_true_iff in H3 as [H3 H7]. apply bool_decide_eq_true in H7. split_and!; try done. lia.
Qed.

Lemma only_responses_complete_witness :
  exists s', stun_recv (fun _ => true) (fun _ => 0) sample_hmac sample_reply sample_asked = Some (0, s') /\
    ctl s' = [] /\ outs s' = outs sample_asked ++ [o_done 0 0 0] /\
    (s' = sample_asked \/ (exists m, s' = talk [o_ind m] 0 sample_asked) \/
     exists m t d, cts sample_asked !! t = Some d /\ t_tid d = stun_msg_tid m /\ authentic (fun _ => true) (fun _ => 0) sample_hmac m d sample_reply).
Proof.
  eexists. split; [vm_compute; reflexivity|]. split; [reflexivity|]. split; [vm_compute; reflexivity|].
  eassert (E : stun_recv (fun _ => true) (fun _ => 0) sample_hmac sample_reply sample_asked = Some (0, _)) by (vm_compute; reflexivity).
  destruct (only_responses_complete (fun _ => true) (fun _ => 0) sample_hmac (fun _ => 0) sample_asked sample_reply 0 _ (fun _ => eq_refl)
    sample_hmac_ok asked_reach good_reply E) as [H|[H|(m & t & d & herr & _ & H1 & _ & H2 & _ & H3 & _)]];
    [left; exact H|right; left; exact H|]. right. right. exists m, t, d. by split_and!.
Defined.

Lemma request_exact alloc_ok net_err s mb dst tid met key : (forall n, alloc_ok n = true) -> (forall k, net_err k = 0) -> packet mb ->
  stun_ctrans_request alloc_ok net_err true UDP true (Some dst) mb tid met key true s =
  Some ((0, Some (fresh s)), mk_stun (conf s) (indh s) (ctl s ++ [fresh s])
    (<[fresh s := mk_ct (Some (rto (conf s))) tid true key mb (mb_pos mb) true UDP 1 (rto (conf s)) met]> (cts s))
    (outs s ++ [o_send (fresh s) (payload mb)]) (S (nets s)) (S (helpers s)) (S (fresh s))).
Proof.
  intros Hmem Hnet Hp. unfold stun_ctrans_request, start_transport. rewrite !Hmem, andb_false_r. cbn [negb].
  unfold upd_ct, put_ct, get_ct, gets, modify, mbind, M_bind. cbn. rewrite lookup_insert_eq. cbn.
  rewrite lookup_insert_eq. cbn. rewrite (send_exact net_err _ mb _ Hp), Hnet. cbn. rewrite lookup_insert_eq. cbn.
  rewrite !insert_insert_eq. unfold set_cts, talk. cbn. rewrite ?Nat.add_1_r. done.
Qed.


