(* ===== verification/StunExchange.v ===== *)
(** * A STUN request and its reply

    The request of one agent, the reply of another and the reception of the
    reply, composed over the bytes on the wire. *)

From stdpp Require Import gmap.
From S2P Require Import Prelude Effects Mbuf MbufProps Rtp Codec StunMsg StunProps StunRoundtrip StunCheck StunTrans StunTransProps.
Import Mb Rtp Stun Tr.

(** A datagram as it is received. *)
Definition wire (d : list Z) : mbuf := mk_mbuf (Some d) (zlen d) 0 (zlen d).

Lemma wire_holds d : zlen d <= SIZE_MAX -> holds 0 d (wire d).
Proof.
  intros H. pose proof (zlen_nonneg d). split; [split_and!; cbn; unfold SIZE_MAX in *; lia|]. split; [done|]. cbn.
  rewrite slice_some by lia. cbn. unfold zlen. rewrite Nat2Z.id. by rewrite firstn_all.
Qed.

Lemma holds_payload s d mb : holds s d mb -> slice (bytes mb) s (mbuf_get_left (set_pos s mb)) = Some d /\ payload (set_pos s mb) = d.
Proof.
  intros H. pose proof (holds_left s d mb H) as Hl. destruct H as (_ & _ & Hs). unfold payload. cbn [mb_pos set_pos].
  rewrite Hl. change (bytes (set_pos s mb)) with (bytes mb). by rewrite Hs.
Qed.

Lemma filter_snoc_out t (l : list nat) : ~ t ∈ l -> filter (fun x => x <> t) (l ++ [t]) = l.
Proof.
  intros H. rewrite filter_app, (filter_cons _ t []), decide_False by (by intros []). rewrite app_nil_r.
  induction l as [|x l IH]; [done|]. apply not_elem_of_cons in H as [Hx H]. by rewrite filter_cons, decide_True, IH by done.
Qed.

(** The search passes the transactions of other numbers. *)
Lemma find_new m l t s d : (forall x, x ∈ l -> exists e, cts s !! x = Some e /\ match_handler m e = false) ->
  cts s !! t = Some d -> match_handler m d = true -> ct_find (l ++ [t]) m s = Some (Some t, s).
Proof.
  intros Hl Hd Hm. induction l as [|x l IH]; cbn; unfold get_ct, mbind, M_bind.
  - rewrite Hd. cbn. by rewrite Hm.
  - destruct (Hl x ltac:(by left)) as (e & -> & He). cbn. rewrite He. apply IH. intros y Hy. apply Hl. by right.
Qed.

Section Exchange.
Context (alloc_ok : Z -> bool) (junk : Z -> Z) (hmac_sha1 : list Z -> list Z -> list Z) (net_err : nat -> Z).
Context (Hmem : forall n, alloc_ok n = true) (Hmac : forall k d, zlen (hmac_sha1 k d) = 20 /\ is_bytes (hmac_sha1 k d)).

(** A message that can be written and read back. *)
Definition sound_message (method : Z) (tid : list Z) (presz : Z) (attrs : list (Z * option attr_v)) : Prop :=
  0 <= method < 4096 /\ Z.land method 0x50 = 0 /\ tid_ok (Some tid) /\ 0 <= presz <= 65536 /\ Forall own_attr (present attrs) /\
  zlen (concat (map (attr_bytes 0 tid) (present attrs))) + 32 < 65536.

(** What leaves, and what the receiver reads in it. *)
Lemma message_sent size presz method class tid key fp attrs ua : 0 < size <= 65536 -> 0 <= class < 4 -> sound_message method tid presz attrs ->
  exists mb mb' d, mbuf_alloc alloc_ok junk size = Some mb /\
    stun_msg_vencode alloc_ok junk hmac_sha1 method class tid None key fp 0 attrs (set_pos presz mb) = Some (0, mb') /\
    packet (set_pos presz mb') /\ slice (bytes mb') presz (mbuf_get_left (set_pos presz mb')) = Some d /\ payload (set_pos presz mb') = d /\
    exists m, stun_msg_decode alloc_ok ua (wire d) = Some (0, Some m, (fun _ => []) <$> ua, wire d) /\
      stun_msg_method m = method /\ stun_msg_class m = class /\ stun_msg_tid m = tid /\
      (exists tail, m_attrl m = map attr_of (present attrs) ++ tail /\ map a_type tail = trailer key fp) /\
      (forall k, key = Some k -> exists mb2, stun_msg_chk_mi alloc_ok junk hmac_sha1 m k (wire d) = Some (0, m, mb2)).
Proof using Hmem Hmac.
  intros Hs Hc (Hm & Hm5 & Ht & Hp & Ha & Hsz).
  destruct (message_run alloc_ok junk hmac_sha1 Hmem Hmac size presz method class tid None key fp attrs Hs Hp Ht Ha Hsz)
    as (mb & mb' & E & _ & _ & E' & Hpk & Hh). cbv zeta in Hh.
  destruct (stun_type_bits method class Hm Hc) as (_ & _ & _ & B4 & _). rewrite (u16_small (STUN_TYPE method class)) in Hh by lia.
  set (d := front _ _ _ _ _) in Hh. destruct (holds_payload presz d mb' Hh) as [Hsl Hpay]. pose proof (holds_bounds _ _ _ Hh).
  exists mb, mb', d. split_and!; [done..|].
  destruct (message_read alloc_ok junk hmac_sha1 method class tid None key fp 0 attrs ua 0 (wire d) Hmem Hmac)
    as (m & E2 & H1 & H2 & H3 & _ & H4 & H5 & _); [done..|apply wire_holds; lia|]. by exists m.
Qed.

(** The reply is taken as the response of the transaction it belongs to. *)
Lemma reply_taken s t d m mb : cts s !! t = Some d -> ctl s = filter (fun x => x <> t) (ctl s) ++ [t] ->
  (forall x, x ∈ filter (fun x => x <> t) (ctl s) -> exists e, cts s !! x = Some e /\ match_handler m e = false) ->
  match_handler m d = true -> stun_msg_class m = STUN_CLASS_SUCCESS_RESP ->
  (forall k, t_key d = Some k -> exists mb2, stun_msg_chk_mi alloc_ok junk hmac_sha1 m k mb = Some (0, m, mb2)) ->
  stun_ctrans_recv alloc_ok junk hmac_sha1 m [] mb s = Some (0, ended t (if t_resph d then [o_done t 0 0] else []) s).
Proof.
  intros Hd Hl Ho Hm Hc Hk. unfold stun_ctrans_recv, error_of. rewrite Hc. cbn [Z.eqb orb negb].
  change (STUN_CLASS_SUCCESS_RESP =? STUN_CLASS_ERROR_RESP) with false. unfold gets, mbind, M_bind. cbn [negb orb Z.eqb].
  change (STUN_CLASS_SUCCESS_RESP =? STUN_CLASS_SUCCESS_RESP) with true. cbn [negb orb]. rewrite Hl at 1. rewrite (find_new m _ t s d Ho Hd Hm). unfold get_ct. rewrite Hd. cbn.
  destruct (t_key d) as [k|]; [destruct (Hk k eq_refl) as (mb2 & E); cbn; rewrite E; cbn|cbn]; by rewrite (completed_exact t 0 0 s d Hd).
Qed.

End Exchange.

(** C27: a request is answered.  From every reachable state in which no pending
    transaction has its number, [stun_request] sends one datagram; a peer
    decodes it to a request of the same method, number and attributes, whose
    integrity it can verify; what the peer sends with [stun_reply] under the
    same key, with any attributes, ends the transaction of the requester with
    success, calls its handler once and leaves the other transactions alone. *)
Theorem request_answered alloc_ok junk hmac_sha1 net_err s rnd dst presz method key fp attrs presz' fp' attrs'
  (Hmem : forall n, alloc_ok n = true) (Hmac : forall k d, zlen (hmac_sha1 k d) = 20 /\ is_bytes (hmac_sha1 k d))
  (Hnet : forall k, net_err k = 0) (Hr : reach net_err alloc_ok junk hmac_sha1 s)
  (Hrnd : length rnd = 12%nat) (Hreq : sound_message method (map u8 rnd) presz attrs)
  (Hrep : sound_message method (map u8 rnd) presz' attrs')
  (Hnew : forall t d, cts s !! t = Some d -> t_tid d <> map u8 rnd) :
  exists s1 d req reply s2,
    stun_request alloc_ok junk hmac_sha1 net_err rnd true UDP true (Some dst) presz method key fp true attrs s = Some ((0, Some (fresh s)), s1) /\
    outs s1 = outs s ++ [o_send (fresh s) d] /\
    stun_msg_decode alloc_ok (Some []) (wire d) = Some (0, Some req, Some [], wire d) /\
    stun_msg_class req = STUN_CLASS_REQUEST /\ stun_msg_method req = method /\ stun_msg_tid req = map u8 rnd /\
    (exists tail, m_attrl req = map attr_of (present attrs) ++ tail /\ map a_type tail = trailer key fp) /\
    (forall k, key = Some k -> exists mb, stun_msg_chk_mi alloc_ok junk hmac_sha1 req k (wire d) = Some (0, req, mb)) /\
    stun_reply alloc_ok junk hmac_sha1 presz' req key fp' attrs' 0 = Some (0, Some reply) /\
    stun_recv alloc_ok junk hmac_sha1 (wire reply) s1 = Some (0, s2) /\
    outs s2 = outs s1 ++ [o_done (fresh s) 0 0] /\ cts s2 = cts s /\ ctl s2 = ctl s.
Proof.
  pose proof (trans_wf net_err alloc_ok junk hmac_sha1 Hmem Hmac s Hr) as Hw. set (tid := map u8 rnd) in *. set (t := fresh s) in *.
  destruct (message_sent alloc_ok junk hmac_sha1 Hmem Hmac 512 presz method STUN_CLASS_REQUEST tid key fp attrs (Some []))
    as (mb & mb' & d & E1 & E2 & Hpk & _ & Hpay & req & E3 & R1 & R2 & R3 & R4 & R5); [lia|done|done|].
  destruct (message_sent alloc_ok junk hmac_sha1 Hmem Hmac 256 presz' method STUN_CLASS_SUCCESS_RESP tid key fp' attrs' (Some []))
    as (rb & rb' & reply & F1 & F2 & _ & Hsl & _ & m & F3 & M1 & M2 & M3 & _ & M5); [lia|done|done|].
  pose proof (request_exact alloc_ok net_err s (set_pos presz mb') dst tid method key Hmem Hnet Hpk) as Ereq. fold t in Ereq. rewrite Hpay in Ereq.
  revert Ereq. set (ct := mk_ct _ _ _ _ _ _ _ _ _ _ _). set (s1 := mk_stun _ _ _ _ _ _ _ _). intros Ereq.
  assert (Hout : ~ t ∈ ctl s) by (intros H; pose proof (wf_fresh _ _ Hw t H); unfold t in *; lia).
  assert (Hnone : cts s !! t = None) by (destruct (cts s !! t) eqn:E; [destruct Hout; apply (wf_known _ _ Hw); by eexists|done]).
  assert (Hfil : filter (fun x => x <> t) (ctl s1) = ctl s) by (apply filter_snoc_out, Hout).
  assert (Hct : cts s1 !! t = Some ct) by (cbn; by rewrite lookup_insert_eq).
  exists s1, d, req, reply, (ended t [o_done t 0 0] s1). split_and!; try done.
  - unfold stun_request. rewrite E1. fold tid. unfold mbind, M_bind, of_option. by rewrite E2.
  - unfold stun_reply, reply_with. rewrite R1, R3, F1. cbn [mbind option_bind]. rewrite F2. cbn. by rewrite Hsl.
  - unfold stun_recv, of_option. unfold mbind, M_bind. rewrite F3. cbv iota beta. rewrite M2. cbn [Z.eqb default id fmap option_fmap option_map].
    change (STUN_CLASS_SUCCESS_RESP =? STUN_CLASS_INDICATION) with false. change (STUN_CLASS_SUCCESS_RESP =? STUN_CLASS_ERROR_RESP) with false.
    change (STUN_CLASS_SUCCESS_RESP =? STUN_CLASS_SUCCESS_RESP) with true. cbn [orb].
    apply (reply_taken alloc_ok junk hmac_sha1 s1 t ct m (wire reply)); [done|by rewrite Hfil| | |done|done].
    + rewrite Hfil. intros x Hx. destruct (proj1 (wf_known _ _ Hw x) Hx) as [e He]. exists e. split.
      * cbn. rewrite lookup_insert_ne; [done|]. intros ->. done.
      * unfold match_handler. rewrite M3, bool_decide_false by (by apply (Hnew x)). apply andb_false_r.
    + unfold match_handler. rewrite M1, M3, bool_decide_true by done. cbn. lia.
  - cbn. rewrite delete_insert_id; done.
Qed.

Lemma sample_sound : sound_message 1 (map u8 sample_tid) 0 sample_attrs.
Proof.
  split; [lia|]. split; [done|]. split; [by apply tid_bytes|]. split; [lia|]. split; [|vm_compute; reflexivity].
  exact (proj2 (proj1 (Forall_app _ (ec_attr sample_ec) (present sample_attrs)) sample_own)).
Qed.

Lemma request_answered_witness :
  exists s1 d req reply s2,
    stun_request (fun _ => true) (fun _ => 0) sample_hmac (fun _ => 0) sample_tid true UDP true (Some (sa_in 0x7f000001 3478)) 0 1
      (Some [1; 2; 3]) true true sample_attrs sample_start = Some ((0, Some 0%nat), s1) /\
    outs s1 = [o_send 0 d] /\
    stun_reply (fun _ => true) (fun _ => 0) sample_hmac 0 req (Some [1; 2; 3]) true sample_attrs 0 = Some (0, Some reply) /\
    stun_recv (fun _ => true) (fun _ => 0) sample_hmac (wire reply) s1 = Some (0, s2) /\ outs s2 = [o_send 0 d; o_done 0 0 0].
Proof.
  destruct (request_answered (fun _ => true) (fun _ => 0) sample_hmac (fun _ => 0) sample_start sample_tid (sa_in 0x7f000001 3478) 0 1
    (Some [1; 2; 3]) true sample_attrs 0 true sample_attrs (fun _ => eq_refl) sample_hmac_ok (fun _ => eq_refl)
    (r_alloc (fun _ => 0) (fun _ => true) (fun _ => 0) sample_hmac None true sample_start eq_refl) eq_refl sample_sound sample_sound)
    as (s1 & d & req & reply & s2 & E1 & E2 & _ & _ & _ & _ & _ & _ & E3 & E4 & E5 & _); [intros t e; cbn; by rewrite lookup_empty|].
  exists s1, d, req, reply, s2. split; [exact E1|]. split; [exact E2|]. split; [exact E3|]. split; [exact E4|].
  rewrite E5, E2. reflexivity.
Defined.
