(* ===== verification/HashFunc.v ===== *)
(** * Hash functions

    Models re/src/hash/func.c.  A string in memory is the list of its bytes;
    [hashlittle] reads it by words, by half words or by bytes, as the address
    allows, and all three give the same value. *)

From S2P Require Import Prelude Mbuf MbufProps.
Import Mb.

Module Hf.

(** ** Jenkins' one-at-a-time hash *)

Definition joaat_step (hash v : Z) : Z :=
  let hash := u32 (hash + v) in
  let hash := u32 (hash + Z.shiftl hash 10) in
  Z.lxor hash (Z.shiftr hash 6).

Definition joaat_end (hash : Z) : Z :=
  let hash := u32 (hash + Z.shiftl hash 3) in
  let hash := Z.lxor hash (Z.shiftr hash 11) in
  u32 (hash + Z.shiftl hash 15).

(** [char] is signed on the targets. *)
Definition schar (c : Z) : Z := if c <? 128 then c else c - 256.
(** [tolower] in the C locale, of the value of a [char]. *)
Definition lower (c : Z) : Z := if (65 <=? c) && (c <=? 90) then c + 32 else c.

Definition hash_joaat (key : list Z) : Z := joaat_end (fold_left joaat_step key 0).
Definition hash_joaat_ci (str : list Z) : Z := joaat_end (fold_left (fun h c => joaat_step h (lower (schar c))) str 0).
Definition hash_joaat_str (str : list Z) : Z := joaat_end (fold_left (fun h c => joaat_step h (schar c)) str 0).
Definition hash_joaat_str_ci (str : list Z) : Z := joaat_end (fold_left (fun h c => joaat_step h (lower (schar c))) str 0).
Definition hash_joaat_pl (pl : option (list Z)) : Z := match pl with Some p => hash_joaat p | None => 0 end.
Definition hash_joaat_pl_ci (pl : option (list Z)) : Z := match pl with Some p => hash_joaat_ci p | None => 0 end.

(** ** Jenkins' hash on words *)

Definition rot (x k : Z) : Z := Z.lor (u32 (Z.shiftl x k)) (Z.shiftr x (32 - k)).

Definition mix (s : Z * Z * Z) : Z * Z * Z :=
  let '(a, b, c) := s in
  let a := u32 (a - c) in let a := Z.lxor a (rot c 4) in let c := u32 (c + b) in
  let b := u32 (b - a) in let b := Z.lxor b (rot a 6) in let a := u32 (a + c) in
  let c := u32 (c - b) in let c := Z.lxor c (rot b 8) in let b := u32 (b + a) in
  let a := u32 (a - c) in let a := Z.lxor a (rot c 16) in let c := u32 (c + b) in
  let b := u32 (b - a) in let b := Z.lxor b (rot a 19) in let a := u32 (a + c) in
  let c := u32 (c - b) in let c := Z.lxor c (rot b 4) in let b := u32 (b + a) in
  (a, b, c).

Definition final (s : Z * Z * Z) : Z :=
  let '(a, b, c) := s in
  let c := Z.lxor c b in let c := u32 (c - rot b 14) in
  let a := Z.lxor a c in let a := u32 (a - rot c 11) in
  let b := Z.lxor b a in let b := u32 (b - rot a 25) in
  let c := Z.lxor c b in let c := u32 (c - rot b 16) in
  let a := Z.lxor a c in let a := u32 (a - rot c 4) in
  let b := Z.lxor b a in let b := u32 (b - rot a 14) in
  let c := Z.lxor c b in u32 (c - rot b 24).

(** Little-endian reads from the memory at the key; [None]: behind it. *)
Definition rd_int (w : nat) (m : list Z) (i : Z) : option Z := le_value <$> slice m (Z.of_nat w * i) (Z.of_nat w).
Definition rd8 := rd_int 1.
Definition rd16 := rd_int 2.
Definition rd32 := rd_int 4.

Definition add3 (s : Z * Z * Z) (x y z : Z) : Z * Z * Z :=
  let '(a, b, c) := s in (u32 (a + x), u32 (b + y), u32 (c + z)).

(** A word that is read as two half words. *)
Definition half2 (m : list Z) (i : Z) : option Z :=
  lo ← rd16 m i; hi ← rd16 m (i + 1); Some (u32 (lo + Z.shiftl hi 16)).

(** [while (length > 12)]: the three words of a round are mixed in. *)
Fixpoint rounds (words : list Z -> option (Z * Z * Z)) (fuel : nat) (m : list Z) (length : Z) (s : Z * Z * Z)
  : option (list Z * Z * (Z * Z * Z)) :=
  match fuel with
  | O => None
  | S fuel =>
    if 12 <? length then
      '(x, y, z) ← words m;
      rounds words fuel (drop 12 m) (length - 12) (mix (add3 s x y z))
    else Some (m, length, s)
  end.

Definition words32 (m : list Z) : option (Z * Z * Z) :=
  x ← rd32 m 0; y ← rd32 m 1; z ← rd32 m 2; Some (x, y, z).
Definition words16 (m : list Z) : option (Z * Z * Z) :=
  x ← half2 m 0; y ← half2 m 2; z ← half2 m 4; Some (x, y, z).
(** Four bytes, added one after the other. *)
Definition bytes4 (m : list Z) (i : Z) : option Z :=
  b0 ← rd8 m i; b1 ← rd8 m (i + 1); b2 ← rd8 m (i + 2); b3 ← rd8 m (i + 3);
  Some (u32 (b0 + Z.shiftl b1 8 + Z.shiftl b2 16 + Z.shiftl b3 24)).
Definition words8 (m : list Z) : option (Z * Z * Z) :=
  x ← bytes4 m 0; y ← bytes4 m 4; z ← bytes4 m 8; Some (x, y, z).

(** The switches over the last bytes: what is added to [a], [b] and [c]. *)
Definition last32 (m : list Z) (length : Z) : option (Z * Z * Z) :=
  let word i mask := w ← rd32 m i; Some (Z.land w mask) in
  match length with
  | 12 => z ← rd32 m 2; y ← rd32 m 1; x ← rd32 m 0; Some (x, y, z)
  | 11 => z ← word 2 0xffffff; y ← rd32 m 1; x ← rd32 m 0; Some (x, y, z)
  | 10 => z ← word 2 0xffff; y ← rd32 m 1; x ← rd32 m 0; Some (x, y, z)
  | 9 => z ← word 2 0xff; y ← rd32 m 1; x ← rd32 m 0; Some (x, y, z)
  | 8 => y ← rd32 m 1; x ← rd32 m 0; Some (x, y, 0)
  | 7 => y ← word 1 0xffffff; x ← rd32 m 0; Some (x, y, 0)
  | 6 => y ← word 1 0xffff; x ← rd32 m 0; Some (x, y, 0)
  | 5 => y ← word 1 0xff; x ← rd32 m 0; Some (x, y, 0)
  | 4 => x ← rd32 m 0; Some (x, 0, 0)
  | 3 => x ← word 0 0xffffff; Some (x, 0, 0)
  | 2 => x ← word 0 0xffff; Some (x, 0, 0)
  | 1 => x ← word 0 0xff; Some (x, 0, 0)
  | _ => Some (0, 0, 0)
  end.

Definition last16 (m : list Z) (length : Z) : option (Z * Z * Z) :=
  let byte i sh := b ← rd8 m i; Some (Z.shiftl b sh) in
  match length with
  | 12 => z ← half2 m 4; y ← half2 m 2; x ← half2 m 0; Some (x, y, z)
  | 11 => z1 ← byte 10 16; z ← rd16 m 4; y ← half2 m 2; x ← half2 m 0; Some (x, y, z1 + z)
  | 10 => z ← rd16 m 4; y ← half2 m 2; x ← half2 m 0; Some (x, y, z)
  | 9 => z ← byte 8 0; y ← half2 m 2; x ← half2 m 0; Some (x, y, z)
  | 8 => y ← half2 m 2; x ← half2 m 0; Some (x, y, 0)
  | 7 => y1 ← byte 6 16; y ← rd16 m 2; x ← half2 m 0; Some (x, y1 + y, 0)
  | 6 => y ← rd16 m 2; x ← half2 m 0; Some (x, y, 0)
  | 5 => y ← byte 4 0; x ← half2 m 0; Some (x, y, 0)
  | 4 => x ← half2 m 0; Some (x, 0, 0)
  | 3 => x1 ← byte 2 16; x ← rd16 m 0; Some (x1 + x, 0, 0)
  | 2 => x ← rd16 m 0; Some (x, 0, 0)
  | 1 => x ← byte 0 0; Some (x, 0, 0)
  | _ => Some (0, 0, 0)
  end.

(** Every case falls through to the next: byte [i] counts when the length is
    above [i]. *)
Definition last8 (m : list Z) (length : Z) : option (Z * Z * Z) :=
  let byte i sh := if i <? length then b ← rd8 m i; Some (Z.shiftl b sh) else Some 0 in
  let word i := b3 ← byte (i + 3) 24; b2 ← byte (i + 2) 16; b1 ← byte (i + 1) 8; b0 ← byte i 0; Some (b3 + b2 + b1 + b0) in
  z ← word 8; y ← word 4; x ← word 0; Some (x, y, z).

(** [addr]: the address of the key; [m]: the memory from there on. *)
Definition hashlittle (addr : Z) (m : list Z) (length initval : Z) : option Z :=
  let i := u32 (0xdeadbeef + u32 length + initval) in
  let '(words, last) :=
    if Z.land addr 3 =? 0 then (words32, last32) else if Z.land addr 1 =? 0 then (words16, last16) else (words8, last8) in
  '(m, length, s) ← rounds words (S (Z.to_nat length)) m length (i, i, i);
  if length =? 0 then Some (snd s) else
  '(x, y, z) ← last m length;
  Some (final (add3 s x y z)).

(** [after]: what lies in memory behind the key. *)
Definition hash_fast (addr : Z) (k after : list Z) : option Z := hashlittle addr (k ++ after) (zlen k) 0x304a0012.
Definition hash_fast_str (addr : Z) (str after : list Z) : option Z := hash_fast addr str (0 :: after).

End Hf.
