(* ===== verification/HashFuncProps.v ===== *)
(** * Properties of the hash functions

    The value of [hash_fast] does not depend on where the key lies in memory
    nor on what lies behind it; the one-at-a-time hash of a string and of a
    pointer-length object agree on ASCII only. *)

From S2P Require Import Prelude Mbuf MbufProps Codec HashFunc.
Import Mb Hf.

(** ** The hash of a key, without memory *)

Definition key_words (k : list Z) : Z * Z * Z :=
  (le_value (take 4 k), le_value (take 4 (drop 4 k)), le_value (take 4 (drop 8 k))).

Definition add_words (s w : Z * Z * Z) : Z * Z * Z := add3 s w.1.1 w.1.2 w.2.

Fixpoint jenkins (fuel : nat) (k : list Z) (s : Z * Z * Z) : Z :=
  match fuel with
  | O => 0
  | S fuel =>
    if 12 <? zlen k then jenkins fuel (drop 12 k) (mix (add_words s (key_words k)))
    else if zlen k =? 0 then snd s else final (add_words s (key_words k))
  end.

Definition hash_of (k : list Z) (initval : Z) : Z :=
  let i := u32 (0xdeadbeef + u32 (zlen k) + initval) in jenkins (S (length k)) k (i, i, i).

#[global] Arguments hash_of : simpl never.

(** ** Reads *)

Lemma rd_int_ok w m i : 0 <= i -> Z.of_nat w * i + Z.of_nat w <= zlen m ->
  rd_int w m i = Some (le_value (take w (drop (Z.to_nat (Z.of_nat w * i)) m))).
Proof. intros Hi H. unfold rd_int. rewrite slice_some by lia. cbn. by rewrite Nat2Z.id. Qed.

Lemma mask_low a b n : is_bytes a -> is_bytes b -> length a = n ->
  Z.land (le_value (a ++ b)) (256 ^ Z.of_nat n - 1) = le_value a.
Proof.
  intros Ha Hb <-. replace 256 with (2 ^ 8) by done. rewrite <- Z.pow_mul_r by lia.
  rewrite (land_mask _ _ (8 * Z.of_nat (length a))) by (done || lia). rewrite Z.pow_mul_r by lia. change (2 ^ 8) with 256.
  pose proof (le_value_range a Ha) as Hr. unfold zlen in Hr.
  assert (E : forall r, le_value (a ++ r) = le_value a + 256 ^ Z.of_nat (length a) * le_value r).
  { clear. intros r. induction a as [|x a IH]; cbn [app le_value length]; [cbn; lia|].
    rewrite IH, Nat2Z.inj_succ, Z.pow_succ_r by lia. lia. }
  rewrite E, (Z.mul_comm (256 ^ _)), Z.mod_add by lia. by apply Z.mod_small.
Qed.

(** The masks of a word keep its first bytes. *)
Lemma mask1 b x : 0 <= b < 256 -> Z.land (b + 256 * x) 0xff = b + 256 * 0.
Proof. intros H. rewrite (land_mask _ _ 8) by done. change (2 ^ 8) with 256. rewrite (Z.mul_comm 256), Z.mod_add, Z.mod_small by lia. lia. Qed.
Lemma mask2 b c x : 0 <= b < 256 -> 0 <= c < 256 -> Z.land (b + 256 * (c + 256 * x)) 0xffff = b + 256 * (c + 256 * 0).
Proof.
  intros H H'. rewrite (land_mask _ _ 16) by done. change (2 ^ 16) with 65536.
  replace (b + 256 * (c + 256 * x)) with (b + 256 * c + x * 65536) by lia. rewrite Z.mod_add, Z.mod_small by lia. lia.
Qed.
Lemma mask3 b c d x : 0 <= b < 256 -> 0 <= c < 256 -> 0 <= d < 256 ->
  Z.land (b + 256 * (c + 256 * (d + 256 * x))) 0xffffff = b + 256 * (c + 256 * (d + 256 * 0)).
Proof.
  intros H H' H''. rewrite (land_mask _ _ 24) by done. change (2 ^ 24) with 16777216.
  replace (b + 256 * (c + 256 * (d + 256 * x))) with (b + 256 * c + 65536 * d + x * 16777216) by lia.
  rewrite Z.mod_add, Z.mod_small by lia. lia.
Qed.

(** The words of a key, as numbers. *)
Ltac words_of :=
  unfold half2, bytes4, rd8, rd16, rd32; cbn -[rd_int take drop le_value Z.land Z.add Z.mul u32];
  rewrite !rd_int_ok by (unfold zlen; cbn [app length]; lia);
  repeat match goal with |- context [Z.to_nat ?x] => let v := eval vm_compute in (Z.to_nat x) in change (Z.to_nat x) with v end;
  cbn -[Z.land Z.add Z.mul u32 Z.shiftl]; rewrite ?take_0; cbn [le_value]; rewrite ?Z.shiftl_mul_pow2 by lia; rewrite ?u32_small by lia.

Ltac solve_word := first [lia | by apply mask1 | by apply mask2 | by apply mask3].

Ltac each_byte Hk :=
  unfold is_bytes in Hk;
  repeat match type of Hk with Forall _ (_ :: _) => let H := fresh "B" in apply Forall_cons in Hk as [H Hk] end.

Ltac split_key k n := lazymatch n with O => idtac | S ?n => destruct k as [|? k]; [|split_key k n] end.

Ltac key_cases :=
  match goal with |- context [zlen ?l] => let v := eval vm_compute in (zlen l) in change (zlen l) with v end; words_of;
  unfold key_words; cbn -[Z.land Z.add Z.mul]; apply (f_equal Some); repeat apply (f_equal2 pair); solve_word.

Lemma last32_key k after : is_bytes k -> is_bytes after -> (3 <= length after)%nat -> 0 < zlen k <= 12 ->
  last32 (k ++ after) (zlen k) = Some (key_words k).
Proof.
  intros Hk Ha H3 Hl. destruct after as [|a0 [|a1 [|a2 after]]]; cbn in H3; try lia.
  unfold zlen in Hl. split_key k 13%nat; cbn in Hl; try lia; clear Hl; each_byte Hk; each_byte Ha; unfold last32; key_cases.
Qed.

Lemma last16_key k after : is_bytes k -> 0 < zlen k <= 12 -> last16 (k ++ after) (zlen k) = Some (key_words k).
Proof.
  intros Hk Hl. unfold zlen in Hl. split_key k 13%nat; cbn in Hl; try lia; clear Hl; each_byte Hk; unfold last16; key_cases.
Qed.

Lemma last8_key k after : is_bytes k -> 0 < zlen k <= 12 -> last8 (k ++ after) (zlen k) = Some (key_words k).
Proof.
  intros Hk Hl. unfold zlen in Hl. split_key k 13%nat; cbn in Hl; try lia; clear Hl; each_byte Hk; unfold last8; key_cases.
Qed.

(** Twelve bytes and more. *)
Lemma words_key k after : is_bytes k -> 12 <= zlen k ->
  words32 (k ++ after) = Some (key_words k) /\ words16 (k ++ after) = Some (key_words k) /\ words8 (k ++ after) = Some (key_words k).
Proof.
  intros Hk Hl. unfold zlen in Hl. split_key k 12%nat; try (cbn in Hl; lia); clear Hl. each_byte Hk.
  unfold words32, words16, words8. split_and!; words_of; unfold key_words; cbn -[Z.land Z.add Z.mul]; rewrite ?take_0; cbn [le_value];
    apply (f_equal Some); repeat apply (f_equal2 pair); lia.
Qed.

(** ** All ways to read agree *)

Section Read.
Context (after : list Z).
Context (words : list Z -> option (Z * Z * Z)) (last : list Z -> Z -> option (Z * Z * Z)).
Context (Hwords : forall k, is_bytes k -> 12 <= zlen k -> words (k ++ after) = Some (key_words k)).
Context (Hlast : forall k, is_bytes k -> 0 < zlen k <= 12 -> last (k ++ after) (zlen k) = Some (key_words k)).

Lemma rounds_key fuel k s : is_bytes k -> zlen k < Z.of_nat fuel ->
  ('(m, length, s) ← rounds words fuel (k ++ after) (zlen k) s;
   if length =? 0 then Some (snd s) else '(x, y, z) ← last m length; Some (final (add3 s x y z))) = Some (jenkins fuel k s).
Proof using Hwords Hlast.
  revert k s. induction fuel as [|fuel IH]; intros k s Hk Hf; [pose proof (zlen_nonneg k); lia|]. cbn [rounds jenkins].
  destruct (Z.ltb_spec 12 (zlen k)) as [H12|H12].
  - rewrite Hwords by (done || lia). cbn [mbind option_bind].
    assert (Hd : (12 <= length k)%nat) by (unfold zlen in H12; lia).
    assert (Hz : zlen (drop 12 k) = zlen k - 12) by (unfold zlen; rewrite length_drop; lia).
    rewrite drop_app_le, <- Hz by done. apply IH; [by apply Forall_drop|lia].
  - cbn [mbind option_bind]. destruct (Z.eqb_spec (zlen k) 0) as [H0|H0]; [done|].
    pose proof (zlen_nonneg k). rewrite Hlast by (done || lia). done.
Qed.

End Read.

Lemma hashlittle_key addr k after initval : is_bytes k -> is_bytes after -> (3 <= length after)%nat ->
  hashlittle addr (k ++ after) (zlen k) initval = Some (hash_of k initval).
Proof.
  intros Hk Ha H3. unfold hashlittle, hash_of.
  replace (S (Z.to_nat (zlen k))) with (S (length k)) by (unfold zlen; lia).
  destruct (Z.land addr 3 =? 0); [|destruct (Z.land addr 1 =? 0)].
  all: apply rounds_key; try done; try (unfold zlen; lia).
  all: intros k' Hk' Hl'; try (by apply words_key); try (by apply last16_key); try (by apply last8_key).
  by apply last32_key.
Qed.

(** C40: a key has one hash.  [hash_fast] reads a key by words when its address
    is a multiple of four, by half words when it is even and byte by byte
    otherwise, and by words it reads past the end of the key; the value is the
    same for every address and everything behind the key, so that an entry is
    found in the bucket into which it was put. *)
Theorem hash_fast_position addr addr' k after after'
  (Hk : is_bytes k) (Ha : is_bytes after) (Ha' : is_bytes after')
  (Hl : (3 <= length after)%nat) (Hl' : (3 <= length after')%nat) :
  exists h, hash_fast addr k after = Some h /\ hash_fast addr' k after' = Some h.
Proof. exists (hash_of k 0x304a0012). unfold hash_fast. by rewrite !hashlittle_key. Qed.

Lemma hash_fast_position_witness :
  hash_fast 0 (bytes_of "candidate:1 1 UDP") [0; 1; 2] = Some 3507292424 /\
  exists h, hash_fast 1 (bytes_of "candidate:1 1 UDP") [0; 1; 2] = Some h /\ hash_fast 2 (bytes_of "candidate:1 1 UDP") [3; 4; 5] = Some h.
Proof.
  split; [vm_compute; reflexivity|].
  apply (hash_fast_position 1 2 (bytes_of "candidate:1 1 UDP") [0; 1; 2] [3; 4; 5]); [by_enum|by_enum|by_enum|cbn; lia|cbn; lia].
Defined.

(** The hash of a string and that of a pointer-length object agree on ASCII. *)
Lemma joaat_ascii s : Forall (fun c => 0 <= c < 128) s -> hash_joaat_str s = hash_joaat_pl (Some s).
Proof.
  intros H. unfold hash_joaat_str, hash_joaat_pl, hash_joaat. f_equal. generalize 0. induction H as [|c s Hc Hs IH]; intros h; [done|].
  cbn [fold_left]. unfold schar at 2. replace (c <? 128) with true by lia. apply IH.
Qed.

(** [hash_joaat_str] and [hash_joaat_pl] agree on ASCII strings and differ
    on others: the first adds signed characters, the second bytes.  The SIP
    code puts transactions and sessions into a table under the first and looks
    them up under the second, so that one whose call-id or branch has a byte
    from 128 on is not found. *)
Theorem joaat_str_pl :
  (forall s, Forall (fun c => 0 <= c < 128) s -> hash_joaat_str s = hash_joaat_pl (Some s)) /\
  hash_joaat_str [0xc3; 0xa9] <> hash_joaat_pl (Some [0xc3; 0xa9]).
Proof. split; [exact joaat_ascii|]. vm_compute. discriminate. Qed.
