(* ===== verification/Odict.v ===== *)
(** * Ordered dictionaries

    Models re/src/odict: dictionaries and their entries are objects of a
    store, a dictionary has the list of its entries and a hash table over
    them, and is freed when its last reference is dropped.  A C string is the
    list of the bytes in front of its NUL. *)

From stdpp Require Import gmap.
From S2P Require Import Prelude Effects Mbuf MbufProps Hash HashFunc.
Import Ht Hf.

Module Od.

(** What an entry of each type holds; [D]: the type [double]. *)
Inductive value (D : Type) :=
| ODICT_OBJECT (o : nat)
| ODICT_ARRAY (o : nat)
| ODICT_STRING (s : list Z)
| ODICT_INT (i : Z)
| ODICT_DOUBLE (d : D)
| ODICT_BOOL (b : bool)
| ODICT_NULL.
#[global] Arguments ODICT_OBJECT {D} _.
#[global] Arguments ODICT_ARRAY {D} _.
#[global] Arguments ODICT_STRING {D} _.
#[global] Arguments ODICT_INT {D} _.
#[global] Arguments ODICT_DOUBLE {D} _.
#[global] Arguments ODICT_BOOL {D} _.
#[global] Arguments ODICT_NULL {D}.

(** [refs]: the references to the dictionary. *)
Record odict := mk_odict { lst : list nat; ht : hash nat; refs : Z }.
Record odict_entry (D : Type) := mk_entry { e_key : list Z; e_val : value D }.
#[global] Arguments mk_entry {D} _ _.
#[global] Arguments e_key {D} _.
#[global] Arguments e_val {D} _.

Record store (D : Type) := mk_store { odicts : gmap nat odict; entries : gmap nat (odict_entry D); fresh : nat }.
#[global] Arguments mk_store {D} _ _ _.
#[global] Arguments odicts {D} _.
#[global] Arguments entries {D} _.
#[global] Arguments fresh {D} _.

Section Odict.
Context {D : Type}.
Abbreviation OM := (M (store D)).

Definition set_odicts (x : gmap nat odict) (s : store D) : store D := mk_store x (entries s) (fresh s).
Definition set_entries (x : gmap nat (odict_entry D)) (s : store D) : store D := mk_store (odicts s) x (fresh s).

Definition get_od (o : nat) : OM odict := fun s => d ← odicts s !! o; Some (d, s).
Definition put_od (o : nat) (d : odict) : OM unit := modify (fun s => set_odicts (<[o := d]> (odicts s)) s).
Definition get_entry (e : nat) : OM (odict_entry D) := fun s => d ← entries s !! e; Some (d, s).
Definition new_id : OM nat := n ← gets fresh; modify (fun s => mk_store (odicts s) (entries s) (S n)) ;; mret n.

(** [alloc_ok]: whether an allocation of that size succeeds; [place]: the
    address of the key of an entry and what lies behind it. *)
Context (alloc_ok : Z -> bool) (place : nat -> Z * list Z).

Definition hash_key (e : nat) (key : list Z) : option Z := let '(addr, after) := place e in hash_fast_str addr key after.

(** sizeof(struct odict) is 24. *)
Definition odict_alloc (hash_size : Z) : OM (Z * option nat) :=
  if hash_size =? 0 then mret (EINVAL, None) else
  if negb (alloc_ok 24) then mret (ENOMEM, None) else
  match hash_alloc alloc_ok (hash_valid_size hash_size) with
  | (_, Some t) => o ← new_id; put_od o (mk_odict [] t 1) ;; mret (0, Some o)
  | (err, None) => mret (err, None)
  end.

(** [mem_ref] and [mem_deref] of a dictionary, with the destructors of
    dictionaries and entries; [fuel] bounds the depth of the nesting. *)
Definition odict_ref (o : nat) : OM unit := d ← get_od o; put_od o (mk_odict (lst d) (ht d) (refs d + 1)).

Fixpoint odict_deref (fuel : nat) (o : nat) : OM unit :=
  match fuel with
  | O => ub
  | S fuel =>
    d ← get_od o;
    if 1 <? refs d then put_od o (mk_odict (lst d) (ht d) (refs d - 1)) else
    for_each (fun e =>
      en ← get_entry e;
      match e_val en with ODICT_OBJECT c | ODICT_ARRAY c => odict_deref fuel c | _ => mret tt end ;;
      modify (fun s => set_entries (delete e (entries s)) s)) (lst d) ;;
    modify (fun s => set_odicts (delete o (odicts s)) s)
  end.

(** The search in a bucket. *)
Fixpoint find_key (l : list nat) (key : list Z) : OM (option nat) :=
  match l with
  | [] => mret None
  | e :: l => en ← get_entry e; if bool_decide (e_key en = key) then mret (Some e) else find_key l key
  end.

(** [addr], [after]: where the key of the caller lies. *)
Definition odict_lookup (o : nat) (addr : Z) (key after : list Z) : OM (option nat) :=
  d ← get_od o;
  h ← of_option (hash_fast_str addr key after);
  l ← of_option (hash_list (ht d) h);
  find_key l key.

Fixpoint odict_count (fuel : nat) (nested : bool) (o : nat) : OM Z :=
  match fuel with
  | O => ub
  | S fuel =>
    d ← get_od o;
    if negb nested then mret (zlen (lst d)) else
    foldr (fun e k n =>
      en ← get_entry e;
      c ← match e_val en with ODICT_OBJECT c | ODICT_ARRAY c => odict_count fuel true c | _ => mret 1 end;
      k (usz (n + c))) mret (lst d) 0
  end.

(** sizeof(struct odict_entry) is 88. *)
Definition odict_entry_add (o : nat) (key : list Z) (v : value D) : OM Z :=
  if negb (alloc_ok 88) then mret ENOMEM else
  if negb (alloc_ok (zlen key + 1)) then mret ENOMEM else
  err ← match v with
        | ODICT_OBJECT c | ODICT_ARRAY c => odict_ref c ;; mret 0
        | ODICT_STRING s => mret (if alloc_ok (zlen s + 1) then 0 else ENOMEM)
        | _ => mret 0
        end;
  if negb (err =? 0) then mret err else
  e ← new_id;
  modify (fun s => set_entries (<[e := mk_entry key v]> (entries s)) s) ;;
  d ← get_od o;
  h ← of_option (hash_key e key);
  t ← of_option (hash_append (ht d) h e);
  put_od o (mk_odict (lst d ++ [e]) t (refs d)) ;;
  mret 0.

(** The entry leaves the list and the table, and releases what it holds. *)
Definition odict_entry_del (fuel : nat) (o : nat) (addr : Z) (key after : list Z) : OM unit :=
  r ← odict_lookup o addr key after;
  match r with
  | None => mret tt
  | Some e =>
    en ← get_entry e;
    match e_val en with ODICT_OBJECT c | ODICT_ARRAY c => odict_deref fuel c | _ => mret tt end ;;
    d ← get_od o;
    put_od o (mk_odict (filter (fun x => x <> e) (lst d)) (hash_unlink e (ht d)) (refs d)) ;;
    modify (fun s => set_entries (delete e (entries s)) s)
  end.

(** ** Accessors *)

Inductive odict_type := T_OBJECT | T_ARRAY | T_STRING | T_INT | T_DOUBLE | T_BOOL | T_NULL.

Definition type_of (v : value D) : odict_type :=
  match v with
  | ODICT_OBJECT _ => T_OBJECT | ODICT_ARRAY _ => T_ARRAY | ODICT_STRING _ => T_STRING | ODICT_INT _ => T_INT
  | ODICT_DOUBLE _ => T_DOUBLE | ODICT_BOOL _ => T_BOOL | ODICT_NULL => T_NULL
  end.

Definition odict_type_iscontainer (t : odict_type) : bool := match t with T_OBJECT | T_ARRAY => true | _ => false end.
Definition odict_type_isreal (t : odict_type) : bool :=
  match t with T_STRING | T_INT | T_DOUBLE | T_BOOL | T_NULL => true | _ => false end.
Definition odict_type_name (t : odict_type) : list Z :=
  bytes_of match t with
  | T_OBJECT => "Object" | T_ARRAY => "Array" | T_STRING => "String" | T_INT => "Integer"
  | T_DOUBLE => "Double" | T_BOOL => "Boolean" | T_NULL => "Null"
  end.

Definition odict_get_type (o : nat) (type : odict_type) (addr : Z) (key after : list Z) : OM (option (odict_entry D)) :=
  r ← odict_lookup o addr key after;
  match r with
  | None => mret None
  | Some e =>
    en ← get_entry e;
    match type_of (e_val en), type with
    | T_OBJECT, T_OBJECT | T_ARRAY, T_ARRAY | T_STRING, T_STRING | T_INT, T_INT
    | T_DOUBLE, T_DOUBLE | T_BOOL, T_BOOL | T_NULL, T_NULL => mret (Some en)
    | _, _ => mret None
    end
  end.

Definition odict_string (o : nat) (addr : Z) (key after : list Z) : OM (option (list Z)) :=
  r ← odict_get_type o T_STRING addr key after;
  mret (en ← r; match e_val en with ODICT_STRING s => Some s | _ => None end).

Definition odict_get_boolean (o : nat) (addr : Z) (key after : list Z) : OM (option bool) :=
  r ← odict_get_type o T_BOOL addr key after;
  mret (en ← r; match e_val en with ODICT_BOOL b => Some b | _ => None end).

(** [d_u64]: the conversion of a [double] to [uint64_t], undefined outside its
    range. *)
Definition odict_get_number (d_u64 : D -> option Z) (o : nat) (addr : Z) (key after : list Z) : OM (option Z) :=
  r ← odict_lookup o addr key after;
  match r with
  | None => mret None
  | Some e =>
    en ← get_entry e;
    match e_val en with
    | ODICT_DOUBLE d => n ← of_option (d_u64 d); mret (Some n)
    | ODICT_INT i => mret (Some (u64 i))
    | _ => mret None
    end
  end.

End Odict.

End Od.
