(* ===== verification/OdictProps.v ===== *)
(** * Properties of ordered dictionaries

    [owned s o l O E]: dictionary [o] is the root of a tree of content [l]
    whose dictionaries are [O] and whose entries are [E], each referenced
    once.  Adding, looking up, printing and releasing are specified on such
    trees. *)

From stdpp Require Import gmap.
From S2P Require Import Prelude Effects Mbuf MbufProps Codec Hash HashFunc HashFuncProps Odict.
Import Ht Hf Od.

(** ** Contents *)

#[warnings="-register-all"] Inductive jv (D : Type) :=
| J_obj (l : list (list Z * jv D))
| J_arr (l : list (list Z * jv D))
| J_str (s : list Z)
| J_int (i : Z)
| J_dbl (d : D)
| J_bool (b : bool)
| J_null.
#[global] Arguments J_obj {D} _.
#[global] Arguments J_arr {D} _.
#[global] Arguments J_str {D} _.
#[global] Arguments J_int {D} _.
#[global] Arguments J_dbl {D} _.
#[global] Arguments J_bool {D} _.
#[global] Arguments J_null {D}.

Section Content.
Context {D : Type}.

Fixpoint depth (j : jv D) : nat :=
  match j with
  | J_obj l | J_arr l => S (foldr (fun kj n => Nat.max (depth kj.2) n) 0%nat l)
  | _ => 0
  end.
Definition depth_of (l : list (list Z * jv D)) : nat := foldr (fun kj n => Nat.max (depth kj.2) n) 0%nat l.

(** Induction with the hypothesis for every member. *)
Lemma jv_rect_list (P : jv D -> Prop) :
  (forall l, Forall (fun kj => P kj.2) l -> P (J_obj l)) -> (forall l, Forall (fun kj => P kj.2) l -> P (J_arr l)) ->
  (forall s, P (J_str s)) -> (forall i, P (J_int i)) -> (forall d, P (J_dbl d)) -> (forall b, P (J_bool b)) -> P J_null ->
  forall j, P j.
Proof.
  intros Ho Ha Hs Hi Hd Hb Hn. fix IH 1. intros [l|l|s|i|d|b|]; [apply Ho|apply Ha|apply Hs|apply Hi|apply Hd|apply Hb|apply Hn].
  all: induction l as [|[k j] l IHl]; constructor; [apply IH|exact IHl].
Qed.

(** The content of a value that is not a container. *)
Definition scalar (v : value D) : option (jv D) :=
  match v with
  | ODICT_OBJECT _ | ODICT_ARRAY _ => None
  | ODICT_STRING s => Some (J_str s) | ODICT_INT i => Some (J_int i) | ODICT_DOUBLE d => Some (J_dbl d)
  | ODICT_BOOL b => Some (J_bool b) | ODICT_NULL => Some J_null
  end.

(** ** Trees in the store *)

Definition khash (k : list Z) : Z := hash_of k 0x304a0012.
#[global] Arguments khash : simpl never.
Definition hk (s : store D) (e : nat) : Z := match entries s !! e with Some en => khash (e_key en) | None => 0 end.

Inductive owned (s : store D) : nat -> list (list Z * jv D) -> gset nat -> gset nat -> Prop :=
| owned_dict o d l O E : odicts s !! o = Some d -> refs d = 1 -> holds (hk s) (ht d) (lst d) ->
    owned_list s (lst d) l O E -> o ∉ O -> owned s o l ({[o]} ∪ O) E
with owned_list (s : store D) : list nat -> list (list Z * jv D) -> gset nat -> gset nat -> Prop :=
| owned_nil : owned_list s [] [] ∅ ∅
| owned_cons e k v j es l O1 E1 O2 E2 : entries s !! e = Some (mk_entry k v) -> is_bytes k -> owned_value s v j O1 E1 ->
    owned_list s es l O2 E2 -> O1 ## O2 -> E1 ## E2 -> e ∉ E1 -> e ∉ E2 ->
    owned_list s (e :: es) ((k, j) :: l) (O1 ∪ O2) ({[e]} ∪ (E1 ∪ E2))
with owned_value (s : store D) : value D -> jv D -> gset nat -> gset nat -> Prop :=
| owned_obj o l O E : owned s o l O E -> owned_value s (ODICT_OBJECT o) (J_obj l) O E
| owned_arr o l O E : owned s o l O E -> owned_value s (ODICT_ARRAY o) (J_arr l) O E
| owned_scalar v j : scalar v = Some j -> owned_value s v j ∅ ∅.

Scheme owned_mut := Minimality for owned Sort Prop
  with owned_list_mut := Minimality for owned_list Sort Prop
  with owned_value_mut := Minimality for owned_value Sort Prop.
Combined Scheme owned_mutind from owned_mut, owned_list_mut, owned_value_mut.

(** The stores agree on a tree. *)
Definition agree (O E : gset nat) (s s' : store D) : Prop :=
  (forall o, o ∈ O -> odicts s' !! o = odicts s !! o) /\ (forall e, e ∈ E -> entries s' !! e = entries s !! e).

Lemma agree_sub O E O' E' s s' : agree O E s s' -> O' ⊆ O -> E' ⊆ E -> agree O' E' s s'.
Proof. intros [H1 H2] HO HE. split; intros x Hx; [apply H1|apply H2]; set_solver. Qed.

Lemma list_members s : (forall o l O E, owned s o l O E -> True) /\ (forall es l O E, owned_list s es l O E -> forall e, e ∈ es -> e ∈ E) /\
  (forall v j O E, owned_value s v j O E -> True).
Proof. apply owned_mutind; try done; [by intros e ?%not_elem_of_nil|]. intros. set_solver. Qed.

Lemma owned_frame s s' :
  (forall o l O E, owned s o l O E -> agree O E s s' -> owned s' o l O E) /\
  (forall es l O E, owned_list s es l O E -> agree O E s s' -> owned_list s' es l O E) /\
  (forall v j O E, owned_value s v j O E -> agree O E s s' -> owned_value s' v j O E).
Proof.
  apply owned_mutind.
  - intros o d l O E Hd Hr Hh Hl IH Ho Ha. apply (owned_dict s' o d); [|done| |apply IH, (agree_sub _ _ _ _ _ _ Ha); set_solver|done].
    + rewrite (proj1 Ha); [done|set_solver].
    + apply (holds_ext (hk s)); [|done]. intros e He. unfold hk. rewrite (proj2 Ha e); [done|].
      by apply (proj1 (proj2 (list_members s)) _ _ _ _ Hl).
  - constructor.
  - intros e k v j es l O1 E1 O2 E2 He Hk Hv IHv Hl IHl H1 H2 H3 H4 Ha. eapply owned_cons; eauto.
    + rewrite (proj2 Ha); [done|set_solver].
    + apply IHv, (agree_sub _ _ _ _ _ _ Ha); set_solver.
    + apply IHl, (agree_sub _ _ _ _ _ _ Ha); set_solver.
  - intros. apply owned_obj; auto.
  - intros. apply owned_arr; auto.
  - intros. by apply owned_scalar.
Qed.

(** Fresh identifiers are not in use. *)
Definition fresh_ok (s : store D) : Prop := forall i, (fresh s <= i)%nat -> odicts s !! i = None /\ entries s !! i = None.

Lemma owned_some s :
  (forall o l O E, owned s o l O E -> (forall x, x ∈ O -> is_Some (odicts s !! x)) /\ (forall e, e ∈ E -> is_Some (entries s !! e))) /\
  (forall es l O E, owned_list s es l O E -> (forall x, x ∈ O -> is_Some (odicts s !! x)) /\ (forall e, e ∈ E -> is_Some (entries s !! e))) /\
  (forall v j O E, owned_value s v j O E -> (forall x, x ∈ O -> is_Some (odicts s !! x)) /\ (forall e, e ∈ E -> is_Some (entries s !! e))).
Proof. apply owned_mutind; intros; set_solver. Qed.

Lemma owned_fresh s o l O E : owned s o l O E -> fresh_ok s -> (fresh s ∉ O) /\ (fresh s ∉ E).
Proof.
  intros Ho Hf. destruct (proj1 (owned_some s) _ _ _ _ Ho) as [H1 H2]. destruct (Hf (fresh s) ltac:(lia)) as [F1 F2].
  split; intros Hx; [destruct (H1 _ Hx)|destruct (H2 _ Hx)]; congruence.
Qed.

Lemma owned_root s o l O E : owned s o l O E -> o ∈ O /\ exists d O', odicts s !! o = Some d /\ refs d = 1 /\
  holds (hk s) (ht d) (lst d) /\ owned_list s (lst d) l O' E /\ (o ∉ O') /\ O = {[o]} ∪ O'.
Proof. intros H. destruct H as [o d l O E H1 H2 H3 H4 H5]. split; [set_solver|]. by exists d, O. Qed.

(** What an operation that adds to a tree may change. *)
Record grown (O E O' E' : gset nat) (s s' : store D) : Prop := {
  g_O : O ⊆ O';
  g_E : E ⊆ E';
  g_newO : forall x, x ∈ O' -> x ∈ O \/ (fresh s <= x)%nat;
  g_newE : forall x, x ∈ E' -> x ∈ E \/ (fresh s <= x)%nat;
  g_odicts : forall x, x ∉ O' -> odicts s' !! x = odicts s !! x;
  g_entries : forall x, x ∉ E' -> entries s' !! x = entries s !! x;
  g_fresh : (fresh s <= fresh s')%nat;
  g_ok : fresh_ok s' }.

Lemma grown_refl O E s : fresh_ok s -> grown O E O E s s.
Proof. intros H. split; try done; by left. Qed.

Lemma grown_trans O E O1 E1 O2 E2 s s1 s2 : grown O E O1 E1 s s1 -> grown O1 E1 O2 E2 s1 s2 -> grown O E O2 E2 s s2.
Proof.
  intros [A1 A2 A3 A4 A5 A6 A7 A8] [B1 B2 B3 B4 B5 B6 B7 B8]. split; [set_solver|set_solver|..|lia|done].
  - intros x [Hx|Hx]%B3; [by apply A3|right; lia].
  - intros x [Hx|Hx]%B4; [by apply A4|right; lia].
  - intros x Hx. rewrite B5, A5 by set_solver. done.
  - intros x Hx. rewrite B6, A6 by set_solver. done.
Qed.

(** A list of entries grows at its end. *)
Lemma owned_snoc s es l O E e k v j O1 E1 : owned_list s es l O E -> entries s !! e = Some (mk_entry k v) -> is_bytes k ->
  owned_value s v j O1 E1 -> O ## O1 -> E ## E1 -> e ∉ E -> e ∉ E1 ->
  owned_list s (es ++ [e]) (l ++ [(k, j)]) (O ∪ O1) (E ∪ ({[e]} ∪ E1)).
Proof.
  intros Hl He Hk Hv. revert O1 E1 Hv. induction Hl as [|e' k' v' j' es l O2 E2 O3 E3 He' Hk' Hv' Hl IH D1 D2 D3 D4]; intros O1 E1 Hv HO HE H1 H2.
  - replace (∅ ∪ O1) with (O1 ∪ ∅) by set_solver. replace (∅ ∪ ({[e]} ∪ E1)) with ({[e]} ∪ (E1 ∪ ∅)) by set_solver.
    eapply owned_cons; [done|done|done|constructor|set_solver..].
  - replace (O2 ∪ O3 ∪ O1) with (O2 ∪ (O3 ∪ O1)) by set_solver.
    replace ({[e']} ∪ (E2 ∪ E3) ∪ ({[e]} ∪ E1)) with ({[e']} ∪ (E2 ∪ (E3 ∪ ({[e]} ∪ E1)))) by set_solver.
    cbn [app]. eapply owned_cons; [done|done|done|apply IH; set_solver|set_solver..].
Qed.

(** ** A container that is being filled *)

(** The last entry of [o] holds [v]; the rest of the tree is [l]. *)
Record opened (s : store D) (o : nat) (l : list (list Z * jv D)) (k : list Z) (v : value D) (O E : gset nat) : Prop := mk_opened {
  op_run : exists d es e O0 E0, odicts s !! o = Some d /\ refs d = 1 /\ lst d = es ++ [e] /\ holds (hk s) (ht d) (lst d) /\
    owned_list s es l O0 E0 /\ (o ∉ O0) /\ O = {[o]} ∪ O0 /\ E = {[e]} ∪ E0 /\ (e ∉ E0) /\
    entries s !! e = Some (mk_entry k v) /\ is_bytes k }.

Lemma opened_frame s s' o l k v O E : opened s o l k v O E -> agree O E s s' -> opened s' o l k v O E.
Proof.
  intros [(d & es & e & O0 & E0 & H1 & H2 & H3 & H4 & H5 & H6 & -> & -> & H7 & H8 & H9)] Ha. split.
  exists d, es, e, O0, E0. split_and!; try done.
  - rewrite (proj1 Ha); [done|set_solver].
  - apply (holds_ext (hk s)); [|done]. intros x Hx. unfold hk. rewrite (proj2 Ha x); [done|]. rewrite H3 in Hx.
    apply elem_of_app in Hx as [Hx|Hx%list_elem_of_singleton]; [|set_solver].
    pose proof (proj1 (proj2 (list_members s)) _ _ _ _ H5 x Hx). set_solver.
  - apply (proj1 (proj2 (owned_frame s s')) _ _ _ _ H5), (agree_sub _ _ _ _ _ _ Ha); set_solver.
  - rewrite (proj2 Ha); [done|set_solver].
Qed.

Lemma opened_close s o l k v j O E Oc Ec : opened s o l k v O E -> owned_value s v j Oc Ec -> O ## Oc -> E ## Ec ->
  owned s o (l ++ [(k, j)]) (O ∪ Oc) (E ∪ Ec).
Proof.
  intros [(d & es & e & O0 & E0 & H1 & H2 & H3 & H4 & H5 & H6 & -> & -> & H7 & H8 & H9)] Hv HO HE.
  replace ({[o]} ∪ O0 ∪ Oc) with ({[o]} ∪ (O0 ∪ Oc)) by set_solver.
  replace ({[e]} ∪ E0 ∪ Ec) with (E0 ∪ ({[e]} ∪ Ec)) by set_solver.
  apply (owned_dict s o d); [done|done|done| |set_solver]. rewrite H3. eapply owned_snoc; [done|done|done|done|set_solver..].
Qed.

Lemma opened_some s o l k v O E : opened s o l k v O E -> (forall x, x ∈ O -> is_Some (odicts s !! x)) /\ (forall e, e ∈ E -> is_Some (entries s !! e)).
Proof.
  intros [(d & es & e & O0 & E0 & H1 & H2 & H3 & H4 & H5 & H6 & -> & -> & H7 & H8 & H9)].
  destruct (proj1 (proj2 (owned_some s)) _ _ _ _ H5) as [S1 S2]. split; intros x [->%elem_of_singleton|Hx]%elem_of_union; eauto.
Qed.

Lemma grown_frame X Y O E O' E' s s' : grown O E O' E' s s' -> grown (X ∪ O) (Y ∪ E) (X ∪ O') (Y ∪ E') s s'.
Proof.
  intros [A1 A2 A3 A4 A5 A6 A7 A8]. split; try done; [clear -A1; set_solver|clear -A2; set_solver|..].
  - intros x [Hx|Hx]%elem_of_union; [left; clear -Hx; set_solver|]. destruct (A3 x Hx); [left; clear -H; set_solver|by right].
  - intros x [Hx|Hx]%elem_of_union; [left; clear -Hx; set_solver|]. destruct (A4 x Hx); [left; clear -H; set_solver|by right].
  - intros x Hx. apply A5. clear -Hx. set_solver.
  - intros x Hx. apply A6. clear -Hx. set_solver.
Qed.

(** The container that was filled belongs to the tree. *)
Lemma opened_grown s s1 s2 o oc l lc k v j O E E1 Oc Ec : opened s1 o l k v O E1 -> grown O E (O ∪ {[oc]}) E1 s s1 -> oc ∉ O ->
  grown {[oc]} ∅ Oc Ec s1 s2 -> owned s2 oc lc Oc Ec -> owned_value s2 v j Oc Ec ->
  owned s2 o (l ++ [(k, j)]) (O ∪ Oc) (E1 ∪ Ec) /\ grown O E (O ∪ Oc) (E1 ∪ Ec) s s2.
Proof.
  intros Hop Hg Hn Hg' Hc Hv. destruct (opened_some _ _ _ _ _ _ _ Hop) as [S1 S2]. pose proof (g_ok _ _ _ _ _ _ Hg) as Hf.
  assert (D1 : forall x, x ∈ O -> x ∉ Oc).
  { intros x H1 H2. destruct (g_newO _ _ _ _ _ _ Hg' x H2) as [->%elem_of_singleton|H3]; [done|]. destruct (S1 x H1). destruct (Hf x H3). congruence. }
  assert (D2 : forall x, x ∈ E1 -> x ∉ Ec).
  { intros x H1 H2. destruct (g_newE _ _ _ _ _ _ Hg' x H2) as [?%elem_of_empty|H3]; [done|]. destruct (S2 x H1). destruct (Hf x H3). congruence. }
  split.
  - apply (opened_close _ _ _ _ v); [|done|clear -D1; set_solver|clear -D2; set_solver]. apply (opened_frame s1); [done|].
    split; intros x Hx; [by apply (g_odicts _ _ _ _ _ _ Hg'), D1|by apply (g_entries _ _ _ _ _ _ Hg'), D2].
  - eapply grown_trans; [exact Hg|]. rewrite <- (union_empty_r_L E1) at 1. by apply grown_frame.
Qed.

End Content.

(** ** Operations *)

Section Operations.
Context {D : Type} (alloc_ok : Z -> bool) (place : nat -> Z * list Z).
(** Behind a key lie at least its NUL and two bytes more. *)
Context (Hplace : forall e, is_bytes (place e).2 /\ (2 <= length (place e).2)%nat).
Implicit Types (s : store D).

Lemma hash_str addr key after : is_bytes key -> is_bytes after -> (2 <= length after)%nat -> hash_fast_str addr key after = Some (khash key).
Proof.
  intros Hk Ha H2. unfold hash_fast_str, hash_fast. apply hashlittle_key; [done| |cbn; lia]. constructor; [lia|done].
Qed.

Lemma hash_key_ok e key : is_bytes key -> hash_key place e key = Some (khash key).
Proof using Hplace. intros Hk. unfold hash_key. destruct (Hplace e) as [H1 H2]. destruct (place e) as [addr after]. by apply hash_str. Qed.

(** A reference to the dictionary that the value holds. *)
Definition with_ref (v : value D) (m : gmap nat odict) : gmap nat odict :=
  match v with
  | ODICT_OBJECT c | ODICT_ARRAY c => match m !! c with Some d => <[c := mk_odict (lst d) (ht d) (refs d + 1)]> m | None => m end
  | _ => m
  end.
Definition child (v : value D) : option nat := match v with ODICT_OBJECT c | ODICT_ARRAY c => Some c | _ => None end.

Lemma entry_add_run s o d key v : fresh_ok s -> odicts s !! o = Some d -> holds (hk s) (ht d) (lst d) ->
  (forall x, x ∈ lst d -> is_Some (entries s !! x)) -> is_bytes key ->
  (forall c, child v = Some c -> c <> o /\ is_Some (odicts s !! c)) ->
  exists err s', odict_entry_add alloc_ok place o key v s = Some (err, s') /\
    ((forall n, alloc_ok n = true) -> err = 0) /\
    ((err <> 0 /\ s' = s) \/
     (err = 0 /\ exists t, s' = mk_store (<[o := mk_odict (lst d ++ [fresh s]) t (refs d)]> (with_ref v (odicts s)))
        (<[fresh s := mk_entry key v]> (entries s)) (S (fresh s)) /\ holds (hk s') t (lst d ++ [fresh s]))).
Proof using Hplace.
  intros Hf Hd Hh Hin Hk Hc. unfold odict_entry_add.
  destruct (alloc_ok 88) eqn:A1; cbn [negb].
  2: { exists ENOMEM, s. split; [done|]. split; [intros H; by rewrite H in A1|by left]. }
  destruct (alloc_ok (zlen key + 1)) eqn:A2; cbn [negb].
  2: { exists ENOMEM, s. split; [done|]. split; [intros H; by rewrite H in A2|by left]. }
  set (m := match v with ODICT_OBJECT _ => _ | _ => _ end). set (s1 := mk_store (with_ref v (odicts s)) (entries s) (fresh s)).
  assert (Em : m s = Some (0, s1) \/ (m s = Some (ENOMEM, s) /\ exists n, alloc_ok n = false)).
  { unfold m, s1, with_ref. destruct v as [c|c|str|i|x|b|]; try (left; by destruct s).
    1,2: left; destruct (Hc c eq_refl) as [_ [dc Ec]]; unfold odict_ref, get_od, put_od, modify, mbind, M_bind; rewrite Ec; done.
    destruct (alloc_ok (zlen str + 1)) eqn:A3; [left; by destruct s|right]. split; [done|by eexists]. }
  unfold mbind at 1, M_bind at 1. destruct Em as [->|[-> [n En]]].
  2: { exists ENOMEM, s. split; [done|]. split; [intros H; by rewrite H in En|by left]. }
  assert (Hd1 : with_ref v (odicts s) !! o = Some d).
  { unfold with_ref. destruct v as [c|c| | | | |]; try done; destruct (Hc c eq_refl) as [Hne _]; destruct (odicts s !! c); try done;
      by rewrite lookup_insert_ne. }
  cbn [negb Z.eqb]. unfold new_id, gets, modify, mbind, M_bind, get_od. cbn -[hash_append hash_key]. rewrite Hd1. cbn -[hash_append hash_key].
  rewrite hash_key_ok by done. cbn -[hash_append].
  set (s2 := mk_store (with_ref v (odicts s)) (<[fresh s := mk_entry key v]> (entries s)) (S (fresh s))).
  assert (Hk2 : hk s2 (fresh s) = khash key) by (unfold hk; cbn; by rewrite lookup_insert_eq).
  assert (Hh2 : holds (hk s2) (ht d) (lst d)).
  { apply (holds_ext (hk s)); [|done]. intros x Hx. unfold hk. cbn. rewrite lookup_insert_ne; [done|].
    intros <-. destruct (Hin _ Hx) as [en Hen]. destruct (Hf (fresh s) ltac:(lia)). congruence. }
  assert (Hnew : fresh s ∉ lst d) by (intros Hx; destruct (Hin _ Hx) as [en Hen]; destruct (Hf (fresh s) ltac:(lia)); congruence).
  destruct (append_new (hk s2) (ht d) (lst d) (fresh s) Hh2 Hnew) as (t & Et & Ht). rewrite Hk2 in Et. rewrite Et. cbn.
  eexists 0, _. split; [done|]. split; [done|]. right. split; [done|]. exists t. split; [done|]. done.
Qed.

Lemma fresh_next s m es : fresh_ok s -> (forall i, (S (fresh s) <= i)%nat -> m !! i = None) ->
  (forall i, (S (fresh s) <= i)%nat -> es !! i = None) -> fresh_ok (mk_store m es (S (fresh s)) : store D).
Proof. intros Hf H1 H2 i Hi. cbn in *. auto. Qed.

Lemma add_scalar s o l O E key v j : owned s o l O E -> fresh_ok s -> is_bytes key -> scalar v = Some j ->
  exists err s', odict_entry_add alloc_ok place o key v s = Some (err, s') /\ ((forall n, alloc_ok n = true) -> err = 0) /\
    ((err <> 0 /\ s' = s) \/
     (err = 0 /\ owned s' o (l ++ [(key, j)]) O (E ∪ {[fresh s]}) /\ grown O E O (E ∪ {[fresh s]}) s s')).
Proof using Hplace.
  intros Ho Hf Hk Hj. destruct (owned_fresh _ _ _ _ _ Ho Hf) as [F1 F2].
  destruct (owned_root _ _ _ _ _ Ho) as (Hin & d & O' & Hd & Hr & Hh & Hl & Hn & ->).
  destruct (entry_add_run s o d key v Hf Hd Hh) as (err & s' & E1 & Hall & H); [|done|by destruct v|].
  { intros x Hx. apply (proj2 (proj1 (owned_some s) _ _ _ _ Ho)). by apply (proj1 (proj2 (list_members s)) _ _ _ _ Hl). }
  exists err, s'. split; [done|]. split; [done|]. destruct H as [?|(-> & t & -> & Ht)]; [by left|right]. split; [done|].
  assert (Ew : with_ref v (odicts s) = odicts s) by (by destruct v). rewrite Ew in *.
  set (s' := mk_store _ _ _) in *.
  assert (Ha : agree O' E s s').
  { split; intros x Hx; cbn; rewrite lookup_insert_ne; try done; set_solver. }
  assert (Hl' : owned_list s' (lst d) l O' E) by (by apply (proj1 (proj2 (owned_frame s s')))).
  split.
  - apply (owned_dict s' o (mk_odict (lst d ++ [fresh s]) t (refs d))); [cbn; by rewrite lookup_insert_eq|done|done| |done].
    rewrite <- (union_empty_r_L O'), <- (union_empty_r_L {[fresh s]}).
    eapply owned_snoc; [done|cbn; by rewrite lookup_insert_eq|done|by apply owned_scalar|clear -F2; set_solver..].
  - clear Ha Hl' Ht Hl Hh Ho Ew. split; cbn; try lia; try (clear; set_solver).
    + intros x Hx. rewrite lookup_insert_ne; [done|set_solver].
    + intros x Hx. rewrite lookup_insert_ne; [done|set_solver].
    + apply fresh_next; [done|..]; intros i Hi; destruct (Hf i ltac:(lia)) as [? ?]; rewrite lookup_insert_ne; try done; [|lia].
      intros <-. congruence.
Qed.

(** A new dictionary. *)
Lemma hash_alloc_cases {A} size : (exists h : hash A, hash_alloc alloc_ok size = (0, Some h)) \/
  (exists err, err <> 0 /\ hash_alloc alloc_ok size = (err, @None (hash A))).
Proof.
  unfold hash_alloc. repeat case_match; try (right; eexists; split; [|done]; done). left. by eexists.
Qed.

Lemma valid_size_range size : 0 <= hash_valid_size size < 2 ^ 32.
Proof.
  assert (H : forall fuel x, 0 <= x <= 31 -> 0 <= valid_size_loop fuel x size <= 31).
  { induction fuel as [|fuel IH]; intros x Hx; cbn; [done|]. destruct (_ && _) eqn:E; [|done]. apply andb_true_iff in E as [_ E]. apply IH. lia. }
  unfold hash_valid_size. specialize (H 31%nat 0 ltac:(lia)). rewrite Z.shiftl_1_l. split; [lia|]. apply Z.pow_lt_mono_r; lia.
Qed.

Lemma odict_alloc_run s hash_size : fresh_ok s -> 0 <= hash_size <= 2 ^ 31 ->
  exists err r s', odict_alloc alloc_ok hash_size s = Some ((err, r), s') /\
    ((forall n, alloc_ok n = true) -> 0 < hash_size -> err = 0) /\
    ((err <> 0 /\ r = None /\ s' = s) \/
     (err = 0 /\ r = Some (fresh s) /\ exists d, s' = mk_store (<[fresh s := d]> (odicts s)) (entries s) (S (fresh s)) /\
        lst d = [] /\ refs d = 1 /\ forall key, holds key (ht d) [])).
Proof.
  intros Hf Hs. unfold odict_alloc. destruct (Z.eqb_spec hash_size 0) as [->|H0].
  { exists EINVAL, None, s. split; [done|]. split; [lia|by left]. }
  destruct (alloc_ok 24) eqn:A1; cbn [negb].
  2: { exists ENOMEM, None, s. split; [done|]. split; [intros H; by rewrite H in A1|by left]. }
  destruct (hash_alloc_cases (A := nat) (hash_valid_size hash_size)) as [[h Eh]|(err & He & Eh)]; rewrite Eh.
  - exists 0, (Some (fresh s)). eexists. split; [done|]. split; [done|]. right. split; [done|]. split; [done|].
    exists (mk_odict [] h 1). split; [done|]. split; [done|]. split; [done|]. intros key.
    apply (alloc_holds key alloc_ok (hash_valid_size hash_size)); [apply valid_size_range|done].
  - exists err, None, s. split; [done|]. split; [|by left]. intros Ha _.
    destruct (hash_valid_size_ok (A := nat) alloc_ok hash_size Hs Ha) as [_ [h Eh']]. congruence.
Qed.

Lemma new_owned s d : fresh_ok s -> lst d = [] -> refs d = 1 -> (forall key, holds key (ht d) []) ->
  let s' := mk_store (<[fresh s := d]> (odicts s)) (entries s) (S (fresh s)) in
  owned s' (fresh s) [] {[fresh s]} ∅ /\ grown ∅ ∅ {[fresh s]} ∅ s s'.
Proof.
  clear alloc_ok place Hplace. intros Hf Hl Hr Hh s'. split.
  - replace {[fresh s]} with ({[fresh s]} ∪ ∅ : gset nat) by set_solver. apply (owned_dict s' _ d); [cbn; by rewrite lookup_insert_eq|done|..].
    + rewrite Hl. apply Hh.
    + rewrite Hl. constructor.
    + set_solver.
  - split; cbn; try (intros; set_solver); try lia.
    + intros x Hx. rewrite lookup_insert_ne; [done|set_solver].
    + apply fresh_next; [done|..]; intros i Hi; destruct (Hf i ltac:(lia)) as [? ?]; [rewrite lookup_insert_ne; [done|lia]|done].
Qed.

(** ** Release *)

(** The tree is gone, the rest of the store is as it was. *)
Record removed (O E : gset nat) (s s' : store D) : Prop := {
  rm_O : forall x, x ∈ O -> odicts s' !! x = None;
  rm_E : forall x, x ∈ E -> entries s' !! x = None;
  rm_odicts : forall x, x ∉ O -> odicts s' !! x = odicts s !! x;
  rm_entries : forall x, x ∉ E -> entries s' !! x = entries s !! x;
  rm_fresh : fresh s' = fresh s }.

Lemma removed_trans O1 E1 O2 E2 s s1 s2 : removed O1 E1 s s1 -> removed O2 E2 s1 s2 -> removed (O1 ∪ O2) (E1 ∪ E2) s s2.
Proof.
  intros [A1 A2 A3 A4 A5] [B1 B2 B3 B4 B5]. split; [..|congruence].
  - intros x Hx. destruct (decide (x ∈ O2)); [by apply B1|]. rewrite B3 by done. apply A1. clear -Hx n. set_solver.
  - intros x Hx. destruct (decide (x ∈ E2)); [by apply B2|]. rewrite B4 by done. apply A2. clear -Hx n. set_solver.
  - intros x Hx. rewrite B3, A3 by (clear -Hx; set_solver). done.
  - intros x Hx. rewrite B4, A4 by (clear -Hx; set_solver). done.
Qed.

Lemma removed_agree O E O' E' s s1 s2 : agree O' E' s s1 -> removed O E s1 s2 -> O ## O' -> E ## E' -> agree O' E' s s2.
Proof.
  intros [A1 A2] [_ _ B3 B4 _] H1 H2. split; intros x Hx; [rewrite B3, A1|rewrite B4, A2]; try done; clear -Hx H1 H2; set_solver.
Qed.

Lemma removed_entry s e : removed ∅ {[e]} s (set_entries (delete e (entries s)) s).
Proof.
  split; try done; cbn; intros x Hx.
  - apply elem_of_singleton in Hx as ->. apply lookup_delete_eq.
  - apply lookup_delete_ne. clear -Hx. set_solver.
Qed.
Lemma removed_odict s o : removed {[o]} ∅ s (set_odicts (delete o (odicts s)) s).
Proof.
  split; try done; cbn; intros x Hx.
  - apply elem_of_singleton in Hx as ->. apply lookup_delete_eq.
  - apply lookup_delete_ne. clear -Hx. set_solver.
Qed.

(** What the destructor does with an entry. *)
Definition free_entry (fuel : nat) (e : nat) : M (store D) unit :=
  en ← get_entry e;
  match e_val en with ODICT_OBJECT c | ODICT_ARRAY c => odict_deref fuel c | _ => mret tt end ;;
  modify (fun s => set_entries (delete e (entries s)) s).

Lemma deref_run s :
  (forall o l O E, owned s o l O E -> forall fuel s1, agree O E s s1 -> (depth_of l < fuel)%nat ->
     exists s2, odict_deref fuel o s1 = Some (tt, s2) /\ removed O E s1 s2) /\
  (forall es l O E, owned_list s es l O E -> forall fuel s1, agree O E s s1 -> (depth_of l <= fuel)%nat ->
     exists s2, for_each (free_entry fuel) es s1 = Some (tt, s2) /\ removed O E s1 s2) /\
  (forall v j O E, owned_value s v j O E -> forall fuel s1, agree O E s s1 -> (depth j <= fuel)%nat ->
     exists s2, (match v with ODICT_OBJECT c | ODICT_ARRAY c => odict_deref fuel c | _ => mret tt end) s1 = Some (tt, s2) /\ removed O E s1 s2).
Proof.
  clear alloc_ok place Hplace. apply owned_mutind.
  - intros o d l O E Hd Hr _ _ IH Ho [|fuel] s1 Ha Hf; [lia|]. cbn [odict_deref]. unfold get_od. unfold mbind at 1, M_bind at 1.
    rewrite (proj1 Ha o) by set_solver. rewrite Hd. cbn [mbind option_bind]. rewrite Hr. cbn [Z.ltb Z.compare Pos.compare Pos.compare_cont].
    destruct (IH fuel s1) as (s2 & E2 & R2); [apply (agree_sub _ _ _ _ _ _ Ha); set_solver|lia|].
    unfold free_entry in E2. unfold mbind at 1, M_bind at 1. rewrite E2. eexists. split; [done|].
    rewrite (union_comm_L {[o]}), <- (union_empty_r_L E). eapply removed_trans; [exact R2|apply removed_odict].
  - intros fuel s1 _ _. exists s1. split; [done|]. split; try done; clear; set_solver.
  - intros e k v j es l O1 E1 O2 E2 He Hk _ IHv _ IHl H1 H2 H3 H4 fuel s1 Ha Hf. cbn [depth_of foldr snd] in Hf.
    fold (depth_of l) in Hf. destruct (IHv fuel s1) as (s2 & E & R); [apply (agree_sub _ _ _ _ _ _ Ha); set_solver|lia|].
    assert (A2 : agree O2 E2 s s2).
    { apply (removed_agree O1 E1 O2 E2 s s1); [apply (agree_sub _ _ _ _ _ _ Ha); set_solver|done|done|done]. }
    set (s3 := set_entries (delete e (entries s2)) s2).
    assert (A3 : agree O2 E2 s s3) by (apply (removed_agree ∅ {[e]} O2 E2 s s2); [done|apply removed_entry|set_solver..]).
    destruct (IHl fuel s3 A3) as (s4 & E4 & R4); [lia|]. exists s4. split.
    + cbn [for_each]. unfold mbind, M_bind. replace (free_entry fuel e s1) with (Some (tt, s3)); [exact E4|].
      unfold free_entry, get_entry, mbind, M_bind. rewrite (proj2 Ha e) by set_solver. rewrite He. cbn [option_bind e_val]. by rewrite E.
    + pose proof (removed_trans _ _ _ _ _ _ _ (removed_trans _ _ _ _ _ _ _ R (removed_entry s2 e)) R4) as R5.
      replace (O1 ∪ O2) with (O1 ∪ ∅ ∪ O2) by (clear; set_solver).
      replace ({[e]} ∪ (E1 ∪ E2)) with (E1 ∪ {[e]} ∪ E2) by (clear; set_solver). exact R5.
  - intros o l O E _ IH fuel s1 Ha Hf. apply IH; [done|exact Hf].
  - intros o l O E _ IH fuel s1 Ha Hf. apply IH; [done|exact Hf].
  - intros v j Hv fuel s1 _ _. exists s1. split; [by destruct v|]. split; try done; clear; set_solver.
Qed.

(** ** Lookup *)

(** The entry of a key is the first one that was added. *)
Definition first_of (key : list Z) (l : list (list Z * jv D)) : option (jv D) := snd <$> find (fun kj => bool_decide (kj.1 = key)) l.

Lemma find_key_list s key (p : nat -> bool) es l O E : owned_list s es l O E ->
  (forall e en, e ∈ es -> entries s !! e = Some en -> e_key en = key -> p e = true) ->
  exists r, find_key (filter (fun e => p e = true) es) key s = Some (r, s) /\
    match r with
    | Some e => exists v j O' E', entries s !! e = Some (mk_entry key v) /\ first_of key l = Some j /\ owned_value s v j O' E'
    | None => first_of key l = None
    end.
Proof.
  intros Hl. induction Hl as [|e k v j es l O1 E1 O2 E2 He Hk Hv Hl IH _ _ _ _]; intros Hp; [by exists None|].
  destruct IH as (r & E & Hr); [intros e' en Hin; apply Hp; by right|]. rewrite filter_cons.
  unfold first_of in *. cbn [find fst]. destruct (decide (k = key)) as [->|Hne].
  - rewrite decide_True by (by apply (Hp e (mk_entry key v)); [left|..]). exists (Some e). cbn [find_key]. unfold get_entry, mbind, M_bind.
    rewrite He. cbn. rewrite bool_decide_true by done. split; [done|]. by exists v, j, O1, E1.
  - rewrite (bool_decide_false (k = key)) by done. exists r. split; [|done]. case_decide; [|done]. cbn [find_key]. unfold get_entry, mbind, M_bind.
    rewrite He. cbn. by rewrite bool_decide_false.
Qed.

Lemma lookup_run s o l O E addr key after : owned s o l O E -> is_bytes key -> is_bytes after -> (2 <= length after)%nat ->
  exists r, odict_lookup o addr key after s = Some (r, s) /\
    match r with
    | Some e => exists v j O' E', entries s !! e = Some (mk_entry key v) /\ first_of key l = Some j /\ owned_value s v j O' E'
    | None => first_of key l = None
    end.
Proof.
  intros Ho Hk Ha H2. destruct (owned_root _ _ _ _ _ Ho) as (_ & d & O' & Hd & _ & Hh & Hl & _).
  unfold odict_lookup, get_od, mbind, M_bind, of_option. rewrite Hd. cbn -[hash_fast_str]. rewrite hash_str by done. cbn -[hash_list].
  pose proof (index_lt (hk s) _ _ (khash key) Hh) as Hi. unfold hash_list. rewrite (hd_bucket _ _ _ Hh) by done.
  destruct (find_key_list s key (fun e => bool_decide (index (ht d) (hk s e) = index (ht d) (khash key))) (lst d) l O' E Hl) as (r & E1 & Hr).
  { intros e en _ He <-. apply bool_decide_eq_true. unfold hk. by rewrite He. }
  exists r. split; [|done]. rewrite <- E1. f_equal. apply list_filter_iff. intros x. by rewrite bool_decide_eq_true.
Qed.

End Operations.
