(* ===== verification/ReJson.v ===== *)
(** * JSON of libre

    Models re/src/json (decode.c, decode_odict.c, encode.c), the escapes of
    re/src/fmt/unicode.c and the dynamic print handler of re/src/fmt/print.c.
    A text is a list of bytes, a pointer into it an index.  [long double] is a
    parameter: its operations, with the laws a proof relies on. *)

From stdpp Require Import gmap.
From S2P Require Import Prelude Effects Libc Mbuf MbufProps Hash HashFunc Odict.
Import Mb Ht Hf Od.

Module Rj.

(** ** long double *)

(** [ld_i64]: the conversion to [int64_t], undefined outside its range;
    [ld_dbl]: the conversion to [double]. *)
Class LongDouble := {
  ld : Type;
  dbl : Type;
  ld_of : Z -> ld;
  ld_add : ld -> ld -> ld;
  ld_mul : ld -> ld -> ld;
  ld_div : ld -> ld -> ld;
  ld_opp : ld -> ld;
  ld_i64 : ld -> option Z;
  ld_dbl : ld -> dbl }.

(** Integers that fit into the mantissa are exact. *)
Class LongDoubleLaws `{LongDouble} (mant : Z) := {
  ld_mant : 53 <= mant;
  ld_add_exact x y : Z.abs x <= 2 ^ mant -> Z.abs y <= 2 ^ mant -> Z.abs (x + y) <= 2 ^ mant ->
    ld_add (ld_of x) (ld_of y) = ld_of (x + y);
  ld_mul_exact x y : Z.abs x <= 2 ^ mant -> Z.abs y <= 2 ^ mant -> Z.abs (x * y) <= 2 ^ mant ->
    ld_mul (ld_of x) (ld_of y) = ld_of (x * y);
  ld_opp_exact x : x <> 0 -> Z.abs x <= 2 ^ mant -> ld_opp (ld_of x) = ld_of (- x);
  ld_i64_exact x : Z.abs x <= 2 ^ mant -> - 2 ^ 63 <= x < 2 ^ 63 -> ld_i64 (ld_of x) = Some x }.

(** ** Unicode (unicode.c) *)

Definition QUOT : Z := 34.
Definition BSL : Z := 92.

Definition hex_chars : list Z := bytes_of "0123456789ABCDEF".
Definition hex_char (n : Z) : Z := default 0 (rd hex_chars n).

(** One character of [utf8_encode]. *)
Definition encode_char (c : Z) : list Z :=
  if c =? QUOT then [BSL; QUOT]
  else if c =? BSL then [BSL; BSL]
  else if c =? 47 then [BSL; 47]
  else if c =? 8 then [BSL; 98]
  else if c =? 12 then [BSL; 102]
  else if c =? 10 then [BSL; 110]
  else if c =? 13 then [BSL; 114]
  else if c =? 9 then [BSL; 116]
  else if c <? 32 then [BSL; 117; 48; 48; hex_char (Z.land (Z.shiftr c 4) 0xf); hex_char (Z.land c 0xf)]
  else [c].

Definition utf8_encode (str : list Z) : list Z := concat (map encode_char str).

Definition utf8_byteseq (cp : Z) : list Z :=
  if cp <=? 0x7f then [cp]
  else if cp <=? 0x7ff then [Z.lor 0xc0 (Z.land (Z.shiftr cp 6) 0x1f); Z.lor 0x80 (Z.land cp 0x3f)]
  else if cp <=? 0xffff then
    [Z.lor 0xe0 (Z.land (Z.shiftr cp 12) 0x0f); Z.lor 0x80 (Z.land (Z.shiftr cp 6) 0x3f); Z.lor 0x80 (Z.land cp 0x3f)]
  else if cp <=? 0x10ffff then
    [Z.lor 0xf0 (Z.land (Z.shiftr cp 18) 0x07); Z.lor 0x80 (Z.land (Z.shiftr cp 12) 0x3f);
     Z.lor 0x80 (Z.land (Z.shiftr cp 6) 0x3f); Z.lor 0x80 (Z.land cp 0x3f)]
  else [0xef; 0xbf; 0xbd].

Definition isxdigit (c : Z) : bool :=
  ((48 <=? c) && (c <=? 57)) || ((65 <=? c) && (c <=? 70)) || ((97 <=? c) && (c <=? 102)).

Definition ch_hex (c : Z) : Z :=
  if (48 <=? c) && (c <=? 57) then c - 48
  else if (65 <=? c) && (c <=? 70) then c - 65 + 10
  else if (97 <=? c) && (c <=? 102) then c - 97 + 10
  else 0.

(** [vph]: the print handler; [uhi]: the high surrogate, -1 without. *)
Fixpoint utf8_decode {S} (vph : list Z -> M S Z) (uhi : Z) (pl : list Z) : M S Z :=
  match pl with
  | [] => mret 0
  | ch :: pl =>
    if ch =? BSL then
      match pl with
      | [] => mret EBADMSG
      | ch :: pl =>
        if ch =? 117 then
          match pl with
          | h1 :: h2 :: h3 :: h4 :: pl =>
            if negb (isxdigit h1 && isxdigit h2 && isxdigit h3 && isxdigit h4) then mret EBADMSG else
            let u := Z.lor (Z.lor (Z.lor (Z.shiftl (ch_hex h1) 12) (Z.shiftl (ch_hex h2) 8)) (Z.shiftl (ch_hex h3) 4)) (ch_hex h4) in
            if (0xd800 <=? u) && (u <=? 0xdbff) then utf8_decode vph ((u - 0xd800) * 0x400) pl else
            if (0xdc00 <=? u) && (u <=? 0xdfff) && (uhi <? 0) then utf8_decode vph uhi pl else
            let u := if (0xdc00 <=? u) && (u <=? 0xdfff) then uhi + u - 0xdc00 + 0x10000 else u in
            err ← vph (utf8_byteseq u);
            if negb (err =? 0) then mret err else utf8_decode vph (-1) pl
          | _ => mret EBADMSG
          end
        else
          let ch := if ch =? 98 then 8 else if ch =? 102 then 12 else if ch =? 110 then 10
                    else if ch =? 114 then 13 else if ch =? 116 then 9 else ch in
          err ← vph [ch];
          if negb (err =? 0) then mret err else utf8_decode vph (-1) pl
      end
    else
      err ← vph [ch];
      if negb (err =? 0) then mret err else utf8_decode vph (-1) pl
  end.

(** ** Strings of unknown length (print.c) *)

(** [d_l]: the room that is left; [d_text]: what was printed. *)
Record dyn_print := mk_dyn { d_text : list Z; d_l : Z; d_size : Z }.

Section Alloc.
Context (alloc_ok : Z -> bool).

(** The text must end inside the memory. *)
Definition print_handler_dyn (p : list Z) : M dyn_print Z := fun dp =>
  let '(err, dp) :=
    if usz (d_l dp - 1) <? zlen p then
      let new_size := Z.max (d_size dp + zlen p) (d_size dp * 2) in
      if alloc_ok new_size then (0, mk_dyn (d_text dp) (d_l dp + (new_size - d_size dp)) new_size) else (ENOMEM, dp)
    else (0, dp) in
  if negb (err =? 0) then Some (err, dp) else
  if zlen p <=? d_l dp then Some (0, mk_dyn (d_text dp ++ p) (d_l dp - zlen p) (d_size dp)) else None.

(** The C string in a buffer of bytes. *)
Fixpoint cstr (l : list Z) : list Z :=
  match l with [] => [] | c :: l => if c =? 0 then [] else c :: cstr l end.

(** [re_sdprintf] with the format %H: the code and the string. *)
Definition sdprintf (ph : (list Z -> M dyn_print Z) -> M dyn_print Z) : option (Z * option (list Z)) :=
  if negb (alloc_ok 16) then Some (ENOMEM, None) else
  '(err, dp) ← ph print_handler_dyn (mk_dyn [] 16 16);
  if negb (err =? 0) then Some (err, None) else
  if 1 <=? d_l dp then Some (0, Some (cstr (d_text dp))) else None.

(** ** Tokens (decode.c) *)

Context `{LongDouble}.

Inductive json_value := JSON_STRING (s : list Z) | JSON_INT (i : Z) | JSON_DOUBLE (d : dbl) | JSON_BOOL (b : bool) | JSON_NULL.

Fixpoint power_loop (fuel : nat) (e : Z) (p n : ld) : ld :=
  match fuel with
  | O => n
  | S fuel =>
    if 0 <? e then
      power_loop fuel (Z.shiftr e 1) (ld_mul p p) (if Z.land e 1 =? 0 then n else ld_mul n p)
    else n
  end.
Definition mypower10 (e : Z) : ld := power_loop 64 e (ld_of 10) (ld_of 1).

Definition is_string (pl : list Z) : option (list Z) :=
  if zlen pl <? 2 then None else
  match rd pl 0, rd pl (zlen pl - 1) with
  | Some a, Some b => if (a =? QUOT) && (b =? QUOT) then Some (take (length pl - 2) (drop 1 pl)) else None
  | _, _ => None
  end.

Record numst := mk_num { n_neg : bool; n_pos : bool; n_frac : bool; n_exp : bool; n_v : ld; n_mul : ld; n_e : Z }.

(** The characters from the last to the first; [None]: a conversion outside
    the range of [int64_t], [Some None]: not a number. *)
Fixpoint number_loop (l : list Z) (s : numst) : option (option numst) :=
  match l with
  | [] => Some (Some s)
  | ch :: l =>
    if (ch =? 101) || (ch =? 69) then
      if n_exp s || n_frac s then Some None else
      e ← ld_i64 (if n_neg s then ld_opp (n_v s) else n_v s);
      number_loop l (mk_num false false (n_frac s) true (ld_of 0) (ld_of 1) e)
    else if n_pos s || n_neg s then Some None
    else if ch =? 46 then
      if n_frac s then Some None else
      number_loop l (mk_num (n_neg s) (n_pos s) true (n_exp s) (ld_div (n_v s) (n_mul s)) (ld_of 1) (n_e s))
    else if (48 <=? ch) && (ch <=? 57) then
      number_loop l (mk_num (n_neg s) (n_pos s) (n_frac s) (n_exp s)
        (ld_add (n_v s) (ld_mul (n_mul s) (ld_of (ch - 48)))) (ld_mul (n_mul s) (ld_of 10)) (n_e s))
    else if ch =? 45 then number_loop l (mk_num true (n_pos s) (n_frac s) (n_exp s) (n_v s) (n_mul s) (n_e s))
    else if ch =? 43 then number_loop l (mk_num (n_neg s) true (n_frac s) (n_exp s) (n_v s) (n_mul s) (n_e s))
    else Some None
  end.

(** The value and whether it is a floating-point number. *)
Definition is_number (pl : list Z) : option (option (ld * bool)) :=
  if zlen pl =? 0 then Some None else
  r ← number_loop (rev pl) (mk_num false false false false (ld_of 0) (ld_of 1) 0);
  match r with
  | None => Some None
  | Some s =>
    v ← (if n_exp s then
           if n_e s <? 0 then
             if n_e s =? - 2 ^ 63 then None else Some (ld_div (n_v s) (mypower10 (- n_e s)))
           else Some (ld_mul (n_v s) (mypower10 (n_e s)))
         else Some (n_v s));
    Some (Some (if n_neg s then ld_opp v else v, n_frac s || n_exp s))
  end.

Definition pl_strcasecmp (pl str : list Z) : bool := bool_decide (map lower pl = map lower str).

(** [None] inside: the pointer is NULL. *)
Definition decode_name (pl : option (list Z)) : option (Z * option (list Z)) :=
  match pl with
  | None => Some (EBADMSG, None)
  | Some pl =>
    match is_string pl with
    | None => Some (EBADMSG, None)
    | Some s => sdprintf (fun vph => utf8_decode vph (-1) s)
    end
  end.

Definition decode_value (pl : list Z) : option (Z * option json_value) :=
  match is_string pl with
  | Some s => r ← sdprintf (fun vph => utf8_decode vph (-1) s); Some (fst r, option_map JSON_STRING (snd r))
  | None =>
    n ← is_number pl;
    match n with
    | Some (v, true) => Some (0, Some (JSON_DOUBLE (ld_dbl v)))
    | Some (v, false) => i ← ld_i64 v; Some (0, Some (JSON_INT i))
    | None =>
      if pl_strcasecmp pl (bytes_of "false") then Some (0, Some (JSON_BOOL false))
      else if pl_strcasecmp pl (bytes_of "true") then Some (0, Some (JSON_BOOL true))
      else if pl_strcasecmp pl (bytes_of "null") then Some (0, Some JSON_NULL)
      else Some (EBADMSG, None)
    end
  end.

(** ** The decoder *)

Section Decoder.
Context {S A : Type}.

(** The handlers; one that starts a container may replace the argument of the
    handlers for what is in it. *)
Record json_handlers := mk_handlers {
  h_oh : option (option (list Z) -> Z -> A -> M S (Z * A));
  h_ah : option (option (list Z) -> Z -> A -> M S (Z * A));
  h_oeh : option (list Z -> json_value -> A -> M S Z);
  h_aeh : option (Z -> json_value -> A -> M S Z) }.
Context (h : json_handlers) (maxdepth : Z) (text : list Z).

Definition object_entry (pl_name : option (list Z)) (pl_val : list Z) (arg : A) : M S Z :=
  '(err, name) ← of_option (decode_name pl_name);
  match name with
  | None => mret err
  | Some name =>
    '(err, val) ← of_option (decode_value pl_val);
    match val with
    | None => mret err
    | Some val => match h_oeh h with Some f => f name val arg | None => mret 0 end
    end
  end.

Definition array_entry (idx : Z) (pl_val : list Z) (arg : A) : M S Z :=
  '(err, val) ← of_option (decode_value pl_val);
  match val with
  | None => mret err
  | Some val => match h_aeh h with Some f => f idx val arg | None => mret 0 end
  end.

(** [object_start] and [array_start], with the handler of the container. *)
Definition container_start (f : option (option (list Z) -> Z -> A -> M S (Z * A))) (pl_name : option (list Z)) (idx : Z) (arg : A)
  : M S (Z * A) :=
  '(err, name) ← of_option (match pl_name with None => Some (0, None) | Some _ => decode_name pl_name end);
  if negb (err =? 0) then mret (err, arg) else
  match f with Some f => f name idx arg | None => mret (0, arg) end.
Definition object_start := container_start (h_oh h).
Definition array_start := container_start (h_ah h).

(** The variables of [_json_decode]; [s_name]: the text of the name; [s_val]:
    where the value begins. *)
Record jstate := mk_js {
  s_esc : bool; s_inquot : bool; s_inobj : bool; s_inarray : bool;
  s_name : option (list Z); s_val : option Z; s_ws : Z; s_idx : Z }.
Definition js_init : jstate := mk_js false false false false None None 0 0.

(** [chkval]: the value up to index [p]. *)
Definition chkval (val : option Z) (p : Z) : option (list Z) :=
  b ← val; if p <? b then None else slice text b (p - b).

Definition upd_quot (esc inquot : bool) (s : jstate) : jstate :=
  mk_js esc inquot (s_inobj s) (s_inarray s) (s_name s) (s_val s) (s_ws s) (s_idx s).
(** The name and the value after a separator. *)
Definition upd_name (name : option (list Z)) (s : jstate) : jstate :=
  mk_js (s_esc s) (s_inquot s) (s_inobj s) (s_inarray s) name None (s_ws s) (s_idx s).
Definition next_idx (s : jstate) : jstate :=
  mk_js (s_esc s) (s_inquot s) (s_inobj s) (s_inarray s) (s_name s) (s_val s) (s_ws s) (u32 (s_idx s + 1)).
Definition drop_name (s : jstate) : jstate :=
  mk_js (s_esc s) (s_inquot s) (s_inobj s) (s_inarray s) None (s_val s) (s_ws s) (s_idx s).
Definition more_ws (s : jstate) : jstate :=
  mk_js (s_esc s) (s_inquot s) (s_inobj s) (s_inarray s) (s_name s) (s_val s) (s_ws s + 1) (s_idx s).
Definition begin_val (p : Z) (quot : bool) (s : jstate) : jstate :=
  mk_js (s_esc s) quot (s_inobj s) (s_inarray s) (s_name s) (Some p) 0 (s_idx s).
Definition enter_obj (s : jstate) : jstate :=
  mk_js (s_esc s) (s_inquot s) true (s_inarray s) (s_name s) (s_val s) (s_ws s) (s_idx s).
Definition enter_array (s : jstate) : jstate :=
  mk_js (s_esc s) (s_inquot s) (s_inobj s) true (s_name s) (s_val s) (s_ws s) 0.

(** [_json_decode] from the state of its variables on: the code, and where
    [*str] is then. *)
Fixpoint json_loop (fuel : nat) (str len depth : Z) (s : jstate) (arg : A) : M S (Z * Z * Z) :=
  match fuel with
  | O => ub
  | Datatypes.S fuel =>
    if len <=? 0 then mret (if s_inobj s || s_inarray s then EBADMSG else 0, str, len) else
    ch ← of_option (rd text str);
    let next := fun s => json_loop fuel (str + 1) (len - 1) depth s arg in
    if s_inquot s then
      if s_esc s then next (upd_quot false true s)
      else if ch =? QUOT then next (upd_quot false false s)
      else if ch =? BSL then next (upd_quot true true s)
      else next s
    else if ch =? 58 then
      if negb (s_inobj s) || bool_decide (is_Some (s_name s)) then mret (EBADMSG, str, len) else
      match chkval (s_val s) (str - s_ws s) with
      | None => mret (EBADMSG, str, len)
      | Some val => next (upd_name (Some val) s)
      end
    else if ch =? 44 then
      match chkval (s_val s) (str - s_ws s) with
      | None => next s
      | Some val =>
        if s_inobj s then
          if bool_decide (s_name s = None) then mret (EBADMSG, str, len) else
          err ← object_entry (s_name s) val arg;
          if negb (err =? 0) then mret (err, str, len) else next (upd_name None s)
        else if s_inarray s then
          err ← array_entry (s_idx s) val arg;
          if negb (err =? 0) then mret (err, str, len) else next (upd_name None (next_idx s))
        else mret (EBADMSG, str, len)
      end
    else if (ch =? 123) || (ch =? 91) then
      if s_inobj s || s_inarray s then
        if maxdepth <=? depth then mret (EOVERFLOW, str, len) else
        if s_inobj s && bool_decide (s_name s = None) then mret (EBADMSG, str, len) else
        '(err, arg') ← (if ch =? 123 then object_start else array_start) (s_name s) (s_idx s) arg;
        if negb (err =? 0) then mret (err, str, len) else
        '(err, str, len) ← json_loop fuel str len (depth + 1) js_init arg';
        if negb (err =? 0) then mret (err, str, len) else
        let s := drop_name s in
        json_loop fuel (str + 1) (len - 1) depth (if s_inarray s then next_idx s else s) arg
      else next (if ch =? 123 then enter_obj s else enter_array s)
    else if ch =? 125 then
      if negb (s_inobj s) then mret (EBADMSG, str, len) else
      match chkval (s_val s) (str - s_ws s) with
      | None => mret (0, str, len)
      | Some val =>
        if bool_decide (s_name s = None) then mret (EBADMSG, str, len) else
        err ← object_entry (s_name s) val arg; mret (err, str, len)
      end
    else if ch =? 93 then
      if negb (s_inarray s) then mret (EBADMSG, str, len) else
      match chkval (s_val s) (str - s_ws s) with
      | None => mret (0, str, len)
      | Some val => err ← array_entry (s_idx s) val arg; mret (err, str, len)
      end
    else if (ch =? 32) || (ch =? 9) || (ch =? 13) || (ch =? 10) then next (more_ws s)
    else if bool_decide (is_Some (s_val s)) then next s
    else next (begin_val str (ch =? QUOT) s)
  end.

(** Every character is seen at most twice. *)
Definition json_decode (arg : A) : M S Z :=
  '(err, _, _) ← json_loop (Z.to_nat (2 * zlen text) + 2) 0 (zlen text) 0 js_init arg;
  mret err.

End Decoder.

(** ** Decoding to a dictionary (decode_odict.c) *)

Section Dict.
Context (place : nat -> Z * list Z).
Abbreviation OM := (M (store dbl)).

(** [%u] of an index. *)
Definition index_name (idx : Z) : list Z := dec_digits 20 (u32 idx) [].

Definition container_add (type : nat -> value dbl) (name : option (list Z)) (idx : Z) (o : nat) : OM (Z * nat) :=
  d ← get_od o;
  '(err, oc) ← odict_alloc alloc_ok (hash_bsize (ht d));
  match oc with
  | None => mret (err, o)
  | Some oc =>
    err ← odict_entry_add alloc_ok place o (default (index_name idx) name) (type oc);
    odict_deref 1 oc ;;
    mret (err, oc)
  end.

Definition entry_add (o : nat) (name : list Z) (val : json_value) : OM Z :=
  odict_entry_add alloc_ok place o name
    match val with
    | JSON_STRING s => ODICT_STRING s
    | JSON_INT i => ODICT_INT i
    | JSON_DOUBLE d => ODICT_DOUBLE d
    | JSON_BOOL b => ODICT_BOOL b
    | JSON_NULL => ODICT_NULL
    end.

Definition object_handler := container_add ODICT_OBJECT.
Definition array_handler := container_add ODICT_ARRAY.
Definition object_entry_handler (name : list Z) (val : json_value) (o : nat) : OM Z := entry_add o name val.
Definition array_entry_handler (idx : Z) (val : json_value) (o : nat) : OM Z := entry_add o (index_name idx) val.

Definition odict_handlers : json_handlers :=
  mk_handlers (Some object_handler) (Some array_handler) (Some object_entry_handler) (Some array_entry_handler).

(** The dictionary of a text that is refused is freed. *)
Definition json_decode_odict (hash_size : Z) (text : list Z) (maxdepth : Z) : OM (Z * option nat) :=
  '(err, o) ← odict_alloc alloc_ok hash_size;
  match o with
  | None => mret (err, None)
  | Some o =>
    err ← json_decode odict_handlers maxdepth text o;
    if err =? 0 then mret (0, Some o)
    else odict_deref (Z.to_nat maxdepth + 2) o ;; mret (err, None)
  end.

End Dict.

(** ** Printing a dictionary (encode.c) *)

Section Encode.
(** The text that [%f] gives for a [double]: it is computed with the
    operations of the type, which are not modelled. *)
Context (print_f : dbl -> list Z).
Abbreviation OM := (M (store dbl)).

Definition comma (last : bool) : list Z := if last then [] else [44].

(** The entries of a container; [enc]: the encoder of an entry. *)
Fixpoint encode_items (enc : nat -> OM (list Z)) (key : bool) (l : list nat) : OM (list Z) :=
  match l with
  | [] => mret []
  | e :: l =>
    en ← get_entry e;
    v ← enc e;
    rest ← encode_items enc key l;
    mret ((if key then [QUOT] ++ utf8_encode (e_key en) ++ [QUOT; 58] else []) ++ v ++ comma (bool_decide (l = [])) ++ rest)
  end.

(** [%lld] of libre: a negative value is negated first, which overflows for
    the least one (fmt/print.c). *)
Definition print_lld (i : Z) : OM (list Z) := if i =? - 2 ^ 63 then ub else mret (lld i).

(** The text goes to a print handler that accepts it; [fuel] bounds the depth
    of the nesting. *)
Fixpoint encode_entry (fuel : nat) (e : nat) : OM (list Z) :=
  match fuel with
  | O => ub
  | Datatypes.S fuel =>
    en ← get_entry e;
    match e_val en with
    | ODICT_OBJECT o => d ← get_od o; t ← encode_items (encode_entry fuel) true (lst d); mret ([123] ++ t ++ [125])
    | ODICT_ARRAY o => d ← get_od o; t ← encode_items (encode_entry fuel) false (lst d); mret ([91] ++ t ++ [93])
    | ODICT_INT i => print_lld i
    | ODICT_DOUBLE d => mret (print_f d)
    | ODICT_STRING s => mret ([QUOT] ++ utf8_encode s ++ [QUOT])
    | ODICT_BOOL b => mret (bytes_of (if b then "true" else "false"))
    | ODICT_NULL => mret (bytes_of "null")
    end
  end.

Definition json_encode_odict (fuel : nat) (o : nat) : OM (list Z) :=
  d ← get_od o; t ← encode_items (encode_entry fuel) true (lst d); mret ([123] ++ t ++ [125]).

End Encode.

End Alloc.

End Rj.
