(* ===== verification/ReJsonTokens.v ===== *)
(** * Tokens of libre's JSON

    Strings are unescaped to what was escaped, and integers read to what was
    printed. *)

From stdpp Require Import gmap.
From S2P Require Import Prelude Effects Libc Mbuf MbufProps Codec Hash HashFunc Odict ReJson.
Import Mb Ht Hf Od Rj.

(** ** Unescaping *)

(** A print handler that keeps the text. *)
Definition collect (p : list Z) : M (list Z) Z := fun out => Some (0, out ++ p).

Definition unescape (s : list Z) : option (Z * list Z) := utf8_decode collect (-1) s [].

Lemma length_ind {A} (P : list A -> Prop) :
  (forall l, (forall l', (length l' < length l)%nat -> P l') -> P l) -> forall l, P l.
Proof.
  intros H l. remember (length l) as n eqn:Hn. revert l Hn. induction n as [n IH] using lt_wf_ind. intros l ->.
  apply H. intros l' Hl. by apply (IH (length l')).
Qed.

Section Dyn.
Context (alloc_ok : Z -> bool).

Definition dyn_ok (dp : dyn_print) : Prop := 1 <= d_l dp /\ 0 <= d_size dp.

Lemma dyn_put p dp : dyn_ok dp -> exists err dp', print_handler_dyn alloc_ok p dp = Some (err, dp') /\ dyn_ok dp' /\
  ((forall n, alloc_ok n = true) -> err = 0) /\ (err = 0 \/ err = ENOMEM) /\ (err = 0 -> d_text dp' = d_text dp ++ p).
Proof.
  intros [Hl Hs]. unfold print_handler_dyn. pose proof (zlen_nonneg p) as Hp.
  assert (Hm : usz (d_l dp - 1) <= d_l dp - 1) by (apply Z.mod_le; lia).
  destruct (Z.ltb_spec (usz (d_l dp - 1)) (zlen p)) as [Hlt|Hge].
  - destruct (alloc_ok _) eqn:Ea; cbn [negb Z.eqb].
    + cbn [d_l]. set (new := Z.max _ _). replace (zlen p <=? _) with true by lia. eexists 0, _. split; [done|]. split; [|by split_and!; [..|left|]].
      split; cbn; lia.
    + exists ENOMEM, dp. split; [done|]. split; [done|]. split; [intros H; by rewrite H in Ea|]. split; [by right|done].
  - cbn [negb Z.eqb]. replace (zlen p <=? d_l dp) with true by lia. eexists 0, _. split; [done|]. split; [|by split_and!; [..|left|]]. split; cbn; lia.
Qed.

(** The dynamic handler prints what the collecting one keeps, or runs out of
    memory. *)
Lemma dyn_collect l : forall uhi dp err out, dyn_ok dp -> utf8_decode collect uhi l (d_text dp) = Some (err, out) ->
  exists err' dp', utf8_decode (print_handler_dyn alloc_ok) uhi l dp = Some (err', dp') /\ dyn_ok dp' /\
    ((forall n, alloc_ok n = true) -> err' = err) /\ (err' = err \/ err' = ENOMEM) /\ (err' = 0 -> err = 0 /\ d_text dp' = out).
Proof.
  induction l as [l IH] using length_ind. intros uhi dp err out Hd.
  assert (Hput : forall p l' u', (length l' < length l)%nat -> utf8_decode collect u' l' (d_text dp ++ p) = Some (err, out) ->
    exists err' dp', (e ← print_handler_dyn alloc_ok p; if negb (e =? 0) then mret e else utf8_decode (print_handler_dyn alloc_ok) u' l') dp = Some (err', dp') /\
      dyn_ok dp' /\ ((forall n, alloc_ok n = true) -> err' = err) /\ (err' = err \/ err' = ENOMEM) /\ (err' = 0 -> err = 0 /\ d_text dp' = out)).
  { intros p l' u' Hl Hr. destruct (dyn_put p dp Hd) as (e & dp1 & E1 & Hd1 & Ha & He & Ht). unfold mbind, M_bind. rewrite E1.
    destruct (Z.eqb_spec e 0) as [->|Hne]; cbn [negb].
    - rewrite <- (Ht eq_refl) in Hr. by apply (IH l' Hl u' dp1).
    - exists e, dp1. split; [done|]. split; [done|]. split; [intros H; by rewrite (Ha H) in Hne|]. split; [right; by destruct He|done]. }
  assert (Hret : forall e, Some (e, d_text dp) = Some (err, out) -> exists err' dp', Some (e, dp) = Some (err', dp') /\ dyn_ok dp' /\
    ((forall n, alloc_ok n = true) -> err' = err) /\ (err' = err \/ err' = ENOMEM) /\ (err' = 0 -> err = 0 /\ d_text dp' = out)).
  { intros e [= -> <-]. exists err, dp. split; [done|]. split; [done|]. split; [done|]. split; [by left|done]. }
  destruct l as [|c l]; [by apply Hret|]. cbn [utf8_decode]. destruct (c =? BSL).
  - destruct l as [|c' l]; [by apply Hret|]. destruct (c' =? 117).
    + destruct l as [|h1 [|h2 [|h3 [|h4 l]]]]; try (by apply Hret). destruct (negb _); [by apply Hret|]. cbv zeta.
      destruct (_ && _); [apply IH; [cbn; lia|done]|]. destruct (_ && _ && _); [apply IH; [cbn; lia|done]|].
      intros Hr. apply Hput; [cbn; lia|exact Hr].
    + intros Hr. apply Hput; [cbn; lia|exact Hr].
  - intros Hr. apply Hput; [cbn; lia|exact Hr].
Qed.

End Dyn.

(** What escaped characters come to. *)
Lemma decode_char c rest out : 1 <= c < 256 -> utf8_decode collect (-1) (encode_char c ++ rest) out = utf8_decode collect (-1) rest (out ++ [c]).
Proof.
  intros Hc. destruct (decide (c < 32)) as [Hlow|Hhigh].
  - revert c Hc Hlow. enough (H : forall c, 1 <= c < 1 + 31 -> utf8_decode collect (-1) (encode_char c ++ rest) out = utf8_decode collect (-1) rest (out ++ [c]))
      by (intros c Hc Hl; apply H; lia).
    apply z_enum. cbn. repeat (constructor; [reflexivity|]). constructor.
  - unfold encode_char. destruct (Z.eqb_spec c QUOT) as [->|N1]; [reflexivity|]. destruct (Z.eqb_spec c BSL) as [->|N2]; [reflexivity|].
    destruct (Z.eqb_spec c 47) as [->|N3]; [reflexivity|]. replace (c =? 8) with false by lia. replace (c =? 12) with false by lia.
    replace (c =? 10) with false by lia. replace (c =? 13) with false by lia. replace (c =? 9) with false by lia. replace (c <? 32) with false by lia.
    cbn [app utf8_decode]. by rewrite (proj2 (Z.eqb_neq _ _) N2).
Qed.

Lemma decode_escaped s : Forall (fun c => 1 <= c < 256) s -> unescape (utf8_encode s) = Some (0, s).
Proof.
  intros H. unfold unescape. enough (G : forall out, utf8_decode collect (-1) (utf8_encode s) out = Some (0, out ++ s)) by (by rewrite G).
  induction H as [|c s Hc Hs IH]; intros out; cbn; [by rewrite app_nil_r|]. unfold utf8_encode in *. cbn [map concat].
  rewrite decode_char by done. rewrite IH, <- app_assoc. done.
Qed.

(** ** Bytes *)

Lemma lor_byte hi m n : 0 <= n -> 0 <= m < 2 ^ n -> 0 <= hi -> (hi + 1) * 2 ^ n <= 256 -> 0 <= Z.lor (Z.shiftl hi n) m < 256.
Proof. intros Hn Hm Hh H. rewrite lor_add by done. nia. Qed.

Lemma byteseq_bytes cp : 0 <= cp -> is_bytes (utf8_byteseq cp).
Proof.
  intros Hc. unfold utf8_byteseq, is_bytes.
  assert (M : forall x k m, 0 <= k -> m = 2 ^ k - 1 -> 0 <= Z.land x m < 2 ^ k).
  { intros x k m Hk ->. rewrite (land_mask _ _ k) by done. apply Z.mod_pos_bound. apply Z.pow_pos_nonneg; lia. }
  assert (C : forall x, 0 <= Z.lor 0x80 (Z.land x 0x3f) < 256) by (intros x; apply (lor_byte 2 _ 6); [lia|by apply M|lia..]).
  destruct (Z.leb_spec cp 0x7f); [by repeat constructor; lia|]. destruct (cp <=? 0x7ff); [|destruct (cp <=? 0xffff); [|destruct (cp <=? 0x10ffff)]].
  - repeat constructor; try apply C; apply (lor_byte 6 _ 5); try lia; by apply M.
  - repeat constructor; try apply C; apply (lor_byte 14 _ 4); try lia; by apply M.
  - repeat constructor; try apply C; apply (lor_byte 30 _ 3); try lia; by apply M.
  - repeat constructor; lia.
Qed.

Lemma ch_hex_range c : 0 <= ch_hex c < 16.
Proof. unfold ch_hex. repeat case_match; lia. Qed.

Lemma unescape_bytes l : forall uhi out err out', is_bytes l -> is_bytes out -> -1 <= uhi -> utf8_decode collect uhi l out = Some (err, out') -> is_bytes out'.
Proof.
  induction l as [l IH] using length_ind. intros uhi out err out' Hl Ho Hu.
  assert (Hput : forall p l', (length l' < length l)%nat -> is_bytes l' -> is_bytes p -> utf8_decode collect (-1) l' (out ++ p) = Some (err, out') -> is_bytes out').
  { intros p l' Hlen Hl' Hp. apply IH; [done|done|by apply Forall_app|lia]. }
  destruct l as [|c l]; [by intros [= _ <-]|]. apply Forall_cons in Hl as [Hc Hl]. cbn [utf8_decode]. destruct (c =? BSL).
  2: { apply Hput; [cbn; lia|done|by constructor]. }
  destruct l as [|c' l]; [by intros [= _ <-]|]. apply Forall_cons in Hl as [Hc' Hl]. destruct (c' =? 117).
  2: { apply Hput; [cbn; lia|done|]. constructor; [|constructor]. repeat case_match; lia. }
  destruct l as [|h1 [|h2 [|h3 [|h4 l]]]]; try (by intros [= _ <-]). destruct (negb _); [by intros [= _ <-]|].
  do 4 apply Forall_cons in Hl as [_ Hl]. set (u := Z.lor _ _). assert (Hu0 : 0 <= u).
  { pose proof (ch_hex_range h1). pose proof (ch_hex_range h2). pose proof (ch_hex_range h3). pose proof (ch_hex_range h4).
    unfold u. rewrite !Z.lor_nonneg, !Z.shiftl_nonneg. lia. }
  destruct (_ && _) eqn:E1; [apply IH; [cbn; lia|done|done|lia]|]. destruct (_ && _ && _) eqn:E2; [apply IH; [cbn; lia|done|done|done]|].
  apply Hput; [cbn; lia|done|]. apply byteseq_bytes. destruct ((0xdc00 <=? u) && (u <=? 0xdfff)) eqn:E3; [|done].
  cbn in E2. apply andb_true_iff in E3 as [? ?]. lia.
Qed.

Lemma unescape_total l : forall uhi out, exists err out', utf8_decode collect uhi l out = Some (err, out').
Proof.
  induction l as [l IH] using length_ind. intros uhi out. destruct l as [|c l]; [by eauto|]. cbn [utf8_decode]. destruct (c =? BSL).
  2: { apply IH. cbn. lia. }
  destruct l as [|c' l]; [by do 2 eexists|]. destruct (c' =? 117).
  2: { apply IH. cbn. lia. }
  destruct l as [|h1 [|h2 [|h3 [|h4 l]]]]; try (by do 2 eexists). destruct (negb _); [by do 2 eexists|]. cbv zeta.
  destruct (_ && _); [apply IH; cbn; lia|]. destruct (_ && _ && _); apply IH; cbn; lia.
Qed.

(** ** C strings *)

Lemma cstr_id s : Forall (fun c => 1 <= c < 256) s -> cstr s = s.
Proof. induction 1 as [|c s Hc Hs IH]; [done|]. cbn. replace (c =? 0) with false by lia. by rewrite IH. Qed.

Lemma cstr_bytes s : is_bytes s -> Forall (fun c => 1 <= c < 256) (cstr s).
Proof.
  induction 1 as [|c s Hc Hs IH]; cbn; [constructor|]. destruct (Z.eqb_spec c 0); [constructor|]. constructor; [lia|done].
Qed.

Lemma nonzero_bytes s : Forall (fun c => 1 <= c < 256) s -> is_bytes s.
Proof. intros H. eapply Forall_impl; [exact H|]. cbn. lia. Qed.

Section Strings.
Context (alloc_ok : Z -> bool).

Lemma sdprintf_run s : is_bytes s -> exists err r, sdprintf alloc_ok (fun vph => utf8_decode vph (-1) s) = Some (err, r) /\
  (err = 0 -> exists str, r = Some str /\ Forall (fun c => 1 <= c < 256) str) /\ (err <> 0 -> r = None).
Proof.
  intros Hs. unfold sdprintf. destruct (alloc_ok 16); cbn [negb]; [|by exists ENOMEM, None].
  destruct (unescape_total s (-1) []) as (e & out & E). pose proof (unescape_bytes s (-1) [] e out Hs ltac:(constructor) ltac:(lia) E) as Hb.
  destruct (dyn_collect alloc_ok s (-1) (mk_dyn [] 16 16) e out) as (err & dp & -> & [Hl _] & _ & _ & H0); [split; cbn; lia|done|].
  cbn [mbind option_bind]. destruct (Z.eqb_spec err 0) as [->|Hne]; cbn [negb].
  - replace (1 <=? d_l dp) with true by lia. eexists 0, _. split; [done|]. split; [|done]. intros _. eexists. split; [done|].
    destruct (H0 eq_refl) as [_ ->]. by apply cstr_bytes.
  - by exists err, None.
Qed.

(** A string survives escaping and unescaping. *)
Lemma sdprintf_escaped s : (forall n, alloc_ok n = true) -> Forall (fun c => 1 <= c < 256) s ->
  sdprintf alloc_ok (fun vph => utf8_decode vph (-1) (utf8_encode s)) = Some (0, Some s).
Proof.
  intros Ha Hs. unfold sdprintf. rewrite Ha. cbn [negb]. pose proof (decode_escaped s Hs) as E.
  destruct (dyn_collect alloc_ok (utf8_encode s) (-1) (mk_dyn [] 16 16) 0 s) as (err & dp & -> & [Hl _] & H & _ & H0); [split; cbn; lia|exact E|].
  rewrite (H Ha) in *. cbn [mbind option_bind negb Z.eqb]. replace (1 <=? d_l dp) with true by lia. destruct (H0 eq_refl) as [_ ->]. by rewrite cstr_id.
Qed.

Lemma is_string_quoted s : is_string ([QUOT] ++ s ++ [QUOT]) = Some s.
Proof.
  unfold is_string. assert (Hz : zlen ([QUOT] ++ s ++ [QUOT]) = zlen s + 2) by (rewrite !zlen_app; change (zlen [QUOT]) with 1; lia). rewrite Hz.
  pose proof (zlen_nonneg s). replace (zlen s + 2 <? 2) with false by lia.
  assert (E0 : rd ([QUOT] ++ s ++ [QUOT]) 0 = Some QUOT) by done. rewrite E0.
  assert (E1 : rd ([QUOT] ++ s ++ [QUOT]) (zlen s + 2 - 1) = Some QUOT).
  { unfold rd. replace (0 <=? _) with true by lia. replace (Z.to_nat _) with (S (length s)) by (unfold zlen; lia).
    change (([QUOT] ++ s ++ [QUOT]) !! S (length s)) with ((s ++ [QUOT]) !! length s). by rewrite lookup_app_r, Nat.sub_diag by done. }
  rewrite E1. cbn [Z.eqb Pos.eqb andb QUOT]. f_equal. cbn [app drop]. rewrite !length_cons, length_app. cbn [length].
  replace (S (length s + 1) - 2)%nat with (length s) by lia. rewrite drop_0. by rewrite take_app_length.
Qed.

Context `{LongDouble}.

Lemma decode_value_string s : (forall n, alloc_ok n = true) -> Forall (fun c => 1 <= c < 256) s ->
  decode_value alloc_ok ([QUOT] ++ utf8_encode s ++ [QUOT]) = Some (0, Some (JSON_STRING s)).
Proof. intros Ha Hs. unfold decode_value. rewrite is_string_quoted. by rewrite sdprintf_escaped. Qed.

Lemma decode_name_string s : (forall n, alloc_ok n = true) -> Forall (fun c => 1 <= c < 256) s ->
  decode_name alloc_ok (Some ([QUOT] ++ utf8_encode s ++ [QUOT])) = Some (0, Some s).
Proof. intros Ha Hs. unfold decode_name. rewrite is_string_quoted. by apply sdprintf_escaped. Qed.

(** ** Integers *)

Context (mant : Z) `{!LongDoubleLaws mant}.

(** The digits from the last to the first. *)
Definition low_digits (fuel : nat) (z : Z) : list Z := rev (dec_digits fuel z []).

Lemma dec_digits_acc fuel z acc : dec_digits fuel z acc = dec_digits fuel z [] ++ acc.
Proof.
  revert z acc. induction fuel as [|fuel IH]; intros z acc; cbn; [done|]. destruct (z <? 10); [done|].
  rewrite IH, (IH _ [_]), <- app_assoc. done.
Qed.

Lemma low_digits_step fuel z : low_digits (S fuel) z = (48 + z mod 10) :: (if z <? 10 then [] else low_digits fuel (z / 10)).
Proof.
  unfold low_digits. cbn [dec_digits]. destruct (z <? 10); [done|]. rewrite dec_digits_acc, rev_app_distr. done.
Qed.

Lemma number_digits fuel z x k tail e : 0 <= z < 10 ^ Z.of_nat fuel -> 0 <= x -> 0 <= k -> 10 ^ k <= 2 ^ mant -> x + 10 ^ k * z <= 2 ^ mant ->
  exists m, number_loop (low_digits fuel z ++ tail) (mk_num false false false false (ld_of x) (ld_of (10 ^ k)) e) =
    number_loop tail (mk_num false false false false (ld_of (x + 10 ^ k * z)) m e).
Proof.
  revert z x k. induction fuel as [|fuel IH]; intros z x k Hz Hx Hk Hm Hs.
  - exists (ld_of (10 ^ k)). change (10 ^ Z.of_nat 0) with 1 in Hz. replace z with 0 by lia. rewrite Z.mul_0_r, Z.add_0_r. done.
  - rewrite low_digits_step. cbn [app number_loop]. pose proof (Z.mod_pos_bound z 10 ltac:(lia)) as Hd. set (d := z mod 10) in *.
    assert (Hp : 0 < 10 ^ k) by (apply Z.pow_pos_nonneg; lia). assert (Hdiv : z = 10 * (z / 10) + d) by (unfold d; apply Z.div_mod; lia).
    assert (Hq : 0 <= z / 10) by (apply Z.div_pos; lia).
    replace (48 + d =? 101) with false by lia. replace (48 + d =? 69) with false by lia. cbn [orb n_pos n_neg].
    replace (48 + d =? 46) with false by lia. replace (48 <=? 48 + d) with true by lia. replace (48 + d <=? 57) with true by lia.
    cbn [andb n_neg n_pos n_frac n_exp n_v n_mul n_e]. replace (48 + d - 48) with d by lia.
    assert (H10 : 1024 <= 2 ^ mant) by (pose proof ld_mant; change 1024 with (2 ^ 10); apply Z.pow_le_mono_r; lia).
    assert (Hkd : 10 ^ k * d <= 10 ^ k * z) by nia.
    rewrite ld_mul_exact by (rewrite Z.abs_eq by nia; nia). rewrite ld_add_exact by (rewrite Z.abs_eq by nia; nia).
    destruct (Z.ltb_spec z 10) as [Hlt|Hge].
    + eexists. cbn [app]. do 3 f_equal. replace d with z by (unfold d; rewrite Z.mod_small; lia). done.
    + assert (Hk1 : 10 ^ (k + 1) = 10 ^ k * 10) by (rewrite Z.pow_add_r; lia).
      rewrite ld_mul_exact by (rewrite Z.abs_eq by nia; nia). rewrite <- Hk1.
      rewrite Nat2Z.inj_succ, Z.pow_succ_r in Hz by lia.
      destruct (IH (z / 10) (x + 10 ^ k * d) (k + 1)) as (m & Em); [split; [done|]; apply Z.div_lt_upper_bound; lia|nia|lia|nia|nia|].
      exists m. rewrite Em. do 3 f_equal. nia.
Qed.

(** An integer that the mantissa can hold is read as it was printed. *)
Lemma decode_value_int i : Z.abs i <= 2 ^ mant -> - 2 ^ 63 <= i < 2 ^ 63 -> decode_value alloc_ok (lld i) = Some (0, Some (JSON_INT i)).
Proof using All.
  intros Hm Hi. assert (Hnz : forall z, low_digits 20 z <> []) by (intros z; rewrite low_digits_step; done).
  assert (Hlen : (zlen (lld i) =? 0) = false).
  { apply Z.eqb_neq. unfold lld, zlen. rewrite i64_small by done. destruct (i <? 0); [rewrite length_cons; lia|]. intros E. apply (Hnz i).
    unfold low_digits. destruct (dec_digits 20 i []); [done|rewrite length_cons in E; lia]. }
  assert (Hp : 1 <= 2 ^ mant) by (pose proof ld_mant; assert (2 ^ 0 <= 2 ^ mant) by (apply Z.pow_le_mono_r; lia); lia).
  assert (Enum : is_number (lld i) = Some (Some (ld_of i, false))).
  { unfold is_number. rewrite Hlen. unfold lld. rewrite i64_small by done. destruct (Z.ltb_spec i 0) as [Hneg|Hpos].
    - cbn [rev]. destruct (number_digits 20 (- i) 0 0 [45] 0) as (m & Em); [cbn; lia|lia..|]. change (10 ^ 0) with 1 in Em.
      unfold low_digits in Em. rewrite Em. cbn [number_loop Z.eqb Pos.eqb orb andb n_neg n_pos n_frac n_exp n_v n_mul n_e Z.leb Z.compare Pos.compare Pos.compare_cont].
      cbn [mbind option_bind n_exp n_neg n_frac n_v orb]. replace (0 + 1 * - i) with (- i) by lia. rewrite ld_opp_exact by lia. by rewrite Z.opp_involutive.
    - destruct (number_digits 20 i 0 0 [] 0) as (m & Em); [cbn; lia|lia..|]. change (10 ^ 0) with 1 in Em. rewrite app_nil_r in Em.
      unfold low_digits in Em. rewrite Em. cbn [number_loop mbind option_bind n_exp n_neg n_frac n_v orb]. by replace (0 + 1 * i) with i by lia. }
  assert (Estr : is_string (lld i) = None).
  { unfold is_string. destruct (_ <? 2); [done|]. destruct (rd (lld i) 0) eqn:E0; [|done]. destruct (rd _ (_ - 1)); [|done].
    replace (z =? QUOT) with false; [done|]. symmetry. apply Z.eqb_neq. unfold rd in E0. cbn in E0. unfold lld in E0. rewrite i64_small in E0 by done.
    destruct (Z.ltb_spec i 0); [by injection E0 as <-|].
    destruct (dec_digits_spec 20 i []) as (l & El & Hne & Hd & _); [lia|cbn; lia|done|]. rewrite El, app_nil_r in E0.
    destruct l as [|c l]; [done|]. injection E0 as <-. apply Forall_cons in Hd as [Hd _]. unfold is_digit in Hd. unfold QUOT. lia. }
  unfold decode_value. rewrite Estr, Enum. cbn [mbind option_bind]. by rewrite ld_i64_exact.
Qed.

End Strings.
