(* ===== verification/ReJsonText.v ===== *)
(** * Decoding a JSON text

    A text is laid out from tokens with white space between them; decoding it
    calls the handlers in the order of the text. *)

From stdpp Require Import gmap.
From S2P Require Import Prelude Effects Libc Mbuf MbufProps Codec Hash HashFunc Odict OdictProps ReJson ReJsonTokens.
Import Mb Ht Hf Od Rj.

(** ** Texts *)

Definition is_ws (c : Z) : bool := (c =? 32) || (c =? 9) || (c =? 13) || (c =? 10).
Definition ws (w : list Z) : Prop := Forall (fun c => is_ws c = true) w.
(** Characters that end a bare token. *)
Definition special (c : Z) : bool :=
  (c =? 58) || (c =? 44) || (c =? 123) || (c =? 91) || (c =? 125) || (c =? 93) || is_ws c || (c =? QUOT).

(** No quotation mark in [q] but escaped ones. *)
Fixpoint quoted (esc : bool) (q : list Z) : bool :=
  match q with
  | [] => negb esc
  | c :: q => if esc then quoted false q else if c =? QUOT then false else if c =? BSL then quoted true q else quoted false q
  end.

Definition token (tok : list Z) : Prop :=
  (exists q, tok = [QUOT] ++ q ++ [QUOT] /\ quoted false q = true) \/ (tok <> [] /\ Forall (fun c => special c = false) tok).

Section Text.
Context (alloc_ok : Z -> bool) `{LongDouble}.

Definition jv_of (v : json_value) : jv dbl :=
  match v with JSON_STRING s => J_str s | JSON_INT i => J_int i | JSON_DOUBLE d => J_dbl d | JSON_BOOL b => J_bool b | JSON_NULL => J_null end.

Inductive value_text : list Z -> jv dbl -> Prop :=
| vt_token tok v : token tok -> decode_value alloc_ok tok = Some (0, Some v) -> value_text tok (jv_of v)
| vt_object body l : members_text body l -> value_text ([123] ++ body ++ [125]) (J_obj l)
| vt_array body l : elements_text 0 body l -> value_text ([91] ++ body ++ [93]) (J_arr l)
with members_text : list Z -> list (list Z * jv dbl) -> Prop :=
| mt_none w : ws w -> members_text w []
| mt_last w1 tok name w2 w3 txt j w4 : ws w1 -> token tok -> decode_name alloc_ok (Some tok) = Some (0, Some name) -> ws w2 -> ws w3 ->
    value_text txt j -> ws w4 -> members_text (w1 ++ tok ++ w2 ++ [58] ++ w3 ++ txt ++ w4) [(name, j)]
| mt_more w1 tok name w2 w3 txt j w4 rest l : ws w1 -> token tok -> decode_name alloc_ok (Some tok) = Some (0, Some name) -> ws w2 -> ws w3 ->
    value_text txt j -> ws w4 -> members_text rest l ->
    members_text (w1 ++ tok ++ w2 ++ [58] ++ w3 ++ txt ++ w4 ++ [44] ++ rest) ((name, j) :: l)
with elements_text : Z -> list Z -> list (list Z * jv dbl) -> Prop :=
| et_none idx w : ws w -> elements_text idx w []
| et_last idx w1 txt j w2 : ws w1 -> value_text txt j -> ws w2 -> elements_text idx (w1 ++ txt ++ w2) [(index_name idx, j)]
| et_more idx w1 txt j w2 rest l : ws w1 -> value_text txt j -> ws w2 -> elements_text (u32 (idx + 1)) rest l ->
    elements_text idx (w1 ++ txt ++ w2 ++ [44] ++ rest) ((index_name idx, j) :: l).

Scheme value_text_mut := Minimality for value_text Sort Prop
  with members_text_mut := Minimality for members_text Sort Prop
  with elements_text_mut := Minimality for elements_text Sort Prop.
Combined Scheme text_mutind from value_text_mut, members_text_mut, elements_text_mut.

(** ** The calls of the handlers *)

Section Feed.
Context {S A : Type} (h : json_handlers (S := S) (A := A)).

Definition call_start (f : option (option (list Z) -> Z -> A -> M S (Z * A))) (name : option (list Z)) (idx : Z) (arg : A) : M S (Z * A) :=
  match f with Some f => f name idx arg | None => mret (0, arg) end.
Definition call_entry (obj : bool) (name : list Z) (idx : Z) (v : json_value) (arg : A) : M S Z :=
  if obj then match h_oeh h with Some f => f name v arg | None => mret 0 end
  else match h_aeh h with Some f => f idx v arg | None => mret 0 end.

(** [obj]: the container is an object. *)
Fixpoint feed_value (obj : bool) (name : list Z) (idx : Z) (j : jv dbl) (arg : A) : M S Z :=
  let feed_items := fix feed_items (obj : bool) (l : list (list Z * jv dbl)) (idx : Z) (arg : A) : M S Z :=
    match l with
    | [] => mret 0
    | (k, j) :: l =>
      err ← feed_value obj k idx j arg;
      if negb (err =? 0) then mret err else feed_items obj l (if obj then idx else u32 (idx + 1)) arg
    end in
  let name' := if obj then Some name else None in
  match j with
  | J_obj l => '(err, arg') ← call_start (h_oh h) name' idx arg; if negb (err =? 0) then mret err else feed_items true l 0 arg'
  | J_arr l => '(err, arg') ← call_start (h_ah h) name' idx arg; if negb (err =? 0) then mret err else feed_items false l 0 arg'
  | J_str s => call_entry obj name idx (JSON_STRING s) arg
  | J_int i => call_entry obj name idx (JSON_INT i) arg
  | J_dbl d => call_entry obj name idx (JSON_DOUBLE d) arg
  | J_bool b => call_entry obj name idx (JSON_BOOL b) arg
  | J_null => call_entry obj name idx JSON_NULL arg
  end.

Fixpoint feed_items (obj : bool) (l : list (list Z * jv dbl)) (idx : Z) (arg : A) : M S Z :=
  match l with
  | [] => mret 0
  | (k, j) :: l =>
    err ← feed_value obj k idx j arg;
    if negb (err =? 0) then mret err else feed_items obj l (if obj then idx else u32 (idx + 1)) arg
  end.

Lemma feed_token obj name idx v arg : feed_value obj name idx (jv_of v) arg = call_entry obj name idx v arg.
Proof. by destruct v. Qed.

(** ** Steps of the loop *)

Context (maxdepth : Z) (text : list Z).
Abbreviation loop := (json_loop alloc_ok h maxdepth text).

(** The text from [str] on is [rest], and [len] its length. *)
Definition here (str len : Z) (rest : list Z) : Prop := 0 <= str /\ drop (Z.to_nat str) text = rest /\ len = zlen rest.

Lemma here_skip str len a b : here str len (a ++ b) -> here (str + zlen a) (len - zlen a) b.
Proof.
  intros (H0 & Hd & Hl). unfold here. pose proof (zlen_nonneg a). split; [lia|]. split; [|rewrite Hl, zlen_app; lia].
  replace (Z.to_nat (str + zlen a)) with (Z.to_nat str + length a)%nat by (unfold zlen; lia).
  rewrite <- drop_drop, Hd. by rewrite drop_app_length.
Qed.

Lemma here_cons str len c rest : here str len (c :: rest) -> rd text str = Some c /\ (len <=? 0) = false /\ here (str + 1) (len - 1) rest.
Proof.
  intros Hh. pose proof (here_skip str len [c] rest Hh) as Hn. destruct Hh as (H0 & Hd & Hl). split_and!; [| |done].
  - unfold rd. replace (0 <=? str) with true by lia. rewrite <- (take_drop (Z.to_nat str) text), Hd.
    assert (Hlen : length (take (Z.to_nat str) text) = Z.to_nat str).
    { apply length_take_le. apply (f_equal length) in Hd. rewrite length_drop in Hd. cbn in Hd. lia. }
    rewrite lookup_app_r by lia. by rewrite Hlen, Nat.sub_diag.
  - rewrite zlen_cons in Hl. pose proof (zlen_nonneg rest). lia.
Qed.

Lemma here_slice str len tok rest : tok <> [] -> here str len (tok ++ rest) -> slice text str (zlen tok) = Some tok.
Proof.
  intros Hne (H0 & Hd & _). pose proof (zlen_nonneg tok). rewrite slice_some; [|done|done|].
  - rewrite Hd. f_equal. unfold zlen. rewrite Nat2Z.id. by rewrite take_app_length.
  - apply (f_equal length) in Hd. rewrite length_drop, length_app in Hd. destruct tok; [done|]. unfold zlen. cbn [length] in *. lia.
Qed.

Definition add_ws (n : Z) (s : jstate) : jstate :=
  mk_js (s_esc s) (s_inquot s) (s_inobj s) (s_inarray s) (s_name s) (s_val s) (s_ws s + n) (s_idx s).

Ltac one_step Hh :=
  let E1 := fresh "E" in let E2 := fresh "E" in
  destruct (here_cons _ _ _ _ Hh) as (E1 & E2 & _); cbn [json_loop]; rewrite E2; unfold mbind at 1, M_bind at 1, of_option at 1; rewrite E1; clear E1 E2.

Lemma step_ws w rest fuel str len depth s arg σ : ws w -> s_inquot s = false -> here str len (w ++ rest) ->
  loop (length w + fuel) str len depth s arg σ = loop fuel (str + zlen w) (len - zlen w) depth (add_ws (zlen w) s) arg σ.
Proof.
  intros Hw Hq. revert str len s Hq. induction Hw as [|c w Hc Hw IH]; intros str len s Hq Hh.
  - cbn [length Nat.add]. change (zlen []) with 0. rewrite Z.add_0_r, Z.sub_0_r. f_equal. unfold add_ws. rewrite Z.add_0_r. by destruct s.
  - cbn [length Nat.add]. one_step Hh. rewrite Hq. destruct (here_cons _ _ _ _ Hh) as (_ & _ & Hn).
    assert (Hnext : loop (length w + fuel) (str + 1) (len - 1) depth (more_ws s) arg σ =
      loop fuel (str + zlen (c :: w)) (len - zlen (c :: w)) depth (add_ws (zlen (c :: w)) s) arg σ).
    { rewrite IH by done. rewrite zlen_cons. unfold add_ws. cbn. f_equal; try lia. f_equal. lia. }
    unfold is_ws in Hc. repeat (apply orb_true_iff in Hc as [Hc|Hc]); apply Z.eqb_eq in Hc as ->; exact Hnext.
Qed.

Lemma special_not c : special c = false -> (c =? 58) = false /\ (c =? 44) = false /\ ((c =? 123) || (c =? 91)) = false /\
  (c =? 125) = false /\ (c =? 93) = false /\ ((c =? 32) || (c =? 9) || (c =? 13) || (c =? 10)) = false /\ (c =? QUOT) = false.
Proof. unfold special, is_ws. rewrite !orb_false_iff. tauto. Qed.

Lemma step_bare tok rest fuel str len depth s arg σ : Forall (fun c => special c = false) tok -> s_inquot s = false -> is_Some (s_val s) ->
  here str len (tok ++ rest) -> loop (length tok + fuel) str len depth s arg σ = loop fuel (str + zlen tok) (len - zlen tok) depth s arg σ.
Proof.
  intros Ht Hq Hv. revert str len. induction Ht as [|c tok Hc Ht IH]; intros str len Hh.
  - cbn [length Nat.add]. change (zlen []) with 0. by rewrite Z.add_0_r, Z.sub_0_r.
  - cbn [length Nat.add]. one_step Hh. rewrite Hq. destruct (here_cons _ _ _ _ Hh) as (_ & _ & Hn).
    destruct (special_not c Hc) as (-> & -> & -> & -> & -> & -> & _). rewrite bool_decide_true by done. rewrite IH by done.
    rewrite zlen_cons. f_equal; lia.
Qed.

Lemma step_quoted esc q rest fuel str len depth s arg σ : quoted esc q = true -> s_inquot s = true -> s_esc s = esc ->
  here str len (q ++ QUOT :: rest) ->
  loop (length q + 1 + fuel) str len depth s arg σ = loop fuel (str + zlen q + 1) (len - zlen q - 1) depth (upd_quot false false s) arg σ.
Proof.
  revert esc str len s. induction q as [|c q IH]; intros esc str len s Hq Hi He Hh.
  - cbn [length Nat.add]. one_step Hh. cbn in Hq. apply negb_true_iff in Hq as ->. rewrite Hi, He. cbn [Z.eqb Pos.eqb QUOT].
    change (zlen []) with 0. rewrite Z.add_0_r, Z.sub_0_r. done.
  - cbn [length Nat.add]. one_step Hh. rewrite Hi, He. destruct (here_cons _ _ _ _ Hh) as (_ & _ & Hn). cbn [quoted] in Hq.
    assert (Hnext : forall e s', quoted e q = true -> s_inquot s' = true -> s_esc s' = e -> upd_quot false false s' = upd_quot false false s ->
      loop (length q + 1 + fuel) (str + 1) (len - 1) depth s' arg σ =
      loop fuel (str + zlen (c :: q) + 1) (len - zlen (c :: q) - 1) depth (upd_quot false false s) arg σ).
    { intros e s' H1 H2 H3 H4. rewrite (IH e) by done. rewrite zlen_cons, H4. f_equal; lia. }
    destruct esc; [by apply (Hnext false)|]. destruct (c =? QUOT); [done|]. destruct (c =? BSL); [by apply (Hnext true)|by apply (Hnext false)].
Qed.

(** A token is passed; it is the value then. *)
Lemma step_token tok rest fuel str len depth s arg σ : token tok -> s_inquot s = false -> s_esc s = false -> s_val s = None ->
  here str len (tok ++ rest) ->
  loop (length tok + fuel) str len depth s arg σ = loop fuel (str + zlen tok) (len - zlen tok) depth (begin_val str false s) arg σ.
Proof.
  intros [(q & -> & Hq)|[Hne Ht]] Hi He Hv Hh.
  - rewrite !length_app. cbn [length]. cbn [app] in Hh. rewrite <- app_assoc in Hh. cbn [Nat.add]. one_step Hh. rewrite Hi, Hv.
    destruct (here_cons _ _ _ _ Hh) as (_ & _ & Hn).
    change (bool_decide (is_Some None)) with false. cbn [Z.eqb Pos.eqb QUOT orb].
    rewrite (step_quoted false q rest) by done. rewrite !zlen_app. change (zlen [QUOT]) with 1. unfold upd_quot, begin_val. cbn. f_equal; [lia..|].
    by rewrite He.
  - destruct tok as [|c tok]; [done|]. apply Forall_cons in Ht as [Hc Ht]. cbn [length Nat.add]. cbn [app] in Hh. one_step Hh.
    rewrite Hi, Hv. destruct (here_cons _ _ _ _ Hh) as (_ & _ & Hn). destruct (special_not c Hc) as (-> & -> & -> & -> & -> & -> & ->).
    rewrite bool_decide_false by (by intros [? ?]). rewrite (step_bare tok rest) by (done || by eexists). rewrite zlen_cons. f_equal; lia.
Qed.

Lemma token_ne tok : token tok -> tok <> [].
Proof. by intros [(q & -> & _)|[? _]]. Qed.

(** The value that is pending at a separator. *)
Lemma pending_token tok w rest b len s : token tok -> here b len (tok ++ w ++ rest) -> s_val s = Some b -> s_ws s = zlen w ->
  chkval text (s_val s) (b + zlen tok + zlen w - s_ws s) = Some tok.
Proof.
  intros Ht Hh Hv Hw. unfold chkval. rewrite Hv, Hw. cbn [mbind option_bind]. pose proof (zlen_nonneg tok).
  replace (b + zlen tok + zlen w - zlen w <? b) with false by lia. replace (b + zlen tok + zlen w - zlen w - b) with (zlen tok) by lia.
  by eapply here_slice; [apply token_ne|].
Qed.

(** ** Items *)

(** [m] does what [f] does and goes on with [k], or returns its error. *)
Definition goes (f : M S Z) (k : S -> option (Z * Z * Z * S)) (σ : S) (m : option (Z * Z * Z * S)) : Prop :=
  match f σ with
  | None => m = None
  | Some (err, σ') => if err =? 0 then m = k σ' else exists p n, m = Some (err, p, n, σ')
  end.

(** The state between the items of a container, and in front of a value. *)
Record in_item (obj : bool) (name : option (list Z)) (idx : Z) (s : jstate) : Prop := {
  i_esc : s_esc s = false; i_quot : s_inquot s = false; i_obj : s_inobj s = obj; i_arr : s_inarray s = negb obj;
  i_name : s_name s = name; i_val : s_val s = None; i_idx : s_idx s = idx }.

Definition close_char (obj : bool) : Z := if obj then 125 else 93.
Definition open_char (obj : bool) : Z := if obj then 123 else 91.
Definition next_of (obj : bool) (idx : Z) : Z := if obj then idx else u32 (idx + 1).
Definition container (obj : bool) (l : list (list Z * jv dbl)) : jv dbl := if obj then J_obj l else J_arr l.

Lemma feed_container obj obj' name idx l arg :
  feed_value obj' name idx (container obj l) arg =
  ('(err, arg') ← call_start (if obj then h_oh h else h_ah h) (if obj' then Some name else None) idx arg;
   if negb (err =? 0) then mret err else feed_items obj l 0 arg').
Proof. by destruct obj. Qed.

(** What decoding the text of a value comes to. *)
Definition value_run (txt : list Z) (j : jv dbl) : Prop :=
  (token txt /\ exists v, j = jv_of v /\ decode_value alloc_ok txt = Some (0, Some v)) \/
  (exists obj l body, txt = open_char obj :: body /\ j = container obj l /\
    forall depth fuel str len rest arg σ, here str len (txt ++ rest) -> 2 * len + 1 <= Z.of_nat fuel ->
      depth + Z.of_nat (depth_of l) <= maxdepth ->
      goes (feed_items obj l 0 arg) (fun σ' => Some (0, str + zlen txt - 1, len - zlen txt + 1, σ')) σ (loop fuel str len depth js_init arg σ)).

(** The names of a member and of an element. *)
Definition named (obj : bool) (pl : option (list Z)) (name : list Z) : Prop :=
  if obj then exists tok, pl = Some tok /\ decode_name alloc_ok (Some tok) = Some (0, Some name) else pl = None.

(** At a separator: [k'] is what follows. *)
Definition after_sep (obj : bool) (c : Z) (fuel : nat) (str len depth : Z) (s : jstate) (arg : A) (σ : S) : option (Z * Z * Z * S) :=
  if c =? 44 then loop fuel (str + 1) (len - 1) depth s arg σ else Some (0, str, len, σ).

(** A pending token at a separator. *)
Lemma sep_token obj pl name idx tok v w c rest b len0 fuel depth s arg σ : named obj pl name -> decode_value alloc_ok tok = Some (0, Some v) ->
  token tok -> here b len0 (tok ++ w ++ c :: rest) -> c = 44 \/ c = close_char obj ->
  in_item obj pl idx s ->
  goes (call_entry obj name idx v arg)
    (after_sep obj c fuel (b + zlen tok + zlen w) (len0 - zlen tok - zlen w) depth
       (mk_js false false obj (negb obj) None None (zlen w) (next_of obj idx)) arg) σ
    (loop (Datatypes.S fuel) (b + zlen tok + zlen w) (len0 - zlen tok - zlen w) depth (add_ws (zlen w) (begin_val b false s)) arg σ).
Proof.
  intros Hn Hv Ht Hh Hc [I1 I2 I3 I4 I5 I6 I7]. set (s1 := add_ws (zlen w) (begin_val b false s)).
  pose proof (pending_token tok w (c :: rest) b len0 s1 Ht Hh eq_refl eq_refl) as Hp.
  apply here_skip, here_skip in Hh. one_step Hh. rewrite Hp. change (s_inquot s1) with false.
  change (s_inobj s1) with (s_inobj s). change (s_inarray s1) with (s_inarray s). change (s_name s1) with (s_name s). change (s_idx s1) with (s_idx s).
  rewrite I3, I4, I5, I7.
  assert (Es : upd_name None (if obj then s1 else next_idx s1) = mk_js false false obj (negb obj) None None (zlen w) (next_of obj idx)).
  { unfold s1, upd_name, add_ws, begin_val, next_idx. destruct obj; cbn; by rewrite I1, I3, I4, I7. }
  unfold goes, after_sep, call_entry. rewrite <- Es. clear Es. destruct obj; cbn [negb close_char] in *.
  - destruct Hn as (nt & -> & Hn). destruct Hc as [-> | ->]; cbn [Z.eqb Pos.eqb orb negb bool_decide]; rewrite ?(bool_decide_false (Some nt = None)) by done.
    all: unfold object_entry; rewrite Hn, Hv; unfold of_option, mbind, M_bind; destruct (h_oeh h) as [f|]; cbn.
    + destruct (f name v arg σ) as [[err σ']|]; [|done]. destruct (err =? 0); cbn; [done|by eauto].
    + done.
    + destruct (f name v arg σ) as [[err σ']|]; [|done]. destruct (Z.eqb_spec err 0) as [->|]; [done|by eauto].
    + done.
  - cbn in Hn. subst pl. destruct Hc as [-> | ->]; cbn [Z.eqb Pos.eqb orb negb].
    all: unfold array_entry; rewrite Hv; unfold of_option, mbind, M_bind; destruct (h_aeh h) as [f|]; cbn.
    + destruct (f idx v arg σ) as [[err σ']|]; [|done]. destruct (err =? 0); cbn; [done|by eauto].
    + done.
    + destruct (f idx v arg σ) as [[err σ']|]; [|done]. destruct (Z.eqb_spec err 0) as [->|]; [done|by eauto].
    + done.
Qed.

(** Nothing is pending at a separator behind a container. *)
Lemma sep_none obj idx w c rest fuel str len depth s arg σ : ws w -> here str len (w ++ c :: rest) -> c = 44 \/ c = close_char obj -> in_item obj None idx s ->
  loop (length w + Datatypes.S fuel) str len depth s arg σ =
  after_sep obj c fuel (str + zlen w) (len - zlen w) depth (add_ws (zlen w) s) arg σ.
Proof.
  intros Hw Hh Hc [I1 I2 I3 I4 I5 I6 I7]. rewrite (step_ws w (c :: rest)) by done. apply here_skip in Hh. one_step Hh.
  change (s_inquot (add_ws (zlen w) s)) with (s_inquot s). change (s_inobj (add_ws (zlen w) s)) with (s_inobj s).
  change (s_inarray (add_ws (zlen w) s)) with (s_inarray s). change (s_val (add_ws (zlen w) s)) with (s_val s). rewrite I2, I3, I4, I6.
  unfold after_sep. destruct Hc as [-> | ->]; [done|]. by destruct obj.
Qed.

(** The start of a container calls the handler with the name. *)
Lemma start_named obj pl name f idx arg : named obj pl name ->
  container_start alloc_ok f pl idx arg = call_start f (if obj then Some name else None) idx arg.
Proof. unfold named, container_start, call_start. destruct obj; [intros (tok & -> & ->)|intros ->]; done. Qed.

Lemma depth_container obj l : depth (container obj l) = Datatypes.S (depth_of l).
Proof. by destruct obj. Qed.

(** A value and the separator behind it. *)
Lemma value_step obj pl name idx txt j w c rest fuel str len depth s arg σ : value_run txt j -> named obj pl name -> ws w ->
  here str len (txt ++ w ++ c :: rest) -> c = 44 \/ c = close_char obj -> 2 * len + 2 <= Z.of_nat fuel ->
  depth + Z.of_nat (OdictProps.depth j) <= maxdepth -> in_item obj pl idx s ->
  exists fuel' s', 2 * (len - zlen txt - zlen w - 1) + 2 <= Z.of_nat fuel' /\ in_item obj None (next_of obj idx) s' /\
    goes (feed_value obj name idx j arg) (after_sep obj c fuel' (str + zlen txt + zlen w) (len - zlen txt - zlen w) depth s' arg) σ
      (loop fuel str len depth s arg σ).
Proof.
  intros [[Ht (v & -> & Hv)]|(o & l & body & Etxt & -> & Hrun)] Hn Hw Hh Hc Hf Hd Hi.
  - assert (Hl : len = zlen txt + zlen w + (zlen rest + 1)) by (destruct Hh as (_ & _ & ->); rewrite !zlen_app, zlen_cons; lia).
    pose proof (zlen_nonneg rest). pose proof (zlen_nonneg w). set (f := (fuel - length txt - length w - 1)%nat).
    assert (Ef : fuel = (length txt + (length w + Datatypes.S f))%nat) by (unfold f, zlen in *; lia).
    exists f, (mk_js false false obj (negb obj) None None (zlen w) (next_of obj idx)).
    split; [unfold f, zlen in *; lia|]. split; [done|]. rewrite feed_token, Ef. pose proof Hi as [I1 I2 I3 I4 I5 I6 I7].
    rewrite (step_token txt (w ++ c :: rest)) by done. rewrite (step_ws w (c :: rest)) by (done || by apply here_skip).
    by eapply sep_token.
  - subst txt. cbn [app] in Hh. rewrite depth_container, Nat2Z.inj_succ in Hd. set (txt := open_char o :: body) in *.
    assert (Hl : len = zlen txt + zlen w + (zlen rest + 1)) by (destruct Hh as (_ & _ & ->); change (open_char o :: body ++ w ++ c :: rest) with (txt ++ w ++ c :: rest); rewrite !zlen_app, zlen_cons; lia).
    pose proof (zlen_nonneg rest). pose proof (zlen_nonneg w). pose proof (zlen_nonneg body). assert (Htl : zlen txt = zlen body + 1) by apply zlen_cons.
    destruct fuel as [|fuel]; [lia|]. set (f := (fuel - length w - 1)%nat).
    assert (Ef : fuel = (length w + Datatypes.S f)%nat) by (unfold f, zlen in *; lia).
    set (s1 := if s_inarray s then next_idx (drop_name s) else drop_name s).
    assert (Hi1 : in_item obj None (next_of obj idx) s1).
    { clear -Hi. destruct Hi as [I1 I2 I3 I4 I5 I6 I7]. unfold s1. rewrite I4. destruct s. cbn in *. subst. by destruct obj. }
    exists f, (add_ws (zlen w) s1). split; [unfold f, zlen in *; lia|]. split; [by destruct Hi1|].
    pose proof (Hrun (depth + 1) fuel str len (w ++ c :: rest)) as Hrun'.
    one_step Hh. rewrite feed_container. destruct Hi as [I1 I2 I3 I4 I5 I6 I7]. rewrite I2.
    replace (open_char o =? 58) with false by (by destruct o). replace (open_char o =? 44) with false by (by destruct o).
    replace ((open_char o =? 123) || (open_char o =? 91)) with true by (by destruct o). rewrite I3, I4.
    replace (obj || negb obj) with true by (by destruct obj). replace (maxdepth <=? depth) with false by lia.
    replace (obj && bool_decide (s_name s = None)) with false.
    2: { rewrite I5. destruct obj; [|done]. destruct Hn as (tok & -> & _). by rewrite bool_decide_false. }
    rewrite I5, I7. replace (if open_char o =? 123 then object_start alloc_ok h else array_start alloc_ok h)
      with (container_start alloc_ok (if o then h_oh h else h_ah h)) by (by destruct o). rewrite (start_named obj pl name _ _ _ Hn).
    unfold goes, mbind, M_bind. destruct (call_start _ _ idx arg σ) as [[[err arg'] σ1]|]; [|done]. destruct (Z.eqb_spec err 0) as [->|Hne]; cbn [negb].
    2: { unfold mret, M_ret. rewrite (proj2 (Z.eqb_neq _ _) Hne). by eauto. }
    specialize (Hrun' arg' σ1 Hh ltac:(lia) ltac:(lia)). unfold goes in Hrun'.
    destruct (feed_items o l 0 arg' σ1) as [[err σ2]|]; [|by rewrite Hrun'].
    destruct (Z.eqb_spec err 0) as [->|Hne]; [|destruct Hrun' as (p & n & ->); rewrite (proj2 (Z.eqb_neq _ _) Hne); by eauto].
    rewrite Hrun'. cbn [negb Z.eqb]. change (s_inarray (drop_name s)) with (s_inarray s). fold s1.
    replace (str + zlen txt - 1 + 1) with (str + zlen txt) by lia. replace (len - zlen txt + 1 - 1) with (len - zlen txt) by lia. rewrite Ef.
    by apply (sep_none obj (next_of obj idx) w c rest); [|apply (here_skip str len txt)|..].
Qed.

(** White space in front of an item. *)
Lemma ws_step obj name idx w rest fuel str len depth s arg σ : ws w -> here str len (w ++ rest) -> 2 * len + 2 <= Z.of_nat fuel -> in_item obj name idx s ->
  exists fuel' s', 2 * (len - zlen w) + 2 <= Z.of_nat fuel' /\ in_item obj name idx s' /\
    loop fuel str len depth s arg σ = loop fuel' (str + zlen w) (len - zlen w) depth s' arg σ.
Proof.
  intros Hw Hh Hf Hi. assert (Hl : zlen w <= len) by (destruct Hh as (_ & _ & ->); rewrite zlen_app; pose proof (zlen_nonneg rest); lia).
  set (f := (fuel - length w)%nat). exists f, (add_ws (zlen w) s). split; [unfold f, zlen in *; lia|]. split; [by destruct Hi|].
  replace fuel with (length w + f)%nat by (unfold f, zlen in *; lia). eapply step_ws; [done|by destruct Hi|done].
Qed.

(** The name of a member. *)
Lemma name_step idx tok w rest fuel str len depth s arg σ : token tok -> ws w -> here str len (tok ++ w ++ 58 :: rest) ->
  2 * len + 2 <= Z.of_nat fuel -> in_item true None idx s ->
  exists fuel' s', 2 * (len - zlen tok - zlen w - 1) + 2 <= Z.of_nat fuel' /\ in_item true (Some tok) idx s' /\
    loop fuel str len depth s arg σ = loop fuel' (str + zlen tok + zlen w + 1) (len - zlen tok - zlen w - 1) depth s' arg σ.
Proof.
  intros Ht Hw Hh Hf Hi.
  assert (Hl : zlen tok + zlen w + 1 <= len) by (destruct Hh as (_ & _ & ->); rewrite !zlen_app, zlen_cons; pose proof (zlen_nonneg rest); lia).
  set (f := (fuel - length tok - length w - 1)%nat). destruct Hi as [I1 I2 I3 I4 I5 I6 I7]. set (s1 := add_ws (zlen w) (begin_val str false s)).
  exists f, (upd_name (Some tok) s1). split; [unfold f, zlen in *; lia|]. split; [by split; cbn|].
  replace fuel with (length tok + (length w + Datatypes.S f))%nat by (unfold f, zlen in *; lia).
  rewrite (step_token tok (w ++ 58 :: rest)) by done. rewrite (step_ws w (58 :: rest)) by (done || by apply here_skip). fold s1.
  pose proof (pending_token tok w (58 :: rest) str len s1 Ht Hh eq_refl eq_refl) as Hp. apply here_skip, here_skip in Hh. one_step Hh.
  change (s_inquot s1) with false. change (s_inobj s1) with (s_inobj s). change (s_name s1) with (s_name s). cbn [Z.eqb Pos.eqb]. rewrite I3, I5, Hp. done.
Qed.

Definition items_run (obj : bool) (idx : Z) (body : list Z) (l : list (list Z * jv dbl)) : Prop :=
  forall depth fuel str len rest s arg σ, here str len (body ++ close_char obj :: rest) -> 2 * len + 2 <= Z.of_nat fuel ->
    depth + Z.of_nat (depth_of l) <= maxdepth -> in_item obj None idx s ->
    goes (feed_items obj l idx arg) (fun σ' => Some (0, str + zlen body, len - zlen body, σ')) σ (loop fuel str len depth s arg σ).

Lemma same_end {B} (a b c d : Z) (σ : B) : a = c -> b = d -> Some (0, a, b, σ) = Some (0, c, d, σ).
Proof. by intros -> ->. Qed.

Lemma feed_cons obj idx name j l arg k k' σ m : goes (feed_value obj name idx j arg) k σ m ->
  (forall σ', goes (feed_items obj l (next_of obj idx) arg) k' σ' (k σ')) -> goes (feed_items obj ((name, j) :: l) idx arg) k' σ m.
Proof.
  unfold goes. intros Hm Hk. cbn [feed_items]. unfold mbind, M_bind. destruct (feed_value obj name idx j arg σ) as [[err σ']|]; [|done].
  destruct (Z.eqb_spec err 0) as [->|Hne]; cbn [negb]; [rewrite Hm; apply Hk|]. unfold mret, M_ret. by rewrite (proj2 (Z.eqb_neq _ _) Hne).
Qed.

(** A container has no item. *)
Lemma items_none obj idx w : ws w -> items_run obj idx w [].
Proof.
  intros Hw depth fuel str len rest s arg σ Hh Hf _ Hi.
  assert (Hl : zlen w + 1 <= len) by (destruct Hh as (_ & _ & ->); rewrite zlen_app, zlen_cons; pose proof (zlen_nonneg rest); lia).
  replace fuel with (length w + Datatypes.S (fuel - length w - 1))%nat by (unfold zlen in *; lia).
  rewrite (sep_none obj idx w (close_char obj) rest) by (done || by right). unfold goes, after_sep. cbn. by destruct obj.
Qed.

(** An item that starts with its value, and those that follow. *)
Lemma item_value obj pl name idx w1 txt j w2 tail l depth fuel str len rest s arg σ : value_run txt j -> named obj pl name -> ws w1 -> ws w2 ->
  (tail = [] /\ l = []) \/ (exists t, tail = 44 :: t /\ items_run obj (next_of obj idx) t l) ->
  here str len (w1 ++ txt ++ w2 ++ tail ++ close_char obj :: rest) -> 2 * len + 2 <= Z.of_nat fuel ->
  depth + Z.of_nat (depth_of ((name, j) :: l)) <= maxdepth -> in_item obj pl idx s ->
  goes (feed_items obj ((name, j) :: l) idx arg)
    (fun σ' => Some (0, str + zlen (w1 ++ txt ++ w2 ++ tail), len - zlen (w1 ++ txt ++ w2 ++ tail), σ')) σ (loop fuel str len depth s arg σ).
Proof.
  intros Hv Hn Hw1 Hw2 Htail Hh Hf Hd Hi. cbn [depth_of foldr snd] in Hd. fold (depth_of l) in Hd.
  destruct (ws_step obj pl idx w1 _ fuel str len depth s arg σ Hw1 Hh Hf Hi) as (f1 & s1 & Hf1 & Hi1 & ->).
  apply here_skip in Hh. rewrite !zlen_app. destruct Htail as [[-> ->]|(t & -> & Ht)].
  - cbn [app] in Hh. destruct (value_step obj pl name idx txt j w2 (close_char obj) rest f1 _ _ depth s1 arg σ Hv Hn Hw2 Hh) as (f2 & s2 & _ & _ & H2);
      [by right|done|lia|done|].
    eapply feed_cons; [exact H2|]. intros σ'. unfold goes, after_sep. cbn. replace (close_char obj =? 44) with false by (by destruct obj).
    change (zlen []) with 0. apply same_end; lia.
  - cbn [app] in Hh. destruct (value_step obj pl name idx txt j w2 44 (t ++ close_char obj :: rest) f1 _ _ depth s1 arg σ Hv Hn Hw2 Hh) as (f2 & s2 & Hf2 & Hi2 & H2);
      [by left|done|lia|done|].
    eapply feed_cons; [exact H2|]. intros σ'. unfold after_sep. cbn [Z.eqb Pos.eqb]. apply here_skip, here_skip in Hh.
    pose proof (here_skip _ _ [44] _ Hh) as Hh'. change (zlen [44]) with 1 in Hh'.
    pose proof (Ht depth f2 _ _ rest s2 arg σ' Hh' ltac:(lia) ltac:(lia) Hi2) as H3. rewrite zlen_cons.
    unfold goes in *. destruct (feed_items _ _ _ _ σ') as [[err σ2]|]; [|done]. destruct (err =? 0); [|done]. rewrite H3. apply same_end; lia.
Qed.

(** In front of a container. *)
Definition outside (s : jstate) : Prop := exists n, s = mk_js false false false false None None n 0.

(** Entering a container. *)
Lemma enter_run obj body l depth fuel str len rest s arg σ : items_run obj 0 body l -> outside s ->
  here str len ((open_char obj :: body ++ [close_char obj]) ++ rest) -> 2 * len + 1 <= Z.of_nat fuel -> depth + Z.of_nat (depth_of l) <= maxdepth ->
  goes (feed_items obj l 0 arg) (fun σ' => Some (0, str + zlen (open_char obj :: body ++ [close_char obj]) - 1, len - zlen (open_char obj :: body ++ [close_char obj]) + 1, σ')) σ
    (loop fuel str len depth s arg σ).
Proof.
  intros Hb [n ->] Hh Hf Hd. set (s := mk_js _ _ _ _ _ _ _ _). cbn [app] in Hh. rewrite <- app_assoc in Hh. destruct (here_cons _ _ _ _ Hh) as (_ & Hpos & Hn). destruct fuel as [|fuel]; [lia|].
  assert (Hi : in_item obj None 0 (if obj then enter_obj s else enter_array s)) by (by destruct obj).
  pose proof (Hb depth fuel (str + 1) (len - 1) rest _ arg σ Hn ltac:(lia) Hd Hi) as H1. one_step Hh.
  match goal with |- goes _ _ _ ?m => replace m with (loop fuel (str + 1) (len - 1) depth (if obj then enter_obj s else enter_array s) arg σ) by (by destruct obj) end.
  rewrite zlen_cons, zlen_app. change (zlen [close_char obj]) with 1. unfold goes in *.
  destruct (feed_items _ _ _ _ σ) as [[err σ2]|]; [|done]. destruct (err =? 0); [|done]. rewrite H1. apply same_end; lia.
Qed.

(** A member and those that follow. *)
Lemma member_run w1 tok name w2 w3 txt j w4 tail l idx : ws w1 -> token tok -> decode_name alloc_ok (Some tok) = Some (0, Some name) -> ws w2 -> ws w3 ->
  value_run txt j -> ws w4 -> (tail = [] /\ l = []) \/ (exists t, tail = 44 :: t /\ items_run true (next_of true idx) t l) ->
  items_run true idx (w1 ++ tok ++ w2 ++ [58] ++ w3 ++ txt ++ w4 ++ tail) ((name, j) :: l).
Proof.
  intros Hw1 Ht Hn Hw2 Hw3 Hv Hw4 Htail depth fuel str len rest s arg σ Hh Hf Hd Hi. rewrite <- !app_assoc in Hh.
  destruct (ws_step true None idx w1 _ fuel str len depth s arg σ Hw1 Hh Hf Hi) as (f1 & s1 & Hf1 & Hi1 & ->). apply here_skip in Hh.
  cbn [app] in Hh. destruct (name_step idx tok w2 _ f1 _ _ depth s1 arg σ Ht Hw2 Hh Hf1 Hi1) as (f2 & s2 & Hf2 & Hi2 & ->).
  apply here_skip, here_skip in Hh. pose proof (here_skip _ _ [58] _ Hh) as Hh'. change (zlen [58]) with 1 in Hh'.
  pose proof (item_value true (Some tok) name idx w3 txt j w4 tail l depth f2 _ _ rest s2 arg σ Hv ltac:(by exists tok) Hw3 Hw4 Htail Hh' Hf2 Hd Hi2) as H1.
  rewrite !zlen_app. rewrite !zlen_app in H1. change (zlen [58]) with 1. unfold goes in *.
  destruct (feed_items _ _ _ _ σ) as [[err σ2]|]; [|done]. destruct (err =? 0); [|done]. rewrite H1. apply same_end; lia.
Qed.

Lemma text_run :
  (forall txt j, value_text txt j -> value_run txt j) /\
  (forall body l, members_text body l -> forall idx, items_run true idx body l) /\
  (forall idx body l, elements_text idx body l -> items_run false idx body l).
Proof.
  apply text_mutind.
  - intros tok v Ht Hv. left. by eauto.
  - intros body l _ IH. right. exists true, l, (body ++ [125]). split; [done|]. split; [done|].
    intros depth fuel str len rest arg σ Hh Hf Hd. apply (enter_run true body l depth fuel str len rest); try done. by exists 0.
  - intros body l _ IH. right. exists false, l, (body ++ [93]). split; [done|]. split; [done|].
    intros depth fuel str len rest arg σ Hh Hf Hd. apply (enter_run false body l depth fuel str len rest); try done. by exists 0.
  - intros w Hw idx. by apply items_none.
  - intros w1 tok name w2 w3 txt j w4 Hw1 Ht Hn Hw2 Hw3 _ Hv Hw4 idx. rewrite <- (app_nil_r w4). apply member_run; auto.
  - intros w1 tok name w2 w3 txt j w4 rest l Hw1 Ht Hn Hw2 Hw3 _ Hv Hw4 _ IH idx. apply member_run; auto. right. by exists rest.
  - intros idx w Hw. by apply items_none.
  - intros idx w1 txt j w2 Hw1 _ Hv Hw2 depth fuel str len rest s arg σ Hh Hf Hd Hi.
    rewrite <- (app_nil_r w2). rewrite <- !app_assoc in Hh. apply (item_value false None (index_name idx) idx w1 txt j w2 [] [] depth fuel str len rest); try done. by left.
  - intros idx w1 txt j w2 rest' l Hw1 _ Hv Hw2 _ IH depth fuel str len rest s arg σ Hh Hf Hd Hi.
    rewrite <- !app_assoc in Hh. apply (item_value false None (index_name idx) idx w1 txt j w2 ([44] ++ rest') l depth fuel str len rest); try done.
    right. by exists rest'.
Qed.

(** A text that is an object, with white space in front. *)
Lemma decode_feeds w body l w' arg σ : text = w ++ ([123] ++ body ++ [125]) ++ w' -> ws w -> members_text body l -> Z.of_nat (depth_of l) <= maxdepth ->
  json_decode alloc_ok h maxdepth text arg σ = feed_items true l 0 arg σ.
Proof.
  intros Et Hw Hb Hd. unfold json_decode. set (fuel := (Z.to_nat (2 * zlen text) + 2)%nat).
  assert (Hh : here 0 (zlen text) (w ++ ([123] ++ body ++ [125]) ++ w')).
  { split; [done|]. cbn [Z.to_nat]. rewrite drop_0, <- Et. done. }
  assert (Hl : zlen w <= zlen text) by (rewrite Et, zlen_app; pose proof (zlen_nonneg (([123] ++ body ++ [125]) ++ w')); lia).
  set (f := (fuel - length w)%nat). assert (Ef : fuel = (length w + f)%nat) by (unfold f, fuel, zlen in *; lia).
  pose proof (step_ws w _ f 0 (zlen text) 0 js_init arg σ Hw eq_refl Hh) as E1. apply here_skip in Hh.
  pose proof (enter_run true body l 0 f _ _ w' (add_ws (zlen w) js_init) arg σ (proj1 (proj2 text_run) body l Hb 0) ltac:(by eexists) Hh
    ltac:(unfold f, fuel, zlen in *; lia) ltac:(lia)) as H1.
  unfold mbind, M_bind. rewrite Ef, E1. unfold goes in H1. destruct (feed_items _ _ _ _ σ) as [[err σ2]|]; [|by rewrite H1].
  destruct (Z.eqb_spec err 0) as [->|Hne]; [by rewrite H1|]. by destruct H1 as (p & n & ->).
Qed.

End Feed.
End Text.
