(* ===== verification/ReJsonDict.v ===== *)
(** * JSON texts and dictionaries

    Decoding a text builds the dictionary that the text describes, printing a
    dictionary gives such a text, and a text that is refused leaves nothing
    behind. *)

From stdpp Require Import gmap.
From S2P Require Import Prelude Effects Libc Mbuf MbufProps Codec Hash HashFunc HashFuncProps Odict OdictProps ReJson ReJsonTokens ReJsonText.
Import Mb Ht Hf Od Rj.

Section Dict.
Context (alloc_ok : Z -> bool) (place : nat -> Z * list Z) `{LongDouble}.
Context (Hplace : forall e, is_bytes (place e).2 /\ (2 <= length (place e).2)%nat).
Implicit Types (s : store dbl).

Abbreviation container_add := (container_add alloc_ok place).
Abbreviation handlers := (odict_handlers alloc_ok place).

Lemma index_bytes idx : is_bytes (index_name idx).
Proof.
  unfold index_name, is_bytes. pose proof (u32_range idx). destruct (dec_digits_spec 20 (u32 idx) []) as (l & -> & _ & Hd & _); [lia|cbn; lia|done|].
  rewrite app_nil_r. eapply Forall_impl; [exact Hd|]. unfold is_digit. intros c Hc. cbn in Hc. lia.
Qed.

(** ** Adding a container *)

(** A store in which nothing but fresh identifiers has changed. *)
Definition untouched s s' : Prop := odicts s' = odicts s /\ entries s' = entries s /\ (fresh s <= fresh s')%nat /\ fresh_ok s'.

Lemma table_size key (t : hash nat) l : holds key t l -> 0 < hash_bsize t <= 2 ^ 31.
Proof.
  intros [(n & Hn & Hs) _ _]. unfold hash_bsize. rewrite Hs. split; [apply Z.pow_pos_nonneg; lia|apply Z.pow_le_mono_r; lia].
Qed.

Definition cont (obj : bool) (o : nat) : value dbl := if obj then ODICT_OBJECT o else ODICT_ARRAY o.

(** The store after a container was added: [oc] is the container, [e] its
    entry in [o]. *)
Lemma container_added obj key o oc e s s3 l O O0 E d d1 d2 : fresh_ok s -> owned s o l O E ->
  odicts s !! o = Some d -> owned_list s (lst d) l O0 E -> (o ∉ O0) -> O = {[o]} ∪ O0 -> is_bytes key ->
  oc = fresh s -> e = Datatypes.S oc -> oc <> o -> lst d1 = [] -> refs d1 = 1 -> (forall k, holds k (ht d1) []) ->
  lst d2 = lst d ++ [e] -> refs d2 = 1 -> holds (hk s3) (ht d2) (lst d2) -> fresh s3 = Datatypes.S e ->
  (forall x, odicts s3 !! x = if decide (x = oc) then Some d1 else if decide (x = o) then Some d2 else odicts s !! x) ->
  (forall x, entries s3 !! x = if decide (x = e) then Some (mk_entry key (cont obj oc)) else entries s !! x) ->
  owned s3 oc [] {[oc]} ∅ /\ opened s3 o l key (cont obj oc) O ({[e]} ∪ E) /\ grown O E (O ∪ {[oc]}) ({[e]} ∪ E) s s3.
Proof.
  intros Hf Ho Hd Hl Hn HO Hk Eoc Ee Hoc L1 R1 H1 L2 R2 Ht Ef Eod Een. destruct (owned_fresh _ _ _ _ _ Ho Hf) as [F1 F2]. rewrite <- Eoc in F1, F2.
  assert (He : e ∉ E).
  { intros Hin. destruct (proj2 (proj1 (owned_some s) _ _ _ _ Ho) e Hin) as [x Hx]. destruct (Hf e ltac:(lia)). congruence. }
  split; [|split].
  - rewrite <- (union_empty_r_L {[oc]}). apply (owned_dict s3 oc d1); [by rewrite Eod, decide_True|done| |rewrite L1; constructor|clear; set_solver].
    rewrite L1. apply H1.
  - split. exists d2, (lst d), e, O0, E. split_and!; try done.
    + by rewrite Eod, decide_False, decide_True.
    + apply (proj1 (proj2 (owned_frame s s3)) _ _ _ _ Hl). split; intros x Hx; [rewrite Eod, !decide_False|rewrite Een, decide_False]; try done;
        [intros -> ..|intros ->]; [done|by apply F1; rewrite HO; clear -Hx; set_solver|done].
    + by rewrite Een, decide_True.
  - split; try (clear; set_solver); try lia.
    + intros x Hx. apply elem_of_union in Hx as [?|Hx]; [by left|]. apply elem_of_singleton in Hx as ->. right. lia.
    + intros x Hx. apply elem_of_union in Hx as [Hx|?]; [|by left]. apply elem_of_singleton in Hx as ->. right. lia.
    + intros x Hx. rewrite Eod, !decide_False; [done|..]; intros ->; apply Hx; rewrite HO; clear; set_solver.
    + intros x Hx. rewrite Een, decide_False; [done|]. intros ->. apply Hx. clear. set_solver.
    + intros i Hi. rewrite Ef in Hi. rewrite Eod, Een. destruct (Hf i ltac:(lia)) as [Q1 Q2].
      rewrite !decide_False; [done|..]; try lia. intros ->. congruence.
Qed.

Lemma container_run obj name idx o s l O E : owned s o l O E -> fresh_ok s -> is_bytes (default (index_name idx) name) ->
  exists err oc s', container_add (cont obj) name idx o s = Some ((err, oc), s') /\ ((forall n, alloc_ok n = true) -> err = 0) /\
    ((err <> 0 /\ untouched s s') \/
     (err = 0 /\ (oc ∉ O) /\ (fresh s <= oc)%nat /\ owned s' oc [] {[oc]} ∅ /\
      exists E1, opened s' o l (default (index_name idx) name) (cont obj oc) O E1 /\ grown O E (O ∪ {[oc]}) E1 s s')).
Proof using Hplace.
  intros Ho Hf Hk. destruct (owned_root _ _ _ _ _ Ho) as (_ & d & O0 & Hd & Hr & Hh & Hl & Hn & HO).
  destruct (owned_fresh _ _ _ _ _ Ho Hf) as [F1 F2]. unfold Rj.container_add, get_od. unfold mbind at 1, M_bind at 1. rewrite Hd. cbn [mbind option_bind].
  pose proof (table_size _ _ _ Hh) as Hsz.
  destruct (odict_alloc_run alloc_ok s (hash_bsize (ht d)) Hf ltac:(lia)) as (e1 & r & s1 & E1 & A1 & C1). unfold mbind at 1, M_bind at 1. rewrite E1.
  destruct C1 as [(Hne & -> & ->)|(-> & -> & d1 & Es1 & L1 & R1 & H1)].
  { exists e1, o, s. split; [done|]. split; [intros Ha; apply A1; [done|lia]|]. left. split; [done|]. by split_and!. }
  set (oc := fresh s) in *. destruct (new_owned s d1 Hf L1 R1 H1) as [_ G1]. cbv zeta in G1. fold oc in G1. rewrite <- Es1 in G1.
  assert (Hoc : oc <> o) by (intros ->; apply F1; rewrite HO; set_solver).
  assert (Hd1 : odicts s1 !! o = Some d) by (rewrite Es1; cbn; by rewrite lookup_insert_ne).
  assert (Hoc1 : odicts s1 !! oc = Some d1) by (rewrite Es1; cbn; by rewrite lookup_insert_eq).
  assert (Hhk : forall x, hk s1 x = hk s x) by (rewrite Es1; done).
  destruct (entry_add_run alloc_ok place Hplace s1 o d (default (index_name idx) name) (cont obj oc)) as (err & s2 & E2 & A2 & C2);
    [apply (g_ok _ _ _ _ _ _ G1)|done|by apply (holds_ext (hk s))| |done| |].
  { intros x Hx. rewrite Es1. cbn. apply (proj2 (proj1 (proj2 (owned_some s)) _ _ _ _ Hl)). by apply (proj1 (proj2 (list_members s)) _ _ _ _ Hl). }
  { intros c. destruct obj; intros [= <-]; by rewrite Hoc1. }
  unfold mbind, M_bind. rewrite E2. cbn [odict_deref]. unfold get_od. unfold mbind, M_bind. destruct C2 as [[Hne ->]|(-> & t & -> & Ht)].
  - rewrite Hoc1. cbn [option_bind]. rewrite R1, L1. cbn. exists err, oc. eexists. split; [done|]. split; [done|]. left. split; [done|].
    rewrite Es1. split_and!; cbn; try done; [|lia|].
    + rewrite delete_insert_id; [done|]. by apply (Hf oc).
    + intros i Hi. cbn in *. rewrite delete_insert_id by (by apply (Hf oc)). apply Hf. lia.
  - set (key := default (index_name idx) name) in *. set (d2 := mk_odict (lst d ++ [fresh s1]) t (refs d)) in *.
    set (dr := mk_odict (lst d1) (ht d1) (refs d1 + 1)).
    assert (Ew : with_ref (cont obj oc) (odicts s1) = <[oc := dr]> (odicts s1)) by (unfold with_ref, cont; destruct obj; by rewrite Hoc1).
    rewrite Ew in *. cbn [odicts]. rewrite lookup_insert_ne by done. rewrite lookup_insert_eq. cbn [option_bind].
    replace (1 <? refs dr) with true by (cbn; lia). cbn. eexists 0, oc, _. split; [done|]. split; [done|]. right. split; [done|]. split; [done|]. split; [done|].
    replace (mk_odict (lst d1) (ht d1) (refs d1 + 1 - 1)) with d1 by (destruct d1; cbn; f_equal; lia).
    set (s3 := set_odicts _ _). set (e := fresh s1) in *. assert (Ee : e = Datatypes.S oc) by (unfold e; rewrite Es1; done).
    destruct (container_added obj key o oc e s s3 l O O0 E d d1 d2) as (W1 & W2 & W3); try done; [| |split; [done|by exists ({[e]} ∪ E)]].
    + intros x. unfold s3. cbn [odicts set_odicts]. destruct (decide (x = oc)) as [->|N1]; [by rewrite lookup_insert_eq|]. rewrite lookup_insert_ne by done.
      destruct (decide (x = o)) as [->|N2]; [by rewrite lookup_insert_eq|]. rewrite !lookup_insert_ne by done. rewrite Es1. cbn. by rewrite lookup_insert_ne.
    + intros x. unfold s3. cbn [entries set_odicts]. rewrite Es1. cbn [entries]. destruct (decide (x = e)) as [->|N1]; [by rewrite lookup_insert_eq|].
      by rewrite lookup_insert_ne.
Qed.

(** ** Any text *)

(** Adding an entry. *)
Definition value_of (v : json_value) : value dbl :=
  match v with JSON_STRING s => ODICT_STRING s | JSON_INT i => ODICT_INT i | JSON_DOUBLE d => ODICT_DOUBLE d | JSON_BOOL b => ODICT_BOOL b | JSON_NULL => ODICT_NULL end.

Lemma entry_add_eq o name v : entry_add alloc_ok place o name v = odict_entry_add alloc_ok place o name (value_of v).
Proof. by destruct v. Qed.

Lemma scalar_of v : scalar (value_of v) = Some (jv_of v).
Proof. by destruct v. Qed.

Lemma depth_jv_of v : depth (jv_of v) = 0%nat.
Proof. by destruct v. Qed.

Lemma depth_snoc (l : list (list Z * jv dbl)) k j : depth_of (l ++ [(k, j)]) = Nat.max (depth_of l) (depth j).
Proof. induction l as [|[k' j'] l IH]; cbn; [lia|]. unfold depth_of in IH. rewrite IH. lia. Qed.

Section Loop.
Context (maxdepth : Z) (text : list Z) (Htext : is_bytes text).
Abbreviation loop := (json_loop alloc_ok handlers maxdepth text).

(** Some part of the text is a number that is, or has an exponent, outside
    the range of [int64_t]: its conversion is undefined. *)
Definition undefined_number : Prop := exists i n pl, slice text i n = Some pl /\ decode_value alloc_ok pl = None.

(** What the call of a handler comes to: an error, or an entry more. *)
Definition added o l O E s (m : option (Z * store dbl)) : Prop :=
  exists err s', m = Some (err, s') /\ ((err <> 0 /\ s' = s) \/
    (err = 0 /\ exists k j O' E', depth j = 0%nat /\ owned s' o (l ++ [(k, j)]) O' E' /\ grown O E O' E' s s')).

Lemma add_added o l O E s key v : owned s o l O E -> fresh_ok s -> is_bytes key -> added o l O E s (entry_add alloc_ok place o key v s).
Proof using Hplace.
  intros Ho Hf Hk. rewrite entry_add_eq. destruct (add_scalar alloc_ok place Hplace s o l O E key (value_of v) (jv_of v) Ho Hf Hk (scalar_of v))
    as (err & s' & E1 & _ & [H1|(-> & H1 & H2)]); exists err, s' || exists 0, s'; split; try done; [by left|right].
  split; [done|]. exists key, (jv_of v), O, (E ∪ {[fresh s]}). split; [apply depth_jv_of|done].
Qed.

Lemma value_cases pl : is_bytes pl -> decode_value alloc_ok pl = None \/ (exists err, err <> 0 /\ decode_value alloc_ok pl = Some (err, None)) \/
  exists v, decode_value alloc_ok pl = Some (0, Some v).
Proof.
  intros Hb. unfold decode_value. destruct (is_string pl) as [str|] eqn:Es.
  - assert (Hs : is_bytes str) by (unfold is_string in Es; repeat case_match; try done; injection Es as <-; by apply Forall_take, Forall_drop).
    destruct (sdprintf_run alloc_ok str Hs) as (err & r & -> & H0 & H1). cbn. right. destruct (Z.eq_dec err 0) as [->|Hne].
    + destruct (H0 eq_refl) as (x & -> & _). right. by eexists.
    + rewrite (H1 Hne). left. by exists err.
  - destruct (is_number pl) as [[[v [|]]|]|]; cbn; [by eauto| |right|by left].
    2: { repeat destruct (pl_strcasecmp pl _); eauto. left. by exists EBADMSG. }
    destruct (ld_i64 v); cbn; eauto.
Qed.

Lemma name_cases pl : is_bytes pl -> (exists err, err <> 0 /\ decode_name alloc_ok (Some pl) = Some (err, None)) \/
  exists name, is_bytes name /\ decode_name alloc_ok (Some pl) = Some (0, Some name).
Proof.
  intros Hb. unfold decode_name. destruct (is_string pl) as [str|] eqn:Es; [|left; by exists EBADMSG].
  assert (Hs : is_bytes str) by (unfold is_string in Es; repeat case_match; try done; injection Es as <-; by apply Forall_take, Forall_drop).
  destruct (sdprintf_run alloc_ok str Hs) as (err & r & -> & H0 & H1). destruct (Z.eq_dec err 0) as [->|Hne].
  - destruct (H0 eq_refl) as (x & -> & Hx). right. exists x. split; [by apply nonzero_bytes|done].
  - rewrite (H1 Hne). left. by exists err.
Qed.

Lemma object_entry_run pl val i n o l O E s : owned s o l O E -> fresh_ok s -> (forall p, pl = Some p -> is_bytes p) -> slice text i n = Some val ->
  undefined_number \/ added o l O E s (object_entry alloc_ok handlers pl val o s).
Proof using Hplace Htext.
  intros Ho Hf Hp Hv.
  assert (Hbad : forall err, err <> 0 -> undefined_number \/ added o l O E s (Some (err, s))) by (intros err He; right; exists err, s; split; [done|by left]).
  unfold object_entry, mbind, M_bind, of_option. destruct pl as [pl|]; [|by apply Hbad].
  destruct (name_cases pl (Hp pl eq_refl)) as [(err & Hne & ->)|(name & Hb & ->)]; [by apply Hbad|].
  destruct (value_cases val (slice_bytes _ _ _ _ Htext Hv)) as [Hu|[(err & Hne & ->)|(v & ->)]]; [left; by exists i, n, val|by apply Hbad|].
  right. by apply add_added.
Qed.

Lemma array_entry_run idx val i n o l O E s : owned s o l O E -> fresh_ok s -> slice text i n = Some val ->
  undefined_number \/ added o l O E s (array_entry alloc_ok handlers idx val o s).
Proof using Hplace Htext.
  intros Ho Hf Hv. unfold array_entry, mbind, M_bind, of_option.
  destruct (value_cases val (slice_bytes _ _ _ _ Htext Hv)) as [Hu|[(err & Hne & ->)|(v & ->)]]; [left; by exists i, n, val| |].
  - right. exists err, s. split; [done|by left].
  - right. apply add_added; [done|done|apply index_bytes].
Qed.

(** *** The loop *)

Definition inc (st : jstate) : bool := s_inobj st || s_inarray st.
(** The loop is in a container or enters one now. *)
Definition closing (st : jstate) (str : Z) : Prop :=
  inc st = true \/ (s_inquot st = false /\ exists ch, rd text str = Some ch /\ (ch = 123 \/ ch = 91)).

Record sane (fuel : nat) (str len : Z) (st : jstate) : Prop := {
  sn_str : 0 <= str;
  sn_len : 0 <= len;
  sn_end : str + len = zlen text;
  sn_name : forall p, s_name st = Some p -> is_bytes p;
  sn_fuel : 2 * len + (if inc st then 2 else 1) <= Z.of_nat fuel }.

(** The call returned; the tree may have grown, not deeper than allowed. *)
Definition ended str len dp st o (l : list (list Z * jv dbl)) O E s (m : option (Z * Z * Z * store dbl)) : Prop :=
  exists err p n s' l' O' E', m = Some ((err, p, n), s') /\ 0 <= n <= len /\ p + n = zlen text /\ (closing st str -> err = 0 -> 0 < n) /\
    owned s' o l' O' E' /\ grown O E O' E' s s' /\ (depth_of l' <= Nat.max (depth_of l) (Z.to_nat (maxdepth - dp)))%nat.

Definition runs (fuel : nat) : Prop := forall str len dp st o l O E s, sane fuel str len st -> owned s o l O E -> fresh_ok s ->
  undefined_number \/ ended str len dp st o l O E s (loop fuel str len dp st o s).

Lemma ended_stop fuel err str len dp st o l O E s : sane fuel str len st -> (err = 0 -> 0 < len) -> owned s o l O E -> fresh_ok s ->
  ended str len dp st o l O E s (Some ((err, str, len), s)).
Proof.
  intros [S1 S2 S3 _ _] He Ho Hf. exists err, str, len, s, l, O, E. split_and!; try done; try lia. by apply grown_refl.
Qed.

Lemma ended_next str len dp st st' o l O E s m : (closing st str -> closing st' (str + 1)) ->
  ended (str + 1) (len - 1) dp st' o l O E s m -> ended str len dp st o l O E s m.
Proof.
  intros Hc (err & p & n & s' & l' & O' & E' & -> & H1 & H2 & H3 & H4). exists err, p, n, s', l', O', E'. split_and!; try done; try lia; try apply H4. auto.
Qed.

Lemma ended_grown str len dp st o l O E s k j O1 E1 s1 m : owned s1 o (l ++ [(k, j)]) O1 E1 -> grown O E O1 E1 s s1 ->
  (depth j <= Z.to_nat (maxdepth - dp))%nat -> ended str len dp st o (l ++ [(k, j)]) O1 E1 s1 m -> ended str len dp st o l O E s m.
Proof.
  intros Ho Hg Hd (err & p & n & s' & l' & O' & E' & -> & H1 & H2 & H3 & H4 & H5 & H6). exists err, p, n, s', l', O', E'. rewrite depth_snoc in H6.
  split_and!; try done; try lia. by apply (grown_trans _ _ O1 E1 _ _ s s1).
Qed.

(** After an entry, the loop stops or goes on. *)
Lemma entry_next fuel str len dp st o l O E s (m : M (store dbl) Z) (k : Z -> M (store dbl) (Z * Z * Z)) : sane fuel str len st -> 0 < len ->
  owned s o l O E -> fresh_ok s -> added o l O E s (m s) ->
  (forall err s1, k err s1 = Some ((err, str, len), s1)) \/
  (forall err s1, err <> 0 -> k err s1 = Some ((err, str, len), s1)) /\
    (forall l1 O1 E1 s1, owned s1 o l1 O1 E1 -> fresh_ok s1 -> undefined_number \/ ended str len dp st o l1 O1 E1 s1 (k 0 s1)) ->
  undefined_number \/ ended str len dp st o l O E s ((err ← m; k err) s).
Proof.
  intros Hs Hl Ho Hf (err & s' & Em & Hcase) Hk. unfold mbind, M_bind. rewrite Em. destruct Hcase as [[Hne ->]|(-> & key & j & O' & E' & Hd & Ho' & Hg)].
  - right. assert (Ek : k err s = Some ((err, str, len), s)) by (destruct Hk as [Hk|[Hk _]]; auto). rewrite Ek. by apply (ended_stop fuel).
  - assert (Hx : undefined_number \/ ended str len dp st o (l ++ [(key, j)]) O' E' s' (k 0 s')).
    { destruct Hk as [Hk|[_ Hk]]; [right; rewrite Hk; apply (ended_stop fuel); try done; apply Hg|apply Hk; [done|apply Hg]]. }
    destruct Hx as [?|Hx]; [by left|right]. apply (ended_grown _ _ _ _ _ _ _ _ _ key j O' E' s'); try done. lia.
Qed.

(** The store after an allocation failed. *)
Lemma untouched_ended fuel err str len dp st o l O E s s' : sane fuel str len st -> 0 < len -> owned s o l O E -> untouched s s' ->
  ended str len dp st o l O E s (Some ((err, str, len), s')).
Proof.
  intros [S1 S2 S3 _ _] Hl Ho (U1 & U2 & U3 & U4). exists err, str, len, s', l, O, E. split_and!; try done; try lia.
  - apply (proj1 (owned_frame s s')); [done|]. split; intros; congruence.
  - split; try done; [by left|by left|intros; congruence|intros; congruence].
Qed.

Lemma start_cases obj pl idx o s l O E : owned s o l O E -> fresh_ok s -> (forall p, pl = Some p -> is_bytes p) ->
  exists err oc s', container_start alloc_ok (Some (container_add (cont obj))) pl idx o s = Some ((err, oc), s') /\
    ((err <> 0 /\ untouched s s') \/
     (err = 0 /\ (oc ∉ O) /\ owned s' oc [] {[oc]} ∅ /\ exists k E1, opened s' o l k (cont obj oc) O E1 /\ grown O E (O ∪ {[oc]}) E1 s s')).
Proof using Hplace.
  intros Ho Hf Hp. unfold container_start.
  assert (Hname : exists err name, (match pl with None => Some (0, None) | Some _ => decode_name alloc_ok pl end) = Some (err, name) /\
    (err = 0 -> is_bytes (default (index_name idx) name))).
  { destruct pl as [pl|]; [|exists 0, None; split; [done|intros _; apply index_bytes]].
    destruct (name_cases pl (Hp _ eq_refl)) as [(err & Hne & ->)|(name & Hb & ->)]; [by exists err, None|by exists 0, (Some name)]. }
  destruct Hname as (err & name & En & Hb). unfold mbind, M_bind, of_option. rewrite En. destruct (Z.eqb_spec err 0) as [->|Hne]; cbn [negb].
  - destruct (container_run obj name idx o s l O E Ho Hf (Hb eq_refl)) as (err & oc & s' & E1 & _ & [C|(-> & C1 & _ & C2 & E' & C3)]); rewrite E1.
    + exists err, oc, s'. split; [done|by left].
    + exists 0, oc, s'. split; [done|]. right. split; [done|]. split; [done|]. split; [done|]. by eexists _, E'.
  - exists err, o, s. split; [done|]. left. by split_and!.
Qed.

(** A container in a container. *)
Lemma nested_step fuel str len dp st o l O E s obj : runs fuel -> sane (Datatypes.S fuel) str len st -> 0 < len -> inc st = true -> dp < maxdepth ->
  rd text str = Some (open_char obj) -> owned s o l O E -> fresh_ok s ->
  undefined_number \/ ended str len dp st o l O E s
    (('(err, arg') ← container_start alloc_ok (Some (container_add (cont obj))) (s_name st) (s_idx st) o;
      if negb (err =? 0) then mret (err, str, len) else
      '(err, str, len) ← loop fuel str len (dp + 1) js_init arg';
      if negb (err =? 0) then mret (err, str, len) else
      let st := drop_name st in
      loop fuel (str + 1) (len - 1) dp (if s_inarray st then next_idx st else st) o) s).
Proof using Hplace.
  intros IH Hs Hl Hi Hdp Hch Ho Hf. pose proof Hs as [S1 S2 S3 S4 S5]. rewrite Hi in S5.
  destruct (start_cases obj (s_name st) (s_idx st) o s l O E Ho Hf S4) as (err & oc & s1 & E1 & [(Hne & Hu)|(-> & Hoc & Hc & k & E' & Hop & Hg)]);
    unfold mbind at 1, M_bind at 1; rewrite E1; cbn [negb].
  { rewrite (proj2 (Z.eqb_neq _ _) Hne). right. by apply (untouched_ended (Datatypes.S fuel)). }
  cbn [negb Z.eqb]. destruct (IH str len (dp + 1) js_init oc [] {[oc]} ∅ s1) as [?|(err & p & n & s2 & lc & Oc & Ec & E2 & N1 & N2 & N3 & N4 & N5 & N6)];
    [split; try done; cbn; lia|done|apply Hg|by left|].
  specialize (N3 ltac:(right; split; [done|]; exists (open_char obj); split; [done|]; destruct obj; auto)).
  set (j := if obj then J_obj lc else J_arr lc). assert (Hv : owned_value s2 (cont obj oc) j Oc Ec) by (unfold j; destruct obj; constructor; done).
  assert (Hd : (depth j <= Z.to_nat (maxdepth - dp))%nat).
  { transitivity (Datatypes.S (depth_of lc)); [unfold j; destruct obj; reflexivity|]. cbn [depth_of foldr] in N6. lia. }
  destruct (opened_grown s s1 s2 o oc l lc k (cont obj oc) j O E E' Oc Ec) as [W1 W2]; try done.
  unfold mbind, M_bind. rewrite E2. destruct (Z.eqb_spec err 0) as [->|Hne]; cbn [negb].
  - destruct (IH (p + 1) (n - 1) dp (if s_inarray (drop_name st) then next_idx (drop_name st) else drop_name st) o (l ++ [(k, j)]) (O ∪ Oc) (E' ∪ Ec) s2)
      as [?|W3]; [|done|apply W2|by left|right].
    + specialize (N3 eq_refl). split; try lia; [by destruct (s_inarray (drop_name st))|].
      replace (inc _) with true by (destruct (s_inarray (drop_name st)); symmetry; exact Hi). lia.
    + apply (ended_grown _ _ _ _ _ _ _ _ _ k j (O ∪ Oc) (E' ∪ Ec) s2); try done.
      destruct W3 as (err & p' & n' & s' & l' & O' & E2' & -> & H1 & H2 & H3 & H4). exists err, p', n', s', l', O', E2'. split_and!; try done; try lia; try apply H4.
      intros _. apply H3. left. destruct (s_inarray (drop_name st)); exact Hi.
  - right. apply (ended_grown _ _ _ _ _ _ _ _ _ k j (O ∪ Oc) (E' ∪ Ec) s2); try done. exists err, p, n, s2, (l ++ [(k, j)]), (O ∪ Oc), (E' ∪ Ec).
    split_and!; try done; try lia. apply grown_refl, W2.
Qed.

Lemma rd_in_text i : 0 <= i < zlen text -> exists c, rd text i = Some c.
Proof using. intros Hi. unfold rd, zlen in *. replace (0 <=? i) with true by lia. apply lookup_lt_is_Some_2. lia. Qed.
Lemma rd_bound i c : rd text i = Some c -> 0 <= i < zlen text.
Proof using. unfold rd, zlen. destruct (Z.leb_spec 0 i); [|done]. intros Hc%lookup_lt_Some. lia. Qed.

Lemma chk_slice val p v : chkval text val p = Some v -> exists i n, slice text i n = Some v.
Proof. unfold chkval. destruct val as [b|]; [|done]. cbn. destruct (p <? b); [done|]. eauto. Qed.

Lemma next_run fuel str len dp st st' o l O E s : runs fuel -> sane (Datatypes.S fuel) str len st -> 0 < len -> owned s o l O E -> fresh_ok s ->
  (inc st = true -> inc st' = true) -> (closing st str -> inc st' = true) -> (forall p, s_name st' = Some p -> is_bytes p) ->
  undefined_number \/ ended str len dp st o l O E s (loop fuel (str + 1) (len - 1) dp st' o s).
Proof.
  intros IH [S1 S2 S3 S4 S5] Hl Ho Hf Hi Hc Hn. destruct (IH (str + 1) (len - 1) dp st' o l O E s) as [?|W]; try done; [|by left|right].
  - split; try lia; [done|]. destruct (inc st'); destruct (inc st); try specialize (Hi eq_refl); try done; lia.
  - apply (ended_next str len dp st st'); [|done]. intros Hc'. left. auto.
Qed.

(** A separator ends a value: the call of the handler and what follows. *)
Lemma sep_run fuel str len dp st st' i n val o l O E s : runs fuel -> sane (Datatypes.S fuel) str len st -> 0 < len -> owned s o l O E -> fresh_ok s ->
  slice text i n = Some val -> inc st = true -> inc st' = true -> (forall p, s_name st' = Some p -> is_bytes p) ->
  forall m, m = object_entry alloc_ok handlers (s_name st) val o \/ m = array_entry alloc_ok handlers (s_idx st) val o ->
  (undefined_number \/ ended str len dp st o l O E s
    ((err ← m; if negb (err =? 0) then mret (err, str, len) else loop fuel (str + 1) (len - 1) dp st' o) s)) /\
  (undefined_number \/ ended str len dp st o l O E s ((err ← m; mret (err, str, len)) s)).
Proof using Hplace Htext.
  intros IH Hs Hl Ho Hf Hv Hi Hi' Hn m Hm.
  assert (Ha : undefined_number \/ added o l O E s (m s)).
  { destruct Hm as [-> | ->]; [apply (object_entry_run _ _ i n); try done; by apply (sn_name _ _ _ _ Hs)|by apply (array_entry_run _ _ i n)]. }
  destruct Ha as [?|Ha]; [split; by left|]. split; apply (entry_next (Datatypes.S fuel)); try done; [right|by left]. split.
  - intros err s1 Hne. by rewrite (proj2 (Z.eqb_neq _ _) Hne).
  - intros l1 O1 E1 s1 Ho1 Hf1. by apply next_run.
Qed.

(** An opening brace or bracket. *)
Lemma brace_run fuel str len dp st o l O E s obj : runs fuel -> sane (Datatypes.S fuel) str len st -> 0 < len -> rd text str = Some (open_char obj) ->
  owned s o l O E -> fresh_ok s ->
  undefined_number \/ ended str len dp st o l O E s
   ((if s_inobj st || s_inarray st then
        if maxdepth <=? dp then mret (EOVERFLOW, str, len) else
        if s_inobj st && bool_decide (s_name st = None) then mret (EBADMSG, str, len) else
        '(err, arg') ← (if obj then object_start alloc_ok handlers else array_start alloc_ok handlers) (s_name st) (s_idx st) o;
        if negb (err =? 0) then mret (err, str, len) else
        '(err, str, len) ← loop fuel str len (dp + 1) js_init arg';
        if negb (err =? 0) then mret (err, str, len) else
        let s := drop_name st in
        loop fuel (str + 1) (len - 1) dp (if s_inarray s then next_idx s else s) o
      else loop fuel (str + 1) (len - 1) dp (if obj then enter_obj st else enter_array st) o) s).
Proof using Hplace Htext.
  intros IH Hs Hl Hch Ho Hf. fold (inc st). destruct (inc st) eqn:Hi.
  - destruct (Z.leb_spec maxdepth dp); [right; by apply (ended_stop (Datatypes.S fuel))|].
    destruct (_ && _); [right; by apply (ended_stop (Datatypes.S fuel))|].
    replace (if obj then object_start alloc_ok handlers else array_start alloc_ok handlers) with (container_start alloc_ok (Some (container_add (cont obj))))
      by (by destruct obj). by apply nested_step.
  - apply next_run; try done; destruct obj; unfold inc; cbn; try done; rewrite ?orb_true_r; try done; apply (sn_name _ _ _ _ Hs).
Qed.

Lemma loop_run fuel : runs fuel.
Proof using Hplace Htext.
  induction fuel as [|fuel IH]; intros str len dp st o l O E s Hs Ho Hf; [destruct Hs; destruct (inc st); lia|].
  cbn [json_loop]. destruct (Z.leb_spec len 0) as [H0|H0].
  { right. pose proof (sn_end _ _ _ _ Hs). pose proof (sn_len _ _ _ _ Hs). fold (inc st). exists (if inc st then EBADMSG else 0), str, len, s, l, O, E.
    split_and!; try done; try lia; [|by apply grown_refl]. intros [-> |(_ & ch & Hch & _)]; [done|]. apply rd_bound in Hch. lia. }
  pose proof Hs as [S1 S2 S3 S4 S5].
  destruct (rd_in_text str) as [ch Hch]; [lia|]. unfold mbind at 1, M_bind at 1, of_option at 1. rewrite Hch.
  assert (Hstop : forall err, undefined_number \/ ended str len dp st o l O E s (Some ((err, str, len), s))) by (intros err; right; by apply (ended_stop (Datatypes.S fuel))).
  assert (Hnext : (s_inquot st = true \/ (ch <> 123 /\ ch <> 91)) -> forall st', inc st' = inc st -> (s_name st' = s_name st \/ s_name st' = None) ->
    undefined_number \/ ended str len dp st o l O E s (loop fuel (str + 1) (len - 1) dp st' o s)).
  { intros Hc st' Hi Hn. apply next_run; try done; [congruence| |destruct Hn as [-> | ->]; [done|done]].
    rewrite Hi. intros [?|(Hq & c & Ec & ?)]; [done|]. assert (c = ch) as -> by congruence. destruct Hc as [?|[? ?]]; [congruence|lia]. }
  destruct (s_inquot st) eqn:Hq.
  { specialize (Hnext (or_introl eq_refl)). destruct (s_esc st); [by apply Hnext; auto|]. repeat case_match; apply Hnext; auto. }
  destruct (Z.eqb_spec ch 123) as [->|N1]; [|destruct (Z.eqb_spec ch 91) as [->|N2]].
  { by apply (brace_run fuel str len dp st o l O E s true). }
  { by apply (brace_run fuel str len dp st o l O E s false). }
  specialize (Hnext (or_intror (conj N1 N2))). cbn [orb].
  pose proof (fun val i n st' => sep_run fuel str len dp st st' i n val o l O E s IH Hs H0 Ho Hf) as Hsep.
  destruct (ch =? 58).
  { destruct (negb _ || _); [apply Hstop|]. destruct (chkval text (s_val st) (str - s_ws st)) as [val|] eqn:Ev; [|apply Hstop].
    destruct (chk_slice _ _ _ Ev) as (i & n & Hv). apply next_run; try done.
    - intros [?|(_ & c & Ec & ?)]; [done|]. assert (c = ch) by congruence. lia.
    - cbn. intros p [= <-]. by apply (slice_bytes _ _ _ _ Htext Hv). }
  destruct (chkval text (s_val st) (str - s_ws st)) as [val|] eqn:Ev.
  2: { repeat case_match; first [apply Hstop|apply Hnext; by auto]. }
  destruct (chk_slice _ _ _ Ev) as (i & n & Hv). specialize (fun st' => Hsep val i n st' Hv).
  assert (inc st = true \/ inc st = false) as [Hi|Hi] by (destruct (inc st); auto).
  - assert (Hsep' : forall m, m = object_entry alloc_ok handlers (s_name st) val o \/ m = array_entry alloc_ok handlers (s_idx st) val o -> _)
      by exact (fun m Hm => conj (fun st' A B => proj1 (Hsep st' Hi A B m Hm)) (proj2 (Hsep st Hi Hi S4 m Hm))).
    clear Hsep. repeat (first [apply Hstop | apply Hnext; by auto | apply Hsep'; by auto | match goal with |- context [if ?b then _ else _] => destruct b end]).
  - apply orb_false_iff in Hi as [I1 I2]. rewrite I1, I2. cbn [negb]. repeat case_match; first [apply Hstop|apply Hnext; by auto].
Qed.

End Loop.

(** ** The whole call *)

(** A tree built in [s] and released leaves [s]. *)
Lemma removed_grown O E s s1 s2 : fresh_ok s -> grown ∅ ∅ O E s s1 -> removed O E s1 s2 -> odicts s2 = odicts s /\ entries s2 = entries s.
Proof.
  intros Hf Hg [R1 R2 R3 R4 _]. split; apply map_eq; intros x.
  - destruct (decide (x ∈ O)) as [Hx|Hx]; [rewrite R1 by done|rewrite R3 by done; by apply (g_odicts _ _ _ _ _ _ Hg)].
    destruct (g_newO _ _ _ _ _ _ Hg x Hx) as [?%elem_of_empty|Hx']; [done|]. by destruct (Hf x Hx').
  - destruct (decide (x ∈ E)) as [Hx|Hx]; [rewrite R2 by done|rewrite R4 by done; by apply (g_entries _ _ _ _ _ _ Hg)].
    destruct (g_newE _ _ _ _ _ _ Hg x Hx) as [?%elem_of_empty|Hx']; [done|]. by destruct (Hf x Hx').
Qed.

Lemma decode_odict_run hash_size text maxdepth s : is_bytes text -> 0 <= maxdepth -> 0 <= hash_size <= 2 ^ 31 -> fresh_ok s ->
  undefined_number text \/
  exists err r s', json_decode_odict alloc_ok place hash_size text maxdepth s = Some ((err, r), s') /\
    ((err <> 0 /\ r = None /\ odicts s' = odicts s /\ entries s' = entries s) \/
     (err = 0 /\ exists o l O E, r = Some o /\ owned s' o l O E /\ grown ∅ ∅ O E s s' /\ Z.of_nat (depth_of l) <= maxdepth)).
Proof using Hplace.
  intros Ht Hm Hsz Hf. unfold json_decode_odict. unfold mbind at 1, M_bind at 1.
  destruct (odict_alloc_run alloc_ok s hash_size Hf Hsz) as (err & r & s1 & -> & _ & [(Hne & -> & ->)|(-> & -> & d & Es & L & R & Hh)]).
  { right. exists err, None, s. split; [done|by left]. }
  set (o := fresh s). destruct (new_owned s d Hf L R Hh) as [Ho Hg]. cbv zeta in Ho, Hg. rewrite <- Es in Ho, Hg. fold o in Ho, Hg.
  unfold json_decode. pose proof (zlen_nonneg text) as Hz.
  destruct (loop_run maxdepth text Ht (Z.to_nat (2 * zlen text) + 2) 0 (zlen text) 0 js_init o [] {[o]} ∅ s1) as [?|Hend];
    [split; try done; cbn; lia|done|apply Hg|by left|right].
  destruct Hend as (err & p & n & s2 & l & O & E & El & _ & _ & _ & Ho2 & Hg2 & Hd). cbn [depth_of foldr] in Hd.
  pose proof (grown_trans _ _ _ _ _ _ _ _ _ Hg Hg2) as Hg'. unfold mbind, M_bind. rewrite El. cbn [mret M_ret].
  destruct (Z.eqb_spec err 0) as [->|Hne].
  - exists 0, (Some o), s2. split; [done|]. right. split; [done|]. exists o, l, O, E. split_and!; try done. lia.
  - destruct (proj1 (deref_run s2) o l O E Ho2 (Z.to_nat maxdepth + 2)%nat s2) as (s3 & E3 & R3); [done|lia|].
    rewrite E3. exists err, None, s3. split; [done|]. left. split; [done|]. split; [done|]. by apply (removed_grown O E s s2).
Qed.

(** ** The content of a text *)

Section Fed.
Context (Hall : forall n, alloc_ok n = true).

Definition value_fed (j : jv dbl) : Prop := forall obj k idx o l O E s, owned s o l O E -> fresh_ok s -> is_bytes k -> (obj = false -> k = index_name idx) ->
  exists s' O' E', feed_value handlers obj k idx j o s = Some (0, s') /\ owned s' o (l ++ [(k, j)]) O' E' /\ grown O E O' E' s s'.
Definition items_fed (obj : bool) (idx : Z) (l : list (list Z * jv dbl)) : Prop := forall o l0 O E s, owned s o l0 O E -> fresh_ok s ->
  exists s' O' E', feed_items handlers obj l idx o s = Some (0, s') /\ owned s' o (l0 ++ l) O' E' /\ grown O E O' E' s s'.

Lemma scalar_fed v : value_fed (jv_of v).
Proof using Hall Hplace.
  intros obj k idx o l O E s Ho Hf Hk Hi. rewrite feed_token. unfold call_entry. cbn [h_oeh h_aeh odict_handlers].
  destruct (add_scalar alloc_ok place Hplace s o l O E k (value_of v) (jv_of v) Ho Hf Hk (scalar_of v)) as (err & s' & E1 & Ha & Hc).
  rewrite (Ha Hall) in *. destruct Hc as [[? _]|(_ & H1 & H2)]; [done|]. exists s', O, (E ∪ {[fresh s]}). split; [|done].
  destruct obj; [unfold object_entry_handler|unfold array_entry_handler; rewrite <- Hi by done]; by rewrite entry_add_eq.
Qed.

Lemma container_fed obj l : items_fed obj 0 l -> value_fed (container obj l).
Proof using Hall Hplace.
  intros Hl obj' k idx o l0 O E s Ho Hf Hk Hi. rewrite feed_container.
  replace (if obj then h_oh handlers else h_ah handlers) with (Some (container_add (cont obj))) by (by destruct obj). unfold call_start.
  set (name := if obj' then Some k else None). assert (En : default (index_name idx) name = k) by (unfold name; destruct obj'; [done|symmetry; auto]).
  destruct (container_run obj name idx o s l0 O E Ho Hf) as (err & oc & s1 & E1 & Ha & Hc); [by rewrite En|].
  rewrite (Ha Hall) in *. destruct Hc as [[? _]|(_ & Hoc & _ & Hown & E' & Hop & Hg)]; [done|].
  destruct (Hl oc [] {[oc]} ∅ s1 Hown ltac:(apply Hg)) as (s2 & Oc & Ec & E2 & Hown2 & Hg2). rewrite En in Hop. cbn [app] in Hown2.
  destruct (opened_grown s s1 s2 o oc l0 l k (cont obj oc) (container obj l) O E E' Oc Ec) as [W1 W2]; try done; [destruct obj; by constructor|].
  exists s2, (O ∪ Oc), (E' ∪ Ec). split; [|done]. unfold mbind, M_bind. rewrite E1. cbn [negb Z.eqb]. exact E2.
Qed.

Lemma items_fed_cons obj idx k j l : value_fed j -> is_bytes k -> (obj = false -> k = index_name idx) -> items_fed obj (next_of obj idx) l ->
  items_fed obj idx ((k, j) :: l).
Proof using.
  intros Hj Hk Hi Hl o l0 O E s Ho Hf. destruct (Hj obj k idx o l0 O E s Ho Hf Hk Hi) as (s1 & O1 & E1 & R1 & Ho1 & Hg1).
  destruct (Hl o _ O1 E1 s1 Ho1 ltac:(apply Hg1)) as (s2 & O2 & E2 & R2 & Ho2 & Hg2). exists s2, O2, E2. rewrite <- app_assoc in Ho2.
  split; [|split; [exact Ho2|by eapply grown_trans]]. cbn [feed_items]. unfold mbind, M_bind. rewrite R1. cbn [negb Z.eqb]. exact R2.
Qed.

Lemma items_fed_nil obj idx : items_fed obj idx [].
Proof using. intros o l0 O E s Ho Hf. exists s, O, E. rewrite app_nil_r. split; [done|]. split; [done|]. by apply grown_refl. Qed.

Lemma text_fed :
  (forall txt j, value_text alloc_ok txt j -> is_bytes txt -> value_fed j) /\
  (forall body l, members_text alloc_ok body l -> is_bytes body -> forall idx, items_fed true idx l) /\
  (forall idx body l, elements_text alloc_ok idx body l -> is_bytes body -> items_fed false idx l).
Proof using Hall Hplace.
  assert (Hname : forall tok name, is_bytes tok -> decode_name alloc_ok (Some tok) = Some (0, Some name) -> is_bytes name).
  { intros tok name Hb Hn. destruct (name_cases tok Hb) as [(err & Hne & E)|(nm & Hb' & E)]; congruence. }
  apply text_mutind; unfold is_bytes in *; rewrite ?Forall_app.
  - intros tok v _ _ _. apply scalar_fed.
  - intros body l _ IH Hb. rewrite !Forall_app in Hb. apply (container_fed true), IH, Hb.
  - intros body l _ IH Hb. rewrite !Forall_app in Hb. apply (container_fed false), IH, Hb.
  - intros w _ _ idx. apply items_fed_nil.
  - intros w1 tok name w2 w3 txt j w4 _ _ Hn _ _ _ IH _ Hb idx. rewrite !Forall_app in Hb. destruct Hb as (_ & Ht & _ & _ & _ & Hx & _).
    apply items_fed_cons; [by apply IH|by apply (Hname tok)|done|apply items_fed_nil].
  - intros w1 tok name w2 w3 txt j w4 rest l _ _ Hn _ _ _ IH _ _ IHl Hb idx. rewrite !Forall_app in Hb. destruct Hb as (_ & Ht & _ & _ & _ & Hx & _ & _ & Hr).
    apply items_fed_cons; [by apply IH|by apply (Hname tok)|done|by apply IHl].
  - intros idx w _ _. apply items_fed_nil.
  - intros idx w1 txt j w2 _ _ IH _ Hb. rewrite !Forall_app in Hb. destruct Hb as (_ & Hx & _).
    apply items_fed_cons; [by apply IH|apply index_bytes|done|apply items_fed_nil].
  - intros idx w1 txt j w2 rest l _ _ IH _ _ IHl Hb. rewrite !Forall_app in Hb. destruct Hb as (_ & Hx & _ & _ & Hr).
    apply items_fed_cons; [by apply IH|apply index_bytes|done|by apply IHl].
Qed.

(** A text in layout is decoded to its content. *)
Lemma decode_odict_text hash_size w body l w' maxdepth s : is_bytes body -> ws w -> members_text alloc_ok body l -> Z.of_nat (depth_of l) <= maxdepth ->
  0 < hash_size <= 2 ^ 31 -> fresh_ok s ->
  exists o s' O E, json_decode_odict alloc_ok place hash_size (w ++ ([123] ++ body ++ [125]) ++ w') maxdepth s = Some ((0, Some o), s') /\
    owned s' o l O E /\ grown ∅ ∅ O E s s'.
Proof using Hall Hplace.
  intros Hb Hw Ht Hd Hsz Hf. unfold json_decode_odict. unfold mbind at 1, M_bind at 1.
  destruct (odict_alloc_run alloc_ok s hash_size Hf ltac:(lia)) as (err & r & s1 & -> & Ha & Hc). rewrite (Ha Hall) in * by lia.
  destruct Hc as [[? _]|(_ & -> & d & Es & L & R & Hh)]; [done|]. set (o := fresh s).
  destruct (new_owned s d Hf L R Hh) as [Ho Hg]. cbv zeta in Ho, Hg. rewrite <- Es in Ho, Hg. fold o in Ho, Hg.
  destruct (proj1 (proj2 text_fed) body l Ht Hb 0 o [] {[o]} ∅ s1 Ho ltac:(apply Hg)) as (s2 & O & E & E2 & Ho2 & Hg2).
  unfold mbind, M_bind. rewrite (decode_feeds alloc_ok handlers maxdepth _ w body l w') by done. rewrite E2. cbn.
  exists o, s2, O, E. split; [done|]. split; [done|by eapply grown_trans].
Qed.

End Fed.

End Dict.
