(* ===== verification/ReJsonPrint.v ===== *)
(** * Printing dictionaries as JSON

    The text that [json_encode_odict] prints, and that it is laid out as
    [json_decode] expects it. *)

From stdpp Require Import gmap.
From S2P Require Import Prelude Effects Libc Mbuf MbufProps Codec Hash HashFunc HashFuncProps Odict OdictProps ReJson ReJsonTokens ReJsonText ReJsonDict.
Import Mb Ht Hf Od Rj.

(** ** Tokens *)

Definition nz (s : list Z) : Prop := Forall (fun c => 1 <= c < 256) s.

Lemma quoted_char c rest : 1 <= c < 256 -> quoted false (encode_char c ++ rest) = quoted false rest.
Proof.
  intros Hc. destruct (decide (c < 32)) as [Hlow|Hhigh].
  - assert (Hin : In c (seqZ 1 31)) by (apply list_elem_of_In, elem_of_seqZ; lia). revert c Hin Hc Hlow.
    enough (G : Forall (fun c => forall rest, quoted false (encode_char c ++ rest) = quoted false rest) (seqZ 1 31))
      by (intros c Hin _ _; rewrite Forall_forall in G; apply G; by apply list_elem_of_In).
    cbn. repeat constructor.
  - assert (E32 : (c <? 32) = false) by lia. unfold encode_char, QUOT, BSL. rewrite E32. repeat (case_match; [done|]). cbn. unfold QUOT, BSL.
    by repeat match goal with Hf : (c =? _) = false |- _ => rewrite Hf; clear Hf end.
Qed.

Lemma quoted_encode s : nz s -> quoted false (utf8_encode s) = true.
Proof. unfold utf8_encode. induction 1 as [|c s Hc Hs IH]; [done|]. cbn [map concat]. by rewrite quoted_char. Qed.

Lemma string_token s : nz s -> token ([QUOT] ++ utf8_encode s ++ [QUOT]).
Proof. intros Hs. left. exists (utf8_encode s). split; [done|by apply quoted_encode]. Qed.

Lemma encode_bytes s : nz s -> is_bytes (utf8_encode s).
Proof.
  unfold utf8_encode. induction 1 as [|c s Hc Hs IH]; [constructor|]. cbn [map concat]. apply Forall_app. split; [|done]. clear s Hs IH.
  assert (Hx : forall x, 0 <= hex_char x < 256).
  { intros x. unfold hex_char. destruct (rd hex_chars x) as [h|] eqn:E; cbn; [|lia]. unfold rd in E. destruct (0 <=? x); [|done].
    apply (Forall_lookup_1 (fun c => 0 <= c < 256) hex_chars _ _ ltac:(apply (bool_decide_unpack _); vm_compute; exact I) E). }
  unfold encode_char, QUOT, BSL. repeat case_match; repeat constructor; try lia; try apply Hx.
Qed.

Lemma digits_plain fuel z l : 0 <= z < 10 ^ Z.of_nat fuel -> (0 < fuel)%nat -> l = dec_digits fuel z [] ->
  l <> [] /\ Forall (fun c => special c = false) l /\ is_bytes l.
Proof.
  intros Hz Hf ->. destruct (dec_digits_spec fuel z []) as (l & -> & Hne & Hd & _); [lia|lia|lia|]. rewrite app_nil_r.
  split; [done|]. split; (eapply Forall_impl; [exact Hd|]); unfold is_digit; intros c Hc; cbn in Hc; [|lia].
  unfold special, is_ws, QUOT. rewrite !(proj2 (Z.eqb_neq _ _)) by lia. done.
Qed.

Lemma lld_token i : - 2 ^ 63 <= i < 2 ^ 63 -> token (lld i) /\ is_bytes (lld i).
Proof.
  intros Hi. unfold lld. rewrite i64_small by done. destruct (Z.ltb_spec i 0).
  - destruct (digits_plain 20 (- i) _ ltac:(cbn; lia) ltac:(lia) eq_refl) as (H1 & H2 & H3). split; [right|]; try (constructor; [lia|done]).
    split; [done|]. by constructor.
  - destruct (digits_plain 20 i _ ltac:(cbn; lia) ltac:(lia) eq_refl) as (H1 & H2 & H3). split; [by right|done].
Qed.

Section Print.
Context (alloc_ok : Z -> bool) `{LongDouble} (mant : Z) `{!LongDoubleLaws mant} (print_f : dbl -> list Z).
Context (Hall : forall n, alloc_ok n = true).

Lemma word_value (b : bool) : decode_value alloc_ok (bytes_of (if b then "true" else "false")) = Some (0, Some (JSON_BOOL b)).
Proof using All.
  pose proof ld_mant. assert (E : ld_i64 (ld_of 0) = Some 0) by (apply ld_i64_exact; cbn; nia).
  destruct b; unfold decode_value, is_number; cbn -[mypower10]; rewrite E; done.
Qed.

Lemma null_value : decode_value alloc_ok (bytes_of "null") = Some (0, Some JSON_NULL).
Proof using. done. Qed.

Lemma word_token w : w = bytes_of "true" \/ w = bytes_of "false" \/ w = bytes_of "null" -> token w /\ is_bytes w.
Proof using.
  intros [-> |[-> | ->]]; (split; [right; split; [done|]|]); apply (bool_decide_unpack _); vm_compute; exact I.
Qed.

(** ** The text of a content *)

Fixpoint print_value (j : jv dbl) : list Z :=
  let print_items := fix print_items (key : bool) (l : list (list Z * jv dbl)) : list Z :=
    match l with
    | [] => []
    | (k, j) :: l =>
      (if key then [QUOT] ++ utf8_encode k ++ [QUOT; 58] else []) ++ print_value j ++ comma (bool_decide (l = [])) ++ print_items key l
    end in
  match j with
  | J_obj l => [123] ++ print_items true l ++ [125]
  | J_arr l => [91] ++ print_items false l ++ [93]
  | J_str s => [QUOT] ++ utf8_encode s ++ [QUOT]
  | J_int i => lld i
  | J_dbl d => print_f d
  | J_bool b => bytes_of (if b then "true" else "false")
  | J_null => bytes_of "null"
  end.

Fixpoint print_items (key : bool) (l : list (list Z * jv dbl)) : list Z :=
  match l with
  | [] => []
  | (k, j) :: l =>
    (if key then [QUOT] ++ utf8_encode k ++ [QUOT; 58] else []) ++ print_value j ++ comma (bool_decide (l = [])) ++ print_items key l
  end.

Lemma print_container obj l : print_value (container obj l) = [open_char obj] ++ print_items obj l ++ [close_char obj].
Proof using. by destruct obj. Qed.

(** ** Contents that survive printing *)

(** Neither a [double], which is printed with six digits, nor the least
    integer, which is not printed. *)
Inductive plain : jv dbl -> Prop :=
| plain_str s : nz s -> plain (J_str s)
| plain_int i : Z.abs i <= 2 ^ mant -> - 2 ^ 63 < i < 2 ^ 63 -> plain (J_int i)
| plain_bool b : plain (J_bool b)
| plain_null : plain J_null
| plain_container obj l : plain_items obj 0 l -> plain (container obj l)
with plain_items : bool -> Z -> list (list Z * jv dbl) -> Prop :=
| plain_nil obj idx : plain_items obj idx []
| plain_cons (obj : bool) idx k j l : (if obj then nz k else k = index_name idx) -> plain j -> plain_items obj (next_of obj idx) l ->
    plain_items obj idx ((k, j) :: l).

Scheme plain_mut := Minimality for plain Sort Prop
  with plain_items_mut := Minimality for plain_items Sort Prop.
Combined Scheme plain_mutind from plain_mut, plain_items_mut.

Definition items_text (obj : bool) (idx : Z) (body : list Z) (l : list (list Z * jv dbl)) : Prop :=
  if obj then members_text alloc_ok body l else elements_text alloc_ok idx body l.

Lemma token_text tok v : token tok /\ is_bytes tok -> decode_value alloc_ok tok = Some (0, Some v) -> value_text alloc_ok tok (jv_of v) /\ is_bytes tok.
Proof using. intros [Ht Hb] Hv. split; [by constructor|done]. Qed.

Lemma member_text obj idx k j l t tl : (if obj : bool then nz k else k = index_name idx) -> value_text alloc_ok t j /\ is_bytes t ->
  items_text obj (next_of obj idx) tl l /\ is_bytes tl -> (l = [] -> tl = []) ->
  let txt := (if obj then [QUOT] ++ utf8_encode k ++ [QUOT; 58] else []) ++ t ++ comma (bool_decide (l = [])) ++ tl in
  items_text obj idx txt ((k, j) :: l) /\ is_bytes txt.
Proof using Hall.
  intros Hk [Ht Hb] [Htl Hbl] Hl txt. assert (Hn : ws []) by constructor. split.
  - unfold txt, items_text, next_of in *. destruct obj.
    + pose proof (string_token k Hk) as Htok. pose proof (decode_name_string alloc_ok k Hall Hk) as Hnm. set (tok := [QUOT] ++ utf8_encode k ++ [QUOT]) in *.
      replace ([QUOT] ++ utf8_encode k ++ [QUOT; 58]) with (tok ++ [58]) by (unfold tok; rewrite <- !app_assoc; done). destruct (decide (l = [])) as [->|Hne].
      * rewrite (Hl eq_refl). pose proof (mt_last alloc_ok [] tok k [] [] t j [] Hn Htok Hnm Hn Hn Ht Hn) as G. cbn [app comma bool_decide] in *. rewrite <- app_assoc. exact G.
      * rewrite (bool_decide_false _ Hne). pose proof (mt_more alloc_ok [] tok k [] [] t j [] tl l Hn Htok Hnm Hn Hn Ht Hn Htl) as G.
        cbn [app comma] in *. rewrite <- !app_assoc. exact G.
    + subst k. destruct (decide (l = [])) as [->|Hne].
      * rewrite (Hl eq_refl). exact (et_last alloc_ok idx [] t j [] Hn Ht Hn).
      * rewrite (bool_decide_false _ Hne). exact (et_more alloc_ok idx [] t j [] tl l Hn Ht Hn Htl).
  - unfold txt, is_bytes in *. rewrite !Forall_app. split_and!; [|done|destruct (bool_decide _); repeat constructor; lia|done].
    destruct obj; [|constructor]. rewrite !Forall_app. split_and!; [repeat constructor; done|by apply encode_bytes|repeat constructor; done].
Qed.

(** What is printed is laid out as the decoder expects it. *)
Lemma plain_text :
  (forall j, plain j -> value_text alloc_ok (print_value j) j /\ is_bytes (print_value j)) /\
  (forall obj idx l, plain_items obj idx l -> items_text obj idx (print_items obj l) l /\ is_bytes (print_items obj l)).
Proof using All.
  apply plain_mutind.
  - intros s Hs. apply (token_text _ (JSON_STRING s)); [|by apply decode_value_string]. split; [by apply string_token|].
    unfold is_bytes. cbn [print_value]. rewrite !Forall_app. split_and!; [repeat constructor; done|by apply encode_bytes|repeat constructor; done].
  - intros i Hm Hi. apply (token_text _ (JSON_INT i)); [apply lld_token; lia|apply (decode_value_int _ mant); lia].
  - intros b. apply (token_text _ (JSON_BOOL b)); [|apply word_value]. apply word_token. destruct b; auto.
  - apply (token_text _ JSON_NULL); [|apply null_value]. apply word_token. auto.
  - intros obj l _ [IH Hb]. rewrite print_container. split.
    + destruct obj; by constructor.
    + unfold is_bytes. rewrite !Forall_app. destruct obj; split_and!; try done; repeat constructor; done.
  - intros [|] idx; (split; [|apply Forall_nil_2]); [apply mt_none|apply et_none]; constructor.
  - intros obj idx k j l Hk _ IHj _ IHl. apply member_text; [done|done|done|]. by intros ->.
Qed.

(** ** The text of a tree *)

Lemma encode_container fuel e s k c (key : bool) : entries s !! e = Some (mk_entry k (if key then ODICT_OBJECT c else ODICT_ARRAY c)) ->
  encode_entry print_f (S fuel) e s =
    (d ← get_od c; t ← encode_items (encode_entry print_f fuel) key (lst d); mret ([open_char key] ++ t ++ [close_char key])) s.
Proof using.
  intros He. cbn [encode_entry]. unfold get_entry. unfold mbind at 1, M_bind at 1. rewrite He. by destruct key.
Qed.

Lemma plain_container_inv obj l : plain (container obj l) -> plain_items obj 0 l.
Proof using.
  intros Hp. inversion Hp as [? ? E|? ? ? E|? E|E|obj' l' Hl E]; destruct obj; try discriminate;
    destruct obj'; try discriminate; by injection E as <-.
Qed.

Lemma encode_run s :
  (forall o l O E, owned s o l O E -> forall fuel key idx d, plain_items key idx l -> odicts s !! o = Some d -> (depth_of l < fuel)%nat ->
     encode_items (encode_entry print_f fuel) key (lst d) s = Some (print_items key l, s)) /\
  (forall es l O E, owned_list s es l O E -> forall fuel key idx, plain_items key idx l -> (depth_of l < fuel)%nat ->
     encode_items (encode_entry print_f fuel) key es s = Some (print_items key l, s)) /\
  (forall v j O E, owned_value s v j O E -> forall fuel e k, plain j -> entries s !! e = Some (mk_entry k v) -> (depth j < fuel)%nat ->
     encode_entry print_f fuel e s = Some (print_value j, s)).
Proof using.
  apply owned_mutind.
  - intros o d l O E Hd _ _ _ IH _ fuel key idx d' Hp Hd' Hf. rewrite Hd in Hd'. injection Hd' as <-. by apply (IH fuel key idx).
  - done.
  - intros e k v j es l O1 E1 O2 E2 He _ _ IHv Hl IHl _ _ _ _ fuel key idx Hp Hf. cbn [depth_of foldr snd] in Hf. fold (depth_of l) in Hf. inversion Hp; subst.
    cbn [encode_items print_items]. unfold get_entry, mbind, M_bind. rewrite He. cbn [option_bind]. rewrite (IHv fuel e k ltac:(done) He ltac:(lia)), (IHl fuel key (next_of key idx) ltac:(done) ltac:(lia)).
    replace (bool_decide (es = [])) with (bool_decide (l = [])); [done|]. by destruct Hl.
  - intros o l O E Ho IH fuel e k Hp He Hf. destruct fuel as [|fuel]; [lia|]. apply (plain_container_inv true) in Hp. change (depth (J_obj l)) with (S (depth_of l)) in Hf.
    rewrite (encode_container fuel e s k o true He). destruct (owned_root _ _ _ _ _ Ho) as (_ & d & _ & Hd & _).
    unfold get_od, mbind, M_bind. rewrite Hd. cbn -[encode_items]. by rewrite (IH fuel true 0 d Hp Hd ltac:(lia)).
  - intros o l O E Ho IH fuel e k Hp He Hf. destruct fuel as [|fuel]; [lia|]. apply (plain_container_inv false) in Hp. change (depth (J_arr l)) with (S (depth_of l)) in Hf.
    rewrite (encode_container fuel e s k o false He). destruct (owned_root _ _ _ _ _ Ho) as (_ & d & _ & Hd & _).
    unfold get_od, mbind, M_bind. rewrite Hd. cbn -[encode_items]. by rewrite (IH fuel false 0 d Hp Hd ltac:(lia)).
  - intros v j Hv [|fuel] e k Hp He Hf; [lia|]. cbn [encode_entry]. unfold get_entry. unfold mbind at 1, M_bind at 1. rewrite He. cbn [mbind option_bind e_val].
    destruct v; try done; injection Hv as <-; try done. inversion Hp as [|i0 Hm Hi| | |[] ? ? E]; try discriminate. subst.
    unfold print_lld. by rewrite (proj2 (Z.eqb_neq _ _)) by lia.
Qed.

Lemma encode_odict_run s o l O E fuel : owned s o l O E -> plain_items true 0 l -> (depth_of l < fuel)%nat ->
  json_encode_odict print_f fuel o s = Some ([123] ++ print_items true l ++ [125], s).
Proof using.
  intros Ho Hp Hf. destruct (owned_root _ _ _ _ _ Ho) as (_ & d & _ & Hd & _). unfold json_encode_odict, get_od, mbind, M_bind. rewrite Hd. cbn -[encode_items].
  by rewrite (proj1 (encode_run s) _ _ _ _ Ho fuel true 0 d Hp Hd Hf).
Qed.

End Print.
