(* ===== verification/ReJsonTheorems.v ===== *)
(** * Theorems on the JSON codec of libre

    What decoding a text gives, that a text which is refused leaves nothing
    behind, and that what is printed is decoded to the same content.  The
    theorems hold for every [long double] whose integers are exact; the
    rationals are one. *)

From stdpp Require Import gmap.
From Stdlib Require Import QArith.
From S2P Require Import Prelude Effects Libc Mbuf MbufProps Codec Hash HashFunc HashFuncProps Odict OdictProps ReJson ReJsonTokens ReJsonText ReJsonDict ReJsonPrint.
Import Mb Ht Hf Od Rj.
#[local] Open Scope Z_scope.

(** ** Rationals *)

#[local] Instance ld_rational : LongDouble := {
  ld := Q; dbl := Q;
  ld_of z := z # 1;
  ld_add := Qplus; ld_mul := Qmult; ld_div := Qdiv; ld_opp := Qopp;
  ld_i64 q := let t := Z.quot (Qnum q) (Zpos (Qden q)) in if (- 2 ^ 63 <=? t) && (t <? 2 ^ 63) then Some t else None;
  ld_dbl := Qred }.

#[local] Instance ld_rational_laws : LongDoubleLaws 64.
Proof.
  split; [done|..]; cbn; intros.
  - unfold Qplus. cbn. by rewrite !Z.mul_1_r.
  - done.
  - done.
  - rewrite Z.quot_1_r. by replace ((- 2 ^ 63 <=? x) && (x <? 2 ^ 63)) with true by lia.
Qed.

(** %f of a rational. *)
Definition print_q (q : Q) : list Z :=
  let n := Z.quot (Z.abs (Qnum q) * 1000000) (Zpos (Qden q)) in
  (if Qnum q <? 0 then [45] else []) ++ dec_digits 20 (n / 1000000) [] ++ [46] ++ drop 1 (dec_digits 20 (1000000 + n mod 1000000) []).

(** The content of the examples: a name that is there twice, an array, and a
    string with characters to escape; [x] stands for a value of any kind. *)
Definition sample_of (x : jv Q) : list (list Z * jv Q) :=
  [(bytes_of "a", J_arr [(bytes_of "0", J_int (-12)); (bytes_of "1", x); (bytes_of "2", J_str [120; 34; 10; 7; 121])]);
   (bytes_of "a", J_obj [(bytes_of "b", J_bool true); (bytes_of "c", J_null)])].

Definition sample : list (list Z * jv Q) := sample_of (J_dbl (1 # 2)).
Definition sample_exact : list (list Z * jv Q) := sample_of (J_int (2 ^ 63 - 1)).

Ltac by_decide := apply (bool_decide_eq_true_1 _); vm_compute; reflexivity.

Lemma sample_plain : plain_items 64 true 0 sample_exact.
Proof.
  constructor; [by_decide| |constructor; [by_decide| |constructor]].
  - refine (@plain_container ld_rational 64 false _ _). constructor; [done|by apply (@plain_int ld_rational)|]. constructor; [done|by apply (@plain_int ld_rational)|].
    constructor; [done| |constructor]. apply (@plain_str ld_rational). by_decide.
  - refine (@plain_container ld_rational 64 true _ _). repeat (constructor; [by_decide|constructor|]). constructor.
Qed.

(** The text of a sample, from the text of its value. *)
Lemma sample_text_of x : let P := print_value print_q x in
  value_text (fun _ => true) P x /\ is_bytes P ->
  members_text (fun _ => true) (print_items print_q true (sample_of x)) (sample_of x) /\ is_bytes (print_items print_q true (sample_of x)).
Proof.
  intros P Hx. pose proof (proj1 (@plain_text (fun _ => true) ld_rational 64 ld_rational_laws print_q (fun _ => eq_refl))) as Hv.
  pose proof (proj2 (@plain_text (fun _ => true) ld_rational 64 ld_rational_laws print_q (fun _ => eq_refl))) as Hi.
  pose proof (member_text (fun _ => true) (fun _ => eq_refl)) as Hm.
  assert (Harr : let l := [(bytes_of "0", J_int (-12)); (bytes_of "1", x); (bytes_of "2", J_str [120; 34; 10; 7; 121])] in
    value_text (fun _ => true) (print_value print_q (J_arr l)) (J_arr l) /\ is_bytes (print_value print_q (J_arr l))).
  { intros l. enough (Hl : items_text (fun _ => true) false 0 (print_items print_q false l) l /\ is_bytes (print_items print_q false l)).
    { change (J_arr l) with (container false l). rewrite print_container. destruct Hl as [H1 H2]. split; [by constructor|].
      unfold is_bytes. rewrite !Forall_app. split_and!; [by_decide|done|by_decide]. }
    apply (Hm false 0); [done|apply Hv; by apply (@plain_int ld_rational)| |done].
    apply (Hm false 1); [done|exact Hx| |done].
    apply (Hi false 2 [(bytes_of "2", J_str _)]). constructor; [done| |constructor]. apply (@plain_str ld_rational). by_decide. }
  apply (Hm true 0); [by_decide|exact Harr| |done].
  apply (Hi true 0 [(bytes_of "a", J_obj _)]). constructor; [by_decide| |constructor]. refine (@plain_container ld_rational 64 true _ _).
  repeat (constructor; [by_decide|constructor|]). constructor.
Qed.

Lemma half_text : value_text (fun _ => true) (print_q (1 # 2)) (J_dbl (1 # 2)) /\ is_bytes (print_q (1 # 2)).
Proof.
  assert (E : print_q (1 # 2) = bytes_of "0.500000") by reflexivity. rewrite E.
  apply (@token_text _ ld_rational _ (@JSON_DOUBLE ld_rational (1 # 2))); [|reflexivity]. split; [right; split; [done|]|]; by_decide.
Qed.

Lemma sample_text : members_text (fun _ => true) (print_items print_q true sample) sample /\ is_bytes (print_items print_q true sample).
Proof. apply sample_text_of, half_text. Qed.

(** Where the keys of the examples lie. *)
Definition anywhere (e : nat) : Z * list Z := (Z.of_nat e, [0; 0]).
Lemma anywhere_ok e : is_bytes (anywhere e).2 /\ (2 <= length (anywhere e).2)%nat.
Proof. split; [|cbn; lia]. repeat constructor; done. Qed.

Definition empty_store : store Q := mk_store ∅ ∅ 0.
Lemma empty_fresh : fresh_ok empty_store.
Proof. by intros i _. Qed.

(** ** Trees that do not touch each other *)

Lemma grown_agree {D} O E O' E' (s s' : store D) o l : owned s o l O E -> fresh_ok s -> grown ∅ ∅ O' E' s s' -> owned s' o l O E /\ O ## O' /\ E ## E'.
Proof.
  intros Ho Hf Hg. destruct (proj1 (owned_some s) _ _ _ _ Ho) as [S1 S2].
  assert (D1 : forall x, x ∈ O -> x ∉ O').
  { intros x Hx Hx'. destruct (g_newO _ _ _ _ _ _ Hg x Hx') as [?%elem_of_empty|H3]; [done|]. destruct (S1 x Hx), (Hf x H3). congruence. }
  assert (D2 : forall x, x ∈ E -> x ∉ E').
  { intros x Hx Hx'. destruct (g_newE _ _ _ _ _ _ Hg x Hx') as [?%elem_of_empty|H3]; [done|]. destruct (S2 x Hx), (Hf x H3). congruence. }
  split; [|by split]. apply (proj1 (owned_frame s s')); [done|].
  split; intros x Hx; [by apply (g_odicts _ _ _ _ _ _ Hg), D1|by apply (g_entries _ _ _ _ _ _ Hg), D2].
Qed.

(** ** Theorems *)



(** C15: A text that is laid out as JSON - an object with white space in front
    and between its tokens, whose names and values decode - is decoded to a
    dictionary of exactly its members, in their order; what follows the
    closing brace does not matter.  [odict_lookup] then finds the first member
    of a name, wherever the caller's copy of the name lies, and only a name
    that is there. *)
Theorem json_decode_lookup `{LongDouble} alloc_ok place (s : store dbl) hash_size maxdepth w body l w' :
  (forall n, alloc_ok n = true) -> (forall e, is_bytes (place e).2 /\ (2 <= length (place e).2)%nat) ->
  fresh_ok s -> 0 < hash_size <= 2 ^ 31 -> is_bytes body -> ws w -> members_text alloc_ok body l -> Z.of_nat (depth_of l) <= maxdepth ->
  exists o s' O E, json_decode_odict alloc_ok place hash_size (w ++ ([123] ++ body ++ [125]) ++ w') maxdepth s = Some ((0, Some o), s') /\
    owned s' o l O E /\ grown ∅ ∅ O E s s' /\
    forall addr key after, is_bytes key -> is_bytes after -> (2 <= length after)%nat ->
      exists r, odict_lookup o addr key after s' = Some (r, s') /\
        match r with
        | Some e => exists v j Ov Ev, entries s' !! e = Some (mk_entry key v) /\ first_of key l = Some j /\ owned_value s' v j Ov Ev
        | None => first_of key l = None
        end.
Proof.
  intros Ha Hp Hf Hs Hb Hw Ht Hd. destruct (decode_odict_text alloc_ok place Hp Ha hash_size w body l w' maxdepth s Hb Hw Ht Hd Hs Hf) as (o & s' & O & E & E1 & Ho & Hg).
  exists o, s', O, E. split; [done|]. split; [done|]. split; [done|]. intros addr key after Hk Hafter H2. by apply (lookup_run s' o l O E).
Qed.

(** In a text with white space and something behind the object. *)
Lemma json_decode_lookup_witness : exists o s' e v, 
  json_decode_odict (fun _ => true) anywhere 32 ([32; 10] ++ ([123] ++ print_items print_q true sample ++ [125]) ++ bytes_of "}x") 2 empty_store = Some ((0, Some o), s') /\
  odict_lookup o 77 (bytes_of "a") [0; 0] s' = Some (Some e, s') /\ odict_lookup o 77 (bytes_of "b") [0; 0] s' = Some (None, s') /\
  entries s' !! e = Some (mk_entry (bytes_of "a") v) /\ type_of v = T_ARRAY.
Proof.
  destruct sample_text as [Ht Hb].
  destruct (@json_decode_lookup ld_rational (fun _ => true) anywhere empty_store 32 2 [32; 10] _ sample (bytes_of "}x") ltac:(done) anywhere_ok empty_fresh ltac:(lia) Hb
    ltac:(repeat constructor) Ht) as (o & s' & O & E & E1 & _ & _ & HL); [cbn; lia|].
  assert (exists j, first_of (bytes_of "a") sample = Some (J_arr j)) as [ja F1] by (eexists; reflexivity).
  assert (F2 : first_of (bytes_of "b") sample = None) by reflexivity.
  destruct (HL 77 (bytes_of "a") [0; 0]) as ([e|] & L1 & H1); [by_decide|by_decide|cbn; lia| |discriminate (eq_trans (eq_sym F1) H1)].
  destruct (HL 77 (bytes_of "b") [0; 0]) as ([e'|] & L2 & H2); [by_decide|by_decide|cbn; lia| |].
  { destruct H2 as (v & j & Ov & Ev & _ & Hj & _). discriminate (eq_trans (eq_sym F2) Hj). }
  destruct H1 as (v & j & Ov & Ev & He & Hj & Hv). exists o, s', e, v.
  split; [exact E1|split; [exact L1|split; [exact L2|split; [exact He|]]]]. pose proof (eq_trans (eq_sym F1) Hj) as Ej. injection Ej as <-. inversion Hv as [| |? ? Hsc]; [reflexivity|].
  destruct v; discriminate Hsc.
Defined.


(** An object that breaks off in a nested one, whose first container could be
    allocated. *)
Definition broken_text : list Z := bytes_of "{" ++ [34; 97; 34; 58; 123; 34; 98; 34; 58; 49; 44].

