(* ===== verification/Websock.v ===== *)
(** * Web sockets

    Models re/src/websock/websock.c: frames, connections with their reference
    counts, timers and handlers, and the socket that closes when its last
    connection is gone.  HTTP messages, SHA-1, random bytes and the results of
    TCP are parameters; what goes to the peer and to the application is
    logged. *)

From stdpp Require Import gmap.
From S2P Require Import Prelude Effects Mbuf MbufProps Codec Base64.
Import Mb B64.

Module Ws.

Definition ENODATA : Z := 61.
Definition ENOTCONN : Z := 107.

Definition TIMEOUT_CLOSE : Z := 10000.
Definition BUFSIZE_MAX : Z := 131072.

Definition WEBSOCK_CONT : Z := 0x0.
Definition WEBSOCK_TEXT : Z := 0x1.
Definition WEBSOCK_BIN : Z := 0x2.
Definition WEBSOCK_CLOSE : Z := 0x8.
Definition WEBSOCK_PING : Z := 0x9.
Definition WEBSOCK_PONG : Z := 0xa.

Definition WEBSOCK_GOING_AWAY : Z := 1001.
Definition WEBSOCK_PROTOCOL_ERROR : Z := 1002.
Definition WEBSOCK_MESSAGE_TOO_BIG : Z := 1009.
Definition WEBSOCK_INTERNAL_ERROR : Z := 1011.

Record websock_hdr := mk_hdr {
  fin : Z; rsv1 : Z; rsv2 : Z; rsv3 : Z; opcode : Z; mask : Z; hlen : Z; mkey : list Z }.

Definition websock_err2scode (err : Z) : Z :=
  if err =? EOVERFLOW then WEBSOCK_MESSAGE_TOO_BIG
  else if err =? EPROTO then WEBSOCK_PROTOCOL_ERROR
  else if err =? EBADMSG then WEBSOCK_PROTOCOL_ERROR
  else WEBSOCK_INTERNAL_ERROR.

(** ** Frames *)

Definition xor_key (key p : list Z) : list Z := imap (fun i b => Z.lxor b (default 0 (key !! (i mod 4)%nat))) p.

(** The loop over [len] bytes at the position. *)
Definition xor_buf (key : list Z) (len : Z) : M mbuf unit := fun mb =>
  if len =? 0 then Some (tt, mb) else
  b ← mb_buf mb;
  p ← slice b (mb_pos mb) len;
  l ← splice b (mb_pos mb) (xor_key key p);
  Some (tt, set_bytes l mb).

(** The code and the header; the header of a frame that is not complete is
    not used. *)
Definition websock_decode : M mbuf (Z * websock_hdr) :=
  let no_hdr := mk_hdr 0 0 0 0 0 0 0 [] in
  left ← gets mbuf_get_left;
  if left <? 2 then mret (ENODATA, no_hdr) else
  v ← mbuf_read_u8;
  let fin := Z.land (Z.shiftr v 7) 0x1 in
  let rsv1 := Z.land (Z.shiftr v 6) 0x1 in
  let rsv2 := Z.land (Z.shiftr v 5) 0x1 in
  let rsv3 := Z.land (Z.shiftr v 4) 0x1 in
  let opcode := Z.land v 0x0f in
  v ← mbuf_read_u8;
  let mask := Z.land (Z.shiftr v 7) 0x1 in
  let len := Z.land v 0x7f in
  left ← gets mbuf_get_left;
  len ← (if len =? 126 then
           if left <? 2 then mret None else v ← mbuf_read_u16; mret (Some (ntohs v))
         else if len =? 127 then
           if left <? 8 then mret None else v ← mbuf_read_u64; mret (Some (htonll v))
         else mret (Some len));
  match len with
  | None => mret (ENODATA, no_hdr)
  | Some len =>
    left ← gets mbuf_get_left;
    if negb (mask =? 0) then
      if left <? u64 (4 + len) then mret (ENODATA, no_hdr) else
      k0 ← mbuf_read_u8; k1 ← mbuf_read_u8; k2 ← mbuf_read_u8; k3 ← mbuf_read_u8;
      xor_buf [k0; k1; k2; k3] len ;;
      mret (0, mk_hdr fin rsv1 rsv2 rsv3 opcode mask len [k0; k1; k2; k3])
    else
      if left <? len then mret (ENODATA, no_hdr) else
      mret (0, mk_hdr fin rsv1 rsv2 rsv3 opcode mask len [])
  end.

Section Alloc.
Context (alloc_ok : Z -> bool) (junk : Z -> Z).

(** [key]: the masking key that was drawn, if there is one. *)
Definition websock_encode (f : bool) (op : Z) (msk : bool) (key : list Z) (len : Z) : M mbuf Z :=
  let m := Z.shiftl (Z.b2z msk) 7 in
  let header :=
    write8 alloc_ok junk (Z.lor (Z.shiftl (Z.b2z f) 7) (Z.land op 0x0f)) |;
    (if 0xffff <? len then write8 alloc_ok junk (Z.lor m 127) |; write64 alloc_ok junk len
     else if 125 <? len then write8 alloc_ok junk (Z.lor m 126) |; write16 alloc_ok junk len
     else write8 alloc_ok junk (Z.lor m len)) in
  if negb msk then header else
  err ← (header |; write_mem alloc_ok junk key);
  xor_buf key len ;;
  mret err.

(** The bytes that [websock_vsend] hands to TCP; [text]: what the format
    prints, written in one piece. *)
Definition frame_out (active : bool) (key : list Z) (op scode : Z) (text : option (list Z)) : option (Z * list Z) :=
  let hsz := if active then 14 else 10 in
  match mbuf_alloc alloc_ok junk 2048 with
  | None => Some (ENOMEM, [])
  | Some mb =>
    let mb := set_pos hsz mb in
    '(e1, mb) ← (if scode =? 0 then Some (0, mb) else write16 alloc_ok junk scode mb);
    '(e2, mb) ← match text with None => Some (0, mb) | Some t => write_mem alloc_ok junk t mb end;
    let err := Z.lor e1 e2 in
    if negb (err =? 0) then Some (err, []) else
    let len := mb_pos mb - hsz in
    let start := if 0xffff <? len then 0 else if 125 <? len then 6 else 8 in
    '(err, mb) ← websock_encode true op active key len (set_pos start mb);
    if negb (err =? 0) then Some (err, []) else
    let mb := set_pos start mb in
    d ← (if mbuf_get_left mb =? 0 then Some [] else b ← mb_buf mb; slice b start (mbuf_get_left mb));
    Some (0, d)
  end.

(** ** Connections *)

Inductive websock_state := ACCEPTING | CONNECTING | OPEN | CLOSING | CLOSED.
#[global] Instance websock_state_eq : EqDecision websock_state.
Proof. solve_decision. Defined.
Inductive timer := Keepalive | Timeout.
#[global] Instance timer_eq : EqDecision timer.
Proof. solve_decision. Defined.

(** [c_tmr]: the handler and the interval of the running timer; [c_tc]:
    whether there is a TCP connection, with the handlers of this file;
    [c_own]: whether the handlers are those of the application; [c_sock]:
    whether it has its reference to the socket; [held]: whether the
    application has its reference to the connection. *)
Record websock_conn := mk_conn {
  c_tmr : option (timer * Z);
  nonce : list Z;
  c_sock : bool;
  c_tc : bool;
  c_mb : option mbuf;
  c_own : bool;
  state : websock_state;
  kaint : Z;
  active : bool;
  refs : Z;
  held : bool }.

Record websock := mk_sock { s_shutdown : bool; s_refs : Z }.

Inductive event :=
| Ev_send (c : nat) (d : list Z)
| Ev_estab (c : nat)
| Ev_recv (c : nat) (h : websock_hdr) (payload : list Z)
| Ev_close (c : nat) (err : Z)
| Ev_free (c : nat)
| Ev_shutdown.

Record world := mk_world { conns : gmap nat websock_conn; sock : option websock; log : list event; draws : nat }.
Abbreviation W := (M world).

Definition upd_tmr (x : option (timer * Z)) (d : websock_conn) := mk_conn x (nonce d) (c_sock d) (c_tc d) (c_mb d) (c_own d) (state d) (kaint d) (active d) (refs d) (held d).
Definition upd_mb (x : option mbuf) (d : websock_conn) := mk_conn (c_tmr d) (nonce d) (c_sock d) (c_tc d) x (c_own d) (state d) (kaint d) (active d) (refs d) (held d).
Definition upd_state (x : websock_state) (d : websock_conn) := mk_conn (c_tmr d) (nonce d) (c_sock d) (c_tc d) (c_mb d) (c_own d) x (kaint d) (active d) (refs d) (held d).
Definition upd_refs (x : Z) (d : websock_conn) := mk_conn (c_tmr d) (nonce d) (c_sock d) (c_tc d) (c_mb d) (c_own d) (state d) (kaint d) (active d) x (held d).
Definition upd_tc (x : bool) (d : websock_conn) := mk_conn (c_tmr d) (nonce d) (c_sock d) x (c_mb d) (c_own d) (state d) (kaint d) (active d) (refs d) (held d).
Definition upd_own (x : bool) (d : websock_conn) := mk_conn (c_tmr d) (nonce d) (c_sock d) (c_tc d) (c_mb d) x (state d) (kaint d) (active d) (refs d) (held d).
Definition upd_held (x : bool) (d : websock_conn) := mk_conn (c_tmr d) (nonce d) (c_sock d) (c_tc d) (c_mb d) (c_own d) (state d) (kaint d) (active d) (refs d) x.

Definition get_conn (c : nat) : W websock_conn := fun w => d ← conns w !! c; Some (d, w).
Definition set_conns (x : gmap nat websock_conn) (w : world) : world := mk_world x (sock w) (log w) (draws w).
Definition upd_conn (c : nat) (f : websock_conn -> websock_conn) : W unit :=
  d ← get_conn c; modify (fun w => set_conns (<[c := f d]> (conns w)) w).
Definition emit (e : event) : W unit := modify (fun w => mk_world (conns w) (sock w) (log w ++ [e]) (draws w)).

(** [rnd]: the random bytes of a draw; [send_err]: the result of [tcp_send],
    which may depend on everything that was sent before. *)
Context (rnd : nat -> Z -> list Z) (send_err : list event -> Z).

Definition rand_bytes (n : Z) : W (list Z) :=
  k ← gets draws; modify (fun w => mk_world (conns w) (sock w) (log w) (S k)) ;; mret (rnd k n).

(** The key is drawn first; [websock_encode] draws it when it writes it. *)
Definition websock_vsend (c : nat) (op scode : Z) (text : option (list Z)) : W Z :=
  d ← get_conn c;
  if bool_decide (state d <> OPEN) then mret ENOTCONN else
  key ← (if active d then rand_bytes 4 else mret []);
  '(err, out) ← of_option (frame_out (active d) key op scode text);
  if negb (err =? 0) then mret err else
  if negb (c_tc d) then mret EINVAL else
  err ← gets (fun w => send_err (log w));
  emit (Ev_send c out) ;;
  mret err.

Definition websock_send (c : nat) (op : Z) (text : option (list Z)) : W Z := websock_vsend c op 0 text.

Definition websock_close (c : nat) (scode : Z) (text : option (list Z)) : W Z :=
  let text := if scode =? 0 then None else text in
  err ← websock_vsend c WEBSOCK_CLOSE scode text;
  when (err =? 0) (upd_conn c (upd_state CLOSING)) ;;
  mret err.

(** [mem_deref] of the socket, with its destructor; [has_shuth]: whether there
    is a shutdown handler. *)
Context (has_shuth : bool).

Definition put_sock (s : option websock) : W unit := modify (fun w => mk_world (conns w) s (log w) (draws w)).
Definition sock_deref : W unit :=
  s ← (fun w => s ← sock w; Some (s, w));
  if 1 <? s_refs s then put_sock (Some (mk_sock (s_shutdown s) (s_refs s - 1)))
  else if s_shutdown s then put_sock (Some (mk_sock false 1)) ;; when has_shuth (emit Ev_shutdown)
  else put_sock None.

Definition websock_shutdown : W unit :=
  s ← (fun w => s ← sock w; Some (s, w));
  if s_shutdown s then mret tt else
  put_sock (Some (mk_sock true (s_refs s))) ;; sock_deref.

Definition going_away : option (list Z) := Some (bytes_of "Going Away").

(** The destructor of a connection, whose last reference was dropped. *)
Definition conn_destructor (c : nat) : W unit :=
  d ← get_conn c;
  when (bool_decide (state d = OPEN)) (websock_close c WEBSOCK_GOING_AWAY going_away ;; mret tt) ;;
  d ← get_conn c;
  if bool_decide (state d = CLOSING) then
    upd_conn c (fun d => upd_refs (refs d + 1) (upd_tmr (Some (Timeout, TIMEOUT_CLOSE)) (upd_own false d)))
  else
    modify (fun w => set_conns (delete c (conns w)) w) ;;
    emit (Ev_free c) ;;
    when (c_sock d) sock_deref.

(** [mem_deref] of a connection. *)
Definition conn_deref (c : nat) : W unit :=
  d ← get_conn c;
  upd_conn c (upd_refs (refs d - 1)) ;;
  when (refs d <=? 1) (conn_destructor c).

(** ** The application *)

(** What a handler of the application does with its connection, as long as it
    has its reference. *)
Inductive action := A_send (op : Z) (text : option (list Z)) | A_close (scode : Z) (text : option (list Z)) | A_release.

Definition run_action (c : nat) (a : action) : W unit :=
  x ← gets (fun w => conns w !! c);
  match x with
  | Some d =>
    if negb (held d) then mret tt else
    match a with
    | A_send op text => websock_send c op text ;; mret tt
    | A_close scode text => websock_close c scode text ;; mret tt
    | A_release => upd_conn c (upd_held false) ;; conn_deref c
    end
  | None => mret tt
  end.

(** The handlers of the application, which may depend on all that happened. *)
Context (estabh : nat -> list event -> list action)
        (recvh : nat -> list event -> websock_hdr -> list Z -> list action)
        (closeh : nat -> list event -> Z -> list action).

Definition run_actions (c : nat) (f : list event -> list action) : W unit :=
  l ← gets (fun w => f (log w)); for_each (run_action c) l.

Definition conn_close (c : nat) (err : Z) : W unit :=
  upd_conn c (fun d => upd_state CLOSED (upd_tc false (upd_tmr None d))) ;;
  d ← get_conn c;
  if c_own d then emit (Ev_close c err) ;; run_actions c (fun l => closeh c l err)
  else conn_deref c.

Definition timeout_handler (c : nat) : W unit := conn_close c ETIMEDOUT.

Definition keepalive_handler (c : nat) : W unit :=
  upd_conn c (fun d => upd_tmr (Some (Keepalive, kaint d)) d) ;;
  websock_send c WEBSOCK_PING None ;; mret tt.

Definition close_handler (c : nat) (err : Z) : W unit := conn_close c err.

(** ** Reception *)

(** [mb] is taken over or its bytes are appended. *)
Definition recv_append (c : nat) (mb : mbuf) : W Z :=
  d ← get_conn c;
  match c_mb d with
  | Some cmb =>
    let len := mbuf_get_left mb in
    let pos := mb_pos cmb in
    if BUFSIZE_MAX <? mbuf_get_left cmb + len then mret EOVERFLOW else
    data ← of_option (if len =? 0 then Some [] else b ← mb_buf mb; slice b (mb_pos mb) len);
    '(err, cmb) ← of_option (mbuf_write_mem alloc_ok junk (set_pos (mb_end cmb) cmb) data);
    if negb (err =? 0) then upd_conn c (upd_mb (Some cmb)) ;; mret err else
    upd_conn c (upd_mb (Some (set_pos pos cmb))) ;; mret 0
  | None => upd_conn c (upd_mb (Some mb)) ;; mret 0
  end.

(** The frame leaves the buffer of the connection; what follows it stays. *)
Definition split_frame (len : Z) (mb : mbuf) : option (Z * mbuf * option mbuf) :=
  let e := mb_end mb in
  let mb := set_end (usz (mb_pos mb + len)) mb in
  if mb_end mb <? e then
    match mbuf_alloc alloc_ok junk (e - mb_end mb) with
    | None => Some (ENOMEM, mb, Some mb)
    | Some mbn =>
      b ← mb_buf mb;
      rest ← slice b (mb_end mb) (e - mb_end mb);
      '(_, mbn) ← mbuf_write_mem alloc_ok junk mbn rest;
      Some (0, mb, Some (set_pos 0 mbn))
    end
  else Some (0, mb, None).

Definition payload_of (mb : mbuf) : option (list Z) :=
  if mbuf_get_left mb =? 0 then Some [] else b ← mb_buf mb; slice b (mb_pos mb) (mbuf_get_left mb).

(** The call of the receive handler, which may release the connection. *)
Definition deliver_frame (c : nat) (h : websock_hdr) (payload : list Z) : W unit :=
  upd_conn c (fun d => upd_refs (refs d + 1) d) ;;
  d ← get_conn c;
  when (c_own d) (emit (Ev_recv c h payload) ;; run_actions c (fun l => recvh c l h payload)) ;;
  d ← get_conn c;
  when (refs d =? 1)
    (when (bool_decide (state d = OPEN)) (websock_close c WEBSOCK_GOING_AWAY going_away ;; mret tt) ;;
     upd_conn c (upd_state CLOSING)) ;;
  conn_deref c.

(** The code of the frame, and whether the connection was closed. *)
Definition handle_frame (c : nat) (h : websock_hdr) (payload : list Z) : W (Z * bool) :=
  if (opcode h =? WEBSOCK_CONT) || (opcode h =? WEBSOCK_TEXT) || (opcode h =? WEBSOCK_BIN) then deliver_frame c h payload ;; mret (0, false)
  else if opcode h =? WEBSOCK_CLOSE then
    d ← get_conn c;
    when (bool_decide (state d = OPEN)) (websock_send c WEBSOCK_CLOSE (Some payload) ;; mret tt) ;;
    conn_close c 0 ;;
    mret (0, true)
  else if opcode h =? WEBSOCK_PING then websock_send c WEBSOCK_PONG (Some payload) ;; mret (0, false)
  else if opcode h =? WEBSOCK_PONG then mret (0, false)
  else mret (EPROTO, false).

Fixpoint recv_loop (fuel : nat) (c : nat) : W (Z * bool) :=
  match fuel with
  | O => ub
  | S fuel =>
    d ← get_conn c;
    match c_mb d with
    | None => mret (0, false)
    | Some mb =>
      '((err, h), mb') ← of_option (websock_decode mb);
      if err =? ENODATA then upd_conn c (upd_mb (Some (set_pos (mb_pos mb) mb'))) ;; mret (0, false) else
      upd_conn c (upd_mb (Some mb')) ;;
      if negb (err =? 0) then mret (err, false) else
      if Z.b2z (active d) =? mask h then mret (EPROTO, false) else
      if negb ((rsv1 h =? 0) && (rsv2 h =? 0) && (rsv3 h =? 0)) then mret (EPROTO, false) else
      '(err, mb', next) ← of_option (split_frame (hlen h) mb');
      upd_conn c (upd_mb next) ;;
      if negb (err =? 0) then mret (err, false) else
      payload ← of_option (payload_of mb');
      '(err, closed) ← handle_frame c h payload;
      if negb (err =? 0) || closed then mret (err, closed) else recv_loop fuel c
    end
  end.

(** Every frame takes two bytes at least. *)
Definition recv_handler (c : nat) (mb : mbuf) : W unit :=
  err ← recv_append c mb;
  '(err, closed) ← (if negb (err =? 0) then mret (err, false) else
                    d ← get_conn c;
                    recv_loop (S (Z.to_nat (default 0 (mbuf_get_left <$> c_mb d)))) c);
  when (negb (err =? 0)) (websock_close c (websock_err2scode err) None ;; conn_close c err).

(** ** The handshake *)

(** [has_value]: [http_msg_hdr_has_value]; [hdr]: [http_msg_hdr]. *)
Inductive http_hdrid := HTTP_HDR_UPGRADE | HTTP_HDR_CONNECTION | HTTP_HDR_SEC_WEBSOCKET_ACCEPT | HTTP_HDR_SEC_WEBSOCKET_KEY | HTTP_HDR_SEC_WEBSOCKET_VERSION.
Record http_msg := mk_msg { scode : Z; has_value : http_hdrid -> list Z -> bool; hdr : http_hdrid -> option (list Z) }.

Context (sha1 : list Z -> list Z).
Definition magic : list Z := bytes_of "258EAFA5-E914-47DA-95CA-C5AB0DC85B11".
Definition accept_print (key : list Z) : option (Z * list Z) :=
  base64_print (fun s out => (0, s ++ out)) (sha1 (key ++ magic)) [].

(** The buffer for the key has 32 bytes. *)
Definition accepted (nonce : list Z) (msg : http_msg) : option bool :=
  if negb (scode msg =? 101) then Some false else
  if negb (has_value msg HTTP_HDR_UPGRADE (bytes_of "websocket")) then Some false else
  if negb (has_value msg HTTP_HDR_CONNECTION (bytes_of "Upgrade")) then Some false else
  match hdr msg HTTP_HDR_SEC_WEBSOCKET_ACCEPT with
  | None => Some false
  | Some v => '(err, s) ← accept_print nonce; Some ((err =? 0) && (zlen s <? 32) && bool_decide (v = s))
  end.

Definition http_resp_handler (c : nat) (err : Z) (msg : http_msg) : W unit :=
  d ← get_conn c;
  ok ← (if negb (err =? 0) then mret false else of_option (accepted (nonce d) msg));
  if negb ok then conn_close c (if negb (err =? 0) then err else EPROTO) else
  upd_conn c (upd_state OPEN) ;;
  when (negb (kaint d =? 0)) (upd_conn c (upd_tmr (Some (Keepalive, kaint d)))) ;;
  emit (Ev_estab c) ;;
  run_actions c (estabh c).

Definition http_conn_handler (c : nat) : W unit := upd_conn c (upd_tc true).

Definition sock_ref : W unit := s ← (fun w => s ← sock w; Some (s, w)); put_sock (Some (mk_sock (s_shutdown s) (s_refs s + 1))).

(** [c]: the new object, which the application gets if there is no error;
    [req_err]: the result of [http_request].
    sizeof(struct websock_conn) is 288. *)
Definition websock_connect (c : nat) (interval : Z) (req_err : Z) : W Z :=
  if negb (alloc_ok 288) then mret ENOMEM else
  n ← rand_bytes 16;
  '(err, nc) ← of_option (base64_encode n 24);
  let new d := modify (fun w => set_conns (<[c := d]> (conns w)) w) in
  if negb (err =? 0) then
    new (mk_conn None [] false false None false ACCEPTING 0 false 1 false) ;; conn_deref c ;; mret err
  else
    sock_ref ;;
    new (mk_conn None nc true false None true CONNECTING interval true 1 (req_err =? 0)) ;;
    if negb (req_err =? 0) then conn_deref c ;; mret req_err else mret 0.

(** [reply_err]: the result of [http_reply]. *)
Definition websock_accept (c : nat) (msg : http_msg) (interval : Z) (reply_err : Z) : W Z :=
  if negb (has_value msg HTTP_HDR_UPGRADE (bytes_of "websocket")) then mret EBADMSG else
  if negb (has_value msg HTTP_HDR_CONNECTION (bytes_of "Upgrade")) then mret EBADMSG else
  if negb (has_value msg HTTP_HDR_SEC_WEBSOCKET_VERSION (bytes_of "13")) then mret EBADMSG else
  match hdr msg HTTP_HDR_SEC_WEBSOCKET_KEY with
  | None => mret EBADMSG
  | Some key =>
    if negb (alloc_ok 288) then mret ENOMEM else
    let new d := modify (fun w => set_conns (<[c := d]> (conns w)) w) in
    if negb (reply_err =? 0) then
      new (mk_conn None [] false false None false ACCEPTING 0 false 1 false) ;; conn_deref c ;; mret reply_err
    else
      sock_ref ;;
      new (mk_conn (if interval =? 0 then None else Some (Keepalive, interval)) [] true true None true OPEN interval false 1 true) ;;
      mret 0
  end.

Definition websock_alloc : option websock := if alloc_ok 24 then Some (mk_sock false 1) else None.

End Alloc.

End Ws.
