(* ===== verification/WebsockFrames.v ===== *)
(** * Frames of web sockets

    A frame and how it is read off the front of a byte string; [websock_decode]
    and [websock_vsend] do that on buffers. *)

From stdpp Require Import gmap.
From S2P Require Import Prelude Effects Mbuf MbufProps Rtp Codec Websock.
Import Mb Ws.

Lemma zlen_zero {A} (l : list A) : zlen l = 0 -> l = [].
Proof. destruct l; [done|]. rewrite zlen_cons. pose proof (zlen_nonneg l). lia. Qed.

(** ** Masking *)

Lemma xor_key_len key p : zlen (xor_key key p) = zlen p.
Proof. unfold xor_key, zlen. by rewrite length_imap. Qed.

Lemma xor_key_twice key p : xor_key key (xor_key key p) = p.
Proof.
  apply list_eq. intros i. unfold xor_key. rewrite !list_lookup_imap. destruct (p !! i) as [b|]; [|done]. cbn.
  by rewrite Z.lxor_assoc, Z.lxor_nilpotent, Z.lxor_0_r.
Qed.

(** ** The bytes of a frame *)

Definition len_bytes (m len : Z) : list Z :=
  if 0xffff <? len then (m + 127) :: rev (le_bytes 8 len)
  else if 125 <? len then (m + 126) :: rev (le_bytes 2 len)
  else [m + len].

Definition frame (op : Z) (key : option (list Z)) (payload : list Z) : list Z :=
  (128 + op) :: len_bytes (match key with Some _ => 128 | None => 0 end) (zlen payload) ++
  match key with Some k => k ++ xor_key k payload | None => payload end.

(** ** Reading *)

(** [Wild]: a masked frame whose length plus that of the key does not fit
    into 64 bits. *)
Inductive parsed := More | Wild (len : Z) | Frame (h : websock_hdr) (payload rest : list Z).

Definition bit (v i : Z) : Z := Z.land (Z.shiftr v i) 0x1.

Definition take_len (len7 : Z) (d : list Z) : option (Z * list Z) :=
  if len7 =? 126 then if zlen d <? 2 then None else Some (le_value (rev (take 2 d)), drop 2 d)
  else if len7 =? 127 then if zlen d <? 8 then None else Some (le_value (rev (take 8 d)), drop 8 d)
  else Some (len7, d).

Definition parse (d : list Z) : parsed :=
  match d with
  | v :: v2 :: d =>
    match take_len (Z.land v2 0x7f) d with
    | None => More
    | Some (len, d) =>
      let h := mk_hdr (bit v 7) (bit v 6) (bit v 5) (bit v 4) (Z.land v 0x0f) (bit v2 7) len in
      if negb (bit v2 7 =? 0) then
        if 2 ^ 64 <=? 4 + len then Wild len
        else if zlen d <? 4 + len then More
        else Frame (h (take 4 d)) (xor_key (take 4 d) (take (Z.to_nat len) (drop 4 d))) (drop (Z.to_nat len) (drop 4 d))
      else if zlen d <? len then More else Frame (h []) (take (Z.to_nat len) d) (drop (Z.to_nat len) d)
    end
  | _ => More
  end.

(** More bytes do not change a frame that is complete. *)
Lemma take_len_app len7 d e r : take_len len7 d = Some r -> take_len len7 (d ++ e) = Some (r.1, r.2 ++ e).
Proof.
  assert (Hc : forall (n : nat) z, z = Z.of_nat n -> (zlen d <? z) = false ->
    (zlen (d ++ e) <? z) = false /\ take n (d ++ e) = take n d /\ drop n (d ++ e) = drop n d ++ e).
  { intros n z -> Hn%Z.ltb_ge. unfold zlen in Hn |- *. rewrite length_app. split; [apply Z.ltb_ge; lia|]. split; [apply take_app_le; lia|apply drop_app_le; lia]. }
  unfold take_len. destruct (len7 =? 126); [|destruct (len7 =? 127)].
  - destruct (zlen d <? 2) eqn:E; [done|]. destruct (Hc 2%nat 2 eq_refl E) as (-> & -> & ->). by intros [= <-].
  - destruct (zlen d <? 8) eqn:E; [done|]. destruct (Hc 8%nat 8 eq_refl E) as (-> & -> & ->). by intros [= <-].
  - by intros [= <-].
Qed.

Lemma take_len_range len7 d r : 0 <= len7 -> is_bytes d -> take_len len7 d = Some r -> 0 <= r.1 /\ is_bytes r.2.
Proof.
  intros H7 Hd. unfold take_len. assert (Hv : forall n, 0 <= le_value (rev (take n d))).
  { intros n. assert (Hb : is_bytes (rev (take n d))) by (apply Forall_rev, Forall_take, Hd). induction Hb; cbn; lia. }
  destruct (len7 =? 126); [|destruct (len7 =? 127)]; [destruct (_ <? _); [done|]..|]; intros [= <-]; cbn; split; try done; try apply Hv; by apply Forall_drop.
Qed.

Lemma parse_app d e h p r : is_bytes d -> parse d = Frame h p r -> parse (d ++ e) = Frame h p (r ++ e).
Proof.
  intros Hb. destruct d as [|v [|v2 d]]; [done|done|]. cbn [parse app]. destruct (take_len _ d) as [[len d1]|] eqn:E; [|done].
  assert (H7 : 0 <= Z.land v2 127) by (apply Z.land_nonneg; right; done). unfold is_bytes in Hb. rewrite !Forall_cons in Hb.
  destruct (take_len_range _ _ _ H7 (proj2 (proj2 Hb)) E) as [Hl _]. cbn in Hl.
  rewrite (take_len_app _ _ e _ E). cbn [fst snd]. pose proof (zlen_nonneg d1). rewrite zlen_app. pose proof (zlen_nonneg e).
  destruct (negb _).
  - destruct (2 ^ 64 <=? _); [done|]. destruct (Z.ltb_spec (zlen d1) (4 + len)); [done|]. destruct (Z.ltb_spec (zlen d1 + zlen e) (4 + len)); [lia|].
    unfold zlen in *. rewrite take_app_le by lia. rewrite drop_app_le by lia. rewrite take_app_le, drop_app_le by (rewrite length_drop; lia). by intros [= <- <- <-].
  - destruct (Z.ltb_spec (zlen d1) len); [done|]. destruct (Z.ltb_spec (zlen d1 + zlen e) len); [lia|].
    unfold zlen in *. rewrite take_app_le, drop_app_le by lia. by intros [= <- <- <-].
Qed.

Lemma parse_wild_app d e len : parse d = Wild len -> parse (d ++ e) = Wild len.
Proof.
  destruct d as [|v [|v2 d]]; [done|done|]. cbn [parse app]. destruct (take_len _ d) as [[l d1]|] eqn:E; [|done].
  rewrite (take_len_app _ _ e _ E). cbn [fst snd]. destruct (negb _); [|by case_match]. destruct (2 ^ 64 <=? _); [done|by case_match].
Qed.

(** ** Buffers *)

(** What is left in the buffer is [d]. *)
Definition content (mb : mbuf) (d : list Z) : Prop := avail mb d /\ mb_pos mb + zlen d = mb_end mb.

Lemma content_left mb d : content mb d -> mbuf_get_left mb = zlen d.
Proof.
  intros [_ He]. unfold mbuf_get_left. pose proof (zlen_nonneg d). destruct (Z.ltb_spec (mb_pos mb) (mb_end mb)); lia.
Qed.

Lemma content_read w mb a b : length a = w -> content mb (a ++ b) ->
  mbuf_read_int w mb = Some (le_value a, set_pos (mb_pos mb + zlen a) mb) /\ content (set_pos (mb_pos mb + zlen a) mb) b.
Proof.
  intros Hw [Hav He]. destruct (read_int_avail w mb a b Hw Hav) as [H1 H2]. split; [done|]. split; [done|]. cbn. rewrite zlen_app in He. lia.
Qed.

Lemma content_pos mb d n : content mb d -> content (set_pos (mb_pos mb) (set_pos n mb)) d.
Proof. by destruct mb. Qed.

Lemma xor_run key mb p r : content mb (p ++ r) ->
  exists mb', xor_buf key (zlen p) mb = Some (tt, mb') /\ content mb' (xor_key key p ++ r) /\ mb_pos mb' = mb_pos mb /\ mb_end mb' = mb_end mb /\
    forall i n, 0 <= i -> 0 <= n -> i + n <= mb_pos mb -> slice (bytes mb') i n = slice (bytes mb) i n.
Proof.
  intros [[(Hl & Hp & He & Hs) [Hsl Hav]] Hend]. rewrite zlen_app in Hend. unfold xor_buf. destruct (Z.eqb_spec (zlen p) 0) as [Hz|Hz].
  - assert (p = []) as -> by (destruct p; [done|rewrite zlen_cons in Hz; pose proof (zlen_nonneg p); lia]). exists mb. split; [done|]. split; [|done]. split; [|done]. by split.
  - pose proof (zlen_nonneg p). pose proof (zlen_nonneg r). apply slice_app in Hsl as [S1 S2]. unfold bytes in *.
    destruct (mb_buf mb) as [b|] eqn:Eb; cbn [default] in *; [|change (zlen []) with 0 in Hl; lia]. cbn [mbind option_bind]. cbn in S1, S2. rewrite S1. cbn [mbind option_bind].
    destruct (splice_ok b (mb_pos mb) (xor_key key p)) as [l El]; [lia|rewrite xor_key_len; cbn in Hl; lia|]. cbn. rewrite El. eexists. split; [done|].
    pose proof (splice_inv _ _ _ _ El) as (_ & _ & Hz' & _). cbn in Hl.
    split; [|split; [done|split; [done|]]].
    2: { intros i n Hi Hn Hin. cbn. apply (splice_other b l (mb_pos mb) (xor_key key p) El); lia. }
    split; [|cbn; rewrite zlen_app, xor_key_len; lia]. split; [|split].
    + unfold mb_wf, bytes. cbn. lia.
    + unfold bytes. cbn. apply slice_app. split; [by apply (splice_here b)|]. rewrite (splice_other b l (mb_pos mb) (xor_key key p) El); rewrite ?xor_key_len; [done|lia..].
    + cbn. rewrite zlen_app, xor_key_len. lia.
Qed.

(** ** Decoding *)

Definition unfinished (mb : mbuf) (d : list Z) (m : option ((Z * websock_hdr) * mbuf)) : Prop :=
  exists h mb', m = Some ((ENODATA, h), mb') /\ content (set_pos (mb_pos mb) mb') d.

Lemma set_pos_twice a b mb : set_pos a (set_pos b mb) = set_pos a mb.
Proof. done. Qed.
Lemma set_pos_same mb : set_pos (mb_pos mb) mb = mb.
Proof. by destruct mb. Qed.

Lemma unfinished_at mb d n h : content mb d -> unfinished mb d (Some ((ENODATA, h), set_pos n mb)).
Proof. intros Hc. exists h, (set_pos n mb). split; [done|]. by rewrite set_pos_twice, set_pos_same. Qed.

(** The extended length. *)
Definition read_len (len7 : Z) : M mbuf (option Z) :=
  left ← gets mbuf_get_left;
  if len7 =? 126 then if left <? 2 then mret None else v ← mbuf_read_u16; mret (Some (ntohs v))
  else if len7 =? 127 then if left <? 8 then mret None else v ← mbuf_read_u64; mret (Some (htonll v))
  else mret (Some len7).

Lemma swap_value w l : is_bytes l -> length l = w -> le_value (rev (le_bytes w (le_value l))) = le_value (rev l).
Proof. intros Hb <-. by rewrite le_bytes_value. Qed.

Lemma read_len_run len7 mb d : content mb d -> is_bytes d ->
  match take_len len7 d with
  | None => read_len len7 mb = Some (None, mb)
  | Some (len, d') => exists n, read_len len7 mb = Some (Some len, set_pos n mb) /\ content (set_pos n mb) d'
  end.
Proof.
  intros Hc Hb. unfold read_len, take_len, gets, mbind, M_bind. rewrite (content_left _ _ Hc).
  assert (Hread : forall w : nat, (zlen d <? Z.of_nat w) = false ->
    exists n, mbuf_read_int w mb = Some (le_value (take w d), set_pos n mb) /\ content (set_pos n mb) (drop w d) /\ length (take w d) = w).
  { intros w Hw%Z.ltb_ge. unfold zlen in Hw. assert (Hlen : length (take w d) = w) by (rewrite length_take; lia). rewrite <- (take_drop w d) in Hc.
    destruct (content_read w mb _ _ Hlen Hc) as [H1 H2]. eexists. split; [exact H1|]. split; done. }
  destruct (len7 =? 126); [|destruct (len7 =? 127)].
  - destruct (zlen d <? 2) eqn:E; [done|]. destruct (Hread 2%nat E) as (n & H1 & H2 & H3). exists n. split; [|done]. unfold mbuf_read_u16. rewrite H1.
    unfold ntohs, htons. rewrite swap_value; [done|by apply Forall_take|done].
  - destruct (zlen d <? 8) eqn:E; [done|]. destruct (Hread 8%nat E) as (n & H1 & H2 & H3). exists n. split; [|done]. unfold mbuf_read_u64. rewrite H1.
    unfold htonll. rewrite swap_value; [done|by apply Forall_take|done].
  - exists (mb_pos mb). rewrite set_pos_same. done.
Qed.

Lemma run_bind {S A B} (m : M S A) (k : A -> M S B) s a s' : m s = Some (a, s') -> (m ≫= k) s = k a s'.
Proof. intros E. unfold mbind, M_bind. by rewrite E. Qed.
Lemma gets_bind {S A B} (f : S -> A) (k : A -> M S B) s : (gets f ≫= k) s = k (f s) s.
Proof. done. Qed.
Lemma modify_bind {S B} (f : S -> S) (k : unit -> M S B) s : (modify f ≫= k) s = k tt (f s).
Proof. done. Qed.

(** What follows the length. *)
Definition decode_rest (v v2 : Z) (len : option Z) : M mbuf (Z * websock_hdr) :=
  let no_hdr := mk_hdr 0 0 0 0 0 0 0 [] in
  match len with
  | None => mret (ENODATA, no_hdr)
  | Some len =>
    left ← gets mbuf_get_left;
    if negb (bit v2 7 =? 0) then
      if left <? u64 (4 + len) then mret (ENODATA, no_hdr) else
      k0 ← mbuf_read_u8; k1 ← mbuf_read_u8; k2 ← mbuf_read_u8; k3 ← mbuf_read_u8;
      xor_buf [k0; k1; k2; k3] len ;;
      mret (0, mk_hdr (bit v 7) (bit v 6) (bit v 5) (bit v 4) (Z.land v 0x0f) (bit v2 7) len [k0; k1; k2; k3])
    else
      if left <? len then mret (ENODATA, no_hdr) else
      mret (0, mk_hdr (bit v 7) (bit v 6) (bit v 5) (bit v 4) (Z.land v 0x0f) (bit v2 7) len [])
  end.

Lemma decode_head v v2 d mb : content mb (v :: v2 :: d) ->
  exists n, websock_decode mb = (len ← read_len (Z.land v2 0x7f); decode_rest v v2 len) (set_pos n mb) /\ content (set_pos n mb) d.
Proof.
  intros Hc. pose proof (content_left _ _ Hc) as Hleft. rewrite !zlen_cons in Hleft. pose proof (zlen_nonneg d).
  destruct (content_read 1 mb [v] (v2 :: d) eq_refl Hc) as [R1 C1]. destruct (content_read 1 _ [v2] d eq_refl C1) as [R2 C2].
  exists (mb_pos mb + 1 + 1). split; [|exact C2]. unfold websock_decode. unfold mbind at 1, M_bind at 1, gets at 1. rewrite Hleft.
  replace (zlen d + 1 + 1 <? 2) with false by lia. unfold mbuf_read_u8. unfold mbind at 1, M_bind at 1. rewrite R1.
  unfold mbind at 1, M_bind at 1. rewrite R2. cbn [le_value]. rewrite !Z.add_0_r. reflexivity.
Qed.

Lemma read_key mb k0 k1 k2 k3 d {B} (f : Z -> Z -> Z -> Z -> M mbuf B) : content mb (k0 :: k1 :: k2 :: k3 :: d) ->
  exists n, (k0 ← mbuf_read_u8; k1 ← mbuf_read_u8; k2 ← mbuf_read_u8; k3 ← mbuf_read_u8; f k0 k1 k2 k3) mb = f k0 k1 k2 k3 (set_pos n mb) /\
    content (set_pos n mb) d.
Proof.
  intros Hc. destruct (content_read 1 _ [k0] _ eq_refl Hc) as [R1 C1]. destruct (content_read 1 _ [k1] _ eq_refl C1) as [R2 C2].
  destruct (content_read 1 _ [k2] _ eq_refl C2) as [R3 C3]. destruct (content_read 1 _ [k3] _ eq_refl C3) as [R4 C4].
  eexists. split; [|exact C4]. unfold mbuf_read_u8, mbind, M_bind. rewrite R1, R2, R3, R4. cbn [le_value]. by rewrite !Z.add_0_r.
Qed.

(** [websock_decode] reads the frame off the front of the buffer, or leaves
    it for more bytes to come. *)
(** No buffer holds the bytes behind the key of a wild frame. *)
Definition behind (mb : mbuf) : Prop := mb_wf mb /\ 10 <= mb_pos mb.

Lemma behind_read mb : behind mb -> exists v mb', mbuf_read_u8 mb = Some (v, mb') /\ behind mb'.
Proof.
  intros [Hwf Hp]. destruct (read_mem_ok mb 1 Hwf ltac:(lia)) as (err & data & mb' & E & H). unfold mbuf_read_u8, mbuf_read_int. change (Z.of_nat 1) with 1. rewrite E.
  eexists _, mb'. split; [done|]. destruct (err =? 0); destruct H as [H1 H2]; [|by subst mb'].
  destruct H2 as (_ & -> & _). split; [|cbn; lia]. apply wf_set_pos; [done|]. destruct Hwf as (_ & _ & He & Hs). unfold mbuf_get_left in H1. destruct (Z.ltb_spec (mb_pos mb) (mb_end mb)); lia.
Qed.

Lemma wild_stuck mb len {A} (f : Z -> Z -> Z -> Z -> A) : behind mb -> 2 ^ 64 <= 4 + len ->
  (k0 ← mbuf_read_u8; k1 ← mbuf_read_u8; k2 ← mbuf_read_u8; k3 ← mbuf_read_u8; xor_buf [k0; k1; k2; k3] len ;; mret (f k0 k1 k2 k3)) mb = None.
Proof.
  intros H0 Hl. destruct (behind_read mb H0) as (k0 & m0 & E0 & H1). destruct (behind_read m0 H1) as (k1 & m1 & E1 & H2). destruct (behind_read m1 H2) as (k2 & m2 & E2 & H3).
  destruct (behind_read m2 H3) as (k3 & m3 & E3 & [(Hz & _ & _ & Hs) Hp]). rewrite (run_bind _ _ _ _ _ E0), (run_bind _ _ _ _ _ E1), (run_bind _ _ _ _ _ E2), (run_bind _ _ _ _ _ E3).
  unfold mbind at 1, M_bind at 1, xor_buf. rewrite (proj2 (Z.eqb_neq len 0)) by lia. unfold bytes in Hz. destruct (mb_buf m3) as [b|]; cbn [mbind option_bind]; [|done].
  destruct (slice b (mb_pos m3) len) eqn:E; [|done]. apply slice_inv in E as (_ & _ & E & _). cbn in Hz. unfold SIZE_MAX in Hs. lia.
Qed.

Lemma wild_len len7 d len d1 : is_bytes d -> take_len (Z.land len7 127) d = Some (len, d1) -> 2 ^ 64 <= 4 + len -> zlen d = 8 + zlen d1.
Proof.
  intros Hb. unfold take_len. destruct (_ =? 126); [|destruct (_ =? 127)].
  - destruct (_ <? 2); [done|]. intros [= <- <-] Hw. exfalso. assert (Hx : 0 <= le_value (rev (take 2 d)) < 2 ^ 32); [|lia].
    pose proof (le_value_range (rev (take 2 d)) ltac:(apply Forall_rev; by apply Forall_take)) as Hv. assert (zlen (rev (take 2 d)) <= 2) by (unfold zlen; rewrite length_rev, length_take; lia).
    assert (256 ^ zlen (rev (take 2 d)) <= 256 ^ 2) by (apply Z.pow_le_mono_r; lia). lia.
  - destruct (Z.ltb_spec (zlen d) 8); [done|]. intros [= <- <-] _. unfold zlen in *. rewrite length_drop. lia.
  - intros [= <- <-] Hw. exfalso. pose proof (Z.land_ones len7 7 ltac:(lia)) as Hx. change (Z.ones 7) with 127 in Hx. pose proof (Z.mod_pos_bound len7 (2 ^ 7) ltac:(lia)). lia.
Qed.

Lemma ws_decode_run mb d : content mb d -> is_bytes d ->
  match parse d with
  | More => unfinished mb d (websock_decode mb)
  | Wild _ => websock_decode mb = None \/ unfinished mb d (websock_decode mb)
  | Frame h p r => exists mb', websock_decode mb = Some ((0, h), mb') /\ content mb' (p ++ r) /\ hlen h = zlen p
  end.
Proof.
  intros Hc Hb. pose proof (content_left _ _ Hc) as Hleft.
  assert (Hshort : zlen d < 2 -> unfinished mb d (websock_decode mb)).
  { intros Hs. unfold websock_decode, gets, mbind, M_bind. rewrite Hleft. replace (zlen d <? 2) with true by lia.
    eexists _, mb. split; [done|]. by rewrite set_pos_same. }
  destruct d as [|v [|v2 d]]; [by apply Hshort|by apply Hshort|]. clear Hshort Hleft. cbn [parse].
  destruct (decode_head v v2 d mb Hc) as (n & -> & Hc1). unfold is_bytes in Hb. rewrite !Forall_cons in Hb. destruct Hb as (_ & _ & Hb).
  pose proof (read_len_run (Z.land v2 127) _ d Hc1 Hb) as Hlen. destruct (take_len _ d) as [[len d1]|] eqn:Et.
  2: { unfold mbind, M_bind. rewrite Hlen. cbn. by apply (unfinished_at mb _ n). }
  destruct (take_len_range (Z.land v2 127) _ _ ltac:(apply Z.land_nonneg; by right) Hb Et) as [Hl Hb1]. cbn [fst snd] in *.
  destruct Hlen as (n2 & E2 & Hc2). rewrite set_pos_twice in E2, Hc2. rewrite (run_bind _ _ _ _ _ E2). unfold decode_rest. rewrite gets_bind. rewrite (content_left _ _ Hc2). destruct (negb (bit v2 7 =? 0)).
  - destruct (Z.leb_spec (2 ^ 64) (4 + len)) as [Hw|Hw].
    { destruct (_ <? u64 _); [right; by apply (unfinished_at mb _ n2)|left]. apply wild_stuck; [|done]. split; [apply Hc2|].
      pose proof (wild_len _ _ _ _ Hb Et Hw). destruct Hc as [[(_ & Hp0 & _) _] He], Hc2 as [_ He2]. rewrite !zlen_cons in He. cbn in He2 |- *. lia. }
    rewrite (u64_small (4 + len)) by lia. destruct (Z.ltb_spec (zlen d1) (4 + len)); [by apply (unfinished_at mb _ n2)|].
    destruct d1 as [|k0 [|k1 [|k2 [|k3 d1]]]]; try (rewrite ?zlen_cons in *; change (zlen []) with 0 in *; lia).
    destruct (read_key _ k0 k1 k2 k3 d1 (fun k0 k1 k2 k3 => xor_buf [k0; k1; k2; k3] len ;;
      mret (0, mk_hdr (bit v 7) (bit v 6) (bit v 5) (bit v 4) (Z.land v 15) (bit v2 7) len [k0; k1; k2; k3])) Hc2) as (n3 & Hk & Hc3). rewrite set_pos_twice in Hk, Hc3.
    rewrite !zlen_cons in *. cbn [take drop]. set (p := take (Z.to_nat len) d1). assert (Hp : zlen p = len) by (unfold p, zlen in *; rewrite length_take; lia).
    rewrite <- (take_drop (Z.to_nat len) d1) in Hc3. fold p in Hc3. destruct (xor_run [k0; k1; k2; k3] _ p _ Hc3) as (mb' & E3 & Hc4 & _). rewrite Hp in E3.
    exists mb'. split; [etransitivity; [exact Hk|]; unfold mbind, M_bind; by rewrite E3|]. split; [exact Hc4|]. cbn. by rewrite xor_key_len.
  - destruct (Z.ltb_spec (zlen d1) len); [by apply (unfinished_at mb _ n2)|]. exists (set_pos n2 mb). split; [done|]. rewrite take_drop. split; [done|].
    cbn. unfold zlen in *. rewrite length_take. lia.
Qed.

(** ** Encoding *)

Lemma byte_bits x : 0 <= x < 128 -> (bit x 7 = 0 /\ Z.land x 127 = x) /\ (bit (128 + x) 7 = 1 /\ Z.land (128 + x) 127 = x) /\ Z.lor 128 x = 128 + x.
Proof.
  intros Hx. assert (G : Forall (fun x => (bit x 7 = 0 /\ Z.land x 127 = x) /\ (bit (128 + x) 7 = 1 /\ Z.land (128 + x) 127 = x) /\ Z.lor 128 x = 128 + x) (seqZ 0 128))
    by (apply (bool_decide_unpack _); vm_compute; exact I).
  rewrite Forall_forall in G. apply G, elem_of_seqZ. lia.
Qed.

Lemma op_bits op : 0 <= op < 16 -> bit (128 + op) 7 = 1 /\ bit (128 + op) 6 = 0 /\ bit (128 + op) 5 = 0 /\ bit (128 + op) 4 = 0 /\
  Z.land (128 + op) 15 = op /\ Z.lor 128 (Z.land op 15) = 128 + op.
Proof.
  intros Hx. assert (G : Forall (fun op => bit (128 + op) 7 = 1 /\ bit (128 + op) 6 = 0 /\ bit (128 + op) 5 = 0 /\ bit (128 + op) 4 = 0 /\
    Z.land (128 + op) 15 = op /\ Z.lor 128 (Z.land op 15) = 128 + op) (seqZ 0 16)) by (apply (bool_decide_unpack _); vm_compute; exact I).
  rewrite Forall_forall in G. apply G, elem_of_seqZ. lia.
Qed.

(** The second byte and the length. *)
Lemma len_parse (m : bool) len d : 0 <= len < 2 ^ 64 -> let mz := if m then 128 else 0 in
  exists v2 d', len_bytes mz len ++ d = v2 :: d' /\ take_len (Z.land v2 127) d' = Some (len, d) /\ bit v2 7 = Z.b2z m.
Proof.
  intros Hl mz. assert (Hb : forall x, 0 <= x < 128 -> Z.land (mz + x) 127 = x /\ bit (mz + x) 7 = Z.b2z m).
  { intros x Hx. destruct (byte_bits x Hx) as ([A1 A2] & [B1 B2] & _). unfold mz. destruct m; [done|]. by rewrite Z.add_0_l. }
  assert (Hx : forall w (z : Z), z = Z.of_nat w -> 0 <= len < 256 ^ z ->
    (zlen (rev (le_bytes w len) ++ d) <? z) = false /\ le_value (rev (take w (rev (le_bytes w len) ++ d))) = len /\ drop w (rev (le_bytes w len) ++ d) = d).
  { intros w z -> Hw. assert (Hr : length (rev (le_bytes w len)) = w) by (by rewrite length_rev, le_bytes_length).
    split; [apply Z.ltb_ge; unfold zlen; rewrite length_app; lia|]. rewrite take_app_length', drop_app_length' by done. split; [|done].
    rewrite rev_involutive. by apply le_value_bytes. }
  unfold len_bytes. destruct (Z.ltb_spec 0xffff len); [|destruct (Z.ltb_spec 125 len)];
    [exists (mz + 127), (rev (le_bytes 8 len) ++ d)|exists (mz + 126), (rev (le_bytes 2 len) ++ d)|exists (mz + len), d]; (split; [done|]).
  - destruct (Hb 127 ltac:(lia)) as [-> ->]. split; [|done]. unfold take_len. cbn [Z.eqb Pos.eqb]. destruct (Hx 8%nat 8 eq_refl ltac:(lia)) as (-> & -> & ->). done.
  - destruct (Hb 126 ltac:(lia)) as [-> ->]. split; [|done]. unfold take_len. cbn [Z.eqb Pos.eqb]. destruct (Hx 2%nat 2 eq_refl ltac:(lia)) as (-> & -> & ->). done.
  - destruct (Hb len ltac:(lia)) as [-> ->]. split; [|done]. unfold take_len. by rewrite !(proj2 (Z.eqb_neq _ _)) by lia.
Qed.

Definition key_ok (key : option (list Z)) : Prop := match key with Some k => length k = 4%nat /\ is_bytes k | None => True end.
Definition hdr_of (op : Z) (key : option (list Z)) (len : Z) : websock_hdr :=
  mk_hdr 1 0 0 0 op (match key with Some _ => 1 | None => 0 end) len (default [] key).

Lemma parse_frame op key payload rest : 0 <= op < 16 -> key_ok key -> zlen payload < 2 ^ 63 ->
  parse (frame op key payload ++ rest) = Frame (hdr_of op key (zlen payload)) payload rest.
Proof.
  intros Ho Hk Hl. unfold frame. pose proof (zlen_nonneg payload). pose proof (zlen_nonneg rest). set (tl := match key with Some k => k ++ xor_key k payload | None => payload end).
  replace (match key with Some _ => 128 | None => 0 end) with (if bool_decide (is_Some key) then 128 else 0) by (by destruct key).
  destruct (len_parse (bool_decide (is_Some key)) (zlen payload) (tl ++ rest) ltac:(lia)) as (v2 & d' & E & Et & Eb).
  cbn [app]. rewrite <- app_assoc, E. cbn [parse]. rewrite Et, Eb. destruct (op_bits op Ho) as (-> & -> & -> & -> & -> & _). unfold tl. destruct key as [k|]; cbn [bool_decide] in *.
  - destruct Hk as [Hk4 _]. rewrite bool_decide_true by done. cbn [Z.b2z negb Z.eqb]. replace (2 ^ 64 <=? 4 + zlen payload) with false by lia.
    assert (Hkz : zlen k = 4) by (unfold zlen; lia). rewrite !zlen_app, xor_key_len, Hkz. replace (_ <? _) with false by lia.
    rewrite <- app_assoc, take_app_length', drop_app_length' by done.
    assert (Hxl : Z.to_nat (zlen payload) = length (xor_key k payload)) by (unfold xor_key, zlen; rewrite length_imap; lia).
    by rewrite take_app_length', drop_app_length', xor_key_twice by done.
  - rewrite bool_decide_false by (intros [? ?]; done). cbn [Z.b2z negb Z.eqb]. rewrite zlen_app. replace (_ <? _) with false by lia.
    by rewrite take_app_length', drop_app_length' by (unfold zlen; lia).
Qed.

(** Everything in front of the payload. *)
Definition hdr_bytes (op : Z) (key : option (list Z)) (len : Z) : list Z :=
  (128 + op) :: len_bytes (match key with Some _ => 128 | None => 0 end) len ++ default [] key.

Lemma frame_hdr op key payload : frame op key payload =
  hdr_bytes op key (zlen payload) ++ match key with Some k => xor_key k payload | None => payload end.
Proof. unfold frame, hdr_bytes. destruct key; cbn; by rewrite ?app_nil_r, <- ?app_assoc. Qed.

Lemma u8_byte x : 0 <= x < 256 -> u8 x = x.
Proof. intros. unfold u8. by apply Z.mod_small. Qed.

(** [fits m d]: the encoder writes [d] where there is room for it, whatever
    allocation fails. *)
Definition fits (m : M mbuf Z) (d : list Z) : Prop :=
  forall mb, mb_wf mb -> mb_pos mb + zlen d <= mb_size mb -> exists mb', m mb = Some (0, mb') /\ written mb mb' d.

Lemma room_or m1 m2 a b : fits m1 a -> fits m2 b -> fits (m1 |; m2) (a ++ b).
Proof.
  intros H1 H2 mb Hwf Hs. rewrite zlen_app in Hs. pose proof (zlen_nonneg a). pose proof (zlen_nonneg b).
  destruct (H1 mb Hwf) as (mb1 & E1 & W1); [lia|]. pose proof W1 as (Hwf1 & Hp1 & _ & _ & Hsz & _).
  destruct (H2 mb1 Hwf1) as (mb2 & E2 & W2); [lia|]. exists mb2. unfold seq_or, mbind, M_bind. rewrite E1, E2.
  split; [done|]. by eapply written_app.
Qed.

Section Encode.
Context (alloc_ok : Z -> bool) (junk : Z -> Z).

Lemma room_mem d : fits (write_mem alloc_ok junk d) d.
Proof.
  intros mb Hwf Hs. pose proof Hwf as (_ & ? & ? & ?). pose proof (zlen_nonneg d). unfold write_mem, mbuf_write_mem, mbuf_reserve. rewrite usz_small by lia.
  replace (mb_size mb <? mb_pos mb + zlen d) with false by lia. by apply put_ok.
Qed.
Lemma room8 v : fits (write8 alloc_ok junk v) [u8 v].
Proof. exact (room_mem [u8 v]). Qed.
Lemma room16 v : fits (write16 alloc_ok junk v) (Rtp.be16 v).
Proof. unfold write16, mbuf_write_u16. rewrite htons_bytes. apply room_mem. Qed.
Lemma room64 v : fits (write64 alloc_ok junk v) (be64 v).
Proof. unfold write64, mbuf_write_u64, htonll. rewrite (swap_bytes 8). apply room_mem. Qed.

Lemma room_header op (m : bool) len : 0 <= op < 16 -> 0 <= len ->
  fits (write8 alloc_ok junk (Z.lor (Z.shiftl (Z.b2z true) 7) (Z.land op 0x0f)) |;
    (if 0xffff <? len then write8 alloc_ok junk (Z.lor (Z.shiftl (Z.b2z m) 7) 127) |; write64 alloc_ok junk len
     else if 125 <? len then write8 alloc_ok junk (Z.lor (Z.shiftl (Z.b2z m) 7) 126) |; write16 alloc_ok junk len
     else write8 alloc_ok junk (Z.lor (Z.shiftl (Z.b2z m) 7) len)))
    ([128 + op] ++ len_bytes (if m then 128 else 0) len).
Proof.
  intros Ho Hl. set (mz := if m then 128 else 0). assert (Hb : forall x, 0 <= x < 128 -> u8 (Z.lor (Z.shiftl (Z.b2z m) 7) x) = mz + x).
  { intros x Hx. destruct (byte_bits x Hx) as (_ & _ & E). unfold mz. destruct m; cbn [Z.b2z].
    - change (Z.shiftl 1 7) with 128. rewrite E. apply u8_byte. lia.
    - change (Z.shiftl 0 7) with 0. rewrite Z.lor_0_l. apply u8_byte. lia. }
  apply room_or.
  - destruct (op_bits op Ho) as (_ & _ & _ & _ & _ & E). change (Z.shiftl (Z.b2z true) 7) with 128. rewrite E.
    rewrite <- (u8_byte (128 + op)) at 2 by lia. apply room8.
  - unfold len_bytes. destruct (Z.ltb_spec 0xffff len); [|destruct (Z.ltb_spec 125 len)].
    + rewrite <- (Hb 127) by lia. apply (room_or _ _ [_]); [apply room8|apply room64].
    + rewrite <- (Hb 126) by lia. apply (room_or _ _ [_]); [apply room8|apply room16].
    + rewrite <- (Hb len) by lia. apply room8.
Qed.

Lemma ws_encode_run op key payload mb start hsz : 0 <= op < 16 -> key_ok key -> mb_wf mb -> mb_pos mb = start ->
  start + zlen (hdr_bytes op key (zlen payload)) = hsz -> slice (bytes mb) hsz (zlen payload) = Some payload ->
  hsz + zlen payload <= mb_size mb -> mb_end mb <= hsz + zlen payload -> (mb_end mb = hsz + zlen payload \/ payload = []) ->
  exists mb', websock_encode alloc_ok junk true op (bool_decide (is_Some key)) (default [] key) (zlen payload) mb = Some (0, mb') /\
    mb_wf mb' /\ mb_end mb' = hsz + zlen payload /\ slice (bytes mb') start (zlen (frame op key payload)) = Some (frame op key payload).
Proof.
  intros Ho Hk Hwf Hst Hhs Hsl Hsz He He'. pose proof (zlen_nonneg payload). pose proof (zlen_nonneg (hdr_bytes op key (zlen payload))). pose proof Hwf as (_ & W2 & W3 & W4).
  pose proof (room_header op (bool_decide (is_Some key)) (zlen payload) Ho ltac:(lia)) as Hput.
  match type of Hput with fits ?m _ => set (hp := m) in Hput end.
  assert (Hput' : fits (if bool_decide (is_Some key) then hp |; write_mem alloc_ok junk (default [] key) else hp) (hdr_bytes op key (zlen payload))).
  { destruct key as [k|]; cbn [bool_decide default].
    - exact (room_or _ _ _ _ Hput (room_mem k)).
    - unfold hdr_bytes. cbn [default]. rewrite app_nil_r. exact Hput. }
  destruct (Hput' mb Hwf ltac:(lia)) as (mb1 & E1 & V1 & V2 & V3 & V4 & V5 & V6). rewrite Hst in *.
  assert (Hend : mb_end mb1 = hsz + zlen payload) by (destruct He' as [?| ->]; [lia|change (zlen []) with 0 in *; lia]).
  assert (Hpl : slice (bytes mb1) hsz (zlen payload) = Some payload) by (rewrite V6; [done|lia..]).
  assert (Hc : content mb1 (payload ++ [])) by (rewrite app_nil_r; split; [split_and!; [done| |lia]|lia]; by rewrite V2, Hhs).
  destruct key as [k|].
  - rewrite bool_decide_true in * by done. cbn [negb default] in *.
    destruct (xor_run k mb1 payload [] Hc) as (mb2 & E2 & [[X1 [X2 X3]] X4] & Y1 & Y2 & Y3). rewrite app_nil_r in *. exists mb2.
    split; [etransitivity; [exact (run_bind (hp |; write_mem alloc_ok junk k) (fun err => xor_buf k (zlen payload) ;; mret err) mb _ _ E1)|]; unfold mbind, M_bind; by rewrite E2|].
    split; [done|]. split; [lia|]. rewrite frame_hdr. apply slice_app. split; [rewrite Y3 by lia; exact V4|].
    rewrite Hhs. rewrite <- Y1, V2, Hhs in X2 || rewrite Y1, V2, Hhs in X2. exact X2.
  - rewrite bool_decide_false in * by (intros [? ?]; done). cbn [negb default] in *. exists mb1. split; [done|]. split; [done|]. split; [done|].
    rewrite frame_hdr. apply slice_app. split; [exact V4|]. by rewrite Hhs.
Qed.

(** The header ends where the payload begins. *)
Lemma hdr_room op key len : 0 <= len -> key_ok key ->
  (if 0xffff <? len then 0 else if 125 <? len then 6 else 8) + zlen (hdr_bytes op key len) = match key with Some _ => 14 | None => 10 end.
Proof.
  intros Hl Hk. unfold hdr_bytes. rewrite zlen_cons, zlen_app.
  assert (Hkz : zlen (default [] key) = match key with Some _ => 4 | None => 0 end) by (destruct key as [k|]; [unfold zlen; cbn; destruct Hk; lia|done]).
  rewrite Hkz. unfold len_bytes. destruct (0xffff <? len); [|destruct (125 <? len)]; rewrite ?zlen_cons; unfold zlen at 1; rewrite ?length_rev, ?le_bytes_length; destruct key; cbn; lia.
Qed.

Definition body_of (scode : Z) (text : option (list Z)) : list Z := (if scode =? 0 then [] else Rtp.be16 scode) ++ default [] text.

(** The body of a frame is written behind the room for the header. *)
Lemma ws_body_run scode text mb : mb_wf mb -> mb_pos mb + zlen (body_of scode text) <= SIZE_MAX ->
  exists e1 mb1 e2 mb2, (if scode =? 0 then Some (0, mb) else write16 alloc_ok junk scode mb) = Some (e1, mb1) /\
    match text with None => Some (0, mb1) | Some t => write_mem alloc_ok junk t mb1 end = Some (e2, mb2) /\
    ((forall n, alloc_ok n = true) -> e1 = 0 /\ e2 = 0) /\
    (e1 = 0 -> e2 = 0 -> written mb mb2 (body_of scode text) \/ (mb2 = mb /\ body_of scode text = [])).
Proof.
  intros Hwf Hs. unfold body_of in *. pose proof (zlen_nonneg (default [] text)). rewrite zlen_app in Hs. pose proof (zlen_nonneg (if scode =? 0 then [] else Rtp.be16 scode)).
  assert (Hw : forall d mb, mb_wf mb -> mb_pos mb + zlen d <= SIZE_MAX -> exists e mb', write_mem alloc_ok junk d mb = Some (e, mb') /\
    ((forall n, alloc_ok n = true) -> e = 0) /\ (if e =? 0 then written mb mb' d else mb' = mb)).
  { intros d m W1 W2. destruct (write_mem_ok alloc_ok junk m d W1 W2) as (e & mb' & E & Hc). exists e, mb'. split; [exact E|]. split; [|done]. intros Hm.
    destruct (puts_mem alloc_ok junk Hm d m W1 W2) as (mb'' & E' & _). unfold write_mem in E'. congruence. }
  assert (H1 : exists e1 mb1, (if scode =? 0 then Some (0, mb) else write16 alloc_ok junk scode mb) = Some (e1, mb1) /\ ((forall n, alloc_ok n = true) -> e1 = 0) /\
    (mb1 = mb /\ (e1 = 0 -> (if scode =? 0 then [] else Rtp.be16 scode) = []) \/ (e1 = 0 /\ written mb mb1 (if scode =? 0 then [] else Rtp.be16 scode)))).
  { destruct (scode =? 0); [exists 0, mb; eauto 6|]. unfold write16, mbuf_write_u16. rewrite htons_bytes. destruct (Hw (Rtp.be16 scode) mb Hwf ltac:(lia)) as (e & mb' & E & Hm & Hc).
    exists e, mb'. split; [exact E|]. split; [done|]. destruct (Z.eqb_spec e 0) as [->|Hne]; [by right|left]. split; [done|]. by intros ->. }
  destruct H1 as (e1 & mb1 & E1 & Hm1 & Hc1). exists e1, mb1. rewrite E1. set (pre := if scode =? 0 then [] else Rtp.be16 scode) in *.
  assert (Hb1 : mb_wf mb1 /\ mb_pos mb1 + zlen (default [] text) <= SIZE_MAX) by (destruct Hc1 as [[-> _]|[_ (V1 & V2 & _)]]; [split; [done|lia]|split; [done|lia]]).
  destruct text as [t|]; cbn [default from_option id] in *.
  - destruct (Hw t mb1 (proj1 Hb1) (proj2 Hb1)) as (e2 & mb2 & E2 & Hm2 & Hc2). exists e2, mb2. split; [done|]. split; [exact E2|]. split; [auto|]. intros -> ->. left. cbn in Hc2.
    destruct Hc1 as [[-> Hp]|[_ W1]]; [rewrite (Hp eq_refl); exact Hc2|by eapply written_app].
  - exists 0, mb1. split; [done|]. split; [done|]. split; [auto|]. intros -> _. rewrite app_nil_r. destruct Hc1 as [[-> Hp]|[_ W1]]; [right; auto|by left].
Qed.

Lemma frame_out_run op key scode text : 0 <= op < 16 -> key_ok key -> zlen (body_of scode text) <= 2 ^ 62 ->
  exists err out, frame_out alloc_ok junk (bool_decide (is_Some key)) (default [] key) op scode text = Some (err, out) /\
    ((forall n, alloc_ok n = true) -> err = 0) /\ (err = 0 -> out = frame op key (body_of scode text)).
Proof.
  intros Ho Hk Hl. unfold frame_out. set (mb0 := mk_mbuf (Some (grow junk [] 2048)) 2048 0 0).
  assert (Ha : mbuf_alloc alloc_ok junk 2048 = (if alloc_ok 2048 then Some mb0 else None)) by (unfold mbuf_alloc, mbuf_resize; cbn [Z.eqb]; by destruct (alloc_ok 2048)).
  rewrite Ha. destruct (alloc_ok 2048) eqn:Ea.
  2: { exists ENOMEM, []. split; [done|]. split; [|done]. intros Hm. by rewrite Hm in Ea. }
  set (hsz := if bool_decide (is_Some key) then 14 else 10). set (body := body_of scode text) in *. pose proof (zlen_nonneg body).
  assert (Hwf0 : mb_wf (set_pos hsz mb0)).
  { unfold mb_wf, bytes, set_pos. cbn. split; [by apply grow_len|]. unfold hsz, SIZE_MAX. destruct (bool_decide _); lia. }
  destruct (ws_body_run scode text (set_pos hsz mb0) Hwf0) as (e1 & mb1 & e2 & mb2 & E1 & E2 & Hm & Hw); [fold body; cbn; unfold hsz, SIZE_MAX; destruct (bool_decide _); lia|].
  fold body in Hw. cbn [mbind option_bind]. rewrite E1. cbn [mbind option_bind]. rewrite E2. cbn [mbind option_bind]. destruct (Z.eqb_spec (Z.lor e1 e2) 0) as [Hz|Hz]; cbn [negb].
  2: { exists (Z.lor e1 e2), []. split; [done|]. split; [|done]. intros Hmem. by destruct (Hm Hmem) as [-> ->]. }
  apply Z.lor_eq_0_iff in Hz as [-> ->]. specialize (Hw eq_refl eq_refl). exists 0, (frame op key body). split; [|done].
  assert (H2 : mb_wf mb2 /\ mb_pos mb2 = hsz + zlen body /\ slice (bytes mb2) hsz (zlen body) = Some body /\ hsz + zlen body <= mb_size mb2 /\
    mb_end mb2 <= hsz + zlen body /\ (mb_end mb2 = hsz + zlen body \/ body = [])).
  { destruct Hw as [(V1 & V2 & V3 & V4 & V5 & _)|[-> ->]].
    - cbn in V2, V3, V4. pose proof V1 as (_ & _ & ? & _). rewrite V2 in V3. replace (Z.max 0 (hsz + zlen body)) with (hsz + zlen body) in V3 by (unfold hsz; destruct (bool_decide _); lia).
      split_and!; try done; try lia; try (by left).
    - change (zlen []) with 0. pose proof Hwf0 as (? & _). split_and!; cbn; try done; try (unfold hsz; destruct (bool_decide _); lia); [|by right].
      rewrite slice_some; [done|unfold hsz; destruct (bool_decide _); lia|lia|]. unfold bytes. cbn. rewrite grow_len by lia. unfold hsz. destruct (bool_decide _); lia. }
  destruct H2 as (V1 & V2 & V3 & V4 & V5 & V6). rewrite V2. replace (hsz + zlen body - hsz) with (zlen body) by lia.
  set (start := if 65535 <? zlen body then 0 else if 125 <? zlen body then 6 else 8).
  pose proof (hdr_room op key (zlen body) ltac:(lia) Hk) as Hroom. fold start in Hroom.
  replace (match key with Some _ => 14 | None => 10 end) with hsz in Hroom by (unfold hsz; destruct key; [by rewrite bool_decide_true|rewrite bool_decide_false; [done|intros [? ?]; done]]).
  destruct (ws_encode_run op key body (set_pos start mb2) start hsz Ho Hk) as (mb3 & E3 & X1 & X2 & X3); try done.
  { apply wf_set_pos; [done|]. unfold start, SIZE_MAX. repeat case_match; lia. }
  rewrite E3. cbn [mbind option_bind negb Z.eqb]. assert (Hfz : zlen (frame op key body) = hsz + zlen body - start).
  { rewrite frame_hdr, zlen_app. destruct key; rewrite ?xor_key_len; lia. }
  assert (Hleft : mbuf_get_left (set_pos start mb3) = zlen (frame op key body)).
  { unfold mbuf_get_left. cbn. rewrite X2, Hfz. destruct (Z.ltb_spec start (hsz + zlen body)); [done|]. pose proof (zlen_nonneg (frame op key body)). lia. }
  rewrite Hleft. replace (zlen (frame op key body) =? 0) with false by (unfold frame; rewrite zlen_cons; symmetry; apply Z.eqb_neq; pose proof (zlen_nonneg (len_bytes (match key with Some _ => 128 | None => 0 end) (zlen body) ++ match key with Some k => k ++ xor_key k body | None => body end)); lia).
  cbn [mb_buf set_pos]. unfold bytes in X3. destruct (mb_buf mb3) as [b|]; cbn in X3 |- *; [by rewrite X3|].
  apply slice_inv in X3 as (_ & _ & X3 & _). change (zlen []) with 0 in X3. unfold frame in X3. rewrite zlen_cons in X3.
  match type of X3 with context [zlen ?l] => pose proof (zlen_nonneg l) end. unfold start in X3. repeat case_match; lia.
Qed.

End Encode.
