(* ===== verification/WebsockRecv.v ===== *)
(** * Reception of web-socket frames

    However TCP cuts the bytes of a sequence of frames into pieces, the
    application gets the messages in the frames, each once and in order. *)

From stdpp Require Import gmap.
From S2P Require Import Prelude Effects Mbuf MbufProps Rtp Codec Websock WebsockFrames.
Import Mb Ws.

(** ** Messages *)

Record message := mk_message { m_op : Z; m_key : option (list Z); m_body : list Z }.

Definition enc (m : message) : list Z := frame (m_op m) (m_key m) (m_body m).
Definition stream (ms : list message) : list Z := concat (map enc ms).

(** Frames of the peer of a connection whose own frames are masked or not:
    data, pings and pongs. *)
Definition is_data (op : Z) : bool := (op =? WEBSOCK_CONT) || (op =? WEBSOCK_TEXT) || (op =? WEBSOCK_BIN).
Record fair (act : bool) (m : message) : Prop := {
  fr_op : is_data (m_op m) = true \/ m_op m = WEBSOCK_PING \/ m_op m = WEBSOCK_PONG;
  fr_mask : bool_decide (is_Some (m_key m)) = negb act;
  fr_key : key_ok (m_key m);
  fr_body : is_bytes (m_body m);
  fr_len : zlen (m_body m) <= 2 ^ 61 }.

Lemma fair_op act m : fair act m -> 0 <= m_op m < 16.
Proof.
  intros [[Ho|[->| ->]] _ _ _ _]; [|done|done]. unfold is_data, WEBSOCK_CONT, WEBSOCK_TEXT, WEBSOCK_BIN in Ho. lia.
Qed.

Lemma parse_enc act m rest : fair act m -> parse (enc m ++ rest) = Frame (hdr_of (m_op m) (m_key m) (zlen (m_body m))) (m_body m) rest.
Proof. intros Hf. pose proof (fair_op _ _ Hf). destruct Hf. apply parse_frame; [done|done|lia]. Qed.

(** What the application sees of the messages. *)
Definition seen (ms : list message) : list (websock_hdr * list Z) :=
  omap (fun m => if is_data (m_op m) then Some (hdr_of (m_op m) (m_key m) (zlen (m_body m)), m_body m) else None) ms.

Definition received (c : nat) (l : list event) : list (websock_hdr * list Z) :=
  omap (fun e => match e with Ev_recv c' h p => if bool_decide (c' = c) then Some (h, p) else None | _ => None end) l.

Lemma received_app c l l' : received c (l ++ l') = received c l ++ received c l'.
Proof. apply omap_app. Qed.

(** A piece that ends inside a frame. *)
Lemma piece_cases act d e ms : Forall (fair act) ms -> is_bytes d -> d ++ e = stream ms ->
  (parse d = More /\ (forall F, Forall (fun m => zlen (enc m) <= F) ms -> 0 < F -> zlen d < F)) \/
  exists m ms' d', ms = m :: ms' /\ d = enc m ++ d' /\ d' ++ e = stream ms'.
Proof.
  intros Hms Hb Hs. destruct Hms as [|m ms Hm Hms].
  - left. apply app_eq_nil in Hs as [-> ->]. split; [done|]. intros F _ HF. change (zlen []) with 0. lia.
  - unfold stream in Hs. cbn [map concat] in Hs. fold (stream ms) in Hs. destruct (decide (length (enc m) <= length d)%nat) as [Hle|Hlt].
    + right. exists m, ms, (drop (length (enc m)) d). split; [done|].
      assert (Ht : take (length (enc m)) (d ++ e) = enc m) by (by rewrite Hs, take_app_length). rewrite take_app_le in Ht by lia.
      assert (Ed : enc m ++ drop (length (enc m)) d = d) by (rewrite <- Ht at 1; apply take_drop). split; [done|].
      apply (app_inv_head (enc m)). by rewrite app_assoc, Ed.
    + left. split; [|intros F HF _; apply Forall_cons in HF as [HF _]; unfold zlen in *; lia].
      assert (exists t, enc m = d ++ t /\ t <> []) as (t & Ed & Ht).
      { exists (drop (length d) (enc m)). split; [|intros Hr; apply (f_equal length) in Hr; rewrite length_drop in Hr; cbn [length] in Hr; lia]. rewrite <- (take_drop (length d) (enc m)) at 1. f_equal. transitivity (take (length d) (d ++ e)); [|apply take_app_length].
        rewrite Hs. symmetry. apply take_app_le. lia. }
      pose proof (parse_enc act m [] Hm) as Hp. rewrite app_nil_r, Ed in Hp. destruct (parse d) as [|len|h p r] eqn:E; [done|..].
      * by rewrite (parse_wild_app d _ len E) in Hp.
      * rewrite (parse_app d _ h p r Hb E) in Hp. injection Hp as _ _ Hr. by apply app_eq_nil in Hr as [_ Hr].
Qed.

(** ** Taking a frame off the buffer *)

Section Recv.
Context (alloc_ok : Z -> bool) (junk : Z -> Z) (Hmem : forall n, alloc_ok n = true).

(** The bytes that a connection has kept, not far into their buffer. *)
Definition pend (o : option mbuf) (d : list Z) : Prop := match o with None => d = [] | Some mb => content mb d /\ mb_pos mb <= 2 ^ 32 end.

Lemma content_payload mb p : content mb p -> payload_of mb = Some p.
Proof using.
  intros Hc. unfold payload_of. rewrite (content_left _ _ Hc). destruct Hc as [[(Hl & _) [Hs _]] _]. destruct (Z.eqb_spec (zlen p) 0) as [Hz|Hz].
  - by rewrite (zlen_zero p Hz).
  - unfold bytes in *. destruct (mb_buf mb) as [b|]; [done|]. cbn in Hs. apply slice_inv in Hs as (? & ? & Hs & _). change (zlen []) with 0 in Hs. lia.
Qed.

Lemma split_run mb p r : content mb (p ++ r) ->
  exists err mbp next, split_frame alloc_ok junk (zlen p) mb = Some (err, mbp, next) /\ content mbp p /\
    ((err = 0 /\ pend next r) \/ (err = ENOMEM /\ next = Some mbp /\ exists n, alloc_ok n = false)).
Proof using.
  intros [[(Hl & Hp & He & Hs) [Hsl Hav]] Hend]. rewrite zlen_app in Hav, Hend. pose proof (zlen_nonneg p). pose proof (zlen_nonneg r).
  unfold split_frame. set (mbp := set_end _ mb). assert (Ep : mb_end mbp = mb_pos mb + zlen p) by (cbn; apply usz_small; lia).
  apply slice_app in Hsl as [S1 S2].
  assert (Hcp : content mbp p).
  { split; [|by rewrite Ep]. split; [|split]; [|exact S1|rewrite Ep; cbn; lia]. unfold mb_wf, bytes in *. change (mb_buf mbp) with (mb_buf mb). change (mb_size mbp) with (mb_size mb).
    change (mb_pos mbp) with (mb_pos mb). rewrite Ep. lia. }
  rewrite Ep. destruct (Z.ltb_spec (mb_pos mb + zlen p) (mb_end mb)).
  2: { exists 0, mbp, None. split; [done|]. split; [done|]. left. split; [done|]. apply zlen_zero. lia. }
  replace (mb_end mb - (mb_pos mb + zlen p)) with (zlen r) by lia. set (mbn := mk_mbuf (Some (grow junk [] (zlen r))) (zlen r) 0 0).
  assert (Ha : mbuf_alloc alloc_ok junk (zlen r) = if alloc_ok (zlen r) then Some mbn else None).
  { unfold mbuf_alloc, mbuf_resize. rewrite (proj2 (Z.eqb_neq (zlen r) 0)) by lia. by destruct (alloc_ok (zlen r)). }
  rewrite Ha. destruct (alloc_ok (zlen r)) eqn:Ea.
  2: { exists ENOMEM, mbp, (Some mbp). split; [done|]. split; [done|]. right. by eauto. }
  change (mb_buf mbp) with (mb_buf mb). unfold bytes in S2. destruct (mb_buf mb) as [b|] eqn:Eb.
  2: { cbn in S2. apply slice_inv in S2 as (? & ? & S2 & _). change (zlen []) with 0 in S2. lia. }
  cbn in S2 |- *. rewrite S2. cbn.
  assert (Hwn : mb_wf mbn) by (unfold mb_wf, bytes, mbn; cbn; rewrite grow_len by lia; unfold SIZE_MAX in *; lia).
  destruct (room_mem alloc_ok junk r mbn Hwn ltac:(cbn; lia)) as (mb2 & E2 & V1 & V2 & V3 & V4 & _). unfold write_mem in E2. rewrite E2. cbn.
  exists 0, mbp, (Some (set_pos 0 mb2)). split; [done|]. split; [done|]. left. split; [done|]. cbn in V2, V3, V4. cbn [pend].
  split; [|cbn; lia]. split; [|cbn; lia]. split; [|split]; [apply wf_set_pos; [done|unfold SIZE_MAX; lia]|exact V4|cbn; lia].
Qed.

(** More bytes at the end. *)
Lemma append_run mb d new : content mb d -> mb_end mb + zlen new <= SIZE_MAX ->
  exists err mb', mbuf_write_mem alloc_ok junk (set_pos (mb_end mb) mb) new = Some (err, mb') /\ ((forall n, alloc_ok n = true) -> err = 0) /\
    (if err =? 0 then content (set_pos (mb_pos mb) mb') (d ++ new) else content mb' []).
Proof using.
  intros [[Hwf [Hsl Hav]] Hend] Hs. pose proof Hwf as (_ & W2 & W3 & W4). pose proof (zlen_nonneg d). pose proof (zlen_nonneg new).
  assert (Hwf' : mb_wf (set_pos (mb_end mb) mb)) by (apply wf_set_pos; [done|lia]).
  destruct (write_mem_ok alloc_ok junk _ new Hwf' ltac:(cbn; lia)) as (err & mb' & E & Hw). exists err, mb'. split; [exact E|]. split.
  { intros Hm. destruct (puts_mem alloc_ok junk Hm new _ Hwf' ltac:(cbn; lia)) as (mb'' & E' & _). unfold write_mem in E'. congruence. }
  destruct (err =? 0); [|subst mb'; split; [|cbn; change (zlen []) with 0; lia]; split; [done|]; split; [|cbn; change (zlen []) with 0; lia]].
  2: { change (zlen []) with 0. rewrite slice_some; [done|cbn; lia|lia|]. destruct Hwf' as (Hz & _). rewrite Hz. cbn. lia. }
  destruct Hw as (V1 & V2 & V3 & V4 & V5 & V6). cbn in V2, V3, V4, V5, V6.
  split; [|cbn; rewrite zlen_app; lia]. split; [|split].
  - apply wf_set_pos; [done|lia].
  - change (bytes (set_pos (mb_pos mb) mb')) with (bytes mb'). cbn [mb_pos set_pos]. apply slice_app. split; [|by rewrite Hend].
    rewrite V6; [exact Hsl|lia..].
  - cbn. rewrite zlen_app. lia.
Qed.

(** ** The application *)

Context (rnd : nat -> Z -> list Z) (Hrnd : forall k, length (rnd k 4) = 4%nat /\ is_bytes (rnd k 4)).
Context (send_err : list event -> Z) (has_shuth : bool).
Context (recvh : nat -> list event -> websock_hdr -> list Z -> list action) (closeh : nat -> list event -> Z -> list action).

(** A handler that only sends messages. *)
Definition mild (a : action) : Prop := exists op text, a = A_send op text /\ 0 <= op < 16 /\ zlen (default [] text) <= 2 ^ 61.
Context (Hmild : forall c l h p, Forall mild (recvh c l h p)).

(** Nothing but the log and the random numbers has changed, and nothing was
    received. *)
Definition quiet (w w' : world) : Prop := conns w' = conns w /\ sock w' = sock w /\ forall c, received c (log w') = received c (log w).

Lemma quiet_refl w : quiet w w.
Proof using. by split_and!. Qed.
Lemma quiet_trans w1 w2 w3 : quiet w1 w2 -> quiet w2 w3 -> quiet w1 w3.
Proof using. intros (A1 & A2 & A3) (B1 & B2 & B3). split_and!; [congruence|congruence|]. intros c. by rewrite B3. Qed.

Definition key_of (d : websock_conn) (k : nat) : option (list Z) := if active d then Some (rnd k 4) else None.

Lemma key_of_ok d k : key_ok (key_of d k).
Proof using Hrnd. unfold key_of. destruct (active d); [apply Hrnd|done]. Qed.

(** What sending a message does. *)
Lemma vsend_run c d op scode text w : conns w !! c = Some d -> state d = OPEN -> 0 <= op < 16 -> zlen (body_of scode text) <= 2 ^ 62 ->
  let out := frame op (key_of d (draws w)) (body_of scode text) in
  exists err w', websock_vsend alloc_ok junk rnd send_err c op scode text w = Some (err, w') /\ conns w' = conns w /\ sock w' = sock w /\
    (log w' = log w \/ log w' = log w ++ [Ev_send c out]) /\
    ((forall n, alloc_ok n = true) -> c_tc d = true -> log w' = log w ++ [Ev_send c out] /\ err = send_err (log w)).
Proof using Hrnd.
  intros Hd Ho Hop Hl out. destruct (frame_out_run alloc_ok junk op (key_of d (draws w)) scode text Hop (key_of_ok d _) Hl) as (err & fr & Hout & Hm & Hfr).
  unfold websock_vsend. rewrite (run_bind _ _ w d w) by (unfold get_conn; by rewrite Hd). rewrite bool_decide_false by (intros Hx; by apply Hx).
  set (w1 := if active d then mk_world (conns w) (sock w) (log w) (S (draws w)) else w).
  assert (Hk : (if active d then rand_bytes rnd 4 else mret []) w = Some (default [] (key_of d (draws w)), w1)) by (unfold w1, key_of; by destruct (active d)).
  assert (Hw1 : conns w1 = conns w /\ sock w1 = sock w /\ log w1 = log w) by (unfold w1; by destruct (active d)). destruct Hw1 as (W1 & W2 & W3).
  replace (active d) with (bool_decide (is_Some (key_of d (draws w)))) in Hk |- * by (unfold key_of; destruct (active d); [by rewrite bool_decide_true|rewrite bool_decide_false; [done|by intros [? ?]]]).
  rewrite (run_bind _ _ _ _ _ Hk). unfold of_option. rewrite Hout. unfold mbind, M_bind. destruct (Z.eqb_spec err 0) as [->|Hne]; cbn [negb].
  2: { exists err, w1. split; [done|]. rewrite W3. split_and!; try done; [by left|]. intros Ha. by specialize (Hm Ha). }
  rewrite (Hfr eq_refl). fold out. destruct (c_tc d); cbn [negb].
  - eexists _, _. split; [done|]. cbn [conns sock log]. rewrite W3. split_and!; try done. by right.
  - exists EINVAL, w1. split; [done|]. rewrite W3. split_and!; try done. by left.
Qed.

Lemma send_quiet c d op text w : conns w !! c = Some d -> state d = OPEN -> 0 <= op < 16 -> zlen (default [] text) <= 2 ^ 61 ->
  exists err w', websock_send alloc_ok junk rnd send_err c op text w = Some (err, w') /\ quiet w w'.
Proof using Hrnd.
  intros Hd Ho Hop Hl. destruct (vsend_run c d op 0 text w Hd Ho Hop) as (err & w' & E & H1 & H2 & H3 & _); [unfold body_of; cbn [Z.eqb app]; lia|]. exists err, w'.
  split; [done|]. split_and!; [done|done|]. intros c'. destruct H3 as [->| ->]; [done|]. unfold received. by rewrite omap_app, app_nil_r.
Qed.

Lemma actions_quiet c d f w : conns w !! c = Some d -> state d = OPEN -> held d = true -> (forall l, Forall mild (f l)) ->
  exists w', run_actions alloc_ok junk rnd send_err has_shuth c f w = Some (tt, w') /\ quiet w w'.
Proof using Hrnd.
  intros Hd Ho Hh Hf. unfold run_actions. rewrite gets_bind. generalize (f (log w)) (Hf (log w)). intros l Hl. clear Hf.
  revert w Hd. induction Hl as [|a l (op & text & -> & Hop & Ht) Hl IH]; intros w Hd; cbn [for_each]; [exists w; split; [done|apply quiet_refl]|].
  destruct (send_quiet c d op text w Hd Ho Hop Ht) as (err & w1 & E1 & Q1).
  assert (Ea : run_action alloc_ok junk rnd send_err has_shuth c (A_send op text) w = Some (tt, w1)).
  { unfold run_action. rewrite gets_bind, Hd, Hh. cbn [negb]. by rewrite (run_bind _ _ _ _ _ E1). }
  rewrite (run_bind _ _ _ _ _ Ea). destruct (IH w1) as (w2 & E2 & Q2); [rewrite (proj1 Q1); done|]. exists w2. split; [done|by eapply quiet_trans].
Qed.

(** ** Frames one after the other *)

Definition live (d : websock_conn) : Prop := state d = OPEN /\ c_own d = true /\ held d = true /\ refs d = 1.

Lemma get_run c d w : conns w !! c = Some d -> get_conn c w = Some (d, w).
Proof using. intros Hd. unfold get_conn. by rewrite Hd. Qed.
Lemma upd_run c d f w : conns w !! c = Some d -> upd_conn c f w = Some (tt, set_conns (<[c := f d]> (conns w)) w).
Proof using. intros Hd. unfold upd_conn. by rewrite (run_bind _ _ _ _ _ (get_run c d w Hd)). Qed.

Lemma deliver_run c d h p w : conns w !! c = Some d -> live d ->
  exists w', deliver_frame alloc_ok junk rnd send_err has_shuth recvh c h p w = Some (tt, w') /\ conns w' = conns w /\ sock w' = sock w /\
    received c (log w') = received c (log w) ++ [(h, p)].
Proof using Hmem Hrnd Hmild.
  intros Hd (Ho & Hown & Hh & Hr). unfold deliver_frame. set (d1 := upd_refs (refs d + 1) d). set (w1 := set_conns (<[c := d1]> (conns w)) w).
  rewrite (run_bind _ _ w tt w1) by (exact (upd_run c d (fun d => upd_refs (refs d + 1) d) w Hd)). assert (Hd1 : conns w1 !! c = Some d1) by apply lookup_insert_eq.
  rewrite (run_bind _ _ w1 d1 w1) by (by apply get_run). change (c_own d1) with (c_own d). rewrite Hown. cbn [when].
  set (w2 := mk_world (conns w1) (sock w1) (log w1 ++ [Ev_recv c h p]) (draws w1)).
  destruct (actions_quiet c d1 (fun l => recvh c l h p) w2) as (w3 & E3 & (Q1 & Q2 & Q3)); try done.
  rewrite (run_bind _ _ w1 tt w3) by (rewrite (run_bind _ _ w1 tt w2) by done; exact E3).
  assert (Hd3 : conns w3 !! c = Some d1) by (by rewrite Q1). rewrite (run_bind _ _ w3 d1 w3) by (by apply get_run).
  change (refs d1) with (refs d + 1). rewrite Hr. cbn [Z.eqb Z.add Pos.add Pos.eqb when]. rewrite (run_bind _ _ w3 tt w3) by done. unfold conn_deref.
  rewrite (run_bind _ _ w3 d1 w3) by (by apply get_run). rewrite (run_bind _ _ w3 tt _ (upd_run c d1 _ w3 Hd3)). change (refs d1) with (refs d + 1). rewrite Hr. cbn [Z.leb Z.compare Pos.compare Pos.compare_cont Z.add Pos.add when].
  eexists. split; [done|]. cbn [conns sock log set_conns]. split; [|split; [rewrite Q2; done|]].
  - rewrite Q1. unfold w2, w1. cbn [conns set_conns]. rewrite insert_insert_eq. replace (upd_refs _ d1) with d; [by apply insert_id|]. destruct d. cbn in *. by subst.
  - rewrite Q3. unfold w2. cbn [log w1 set_conns]. rewrite received_app. unfold received at 2. cbn. by rewrite bool_decide_true.
Qed.

Lemma handle_run c d m w : conns w !! c = Some d -> live d -> fair (active d) m ->
  exists w', handle_frame alloc_ok junk rnd send_err has_shuth recvh closeh c (hdr_of (m_op m) (m_key m) (zlen (m_body m))) (m_body m) w = Some ((0, false), w') /\
    conns w' = conns w /\ sock w' = sock w /\ received c (log w') = received c (log w) ++ seen [m].
Proof using Hmem Hrnd Hmild.
  intros Hd Hl [Hop _ _ _ Hlen]. unfold handle_frame, seen. cbn [opcode hdr_of omap list_omap]. fold (is_data (m_op m)). destruct (is_data (m_op m)) eqn:Ei.
  - destruct (deliver_run c d (hdr_of (m_op m) (m_key m) (zlen (m_body m))) (m_body m) w Hd Hl) as (w' & E & H1). exists w'. split; [|done].
    by rewrite (run_bind _ _ _ _ _ E).
  - destruct Hop as [?|[Ep|Ep]]; [done|..]; rewrite Ep; cbn [Z.eqb Pos.eqb WEBSOCK_PING WEBSOCK_PONG WEBSOCK_CLOSE].
    + destruct (send_quiet c d WEBSOCK_PONG (Some (m_body m)) w Hd (proj1 Hl) ltac:(done) Hlen) as (err & w' & E & Q1 & Q2 & Q3). exists w'.
      rewrite (run_bind _ _ _ _ _ E). rewrite app_nil_r. split; [done|]. by rewrite Q3.
    + exists w. rewrite app_nil_r. done.
Qed.

(** The state after a number of messages: [ms] were handled, [d1] is left. *)
Record after (c : nat) (d : websock_conn) (w w' : world) (ms : list message) (d1 : list Z) : Prop := {
  af_conns : exists o, conns w' = <[c := upd_mb o d]> (conns w) /\ pend o d1;
  af_sock : sock w' = sock w;
  af_seen : received c (log w') = received c (log w) ++ seen ms }.

Lemma seen_app a b : seen (a ++ b) = seen a ++ seen b.
Proof using. apply omap_app. Qed.

Lemma upd_mb_mb o o' d : upd_mb o (upd_mb o' d) = upd_mb o d.
Proof using. done. Qed.

Lemma live_mb o d : live d -> live (upd_mb o d).
Proof using. done. Qed.

Abbreviation recv_loop := (recv_loop alloc_ok junk rnd send_err has_shuth recvh closeh).
Abbreviation recv_handler := (recv_handler alloc_ok junk rnd send_err has_shuth recvh closeh).

(** A complete frame in front. *)
Lemma loop_frame c d mb m r w fuel : conns w !! c = Some d -> live d -> fair (active d) m -> c_mb d = Some mb -> content mb (enc m ++ r) -> is_bytes (enc m ++ r) ->
  exists w', recv_loop (S fuel) c w = recv_loop fuel c w' /\ after c d w w' [m] r.
Proof using Hmem Hrnd Hmild.
  intros Hd Hl Hf Emb Hc Hb. pose proof (ws_decode_run mb _ Hc Hb) as Hdec. rewrite (parse_enc _ m r Hf) in Hdec. destruct Hdec as (mb' & Ed & Hc' & Hlen).
  cbn [Ws.recv_loop]. rewrite (run_bind _ _ w d w) by (by apply get_run). rewrite Emb. unfold of_option at 1. rewrite Ed.
  rewrite (run_bind _ _ w _ w eq_refl). cbn [Z.eqb ENODATA]. set (h := hdr_of (m_op m) (m_key m) (zlen (m_body m))) in *.
  rewrite (run_bind _ _ w tt _ (upd_run c d _ w Hd)). cbn [negb]. set (w1 := set_conns _ w).
  assert (Hmask : (Z.b2z (active d) =? mask h) = false).
  { pose proof (fr_mask _ _ Hf) as Hm. unfold h. cbn. destruct (m_key m); [rewrite bool_decide_true in Hm by done|rewrite bool_decide_false in Hm by (by intros [? ?])]; by destruct (active d). }
  rewrite Hmask. cbn [rsv1 rsv2 rsv3 h hdr_of Z.eqb andb negb]. rewrite Hlen. destruct (split_run mb' (m_body m) r Hc') as (err & mbp & next & Es & Hcp & [[-> Hn]|(_ & _ & n & Hn)]); [|by rewrite Hmem in Hn].
  unfold of_option at 1. rewrite Es. rewrite (run_bind _ _ w1 _ w1 eq_refl). assert (Hd1 : conns w1 !! c = Some (upd_mb (Some mb') d)) by apply lookup_insert_eq.
  rewrite (run_bind _ _ w1 tt _ (upd_run c _ _ w1 Hd1)). rewrite upd_mb_mb. cbn [negb Z.eqb]. set (w2 := set_conns _ w1).
  unfold of_option. rewrite (content_payload _ _ Hcp). rewrite (run_bind _ _ w2 _ w2 eq_refl).
  assert (Hd2 : conns w2 !! c = Some (upd_mb next d)) by apply lookup_insert_eq.
  destruct (handle_run c (upd_mb next d) m w2 Hd2 Hl Hf) as (w3 & E3 & A1 & A2 & A3). rewrite (run_bind _ _ _ _ _ E3). cbn [negb Z.eqb orb].
  exists w3. split; [done|]. split; [|by rewrite A2|by rewrite A3]. exists next. split; [|done]. rewrite A1. unfold w2, w1. cbn [conns set_conns]. apply insert_insert_eq.
Qed.

Lemma after_refl c d w d1 : conns w !! c = Some d -> pend (c_mb d) d1 -> after c d w w [] d1.
Proof using.
  intros Hd Hp. split; [|done|by rewrite app_nil_r]. exists (c_mb d). split; [|done]. rewrite insert_id; [done|]. rewrite Hd. by destruct d.
Qed.

Lemma after_trans c d w o w1 w2 ms1 ms2 d2 : conns w1 = <[c := upd_mb o d]> (conns w) -> sock w1 = sock w -> received c (log w1) = received c (log w) ++ seen ms1 ->
  after c (upd_mb o d) w1 w2 ms2 d2 -> after c d w w2 (ms1 ++ ms2) d2.
Proof using.
  intros H1 H2 H3 [(o2 & C1 & C2) A2 A3]. split; [|by rewrite A2|by rewrite A3, H3, seen_app, app_assoc]. exists o2. split; [|done].
  rewrite C1, H1, insert_insert_eq. done.
Qed.

Lemma loop_stream ms : forall fuel c d d0 e w, conns w !! c = Some d -> live d -> Forall (fair (active d)) ms -> pend (c_mb d) d0 -> is_bytes d0 ->
  d0 ++ e = stream ms -> (length d0 < fuel)%nat ->
  exists w' ms1 ms2 d1, recv_loop fuel c w = Some ((0, false), w') /\ ms = ms1 ++ ms2 /\ d1 ++ e = stream ms2 /\ is_bytes d1 /\ after c d w w' ms1 d1 /\ parse d1 = More /\
    forall F, Forall (fun m => zlen (enc m) <= F) ms2 -> 0 < F -> zlen d1 < F.
Proof using Hmem Hrnd Hmild.
  induction ms as [|m ms IH]; intros fuel c d d0 e w Hd Hl Hf Hp Hb Hs Hfuel; (destruct fuel as [|fuel]; [lia|]).
  all: assert (Hnone : c_mb d = None -> recv_loop (S fuel) c w = Some ((0, false), w))
    by (intros En; cbn [Ws.recv_loop]; rewrite (run_bind _ _ w d w) by (by apply get_run); by rewrite En).
  all: assert (Hmore : forall mb, c_mb d = Some mb -> parse d0 = More -> exists w', recv_loop (S fuel) c w = Some ((0, false), w') /\ after c d w w' [] d0).
  1, 3: intros mb En Hm; rewrite En in Hp; destruct Hp as [Hp Hpos]; pose proof (ws_decode_run mb d0 Hp Hb) as Hdec; rewrite Hm in Hdec; destruct Hdec as (h & mb' & Ed & Hc);
    cbn [Ws.recv_loop]; rewrite (run_bind _ _ w d w) by (by apply get_run); rewrite En; unfold of_option at 1; rewrite Ed, (run_bind _ _ w _ w eq_refl); cbn [Z.eqb Pos.eqb ENODATA];
    rewrite (run_bind _ _ w tt _ (upd_run c d _ w Hd)); eexists; (split; [done|]); split; [by eexists; split; [reflexivity|by split]|done|by rewrite app_nil_r].
  - destruct (piece_cases (active d) d0 e [] Hf Hb Hs) as [[Hm HF]|(m & ms' & d' & ? & _)]; [|done].
    destruct (c_mb d) as [mb|] eqn:En.
    + destruct (Hmore mb eq_refl Hm) as (w' & E & Ha). exists w', [], [], d0. done.
    + rewrite (Hnone eq_refl). exists w, [], [], d0. split_and!; try done. apply after_refl; [done|]. by rewrite En.
  - destruct (piece_cases (active d) d0 e (m :: ms) Hf Hb Hs) as [[Hm HF]|(m' & ms' & d' & [= <- <-] & -> & Hs')].
    + destruct (c_mb d) as [mb|] eqn:En.
      * destruct (Hmore mb eq_refl Hm) as (w' & E & Ha). exists w', [], (m :: ms), d0. done.
      * rewrite (Hnone eq_refl). exists w, [], (m :: ms), d0. split_and!; try done. apply after_refl; [done|]. by rewrite En.
    + destruct (c_mb d) as [mb|] eqn:En; [|done]. apply Forall_cons in Hf as [Hfm Hf].
      destruct (loop_frame c d mb m d' w fuel Hd Hl Hfm En (proj1 Hp) Hb) as (w1 & -> & [(o & C1 & C2) A2 A3]).
      assert (Hd1 : conns w1 !! c = Some (upd_mb o d)) by (rewrite C1; apply lookup_insert_eq). unfold is_bytes in Hb. apply Forall_app in Hb as [_ Hb]. rewrite length_app in Hfuel.
      destruct (IH fuel c (upd_mb o d) d' e w1 Hd1 Hl Hf C2 Hb Hs') as (w' & ms1 & ms2 & d1 & E & -> & H1 & H2 & H3 & H4 & H5); [unfold enc, frame in Hfuel; cbn in Hfuel; lia|].
      exists w', (m :: ms1), ms2, d1. split_and!; try done. by apply (after_trans c d w o w1 w' [m] ms1).
Qed.

(** ** One piece after the other *)

Lemma append_pend c d d0 mb chunk w : conns w !! c = Some d -> pend (c_mb d) d0 -> pend (Some mb) chunk -> zlen d0 + zlen chunk <= BUFSIZE_MAX ->
  exists o, recv_append alloc_ok junk c mb w = Some (0, set_conns (<[c := upd_mb o d]> (conns w)) w) /\ pend o (d0 ++ chunk).
Proof using Hmem.
  intros Hd Hp [Hc Hpos] Hsz. unfold recv_append. rewrite (run_bind _ _ w d w) by (by apply get_run). pose proof (zlen_nonneg d0). destruct (c_mb d) as [cmb|].
  - destruct Hp as [Hcc Hp]. rewrite (content_left _ _ Hc), (content_left _ _ Hcc). replace (BUFSIZE_MAX <? _) with false by lia.
    pose proof (content_payload _ _ Hc) as Hpl. unfold payload_of in Hpl. rewrite (content_left _ _ Hc) in Hpl. unfold of_option at 1. rewrite Hpl.
    rewrite (run_bind _ _ w _ w eq_refl). destruct (append_run cmb d0 chunk Hcc) as (err & mb' & E & Hm & Hc').
    { destruct Hcc as [_ He]. unfold SIZE_MAX, BUFSIZE_MAX in *. lia. }
    rewrite (Hm Hmem) in *.
    unfold of_option. rewrite E. rewrite (run_bind _ _ w _ w eq_refl). cbn [negb Z.eqb]. rewrite (run_bind _ _ _ _ _ (upd_run c d _ w Hd)).
    exists (Some (set_pos (mb_pos cmb) mb')). split; [done|]. split; [done|]. cbn. lia.
  - cbn in Hp. subst d0. rewrite (run_bind _ _ _ _ _ (upd_run c d _ w Hd)). exists (Some mb). split; [done|]. by split.
Qed.

Lemma pend_left o d : pend o d -> default 0 (mbuf_get_left <$> o) = zlen d.
Proof using. destruct o as [mb|]; [intros [Hc _]; by apply content_left|]. by intros ->. Qed.

Lemma chunk_run c d d0 mb chunk e ms w : conns w !! c = Some d -> live d -> Forall (fair (active d)) ms -> pend (c_mb d) d0 -> pend (Some mb) chunk ->
  is_bytes d0 -> is_bytes chunk -> zlen d0 + zlen chunk <= BUFSIZE_MAX -> d0 ++ chunk ++ e = stream ms ->
  exists w' ms1 ms2 d1, recv_handler c mb w = Some (tt, w') /\ ms = ms1 ++ ms2 /\ d1 ++ e = stream ms2 /\ is_bytes d1 /\ after c d w w' ms1 d1 /\ parse d1 = More /\
    forall F, Forall (fun m => zlen (enc m) <= F) ms2 -> 0 < F -> zlen d1 < F.
Proof using Hmem Hrnd Hmild.
  intros Hd Hl Hf Hp Hc Hb Hb' Hsz Hs. unfold Ws.recv_handler. destruct (append_pend c d d0 mb chunk w Hd Hp Hc Hsz) as (o & E1 & Hp1). rewrite (run_bind _ _ _ _ _ E1).
  cbn [negb Z.eqb]. set (w1 := set_conns _ w). assert (Hd1 : conns w1 !! c = Some (upd_mb o d)) by apply lookup_insert_eq.
  rewrite app_assoc in Hs. pose proof (pend_left _ _ Hp1) as Hleft. set (fuel := S (Z.to_nat (default 0 (mbuf_get_left <$> o)))).
  destruct (loop_stream ms fuel c (upd_mb o d) (d0 ++ chunk) e w1 Hd1 Hl Hf Hp1) as (w' & ms1 & ms2 & d1 & E & Hms & H1 & H2 & H3 & H4 & H5);
    [by apply Forall_app|done|unfold fuel; rewrite Hleft; unfold zlen; lia|].
  rewrite (run_bind _ _ w1 (0, false) w') by (rewrite (run_bind _ _ w1 _ w1 (get_run c _ w1 Hd1)); exact E).
  cbn [negb Z.eqb when]. exists w', ms1, ms2, d1. split_and!; try done. apply (after_trans c d w o w1 w' [] ms1); try done. by rewrite app_nil_r.
Qed.

(** The pieces that TCP delivers. *)
Lemma chunks_run F C chunks : forall c d d0 ms w, conns w !! c = Some d -> live d -> Forall (fair (active d)) ms -> Forall (fun m => zlen (enc m) <= F) ms -> 0 < F ->
  F + C <= BUFSIZE_MAX -> pend (c_mb d) d0 -> is_bytes d0 -> parse d0 = More -> zlen d0 < F ->
  Forall (fun mc => pend (Some mc.1) mc.2 /\ is_bytes mc.2 /\ zlen mc.2 <= C) chunks -> d0 ++ concat (map snd chunks) = stream ms ->
  exists w', for_each (recv_handler c) (map fst chunks) w = Some (tt, w') /\ after c d w w' ms [].
Proof using Hmem Hrnd Hmild.
  induction chunks as [|[mb chunk] chunks IH]; intros c d d0 ms w Hd Hl Hf HF HF0 HC Hp Hb Hm Hd0 Hch Hs; cbn [map concat for_each snd fst] in *.
  - exists w. split; [done|]. rewrite app_nil_r in Hs. assert (ms = []) as ->.
    { destruct Hf as [|m ms Hm' Hf]; [done|]. exfalso. rewrite Hs in Hm. change (stream (m :: ms)) with (enc m ++ stream ms) in Hm. by rewrite (parse_enc (active d)) in Hm. }
    cbn in Hs. subst d0. by apply after_refl.
  - apply Forall_cons in Hch as [(Hc & Hcb & Hcl) Hch]. cbn [fst snd] in *. destruct (chunk_run c d d0 mb chunk (concat (map snd chunks)) ms w) as (w1 & ms1 & ms2 & d1 & E1 & -> & Hs1 & Hb1 & Ha & Hm1 & HFd); try done; [lia|].
    apply Forall_app in Hf as [Hf1 Hf2]. apply Forall_app in HF as [HF1 HF2]. destruct Ha as [(o & C1 & C2) A2 A3].
    destruct (IH c (upd_mb o d) d1 ms2 w1) as (w' & E2 & Ha2); try done; [rewrite C1; apply lookup_insert_eq|by apply HFd|].
    exists w'. rewrite (run_bind _ _ _ _ _ E1). split; [done|]. by apply (after_trans c d w o w1 w' ms1 ms2).
Qed.

End Recv.
