(* ===== verification/WebsockLife.v ===== *)
(** * The life of a web-socket connection

    Whatever the peer sends, TCP and HTTP report and the application does, a
    connection is used only while it exists, its close handler is called at
    most once and last, and the socket is told when the last connection is
    gone. *)

From stdpp Require Import gmap.
From S2P Require Import Prelude Effects Mbuf MbufProps Rtp Codec Base64 Websock WebsockFrames WebsockRecv.
Import Mb Ws.

(** ** Histories *)

Inductive phase_t := Live | Done | Gone.

Definition conn_of (e : event) : option nat :=
  match e with Ev_send c _ | Ev_estab c | Ev_recv c _ _ | Ev_close c _ | Ev_free c => Some c | Ev_shutdown => None end.

(** After its close handler was called, a connection is only freed. *)
Definition advance (c : nat) (p : option phase_t) (e : event) : option phase_t :=
  if bool_decide (conn_of e = Some c) then
    match p, e with
    | Some Live, Ev_close _ _ => Some Done
    | Some Live, Ev_free _ => Some Gone
    | Some Live, _ => Some Live
    | Some Done, Ev_free _ => Some Gone
    | _, _ => None
    end
  else p.
Definition phase (c : nat) (l : list event) : option phase_t := fold_left (advance c) l (Some Live).

Lemma phase_snoc c l e : phase c (l ++ [e]) = advance c (phase c l) e.
Proof. unfold phase. by rewrite fold_left_app. Qed.

Lemma phase_other c l e : conn_of e <> Some c -> phase c (l ++ [e]) = phase c l.
Proof. intros H. rewrite phase_snoc. unfold advance. by rewrite bool_decide_false. Qed.

(** ** The invariant *)

Definition fresh_id (c : nat) (l : list event) : Prop := Forall (fun e => conn_of e <> Some c) l.

Lemma fresh_phase c l : fresh_id c l -> phase c l = Some Live.
Proof.
  intros H. induction l as [|e l IH] using rev_ind; [done|]. apply Forall_app in H as [H1 H2]. apply Forall_cons in H2 as [H2 _]. rewrite phase_other by done. by apply IH.
Qed.

(** The bytes that a connection has kept. *)
Definition kept (o : option mbuf) (d : list Z) : Prop := match o with None => d = [] | Some mb => content mb d end.

(** [k]: the references that are held by a call in progress. *)
Record cinv (l : list event) (c : nat) (d : websock_conn) (k : Z) : Prop := {
  ci_refs : refs d = Z.b2z (held d) + Z.b2z (negb (c_own d)) + k;
  ci_own : c_own d = false -> held d = false /\ state d = CLOSING;
  ci_tmr : c_own d = false -> exists t, c_tmr d = Some (Timeout, t);
  ci_closed : state d = CLOSED -> c_tc d = false /\ c_tmr d = None;
  ci_sock : c_sock d = true;
  ci_mb : exists d0, kept (c_mb d) d0 /\ is_bytes d0;
  ci_phase : phase c l = Some (if bool_decide (state d = CLOSED) then Done else Live) }.

(** When the socket is told, every connection that had shown itself is gone. *)
Definition all_gone (l : list event) : Prop := forall c, phase c l = Some Gone \/ fresh_id c l.
Definition shut_ok (l : list event) : Prop := forall l1 l2, l = l1 ++ Ev_shutdown :: l2 -> all_gone l1.

Lemma shut_snoc l e : shut_ok l -> (e = Ev_shutdown -> all_gone l) -> shut_ok (l ++ [e]).
Proof.
  intros Hl He l1 l2 E. destruct l2 as [|x l2 _] using rev_ind.
  - apply app_inj_tail in E as [-> ->]. by apply He.
  - rewrite app_comm_cons, app_assoc in E. apply app_inj_tail in E as [-> _]. by eapply Hl.
Qed.

Definition sinv (w : world) : Prop := exists s, sock w = Some s /\ s_refs s = Z.of_nat (size (conns w)) + Z.b2z (negb (s_shutdown s)) /\
  (s_shutdown s = true -> (0 < size (conns w))%nat) /\ shut_ok (log w).

(** The other connections. *)
Definition others (c : nat) (w : world) : Prop :=
  (forall c' d, c' <> c -> conns w !! c' = Some d -> cinv (log w) c' d 0 /\ 1 <= refs d) /\
  (forall c', c' <> c -> conns w !! c' = None -> phase c' (log w) = Some Gone \/ fresh_id c' (log w)).

Record focus (c : nat) (w : world) (d : websock_conn) (k : Z) : Prop := {
  fo_others : others c w;
  fo_conn : conns w !! c = Some d;
  fo_cinv : cinv (log w) c d k;
  fo_sock : sinv w }.

Definition gone (c : nat) (w : world) : Prop := others c w /\ conns w !! c = None /\ phase c (log w) = Some Gone /\ sinv w.

Definition INV (w : world) : Prop := sinv w /\
  (forall c d, conns w !! c = Some d -> cinv (log w) c d 0 /\ 1 <= refs d) /\
  (forall c, conns w !! c = None -> phase c (log w) = Some Gone \/ fresh_id c (log w)).

Lemma focus_of c d w : INV w -> conns w !! c = Some d -> focus c w d 0 /\ 1 <= refs d.
Proof.
  intros (Hs & Hc & Hn) Hd. destruct (Hc c d Hd) as [H1 H2]. split; [|done]. split; try done. split; intros; auto.
Qed.
Lemma inv_of c d w : focus c w d 0 -> 1 <= refs d -> INV w.
Proof.
  intros [[H1 H2] Hd Hc Hs] Hr. split; [done|]. split.
  - intros c' d' Hd'. destruct (decide (c' = c)) as [->|Hne]; [|by apply H1]. rewrite Hd in Hd'. by injection Hd' as <-.
  - intros c' Hn. apply H2; [|done]. intros ->. congruence.
Qed.
Lemma inv_gone c w : gone c w -> INV w.
Proof.
  intros ([H1 H2] & Hn & Hp & Hs). split; [done|]. split.
  - intros c' d' Hd'. apply H1; [|done]. intros ->. congruence.
  - intros c' Hn'. destruct (decide (c' = c)) as [->|Hne]; [by left|by apply H2].
Qed.

(** The other connections do not notice what happens to one. *)
Lemma others_step c w w' evs : others c w -> (forall c', c' <> c -> conns w' !! c' = conns w !! c') -> log w' = log w ++ evs ->
  Forall (fun e => conn_of e = Some c \/ conn_of e = None) evs -> others c w'.
Proof.
  intros [H1 H2] Hc Hl He.
  assert (Hph : forall c', c' <> c -> phase c' (log w') = phase c' (log w) /\ (fresh_id c' (log w) -> fresh_id c' (log w'))).
  { intros c' Hne. rewrite Hl. clear -He Hne. induction evs as [|e evs IH] using rev_ind; [by rewrite app_nil_r|].
    apply Forall_app in He as [He1 He2]. apply Forall_cons in He2 as [He2 _]. assert (Hn : conn_of e <> Some c') by (destruct He2 as [->| ->]; congruence).
    destruct (IH He1) as [I1 I2]. rewrite app_assoc. split; [rewrite phase_other by done; exact I1|]. intros Hf. apply Forall_app. split; [by apply I2|by constructor]. }
  split.
  - intros c' d Hne Hd. rewrite Hc in Hd by done. destruct (H1 c' d Hne Hd) as [[] ?]. split; [|done]. split; try done. by rewrite (proj1 (Hph c' Hne)).
  - intros c' Hne Hn. rewrite Hc in Hn by done. rewrite (proj1 (Hph c' Hne)). destruct (H2 c' Hne Hn); [by left|right]. by apply Hph.
Qed.

(** A change of one connection. *)
Lemma focus_upd c w d d' k k' w' : focus c w d k -> conns w' = <[c := d']> (conns w) -> sock w' = sock w -> log w' = log w -> cinv (log w) c d' k' -> focus c w' d' k'.
Proof.
  intros [Ho Hd Hc Hs] Ec Es El Hc'. split; [|rewrite Ec; apply lookup_insert_eq|by rewrite El|].
  - apply (others_step c w w' []); [done| |by rewrite app_nil_r|constructor]. intros c' Hne. rewrite Ec. by apply lookup_insert_ne.
  - destruct Hs as (s & S1 & S2 & S3 & S4). exists s. rewrite Es, Ec, El. rewrite map_size_insert_Some by by eexists. done.
Qed.

(** An event of one connection. *)
Lemma focus_event c w d k e w' : focus c w d k -> conns w' = conns w -> sock w' = sock w -> log w' = log w ++ [e] -> conn_of e = Some c ->
  state d <> CLOSED -> (forall x, e <> Ev_close c x) -> (e <> Ev_free c) -> focus c w' d k.
Proof.
  intros [Ho Hd Hc Hs] Ec Es El He Hst N1 N2. split; [|by rewrite Ec| |].
  - apply (others_step c w w' [e]); [done|by intros; rewrite Ec|done|constructor; [by left|constructor]].
  - destruct Hc as [C1 C2 C3 C4 C5 C6 C7]. split; try done. rewrite El, phase_snoc, C7. rewrite bool_decide_false by done.
    unfold advance. rewrite bool_decide_true by done. destruct e; try done; cbn in He; injection He as ->; [by destruct (N1 err)|by destruct N2].
  - destruct Hs as (s & S1 & S2 & S3 & S4). exists s. rewrite Es, Ec, El. split_and!; try done. apply shut_snoc; [done|]. by intros ->.
Qed.

(** ** Sending *)

Section Life.
Context (alloc_ok : Z -> bool) (junk : Z -> Z).
Context (rnd : nat -> Z -> list Z) (Hrnd : forall k, length (rnd k 4) = 4%nat /\ is_bytes (rnd k 4)).
Context (send_err : list event -> Z) (has_shuth : bool).

Lemma send_focus c w d k op scode text : focus c w d k -> 0 <= op < 16 -> zlen (body_of scode text) <= 2 ^ 62 ->
  exists err w', websock_vsend alloc_ok junk rnd send_err c op scode text w = Some (err, w') /\ focus c w' d k /\ (err = 0 -> state d = OPEN).
Proof using Hrnd.
  intros Hfo Hop Hl. pose proof (fo_conn _ _ _ _ Hfo) as Hd. destruct (decide (state d = OPEN)) as [Ho|Ho].
  - destruct (vsend_run alloc_ok junk rnd Hrnd send_err c d op scode text w Hd Ho Hop Hl) as (err & w' & E & H1 & H2 & H3 & _). exists err, w'. split; [done|]. split; [|done].
    destruct H3 as [H3|H3].
    + apply (focus_upd c w d d k k); try done; [|apply Hfo]. rewrite H1. symmetry. by apply insert_id.
    + eapply focus_event; try done. by rewrite Ho.
  - exists ENOTCONN, w. split; [|done]. unfold websock_vsend. rewrite (run_bind _ _ w d w) by (by apply get_run). by rewrite bool_decide_true.
Qed.

Lemma close_focus c w d k scode text : focus c w d k -> zlen (default [] text) <= 2 ^ 61 ->
  exists err w' d', websock_close alloc_ok junk rnd send_err c scode text w = Some (err, w') /\ focus c w' d' k /\
    (d' = d \/ (state d = OPEN /\ d' = upd_state CLOSING d)).
Proof using Hrnd.
  intros Hfo Hl. unfold websock_close. set (t := if scode =? 0 then None else text).
  destruct (send_focus c w d k WEBSOCK_CLOSE scode t Hfo ltac:(done)) as (err & w1 & E1 & Hfo1 & Hst).
  { unfold body_of. rewrite zlen_app. assert (zlen (if scode =? 0 then [] else Rtp.be16 scode) <= 2) by (by destruct (scode =? 0)).
    assert (zlen (default [] t) <= 2 ^ 61) by (unfold t; destruct (scode =? 0); [done|exact Hl]). lia. }
  rewrite (run_bind _ _ _ _ _ E1). destruct (Z.eqb_spec err 0) as [->|Hne]; cbn [when].
  - specialize (Hst eq_refl). rewrite (run_bind _ _ _ _ _ (upd_run c d _ w1 (fo_conn _ _ _ _ Hfo1))). eexists 0, _, (upd_state CLOSING d). split; [done|]. split; [|by right].
    eapply focus_upd; [exact Hfo1|done|done|done|]. destruct (fo_cinv _ _ _ _ Hfo1) as [C1 C2 C3 C4 C5 C6 C7]. split; try done.
    + intros Hw. destruct (C2 Hw) as [? Hc]. congruence.
    + rewrite C7. by rewrite Hst.
  - rewrite (run_bind _ _ w1 tt w1 eq_refl). exists err, w1, d. split; [done|]. split; [done|by left].
Qed.

(** ** Releasing *)

Lemma sock_deref_run w n m : sinv (mk_world (conns w) (sock w) (log w) n) -> size m = pred (size (conns w)) -> (0 < size (conns w))%nat ->
  (m = ∅ -> all_gone (log w)) -> exists w', sock_deref has_shuth (mk_world m (sock w) (log w) n) = Some (tt, w') /\ conns w' = m /\ sinv w' /\
    (exists evs, log w' = log w ++ evs /\ Forall (fun e => conn_of e = None) evs).
Proof using.
  intros (s & S1 & S2 & S3 & S4) Hm Hpos Hgone. cbn in S1, S2, S3, S4. unfold sock_deref. rewrite (run_bind _ _ (mk_world m (sock w) (log w) n) s (mk_world m (sock w) (log w) n)) by (cbn; by rewrite S1).
  destruct (Z.ltb_spec 1 (s_refs s)) as [H1|H1].
  - eexists. split; [done|]. split; [done|]. split; [|exists []; by rewrite app_nil_r]. exists (mk_sock (s_shutdown s) (s_refs s - 1)). split; [done|]. cbn. rewrite Hm. split; [lia|]. split; [|done].
    intros Hs. specialize (S3 Hs). rewrite Hs in S2. cbn in S2. lia.
  - assert (Hsh : s_shutdown s = true) by (destruct (s_shutdown s); [done|cbn in S2; lia]). rewrite Hsh in *. cbn in S2. unfold put_sock, modify. unfold mbind at 1, M_bind at 1.
    assert (Hz : size m = 0%nat) by lia. specialize (Hgone (proj1 (map_size_empty_iff m) Hz)). destruct has_shuth; cbn [when].
    + eexists. split; [done|]. split; [done|]. split; [|exists [Ev_shutdown]; split; [done|by constructor]]. exists (mk_sock false 1). split; [done|]. cbn. rewrite Hz. split; [done|]. split; [done|by apply shut_snoc].
    + eexists. split; [done|]. split; [done|]. split; [|exists []; by rewrite app_nil_r]. exists (mk_sock false 1). split; [done|]. cbn. rewrite Hz. by split.
Qed.

(** The memory of a connection is released. *)
Lemma free_run c w d : others c w -> conns w !! c = Some d -> sinv w -> c_sock d = true -> phase c (log w) = Some Live \/ phase c (log w) = Some Done ->
  exists w', (modify (fun w => set_conns (delete c (conns w)) w) ;; emit (Ev_free c) ;; when (c_sock d) (sock_deref has_shuth)) w = Some (tt, w') /\ gone c w'.
Proof using.
  intros Ho Hd Hs Hsk Hp. unfold modify, emit. unfold mbind at 1 2, M_bind at 1 2. cbn [set_conns].
  rewrite Hsk. cbn [when]. set (w0 := mk_world (conns w) (sock w) (log w ++ [Ev_free c]) (draws w)).
  assert (Hpg : phase c (log w0) = Some Gone) by (cbn [log w0]; rewrite phase_snoc; unfold advance; rewrite bool_decide_true by done; by destruct Hp as [->| ->]).
  assert (Ho0 : others c w0) by (apply (others_step c w w0 [Ev_free c]); [done|done|done|constructor; [by left|constructor]]).
  destruct (sock_deref_run w0 (draws w) (delete c (conns w))) as (w' & E & H1 & H2 & evs & H3 & H4).
  { destruct Hs as (s & S1 & S2 & S3 & S4). exists s. split_and!; try done. by apply shut_snoc. }
  { rewrite map_size_delete_Some by by eexists. done. }
  { cbn [conns w0]. enough (size (conns w) <> 0%nat) by lia. apply (map_size_ne_0_lookup_2 _ c). by eexists. }
  { intros He c'. destruct (decide (c' = c)) as [->|Hne]; [by left|]. apply Ho0; [done|]. cbn [conns w0]. rewrite <- (lookup_delete_ne _ c) by done. by rewrite He. }
  exists w'. split; [exact E|]. split; [|split; [rewrite H1; apply lookup_delete_eq|split; [|done]]].
  - apply (others_step c w w' ([Ev_free c] ++ evs)); [done| |by rewrite H3, app_assoc|].
    + intros c' Hne. rewrite H1. by apply lookup_delete_ne.
    + apply Forall_app. split; [constructor; [by left|constructor]|]. eapply Forall_impl; [exact H4|]. by right.
  - rewrite H3. clear -Hpg H4. induction evs as [|e evs IH] using rev_ind.
    + by rewrite app_nil_r.
    + apply Forall_app in H4 as [H4 H5]. apply Forall_cons in H5 as [H5 _]. rewrite app_assoc, phase_other by (by rewrite H5). by apply IH.
Qed.

(** What stays the same when the application releases a connection. *)
Definition same_io (d d' : websock_conn) : Prop := c_mb d' = c_mb d /\ c_tc d' = c_tc d /\ active d' = active d.

Lemma cinv_refs l c d k k' n : cinv l c d k -> n = refs d + (k' - k) -> cinv l c (upd_refs n d) k'.
Proof using. intros [C1 C2 C3 C4 C5 C6 C7] ->. split; try done. cbn. lia. Qed.

Lemma deref_more c w d k : focus c w d (k + 1) -> 1 < refs d ->
  exists w', conn_deref alloc_ok junk rnd send_err has_shuth c w = Some (tt, w') /\ focus c w' (upd_refs (refs d - 1) d) k.
Proof using.
  intros Hfo Hr. pose proof (fo_conn _ _ _ _ Hfo) as Hd. unfold conn_deref. rewrite (run_bind _ _ w d w) by (by apply get_run).
  rewrite (run_bind _ _ _ _ _ (upd_run c d _ w Hd)). replace (refs d <=? 1) with false by lia. eexists. split; [done|].
  eapply focus_upd; [exact Hfo|done|done|done|]. eapply cinv_refs; [exact (fo_cinv _ _ _ _ Hfo)|lia].
Qed.

(** The last reference: an open connection lives on until it is closed. *)
Lemma deref_last c w d : focus c w d 1 -> refs d = 1 ->
  exists w', conn_deref alloc_ok junk rnd send_err has_shuth c w = Some (tt, w') /\
    ((exists d', focus c w' d' 0 /\ 1 <= refs d' /\ same_io d d' /\ state d' = CLOSING /\ state d <> CLOSED) \/ (state d <> CLOSING /\ gone c w')).
Proof using Hrnd.
  intros Hfo Hr. pose proof (fo_conn _ _ _ _ Hfo) as Hd. unfold conn_deref. rewrite (run_bind _ _ w d w) by (by apply get_run).
  rewrite (run_bind _ _ _ _ _ (upd_run c d _ w Hd)). rewrite Hr. cbn [Z.leb Z.compare Pos.compare Pos.compare_cont when]. set (d1 := upd_refs (1 - 1) d). set (w1 := set_conns _ w).
  assert (Hf1 : focus c w1 d1 0) by (eapply focus_upd; [exact Hfo|done|done|done|]; eapply cinv_refs; [exact (fo_cinv _ _ _ _ Hfo)|lia]).
  assert (Hown : held d = false /\ c_own d = true).
  { pose proof (ci_refs _ _ _ _ (fo_cinv _ _ _ _ Hfo)) as Hc. destruct (held d), (c_own d); cbn in Hc; try done; lia. }
  assert (Hlive : forall w2 d2, focus c w2 d2 0 -> state d2 = CLOSING -> same_io d d2 -> held d2 = false -> c_own d2 = true -> refs d2 = 0 -> state d <> CLOSED ->
    exists w', upd_conn c (fun d => upd_refs (refs d + 1) (upd_tmr (Some (Timeout, TIMEOUT_CLOSE)) (upd_own false d))) w2 = Some (tt, w') /\
    ((exists d', focus c w' d' 0 /\ 1 <= refs d' /\ same_io d d' /\ state d' = CLOSING /\ state d <> CLOSED) \/ (state d <> CLOSING /\ gone c w'))).
  { intros w2 d2 Hf2 Hst2 Hio Hh2 Ho2 Hr2 Hnc. rewrite (upd_run c d2 _ w2 (fo_conn _ _ _ _ Hf2)). eexists. split; [done|]. left. eexists. split.
    - eapply focus_upd; [exact Hf2|done|done|done|]. destruct (fo_cinv _ _ _ _ Hf2) as [C1 C2 C3 C4 C5 C6 C7]. split; cbn; try done; [by rewrite Hh2, Hr2|by eexists|by rewrite Hst2].
    - cbn. rewrite Hr2. done. }
  assert (Hfree : forall w2, focus c w2 d1 0 -> exists w', (modify (fun w => set_conns (delete c (conns w)) w) ;; emit (Ev_free c) ;; when (c_sock d1) (sock_deref has_shuth)) w2 = Some (tt, w') /\ gone c w').
  { intros w2 [G1 G2 G3 G4]. apply free_run; try done; [apply G3|]. rewrite (ci_phase _ _ _ _ G3). destruct (bool_decide _); auto. }
  unfold conn_destructor. rewrite (run_bind _ _ w1 d1 w1) by (apply get_run, Hf1). change (state d1) with (state d). destruct (decide (state d = OPEN)) as [Ho|Ho].
  - rewrite bool_decide_true by done. cbn [when]. destruct (close_focus c w1 d1 0 WEBSOCK_GOING_AWAY going_away Hf1) as (err & w2 & d2 & E2 & Hf2 & Hc2); [by vm_compute|].
    rewrite (run_bind _ _ w1 tt w2) by (by rewrite (run_bind _ _ _ _ _ E2)). rewrite (run_bind _ _ w2 d2 w2) by (apply get_run, Hf2). destruct Hc2 as [->|[_ ->]].
    + change (state d1) with (state d). rewrite bool_decide_false by (by rewrite Ho). destruct (Hfree w2 Hf2) as (w' & E' & Hg). exists w'. split; [exact E'|]. right. by rewrite Ho.
    + cbn [upd_state state]. rewrite bool_decide_true by done. apply (Hlive w2 (upd_state CLOSING d1)); try done; [apply Hown..|by rewrite Ho].
  - rewrite bool_decide_false by done. cbn [when]. rewrite (run_bind _ _ w1 tt w1 eq_refl), (run_bind _ _ w1 d1 w1) by (apply get_run, Hf1). change (state d1) with (state d).
    destruct (decide (state d = CLOSING)) as [Hcl|Hcl].
    + rewrite bool_decide_true by done. apply (Hlive w1 d1); try done; [apply Hown..|by rewrite Hcl].
    + rewrite bool_decide_false by done. destruct (Hfree w1 Hf1) as (w' & E' & Hg). exists w'. split; [exact E'|]. by right.
Qed.

(** ** The application *)

Definition decent (a : action) : Prop :=
  match a with
  | A_send op text => 0 <= op < 16 /\ zlen (default [] text) <= 2 ^ 61
  | A_close _ text => zlen (default [] text) <= 2 ^ 61
  | A_release => True
  end.

(** The connection is still there, or it was not in use and is gone. *)
Definition stays (c : nat) (k : Z) (d : websock_conn) (w' : world) : Prop :=
  (exists d', focus c w' d' k /\ 1 <= refs d' /\ same_io d d' /\ (state d = CLOSED <-> state d' = CLOSED) /\ (0 < k -> c_own d' = c_own d)) \/ (k = 0 /\ gone c w').

Lemma stays_self c k d w : focus c w d k -> 1 <= refs d -> stays c k d w.
Proof using. intros. left. exists d. by split_and!. Qed.

Lemma release_run c w d k : focus c w d k -> held d = true -> 0 <= k ->
  exists w', (upd_conn c (upd_held false) ;; conn_deref alloc_ok junk rnd send_err has_shuth c) w = Some (tt, w') /\ stays c k d w'.
Proof using Hrnd.
  intros Hfo Hh Hk. pose proof (fo_conn _ _ _ _ Hfo) as Hd. rewrite (run_bind _ _ _ _ _ (upd_run c d _ w Hd)). set (d1 := upd_held false d). set (w1 := set_conns _ w).
  pose proof (ci_refs _ _ _ _ (fo_cinv _ _ _ _ Hfo)) as Hr. rewrite Hh in Hr. cbn in Hr.
  assert (Hown : c_own d = true).
  { destruct (c_own d) eqn:E; [done|]. destruct (ci_own _ _ _ _ (fo_cinv _ _ _ _ Hfo) E). congruence. }
  assert (Hf1 : focus c w1 d1 (k + 1)).
  { eapply focus_upd; [exact Hfo|done|done|done|]. destruct (fo_cinv _ _ _ _ Hfo) as [C1 C2 C3 C4 C5 C6 C7]. split; try done; cbn.
    - rewrite Hr, Hown. cbn. lia.
    - intros Hx. congruence. }
  rewrite Hown in Hr. cbn in Hr. destruct (decide (k = 0)) as [->|Hk0].
  - destruct (deref_last c w1 d1 Hf1) as (w' & E & Hc); [cbn; lia|]. exists w'. split; [exact E|]. destruct Hc as [(d' & G1 & G2 & G3 & G4 & G5)|[_ Hg]]; [left|by right].
    exists d'. split_and!; try done. rewrite G4. split; [intros Hx; by destruct (G5 Hx)|done].
  - destruct (deref_more c w1 d1 k Hf1) as (w' & E & Hc); [cbn; lia|]. exists w'. split; [exact E|]. left. eexists. split; [exact Hc|]. split; [cbn; lia|]. by split_and!.
Qed.

Lemma action_run c w d k a : focus c w d k -> 1 <= refs d -> 0 <= k -> decent a ->
  exists w', run_action alloc_ok junk rnd send_err has_shuth c a w = Some (tt, w') /\ stays c k d w'.
Proof using Hrnd.
  intros Hfo Hr Hk Ha. unfold run_action. rewrite gets_bind, (fo_conn _ _ _ _ Hfo). destruct (held d) eqn:Hh; cbn [negb]; [|exists w; split; [done|by apply stays_self]].
  destruct a as [op text|scode text|].
  - destruct Ha as [Hop Hl]. destruct (send_focus c w d k op 0 text Hfo Hop) as (err & w' & E & Hf & _); [unfold body_of; cbn [Z.eqb app]; lia|].
    exists w'. unfold websock_send. rewrite (run_bind _ _ _ _ _ E). split; [done|]. by apply stays_self.
  - destruct (close_focus c w d k scode text Hfo Ha) as (err & w' & d' & E & Hf & Hc). exists w'. rewrite (run_bind _ _ _ _ _ E). split; [done|].
    destruct Hc as [->|[Ho ->]]; [by apply stays_self|]. left. exists (upd_state CLOSING d). split_and!; try done. rewrite Ho. done.
  - by apply release_run.
Qed.

Lemma stays_trans c k d d1 w : same_io d d1 -> (state d = CLOSED <-> state d1 = CLOSED) -> (0 < k -> c_own d1 = c_own d) -> stays c k d1 w -> stays c k d w.
Proof using.
  intros (A1 & A2 & A3) Hst Hown [(d' & H1 & H2 & (B1 & B2 & B3) & H4 & H5)|Hg]; [left|by right]. exists d'. split; [done|]. split; [done|]. split; [split_and!; congruence|]. split; [by rewrite Hst|].
  intros Hk. by rewrite H5, Hown.
Qed.

Lemma actions_run c w d k f : focus c w d k -> 1 <= refs d -> 0 <= k -> (forall l, Forall decent (f l)) ->
  exists w', run_actions alloc_ok junk rnd send_err has_shuth c f w = Some (tt, w') /\ stays c k d w'.
Proof using Hrnd.
  intros Hfo Hr Hk Hf. unfold run_actions. rewrite gets_bind. generalize (f (log w)) (Hf (log w)). intros l Hl. clear Hf.
  assert (Hgone : forall l w1, gone c w1 -> for_each (run_action alloc_ok junk rnd send_err has_shuth c) l w1 = Some (tt, w1)).
  { intros l' w1 Hg. induction l' as [|a l' IH]; [done|]. cbn [for_each]. rewrite (run_bind _ _ w1 tt w1); [exact IH|]. unfold run_action. rewrite gets_bind.
    by rewrite (proj1 (proj2 Hg)). }
  revert w d Hfo Hr. induction Hl as [|a l Ha Hl IH]; intros w d Hfo Hr; cbn [for_each]; [exists w; split; [done|by apply stays_self]|].
  destruct (action_run c w d k a Hfo Hr Hk Ha) as (w1 & E1 & Hs). rewrite (run_bind _ _ _ _ _ E1). destruct Hs as [(d' & G1 & G2 & G3 & G4 & G5)|[-> Hg]].
  - destruct (IH w1 d' G1 G2) as (w' & E & Hs). exists w'. split; [exact E|]. by eapply stays_trans.
  - exists w1. split; [by apply Hgone|by right].
Qed.

Context (estabh : nat -> list event -> list action) (recvh : nat -> list event -> websock_hdr -> list Z -> list action) (closeh : nat -> list event -> Z -> list action).
Context (Hestab : forall c l, Forall decent (estabh c l)) (Hrecv : forall c l h p, Forall decent (recvh c l h p)) (Hclose : forall c l e, Forall decent (closeh c l e)).

Lemma stays_inv c d w : stays c 0 d w -> INV w.
Proof using. intros [(d' & H1 & H2 & _)|[_ Hg]]; [by eapply inv_of|by eapply inv_gone]. Qed.

(** ** Closing *)

Lemma conn_close_run c w d err : focus c w d 0 -> 1 <= refs d -> state d <> CLOSED ->
  exists w', conn_close alloc_ok junk rnd send_err has_shuth closeh c err w = Some (tt, w') /\ INV w' /\ (c_own d = false -> gone c w').
Proof using Hrnd Hclose.
  intros Hfo Hr Hst. pose proof Hfo as [Ho Hd [C1 C2 C3 C4 C5 C6 C7] Hs]. rewrite bool_decide_false in C7 by done. unfold conn_close.
  rewrite (run_bind _ _ _ _ _ (upd_run c d _ w Hd)). set (d1 := upd_state CLOSED _). set (w1 := set_conns _ w).
  assert (Hd1 : conns w1 !! c = Some d1) by apply lookup_insert_eq. rewrite (run_bind _ _ w1 d1 w1) by (by apply get_run). change (c_own d1) with (c_own d).
  assert (Hw1 : others c w1 /\ sinv w1).
  { split; [apply (others_step c w w1 []); [done|intros c' Hne; by apply lookup_insert_ne|by rewrite app_nil_r|constructor]|].
    destruct Hs as (x & S1 & S2 & S3 & S4). exists x. cbn. rewrite map_size_insert_Some by by eexists. done. }
  destruct Hw1 as [Ho1 Hs1]. destruct (c_own d) eqn:Ew.
  - set (w2 := mk_world (conns w1) (sock w1) (log w1 ++ [Ev_close c err]) (draws w1)). rewrite (run_bind _ _ w1 tt w2 eq_refl).
    assert (Hf2 : focus c w2 d1 0).
    { split; [apply (others_step c w1 w2 [Ev_close c err]); [done|done|done|constructor; [by left|constructor]]|done| |destruct Hs1 as (x & S1 & S2 & S3 & S4); exists x; split_and!; try done; by apply shut_snoc].
      assert (Hx : c_own d1 = true) by exact Ew. split; try (by rewrite Hx); try done.
      change (log w2) with (log w ++ [Ev_close c err]). rewrite phase_snoc. rewrite C7. unfold advance. by rewrite bool_decide_true. }
    destruct (actions_run c w2 d1 0 (fun l => closeh c l err) Hf2 Hr ltac:(done) (fun l => Hclose c l err)) as (w' & E & Hst'). exists w'. split; [exact E|]. split; [by eapply stays_inv|done].
  - destruct (C2 eq_refl) as [Hh _]. rewrite Hh in C1. cbn in C1. unfold conn_deref. rewrite (run_bind _ _ w1 d1 w1) by (by apply get_run).
    rewrite (run_bind _ _ _ _ _ (upd_run c d1 _ w1 Hd1)). change (refs d1) with (refs d). rewrite C1. change (0 + 1 + 0 <=? 1) with true. cbn [when].
    set (d2 := upd_refs 0 d1). set (w2 := set_conns _ w1). assert (Hd2 : conns w2 !! c = Some d2) by apply lookup_insert_eq.
    unfold conn_destructor. rewrite (run_bind _ _ w2 d2 w2) by (by apply get_run). cbn [state d2 d1 upd_refs upd_state]. rewrite !bool_decide_false by done. cbn [when].
    rewrite (run_bind _ _ w2 tt w2 eq_refl), (run_bind _ _ w2 d2 w2) by (by apply get_run). cbn [state d2 d1 upd_refs upd_state]. rewrite bool_decide_false by done.
    destruct (free_run c w2 d2) as (w' & E & Hg); try done; [| |by left|exists w'; split; [exact E|]; split; [by eapply inv_gone|done]].
    + apply (others_step c w1 w2 []); [done|intros c' Hne; by apply lookup_insert_ne|by rewrite app_nil_r|constructor].
    + destruct Hs1 as (x & S1 & S2 & S3 & S4). exists x. cbn. rewrite map_size_insert_Some by by eexists. done.
Qed.

(** ** Delivering *)

Lemma focus_state c w d k st : focus c w d k -> state d <> CLOSED -> st <> CLOSED -> (c_own d = false -> st = CLOSING) ->
  exists w', upd_conn c (upd_state st) w = Some (tt, w') /\ focus c w' (upd_state st d) k.
Proof using.
  intros Hfo Hst Hst' Hown. rewrite (upd_run c d _ w (fo_conn _ _ _ _ Hfo)). eexists. split; [done|]. eapply focus_upd; [exact Hfo|done|done|done|].
  destruct (fo_cinv _ _ _ _ Hfo) as [C1 C2 C3 C4 C5 C6 C7]. split; try done; cbn.
  - intros Hw. split; [by apply C2|auto].
  - rewrite C7. by rewrite !bool_decide_false.
Qed.

Lemma deliver_safe c w d h p : focus c w d 0 -> 1 <= refs d -> state d <> CLOSED ->
  exists w' d', deliver_frame alloc_ok junk rnd send_err has_shuth recvh c h p w = Some (tt, w') /\ focus c w' d' 0 /\ 1 <= refs d' /\ same_io d d' /\ state d' <> CLOSED.
Proof using Hrnd Hrecv.
  intros Hfo Hr Hst. unfold deliver_frame. pose proof (fo_conn _ _ _ _ Hfo) as Hd. rewrite (run_bind _ _ _ _ _ (upd_run c d (fun d => upd_refs (refs d + 1) d) w Hd)).
  set (d1 := upd_refs (refs d + 1) d). set (w1 := set_conns _ w). assert (Hf1 : focus c w1 d1 1) by (eapply focus_upd; [exact Hfo|done|done|done|]; eapply cinv_refs; [exact (fo_cinv _ _ _ _ Hfo)|lia]).
  rewrite (run_bind _ _ w1 d1 w1) by (apply get_run, Hf1).
  assert (H2 : exists w2 d2, when (c_own d1) (emit (Ev_recv c h p) ;; run_actions alloc_ok junk rnd send_err has_shuth c (fun l => recvh c l h p)) w1 = Some (tt, w2) /\
    focus c w2 d2 1 /\ 1 <= refs d2 /\ same_io d d2 /\ state d2 <> CLOSED).
  { destruct (c_own d1); cbn [when]; [|exists w1, d1; split; [done|]; split; [done|]; cbn; split; [lia|done]].
    set (w2 := mk_world (conns w1) (sock w1) (log w1 ++ [Ev_recv c h p]) (draws w1)). rewrite (run_bind _ _ w1 tt w2 eq_refl).
    assert (Hf2 : focus c w2 d1 1) by (by apply (focus_event c w1 d1 1 (Ev_recv c h p))).
    destruct (actions_run c w2 d1 1 (fun l => recvh c l h p) Hf2 ltac:(cbn; lia) ltac:(done) (fun l => Hrecv c l h p)) as (w3 & E3 & [(d' & G1 & G2 & G3 & G4 & G5)|[? _]]); [|done].
    exists w3, d'. split; [exact E3|]. split; [done|]. split; [done|]. split; [done|]. by rewrite <- G4. }
  destruct H2 as (w2 & d2 & E2 & Hf2 & Hr2 & Hio & Hst2). rewrite (run_bind _ _ _ _ _ E2), (run_bind _ _ w2 d2 w2) by (apply get_run, Hf2).
  destruct (Z.eqb_spec (refs d2) 1) as [H1|H1]; cbn [when].
  - assert (Hown : c_own d2 = true).
    { pose proof (ci_refs _ _ _ _ (fo_cinv _ _ _ _ Hf2)) as Hc. destruct (c_own d2); [done|]. destruct (held d2); cbn in Hc; lia. }
    assert (H3 : exists w3 d3, when (bool_decide (state d2 = OPEN)) (websock_close alloc_ok junk rnd send_err c WEBSOCK_GOING_AWAY going_away ;; mret tt) w2 = Some (tt, w3) /\
      focus c w3 d3 1 /\ (d3 = d2 \/ d3 = upd_state CLOSING d2)).
    { destruct (bool_decide _); cbn [when]; [|exists w2, d2; auto]. destruct (close_focus c w2 d2 1 WEBSOCK_GOING_AWAY going_away Hf2) as (err & w3 & d3 & E3 & Hf3 & Hc); [by vm_compute|].
      exists w3, d3. rewrite (run_bind _ _ _ _ _ E3). split; [done|]. split; [done|]. destruct Hc as [->|[_ ->]]; auto. }
    destruct H3 as (w3 & d3 & E3 & Hf3 & Hc3). assert (Hst3 : state d3 <> CLOSED) by (by destruct Hc3 as [->| ->]).
    destruct (focus_state c w3 d3 1 CLOSING Hf3 Hst3 ltac:(done) ltac:(done)) as (w4 & E4 & Hf4).
    rewrite (run_bind _ _ w2 tt w4) by (rewrite (run_bind _ _ _ _ _ E3); exact E4).
    destruct (deref_last c w4 (upd_state CLOSING d3) Hf4) as (w' & E & [(d' & G1 & G2 & G3 & G4 & _)|[? _]]); [by destruct Hc3 as [->| ->]| |done].
    exists w', d'. split; [exact E|]. split; [done|]. split; [done|]. split; [|by rewrite G4]. destruct G3 as (A1 & A2 & A3), Hio as (B1 & B2 & B3). destruct Hc3 as [->| ->]; cbn in *; by split_and!; congruence.
  - rewrite (run_bind _ _ w2 tt w2 eq_refl). destruct (deref_more c w2 d2 0 Hf2 ltac:(lia)) as (w' & E & Hf'). exists w', (upd_refs (refs d2 - 1) d2). split; [exact E|]. split; [done|].
    cbn. split; [lia|]. done.
Qed.

End Life.
