(* ===== verification/WebsockSafe.v ===== *)
(** * Web-socket connections under all events

    What TCP, HTTP, the timers and the application do with the connections of
    a socket, one event after the other. *)

From stdpp Require Import gmap.
From S2P Require Import Prelude Effects Mbuf MbufProps Rtp Codec Base64 Websock WebsockFrames WebsockRecv WebsockLife.
Import Mb Ws.

(** A masked length that does not fit comes up. *)
Inductive wild_ahead : list Z -> Prop :=
| wild_now d len : parse d = Wild len -> wild_ahead d
| wild_later d h p r : parse d = Frame h p r -> wild_ahead r -> wild_ahead d.

Lemma lxor_byte a b : 0 <= a < 256 -> 0 <= b < 256 -> 0 <= Z.lxor a b < 256.
Proof.
  intros Ha Hb. assert (0 <= Z.lxor a b) by (apply Z.lxor_nonneg; lia). split; [done|]. destruct (Z.eq_dec (Z.lxor a b) 0) as [->|]; [lia|].
  change 256 with (2 ^ 8). apply Z.log2_lt_pow2; [lia|]. pose proof (Z.log2_lxor a b ltac:(lia) ltac:(lia)).
  assert (Z.log2 a < 8 /\ Z.log2 b < 8) by (split; (destruct (Z.eq_dec a 0) as [->|]; destruct (Z.eq_dec b 0) as [->|]; try done; apply Z.log2_lt_pow2; lia)). lia.
Qed.

Lemma xor_key_bytes key p : is_bytes key -> is_bytes p -> is_bytes (xor_key key p).
Proof.
  intros Hk Hp. apply Forall_lookup. intros i x Hi. unfold xor_key in Hi. rewrite list_lookup_imap in Hi. destruct (p !! i) as [b|] eqn:Ei; [|done]. apply (inj Some) in Hi. subst x. generalize (i mod 4)%nat. intros j.
  apply lxor_byte; [exact (Forall_lookup_1 _ _ _ _ Hp Ei)|]. destruct (key !! j) as [y|] eqn:Ey.
  - exact (Forall_lookup_1 _ _ _ _ Hk Ey).
  - cbn. lia.
Qed.

(** A frame takes two bytes at least. *)
Lemma parse_rest d h p r : is_bytes d -> parse d = Frame h p r -> is_bytes p /\ is_bytes r /\ (length p + length r + 2 <= length d)%nat.
Proof.
  intros Hb. destruct d as [|v [|v2 d]]; [done|done|]. cbn [parse]. unfold is_bytes in Hb. rewrite !Forall_cons in Hb. destruct Hb as (_ & _ & Hb).
  destruct (take_len _ d) as [[len d1]|] eqn:Et; [|done]. assert (Hl : (length d1 <= length d)%nat /\ is_bytes d1).
  { unfold take_len in Et. repeat case_match; simplify_eq; rewrite ?length_drop; (split; [lia|]); try done; by apply Forall_drop. }
  destruct Hl as [Hl Hb1]. cbn [length].
  repeat case_match; intros Hf; simplify_eq; (split; [|split; [by repeat apply Forall_drop|unfold xor_key; rewrite ?length_imap, ?length_take, ?length_drop; lia]]).
  - apply xor_key_bytes; [by apply Forall_take|by apply Forall_take, Forall_drop].
  - by apply Forall_take.
Qed.

Section Safe.
Context (alloc_ok : Z -> bool) (junk : Z -> Z).
Context (rnd : nat -> Z -> list Z) (Hrnd : forall k, length (rnd k 4) = 4%nat /\ is_bytes (rnd k 4)).
Context (send_err : list event -> Z) (has_shuth : bool).
Context (estabh : nat -> list event -> list action) (recvh : nat -> list event -> websock_hdr -> list Z -> list action) (closeh : nat -> list event -> Z -> list action).
Context (Hestab : forall c l, Forall decent (estabh c l)) (Hrecv : forall c l h p, Forall decent (recvh c l h p)) (Hclose : forall c l e, Forall decent (closeh c l e)).

(** ** Frames *)

(** The connection is in use and not closed. *)
Definition going (c : nat) (w : world) (d : websock_conn) : Prop := focus c w d 0 /\ 1 <= refs d /\ state d <> CLOSED.

Lemma handle_safe c w d h p : going c w d -> zlen p <= 2 ^ 61 ->
  exists err (closed : bool) w', handle_frame alloc_ok junk rnd send_err has_shuth recvh closeh c h p w = Some ((err, closed), w') /\
    if closed then err = 0 /\ INV w' else exists d', going c w' d' /\ same_io d d'.
Proof using Hrnd Hrecv Hclose.
  intros (Hfo & Hr & Hst) Hp. unfold handle_frame. destruct (_ || _ || _); [|destruct (_ =? WEBSOCK_CLOSE); [|destruct (_ =? WEBSOCK_PING); [|destruct (_ =? WEBSOCK_PONG)]]].
  - destruct (deliver_safe alloc_ok junk rnd Hrnd send_err has_shuth recvh Hrecv c w d h p Hfo Hr Hst) as (w' & d' & E & H1 & H2 & H3 & H4). eexists _, _, w'.
    rewrite (run_bind _ _ _ _ _ E). split; [done|]. by exists d'.
  - rewrite (run_bind _ _ w d w) by (apply get_run, Hfo).
    assert (Hs : exists w1, when (bool_decide (state d = OPEN)) (websock_send alloc_ok junk rnd send_err c WEBSOCK_CLOSE (Some p) ;; mret tt) w = Some (tt, w1) /\ focus c w1 d 0).
    { destruct (bool_decide _); cbn [when]; [|by exists w]. destruct (send_focus alloc_ok junk rnd Hrnd send_err c w d 0 WEBSOCK_CLOSE 0 (Some p) Hfo) as (err & w1 & E1 & Hf & _); [done|unfold body_of; cbn [Z.eqb app default]; cbn; lia|].
      exists w1. unfold websock_send. by rewrite (run_bind _ _ _ _ _ E1). }
    destruct Hs as (w1 & E1 & Hf1). rewrite (run_bind _ _ _ _ _ E1).
    destruct (conn_close_run alloc_ok junk rnd Hrnd send_err has_shuth closeh Hclose c w1 d 0 Hf1 Hr Hst) as (w' & E & HI & _). rewrite (run_bind _ _ _ _ _ E). by eexists _, _, w'.
  - destruct (send_focus alloc_ok junk rnd Hrnd send_err c w d 0 WEBSOCK_PONG 0 (Some p) Hfo) as (err & w1 & E1 & Hf & _); [done|unfold body_of; cbn [Z.eqb app default]; cbn; lia|].
    unfold websock_send. rewrite (run_bind _ _ _ _ _ E1). eexists _, _, w1. split; [done|]. by exists d.
  - eexists _, _, w. split; [done|]. by exists d.
  - eexists _, _, w. split; [done|]. by exists d.
Qed.

Lemma going_mb c w d o d0 : going c w d -> kept o d0 -> is_bytes d0 ->
  exists w', upd_conn c (upd_mb o) w = Some (tt, w') /\ going c w' (upd_mb o d).
Proof using.
  intros (Hfo & Hr & Hst) Hk Hb. rewrite (upd_run c d _ w (fo_conn _ _ _ _ Hfo)). eexists. split; [done|]. split; [|done].
  eapply focus_upd; [exact Hfo|done|done|done|]. destruct (fo_cinv _ _ _ _ Hfo) as [C1 C2 C3 C4 C5 C6 C7]. split; try done. by exists d0.
Qed.

(** What the loop leaves: the connection closed, or still in use. *)
Definition left_by (c : nat) (m : option ((Z * bool) * world)) : Prop :=
  exists err (closed : bool) w', m = Some ((err, closed), w') /\ if closed then err = 0 /\ INV w' else exists d', going c w' d'.

Definition unless_wild (d0 : list Z) (c : nat) (m : option ((Z * bool) * world)) : Prop := (wild_ahead d0 /\ m = None) \/ left_by c m.

Lemma left_now c w d err : going c w d -> left_by c (Some ((err, false), w)).
Proof using. intros Hg. exists err, false, w. split; [done|]. by exists d. Qed.

(** A frame that is not complete stays in the buffer. *)
Lemma loop_more fuel c w d mb d0 : going c w d -> is_bytes d0 -> c_mb d = Some mb -> unfinished mb d0 (websock_decode mb) ->
  left_by c (recv_loop alloc_ok junk rnd send_err has_shuth recvh closeh (S fuel) c w).
Proof using.
  intros Hg Hb Emb (h & mb' & Ed & Hc). cbn [recv_loop]. rewrite (run_bind _ _ w d w) by (apply get_run, Hg). rewrite Emb. unfold of_option at 1. rewrite Ed, (run_bind _ _ w _ w eq_refl).
  cbn [Z.eqb Pos.eqb ENODATA]. destruct (going_mb c w d (Some (set_pos (mb_pos mb) mb')) d0 Hg Hc Hb) as (w1 & E1 & Hg1). rewrite (run_bind _ _ _ _ _ E1). by eapply left_now.
Qed.

Lemma loop_safe fuel : forall c w d d0, going c w d -> kept (c_mb d) d0 -> is_bytes d0 -> zlen d0 <= 2 ^ 61 -> (length d0 < fuel)%nat ->
  unless_wild d0 c (recv_loop alloc_ok junk rnd send_err has_shuth recvh closeh fuel c w).
Proof using Hrnd Hrecv Hclose.
  induction fuel as [|fuel IH]; intros c w d d0 Hg Hk Hb Hz Hf; [lia|].
  assert (Hmore : forall mb, c_mb d = Some mb -> unfinished mb d0 (websock_decode mb) -> left_by c (recv_loop alloc_ok junk rnd send_err has_shuth recvh closeh (S fuel) c w)) by (intros; by eapply loop_more).
  cbn [recv_loop] in *. rewrite (run_bind _ _ w d w) in * by (apply get_run, Hg).
  destruct (c_mb d) as [mb|]; [|right; by eapply left_now]. specialize (Hmore mb eq_refl). pose proof (ws_decode_run mb d0 Hk Hb) as Hdec.
  destruct (parse d0) as [|len|h p r] eqn:Ep; [right; by apply Hmore| |].
  { destruct Hdec as [Hn|Hn]; [left|right; by apply Hmore]. split; [by econstructor|]. unfold of_option at 1. by rewrite Hn. }
  destruct (parse_rest _ _ _ _ Hb Ep) as (Hbp & Hbr & Hlr). destruct Hdec as (mb' & Ed & Hc & Hlen). unfold of_option at 1. rewrite Ed, (run_bind _ _ w _ w eq_refl). cbn [Z.eqb ENODATA].
  destruct (going_mb c w d (Some mb') (p ++ r) Hg Hc) as (w1 & E1 & Hg1); [by apply Forall_app|]. rewrite (run_bind _ _ _ _ _ E1). cbn [negb].
  destruct (_ =? mask h); [right; by eapply left_now|]. destruct (negb _); [right; by eapply left_now|].
  destruct (split_run alloc_ok junk mb' p r Hc) as (err & mbp & next & Es & Hcp & Hn). rewrite Hlen. unfold of_option at 1. rewrite Es, (run_bind _ _ w1 _ w1 eq_refl).
  destruct Hn as [[-> Hn]|(-> & -> & _)].
  2: { right. destruct (going_mb c w1 _ (Some mbp) p Hg1 Hcp Hbp) as (w2 & E2 & Hg2). rewrite (run_bind _ _ _ _ _ E2). by eapply left_now. }
  assert (Hkn : kept next r) by (destruct next; [apply Hn|exact Hn]).
  destruct (going_mb c w1 _ next r Hg1 Hkn Hbr) as (w2 & E2 & Hg2). rewrite (run_bind _ _ _ _ _ E2). cbn [negb Z.eqb].
  unfold of_option. rewrite (content_payload _ _ Hcp), (run_bind _ _ w2 _ w2 eq_refl).
  destruct (handle_safe c w2 _ h p Hg2 ltac:(unfold zlen in *; lia)) as (err & closed & w3 & E3 & H3). rewrite (run_bind _ _ _ _ _ E3).
  destruct (negb (err =? 0) || closed) eqn:Eb; [right; exists err, closed, w3; split; [done|]; destruct closed; [done|]; destruct H3 as (d' & H3 & _); by exists d'|].
  apply orb_false_iff in Eb as [_ ->]. destruct H3 as (d' & Hg3 & Hmb & _).
  destruct (IH c w3 d' r Hg3) as [[Hw Hn']|Hl]; [by rewrite Hmb|done|unfold zlen in *; lia|lia|left; split; [by eapply wild_later|done]|by right].
Qed.

(** ** Data *)

Lemma append_safe c w d mb d0 chunk : going c w d -> kept (c_mb d) d0 -> is_bytes d0 -> content mb chunk -> is_bytes chunk -> default 0 (mb_end <$> c_mb d) + zlen chunk <= SIZE_MAX ->
  exists err w' d', recv_append alloc_ok junk c mb w = Some (err, w') /\ going c w' d' /\ (err = 0 -> kept (c_mb d') (d0 ++ chunk)).
Proof using.
  intros Hg Hk Hb Hc Hbc Hz. unfold recv_append. rewrite (run_bind _ _ w d w) by (apply get_run, Hg). destruct (c_mb d) as [cmb|] eqn:Emb.
  - destruct (_ <? _); [exists EOVERFLOW, w, d; split; [done|]; by split|].
    pose proof (content_payload _ _ Hc) as Hpl. unfold payload_of in Hpl. unfold of_option at 1. rewrite Hpl, (run_bind _ _ w _ w eq_refl).
    destruct (append_run alloc_ok junk cmb d0 chunk Hk Hz) as (err & mb' & E & _ & Hc'). unfold of_option. rewrite E, (run_bind _ _ w _ w eq_refl).
    destruct (Z.eqb_spec err 0) as [->|Hne]; cbn [negb].
    + destruct (going_mb c w d (Some (set_pos (mb_pos cmb) mb')) (d0 ++ chunk) Hg Hc') as (w1 & E1 & Hg1); [by apply Forall_app|]. rewrite (run_bind _ _ _ _ _ E1). by exists 0, w1, (upd_mb (Some (set_pos (mb_pos cmb) mb')) d).
    + destruct (going_mb c w d (Some mb') [] Hg Hc') as (w1 & E1 & Hg1); [constructor|]. rewrite (run_bind _ _ _ _ _ E1). by exists err, w1, (upd_mb (Some mb') d).
  - cbn in Hk. subst d0. destruct (going_mb c w d (Some mb) chunk Hg Hc Hbc) as (w1 & E1 & Hg1). rewrite (run_bind _ _ _ _ _ E1). by exists 0, w1, (upd_mb (Some mb) d).
Qed.

Lemma fail_safe c w d err : going c w d ->
  exists w', (websock_close alloc_ok junk rnd send_err c (websock_err2scode err) None ;; conn_close alloc_ok junk rnd send_err has_shuth closeh c err) w = Some (tt, w') /\ INV w'.
Proof using Hrnd Hclose.
  intros (Hfo & Hr & Hst). destruct (close_focus alloc_ok junk rnd Hrnd send_err c w d 0 (websock_err2scode err) None Hfo ltac:(done)) as (e & w1 & d1 & E1 & Hf1 & Hd1).
  rewrite (run_bind _ _ _ _ _ E1). destruct (conn_close_run alloc_ok junk rnd Hrnd send_err has_shuth closeh Hclose c w1 d1 err Hf1) as (w' & E & HI & _); [by destruct Hd1 as [->|[_ ->]]..|]. by exists w'.
Qed.

Lemma close_safe c w d err : going c w d ->
  exists w', conn_close alloc_ok junk rnd send_err has_shuth closeh c err w = Some (tt, w') /\ INV w' /\ (c_own d = false -> gone c w').
Proof using Hrnd Hclose. intros (Hfo & Hr & Hst). by apply conn_close_run. Qed.

Lemma going_inv c w d : going c w d -> INV w.
Proof using. intros (H1 & H2 & _). by eapply inv_of. Qed.

Lemma kept_left o d : kept o d -> default 0 (mbuf_get_left <$> o) = zlen d.
Proof using. destruct o as [mb|]; [by apply content_left|]. by intros ->. Qed.

Lemma recv_safe c w d mb d0 chunk : going c w d -> kept (c_mb d) d0 -> is_bytes d0 -> content mb chunk -> is_bytes chunk ->
  default 0 (mb_end <$> c_mb d) + zlen chunk <= SIZE_MAX -> zlen d0 + zlen chunk <= 2 ^ 61 ->
  (wild_ahead (d0 ++ chunk) /\ recv_handler alloc_ok junk rnd send_err has_shuth recvh closeh c mb w = None) \/
  exists w', recv_handler alloc_ok junk rnd send_err has_shuth recvh closeh c mb w = Some (tt, w') /\ INV w'.
Proof using Hrnd Hrecv Hclose.
  intros Hg Hk Hb Hc Hbc Hs Hz. unfold recv_handler. destruct (append_safe c w d mb d0 chunk Hg Hk Hb Hc Hbc Hs) as (err & w1 & d1 & E1 & Hg1 & Hk1). rewrite (run_bind _ _ _ _ _ E1).
  set (m := if negb (err =? 0) then _ else _). assert (Hl : (wild_ahead (d0 ++ chunk) /\ m w1 = None) \/ left_by c (m w1)).
  { unfold m. destruct (Z.eqb_spec err 0) as [->|Hne]; cbn [negb]; [|right; by eapply left_now]. rewrite (run_bind _ _ w1 d1 w1) by (apply get_run, Hg1). specialize (Hk1 eq_refl).
    apply (loop_safe _ c w1 d1); [done|done|by apply Forall_app|rewrite zlen_app; lia|]. rewrite (kept_left _ _ Hk1). unfold zlen. lia. }
  destruct Hl as [[Hl Hn]|(e & closed & w2 & E2 & H2)]; [left; split; [done|]; unfold mbind at 1, M_bind at 1; by rewrite Hn|right]. rewrite (run_bind _ _ _ _ _ E2). destruct closed.
  - destruct H2 as [-> HI]. by exists w2.
  - destruct H2 as (d2 & Hg2). destruct (Z.eqb_spec e 0) as [->|He]; cbn [negb when]; [exists w2; split; [done|by eapply going_inv]|]. by apply (fail_safe c w2 d2).
Qed.

(** ** The timers *)

Lemma keepalive_safe c w d : going c w d -> c_own d = true -> exists w', keepalive_handler alloc_ok junk rnd send_err c w = Some (tt, w') /\ INV w'.
Proof using Hrnd.
  intros (Hfo & Hr & Hst) Hown. unfold keepalive_handler. rewrite (run_bind _ _ _ _ _ (upd_run c d _ w (fo_conn _ _ _ _ Hfo))). set (d1 := upd_tmr _ d). set (w1 := set_conns _ w).
  assert (Hf1 : focus c w1 d1 0).
  { eapply focus_upd; [exact Hfo|done|done|done|]. destruct (fo_cinv _ _ _ _ Hfo) as [C1 C2 C3 C4 C5 C6 C7]. split; try done; cbn; congruence. }
  destruct (send_focus alloc_ok junk rnd Hrnd send_err c w1 d1 0 WEBSOCK_PING 0 None Hf1 ltac:(done) ltac:(done)) as (err & w2 & E2 & Hf2 & _).
  unfold websock_send. rewrite (run_bind _ _ _ _ _ E2). exists w2. split; [done|]. by eapply inv_of.
Qed.

(** ** The handshake *)

Context (sha1 : list Z -> list Z) (Hsha : forall l, is_bytes (sha1 l)).

Lemma accepted_run nonce msg : exists b, accepted sha1 nonce msg = Some b.
Proof using Hsha.
  unfold accepted. repeat (case_match; [by eexists|]). case_match; [|by eexists]. unfold accept_print.
  destruct (B64.base64_print_encodes (sha1 (nonce ++ magic)) (Hsha _)) as (out & _ & E). unfold B64.collect in E. rewrite E. by eexists.
Qed.

Lemma resp_safe c w d err msg : going c w d -> c_own d = true ->
  exists w', http_resp_handler alloc_ok junk rnd send_err has_shuth estabh closeh sha1 c err msg w = Some (tt, w') /\ INV w'.
Proof using Hrnd Hestab Hclose Hsha.
  intros (Hfo & Hr & Hst) Hown. unfold http_resp_handler. rewrite (run_bind _ _ w d w) by (apply get_run, Hfo).
  assert (Hok : exists ok, (if negb (err =? 0) then mret false else of_option (accepted sha1 (nonce d) msg)) w = Some (ok, w)).
  { destruct (negb _); [by eexists|]. destruct (accepted_run (nonce d) msg) as [b E]. exists b. unfold of_option. by rewrite E. }
  destruct Hok as [ok Hok]. rewrite (run_bind _ _ _ _ _ Hok). destruct ok; cbn [negb].
  2: { destruct (conn_close_run alloc_ok junk rnd Hrnd send_err has_shuth closeh Hclose c w d (if negb (err =? 0) then err else EPROTO) Hfo Hr Hst) as (w' & E & HI & _). by exists w'. }
  destruct (focus_state c w d 0 OPEN Hfo Hst ltac:(done)) as (w1 & E1 & Hf1); [congruence|]. rewrite (run_bind _ _ _ _ _ E1).
  assert (H2 : exists w2 d2, when (negb (kaint d =? 0)) (upd_conn c (upd_tmr (Some (Keepalive, kaint d)))) w1 = Some (tt, w2) /\ focus c w2 d2 0 /\ 1 <= refs d2 /\ state d2 = OPEN).
  { destruct (negb (kaint d =? 0)); cbn [when]; [|exists w1, (upd_state OPEN d); split; [done|]; split; [done|]; split; [exact Hr|done]]. rewrite (upd_run c _ _ w1 (fo_conn _ _ _ _ Hf1)). eexists _, (upd_tmr (Some (Keepalive, kaint d)) (upd_state OPEN d)). split; [done|]. split; [|split; [exact Hr|done]].
    eapply focus_upd; [exact Hf1|done|done|done|]. destruct (fo_cinv _ _ _ _ Hf1) as [C1 C2 C3 C4 C5 C6 C7]. split; try done; cbn in *; congruence. }
  destruct H2 as (w2 & d2 & E2 & Hf2 & Hr2 & Hst2). rewrite (run_bind _ _ _ _ _ E2). set (w3 := mk_world (conns w2) (sock w2) (log w2 ++ [Ev_estab c]) (draws w2)).
  rewrite (run_bind (emit (Ev_estab c)) _ w2 tt w3 eq_refl). assert (Hf3 : focus c w3 d2 0) by (apply (focus_event c w2 d2 0 (Ev_estab c)); try done; by rewrite Hst2).
  destruct (actions_run alloc_ok junk rnd Hrnd send_err has_shuth c w3 d2 0 (estabh c) Hf3 Hr2 ltac:(done) (Hestab c)) as (w' & E & Hs). exists w'. split; [exact E|]. by eapply stays_inv.
Qed.

(** ** New connections *)

Lemma create_focus c w w' d k s : INV w -> conns w !! c = None -> sock w = Some s -> cinv (log w) c d k ->
  conns w' = <[c := d]> (conns w) -> sock w' = Some (mk_sock (s_shutdown s) (s_refs s + 1)) -> log w' = log w -> focus c w' d k.
Proof using.
  intros ((s' & S1 & S2 & S3 & S4) & Hc & Hn) Hnone Hs Hd Ec Es El. rewrite Hs in S1. injection S1 as <-. split; [|rewrite Ec; apply lookup_insert_eq|by rewrite El|].
  - apply (others_step c w w' []); [split; auto| |by rewrite app_nil_r|constructor]. intros c' Hne. rewrite Ec. by apply lookup_insert_ne.
  - eexists. split; [exact Es|]. rewrite Ec, El, map_size_insert_None by done. cbn. split; [lia|]. split; [lia|done].
Qed.

(** A connection that was not completed is scrapped. *)
Lemma scrap_run c w : INV w -> conns w !! c = None -> fresh_id c (log w) ->
  exists w', (modify (fun w => set_conns (<[c := mk_conn None [] false false None false ACCEPTING 0 false 1 false]> (conns w)) w) ;; conn_deref alloc_ok junk rnd send_err has_shuth c) w = Some (tt, w') /\ INV w'.
Proof using.
  intros ((s & S1 & S2 & S3 & S4) & Hc & Hn) Hnone Hf. set (d := mk_conn _ _ _ _ _ _ _ _ _ _ _). rewrite modify_bind. set (w1 := set_conns (<[c := d]> (conns w)) w).
  assert (H1 : conns w1 !! c = Some d) by apply lookup_insert_eq. unfold conn_deref. rewrite (run_bind _ _ w1 d w1) by (by apply get_run).
  rewrite (run_bind _ _ _ _ _ (upd_run c d _ w1 H1)). set (d2 := upd_refs _ d). set (w2 := set_conns _ w1). assert (H2 : conns w2 !! c = Some d2) by apply lookup_insert_eq.
  change (refs d <=? 1) with true. cbn [when]. unfold conn_destructor. rewrite (run_bind _ _ w2 d2 w2) by (by apply get_run). change (state d2) with ACCEPTING. rewrite !bool_decide_false by done.
  cbn [when]. rewrite (run_bind (mret tt) _ w2 tt w2 eq_refl), (run_bind _ _ w2 d2 w2) by (by apply get_run). change (state d2) with ACCEPTING. rewrite bool_decide_false by done.
  eexists. split; [done|]. cbn [conns sock log set_conns w2 w1]. rewrite insert_insert_eq, delete_insert_id by done.
  assert (Hph : forall c', c' <> c -> phase c' (log w ++ [Ev_free c]) = phase c' (log w)) by (intros; apply phase_other; cbn; congruence).
  assert (Hfr : forall c', c' <> c -> fresh_id c' (log w) -> fresh_id c' (log w ++ [Ev_free c])) by (intros c' Hne Hx; apply Forall_app; split; [done|constructor; [cbn; congruence|constructor]]).
  split; [|split]; cbn [conns sock log].
  - exists s. split_and!; try done. by apply shut_snoc.
  - intros c' d' Hd'. assert (c' <> c) by congruence. destruct (Hc c' d' Hd') as [[] ?]. split; [|done]. split; try done. by rewrite Hph.
  - intros c' Hd'. destruct (decide (c' = c)) as [->|Hne].
    + left. rewrite phase_snoc, (fresh_phase _ _ Hf). unfold advance. by rewrite bool_decide_true.
    + rewrite Hph by done. destruct (Hn c' Hd') as [?|?]; [by left|right; by apply Hfr].
Qed.

Context (Hrnd16 : forall k, length (rnd k 16) = 16%nat /\ is_bytes (rnd k 16)).

Lemma nonce_run k : exists nc, B64.base64_encode (rnd k 16) 24 = Some (0, nc).
Proof using Hrnd16.
  destruct (Hrnd16 k) as [Hl Hb]. destruct (B64.encode_decode _ Hb) as (out & E & Ho & _). unfold B64.base64_encode. unfold zlen in *. rewrite Hl in *. rewrite E. exists out.
  change (Z.of_nat 16) with 16 in *. change (_ <? _) with false. cbn [mbind option_bind]. unfold B64.fits, zlen. by rewrite Ho.
Qed.

Lemma sock_ref_run w s : sock w = Some s -> sock_ref w = Some (tt, mk_world (conns w) (Some (mk_sock (s_shutdown s) (s_refs s + 1))) (log w) (draws w)).
Proof using. intros Hs. unfold sock_ref, mbind at 1, M_bind at 1. by rewrite Hs. Qed.

Lemma connect_safe c w interval req_err : INV w -> conns w !! c = None -> fresh_id c (log w) ->
  exists err w', websock_connect alloc_ok junk rnd send_err has_shuth c interval req_err w = Some (err, w') /\ INV w'.
Proof using Hrnd Hrnd16.
  intros HI Hnone Hf. unfold websock_connect. destruct (alloc_ok 288); cbn [negb]; [|by exists ENOMEM, w].
  set (w1 := mk_world (conns w) (sock w) (log w) (S (draws w))). rewrite (run_bind (rand_bytes rnd 16) _ w (rnd (draws w) 16) w1 eq_refl).
  destruct (nonce_run (draws w)) as (nc & Enc). unfold of_option. rewrite Enc, (run_bind _ _ w1 _ w1 eq_refl). cbn [negb Z.eqb].
  assert (HI1 : INV w1) by exact HI. destruct HI1 as ((s & S1 & _) & _). rewrite (run_bind _ _ _ _ _ (sock_ref_run w1 s S1)).
  set (d := mk_conn _ nc _ _ _ _ _ _ _ _ _). set (w2 := mk_world _ _ _ _). rewrite modify_bind. set (w3 := set_conns (<[c := d]> (conns w2)) w2).
  assert (Hfo : forall k, 1 = Z.b2z (req_err =? 0) + 0 + k -> focus c w3 d k).
  { intros k Hk. apply (create_focus c w w3 d k s); try done. split; try done; cbn; [exists []; split; [done|constructor]|]. by apply fresh_phase. }
  destruct (Z.eqb_spec req_err 0) as [->|Hne]; cbn [negb].
  - exists 0, w3. split; [done|]. by apply (inv_of c d); [apply Hfo|].
  - destruct (deref_last alloc_ok junk rnd Hrnd send_err has_shuth c w3 d) as (w' & E & Hd); [by apply Hfo|done|]. rewrite (run_bind _ _ _ _ _ E). exists req_err, w'. split; [done|].
    destruct Hd as [(d' & H1 & H2 & _)|[_ Hg]]; [by eapply inv_of|by eapply inv_gone].
Qed.

Lemma accept_safe c w msg interval reply_err : INV w -> conns w !! c = None -> fresh_id c (log w) ->
  exists err w', websock_accept alloc_ok junk rnd send_err has_shuth c msg interval reply_err w = Some (err, w') /\ INV w'.
Proof using.
  intros HI Hnone Hf. unfold websock_accept. do 3 (case_match; [by eexists _, w|]). case_match; [|by eexists _, w]. destruct (alloc_ok 288); cbn [negb]; [|by eexists _, w].
  destruct (negb (reply_err =? 0)).
  - destruct (scrap_run c w HI Hnone Hf) as (w' & E & HI'). exists reply_err, w'. split; [|done]. cbv zeta. rewrite modify_bind. unfold mbind at 1, M_bind at 1, modify in E. by rewrite (run_bind _ _ _ _ _ E).
  - pose proof HI as ((s & S1 & _) & _). rewrite (run_bind _ _ _ _ _ (sock_ref_run w s S1)). eexists 0, _. split; [done|]. eapply (inv_of c); [|by instantiate (1 := mk_conn _ _ _ _ _ _ _ _ _ 1 _)].
    apply (create_focus c w _ _ 0 s); try done. split; try done; cbn; [exists []; split; [done|constructor]|]. by apply fresh_phase.
Qed.

(** ** Shutting down *)

Lemma shutdown_safe w : INV w -> exists w', websock_shutdown has_shuth w = Some (tt, w') /\ INV w'.
Proof using.
  intros ((s & S1 & S2 & S3 & S4) & Hc & Hn). unfold websock_shutdown, mbind at 1, M_bind at 1. rewrite S1. cbn [mbind option_bind]. destruct (s_shutdown s) eqn:Es; [exists w; split; [done|]; split; [|done]; exists s; rewrite Es; by split_and!|].
  unfold put_sock at 1. rewrite modify_bind. set (w1 := mk_world (conns w) (Some (mk_sock true (s_refs s))) (log w) (draws w)). unfold sock_deref, mbind at 1, M_bind at 1. cbn [sock w1 mbind option_bind s_refs s_shutdown]. cbn in S2.
  destruct (Z.ltb_spec 1 (s_refs s)) as [H1|H1].
  - eexists. split; [done|]. split; [|done]. eexists. split; [done|]. cbn. split; [lia|]. split; [lia|done].
  - assert (He : conns w = ∅) by (apply map_size_empty_iff; lia).
    assert (Hg : all_gone (log w)) by (intros c; apply Hn; by rewrite He).
    assert (Hsn : forall l, l = log w \/ l = log w ++ [Ev_shutdown] -> INV (mk_world (conns w) (Some (mk_sock false 1)) l (draws w))).
    { intros l Hl. split; [|split]; cbn [conns sock log].
      - exists (mk_sock false 1). cbn. rewrite He, map_size_empty. split_and!; try done. destruct Hl as [->| ->]; [done|by apply shut_snoc].
      - intros c d Hd. by rewrite He in Hd.
      - intros c _. destruct Hl as [->| ->]; [apply Hg|]. rewrite phase_other by done. destruct (Hg c) as [?|?]; [by left|right]. apply Forall_app. split; [done|by constructor]. }
    destruct has_shuth; eexists; (split; [done|]); apply Hsn; auto.
Qed.

End Safe.
