(* ===== verification/WebsockTheorems.v ===== *)
(** * Web sockets: delivery and life cycle

    What is sent on one side of a connection is received on the other, and
    what happens to the connections of a socket under any sequence of events. *)

From stdpp Require Import gmap.
From S2P Require Import Prelude Effects Mbuf MbufProps Rtp Codec Base64 Websock WebsockFrames WebsockRecv WebsockLife WebsockSafe.
Import Mb Ws.

(** ** Events *)

Section Events.
Context (alloc_ok : Z -> bool) (junk : Z -> Z).
Context (rnd : nat -> Z -> list Z) (send_err : list event -> Z) (has_shuth : bool).
Context (estabh : nat -> list event -> list action) (recvh : nat -> list event -> websock_hdr -> list Z -> list action) (closeh : nat -> list event -> Z -> list action).
Context (sha1 : list Z -> list Z).

Inductive input :=
| In_connect (interval req_err : Z)
| In_accept (msg : http_msg) (interval reply_err : Z)
| In_shutdown
| In_response (tcp : bool) (err : Z) (msg : http_msg)
| In_data (mb : mbuf)
| In_closed (err : Z)
| In_timer
| In_app (a : action).

(** The HTTP client hands over its TCP connection before it reports the
    response. *)
Definition exec (c : nat) (i : input) : M world unit :=
  match i with
  | In_connect interval req_err => websock_connect alloc_ok junk rnd send_err has_shuth c interval req_err ;; mret tt
  | In_accept msg interval reply_err => websock_accept alloc_ok junk rnd send_err has_shuth c msg interval reply_err ;; mret tt
  | In_shutdown => websock_shutdown has_shuth
  | In_response tcp err msg => when tcp (http_conn_handler c) ;; http_resp_handler alloc_ok junk rnd send_err has_shuth estabh closeh sha1 c err msg
  | In_data mb => recv_handler alloc_ok junk rnd send_err has_shuth recvh closeh c mb
  | In_closed err => close_handler alloc_ok junk rnd send_err has_shuth closeh c err
  | In_timer =>
    d ← get_conn c;
    match c_tmr d with
    | Some (Keepalive, _) => keepalive_handler alloc_ok junk rnd send_err c
    | Some (Timeout, _) => timeout_handler alloc_ok junk rnd send_err has_shuth closeh c
    | None => mret tt
    end
  | In_app a => run_action alloc_ok junk rnd send_err has_shuth c a
  end.

(** When an event can happen: a new connection is a new object, HTTP reports
    the one response of a request, data and the end come from the TCP
    connection, and both buffers fit into memory. *)
Definition enabled (c : nat) (i : input) (w : world) : Prop :=
  match i with
  | In_connect _ _ | In_accept _ _ _ => conns w !! c = None /\ fresh_id c (log w)
  | In_shutdown => True
  | In_response _ _ _ => exists d, conns w !! c = Some d /\ state d = CONNECTING
  | In_data mb => exists d chunk, conns w !! c = Some d /\ c_tc d = true /\ content mb chunk /\ is_bytes chunk /\ default 0 (mb_end <$> c_mb d) + zlen chunk <= 2 ^ 61
  | In_closed _ => exists d, conns w !! c = Some d /\ c_tc d = true
  | In_timer => exists d, conns w !! c = Some d /\ c_tmr d <> None
  | In_app a => decent a
  end.

Definition ws_init : world := mk_world ∅ (Some (mk_sock false 1)) [] 0.

Inductive reach : world -> Prop :=
| reach_init : reach ws_init
| reach_step w c i w' : reach w -> enabled c i w -> exec c i w = Some (tt, w') -> reach w'.

(** The data that has arrived holds a masked frame of 2^64 - 4 bytes or more. *)
Definition wild_data (c : nat) (i : input) (w : world) : Prop :=
  exists mb d d0 chunk, i = In_data mb /\ conns w !! c = Some d /\ kept (c_mb d) d0 /\ content mb chunk /\ wild_ahead (d0 ++ chunk).

Context (Hrnd : forall k, length (rnd k 4) = 4%nat /\ is_bytes (rnd k 4)) (Hrnd16 : forall k, length (rnd k 16) = 16%nat /\ is_bytes (rnd k 16)).
Context (Hestab : forall c l, Forall decent (estabh c l)) (Hrecv : forall c l h p, Forall decent (recvh c l h p)) (Hclose : forall c l e, Forall decent (closeh c l e)).
Context (Hsha : forall l, is_bytes (sha1 l)).

Lemma init_inv : INV ws_init.
Proof using.
  split; [|split].
  - exists (mk_sock false 1). cbn. rewrite map_size_empty. split_and!; try done. intros l1 l2 E. by destruct l1.
  - intros c d Hd. cbn in Hd. by rewrite lookup_empty in Hd.
  - intros c _. by right; constructor.
Qed.

Lemma going_of c w d : INV w -> conns w !! c = Some d -> state d <> CLOSED -> going c w d.
Proof using. intros HI Hd Hst. by destruct (focus_of c d w HI Hd). Qed.

Lemma data_exec c w mb : INV w -> enabled c (In_data mb) w ->
  (wild_data c (In_data mb) w /\ exec c (In_data mb) w = None) \/ exists w', exec c (In_data mb) w = Some (tt, w') /\ INV w'.
Proof using Hrnd Hrecv Hclose.
  intros HI (d & chunk & Hd & Htc & Hc & Hb & Hz). destruct (focus_of c d w HI Hd) as [Hfo Hr]. destruct (ci_mb _ _ _ _ (fo_cinv _ _ _ _ Hfo)) as (d0 & Hk & Hb0).
  assert (Hst : state d <> CLOSED) by (intros Hx; destruct (ci_closed _ _ _ _ (fo_cinv _ _ _ _ Hfo) Hx); congruence).
  assert (Hd0 : zlen d0 <= default 0 (mb_end <$> c_mb d)).
  { destruct (c_mb d) as [cmb|]; cbn in *; [|by subst d0]. destruct Hk as [[(_ & Hp & _) _] He]. lia. }
  destruct (recv_safe alloc_ok junk rnd Hrnd send_err has_shuth recvh closeh Hrecv Hclose c w d mb d0 chunk) as [[Hw Hn]|H]; try done; [unfold SIZE_MAX; lia|lia|left; split; [by exists mb, d, d0, chunk|done]|by right].
Qed.

Lemma response_exec c w tcp err msg : INV w -> enabled c (In_response tcp err msg) w -> exists w', exec c (In_response tcp err msg) w = Some (tt, w') /\ INV w'.
Proof using Hrnd Hestab Hclose Hsha.
  intros HI (d & Hd & Hst). destruct (focus_of c d w HI Hd) as [Hfo Hr]. assert (Hown : c_own d = true).
  { destruct (c_own d) eqn:E; [done|]. destruct (ci_own _ _ _ _ (fo_cinv _ _ _ _ Hfo) E). congruence. }
  assert (H1 : exists w1 d1, when tcp (http_conn_handler c) w = Some (tt, w1) /\ going c w1 d1 /\ c_own d1 = true).
  { destruct tcp; cbn [when]; [|exists w, d; split; [done|]; split; [split; [done|]; split; [done|by rewrite Hst]|done]]. unfold http_conn_handler. rewrite (upd_run c d _ w Hd).
    eexists _, (upd_tc true d). split; [done|]. split; [|done]. split; [|split; [done|cbn; congruence]]. eapply focus_upd; [exact Hfo|done|done|done|].
    destruct (fo_cinv _ _ _ _ Hfo) as [C1 C2 C3 C4 C5 C6 C7]. split; try done; cbn; congruence. }
  destruct H1 as (w1 & d1 & E1 & Hg & Hown1). cbn [exec]. rewrite (run_bind _ _ _ _ _ E1). by apply (resp_safe alloc_ok junk rnd Hrnd send_err has_shuth estabh closeh Hestab Hclose sha1 Hsha c w1 d1).
Qed.

Lemma timer_exec c w d : INV w -> conns w !! c = Some d -> c_tmr d <> None ->
  exists w', exec c In_timer w = Some (tt, w') /\ INV w' /\ (c_own d = false -> gone c w').
Proof using Hrnd Hclose.
  intros HI Hd Ht. destruct (focus_of c d w HI Hd) as [Hfo Hr]. pose proof (fo_cinv _ _ _ _ Hfo) as [C1 C2 C3 C4 C5 C6 C7]. cbn [exec]. rewrite (run_bind _ _ w d w) by (by apply get_run).
  assert (Hg : going c w d) by (apply going_of; [done|done|]; intros Hx; by destruct (C4 Hx)). destruct (c_tmr d) as [[[|] t]|] eqn:E; [..|done].
  - assert (Hown : c_own d = true) by (destruct (c_own d) eqn:Eo; [done|]; destruct (C3 eq_refl) as [? ?]; congruence).
    destruct (keepalive_safe alloc_ok junk rnd Hrnd send_err c w d Hg Hown) as (w' & E' & HI'). exists w'. split; [done|]. split; [done|congruence].
  - by apply close_safe.
Qed.

Lemma event_exec c i w : INV w -> enabled c i w -> (wild_data c i w /\ exec c i w = None) \/ exists w', exec c i w = Some (tt, w') /\ INV w'.
Proof using Hrnd Hrnd16 Hestab Hrecv Hclose Hsha.
  intros HI Hen. destruct i as [interval e|msg interval e| |tcp e msg|mb|e| |a].
  - right. destruct Hen as [Hn Hf]. destruct (connect_safe alloc_ok junk rnd Hrnd send_err has_shuth Hrnd16 c w interval e HI Hn Hf) as (err & w' & E & H). exists w'. cbn [exec]. by rewrite (run_bind _ _ _ _ _ E).
  - right. destruct Hen as [Hn Hf]. destruct (accept_safe alloc_ok junk rnd send_err has_shuth c w msg interval e HI Hn Hf) as (err & w' & E & H). exists w'. cbn [exec]. by rewrite (run_bind _ _ _ _ _ E).
  - right. by apply shutdown_safe.
  - right. by apply response_exec.
  - by apply data_exec.
  - right. destruct Hen as (d & Hd & Htc). destruct (focus_of c d w HI Hd) as [Hfo _].
    destruct (close_safe alloc_ok junk rnd Hrnd send_err has_shuth closeh Hclose c w d e) as (w' & E & H & _); [|by exists w'].
    apply going_of; [done|done|]. intros Hx. destruct (ci_closed _ _ _ _ (fo_cinv _ _ _ _ Hfo) Hx). congruence.
  - right. destruct Hen as (d & Hd & Ht). destruct (timer_exec c w d HI Hd Ht) as (w' & E & H & _). by exists w'.
  - right. cbn [exec]. destruct (conns w !! c) as [d|] eqn:Hd.
    + destruct (focus_of c d w HI Hd) as [Hfo Hr]. destruct (action_run alloc_ok junk rnd Hrnd send_err has_shuth c w d 0 a Hfo Hr ltac:(done) Hen) as (w' & E & Hs). exists w'. split; [done|by eapply stays_inv].
    + exists w. split; [|done]. unfold run_action. by rewrite gets_bind, Hd.
Qed.

Lemma reach_inv w : reach w -> INV w.
Proof using Hrnd Hrnd16 Hestab Hrecv Hclose Hsha.
  induction 1 as [|w c i w' _ IH Hen E]; [apply init_inv|]. destruct (event_exec c i w IH Hen) as [[_ Hn]|(w2 & E2 & HI)]; [congruence|]. rewrite E2 in E. by injection E as <-.
Qed.

(** C5: whatever TCP, HTTP, the timers and the application do, in any order,
    every event on the connections of a socket is defined: no connection is
    used after it was freed, whether a handler of the application closes it,
    releases it or sends on it, and whatever allocations fail; the one
    exception is data with a masked frame whose 64-bit length does not leave
    room for the key.  Every connection has its handlers called while it
    exists, its close handler once at most and as the last one; its references
    are those of the application and of itself while it is closing; the one
    that the application released is freed when its timer fires; and the
    socket is told of the end when no connection is left. *)
Theorem websock_lifecycle w (Hreach : reach w) :
  (forall c i, enabled c i w -> (exists w', exec c i w = Some (tt, w')) \/ (wild_data c i w /\ exec c i w = None)) /\
  (forall c, phase c (log w) <> None) /\
  (forall c d, conns w !! c = Some d -> refs d = Z.b2z (held d) + Z.b2z (negb (c_own d)) /\ 1 <= refs d /\ phase c (log w) <> Some Gone) /\
  (forall c d, conns w !! c = Some d -> c_own d = false -> exists w', exec c In_timer w = Some (tt, w') /\ conns w' !! c = None /\ phase c (log w') = Some Gone) /\
  (exists s, sock w = Some s /\ s_refs s = Z.of_nat (size (conns w)) + Z.b2z (negb (s_shutdown s)) /\ (s_shutdown s = true -> conns w <> ∅)) /\
  (forall l1 l2, log w = l1 ++ Ev_shutdown :: l2 -> forall c, phase c l1 = Some Gone \/ fresh_id c l1).
Proof using Hrnd Hrnd16 Hestab Hrecv Hclose Hsha.
  pose proof (reach_inv w Hreach) as HI. pose proof HI as ((s & S1 & S2 & S3 & S4) & Hc & Hn). split_and!.
  - intros c i Hen. destruct (event_exec c i w HI Hen) as [H|(w' & E & _)]; [by right|left; by exists w'].
  - intros c. destruct (conns w !! c) as [d|] eqn:Hd; [by rewrite (ci_phase _ _ _ _ (proj1 (Hc c d Hd)))|]. destruct (Hn c Hd) as [->|Hf]; [done|]. by rewrite (fresh_phase _ _ Hf).
  - intros c d Hd. destruct (Hc c d Hd) as [[C1 C2 C3 C4 C5 C6 C7] Hr]. split; [lia|]. split; [done|]. rewrite C7. by destruct (bool_decide _).
  - intros c d Hd Hown. destruct (Hc c d Hd) as [[C1 C2 C3 C4 C5 C6 C7] Hr]. destruct (C3 Hown) as [t Ht]. destruct (timer_exec c w d HI Hd) as (w' & E & _ & Hg); [by rewrite Ht|].
    destruct (Hg Hown) as (_ & H1 & H2 & _). by exists w'.
  - exists s. split_and!; try done. intros Hs He. specialize (S3 Hs). rewrite He, map_size_empty in S3. lia.
  - exact S4.
Qed.

End Events.

(** ** Delivery *)

Definition sent (c : nat) (l : list event) : list Z :=
  concat (omap (fun e => match e with Ev_send c' d => if bool_decide (c' = c) then Some d else None | _ => None end) l).

Lemma sent_app c l l' : sent c (l ++ l') = sent c l ++ sent c l'.
Proof. unfold sent. by rewrite omap_app, concat_app. Qed.

Definition send_all (alloc_ok : Z -> bool) (junk : Z -> Z) (rnd : nat -> Z -> list Z) (send_err : list event -> Z) (c : nat) (msgs : list (Z * list Z)) : M world unit :=
  for_each (fun m => websock_send alloc_ok junk rnd send_err c m.1 (Some m.2) ;; mret tt) msgs.

(** Messages that an application may send. *)
Definition sendable (F : Z) (m : Z * list Z) : Prop := (is_data m.1 = true \/ m.1 = WEBSOCK_PING \/ m.1 = WEBSOCK_PONG) /\ is_bytes m.2 /\ zlen m.2 + 14 <= F.

Lemma frame_size_le op key body : key_ok key -> zlen (frame op key body) <= zlen body + 14.
Proof.
  intros Hk. unfold frame. rewrite zlen_cons, zlen_app.
  assert (zlen (len_bytes (match key with Some _ => 128 | None => 0 end) (zlen body)) <= 9) by (unfold len_bytes; repeat case_match; done).
  destruct key as [k|]; [|lia]. rewrite zlen_app, xor_key_len. assert (zlen k = 4) by (unfold zlen; by rewrite (proj1 Hk)). lia.
Qed.

Lemma send_all_run alloc_ok junk rnd send_err F c d msgs : (forall n, alloc_ok n = true) -> (forall k, length (rnd k 4) = 4%nat /\ is_bytes (rnd k 4)) ->
  F <= 2 ^ 61 -> state d = OPEN -> c_tc d = true -> Forall (sendable F) msgs -> forall w, conns w !! c = Some d ->
  exists w' ms, send_all alloc_ok junk rnd send_err c msgs w = Some (tt, w') /\ sent c (log w') = sent c (log w) ++ stream ms /\
    map (fun m => (m_op m, m_body m)) ms = msgs /\ Forall (fair (negb (active d))) ms /\ Forall (fun m => zlen (enc m) <= F) ms.
Proof.
  intros Hmem Hrnd HF Ho Htc Hms. induction Hms as [|[op body] msgs (Hop & Hb & Hz) Hms IH]; intros w Hd; cbn [fst snd] in *; unfold send_all; cbn [for_each fst snd].
  - exists w, []. split_and!; try constructor. by rewrite app_nil_r.
  - assert (Hop' : 0 <= op < 16) by (destruct Hop as [Hx|[->| ->]]; [unfold is_data, WEBSOCK_CONT, WEBSOCK_TEXT, WEBSOCK_BIN in Hx; lia|done|done]).
    assert (Hk : key_ok (key_of rnd d (draws w))) by (by apply key_of_ok).
    destruct (vsend_run alloc_ok junk rnd Hrnd send_err c d op 0 (Some body) w Hd Ho Hop') as (err & w1 & E1 & H1 & H2 & _ & H3); [unfold body_of; cbn [Z.eqb app default]; cbn; lia|].
    destruct (H3 Hmem Htc) as [H4 _]. change (body_of 0 (Some body)) with body in H4. destruct (IH w1) as (w' & ms & E & I1 & I2 & I3 & I4); [by rewrite H1|].
    set (m := mk_message op (key_of rnd d (draws w)) body). exists w', (m :: ms). split; [|split_and!].
    + unfold websock_send. rewrite (run_bind _ _ w tt w1) by (by rewrite (run_bind _ _ _ _ _ E1)). exact E.
    + rewrite I1, H4, sent_app. unfold sent at 2. cbn. rewrite bool_decide_true by done. cbn. by rewrite app_nil_r, <- app_assoc.
    + cbn [map]. by rewrite I2.
    + constructor; [|done]. split; try done; cbn; [|lia]. unfold key_of. destruct (active d); [by rewrite bool_decide_true|rewrite bool_decide_false; [done|by intros [? ?]]].
    + constructor; [|done]. unfold enc. cbn. pose proof (frame_size_le op _ body Hk). lia.
Qed.

(** C6: the messages that an application sends on an open connection are
    received by the application at the other end, each once, complete and in
    order, however TCP cuts the bytes into pieces: as long as a frame and a
    piece fit into the receive buffer together, with masking one way and not
    the other, whatever the receiver sends meanwhile; pings and pongs are
    handled on the way, and nothing is left over. *)
Theorem websock_delivery alloc_ok junk rnd send_err rnd' send_err' has_shuth recvh closeh F C a da ws b db wr msgs
  (Hmem : forall n, alloc_ok n = true)
  (Hrnd : forall k, length (rnd k 4) = 4%nat /\ is_bytes (rnd k 4)) (Hrnd' : forall k, length (rnd' k 4) = 4%nat /\ is_bytes (rnd' k 4))
  (Hmild : forall c l h p, Forall mild (recvh c l h p))
  (HF : 0 < F) (HC0 : 0 <= C) (HC : F + C <= BUFSIZE_MAX)
  (Ha : conns ws !! a = Some da) (Hopen : state da = OPEN) (Htc : c_tc da = true)
  (Hb : conns wr !! b = Some db) (Hlive : live db) (Hrole : active db = negb (active da)) (Hidle : c_mb db = None)
  (Hmsgs : Forall (sendable F) msgs) :
  exists ws', send_all alloc_ok junk rnd send_err a msgs ws = Some (tt, ws') /\
  forall chunks, Forall (fun mc => pend (Some mc.1) mc.2 /\ is_bytes mc.2 /\ zlen mc.2 <= C) chunks ->
  sent a (log ws') = sent a (log ws) ++ concat (map snd chunks) ->
  exists wr' o, for_each (recv_handler alloc_ok junk rnd' send_err' has_shuth recvh closeh b) (map fst chunks) wr = Some (tt, wr') /\
    conns wr' = <[b := upd_mb o db]> (conns wr) /\ kept o [] /\
    map (fun hp => (opcode hp.1, hp.2)) (received b (log wr')) =
      map (fun hp => (opcode hp.1, hp.2)) (received b (log wr)) ++ List.filter (fun m => is_data m.1) msgs.
Proof.
  destruct (send_all_run alloc_ok junk rnd send_err F a da msgs Hmem Hrnd ltac:(unfold BUFSIZE_MAX in HC; lia) Hopen Htc Hmsgs ws Ha) as (ws' & ms & E & Hsent & Hmap & Hfair & Hlen).
  exists ws'. split; [done|]. intros chunks Hch Hs. rewrite Hsent in Hs. apply app_inv_head in Hs. rewrite <- Hrole in Hfair.
  destruct (chunks_run alloc_ok junk Hmem rnd' Hrnd' send_err' has_shuth recvh closeh Hmild F C chunks b db [] ms wr) as (wr' & Er & [(o & C1 & C2) _ C3]); try done.
  { by rewrite Hidle. }
  { constructor. }
  exists wr', o. split; [done|]. split; [done|]. split; [destruct o; [apply C2|exact C2]|]. rewrite C3, map_app. f_equal. rewrite <- Hmap. clear. unfold seen.
  induction ms as [|m ms IH]; [done|]. cbn. destruct (is_data (m_op m)); cbn; by rewrite IH.
Qed.

Definition wild_frame : list Z := [129; 255; 255; 255; 255; 255; 255; 255; 255; 255; 1; 2; 3; 4].

(** A masked frame with the length 2^64 - 1: the length plus the four bytes
    of the key wraps around, the frame counts as complete, and the key is
    applied to memory far outside the buffer. *)
Theorem websock_wild_length alloc_ok junk rnd send_err has_shuth recvh closeh c d w
  (Hd : conns w !! c = Some d) (Hidle : c_mb d = None) :
  recv_handler alloc_ok junk rnd send_err has_shuth recvh closeh c (mk_mbuf (Some wild_frame) 14 0 14) w = None.
Proof.
  unfold recv_handler, recv_append. rewrite (run_bind _ _ w 0 (set_conns (<[c := upd_mb (Some (mk_mbuf (Some wild_frame) 14 0 14)) d]> (conns w)) w)).
  2: { rewrite (run_bind _ _ w d w) by (by apply get_run). rewrite Hidle. by rewrite (run_bind _ _ _ _ _ (upd_run c d _ w Hd)). }
  set (w1 := set_conns _ w). cbn [negb Z.eqb]. assert (H1 : conns w1 !! c = Some (upd_mb (Some (mk_mbuf (Some wild_frame) 14 0 14)) d)) by apply lookup_insert_eq.
  unfold mbind at 1, M_bind at 1. rewrite (run_bind _ _ w1 _ w1) by (by apply get_run). cbn [recv_loop]. rewrite (run_bind _ _ w1 _ w1) by (by apply get_run).
  cbn [c_mb upd_mb]. assert (E : websock_decode (mk_mbuf (Some wild_frame) 14 0 14) = None) by (by vm_compute). unfold of_option at 1. by rewrite E.
Qed.

(** ** Witnesses *)

Definition wit_rnd (k : nat) (n : Z) : list Z := repeat 7 (Z.to_nat n).
Definition wit_msg : http_msg := mk_msg 0 (fun _ _ => true) (fun _ => Some []).
Definition wit_exec := exec (fun _ => true) (fun _ => 0) wit_rnd (fun _ => 0) true (fun _ _ => []) (fun _ _ _ _ => []) (fun _ _ _ => []) (fun _ => []).
Definition wit_reach := reach (fun _ => true) (fun _ => 0) wit_rnd (fun _ => 0) true (fun _ _ => []) (fun _ _ _ _ => []) (fun _ _ _ => []) (fun _ => []).
Definition wit_after (i : input) (w : world) : world := match wit_exec 0 i w with Some (_, w') => w' | None => w end.
Definition wit_open : world := wit_after (In_accept wit_msg 15000 0) ws_init.
Definition wit_released : world := wit_after (In_app A_release) wit_open.

(** A connection is accepted and released, and freed by its timer. *)
Lemma websock_lifecycle_witness : wit_reach wit_released /\ exists w', wit_exec 0 In_timer wit_released = Some (tt, w') /\ conns w' !! 0%nat = None.
Proof.
  assert (Hr : wit_reach wit_released).
  { apply (reach_step _ _ _ _ _ _ _ _ _ wit_open 0 (In_app A_release)); [|done|by vm_compute].
    apply (reach_step _ _ _ _ _ _ _ _ _ ws_init 0 (In_accept wit_msg 15000 0)); [constructor|split; [done|constructor]|by vm_compute]. }
  assert (H4 : forall k, length (wit_rnd k 4) = 4%nat /\ is_bytes (wit_rnd k 4)) by (intros k; split; [done|by repeat constructor]).
  assert (H16 : forall k, length (wit_rnd k 16) = 16%nat /\ is_bytes (wit_rnd k 16)) by (intros k; split; [done|by repeat constructor]).
  split; [done|].
  destruct (websock_lifecycle (fun _ => true) (fun _ => 0) wit_rnd (fun _ => 0) true (fun _ _ => []) (fun _ _ _ _ => []) (fun _ _ _ => []) (fun _ => []) H4 H16) with (w := wit_released)
    as (_ & _ & _ & H & _); [constructor..|exact Hr|].
  destruct (conns wit_released !! 0%nat) as [d|] eqn:E; [|by vm_compute in E].
  destruct (H 0%nat d E) as (w' & E' & Hn & _); [vm_compute in E; injection E as <-; done|]. by exists w'.
Defined.

Definition wit_sender : websock_conn := mk_conn None [] true true None true OPEN 0 true 1 true.
Definition wit_receiver : websock_conn := mk_conn None [] true true None true OPEN 0 false 1 true.
Definition wit_world (d : websock_conn) : world := mk_world {[ 0%nat := d ]} (Some (mk_sock false 2)) [] 0.
Definition wit_msgs : list (Z * list Z) := [(1, [104; 105]); (9, []); (2, [0; 255; 3])].
Definition wit_buf (l : list Z) : mbuf * list Z := (mk_mbuf (Some l) (zlen l) 0 (zlen l), l).

Definition wit_pieces : list (list Z) := [[129; 130; 7; 7; 7]; [7; 111; 110; 137; 128]; [7; 7; 7; 7; 130]; [131; 7; 7; 7; 7]; [7; 248; 4]].

(** Three frames in pieces of five bytes: the first ends inside a key. *)
Lemma websock_delivery_witness : exists (chunks : list (mbuf * list Z)) wr', Forall (fun mc => zlen mc.2 <= 5) chunks /\
  for_each (recv_handler (fun _ => true) (fun _ => 0) wit_rnd (fun _ => 0) true (fun _ _ _ _ => []) (fun _ _ _ => []) 0) (map fst chunks) (wit_world wit_receiver) = Some (tt, wr') /\
  map (fun hp => (opcode hp.1, hp.2)) (received 0 (log wr')) = [(1, [104; 105]); (2, [0; 255; 3])].
Proof.
  assert (H4 : forall k, length (wit_rnd k 4) = 4%nat /\ is_bytes (wit_rnd k 4)) by (intros k; split; [done|by repeat constructor]).
  assert (Hm : Forall (sendable 100) wit_msgs) by (repeat constructor; cbn; auto; done).
  assert (Hmild : forall (c : nat) (l : list event) (h : websock_hdr) (p : list Z), Forall mild []) by (intros; constructor).
  assert (Hl : live wit_receiver) by (by split_and!).
  destruct (websock_delivery (fun _ => true) (fun _ => 0) wit_rnd (fun _ => 0) wit_rnd (fun _ => 0) true (fun _ _ _ _ => []) (fun _ _ _ => []) 100 5
    0%nat wit_sender (wit_world wit_sender) 0%nat wit_receiver (wit_world wit_receiver) wit_msgs (fun _ => eq_refl) H4 H4 Hmild
    eq_refl ltac:(lia) ltac:(by vm_compute) eq_refl eq_refl eq_refl eq_refl Hl eq_refl eq_refl Hm) as (ws' & E & H).
  assert (Hs : sent 0 (log ws') = concat wit_pieces).
  { transitivity (match send_all (fun _ => true) (fun _ => 0) wit_rnd (fun _ => 0) 0 wit_msgs (wit_world wit_sender) with Some (_, w) => sent 0 (log w) | None => [] end); [by rewrite E|by vm_compute]. }
  clear E. destruct (H (map wit_buf wit_pieces)) as (wr' & o & Er & _ & _ & Hrec).
  { repeat constructor; done. }
  { exact Hs. }
  eexists _, wr'. split; [|split; [exact Er|exact Hrec]]. by repeat constructor.
Defined.

Lemma websock_wild_length_witness : is_Some (conns wit_open !! 0%nat) /\
  recv_handler (fun _ => true) (fun _ => 0) wit_rnd (fun _ => 0) true (fun _ _ _ _ => []) (fun _ _ _ => []) 0 (mk_mbuf (Some wild_frame) 14 0 14) wit_open = None.
Proof.
  destruct (conns wit_open !! 0%nat) as [d|] eqn:E; [|by vm_compute in E]. split; [by eexists|]. apply (websock_wild_length _ _ _ _ _ _ _ 0%nat d); [exact E|]. vm_compute in E. by injection E as <-.
Defined.
